(* ===== verification/_CoqProject ===== *)
-Q . S2P
Prelude.v
Fifo8.v
DspArith.v
DspDecode.v
DspCore.v
DspAddr.v
DspAlu.v
DspAluSpec.v
DspMove.v
DspInstr.v
DspInstrSpec.v
DspSafe.v
DspReturns.v
DspDma.v
DspRun.v
GpEp.v
DspSystem.v
Nv2a.v
Pfifo.v
PrimRewrite.v
VertexSubmit.v
ImageBlit.v
Pgraph.v
Swizzle.v
Sha1.v
Rc4.v
Eeprom.v
I2c.v
AmdSmbus.v
XboxSmbus.v
S3tc.v
Memory.v
Nvnet.v
UsbPacket.v
Xblc.v
Xid.v
Apu.v
Adpcm.v
Vp.v
VpFrame.v
VoiceSamples.v
Envelope.v
Lpc47m157.v
