(* ===== verification/Prelude.v ===== *)
(** * X1 BOX / xemu: verification of the emulated Xbox hardware

    The program is an emulator of the original Xbox with an Android front end:
    the device models of the console (src/hw/xbox) on top of a general emulator.
    This development models devices and pure routines of src/hw/xbox, and the
    routines of src/util and of the I2C and USB cores that they use, and proves
    what the rest of the emulator relies on.

    ** The parts and the files that model them

    Common:
    - [Prelude] (this file): the vocabulary. Outcomes of C code (normal return,
      failed assertion, undefined behaviour, out of fuel) with their bind;
      machine words as [Z] with the wrap-around written out; bit operations;
      [GET_MASK] and [SET_MASK]; register files as finite maps; bytes in memory
      ([slice], [blit], little-endian words) and lists indexed by [Z].
    - [Memory]: the guest's physical memory as the class [DmaMemory] with the laws
      [DmaMemoryLaws], and two memories that satisfy them.
    - [Fifo8] (util/fifo8.c): the circular byte queue, refined to a list.

    Audio unit (mcpx/apu):
    - [DspArith], [DspDecode], [DspCore] (dsp/dsp_cpu.c): the DSP. The 56-bit
      accumulator arithmetic; the opcode table, its masks, the search and the
      cache; registers, hardware stack, REP and DO loops, interrupts, memory
      spaces and the execution step, whose arguments are the instructions.
    - [DspAddr], [DspAlu], [DspMove], [DspInstr] (dsp/dsp_emu.c.inc): the
      instructions. Address updates, effective addresses, conditions and condition
      codes; the table of arithmetic operations, one definition per family with the
      accumulator and the operands as arguments; the parallel moves; and the
      functions of the opcode table, by name. [dsp_instruction] is the execution step
      with these instructions.
    - [DspAluSpec], [DspInstrSpec]: what the instructions compute. [DspSafe],
      [DspReturns]: none of them leaves the machine ill-typed or gets stuck by itself,
      relative to the peripherals ([SoundPeripherals]). [DspRun]: the run loop of
      [DspDma] with the instructions.
    - [DspDma] (dsp/dsp_dma.c, dsp/dsp.c): the DMA engine of a DSP with its chain
      of control blocks, the peripheral registers, bootstrap and the run loop. The
      memory on the other side is the class [DspIO].
    - [GpEp] (dsp/gp_ep.c): the two processors GP and EP, which implement [DspIO]
      by scatter-gather lists and ring buffers in RAM, and their MMIO windows.
    - [DspSystem]: instructions, peripheral registers, DMA engine and the RAM behind GP
      or EP together; it discharges [SoundPeripherals].
    - [Apu] (apu.c): registers, interrupt, and the frame thread that fills the
      FIFO which the audio callback empties, as an interleaving step relation.
    - [Vp], [VpFrame] (vp/vp.c): the voice processor. Its methods, the voices and
      their linked lists in guest memory, the locks, the walk of a frame over the
      lists and the distribution of voices to worker threads.
    - [Adpcm] (vp/adpcm.h), [VoiceSamples], [Envelope] (vp/vp.c): the decoder of
      compressed samples, the fetch of a voice's samples from buffers and streams,
      and the envelopes.

    Graphics chip (nv2a):
    - [Nv2a] (nv2a.c and one file per register block): interrupt controller,
      timers, PLLs, palette, overlay and channel windows, the PGRAPH register file,
      DMA objects and tile clipping, on one record [NV2AState].
    - [Pfifo] (pfifo.c): the command FIFO on the same record: the object hash
      table, the puller and the pusher. The graphics engine behind the puller is
      the class [Pgraph]; [PacketEngine] states what the pusher relies on.
    - [PrimRewrite] (pgraph/prim_rewrite.c): rewriting of index streams into
      lines and triangles in a growing buffer.
    - [VertexSubmit] (pgraph/pgraph.c, pgraph/vertex.c, gl/draw.c): the methods of
      the engine that submit vertices, with their dispatch, from the words of a
      packet to the draw that the OpenGL renderer is asked for.
    - [ImageBlit] (pgraph/pgraph.c, gl/blit.c, gl/surface.c): the copy and the blend
      of rectangles in the video memory of [Nv2a], with its DMA objects and tiles. What
      the renderer does with its surfaces is the class [Renderer].
    - [Pgraph] (pgraph/pgraph.c): the binding of objects to subchannels and the dispatch
      of methods to their classes, which implements the class [Pgraph] and discharges
      [PacketEngine] with the 2D classes. The 3D class is the class [Kelvin]; its
      methods that submit vertices are those of [VertexSubmit].
    - [Swizzle] (pgraph/swizzle.c), [S3tc] (pgraph/s3tc.c): conversion of textures
      between the linear and the Z-order layout, and their decompression.

    Board:
    - [Sha1], [Rc4] (util/sha1.c, util/rc4.c), [Eeprom] (eeprom_generation.c): the
      generation of the configuration EEPROM.
    - [I2c] (hw/i2c), [AmdSmbus] (amd_smbus.c), [XboxSmbus] (smbus_*.c): the bus,
      its controller and the devices on it, a stack of three classes.
    - [Nvnet] (mcpx/nvnet/nvnet.c): the network controller and its PHY.
    - [UsbPacket] (hw/usb/core.c), [Xblc] (xblc.c), [Xid] (xid.c, xid-gamepad.c):
      the headset and the gamepad.
    - [Lpc47m157] (lpc47m157.c): the Super I/O chip.

    Components interact as in the code. The DSP core's peripheral accesses run the
    DMA engine ([HasCore] is the core's view of the state it is part of, with the
    laws [HasCoreLaws]), which calls [DspIO], which [GpEp] provides. The puller of
    [Pfifo] calls the channel switch and the interrupt update of [Nv2a] and the method
    dispatch of [Pgraph], whose image blit class is [ImageBlit]. The SMBus
    controller runs transactions of [I2c] on the devices of [XboxSmbus]; the EEPROM
    device holds the image that [Eeprom] generates. The headset queues in [Fifo8].
    The voices that [Vp] switches on are fetched by [VoiceSamples], which decodes
    with [Adpcm], and end by the [Envelope] that [Vp] releases.

    ** How code becomes definitions

    A C function is a definition of the same name from a state to an [outcome];
    [assert] is [c_assert], an access outside an array and a shift by too much
    are [Undef]. Structures are records, enumerations inductive types, register
    arrays finite maps that read as zero where never written, byte arrays lists
    of [Z]. A loop is a [Fixpoint] on fuel that returns [NoFuel] when the fuel
    ends before the loop does; the theorems that say a loop returns give the fuel
    that is enough (as many rounds as bytes, vertices, words, voices or cycles;
    three for the hash of a 32-bit handle, whose rounds consume at least eleven
    bits; 33 for the masks of a texture, one per bit of a size and one to stop).
    A spin lock that its own thread holds is [NoFuel] as well. Tracing, profiling,
    logging and display invalidation are left out, and locks except those of the
    voices; time, random bytes and the host's state are arguments.

    ** What the theorems show

    - Queues and memory: [Fifo8] refines a bounded list; reads and writes of DSP
      memory behave as one memory with aliases; DMA gathers, scatters,
      interleaves and wraps around rings as specified; scatter-gather transfers
      read the pages the descriptors map. The audio FIFO never overflows and the
      callback plays what was pushed, in every interleaving.
    - Arithmetic: the accumulator operations against integer arithmetic modulo
      2^56; PLL frequencies and the timer without overflow.
    - Instructions: the arithmetic operations compute what the integers do, with
      their flags, and the conditions after a comparison are the order of the
      integers; 24 division steps divide; reads of an accumulator saturate; modulo
      addressing steps through its buffer in order and reverse-carry addressing visits
      every word of its block once, in bit-reversed order; a subroutine
      returns to its caller, and a DO loop runs its body as often as its count says
      and leaves the outer loop as it was. Every instruction keeps the machine of GP
      or EP, with its DMA engine, well typed or stops at an assertion, and costs at
      least two cycles, so that the run loop ends.
    - Decoding and caching: the opcode search returns the first matching entry,
      both caches are transparent, the fast paths equal the general paths.
    - Control: REP counts, the hardware stack, interrupt arbitration and
      bookkeeping; the interrupt lines of the graphics chip and of the network
      controller as invariants over all handlers.
    - The command FIFO runs a method packet to its end, with every word taken once and
      in order by the bound 2D class, retries a stalled word, and spins on a jump to
      itself; the bounds and the aliasing of the hash table.
    - Voices: every method is well typed or fails on an assertion, but for one
      class of writes; switching on inserts into the guest's lists; a frame queues
      and locks the active voices of the lists, reports the idle ones, and the scheduler keeps submixes together; a
      voice plays the linear contents of its buffer; an envelope takes its course
      and a released voice ends.
    - Vertices: the indices and the vertices drawn are those submitted, although
      values are recorded lazily and ranges are joined and expanded; squashing of
      blocks and batching of words do not change what is drawn.
    - Blits: which bytes are written and with which values, the limit of tiles, and
      the range of blended values.
    - Graphics data: primitive rewriting stays in its buffer and emits the
      decomposition defined by recursion on the vertices; texture conversion is the
      Z-order and invertible; decompression gives the texels of the format.
    - Cryptography and EEPROM: streamed hashing is FIPS 180 hashing, RC4 inverts
      itself, and a generated image passes the checks of the console.
    - Buses and devices: the ports of the SMBus controller are safe and a
      transaction is the call of a device; the EEPROM is a memory through them. The
      network controller sends the packets of its ring and delivers frames. Packets
      of headset and gamepad carry the samples and the state they should, and a
      serial port appears where the Super I/O chip is told.
    - Some theorems and examples record where the code departs from its comments or
      from the hardware, or leaves an array on input that the guest controls.

    ** What is not modelled

    The DSP's disassembler and tracing only print. The other methods of the 3D class
    set up state that the renderers translate for host graphics libraries, which are
    outside, as is the reading of vertices from guest memory; the filters and the
    mixing of voices, and of mixed frames in [mcpx_apu_dsp_frame], work on floating
    point with a host library. The threads
    around the command FIFO and the voice workers only schedule what is modelled.
    ACPI, PCI and board wiring, the AC97 wrapper, the emulator framework, the user
    interface and the Android application are outside. *)

From stdpp Require Import base numbers list gmap.
From Stdlib Require Import ZArith Lia Bool Btauto.

#[global] Open Scope Z_scope.

(** ** Record update

    [r <| f := v |>] is C's [r.f = v] on a record passed by value.  A record
    type provides its eta expansion once ([Eta]); the setter of each field is
    then found by abstracting that field's projection in it. *)

Class Eta (R : Type) := eta : R -> R.
Class Setter {R T : Type} (proj : R -> T) := set : (T -> T) -> R -> R.
Arguments eta {_ _} _ /.
Arguments set {_ _} proj {_} _ _ /.

Ltac solve_setter proj :=
  match type of proj with
  | ?R -> _ =>
    let f := fresh "f" in let r := fresh "r" in
    intros f r;
    let body := eval cbv beta delta [eta] in (eta r) in
    let body := eval hnf in body in
    match eval pattern (proj r) in body with
    | ?g _ => exact (g (f (proj r)))
    end
  end.
#[export] Hint Extern 0 (Setter ?proj) => solve_setter proj : typeclass_instances.

Notation "r <| f := v |>" := (set f (fun _ => v) r)
  (at level 1, f at level 200, v at level 200, left associativity) : stdpp_scope.


(** ** Outcomes of C code

    [Ok a] is a normal return; [AssertFail] a failed [assert] (or [abort]);
    [Undef] an access out of an array's bounds, a division by zero or a shift
    by at least the operand's width, which C leaves undefined; [NoFuel] a loop
    that ran for more rounds than the model was given. *)

Inductive outcome (A : Type) : Type :=
| Ok (a : A)
| AssertFail
| Undef
| NoFuel.
Arguments Ok {A} a.
Arguments AssertFail {A}.
Arguments Undef {A}.
Arguments NoFuel {A}.

#[export] Instance outcome_ret : MRet outcome := fun A a => Ok a.
#[export] Instance outcome_bind : MBind outcome := fun A B f m =>
  match m with
  | Ok a => f a
  | AssertFail => AssertFail
  | Undef => Undef
  | NoFuel => NoFuel
  end.
#[export] Instance outcome_fmap : FMap outcome := fun A B f m =>
  match m with
  | Ok a => Ok (f a)
  | AssertFail => AssertFail
  | Undef => Undef
  | NoFuel => NoFuel
  end.

#[export] Instance outcome_eq_dec {A} `{EqDecision A} : EqDecision (outcome A).
Proof. solve_decision. Defined.

Definition c_assert (b : bool) : outcome unit := if b then Ok tt else AssertFail.

(** [is_ok m] says that the code returns. *)
Definition is_ok {A} (m : outcome A) : Prop := exists a, m = Ok a.

Lemma bind_ok {A B} (m : outcome A) (f : A -> outcome B) b :
  m ≫= f = Ok b -> exists a, m = Ok a /\ f a = Ok b.
Proof. destruct m; cbn; intros H; [eauto | discriminate H ..]. Qed.

(** Rewriting with [ok_bind] keeps the rest of the code folded, where
    simplification would unfold it. *)
Lemma ok_bind {A B} (a : A) (f : A -> outcome B) : Ok a ≫= f = f a.
Proof. done. Qed.

Lemma c_assert_ok b u : c_assert b = Ok u -> b = true.
Proof. destruct b; [done | discriminate]. Qed.

Lemma c_assert_true b : b = true -> c_assert b = Ok tt.
Proof. by intros ->. Qed.

(** Invert a successful run into its steps. *)
Ltac inv_ok :=
  repeat match goal with
  | H : _ ≫= _ = Ok _ |- _ =>
      apply bind_ok in H; let x := fresh "x" in let E := fresh "E" in
      destruct H as (x & E & H)
  | H : c_assert _ = Ok _ |- _ => apply c_assert_ok in H
  | H : Ok _ = Ok _ |- _ => injection H as H
  | H : AssertFail = Ok _ |- _ => discriminate H
  | H : Undef = Ok _ |- _ => discriminate H
  | H : NoFuel = Ok _ |- _ => discriminate H
  end.

(** [safe P m]: [m] may fail an assertion, but it neither does anything undefined
    nor runs out of fuel, and what it returns satisfies [P]. *)
Definition safe {A} (P : A -> Prop) (m : outcome A) : Prop :=
  match m with Ok a => P a | AssertFail => True | Undef | NoFuel => False end.

Lemma safe_bind {A B} (P : A -> Prop) (Q : B -> Prop) m (k : A -> outcome B) :
  safe P m -> (forall a, P a -> safe Q (k a)) -> safe Q (m ≫= k).
Proof. destruct m; cbn; intros H Hk; [by apply Hk | done ..]. Qed.

Lemma safe_assert {A} (Q : A -> Prop) b (k : outcome A) :
  (b = true -> safe Q k) -> safe Q (c_assert b;; k).
Proof. destruct b; cbn; intros H; [by apply H | done]. Qed.

Lemma safe_mono {A} (P Q : A -> Prop) m : safe P m -> (forall a, P a -> Q a) -> safe Q m.
Proof. destruct m; cbn; auto. Qed.

Lemma safe_ok {A} (P : A -> Prop) m a : safe P m -> m = Ok a -> P a.
Proof. by intros H ->. Qed.

(** ** Machine words

    A [w]-bit unsigned integer is a [Z] in [0, 2^w); the conversions that C
    does on assignment are the [mod 2^w] below. *)

Abbreviation u8 z := (z mod 2 ^ 8).
Abbreviation u16 z := (z mod 2 ^ 16).
Abbreviation u32 z := (z mod 2 ^ 32).
Abbreviation u64 z := (z mod 2 ^ 64).

(** [in_u w z]: [z] is a value of the unsigned type of width [w]. *)
Definition in_u (w z : Z) : Prop := 0 <= z < 2 ^ w.

#[export] Instance in_u_dec w z : Decision (in_u w z).
Proof. unfold in_u. apply _. Defined.

(** [sext w z] reads the low [w] bits of [z] as a two's complement number. *)
Definition sext (w z : Z) : Z :=
  let v := z mod 2 ^ w in if v <? 2 ^ (w - 1) then v else v - 2 ^ w.

Infix ".&" := Z.land (at level 36, left associativity) : Z_scope.
Infix ".^" := Z.lxor (at level 37, left associativity) : Z_scope.
Infix ".|" := Z.lor (at level 38, left associativity) : Z_scope.

(** The truth value of [v & m] in a C condition. *)
Definition flag (v m : Z) : bool := negb (Z.land v m =? 0).

#[global] Arguments flag : simpl never.
#[global] Arguments Z.shiftl : simpl never.
#[global] Arguments Z.shiftr : simpl never.
#[global] Arguments Z.land : simpl never.
#[global] Arguments Z.lor : simpl never.
#[global] Arguments Z.lxor : simpl never.
#[global] Arguments Z.modulo : simpl never.
#[global] Arguments Z.div : simpl never.
#[global] Arguments Z.pow : simpl never.
#[global] Arguments Z.mul : simpl never.
#[global] Arguments Z.add : simpl never.
#[global] Arguments Z.sub : simpl never.
#[global] Arguments Z.min : simpl never.

(** ** Bitwise equalities

    [zbits] reduces an equation between bitwise expressions to one boolean
    equation per bit, splitting on the position of the bit with respect to
    every shift and width that occurs. *)

Lemma testbit_small n a i : 0 <= a < 2 ^ n -> n <= i -> Z.testbit a i = false.
Proof.
  intros [Ha0 Ha] Hi. destruct (Z.lt_ge_cases n 0) as [Hn | Hn].
  { rewrite Z.pow_neg_r in Ha by lia. lia. }
  rewrite <- (Z.mod_small a (2 ^ n)) by lia. by apply Z.mod_pow2_bits_high.
Qed.

Lemma testbit_mod_pow2 a n i : 0 <= n -> Z.testbit (a mod 2 ^ n) i = (i <? n) && Z.testbit a i.
Proof.
  intros Hn. destruct (Z.ltb_spec i n); cbn.
  - by apply Z.mod_pow2_bits_low.
  - by apply Z.mod_pow2_bits_high.
Qed.

Lemma testbit_ones' n i : 0 <= n -> Z.testbit (Z.ones n) i = (0 <=? i) && (i <? n).
Proof. intros Hn. by apply Z.testbit_ones. Qed.

Create Rewrite HintDb zbits.
#[export] Hint Rewrite Z.land_spec Z.lor_spec Z.lxor_spec Z.ldiff_spec Z.testbit_0_l : zbits.
#[export] Hint Rewrite Z.lnot_spec Z.shiftl_spec Z.shiftr_spec testbit_mod_pow2
  testbit_ones' using lia : zbits.

Ltac zbits_cases :=
  repeat match goal with
  | |- context [?i <? ?n] => destruct (Z.ltb_spec i n); try lia
  | |- context [?i <=? ?n] => destruct (Z.leb_spec i n); try lia
  end.

Ltac zbits_neg :=
  repeat match goal with
  | |- context [Z.testbit ?a ?i] => rewrite (Z.testbit_neg_r a i) by lia
  end.

Ltac zbits :=
  let i := fresh "i" in let Hi := fresh "Hi" in
  apply Z.bits_inj'; intros i Hi;
  repeat (progress (autorewrite with zbits; zbits_cases));
  zbits_neg; cbn [andb orb negb xorb];
  rewrite ?Z.sub_add, ?Z.add_simpl_r; try btauto.

Lemma in_u_mod w z : 0 <= w -> in_u w (z mod 2 ^ w).
Proof. intros Hw. apply Z.mod_pos_bound, Z.pow_pos_nonneg; lia. Qed.

Lemma in_u_small w z : in_u w z -> z mod 2 ^ w = z.
Proof. intros H. by apply Z.mod_small. Qed.

(** A number is a [w]-bit value exactly when its high bits are clear. *)
Lemma in_u_bits w z :
  0 <= w -> 0 <= z -> (forall i, w <= i -> Z.testbit z i = false) -> in_u w z.
Proof.
  intros Hw Hz H. split; [done |].
  rewrite <- (Z.mod_small z (2 ^ Z.max w (Z.log2 z + 1))).
  - destruct (decide (z = 0)) as [-> | Hz0].
    { rewrite Z.mod_0_l by (apply Z.pow_nonzero; lia). by apply Z.pow_pos_nonneg. }
    assert (Z.log2 z < w) as Hl.
    { destruct (Z.lt_ge_cases (Z.log2 z) w); [done |].
      specialize (H (Z.log2 z) ltac:(lia)). rewrite Z.bit_log2 in H by lia. done. }
    rewrite Z.max_l by lia. by apply Z.mod_pos_bound, Z.pow_pos_nonneg.
  - split; [done |]. destruct (decide (z = 0)) as [-> | Hz0].
    { apply Z.pow_pos_nonneg; lia. }
    apply Z.lt_le_trans with (2 ^ Z.succ (Z.log2 z)); [apply Z.log2_spec; lia |].
    apply Z.pow_le_mono_r; lia.
Qed.

Lemma in_u_land_l w a b : 0 <= w -> in_u w a -> in_u w (a .& b).
Proof.
  intros Hw Ha. apply in_u_bits; [done | |].
  - apply Z.land_nonneg. left. apply Ha.
  - intros i Hi. rewrite Z.land_spec, (testbit_small w a) by (done || lia). done.
Qed.

Lemma in_u_land_r w a b : 0 <= w -> in_u w b -> in_u w (a .& b).
Proof. rewrite Z.land_comm. apply in_u_land_l. Qed.

Lemma in_u_lor w a b : 0 <= w -> in_u w a -> in_u w b -> in_u w (a .| b).
Proof.
  intros Hw Ha Hb. apply in_u_bits; [done | |].
  - apply Z.lor_nonneg. split; [apply Ha | apply Hb].
  - intros i Hi. by rewrite Z.lor_spec, (testbit_small w a), (testbit_small w b) by (done || lia).
Qed.

Lemma in_u_lxor w a b : 0 <= w -> in_u w a -> in_u w b -> in_u w (a .^ b).
Proof.
  intros Hw Ha Hb. apply in_u_bits; [done | |].
  - apply Z.lxor_nonneg. split; intros; [apply Hb | apply Ha].
  - intros i Hi. by rewrite Z.lxor_spec, (testbit_small w a), (testbit_small w b) by (done || lia).
Qed.

Lemma in_u_shiftr w a n : 0 <= n -> in_u w a -> in_u w (a ≫ n).
Proof.
  intros Hn [H1 H2]. split; [by apply Z.shiftr_nonneg |].
  rewrite Z.shiftr_div_pow2 by done.
  apply Z.le_lt_trans with a; [| done].
  apply Z.div_le_upper_bound; [by apply Z.pow_pos_nonneg |].
  assert (1 <= 2 ^ n) by (apply Z.pow_le_mono_r with (a := 2) (b := 0); lia). nia.
Qed.

Lemma in_u_mono w w' z : w <= w' -> in_u w z -> in_u w' z.
Proof.
  intros Hw [H1 H2]. split; [done |].
  apply Z.lt_le_trans with (2 ^ w); [done |]. by apply Z.pow_le_mono_r.
Qed.

Create HintDb words discriminated.
#[export] Hint Resolve in_u_mod in_u_land_l in_u_land_r in_u_lor in_u_lxor in_u_shiftr : words.
#[export] Hint Extern 1 (in_u _ (Zpos _)) => (unfold in_u; lia) : words.
#[export] Hint Extern 1 (in_u _ Z0) => (unfold in_u; lia) : words.
#[export] Hint Extern 1 (0 <= _) => lia : words.

(** ** Register fields: [GET_MASK] and [SET_MASK] *)

Fixpoint ctz_pos (p : positive) : Z :=
  match p with
  | xO p => 1 + ctz_pos p
  | _ => 0
  end.

(** QEMU's [ctz32]: 32 on zero. *)
Definition ctz32 (v : Z) : Z :=
  match v with Zpos p => ctz_pos p | _ => 32 end.

Definition GET_MASK (v mask : Z) : Z := (v .& mask) ≫ ctz32 mask.

Definition SET_MASK (v mask val : Z) : Z :=
  (v .& u32 (Z.lnot mask)) .| (u32 (u32 val ≪ ctz32 mask) .& mask).

(** A mask that is the contiguous field of [w] bits at [s]. *)
Definition field_mask (mask s w : Z) : bool :=
  (mask =? Z.ones w ≪ s) && (ctz32 mask =? s) && (0 <=? s) && (0 <=? w) && (s + w <=? 32).

Lemma field_mask_spec mask s w :
  field_mask mask s w = true ->
  mask = Z.ones w ≪ s /\ ctz32 mask = s /\ 0 <= s /\ 0 <= w /\ s + w <= 32.
Proof.
  unfold field_mask. intros H. repeat apply andb_prop in H as [H ?].
  rewrite !Z.eqb_eq, !Z.leb_le in *. lia.
Qed.

Lemma GET_MASK_field v mask s w :
  field_mask mask s w = true -> GET_MASK v mask = (v ≫ s) mod 2 ^ w.
Proof.
  intros (-> & Hs & Hs0 & Hw & Hsw)%field_mask_spec. unfold GET_MASK. rewrite Hs.
  zbits.
Qed.

Lemma GET_SET_MASK_eq v mask s w x :
  field_mask mask s w = true -> GET_MASK (SET_MASK v mask x) mask = x mod 2 ^ w.
Proof.
  intros Hm. pose proof Hm as (Hm1 & Hs & Hs0 & Hw & Hsw)%field_mask_spec.
  rewrite (GET_MASK_field _ _ s w) by done. unfold SET_MASK. rewrite Hs, Hm1.
  zbits.
Qed.

Lemma GET_SET_MASK_ne v mask mask' x :
  0 <= mask' < 2 ^ 32 -> mask .& mask' = 0 ->
  GET_MASK (SET_MASK v mask x) mask' = GET_MASK v mask'.
Proof.
  intros Hm' Hd. unfold GET_MASK, SET_MASK. f_equal.
  apply Z.bits_inj'. intros i Hi. autorewrite with zbits.
  assert (Z.testbit mask i && Z.testbit mask' i = false) as Hb
    by (rewrite <- Z.land_spec, Hd; apply Z.testbit_0_l).
  destruct (Z.testbit mask' i) eqn:E, (Z.testbit mask i) eqn:E'; try done; cbn;
    rewrite ?andb_false_r, ?andb_true_r, ?orb_false_r; try done.
  destruct (Z.ltb_spec i 32); cbn; [by rewrite andb_true_r |].
  rewrite (testbit_small 32 mask') in E by lia. done.
Qed.

Lemma SET_MASK_in_u v mask x :
  in_u 32 v -> in_u 32 mask -> in_u 32 (SET_MASK v mask x).
Proof. intros Hv Hm. unfold SET_MASK. auto with words. Qed.

#[export] Hint Resolve SET_MASK_in_u : words.

(** ** Register files

    A C array of 32-bit registers indexed by MMIO offset; entries that were
    never written read as zero (the arrays are zeroed with the device). *)

Definition rget (m : gmap Z Z) (k : Z) : Z := default 0 (m !! k).
Definition rset (m : gmap Z Z) (k v : Z) : gmap Z Z := <[k := v]> m.
#[global] Arguments rget : simpl never.
#[global] Arguments rset : simpl never.

Lemma rget_rset_eq m k v : rget (rset m k v) k = v.
Proof. unfold rget, rset. by rewrite lookup_insert_eq. Qed.

Lemma rget_rset_ne m k k' v : k <> k' -> rget (rset m k v) k' = rget m k'.
Proof. intros H. unfold rget, rset. by rewrite lookup_insert_ne. Qed.

Lemma rget_rset m k k' v : rget (rset m k v) k' = if decide (k = k') then v else rget m k'.
Proof. case_decide; [subst; apply rget_rset_eq | by apply rget_rset_ne]. Qed.

(** Read through the updates of a register file. *)
Ltac regs_simp :=
  repeat match goal with
  | |- context [rget (rset ?m ?k ?v) ?k'] =>
      first [ rewrite (rget_rset_eq m k v) | rewrite (rget_rset_ne m k k' v) by (done || lia) ]
  | H : context [rget (rset ?m ?k ?v) ?k'] |- _ =>
      first [ rewrite (rget_rset_eq m k v) in H | rewrite (rget_rset_ne m k k' v) in H by (done || lia) ]
  end.

(** Every register holds a [w]-bit value. *)
Definition regs_ok (w : Z) (m : gmap Z Z) : Prop := forall k, in_u w (rget m k).

Lemma regs_ok_empty w : 0 <= w -> regs_ok w ∅.
Proof. intros Hw k. unfold rget, in_u. rewrite lookup_empty. cbn. split; [lia |]. by apply Z.pow_pos_nonneg. Qed.

Lemma regs_ok_rset w m k v : regs_ok w m -> in_u w v -> regs_ok w (rset m k v).
Proof. intros Hm Hv k'. rewrite rget_rset. by case_decide. Qed.

#[export] Hint Resolve regs_ok_rset regs_ok_empty : words.

(** ** Arrays with bounds

    [rd l i] and [wr l i v] are [l[i]] and [l[i] = v] on a C array: an index
    out of range is undefined. *)

Definition rd {A} (l : list A) (i : Z) : outcome A :=
  if i <? 0 then Undef else
  match l !! Z.to_nat i with Some a => Ok a | None => Undef end.

Definition wr {A} (l : list A) (i : Z) (v : A) : outcome (list A) :=
  if (0 <=? i) && (i <? Z.of_nat (length l)) then Ok (<[Z.to_nat i := v]> l) else Undef.

Lemma rd_ok {A} (l : list A) i : 0 <= i < Z.of_nat (length l) ->
  exists a, rd l i = Ok a /\ l !! Z.to_nat i = Some a.
Proof.
  intros Hi. unfold rd. destruct (Z.ltb_spec i 0); [lia |].
  destruct (lookup_lt_is_Some_2 l (Z.to_nat i)) as [a Ha]; [lia |].
  rewrite Ha. eauto.
Qed.

Lemma wr_ok {A} (l : list A) i v : 0 <= i < Z.of_nat (length l) ->
  wr l i v = Ok (<[Z.to_nat i := v]> l).
Proof.
  intros Hi. unfold wr.
  destruct (Z.leb_spec 0 i), (Z.ltb_spec i (Z.of_nat (length l))); (done || lia).
Qed.

Lemma wr_undef {A} (l : list A) i v : ~ (0 <= i < Z.of_nat (length l)) -> wr l i v = Undef.
Proof.
  intros Hi. unfold wr.
  destruct (Z.leb_spec 0 i), (Z.ltb_spec i (Z.of_nat (length l))); (done || lia).
Qed.

Lemma wr_inv {A} (l l' : list A) i v : wr l i v = Ok l' ->
  0 <= i < Z.of_nat (length l) /\ l' = <[Z.to_nat i := v]> l.
Proof.
  unfold wr. destruct (Z.leb_spec 0 i), (Z.ltb_spec i (Z.of_nat (length l)));
    cbn; intros E; inv_ok; done.
Qed.

(** ** Bytes in memory order *)

Fixpoint le_bytes (n : nat) (v : Z) : list Z :=
  match n with
  | O => []
  | S n => u8 v :: le_bytes n (v ≫ 8)
  end.

Fixpoint le_val (bs : list Z) : Z :=
  match bs with
  | [] => 0
  | b :: bs => b .| (le_val bs ≪ 8)
  end.

Lemma length_le_bytes n v : length (le_bytes n v) = n.
Proof. revert v. induction n; cbn; intros; [done | by rewrite IHn]. Qed.

Lemma le_val_bytes n v : le_val (le_bytes n v) = v mod 2 ^ (8 * Z.of_nat n).
Proof.
  revert v. induction n as [| n IH]; intros v; cbn [le_bytes le_val].
  - by rewrite Z.mod_1_r.
  - rewrite IH. zbits.
Qed.

(** Disjoint bits: an or is a sum. *)
Lemma lor_shiftl_add n a b : 0 <= n -> in_u n a -> a .| (b ≪ n) = a + b * 2 ^ n.
Proof.
  intros Hn Ha. rewrite <- Z.shiftl_mul_pow2 by done.
  rewrite <- Z.add_lor_land. cut (a .& b ≪ n = 0); [intros ->; lia |].
  apply Z.bits_inj'. intros i Hi. autorewrite with zbits.
  destruct (Z.lt_ge_cases i n).
  - rewrite (Z.testbit_neg_r b) by lia. btauto.
  - rewrite (testbit_small n a) by (done || lia). done.
Qed.

Lemma le_val_cons b bs : in_u 8 b -> le_val (b :: bs) = b + le_val bs * 256.
Proof. intros Hb. apply (lor_shiftl_add 8); [lia | done]. Qed.

Lemma le_val_in_u bs : Forall (in_u 8) bs -> in_u (8 * Z.of_nat (length bs)) (le_val bs).
Proof.
  induction 1 as [| b bs Hb _ IH]; [done |].
  rewrite le_val_cons by done. unfold in_u in *. cbn [length].
  rewrite Nat2Z.inj_succ, Z.mul_succ_r, Z.pow_add_r by lia.
  change (2 ^ 8) with 256 in *. nia.
Qed.

Lemma le_bytes_val bs : Forall (in_u 8) bs -> le_bytes (length bs) (le_val bs) = bs.
Proof.
  induction 1 as [| b bs Hb Hbs IH]; [done |].
  cbn [length le_bytes]. rewrite le_val_cons by done. f_equal.
  - unfold in_u in Hb. change (2 ^ 8) with 256 in *.
    rewrite Z.mod_add by lia. by apply Z.mod_small.
  - etransitivity; [| exact IH]. f_equal. rewrite Z.shiftr_div_pow2 by lia.
    unfold in_u in Hb. change (2 ^ 8) with 256 in *.
    rewrite Z.div_add, Z.div_small by lia. lia.
Qed.

Lemma Forall_le_bytes n v : Forall (in_u 8) (le_bytes n v).
Proof. revert v. induction n; cbn; intros; constructor; auto with words. Qed.

(** ** Lists *)

(** [memcpy] of the whole of [src] into [dst] at [at_]; out of range is
    undefined. *)
Definition blit (dst : list Z) (at_ : Z) (src : list Z) : outcome (list Z) :=
  if (0 <=? at_) && (at_ + Z.of_nat (length src) <=? Z.of_nat (length dst)) then
    Ok (take (Z.to_nat at_) dst ++ src ++ drop (Z.to_nat at_ + length src) dst)
  else Undef.

(** The [n] elements of [src] from [at_]. *)
Definition slice (src : list Z) (at_ n : Z) : outcome (list Z) :=
  if (0 <=? at_) && (0 <=? n) && (at_ + n <=? Z.of_nat (length src)) then
    Ok (take (Z.to_nat n) (drop (Z.to_nat at_) src))
  else Undef.

Lemma blit_ok dst at_ src :
  0 <= at_ -> at_ + Z.of_nat (length src) <= Z.of_nat (length dst) ->
  blit dst at_ src =
    Ok (take (Z.to_nat at_) dst ++ src ++ drop (Z.to_nat at_ + length src) dst).
Proof.
  intros H1 H2. unfold blit. destruct (Z.leb_spec 0 at_); [| lia].
  destruct (Z.leb_spec (at_ + Z.of_nat (length src)) (Z.of_nat (length dst))); [done | lia].
Qed.

Lemma blit_length dst at_ src dst' :
  blit dst at_ src = Ok dst' -> length dst' = length dst.
Proof.
  unfold blit. destruct (_ && _) eqn:E; [| done]. intros [= <-].
  apply andb_prop in E as [E1 E2]. rewrite Z.leb_le in *.
  rewrite !length_app, length_take, length_drop. lia.
Qed.

Lemma slice_ok src at_ n :
  0 <= at_ -> 0 <= n -> at_ + n <= Z.of_nat (length src) ->
  slice src at_ n = Ok (take (Z.to_nat n) (drop (Z.to_nat at_) src)).
Proof.
  intros. unfold slice. destruct (Z.leb_spec 0 at_), (Z.leb_spec 0 n); try lia.
  destruct (Z.leb_spec (at_ + n) (Z.of_nat (length src))); [done | lia].
Qed.

Lemma take_blit buf off l b : blit buf off l = Ok b ->
  take (Z.to_nat (off + Z.of_nat (length l))) b = take (Z.to_nat off) buf ++ l.
Proof.
  unfold blit. destruct (_ && _) eqn:E; [| done]. intros [= <-].
  apply andb_prop in E as [E1%Z.leb_le E2%Z.leb_le]. rewrite app_assoc.
  apply take_app_length'. rewrite length_app, length_take. lia.
Qed.

Lemma wr_blit (l : list Z) i v : wr l i v = blit l i [v].
Proof.
  unfold wr, blit. cbn [length].
  destruct (Z.leb_spec 0 i), (Z.ltb_spec i (Z.of_nat (length l))),
    (Z.leb_spec (i + Z.of_nat 1) (Z.of_nat (length l))); cbn [andb]; try (done || lia).
  f_equal. rewrite insert_take_drop by lia. cbn. by rewrite Nat.add_1_r.
Qed.

Lemma Forall_blit (P : Z -> Prop) dst at_ src dst' :
  blit dst at_ src = Ok dst' -> Forall P dst -> Forall P src -> Forall P dst'.
Proof.
  unfold blit. destruct (_ && _); [| done]. intros [= <-] Hd Hs.
  apply Forall_app. split; [by apply Forall_take |].
  apply Forall_app. split; [done | by apply Forall_drop].
Qed.

Lemma flag_bit v k : 0 <= k -> flag v (1 ≪ k) = Z.testbit v k.
Proof.
  intros Hk. unfold flag. rewrite Z.shiftl_1_l.
  destruct (Z.testbit v k) eqn:E.
  - destruct (Z.eqb_spec (v .& 2 ^ k) 0) as [E0 |]; [| done].
    apply (f_equal (fun z => Z.testbit z k)) in E0.
    rewrite Z.land_spec, E, Z.pow2_bits_true, Z.testbit_0_l in E0 by done. done.
  - destruct (Z.eqb_spec (v .& 2 ^ k) 0) as [| E0]; [done |]. destruct E0.
    apply Z.bits_inj'. intros i Hi. rewrite Z.land_spec, Z.testbit_0_l.
    destruct (decide (i = k)) as [-> | Hne]; [by rewrite E |].
    rewrite Z.pow2_bits_false by lia. apply andb_false_r.
Qed.

(** The top bit of a word decides its sign. *)
Lemma testbit_top w v : 0 <= w -> in_u (w + 1) v -> Z.testbit v w = (2 ^ w <=? v).
Proof.
  intros Hw [H0 H1]. rewrite Z.pow_add_r in H1 by lia.
  assert (0 < 2 ^ w) by (by apply Z.pow_pos_nonneg).
  rewrite Z.testbit_eqb by done. destruct (Z.leb_spec (2 ^ w) v).
  - rewrite Z.eqb_eq. replace (v / 2 ^ w) with 1; [done |].
    apply (Z.div_unique v (2 ^ w) 1 (v - 2 ^ w)); lia.
  - by rewrite Z.div_small by lia.
Qed.

(** ** Counting loops

    [mfor l f s] is the loop that runs [f x] for every [x] of [l] in order; a
    loop [for (i = a; i < b; i++)] runs over [seqZ a (b - a)]. *)

Fixpoint mfor {A S} (l : list A) (f : A -> S -> outcome S) (s : S) : outcome S :=
  match l with
  | [] => Ok s
  | x :: l => s ← f x s; mfor l f s
  end.

(** A loop whose body keeps an invariant of the counter returns. *)
Lemma mfor_seqZ {S} (P : Z -> S -> Prop) a n (f : Z -> S -> outcome S) s :
  P a s -> (forall i s, a <= i < a + n -> P i s -> exists s', f i s = Ok s' /\ P (i + 1) s') ->
  exists s', mfor (seqZ a n) f s = Ok s' /\ P (a + Z.max 0 n) s'.
Proof.
  remember (Z.to_nat n) as m eqn:Em. revert a n s Em.
  induction m as [| m IH]; intros a n s Em H0 Hf.
  - replace (Z.max 0 n) with 0 by lia. rewrite seqZ_nil, Z.add_0_r by lia. by exists s.
  - rewrite seqZ_cons by lia. cbn [mfor]. destruct (Hf a s) as (s1 & -> & H1); [lia | done |].
    rewrite ok_bind. destruct (IH (Z.succ a) (Z.pred n) s1) as (s' & E & H'); [lia | done | |].
    + intros i t Hi Ht. apply Hf; [lia | done].
    + exists s'. split; [done |].
      by replace (a + Z.max 0 n) with (Z.succ a + Z.max 0 (Z.pred n)) by lia.
Qed.

Lemma mfor_app {A T} (f : A -> T -> outcome T) l1 l2 s : mfor (l1 ++ l2) f s = (mfor l1 f s ≫= mfor l2 f).
Proof.
  revert s. induction l1 as [|x l1 IH]; intros s; [done |]. cbn [app mfor]. destruct (f x s); cbn; [apply IH | done..].
Qed.

Lemma mfor_snoc {A T} (f : A -> T -> outcome T) l x s s' : mfor (l ++ [x]) f s = Ok s' ->
  exists s1, mfor l f s = Ok s1 /\ f x s1 = Ok s'.
Proof.
  revert s. induction l as [|y l IH]; intros s; cbn [app mfor].
  - intros (s1 & Hf & E)%bind_ok. injection E as ->. by exists s.
  - intros (s1 & Hf & Hr)%bind_ok. destruct (IH s1 Hr) as (s2 & Hl & Hx). exists s2. by rewrite Hf.
Qed.

Lemma mfor_keeps {A T} (m : T -> Z) (f : A -> T -> outcome T) l s s' :
  (forall x s s', f x s = Ok s' -> m s' = m s) -> mfor l f s = Ok s' -> m s' = m s.
Proof.
  intros Hf. revert s. induction l as [|y l IH]; intros s; cbn [mfor]; [by intros [= ->] |].
  intros (s1 & Hx & Hr)%bind_ok. by rewrite (IH s1 Hr), (Hf y s s1 Hx).
Qed.

Lemma seqZ_snoc n : 0 < n -> seqZ 0 n = seqZ 0 (n - 1) ++ [n - 1].
Proof.
  intros Hn. replace n with ((n - 1) + 1) at 1 by lia. rewrite seqZ_app by lia. by rewrite Z.add_0_l.
Qed.

(** ** Lists of integers indexed by [Z]

    [nthZ l i] is the element at [i], 0 out of range; [zlen l] the length.
    Two lists are equal when they agree on every index, which turns equations
    between buffers into arithmetic. *)

Abbreviation zlen l := (Z.of_nat (length l)).

Definition nthZ (l : list Z) (i : Z) : Z :=
  if i <? 0 then 0 else default 0 (l !! Z.to_nat i).
#[global] Arguments nthZ : simpl never.

Lemma nthZ_neg l i : i < 0 -> nthZ l i = 0.
Proof. intros H. unfold nthZ. by destruct (Z.ltb_spec i 0); [| lia]. Qed.

Lemma nthZ_ge l i : zlen l <= i -> nthZ l i = 0.
Proof.
  intros H. unfold nthZ. destruct (Z.ltb_spec i 0); [done |].
  by rewrite lookup_ge_None_2 by lia.
Qed.

Lemma lookup_nthZ l i : 0 <= i < zlen l -> l !! Z.to_nat i = Some (nthZ l i).
Proof.
  intros H. unfold nthZ. destruct (Z.ltb_spec i 0); [lia |].
  destruct (lookup_lt_is_Some_2 l (Z.to_nat i)) as [a Ha]; [lia |]. by rewrite Ha.
Qed.

Lemma rd_nthZ (l : list Z) i : 0 <= i < zlen l -> rd l i = Ok (nthZ l i).
Proof.
  intros H. unfold rd. destruct (Z.ltb_spec i 0); [lia |]. by rewrite lookup_nthZ.
Qed.

Lemma rd_undef (l : list Z) i : ~ (0 <= i < zlen l) -> rd l i = Undef.
Proof.
  intros H. unfold rd. destruct (Z.ltb_spec i 0); [done |].
  by rewrite lookup_ge_None_2 by lia.
Qed.

Lemma listZ_eq (l1 l2 : list Z) :
  zlen l1 = zlen l2 -> (forall i, 0 <= i < zlen l1 -> nthZ l1 i = nthZ l2 i) -> l1 = l2.
Proof.
  intros Hl H. apply list_eq. intros i.
  destruct (decide (i < length l1)%nat) as [Hi | Hi].
  - rewrite <- (Nat2Z.id i), !lookup_nthZ by lia. f_equal. apply H. lia.
  - by rewrite !lookup_ge_None_2 by lia.
Qed.

Lemma nthZ_app l1 l2 i :
  nthZ (l1 ++ l2) i = if i <? zlen l1 then nthZ l1 i else nthZ l2 (i - zlen l1).
Proof.
  unfold nthZ. destruct (Z.ltb_spec i 0), (Z.ltb_spec i (zlen l1)); try lia; try done.
  - by rewrite lookup_app_l by lia.
  - rewrite lookup_app_r by lia. destruct (Z.ltb_spec (i - zlen l1) 0); [lia |].
    do 2 f_equal. lia.
Qed.

Lemma nthZ_app_l l1 l2 i : i < zlen l1 -> nthZ (l1 ++ l2) i = nthZ l1 i.
Proof. intros H. rewrite nthZ_app. by rewrite (proj2 (Z.ltb_lt _ _)). Qed.

Lemma nthZ_app_r l1 l2 i : zlen l1 <= i -> nthZ (l1 ++ l2) i = nthZ l2 (i - zlen l1).
Proof. intros H. rewrite nthZ_app. by rewrite (proj2 (Z.ltb_ge _ _)). Qed.

Lemma nthZ_nil i : nthZ [] i = 0.
Proof. unfold nthZ. by destruct (i <? 0). Qed.

Lemma nthZ_cons x l i : nthZ (x :: l) i = if i =? 0 then x else nthZ l (i - 1).
Proof.
  destruct (Z.eqb_spec i 0) as [-> | Hi]; [done |].
  change (x :: l) with ([x] ++ l). rewrite nthZ_app. cbn [length].
  destruct (Z.ltb_spec i (Z.of_nat 1)); [by rewrite !nthZ_neg by lia | done].
Qed.

Lemma nthZ_take n l i : nthZ (take n l) i = if i <? Z.of_nat n then nthZ l i else 0.
Proof.
  unfold nthZ. destruct (Z.ltb_spec i 0), (Z.ltb_spec i (Z.of_nat n)); try done.
  - by rewrite lookup_take_lt by lia.
  - by rewrite lookup_take_ge by lia.
Qed.

Lemma nthZ_drop n l i : 0 <= i -> nthZ (drop n l) i = nthZ l (Z.of_nat n + i).
Proof.
  intros Hi. unfold nthZ. destruct (Z.ltb_spec i 0), (Z.ltb_spec (Z.of_nat n + i) 0); try lia.
  rewrite lookup_drop. do 2 f_equal. lia.
Qed.

Lemma nthZ_insert l j v i : 0 <= j < zlen l ->
  nthZ (<[Z.to_nat j := v]> l) i = if i =? j then v else nthZ l i.
Proof.
  intros Hj. unfold nthZ. destruct (Z.ltb_spec i 0), (Z.eqb_spec i j); try lia; try done.
  - subst. by rewrite list_lookup_insert_eq by lia.
  - by rewrite list_lookup_insert_ne by lia.
Qed.

Lemma nthZ_replicate n v i : 0 <= i < Z.of_nat n -> nthZ (replicate n v) i = v.
Proof.
  intros Hi. unfold nthZ. destruct (Z.ltb_spec i 0); [lia |].
  by rewrite lookup_replicate_2 by lia.
Qed.

Lemma nthZ_fmap (f : Z -> Z) l i : 0 <= i < zlen l -> nthZ (f <$> l) i = f (nthZ l i).
Proof.
  intros Hi. unfold nthZ at 1. destruct (Z.ltb_spec i 0); [lia |].
  by rewrite list_lookup_fmap, lookup_nthZ.
Qed.

Lemma nthZ_seqZ m n i : 0 <= i < n -> nthZ (seqZ m n) i = m + i.
Proof.
  intros Hi. unfold nthZ. destruct (Z.ltb_spec i 0); [lia |].
  rewrite lookup_seqZ_lt by lia. cbn. lia.
Qed.

Lemma nthZ_Forall (P : Z -> Prop) l i : Forall P l -> 0 <= i < zlen l -> P (nthZ l i).
Proof. intros HF Hi. eapply Forall_lookup_1; [done | by apply lookup_nthZ]. Qed.

Lemma Forall_nthZ (P : Z -> Prop) l : (forall i, 0 <= i < zlen l -> P (nthZ l i)) -> Forall P l.
Proof.
  intros H. apply Forall_lookup_2. intros i x Hx.
  assert (i < length l)%nat by (by apply lookup_lt_Some in Hx).
  specialize (H (Z.of_nat i) ltac:(lia)). unfold nthZ in H.
  destruct (Z.ltb_spec (Z.of_nat i) 0); [lia |]. by rewrite Nat2Z.id, Hx in H.
Qed.

Lemma nthZ_blit dst at_ src dst' i : blit dst at_ src = Ok dst' ->
  nthZ dst' i = if (at_ <=? i) && (i <? at_ + zlen src) then nthZ src (i - at_) else nthZ dst i.
Proof.
  unfold blit. destruct (_ && _) eqn:E; [| done]. intros [= <-].
  apply andb_prop in E as [E1 E2]. rewrite Z.leb_le in E1, E2.
  rewrite nthZ_app, nthZ_take, length_take, nthZ_app.
  destruct (Z.ltb_spec i (Z.of_nat (Z.to_nat at_ `min` length dst))), (Z.leb_spec at_ i); try lia; cbn.
  - destruct (Z.ltb_spec i (Z.of_nat (Z.to_nat at_))); [done | lia].
  - replace (i - Z.of_nat (Z.to_nat at_ `min` length dst)) with (i - at_) by lia.
    destruct (Z.ltb_spec (i - at_) (zlen src)), (Z.ltb_spec i (at_ + zlen src)); try lia; try done.
    rewrite nthZ_drop by lia. f_equal. lia.
Qed.

Lemma nthZ_slice src at_ n s i : slice src at_ n = Ok s -> 0 <= i < n -> nthZ s i = nthZ src (at_ + i).
Proof.
  unfold slice. destruct (_ && _) eqn:E; [| done]. intros [= <-] Hi.
  repeat apply andb_prop in E as [E ?]. rewrite !Z.leb_le in *.
  rewrite nthZ_take. destruct (Z.ltb_spec i (Z.of_nat (Z.to_nat n))); [| lia].
  rewrite nthZ_drop by lia. f_equal. lia.
Qed.

Lemma slice_length src at_ n s : slice src at_ n = Ok s -> zlen s = n.
Proof.
  unfold slice. destruct (_ && _) eqn:E; [| done]. intros [= <-].
  repeat apply andb_prop in E as [E ?]. rewrite !Z.leb_le in *.
  rewrite length_take, length_drop. lia.
Qed.

Lemma blit_spec dst at_ src : 0 <= at_ -> at_ + zlen src <= zlen dst ->
  exists dst', blit dst at_ src = Ok dst' /\ zlen dst' = zlen dst /\
    forall j, nthZ dst' j = if (at_ <=? j) && (j <? at_ + zlen src) then nthZ src (j - at_)
                            else nthZ dst j.
Proof.
  intros H1 H2. destruct (blit dst at_ src) as [b | | |] eqn:E; [| by rewrite blit_ok in E by lia ..].
  exists b. split; [done |]. split; [by rewrite (blit_length _ _ _ _ E) |].
  intros j. by apply nthZ_blit.
Qed.

Lemma slice_spec src at_ n : 0 <= at_ -> 0 <= n -> at_ + n <= zlen src ->
  exists s, slice src at_ n = Ok s /\ zlen s = n /\
    forall j, 0 <= j < n -> nthZ s j = nthZ src (at_ + j).
Proof.
  intros H1 H2 H3. destruct (slice src at_ n) as [s | | |] eqn:E; [| by rewrite slice_ok in E by lia ..].
  exists s. split; [done |]. split; [by apply (slice_length _ _ _ _ E) |].
  intros j. by apply nthZ_slice.
Qed.

Lemma slice_blit_eq dst at_ src dst' :
  blit dst at_ src = Ok dst' -> slice dst' at_ (zlen src) = Ok src.
Proof.
  intros E. pose proof (blit_length _ _ _ _ E) as Hl. revert E. unfold blit.
  destruct (_ && _) eqn:B; [| done]. intros [= <-].
  apply andb_prop in B as [B1%Z.leb_le B2%Z.leb_le].
  rewrite slice_ok by lia. f_equal. rewrite Nat2Z.id.
  rewrite drop_app_length' by (rewrite length_take; lia). by rewrite take_app_length.
Qed.

Lemma slice_blit_ne dst at_ src dst' a n :
  blit dst at_ src = Ok dst' -> a + n <= at_ \/ at_ + zlen src <= a ->
  slice dst' a n = slice dst a n.
Proof.
  intros E Hd. pose proof (blit_length _ _ _ _ E) as Hl.
  destruct (slice dst' a n) as [x | | |] eqn:Ex, (slice dst a n) as [y | | |] eqn:Ey;
    unfold slice in Ex, Ey; rewrite ?Hl in Ex; destruct (_ && _) eqn:B; try done.
  fold (slice dst' a n) in Ex. f_equal.
  repeat apply andb_prop in B as [B ?]. rewrite !Z.leb_le in *.
  assert (slice dst' a n = Ok x) as Sx by (rewrite slice_ok by lia; done).
  assert (slice dst a n = Ok y) as Sy by (rewrite slice_ok by lia; done).
  pose proof (slice_length _ _ _ _ Sx). pose proof (slice_length _ _ _ _ Sy).
  apply listZ_eq; [lia |]. intros i Hi.
  rewrite (nthZ_slice _ _ _ _ _ Sx), (nthZ_slice _ _ _ _ _ Sy), (nthZ_blit _ _ _ _ _ E) by lia.
  destruct (Z.leb_spec at_ (a + i)), (Z.ltb_spec (a + i) (at_ + zlen src)); cbn; try done. lia.
Qed.

Lemma blit_app pre rest bs : zlen bs <= zlen rest ->
  blit (pre ++ rest) (zlen pre) bs = Ok (pre ++ bs ++ drop (length bs) rest).
Proof.
  intros H. rewrite blit_ok by (rewrite ?length_app; lia). rewrite Nat2Z.id, take_app_length.
  rewrite drop_app. do 3 f_equal. rewrite drop_ge by lia. cbn. f_equal. lia.
Qed.

Lemma slice_app pre bs tl : slice (pre ++ bs ++ tl) (zlen pre) (zlen bs) = Ok bs.
Proof.
  rewrite slice_ok by (rewrite ?length_app; lia). rewrite !Nat2Z.id, drop_app_length.
  by rewrite take_app_length.
Qed.

(** ** Arithmetic by cases *)

(** A modulus that wraps at most once, as a case distinction. *)
Lemma slot_mod c a : 0 <= a < 2 * c -> a mod c = if a <? c then a else a - c.
Proof.
  intros Ha. destruct (Z.ltb_spec a c); [by apply Z.mod_small; lia |].
  symmetry. apply (Z.mod_unique a c 1); lia.
Qed.

Lemma u32_small a : 0 <= a < 2 ^ 32 -> u32 a = a.
Proof. intros. by apply Z.mod_small. Qed.

(** Split every comparison of the goal and close the impossible cases. *)
Ltac zcases :=
  repeat match goal with
  | |- context [?a <? ?b] => destruct (Z.ltb_spec a b)
  | |- context [?a <=? ?b] => destruct (Z.leb_spec a b)
  | |- context [?a =? ?b] => destruct (Z.eqb_spec a b)
  end; cbn [andb orb negb]; try lia.
