(* ===== verification/Fifo8.v ===== *)
(** * The byte FIFO (util/fifo8.c)

    The circular buffer behind the emulated UARTs and USB audio endpoints, as
    the C code keeps it: a byte array, its capacity, the index of the oldest
    byte and the number of bytes held, all of them 32-bit unsigned integers
    with their wrap-around.  [contents] is the abstraction function to a list
    of bytes, and the theorems say that every operation implements the list
    operation its name promises, asserts included. *)

From stdpp Require Import base numbers list.
From Stdlib Require Import ZArith Lia.
From S2P Require Import Prelude.

Record Fifo8 := mkFifo8 {
  fifo_data : list Z;
  fifo_capacity : Z;
  fifo_head : Z;
  fifo_num : Z
}.

#[export] Instance eta_Fifo8 : Eta Fifo8 := fun f =>
  mkFifo8 (fifo_data f) (fifo_capacity f) (fifo_head f) (fifo_num f).

(** ** Operations *)

Definition fifo8_reset (f : Fifo8) : Fifo8 := f <| fifo_num := 0 |> <| fifo_head := 0 |>.

(** [g_new] leaves the bytes uninitialised: [mem] is what the allocation holds. *)
Definition fifo8_create (mem : list Z) (capacity : Z) : Fifo8 :=
  fifo8_reset (mkFifo8 mem capacity 0 0).

Definition fifo8_push (f : Fifo8) (d : Z) : outcome Fifo8 :=
  c_assert (fifo_num f <? fifo_capacity f) ;;
  data' ← wr (fifo_data f) (u32 (fifo_head f + fifo_num f) mod fifo_capacity f) d;
  Ok (f <| fifo_data := data' |> <| fifo_num := u32 (fifo_num f + 1) |>).

(** The copies of [fifo8_push_all]: one [memcpy], or two around the end. *)
Definition copy_in (f : Fifo8) (start : Z) (d : list Z) (num : Z) : outcome (list Z) :=
  if u32 (start + num) <=? fifo_capacity f then
    src ← slice d 0 num; blit (fifo_data f) start src
  else
    let avail := u32 (fifo_capacity f - start) in
    src1 ← slice d 0 avail;
    data1 ← blit (fifo_data f) start src1;
    src2 ← slice d avail (u32 (num - avail));
    blit data1 0 src2.

Definition fifo8_push_all (f : Fifo8) (d : list Z) (num : Z) : outcome Fifo8 :=
  c_assert (u32 (fifo_num f + num) <=? fifo_capacity f) ;;
  let start := u32 (fifo_head f + fifo_num f) mod fifo_capacity f in
  data' ← copy_in f start d num;
  Ok (f <| fifo_data := data' |> <| fifo_num := u32 (fifo_num f + num) |>).

Definition fifo8_pop (f : Fifo8) : outcome (Z * Fifo8) :=
  c_assert (0 <? fifo_num f) ;;
  ret ← rd (fifo_data f) (fifo_head f);
  Ok (ret, f <| fifo_head := u32 (fifo_head f + 1) mod fifo_capacity f |>
             <| fifo_num := u32 (fifo_num f - 1) |>).

Definition fifo8_peek (f : Fifo8) : outcome Z :=
  c_assert (0 <? fifo_num f) ;; rd (fifo_data f) (fifo_head f).

(** The pointer returned is into [fifo_data]; its index is the first result,
    [*numptr] the second. *)
Definition fifo8_peekpop_bufptr (f : Fifo8) (max skip : Z) (do_pop : bool)
    : outcome (Z * Z * Fifo8) :=
  c_assert ((0 <? max) && (max <=? fifo_num f)) ;;
  c_assert (skip <=? fifo_num f) ;;
  let head := u32 (fifo_head f + skip) mod fifo_capacity f in
  let num := Z.min (u32 (fifo_capacity f - head)) max in
  Ok (head, num,
      if do_pop then
        f <| fifo_head := u32 (head + num) mod fifo_capacity f |>
          <| fifo_num := u32 (fifo_num f - num) |>
      else f).

Definition fifo8_peek_bufptr (f : Fifo8) (max : Z) : outcome (Z * Z * Fifo8) :=
  fifo8_peekpop_bufptr f max 0 false.

Definition fifo8_pop_bufptr (f : Fifo8) (max : Z) : outcome (Z * Z * Fifo8) :=
  fifo8_peekpop_bufptr f max 0 true.

Definition fifo8_num_used (f : Fifo8) : Z := fifo_num f.
Definition fifo8_num_free (f : Fifo8) : Z := u32 (fifo_capacity f - fifo_num f).
Definition fifo8_is_empty (f : Fifo8) : bool := fifo_num f =? 0.
Definition fifo8_is_full (f : Fifo8) : bool := fifo_num f =? fifo_capacity f.

(** [if (dest) memcpy(&dest[at], &fifo->data[ptr], n)] *)
Definition copy_out (f : Fifo8) (dest : option (list Z)) (at_ ptr n : Z)
    : outcome (option (list Z)) :=
  match dest with
  | None => Ok None
  | Some d => src ← slice (fifo_data f) ptr n; Some <$> blit d at_ src
  end.

Definition fifo8_peekpop_buf (f : Fifo8) (dest : option (list Z)) (destlen : Z)
    (do_pop : bool) : outcome (Z * option (list Z) * Fifo8) :=
  if destlen =? 0 then Ok (0, dest, f) else
  '(buf, n1, f1) ← fifo8_peekpop_bufptr f destlen 0 do_pop;
  dest1 ← copy_out f1 dest 0 buf n1;
  let len := Z.min (u32 (destlen - n1)) (fifo8_num_used f1) in
  if len =? 0 then Ok (n1, dest1, f1) else
  '(buf2, n2, f2) ← fifo8_peekpop_bufptr f1 len (if do_pop then 0 else n1) do_pop;
  dest2 ← copy_out f2 dest1 n1 buf2 n2;
  Ok (u32 (n1 + n2), dest2, f2).

Definition fifo8_pop_buf (f : Fifo8) (dest : option (list Z)) (destlen : Z) :=
  fifo8_peekpop_buf f dest destlen true.

Definition fifo8_peek_buf (f : Fifo8) (dest : option (list Z)) (destlen : Z) :=
  fifo8_peekpop_buf f dest destlen false.

Definition fifo8_drop (f : Fifo8) (len : Z) : outcome Fifo8 :=
  '(n, _, f') ← fifo8_pop_buf f None len;
  c_assert (u32 (len - n) =? 0) ;; Ok f'.

(** ** Invariant and abstraction *)

(** A FIFO of at most [2^31] bytes: the code adds an index to a count in 32
    bits, so that a larger one would wrap. *)
Record fifo_ok (f : Fifo8) : Prop := {
  fifo_ok_data : zlen (fifo_data f) = fifo_capacity f;
  fifo_ok_capacity : 0 < fifo_capacity f <= 2 ^ 31;
  fifo_ok_head : 0 <= fifo_head f < fifo_capacity f;
  fifo_ok_num : 0 <= fifo_num f <= fifo_capacity f
}.

Definition contents (f : Fifo8) : list Z :=
  (fun i => nthZ (fifo_data f) ((fifo_head f + i) mod fifo_capacity f)) <$> seqZ 0 (fifo_num f).

Lemma length_contents f : fifo_ok f -> zlen (contents f) = fifo_num f.
Proof. intros [_ _ _ Hn]. unfold contents. rewrite length_fmap, length_seqZ. lia. Qed.

Lemma nthZ_contents f i : fifo_ok f -> 0 <= i < fifo_num f ->
  nthZ (contents f) i = nthZ (fifo_data f) ((fifo_head f + i) mod fifo_capacity f).
Proof.
  intros [_ _ _ Hn] Hi. unfold contents.
  rewrite nthZ_fmap by (rewrite length_seqZ; lia). by rewrite nthZ_seqZ by lia.
Qed.

(** Two descriptions of the same slots: used by every refinement below. *)
Lemma contents_eq f l : fifo_ok f -> zlen l = fifo_num f ->
  (forall i, 0 <= i < fifo_num f ->
     nthZ (fifo_data f) ((fifo_head f + i) mod fifo_capacity f) = nthZ l i) ->
  contents f = l.
Proof.
  intros Hf Hl H. apply listZ_eq; rewrite length_contents by done; [done |].
  intros i Hi. rewrite nthZ_contents by done. by apply H.
Qed.

(** ** Single bytes *)

Lemma fifo8_create_contents mem capacity :
  zlen mem = capacity -> 0 < capacity <= 2 ^ 31 ->
  fifo_ok (fifo8_create mem capacity) /\ contents (fifo8_create mem capacity) = [].
Proof. intros Hm Hc. split; [split; cbn; lia | done]. Qed.

Lemma push_spec f d : fifo_ok f -> fifo_num f < fifo_capacity f ->
  exists f', fifo8_push f d = Ok f' /\ fifo_ok f' /\ contents f' = contents f ++ [d].
Proof.
  intros Hf Hlt. pose proof Hf as [Hd Hc Hh Hn]. unfold fifo8_push.
  rewrite c_assert_true by (apply Z.ltb_lt; lia). cbn [mbind outcome_bind].
  rewrite (u32_small (_ + 1)), u32_small, wr_ok by (rewrite ?slot_mod; zcases).
  eexists. split; [done |].
  assert (Hok : fifo_ok (f <| fifo_data := <[Z.to_nat ((fifo_head f + fifo_num f) mod fifo_capacity f):=d]>
     (fifo_data f) |> <| fifo_num := fifo_num f + 1 |>)).
  { split; cbn; rewrite ?length_insert; lia. }
  split; [exact Hok |]. apply contents_eq; [exact Hok | |]; cbn.
  { rewrite length_app, Nat2Z.inj_add, length_contents by done. done. }
  intros i Hi. rewrite nthZ_app, length_contents by done.
  rewrite nthZ_insert, !slot_mod by (rewrite ?slot_mod; zcases).
  destruct (Z.ltb_spec i (fifo_num f)).
  - rewrite nthZ_contents, slot_mod by (done || lia). zcases.
  - replace i with (fifo_num f) by lia. rewrite Z.eqb_refl, Z.sub_diag. done.
Qed.

Lemma pop_spec f : fifo_ok f -> 0 < fifo_num f ->
  exists f' b l, contents f = b :: l /\ fifo8_pop f = Ok (b, f') /\ fifo_ok f' /\ contents f' = l.
Proof.
  intros Hf Hlt. pose proof Hf as [Hd Hc Hh Hn]. unfold fifo8_pop.
  rewrite c_assert_true by (apply Z.ltb_lt; lia). cbn [mbind outcome_bind].
  rewrite rd_nthZ, !u32_small by lia. cbn [mbind outcome_bind].
  assert (Hok : fifo_ok (f <| fifo_head := (fifo_head f + 1) mod fifo_capacity f |>
                          <| fifo_num := fifo_num f - 1 |>)).
  { split; cbn; try lia. apply Z.mod_pos_bound. lia. }
  eexists _, _, _. split; [| split; [done |]; split; [exact Hok | reflexivity]].
  apply contents_eq; [done | |].
  { rewrite length_cons, Nat2Z.inj_succ, length_contents by exact Hok. cbn. lia. }
  intros i Hi. rewrite nthZ_cons. destruct (Z.eqb_spec i 0) as [-> |].
  - rewrite Z.add_0_r, Z.mod_small by lia. done.
  - rewrite (nthZ_contents _ (i - _) Hok) by (cbn; lia). cbn.
    rewrite Zplus_mod_idemp_l. do 2 f_equal. lia.
Qed.

(** ** Blocks *)

(** The copies write the block into consecutive slots, around the end. *)
Lemma copy_in_spec f s d num :
  fifo_ok f -> 0 <= num <= fifo_capacity f -> num <= zlen d -> 0 <= s < fifo_capacity f ->
  exists data', copy_in f s d num = Ok data' /\ zlen data' = fifo_capacity f /\
    forall j, 0 <= j < fifo_capacity f ->
      nthZ data' j = if (s <=? j) && (j <? s + num) then nthZ d (j - s)
                     else if j <? s + num - fifo_capacity f then nthZ d (j + fifo_capacity f - s)
                     else nthZ (fifo_data f) j.
Proof.
  intros [Hd Hc Hh Hn] Hnum Hd' Hs. unfold copy_in. rewrite u32_small by lia.
  destruct (Z.leb_spec (s + num) (fifo_capacity f)).
  - destruct (slice_spec d 0 num) as (src & -> & Hl & Hsrc); [lia .. |]. cbn [mbind outcome_bind].
    destruct (blit_spec (fifo_data f) s src) as (b & -> & Hb & Hdata); [lia .. |].
    exists b. split; [done |]. split; [lia |]. intros j Hj. rewrite Hdata, Hl.
    zcases; rewrite ?Hsrc by lia; done.
  - cbn zeta. rewrite !u32_small by (rewrite ?u32_small; lia).
    destruct (slice_spec d 0 (fifo_capacity f - s)) as (src & -> & Hl & Hsrc); [lia .. |].
    cbn [mbind outcome_bind].
    destruct (blit_spec (fifo_data f) s src) as (b & -> & Hb & Hdata); [lia .. |].
    cbn [mbind outcome_bind].
    destruct (slice_spec d (fifo_capacity f - s) (num - (fifo_capacity f - s)))
      as (src2 & -> & Hl2 & Hsrc2); [lia .. |]. cbn [mbind outcome_bind].
    destruct (blit_spec b 0 src2) as (b2 & -> & Hb2 & Hdata2); [lia .. |].
    exists b2. split; [done |]. split; [lia |]. intros j Hj. rewrite Hdata2, Hdata, Hl, Hl2.
    zcases; rewrite ?Hsrc, ?Hsrc2 by lia; try done; f_equal; lia.
Qed.

Lemma push_all_spec f d num : fifo_ok f -> 0 <= num <= zlen d ->
  fifo_num f + num <= fifo_capacity f ->
  exists f', fifo8_push_all f d num = Ok f' /\ fifo_ok f' /\
             contents f' = contents f ++ take (Z.to_nat num) d.
Proof.
  intros Hf Hnum Hle. pose proof Hf as [Hd Hc Hh Hn]. unfold fifo8_push_all.
  rewrite (u32_small (_ + num)), c_assert_true by (rewrite ?Z.leb_le; lia).
  rewrite (u32_small (fifo_head f + fifo_num f)), slot_mod by lia. cbn [mbind outcome_bind].
  destruct (copy_in_spec f (if fifo_head f + fifo_num f <? fifo_capacity f
    then fifo_head f + fifo_num f else fifo_head f + fifo_num f - fifo_capacity f) d num)
    as (data' & -> & Hlen & Hdata); [done | lia | lia | zcases |].
  cbn [mbind outcome_bind]. eexists. split; [done |].
  assert (Hok : fifo_ok (f <| fifo_data := data' |> <| fifo_num := fifo_num f + num |>))
    by (split; cbn; lia).
  split; [exact Hok |]. apply contents_eq; [exact Hok | |]; cbn.
  { rewrite length_app, Nat2Z.inj_add, length_contents, length_take by done. lia. }
  intros i Hi. rewrite nthZ_app, length_contents, nthZ_take, slot_mod by (done || lia).
  rewrite Hdata by zcases.
  destruct (Z.ltb_spec i (fifo_num f)).
  - rewrite nthZ_contents, slot_mod by (done || lia). zcases; done.
  - zcases; f_equal; lia.
Qed.

(** Removing the [n] oldest bytes, as [do_pop] does it. *)
Definition advance (f : Fifo8) (n : Z) : Fifo8 :=
  f <| fifo_head := (fifo_head f + n) mod fifo_capacity f |> <| fifo_num := fifo_num f - n |>.

Lemma advance_num f n : fifo_num (advance f n) = fifo_num f - n.
Proof. done. Qed.

Lemma advance_ok f n : fifo_ok f -> 0 <= n <= fifo_num f -> fifo_ok (advance f n).
Proof. intros [Hd Hc Hh Hn] H. split; cbn; try lia. apply Z.mod_pos_bound. lia. Qed.

Lemma contents_advance f n : fifo_ok f -> 0 <= n <= fifo_num f ->
  contents (advance f n) = drop (Z.to_nat n) (contents f).
Proof.
  intros Hf H. pose proof (advance_ok f n Hf H) as Hok. pose proof Hf as [Hd Hc Hh Hn].
  apply contents_eq; [done | |]; cbn.
  { rewrite length_drop. pose proof (length_contents f Hf). lia. }
  intros i Hi. rewrite nthZ_drop, nthZ_contents, Zplus_mod_idemp_l by (done || lia).
  do 2 f_equal. lia.
Qed.

(** The block at [skip]: as much of it as lies before the end of the array. *)
Lemma bufptr_spec f max skip do_pop :
  fifo_ok f -> 0 < max -> 0 <= skip -> skip + max <= fifo_num f -> (do_pop = true -> skip = 0) ->
  let slot := (fifo_head f + skip) mod fifo_capacity f in
  let n := Z.min (fifo_capacity f - slot) max in
  fifo8_peekpop_bufptr f max skip do_pop = Ok (slot, n, if do_pop then advance f n else f) /\
  0 < n /\ slice (fifo_data f) slot n = Ok (take (Z.to_nat n) (drop (Z.to_nat skip) (contents f))).
Proof.
  intros Hf Hmax Hskip Hle Hpop slot n. pose proof Hf as [Hd Hc Hh Hn].
  assert (Hslot : 0 <= slot < fifo_capacity f) by (apply Z.mod_pos_bound; lia).
  split; [| split; [lia |]].
  - unfold fifo8_peekpop_bufptr. rewrite !c_assert_true by (rewrite ?andb_true_iff; zcases; lia).
    cbn [mbind outcome_bind]. rewrite !(u32_small (fifo_head f + skip)) by lia. fold slot.
    rewrite !(u32_small (fifo_capacity f - slot)) by lia. fold n.
    destruct do_pop; [| done].
    assert (Hsl : slot = fifo_head f)
      by (unfold slot; rewrite Hpop, Z.add_0_r by done; apply Z.mod_small; lia).
    rewrite !u32_small by lia. unfold advance. by rewrite Hsl.
  - destruct (slice_spec (fifo_data f) slot n) as (s & -> & Hl & Hs); [lia .. |]. f_equal.
    pose proof (length_contents f Hf).
    apply listZ_eq; [rewrite length_take, length_drop; lia |].
    intros i Hi. rewrite Hs, nthZ_take, nthZ_drop, nthZ_contents by (done || lia).
    destruct (Z.ltb_spec i (Z.of_nat (Z.to_nat n))); [| lia]. f_equal.
    subst slot n. rewrite slot_mod in * by lia. rewrite slot_mod by lia.
    revert Hslot Hl. zcases.
Qed.

(** A destination that took the block [l] at [at_]. *)
Lemma copy_out_spec f d at_ ptr n l :
  slice (fifo_data f) ptr n = Ok l -> 0 <= at_ -> at_ + zlen l <= zlen d ->
  copy_out f (Some d) at_ ptr n =
    Ok (Some (take (Z.to_nat at_) d ++ l ++ drop (Z.to_nat at_ + length l) d)).
Proof. intros Hs H1 H2. unfold copy_out. rewrite Hs. cbn. by rewrite blit_ok by lia. Qed.

Lemma splice_twice (c d : list Z) (n1 n2 : nat) :
  (n1 + n2 <= length c)%nat -> (n1 + n2 <= length d)%nat ->
  let d1 := take n1 c ++ drop n1 d in
  take n1 d1 ++ take n2 (drop n1 c) ++ drop (n1 + n2) d1 = take (n1 + n2) c ++ drop (n1 + n2) d.
Proof.
  intros H1 H2 d1. subst d1. rewrite (take_app_length' _ _ n1) by (rewrite length_take; lia).
  rewrite drop_app, (drop_ge (take n1 c)) by (rewrite length_take; lia).
  rewrite length_take, drop_drop. cbn [app].
  replace (n1 + (n1 + n2 - n1 `min` length c))%nat with (n1 + n2)%nat by lia.
  rewrite app_assoc. f_equal. symmetry. rewrite <- (take_drop n1 c) at 1.
  rewrite take_app, (take_ge (take n1 c)) by (rewrite length_take; lia).
  f_equal. rewrite length_take. f_equal. lia.
Qed.

(** The second block of a read that runs around the end of the array. *)
Lemma bufptr_wrap f len do_pop :
  let n1 := fifo_capacity f - fifo_head f in
  let f1 := if do_pop : bool then advance f n1 else f in
  fifo_ok f -> n1 < len <= fifo_num f ->
  fifo8_peekpop_bufptr f1 (len - n1) (if do_pop then 0 else n1) do_pop =
    Ok (0, len - n1, if do_pop then advance f len else f) /\
  slice (fifo_data f) 0 (len - n1) =
    Ok (take (Z.to_nat (len - n1)) (drop (Z.to_nat n1) (contents f))).
Proof.
  intros n1 f1 Hf Hlen. pose proof Hf as [Hd Hc Hh Hn].
  assert (H1 : (fifo_head f + n1) mod fifo_capacity f = 0)
    by (unfold n1; rewrite Zplus_minus, Z.mod_same; lia).
  assert (Hf1 : fifo_ok f1) by (subst f1; destruct do_pop; [apply advance_ok |]; (done || lia)).
  destruct (bufptr_spec f1 (len - n1) (if do_pop then 0 else n1) do_pop Hf1) as (E & Hn2 & Hs2);
    [lia | destruct do_pop; lia | subst f1; destruct do_pop; rewrite ?advance_num; lia
    | by destruct do_pop |].
  assert (Hsl : (fifo_head f1 + (if do_pop then 0 else n1)) mod fifo_capacity f1 = 0)
    by (subst f1; destruct do_pop; cbn; [rewrite Z.add_0_r, Z.mod_mod by lia |]; done).
  assert (Hcap : fifo_capacity f1 = fifo_capacity f) by (subst f1; by destruct do_pop).
  assert (Hc2 : drop (Z.to_nat (if do_pop then 0 else n1)) (contents f1) = drop (Z.to_nat n1) (contents f))
    by (subst f1; destruct do_pop; [rewrite contents_advance by (done || lia) |]; done).
  rewrite Hsl, Hcap, Z.sub_0_r, Z.min_r, ?Hc2 in * by lia. rewrite E. clear E.
  split; [| rewrite <- Hs2; subst f1; by destruct do_pop].
  subst f1. destruct do_pop; [| done]. do 2 f_equal.
  unfold advance. cbn. rewrite H1. f_equal; [| lia].
  replace (fifo_head f + len) with (fifo_head f + n1 + (len - n1)) by lia.
  by rewrite <- (Zplus_mod_idemp_l (fifo_head f + n1)), H1.
Qed.

(** Reading a block out of the FIFO, with or without removing it. *)
Lemma peekpop_buf_spec f d len do_pop :
  fifo_ok f -> 0 <= len <= fifo_num f -> len <= zlen d ->
  fifo8_peekpop_buf f (Some d) len do_pop =
    Ok (len, Some (take (Z.to_nat len) (contents f) ++ drop (Z.to_nat len) d),
        if do_pop then (if len =? 0 then f else advance f len) else f).
Proof.
  intros Hf Hlen Hd'. pose proof Hf as [Hd Hc Hh Hn]. unfold fifo8_peekpop_buf.
  destruct (Z.eqb_spec len 0) as [-> |]; [by destruct do_pop |].
  destruct (bufptr_spec f len 0 do_pop Hf) as (E & Hn1 & Hs); [lia .. | done |].
  rewrite E. cbn [mbind outcome_bind]. clear E.
  rewrite Z.add_0_r, (Z.mod_small (fifo_head f)) in * by lia.
  set (n1 := Z.min _ _) in *. pose proof (slice_length _ _ _ _ Hs) as Hl.
  set (f1 := if do_pop then advance f n1 else f).
  assert (Hf1 : fifo_ok f1) by (subst f1; destruct do_pop; [apply advance_ok |]; (done || lia)).
  rewrite (copy_out_spec f1 d 0 _ _ _) by
    (lia || (subst f1; destruct do_pop; exact Hs)). cbn [mbind outcome_bind].
  rewrite drop_0 in *. change (take (Z.to_nat 0) d) with (@nil Z). cbn [app Nat.add Z.to_nat].
  replace (length (take (Z.to_nat n1) (contents f))) with (Z.to_nat n1) by lia.
  rewrite u32_small by lia.
  assert (Hu : Z.min (len - n1) (fifo8_num_used f1) = len - n1)
    by (subst f1; destruct do_pop; unfold fifo8_num_used; rewrite ?advance_num; lia).
  rewrite Hu. destruct (Z.eqb_spec (len - n1) 0).
  { replace n1 with len by lia. subst f1. by destruct do_pop; replace n1 with len by lia. }
  assert (Hslot : n1 = fifo_capacity f - fifo_head f) by lia.
  assert (Hlt : fifo_capacity f - fifo_head f < len <= fifo_num f) by lia.
  subst f1. rewrite Hslot in *. clear n1 Hslot.
  destruct (bufptr_wrap f len do_pop Hf Hlt) as [-> Hs2]. cbn [mbind outcome_bind].
  pose proof (slice_length _ _ _ _ Hs2) as Hl2. set (n1 := fifo_capacity f - fifo_head f) in *.
  rewrite (copy_out_spec _ _ _ _ _ (take (Z.to_nat (len - n1)) (drop (Z.to_nat n1) (contents f)))).
  2: { rewrite <- Hs2. by destruct do_pop. } 2: lia.
  2: { rewrite length_app, Nat2Z.inj_add, Hl, Hl2, length_drop. lia. }
  cbn [mbind outcome_bind]. replace (length (take (Z.to_nat (len - n1)) _)) with (Z.to_nat (len - n1)) by lia.
  pose proof (length_contents f Hf). change (Z.to_nat 0) with O. cbn [Nat.add].
  rewrite splice_twice, u32_small by lia.
  replace (Z.to_nat n1 + Z.to_nat (len - n1))%nat with (Z.to_nat len) by lia.
  by replace (n1 + (len - n1)) with len by lia.
Qed.

Lemma peekpop_buf_dest f d len do_pop n d' f' :
  fifo8_peekpop_buf f (Some d) len do_pop = Ok (n, d', f') ->
  fifo8_peekpop_buf f None len do_pop = Ok (n, None, f').
Proof.
  unfold fifo8_peekpop_buf. destruct (_ =? 0); [by intros [= <- <- <-] |]. intros H.
  apply bind_ok in H as ([[buf n1] f1] & -> & H). cbn [mbind outcome_bind copy_out].
  apply bind_ok in H as (d1 & _ & H). destruct (_ =? 0); [by inversion H; subst |].
  apply bind_ok in H as ([[buf2 n2] f2] & -> & H). cbn [mbind outcome_bind].
  apply bind_ok in H as (d2 & _ & H). by inversion H; subst.
Qed.

(** ** The FIFO is a bounded queue of bytes *)

(** A block pushed with [fifo8_push_all] is appended to the bytes held, in
    order and across the end of the array, and the buffer stays well formed;
    a block longer than the free space (and short enough for the 32-bit sum of
    the check not to wrap) fails the assertion and writes nothing. *)
Theorem fifo8_push_all_appends f d num :
  fifo_ok f -> 0 <= num <= zlen d -> num < 2 ^ 31 ->
  if num <=? fifo8_num_free f then
    exists f', fifo8_push_all f d num = Ok f' /\ fifo_ok f' /\
               fifo_capacity f' = fifo_capacity f /\
               contents f' = contents f ++ take (Z.to_nat num) d
  else fifo8_push_all f d num = AssertFail.
Proof.
  intros Hf Hnum H31. pose proof Hf as [Hd Hc Hh Hn].
  unfold fifo8_num_free. rewrite u32_small by lia.
  destruct (Z.leb_spec num (fifo_capacity f - fifo_num f)).
  - destruct (push_all_spec f d num) as (f' & E & Hok & Hcon); [done | lia .. |].
    exists f'. repeat (split; [done |]). split; [| done].
    unfold fifo8_push_all in E. inv_ok. by subst f'.
  - unfold fifo8_push_all. rewrite u32_small by lia.
    destruct (Z.leb_spec (fifo_num f + num) (fifo_capacity f)); [lia | done].
Qed.

Definition fifo8_example : Fifo8 := mkFifo8 [10; 11; 12; 13] 4 3 2.

Lemma fifo8_push_all_appends_witness :
  fifo_ok fifo8_example /\
  exists f', fifo8_push_all fifo8_example [7; 8; 9] 2 = Ok f' /\ fifo_ok f' /\
    fifo_capacity f' = 4 /\ contents f' = [13; 10] ++ [7; 8].
Proof.
  assert (H : fifo_ok fifo8_example) by (split; cbn; lia).
  split; [exact H |].
  exact (fifo8_push_all_appends fifo8_example [7; 8; 9] 2 H ltac:(cbn; lia) ltac:(lia)).
Defined.

(** [fifo8_pop_buf] copies the oldest [len] bytes to the destination, in
    order, leaves the rest of the destination alone, and leaves exactly the
    other bytes in the FIFO; [fifo8_peek_buf] copies the same bytes and leaves
    the FIFO as it is; asking for more bytes than are held fails the assertion. *)
Theorem fifo8_pop_buf_takes f d len :
  fifo_ok f -> 0 <= len <= zlen d ->
  let d' := Some (take (Z.to_nat len) (contents f) ++ drop (Z.to_nat len) d) in
  if len <=? fifo8_num_used f then
    fifo8_peek_buf f (Some d) len = Ok (len, d', f) /\
    exists f', fifo8_pop_buf f (Some d) len = Ok (len, d', f') /\ fifo_ok f' /\
               fifo_capacity f' = fifo_capacity f /\
               contents f' = drop (Z.to_nat len) (contents f)
  else fifo8_pop_buf f (Some d) len = AssertFail /\ fifo8_peek_buf f (Some d) len = AssertFail.
Proof.
  intros Hf Hlen d'. unfold fifo8_num_used. destruct (Z.leb_spec len (fifo_num f)).
  - unfold fifo8_peek_buf, fifo8_pop_buf. rewrite !peekpop_buf_spec by (done || lia).
    split; [done |]. eexists. split; [done |].
    destruct (Z.eqb_spec len 0) as [-> |]; [done |].
    split; [apply advance_ok; (done || lia) |]. split; [done |].
    apply contents_advance; (done || lia).
  - assert (0 <= fifo_num f) by apply Hf.
    unfold fifo8_peek_buf, fifo8_pop_buf, fifo8_peekpop_buf, fifo8_peekpop_bufptr.
    destruct (Z.eqb_spec len 0); [lia |].
    destruct (Z.leb_spec len (fifo_num f)); [lia |]. by rewrite andb_false_r.
Qed.

Lemma fifo8_pop_buf_takes_witness :
  fifo_ok fifo8_example /\
  fifo8_peek_buf fifo8_example (Some [0; 0; 0]) 2 = Ok (2, Some [13; 10; 0], fifo8_example).
Proof.
  assert (H : fifo_ok fifo8_example) by (split; cbn; lia).
  split; [exact H |].
  exact (proj1 (fifo8_pop_buf_takes fifo8_example [0; 0; 0] 2 H ltac:(cbn; lia))).
Defined.
