(* ===== verification/DspArith.v ===== *)
(** * The DSP56300's accumulator arithmetic (mcpx/apu/dsp/dsp_cpu.c)

    The audio processors' 56-bit arithmetic as the emulator computes it, on
    three 32-bit words that hold bits 55:48, 47:24 and 23:0 of an accumulator
    with the carries propagated by hand and the flags returned in the layout of
    the status register.  The theorems identify each routine with integer
    arithmetic modulo 2^56 and each flag with its arithmetic meaning. *)

From stdpp Require Import base numbers.
From Stdlib Require Import ZArith Lia.
From S2P Require Import Prelude.

(** Bit numbers of the status register (dsp_cpu_regs.h). *)
Abbreviation DSP_SR_C := 0.
Abbreviation DSP_SR_V := 1.
Abbreviation DSP_SR_L := 6.
Abbreviation DSP_SR_S0 := 10.
Abbreviation DSP_SR_S1 := 11.

(** [BITMASK(x)] *)
Definition BITMASK (x : Z) : Z := (1 ≪ x) - 1.

(** [uint32_t dest[3]] *)
Record acc := mkAcc { dest0 : Z; dest1 : Z; dest2 : Z }.

(** ** Operations *)

Definition dsp_add56 (source dest : acc) : Z * acc :=
  let flg_s := (dest0 source ≫ 7) .& 1 in
  let flg_d := (dest0 dest ≫ 7) .& 1 in
  let d2 := u32 (dest2 dest + dest2 source) in
  let d1 := u32 (dest1 dest + (dest1 source + ((d2 ≫ 24) .& 1))) in
  let d0 := u32 (dest0 dest + (dest0 source + ((d1 ≫ 24) .& 1))) in
  let carry := (d0 ≫ 8) .& 1 in
  let r := mkAcc (d0 .& BITMASK 8) (d1 .& BITMASK 24) (d2 .& BITMASK 24) in
  let flg_r := (dest0 r ≫ 7) .& 1 in
  let overflow := (flg_s .^ flg_r) .& (flg_d .^ flg_r) in
  ((overflow ≪ DSP_SR_L) .| (overflow ≪ DSP_SR_V) .| (carry ≪ DSP_SR_C), r).

Definition dsp_sub56 (source dest : acc) : Z * acc :=
  let dest_save := u16 (dest0 dest) in
  let d2 := u32 (dest2 dest - dest2 source) in
  let d1 := u32 (dest1 dest - u32 (dest1 source + ((d2 ≫ 24) .& 1))) in
  let d0 := u32 (dest0 dest - u32 (dest0 source + ((d1 ≫ 24) .& 1))) in
  let carry := (d0 ≫ 8) .& 1 in
  let r := mkAcc (d0 .& BITMASK 8) (d1 .& BITMASK 24) (d2 .& BITMASK 24) in
  let flg_s := (dest0 source ≫ 7) .& 1 in
  let flg_d := (dest_save ≫ 7) .& 1 in
  let flg_r := (dest0 r ≫ 7) .& 1 in
  let overflow := (flg_s .^ flg_d) .& (flg_r .^ flg_d) in
  ((overflow ≪ DSP_SR_L) .| (overflow ≪ DSP_SR_V) .| (carry ≪ DSP_SR_C), r).

Definition zerodest : acc := mkAcc 0 0 0.

Definition dsp_abs56 (dest : acc) : Z * acc :=
  if flag (dest0 dest) (1 ≪ 7) then dsp_sub56 dest zerodest else (0, dest).

(** The accumulator as one 64-bit word. *)
Definition dest_v (dest : acc) : Z :=
  dest2 dest .| u64 (dest1 dest ≪ 24) .| u64 (dest0 dest ≪ 48).

Definition split_v (v : Z) : acc :=
  mkAcc ((v ≫ 48) .& BITMASK 8) ((v ≫ 24) .& BITMASK 24) (v .& BITMASK 24).

Definition b2z (b : bool) : Z := if b then 1 else 0.

(** A shift of a 64-bit word by a count outside [0, 64) is undefined. *)
Definition shift_ok (n : Z) : bool := (0 <=? n) && (n <? 64).

Definition dsp_asl56 (dest : acc) (n : Z) : outcome (Z * acc) :=
  if negb (shift_ok (56 - n) && shift_ok n) then Undef else
  let v := dest_v dest in
  let carry := (v ≫ (56 - n)) .& 1 in
  let dest_s := u64 (v ≪ n) in
  let overflow := b2z (negb (v ≫ (56 - n) =? 0)) in
  let vf := b2z (negb ((v ≫ 55) .& 1 =? (dest_s ≫ 55) .& 1)) in
  Ok ((overflow ≪ DSP_SR_L) .| (vf ≪ DSP_SR_V) .| (carry ≪ DSP_SR_C), split_v dest_s).

Definition dsp_asr56 (dest : acc) (n : Z) : outcome (Z * acc) :=
  if negb (shift_ok (n - 1) && shift_ok n) then Undef else
  let v := dest_v dest in
  let carry := u16 ((v ≫ (n - 1)) .& 1) in
  Ok (carry ≪ DSP_SR_C, split_v (v ≫ n)).

(** The unsigned 24 by 24 bit product, from four 12 by 12 bit products. *)
Definition mul24 (source1 source2 : Z) : acc :=
  let part0 := u32 ((source1 .& BITMASK 12) * (source2 .& BITMASK 12)) in
  let part1 := u32 (((source1 ≫ 12) .& BITMASK 12) * (source2 .& BITMASK 12)) in
  let part2 := u32 ((source1 .& BITMASK 12) * ((source2 ≫ 12) .& BITMASK 12)) in
  let part3 := u32 (((source1 ≫ 12) .& BITMASK 12) * ((source2 ≫ 12) .& BITMASK 12)) in
  let d2 := u32 (u32 (part0 + u32 ((part1 .& BITMASK 12) ≪ 12)) + u32 ((part2 .& BITMASK 12) ≪ 12)) in
  let d1 := u32 (u32 (((part1 ≫ 12) .& BITMASK 12) + ((part2 ≫ 12) .& BITMASK 12)) + part3) in
  let d0 := 0 in
  let value := (d2 ≫ 24) .& BITMASK 8 in
  let '(d1, d2) := if value =? 0 then (d1, d2) else (u32 (d1 + value), d2 .& BITMASK 24) in
  let value := (d1 ≫ 24) .& BITMASK 8 in
  let '(d0, d1) := if value =? 0 then (d0, d1) else (u32 (d0 + value), d1 .& BITMASK 24) in
  mkAcc d0 d1 d2.

Definition dsp_mul56 (source1 source2 : Z) (signe : bool) : outcome acc :=
  let '(signe, source1) :=
    if flag source1 (1 ≪ 23) then (negb signe, u32 ((1 ≪ 24) - source1)) else (signe, source1) in
  let '(signe, source2) :=
    if flag source2 (1 ≪ 23) then (negb signe, u32 ((1 ≪ 24) - source2)) else (signe, source2) in
  '(_, dest) ← dsp_asl56 (mul24 source1 source2) 1;
  Ok (if signe then (dsp_sub56 dest zerodest).2 else dest).

(** [sr] is the status register, [dsp->registers[DSP_REG_SR]]. *)
Definition dsp_rnd56 (sr : Z) (dest : acc) : acc :=
  if flag sr (1 ≪ DSP_SR_S0) then
    let d := (dsp_add56 (mkAcc 0 1 0) dest).2 in
    let d1 := if (dest2 d =? 0) && (dest1 d .& 1 =? 0) then dest1 d .& (0xffffff - 0x3) else dest1 d in
    mkAcc (dest0 d) (d1 .& 0xfffffe) 0
  else if flag sr (1 ≪ DSP_SR_S1) then
    let d := (dsp_add56 (mkAcc 0 0 (1 ≪ 22)) dest).2 in
    let d2 := if dest2 d .& 0x7fffff =? 0 then 0 else dest2 d in
    mkAcc (dest0 d) (dest1 d) (d2 .& 0x800000)
  else
    let d := (dsp_add56 (mkAcc 0 0 (1 ≪ 23)) dest).2 in
    let d1 := if dest2 d =? 0 then dest1 d .& 0xfffffe else dest1 d in
    mkAcc (dest0 d) d1 0.

Definition dsp_signextend (bits v : Z) : outcome Z :=
  let shift := 32 - bits in
  c_assert (0 <? shift) ;;
  if 32 <=? shift then Undef else
  Ok (u32 (sext 32 (v ≪ shift) ≫ shift)).

(** ** Values *)

Record acc_ok (a : acc) : Prop := {
  acc_ok0 : in_u 8 (dest0 a);
  acc_ok1 : in_u 24 (dest1 a);
  acc_ok2 : in_u 24 (dest2 a)
}.

(** The 56-bit word, and the two's complement number it stands for. *)
Definition val56 (a : acc) : Z := dest0 a * 2 ^ 48 + dest1 a * 2 ^ 24 + dest2 a.
Definition sval56 (a : acc) : Z := sext 56 (val56 a).

Definition sr_bit (sr i : Z) : bool := Z.testbit sr i.

Lemma BITMASK_ones x : BITMASK x = Z.ones x.
Proof. unfold BITMASK, Z.ones. lia. Qed.

Lemma land_BITMASK v x : 0 <= x -> v .& BITMASK x = v mod 2 ^ x.
Proof. intros Hx. by rewrite BITMASK_ones, Z.land_ones. Qed.

Lemma fit_bitmask w n x : 0 <= n <= w -> in_u w (x .& BITMASK n).
Proof. intros Hn. rewrite land_BITMASK by lia. apply (in_u_mono n); [lia |]. apply in_u_mod. lia. Qed.

Lemma shiftr_div v x : 0 <= x -> v ≫ x = v / 2 ^ x.
Proof. apply Z.shiftr_div_pow2. Qed.

Lemma land_1 v : v .& 1 = v mod 2.
Proof. apply (Z.land_ones v 1). lia. Qed.

Create Rewrite HintDb divmod.
#[export] Hint Rewrite land_BITMASK shiftr_div land_1 using lia : divmod.

(** Linear arithmetic over quotients and remainders by constants. *)
Ltac divmod_lia :=
  change (2 ^ 56) with 72057594037927936 in *; change (2 ^ 55) with 36028797018963968 in *;
  change (2 ^ 48) with 281474976710656 in *;
  change (2 ^ 32) with 4294967296 in *; change (2 ^ 24) with 16777216 in *;
  change (2 ^ 23) with 8388608 in *; change (2 ^ 22) with 4194304 in *;
  change (2 ^ 12) with 4096 in *; change (2 ^ 8) with 256 in *; change (2 ^ 7) with 128 in *;
  Z.div_mod_to_equations; lia.

Lemma bit_cases v : v mod 2 = 0 \/ v mod 2 = 1.
Proof. pose proof (Z.mod_pos_bound v 2). lia. Qed.

(** The flags word of an addition or subtraction, bit by bit. *)
Lemma sr_flags_bits o c : (o = 0 \/ o = 1) -> (c = 0 \/ c = 1) ->
  let sr := (o ≪ DSP_SR_L) .| (o ≪ DSP_SR_V) .| (c ≪ DSP_SR_C) in
  sr_bit sr DSP_SR_L = (o =? 1) /\ sr_bit sr DSP_SR_V = (o =? 1) /\ sr_bit sr DSP_SR_C = (c =? 1).
Proof. by intros [-> | ->] [-> | ->]. Qed.

Lemma sign_bit a : acc_ok a -> (dest0 a / 2 ^ 7) mod 2 = if sval56 a <? 0 then 1 else 0.
Proof.
  intros [H0 H1 H2]. unfold in_u, sval56, sext, val56 in *. cbn zeta.
  rewrite (Z.mod_small _ (2 ^ 56)) by divmod_lia.
  destruct (Z.ltb_spec (dest0 a * 2 ^ 48 + dest1 a * 2 ^ 24 + dest2 a) (2 ^ (56 - 1)));
    change (2 ^ (56 - 1)) with (2 ^ 55) in *;
    match goal with |- context [if ?b then _ else _] => destruct b eqn:E end;
    rewrite ?Z.ltb_lt, ?Z.ltb_ge in E; divmod_lia.
Qed.

Lemma val56_bounds a : acc_ok a -> 0 <= val56 a < 2 ^ 56.
Proof. intros [H0 H1 H2]. unfold in_u, val56 in *. divmod_lia. Qed.

Lemma sval56_bounds a : acc_ok a -> - 2 ^ 55 <= sval56 a < 2 ^ 55.
Proof.
  intros H%val56_bounds. unfold sval56, sext. cbn zeta. rewrite Z.mod_small by done.
  change (2 ^ (56 - 1)) with (2 ^ 55). destruct (Z.ltb_spec (val56 a) (2 ^ 55)); divmod_lia.
Qed.

Lemma sval56_val a : acc_ok a -> sval56 a = val56 a - (if sval56 a <? 0 then 2 ^ 56 else 0).
Proof.
  intros H%val56_bounds. unfold sval56, sext. cbn zeta. rewrite Z.mod_small by done.
  change (2 ^ (56 - 1)) with (2 ^ 55).
  destruct (Z.ltb_spec (val56 a) (2 ^ 55)).
  - destruct (Z.ltb_spec (val56 a) 0); lia.
  - destruct (Z.ltb_spec (val56 a - 2 ^ 56) 0); lia.
Qed.

(** The words of a sum: well formed, and congruent to the sum. *)
Lemma add56_val s d : acc_ok s -> acc_ok d ->
  let r := (dsp_add56 s d).2 in
  acc_ok r /\ val56 r = (val56 d + val56 s) mod 2 ^ 56.
Proof.
  intros [S0 S1 S2] [D0 D1 D2]. unfold dsp_add56. cbn zeta beta iota. cbn [snd].
  autorewrite with divmod. unfold in_u, val56 in *. cbn [dest0 dest1 dest2].
  split; [split; unfold in_u; cbn [dest0 dest1 dest2]; apply Z.mod_pos_bound; lia |].
  divmod_lia.
Qed.

Lemma sub56_val s d : acc_ok s -> acc_ok d ->
  let r := (dsp_sub56 s d).2 in
  acc_ok r /\ val56 r = (val56 d - val56 s) mod 2 ^ 56.
Proof.
  intros [S0 S1 S2] [D0 D1 D2]. unfold dsp_sub56. cbn zeta beta iota. cbn [snd].
  autorewrite with divmod. unfold in_u, val56 in *. cbn [dest0 dest1 dest2].
  split; [split; unfold in_u; cbn [dest0 dest1 dest2]; apply Z.mod_pos_bound; lia |].
  divmod_lia.
Qed.

(** Signed overflow: the exact result is not representable in 56 bits. *)
Definition overflows (x : Z) : bool := (x <? - 2 ^ 55) || (2 ^ 55 <=? x).

(** The sign rule of the adder detects overflow. *)
Lemma overflow_add_signs s d r :
  acc_ok s -> acc_ok d -> acc_ok r -> val56 r = (val56 d + val56 s) mod 2 ^ 56 ->
  let sg a := if sval56 a <? 0 then 1 else 0 in
  let o := (sg s .^ sg r) .& (sg d .^ sg r) in
  (o = 0 \/ o = 1) /\ (o =? 1) = overflows (sval56 d + sval56 s).
Proof.
  intros Hs Hd Hr E sg o. subst sg o. cbv beta.
  pose proof (sval56_val s Hs) as Vs. pose proof (sval56_val d Hd) as Vd.
  pose proof (sval56_val r Hr) as Vr.
  pose proof (sval56_bounds s Hs). pose proof (sval56_bounds d Hd). pose proof (sval56_bounds r Hr).
  unfold overflows.
  destruct (Z.ltb_spec (sval56 s) 0), (Z.ltb_spec (sval56 d) 0), (Z.ltb_spec (sval56 r) 0);
    (split; [vm_compute; auto |]); zcases; try done; exfalso; divmod_lia.
Qed.

Lemma overflow_sub_signs s d r :
  acc_ok s -> acc_ok d -> acc_ok r -> val56 r = (val56 d - val56 s) mod 2 ^ 56 ->
  let sg a := if sval56 a <? 0 then 1 else 0 in
  let o := (sg s .^ sg d) .& (sg r .^ sg d) in
  (o = 0 \/ o = 1) /\ (o =? 1) = overflows (sval56 d - sval56 s).
Proof.
  intros Hs Hd Hr E sg o. subst sg o. cbv beta.
  pose proof (sval56_val s Hs) as Vs. pose proof (sval56_val d Hd) as Vd.
  pose proof (sval56_val r Hr) as Vr.
  pose proof (sval56_bounds s Hs). pose proof (sval56_bounds d Hd). pose proof (sval56_bounds r Hr).
  unfold overflows.
  destruct (Z.ltb_spec (sval56 s) 0), (Z.ltb_spec (sval56 d) 0), (Z.ltb_spec (sval56 r) 0);
    (split; [vm_compute; auto |]); zcases; try done; exfalso; divmod_lia.
Qed.

Lemma eqb_mod2 x b : x mod 2 = (if b : bool then 1 else 0) -> (x mod 2 =? 1) = b.
Proof. intros ->. by destruct b. Qed.

Lemma add56_flags s d : acc_ok s -> acc_ok d ->
  let sr := (dsp_add56 s d).1 in
  sr_bit sr DSP_SR_C = (2 ^ 56 <=? val56 d + val56 s) /\
  sr_bit sr DSP_SR_V = overflows (sval56 d + sval56 s) /\
  sr_bit sr DSP_SR_L = overflows (sval56 d + sval56 s).
Proof.
  intros Hs Hd. destruct (add56_val s d Hs Hd) as [Hr Hv].
  destruct (overflow_add_signs s d _ Hs Hd Hr Hv) as [Ho Ho'].
  rewrite <- (sign_bit s), <- (sign_bit d), <- sign_bit in Ho, Ho' by done. revert Ho Ho'.
  unfold dsp_add56. cbn zeta beta iota. cbn [fst snd]. autorewrite with divmod. intros Ho Ho'.
  edestruct sr_flags_bits as (L & V & C); [exact Ho | apply bit_cases |].
  rewrite <- Ho'. repeat split; try eassumption. etransitivity; [eassumption |]. apply eqb_mod2.
  destruct Hs as [S0 S1 S2], Hd as [D0 D1 D2]. unfold in_u, val56 in *. zcases; divmod_lia.
Qed.

Lemma sub56_flags s d : acc_ok s -> acc_ok d ->
  let sr := (dsp_sub56 s d).1 in
  sr_bit sr DSP_SR_C = (val56 d <? val56 s) /\
  sr_bit sr DSP_SR_V = overflows (sval56 d - sval56 s) /\
  sr_bit sr DSP_SR_L = overflows (sval56 d - sval56 s).
Proof.
  intros Hs Hd. destruct (sub56_val s d Hs Hd) as [Hr Hv].
  destruct (overflow_sub_signs s d _ Hs Hd Hr Hv) as [Ho Ho'].
  rewrite <- (sign_bit s), <- (sign_bit d), <- sign_bit in Ho, Ho' by done. revert Ho Ho'.
  unfold dsp_sub56. cbn zeta beta iota. cbn [fst snd]. autorewrite with divmod. intros Ho Ho'.
  rewrite (Z.mod_small (dest0 d) (2 ^ 16)) by (destruct Hd as [D0 _ _]; unfold in_u in D0; lia).
  edestruct sr_flags_bits as (L & V & C); [exact Ho | apply bit_cases |].
  rewrite <- Ho'. repeat split; try eassumption. etransitivity; [eassumption |]. apply eqb_mod2.
  destruct Hs as [S0 S1 S2], Hd as [D0 D1 D2]. unfold in_u, val56 in *. zcases; divmod_lia.
Qed.

(** ** Shifts *)

Lemma dest_v_val a : acc_ok a -> dest_v a = val56 a.
Proof.
  intros [H0 H1 H2]. unfold dest_v, val56, in_u in *.
  rewrite !(Z.mod_small _ (2 ^ 64)) by (rewrite Z.shiftl_mul_pow2; divmod_lia).
  rewrite (lor_shiftl_add 24) by (unfold in_u; lia).
  rewrite (lor_shiftl_add 48) by (unfold in_u; divmod_lia). lia.
Qed.

Lemma split_v_val v : acc_ok (split_v v) /\ val56 (split_v v) = v mod 2 ^ 56.
Proof.
  unfold split_v, val56. autorewrite with divmod. cbn [dest0 dest1 dest2].
  split; [split; unfold in_u; cbn; apply Z.mod_pos_bound; lia |]. divmod_lia.
Qed.

Lemma shift_ok_true n : 0 <= n < 64 -> shift_ok n = true.
Proof. intros H. unfold shift_ok. zcases. Qed.

Lemma asl56_val a n : acc_ok a -> 0 <= n <= 56 ->
  exists sr r, dsp_asl56 a n = Ok (sr, r) /\ acc_ok r /\
    val56 r = (val56 a * 2 ^ n) mod 2 ^ 56.
Proof.
  intros Ha Hn. unfold dsp_asl56. rewrite !shift_ok_true by lia. cbn [andb negb].
  eexists _, _. split; [done |].
  destruct (split_v_val (u64 (dest_v a ≪ n))) as [Hok Hv]. split; [done |].
  rewrite Hv, dest_v_val, Z.shiftl_mul_pow2 by (done || lia).
  apply Z.mod_mod_divide. by exists (2 ^ 8).
Qed.

Lemma asr56_val a n : acc_ok a -> 1 <= n <= 63 ->
  exists sr r, dsp_asr56 a n = Ok (sr, r) /\ acc_ok r /\ val56 r = val56 a / 2 ^ n.
Proof.
  intros Ha Hn. unfold dsp_asr56. rewrite !shift_ok_true by lia. cbn [andb negb].
  eexists _, _. split; [done |].
  destruct (split_v_val (dest_v a ≫ n)) as [Hok Hv]. split; [done |].
  rewrite Hv, dest_v_val, Z.shiftr_div_pow2 by (done || lia). apply Z.mod_small.
  pose proof (val56_bounds a Ha). assert (0 < 2 ^ n) by (apply Z.pow_pos_nonneg; lia).
  split; [apply Z.div_pos; lia |]. apply Z.div_lt_upper_bound; [done |]. nia.
Qed.

(** ** Products *)

Lemma mul24_val x y : in_u 24 x -> in_u 24 y -> acc_ok (mul24 x y) /\ val56 (mul24 x y) = x * y.
Proof.
  intros Hx Hy. unfold mul24, in_u in *. autorewrite with divmod. cbn zeta.
  set (x0 := x mod 2 ^ 12). set (y0 := y mod 2 ^ 12).
  replace ((x / 2 ^ 12) mod 2 ^ 12) with (x / 2 ^ 12) by divmod_lia.
  replace ((y / 2 ^ 12) mod 2 ^ 12) with (y / 2 ^ 12) by divmod_lia.
  set (x1 := x / 2 ^ 12). set (y1 := y / 2 ^ 12).
  assert (Ex : x = x1 * 4096 + x0) by (subst x0 x1; divmod_lia).
  assert (Ey : y = y1 * 4096 + y0) by (subst y0 y1; divmod_lia).
  assert (B : 0 <= x0 < 4096 /\ 0 <= x1 < 4096 /\ 0 <= y0 < 4096 /\ 0 <= y1 < 4096)
    by (subst x0 x1 y0 y1; repeat split; divmod_lia).
  clearbody x0 x1 y0 y1. destruct B as (B0 & B1 & B2 & B3).
  assert (P0 : 0 <= x0 * y0 <= 4095 * 4095) by nia. assert (P1 : 0 <= x1 * y0 <= 4095 * 4095) by nia.
  assert (P2 : 0 <= x0 * y1 <= 4095 * 4095) by nia. assert (P3 : 0 <= x1 * y1 <= 4095 * 4095) by nia.
  rewrite !Z.shiftl_mul_pow2 by lia.
  assert (Exy : x * y = x1 * y1 * 16777216 + (x1 * y0 + x0 * y1) * 4096 + x0 * y0) by (subst; ring).
  rewrite Exy. clear Exy. set (p0 := x0 * y0) in *. set (p1 := x1 * y0) in *.
  set (p2 := x0 * y1) in *. set (p3 := x1 * y1) in *. clearbody p0 p1 p2 p3.
  rewrite !(Z.mod_small p0), !(Z.mod_small p1), !(Z.mod_small p2), !(Z.mod_small p3) by lia.
  set (d2 := u32 (u32 (p0 + _) + _)).
  set (d1 := u32 (u32 (_ + _) + p3)).
  assert (D2 : d2 = p0 + (p1 mod 4096) * 4096 + (p2 mod 4096) * 4096) by (subst d2; divmod_lia).
  assert (D1 : d1 = p1 / 4096 + p2 / 4096 + p3) by (subst d1; divmod_lia).
  clearbody d1 d2. subst d1 d2.
  repeat (match goal with |- context [if ?b =? 0 then _ else _] => destruct (Z.eqb_spec b 0) end;
          autorewrite with divmod);
    unfold val56; cbn [dest0 dest1 dest2]; (split; [split; unfold in_u; cbn [dest0 dest1 dest2] |]);
    divmod_lia.
Qed.

(** ** The accumulator routines compute modulo 2^56 *)

(** [dsp_add56] adds modulo 2^56 and keeps every word in its width; its
    carry flag is the carry out of bit 55 and its overflow and limit flags are
    set exactly when the signed sum does not fit in 56 bits. *)
Theorem dsp_add56_correct s d : acc_ok s -> acc_ok d ->
  let '(sr, r) := dsp_add56 s d in
  acc_ok r /\ val56 r = (val56 d + val56 s) mod 2 ^ 56 /\
  sr_bit sr DSP_SR_C = (2 ^ 56 <=? val56 d + val56 s) /\
  sr_bit sr DSP_SR_V = overflows (sval56 d + sval56 s) /\
  sr_bit sr DSP_SR_L = overflows (sval56 d + sval56 s).
Proof.
  intros Hs Hd. pose proof (add56_val s d Hs Hd) as [? ?]. pose proof (add56_flags s d Hs Hd) as (? & ? & ?).
  by destruct (dsp_add56 s d).
Qed.

Lemma dsp_add56_correct_witness :
  let s := mkAcc 0x7f 0xffffff 0xffffff in
  acc_ok s /\ sr_bit (dsp_add56 s s).1 DSP_SR_V = true /\ sr_bit (dsp_add56 s s).1 DSP_SR_C = false.
Proof.
  assert (H : acc_ok (mkAcc 0x7f 0xffffff 0xffffff)) by (split; unfold in_u; cbn; lia).
  split; [exact H |].
  destruct (dsp_add56_correct _ _ H H) as (_ & _ & HC & HV & _).
  split; [etransitivity; [exact HV | reflexivity] | etransitivity; [exact HC | reflexivity]].
Defined.

(** [dsp_sub56] subtracts modulo 2^56; its carry flag is the borrow and its
    overflow and limit flags are set exactly when the signed difference does
    not fit in 56 bits. *)
Theorem dsp_sub56_correct s d : acc_ok s -> acc_ok d ->
  let '(sr, r) := dsp_sub56 s d in
  acc_ok r /\ val56 r = (val56 d - val56 s) mod 2 ^ 56 /\
  sr_bit sr DSP_SR_C = (val56 d <? val56 s) /\
  sr_bit sr DSP_SR_V = overflows (sval56 d - sval56 s) /\
  sr_bit sr DSP_SR_L = overflows (sval56 d - sval56 s).
Proof.
  intros Hs Hd. pose proof (sub56_val s d Hs Hd) as [? ?]. pose proof (sub56_flags s d Hs Hd) as (? & ? & ?).
  by destruct (dsp_sub56 s d).
Qed.

Lemma dsp_sub56_correct_witness :
  let s := mkAcc 0 0 1 in
  acc_ok s /\ acc_ok zerodest /\ sr_bit (dsp_sub56 s zerodest).1 DSP_SR_C = true.
Proof.
  assert (H : acc_ok (mkAcc 0 0 1)) by (split; unfold in_u; cbn; lia).
  assert (H0 : acc_ok zerodest) by (split; unfold in_u; cbn; lia).
  split; [exact H |]. split; [exact H0 |].
  destruct (dsp_sub56_correct _ _ H H0) as (_ & _ & HC & _).
  etransitivity; [exact HC | reflexivity].
Defined.

Lemma zerodest_ok : acc_ok zerodest.
Proof. split; unfold in_u; cbn; lia. Qed.

(** The magnitude and sign of a 24-bit operand. *)
Lemma mul_operand x sg : in_u 24 x ->
  exists m sg', (if flag x (1 ≪ 23) then (negb sg, u32 ((1 ≪ 24) - x)) else (sg, x)) = (sg', m) /\
    in_u 24 m /\ m <= 2 ^ 23 /\
    (if sg' then - m else m) = (if sg : bool then - sext 24 x else sext 24 x).
Proof.
  intros Hx. rewrite flag_bit, testbit_top by (done || lia). unfold in_u, sext in *. cbn zeta.
  rewrite (Z.mod_small x) by lia. change (2 ^ (24 - 1)) with (2 ^ 23).
  destruct (Z.leb_spec (2 ^ 23) x), (Z.ltb_spec x (2 ^ 23)); try lia; eexists _, _; (split; [done |]).
  - change (1 ≪ 24) with (2 ^ 24). rewrite Z.mod_small by lia. destruct sg; cbn; lia.
  - destruct sg; lia.
Qed.

(** [dsp_mul56] returns, for any two 24-bit two's complement operands, twice
    their product (the fractional product), negated when [signe] asks for it,
    modulo 2^56 and with every word in its width. *)
Theorem dsp_mul56_correct x y signe : in_u 24 x -> in_u 24 y ->
  exists r, dsp_mul56 x y signe = Ok r /\ acc_ok r /\
    val56 r = ((if signe : bool then -1 else 1) * (2 * (sext 24 x * sext 24 y))) mod 2 ^ 56.
Proof.
  intros Hx Hy. unfold dsp_mul56.
  destruct (mul_operand x signe Hx) as (m1 & s1 & -> & Hm1 & _ & E1).
  destruct (mul_operand y s1 Hy) as (m2 & s2 & -> & Hm2 & _ & E2).
  destruct (mul24_val m1 m2 Hm1 Hm2) as [Hok Hv].
  destruct (asl56_val _ 1 Hok) as (sr & d & -> & Hd & Hdv); [lia |]. cbn [mbind outcome_bind].
  assert (Es : (if s2 then -1 else 1) * (m1 * m2) = (if signe then -1 else 1) * (sext 24 x * sext 24 y))
    by (destruct signe, s1, s2; nia).
  assert (Ee : (if signe then -1 else 1) * (2 * (sext 24 x * sext 24 y)) = (if s2 then -1 else 1) * (m1 * m2) * 2)
    by (rewrite Es; ring).
  rewrite Ee. rewrite Hv in Hdv. destruct s2.
  - destruct (sub56_val d zerodest Hd zerodest_ok) as [Hr Hrv].
    eexists. split; [done |]. split; [done |]. rewrite Hrv, Hdv.
    change (val56 zerodest) with 0. rewrite Zminus_mod_idemp_r. f_equal. lia.
  - eexists. split; [done |]. split; [done |]. rewrite Hdv. f_equal. lia.
Qed.

Lemma dsp_mul56_correct_witness :
  in_u 24 0x800000 /\
  exists r, dsp_mul56 0x800000 0x800000 false = Ok r /\ acc_ok r /\ val56 r = 2 ^ 47.
Proof.
  assert (H : in_u 24 0x800000) by (unfold in_u; lia).
  split; [exact H |].
  destruct (dsp_mul56_correct _ _ false H H) as (r & E & Hok & Hv).
  exists r. split; [exact E |]. split; [exact Hok |]. rewrite Hv. reflexivity.
Defined.

(** ** Rounding *)

(** Rounding to a multiple of [2^k], ties to the even multiple. *)
Definition round_half_even (k x : Z) : Z :=
  let q := x / 2 ^ k in
  let r := x mod 2 ^ k in
  if r <? 2 ^ (k - 1) then q * 2 ^ k
  else if 2 ^ (k - 1) <? r then (q + 1) * 2 ^ k
  else (q + q mod 2) * 2 ^ k.

Lemma land_high v k : in_u 24 v -> 0 <= k <= 24 -> v .& (Z.ones (24 - k) ≪ k) = v - v mod 2 ^ k.
Proof.
  intros Hv Hk. transitivity ((v ≫ k) ≪ k).
  - rewrite <- (in_u_small 24 v) by done. zbits.
  - rewrite Z.shiftl_mul_pow2, Z.shiftr_div_pow2 by lia.
    pose proof (Z.div_mod v (2 ^ k)). lia.
Qed.

(** The bits below the rounding position decide, once the half is added. *)
Lemma rnd56_words sr a : acc_ok a ->
  let k := if flag sr (1 ≪ DSP_SR_S0) then 25 else if flag sr (1 ≪ DSP_SR_S1) then 23 else 24 in
  acc_ok (dsp_rnd56 sr a) /\
  val56 (dsp_rnd56 sr a) =
    let d := (val56 a + 2 ^ (k - 1)) mod 2 ^ 56 in
    let t := d - d mod 2 ^ k in
    if d mod 2 ^ k =? 0 then t - d mod 2 ^ (k + 1) else t.
Proof.
  intros Ha k. subst k. unfold dsp_rnd56.
  destruct (flag sr (1 ≪ DSP_SR_S0)); [| destruct (flag sr (1 ≪ DSP_SR_S1))]; cbn zeta;
  match goal with |- context [dsp_add56 ?c a] =>
    assert (Hc : acc_ok c) by (split; unfold in_u; cbn [dest0 dest1 dest2]; rewrite ?Z.shiftl_1_l; lia);
    destruct (add56_val c a Hc Ha) as [[D0 D1 D2] Hv];
    destruct (dsp_add56 c a) as [? [d0 d1 d2]] end;
  cbn [snd dest0 dest1 dest2] in *.
  - change (0xffffff - 0x3) with (Z.ones (24 - 2) ≪ 2). change 0xfffffe with (Z.ones (24 - 1) ≪ 1).
    change (val56 (mkAcc 0 1 0)) with (2 ^ (25 - 1)) in Hv. rewrite <- Hv. unfold val56.
    cbn [dest0 dest1 dest2]. rewrite land_1, (land_high d1 2) by (done || lia). unfold in_u in *.
    repeat match goal with |- context [if ?b then _ else _] => destruct b eqn:? end;
      rewrite ?andb_true_iff, ?andb_false_iff, ?Z.eqb_eq, ?Z.eqb_neq in *;
      rewrite land_high by (unfold in_u; lia || divmod_lia);
      (split; [split; unfold in_u; cbn [dest0 dest1 dest2] |]); try divmod_lia.
  - change 0x7fffff with (BITMASK 23). change 0x800000 with (Z.ones (24 - 23) ≪ 23).
    change (val56 (mkAcc 0 0 (1 ≪ 22))) with (2 ^ (23 - 1)) in Hv. rewrite <- Hv. unfold val56.
    cbn [dest0 dest1 dest2]. rewrite land_BITMASK by lia. unfold in_u in *.
    repeat match goal with |- context [if ?b then _ else _] => destruct b eqn:? end;
      rewrite ?Z.eqb_eq, ?Z.eqb_neq in *;
      rewrite land_high by (unfold in_u; lia || divmod_lia);
      (split; [split; unfold in_u; cbn [dest0 dest1 dest2] |]); try divmod_lia.
  - change 0xfffffe with (Z.ones (24 - 1) ≪ 1).
    change (val56 (mkAcc 0 0 (1 ≪ 23))) with (2 ^ (24 - 1)) in Hv. rewrite <- Hv. unfold val56.
    cbn [dest0 dest1 dest2]. rewrite (land_high d1 1) by (done || lia). unfold in_u in *.
    repeat match goal with |- context [if ?b then _ else _] => destruct b eqn:? end;
      rewrite ?Z.eqb_eq, ?Z.eqb_neq in *;
      (split; [split; unfold in_u; cbn [dest0 dest1 dest2] |]); try divmod_lia.
Qed.

Lemma round_words k x : 23 <= k <= 25 -> 0 <= x < 2 ^ 56 ->
  (let d := (x + 2 ^ (k - 1)) mod 2 ^ 56 in
   let t := d - d mod 2 ^ k in
   if d mod 2 ^ k =? 0 then t - d mod 2 ^ (k + 1) else t) = round_half_even k x mod 2 ^ 56.
Proof.
  intros Hk Hx. unfold round_half_even. cbn zeta.
  assert (k = 23 \/ k = 24 \/ k = 25) as [-> | [-> | ->]] by lia; cbn [Z.add Z.sub Z.opp Z.pos_sub Pos.add Pos.succ];
    change (2 ^ 26) with 67108864; change (2 ^ 25) with 33554432; zcases; divmod_lia.
Qed.

(** [dsp_rnd56] rounds the accumulator to the nearest multiple of the unit
    that the scaling bits S0 and S1 of the status register select (2^25, 2^23 or
    2^24), ties going to the even multiple, modulo 2^56. *)
Theorem dsp_rnd56_half_even sr a : acc_ok a ->
  let k := if flag sr (1 ≪ DSP_SR_S0) then 25 else if flag sr (1 ≪ DSP_SR_S1) then 23 else 24 in
  acc_ok (dsp_rnd56 sr a) /\ val56 (dsp_rnd56 sr a) = round_half_even k (val56 a) mod 2 ^ 56.
Proof.
  intros Ha k. destruct (rnd56_words sr a Ha) as [Hok Hv]. split; [done |]. rewrite Hv.
  apply round_words; [| by apply val56_bounds].
  subst k. destruct (flag sr _); [| destruct (flag sr _)]; lia.
Qed.

Lemma dsp_rnd56_half_even_witness :
  let a := mkAcc 0 3 0x800000 in
  acc_ok a /\ val56 (dsp_rnd56 0 a) = 4 * 2 ^ 24.
Proof.
  assert (H : acc_ok (mkAcc 0 3 0x800000)) by (split; unfold in_u; cbn; lia).
  split; [exact H |]. destruct (dsp_rnd56_half_even 0 _ H) as [_ E].
  etransitivity; [exact E | reflexivity].
Defined.

(** ** The right shift and the sign *)

(** [dsp_asr56] divides the accumulator's unsigned word: the sign bit of its
    result is clear for every shift count, so that shifting a negative
    accumulator does not give the arithmetic shift its name announces (for a
    negative value the quotient is always different). *)
Theorem dsp_asr56_is_logical a n : acc_ok a -> 1 <= n <= 55 ->
  exists sr r, dsp_asr56 a n = Ok (sr, r) /\ acc_ok r /\ val56 r = val56 a / 2 ^ n /\
    0 <= sval56 r /\ (sval56 a < 0 -> sval56 r <> sval56 a / 2 ^ n).
Proof.
  intros Ha Hn. destruct (asr56_val a n Ha) as (sr & r & E & Hr & Hv); [lia |].
  exists sr, r. repeat (split; [done |]).
  assert (2 <= 2 ^ n) by (apply (Z.pow_le_mono_r 2 1); lia).
  pose proof (val56_bounds a Ha). pose proof (sval56_val r Hr).
  assert (val56 r < 2 ^ 55).
  { rewrite Hv. apply Z.div_lt_upper_bound; [lia |]. nia. }
  assert (0 <= val56 r) by (apply val56_bounds; done).
  assert (Hs : 0 <= sval56 r).
  { destruct (Z.ltb_spec (sval56 r) 0); [| done].
    pose proof (sval56_bounds r Hr). lia. }
  split; [done |]. intros Hneg Heq.
  assert (sval56 a / 2 ^ n < 0) by (apply Z.div_lt_upper_bound; lia). lia.
Qed.

Lemma dsp_asr56_is_logical_witness :
  let a := mkAcc 0xff 0xffffff 0xfffffe in
  acc_ok a /\ sval56 a = -2 /\ exists sr r, dsp_asr56 a 1 = Ok (sr, r) /\ sval56 r <> -1.
Proof.
  assert (H : acc_ok (mkAcc 0xff 0xffffff 0xfffffe)) by (split; unfold in_u; cbn; lia).
  split; [exact H |]. split; [reflexivity |].
  destruct (dsp_asr56_is_logical _ 1 H ltac:(lia)) as (sr & r & E & _ & _ & _ & Hne).
  exists sr, r. split; [exact E |]. apply Hne. reflexivity.
Defined.

(** [dsp_signextend] reads the low [bits] bits as a two's complement number,
    for every field narrower than a word; a field of 32 bits or more fails the
    assertion. *)
Theorem dsp_signextend_sext bits v : 1 <= bits ->
  dsp_signextend bits v = if bits <? 32 then Ok (u32 (sext bits v)) else AssertFail.
Proof.
  intros Hb. unfold dsp_signextend. destruct (Z.ltb_spec bits 32).
  2: { by destruct (Z.ltb_spec 0 (32 - bits)); [lia |]. }
  rewrite c_assert_true by (apply Z.ltb_lt; lia). cbn [mbind outcome_bind].
  destruct (Z.leb_spec 32 (32 - bits)); [lia |]. do 2 f_equal.
  unfold sext. cbn zeta. rewrite Z.shiftr_div_pow2, Z.shiftl_mul_pow2 by lia.
  change (2 ^ (32 - 1)) with (2 ^ 31).
  assert (E : 2 ^ 32 = 2 ^ bits * 2 ^ (32 - bits)) by (rewrite <- Z.pow_add_r by lia; f_equal; lia).
  assert (E1 : 2 ^ 31 = 2 ^ (bits - 1) * 2 ^ (32 - bits)) by (rewrite <- Z.pow_add_r by lia; f_equal; lia).
  assert (0 < 2 ^ (32 - bits)) by (apply Z.pow_pos_nonneg; lia).
  assert (0 < 2 ^ bits) by (apply Z.pow_pos_nonneg; lia).
  rewrite E, E1, Zmult_mod_distr_r.
  assert (Hlt : (v mod 2 ^ bits * 2 ^ (32 - bits) <? 2 ^ (bits - 1) * 2 ^ (32 - bits)) =
    (v mod 2 ^ bits <? 2 ^ (bits - 1))) by (apply Bool.eq_iff_eq_true; rewrite !Z.ltb_lt; nia).
  rewrite Hlt. destruct (v mod 2 ^ bits <? 2 ^ (bits - 1)).
  - by rewrite Z.div_mul by lia.
  - by rewrite <- Z.mul_sub_distr_r, Z.div_mul by lia.
Qed.

Lemma dsp_signextend_sext_witness : dsp_signextend 5 0x1f = Ok 0xffffffff.
Proof. exact (dsp_signextend_sext 5 0x1f ltac:(lia)). Defined.
