(* ===== verification/DspDecode.v ===== *)
(** * Instruction decoding of the DSP56300 emulator (mcpx/apu/dsp/dsp_cpu.c)

    The table of the non-parallel instructions with its bit templates, the mask
    and match words that [dsp56k_reset_cpu] derives from them, the linear search
    [lookup_opcode_slow] and the 256-entry cache in front of it.  The theorems
    say what a match means bit by bit, that the table is unambiguous up to four
    pairs of templates, and that the cache is transparent. *)

From stdpp Require Import base numbers list gmap strings.
From Stdlib Require Import ZArith Lia Ascii String.
From S2P Require Import Prelude DspArith.

(** ** The table

    [op_emu] names the C function that executes the entry ([None] for a null
    pointer), [op_match] says that the entry has [match_MMMRRR]. *)
Record OpcodeEntry := mkOpcode {
  op_template : string;
  op_name : string;
  op_emu : option string;
  op_match : bool
}.

Definition match_MMMRRR (op : Z) : bool :=
  let RRR := (op ≫ 8) .& BITMASK 3 in
  let MMM := (op ≫ 11) .& BITMASK 3 in
  if MMM =? 6 then (RRR =? 0) || (RRR =? 4) else true.

Open Scope string_scope.

Definition nonparallel_opcodes : list OpcodeEntry := [
  mkOpcode "0000000101iiiiii1000d000" "add #xx, D" (Some "emu_add_imm") false;
  mkOpcode "00000001010000001100d000" "add #xxxx, D" (Some "emu_add_long") false;
  mkOpcode "0000000101iiiiii1000d110" "and #xx, D" (Some "emu_and_imm") false;
  mkOpcode "00000001010000001100d110" "and #xxxx, D" (Some "emu_and_long") false;
  mkOpcode "00000000iiiiiiii101110EE" "andi #xx, D" (Some "emu_andi") false;
  mkOpcode "0000110000011101SiiiiiiD" "asl #ii, S2, D" (Some "emu_asl_imm") false;
  mkOpcode "0000110000011110010SsssD" "asl S1, S2, D" None false;
  mkOpcode "0000110000011100SiiiiiiD" "asr #ii, S2, D" (Some "emu_asr_imm") false;
  mkOpcode "0000110000011110011SsssD" "asr S1, S2, D" None false;
  mkOpcode "00001101000100000100CCCC" "bcc xxxx" (Some "emu_bcc_long") false;
  mkOpcode "00000101CCCC01aaaa0aaaaa" "bcc xxx" (Some "emu_bcc_imm") false;
  mkOpcode "0000110100011RRR0100CCCC" "bcc Rn" None false;
  mkOpcode "0000101101MMMRRR0S00bbbb" "bchg #n, [X or Y]:ea" (Some "emu_bchg_ea") true;
  mkOpcode "0000101100aaaaaa0S00bbbb" "bchg #n, [X or Y]:aa" (Some "emu_bchg_aa") false;
  mkOpcode "0000101110pppppp0S00bbbb" "bchg #n, [X or Y]:pp" (Some "emu_bchg_pp") false;
  mkOpcode "0000000101qqqqqq0S0bbbbb" "bchg #n, [X or Y]:qq" None false;
  mkOpcode "0000101111DDDDDD010bbbbb" "bchg, #n, D" (Some "emu_bchg_reg") false;
  mkOpcode "0000101001MMMRRR0S00bbbb" "bclr #n, [X or Y]:ea" (Some "emu_bclr_ea") true;
  mkOpcode "0000101000aaaaaa0S00bbbb" "bclr #n, [X or Y]:aa" (Some "emu_bclr_aa") false;
  mkOpcode "0000101010pppppp0S00bbbb" "bclr #n, [X or Y]:pp" (Some "emu_bclr_pp") false;
  mkOpcode "0000000100qqqqqq0S00bbbb" "bclr #n, [X or Y]:qq" None false;
  mkOpcode "0000101011DDDDDD010bbbbb" "bclr #n, D" (Some "emu_bclr_reg") false;
  mkOpcode "000011010001000011000000" "bra xxxx" (Some "emu_bra_long") false;
  mkOpcode "00000101000011aaaa0aaaaa" "bra xxx" (Some "emu_bra_imm") false;
  mkOpcode "0000110100011RRR11000000" "bra Rn" None false;
  mkOpcode "0000110010MMMRRR0S0bbbbb" "brclr #n, [X or Y]:ea, xxxx" None true;
  mkOpcode "0000110010aaaaaa1S0bbbbb" "brclr #n, [X or Y]:aa, xxxx" None false;
  mkOpcode "0000110011pppppp0S0bbbbb" "brclr #n, [X or Y]:pp, xxxx" (Some "emu_brclr_pp") false;
  mkOpcode "0000010010qqqqqq0S0bbbbb" "brclr #n, [X or Y]:qq, xxxx" None false;
  mkOpcode "0000110011DDDDDD100bbbbb" "brclr #n, S, xxxx" (Some "emu_brclr_reg") false;
  mkOpcode "00000000000000100001CCCC" "brkcc" None false;
  mkOpcode "0000110010MMMRRR0S1bbbbb" "brset #n, [X or Y]:ea, xxxx" None true;
  mkOpcode "0000110010aaaaaa1S1bbbbb" "brset #n, [X or Y]:aa, xxxx" None false;
  mkOpcode "0000110011pppppp0S1bbbbb" "brset #n, [X or Y]:pp, xxxx" (Some "emu_brset_pp") false;
  mkOpcode "0000010010qqqqqq0S1bbbbb" "brset #n, [X or Y]:qq, xxxx" None false;
  mkOpcode "0000110011DDDDDD101bbbbb" "brset #n, S, xxxx" (Some "emu_brset_reg") false;
  mkOpcode "00001101000100000000CCCC" "bscc xxxx" None false;
  mkOpcode "00000101CCCC00aaaa0aaaaa" "bscc xxx" None false;
  mkOpcode "0000110100011RRR0000CCCC" "bscc Rn" None false;
  mkOpcode "0000110110MMMRRR0S0bbbbb" "bsclr #n, [X or Y]:ea, xxxx" None true;
  mkOpcode "0000110110aaaaaa1S0bbbbb" "bsclr #n, [X or Y]:aa, xxxx" None false;
  mkOpcode "0000010010qqqqqq1S0bbbbb" "bsclr #n, [X or Y]:qq, xxxx" None false;
  mkOpcode "0000110111pppppp0S0bbbbb" "bsclr #n, [X or Y]:pp, xxxx" None false;
  mkOpcode "0000110111DDDDDD100bbbbb" "bsclr, #n, S, xxxx" None false;
  mkOpcode "0000101001MMMRRR0S1bbbbb" "bset #n, [X or Y]:ea" (Some "emu_bset_ea") true;
  mkOpcode "0000101000aaaaaa0S1bbbbb" "bset #n, [X or Y]:aa" (Some "emu_bset_aa") false;
  mkOpcode "0000101010pppppp0S1bbbbb" "bset #n, [X or Y]:pp" (Some "emu_bset_pp") false;
  mkOpcode "0000000100qqqqqq0S1bbbbb" "bset #n, [X or Y]:qq" None false;
  mkOpcode "0000101011DDDDDD011bbbbb" "bset, #n, D" (Some "emu_bset_reg") false;
  mkOpcode "000011010001000010000000" "bsr xxxx" (Some "emu_bsr_long") false;
  mkOpcode "00000101000010aaaa0aaaaa" "bsr xxx" (Some "emu_bsr_imm") false;
  mkOpcode "0000110100011RRR10000000" "bsr Rn" None false;
  mkOpcode "0000110110MMMRRR0S1bbbbb" "bsset #n, [X or Y]:ea, xxxx" None true;
  mkOpcode "0000110110aaaaaa1S1bbbbb" "bsset #n, [X or Y]:aa, xxxx" None false;
  mkOpcode "0000110111pppppp0S1bbbbb" "bsset #n, [X or Y]:pp, xxxx" None false;
  mkOpcode "0000010010qqqqqq1S1bbbbb" "bsset #n, [X or Y]:qq, xxxx" None false;
  mkOpcode "0000110111DDDDDD101bbbbb" "bsset #n, S, xxxx" None false;
  mkOpcode "0000101101MMMRRR0S10bbbb" "btst #n, [X or Y]:ea" (Some "emu_btst_ea") true;
  mkOpcode "0000101100aaaaaa0S10bbbb" "btst #n, [X or Y]:aa" (Some "emu_btst_aa") false;
  mkOpcode "0000101110pppppp0S10bbbb" "btst #n, [X or Y]:pp" (Some "emu_btst_pp") false;
  mkOpcode "0000000101qqqqqq0S10bbbb" "btst #n, [X or Y]:qq" None false;
  mkOpcode "0000101111DDDDDD0110bbbb" "btst #n, D" (Some "emu_btst_reg") false;
  mkOpcode "0000110000011110000000SD" "clb S, D" None false;
  mkOpcode "0000000101iiiiii1000d101" "cmp #xx, S2" (Some "emu_cmp_imm") false;
  mkOpcode "00000001010000001100d101" "cmp #xxxx, S2" (Some "emu_cmp_long") false;
  mkOpcode "00001100000111111111gggd" "cmpu S1, S2" (Some "emu_cmpu") false;
  mkOpcode "000000000000001000000000" "debug" None false;
  mkOpcode "00000000000000110000CCCC" "debugcc" None false;
  mkOpcode "00000000000000000000101d" "dec D" (Some "emu_dec") false;
  mkOpcode "000000011000000001JJd000" "div S, D" (Some "emu_div") false;
  mkOpcode "000000010010010s1sdkQQQQ" "dmac S1, S2, D" None false;
  mkOpcode "0000011001MMMRRR0S000000" "do [X or Y]:ea, expr" (Some "emu_do_ea") true;
  mkOpcode "0000011000aaaaaa0S000000" "do [X or Y]:aa, expr" (Some "emu_do_aa") false;
  mkOpcode "00000110iiiiiiii1000hhhh" "do #xxx, expr" (Some "emu_do_imm") false;
  mkOpcode "0000011011DDDDDD00000000" "do S, expr" (Some "emu_do_reg") false;
  mkOpcode "000000000000001000000011" "do_f" None false;
  mkOpcode "0000011001MMMRRR0S010000" "dor [X or Y]:ea, label" None true;
  mkOpcode "0000011000aaaaaa0S010000" "dor [X or Y]:aa, label" None false;
  mkOpcode "00000110iiiiiiii1001hhhh" "dor #xxx, label" (Some "emu_dor_imm") false;
  mkOpcode "0000011011DDDDDD00010000" "dor S, label" (Some "emu_dor_reg") false;
  mkOpcode "000000000000001000000010" "dor_f" None false;
  mkOpcode "000000000000000010001100" "enddo" (Some "emu_enddo") false;
  mkOpcode "0000000101iiiiii1000d011" "eor #xx, D" None false;
  mkOpcode "00000001010000001100d011" "eor #xxxx, D" None false;
  mkOpcode "0000110000011010000sSSSD" "extract S1, S2, D" None false;
  mkOpcode "0000110000011000000s000D" "extract #CO, S2, D" None false;
  mkOpcode "0000110000011010100sSSSD" "extractu S1, S2, D" None false;
  mkOpcode "0000110000011000100s000D" "extractu #CO, S2, D" None false;
  mkOpcode "000000000000000000000101" "ill" (Some "emu_illegal") false;
  mkOpcode "00000000000000000000100d" "inc D" (Some "emu_inc") false;
  mkOpcode "00001100000110110qqqSSSD" "insert S1, S2, D" None false;
  mkOpcode "00001100000110010qqq000D" "insert #CO, S2, D" None false;
  mkOpcode "00001110CCCCaaaaaaaaaaaa" "jcc xxx" (Some "emu_jcc_imm") false;
  mkOpcode "0000101011MMMRRR1010CCCC" "jcc ea" (Some "emu_jcc_ea") true;
  mkOpcode "0000101001MMMRRR1S00bbbb" "jclr #n, [X or Y]:ea, xxxx" (Some "emu_jclr_ea") true;
  mkOpcode "0000101000aaaaaa1S00bbbb" "jclr #n, [X or Y]:aa, xxxx" (Some "emu_jclr_aa") false;
  mkOpcode "0000101010pppppp1S00bbbb" "jclr #n, [X or Y]:pp, xxxx" (Some "emu_jclr_pp") false;
  mkOpcode "0000000110qqqqqq1S00bbbb" "jclr #n, [X or Y]:qq, xxxx" None false;
  mkOpcode "0000101011DDDDDD0000bbbb" "jclr #n, S, xxxx" (Some "emu_jclr_reg") false;
  mkOpcode "0000101011MMMRRR10000000" "jmp ea" (Some "emu_jmp_ea") true;
  mkOpcode "000011000000aaaaaaaaaaaa" "jmp xxx" (Some "emu_jmp_imm") false;
  mkOpcode "00001111CCCCaaaaaaaaaaaa" "jscc xxx" (Some "emu_jscc_imm") false;
  mkOpcode "0000101111MMMRRR1010CCCC" "jscc ea" (Some "emu_jscc_ea") true;
  mkOpcode "0000101101MMMRRR1S00bbbb" "jsclr #n, [X or Y]:ea, xxxx" (Some "emu_jsclr_ea") true;
  mkOpcode "0000101100MMMRRR1S00bbbb" "jsclr #n, [X or Y]:aa, xxxx" (Some "emu_jsclr_aa") true;
  mkOpcode "0000101110pppppp1S0bbbbb" "jsclr #n, [X or Y]:pp, xxxx" (Some "emu_jsclr_pp") false;
  mkOpcode "0000000111qqqqqq1S0bbbbb" "jsclr #n, [X or Y]:qq, xxxx" None false;
  mkOpcode "0000101111DDDDDD000bbbbb" "jsclr #n, S, xxxx" (Some "emu_jsclr_reg") false;
  mkOpcode "0000101001MMMRRR1S10bbbb" "jset #n, [X or Y]:ea, xxxx" (Some "emu_jset_ea") true;
  mkOpcode "0000101000MMMRRR1S10bbbb" "jset #n, [X or Y]:aa, xxxx" (Some "emu_jset_aa") true;
  mkOpcode "0000101010pppppp1S10bbbb" "jset #n, [X or Y]:pp, xxxx" (Some "emu_jset_pp") false;
  mkOpcode "0000000110qqqqqq1S10bbbb" "jset #n, [X or Y]:qq, xxxx" None false;
  mkOpcode "0000101011DDDDDD0010bbbb" "jset #n, S, xxxx" (Some "emu_jset_reg") false;
  mkOpcode "0000101111MMMRRR10000000" "jsr ea" (Some "emu_jsr_ea") true;
  mkOpcode "000011010000aaaaaaaaaaaa" "jsr xxx" (Some "emu_jsr_imm") false;
  mkOpcode "0000101101MMMRRR1S10bbbb" "jsset #n, [X or Y]:ea, xxxx" (Some "emu_jsset_ea") true;
  mkOpcode "0000101100aaaaaa1S10bbbb" "jsset #n, [X or Y]:aa, xxxx" (Some "emu_jsset_aa") false;
  mkOpcode "0000101110pppppp1S1bbbbb" "jsset #n, [X or Y]:pp, xxxx" (Some "emu_jsset_pp") false;
  mkOpcode "0000000111qqqqqq1S1bbbbb" "jsset #n, [X or Y]:qq, xxxx" None false;
  mkOpcode "0000101111DDDDDD001bbbbb" "jsset #n, S, xxxx" (Some "emu_jsset_reg") false;
  mkOpcode "0000010011000RRR000ddddd" "lra Rn, D" None false;
  mkOpcode "0000010001000000010ddddd" "lra xxxx, D" None false;
  mkOpcode "000011000001111010iiiiiD" "lsl #ii, D" (Some "emu_lsl_imm") false;
  mkOpcode "00001100000111100001sssD" "lsl S, D" None false;
  mkOpcode "000011000001111011iiiiiD" "lsr #ii, D" None false;
  mkOpcode "00001100000111100011sssD" "lsr S, D" None false;
  mkOpcode "00000100010MMRRR000ddddd" "lua ea, D" (Some "emu_lua") false;
  mkOpcode "0000010000aaaRRRaaaadddd" "lua (Rn + aa), D" (Some "emu_lua_rel") false;
  mkOpcode "00000001000sssss11QQdk10" "mac S, #n, D" None false;
  mkOpcode "000000010100000111qqdk10" "maci #xxxx, S, D" None false;
  mkOpcode "00000001001001101sdkQQQQ" "mac_s_u S1, S2, D" None false;
  mkOpcode "00000001000sssss11QQdk11" "macr S1, S2, D" None false;
  mkOpcode "000000010100000111qqdk11" "macri #xxxx, S, D" None false;
  mkOpcode "00001100000110111000sssD" "merge S, D" None false;
  mkOpcode "0000101001110RRR1WDDDDDD" "move X:(Rn + xxxx) <-> R" (Some "emu_move_x_long") false;
  mkOpcode "0000101101110RRR1WDDDDDD" "move Y:(Rn + xxxx) <-> R" None false;
  mkOpcode "0000001aaaaaaRRR1a0WDDDD" "move X:(Rn + xxx) <-> R" (Some "emu_move_x_imm") false;
  mkOpcode "0000001aaaaaaRRR1a1WDDDD" "move Y:(Rn + xxx) <-> R" (Some "emu_move_y_imm") false;
  mkOpcode "00000101W1MMMRRR0s1ddddd" "movec [X or Y]:ea <-> R" (Some "emu_movec_ea") true;
  mkOpcode "00000101W0aaaaaa0s1ddddd" "movec [X or Y]:aa <-> R" (Some "emu_movec_aa") true;
  mkOpcode "00000100W1eeeeee101ddddd" "movec R1, R2" (Some "emu_movec_reg") false;
  mkOpcode "00000101iiiiiiii101ddddd" "movec #xx, D1" (Some "emu_movec_imm") false;
  mkOpcode "00000111W1MMMRRR10dddddd" "movem P:ea <-> R" (Some "emu_movem_ea") true;
  mkOpcode "00000111W0aaaaaa00dddddd" "movem P:ea <-> R" (Some "emu_movem_aa") true;
  mkOpcode "0000100sW1MMMRRR1Spppppp" "movep [X or Y]:ea <-> [X or Y]:pp" (Some "emu_movep_23") true;
  mkOpcode "00000111W1MMMRRR0Sqqqqqq" "movep [X or Y]:ea <-> X:qq" (Some "emu_movep_x_qq") true;
  mkOpcode "00000111W0MMMRRR1Sqqqqqq" "movep [X or Y]:ea <-> Y:qq" None true;
  mkOpcode "0000100sW1MMMRRR01pppppp" "movep [X or Y]:pp <-> P:ea" (Some "emu_movep_1") true;
  mkOpcode "000000001WMMMRRR0sqqqqqq" "movep [X or Y]:qq <-> P:ea" None true;
  mkOpcode "0000100sW1dddddd00pppppp" "movep [X or Y]:pp <-> R" (Some "emu_movep_0") false;
  mkOpcode "00000100W1dddddd1q0qqqqq" "movep X:qq <-> R" None false;
  mkOpcode "00000100W1dddddd0q1qqqqq" "movep Y:qq <-> R" None false;
  mkOpcode "00000001000sssss11QQdk00" "mpy S, #n, D" None false;
  mkOpcode "00000001001001111sdkQQQQ" "mpy_s_u S1, S2, D" None false;
  mkOpcode "000000010100000111qqdk00" "mpyi #xxxx, S, D" (Some "emu_mpyi") false;
  mkOpcode "00000001000sssss11QQdk01" "mpyr S, #n, D" None false;
  mkOpcode "000000010100000111qqdk01" "mpyri #xxxx, S, D" None false;
  mkOpcode "000000000000000000000000" "nop" (Some "emu_nop") false;
  mkOpcode "0000000111011RRR0001d101" "norm Rn, D" (Some "emu_norm") false;
  mkOpcode "00001100000111100010sssD" "normf S, D" None false;
  mkOpcode "0000000101iiiiii1000d010" "or #xx, D" None false;
  mkOpcode "00000001010000001100d010" "or #xxxx, D" (Some "emu_or_long") false;
  mkOpcode "00000000iiiiiiii111110EE" "ori #xx, D" (Some "emu_ori") false;
  mkOpcode "000000000000000000000011" "pflush" None false;
  mkOpcode "000000000000000000000001" "pflushun" None false;
  mkOpcode "000000000000000000000010" "pfree" None false;
  mkOpcode "0000101111MMMRRR10000001" "plock ea" None true;
  mkOpcode "000000000000000000001111" "plockr xxxx" None false;
  mkOpcode "0000101011MMMRRR10000001" "punlock ea" None true;
  mkOpcode "000000000000000000001110" "punlockr xxxx" None false;
  mkOpcode "0000011001MMMRRR0S100000" "rep [X or Y]:ea" (Some "emu_rep_ea") true;
  mkOpcode "0000011000aaaaaa0S100000" "rep [X or Y]:aa" (Some "emu_rep_aa") false;
  mkOpcode "00000110iiiiiiii1010hhhh" "rep #xxx" (Some "emu_rep_imm") false;
  mkOpcode "0000011011dddddd00100000" "rep S" (Some "emu_rep_reg") false;
  mkOpcode "000000000000000010000100" "reset" (Some "emu_reset") false;
  mkOpcode "000000000000000000000100" "rti" (Some "emu_rti") false;
  mkOpcode "000000000000000000001100" "rts" (Some "emu_rts") false;
  mkOpcode "000000000000000010000111" "stop" (Some "emu_stop") false;
  mkOpcode "0000000101iiiiii1000d100" "sub #xx, D" (Some "emu_sub_imm") false;
  mkOpcode "00000001010000001100d100" "sub #xxxx, D" (Some "emu_sub_long") false;
  mkOpcode "00000010CCCC00000JJJd000" "tcc S1, D1" (Some "emu_tcc") false;
  mkOpcode "00000011CCCC0ttt0JJJdTTT" "tcc S1,D2 S2,D2" (Some "emu_tcc") false;
  mkOpcode "00000010CCCC1ttt00000TTT" "tcc S2, D2" (Some "emu_tcc") false;
  mkOpcode "000000000000000000000110" "trap" None false;
  mkOpcode "00000000000000000001CCCC" "trapcc" None false;
  mkOpcode "0000101S11MMMRRR110i0000" "vsl" None true;
  mkOpcode "000000000000000010000110" "wait" (Some "emu_wait") false
].

Close Scope string_scope.

(** ** Masks *)

(** The loop over the 24 characters of a template, [j] being the position of
    the bit that the next character describes. *)
Fixpoint template_masks (t : string) (j mask match_ : Z) : Z * Z :=
  match t with
  | EmptyString => (mask, match_)
  | String c t =>
      if (c =? "0")%char then template_masks t (j - 1) (mask .| (1 ≪ j)) (match_ .| (0 ≪ j))
      else if (c =? "1")%char then template_masks t (j - 1) (mask .| (1 ≪ j)) (match_ .| (1 ≪ j))
      else template_masks t (j - 1) mask match_
  end.

(** [nonparallel_matches], as [dsp56k_reset_cpu] initialises it. *)
Definition init_matches : outcome (list (Z * Z)) :=
  c_assert (forallb (fun e => Nat.eqb (String.length (op_template e)) 24) nonparallel_opcodes) ;;
  Ok (map (fun e => template_masks (op_template e) 23 0 0) nonparallel_opcodes).

Definition nonparallel_matches : list (Z * Z) :=
  map (fun e => template_masks (op_template e) 23 0 0) nonparallel_opcodes.

(** ** Lookup *)

(** One entry of the search: the words agree under the mask, and the entry's
    [match_func], if it has one, accepts. *)
Definition entry_matches (op : Z) (e : OpcodeEntry) (m : Z * Z) : bool :=
  (op .& m.1 =? m.2) && (negb (op_match e) || match_MMMRRR op).

Fixpoint lookup_from (op : Z) (i : nat) (es : list OpcodeEntry) (ms : list (Z * Z)) : outcome nat :=
  match es, ms with
  | e :: es, m :: ms => if entry_matches op e m then Ok i else lookup_from op (S i) es ms
  | _, _ => AssertFail
  end.

(** The entry returned is given by its index in the table. *)
Definition lookup_opcode_slow (op : Z) : outcome nat :=
  lookup_from op 0 nonparallel_opcodes nonparallel_matches.

(** The cache: by tag, the word cached and its entry; an absent tag is a line
    whose [entry] is still null. *)
Abbreviation opcache_t := (gmap Z (Z * nat)).

Definition opcache_tag (op : Z) : Z :=
  u8 ((((op ≫ 24) .& 0xff) .^ ((op ≫ 16) .& 0xff)) .^ ((op ≫ 8) .& 0xff) .^ ((op ≫ 0) .& 0xff)).

Definition lookup_opcode (cache : opcache_t) (op : Z) : outcome (nat * opcache_t) :=
  let tag := opcache_tag op in
  match cache !! tag with
  | Some (op', e) =>
      if op' =? op then Ok (e, cache)
      else e' ← lookup_opcode_slow op; Ok (e', <[tag := (op, e')]> cache)
  | None => e' ← lookup_opcode_slow op; Ok (e', <[tag := (op, e')]> cache)
  end.

(** ** What a template means *)

(** [op]'s bits from [j] down are as the template [t] fixes them. *)
Fixpoint accepts (t : string) (op j : Z) : bool :=
  match t with
  | EmptyString => true
  | String c t =>
      (if (c =? "0")%char then negb (Z.testbit op j)
       else if (c =? "1")%char then Z.testbit op j else true) && accepts t op (j - 1)
  end.

(** Some position is fixed to different values. *)
Fixpoint conflict (t1 t2 : string) : bool :=
  match t1, t2 with
  | String c1 t1, String c2 t2 =>
      ((c1 =? "0")%char && (c2 =? "1")%char) || ((c1 =? "1")%char && (c2 =? "0")%char)
      || conflict t1 t2
  | _, _ => false
  end.

Lemma testbit_1_shiftl j k : 0 <= j -> 0 <= k -> Z.testbit (1 ≪ j) k = (j =? k).
Proof. intros Hj Hk. rewrite Z.shiftl_1_l. by apply Z.pow2_bits_eqb. Qed.

(** Adding a fixed bit to a mask adds one test. *)
Lemma mask_add_bit op m t j b : 0 <= j -> Z.testbit m j = false -> Z.testbit t j = false ->
  (op .& (m .| (1 ≪ j)) =? t .| ((if b : bool then 1 else 0) ≪ j)) =
  (op .& m =? t) && Bool.eqb (Z.testbit op j) b.
Proof.
  intros Hj Hm Ht. apply Bool.eq_iff_eq_true. rewrite andb_true_iff, !Z.eqb_eq, Bool.eqb_true_iff.
  assert (Hb : forall k, 0 <= k -> Z.testbit ((if b then 1 else 0) ≪ j) k = (j =? k) && b).
  { intros k Hk. destruct b; [by rewrite testbit_1_shiftl, andb_true_r |].
    by rewrite Z.shiftl_0_l, Z.testbit_0_l, andb_false_r. }
  split.
  - intros E. assert (Hk : forall k, 0 <= k ->
      Z.testbit op k && (Z.testbit m k || (j =? k)) = Z.testbit t k || (j =? k) && b).
    { intros k Hk. apply (f_equal (fun z => Z.testbit z k)) in E.
      by rewrite Z.land_spec, !Z.lor_spec, Hb, testbit_1_shiftl in E by done. }
    split.
    + apply Z.bits_inj'. intros k Hk0. specialize (Hk k Hk0). rewrite Z.land_spec.
      destruct (Z.eqb_spec j k) as [Ejk |]; [by rewrite <- Ejk, Hm, Ht, andb_false_r |].
      by rewrite !orb_false_r in Hk.
    + specialize (Hk j Hj). by rewrite Z.eqb_refl, Hm, Ht, andb_true_r in Hk.
  - intros [<- <-]. apply Z.bits_inj'. intros k Hk.
    rewrite Z.lor_spec, Hb, !Z.land_spec, Z.lor_spec, testbit_1_shiftl by done.
    destruct (Z.eqb_spec j k) as [Ejk |];
      [by rewrite <- Ejk, Hm, andb_false_r, orb_true_r, andb_true_r |].
    by rewrite !orb_false_r.
Qed.

Lemma template_masks_accepts op t : forall j mask match_,
  Z.of_nat (String.length t) <= j + 1 ->
  (forall k, k <= j -> Z.testbit mask k = false) -> (forall k, k <= j -> Z.testbit match_ k = false) ->
  let m := template_masks t j mask match_ in
  (op .& m.1 =? m.2) = (op .& mask =? match_) && accepts t op j.
Proof.
  induction t as [| c t IH]; intros j mask match_ Hlen Hmask Hmatch; cbn -[Z.add].
  { by rewrite andb_true_r. }
  cbn [String.length] in Hlen.
  assert (Hhigh : forall m b, (forall k, k <= j -> Z.testbit m k = false) ->
    forall k, k <= j - 1 -> Z.testbit (m .| ((if b : bool then 1 else 0) ≪ j)) k = false).
  { intros m b Hm k Hk. rewrite Z.lor_spec, Hm by lia. destruct (Z.lt_ge_cases k 0).
    - by rewrite Z.testbit_neg_r by lia.
    - destruct b; [| by rewrite Z.shiftl_0_l, Z.testbit_0_l].
      rewrite testbit_1_shiftl by lia. cbn. lia. }
  destruct (Ascii.eqb c "0"); [| destruct (Ascii.eqb c "1")].
  - rewrite IH by (try lia; apply (Hhigh _ true) || apply (Hhigh _ false); done).
    rewrite (mask_add_bit op mask match_ j false) by (lia || (apply Hmask; lia) || (apply Hmatch; lia)).
    by destruct (Z.testbit op j), (accepts t op (j - 1)), (_ =? _).
  - rewrite IH by (try lia; apply (Hhigh _ true); done).
    rewrite (mask_add_bit op mask match_ j true) by (lia || (apply Hmask; lia) || (apply Hmatch; lia)).
    by destruct (Z.testbit op j), (accepts t op (j - 1)), (_ =? _).
  - apply IH; [lia | intros; apply Hmask; lia | intros; apply Hmatch; lia].
Qed.

Lemma accepts_conflict op t1 : forall t2 j,
  accepts t1 op j = true -> accepts t2 op j = true -> conflict t1 t2 = false.
Proof.
  induction t1 as [| c1 t1 IH]; intros [| c2 t2] j H1 H2; try done. cbn in *.
  apply andb_prop in H1 as [H1 H1'], H2 as [H2 H2'].
  rewrite (IH t2 (j - 1)) by done. rewrite orb_false_r.
  destruct (Ascii.eqb_spec c1 "0"), (Ascii.eqb_spec c2 "1"), (Ascii.eqb_spec c1 "1"),
    (Ascii.eqb_spec c2 "0"); try done; subst; cbn in *; try done;
    destruct (Z.testbit op j); done.
Qed.

(** ** The table *)

(** An entry takes the word [op]. *)
Definition entry_takes (op : Z) (e : OpcodeEntry) : bool :=
  accepts (op_template e) op 23 && (negb (op_match e) || match_MMMRRR op).

Lemma templates_length :
  forallb (fun e => Nat.eqb (String.length (op_template e)) 24) nonparallel_opcodes = true.
Proof. vm_compute. reflexivity. Qed.

Lemma entry_matches_takes op e : In e nonparallel_opcodes ->
  entry_matches op e (template_masks (op_template e) 23 0 0) = entry_takes op e.
Proof.
  intros He. pose proof templates_length as Hl. rewrite forallb_forall in Hl.
  specialize (Hl e He). apply Nat.eqb_eq in Hl.
  unfold entry_matches, entry_takes. f_equal.
  rewrite template_masks_accepts by (rewrite ?Hl; intros; try lia; apply Z.testbit_0_l).
  by rewrite Z.land_0_r.
Qed.

Lemma lookup_from_find op (f : OpcodeEntry -> Z * Z) es : forall i,
  lookup_from op i es (map f es) =
    match list_find (fun e => entry_matches op e (f e) = true) es with
    | Some (k, _) => Ok (i + k)%nat
    | None => AssertFail
    end.
Proof.
  induction es as [| e es IH]; intros i; [done |]. cbn [lookup_from map list_find].
  case_decide as H; [rewrite H; f_equal; lia |].
  destruct (entry_matches op e (f e)); [done |]. rewrite IH.
  destruct (list_find _ es) as [[k e'] |]; cbn; [f_equal; lia | done].
Qed.

(** The pairs of templates that some word fits both of. *)
Definition overlapping : list (nat * nat) := [(94, 134); (103, 135); (108, 134); (115, 135)]%nat.

Definition pairs_ok (es : list OpcodeEntry) (ov : list (nat * nat)) : bool :=
  forallb (fun i => forallb (fun j =>
      match es !! i, es !! j with
      | Some e, Some e' => conflict (op_template e) (op_template e') || bool_decide ((i, j) ∈ ov)
      | _, _ => true
      end) (seq (S i) (List.length es - S i)))
    (seq 0 (List.length es)).

Lemma overlapping_ok : pairs_ok nonparallel_opcodes overlapping = true.
Proof. vm_compute. reflexivity. Qed.

Lemma takes_both es ov op i j e e' : pairs_ok es ov = true ->
  es !! i = Some e -> es !! j = Some e' -> (i < j)%nat ->
  entry_takes op e = true -> entry_takes op e' = true -> (i, j) ∈ ov.
Proof.
  intros H Hi Hj Hlt He He'. unfold pairs_ok in H.
  rewrite forallb_forall in H. assert (i < List.length es)%nat by by eapply lookup_lt_Some.
  assert (j < List.length es)%nat by by eapply lookup_lt_Some.
  specialize (H i ltac:(apply in_seq; lia)). rewrite forallb_forall in H.
  specialize (H j ltac:(apply in_seq; lia)). rewrite Hi, Hj in H.
  apply andb_prop in He as [He _], He' as [He' _].
  rewrite (accepts_conflict op _ _ 23 He He') in H. by apply bool_decide_eq_true in H.
Qed.

(** The search through the opcode table returns an entry whose template fits
    the instruction word, bit for bit, and whose operand check accepts it; any
    other entry that fits forms, with the one returned, one of four listed pairs,
    so the order of the table matters for those only; when the search fails its
    assertion no entry fits. *)
Theorem lookup_opcode_slow_sound op :
  match lookup_opcode_slow op with
  | Ok i => exists e, nonparallel_opcodes !! i = Some e /\ entry_takes op e = true /\
      forall j e', nonparallel_opcodes !! j = Some e' -> entry_takes op e' = true ->
        j = i \/ (i, j) ∈ overlapping
  | AssertFail => forall e, In e nonparallel_opcodes -> entry_takes op e = false
  | Undef | NoFuel => False
  end.
Proof.
  unfold lookup_opcode_slow, nonparallel_matches.
  rewrite (lookup_from_find op (fun e => template_masks (op_template e) 23 0 0)).
  destruct (list_find _ nonparallel_opcodes) as [[i e] |] eqn:E.
  - apply list_find_Some in E as (Hi & He & Hmin). cbn [Nat.add]. exists e. split; [done |].
    rewrite entry_matches_takes in He by (apply list_elem_of_In; by eapply list_elem_of_lookup_2).
    split; [done |]. intros j e' Hj He'.
    destruct (Nat.lt_trichotomy i j) as [Hlt | [-> | Hgt]]; [right | by left | exfalso].
    + exact (takes_both _ _ op i j e e' overlapping_ok Hi Hj Hlt He He').
    + apply (Hmin j e' Hj Hgt).
      by rewrite entry_matches_takes by (apply list_elem_of_In; by eapply list_elem_of_lookup_2).
  - apply list_find_None in E. intros e He. rewrite Forall_forall in E.
    specialize (E e (proj2 (list_elem_of_In _ _) He)). rewrite entry_matches_takes in E by done.
    by destruct (entry_takes op e).
Qed.

(** Every line of the cache holds what the search returns for its word. *)
Definition opcache_ok (cache : opcache_t) : Prop :=
  forall tag op e, cache !! tag = Some (op, e) -> lookup_opcode_slow op = Ok e.

Lemma opcache_ok_empty : opcache_ok ∅.
Proof. intros tag op e H. by rewrite lookup_empty in H. Qed.

Lemma opcache_ok_insert cache tag op e :
  opcache_ok cache -> lookup_opcode_slow op = Ok e -> opcache_ok (<[tag := (op, e)]> cache).
Proof.
  intros Hc He t op' e'. rewrite lookup_insert. case_decide; [| apply Hc].
  intros [= <- <-]. done.
Qed.

Lemma lookup_opcode_slow_defined op : lookup_opcode_slow op <> Undef /\ lookup_opcode_slow op <> NoFuel.
Proof.
  unfold lookup_opcode_slow, nonparallel_matches.
  rewrite (lookup_from_find op (fun e => template_masks (op_template e) 23 0 0)).
  by destruct (list_find _ nonparallel_opcodes) as [[i e] |].
Qed.

Lemma lookup_opcode_cases cache op : opcache_ok cache ->
  match lookup_opcode cache op with
  | Ok (e, cache') => lookup_opcode_slow op = Ok e /\ opcache_ok cache'
  | AssertFail => lookup_opcode_slow op = AssertFail
  | Undef => lookup_opcode_slow op = Undef
  | NoFuel => lookup_opcode_slow op = NoFuel
  end.
Proof.
  intros Hc. unfold lookup_opcode. destruct (cache !! opcache_tag op) as [[op' e] |] eqn:E.
  - destruct (Z.eqb_spec op' op) as [-> | _]; [split; [by eapply Hc | done] |].
    destruct (lookup_opcode_slow op) as [e' | | |] eqn:El; cbn [mbind outcome_bind]; try done.
    split; [done |]. by apply opcache_ok_insert.
  - destruct (lookup_opcode_slow op) as [e' | | |] eqn:El; cbn [mbind outcome_bind]; try done.
    split; [done |]. by apply opcache_ok_insert.
Qed.

(** The cache in front of the opcode search is transparent: starting from a
    cache whose lines are right, a cached lookup returns exactly what the search
    returns (failed assertions included) and leaves the lines right. *)
Theorem lookup_opcode_transparent cache op : opcache_ok cache ->
  match lookup_opcode cache op with
  | Ok (e, cache') => lookup_opcode_slow op = Ok e /\ opcache_ok cache'
  | AssertFail => lookup_opcode_slow op = AssertFail
  | Undef => lookup_opcode_slow op = Undef
  | NoFuel => lookup_opcode_slow op = NoFuel
  end.
Proof. apply lookup_opcode_cases. Qed.

Lemma lookup_opcode_transparent_witness :
  opcache_ok {[ opcache_tag 0x0c := (0x0c, 176%nat) ]} /\
  lookup_opcode_slow 0x0c = Ok 176%nat.
Proof.
  assert (H : opcache_ok {[ opcache_tag 0x0c := (0x0c, 176%nat) ]}).
  { apply opcache_ok_insert; [apply opcache_ok_empty | vm_compute; reflexivity]. }
  split; [exact H |].
  exact (proj1 (lookup_opcode_transparent _ 0x0c H)).
Defined.

(** Four entries with an absolute-address operand (field [aa]) carry the
    operand check of the register-indirect form: the word 0x0a31a0, which fits
    the template of [jset #n, X:aa, xxxx] with aa = 0x31, is found in no entry
    and the lookup fails its assertion, while the word 0x0a3180 of the sibling
    [jclr #n, X:aa, xxxx] (same operand) is decoded. *)
Theorem jset_aa_rejected :
  (exists e, In e nonparallel_opcodes /\ op_name e = "jset #n, [X or Y]:aa, xxxx"%string /\
             accepts (op_template e) 0x0a31a0 23 = true) /\
  lookup_opcode_slow 0x0a31a0 = AssertFail /\
  (exists i, lookup_opcode_slow 0x0a3180 = Ok i /\
     op_name <$> nonparallel_opcodes !! i = Some "jclr #n, [X or Y]:aa, xxxx"%string).
Proof.
  split; [| split].
  - exists (nth 109 nonparallel_opcodes (mkOpcode EmptyString EmptyString None false)).
    split; [apply nth_In; vm_compute; lia |]. split; vm_compute; reflexivity.
  - vm_compute. reflexivity.
  - exists 95%nat. split; vm_compute; reflexivity.
Qed.
