(* ===== verification/DspCore.v ===== *)
(** * The DSP56300 core (mcpx/apu/dsp/dsp_cpu.c)

    The processor state, its hardware stack, REP and DO loops, the interrupt
    pipeline, register writes, the memory map and the per-instruction driver
    [dsp56k_execute_instruction] with its two fast paths and its opcode caches.
    The instructions themselves (dsp_emu.c.inc) are an argument of the driver; they are
    the subject of DspAddr, DspAlu, DspMove and DspInstr.
    The core is embedded in a DSP, which implements the peripheral accesses: the
    class [HasCore] is the interface the core uses for them. *)

From stdpp Require Import base numbers list gmap strings.
From Stdlib Require Import ZArith Lia.
From S2P Require Import Prelude DspArith DspDecode.

(** ** Numbers of dsp_cpu_regs.h *)

Abbreviation DSP_SR_I0 := 8.
Abbreviation DSP_SR_I1 := 9.
Abbreviation DSP_SR_T := 13.
Abbreviation DSP_SR_LF := 15.
Abbreviation DSP_SP_SE := 4.
Abbreviation DSP_SP_UF := 5.

Abbreviation DSP_REG_A0 := 0x08.
Abbreviation DSP_REG_B0 := 0x09.
Abbreviation DSP_REG_A2 := 0x0a.
Abbreviation DSP_REG_B2 := 0x0b.
Abbreviation DSP_REG_A1 := 0x0c.
Abbreviation DSP_REG_B1 := 0x0d.
Abbreviation DSP_REG_A := 0x0e.
Abbreviation DSP_REG_B := 0x0f.
Abbreviation DSP_REG_M0 := 0x20.
Abbreviation DSP_REG_LCSAVE := 0x30.
Abbreviation DSP_REG_SR := 0x39.
Abbreviation DSP_REG_OMR := 0x3a.
Abbreviation DSP_REG_SP := 0x3b.
Abbreviation DSP_REG_SSH := 0x3c.
Abbreviation DSP_REG_SSL := 0x3d.
Abbreviation DSP_REG_LA := 0x3e.
Abbreviation DSP_REG_LC := 0x3f.

Abbreviation DSP_SPACE_X := 0.
Abbreviation DSP_SPACE_Y := 1.
Abbreviation DSP_SPACE_P := 2.

Abbreviation DSP_XRAM_SIZE := 4096.
Abbreviation DSP_YRAM_SIZE := 2048.
Abbreviation DSP_PRAM_SIZE := 4096.
Abbreviation DSP_MIXBUFFER_BASE := 0x001400.
Abbreviation DSP_MIXBUFFER_SIZE := 1024.
Abbreviation DSP_PERIPH_BASE := 0xFFFF80.

Abbreviation DSP_INTERRUPT_NONE := 0.
Abbreviation DSP_INTERRUPT_DISABLED := 1.
Abbreviation DSP_INTERRUPT_LONG := 2.
Abbreviation DSP_INTER_STACK_ERROR := 2.
Abbreviation DSP_INTER_TRACE := 3.

(** ** State

    The arrays are register files ([rget], [rset]): the code bounds every index
    before it uses it.  [pram_opcache] holds the index of the decoded entry, an
    absent address being a null pointer.  The disassembler's buffers and the
    [is_gp] tag of the traces are left out. *)
Record dsp_core := mkCore {
  is_idle : bool;
  cycle_count : Z;
  instr_cycle : Z;
  pc : Z;
  registers : gmap Z Z;
  stack0 : gmap Z Z;
  stack1 : gmap Z Z;
  xram : gmap Z Z;
  yram : gmap Z Z;
  pram : gmap Z Z;
  pram_opcache : gmap Z nat;
  mixbuffer : gmap Z Z;
  periph : gmap Z Z;
  loop_rep : Z;
  pc_on_rep : Z;
  interrupt_state : Z;
  interrupt_instr_fetch : Z;
  interrupt_save_pc : Z;
  interrupt_counter : Z;
  interrupt_ipl_to_raise : Z;
  interrupt_pipeline_count : Z;
  interrupt_ipl : list Z;
  interrupt_is_pending : list Z;
  num_inst : Z;
  cur_inst_len : Z;
  cur_inst : Z;
  exception_debugging : bool
}.

#[export] Instance eta_dsp_core : Eta dsp_core := fun c =>
  mkCore (is_idle c) (cycle_count c) (instr_cycle c) (pc c) (registers c) (stack0 c) (stack1 c)
    (xram c) (yram c) (pram c) (pram_opcache c) (mixbuffer c) (periph c) (loop_rep c) (pc_on_rep c)
    (interrupt_state c) (interrupt_instr_fetch c) (interrupt_save_pc c) (interrupt_counter c)
    (interrupt_ipl_to_raise c) (interrupt_pipeline_count c) (interrupt_ipl c)
    (interrupt_is_pending c) (num_inst c) (cur_inst_len c) (cur_inst c) (exception_debugging c).

Definition reg (c : dsp_core) (r : Z) : Z := rget (registers c) r.
Definition set_reg (c : dsp_core) (r v : Z) : dsp_core := c <| registers := rset (registers c) r v |>.

(** [dsp_interrupt[i].vectorAddr] *)
Definition dsp_interrupt_vector : list Z :=
  [0x00; 0x3e; 0x02; 0x04; 0x06; 0xff; 0x20; 0x22; 0x0e; 0x0c; 0x12; 0x10].

Definition registers_mask : list Z := [
  0; 0; 0; 0;  24; 24; 24; 24;  24; 24; 8; 8;  24; 24; 24; 24;
  16; 16; 16; 16;  16; 16; 16; 16;  16; 16; 16; 16;  16; 16; 16; 16;
  16; 16; 16; 16;  16; 16; 16; 16;  0; 0; 0; 0;  0; 0; 0; 0;
  0; 0; 0; 0;  0; 0; 0; 0;  0; 16; 8; 6;  16; 16; 16; 16
].

(** [dsp56k_reset_cpu]: the memories and the opcode cache keep their contents. *)
Definition dsp56k_reset_cpu (c : dsp_core) : dsp_core :=
  c <| periph := ∅ |> <| stack0 := ∅ |> <| stack1 := ∅ |>
    <| pc := 0 |>
    <| registers := foldl (fun m i => rset m (DSP_REG_M0 + i) 0x00ffff) (rset ∅ DSP_REG_OMR 0x02)
                      [0; 1; 2; 3; 4; 5; 6; 7] |>
    <| interrupt_is_pending := replicate 12 0 |>
    <| interrupt_state := DSP_INTERRUPT_NONE |>
    <| interrupt_instr_fetch := u16 (-1) |>
    <| interrupt_save_pc := u16 (-1) |>
    <| interrupt_counter := 0 |>
    <| interrupt_pipeline_count := 0 |>
    <| interrupt_ipl := replicate 5 3 ++ replicate 7 (-1) |>
    <| loop_rep := 0 |>
    <| num_inst := 0 |>
    <| exception_debugging := true |>.

(** ** Interrupts and the hardware stack *)

Definition dsp56k_add_interrupt (c : dsp_core) (inter : Z) : outcome dsp_core :=
  ipl ← rd (interrupt_ipl c) inter;
  if ipl =? -1 then Ok c else
  pend ← rd (interrupt_is_pending c) inter;
  if pend =? 0 then
    p ← wr (interrupt_is_pending c) inter 1;
    Ok (c <| interrupt_is_pending := p |> <| interrupt_counter := u16 (interrupt_counter c + 1) |>)
  else Ok c.

(** [if (dsp->exception_debugging) assert(false);] *)
Definition stack_exception (c : dsp_core) : outcome dsp_core :=
  c ← dsp56k_add_interrupt c DSP_INTER_STACK_ERROR;
  c_assert (negb (exception_debugging c)) ;; Ok c.

Definition dsp_stack_push (c : dsp_core) (curpc cursr : Z) (sshOnly : bool) : outcome dsp_core :=
  let stack_error := reg c DSP_REG_SP .& (1 ≪ DSP_SP_SE) in
  let underflow := reg c DSP_REG_SP .& (1 ≪ DSP_SP_UF) in
  let stack := (reg c DSP_REG_SP .& BITMASK 4) + 1 in
  c ← (if (stack_error =? 0) && flag stack (1 ≪ DSP_SP_SE) then stack_exception c else Ok c);
  let c := set_reg c DSP_REG_SP ((underflow .| stack_error .| stack) .& BITMASK 6) in
  let stack := stack .& BITMASK 4 in
  let c :=
    if negb (stack =? 0) then
      let c := c <| stack0 := rset (stack0 c) stack (curpc .& BITMASK 16) |> in
      if sshOnly then c else c <| stack1 := rset (stack1 c) stack (cursr .& BITMASK 16) |>
    else c <| stack0 := rset (stack0 c) 0 0 |> <| stack1 := rset (stack1 c) 0 0 |> in
  let c := set_reg c DSP_REG_SSH (rget (stack0 c) stack) in
  Ok (set_reg c DSP_REG_SSL (rget (stack1 c) stack)).

(** Returns [*newpc], [*newsr] and the core. *)
Definition dsp_stack_pop (c : dsp_core) : outcome (Z * Z * dsp_core) :=
  let stack_error := reg c DSP_REG_SP .& (1 ≪ DSP_SP_SE) in
  let underflow := reg c DSP_REG_SP .& (1 ≪ DSP_SP_UF) in
  let stack := u32 ((reg c DSP_REG_SP .& BITMASK 4) - 1) in
  c ← (if (stack_error =? 0) && flag stack (1 ≪ DSP_SP_SE) then stack_exception c else Ok c);
  let c := set_reg c DSP_REG_SP ((underflow .| stack_error .| stack) .& BITMASK 6) in
  let stack := stack .& BITMASK 4 in
  let newpc := reg c DSP_REG_SSH in
  let newsr := reg c DSP_REG_SSL in
  let c := set_reg c DSP_REG_SSH (rget (stack0 c) stack) in
  let c := set_reg c DSP_REG_SSL (rget (stack1 c) stack) in
  Ok (newpc, newsr, c).

Definition dsp_compute_ssh_ssl (c : dsp_core) : dsp_core :=
  let stack := reg c DSP_REG_SP .& BITMASK 4 in
  let c := set_reg c DSP_REG_SSH (rget (stack0 c) stack) in
  set_reg c DSP_REG_SSL (rget (stack1 c) stack).

Definition dsp_write_reg (c : dsp_core) (numreg value : Z) : outcome dsp_core :=
  let ext := if flag value (1 ≪ 23) then 0xff else 0x0 in
  if numreg =? DSP_REG_A then
    Ok (set_reg (set_reg (set_reg c DSP_REG_A0 0) DSP_REG_A1 value) DSP_REG_A2 ext)
  else if numreg =? DSP_REG_B then
    Ok (set_reg (set_reg (set_reg c DSP_REG_B0 0) DSP_REG_B1 value) DSP_REG_B2 ext)
  else if numreg =? DSP_REG_OMR then Ok (set_reg c DSP_REG_OMR (value .& 0xc7))
  else if numreg =? DSP_REG_SR then Ok (set_reg c DSP_REG_SR (value .& 0xaf7f))
  else if numreg =? DSP_REG_SP then
    let stack_error := reg c DSP_REG_SP .& (3 ≪ DSP_SP_SE) in
    c ← (if (stack_error =? 0) && flag value (3 ≪ DSP_SP_SE) then
           c ← dsp56k_add_interrupt c DSP_INTER_STACK_ERROR;
           let c := set_reg c DSP_REG_SP (value .& (3 ≪ DSP_SP_SE)) in
           c_assert (negb (exception_debugging c)) ;; Ok c
         else Ok (set_reg c DSP_REG_SP (value .& BITMASK 6)));
    Ok (dsp_compute_ssh_ssl c)
  else if numreg =? DSP_REG_SSH then dsp_stack_push c value 0 true
  else if numreg =? DSP_REG_SSL then
    let numreg := reg c DSP_REG_SP .& BITMASK 4 in
    let value := if numreg =? 0 then 0 else value in
    let c := c <| stack1 := rset (stack1 c) numreg (value .& BITMASK 16) |> in
    Ok (set_reg c DSP_REG_SSL (value .& BITMASK 16))
  else
    m ← rd registers_mask numreg;
    Ok (set_reg c numreg (value .& BITMASK m)).

(** ** Updating the PC *)

Definition dsp_postexecute_update_pc (c : dsp_core) : outcome dsp_core :=
  let c :=
    if negb (loop_rep c =? 0) then
      if pc_on_rep c =? 0 then
        let c := set_reg c DSP_REG_LC (u32 (reg c DSP_REG_LC - 1) .& BITMASK 16) in
        if 0 <? reg c DSP_REG_LC then c <| cur_inst_len := 0 |>
        else set_reg (c <| loop_rep := 0 |>) DSP_REG_LC (reg c DSP_REG_LCSAVE)
      else
        let c := if reg c DSP_REG_LC =? 0 then set_reg c DSP_REG_LC 0x010000 else c in
        c <| pc_on_rep := 0 |>
    else c in
  let c := c <| pc := u32 (pc c + cur_inst_len c) |> in
  if flag (reg c DSP_REG_SR) (1 ≪ DSP_SR_LF) then
    if pc c =? u32 (reg c DSP_REG_LA + 1) then
      let c := set_reg c DSP_REG_LC (u32 (reg c DSP_REG_LC - 1) .& BITMASK 16) in
      if reg c DSP_REG_LC =? 0 then
        '(_, saved_sr, c) ← dsp_stack_pop c;
        let c := set_reg c DSP_REG_SR (reg c DSP_REG_SR .& 0x7f) in
        let c := set_reg c DSP_REG_SR (reg c DSP_REG_SR .| (saved_sr .& (1 ≪ DSP_SR_LF))) in
        '(la, lc, c) ← dsp_stack_pop c;
        Ok (set_reg (set_reg c DSP_REG_LA la) DSP_REG_LC lc)
      else Ok (c <| pc := reg c DSP_REG_SSH |>)
    else Ok c
  else Ok c.

(** ** Program memory and the interrupt pipeline *)

Definition read_memory_p (c : dsp_core) (address : Z) : outcome Z :=
  c_assert (address .& 0xFF000000 =? 0) ;;
  c_assert (address <? DSP_PRAM_SIZE) ;;
  let r := rget (pram c) address in
  c_assert (r .& 0xFF000000 =? 0) ;; Ok r.

(** A jump to subroutine at an interrupt vector makes the interrupt long. *)
Definition is_jsr (instr : Z) : bool :=
  (instr .& 0xfff000 =? 0x0d0000) || (instr .& 0xffc0ff =? 0x0bc080).

Definition enter_long_interrupt (c : dsp_core) : outcome dsp_core :=
  let c := c <| interrupt_state := DSP_INTERRUPT_LONG |> in
  c ← dsp_stack_push c (interrupt_save_pc c) (reg c DSP_REG_SR) false;
  let c := set_reg c DSP_REG_SR
    (reg c DSP_REG_SR .& (BITMASK 16 -
       ((1 ≪ DSP_SR_LF) .| (1 ≪ DSP_SR_T) .| (1 ≪ DSP_SR_S1) .| (1 ≪ DSP_SR_S0) .|
        (1 ≪ DSP_SR_I0) .| (1 ≪ DSP_SR_I1)))) in
  Ok (set_reg c DSP_REG_SR (reg c DSP_REG_SR .| (interrupt_ipl_to_raise c ≪ DSP_SR_I0))).

Definition pipeline_next (c : dsp_core) : dsp_core :=
  c <| interrupt_pipeline_count := u16 (interrupt_pipeline_count c - 1) |>.

(** The switch on [interrupt_pipeline_count]; [true] when the function returns
    from inside it. *)
Definition interrupt_pipeline (c : dsp_core) : outcome (bool * dsp_core) :=
  let n := interrupt_pipeline_count c in
  if n =? 5 then Ok (true, pipeline_next c)
  else if n =? 4 then
    let c := c <| interrupt_save_pc := u16 (pc c) |> in
    let c := c <| pc := interrupt_instr_fetch c |> in
    instr ← read_memory_p c (interrupt_instr_fetch c);
    c ← (if is_jsr instr then enter_long_interrupt c else Ok c);
    Ok (true, pipeline_next c)
  else if n =? 3 then
    c ← (if pc c =? interrupt_instr_fetch c + 1 then
           instr ← read_memory_p c (pc c);
           if is_jsr instr then enter_long_interrupt c else Ok c
         else Ok c);
    Ok (true, pipeline_next c)
  else if n =? 2 then
    let c := if pc c =? interrupt_instr_fetch c + 2 then c <| pc := interrupt_save_pc c |> else c in
    Ok (true, pipeline_next c)
  else if n =? 1 then Ok (true, pipeline_next c)
  else if n =? 0 then
    Ok (false, c <| interrupt_save_pc := u16 (-1) |> <| interrupt_instr_fetch := u16 (-1) |>
                 <| interrupt_state := DSP_INTERRUPT_NONE |>)
  else Ok (false, c).

(** The arbitration loop from index [i]; [None] stands for [index = 0xffff]. *)
Fixpoint arbitrate (ipl_sr i : Z) (pending ipl : list Z) (index : option Z) (ipl_to_raise : Z)
    : option Z :=
  match pending, ipl with
  | p :: pending, l :: ipl =>
      if p =? 1 then
        if l =? 3 then Some i
        else if l <? ipl_sr then arbitrate ipl_sr (i + 1) pending ipl index ipl_to_raise
        else if l <=? ipl_to_raise then arbitrate ipl_sr (i + 1) pending ipl index ipl_to_raise
        else arbitrate ipl_sr (i + 1) pending ipl (Some i) l
      else arbitrate ipl_sr (i + 1) pending ipl index ipl_to_raise
  | _, _ => index
  end.

(** From the arbitration on. *)
Definition raise_interrupt (c : dsp_core) : outcome dsp_core :=
  let ipl_sr := (reg c DSP_REG_SR ≫ DSP_SR_I0) .& BITMASK 2 in
  match arbitrate ipl_sr 0 (interrupt_is_pending c) (interrupt_ipl c) None (-1) with
  | None => Ok c
  | Some index =>
      p ← wr (interrupt_is_pending c) index 0;
      let c := c <| interrupt_is_pending := p |>
                 <| interrupt_counter := u16 (interrupt_counter c - 1) |> in
      ipl ← rd (interrupt_ipl c) index;
      vec ← rd dsp_interrupt_vector index;
      let c := c <| interrupt_instr_fetch := vec |> <| interrupt_pipeline_count := 5 |>
                 <| interrupt_state := DSP_INTERRUPT_DISABLED |>
                 <| interrupt_ipl_to_raise := Z.min (ipl + 1) 3 |> in
      c_assert (negb (vec =? 0xe) && negb (vec =? 0x12) && negb (vec =? 0xff)) ;;
      Ok c
  end.

Definition dsp_postexecute_interrupts (c : dsp_core) : outcome dsp_core :=
  if negb (loop_rep c =? 0) then Ok c else
  '(done, c) ← (if interrupt_state c =? DSP_INTERRUPT_DISABLED then interrupt_pipeline c
                else Ok (false, c));
  if done : bool then Ok c else
  c ← (if flag (reg c DSP_REG_SR) (1 ≪ DSP_SR_T) then dsp56k_add_interrupt c DSP_INTER_TRACE
       else Ok c);
  if interrupt_counter c =? 0 then Ok c else raise_interrupt c.

(** ** The memory map

    [S] is the DSP the core is embedded in; the two callbacks of the core
    ([dsp->read_peripheral], [dsp->write_peripheral]) act on it. *)
Class HasCore (S : Type) := {
  core_of : S -> dsp_core;
  with_core : S -> dsp_core -> S;
  read_peripheral : S -> Z -> outcome Z;
  write_peripheral : S -> Z -> Z -> outcome S
}.

Class HasCoreLaws (S : Type) `{HasCore S} : Prop := {
  core_with : forall (s : S) c, core_of (with_core s c) = c;
  with_same : forall s : S, with_core s (core_of s) = s;
  with_with : forall (s : S) c c', with_core (with_core s c) c' = with_core s c'
}.

Section memory.
Context {S : Type} `{HasCore S}.

Definition dsp56k_read_memory (s : S) (space address : Z) : outcome Z :=
  let c := core_of s in
  c_assert (address .& 0xFF000000 =? 0) ;;
  if space =? DSP_SPACE_X then
    if DSP_PERIPH_BASE <=? address then read_peripheral s address
    else if (DSP_MIXBUFFER_BASE <=? address) && (address <? DSP_MIXBUFFER_BASE + DSP_MIXBUFFER_SIZE) then
      Ok (rget (mixbuffer c) (address - DSP_MIXBUFFER_BASE))
    else if (0xc00 <=? address) && (address <? 0xc00 + DSP_MIXBUFFER_SIZE) then
      Ok (rget (mixbuffer c) (address - 0xc00))
    else if address <? DSP_XRAM_SIZE then Ok (rget (xram c) address)
    else Ok 0x00FFFFFF
  else if space =? DSP_SPACE_Y then
    c_assert (address <? DSP_YRAM_SIZE) ;; Ok (rget (yram c) address)
  else if space =? DSP_SPACE_P then read_memory_p c address
  else AssertFail.

Definition write_memory_raw (s : S) (space address value : Z) : outcome S :=
  let c := core_of s in
  c_assert (value .& 0xFF000000 =? 0) ;;
  c_assert (address .& 0xFF000000 =? 0) ;;
  if space =? DSP_SPACE_X then
    if DSP_PERIPH_BASE <=? address then write_peripheral s address value
    else if (DSP_MIXBUFFER_BASE <=? address) && (address <? DSP_MIXBUFFER_BASE + DSP_MIXBUFFER_SIZE) then
      Ok (with_core s (c <| mixbuffer := rset (mixbuffer c) (address - DSP_MIXBUFFER_BASE) value |>))
    else if (0xc00 <=? address) && (address <? 0xc00 + DSP_MIXBUFFER_SIZE) then
      Ok (with_core s (c <| mixbuffer := rset (mixbuffer c) (address - 0xc00) value |>))
    else
      c_assert (address <? DSP_XRAM_SIZE) ;;
      Ok (with_core s (c <| xram := rset (xram c) address value |>))
  else if space =? DSP_SPACE_Y then
    c_assert (address <? DSP_YRAM_SIZE) ;;
    Ok (with_core s (c <| yram := rset (yram c) address value |>))
  else if space =? DSP_SPACE_P then
    c_assert (address <? DSP_PRAM_SIZE) ;;
    Ok (with_core s (c <| pram := rset (pram c) address value |>
                       <| pram_opcache := delete address (pram_opcache c) |>))
  else AssertFail.

(** [TRACE_DSP_DISASM_MEM] is off: the writes go straight to the memories. *)
Definition dsp56k_write_memory (s : S) (space address value : Z) : outcome S :=
  write_memory_raw s space address value.

(** ** One instruction

    [emu] is the table of the instruction functions by name, [parmove] the
    sixteen parallel-move handlers [opcodes_parmove]; [cache] is the static
    cache of [lookup_opcode].  Tracing is off. *)
Variable emu : string -> S -> outcome S.
Variable emu_undefined : S -> outcome S.
Variable parmove : Z -> S -> outcome S.

(** The entry for the word at the PC, through the per-address cache. *)
Definition fetch_opcode (c : dsp_core) (cache : opcache_t) : outcome (nat * dsp_core * opcache_t) :=
  match pram_opcache c !! pc c with
  | Some op => Ok (op, c, cache)
  | None =>
      '(op, cache) ← lookup_opcode cache (cur_inst c);
      Ok (op, c <| pram_opcache := <[pc c := op]> (pram_opcache c) |>, cache)
  end.

Definition run_entry (s : S) (op : nat) : outcome S :=
  match nonparallel_opcodes !! op with
  | Some e => match op_emu e with Some f => emu f s | None => emu_undefined s end
  | None => Undef
  end.

(** The fast-path PC update and the fast-path interrupt check. *)
Definition post_pc (c : dsp_core) : outcome dsp_core :=
  if (loop_rep c =? 0) && negb (flag (reg c DSP_REG_SR) (1 ≪ DSP_SR_LF)) then
    Ok (c <| pc := u32 (pc c + cur_inst_len c) |>)
  else dsp_postexecute_update_pc c.

Definition post_interrupts (c : dsp_core) : outcome dsp_core :=
  if (0 <? interrupt_counter c) || negb (interrupt_state c =? DSP_INTERRUPT_NONE)
     || flag (reg c DSP_REG_SR) (1 ≪ DSP_SR_T)
  then dsp_postexecute_interrupts c else Ok c.

Definition dsp56k_execute_instruction (s : S) (cache : opcache_t) : outcome (S * opcache_t) :=
  let c := core_of s in
  inst ← read_memory_p c (pc c);
  let c := c <| cur_inst := inst |> <| cur_inst_len := 1 |> <| instr_cycle := 2 |> in
  '(s, cache) ←
    (if cur_inst c <? 0x100000 then
       '(op, c, cache) ← fetch_opcode c cache;
       s ← run_entry (with_core s c) op;
       Ok (s, cache)
     else
       s ← parmove ((cur_inst c ≫ 20) .& BITMASK 4) (with_core s c);
       Ok (s, cache));
  c ← post_pc (core_of s);
  c ← post_interrupts c;
  Ok (with_core s (c <| num_inst := u32 (num_inst c + instr_cycle c) |>), cache).
End memory.

(** ** The fast paths *)

(** C26: The two fast paths of [dsp56k_execute_instruction] are equivalent to the
    routines they bypass: outside REP and DO loops the PC update is the plain
    increment, and with no interrupt pending, an idle pipeline and tracing off
    the interrupt routine does nothing. *)
Theorem fast_paths_equivalent c : 0 <= interrupt_counter c ->
  post_pc c = dsp_postexecute_update_pc c /\ post_interrupts c = dsp_postexecute_interrupts c.
Proof.
  intros Hc. split.
  - unfold post_pc, dsp_postexecute_update_pc.
    destruct (loop_rep c =? 0), (flag (reg c DSP_REG_SR) _) eqn:E; cbn [negb andb]; try done.
    change (reg (c <| pc := u32 (pc c + cur_inst_len c) |>) DSP_REG_SR) with (reg c DSP_REG_SR).
    by rewrite E.
  - unfold post_interrupts, dsp_postexecute_interrupts.
    destruct (Z.ltb_spec 0 (interrupt_counter c)); [done |].
    destruct (Z.eqb_spec (interrupt_state c) DSP_INTERRUPT_NONE) as [Es |]; [| done].
    destruct (flag (reg c DSP_REG_SR) (1 ≪ DSP_SR_T)) eqn:E; [done |]. cbn [negb orb].
    rewrite Es. cbn. rewrite E. cbn. destruct (negb (loop_rep c =? 0)); [done |].
    by destruct (Z.eqb_spec (interrupt_counter c) 0); [| lia].
Qed.

(** The core of a DSP with cleared memories, after a reset. *)
Definition fresh_core : dsp_core :=
  dsp56k_reset_cpu (mkCore false 0 0 0 ∅ ∅ ∅ ∅ ∅ ∅ ∅ ∅ ∅ 0 0 0 0 0 0 0 0 [] [] 0 0 0 false).

Lemma fast_paths_equivalent_witness :
  0 <= interrupt_counter fresh_core /\
  post_pc fresh_core = dsp_postexecute_update_pc fresh_core.
Proof.
  assert (H : 0 <= interrupt_counter fresh_core) by (vm_compute; discriminate).
  split; [exact H |].
  exact (proj1 (fast_paths_equivalent fresh_core H)).
Defined.

(** ** The hardware stack *)

Lemma reg_set_ne c r r' v : r <> r' -> reg (set_reg c r v) r' = reg c r'.
Proof. apply rget_rset_ne. Qed.

(** Compute the registers of an updated core. *)
Ltac core_simp := unfold reg, set_reg; cbn; regs_simp.

(** SSH and SSL show the top of the stack, and SP has no error flags. *)
Record stack_ok (c : dsp_core) : Prop := {
  stack_ok_sp : 0 <= reg c DSP_REG_SP <= 15;
  stack_ok_ssh : reg c DSP_REG_SSH = rget (stack0 c) (reg c DSP_REG_SP);
  stack_ok_ssl : reg c DSP_REG_SSL = rget (stack1 c) (reg c DSP_REG_SP)
}.

(** The arithmetic of the stack pointer, checked for its 16 values. *)
Lemma sp_push sp : 0 <= sp < 15 ->
  sp .& (1 ≪ DSP_SP_SE) = 0 /\ sp .& (1 ≪ DSP_SP_UF) = 0 /\ sp .& BITMASK 4 = sp /\
  flag (sp + 1) (1 ≪ DSP_SP_SE) = false /\ (0 .| 0 .| (sp + 1)) .& BITMASK 6 = sp + 1 /\
  (sp + 1) .& BITMASK 4 = sp + 1.
Proof.
  intros H. assert (Hsp : In sp (seqZ 0 15)) by (apply list_elem_of_In, elem_of_seqZ; lia).
  revert Hsp. change (seqZ 0 15) with [0; 1; 2; 3; 4; 5; 6; 7; 8; 9; 10; 11; 12; 13; 14].
  intros Hsp. repeat (destruct Hsp as [<- | Hsp]; [repeat split; reflexivity |]). destruct Hsp.
Qed.

Lemma sp_pop sp : 0 < sp <= 15 ->
  sp .& (1 ≪ DSP_SP_SE) = 0 /\ sp .& (1 ≪ DSP_SP_UF) = 0 /\
  flag (u32 ((sp .& BITMASK 4) - 1)) (1 ≪ DSP_SP_SE) = false /\
  (0 .| 0 .| u32 ((sp .& BITMASK 4) - 1)) .& BITMASK 6 = sp - 1 /\
  u32 ((sp .& BITMASK 4) - 1) .& BITMASK 4 = sp - 1.
Proof.
  intros H. assert (Hsp : In sp (seqZ 1 15)) by (apply list_elem_of_In, elem_of_seqZ; lia).
  revert Hsp. change (seqZ 1 15) with [1; 2; 3; 4; 5; 6; 7; 8; 9; 10; 11; 12; 13; 14; 15].
  intros Hsp. repeat (destruct Hsp as [<- | Hsp]; [repeat split; reflexivity |]). destruct Hsp.
Qed.

Lemma push_ok c p sr : stack_ok c -> reg c DSP_REG_SP < 15 ->
  exists c', dsp_stack_push c p sr false = Ok c' /\ stack_ok c' /\
    reg c' DSP_REG_SP = reg c DSP_REG_SP + 1 /\
    reg c' DSP_REG_SSH = p .& BITMASK 16 /\ reg c' DSP_REG_SSL = sr .& BITMASK 16 /\
    (forall i, i <> reg c DSP_REG_SP + 1 ->
       rget (stack0 c') i = rget (stack0 c) i /\ rget (stack1 c') i = rget (stack1 c) i).
Proof.
  intros [Hsp Hh Hl] Hlt. destruct (sp_push (reg c DSP_REG_SP)) as (E1 & E2 & E3 & E4 & E5 & E6); [lia |].
  unfold dsp_stack_push. rewrite E1, E2, E3, E4. cbn [Z.eqb andb mbind outcome_bind]. rewrite E5, E6.
  destruct (Z.eqb_spec (reg c DSP_REG_SP + 1) 0); [lia |]. cbn [negb].
  set (sp := reg c DSP_REG_SP) in *. eexists. split; [reflexivity |].
  split; [split |]; core_simp; try done; try lia.
  repeat split; core_simp; try done; try lia.
Qed.

Lemma pop_ok c : stack_ok c -> 0 < reg c DSP_REG_SP ->
  exists c', dsp_stack_pop c = Ok (reg c DSP_REG_SSH, reg c DSP_REG_SSL, c') /\ stack_ok c' /\
    reg c' DSP_REG_SP = reg c DSP_REG_SP - 1 /\
    reg c' DSP_REG_SSH = rget (stack0 c) (reg c DSP_REG_SP - 1) /\
    reg c' DSP_REG_SSL = rget (stack1 c) (reg c DSP_REG_SP - 1) /\
    stack0 c' = stack0 c /\ stack1 c' = stack1 c.
Proof.
  intros [Hsp Hh Hl] Hlt. destruct (sp_pop (reg c DSP_REG_SP)) as (E1 & E2 & E3 & E4 & E5); [lia |].
  unfold dsp_stack_pop. rewrite E1, E2, E3. cbn [Z.eqb andb mbind outcome_bind]. rewrite E4, E5.
  rewrite !(reg_set_ne c DSP_REG_SP) by lia. eexists. split; [reflexivity |].
  split; [split |]; core_simp; try done; try lia.
  repeat split; core_simp; try done; unfold reg in *; lia.
Qed.

(** The hardware stack is last in, first out: after pushing a return address
    and status below the limit of 15 entries, SSH and SSL show them (16 bits
    each), and a pop returns them and brings back the stack pointer, SSH and SSL,
    with every entry below the top unchanged. *)
Theorem stack_push_pop c p sr : stack_ok c -> reg c DSP_REG_SP < 15 ->
  exists c1 c2, dsp_stack_push c p sr false = Ok c1 /\
    dsp_stack_pop c1 = Ok (p .& BITMASK 16, sr .& BITMASK 16, c2) /\ stack_ok c2 /\
    reg c2 DSP_REG_SP = reg c DSP_REG_SP /\
    reg c2 DSP_REG_SSH = reg c DSP_REG_SSH /\ reg c2 DSP_REG_SSL = reg c DSP_REG_SSL /\
    (forall i, i <= reg c DSP_REG_SP ->
       rget (stack0 c2) i = rget (stack0 c) i /\ rget (stack1 c2) i = rget (stack1 c) i).
Proof.
  intros Hok Hlt. destruct (push_ok c p sr Hok Hlt) as (c1 & E1 & Hok1 & Hsp1 & Hh & Hl & Hrest).
  pose proof Hok as [Hsp Hsh Hsl].
  destruct (pop_ok c1 Hok1) as (c2 & E2 & Hok2 & Hsp2 & Hh2 & Hl2 & Es0 & Es1); [lia |].
  exists c1, c2. rewrite E2, Hh, Hl. split; [done |]. split; [done |]. split; [done |].
  replace (reg c1 DSP_REG_SP - 1) with (reg c DSP_REG_SP) in * by lia.
  destruct (Hrest (reg c DSP_REG_SP)) as [R0 R1]; [lia |].
  split; [lia |]. split; [congruence |]. split; [congruence |].
  intros i Hi. rewrite Es0, Es1. apply Hrest. lia.
Qed.

Lemma stack_ok_fresh : stack_ok fresh_core.
Proof. split; vm_compute; (discriminate || intuition discriminate || reflexivity). Qed.

Lemma stack_push_pop_witness :
  stack_ok fresh_core /\
  exists c1 c2, dsp_stack_push fresh_core 0x1234 0x300 false = Ok c1 /\
    dsp_stack_pop c1 = Ok (0x1234, 0x300, c2) /\ stack_ok c2.
Proof.
  split; [exact stack_ok_fresh |].
  destruct (stack_push_pop fresh_core 0x1234 0x300 stack_ok_fresh) as (c1 & c2 & E1 & E2 & Hok & _);
    [vm_compute; reflexivity |].
  exists c1, c2. split; [exact E1 |]. split; [exact E2 | exact Hok].
Defined.

(** ** REP repeats exactly LC times *)

(** What an instruction under REP must leave alone. *)
Record rep_frame (c c' : dsp_core) : Prop := {
  frame_rep : loop_rep c' = loop_rep c;
  frame_on : pc_on_rep c' = pc_on_rep c;
  frame_pc : pc c' = pc c;
  frame_lc : reg c' DSP_REG_LC = reg c DSP_REG_LC;
  frame_save : reg c' DSP_REG_LCSAVE = reg c DSP_REG_LCSAVE;
  frame_lf : flag (reg c' DSP_REG_SR) (1 ≪ DSP_SR_LF) = flag (reg c DSP_REG_SR) (1 ≪ DSP_SR_LF)
}.

(** [n] rounds of an instruction of length [len] and the PC update after it. *)
Fixpoint rep_iter (body : dsp_core -> dsp_core) (len : Z) (n : nat) (c : dsp_core) : outcome dsp_core :=
  match n with
  | O => Ok c
  | S n => c ← dsp_postexecute_update_pc ((body c) <| cur_inst_len := len |>); rep_iter body len n c
  end.

(** A core on the instruction to repeat, with [n] rounds left. *)
Record rep_at (c : dsp_core) (n p save : Z) : Prop := {
  rep_at_rep : loop_rep c <> 0;
  rep_at_on : pc_on_rep c = 0;
  rep_at_lc : reg c DSP_REG_LC = n;
  rep_at_save : reg c DSP_REG_LCSAVE = save;
  rep_at_pc : pc c = p;
  rep_at_lf : flag (reg c DSP_REG_SR) (1 ≪ DSP_SR_LF) = false
}.

Lemma lc_dec n : 1 <= n <= 2 ^ 16 -> u32 (n - 1) .& BITMASK 16 = n - 1.
Proof. intros H. rewrite land_BITMASK by lia. rewrite !Z.mod_small; rewrite ?Z.mod_small; lia. Qed.

Lemma rep_round c n p save len : rep_at c n p save -> 1 <= n <= 2 ^ 16 -> in_u 32 p ->
  exists c', dsp_postexecute_update_pc (c <| cur_inst_len := len |>) = Ok c' /\
    if n =? 1 then loop_rep c' = 0 /\ pc c' = u32 (p + len) /\ reg c' DSP_REG_LC = save
    else rep_at c' (n - 1) p save.
Proof.
  intros [Hrep Hon Hlc Hsave Hpc Hlf] Hn Hp. unfold dsp_postexecute_update_pc.
  unfold reg, set_reg in *. cbn. rewrite Hon, Hlc. destruct (Z.eqb_spec (loop_rep c) 0); [done |]. cbn.
  rewrite lc_dec by lia. regs_simp.
  destruct (Z.ltb_spec 0 (n - 1)), (Z.eqb_spec n 1); try lia; cbn; regs_simp; rewrite Hlf;
    (eexists; split; [done |]).
  - split; cbn; unfold reg; cbn; regs_simp; try done. rewrite Z.add_0_r, in_u_small; congruence.
  - cbn. regs_simp. by rewrite Hpc, Hsave.
Qed.

Lemma rep_at_frame c c' n p save : rep_frame c c' -> rep_at c n p save -> rep_at c' n p save.
Proof. intros [] []. split; congruence. Qed.

(** The instruction after REP runs LC times: from a core that stands on it
    with LC = n (1 <= n <= 65536) and no DO loop, every one of the first n - 1
    rounds of the instruction and the PC update keeps the PC on it and leaves REP
    active, and the n-th moves past it, ends REP and restores LC from LCSAVE, for
    any instruction that leaves the loop state alone. *)
Theorem rep_runs_lc_times body c n p save len :
  (forall c, rep_frame c (body c)) -> rep_at c n p save -> 1 <= n <= 2 ^ 16 -> in_u 32 p ->
  (forall k, (Z.of_nat k < n) -> exists c', rep_iter body len k c = Ok c' /\ rep_at c' (n - Z.of_nat k) p save) /\
  exists c', rep_iter body len (Z.to_nat n) c = Ok c' /\ loop_rep c' = 0 /\ pc c' = u32 (p + len) /\
             reg c' DSP_REG_LC = save.
Proof.
  intros Hbody Hat Hn Hp.
  assert (Hk : forall k m c, rep_at c m p save -> Z.of_nat k < m -> m <= 2 ^ 16 ->
    exists c', rep_iter body len k c = Ok c' /\ rep_at c' (m - Z.of_nat k) p save).
  { induction k as [| k IH]; intros m c0 H0 Hlt Hm.
    - exists c0. split; [done |]. by rewrite Z.sub_0_r.
    - destruct (rep_round (body c0) m p save len) as (c1 & E & H1);
        [by eapply rep_at_frame | lia | done |].
      destruct (Z.eqb_spec m 1); [lia |]. destruct (IH (m - 1) c1 H1) as (c' & E' & H'); [lia .. |].
      exists c'. cbn [rep_iter]. rewrite E. split; [done |].
      by replace (m - Z.of_nat (S k)) with (m - 1 - Z.of_nat k) by lia. }
  split; [intros k Hlt; apply Hk; [done | lia | lia] |].
  assert (Hlast : forall k c, rep_at c (Z.of_nat (S k)) p save -> Z.of_nat (S k) <= 2 ^ 16 ->
    exists c', rep_iter body len (S k) c = Ok c' /\ loop_rep c' = 0 /\ pc c' = u32 (p + len) /\
               reg c' DSP_REG_LC = save).
  { induction k as [| k IH]; intros c0 H0 Hm;
      destruct (rep_round (body c0) _ p save len (rep_at_frame _ _ _ _ _ (Hbody c0) H0)) as (c1 & E & H1);
      try (done || lia); cbn [rep_iter]; rewrite E; cbn [mbind outcome_bind].
    - by exists c1.
    - destruct (Z.eqb_spec (Z.of_nat (S (S k))) 1); [lia |]. apply IH; [| lia].
      by replace (Z.of_nat (S k)) with (Z.of_nat (S (S k)) - 1) by lia. }
  destruct (Z.to_nat n) as [| k] eqn:E; [lia |]. apply Hlast; [| lia].
  by replace (Z.of_nat (S k)) with n by lia.
Qed.

Lemma rep_runs_lc_times_witness :
  let c := set_reg (fresh_core <| loop_rep := 1 |> <| pc := 7 |>) DSP_REG_LC 3 in
  rep_at c 3 7 0 /\
  exists c', rep_iter id 1 3 c = Ok c' /\ loop_rep c' = 0 /\ pc c' = 8 /\ reg c' DSP_REG_LC = 0.
Proof.
  assert (H : rep_at (set_reg (fresh_core <| loop_rep := 1 |> <| pc := 7 |>) DSP_REG_LC 3) 3 7 0)
    by (split; vm_compute; (reflexivity || discriminate)).
  split; [exact H |].
  exact (proj2 (rep_runs_lc_times id _ 3 7 0 1 ltac:(intros c; split; reflexivity) H ltac:(lia) ltac:(unfold in_u; lia))).
Defined.

(** ** Interrupt arbitration *)

Section arbitration.
Context (P L : list Z) (ipl_sr : Z).

(** Interrupt [j] is pending and not masked; level 3 cannot be masked. *)
Definition eligible (j : Z) : Prop := nthZ P j = 1 /\ (nthZ L j = 3 \/ ipl_sr <= nthZ L j).

(** [r] is the eligible interrupt below [i] of the highest level, the first one
    of that level. *)
Definition best_below (i r : Z) : Prop :=
  0 <= r < i /\ eligible r /\
  forall j, 0 <= j < i -> eligible j -> nthZ L j <= nthZ L r /\ (nthZ L j = nthZ L r -> r <= j).

Definition best_so_far (i : Z) (index : option Z) (raise : Z) : Prop :=
  match index with
  | None => raise = -1 /\ forall j, 0 <= j < i -> ~ eligible j
  | Some r => best_below i r /\ raise = nthZ L r /\ raise < 3
  end.

Definition arbitration_result (r : option Z) : Prop :=
  match r with
  | None => forall j, 0 <= j < zlen P -> ~ eligible j
  | Some r => best_below (zlen P) r
  end.
End arbitration.

Lemma best_skip P L sr i index raise : best_so_far P L sr i index raise ->
  ~ eligible P L sr i \/ (nthZ L i <= raise /\ nthZ L i <> 3) ->
  0 <= sr -> (forall j, -1 <= nthZ L j) ->
  best_so_far P L sr (i + 1) index raise.
Proof.
  intros H Hi Hsr HL. destruct index as [r |]; cbn in *.
  - destruct H as ((Hr & He & Hmax) & -> & H3). split; [| done]. split; [lia |]. split; [done |].
    intros j Hj Hej. destruct (decide (j = i)) as [-> |]; [| apply Hmax; (lia || done)].
    destruct Hi as [| [Hi _]]; [done |]. split; [done | lia].
  - destruct H as [-> H]. split; [done |]. intros j Hj Hej.
    destruct (decide (j = i)) as [-> |]; [| apply (H j); (lia || done)].
    destruct Hi as [| [Hi Hi3]]; [done |]. destruct Hej as [_ [| Hej]]; [done |]. lia.
Qed.

Lemma best_level3 P L sr i index raise : 0 <= i < zlen P ->
  eligible P L sr i -> nthZ L i = 3 -> (forall j, -1 <= nthZ L j <= 3) ->
  best_so_far P L sr i index raise -> best_below P L sr (zlen P) i.
Proof.
  intros Hi He H3 HL Hb. split; [done |]. split; [done |]. intros j Hj Hej. rewrite H3.
  split; [apply HL |]. intros Hj3. destruct (Z.lt_ge_cases j i); [exfalso | done].
  destruct index as [r |]; cbn in Hb.
  - destruct Hb as ((_ & _ & Hmax) & -> & Hr). specialize (Hmax j ltac:(lia) Hej). lia.
  - destruct Hb as [_ Hb]. apply (Hb j); [lia | done].
Qed.

Lemma best_new P L sr i index raise : 0 <= i -> eligible P L sr i -> raise < nthZ L i ->
  best_so_far P L sr i index raise -> best_below P L sr (i + 1) i.
Proof.
  intros Hi He Hlt Hb. split; [lia |]. split; [done |]. intros j Hj Hej.
  destruct (decide (j = i)) as [-> |]; [lia |]. destruct index as [r |]; cbn in Hb.
  - destruct Hb as ((_ & _ & Hmax) & -> & Hr). specialize (Hmax j ltac:(lia) Hej). lia.
  - destruct Hb as [_ Hb]. exfalso. apply (Hb j); [lia | done].
Qed.

Lemma arbitrate_spec P L sr : 0 <= sr -> zlen P = zlen L -> (forall j, -1 <= nthZ L j <= 3) ->
  forall p l preP preL index raise, P = preP ++ p -> L = preL ++ l -> zlen preP = zlen preL ->
  best_so_far P L sr (zlen preP) index raise ->
  arbitration_result P L sr (arbitrate sr (zlen preP) p l index raise).
Proof.
  intros Hsr HPL HL. assert (HL1 : forall j, -1 <= nthZ L j) by (intros j; apply HL).
  induction p as [| x p IH]; intros l preP preL index raise EP EL Hpre Hbest.
  - cbn. rewrite app_nil_r in EP. subst preP.
    destruct index; cbn in *; [apply Hbest | apply Hbest].
  - destruct l as [| y l]; [subst; rewrite !length_app in HPL; cbn in HPL; lia |].
    assert (Ex : nthZ P (zlen preP) = x).
    { subst P. rewrite nthZ_app, Z.sub_diag. destruct (Z.ltb_spec (zlen preP) (zlen preP)); [lia | done]. }
    assert (Ey : nthZ L (zlen preP) = y).
    { subst L. rewrite nthZ_app, Hpre, Z.sub_diag. destruct (Z.ltb_spec (zlen preL) (zlen preL)); [lia | done]. }
    assert (Hnext : forall index raise, best_so_far P L sr (zlen preP + 1) index raise ->
      arbitration_result P L sr (arbitrate sr (zlen preP + 1) p l index raise)).
    { intros index' raise' Hb. replace (zlen preP + 1) with (zlen (preP ++ [x])) in * by (rewrite length_app; cbn; lia).
      apply (IH l (preP ++ [x]) (preL ++ [y])); [by rewrite <- app_assoc | by rewrite <- app_assoc | | done].
      rewrite !length_app. cbn. lia. }
    assert (0 <= zlen preP < zlen P) by (subst P; rewrite length_app; cbn; lia).
    cbn [arbitrate]. destruct (Z.eqb_spec x 1).
    2: { apply Hnext, best_skip; try done. left. intros [He _]. congruence. }
    destruct (Z.eqb_spec y 3) as [Ey3 |].
    { apply (best_level3 P L sr _ index raise); [lia | split; [congruence | left; congruence] | congruence | apply HL | exact Hbest]. }
    destruct (Z.ltb_spec y sr).
    { apply Hnext, best_skip; try done. left. intros [_ [|]]; [congruence | lia]. }
    destruct (Z.leb_spec y raise).
    { apply Hnext, best_skip; try done. right. split; congruence. }
    apply Hnext. cbn. pose proof (HL (zlen preP)). split; [| split; [congruence | lia]].
    apply (best_new P L sr _ index raise); [lia | split; [congruence | right; lia] | | exact Hbest]. lia.
Qed.

(** The arbitration among the pending interrupts picks, of those that the
    status register's mask lets through (level 3 always passes), the one of the
    highest priority level, the lowest-numbered one among equals, and picks none
    exactly when all pending ones are masked. *)
Theorem arbitrate_picks_highest P L sr : 0 <= sr -> zlen P = zlen L -> (forall j, -1 <= nthZ L j <= 3) ->
  match arbitrate sr 0 P L None (-1) with
  | Some r => best_below P L sr (zlen P) r
  | None => forall j, 0 <= j < zlen P -> ~ eligible P L sr j
  end.
Proof.
  intros Hsr HPL HL.
  apply (arbitrate_spec P L sr Hsr HPL HL P L [] [] None (-1) eq_refl eq_refl eq_refl).
  split; [done |]. intros j Hj. cbn in Hj. lia.
Qed.

Lemma arbitrate_picks_highest_witness :
  arbitrate 1 0 [0; 1; 1; 1] [3; 0; 2; 2] None (-1) = Some 2 /\
  best_below [0; 1; 1; 1] [3; 0; 2; 2] 1 4 2.
Proof.
  split; [reflexivity |].
  refine (arbitrate_picks_highest [0; 1; 1; 1] [3; 0; 2; 2] 1 ltac:(lia) eq_refl _).
  intros j. rewrite !nthZ_cons.
  destruct (j =? 0); [lia |]. destruct (j - 1 =? 0); [lia |]. destruct (j - 1 - 1 =? 0); [lia |].
  destruct (j - 1 - 1 - 1 =? 0); [lia |]. rewrite nthZ_nil. lia.
Defined.

(** ** The pending table and its counter *)

Fixpoint sumZ (l : list Z) : Z :=
  match l with
  | [] => 0
  | x :: l => x + sumZ l
  end.

Lemma sumZ_insert l i v x : l !! i = Some x -> sumZ (<[i := v]> l) = sumZ l - x + v.
Proof.
  revert i. induction l as [| a l IH]; intros [| i] E; cbn in *; try done.
  - injection E as ->. lia.
  - rewrite IH by done. lia.
Qed.

Lemma sumZ_bits l : Forall (fun p => p = 0 \/ p = 1) l -> 0 <= sumZ l <= zlen l.
Proof. induction 1; cbn [sumZ length]; lia. Qed.

Lemma rd_inv {A} (l : list A) i x : rd l i = Ok x -> l !! Z.to_nat i = Some x /\ 0 <= i < zlen l.
Proof.
  unfold rd. destruct (Z.ltb_spec i 0); [done |]. destruct (l !! Z.to_nat i) eqn:E; [| done].
  intros [= ->]. split; [done |]. apply lookup_lt_Some in E. lia.
Qed.

(** The counter counts the pending interrupts, each of them pending once. *)
Record pending_ok (c : dsp_core) : Prop := {
  pending_len : zlen (interrupt_is_pending c) = 12;
  pending_bits : Forall (fun p => p = 0 \/ p = 1) (interrupt_is_pending c);
  pending_count : interrupt_counter c = sumZ (interrupt_is_pending c)
}.

Lemma pending_ok_ext c c' : pending_ok c ->
  interrupt_is_pending c' = interrupt_is_pending c -> interrupt_counter c' = interrupt_counter c ->
  pending_ok c'.
Proof. intros [] H1 H2. split; congruence. Qed.

Lemma pending_ok_add c i c' : pending_ok c -> dsp56k_add_interrupt c i = Ok c' -> pending_ok c'.
Proof.
  intros [Hl Hb Hc] H. unfold dsp56k_add_interrupt in H. inv_ok.
  destruct (x =? -1); [by inv_ok; subst |]. inv_ok. destruct (Z.eqb_spec x0 0) as [-> |]; [| by inv_ok; subst].
  inv_ok. subst c'. apply rd_inv in E0 as [E0 Hr]. apply wr_inv in E1 as [_ ->].
  pose proof (sumZ_bits _ Hb). split; cbn; [by rewrite length_insert | |].
  - apply Forall_insert; [done | by right].
  - rewrite (sumZ_insert _ _ _ _ E0), Hc. assert (sumZ (interrupt_is_pending c) <= 12) by lia.
    rewrite Z.mod_small; lia.
Qed.

Lemma pending_ok_stack_exception c c' : pending_ok c -> stack_exception c = Ok c' -> pending_ok c'.
Proof. intros Hc H. unfold stack_exception in H. inv_ok. subst. by eapply pending_ok_add. Qed.

(** Close a goal about a core that differs in other fields. *)
Ltac same_pending := eapply pending_ok_ext; [eassumption | reflexivity | reflexivity].

Lemma pending_ok_push c p sr only c' : pending_ok c -> dsp_stack_push c p sr only = Ok c' -> pending_ok c'.
Proof.
  intros Hc H. unfold dsp_stack_push in H. inv_ok. subst c'.
  assert (Hx : pending_ok x).
  { destruct (_ && _); [by eapply pending_ok_stack_exception | by inv_ok; subst]. }
  destruct (negb _), only; same_pending.
Qed.

Lemma pending_ok_pop c p sr c' : pending_ok c -> dsp_stack_pop c = Ok (p, sr, c') -> pending_ok c'.
Proof.
  intros Hc H. unfold dsp_stack_pop in H. inv_ok. subst.
  assert (Hx : pending_ok x).
  { destruct (_ && _); [by eapply pending_ok_stack_exception | by inv_ok; subst]. }
  same_pending.
Qed.

Lemma pending_ok_long c c' : pending_ok c -> enter_long_interrupt c = Ok c' -> pending_ok c'.
Proof.
  intros Hc H. unfold enter_long_interrupt in H. inv_ok. subst.
  assert (Hx : pending_ok x) by (eapply pending_ok_push; [| exact E]; same_pending). same_pending.
Qed.

Lemma pending_ok_pipeline c b c' : pending_ok c -> interrupt_pipeline c = Ok (b, c') -> pending_ok c'.
Proof.
  intros Hc H. unfold interrupt_pipeline in H.
  repeat match type of H with
  | (if ?b then _ else _) = _ => destruct b
  end; inv_ok; simplify_eq; try same_pending.
  - assert (Hx : pending_ok x0); [| same_pending].
    destruct (is_jsr x); [eapply pending_ok_long; [| exact E0]; same_pending |].
    injection E0 as <-. same_pending.
  - assert (Hx : pending_ok x); [| same_pending].
    destruct (_ =? _); [| by inv_ok; subst]. inv_ok.
    destruct (is_jsr x0); [by eapply pending_ok_long | by inv_ok; subst].
  - destruct (_ =? _); same_pending.
Qed.

Lemma arbitrate_pending sr r : forall p l i index raise,
  arbitrate sr i p l index raise = Some r ->
  index = Some r \/ (i <= r /\ p !! Z.to_nat (r - i) = Some 1).
Proof.
  induction p as [| x p IH]; intros [| y l] i index raise H; cbn in H; try by left.
  assert (Hnext : forall index raise, arbitrate sr (i + 1) p l index raise = Some r ->
    index = Some r \/ (i <= r /\ (x :: p) !! Z.to_nat (r - i) = Some 1)).
  { intros index' raise' [? | [Hle E]]%IH; [by left | right]. split; [lia |].
    replace (Z.to_nat (r - i)) with (S (Z.to_nat (r - (i + 1)))) by lia. done. }
  destruct (Z.eqb_spec x 1) as [-> |]; [| by eauto].
  destruct (y =? 3).
  { injection H as ->. right. split; [lia |]. by rewrite Z.sub_diag. }
  destruct (y <? sr); [by eauto |]. destruct (y <=? raise); [by eauto |].
  destruct (Hnext _ _ H) as [[= ->] | ?]; right; [| done].
  split; [lia |]. by rewrite Z.sub_diag.
Qed.

Lemma pending_ok_raise c c' : pending_ok c -> raise_interrupt c = Ok c' -> pending_ok c'.
Proof.
  intros [Hl Hb Hc] H. unfold raise_interrupt in H.
  destruct (arbitrate _ _ _ _ _ _) as [r |] eqn:Ea; [| by inv_ok; subst]. inv_ok. subst c'.
  apply arbitrate_pending in Ea as [| [Hr Ep]]; [done |]. rewrite Z.sub_0_r in Ep.
  apply wr_inv in E as [Hi ->]. pose proof (sumZ_bits _ Hb) as Hs.
  pose proof (sumZ_insert _ _ 0 _ Ep) as Hsum.
  assert (Hb' : Forall (fun p => p = 0 \/ p = 1) (<[Z.to_nat r := 0]> (interrupt_is_pending c)))
    by (apply Forall_insert; [done | by left]).
  pose proof (sumZ_bits _ Hb') as Hs'. rewrite length_insert in Hs'.
  split; cbn; [by rewrite length_insert | done |].
  rewrite Hsum, Hc. rewrite Z.mod_small; lia.
Qed.

Lemma pending_ok_post c c' : pending_ok c -> dsp_postexecute_interrupts c = Ok c' -> pending_ok c'.
Proof.
  intros Hc H. unfold dsp_postexecute_interrupts in H. destruct (negb _); [by inv_ok; subst |].
  apply bind_ok in H as ([b c1] & E & H).
  assert (H1 : pending_ok c1) by (destruct (_ =? _); [by eapply pending_ok_pipeline | by simplify_eq]).
  destruct b; [by simplify_eq |]. apply bind_ok in H as (c2 & E2 & H).
  assert (H2 : pending_ok c2) by (destruct (flag _ _); [by eapply pending_ok_add | by simplify_eq]).
  destruct (_ =? 0); [by simplify_eq | by eapply pending_ok_raise].
Qed.

Lemma pending_ok_update_pc c c' : pending_ok c -> dsp_postexecute_update_pc c = Ok c' -> pending_ok c'.
Proof.
  intros Hc H. unfold dsp_postexecute_update_pc in H.
  set (c1 := if negb (loop_rep c =? 0) then _ else c) in H.
  assert (H1 : pending_ok c1).
  { subst c1. destruct (negb _); [| done]. destruct (pc_on_rep c =? 0); cbn zeta.
    - destruct (0 <? _); same_pending.
    - destruct (reg c DSP_REG_LC =? 0); same_pending. }
  clearbody c1. cbn zeta in H.
  destruct (flag _ _); [| injection H as <-; same_pending].
  destruct (_ =? u32 _); [| injection H as <-; same_pending].
  destruct (_ =? 0); [| injection H as <-; same_pending].
  apply bind_ok in H as ([[p sr] c2] & E & H). apply bind_ok in H as ([[la lc] c3] & E2 & H).
  injection H as <-.
  assert (H2 : pending_ok c2) by (eapply pending_ok_pop; [| exact E]; same_pending).
  assert (H3 : pending_ok c3) by (eapply pending_ok_pop; [| exact E2]; same_pending). same_pending.
Qed.

Lemma pending_ok_write_reg c r v c' : pending_ok c -> dsp_write_reg c r v = Ok c' -> pending_ok c'.
Proof.
  intros Hc H. unfold dsp_write_reg in H.
  repeat match type of H with
  | (if ?b then _ else _) = Ok _ => destruct b
  end; try (injection H as <-; same_pending).
  - apply bind_ok in H as (c1 & E & H). injection H as <-.
    assert (H1 : pending_ok c1); [| same_pending]. destruct (_ && _).
    + apply bind_ok in E as (c2 & E & E'). apply bind_ok in E' as ([] & _ & E'). injection E' as <-.
      assert (H2 : pending_ok c2) by by eapply pending_ok_add. same_pending.
    + injection E as <-. same_pending.
  - by eapply pending_ok_push.
  - inv_ok. subst. same_pending.
Qed.

(** The counter of pending interrupts always equals the number of interrupts
    marked pending, so the driver's test of the counter is a test of the table:
    a reset establishes it, and posting an interrupt, the interrupt pipeline with
    its arbitration, the PC update and register writes (through the stack errors
    they raise) all keep it. *)
Theorem interrupt_counter_invariant c :
  pending_ok (dsp56k_reset_cpu c) /\
  (pending_ok c -> forall i c', dsp56k_add_interrupt c i = Ok c' -> pending_ok c') /\
  (pending_ok c -> forall c', dsp_postexecute_interrupts c = Ok c' -> pending_ok c') /\
  (pending_ok c -> forall c', dsp_postexecute_update_pc c = Ok c' -> pending_ok c') /\
  (pending_ok c -> forall r v c', dsp_write_reg c r v = Ok c' -> pending_ok c').
Proof.
  split; [split; [done | cbn; repeat (constructor; [by left |]); constructor | done] |].
  split; [| split; [| split]]; intros Hc; intros.
  - by eapply pending_ok_add.
  - by eapply pending_ok_post.
  - by eapply pending_ok_update_pc.
  - by eapply pending_ok_write_reg.
Qed.

Lemma interrupt_counter_invariant_witness :
  exists c', dsp56k_add_interrupt fresh_core DSP_INTER_TRACE = Ok c' /\ pending_ok c' /\
             interrupt_counter c' = 1.
Proof.
  destruct (dsp56k_add_interrupt fresh_core DSP_INTER_TRACE) as [c' | | |] eqn:E.
  - exists c'. split; [reflexivity |]. split.
    + exact (proj1 (proj2 (interrupt_counter_invariant fresh_core))
        (proj1 (interrupt_counter_invariant
           (mkCore false 0 0 0 ∅ ∅ ∅ ∅ ∅ ∅ ∅ ∅ ∅ 0 0 0 0 0 0 0 0 [] [] 0 0 0 false))) _ _ E).
    + vm_compute in E. injection E as <-. reflexivity.
  - vm_compute in E. discriminate E.
  - vm_compute in E. discriminate E.
  - vm_compute in E. discriminate E.
Defined.

(** ** The memory map is a flat memory

    What a DSP address stands for: a word of one of the memories.  The mix
    buffer appears twice in X space. *)
Inductive cell := CMix (i : Z) | CX (a : Z) | CY (a : Z) | CP (a : Z).

#[export] Instance cell_eq_dec : EqDecision cell.
Proof. solve_decision. Defined.

Definition cell_of (space address : Z) : option cell :=
  if space =? DSP_SPACE_X then
    if (DSP_MIXBUFFER_BASE <=? address) && (address <? DSP_MIXBUFFER_BASE + DSP_MIXBUFFER_SIZE) then
      Some (CMix (address - DSP_MIXBUFFER_BASE))
    else if (0xc00 <=? address) && (address <? 0xc00 + DSP_MIXBUFFER_SIZE) then
      Some (CMix (address - 0xc00))
    else if address <? DSP_XRAM_SIZE then Some (CX address) else None
  else if space =? DSP_SPACE_Y then
    if address <? DSP_YRAM_SIZE then Some (CY address) else None
  else if space =? DSP_SPACE_P then
    if address <? DSP_PRAM_SIZE then Some (CP address) else None
  else None.

Definition load (c : dsp_core) (l : cell) : outcome Z :=
  match l with
  | CMix i => Ok (rget (mixbuffer c) i)
  | CX a => Ok (rget (xram c) a)
  | CY a => Ok (rget (yram c) a)
  | CP a => c_assert (rget (pram c) a .& 0xFF000000 =? 0) ;; Ok (rget (pram c) a)
  end.

Definition store (c : dsp_core) (l : cell) (v : Z) : dsp_core :=
  match l with
  | CMix i => c <| mixbuffer := rset (mixbuffer c) i v |>
  | CX a => c <| xram := rset (xram c) a v |>
  | CY a => c <| yram := rset (yram c) a v |>
  | CP a => c <| pram := rset (pram c) a v |> <| pram_opcache := delete a (pram_opcache c) |>
  end.

Lemma load_store c l l' v : v .& 0xFF000000 = 0 ->
  load (store c l v) l' = if decide (l = l') then Ok v else load c l'.
Proof.
  intros Hv. destruct l, l'; case_decide as E; simplify_eq; cbn; regs_simp; try done.
  all: by rewrite ?Hv, ?rget_rset_ne by congruence.
Qed.

(** An address outside the peripheral window. *)
Definition plain (space address : Z) : bool :=
  negb ((space =? DSP_SPACE_X) && (DSP_PERIPH_BASE <=? address)).

Section flat_memory.
Context {S : Type} `{HasCoreLaws S}.

Lemma read_memory_cell (s : S) space address : plain space address = true ->
  dsp56k_read_memory s space address =
    (c_assert (address .& 0xFF000000 =? 0) ;;
     match cell_of space address with
     | Some l => load (core_of s) l
     | None => if space =? DSP_SPACE_X then Ok 0x00FFFFFF else AssertFail
     end).
Proof.
  unfold plain, dsp56k_read_memory, cell_of, read_memory_p. intros Hp.
  destruct (space =? DSP_SPACE_X); [| destruct (space =? DSP_SPACE_Y); [| destruct (space =? DSP_SPACE_P)]];
    cbn in Hp; rewrite ?negb_true_iff in Hp; rewrite ?Hp; destruct (address .& 0xFF000000 =? 0); cbn; try done;
    repeat match goal with |- context [if ?b then _ else _] => destruct b end; done.
Qed.

Lemma write_memory_cell (s : S) space address v : plain space address = true ->
  write_memory_raw s space address v =
    (c_assert (v .& 0xFF000000 =? 0) ;; c_assert (address .& 0xFF000000 =? 0) ;;
     match cell_of space address with
     | Some l => Ok (with_core s (store (core_of s) l v))
     | None => AssertFail
     end).
Proof.
  unfold plain, write_memory_raw, cell_of. intros Hp.
  destruct (space =? DSP_SPACE_X); [| destruct (space =? DSP_SPACE_Y); [| destruct (space =? DSP_SPACE_P)]];
    cbn in Hp; rewrite ?negb_true_iff in Hp; rewrite ?Hp;
    destruct (v .& 0xFF000000 =? 0), (address .& 0xFF000000 =? 0); cbn; try done;
    repeat match goal with |- context [if ?b then _ else _] => destruct b end; done.
Qed.

Lemma read_write_cell (s s' : S) space address v space' address' :
  plain space address = true -> plain space' address' = true ->
  dsp56k_write_memory s space address v = Ok s' ->
  dsp56k_read_memory s' space' address' =
    if decide (cell_of space address = cell_of space' address')
    then (c_assert (address' .& 0xFF000000 =? 0) ;; Ok v)
    else dsp56k_read_memory s space' address'.
Proof.
  intros Hp Hp' Hw. unfold dsp56k_write_memory in Hw. rewrite write_memory_cell in Hw by done.
  inv_ok. apply Z.eqb_eq in E. destruct (cell_of space address) as [l |]; [| done].
  injection Hw as <-. rewrite !read_memory_cell, core_with by done.
  destruct (cell_of space' address') as [l' |]; [rewrite load_store by done |]; repeat case_decide; by simplify_eq.
Qed.

(** Outside the peripheral window the DSP's address spaces behave as one flat
    memory: a write that succeeds makes every address of the same word read back
    the value written (the mix buffer at X:$1400 and its alias at X:$c00
    included) and changes no other address. *)
Theorem dsp_memory_read_write (s s' : S) space address v space' address' :
  plain space address = true -> plain space' address' = true ->
  dsp56k_write_memory s space address v = Ok s' ->
  dsp56k_read_memory s' space' address' =
    if decide (cell_of space address = cell_of space' address')
    then (c_assert (address' .& 0xFF000000 =? 0) ;; Ok v)
    else dsp56k_read_memory s space' address'.
Proof. apply read_write_cell. Qed.

(** ** The opcode caches are coherent *)

(** Every address cached holds the entry of the word stored there. *)
Definition pram_cache_ok (c : dsp_core) : Prop :=
  forall a op, pram_opcache c !! a = Some op -> lookup_opcode_slow (rget (pram c) a) = Ok op.

Lemma pram_cache_store c l v : pram_cache_ok c -> pram_cache_ok (store c l v).
Proof.
  intros Hc a op. destruct l as [| | | p]; cbn; try apply Hc.
  rewrite lookup_delete. case_decide; [done |]. regs_simp. intros E. rewrite ?rget_rset_ne by done. by apply Hc.
Qed.

Lemma fetch_coherent c cache : pram_cache_ok c -> opcache_ok cache -> cur_inst c = rget (pram c) (pc c) ->
  match fetch_opcode c cache with
  | Ok (op, c', cache') =>
      lookup_opcode_slow (rget (pram c) (pc c)) = Ok op /\ pram_cache_ok c' /\ opcache_ok cache' /\
      pram c' = pram c /\ registers c' = registers c /\ pc c' = pc c
  | AssertFail => lookup_opcode_slow (rget (pram c) (pc c)) = AssertFail
  | Undef | NoFuel => False
  end.
Proof.
  intros Hp Hc Hi. unfold fetch_opcode. destruct (pram_opcache c !! pc c) as [op |] eqn:E.
  { split; [by apply Hp |]. done. }
  pose proof (lookup_opcode_slow_defined (cur_inst c)) as Hd.
  pose proof (lookup_opcode_cases cache (cur_inst c) Hc) as Hl.
  destruct (lookup_opcode cache (cur_inst c)) as [[op cache'] | | |]; cbn [mbind outcome_bind].
  - rewrite Hi in Hl. destruct Hl as [Hl Hc']. split; [done |]. split; [| done].
    intros a op'. cbn. rewrite lookup_insert. case_decide; [| apply Hp]. intros [= <-]. by subst.
  - by rewrite Hi in Hl.
  - by destruct Hd.
  - by destruct Hd.
Qed.

(** C25: Executing from the caches is executing from program memory: with coherent
    caches, the entry used for the word at the PC is the one the table search
    gives for that word, and the caches stay coherent; and every memory write
    outside the peripheral window keeps them coherent, a write to program memory
    by dropping the cached entry of that address. *)
Theorem opcode_caches_coherent :
  (forall c cache, pram_cache_ok c -> opcache_ok cache -> cur_inst c = rget (pram c) (pc c) ->
     match fetch_opcode c cache with
     | Ok (op, c', cache') =>
         lookup_opcode_slow (rget (pram c) (pc c)) = Ok op /\ pram_cache_ok c' /\ opcache_ok cache' /\
         pram c' = pram c /\ registers c' = registers c /\ pc c' = pc c
     | AssertFail => lookup_opcode_slow (rget (pram c) (pc c)) = AssertFail
     | Undef | NoFuel => False
     end) /\
  (forall (s s' : S) space address v, plain space address = true -> pram_cache_ok (core_of s) ->
     dsp56k_write_memory s space address v = Ok s' -> pram_cache_ok (core_of s')).
Proof.
  split; [apply fetch_coherent |].
  intros s s' space address v Hp Hc Hw. unfold dsp56k_write_memory in Hw.
  rewrite write_memory_cell in Hw by done. inv_ok. destruct (cell_of space address); [| done].
  injection Hw as <-. rewrite core_with. by apply pram_cache_store.
Qed.
End flat_memory.

(** A DSP that is only a core: the peripheral window reads as zero and ignores
    writes. *)
#[local] Instance bare_core : HasCore dsp_core := {|
  core_of := id;
  with_core := fun _ c => c;
  read_peripheral := fun _ _ => Ok 0;
  write_peripheral := fun c _ _ => Ok c
|}.
#[local] Instance bare_core_laws : HasCoreLaws dsp_core.
Proof. by split. Qed.

Lemma dsp_memory_read_write_witness :
  exists c', dsp56k_write_memory fresh_core DSP_SPACE_X 0x1405 0x123456 = Ok c' /\
    dsp56k_read_memory c' DSP_SPACE_X 0xc05 = Ok 0x123456 /\
    dsp56k_read_memory c' DSP_SPACE_X 5 = dsp56k_read_memory fresh_core DSP_SPACE_X 5.
Proof.
  destruct (dsp56k_write_memory fresh_core DSP_SPACE_X 0x1405 0x123456) as [c' | | |] eqn:E;
    [| vm_compute in E; discriminate E ..].
  exists c'. split; [reflexivity |]. split.
  - exact (dsp_memory_read_write fresh_core c' DSP_SPACE_X 0x1405 0x123456 DSP_SPACE_X 0xc05 eq_refl eq_refl E).
  - exact (dsp_memory_read_write fresh_core c' DSP_SPACE_X 0x1405 0x123456 DSP_SPACE_X 5 eq_refl eq_refl E).
Defined.

Lemma pram_cache_ok_fresh : pram_cache_ok fresh_core.
Proof. intros a op E. by vm_compute in E. Qed.

Lemma opcode_caches_coherent_witness :
  exists c', dsp56k_write_memory fresh_core DSP_SPACE_P 3 0x0c = Ok c' /\ pram_cache_ok c'.
Proof.
  destruct (dsp56k_write_memory fresh_core DSP_SPACE_P 3 0x0c) as [c' | | |] eqn:E;
    [| vm_compute in E; discriminate E ..].
  exists c'. split; [reflexivity |].
  exact (proj2 opcode_caches_coherent fresh_core c' DSP_SPACE_P 3 0x0c eq_refl pram_cache_ok_fresh E).
Defined.

(** ** Fuel and cycles of the driver

    No part of the driver loops, and nothing after an instruction's own code
    changes its cycle count. *)

Definition fuelled {A} (m : outcome A) : Prop := m <> NoFuel.

Lemma fuelled_bind {A B} (m : outcome A) (f : A -> outcome B) :
  fuelled m -> (forall a, fuelled (f a)) -> fuelled (m ≫= f).
Proof. intros Hm Hf. by destruct m; cbn. Qed.

Lemma fuelled_rd {A} (l : list A) i : fuelled (rd l i).
Proof. unfold rd, fuelled. destruct (i <? 0); [done |]. by destruct (_ !! _). Qed.

Lemma fuelled_wr {A} (l : list A) i v : fuelled (wr l i v).
Proof. unfold wr, fuelled. by destruct (_ && _). Qed.

Lemma fuelled_assert b : fuelled (c_assert b).
Proof. by destruct b. Qed.

Lemma fuelled_ok {A} (a : A) : fuelled (Ok a).
Proof. done. Qed.

Create HintDb fuel discriminated.
#[export] Hint Resolve fuelled_rd fuelled_wr fuelled_assert fuelled_ok : fuel.
#[export] Hint Extern 1 (fuelled AssertFail) => done : fuel.
#[export] Hint Extern 1 (fuelled Undef) => done : fuel.

(** Walk through the binds and tests of a definition. *)
Ltac fuel_walk :=
  repeat first
    [ progress intros
    | progress (cbn beta zeta)
    | solve [auto with fuel nocore]
    | apply fuelled_bind
    | match goal with
      | |- fuelled (if ?b then _ else _) => destruct b
      | |- fuelled (match ?x with _ => _ end) => destruct x
      end ].

Lemma fuelled_add c i : fuelled (dsp56k_add_interrupt c i).
Proof. unfold dsp56k_add_interrupt. fuel_walk. Qed.
#[export] Hint Resolve fuelled_add : fuel.

Lemma fuelled_exception c : fuelled (stack_exception c).
Proof. unfold stack_exception. fuel_walk. Qed.
#[export] Hint Resolve fuelled_exception : fuel.

Lemma fuelled_push c p sr b : fuelled (dsp_stack_push c p sr b).
Proof. unfold dsp_stack_push. fuel_walk. Qed.

Lemma fuelled_pop c : fuelled (dsp_stack_pop c).
Proof. unfold dsp_stack_pop. fuel_walk. Qed.

Lemma fuelled_read_p c a : fuelled (read_memory_p c a).
Proof. unfold read_memory_p. fuel_walk. Qed.
#[export] Hint Resolve fuelled_push fuelled_pop fuelled_read_p : fuel.

Lemma fuelled_long c : fuelled (enter_long_interrupt c).
Proof. unfold enter_long_interrupt. fuel_walk. Qed.
#[export] Hint Resolve fuelled_long : fuel.

Lemma fuelled_pipeline c : fuelled (interrupt_pipeline c).
Proof. unfold interrupt_pipeline. fuel_walk. Qed.

Lemma fuelled_raise c : fuelled (raise_interrupt c).
Proof. unfold raise_interrupt. fuel_walk. Qed.
#[export] Hint Resolve fuelled_pipeline fuelled_raise : fuel.

Lemma fuelled_post c : fuelled (post_interrupts c).
Proof. unfold post_interrupts, dsp_postexecute_interrupts. fuel_walk. Qed.

Lemma fuelled_post_pc c : fuelled (post_pc c).
Proof. unfold post_pc, dsp_postexecute_update_pc. fuel_walk. Qed.

Lemma fuelled_slow op : fuelled (lookup_opcode_slow op).
Proof. apply lookup_opcode_slow_defined. Qed.
#[export] Hint Resolve fuelled_post fuelled_post_pc fuelled_slow : fuel.

Lemma fuelled_fetch c cache : fuelled (fetch_opcode c cache).
Proof. unfold fetch_opcode, lookup_opcode. fuel_walk. Qed.
#[export] Hint Resolve fuelled_fetch : fuel.

Lemma fuelled_execute {S} `{HasCore S} emu und par :
  (forall f s, fuelled (emu f s)) -> (forall s, fuelled (und s)) -> (forall i s, fuelled (par i s)) ->
  forall (s : S) cache, fuelled (dsp56k_execute_instruction emu und par s cache).
Proof. intros He Hu Hp s cache. unfold dsp56k_execute_instruction, run_entry. fuel_walk. Qed.

(** The cycle count of the instruction that has just run is kept. *)
Lemma cycles_add c i c' : dsp56k_add_interrupt c i = Ok c' -> instr_cycle c' = instr_cycle c.
Proof.
  unfold dsp56k_add_interrupt. intros H. inv_ok.
  destruct (_ =? -1); [by simplify_eq |]. inv_ok. destruct (_ =? 0); [| by simplify_eq]. inv_ok. by subst.
Qed.

Lemma cycles_exception c c' : stack_exception c = Ok c' -> instr_cycle c' = instr_cycle c.
Proof. unfold stack_exception. intros H. inv_ok. subst. by eapply cycles_add. Qed.

Lemma cycles_push c p sr b c' : dsp_stack_push c p sr b = Ok c' -> instr_cycle c' = instr_cycle c.
Proof.
  unfold dsp_stack_push. intros H. inv_ok. subst.
  assert (Hx : instr_cycle x = instr_cycle c)
    by (destruct (_ && _); [by eapply cycles_exception | by simplify_eq]).
  rewrite <- Hx. by destruct (negb _), b.
Qed.

Lemma cycles_pop c p sr c' : dsp_stack_pop c = Ok (p, sr, c') -> instr_cycle c' = instr_cycle c.
Proof.
  unfold dsp_stack_pop. intros H. inv_ok. subst.
  assert (Hx : instr_cycle x = instr_cycle c)
    by (destruct (_ && _); [by eapply cycles_exception | by simplify_eq]).
  by rewrite <- Hx.
Qed.

Lemma cycles_long c c' : enter_long_interrupt c = Ok c' -> instr_cycle c' = instr_cycle c.
Proof.
  unfold enter_long_interrupt. intros H. inv_ok. subst. apply cycles_push in E.
  etransitivity; [| exact E]. done.
Qed.

Lemma cycles_pipeline c b c' : interrupt_pipeline c = Ok (b, c') -> instr_cycle c' = instr_cycle c.
Proof.
  intros H. unfold interrupt_pipeline in H.
  repeat match type of H with (if ?b then _ else _) = _ => destruct b end; inv_ok; simplify_eq; try done.
  - destruct (is_jsr x); [apply cycles_long in E0; by etransitivity; [| exact E0] | by simplify_eq].
  - destruct (_ =? _); [| by simplify_eq]. inv_ok.
    destruct (is_jsr x0); [apply cycles_long in E; by etransitivity; [| exact E] | by simplify_eq].
  - by destruct (_ =? _).
Qed.

Lemma cycles_post c c' : post_interrupts c = Ok c' -> instr_cycle c' = instr_cycle c.
Proof.
  unfold post_interrupts. destruct (_ || _); [| by intros [= <-]].
  unfold dsp_postexecute_interrupts. destruct (negb _); [by intros [= <-] |]. intros H.
  apply bind_ok in H as ([b c1] & E & H).
  assert (H1 : instr_cycle c1 = instr_cycle c)
    by (destruct (_ =? _); [by eapply cycles_pipeline | by simplify_eq]).
  destruct b; [by simplify_eq |]. apply bind_ok in H as (c2 & E2 & H).
  assert (H2 : instr_cycle c2 = instr_cycle c1) by (destruct (flag _ _); [by eapply cycles_add | by simplify_eq]).
  destruct (_ =? 0); [simplify_eq; congruence |]. unfold raise_interrupt in H.
  destruct (arbitrate _ _ _ _ _ _); inv_ok; subst; cbn; congruence.
Qed.

Lemma cycles_post_pc c c' : post_pc c = Ok c' -> instr_cycle c' = instr_cycle c.
Proof.
  unfold post_pc. destruct (_ && _); [by intros [= <-] |]. unfold dsp_postexecute_update_pc.
  set (c1 := if negb (loop_rep c =? 0) then _ else c). intros H.
  assert (H1 : instr_cycle c1 = instr_cycle c).
  { subst c1. destruct (negb _); [| done]. destruct (pc_on_rep c =? 0); cbn zeta.
    - by destruct (0 <? _). - by destruct (reg c DSP_REG_LC =? 0). }
  rewrite <- H1. clearbody c1. clear H1. cbn zeta in H.
  destruct (flag _ _); [| by injection H as <-]. destruct (_ =? u32 _); [| by injection H as <-].
  destruct (_ =? 0); [| by injection H as <-].
  apply bind_ok in H as ([[p sr] c2] & E & H). apply bind_ok in H as ([[la lc] c3] & E2 & H).
  injection H as <-. apply cycles_pop in E, E2. etransitivity; [exact E2 |]. by etransitivity; [exact E |].
Qed.
