(* ===== verification/DspAddr.v ===== *)
(** * Address registers and condition codes of the DSP (mcpx/apu/dsp/dsp_emu.c.inc)

    The three ways an address register is stepped (linear, modulo, reverse
    carry), the effective addresses, the condition tests of the branches, and
    the part of the status register that every accumulator operation sets.  The
    theorems relate the stepping to arithmetic on addresses and the status bits
    to the 56-bit number in the accumulator. *)

From stdpp Require Import base numbers list gmap strings.
From Stdlib Require Import ZArith Lia Btauto.
From S2P Require Import Prelude DspArith DspDecode DspCore.

(** ** Numbers of dsp_cpu_regs.h *)

Abbreviation DSP_SR_Z := 2.
Abbreviation DSP_SR_N := 3.
Abbreviation DSP_SR_U := 4.
Abbreviation DSP_SR_E := 5.

Abbreviation DSP_REG_NULL := 0x00.
Abbreviation DSP_REG_X0 := 0x04.
Abbreviation DSP_REG_X1 := 0x05.
Abbreviation DSP_REG_Y0 := 0x06.
Abbreviation DSP_REG_Y1 := 0x07.
Abbreviation DSP_REG_R0 := 0x10.
Abbreviation DSP_REG_N0 := 0x18.

(** ** Stepping an address register *)

(** The first loop of [emu_update_rn_bitreverse] and the increment after it. *)
Definition revbits_of (value : Z) : Z :=
  default 16 (List.find (fun k => flag value (1 ≪ k)) (seqZ 0 16)) + 1.

(** Its second and third loop: bits [0 .. revbits-1] of [r_reg] in the opposite
    order, over the bits of [value]. *)
Definition reverse_into (revbits r_reg value : Z) : Z :=
  foldl (fun value i => if flag r_reg (1 ≪ i) then value .| (1 ≪ (revbits - i - 1)) else value)
    value (seqZ 0 revbits).

Definition emu_update_rn_bitreverse (c : dsp_core) (numreg : Z) : dsp_core :=
  let revbits := revbits_of (reg c (DSP_REG_N0 + numreg)) in
  let r_reg := reg c (DSP_REG_R0 + numreg) in
  let high := u32 (BITMASK 16 - BITMASK revbits) in
  let value := reverse_into revbits r_reg (r_reg .& high) in
  let value := u32 (value + 1) .& BITMASK revbits in
  let r_reg := r_reg .& high .| value in
  set_reg c (DSP_REG_R0 + numreg) (reverse_into revbits r_reg (r_reg .& high)).

(** [while (bufsize < modulo) { bufsize <<= 1; bufmask <<= 1; }] *)
Fixpoint grow_buffer (fuel : nat) (modulo bufsize bufmask : Z) : outcome (Z * Z) :=
  if bufsize <? modulo then
    match fuel with
    | O => NoFuel
    | S fuel => grow_buffer fuel modulo (u16 (bufsize ≪ 1)) (u16 (bufmask ≪ 1))
    end
  else Ok (bufsize, bufmask).

(** [while (modifier>bufsize) { r_reg += bufsize; modifier -= bufsize; }] *)
Fixpoint skip_up (fuel : nat) (bufsize r_reg modifier : Z) : outcome (Z * Z) :=
  if bufsize <? modifier then
    match fuel with
    | O => NoFuel
    | S fuel => skip_up fuel bufsize (sext 16 (r_reg + bufsize)) (sext 16 (modifier - bufsize))
    end
  else Ok (r_reg, modifier).

(** [while (modifier<-bufsize) { r_reg -= bufsize; modifier += bufsize; }] *)
Fixpoint skip_down (fuel : nat) (bufsize r_reg modifier : Z) : outcome (Z * Z) :=
  if modifier <? - bufsize then
    match fuel with
    | O => NoFuel
    | S fuel => skip_down fuel bufsize (sext 16 (r_reg - bufsize)) (sext 16 (modifier + bufsize))
    end
  else Ok (r_reg, modifier).

(** The loops run at most 16 times, and at most [|modifier|] times. *)
Definition emu_update_rn_modulo (c : dsp_core) (numreg modifier : Z) : outcome dsp_core :=
  let orig_modifier := modifier in
  let modulo := u16 (reg c (DSP_REG_M0 + numreg) + 1) in
  '(bufsize, bufmask) ← grow_buffer 16 modulo 1 (BITMASK 16);
  let lobound := reg c (DSP_REG_R0 + numreg) .& bufmask in
  let hibound := u16 (lobound + modulo - 1) in
  let r_reg := sext 16 (reg c (DSP_REG_R0 + numreg)) in
  '(r_reg, modifier) ←
    (if modulo <? orig_modifier then
       '(r_reg, modifier) ← skip_up (Z.to_nat (Z.abs modifier)) bufsize r_reg modifier;
       skip_down (Z.to_nat (Z.abs modifier)) bufsize r_reg modifier
     else Ok (r_reg, modifier));
  let r_reg := sext 16 (r_reg + modifier) in
  let r_reg :=
    if negb (orig_modifier =? modulo) then
      if hibound <? r_reg then sext 16 (r_reg - modulo)
      else if r_reg <? lobound then sext 16 (r_reg + modulo) else r_reg
    else r_reg in
  Ok (set_reg c (DSP_REG_R0 + numreg) (u32 r_reg .& BITMASK 16)).

Definition emu_update_rn (c : dsp_core) (numreg modifier : Z) : outcome dsp_core :=
  let m_reg := u16 (reg c (DSP_REG_M0 + numreg)) in
  if m_reg =? 65535 then
    let value := sext 16 (sext 16 (reg c (DSP_REG_R0 + numreg)) + modifier) in
    Ok (set_reg c (DSP_REG_R0 + numreg) (u32 value .& BITMASK 16))
  else if m_reg =? 0 then Ok (emu_update_rn_bitreverse c numreg)
  else if m_reg <=? 32767 then emu_update_rn_modulo c numreg modifier
  else Ok c.

(** ** Effective addresses *)

Definition add_cycles (c : dsp_core) (n : Z) : dsp_core := c <| instr_cycle := u16 (instr_cycle c + n) |>.

(** Returns the result (1 for an immediate operand), [*dst_addr] and the core. *)
Definition emu_calc_ea (c : dsp_core) (ea_mode : Z) : outcome (Z * Z * dsp_core) :=
  let value := (ea_mode ≫ 3) .& BITMASK 3 in
  let numreg := ea_mode .& BITMASK 3 in
  let rn c := reg c (DSP_REG_R0 + numreg) in
  let nn := reg c (DSP_REG_N0 + numreg) in
  match value with
  | 0 => let dst_addr := rn c in
         c ← emu_update_rn c numreg (sext 16 (- nn)); Ok (0, dst_addr, c)
  | 1 => let dst_addr := rn c in
         c ← emu_update_rn c numreg (sext 16 nn); Ok (0, dst_addr, c)
  | 2 => let dst_addr := rn c in
         c ← emu_update_rn c numreg (-1); Ok (0, dst_addr, c)
  | 3 => let dst_addr := rn c in
         c ← emu_update_rn c numreg 1; Ok (0, dst_addr, c)
  | 4 => Ok (0, rn c, c)
  | 5 => let c := add_cycles c 2 in
         let curreg := rn c in
         c ← emu_update_rn c numreg (sext 16 nn);
         let dst_addr := rn c in
         Ok (0, dst_addr, set_reg c (DSP_REG_R0 + numreg) curreg)
  | 6 => let c := add_cycles c 2 in
         dst_addr ← read_memory_p c (u32 (pc c + 1));
         let c := c <| cur_inst_len := u32 (cur_inst_len c + 1) |> in
         Ok (if negb (numreg =? 0) then 1 else 0, dst_addr, c)
  | _ => let c := add_cycles c 2 in
         c ← emu_update_rn c numreg (-1);
         Ok (0, rn c, c)
  end.

(** ** Conditions *)

Definition emu_calc_cc (c : dsp_core) (cc_code : Z) : bool :=
  let sr := reg c DSP_REG_SR in
  let bit i := (sr ≫ i) .& 1 in
  let nbit i := Z.lnot (sr ≫ i) .& 1 in
  let masked i := sr .& (1 ≪ i) in
  match cc_code with
  | 0 => masked DSP_SR_C =? 0
  | 1 => bit DSP_SR_N .^ bit DSP_SR_V =? 0
  | 2 => masked DSP_SR_Z =? 0
  | 3 => masked DSP_SR_N =? 0
  | 4 => bit DSP_SR_Z .| (nbit DSP_SR_U .& nbit DSP_SR_E) =? 0
  | 5 => masked DSP_SR_E =? 0
  | 6 => masked DSP_SR_L =? 0
  | 7 => bit DSP_SR_Z .| (bit DSP_SR_N .^ bit DSP_SR_V) =? 0
  | 8 => masked DSP_SR_C =? 1
  | 9 => bit DSP_SR_N .^ bit DSP_SR_V =? 1
  | 10 => bit DSP_SR_Z =? 1
  | 11 => bit DSP_SR_N =? 1
  | 12 => bit DSP_SR_Z .| (nbit DSP_SR_U .& nbit DSP_SR_E) =? 1
  | 13 => bit DSP_SR_E =? 1
  | 14 => bit DSP_SR_L =? 1
  | 15 => bit DSP_SR_Z .| (bit DSP_SR_N .^ bit DSP_SR_V) =? 1
  | _ => false
  end.

(** ** The E, U, N and Z bits *)

(** [dsp->registers[DSP_REG_SR] |= v] *)
Definition or_sr (c : dsp_core) (v : Z) : dsp_core := set_reg c DSP_REG_SR (reg c DSP_REG_SR .| v).

(** [dsp->registers[DSP_REG_SR] &= BITMASK(16)-m] *)
Definition clear_sr (c : dsp_core) (m : Z) : dsp_core :=
  set_reg c DSP_REG_SR (reg c DSP_REG_SR .& (BITMASK 16 - m)).

(** The E and U bits of the three scaling modes; [None] is the early return of
    the reserved mode. *)
Definition ccr_e_u (scaling : Z) (reg0 reg1 : Z) : option Z :=
  let e (b : bool) := if b then 1 ≪ DSP_SR_E else 0 in
  let u (b : bool) := if b then 1 ≪ DSP_SR_U else 0 in
  match scaling with
  | 0 => let value_e := u32 (u32 (reg0 ≪ 1) + (reg1 ≫ 23)) in
         Some (e (negb (value_e =? 0) && negb (value_e =? BITMASK 9)) .|
               u ((reg1 .& 0xc00000 =? 0) || (reg1 .& 0xc00000 =? 0xc00000)))
  | 1 => let value_u := u32 (u32 (reg0 ≪ 1) + (reg1 ≫ 23)) .& 3 in
         Some (e (negb (reg0 =? 0) && negb (reg0 =? BITMASK 8)) .|
               u ((value_u =? 0) || (value_u =? 3)))
  | 2 => let value_e := u32 (u32 (reg0 ≪ 2) + (reg1 ≫ 22)) in
         Some (e (negb (value_e =? 0) && negb (value_e =? BITMASK 10)) .|
               u ((reg1 .& 0x600000 =? 0) || (reg1 .& 0x600000 =? 0x600000)))
  | _ => None
  end.

Definition emu_ccr_update_e_u_n_z (c : dsp_core) (reg0 reg1 reg2 : Z) : dsp_core :=
  let c := clear_sr c ((1 ≪ DSP_SR_E) .| (1 ≪ DSP_SR_U) .| (1 ≪ DSP_SR_N) .| (1 ≪ DSP_SR_Z)) in
  let scaling := (reg c DSP_REG_SR ≫ DSP_SR_S0) .& BITMASK 2 in
  match ccr_e_u scaling reg0 reg1 with
  | None => c
  | Some eu =>
      let c := or_sr c eu in
      let c := if (reg1 =? 0) && (reg2 =? 0) && (reg0 =? 0) then or_sr c (1 ≪ DSP_SR_Z) else c in
      or_sr c ((reg0 ≫ 4) .& 0x8)
  end.

(** ** Registers *)

Lemma reg_set_eq c k v : reg (set_reg c k v) k = v.
Proof. apply rget_rset_eq. Qed.

Lemma set_reg_twice c k v w : set_reg (set_reg c k v) k w = set_reg c k w.
Proof. unfold set_reg, rset. destruct c. cbn. f_equal. apply insert_insert_eq. Qed.

Create Rewrite HintDb regs.
#[export] Hint Rewrite reg_set_eq set_reg_twice : regs.
#[export] Hint Rewrite reg_set_ne using (done || lia) : regs.
Ltac regs := repeat progress autorewrite with regs.

Ltac zb := zcases; cbn [andb orb negb]; first [done | btauto].

(** ** Reverse-carry stepping *)

(** The reversal of the lowest [k] bits of a number: the lowest bit becomes the highest
    of the [k], and the other bits are reversed below it. *)
Fixpoint rev_bits (k : nat) (x : Z) : Z :=
  match k with
  | O => 0
  | S k => x mod 2 * 2 ^ Z.of_nat k + rev_bits k (x / 2)
  end.

Definition bitrev (k x : Z) : Z := rev_bits (Z.to_nat k) x.

Lemma testbit_one_shift j i : 0 <= j -> Z.testbit (1 ≪ j) i = (i =? j).
Proof. intros Hj. rewrite Z.shiftl_1_l. destruct (Z.eqb_spec i j) as [-> | Hne].
  - by apply Z.pow2_bits_true.
  - by apply Z.pow2_bits_false; lia.
Qed.

Lemma reverse_fold_testbit k x v i n : Z.of_nat n <= k -> 0 <= i ->
  Z.testbit (foldl (fun value j => if flag x (1 ≪ j) then value .| (1 ≪ (k - j - 1)) else value)
               v (seqZ 0 (Z.of_nat n))) i =
  Z.testbit v i || ((k - Z.of_nat n <=? i) && (i <? k) && Z.testbit x (k - 1 - i)).
Proof.
  intros Hn Hi. induction n as [| n IH].
  { change (seqZ 0 (Z.of_nat 0)) with (@nil Z). cbn [foldl]. zb. }
  rewrite seqZ_snoc, foldl_app by lia. cbn [foldl].
  replace (Z.of_nat (S n) - 1) with (Z.of_nat n) by lia. rewrite flag_bit by lia.
  destruct (Z.testbit x (Z.of_nat n)) eqn:E.
  - rewrite Z.lor_spec, IH, testbit_one_shift by lia.
    destruct (Z.eqb_spec i (k - Z.of_nat n - 1)) as [-> |].
    + replace (k - 1 - (k - Z.of_nat n - 1)) with (Z.of_nat n) by lia. rewrite E. zb.
    + zb.
  - rewrite IH by lia. destruct (Z.eqb_spec i (k - Z.of_nat n - 1)) as [-> |].
    + replace (k - 1 - (k - Z.of_nat n - 1)) with (Z.of_nat n) by lia. rewrite E. zb.
    + zb.
Qed.

Lemma reverse_into_testbit k x v i : 0 <= k -> 0 <= i ->
  Z.testbit (reverse_into k x v) i = Z.testbit v i || ((i <? k) && Z.testbit x (k - 1 - i)).
Proof.
  intros Hk Hi. pose proof (reverse_fold_testbit k x v i (Z.to_nat k)) as H.
  rewrite Z2Nat.id in H by lia. unfold reverse_into. rewrite H by lia. zb.
Qed.

Lemma rev_bits_range k x : 0 <= rev_bits k x < 2 ^ Z.of_nat k.
Proof.
  revert x. induction k as [| k IH]; intros x; cbn [rev_bits]; [done |].
  specialize (IH (x / 2)). pose proof (Z.mod_pos_bound x 2 ltac:(done)).
  rewrite Nat2Z.inj_succ, Z.pow_succ_r by lia. nia.
Qed.

Lemma rev_bits_testbit k x i : 0 <= i ->
  Z.testbit (rev_bits k x) i = (i <? Z.of_nat k) && Z.testbit x (Z.of_nat k - 1 - i).
Proof.
  intros Hi. revert x. induction k as [| k IH]; intros x; cbn [rev_bits].
  { rewrite Z.bits_0. by destruct (Z.ltb_spec i (Z.of_nat 0)); [lia |]. }
  pose proof (rev_bits_range k (x / 2)) as Hr. destruct (Z.lt_ge_cases i (Z.of_nat k)) as [Hlt|Hge].
  - rewrite <- (Z.mod_pow2_bits_low _ (Z.of_nat k)) by lia.
    rewrite Z.add_comm, Z.mod_add, Z.mod_small, IH by lia.
    rewrite Z.div2_bits by lia. zcases; try lia. cbn [andb]. f_equal. lia.
  - replace i with (i - Z.of_nat k + Z.of_nat k) at 1 by lia. rewrite <- Z.div_pow2_bits by lia.
    rewrite Z.add_comm, Z.div_add, Z.div_small, Z.add_0_l by lia.
    change (x mod 2) with (x mod 2 ^ 1). rewrite testbit_mod_pow2 by lia.
    destruct (Z.eq_dec i (Z.of_nat k)) as [->|]; zcases; try lia; cbn [andb]; first [done | f_equal; lia].
Qed.

Lemma bitrev_testbit k x i : 0 <= k -> 0 <= i ->
  Z.testbit (bitrev k x) i = (i <? k) && Z.testbit x (k - 1 - i).
Proof.
  intros Hk Hi. unfold bitrev. rewrite rev_bits_testbit by done. by rewrite Z2Nat.id.
Qed.

Lemma bitrev_mod k x : 0 <= k -> bitrev k x mod 2 ^ k = bitrev k x.
Proof.
  intros Hk. apply Z.bits_inj'. intros i Hi. rewrite testbit_mod_pow2, bitrev_testbit by lia. btauto.
Qed.

Lemma bitrev_in_u k x : 0 <= k -> in_u k (bitrev k x).
Proof.
  intros Hk. rewrite <- (bitrev_mod k x) by done. by apply in_u_mod.
Qed.

Lemma bitrev_involutive k x : 0 <= k -> bitrev k (bitrev k x) = x mod 2 ^ k.
Proof.
  intros Hk. apply Z.bits_inj'. intros i Hi. rewrite bitrev_testbit, testbit_mod_pow2 by lia.
  destruct (Z.ltb_spec i k); [| done]. cbn [andb]. rewrite bitrev_testbit by lia.
  replace (k - 1 - (k - 1 - i)) with i by lia. zb.
Qed.

Lemma bitrev_low k x : 0 <= k -> bitrev k (x mod 2 ^ k) = bitrev k x.
Proof.
  intros Hk. apply Z.bits_inj'. intros i Hi. rewrite !bitrev_testbit, testbit_mod_pow2 by lia. zb.
Qed.

Lemma BITMASK_diff i k : 0 <= k <= 16 -> 0 <= i ->
  Z.testbit (u32 (BITMASK 16 - BITMASK k)) i = (k <=? i) && (i <? 16).
Proof.
  intros Hk Hi. rewrite !BITMASK_ones, !Z.ones_equiv.
  assert (E : Z.pred (2 ^ 16) - Z.pred (2 ^ k) = Z.ones (16 - k) ≪ k).
  { rewrite Z.shiftl_mul_pow2, Z.ones_equiv by lia.
    replace (2 ^ 16) with (2 ^ (16 - k) * 2 ^ k) by (rewrite <- Z.pow_add_r by lia; f_equal; lia). nia. }
  rewrite E, testbit_mod_pow2, Z.shiftl_spec, testbit_ones' by lia. zb.
Qed.

Lemma mod_pow2_le x k n : 0 <= k <= n -> (x mod 2 ^ n) mod 2 ^ k = x mod 2 ^ k.
Proof.
  intros H. apply Z.mod_mod_divide. exists (2 ^ (n - k)). rewrite <- Z.pow_add_r by lia. f_equal. lia.
Qed.

(** One step keeps the address above the reversed field and increments the
    reversed field. *)
Lemma bitreverse_step c numreg :
  let k := revbits_of (reg c (DSP_REG_N0 + numreg)) in
  let r := reg c (DSP_REG_R0 + numreg) in
  1 <= k <= 16 -> in_u 16 r ->
  emu_update_rn_bitreverse c numreg =
  set_reg c (DSP_REG_R0 + numreg) (r - r mod 2 ^ k + bitrev k ((bitrev k r + 1) mod 2 ^ k)).
Proof.
  intros k r Hk Hr. unfold emu_update_rn_bitreverse. fold k r. f_equal.
  set (v := u32 (reverse_into k r (r .& u32 (BITMASK 16 - BITMASK k)) + 1) .& BITMASK k).
  assert (Ev : v = (bitrev k r + 1) mod 2 ^ k).
  { subst v. rewrite land_BITMASK by lia. rewrite (mod_pow2_le _ k 32) by lia.
    rewrite <- Zplus_mod_idemp_l. f_equal. f_equal. apply Z.bits_inj'. intros i Hi.
    rewrite testbit_mod_pow2, reverse_into_testbit, bitrev_testbit, Z.land_spec, BITMASK_diff by lia.
    zb. }
  rewrite <- Ev. assert (Hv : in_u k v) by (rewrite Ev; apply in_u_mod; lia). clearbody v. clear Ev.
  replace (r - r mod 2 ^ k) with ((r ≫ k) ≪ k).
  2: { rewrite Z.shiftl_mul_pow2, Z.shiftr_div_pow2 by lia. pose proof (Z.div_mod r (2 ^ k)). lia. }
  rewrite Z.add_comm, Z.shiftl_mul_pow2, <- lor_shiftl_add by (lia || apply bitrev_in_u; lia).
  apply Z.bits_inj'. intros i Hi.
  rewrite reverse_into_testbit, Z.land_spec, !Z.lor_spec, bitrev_testbit, Z.shiftl_spec, !Z.land_spec,
    (BITMASK_diff i) by lia.
  destruct (Z.ltb_spec i k).
  - rewrite BITMASK_diff, (Z.testbit_neg_r (r ≫ k)) by lia. zb.
  - rewrite Z.shiftr_spec by lia. replace (i - k + k) with i by lia.
    rewrite (testbit_small k v i) by (done || lia).
    destruct (Z.ltb_spec i 16); [zb |]. rewrite (testbit_small 16 r i) by (done || lia). zb.
Qed.

Lemma revbits_pos v : 1 <= revbits_of v.
Proof.
  unfold revbits_of. destruct (List.find _ _) as [k |] eqn:E; cbn [default from_option]; [| lia].
  apply List.find_some in E as [Hin _]. apply list_elem_of_In, elem_of_seqZ in Hin. unfold id. lia.
Qed.

(** [n] accesses through the same address register. *)
Fixpoint rn_steps (n : nat) (c : dsp_core) (numreg modifier : Z) : outcome dsp_core :=
  match n with
  | O => Ok c
  | S n => c ← emu_update_rn c numreg modifier; rn_steps n c numreg modifier
  end.

Lemma block_bound k base : 0 <= k <= 16 -> base mod 2 ^ k = 0 -> in_u 16 base -> base + 2 ^ k <= 2 ^ 16.
Proof.
  intros Hk Hb [Hl Hh]. assert (0 < 2 ^ k) by (apply Z.pow_pos_nonneg; lia).
  apply Z.mod_divide in Hb as [q ->]; [| lia].
  replace (2 ^ 16) with (2 ^ (16 - k) * 2 ^ k) in * by (rewrite <- Z.pow_add_r by lia; f_equal; lia).
  set (a := 2 ^ (16 - k)) in *. set (b := 2 ^ k) in *. clearbody a b.
  assert (q < a) by nia. nia.
Qed.

Lemma reverse_carry_from k base numreg m n : forall c j,
  revbits_of (reg c (DSP_REG_N0 + numreg)) = k -> 1 <= k <= 16 -> 0 <= numreg < 8 ->
  u16 (reg c (DSP_REG_M0 + numreg)) = 0 -> base mod 2 ^ k = 0 -> in_u 16 base ->
  reg c (DSP_REG_R0 + numreg) = base + bitrev k (j mod 2 ^ k) ->
  exists c', rn_steps n c numreg m = Ok c' /\
    reg c' (DSP_REG_R0 + numreg) = base + bitrev k ((j + Z.of_nat n) mod 2 ^ k).
Proof.
  induction n as [| n IH]; intros c j Hk Hk16 Hn HM Hb Hbu HR.
  { exists c. by rewrite Z.add_0_r. }
  pose proof (block_bound k base ltac:(lia) Hb Hbu). pose proof (bitrev_in_u k (j mod 2 ^ k) ltac:(lia)) as Hu.
  cbn [rn_steps]. unfold emu_update_rn. rewrite HM. cbn [Z.eqb]. rewrite ok_bind.
  rewrite bitreverse_step by (rewrite ?Hk, ?HR; unfold in_u in *; lia). rewrite Hk.
  set (r' := reg c _ - _ + _).
  assert (Er' : r' = base + bitrev k ((j + 1) mod 2 ^ k)).
  { subst r'. rewrite HR. assert (0 < 2 ^ k) by (apply Z.pow_pos_nonneg; lia).
    assert (E : (base + bitrev k (j mod 2 ^ k)) mod 2 ^ k = bitrev k (j mod 2 ^ k))
      by (rewrite <- Zplus_mod_idemp_l, Hb; by apply bitrev_mod; lia).
    rewrite <- (bitrev_low k (base + _)), E, bitrev_involutive, Z.mod_mod, Zplus_mod_idemp_l by lia. lia. }
  destruct (IH (set_reg c (DSP_REG_R0 + numreg) r') (j + 1)) as (c' & -> & Hc'); regs; try done.
  exists c'. split; [done |]. rewrite Hc'. do 3 f_equal. lia.
Qed.

(** C17: Reverse-carry addressing generates the bit-reversed order of an FFT: with
    the modifier register 0 and [k] the position of the lowest set bit of the
    offset register plus one, the [n]-th access from a base aligned to 2^[k] is at the
    base plus the [k]-bit reversal of [n mod 2^k]; and the 2^[k] first accesses visit
    every address of the block. (With an offset of 0 the code reverses 17 bits; the
    theorem is about the offsets other than 0.) *)
Theorem reverse_carry_order c numreg m :
  let k := revbits_of (reg c (DSP_REG_N0 + numreg)) in
  let base := reg c (DSP_REG_R0 + numreg) in
  0 <= numreg < 8 -> u16 (reg c (DSP_REG_M0 + numreg)) = 0 -> k <= 16 ->
  base mod 2 ^ k = 0 -> in_u 16 base ->
  (forall n, exists c', rn_steps n c numreg m = Ok c' /\
     reg c' (DSP_REG_R0 + numreg) = base + bitrev k (Z.of_nat n mod 2 ^ k)) /\
  (forall a, base <= a < base + 2 ^ k ->
     exists n c', Z.of_nat n < 2 ^ k /\ rn_steps n c numreg m = Ok c' /\ reg c' (DSP_REG_R0 + numreg) = a).
Proof.
  intros k base Hn HM Hk Hb Hu. assert (1 <= k) by apply revbits_pos.
  assert (Hall : forall n, exists c', rn_steps n c numreg m = Ok c' /\
    reg c' (DSP_REG_R0 + numreg) = base + bitrev k (Z.of_nat n mod 2 ^ k)).
  { intros n. apply (reverse_carry_from k base numreg m n c 0); try done.
    rewrite Z.mod_0_l by (apply Z.pow_nonzero; lia). fold base.
    replace (bitrev k 0) with 0; [lia |]. symmetry. apply Z.bits_inj'. intros i Hi.
    rewrite bitrev_testbit, !Z.bits_0 by lia. zb. }
  split; [done |]. intros a Ha. destruct (bitrev_in_u k (a - base)) as [Hlo Hhi]; [lia |].
  destruct (Hall (Z.to_nat (bitrev k (a - base)))) as (c' & Hrun & Hr). rewrite Z2Nat.id in Hr by lia.
  exists (Z.to_nat (bitrev k (a - base))), c'. split; [lia | split; [done |]]. rewrite Hr, bitrev_low, bitrev_involutive by lia.
  rewrite Z.mod_small by lia. lia.
Qed.

(** ** Modulo stepping *)

(** The size of the aligned block a buffer of [modulo] words lies in. *)
Definition block_of (modulo : Z) : Z := 2 ^ Z.log2_up modulo.

Lemma grow_buffer_from modulo fuel : forall i, 1 <= modulo <= 2 ^ 15 -> 0 <= i <= Z.log2_up modulo ->
  Z.log2_up modulo - i <= Z.of_nat fuel ->
  grow_buffer fuel modulo (2 ^ i) (u16 (BITMASK 16 ≪ i)) =
  Ok (block_of modulo, u16 (BITMASK 16 ≪ Z.log2_up modulo)).
Proof.
  induction fuel as [| fuel IH]; intros i Hm Hi Hf; cbn [grow_buffer];
    pose proof (proj1 (Z.log2_up_le_pow2 modulo i ltac:(lia))) as Hle;
    destruct (Z.ltb_spec (2 ^ i) modulo) as [Hlt | Hge];
    try (assert (i = Z.log2_up modulo) as -> by lia; done).
  - apply (Z.log2_up_lt_pow2 modulo i ltac:(lia)) in Hlt. lia.
  - apply (Z.log2_up_lt_pow2 modulo i ltac:(lia)) in Hlt.
    assert (Z.log2_up modulo <= 15) by (apply Z.log2_up_le_pow2; lia).
    replace (u16 (2 ^ i ≪ 1)) with (2 ^ (i + 1)).
    2: { rewrite Z.shiftl_mul_pow2, <- Z.pow_add_r by lia. symmetry. apply Z.mod_small.
         split; [apply Z.pow_nonneg; lia | apply Z.pow_lt_mono_r; lia]. }
    replace (u16 (u16 (BITMASK 16 ≪ i) ≪ 1)) with (u16 (BITMASK 16 ≪ (i + 1)))
      by (rewrite !Z.shiftl_mul_pow2, Zmult_mod_idemp_l, Z.pow_add_r by lia; f_equal; ring).
    apply IH; lia.
Qed.

Lemma grow_buffer_ok modulo : 1 <= modulo <= 2 ^ 15 ->
  grow_buffer 16 modulo 1 (BITMASK 16) = Ok (block_of modulo, u16 (BITMASK 16 ≪ Z.log2_up modulo)).
Proof.
  intros Hm. assert (Z.log2_up modulo <= 15) by (apply Z.log2_up_le_pow2; lia).
  pose proof (Z.log2_up_nonneg modulo). apply (grow_buffer_from modulo 16 0); lia.
Qed.

Lemma sext16_small x : - 2 ^ 15 <= x < 2 ^ 15 -> sext 16 x = x.
Proof. intros H. unfold sext. destruct (Z.ltb_spec (x mod 2 ^ 16) (2 ^ (16 - 1))); divmod_lia. Qed.

Lemma sext16_bounds x : - 2 ^ 15 <= sext 16 x < 2 ^ 15.
Proof. unfold sext. destruct (Z.ltb_spec (x mod 2 ^ 16) (2 ^ (16 - 1))); divmod_lia. Qed.

(** The loop takes the modifier down to the buffer size or below. *)
Lemma skip_up_ok b fuel : forall r m, 1 <= b -> 0 <= m <= Z.of_nat fuel -> m < 2 ^ 15 ->
  exists r' m', skip_up fuel b r m = Ok (r', m') /\ 0 <= m'.
Proof.
  induction fuel as [| n IH]; intros r m Hb Hm Hw; cbn [skip_up]; destruct (Z.ltb_spec b m); try lia;
    try (eexists _, _; split; [reflexivity | lia]).
  rewrite (sext16_small (m - b)) by lia. apply IH; lia.
Qed.

Lemma skip_down_done b fuel r m : 1 <= b -> 0 <= m -> skip_down fuel b r m = Ok (r, m).
Proof. intros Hb Hm. destruct fuel; cbn [skip_down]; destruct (Z.ltb_spec m (- b)); (lia || done). Qed.

Lemma block_mask r e : in_u 16 r -> 0 <= e <= 16 -> r .& u16 (BITMASK 16 ≪ e) = r - r mod 2 ^ e.
Proof.
  intros Hr He. transitivity ((r ≫ e) ≪ e).
  - rewrite <- (in_u_small 16 r Hr), BITMASK_ones. zbits.
  - rewrite Z.shiftl_mul_pow2, Z.shiftr_div_pow2 by lia. pose proof (Z.div_mod r (2 ^ e)). lia.
Qed.

(** Where a buffer of [modulo] words around the address [r] starts. *)
Definition buffer_base (modulo r : Z) : Z := r - r mod block_of modulo.

(** A step of at most the buffer's length wraps around within the buffer; a
    step forward by exactly its length is taken without the wrap. *)
Lemma modulo_step c numreg m :
  let modulo := reg c (DSP_REG_M0 + numreg) + 1 in
  let r := reg c (DSP_REG_R0 + numreg) in
  let lo := buffer_base modulo r in
  2 <= modulo <= 2 ^ 15 -> 0 <= r -> r < lo + modulo -> lo + 2 * modulo <= 2 ^ 15 -> - modulo <= m < modulo ->
  emu_update_rn_modulo c numreg m = Ok (set_reg c (DSP_REG_R0 + numreg) (lo + (r - lo + m) mod modulo)).
Proof.
  intros modulo r lo Hm Hr0 Hr Hlo Hs. unfold emu_update_rn_modulo. fold r. fold modulo.
  assert (Z.log2_up modulo <= 15) by (apply Z.log2_up_le_pow2; lia).
  pose proof (Z.log2_up_nonneg modulo).
  assert (modulo <= block_of modulo) by (apply Z.log2_up_le_pow2; lia).
  assert (Hlor : 0 <= r - lo < block_of modulo)
    by (subst lo; unfold buffer_base; ring_simplify (r - (r - r mod block_of modulo)); apply Z.mod_pos_bound; lia).
  assert (Hlo0 : 0 <= lo).
  { subst lo. unfold buffer_base. pose proof (Z.mod_le r (block_of modulo)). lia. }
  rewrite (Z.mod_small modulo) by lia. rewrite grow_buffer_ok, ok_bind by lia.
  rewrite block_mask by (unfold in_u; lia). fold (block_of modulo). fold (buffer_base modulo r). fold lo.
  destruct (Z.ltb_spec modulo m); [lia |]. rewrite ok_bind.
  do 2 f_equal. clearbody lo modulo r. clear c numreg.
  destruct (Z.eqb_spec m modulo) as [| _]; [lia |]. cbn [negb].
  rewrite (Z.mod_small (lo + modulo - 1)) by lia. rewrite land_BITMASK by lia.
  assert (Hw : (r - lo + m) mod modulo =
    if modulo <=? r - lo + m then r - lo + m - modulo else if r - lo + m <? 0 then r - lo + m + modulo else r - lo + m).
  { destruct (Z.leb_spec modulo (r - lo + m)); [| destruct (Z.ltb_spec (r - lo + m) 0)];
      [rewrite <- (Z_mod_plus_full _ (-1)) | rewrite <- (Z_mod_plus_full _ 1) | ]; rewrite Z.mod_small; lia. }
  rewrite Hw. rewrite (mod_pow2_le _ 16 32) by lia.
  assert (Hx : forall x, - 2 ^ 15 <= x < 2 ^ 15 -> sext 16 x = x).
  { intros x Hx. unfold sext. cbn zeta. change (2 ^ (16 - 1)) with (2 ^ 15).
    destruct (Z.ltb_spec (x mod 2 ^ 16) (2 ^ 15)); Z.div_mod_to_equations; lia. }
  rewrite (Hx r), (Hx (r + m)) by lia. clear Hw.
  zcases; rewrite ?Hx by lia; try (rewrite Z.mod_small by lia); lia.
Qed.

Lemma buffer_base_inside modulo r x : 1 <= modulo -> 0 <= x < modulo ->
  buffer_base modulo (buffer_base modulo r + x) = buffer_base modulo r.
Proof.
  intros Hm Hx. unfold buffer_base.
  assert (modulo <= block_of modulo) by (apply Z.log2_up_le_pow2; lia).
  set (b := block_of modulo) in *. pose proof (Z.div_mod r b ltac:(lia)).
  replace ((r - r mod b + x) mod b) with x; [lia |].
  rewrite Z.add_comm, <- Zplus_mod_idemp_r. replace (r - r mod b) with (r / b * b) by lia.
  rewrite Z.mod_mul, Z.add_0_r, Z.mod_small by lia. done.
Qed.

(** C15: Modulo addressing keeps an address register inside its circular buffer:
    with a buffer of [modulo] words (the modifier register plus one) that starts
    at the multiple [lo] of the next power of two below the address, [n] steps of
    [m] words, forwards by less than the buffer's length or backwards by at most its
    length, lead from [r] to [lo + (r - lo + n * m) mod modulo]. A step forwards by
    exactly the length is excluded: the code takes it without wrapping. The addresses
    are those below 2^15 that the 16-bit signed comparisons of the code handle. *)
Theorem modulo_addressing c numreg m n :
  let modulo := reg c (DSP_REG_M0 + numreg) + 1 in
  let r := reg c (DSP_REG_R0 + numreg) in
  let lo := buffer_base modulo r in
  0 <= numreg < 8 -> 2 <= modulo <= 2 ^ 15 -> 0 <= r < lo + modulo -> lo + 2 * modulo <= 2 ^ 15 ->
  - modulo <= m < modulo ->
  exists c', rn_steps n c numreg m = Ok c' /\
    reg c' (DSP_REG_R0 + numreg) = lo + (r - lo + Z.of_nat n * m) mod modulo.
Proof.
  intros modulo r lo Hn Hm Hr Hlo Hs.
  assert (Hlor : 0 <= r - lo).
  { subst lo. unfold buffer_base. assert (0 < block_of modulo) by (apply Z.pow_pos_nonneg; [lia | apply Z.log2_up_nonneg]).
    pose proof (Z.mod_pos_bound r (block_of modulo)). lia. }
  assert (Hlo0 : 0 <= lo).
  { subst lo. unfold buffer_base. assert (0 < block_of modulo) by (apply Z.pow_pos_nonneg; [lia | apply Z.log2_up_nonneg]).
    pose proof (Z.mod_le r (block_of modulo)). lia. }
  assert (Hgen : forall n c r', reg c (DSP_REG_M0 + numreg) + 1 = modulo -> reg c (DSP_REG_R0 + numreg) = lo + r' ->
    0 <= r' < modulo -> exists c', rn_steps n c numreg m = Ok c' /\
    reg c' (DSP_REG_R0 + numreg) = lo + (r' + Z.of_nat n * m) mod modulo).
  2: { apply Hgen; [done | fold r | ]; lia. }
  assert (Hbase : forall x, 0 <= x < modulo -> buffer_base modulo (lo + x) = lo)
    by (intros x Hx; apply buffer_base_inside; lia).
  clearbody lo modulo. clear r Hr Hlor c n. intros n. induction n as [| n IH]; intros c r' HM HR Hr.
  { exists c. split; [done |]. by rewrite HR, Z.add_0_r, Z.mod_small. }
  cbn [rn_steps]. unfold emu_update_rn. rewrite (Z.mod_small (reg c (DSP_REG_M0 + numreg))) by lia.
  destruct (Z.eqb_spec (reg c (DSP_REG_M0 + numreg)) 65535); [lia |].
  destruct (Z.eqb_spec (reg c (DSP_REG_M0 + numreg)) 0); [lia |].
  destruct (Z.leb_spec (reg c (DSP_REG_M0 + numreg)) 32767); [| lia].
  rewrite modulo_step by (rewrite ?HM, ?HR, ?Hbase; lia). rewrite ok_bind, HM, HR, Hbase by lia.
  destruct (IH (set_reg c (DSP_REG_R0 + numreg) (lo + (lo + r' - lo + m) mod modulo)) ((r' + m) mod modulo))
    as (c' & -> & Hc'); regs; try done.
  { do 2 f_equal. lia. } { apply Z.mod_pos_bound. lia. }
  exists c'. split; [done |]. rewrite Hc', Zplus_mod_idemp_l. do 2 f_equal. lia.
Qed.

(** A buffer of ten words at 0x20, stepped by three: seven steps from 0x25. *)
Lemma modulo_addressing_witness :
  let c := set_reg (set_reg fresh_core (DSP_REG_M0 + 2) 9) (DSP_REG_R0 + 2) 0x25 in
  exists c', rn_steps 7 c 2 3 = Ok c' /\ reg c' (DSP_REG_R0 + 2) = 0x26.
Proof.
  refine (modulo_addressing (set_reg (set_reg fresh_core (DSP_REG_M0 + 2) 9) (DSP_REG_R0 + 2) 0x25) 2 3 7
    _ _ _ _ _); vm_compute; (split; discriminate) || discriminate || (split; [discriminate | reflexivity]).
Defined.

(** A step by exactly the length of the buffer leaves it. *)
Example modulo_full_step_leaves :
  let c := set_reg (set_reg fresh_core (DSP_REG_M0 + 2) 9) (DSP_REG_R0 + 2) 0x25 in
  exists c', rn_steps 1 c 2 10 = Ok c' /\ buffer_base 10 0x25 = 0x20 /\ reg c' (DSP_REG_R0 + 2) = 0x2F.
Proof. vm_compute. eexists. split; [reflexivity | done]. Qed.

(** The third word of an eight-word FFT block at 0x40. *)
Lemma reverse_carry_order_witness :
  let c := set_reg (set_reg (set_reg fresh_core (DSP_REG_M0 + 1) 0) (DSP_REG_N0 + 1) 4) (DSP_REG_R0 + 1) 0x40 in
  exists c', rn_steps 3 c 1 4 = Ok c' /\ reg c' (DSP_REG_R0 + 1) = 0x46.
Proof.
  refine (proj1 (reverse_carry_order (set_reg (set_reg (set_reg fresh_core (DSP_REG_M0 + 1) 0) (DSP_REG_N0 + 1) 4)
    (DSP_REG_R0 + 1) 0x40) 1 4 _ _ _ _ _) 3%nat); vm_compute;
  try reflexivity; try discriminate; (split; [discriminate | reflexivity]).
Defined.

(** ** The status bits of a result *)

(** The status register after [emu_ccr_update_e_u_n_z]. *)
Definition ccr_sr (sr reg0 reg1 reg2 : Z) : Z :=
  reg (emu_ccr_update_e_u_n_z (set_reg fresh_core DSP_REG_SR sr) reg0 reg1 reg2) DSP_REG_SR.

Lemma ccr_update_sr c r0 r1 r2 :
  emu_ccr_update_e_u_n_z c r0 r1 r2 = set_reg c DSP_REG_SR (ccr_sr (reg c DSP_REG_SR) r0 r1 r2).
Proof.
  unfold ccr_sr, emu_ccr_update_e_u_n_z, clear_sr, or_sr. regs.
  destruct (ccr_e_u _ r0 r1); [| by regs].
  destruct ((r1 =? 0) && (r2 =? 0) && (r0 =? 0)); by regs.
Qed.

(** How many bits the scaling mode of the status register moves the binary
    point: the integer part of a result starts at bit [47 + scaling_shift]. *)
Definition scaling_of (sr : Z) : Z := (sr ≫ DSP_SR_S0) .& BITMASK 2.
Definition scaling_shift (sr : Z) : Z :=
  match scaling_of sr with 1 => 1 | 2 => -1 | _ => 0 end.

Definition ccr_mask : Z := (1 ≪ DSP_SR_E) .| (1 ≪ DSP_SR_U) .| (1 ≪ DSP_SR_N) .| (1 ≪ DSP_SR_Z).

(** The status register with the four bits replaced. *)
Definition with_eunz (sr : Z) (e u n z : bool) : Z :=
  sr .& (BITMASK 16 - ccr_mask) .|
  (b2z e ≪ DSP_SR_E .| b2z u ≪ DSP_SR_U .| b2z n ≪ DSP_SR_N .| b2z z ≪ DSP_SR_Z).

(** The bits 55 down to [b] of the accumulator agree. *)
Lemma top_bits_agree a b : acc_ok a -> 0 <= b <= 55 ->
  (val56 a / 2 ^ b = 0 \/ val56 a / 2 ^ b = 2 ^ (56 - b) - 1) <-> - 2 ^ b <= sval56 a < 2 ^ b.
Proof.
  intros Ha Hb. pose proof (val56_bounds a Ha) as Hv. pose proof (sval56_val a Ha) as Hs.
  pose proof (sval56_bounds a Ha) as Hsb.
  assert (Hp : 2 ^ 56 = 2 ^ (56 - b) * 2 ^ b) by (rewrite <- Z.pow_add_r by lia; f_equal; lia).
  assert (0 < 2 ^ b) by (apply Z.pow_pos_nonneg; lia).
  assert (2 <= 2 ^ (56 - b)) by (apply (Z.pow_le_mono_r 2 1); lia).
  assert (2 ^ b <= 2 ^ 55) by (apply Z.pow_le_mono_r; lia).
  pose proof (Z.div_mod (val56 a) (2 ^ b) ltac:(lia)). pose proof (Z.mod_pos_bound (val56 a) (2 ^ b) ltac:(lia)).
  set (q := val56 a / 2 ^ b) in *. set (p := 2 ^ b) in *. set (t := 2 ^ (56 - b)) in *. clearbody p t q.
  destruct (Z.ltb_spec (sval56 a) 0); (split; [intros [-> | ->] | intros]); nia.
Qed.

Lemma scaling_clear sr : scaling_of (sr .& (BITMASK 16 - ccr_mask)) = scaling_of sr.
Proof. unfold scaling_of. rewrite Z.shiftr_land, <- Z.land_assoc. done. Qed.

(** Two adjacent bits are equal when the two-bit field is 0 or 3. *)
Lemma two_bits v k : 0 <= k ->
  (v .& (3 ≪ k) =? 0) || (v .& (3 ≪ k) =? 3 ≪ k) = Bool.eqb (Z.testbit v (k + 1)) (Z.testbit v k).
Proof.
  intros Hk. assert (E : v .& (3 ≪ k) = ((v ≫ k) .& 3) ≪ k).
  { rewrite Z.shiftl_land, Z.shiftl_mul_pow2 by lia. apply Z.bits_inj'. intros i Hi.
    rewrite !Z.land_spec, <- Z.shiftl_mul_pow2, !Z.shiftl_spec by lia.
    destruct (Z.ltb_spec i k); [rewrite !(Z.testbit_neg_r _ (i - k)) by lia; btauto |].
    rewrite Z.shiftr_spec by lia. by replace (i - k + k) with i by lia. }
  rewrite E. rewrite !Z.shiftl_mul_pow2 by lia. change 3 with (BITMASK 2). rewrite land_BITMASK by lia.
  rewrite !Z.testbit_eqb, Z.pow_add_r, <- Z.div_div, shiftr_div by (try apply Z.pow_nonzero; lia).
  set (q := v / 2 ^ k). clearbody q. assert (0 < 2 ^ k) by (apply Z.pow_pos_nonneg; lia).
  change (BITMASK 2) with 3. change (2 ^ 1) with 2. change (2 ^ 2) with 4.
  assert (Hq : q mod 4 = 2 * ((q / 2) mod 2) + q mod 2) by (Z.div_mod_to_equations; lia).
  destruct (bit_cases q) as [E0 | E0], (bit_cases (q / 2)) as [E1 | E1]; rewrite E0, E1 in *; rewrite Hq;
    zcases; try reflexivity; nia.
Qed.

Lemma val56_div a k : acc_ok a -> 21 <= k <= 24 ->
  val56 a / 2 ^ (24 + k) = dest0 a * 2 ^ (24 - k) + dest1 a / 2 ^ k.
Proof.
  intros [H0 H1 H2] Hk. unfold val56, in_u in *.
  rewrite Z.pow_add_r, <- Z.div_div by (try apply Z.pow_nonzero; lia).
  replace (dest0 a * 2 ^ 48 + dest1 a * 2 ^ 24 + dest2 a) with (dest2 a + (dest0 a * 2 ^ 24 + dest1 a) * 2 ^ 24) by lia.
  rewrite Z.div_add, (Z.div_small (dest2 a)) by lia.
  replace (2 ^ 24) with (2 ^ (24 - k) * 2 ^ k) at 1 by (rewrite <- Z.pow_add_r by lia; f_equal; lia).
  rewrite Z.mul_assoc, Z.add_0_l, Z.add_comm, Z.div_add by (apply Z.pow_nonzero; lia). lia.
Qed.

Lemma val56_testbit a k : acc_ok a -> 0 <= k < 24 -> Z.testbit (val56 a) (24 + k) = Z.testbit (dest1 a) k.
Proof.
  intros [H0 H1 H2] Hk. unfold val56, in_u in *.
  replace (dest0 a * 2 ^ 48 + dest1 a * 2 ^ 24 + dest2 a) with (dest2 a + (dest1 a + dest0 a * 2 ^ 24) * 2 ^ 24) by lia.
  rewrite <- !lor_shiftl_add, Z.lor_spec, Z.shiftl_spec, (testbit_small 24) by (done || lia).
  replace (24 + k - 24) with k by lia. by rewrite Z.lor_spec, Z.shiftl_spec, (Z.testbit_neg_r (dest0 a)), orb_false_r by lia.
Qed.

(** Whether the result needs its extension byte, and whether it is normalised. *)
Definition in_extension (sr : Z) (a : acc) : bool :=
  let b := 47 + scaling_shift sr in negb ((- 2 ^ b <=? sval56 a) && (sval56 a <? 2 ^ b)).
Definition unnormalised (sr : Z) (a : acc) : bool :=
  let b := 47 + scaling_shift sr in Bool.eqb (Z.testbit (val56 a) b) (Z.testbit (val56 a) (b - 1)).

(** The words the three scaling modes look at, as bits of the accumulator. *)
Lemma ccr_words a : acc_ok a ->
  u32 (u32 (dest0 a ≪ 1) + (dest1 a ≫ 23)) = val56 a / 2 ^ 47 /\
  u32 (u32 (dest0 a ≪ 2) + (dest1 a ≫ 22)) = val56 a / 2 ^ 46 /\
  dest0 a = val56 a / 2 ^ 48.
Proof.
  intros Ha. pose proof (val56_div a 22 Ha) as E22. pose proof (val56_div a 23 Ha) as E23.
  pose proof (val56_div a 24 Ha) as E24. cbn [Z.add Z.sub] in *. destruct Ha as [H0 H1 H2]. unfold in_u in *.
  rewrite !shiftr_div, !Z.shiftl_mul_pow2 by lia.
  change (24 + 22) with 46 in *. change (24 + 23) with 47 in *. change (24 + 24) with 48 in *.
  rewrite E22, E23, E24 by lia. repeat split; divmod_lia.
Qed.

Ltac bit_value :=
  match goal with |- (if ?x then _ else _) = b2z ?y ≪ _ => change y with x; destruct x end.

Lemma ccr_e_u_spec sr a : acc_ok a -> scaling_of sr <> 3 ->
  ccr_e_u (scaling_of sr) (dest0 a) (dest1 a) =
  Some (b2z (in_extension sr a) ≪ DSP_SR_E .| b2z (unnormalised sr a) ≪ DSP_SR_U).
Proof.
  intros Ha Hs. assert (Hsc : scaling_of sr = 0 \/ scaling_of sr = 1 \/ scaling_of sr = 2).
  { unfold scaling_of in *. rewrite land_BITMASK in * by lia. change (2 ^ 2) with 4 in *.
    pose proof (Z.mod_pos_bound (sr ≫ DSP_SR_S0) 4). lia. }
  assert (He : forall b, 45 <= b <= 48 ->
    negb (val56 a / 2 ^ b =? 0) && negb (val56 a / 2 ^ b =? 2 ^ (56 - b) - 1) =
    negb ((- 2 ^ b <=? sval56 a) && (sval56 a <? 2 ^ b))).
  { intros b Hb. pose proof (top_bits_agree a b Ha ltac:(lia)). zb. }
  destruct (ccr_words a Ha) as (W47 & W46 & W48).
  unfold in_extension, unnormalised, scaling_shift.
  destruct Hsc as [-> | [-> | ->]]; cbn [ccr_e_u]; rewrite <- He by lia; f_equal; f_equal.
  - rewrite W47. by bit_value.
  - change 0xc00000 with (3 ≪ 22). rewrite two_bits by lia.
    rewrite <- !(val56_testbit a) by (done || lia). by bit_value.
  - rewrite W48. by bit_value.
  - rewrite W47, <- shiftr_div by lia. pose proof (two_bits (val56 a ≫ 47) 0) as T.
    change (3 ≪ 0) with 3 in T. rewrite T by lia. rewrite !Z.shiftr_spec by lia. by bit_value.
  - rewrite W46. by bit_value.
  - change 0x600000 with (3 ≪ 21). rewrite two_bits by lia.
    rewrite <- !(val56_testbit a) by (done || lia). by bit_value.
Qed.

Lemma sign_nibble a : acc_ok a -> (dest0 a ≫ 4) .& 0x8 = b2z (sval56 a <? 0) ≪ DSP_SR_N.
Proof.
  intros Ha. pose proof (sign_bit a Ha) as Hs. destruct Ha as [H0 _ _].
  rewrite <- land_1, <- shiftr_div in Hs by lia. transitivity (((dest0 a ≫ 7) .& 1) ≪ 3).
  - rewrite Z.shiftl_land. apply Z.bits_inj'. intros i Hi. change 0x8 with (1 ≪ 3).
    rewrite !Z.land_spec, (testbit_one_shift 3) by lia. rewrite Z.shiftl_spec, Z.shiftr_spec by lia.
    destruct (Z.eqb_spec i 3) as [-> | ?]; [| btauto]. by rewrite Z.shiftr_spec by lia.
  - rewrite Hs. by destruct (sval56 a <? 0).
Qed.

(** The flag bits of the status register after a result: [E], [U], [N] and [Z]
    are those of the accumulator, the other bits of the register are kept. *)
Lemma ccr_sr_spec sr a : acc_ok a -> scaling_of sr <> 3 ->
  ccr_sr sr (dest0 a) (dest1 a) (dest2 a) =
  with_eunz sr (in_extension sr a) (unnormalised sr a) (sval56 a <? 0) (val56 a =? 0).
Proof.
  intros Ha Hs. unfold ccr_sr, emu_ccr_update_e_u_n_z, clear_sr, or_sr. fold ccr_mask. regs.
  fold (scaling_of (sr .& (BITMASK 16 - ccr_mask))). rewrite scaling_clear, ccr_e_u_spec by done.
  replace ((dest1 a =? 0) && (dest2 a =? 0) && (dest0 a =? 0)) with (val56 a =? 0).
  2: { destruct Ha as [H0 H1 H2]. unfold val56, in_u in *. zcases. }
  rewrite sign_nibble by done. unfold with_eunz.
  destruct (val56 a =? 0); regs; rewrite <- !Z.lor_assoc; f_equal; f_equal; f_equal.
  - apply Z.lor_comm.
  - by rewrite Z.lor_0_r.
Qed.

(** ** The conditions *)

Lemma sr_bit_value sr i : 0 <= i -> (sr ≫ i) .& 1 = b2z (sr_bit sr i).
Proof.
  intros Hi. unfold sr_bit. rewrite land_1, shiftr_div, Z.testbit_eqb by lia.
  destruct (bit_cases (sr / 2 ^ i)) as [-> | ->]; done.
Qed.

Lemma sr_nbit_value sr i : 0 <= i -> Z.lnot (sr ≫ i) .& 1 = b2z (negb (sr_bit sr i)).
Proof.
  intros Hi. unfold sr_bit.
  change 1 with (Z.ones 1). apply Z.bits_inj'. intros j Hj.
  rewrite Z.land_spec, testbit_ones' by lia. destruct (Z.eqb_spec j 0) as [-> |].
  - rewrite Z.lnot_spec, Z.shiftr_spec by lia. rewrite Z.add_0_l. by destruct (Z.testbit sr i).
  - replace ((0 <=? j) && (j <? 1)) with false by zb. rewrite andb_false_r.
    symmetry. destruct (negb _); cbn [b2z]; [| by rewrite Z.bits_0].
    change 1 with (1 ≪ 0). rewrite testbit_one_shift by lia. zb.
Qed.

Lemma sr_masked sr i : 0 <= i -> sr .& (1 ≪ i) = b2z (sr_bit sr i) ≪ i.
Proof.
  intros Hi. unfold sr_bit. apply Z.bits_inj'. intros j Hj.
  rewrite Z.land_spec, testbit_one_shift by lia. destruct (Z.eqb_spec j i) as [-> | Hne].
  - rewrite andb_true_r. destruct (Z.testbit sr i); cbn [b2z]; [by rewrite testbit_one_shift, Z.eqb_refl by lia |].
    by rewrite Z.shiftl_0_l, Z.bits_0.
  - rewrite andb_false_r. destruct (Z.testbit sr i); cbn [b2z]; [rewrite testbit_one_shift by lia; zb |].
    by rewrite Z.shiftl_0_l, Z.bits_0.
Qed.

(** The sixteen conditions on the bits of the status register. *)
Definition cc_holds (sr cc_code : Z) : bool :=
  let b := sr_bit sr in
  let base := match cc_code mod 8 with
    | 0 => negb (b DSP_SR_C)
    | 1 => negb (xorb (b DSP_SR_N) (b DSP_SR_V))
    | 2 => negb (b DSP_SR_Z)
    | 3 => negb (b DSP_SR_N)
    | 4 => negb (b DSP_SR_Z || (negb (b DSP_SR_U) && negb (b DSP_SR_E)))
    | 5 => negb (b DSP_SR_E)
    | 6 => negb (b DSP_SR_L)
    | _ => negb (b DSP_SR_Z || xorb (b DSP_SR_N) (b DSP_SR_V))
    end in
  if cc_code <? 8 then base else negb base.

(** The sixteen values of a four-bit number. *)
Ltac enum16 x :=
  assert (x = 0 \/ x = 1 \/ x = 2 \/ x = 3 \/ x = 4 \/ x = 5 \/ x = 6 \/ x = 7 \/ x = 8 \/ x = 9 \/
    x = 10 \/ x = 11 \/ x = 12 \/ x = 13 \/ x = 14 \/ x = 15) as Henum by lia;
  repeat destruct Henum as [-> | Henum]; [.. | subst x].

Lemma calc_cc_spec c cc : in_u 4 cc -> emu_calc_cc c cc = cc_holds (reg c DSP_REG_SR) cc.
Proof.
  intros Hcc. unfold emu_calc_cc, cc_holds. rewrite !sr_bit_value, !sr_nbit_value, !sr_masked by lia.
  generalize (sr_bit (reg c DSP_REG_SR)). intros b.
  destruct (b DSP_SR_C), (b DSP_SR_V), (b DSP_SR_Z), (b DSP_SR_N), (b DSP_SR_U), (b DSP_SR_E), (b DSP_SR_L);
    unfold in_u in Hcc; enum16 cc; reflexivity.
Qed.
