(* ===== verification/DspAlu.v ===== *)
(** * The accumulator operations of the DSP (mcpx/apu/dsp/dsp_emu.c.inc)

    The functions of the table [opcodes_alu], one definition per family: the
    source has one function per choice of operands, which differ in nothing but
    the registers they name.  [alu_op] lists the operations with their operands
    and [opcodes_alu] is the table.  The theorems identify the operations with
    arithmetic on 56-bit integers, their flags included, and show that they keep
    every register in its width. *)

From stdpp Require Import base numbers list gmap strings.
From Stdlib Require Import ZArith Lia Btauto.
From S2P Require Import Prelude DspArith DspDecode DspCore DspAddr.

(** ** Operands *)

Inductive accum := A | B.
Inductive xyreg := X0 | X1 | Y0 | Y1.
Inductive source := SAcc (d : accum) | SX | SY | SReg (r : xyreg).

#[export] Instance accum_eq_dec : EqDecision accum.
Proof. solve_decision. Defined.
#[export] Instance xyreg_eq_dec : EqDecision xyreg.
Proof. solve_decision. Defined.
#[export] Instance source_eq_dec : EqDecision source.
Proof. solve_decision. Defined.

Definition R0 (d : accum) : Z := match d with A => DSP_REG_A0 | B => DSP_REG_B0 end.
Definition R1 (d : accum) : Z := match d with A => DSP_REG_A1 | B => DSP_REG_B1 end.
Definition R2 (d : accum) : Z := match d with A => DSP_REG_A2 | B => DSP_REG_B2 end.
Definition other (d : accum) : accum := match d with A => B | B => A end.
Definition xyn (r : xyreg) : Z :=
  match r with X0 => DSP_REG_X0 | X1 => DSP_REG_X1 | Y0 => DSP_REG_Y0 | Y1 => DSP_REG_Y1 end.

Definition load_acc (c : dsp_core) (d : accum) : acc := mkAcc (reg c (R2 d)) (reg c (R1 d)) (reg c (R0 d)).
Definition store_acc (c : dsp_core) (d : accum) (a : acc) : dsp_core :=
  set_reg (set_reg (set_reg c (R2 d) (dest0 a)) (R1 d) (dest1 a)) (R0 d) (dest2 a).

(** [source[0] = source[1] & (1<<23) ? 0xff : 0x0] *)
Definition ext24 (v : Z) : Z := if flag v (1 ≪ 23) then 0xff else 0x0.
Definition word48 (hi lo : Z) : acc := mkAcc (ext24 hi) hi lo.

Definition load_source (c : dsp_core) (s : source) : acc :=
  match s with
  | SAcc d => load_acc c d
  | SX => word48 (reg c DSP_REG_X1) (reg c DSP_REG_X0)
  | SY => word48 (reg c DSP_REG_Y1) (reg c DSP_REG_Y0)
  | SReg r => word48 (reg c (xyn r)) 0
  end.

Abbreviation SIGN_PLUS := false.
Abbreviation SIGN_MINUS := true.

(** ** Status bits *)

Definition ccr (c : dsp_core) (a : acc) : dsp_core := emu_ccr_update_e_u_n_z c (dest0 a) (dest1 a) (dest2 a).

(** The V and C bits of the status register replaced by those of [newsr]. *)
Definition set_vc (c : dsp_core) (newsr : Z) : dsp_core :=
  or_sr (clear_sr c ((1 ≪ DSP_SR_V) .| (1 ≪ DSP_SR_C))) newsr.

(** The N and Z bits of a 24-bit logical result in the middle word. *)
Definition logic_nz (c : dsp_core) (d : accum) : dsp_core :=
  let c := or_sr c (((reg c (R1 d) ≫ 23) .& 1) ≪ DSP_SR_N) in
  or_sr c (b2z (reg c (R1 d) =? 0) ≪ DSP_SR_Z).

(** ** Addition and subtraction *)

Definition most_negative (a : acc) : Z :=
  b2z ((dest2 a =? 0) && (dest1 a =? 0) && (dest0 a =? 0x80)).

Definition emu_abs (d : accum) (c : dsp_core) : dsp_core :=
  let dest := load_acc c d in
  let overflowed := most_negative dest in
  let dest := (dsp_abs56 dest).2 in
  let c := store_acc c d dest in
  let c := clear_sr c (1 ≪ DSP_SR_V) in
  let c := or_sr c ((overflowed ≪ DSP_SR_L) .| (overflowed ≪ DSP_SR_V)) in
  ccr c dest.

Definition emu_adc (s : source) (d : accum) (c : dsp_core) : dsp_core :=
  let curcarry := (reg c DSP_REG_SR ≫ DSP_SR_C) .& 1 in
  let '(newsr, dest) := dsp_add56 (load_source c s) (load_acc c d) in
  let '(newsr, dest) :=
    if negb (curcarry =? 0) then
      let '(sr, dest) := dsp_add56 (mkAcc 0 0 1) dest in (newsr .| sr, dest)
    else (newsr, dest) in
  set_vc (ccr (store_acc c d dest) dest) newsr.

Definition emu_add (s : source) (d : accum) (c : dsp_core) : dsp_core :=
  let '(newsr, dest) := dsp_add56 (load_source c s) (load_acc c d) in
  set_vc (ccr (store_acc c d dest) dest) newsr.

Definition emu_addl (d : accum) (c : dsp_core) : outcome dsp_core :=
  '(newsr, dest) ← dsp_asl56 (load_acc c d) 1;
  let '(sr, dest) := dsp_add56 (load_acc c (other d)) dest in
  let newsr := newsr .| sr in
  Ok (set_vc (ccr (store_acc c d dest) dest) newsr).

Definition emu_addr (d : accum) (c : dsp_core) : outcome dsp_core :=
  '(newsr, dest) ← dsp_asr56 (load_acc c d) 1;
  let '(sr, dest) := dsp_add56 (load_acc c (other d)) dest in
  let newsr := newsr .| sr in
  Ok (set_vc (ccr (store_acc c d dest) dest) newsr).

Definition emu_sbc (s : source) (d : accum) (c : dsp_core) : dsp_core :=
  let curcarry := (reg c DSP_REG_SR ≫ DSP_SR_C) .& 1 in
  let '(newsr, dest) := dsp_sub56 (load_source c s) (load_acc c d) in
  let '(newsr, dest) :=
    if negb (curcarry =? 0) then
      let '(sr, dest) := dsp_sub56 (mkAcc 0 0 1) dest in (newsr .| sr, dest)
    else (newsr, dest) in
  set_vc (ccr (store_acc c d dest) dest) newsr.

Definition emu_sub (s : source) (d : accum) (c : dsp_core) : dsp_core :=
  let '(newsr, dest) := dsp_sub56 (load_source c s) (load_acc c d) in
  set_vc (ccr (store_acc c d dest) dest) newsr.

Definition emu_subl (d : accum) (c : dsp_core) : outcome dsp_core :=
  '(newsr, dest) ← dsp_asl56 (load_acc c d) 1;
  let '(sr, dest) := dsp_sub56 (load_acc c (other d)) dest in
  let newsr := newsr .| sr in
  Ok (set_vc (ccr (store_acc c d dest) dest) newsr).

Definition emu_subr (d : accum) (c : dsp_core) : outcome dsp_core :=
  '(newsr, dest) ← dsp_asr56 (load_acc c d) 1;
  let '(sr, dest) := dsp_sub56 (load_acc c (other d)) dest in
  let newsr := newsr .| sr in
  Ok (set_vc (ccr (store_acc c d dest) dest) newsr).

Definition emu_neg (d : accum) (c : dsp_core) : dsp_core :=
  let source := load_acc c d in
  let overflowed := most_negative source in
  let dest := (dsp_sub56 source zerodest).2 in
  let c := store_acc c d dest in
  let c := clear_sr c (1 ≪ DSP_SR_V) in
  let c := or_sr c ((overflowed ≪ DSP_SR_L) .| (overflowed ≪ DSP_SR_V)) in
  ccr c dest.

(** ** Comparison *)

Definition emu_cmp (s : source) (d : accum) (c : dsp_core) : dsp_core :=
  let '(newsr, dest) := dsp_sub56 (load_source c s) (load_acc c d) in
  set_vc (ccr c dest) newsr.

Definition emu_cmpm (s : source) (d : accum) (c : dsp_core) : dsp_core :=
  let dest := (dsp_abs56 (load_acc c d)).2 in
  let source := (dsp_abs56 (load_source c s)).2 in
  let '(newsr, dest) := dsp_sub56 source dest in
  set_vc (ccr c dest) newsr.

Definition emu_tst (d : accum) (c : dsp_core) : dsp_core :=
  clear_sr (ccr c (load_acc c d)) (1 ≪ DSP_SR_V).

Definition emu_max (c : dsp_core) : dsp_core :=
  let dest := (dsp_sub56 (load_acc c B) (load_acc c A)).2 in
  let pass := flag (dest0 dest) (1 ≪ 7) || ((dest0 dest =? 0) && (dest1 dest =? 0) && (dest2 dest =? 0)) in
  let c :=
    if pass then
      let c := set_reg c DSP_REG_B0 (reg c DSP_REG_A2) in
      let c := set_reg c DSP_REG_B1 (reg c DSP_REG_A1) in
      set_reg c DSP_REG_B2 (reg c DSP_REG_A0)
    else c in
  or_sr (clear_sr c (1 ≪ DSP_SR_C)) (b2z pass ≪ DSP_SR_C).

(** ** Shifts, logic and transfers *)

Definition emu_asl (d : accum) (c : dsp_core) : outcome dsp_core :=
  '(newsr, dest) ← dsp_asl56 (load_acc c d) 1;
  let c := store_acc c d dest in
  Ok (ccr (or_sr (clear_sr c ((1 ≪ DSP_SR_C) .| (1 ≪ DSP_SR_V))) newsr) dest).

Definition emu_asr (d : accum) (c : dsp_core) : outcome dsp_core :=
  '(newsr, dest) ← dsp_asr56 (load_acc c d) 1;
  let c := store_acc c d dest in
  Ok (ccr (or_sr (clear_sr c ((1 ≪ DSP_SR_C) .| (1 ≪ DSP_SR_V))) newsr) dest).

Definition emu_clr (d : accum) (c : dsp_core) : dsp_core :=
  let c := store_acc c d (mkAcc 0 0 0) in
  let c := clear_sr c ((1 ≪ DSP_SR_E) .| (1 ≪ DSP_SR_N) .| (1 ≪ DSP_SR_V)) in
  or_sr c ((1 ≪ DSP_SR_U) .| (1 ≪ DSP_SR_Z)).

Definition emu_and (r : xyreg) (d : accum) (c : dsp_core) : dsp_core :=
  let c := set_reg c (R1 d) (reg c (R1 d) .& reg c (xyn r)) in
  let c := clear_sr c ((1 ≪ DSP_SR_N) .| (1 ≪ DSP_SR_Z) .| (1 ≪ DSP_SR_V)) in
  logic_nz c d.

Definition emu_eor (r : xyreg) (d : accum) (c : dsp_core) : dsp_core :=
  let c := set_reg c (R1 d) (reg c (R1 d) .^ reg c (xyn r)) in
  let c := set_reg c (R1 d) (reg c (R1 d) .& BITMASK 24) in
  let c := clear_sr c ((1 ≪ DSP_SR_N) .| (1 ≪ DSP_SR_Z) .| (1 ≪ DSP_SR_V)) in
  logic_nz c d.

Definition emu_or (r : xyreg) (d : accum) (c : dsp_core) : dsp_core :=
  let c := set_reg c (R1 d) (reg c (R1 d) .| reg c (xyn r)) in
  let c := set_reg c (R1 d) (reg c (R1 d) .& BITMASK 24) in
  let c := clear_sr c ((1 ≪ DSP_SR_N) .| (1 ≪ DSP_SR_Z) .| (1 ≪ DSP_SR_V)) in
  logic_nz c d.

Definition emu_not (d : accum) (c : dsp_core) : dsp_core :=
  let c := set_reg c (R1 d) (u32 (Z.lnot (reg c (R1 d)))) in
  let c := set_reg c (R1 d) (reg c (R1 d) .& BITMASK 24) in
  let c := clear_sr c ((1 ≪ DSP_SR_N) .| (1 ≪ DSP_SR_Z) .| (1 ≪ DSP_SR_V)) in
  logic_nz c d.

Definition clear_shift (c : dsp_core) : dsp_core :=
  clear_sr c ((1 ≪ DSP_SR_C) .| (1 ≪ DSP_SR_N) .| (1 ≪ DSP_SR_Z) .| (1 ≪ DSP_SR_V)).

Definition emu_lsl (d : accum) (c : dsp_core) : dsp_core :=
  let newcarry := (reg c (R1 d) ≫ 23) .& 1 in
  let c := set_reg c (R1 d) (u32 (reg c (R1 d) ≪ 1)) in
  let c := set_reg c (R1 d) (reg c (R1 d) .& BITMASK 24) in
  logic_nz (or_sr (clear_shift c) newcarry) d.

Definition emu_lsr (d : accum) (c : dsp_core) : dsp_core :=
  let newcarry := reg c (R1 d) .& 1 in
  let c := set_reg c (R1 d) (reg c (R1 d) ≫ 1) in
  let c := or_sr (clear_shift c) newcarry in
  or_sr c (b2z (reg c (R1 d) =? 0) ≪ DSP_SR_Z).

Definition emu_rol (d : accum) (c : dsp_core) : dsp_core :=
  let newcarry := (reg c (R1 d) ≫ 23) .& 1 in
  let c := set_reg c (R1 d) (u32 (reg c (R1 d) ≪ 1)) in
  let c := set_reg c (R1 d) (reg c (R1 d) .| newcarry) in
  let c := set_reg c (R1 d) (reg c (R1 d) .& BITMASK 24) in
  logic_nz (or_sr (clear_shift c) newcarry) d.

Definition emu_ror (d : accum) (c : dsp_core) : dsp_core :=
  let newcarry := reg c (R1 d) .& 1 in
  let c := set_reg c (R1 d) (reg c (R1 d) ≫ 1) in
  let c := set_reg c (R1 d) (reg c (R1 d) .| (newcarry ≪ 23)) in
  let c := or_sr (clear_shift c) newcarry in
  let c := or_sr c (newcarry ≪ DSP_SR_N) in
  or_sr c (b2z (reg c (R1 d) =? 0) ≪ DSP_SR_Z).

Definition emu_rnd (d : accum) (c : dsp_core) : dsp_core :=
  let dest := dsp_rnd56 (reg c DSP_REG_SR) (load_acc c d) in
  ccr (store_acc c d dest) dest.

(** From the other accumulator, or from a 24-bit register, sign-extended. *)
Definition emu_tfr (s : source) (d : accum) (c : dsp_core) : dsp_core :=
  match s with
  | SReg r =>
      let c := set_reg c (R0 d) 0 in
      let c := set_reg c (R1 d) (reg c (xyn r)) in
      set_reg c (R2 d) (ext24 (reg c (R1 d)))
  | _ =>
      let c := set_reg c (R0 d) (reg c (R0 (other d))) in
      let c := set_reg c (R1 d) (reg c (R1 (other d))) in
      set_reg c (R2 d) (reg c (R2 (other d)))
  end.

(** ** Multiplication *)

Definition emu_mpy (signe : bool) (r1 r2 : xyreg) (d : accum) (c : dsp_core) : outcome dsp_core :=
  source ← dsp_mul56 (reg c (xyn r1)) (reg c (xyn r2)) signe;
  Ok (clear_sr (ccr (store_acc c d source) source) (1 ≪ DSP_SR_V)).

Definition emu_mpyr (signe : bool) (r1 r2 : xyreg) (d : accum) (c : dsp_core) : outcome dsp_core :=
  source ← dsp_mul56 (reg c (xyn r1)) (reg c (xyn r2)) signe;
  let source := dsp_rnd56 (reg c DSP_REG_SR) source in
  Ok (clear_sr (ccr (store_acc c d source) source) (1 ≪ DSP_SR_V)).

Definition emu_mac (signe : bool) (r1 r2 : xyreg) (d : accum) (c : dsp_core) : outcome dsp_core :=
  source ← dsp_mul56 (reg c (xyn r1)) (reg c (xyn r2)) signe;
  let '(newsr, dest) := dsp_add56 source (load_acc c d) in
  Ok (or_sr (clear_sr (ccr (store_acc c d dest) dest) (1 ≪ DSP_SR_V)) (newsr .& 0xfe)).

Definition emu_macr (signe : bool) (r1 r2 : xyreg) (d : accum) (c : dsp_core) : outcome dsp_core :=
  source ← dsp_mul56 (reg c (xyn r1)) (reg c (xyn r2)) signe;
  let '(newsr, dest) := dsp_add56 source (load_acc c d) in
  let dest := dsp_rnd56 (reg c DSP_REG_SR) dest in
  Ok (or_sr (clear_sr (ccr (store_acc c d dest) dest) (1 ≪ DSP_SR_V)) (newsr .& 0xfe)).

(** The one function of its family that rounds the array [dest] before it is
    loaded: what it rounds is overwritten, the sum itself is not rounded. *)
Definition emu_macr_p_x1_y0_b (c : dsp_core) : outcome dsp_core :=
  source ← dsp_mul56 (reg c DSP_REG_X1) (reg c DSP_REG_Y0) SIGN_PLUS;
  let '(newsr, dest) := dsp_add56 source (load_acc c B) in
  Ok (or_sr (clear_sr (ccr (store_acc c B dest) dest) (1 ≪ DSP_SR_V)) (newsr .& 0xfe)).

(** An operation the table does not have. *)
Definition emu_undefined (c : dsp_core) : outcome dsp_core :=
  let c := c <| cur_inst_len := 0 |> in
  let c := c <| instr_cycle := u16 (instr_cycle c + 100) |> in
  c_assert (negb (exception_debugging c)) ;; Ok c.

(** ** The table *)

Inductive alu_op :=
  | MOVE | UNDEFINED | MAX
  | TFR (s : source) (d : accum) | ADD (s : source) (d : accum) | SUB (s : source) (d : accum)
  | CMP (s : source) (d : accum) | CMPM (s : source) (d : accum)
  | ADC (s : source) (d : accum) | SBC (s : source) (d : accum)
  | ADDL (d : accum) | ADDR (d : accum) | SUBL (d : accum) | SUBR (d : accum)
  | TST (d : accum) | RND (d : accum) | CLR (d : accum) | NOT (d : accum) | ABS (d : accum) | NEG (d : accum)
  | ASR (d : accum) | ASL (d : accum) | LSR (d : accum) | LSL (d : accum) | ROR (d : accum) | ROL (d : accum)
  | AND (r : xyreg) (d : accum) | OR (r : xyreg) (d : accum) | EOR (r : xyreg) (d : accum)
  | MPY (signe : bool) (r1 r2 : xyreg) (d : accum) | MPYR (signe : bool) (r1 r2 : xyreg) (d : accum)
  | MAC (signe : bool) (r1 r2 : xyreg) (d : accum) | MACR (signe : bool) (r1 r2 : xyreg) (d : accum).

#[export] Instance alu_op_eq_dec : EqDecision alu_op.
Proof. solve_decision. Defined.

Definition run_alu (op : alu_op) (c : dsp_core) : outcome dsp_core :=
  match op with
  | MOVE => Ok c
  | UNDEFINED => emu_undefined c
  | MAX => Ok (emu_max c)
  | TFR s d => Ok (emu_tfr s d c)
  | ADD s d => Ok (emu_add s d c)
  | SUB s d => Ok (emu_sub s d c)
  | CMP s d => Ok (emu_cmp s d c)
  | CMPM s d => Ok (emu_cmpm s d c)
  | ADC s d => Ok (emu_adc s d c)
  | SBC s d => Ok (emu_sbc s d c)
  | ADDL d => emu_addl d c
  | ADDR d => emu_addr d c
  | SUBL d => emu_subl d c
  | SUBR d => emu_subr d c
  | TST d => Ok (emu_tst d c)
  | RND d => Ok (emu_rnd d c)
  | CLR d => Ok (emu_clr d c)
  | NOT d => Ok (emu_not d c)
  | ABS d => Ok (emu_abs d c)
  | NEG d => Ok (emu_neg d c)
  | ASR d => emu_asr d c
  | ASL d => emu_asl d c
  | LSR d => Ok (emu_lsr d c)
  | LSL d => Ok (emu_lsl d c)
  | ROR d => Ok (emu_ror d c)
  | ROL d => Ok (emu_rol d c)
  | AND r d => Ok (emu_and r d c)
  | OR r d => Ok (emu_or r d c)
  | EOR r d => Ok (emu_eor r d c)
  | MPY signe r1 r2 d => emu_mpy signe r1 r2 d c
  | MPYR signe r1 r2 d => emu_mpyr signe r1 r2 d c
  | MAC signe r1 r2 d => emu_mac signe r1 r2 d c
  | MACR SIGN_PLUS X1 Y0 B => emu_macr_p_x1_y0_b c
  | MACR signe r1 r2 d => emu_macr signe r1 r2 d c
  end.

Definition opcodes_alu : list alu_op := [
  MOVE; TFR (SAcc B) A; ADDR A; TST A; UNDEFINED; CMP (SAcc B) A; SUBR A; CMPM (SAcc B) A; UNDEFINED;
  TFR (SAcc A) B; ADDR B; TST B; UNDEFINED; CMP (SAcc A) B; SUBR B; CMPM (SAcc A) B; ADD (SAcc B) A; RND A;
  ADDL A; CLR A; SUB (SAcc B) A; UNDEFINED; SUBL A; NOT A; ADD (SAcc A) B; RND B; ADDL B; CLR B;
  SUB (SAcc A) B; MAX; SUBL B; NOT B; ADD SX A; ADC SX A; ASR A; LSR A; SUB SX A; SBC SX A; ABS A; ROR A;
  ADD SX B; ADC SX B; ASR B; LSR B; SUB SX B; SBC SX B; ABS B; ROR B; ADD SY A; ADC SY A; ASL A; LSL A;
  SUB SY A; SBC SY A; NEG A; ROL A; ADD SY B; ADC SY B; ASL B; LSL B; SUB SY B; SBC SY B; NEG B; ROL B;
  ADD (SReg X0) A; TFR (SReg X0) A; OR X0 A; EOR X0 A; SUB (SReg X0) A; CMP (SReg X0) A; AND X0 A;
  CMPM (SReg X0) A; ADD (SReg X0) B; TFR (SReg X0) B; OR X0 B; EOR X0 B; SUB (SReg X0) B; CMP (SReg X0) B;
  AND X0 B; CMPM (SReg X0) B; ADD (SReg Y0) A; TFR (SReg Y0) A; OR Y0 A; EOR Y0 A; SUB (SReg Y0) A;
  CMP (SReg Y0) A; AND Y0 A; CMPM (SReg Y0) A; ADD (SReg Y0) B; TFR (SReg Y0) B; OR Y0 B; EOR Y0 B;
  SUB (SReg Y0) B; CMP (SReg Y0) B; AND Y0 B; CMPM (SReg Y0) B; ADD (SReg X1) A; TFR (SReg X1) A; OR X1 A;
  EOR X1 A; SUB (SReg X1) A; CMP (SReg X1) A; AND X1 A; CMPM (SReg X1) A; ADD (SReg X1) B; TFR (SReg X1) B;
  OR X1 B; EOR X1 B; SUB (SReg X1) B; CMP (SReg X1) B; AND X1 B; CMPM (SReg X1) B; ADD (SReg Y1) A;
  TFR (SReg Y1) A; OR Y1 A; EOR Y1 A; SUB (SReg Y1) A; CMP (SReg Y1) A; AND Y1 A; CMPM (SReg Y1) A;
  ADD (SReg Y1) B; TFR (SReg Y1) B; OR Y1 B; EOR Y1 B; SUB (SReg Y1) B; CMP (SReg Y1) B; AND Y1 B;
  CMPM (SReg Y1) B; MPY SIGN_PLUS X0 X0 A; MPYR SIGN_PLUS X0 X0 A; MAC SIGN_PLUS X0 X0 A;
  MACR SIGN_PLUS X0 X0 A; MPY SIGN_MINUS X0 X0 A; MPYR SIGN_MINUS X0 X0 A; MAC SIGN_MINUS X0 X0 A;
  MACR SIGN_MINUS X0 X0 A; MPY SIGN_PLUS X0 X0 B; MPYR SIGN_PLUS X0 X0 B; MAC SIGN_PLUS X0 X0 B;
  MACR SIGN_PLUS X0 X0 B; MPY SIGN_MINUS X0 X0 B; MPYR SIGN_MINUS X0 X0 B; MAC SIGN_MINUS X0 X0 B;
  MACR SIGN_MINUS X0 X0 B; MPY SIGN_PLUS Y0 Y0 A; MPYR SIGN_PLUS Y0 Y0 A; MAC SIGN_PLUS Y0 Y0 A;
  MACR SIGN_PLUS Y0 Y0 A; MPY SIGN_MINUS Y0 Y0 A; MPYR SIGN_MINUS Y0 Y0 A; MAC SIGN_MINUS Y0 Y0 A;
  MACR SIGN_MINUS Y0 Y0 A; MPY SIGN_PLUS Y0 Y0 B; MPYR SIGN_PLUS Y0 Y0 B; MAC SIGN_PLUS Y0 Y0 B;
  MACR SIGN_PLUS Y0 Y0 B; MPY SIGN_MINUS Y0 Y0 B; MPYR SIGN_MINUS Y0 Y0 B; MAC SIGN_MINUS Y0 Y0 B;
  MACR SIGN_MINUS Y0 Y0 B; MPY SIGN_PLUS X1 X0 A; MPYR SIGN_PLUS X1 X0 A; MAC SIGN_PLUS X1 X0 A;
  MACR SIGN_PLUS X1 X0 A; MPY SIGN_MINUS X1 X0 A; MPYR SIGN_MINUS X1 X0 A; MAC SIGN_MINUS X1 X0 A;
  MACR SIGN_MINUS X1 X0 A; MPY SIGN_PLUS X1 X0 B; MPYR SIGN_PLUS X1 X0 B; MAC SIGN_PLUS X1 X0 B;
  MACR SIGN_PLUS X1 X0 B; MPY SIGN_MINUS X1 X0 B; MPYR SIGN_MINUS X1 X0 B; MAC SIGN_MINUS X1 X0 B;
  MACR SIGN_MINUS X1 X0 B; MPY SIGN_PLUS Y1 Y0 A; MPYR SIGN_PLUS Y1 Y0 A; MAC SIGN_PLUS Y1 Y0 A;
  MACR SIGN_PLUS Y1 Y0 A; MPY SIGN_MINUS Y1 Y0 A; MPYR SIGN_MINUS Y1 Y0 A; MAC SIGN_MINUS Y1 Y0 A;
  MACR SIGN_MINUS Y1 Y0 A; MPY SIGN_PLUS Y1 Y0 B; MPYR SIGN_PLUS Y1 Y0 B; MAC SIGN_PLUS Y1 Y0 B;
  MACR SIGN_PLUS Y1 Y0 B; MPY SIGN_MINUS Y1 Y0 B; MPYR SIGN_MINUS Y1 Y0 B; MAC SIGN_MINUS Y1 Y0 B;
  MACR SIGN_MINUS Y1 Y0 B; MPY SIGN_PLUS X0 Y1 A; MPYR SIGN_PLUS X0 Y1 A; MAC SIGN_PLUS X0 Y1 A;
  MACR SIGN_PLUS X0 Y1 A; MPY SIGN_MINUS X0 Y1 A; MPYR SIGN_MINUS X0 Y1 A; MAC SIGN_MINUS X0 Y1 A;
  MACR SIGN_MINUS X0 Y1 A; MPY SIGN_PLUS X0 Y1 B; MPYR SIGN_PLUS X0 Y1 B; MAC SIGN_PLUS X0 Y1 B;
  MACR SIGN_PLUS X0 Y1 B; MPY SIGN_MINUS X0 Y1 B; MPYR SIGN_MINUS X0 Y1 B; MAC SIGN_MINUS X0 Y1 B;
  MACR SIGN_MINUS X0 Y1 B; MPY SIGN_PLUS Y0 X0 A; MPYR SIGN_PLUS Y0 X0 A; MAC SIGN_PLUS Y0 X0 A;
  MACR SIGN_PLUS Y0 X0 A; MPY SIGN_MINUS Y0 X0 A; MPYR SIGN_MINUS Y0 X0 A; MAC SIGN_MINUS Y0 X0 A;
  MACR SIGN_MINUS Y0 X0 A; MPY SIGN_PLUS Y0 X0 B; MPYR SIGN_PLUS Y0 X0 B; MAC SIGN_PLUS Y0 X0 B;
  MACR SIGN_PLUS Y0 X0 B; MPY SIGN_MINUS Y0 X0 B; MPYR SIGN_MINUS Y0 X0 B; MAC SIGN_MINUS Y0 X0 B;
  MACR SIGN_MINUS Y0 X0 B; MPY SIGN_PLUS X1 Y0 A; MPYR SIGN_PLUS X1 Y0 A; MAC SIGN_PLUS X1 Y0 A;
  MACR SIGN_PLUS X1 Y0 A; MPY SIGN_MINUS X1 Y0 A; MPYR SIGN_MINUS X1 Y0 A; MAC SIGN_MINUS X1 Y0 A;
  MACR SIGN_MINUS X1 Y0 A; MPY SIGN_PLUS X1 Y0 B; MPYR SIGN_PLUS X1 Y0 B; MAC SIGN_PLUS X1 Y0 B;
  MACR SIGN_PLUS X1 Y0 B; MPY SIGN_MINUS X1 Y0 B; MPYR SIGN_MINUS X1 Y0 B; MAC SIGN_MINUS X1 Y0 B;
  MACR SIGN_MINUS X1 Y0 B; MPY SIGN_PLUS Y1 X1 A; MPYR SIGN_PLUS Y1 X1 A; MAC SIGN_PLUS Y1 X1 A;
  MACR SIGN_PLUS Y1 X1 A; MPY SIGN_MINUS Y1 X1 A; MPYR SIGN_MINUS Y1 X1 A; MAC SIGN_MINUS Y1 X1 A;
  MACR SIGN_MINUS Y1 X1 A; MPY SIGN_PLUS Y1 X1 B; MPYR SIGN_PLUS Y1 X1 B; MAC SIGN_PLUS Y1 X1 B;
  MACR SIGN_PLUS Y1 X1 B; MPY SIGN_MINUS Y1 X1 B; MPYR SIGN_MINUS Y1 X1 B; MAC SIGN_MINUS Y1 X1 B;
  MACR SIGN_MINUS Y1 X1 B
].

(** [opcodes_alu[dsp->cur_inst & BITMASK(8)](dsp)] *)
Definition parallel_alu (c : dsp_core) : outcome dsp_core :=
  op ← rd opcodes_alu (cur_inst c .& BITMASK 8);
  run_alu op c.

(** ** The flag words of the accumulator routines *)

Definition vc_flags (l v c : bool) : Z := (b2z l ≪ DSP_SR_L) .| (b2z v ≪ DSP_SR_V) .| (b2z c ≪ DSP_SR_C).

Lemma add56_vc s d : exists o c, (dsp_add56 s d).1 = vc_flags o o c.
Proof.
  unfold dsp_add56. cbn zeta. cbn [fst dest0]. rewrite !land_1.
  repeat match goal with |- context [?x mod 2] => destruct (bit_cases x) as [-> | ->] end;
    first [by exists false, false | by exists false, true | by exists true, false | by exists true, true].
Qed.

Lemma sub56_vc s d : exists o c, (dsp_sub56 s d).1 = vc_flags o o c.
Proof.
  unfold dsp_sub56. cbn zeta. cbn [fst dest0]. rewrite !land_1.
  repeat match goal with |- context [?x mod 2] => destruct (bit_cases x) as [-> | ->] end;
    first [by exists false, false | by exists false, true | by exists true, false | by exists true, true].
Qed.

Lemma vc_flags_bits l v c :
  sr_bit (vc_flags l v c) DSP_SR_C = c /\ sr_bit (vc_flags l v c) DSP_SR_V = v /\
  sr_bit (vc_flags l v c) DSP_SR_L = l.
Proof. by destruct l, v, c. Qed.

(** Addition and subtraction as one rewriting step. *)
Lemma add56_spec s d : acc_ok s -> acc_ok d ->
  exists r, dsp_add56 s d =
    (let o := overflows (sval56 d + sval56 s) in vc_flags o o (2 ^ 56 <=? val56 d + val56 s), r) /\
    acc_ok r /\ val56 r = (val56 d + val56 s) mod 2 ^ 56.
Proof.
  intros Hs Hd. pose proof (add56_val s d Hs Hd) as [Hr Hv]. pose proof (add56_flags s d Hs Hd) as (C & V & _).
  destruct (add56_vc s d) as (o & c & E). rewrite E in C, V.
  destruct (vc_flags_bits o o c) as (C' & V' & _). destruct (dsp_add56 s d) as [sr r]. cbn [fst snd] in *.
  exists r. rewrite <- C, <- V, C', V', E. done.
Qed.

Lemma sub56_spec s d : acc_ok s -> acc_ok d ->
  exists r, dsp_sub56 s d =
    (let o := overflows (sval56 d - sval56 s) in vc_flags o o (val56 d <? val56 s), r) /\
    acc_ok r /\ val56 r = (val56 d - val56 s) mod 2 ^ 56.
Proof.
  intros Hs Hd. pose proof (sub56_val s d Hs Hd) as [Hr Hv]. pose proof (sub56_flags s d Hs Hd) as (C & V & _).
  destruct (sub56_vc s d) as (o & c & E). rewrite E in C, V.
  destruct (vc_flags_bits o o c) as (C' & V' & _). destruct (dsp_sub56 s d) as [sr r]. cbn [fst snd] in *.
  exists r. rewrite <- C, <- V, C', V', E. done.
Qed.

Lemma sval56_mod a : acc_ok a -> sval56 a mod 2 ^ 56 = val56 a.
Proof.
  intros Ha. rewrite (sval56_val a Ha). pose proof (val56_bounds a Ha).
  destruct (sval56 a <? 0); [rewrite <- (Z_mod_plus_full _ 1) |]; rewrite Z.mod_small; lia.
Qed.

Lemma ok_pair_inj {X Y} (x x' : X) (y y' : Y) : Ok (x, y) = Ok (x', y') -> x = x' /\ y = y'.
Proof. by intros [= -> ->]. Qed.

(** The left shift by one: the carry is the sign, the overflow bit tells whether
    the sign changed, and the limit bit is set for every negative operand. *)
Lemma asl56_spec a : acc_ok a ->
  exists r, dsp_asl56 a 1 =
    Ok (vc_flags (sval56 a <? 0) (overflows (2 * sval56 a)) (sval56 a <? 0), r) /\
    acc_ok r /\ val56 r = (2 * sval56 a) mod 2 ^ 56.
Proof.
  intros Ha. destruct (asl56_val a 1 Ha ltac:(lia)) as (sr & r & E & Hr & Hv). exists r.
  assert (Hv' : val56 r = (2 * sval56 a) mod 2 ^ 56)
    by (rewrite Hv, <- (sval56_mod a Ha), Zmult_mod_idemp_l; f_equal; lia).
  split; [| done]. rewrite E. do 2 f_equal.
  unfold dsp_asl56 in E. change (negb (shift_ok (56 - 1) && shift_ok 1)) with false in E.
  apply ok_pair_inj in E as [<- _]. clear Hv Hv'. rewrite !land_1, dest_v_val in * by done. pose proof (val56_bounds a Ha).
  pose proof (sval56_val a Ha). pose proof (sval56_bounds a Ha).
  rewrite !shiftr_div, (Z.shiftl_mul_pow2 (val56 a)) by lia. change (56 - 1) with 55. change (2 ^ 1) with 2.
  rewrite (Z.mod_small (val56 a * 2)) by lia.
  unfold overflows. destruct (Z.ltb_spec (sval56 a) 0).
  - replace (val56 a / 2 ^ 55) with 1 by divmod_lia.
    destruct (Z.ltb_spec (2 * sval56 a) (- 2 ^ 55)), (Z.leb_spec (2 ^ 55) (2 * sval56 a)); try lia.
    + by replace ((val56 a * 2 / 2 ^ 55) mod 2) with 0 by divmod_lia.
    + by replace ((val56 a * 2 / 2 ^ 55) mod 2) with 1 by divmod_lia.
  - replace (val56 a / 2 ^ 55) with 0 by divmod_lia.
    destruct (Z.ltb_spec (2 * sval56 a) (- 2 ^ 55)), (Z.leb_spec (2 ^ 55) (2 * sval56 a)); try lia.
    + by replace ((val56 a * 2 / 2 ^ 55) mod 2) with 1 by divmod_lia.
    + by replace ((val56 a * 2 / 2 ^ 55) mod 2) with 0 by divmod_lia.
Qed.

Lemma abs56_spec a : acc_ok a ->
  acc_ok (dsp_abs56 a).2 /\ val56 (dsp_abs56 a).2 = Z.abs (sval56 a) mod 2 ^ 56.
Proof.
  intros Ha. unfold dsp_abs56. pose proof (val56_bounds a Ha). pose proof (sval56_val a Ha).
  rewrite flag_bit, Z.testbit_eqb by lia. rewrite sign_bit by done.
  destruct (Z.ltb_spec (sval56 a) 0); cbn [Z.eqb Pos.eqb].
  - destruct (sub56_val a zerodest Ha zerodest_ok) as [Hr Hv]. split; [done |]. rewrite Hv.
    change (val56 zerodest) with 0. rewrite <- (sval56_mod a Ha), Zminus_mod_idemp_r. f_equal. lia.
  - cbn [snd]. split; [done |]. rewrite Z.abs_eq, sval56_mod by (done || lia). done.
Qed.

(** ** Register widths *)

(** The width of a register as the instructions keep it: that of
    [registers_mask], except that the address and offset registers and the loop
    counter, sixteen bits wide there, are given 24 ([emu_lua_rel] and the REP
    instructions with a memory operand store 24 bits in them). *)
Definition width (k : Z) : Z :=
  if (k =? DSP_REG_A2) || (k =? DSP_REG_B2) || (k =? DSP_REG_OMR) then 8
  else if k =? DSP_REG_SP then 6
  else if ((DSP_REG_M0 <=? k) && (k <? DSP_REG_M0 + 8)) || (k =? DSP_REG_SR) || (k =? DSP_REG_SSH)
          || (k =? DSP_REG_SSL) || (k =? DSP_REG_LA) then 16
  else 24.

Definition regs_fit (c : dsp_core) : Prop := forall k, in_u (width k) (reg c k).

Lemma regs_fit_set c k v : regs_fit c -> in_u (width k) v -> regs_fit (set_reg c k v).
Proof.
  intros Hc Hv k'. destruct (decide (k = k')) as [<- |]; [by rewrite reg_set_eq | by rewrite reg_set_ne].
Qed.

Lemma width_bounds k : 6 <= width k <= 24.
Proof. unfold width. repeat case_match; lia. Qed.

Lemma regs_fit_24 c k : regs_fit c -> in_u 24 (reg c k).
Proof. intros Hc. apply (in_u_mono (width k)); [apply width_bounds | apply Hc]. Qed.

Lemma in_u_0 w : 0 <= w -> in_u w 0.
Proof. intros. split; [lia |]. by apply Z.pow_pos_nonneg. Qed.

(** A reset establishes the widths. *)
Lemma regs_fit_reset c : regs_fit (dsp56k_reset_cpu c).
Proof.
  intros k. unfold reg. cbn [registers dsp56k_reset_cpu set foldl Z.add Pos.add Pos.succ]. cbn. rewrite !rget_rset.
  pose proof (width_bounds k).
  repeat case_decide; subst; try (split; vm_compute; congruence). apply in_u_0. lia.
Qed.

Lemma load_acc_ok c d : regs_fit c -> acc_ok (load_acc c d).
Proof. intros Hc. destruct d; split; apply Hc. Qed.

Lemma ext24_ok v : in_u 8 (ext24 v).
Proof. unfold ext24, in_u. destruct (flag _ _); lia. Qed.

Lemma word48_ok hi lo : in_u 24 hi -> in_u 24 lo -> acc_ok (word48 hi lo).
Proof. intros Hh Hl. split; [apply ext24_ok | done | done]. Qed.

Lemma load_source_ok c s : regs_fit c -> acc_ok (load_source c s).
Proof.
  intros Hc. destruct s as [d | | | r]; [by apply load_acc_ok | ..];
    apply word48_ok; try apply Hc; try (by apply in_u_0). destruct r; apply Hc.
Qed.

Lemma clear_sr_fit c m : regs_fit c -> regs_fit (clear_sr c m).
Proof. intros Hc. apply regs_fit_set; [done |]. apply in_u_land_l; [done |]. apply (Hc DSP_REG_SR). Qed.

Lemma or_sr_fit c v : regs_fit c -> in_u 16 v -> regs_fit (or_sr c v).
Proof. intros Hc Hv. apply regs_fit_set; [done |]. apply in_u_lor; [done | apply (Hc DSP_REG_SR) | done]. Qed.

Lemma b2z_shift_fit b i : 0 <= i < 16 -> in_u 16 (b2z b ≪ i).
Proof.
  intros Hi. destruct b; cbn [b2z]; [| rewrite Z.shiftl_0_l; by apply in_u_0].
  rewrite Z.shiftl_1_l. split; [apply Z.pow_nonneg; lia | apply Z.pow_lt_mono_r; lia].
Qed.

Lemma ccr_e_u_fit sc r0 r1 eu : ccr_e_u sc r0 r1 = Some eu -> in_u 16 eu.
Proof.
  unfold ccr_e_u. intros H.
  repeat match type of H with context [match ?x with _ => _ end] => destruct x end; try discriminate;
    injection H as <-; repeat case_match; split; vm_compute; congruence.
Qed.

Lemma ccr_fit c a : regs_fit c -> regs_fit (ccr c a).
Proof.
  intros Hc. unfold ccr, emu_ccr_update_e_u_n_z. destruct (ccr_e_u _ _ _) as [eu |] eqn:E.
  - apply ccr_e_u_fit in E. destruct (_ && _ && _); repeat apply or_sr_fit; try apply clear_sr_fit; try done;
      (apply in_u_land_r; [done | split; vm_compute; congruence]) || (split; vm_compute; congruence).
  - by apply clear_sr_fit.
Qed.

Lemma store_acc_fit c d a : regs_fit c -> acc_ok a -> regs_fit (store_acc c d a).
Proof. intros Hc [H0 H1 H2]. destruct d; repeat apply regs_fit_set; done. Qed.

Lemma set_vc_fit c v : regs_fit c -> in_u 16 v -> regs_fit (set_vc c v).
Proof. intros Hc Hv. apply or_sr_fit; [by apply clear_sr_fit | done]. Qed.

Lemma vc_flags_fit l v c : in_u 16 (vc_flags l v c).
Proof. destruct l, v, c; split; vm_compute; congruence. Qed.


(** ** What an operation leaves alone *)

Definition acc_reg (k : Z) : bool := ((DSP_REG_A0 <=? k) && (k <=? DSP_REG_B1)) || (k =? DSP_REG_SR).

(** The state before and after an operation: only the accumulators and the
    status register differ. *)
Definition alu_frame (c c' : dsp_core) : Prop :=
  c' = c <| registers := registers c' |> /\ forall k, acc_reg k = false -> reg c' k = reg c k.

Lemma alu_frame_refl c : alu_frame c c.
Proof. split; [by destruct c | done]. Qed.

Lemma alu_frame_set c c' k v : alu_frame c c' -> acc_reg k = true -> alu_frame c (set_reg c' k v).
Proof.
  intros [E H] Hk. split; [rewrite E; by destruct c |]. intros k' Hk'.
  rewrite reg_set_ne by congruence. by apply H.
Qed.

Lemma alu_frame_r c c' d : alu_frame c c' -> forall v, alu_frame c (set_reg c' (R0 d) v) /\
  alu_frame c (set_reg c' (R1 d) v) /\ alu_frame c (set_reg c' (R2 d) v).
Proof. intros H v. destruct d; repeat split; try apply alu_frame_set; try done; apply H. Qed.

Lemma store_acc_frame c c' d a : alu_frame c c' -> alu_frame c (store_acc c' d a).
Proof. intros H. unfold store_acc. repeat (apply alu_frame_r). done. Qed.

Lemma clear_sr_frame c c' m : alu_frame c c' -> alu_frame c (clear_sr c' m).
Proof. intros H. by apply alu_frame_set. Qed.

Lemma or_sr_frame c c' v : alu_frame c c' -> alu_frame c (or_sr c' v).
Proof. intros H. by apply alu_frame_set. Qed.

Lemma ccr_frame c c' a : alu_frame c c' -> alu_frame c (ccr c' a).
Proof. intros H. unfold ccr. rewrite ccr_update_sr. by apply alu_frame_set. Qed.

Lemma set_vc_frame c c' v : alu_frame c c' -> alu_frame c (set_vc c' v).
Proof. intros H. by apply or_sr_frame, clear_sr_frame. Qed.


(** The result of an operation is well formed and differs only where it may. *)
Definition alu_good (c : dsp_core) (m : outcome dsp_core) : Prop :=
  exists c', m = Ok c' /\ regs_fit c' /\ alu_frame c c'.

Lemma alu_good_ok c c' : regs_fit c' -> alu_frame c c' -> alu_good c (Ok c').
Proof. intros. by exists c'. Qed.


Lemma one_ok : acc_ok (mkAcc 0 0 1).
Proof. split; split; vm_compute; congruence. Qed.

Lemma rnd56_ok sr a : acc_ok a -> acc_ok (dsp_rnd56 sr a).
Proof. intros H. by apply dsp_rnd56_half_even. Qed.

Lemma abs56_ok a : acc_ok a -> acc_ok (dsp_abs56 a).2.
Proof. intros H. by apply abs56_spec. Qed.

(** ** Every operation keeps the register widths *)

Lemma asr56_spec a : acc_ok a ->
  exists r, dsp_asr56 a 1 = Ok (vc_flags false false (Z.odd (val56 a)), r) /\ acc_ok r /\ val56 r = val56 a / 2.
Proof.
  intros Ha. destruct (asr56_val a 1 Ha ltac:(lia)) as (sr & r & E & Hr & Hv). exists r.
  split; [| done]. rewrite E. do 2 f_equal.
  unfold dsp_asr56 in E. change (negb (shift_ok (1 - 1) && shift_ok 1)) with false in E.
  apply ok_pair_inj in E as [<- _]. rewrite dest_v_val by done. change (1 - 1) with 0.
  rewrite Z.shiftr_0_r, land_1, Zmod_odd. by destruct (Z.odd (val56 a)).
Qed.

Lemma reg_land_fit c k v : regs_fit c -> in_u (width k) (reg c k .& v).
Proof. intros Hc. pose proof (width_bounds k). apply in_u_land_l; [lia | apply Hc]. Qed.

Lemma set_r1_fit c d v : regs_fit c -> in_u 24 v -> regs_fit (set_reg c (R1 d) v).
Proof. intros Hc Hv. apply regs_fit_set; [done |]. by destruct d. Qed.

Lemma bit_shift_fit v i : 0 <= i < 16 -> in_u 16 ((v .& 1) ≪ i).
Proof.
  intros Hi. rewrite land_1. destruct (bit_cases v) as [-> | ->]; [apply (b2z_shift_fit false) | apply (b2z_shift_fit true)]; lia.
Qed.

Lemma bit_fit v : in_u 16 (v .& 1).
Proof. apply in_u_land_r; [done |]. split; vm_compute; congruence. Qed.

Lemma BITMASK_fit v : in_u 24 (v .& BITMASK 24).
Proof. rewrite land_BITMASK by lia. by apply in_u_mod. Qed.

Lemma logic_nz_fit c d : regs_fit c -> regs_fit (logic_nz c d).
Proof. intros Hc. unfold logic_nz. apply or_sr_fit; [apply or_sr_fit |]; auto using bit_shift_fit, b2z_shift_fit with lia. Qed.

Lemma logic_nz_frame c c' d : alu_frame c c' -> alu_frame c (logic_nz c' d).
Proof. intros H. by apply or_sr_frame, or_sr_frame. Qed.

Lemma top_bit_fit v : in_u 24 ((v .& 1) ≪ 23).
Proof. rewrite land_1. destruct (bit_cases v) as [-> | ->]; split; vm_compute; congruence. Qed.

Lemma vc_or_fit l v c sr : in_u 16 sr -> in_u 16 (sr .| vc_flags l v c).
Proof. intros H. apply in_u_lor; [done | done | apply vc_flags_fit]. Qed.

Lemma most_negative_fit a : in_u 16 ((most_negative a ≪ DSP_SR_L) .| (most_negative a ≪ DSP_SR_V)).
Proof. unfold most_negative. apply in_u_lor; [done | |]; apply b2z_shift_fit; lia. Qed.

Lemma const_fit v : (0 <=? v) && (v <? 2 ^ 16) = true -> in_u 16 v.
Proof. unfold in_u. rewrite andb_true_iff, Z.leb_le, Z.ltb_lt. done. Qed.

(** The rules above, applied by the shape of the state; what is left is about
    the words of a result. *)
Ltac fit_tac :=
  repeat first
  [ assumption
  | apply alu_frame_refl
  | match goal with
    | |- regs_fit (set_vc _ _) => apply set_vc_fit
    | |- regs_fit (or_sr _ _) => apply or_sr_fit
    | |- regs_fit (clear_sr _ _) => apply clear_sr_fit
    | |- regs_fit (clear_shift _) => apply clear_sr_fit
    | |- regs_fit (logic_nz _ _) => apply logic_nz_fit
    | |- regs_fit (ccr _ _) => apply ccr_fit
    | |- regs_fit (store_acc _ _ _) => apply store_acc_fit
    | |- regs_fit (set_reg _ (R1 _) _) => apply set_r1_fit
    | |- regs_fit (set_reg _ _ _) => apply regs_fit_set
    | |- alu_frame _ (set_vc _ _) => apply set_vc_frame
    | |- alu_frame _ (or_sr _ _) => apply or_sr_frame
    | |- alu_frame _ (clear_sr _ _) => apply clear_sr_frame
    | |- alu_frame _ (clear_shift _) => apply clear_sr_frame
    | |- alu_frame _ (logic_nz _ _) => apply logic_nz_frame
    | |- alu_frame _ (ccr _ _) => apply ccr_frame
    | |- alu_frame _ (store_acc _ _ _) => apply store_acc_frame
    | |- alu_frame _ (set_reg _ (R0 _) _) => apply alu_frame_r
    | |- alu_frame _ (set_reg _ (R1 _) _) => apply alu_frame_r
    | |- alu_frame _ (set_reg _ (R2 _) _) => apply alu_frame_r
    | |- alu_good _ (Ok _) => apply alu_good_ok
    | |- in_u 24 (reg _ _) => apply regs_fit_24
    | |- in_u 24 (_ .& BITMASK 24) => apply BITMASK_fit
    | |- in_u 24 (_ .& _) => apply in_u_land_l; [done |]
    | |- in_u 24 ((_ .& 1) ≪ 23) => apply top_bit_fit
    | |- in_u 24 (_ .| _) => apply in_u_lor; [done | |]
    | |- in_u 24 (_ ≫ 1) => apply in_u_shiftr; [done |]
    | |- in_u 16 (vc_flags _ _ _) => apply vc_flags_fit
    | |- in_u 16 (_ .| vc_flags _ _ _) => apply vc_or_fit
    | |- in_u 16 (b2z _ ≪ _) => apply b2z_shift_fit; lia
    | |- in_u 16 ((_ .& 1) ≪ _) => apply bit_shift_fit; lia
    | |- in_u 16 (_ .& 1) => apply bit_fit
    | |- in_u 16 (vc_flags _ _ _ .& _) => apply in_u_land_l; [done |]
    | |- in_u 16 (?sr .| _) => is_var sr; apply in_u_lor; [done | |]
    | |- in_u (width (R0 ?d)) 0 => destruct d; by apply in_u_0
    | |- in_u (width (R2 ?d)) (ext24 _) => destruct d; apply ext24_ok
    | |- in_u 16 ((most_negative _ ≪ _) .| _) => apply most_negative_fit
    | |- in_u 16 _ => apply const_fit; reflexivity
    | |- acc_ok (load_acc _ _) => apply load_acc_ok
    | |- acc_ok (load_source _ _) => apply load_source_ok
    | |- acc_ok (dsp_rnd56 _ _) => apply rnd56_ok
    | |- acc_ok (dsp_abs56 _).2 => apply abs56_ok
    | |- acc_ok zerodest => apply zerodest_ok
    | |- acc_ok (mkAcc 0 0 1) => apply one_ok
    | |- acc_ok (mkAcc 0 0 0) => apply zerodest_ok
    end ].

(** Name the result of an addition, subtraction or shift together with its
    properties. *)
Ltac acc_step :=
  match goal with
  | |- context [dsp_add56 ?s ?d] =>
      let r := fresh "r" in let E := fresh "E" in let H := fresh "Hr" in let V := fresh "Hv" in
      destruct (add56_spec s d) as (r & E & H & V); [solve [fit_tac] .. |]; rewrite E; clear E
  | |- context [dsp_sub56 ?s ?d] =>
      let r := fresh "r" in let E := fresh "E" in let H := fresh "Hr" in let V := fresh "Hv" in
      destruct (sub56_spec s d) as (r & E & H & V); [solve [fit_tac] .. |]; rewrite E; clear E
  | |- context [dsp_asl56 ?a 1] =>
      let r := fresh "r" in let E := fresh "E" in let H := fresh "Hr" in let V := fresh "Hv" in
      destruct (asl56_spec a) as (r & E & H & V); [solve [fit_tac] .. |]; rewrite E; clear E; rewrite ok_bind
  | |- context [dsp_asr56 ?a 1] =>
      let r := fresh "r" in let E := fresh "E" in let H := fresh "Hr" in let V := fresh "Hv" in
      destruct (asr56_spec a) as (r & E & H & V); [solve [fit_tac] .. |]; rewrite E; clear E; rewrite ok_bind
  | |- context [dsp_mul56 ?x ?y ?sg] =>
      let r := fresh "r" in let E := fresh "E" in let H := fresh "Hr" in let V := fresh "Hv" in
      destruct (dsp_mul56_correct x y sg) as (r & E & H & V); [solve [fit_tac] .. |]; rewrite E; clear E; rewrite ok_bind
  end; cbn zeta; cbn [fst snd].

Create HintDb alu discriminated.
#[export] Hint Unfold emu_abs emu_adc emu_add emu_addl emu_addr emu_sbc emu_sub emu_subl emu_subr emu_neg
  emu_cmp emu_cmpm emu_tst emu_asl emu_asr emu_clr emu_and emu_eor emu_or emu_not emu_lsl emu_lsr emu_rol
  emu_ror emu_rnd emu_mpy emu_mpyr emu_mac emu_macr emu_macr_p_x1_y0_b : alu.

Lemma emu_tfr_good s d c : regs_fit c -> alu_good c (Ok (emu_tfr s d c)).
Proof.
  intros Hc. unfold emu_tfr. apply alu_good_ok; destruct s as [| | | []], d; cbn [R0 R1 R2 other xyn]; regs;
    repeat (apply regs_fit_set || apply alu_frame_set); fit_tac; try done;
    first [apply ext24_ok | by apply in_u_0 | apply regs_fit_24; done | apply (Hc DSP_REG_A2) | apply (Hc DSP_REG_B2)].
Qed.

Lemma run_alu_good op c : regs_fit c -> op <> UNDEFINED -> op <> MAX -> alu_good c (run_alu op c).
Proof.
  intros Hc HU HM. destruct op; try done; cbn [run_alu]; try (by apply emu_tfr_good); autounfold with alu;
    repeat acc_step; try solve [fit_tac]; repeat case_match; simplify_eq; repeat acc_step; regs; fit_tac.
Qed.

(** ** Bits of the status register *)

Lemma vc_flags_high l v c : vc_flags l v c ≫ 10 = 0.
Proof. by destruct l, v, c. Qed.

(** The bits of a word of flags that the tests below look at. *)
Record status := mkStatus { st_c : bool; st_v : bool; st_z : bool; st_n : bool; st_u : bool; st_e : bool }.
Definition status_of (sr : Z) : status :=
  mkStatus (sr_bit sr DSP_SR_C) (sr_bit sr DSP_SR_V) (sr_bit sr DSP_SR_Z) (sr_bit sr DSP_SR_N)
    (sr_bit sr DSP_SR_U) (sr_bit sr DSP_SR_E).

Definition st_or (s t : status) : status :=
  mkStatus (st_c s || st_c t) (st_v s || st_v t) (st_z s || st_z t) (st_n s || st_n t)
    (st_u s || st_u t) (st_e s || st_e t).
Definition st_and (s t : status) : status :=
  mkStatus (st_c s && st_c t) (st_v s && st_v t) (st_z s && st_z t) (st_n s && st_n t)
    (st_u s && st_u t) (st_e s && st_e t).

Lemma status_lor x y : status_of (x .| y) = st_or (status_of x) (status_of y).
Proof. unfold status_of, st_or, sr_bit. cbn [st_c st_v st_z st_n st_u st_e]. by rewrite !Z.lor_spec. Qed.

Lemma status_land x y : status_of (x .& y) = st_and (status_of x) (status_of y).
Proof. unfold status_of, st_and, sr_bit. cbn [st_c st_v st_z st_n st_u st_e]. by rewrite !Z.land_spec. Qed.

Lemma status_vc l v c : status_of (vc_flags l v c) = mkStatus c v false false false false.
Proof. by destruct l, v, c. Qed.

(** The status after [ccr]: the carry and overflow bits as before. *)
Lemma status_eunz sr e u n z :
  status_of (with_eunz sr e u n z) = mkStatus (sr_bit sr DSP_SR_C) (sr_bit sr DSP_SR_V) z n u e.
Proof.
  unfold with_eunz. rewrite status_lor, status_land.
  replace (status_of (b2z e ≪ DSP_SR_E .| b2z u ≪ DSP_SR_U .| b2z n ≪ DSP_SR_N .| b2z z ≪ DSP_SR_Z))
    with (mkStatus false false z n u e) by (by destruct e, u, n, z).
  change (status_of (BITMASK 16 - ccr_mask)) with (mkStatus true true false false false false).
  unfold st_or, st_and. cbn [st_c st_v st_z st_n st_u st_e status_of]. f_equal; btauto.
Qed.

Lemma scaling_lor x y : y ≫ 10 = 0 -> scaling_of (x .| y) = scaling_of x.
Proof. intros H. unfold scaling_of. by rewrite Z.shiftr_lor, H, Z.lor_0_r. Qed.

Lemma scaling_land x m : (BITMASK 16 - m) ≫ 10 = 63 -> scaling_of (x .& (BITMASK 16 - m)) = scaling_of x.
Proof. intros H. unfold scaling_of. by rewrite Z.shiftr_land, H, <- Z.land_assoc. Qed.

(** The status of a result [r] computed in a state whose status register is [sr]. *)
Definition result_status (sr : Z) (r : acc) (v c : bool) : status :=
  mkStatus c v (val56 r =? 0) (sval56 r <? 0) (unnormalised sr r) (in_extension sr r).

Lemma ccr_status c r : acc_ok r -> scaling_of (reg c DSP_REG_SR) <> 3 ->
  status_of (reg (ccr c r) DSP_REG_SR) =
  result_status (reg c DSP_REG_SR) r (sr_bit (reg c DSP_REG_SR) DSP_SR_V) (sr_bit (reg c DSP_REG_SR) DSP_SR_C).
Proof.
  intros Hr Hs. unfold ccr. rewrite ccr_update_sr, reg_set_eq, ccr_sr_spec, status_eunz by done. done.
Qed.

Lemma result_status_scaling sr sr' r v c : scaling_of sr = scaling_of sr' ->
  result_status sr r v c = result_status sr' r v c.
Proof. intros H. unfold result_status, unnormalised, in_extension, scaling_shift. by rewrite H. Qed.

Lemma reg_store_other c d a k : acc_reg k = false \/ k = DSP_REG_SR -> reg (store_acc c d a) k = reg c k.
Proof.
  intros Hk. unfold store_acc.
  rewrite !reg_set_ne; [done | intros <-; destruct d, Hk; discriminate ..].
Qed.

Lemma reg_store_sr c d a : reg (store_acc c d a) DSP_REG_SR = reg c DSP_REG_SR.
Proof. apply reg_store_other. by right. Qed.

Lemma acc_load_store c d a d' : load_acc (store_acc c d a) d' = if decide (d = d') then a else load_acc c d'.
Proof. unfold load_acc, store_acc. destruct a as [a0 a1 a2], d, d'; cbn [R0 R1 R2 dest0 dest1 dest2]; by regs. Qed.

Lemma load_acc_sr c v d : load_acc (set_reg c DSP_REG_SR v) d = load_acc c d.
Proof. unfold load_acc. destruct d; cbn [R0 R1 R2]; by regs. Qed.

Lemma load_acc_ccr c r d : load_acc (ccr c r) d = load_acc c d.
Proof. unfold ccr. rewrite ccr_update_sr. apply load_acc_sr. Qed.

Lemma load_acc_or c v d : load_acc (or_sr c v) d = load_acc c d.
Proof. apply load_acc_sr. Qed.

Lemma load_acc_clear c m d : load_acc (clear_sr c m) d = load_acc c d.
Proof. apply load_acc_sr. Qed.

Lemma load_acc_vc c v d : load_acc (set_vc c v) d = load_acc c d.
Proof. unfold set_vc. by rewrite load_acc_or, load_acc_clear. Qed.

Lemma reg_or_sr c v : reg (or_sr c v) DSP_REG_SR = reg c DSP_REG_SR .| v.
Proof. apply reg_set_eq. Qed.

Lemma reg_clear_sr c m : reg (clear_sr c m) DSP_REG_SR = reg c DSP_REG_SR .& (BITMASK 16 - m).
Proof. apply reg_set_eq. Qed.

Create Rewrite HintDb accs.
#[export] Hint Rewrite acc_load_store load_acc_sr load_acc_ccr load_acc_or load_acc_clear load_acc_vc : accs.
#[export] Hint Rewrite reg_store_sr : regs.

(** The four orders in which the functions update the status register. *)
Section status_forms.
Context (c : dsp_core) (r : acc) (Hr : acc_ok r).

Definition old_c := sr_bit (reg c DSP_REG_SR) DSP_SR_C.
Definition old_v := sr_bit (reg c DSP_REG_SR) DSP_SR_V.

Lemma status_set_vc n vb cb : scaling_of (reg c DSP_REG_SR) <> 3 ->
  status_of n = mkStatus cb vb false false false false ->
  status_of (reg (set_vc (ccr c r) n) DSP_REG_SR) = result_status (reg c DSP_REG_SR) r vb cb.
Proof.
  intros Hs Hn. unfold set_vc. rewrite reg_or_sr, reg_clear_sr, status_lor, status_land, ccr_status, Hn by done.
  change (status_of (BITMASK 16 - _)) with (mkStatus false false true true true true).
  unfold st_or, st_and, result_status. cbn [st_c st_v st_z st_n st_u st_e]. f_equal; btauto.
Qed.

Lemma status_ccr_last m n vb cb : scaling_of (reg c DSP_REG_SR) <> 3 ->
  (BITMASK 16 - m) ≫ 10 = 63 -> n ≫ 10 = 0 ->
  sr_bit (reg c DSP_REG_SR .& (BITMASK 16 - m) .| n) DSP_SR_V = vb ->
  sr_bit (reg c DSP_REG_SR .& (BITMASK 16 - m) .| n) DSP_SR_C = cb ->
  status_of (reg (ccr (or_sr (clear_sr c m) n) r) DSP_REG_SR) = result_status (reg c DSP_REG_SR) r vb cb.
Proof.
  intros Hs Hm Hn Hv Hc.
  assert (E : scaling_of (reg (or_sr (clear_sr c m) n) DSP_REG_SR) = scaling_of (reg c DSP_REG_SR))
    by (rewrite reg_or_sr, reg_clear_sr, scaling_lor, scaling_land; done).
  rewrite ccr_status, (result_status_scaling _ _ r _ _ E), reg_or_sr, reg_clear_sr, Hv, Hc by congruence. done.
Qed.

Lemma status_clear_v : scaling_of (reg c DSP_REG_SR) <> 3 ->
  status_of (reg (clear_sr (ccr c r) (1 ≪ DSP_SR_V)) DSP_REG_SR) = result_status (reg c DSP_REG_SR) r false old_c.
Proof.
  intros Hs. rewrite reg_clear_sr, status_land, ccr_status by done.
  change (status_of (BITMASK 16 - _)) with (mkStatus true false true true true true).
  unfold st_and, result_status, old_c. cbn [st_c st_v st_z st_n st_u st_e]. f_equal; btauto.
Qed.

Lemma status_set_v l vb cb : scaling_of (reg c DSP_REG_SR) <> 3 ->
  status_of (reg (or_sr (clear_sr (ccr c r) (1 ≪ DSP_SR_V)) (vc_flags l vb cb .& 0xfe)) DSP_REG_SR) =
  result_status (reg c DSP_REG_SR) r vb old_c.
Proof.
  intros Hs. rewrite reg_or_sr, status_lor, status_clear_v, status_land, status_vc by done.
  change (status_of 0xfe) with (mkStatus false true true true true true).
  unfold st_or, st_and, result_status. cbn [st_c st_v st_z st_n st_u st_e]. f_equal; btauto.
Qed.
End status_forms.
