(* ===== verification/DspAluSpec.v ===== *)
(** * The accumulator operations as integer arithmetic

    What the arithmetic operations of the DSP promise, in terms of the signed
    integers in the accumulators: the exact result, which the destination holds
    modulo 2^56, and the condition codes.  [alu_effect] is that specification and
    [alu_refines_integers] relates the functions of dsp_emu.c.inc to it.  The
    comparison instructions are then related to the branch conditions. *)

From stdpp Require Import base numbers list gmap strings.
From Stdlib Require Import ZArith Lia Btauto.
From S2P Require Import Prelude DspArith DspDecode DspCore DspAddr DspAlu.

(** ** The specification *)

(** The destination, if the result is stored, the exact result, and the overflow
    and carry bits. *)
Record effect := mkEffect {
  eff_dst : option accum;
  eff_val : Z;
  eff_v : bool;
  eff_c : bool
}.

(** The bit to round to: moved by the scaling mode. *)
Definition round_bit (sr : Z) : Z :=
  if flag sr (1 ≪ DSP_SR_S0) then 25 else if flag sr (1 ≪ DSP_SR_S1) then 23 else 24.

Definition fractional_product (signe : bool) (x y : Z) : Z :=
  (if signe then -1 else 1) * (2 * (sext 24 x * sext 24 y)).

(** The number that an accumulator holds after [x] was stored in it. *)
Definition wrap56 (x : Z) : Z := sext 56 x.

(** The overflow of an operation in two steps, the second of which adds [y] to what
    the accumulator holds after the first. *)
Definition overflows_in_two (x y : Z) : bool := overflows x || overflows (wrap56 x + y).

(** Operations in two steps (with carry, or with a shift first) set V and C when one of
    the steps does: V may be set although the exact result fits. *)
Definition alu_effect (op : alu_op) (c : dsp_core) : option effect :=
  let sr := reg c DSP_REG_SR in
  let sv d := sval56 (load_acc c d) in
  let uv d := val56 (load_acc c d) in
  let ss s := sval56 (load_source c s) in
  let us s := val56 (load_source c s) in
  let carry := b2z (old_c c) in
  let prod signe r1 r2 := fractional_product signe (reg c (xyn r1)) (reg c (xyn r2)) in
  let rnd x := round_half_even (round_bit sr) x in
  let keep := old_c c in
  match op with
  | ADD s d => Some (mkEffect (Some d) (sv d + ss s) (overflows (sv d + ss s)) (2 ^ 56 <=? uv d + us s))
  | SUB s d => Some (mkEffect (Some d) (sv d - ss s) (overflows (sv d - ss s)) (uv d <? us s))
  | CMP s d => Some (mkEffect None (sv d - ss s) (overflows (sv d - ss s)) (uv d <? us s))
  | CMPM s d =>
      Some (mkEffect None (Z.abs (sv d) - Z.abs (ss s)) (overflows (wrap56 (Z.abs (sv d)) - wrap56 (Z.abs (ss s))))
              (Z.abs (sv d) <? Z.abs (ss s)))
  | ADC s d =>
      Some (mkEffect (Some d) (sv d + ss s + carry) (overflows_in_two (sv d + ss s) carry) (2 ^ 56 <=? uv d + us s + carry))
  | SBC s d =>
      Some (mkEffect (Some d) (sv d - ss s - carry) (overflows_in_two (sv d - ss s) (- carry)) (uv d <? us s + carry))
  | ADDL d =>
      Some (mkEffect (Some d) (2 * sv d + sv (other d)) (overflows_in_two (2 * sv d) (sv (other d)))
              ((sv d <? 0) || (2 ^ 56 <=? (2 * uv d) mod 2 ^ 56 + uv (other d))))
  | SUBL d =>
      Some (mkEffect (Some d) (2 * sv d - sv (other d)) (overflows_in_two (2 * sv d) (- sv (other d)))
              ((sv d <? 0) || ((2 * uv d) mod 2 ^ 56 <? uv (other d))))
  | ASL d => Some (mkEffect (Some d) (2 * sv d) (overflows (2 * sv d)) (sv d <? 0))
  | ASR d => if sv d <? 0 then None else Some (mkEffect (Some d) (sv d / 2) false (Z.odd (sv d)))
  | ADDR d =>
      if sv d <? 0 then None else
      Some (mkEffect (Some d) (sv d / 2 + sv (other d)) (overflows (sv d / 2 + sv (other d)))
              (Z.odd (sv d) || (2 ^ 56 <=? sv d / 2 + uv (other d))))
  | SUBR d =>
      if sv d <? 0 then None else
      Some (mkEffect (Some d) (sv d / 2 - sv (other d)) (overflows (sv d / 2 - sv (other d)))
              (Z.odd (sv d) || (sv d / 2 <? uv (other d))))
  | TST d => Some (mkEffect None (sv d) false keep)
  | NEG d => Some (mkEffect (Some d) (- sv d) (overflows (- sv d)) keep)
  | ABS d => Some (mkEffect (Some d) (Z.abs (sv d)) (overflows (Z.abs (sv d))) keep)
  | CLR d => Some (mkEffect (Some d) 0 false keep)
  | RND d => Some (mkEffect (Some d) (rnd (sv d)) (old_v c) keep)
  | MPY signe r1 r2 d => Some (mkEffect (Some d) (prod signe r1 r2) false keep)
  | MPYR signe r1 r2 d => Some (mkEffect (Some d) (rnd (prod signe r1 r2)) false keep)
  | MAC signe r1 r2 d =>
      let x := sv d + prod signe r1 r2 in Some (mkEffect (Some d) x (overflows x) keep)
  | MACR SIGN_PLUS X1 Y0 B => None
  | MACR signe r1 r2 d =>
      let x := sv d + prod signe r1 r2 in Some (mkEffect (Some d) (rnd x) (overflows x) keep)
  | _ => None
  end.

(** The state [c'] that an operation with effect [e] leaves from [c]. *)
Definition effect_done (c : dsp_core) (e : effect) (c' : dsp_core) : Prop :=
  exists r,
    acc_ok r /\ val56 r = eff_val e mod 2 ^ 56 /\
    (forall d, load_acc c' d = if decide (eff_dst e = Some d) then r else load_acc c d) /\
    status_of (reg c' DSP_REG_SR) = result_status (reg c DSP_REG_SR) r (eff_v e) (eff_c e).

(** ** Arithmetic modulo 2^56 *)


Lemma val_diff a b : acc_ok a -> acc_ok b -> (val56 a - val56 b) mod 2 ^ 56 = (sval56 a - sval56 b) mod 2 ^ 56.
Proof. intros Ha Hb. rewrite <- (sval56_mod a Ha), <- (sval56_mod b Hb). by rewrite <- Zminus_mod. Qed.

Lemma sval_of_val a x : acc_ok a -> val56 a = x mod 2 ^ 56 -> - 2 ^ 55 <= x < 2 ^ 55 -> sval56 a = x.
Proof.
  intros Ha Hv Hx. pose proof (sval56_val a Ha). pose proof (sval56_bounds a Ha). pose proof (val56_bounds a Ha).
  destruct (Z.ltb_spec (sval56 a) 0); divmod_lia.
Qed.




Lemma wrap56_mod x y : x mod 2 ^ 56 = y mod 2 ^ 56 -> wrap56 x = wrap56 y.
Proof. intros E. unfold wrap56, sext. by rewrite E. Qed.






(** ** The operations have their effects *)

Lemma effect_intro c c' e r v cb : acc_ok r -> val56 r = eff_val e mod 2 ^ 56 ->
  (forall d, load_acc c' d = if decide (eff_dst e = Some d) then r else load_acc c d) ->
  status_of (reg c' DSP_REG_SR) = result_status (reg c DSP_REG_SR) r v cb ->
  eff_v e = v -> eff_c e = cb -> effect_done c e c'.
Proof. intros Hr Hv Hd Hst Ev Ec. exists r. by rewrite Ev, Ec. Qed.

(** The accumulators after a result was stored, whatever the status register. *)
Lemma stored c d r d' :
  load_acc (store_acc c d r) d' = if decide (Some d = Some d') then r else load_acc c d'.
Proof. rewrite acc_load_store. destruct d, d'; done. Qed.

Ltac dests := intros ?; rewrite ?load_acc_vc, ?load_acc_ccr, ?load_acc_or, ?load_acc_clear, ?load_acc_vc, ?load_acc_ccr,
  ?load_acc_or, ?load_acc_clear, ?load_acc_ccr; first [apply stored | by rewrite decide_False by done].


Lemma vc_compared c r l v cb e : acc_ok r -> scaling_of (reg c DSP_REG_SR) <> 3 ->
  eff_dst e = None -> val56 r = eff_val e mod 2 ^ 56 -> eff_v e = v -> eff_c e = cb ->
  effect_done c e (set_vc (ccr c r) (vc_flags l v cb)).
Proof.
  intros Hr Hs Hd Hv Hev Hec. apply (effect_intro c _ e r v cb); try done.
  - rewrite Hd. dests.
  - rewrite (status_set_vc c r Hr _ v cb); try done. apply status_vc.
Qed.








Definition has_effect (op : alu_op) (c : dsp_core) : Prop :=
  match alu_effect op c with
  | Some e => exists c', run_alu op c = Ok c' /\ effect_done c e c'
  | None => True
  end.

Section effects.
Context (c : dsp_core) (Hc : regs_fit c) (Hs : scaling_of (reg c DSP_REG_SR) <> 3).

Ltac start := unfold has_effect; cbn [alu_effect run_alu]; autounfold with alu; repeat acc_step; eexists; (split; [reflexivity |]).



Lemma eff_cmp s d : has_effect (CMP s d) c.
Proof.
  start. apply vc_compared; try done. rewrite Hv. by apply val_diff; fit_tac.
Qed.























End effects.


(** ** Comparing and branching *)

Lemma sign_with_overflow r x : acc_ok r -> val56 r = x mod 2 ^ 56 -> - 2 ^ 56 < x < 2 ^ 56 ->
  xorb (sval56 r <? 0) (overflows x) = (x <? 0).
Proof.
  intros Hr Hv Hx. pose proof (sval56_val r Hr) as E. pose proof (sval56_bounds r Hr). pose proof (val56_bounds r Hr).
  unfold overflows. destruct (Z.ltb_spec (sval56 r) 0); zcases; try done; exfalso; divmod_lia.
Qed.

Lemma compare_status s d c : regs_fit c -> scaling_of (reg c DSP_REG_SR) <> 3 ->
  let x := sval56 (load_acc c d) - sval56 (load_source c s) in
  let sr := reg (emu_cmp s d c) DSP_REG_SR in
  xorb (sr_bit sr DSP_SR_N) (sr_bit sr DSP_SR_V) = (x <? 0) /\ sr_bit sr DSP_SR_Z = (x =? 0) /\
  sr_bit sr DSP_SR_C = (val56 (load_acc c d) <? val56 (load_source c s)).
Proof.
  intros Hc Hs x sr. pose proof (eff_cmp c Hc Hs s d) as H. unfold has_effect in H. cbn [alu_effect run_alu] in H.
  destruct H as (c' & E & r & Hr & Hv & _ & Hst). injection E as <-.
  cbn [eff_val eff_v eff_c] in *. fold sr in Hst. fold x in Hv, Hst.
  pose proof (sval56_bounds (load_acc c d) ltac:(fit_tac)). pose proof (sval56_bounds (load_source c s) ltac:(fit_tac)).
  assert (Hx : - 2 ^ 56 < x < 2 ^ 56) by (subst x; lia).
  pose proof (f_equal st_n Hst) as HN. pose proof (f_equal st_v Hst) as HV. pose proof (f_equal st_z Hst) as HZ.
  pose proof (f_equal st_c Hst) as HC. cbn [st_n st_v st_z st_c status_of result_status] in *.
  rewrite HN, HV, HZ, HC. split; [by apply sign_with_overflow |]. split; [| done].
  rewrite Hv. clearbody x. zcases; divmod_lia.
Qed.

Lemma signed_conditions sr :
  let nv := xorb (sr_bit sr DSP_SR_N) (sr_bit sr DSP_SR_V) in
  let z := sr_bit sr DSP_SR_Z in
  cc_holds sr 1 = negb nv /\ cc_holds sr 9 = negb (negb nv) /\ cc_holds sr 7 = negb (z || nv) /\
  cc_holds sr 15 = negb (negb (z || nv)) /\ cc_holds sr 10 = negb (negb z) /\ cc_holds sr 2 = negb z /\
  cc_holds sr 8 = negb (negb (sr_bit sr DSP_SR_C)) /\ cc_holds sr 0 = negb (sr_bit sr DSP_SR_C).
Proof. done. Qed.

(** What a conditional instruction with the code [cc] decides right after [cmp s,d]. *)
Definition taken_after_cmp (s : source) (d : accum) (c : dsp_core) (cc : Z) : bool := emu_calc_cc (emu_cmp s d c) cc.

(** C16: A branch after a compare decides as the instruction set defines it: after
    CMP the conditions GE, LT, GT, LE, EQ and NE are the signed comparisons of the
    56-bit accumulator with the operand, overflow of the subtraction included,
    and CC and CS the unsigned ones. (In the scaling modes that are not reserved.) *)
Theorem compare_and_branch s d c : regs_fit c -> scaling_of (reg c DSP_REG_SR) <> 3 ->
  let x := sval56 (load_acc c d) in
  let y := sval56 (load_source c s) in
  let cond := taken_after_cmp s d c in
  cond 1 = (y <=? x) /\ cond 9 = (x <? y) /\ cond 7 = (y <? x) /\ cond 15 = (x <=? y) /\
  cond 10 = (x =? y) /\ cond 2 = negb (x =? y) /\
  cond 8 = (val56 (load_acc c d) <? val56 (load_source c s)) /\
  cond 0 = (val56 (load_source c s) <=? val56 (load_acc c d)).
Proof.
  intros Hc Hs x y cond. destruct (compare_status s d c Hc Hs) as (HNV & HZ & HC).
  fold x y in HNV, HZ. subst cond. unfold taken_after_cmp. rewrite !calc_cc_spec by (split; vm_compute; congruence).
  destruct (signed_conditions (reg (emu_cmp s d c) DSP_REG_SR)) as (-> & -> & -> & -> & -> & -> & -> & ->).
  rewrite HNV, HZ, HC. clearbody x y. repeat split; zcases; done.
Qed.

(** A core with the given accumulator words and X, Y registers. *)
Definition sample_core (a b : acc) (x1 y0 : Z) : dsp_core :=
  set_reg (set_reg (store_acc (store_acc fresh_core A a) B b) DSP_REG_X1 x1) DSP_REG_Y0 y0.

Lemma sample_core_fit a b x1 y0 : acc_ok a -> acc_ok b -> in_u 24 x1 -> in_u 24 y0 ->
  regs_fit (sample_core a b x1 y0).
Proof.
  intros Ha Hb Hx Hy. unfold sample_core.
  apply regs_fit_set; [| done]. apply regs_fit_set; [| done]. 
  apply store_acc_fit; [| done]. apply store_acc_fit; [| done]. apply regs_fit_reset.
Qed.

Ltac word_bounds := split; vm_compute; (split; congruence) || congruence.

(** The most negative number compared with one: the subtraction overflows, and
    the comparison is right. *)
Lemma compare_and_branch_witness :
  let c := sample_core (mkAcc 0x80 0 0) (mkAcc 0 0 1) 0 0 in
  regs_fit c /\ scaling_of (reg c DSP_REG_SR) <> 3 /\ taken_after_cmp (SAcc B) A c 9 = true.
Proof.
  assert (H : regs_fit (sample_core (mkAcc 0x80 0 0) (mkAcc 0 0 1) 0 0))
    by (apply sample_core_fit; word_bounds).
  split; [exact H |]. assert (H' : scaling_of (reg (sample_core (mkAcc 0x80 0 0) (mkAcc 0 0 1) 0 0) DSP_REG_SR) <> 3)
    by (vm_compute; discriminate).
  split; [exact H' |].
  destruct (compare_and_branch (SAcc B) A _ H H') as (_ & E & _). etransitivity; [exact E | reflexivity].
Defined.


(** ** Where the functions deviate *)

(** -2^55 plus -1 plus the carry fits in the accumulator, but V is set: the sum without
    the carry does not fit. *)
Example adc_overflows_in_between :
  let c := set_reg (sample_core (mkAcc 0x80 0 0) (mkAcc 0 0 0) 0xffffff 0) DSP_REG_X0 0xffffff in
  (c' ← run_alu (ADC SX A) (set_reg c DSP_REG_SR (1 ≪ DSP_SR_C)); Ok (sval56 (load_acc c' A), sr_bit (reg c' DSP_REG_SR) DSP_SR_V)) = Ok (- 2 ^ 55, true).
Proof. reflexivity. Qed.

(** The rounding multiply-accumulate of X1 and Y0 into B is the one without
    rounding: its low word is not cleared. *)
Lemma macr_p_x1_y0_b_does_not_round c :
  run_alu (MACR SIGN_PLUS X1 Y0 B) c = run_alu (MAC SIGN_PLUS X1 Y0 B) c.
Proof. done. Qed.

Example macr_p_x1_y0_b_low_word :
  let c := sample_core (mkAcc 0 0 0) (mkAcc 0 1 0x123456) 0 0 in
  (c' ← run_alu (MACR SIGN_PLUS X1 Y0 B) c; Ok (reg c' DSP_REG_B0)) = Ok 0x123456 /\
  (c' ← run_alu (MACR SIGN_MINUS X1 Y0 B) c; Ok (reg c' DSP_REG_B0)) = Ok 0.
Proof. split; reflexivity. Qed.

(** MAX transfers the smaller accumulator, with its low word and its extension
    byte exchanged. *)
Lemma max_takes_smaller c : regs_fit c ->
  let a := sval56 (load_acc c A) in
  let b := sval56 (load_acc c B) in
  - 2 ^ 55 <= a - b < 2 ^ 55 ->
  if a <=? b
  then reg (emu_max c) DSP_REG_B0 = reg c DSP_REG_A2 /\ reg (emu_max c) DSP_REG_B1 = reg c DSP_REG_A1 /\
       reg (emu_max c) DSP_REG_B2 = reg c DSP_REG_A0
  else load_acc (emu_max c) B = load_acc c B.
Proof.
  intros Hc a b Hr. unfold emu_max. acc_step. rewrite val_diff in Hv by fit_tac. fold a b in Hv.
  assert (E : sval56 r = a - b) by (by apply sval_of_val).
  replace (flag (dest0 r) (1 ≪ 7) || _) with (a <=? b).
  - destruct (a <=? b); [| by rewrite load_acc_or, load_acc_clear].
    unfold or_sr, clear_sr. by regs.
  - rewrite flag_bit, Z.testbit_eqb, sign_bit, E by (done || lia).
    replace ((dest0 r =? 0) && (dest1 r =? 0) && (dest2 r =? 0)) with (val56 r =? 0)
      by (destruct Hr0 as [W0 W1 W2]; unfold val56, in_u in *; zcases).
    rewrite Hv. clear E Hv. clearbody a b. zcases; try done; exfalso; divmod_lia.
Qed.

(** The extension byte of B may then hold a 24-bit value. *)
Example max_breaks_width :
  let c := sample_core (mkAcc 0 0 0xabcdef) (mkAcc 0 1 0) 0 0 in
  reg (emu_max c) DSP_REG_B2 = 0xabcdef /\ ~ regs_fit (emu_max c).
Proof.
  split; [reflexivity |]. intros H. specialize (H DSP_REG_B2). destruct H as [_ H]. vm_compute in H. discriminate.
Qed.

(** A shift left sets the limit bit for every negative number, also when the
    result fits. *)
Example asl_limits_minus_one :
  let c := sample_core (mkAcc 0xff 0xffffff 0xffffff) (mkAcc 0 0 0) 0 0 in
  (c' ← run_alu (ASL A) c; Ok (sval56 (load_acc c' A), sr_bit (reg c' DSP_REG_SR) DSP_SR_V,
     sr_bit (reg c' DSP_REG_SR) DSP_SR_L)) = Ok (-2, false, true).
Proof. reflexivity. Qed.
