(* ===== verification/DspMove.v ===== *)
(** * The parallel moves of the DSP (mcpx/apu/dsp/dsp_emu.c.inc)

    An instruction word from 0x100000 on is an accumulator operation with up to
    two data moves beside it.  Each handler reads what it moves, runs the
    operation and then writes, so that a move out of an accumulator carries the
    value before the operation.  The handlers are those of [opcodes_parmove]; the
    state is any DSP around a core ([HasCore]). *)

From stdpp Require Import base numbers list gmap strings.
From Stdlib Require Import ZArith Lia Btauto.
From S2P Require Import Prelude DspArith DspDecode DspCore DspAddr DspAlu DspAluSpec.

(** ** Reading and writing a register of a move *)

(** Returns [got_limited], [*dest] and the core. *)
Definition emu_pm_read_accu24 (c : dsp_core) (numreg : Z) : Z * Z * dsp_core :=
  let scaling := (reg c DSP_REG_SR ≫ DSP_SR_S0) .& BITMASK 2 in
  let r := numreg .& 1 in
  let value := u32 (reg c (DSP_REG_A2 + r) ≪ 24) in
  let value := u32 (value + reg c (DSP_REG_A1 + r)) in
  let value :=
    match scaling with
    | 1 => value ≫ 1
    | 2 => u32 (value ≪ 1) .| ((reg c (DSP_REG_A0 + r) ≫ 23) .& 1)
    | _ => value
    end in
  let value := value .& BITMASK 24 in
  let ext := reg c (DSP_REG_A2 + r) in
  if (ext =? 0) && (value <=? 0x007fffff) then (0, value, c)
  else if (ext =? 0xff) && (0x00800000 <=? value) then (0, value, c)
  else if flag ext (1 ≪ 7) then (1, 0x00800000, or_sr c (1 ≪ DSP_SR_L))
  else (1, 0x007fffff, or_sr c (1 ≪ DSP_SR_L)).

(** [registers[A0] = 0; registers[A1] = v; registers[A2] = v & (1<<23) ? 0xff : 0] *)
Definition put_accu (c : dsp_core) (r v : Z) : dsp_core :=
  set_reg (set_reg (set_reg c (DSP_REG_A0 + r) 0) (DSP_REG_A1 + r) v) (DSP_REG_A2 + r) (ext24 v).

(** Read S: an accumulator is limited, another register is read as it is. *)
Definition read_source (c : dsp_core) (numreg : Z) : Z * dsp_core :=
  if (numreg =? DSP_REG_A) || (numreg =? DSP_REG_B)
  then let '(_, v, c) := emu_pm_read_accu24 c numreg in (v, c)
  else (reg c numreg, c).

(** Write D, the other registers unmasked ([emu_pm_8]) or masked to their width. *)
Definition write_dest (c : dsp_core) (numreg v : Z) : dsp_core :=
  if numreg =? DSP_REG_A then put_accu c 0 v
  else if numreg =? DSP_REG_B then put_accu c 1 v
  else set_reg c numreg v.

Definition write_dest_masked (c : dsp_core) (numreg v : Z) : outcome dsp_core :=
  if numreg =? DSP_REG_A then Ok (put_accu c 0 v)
  else if numreg =? DSP_REG_B then Ok (put_accu c 1 v)
  else m ← rd registers_mask numreg; Ok (set_reg c numreg (v .& BITMASK m)).

(** The register numbers of the two-bit fields: X0, X1, A, B and Y0, Y1, A, B. *)
Definition x_or_accu (f : Z) : Z :=
  match f with 0 => DSP_REG_X0 | 1 => DSP_REG_X1 | 2 => DSP_REG_A | _ => DSP_REG_B end.
Definition y_or_accu (f : Z) : Z :=
  match f with 0 => DSP_REG_Y0 | 1 => DSP_REG_Y1 | 2 => DSP_REG_A | _ => DSP_REG_B end.

Section moves.
Context {S : Type} `{HasCore S}.

(** ** The handlers *)

Definition emu_pm_0 (s : S) : outcome S :=
  let c := core_of s in
  let inst := cur_inst c in
  let memspace := (inst ≫ 15) .& 1 in
  let numreg := (inst ≫ 16) .& 1 in
  '(_, addr, c) ← emu_calc_ea c ((inst ≫ 8) .& BITMASK 6);
  let '(_, save_accu, c) := emu_pm_read_accu24 c numreg in
  let save_xy0 := reg c (DSP_REG_X0 + (memspace ≪ 1)) in
  c ← parallel_alu c;
  s ← dsp56k_write_memory (with_core s c) memspace addr save_accu;
  Ok (with_core s (put_accu (core_of s) numreg save_xy0)).

Definition emu_pm_1 (s : S) : outcome S :=
  let c := core_of s in
  let inst := cur_inst c in
  let value := (inst ≫ 8) .& BITMASK 6 in
  '(retour, xy_addr, c) ← emu_calc_ea c value;
  let memspace := (inst ≫ 14) .& 1 in
  let numreg1 :=
    if negb (memspace =? 0) then y_or_accu ((inst ≫ 16) .& BITMASK 2)
    else x_or_accu ((inst ≫ 18) .& BITMASK 2) in
  '(save_1, c) ←
    (if flag inst (1 ≪ 15) then
       if negb (retour =? 0) then Ok (xy_addr, c)
       else v ← dsp56k_read_memory (with_core s c) memspace xy_addr; Ok (v, c)
     else Ok (read_source c numreg1));
  let numreg2 :=
    if negb (memspace =? 0) then DSP_REG_A + ((inst ≫ 19) .& 1) else DSP_REG_A + ((inst ≫ 17) .& 1) in
  let '(_, save_2, c) := emu_pm_read_accu24 c numreg2 in
  c ← parallel_alu c;
  s ←
    (if flag inst (1 ≪ 15) then
       let c := if numreg1 =? DSP_REG_A then put_accu c 0 save_1
                else if numreg1 =? DSP_REG_B then put_accu c 1 save_1 else c in
       Ok (with_core s (set_reg c numreg1 save_1))
     else dsp56k_write_memory (with_core s c) memspace xy_addr save_1);
  let numreg2 :=
    if negb (memspace =? 0) then DSP_REG_X0 + ((inst ≫ 18) .& 1) else DSP_REG_Y0 + ((inst ≫ 16) .& 1) in
  Ok (with_core s (set_reg (core_of s) numreg2 save_2)).

Definition emu_pm_2_2 (s : S) : outcome S :=
  let c := core_of s in
  let inst := cur_inst c in
  let srcreg := (inst ≫ 13) .& BITMASK 5 in
  let dstreg := (inst ≫ 8) .& BITMASK 5 in
  let '(save_reg, c) := read_source c srcreg in
  c ← parallel_alu c;
  c ← write_dest_masked c dstreg save_reg;
  Ok (with_core s c).

Definition emu_pm_3 (s : S) : outcome S :=
  let c := core_of s in
  let inst := cur_inst c in
  c ← parallel_alu c;
  let dstreg := (inst ≫ 16) .& BITMASK 5 in
  let srcvalue := (inst ≫ 8) .& BITMASK 8 in
  let srcvalue :=
    if bool_decide (dstreg ∈ [DSP_REG_X0; DSP_REG_X1; DSP_REG_Y0; DSP_REG_Y1; DSP_REG_A; DSP_REG_B])
    then u32 (srcvalue ≪ 16) else srcvalue in
  c ← write_dest_masked c dstreg srcvalue;
  Ok (with_core s c).

Definition emu_pm_2 (s : S) : outcome S :=
  let c := core_of s in
  let inst := cur_inst c in
  if inst .& 0xffff00 =? 0x200000 then
    c ← parallel_alu c; Ok (with_core s c)
  else if inst .& 0xffe000 =? 0x204000 then
    '(_, _, c) ← emu_calc_ea c ((inst ≫ 8) .& BITMASK 5);
    c ← parallel_alu c; Ok (with_core s c)
  else if inst .& 0xfc0000 =? 0x200000 then emu_pm_2_2 s
  else emu_pm_3 s.

(** The long moves: the pair that goes to or comes from X:addr and Y:addr. *)
Definition read_long (c : dsp_core) (numreg : Z) : Z * Z * dsp_core :=
  let accu r :=
    let '(got_limited, save_lx, c) := emu_pm_read_accu24 c r in
    if negb (got_limited =? 0) then (save_lx, if flag save_lx (1 ≪ 23) then 0 else 0xffffff, c)
    else (save_lx, reg c (DSP_REG_A0 + (r .& 1)), c) in
  let both r1 r2 :=
    let '(_, save_lx, c) := emu_pm_read_accu24 c r1 in
    let '(_, save_ly, c) := emu_pm_read_accu24 c r2 in (save_lx, save_ly, c) in
  match numreg with
  | 0 => (reg c DSP_REG_A1, reg c DSP_REG_A0, c)
  | 1 => (reg c DSP_REG_B1, reg c DSP_REG_B0, c)
  | 2 => (reg c DSP_REG_X1, reg c DSP_REG_X0, c)
  | 3 => (reg c DSP_REG_Y1, reg c DSP_REG_Y0, c)
  | 4 => accu DSP_REG_A
  | 5 => accu DSP_REG_B
  | 6 => both DSP_REG_A DSP_REG_B
  | _ => both DSP_REG_B DSP_REG_A
  end.

Definition write_long (c : dsp_core) (numreg save_lx save_ly : Z) : dsp_core :=
  match numreg with
  | 0 => set_reg (set_reg c DSP_REG_A1 save_lx) DSP_REG_A0 save_ly
  | 1 => set_reg (set_reg c DSP_REG_B1 save_lx) DSP_REG_B0 save_ly
  | 2 => set_reg (set_reg c DSP_REG_X1 save_lx) DSP_REG_X0 save_ly
  | 3 => set_reg (set_reg c DSP_REG_Y1 save_lx) DSP_REG_Y0 save_ly
  | 4 => set_reg (set_reg (set_reg c DSP_REG_A0 save_ly) DSP_REG_A1 save_lx) DSP_REG_A2 (ext24 save_lx)
  | 5 => set_reg (set_reg (set_reg c DSP_REG_B0 save_ly) DSP_REG_B1 save_lx) DSP_REG_B2 (ext24 save_lx)
  | 6 => put_accu (put_accu c 0 save_lx) 1 save_ly
  | _ => put_accu (put_accu c 1 save_lx) 0 save_ly
  end.

Definition emu_pm_4x (s : S) : outcome S :=
  let c := core_of s in
  let inst := cur_inst c in
  let value := (inst ≫ 8) .& BITMASK 6 in
  '(l_addr, c) ←
    (if flag inst (1 ≪ 14) then '(_, a, c) ← emu_calc_ea c value; Ok (a, c) else Ok (value, c));
  let numreg := ((inst ≫ 16) .& BITMASK 2) .| ((inst ≫ 17) .& (1 ≪ 2)) in
  '(save_lx, save_ly, c) ←
    (if flag inst (1 ≪ 15) then
       x ← dsp56k_read_memory (with_core s c) DSP_SPACE_X l_addr;
       y ← dsp56k_read_memory (with_core s c) DSP_SPACE_Y l_addr;
       Ok (x, y, c)
     else Ok (read_long c numreg));
  c ← parallel_alu c;
  if flag inst (1 ≪ 15) then Ok (with_core s (write_long c numreg save_lx save_ly))
  else
    s ← dsp56k_write_memory (with_core s c) DSP_SPACE_X l_addr save_lx;
    dsp56k_write_memory s DSP_SPACE_Y l_addr save_ly.

Definition emu_pm_5 (s : S) : outcome S :=
  let c := core_of s in
  let inst := cur_inst c in
  let value := (inst ≫ 8) .& BITMASK 6 in
  '(retour, xy_addr, c) ← (if flag inst (1 ≪ 14) then emu_calc_ea c value else Ok (0, value, c));
  let memspace := (inst ≫ 19) .& 1 in
  let numreg := ((inst ≫ 16) .& BITMASK 3) .| ((inst ≫ 17) .& (BITMASK 2 ≪ 3)) in
  '(value, c) ←
    (if flag inst (1 ≪ 15) then
       if negb (retour =? 0) then Ok (xy_addr, c)
       else v ← dsp56k_read_memory (with_core s c) memspace xy_addr; Ok (v, c)
     else Ok (read_source c numreg));
  c ← parallel_alu c;
  if flag inst (1 ≪ 15) then c ← write_dest_masked c numreg value; Ok (with_core s c)
  else dsp56k_write_memory (with_core s c) memspace xy_addr value.

Definition emu_pm_4 (s : S) : outcome S :=
  if cur_inst (core_of s) .& 0xf40000 =? 0x400000 then emu_pm_4x s else emu_pm_5 s.

(** The two address fields of [emu_pm_8]: the Y field names a register of the
    bank the X field does not use. *)
Definition pm_8_addresses (inst : Z) : Z * Z :=
  let ea1 := (inst ≫ 8) .& BITMASK 5 in
  let ea1 := if ea1 ≫ 3 =? 0 then ea1 .| (1 ≪ 5) else ea1 in
  let ea2 := (inst ≫ 13) .& BITMASK 2 in
  let ea2 := ea2 .| ((inst ≫ 17) .& (BITMASK 2 ≪ 3)) in
  let ea2 := if ea1 .& (1 ≪ 2) =? 0 then ea2 .| (1 ≪ 2) else ea2 in
  let ea2 := if ea2 ≫ 3 =? 0 then ea2 .| (1 ≪ 5) else ea2 in
  (ea1, ea2).

Definition emu_pm_8 (s : S) : outcome S :=
  let c := core_of s in
  let inst := cur_inst c in
  let '(ea1, ea2) := pm_8_addresses inst in
  '(_, x_addr, c) ← emu_calc_ea c ea1;
  '(_, y_addr, c) ← emu_calc_ea c ea2;
  let numreg1 := x_or_accu ((inst ≫ 18) .& BITMASK 2) in
  let numreg2 := y_or_accu ((inst ≫ 16) .& BITMASK 2) in
  '(save_reg1, c) ←
    (if flag inst (1 ≪ 15) then v ← dsp56k_read_memory (with_core s c) DSP_SPACE_X x_addr; Ok (v, c)
     else Ok (read_source c numreg1));
  '(save_reg2, c) ←
    (if flag inst (1 ≪ 22) then v ← dsp56k_read_memory (with_core s c) DSP_SPACE_Y y_addr; Ok (v, c)
     else Ok (read_source c numreg2));
  c ← parallel_alu c;
  s ← (if flag inst (1 ≪ 15) then Ok (with_core s (write_dest c numreg1 save_reg1))
       else dsp56k_write_memory (with_core s c) DSP_SPACE_X x_addr save_reg1);
  if flag inst (1 ≪ 22) then Ok (with_core s (write_dest (core_of s) numreg2 save_reg2))
  else dsp56k_write_memory s DSP_SPACE_Y y_addr save_reg2.

(** [opcodes_parmove[i]] *)
Definition opcodes_parmove (i : Z) (s : S) : outcome S :=
  match i with
  | 0 => emu_pm_0 s
  | 1 => emu_pm_1 s
  | 2 => emu_pm_2 s
  | 3 => emu_pm_3 s
  | 4 => emu_pm_4 s
  | 5 | 6 | 7 => emu_pm_5 s
  | _ => emu_pm_8 s
  end.
End moves.
