(* ===== verification/DspInstr.v ===== *)
(** * The instructions without parallel moves (mcpx/apu/dsp/dsp_emu.c.inc)

    The functions behind the decoded entries of [nonparallel_opcodes]: immediate
    arithmetic, bit operations, jumps and branches, hardware loops, subroutines,
    control-register and peripheral moves.  Families of functions that differ
    only in where their operand is (a short address, an effective address, a
    peripheral address or a register) take the operand form as an argument.
    [emu] finds a function by the name the table gives it, and
    [dsp_instruction] is the driver of DspCore.v with these functions. *)

From stdpp Require Import base numbers list gmap strings.
From Stdlib Require Import ZArith Lia Btauto.
From S2P Require Import Prelude DspArith DspDecode DspCore DspAddr DspAlu DspAluSpec DspMove.

Abbreviation DSP_INTER_ILLEGAL := 1.

(** The accumulator a one-bit field selects. *)
Definition accum_of (d : Z) : accum := if d =? 0 then A else B.

(** [1<<numbit] as a 32-bit word. *)
Definition bit32 (numbit : Z) : Z := u32 (1 ≪ numbit).

(** [registers_tcc] *)
Definition registers_tcc : list (Z * Z) := [
  (DSP_REG_B, DSP_REG_A); (DSP_REG_A, DSP_REG_B); (0, 0); (0, 0);
  (0, 0); (0, 0); (0, 0); (0, 0);
  (DSP_REG_X0, DSP_REG_A); (DSP_REG_X0, DSP_REG_B); (DSP_REG_Y0, DSP_REG_A); (DSP_REG_Y0, DSP_REG_B);
  (DSP_REG_X1, DSP_REG_A); (DSP_REG_X1, DSP_REG_B); (DSP_REG_Y1, DSP_REG_A); (DSP_REG_Y1, DSP_REG_B)
].

(** ** Instructions that only use the core *)

Definition inst_bits (c : dsp_core) (shift n : Z) : Z := (cur_inst c ≫ shift) .& BITMASK n.

(** [read_memory_p(dsp, dsp->pc+1); dsp->cur_inst_len++] *)
Definition next_word (c : dsp_core) : outcome (Z * dsp_core) :=
  xxxx ← read_memory_p c (u32 (pc c + 1));
  Ok (xxxx, c <| cur_inst_len := u32 (cur_inst_len c + 1) |>).

Definition emu_add_x (x d : Z) (c : dsp_core) : dsp_core :=
  let d := accum_of d in
  let '(newsr, dest) := dsp_add56 (word48 x 0) (load_acc c d) in
  set_vc (ccr (store_acc c d dest) dest) newsr.

Definition emu_add_imm (c : dsp_core) : outcome dsp_core :=
  Ok (emu_add_x (inst_bits c 8 6) (inst_bits c 3 1) c).
Definition emu_add_long (c : dsp_core) : outcome dsp_core :=
  '(xxxx, c) ← next_word c; Ok (emu_add_x xxxx (inst_bits c 3 1) c).

Definition emu_sub_x (x d : Z) (c : dsp_core) : dsp_core :=
  let d := accum_of d in
  let '(newsr, dest) := dsp_sub56 (word48 x 0) (load_acc c d) in
  set_vc (ccr (store_acc c d dest) dest) newsr.

Definition emu_sub_imm (c : dsp_core) : outcome dsp_core :=
  Ok (emu_sub_x (inst_bits c 8 6) (inst_bits c 3 1) c).
Definition emu_sub_long (c : dsp_core) : outcome dsp_core :=
  '(xxxx, c) ← next_word c; Ok (emu_sub_x xxxx (inst_bits c 3 1) c).

(** The operand of the immediate comparisons is not sign-extended. *)
Definition cmp_words (source : acc) (d : Z) (c : dsp_core) : dsp_core :=
  let '(newsr, dest) := dsp_sub56 source (load_acc c (accum_of d)) in
  set_vc (ccr c dest) newsr.

Definition emu_cmp_imm (c : dsp_core) : outcome dsp_core :=
  Ok (cmp_words (mkAcc 0 (inst_bits c 8 6) 0) (inst_bits c 3 1) c).
Definition emu_cmp_long (c : dsp_core) : outcome dsp_core :=
  '(xxxx, c) ← next_word c; Ok (cmp_words (mkAcc 0 xxxx 0) (inst_bits c 3 1) c).

Definition emu_cmpu (c : dsp_core) : outcome dsp_core :=
  let ggg := inst_bits c 1 3 in
  let d := inst_bits c 0 1 in
  let srcreg :=
    match ggg with
    | 0 => if negb (d =? 0) then DSP_REG_A else DSP_REG_B
    | 4 => DSP_REG_X0 | 5 => DSP_REG_Y0 | 6 => DSP_REG_X1 | 7 => DSP_REG_Y1
    | _ => DSP_REG_NULL
    end in
  let dest := load_acc c (accum_of d) in
  let '(value, c) := read_source c srcreg in
  let '(newsr, dest) := dsp_sub56 (word48 value 0) dest in
  let c := clear_sr c ((1 ≪ DSP_SR_V) .| (1 ≪ DSP_SR_C) .| (1 ≪ DSP_SR_Z) .| (1 ≪ DSP_SR_N)) in
  let c := or_sr c (newsr .& (1 ≪ DSP_SR_C)) in
  let c := if (dest0 dest =? 0) && (dest2 dest =? 0) && (dest1 dest =? 0) then or_sr c (1 ≪ DSP_SR_Z) else c in
  Ok (or_sr c ((dest0 dest ≫ 4) .& 0x8)).

Definition emu_dec (c : dsp_core) : outcome dsp_core :=
  let d := accum_of (inst_bits c 0 1) in
  let '(newsr, dest) := dsp_sub56 (mkAcc 0 0 1) (load_acc c d) in
  Ok (set_vc (ccr (store_acc c d dest) dest) newsr).

Definition emu_inc (c : dsp_core) : outcome dsp_core :=
  let d := accum_of (inst_bits c 0 1) in
  let '(newsr, dest) := dsp_add56 (mkAcc 0 0 1) (load_acc c d) in
  Ok (set_vc (ccr (store_acc c d dest) dest) newsr).

Definition emu_and_x (x d : Z) (c : dsp_core) : dsp_core :=
  let d := accum_of d in
  let c := set_reg c (R1 d) (reg c (R1 d) .& x) in
  logic_nz (clear_sr c ((1 ≪ DSP_SR_N) .| (1 ≪ DSP_SR_Z) .| (1 ≪ DSP_SR_V))) d.

Definition emu_and_imm (c : dsp_core) : outcome dsp_core :=
  Ok (emu_and_x (inst_bits c 8 6) (inst_bits c 3 1) c).
Definition emu_and_long (c : dsp_core) : outcome dsp_core :=
  '(xxxx, c) ← next_word c; Ok (emu_and_x xxxx (inst_bits c 3 1) c).

Definition emu_or_long (c : dsp_core) : outcome dsp_core :=
  '(xxxx, c) ← next_word c;
  let d := accum_of (inst_bits c 3 1) in
  let c := set_reg c (R1 d) (reg c (R1 d) .| xxxx) in
  Ok (logic_nz (clear_sr c ((1 ≪ DSP_SR_N) .| (1 ≪ DSP_SR_Z) .| (1 ≪ DSP_SR_V))) d).

Definition emu_andi (c : dsp_core) : outcome dsp_core :=
  let value := inst_bits c 8 8 in
  Ok (match inst_bits c 0 2 with
      | 0 => set_reg c DSP_REG_SR (reg c DSP_REG_SR .& ((value ≪ 8) .| BITMASK 8))
      | 1 => set_reg c DSP_REG_SR (reg c DSP_REG_SR .& ((BITMASK 8 ≪ 8) .| value))
      | 2 => set_reg c DSP_REG_OMR (reg c DSP_REG_OMR .& value)
      | _ => c
      end).

Definition emu_ori (c : dsp_core) : outcome dsp_core :=
  let value := inst_bits c 8 8 in
  Ok (match inst_bits c 0 2 with
      | 0 => set_reg c DSP_REG_SR (reg c DSP_REG_SR .| (value ≪ 8))
      | 1 => set_reg c DSP_REG_SR (reg c DSP_REG_SR .| value)
      | 2 => set_reg c DSP_REG_OMR (reg c DSP_REG_OMR .| value)
      | _ => c
      end).

(** Shifts by an immediate count, from one accumulator to another. *)
Definition emu_asl_imm (c : dsp_core) : outcome dsp_core :=
  '(newsr, dest) ← dsp_asl56 (load_acc c (accum_of (inst_bits c 7 1))) (inst_bits c 1 6);
  let c := store_acc c (accum_of (inst_bits c 0 1)) dest in
  Ok (ccr (or_sr (clear_sr c ((1 ≪ DSP_SR_C) .| (1 ≪ DSP_SR_V))) newsr) dest).

Definition emu_asr_imm (c : dsp_core) : outcome dsp_core :=
  '(newsr, dest) ← dsp_asr56 (load_acc c (accum_of (inst_bits c 7 1))) (inst_bits c 1 6);
  let c := store_acc c (accum_of (inst_bits c 0 1)) dest in
  Ok (ccr (or_sr (clear_sr c ((1 ≪ DSP_SR_C) .| (1 ≪ DSP_SR_V))) newsr) dest).

Definition emu_lsl_imm (c : dsp_core) : outcome dsp_core :=
  let d := accum_of (inst_bits c 0 1) in
  Ok (Nat.iter (Z.to_nat (inst_bits c 1 5)) (emu_lsl d) c).

(** X0, Y0, X1, Y1 *)
Definition xy_of (f : Z) : Z :=
  match f with 0 => DSP_REG_X0 | 1 => DSP_REG_Y0 | 2 => DSP_REG_X1 | _ => DSP_REG_Y1 end.

(** One step of a non-restoring division. *)
Definition emu_div (c : dsp_core) : outcome dsp_core :=
  let source := word48 (reg c (xy_of (inst_bits c 4 2))) 0 in
  let d := accum_of (inst_bits c 3 1) in
  let dest := load_acc c d in
  let add := negb (((dest0 dest ≫ 7) .& 1) .^ ((dest1 source ≫ 23) .& 1) =? 0) in
  '(newsr, dest) ← dsp_asl56 dest 1;
  let dest := if add then (dsp_add56 source dest).2 else (dsp_sub56 source dest).2 in
  let dest := mkAcc (dest0 dest) (dest1 dest) (dest2 dest .| ((reg c DSP_REG_SR ≫ DSP_SR_C) .& 1)) in
  let c := store_acc c d dest in
  let c := clear_sr c ((1 ≪ DSP_SR_C) .| (1 ≪ DSP_SR_V)) in
  let c := or_sr c ((1 - ((dest0 dest ≫ 7) .& 1)) ≪ DSP_SR_C) in
  let c := or_sr c (newsr .& (1 ≪ DSP_SR_L)) in
  Ok (or_sr c (newsr .& (1 ≪ DSP_SR_V))).

Definition emu_mpyi (c : dsp_core) : outcome dsp_core :=
  '(xxxx, c) ← next_word c;
  let signe := negb (inst_bits c 2 1 =? 0) in
  let d := accum_of (inst_bits c 3 1) in
  source ← dsp_mul56 xxxx (reg c (xy_of (inst_bits c 4 2))) signe;
  Ok (clear_sr (ccr (store_acc c d source) source) (1 ≪ DSP_SR_V)).

(** One step of a normalisation. *)
Definition emu_norm (c : dsp_core) : outcome dsp_core :=
  let cursr := reg c DSP_REG_SR in
  let cur_e := (cursr ≫ DSP_SR_E) .& 1 in
  let cur_euz := Z.lnot cur_e .& ((cursr ≫ DSP_SR_U) .& 1) .& Z.lnot ((cursr ≫ DSP_SR_Z) .& 1) .& 1 in
  let d := accum_of (inst_bits c 3 1) in
  let dest := load_acc c d in
  let rreg := DSP_REG_R0 + inst_bits c 8 3 in
  '(newsr, dest, c) ←
    (if negb (cur_euz =? 0) then
       '(newsr, dest) ← dsp_asl56 dest 1;
       Ok (newsr, dest, set_reg c rreg (u32 (reg c rreg - 1) .& BITMASK 16))
     else if negb (cur_e =? 0) then
       '(newsr, dest) ← dsp_asr56 dest 1;
       Ok (newsr, dest, set_reg c rreg (u32 (reg c rreg + 1) .& BITMASK 16))
     else Ok (0, dest, c));
  Ok (set_vc (ccr (store_acc c d dest) dest) newsr).

Definition emu_tcc (c : dsp_core) : outcome dsp_core :=
  if emu_calc_cc c (inst_bits c 12 4) then
    '(regsrc1, regdest1) ← rd registers_tcc (inst_bits c 3 4);
    let v := if regsrc1 =? DSP_REG_A then load_acc c A
             else if regsrc1 =? DSP_REG_B then load_acc c B
             else word48 (reg c regsrc1) 0 in
    let c := store_acc c (if regdest1 =? DSP_REG_A then A else B) v in
    if flag (cur_inst c) (1 ≪ 16) then
      Ok (set_reg c (DSP_REG_R0 + inst_bits c 0 3) (reg c (DSP_REG_R0 + inst_bits c 8 3)))
    else Ok c
  else Ok c.

Definition emu_lua (c : dsp_core) : outcome dsp_core :=
  let srcreg := inst_bits c 8 3 in
  let srcsave := reg c (DSP_REG_R0 + srcreg) in
  '(_, _, c) ← emu_calc_ea c (inst_bits c 8 5);
  let srcnew := reg c (DSP_REG_R0 + srcreg) in
  let c := set_reg c (DSP_REG_R0 + srcreg) srcsave in
  let dstreg := inst_bits c 0 3 in
  let c := if flag (cur_inst c) (1 ≪ 3) then set_reg c (DSP_REG_N0 + dstreg) srcnew
           else set_reg c (DSP_REG_R0 + dstreg) srcnew in
  Ok (add_cycles c 2).

Definition emu_lua_rel (c : dsp_core) : outcome dsp_core :=
  let aa := inst_bits c 4 4 + (inst_bits c 11 3 ≪ 4) in
  off ← dsp_signextend 7 aa;
  let v := u32 (reg c (DSP_REG_R0 + inst_bits c 8 3) + off) .& BITMASK 24 in
  let dstreg := inst_bits c 0 3 in
  let c := if flag (cur_inst c) (1 ≪ 3) then set_reg c (DSP_REG_N0 + dstreg) v
           else set_reg c (DSP_REG_R0 + dstreg) v in
  Ok (add_cycles c 2).

Definition emu_illegal (c : dsp_core) : outcome dsp_core :=
  c ← dsp56k_add_interrupt c DSP_INTER_ILLEGAL;
  c_assert (negb (exception_debugging c)) ;; Ok c.

Definition emu_reset (c : dsp_core) : outcome dsp_core := Ok (add_cycles c 2).

(** NOP, STOP and WAIT. *)
Definition emu_nothing (c : dsp_core) : outcome dsp_core := Ok c.

(** ** Jumps, branches and subroutines *)

(** [dsp->pc = newpc; dsp->cur_inst_len = 0] *)
Definition jump_to (c : dsp_core) (newpc : Z) : dsp_core := c <| pc := newpc |> <| cur_inst_len := 0 |>.

(** [dsp->pc += xxxx; dsp->pc &= BITMASK(24); dsp->cur_inst_len = 0] *)
Definition branch_by (c : dsp_core) (xxxx : Z) : dsp_core := jump_to c (u32 (pc c + xxxx) .& BITMASK 24).

(** The nine-bit displacement of the short branches. *)
Definition short_offset (c : dsp_core) : outcome Z :=
  dsp_signextend 9 ((cur_inst c .& BITMASK 5) + ((cur_inst c .& (BITMASK 4 ≪ 6)) ≫ 1)).

Definition emu_bcc_long (c : dsp_core) : outcome dsp_core :=
  '(xxxx, c) ← next_word c;
  Ok (if emu_calc_cc c (inst_bits c 0 4) then branch_by c xxxx else c).

Definition emu_bcc_imm (c : dsp_core) : outcome dsp_core :=
  if emu_calc_cc c (inst_bits c 12 4) then xxx ← short_offset c; Ok (branch_by c xxx) else Ok c.

Definition emu_bra_long (c : dsp_core) : outcome dsp_core :=
  '(xxxx, c) ← next_word c; Ok (branch_by c xxxx).

Definition emu_bra_imm (c : dsp_core) : outcome dsp_core :=
  xxx ← short_offset c; Ok (branch_by c xxx).

(** The return address of a call: pushed, except in a long interrupt. *)
Definition push_return (c : dsp_core) : outcome dsp_core :=
  if negb (interrupt_state c =? DSP_INTERRUPT_LONG)
  then dsp_stack_push c (u32 (pc c + cur_inst_len c)) (reg c DSP_REG_SR) false
  else Ok (c <| interrupt_state := DSP_INTERRUPT_DISABLED |>).

Definition emu_bsr_long (c : dsp_core) : outcome dsp_core :=
  '(xxxx, c) ← next_word c;
  c ← push_return c;
  Ok (add_cycles (branch_by c xxxx) 4).

Definition emu_bsr_imm (c : dsp_core) : outcome dsp_core :=
  xxx ← short_offset c;
  c ← push_return c;
  Ok (add_cycles (branch_by c xxx) 2).

Definition emu_jcc_imm (c : dsp_core) : outcome dsp_core :=
  let newpc := inst_bits c 0 12 in
  Ok (add_cycles (if emu_calc_cc c (inst_bits c 12 4) then jump_to c newpc else c) 2).

Definition emu_jcc_ea (c : dsp_core) : outcome dsp_core :=
  '(_, newpc, c) ← emu_calc_ea c (inst_bits c 8 6);
  Ok (add_cycles (if emu_calc_cc c (inst_bits c 0 4) then jump_to c newpc else c) 2).

Definition emu_jmp_imm (c : dsp_core) : outcome dsp_core :=
  Ok (add_cycles (jump_to c (inst_bits c 0 12)) 2).

Definition emu_jmp_ea (c : dsp_core) : outcome dsp_core :=
  '(_, newpc, c) ← emu_calc_ea c (inst_bits c 8 6);
  Ok (add_cycles (jump_to c newpc) 2).

Definition emu_jscc_imm (c : dsp_core) : outcome dsp_core :=
  let newpc := inst_bits c 0 12 in
  c ← (if emu_calc_cc c (inst_bits c 12 4) then
         c ← dsp_stack_push c (u32 (pc c + cur_inst_len c)) (reg c DSP_REG_SR) false;
         Ok (jump_to c newpc)
       else Ok c);
  Ok (add_cycles c 2).

Definition emu_jscc_ea (c : dsp_core) : outcome dsp_core :=
  '(_, newpc, c) ← emu_calc_ea c (inst_bits c 8 6);
  c ← (if emu_calc_cc c (inst_bits c 0 4) then
         c ← dsp_stack_push c (u32 (pc c + cur_inst_len c)) (reg c DSP_REG_SR) false;
         Ok (jump_to c newpc)
       else Ok c);
  Ok (add_cycles c 2).

Definition emu_jsr_imm (c : dsp_core) : outcome dsp_core :=
  let newpc := inst_bits c 0 12 in
  c ← push_return c;
  Ok (add_cycles (jump_to c newpc) 2).

Definition emu_jsr_ea (c : dsp_core) : outcome dsp_core :=
  '(_, newpc, c) ← emu_calc_ea c (inst_bits c 8 6);
  c ← push_return c;
  Ok (add_cycles (jump_to c newpc) 2).

Definition emu_rti (c : dsp_core) : outcome dsp_core :=
  '(newpc, newsr, c) ← dsp_stack_pop c;
  Ok (add_cycles (set_reg (jump_to c newpc) DSP_REG_SR newsr) 2).

Definition emu_rts (c : dsp_core) : outcome dsp_core :=
  '(newpc, _, c) ← dsp_stack_pop c;
  Ok (add_cycles (jump_to c newpc) 2).

(** ** Hardware loops *)

(** The address after the DO instruction and the status register, and the LF bit. *)
Definition push_loop (c : dsp_core) : outcome dsp_core :=
  c ← dsp_stack_push c (u32 (pc c + cur_inst_len c)) (reg c DSP_REG_SR) false;
  Ok (or_sr c (1 ≪ DSP_SR_LF)).

(** The absolute form: LA from the second word. *)
Definition start_do (c : dsp_core) : outcome dsp_core :=
  c ← dsp_stack_push c (reg c DSP_REG_LA) (reg c DSP_REG_LC) false;
  '(xxxx, c) ← next_word c;
  Ok (set_reg c DSP_REG_LA (xxxx .& BITMASK 16)).

(** The relative form. *)
Definition start_dor (c : dsp_core) : outcome dsp_core :=
  '(xxxx, c) ← next_word c;
  c ← dsp_stack_push c (reg c DSP_REG_LA) (reg c DSP_REG_LC) false;
  Ok (set_reg c DSP_REG_LA (u32 (pc c + xxxx) .& BITMASK 16)).

(** The twelve-bit loop count of the immediate forms. *)
Definition loop_count (c : dsp_core) : Z := inst_bits c 8 8 + ((cur_inst c .& BITMASK 4) ≪ 8).

(** LC from a register; an accumulator is read limited. *)
Definition lc_from_reg (c : dsp_core) : dsp_core :=
  let '(v, c) := read_source c (inst_bits c 8 6) in
  set_reg c DSP_REG_LC (v .& BITMASK 16).

Definition emu_do_imm (c : dsp_core) : outcome dsp_core :=
  c ← start_do c;
  c ← push_loop c;
  Ok (add_cycles (set_reg c DSP_REG_LC (loop_count c)) 4).

Definition emu_do_reg (c : dsp_core) : outcome dsp_core :=
  c ← start_do c;
  c ← push_loop (lc_from_reg c);
  Ok (add_cycles c 4).

Definition emu_dor_imm (c : dsp_core) : outcome dsp_core :=
  c ← start_dor c;
  c ← push_loop c;
  Ok (add_cycles (set_reg c DSP_REG_LC (loop_count c)) 4).

Definition emu_dor_reg (c : dsp_core) : outcome dsp_core :=
  c ← start_dor c;
  c ← push_loop c;
  Ok (add_cycles (lc_from_reg c) 4).

Definition emu_enddo (c : dsp_core) : outcome dsp_core :=
  '(_, saved_sr, c) ← dsp_stack_pop c;
  let c := set_reg c DSP_REG_SR (reg c DSP_REG_SR .& 0x7f) in
  let c := or_sr c (saved_sr .& (1 ≪ DSP_SR_LF)) in
  '(la, lc, c) ← dsp_stack_pop c;
  Ok (set_reg (set_reg c DSP_REG_LA la) DSP_REG_LC lc).

(** [LCSAVE = LC; pc_on_rep = 1; loop_rep = 1] *)
Definition start_rep (c : dsp_core) : dsp_core :=
  (set_reg c DSP_REG_LCSAVE (reg c DSP_REG_LC)) <| pc_on_rep := 1 |> <| loop_rep := 1 |>.

Definition emu_rep_imm (c : dsp_core) : outcome dsp_core :=
  let c := start_rep c in
  Ok (add_cycles (set_reg c DSP_REG_LC (loop_count c)) 2).

Definition emu_rep_reg (c : dsp_core) : outcome dsp_core :=
  Ok (add_cycles (lc_from_reg (start_rep c)) 2).

(** ** Instructions that access memory *)

Section memory_instructions.
Context {S : Type} `{HasCore S}.

(** An instruction of the core, and the ways to thread a core through. *)
Definition on_core (f : dsp_core -> outcome dsp_core) (s : S) : outcome S :=
  c ← f (core_of s); Ok (with_core s c).
Definition map_core (f : dsp_core -> dsp_core) (s : S) : S := with_core s (f (core_of s)).

(** Where the operand of a bit instruction is: a short address, an effective
    address, a peripheral address, or a register. *)
Inductive operand := AA | EA | PP | REG.
Inductive loc := LMem (space addr : Z) | LReg (numreg : Z).

Definition locate (f : operand) (s : S) : outcome (loc * S) :=
  let c := core_of s in
  let memspace := inst_bits c 6 1 in
  let value := inst_bits c 8 6 in
  match f with
  | AA => Ok (LMem memspace value, s)
  | EA => '(_, addr, c) ← emu_calc_ea c value; Ok (LMem memspace addr, with_core s c)
  | PP => Ok (LMem memspace (0xffffc0 + value), s)
  | REG => Ok (LReg value, s)
  end.

Definition read_loc (l : loc) (s : S) : outcome (Z * S) :=
  match l with
  | LMem space addr => v ← dsp56k_read_memory s space addr; Ok (v, s)
  | LReg numreg => let '(v, c) := read_source (core_of s) numreg in Ok (v, with_core s c)
  end.

Definition write_loc (l : loc) (value : Z) (s : S) : outcome S :=
  match l with
  | LMem space addr => dsp56k_write_memory s space addr value
  | LReg numreg => c ← dsp_write_reg (core_of s) numreg value; Ok (with_core s c)
  end.

(** The C bit from the tested bit, and two cycles. *)
Definition set_carry (newcarry : Z) (c : dsp_core) : dsp_core :=
  add_cycles (or_sr (clear_sr c (1 ≪ DSP_SR_C)) (newcarry ≪ DSP_SR_C)) 2.

(** Read, modify, write; the carry is the old bit. *)
Definition bit_modify (modify : Z -> Z -> Z) (f : operand) (s : S) : outcome S :=
  let numbit := inst_bits (core_of s) 0 5 in
  '(l, s) ← locate f s;
  '(value, s) ← read_loc l s;
  let newcarry := (value ≫ numbit) .& 1 in
  s ← write_loc l (modify numbit value) s;
  Ok (map_core (set_carry newcarry) s).

Definition emu_bchg : operand -> S -> outcome S :=
  bit_modify (fun numbit value =>
    let newcarry := (value ≫ numbit) .& 1 in
    if negb (newcarry =? 0) then u32 (value - bit32 numbit) else u32 (value + bit32 numbit)).

Definition emu_bclr : operand -> S -> outcome S :=
  bit_modify (fun numbit value => value .& u32 (0xffffffff - bit32 numbit)).

Definition emu_bset : operand -> S -> outcome S :=
  bit_modify (fun numbit value => value .| bit32 numbit).

Definition emu_btst (f : operand) (s : S) : outcome S :=
  let numbit := inst_bits (core_of s) 0 5 in
  '(l, s) ← locate f s;
  '(value, s) ← read_loc l s;
  let newcarry := (value ≫ numbit) .& 1 in
  Ok (map_core (set_carry newcarry) s).

(** A jump, or call, to the second word when the bit has the wanted value. *)
Definition bit_jump (want : bool) (subroutine : bool) (f : operand) (s : S) : outcome S :=
  let numbit := inst_bits (core_of s) 0 5 in
  '(l, s) ← locate f s;
  '(value, s) ← read_loc l s;
  let c := core_of s in
  newaddr ← read_memory_p c (u32 (pc c + 1));
  let c := add_cycles c 4 in
  if Bool.eqb (flag value (bit32 numbit)) want then
    c ← (if subroutine then dsp_stack_push c (u32 (pc c + 2)) (reg c DSP_REG_SR) false else Ok c);
    Ok (with_core s (jump_to c newaddr))
  else Ok (with_core s (c <| cur_inst_len := u32 (cur_inst_len c + 1) |>)).

Definition emu_jclr : operand -> S -> outcome S := bit_jump false false.
Definition emu_jset : operand -> S -> outcome S := bit_jump true false.
Definition emu_jsclr : operand -> S -> outcome S := bit_jump false true.
Definition emu_jsset : operand -> S -> outcome S := bit_jump true true.

(** A relative branch when the bit has the wanted value. *)
Definition bit_branch (want : bool) (f : operand) (s : S) : outcome S :=
  '(xxxx, c) ← next_word (core_of s);
  let s := with_core s c in
  let numbit := inst_bits c 0 5 in
  '(l, s) ← locate f s;
  '(value, s) ← read_loc l s;
  let c := add_cycles (core_of s) 4 in
  Ok (with_core s (if Bool.eqb (flag value (bit32 numbit)) want then branch_by c xxxx else c)).

Definition emu_brclr : operand -> S -> outcome S := bit_branch false.
Definition emu_brset : operand -> S -> outcome S := bit_branch true.

(** DO and REP with a count in memory. *)
Definition emu_do_mem (f : operand) (s : S) : outcome S :=
  c ← start_do (core_of s);
  c ← push_loop c;
  '(l, s) ← locate f (with_core s c);
  '(v, s) ← read_loc l s;
  Ok (map_core (fun c => add_cycles (set_reg c DSP_REG_LC (v .& BITMASK 16)) 4) s).

Definition emu_rep_mem (f : operand) (s : S) : outcome S :=
  '(l, s) ← locate f (map_core start_rep s);
  '(v, s) ← read_loc l s;
  Ok (map_core (fun c => add_cycles (set_reg c DSP_REG_LC v) 2) s).

(** ** Moves of control registers, program memory and peripherals *)

(** [value &= BITMASK(registers_mask[numreg]); dsp_write_reg(dsp, numreg, value)] *)
Definition write_masked (c : dsp_core) (numreg value : Z) : outcome dsp_core :=
  m ← rd registers_mask numreg;
  dsp_write_reg c numreg (value .& BITMASK m).

(** Read a register; SSH pops the stack. *)
Definition read_or_pop (c : dsp_core) (numreg : Z) : outcome (Z * dsp_core) :=
  if numreg =? DSP_REG_SSH then '(v, _, c) ← dsp_stack_pop c; Ok (v, c)
  else Ok (reg c numreg, c).

(** The same, an accumulator being limited. *)
Definition read_limit_or_pop (c : dsp_core) (numreg : Z) : outcome (Z * dsp_core) :=
  if numreg =? DSP_REG_SSH then '(v, _, c) ← dsp_stack_pop c; Ok (v, c)
  else Ok (read_source c numreg).

Definition emu_movec_reg (c : dsp_core) : outcome dsp_core :=
  let numreg2 := inst_bits c 8 6 in
  let numreg1 := inst_bits c 0 6 in
  if flag (cur_inst c) (1 ≪ 15) then
    let '(value, c) := read_source c numreg2 in
    write_masked c numreg1 value
  else
    '(value, c) ← read_or_pop c numreg1;
    let ext := ext24 value in
    if numreg2 =? DSP_REG_A then
      Ok (set_reg (set_reg (set_reg c DSP_REG_A0 0) DSP_REG_A1 (value .& BITMASK 24)) DSP_REG_A2 ext)
    else if numreg2 =? DSP_REG_B then
      Ok (set_reg (set_reg (set_reg c DSP_REG_B0 0) DSP_REG_B1 (value .& BITMASK 24)) DSP_REG_B2 ext)
    else
      m ← rd registers_mask numreg2;
      Ok (set_reg c numreg2 (value .& BITMASK m)).

Definition emu_movec_imm (c : dsp_core) : outcome dsp_core :=
  write_masked c (inst_bits c 0 6) (inst_bits c 8 8).

Definition emu_movec_aa (s : S) : outcome S :=
  let c := core_of s in
  let numreg := inst_bits c 0 6 in
  let addr := inst_bits c 8 6 in
  let memspace := inst_bits c 6 1 in
  if flag (cur_inst c) (1 ≪ 15) then
    value ← dsp56k_read_memory s memspace addr;
    c ← write_masked c numreg value; Ok (with_core s c)
  else
    '(value, c) ← read_or_pop c numreg;
    dsp56k_write_memory (with_core s c) memspace addr value.

Definition emu_movec_ea (s : S) : outcome S :=
  let c := core_of s in
  let numreg := inst_bits c 0 6 in
  let memspace := inst_bits c 6 1 in
  '(retour, addr, c) ← emu_calc_ea c (inst_bits c 8 6);
  if flag (cur_inst c) (1 ≪ 15) then
    value ← (if negb (retour =? 0) then Ok addr else dsp56k_read_memory (with_core s c) memspace addr);
    c ← write_masked c numreg value; Ok (with_core s c)
  else
    '(value, c) ← read_or_pop c numreg;
    dsp56k_write_memory (with_core s c) memspace addr value.

(** Between a register and program memory. *)
Definition move_p (addr : Z) (s : S) : outcome S :=
  let c := core_of s in
  let numreg := inst_bits c 0 6 in
  s ← (if flag (cur_inst c) (1 ≪ 15) then
         value ← read_memory_p c addr;
         c ← write_masked c numreg value; Ok (with_core s c)
       else
         '(value, c) ← read_limit_or_pop c numreg;
         dsp56k_write_memory (with_core s c) DSP_SPACE_P addr value);
  Ok (map_core (fun c => add_cycles c 4) s).

Definition emu_movem_aa (s : S) : outcome S := move_p (inst_bits (core_of s) 8 6) s.

Definition emu_movem_ea (s : S) : outcome S :=
  '(_, addr, c) ← emu_calc_ea (core_of s) (inst_bits (core_of s) 8 6);
  move_p addr (with_core s c).

(** Between a register and a peripheral. *)
Definition emu_movep_0 (s : S) : outcome S :=
  let c := core_of s in
  let addr := 0xffffc0 + inst_bits c 0 6 in
  let memspace := inst_bits c 16 1 in
  let numreg := inst_bits c 8 6 in
  s ← (if flag (cur_inst c) (1 ≪ 15) then
         '(value, c) ← read_limit_or_pop c numreg;
         dsp56k_write_memory (with_core s c) memspace addr value
       else
         value ← dsp56k_read_memory s memspace addr;
         c ← write_masked c numreg value; Ok (with_core s c));
  Ok (map_core (fun c => add_cycles c 2) s).

(** Between program memory and a peripheral. *)
Definition emu_movep_1 (s : S) : outcome S :=
  let c := core_of s in
  let xyaddr := 0xffffc0 + inst_bits c 0 6 in
  let memspace := inst_bits c 16 1 in
  '(_, paddr, c) ← emu_calc_ea c (inst_bits c 8 6);
  let s := with_core s c in
  s ← (if flag (cur_inst c) (1 ≪ 15) then
         v ← read_memory_p c paddr;
         dsp56k_write_memory s memspace xyaddr v
       else
         v ← dsp56k_read_memory s memspace xyaddr;
         dsp56k_write_memory s DSP_SPACE_P paddr v);
  Ok (map_core (fun c => add_cycles c 4) s).

(** Between data memory, or an immediate, and the peripheral at [peraddr]. *)
Definition move_periph (perspace peraddr : Z) (s : S) : outcome S :=
  let c := core_of s in
  let easpace := inst_bits c 6 1 in
  '(retour, addr, c) ← emu_calc_ea c (inst_bits c 8 6);
  let s := with_core s c in
  s ← (if flag (cur_inst c) (1 ≪ 15) then
         v ← (if negb (retour =? 0) then Ok addr else dsp56k_read_memory s easpace addr);
         dsp56k_write_memory s perspace peraddr v
       else
         v ← dsp56k_read_memory s perspace peraddr;
         dsp56k_write_memory s easpace addr v);
  Ok (map_core (fun c => add_cycles c 2) s).

Definition emu_movep_23 (s : S) : outcome S :=
  move_periph (inst_bits (core_of s) 16 1) (0xffffc0 + inst_bits (core_of s) 0 6) s.

Definition emu_movep_x_qq (s : S) : outcome S :=
  move_periph DSP_SPACE_X (0xffff80 + inst_bits (core_of s) 0 6) s.

(** Between a register and memory at a displacement from an address register. *)
Definition move_displaced (space addr numreg : Z) (w : bool) (s : S) : outcome S :=
  let c := core_of s in
  if negb w then
    let '(value, c) := read_source c numreg in
    dsp56k_write_memory (with_core s c) space addr value
  else
    value ← dsp56k_read_memory s space addr;
    c ← dsp_write_reg c numreg value; Ok (with_core s c).

Definition emu_move_x_long (s : S) : outcome S :=
  '(xxxx, c) ← next_word (core_of s);
  let offreg := DSP_REG_R0 + inst_bits c 8 3 in
  let x_addr := u32 (reg c offreg + xxxx) .& BITMASK 24 in
  move_displaced DSP_SPACE_X x_addr (inst_bits c 0 6) (negb (inst_bits c 6 1 =? 0)) (with_core s c).

Definition emu_move_xy_imm (space : Z) (s : S) : outcome S :=
  let c := core_of s in
  let xxx := (inst_bits c 11 6 ≪ 1) + inst_bits c 6 1 in
  off ← dsp_signextend 7 xxx;
  let offreg := DSP_REG_R0 + inst_bits c 8 3 in
  let addr := u32 (reg c offreg + off) .& BITMASK 24 in
  move_displaced space addr (inst_bits c 0 4) (negb (inst_bits c 4 1 =? 0)) s.

(** ** The functions by name *)

Definition emu_functions : list (string * (S -> outcome S)) := [
  ("emu_add_imm", on_core emu_add_imm); ("emu_add_long", on_core emu_add_long);
  ("emu_and_imm", on_core emu_and_imm); ("emu_and_long", on_core emu_and_long);
  ("emu_andi", on_core emu_andi); ("emu_asl_imm", on_core emu_asl_imm); ("emu_asr_imm", on_core emu_asr_imm);
  ("emu_bcc_long", on_core emu_bcc_long); ("emu_bcc_imm", on_core emu_bcc_imm);
  ("emu_bchg_ea", emu_bchg EA); ("emu_bchg_aa", emu_bchg AA); ("emu_bchg_pp", emu_bchg PP); ("emu_bchg_reg", emu_bchg REG);
  ("emu_bclr_ea", emu_bclr EA); ("emu_bclr_aa", emu_bclr AA); ("emu_bclr_pp", emu_bclr PP); ("emu_bclr_reg", emu_bclr REG);
  ("emu_bra_long", on_core emu_bra_long); ("emu_bra_imm", on_core emu_bra_imm);
  ("emu_brclr_pp", emu_brclr PP); ("emu_brclr_reg", emu_brclr REG);
  ("emu_brset_pp", emu_brset PP); ("emu_brset_reg", emu_brset REG);
  ("emu_bset_ea", emu_bset EA); ("emu_bset_aa", emu_bset AA); ("emu_bset_pp", emu_bset PP); ("emu_bset_reg", emu_bset REG);
  ("emu_bsr_long", on_core emu_bsr_long); ("emu_bsr_imm", on_core emu_bsr_imm);
  ("emu_btst_ea", emu_btst EA); ("emu_btst_aa", emu_btst AA); ("emu_btst_pp", emu_btst PP); ("emu_btst_reg", emu_btst REG);
  ("emu_cmp_imm", on_core emu_cmp_imm); ("emu_cmp_long", on_core emu_cmp_long); ("emu_cmpu", on_core emu_cmpu);
  ("emu_dec", on_core emu_dec); ("emu_div", on_core emu_div);
  ("emu_do_ea", emu_do_mem EA); ("emu_do_aa", emu_do_mem AA); ("emu_do_imm", on_core emu_do_imm); ("emu_do_reg", on_core emu_do_reg);
  ("emu_dor_imm", on_core emu_dor_imm); ("emu_dor_reg", on_core emu_dor_reg); ("emu_enddo", on_core emu_enddo);
  ("emu_illegal", on_core emu_illegal); ("emu_inc", on_core emu_inc);
  ("emu_jcc_imm", on_core emu_jcc_imm); ("emu_jcc_ea", on_core emu_jcc_ea);
  ("emu_jclr_ea", emu_jclr EA); ("emu_jclr_aa", emu_jclr AA); ("emu_jclr_pp", emu_jclr PP); ("emu_jclr_reg", emu_jclr REG);
  ("emu_jmp_ea", on_core emu_jmp_ea); ("emu_jmp_imm", on_core emu_jmp_imm);
  ("emu_jscc_imm", on_core emu_jscc_imm); ("emu_jscc_ea", on_core emu_jscc_ea);
  ("emu_jsclr_ea", emu_jsclr EA); ("emu_jsclr_aa", emu_jsclr AA); ("emu_jsclr_pp", emu_jsclr PP); ("emu_jsclr_reg", emu_jsclr REG);
  ("emu_jset_ea", emu_jset EA); ("emu_jset_aa", emu_jset AA); ("emu_jset_pp", emu_jset PP); ("emu_jset_reg", emu_jset REG);
  ("emu_jsr_imm", on_core emu_jsr_imm); ("emu_jsr_ea", on_core emu_jsr_ea);
  ("emu_jsset_ea", emu_jsset EA); ("emu_jsset_aa", emu_jsset AA); ("emu_jsset_pp", emu_jsset PP); ("emu_jsset_reg", emu_jsset REG);
  ("emu_lsl_imm", on_core emu_lsl_imm); ("emu_lua", on_core emu_lua); ("emu_lua_rel", on_core emu_lua_rel);
  ("emu_movec_ea", emu_movec_ea); ("emu_movec_aa", emu_movec_aa); ("emu_movec_reg", on_core emu_movec_reg);
  ("emu_movec_imm", on_core emu_movec_imm); ("emu_movem_ea", emu_movem_ea); ("emu_movem_aa", emu_movem_aa);
  ("emu_movep_0", emu_movep_0); ("emu_movep_1", emu_movep_1); ("emu_movep_23", emu_movep_23);
  ("emu_movep_x_qq", emu_movep_x_qq); ("emu_move_x_long", emu_move_x_long);
  ("emu_move_x_imm", emu_move_xy_imm DSP_SPACE_X); ("emu_move_y_imm", emu_move_xy_imm DSP_SPACE_Y);
  ("emu_mpyi", on_core emu_mpyi); ("emu_nop", on_core emu_nothing); ("emu_norm", on_core emu_norm);
  ("emu_or_long", on_core emu_or_long); ("emu_ori", on_core emu_ori);
  ("emu_rep_ea", emu_rep_mem EA); ("emu_rep_aa", emu_rep_mem AA); ("emu_rep_imm", on_core emu_rep_imm);
  ("emu_rep_reg", on_core emu_rep_reg); ("emu_reset", on_core emu_reset); ("emu_rti", on_core emu_rti);
  ("emu_rts", on_core emu_rts); ("emu_stop", on_core emu_nothing); ("emu_sub_imm", on_core emu_sub_imm);
  ("emu_sub_long", on_core emu_sub_long); ("emu_tcc", on_core emu_tcc); ("emu_wait", on_core emu_nothing)
]%string.

Definition emu (name : string) (s : S) : outcome S :=
  match List.find (fun p => String.eqb p.1 name) emu_functions with
  | Some (_, f) => f s
  | None => Undef
  end.

(** The driver with these functions. *)
Definition dsp_instruction : S -> opcache_t -> outcome (S * opcache_t) :=
  dsp56k_execute_instruction emu (on_core emu_undefined) opcodes_parmove.
End memory_instructions.
