(* ===== verification/DspInstrSpec.v ===== *)
(** * What the instructions of the DSP compute (mcpx/apu/dsp/dsp_emu.c.inc)

    Specifications of DspMove.v and DspInstr.v: an accumulator read by a move is
    limited to 24 bits, 24 DIV steps divide, a subroutine returns to its caller and
    a DO loop runs its body the given number of times.  The last section shows
    where single functions deviate from their family. *)

From stdpp Require Import base numbers list gmap strings.
From Stdlib Require Import ZArith Lia.
From S2P Require Import Prelude DspArith DspDecode DspCore DspAddr DspAlu DspAluSpec DspMove DspInstr.

(** ** Limiting *)

(** The nearest 24-bit two's complement number. *)
Definition sat24 (x : Z) : Z := Z.max (- 2 ^ 23) (Z.min (2 ^ 23 - 1) x).

(** The accumulator a register number selects, and its value as a move sees it in
    scaling mode [sc]. *)
Definition accum_read (k : Z) : accum := if k .& 1 =? 0 then A else B.
Definition move_value (c : dsp_core) (k sc : Z) : Z := sval56 (load_acc c (accum_read k)) / 2 ^ (24 + sc).

Lemma top_words a : acc_ok a ->
  sval56 a / 2 ^ 24 = sext 8 (dest0 a) * 2 ^ 24 + dest1 a.
Proof.
  intros [H0 H1 H2]. unfold sval56, val56, sext, in_u in *. cbv zeta.
  rewrite !(Z.mod_small _ (2 ^ 56)), (Z.mod_small _ (2 ^ 8)) by lia.
  change (2 ^ (56 - 1)) with (2 ^ 55). change (2 ^ (8 - 1)) with 128.
  destruct (Z.ltb_spec (dest0 a * 2 ^ 48 + dest1 a * 2 ^ 24 + dest2 a) (2 ^ 55)), (Z.ltb_spec (dest0 a) 128); try lia;
    symmetry; apply Z.div_unique_pos with (r := dest2 a); lia.
Qed.

(** The tests of the limiter on the two upper words. *)
Lemma limit_words {X} e w sc (x y : X) : in_u 8 e -> in_u 24 w -> sc = 0 \/ sc = 1 ->
  let value := (e * 2 ^ 24 + w) / 2 ^ sc mod 2 ^ 24 in
  let v := (sext 8 e * 2 ^ 24 + w) / 2 ^ sc in
  (if (e =? 0) && (value <=? 0x007fffff) then (0, value, x)
   else if (e =? 0xff) && (0x00800000 <=? value) then (0, value, x)
   else if 128 <=? e then (1, 0x00800000, y) else (1, 0x007fffff, y)) =
  (b2z (negb (sat24 v =? v)), sat24 v mod 2 ^ 24, if sat24 v =? v then x else y).
Proof.
  intros He Hw Hsc value v. unfold in_u in *. assert (Hv : v mod 2 ^ 24 = value).
  { subst v value. unfold sext. cbv zeta. rewrite (Z.mod_small e) by lia. change (2 ^ (8 - 1)) with 128.
    destruct (Z.ltb_spec e 128); [done |]. destruct Hsc as [-> | ->]; divmod_lia. }
  assert (Hlow : 0 <= value < 2 ^ 24) by (apply Z.mod_pos_bound; lia).
  assert (Hb : sext 8 e = if e <? 128 then e else e - 256)
    by (unfold sext; cbv zeta; rewrite (Z.mod_small e) by lia; done).
  assert (Hd : 2 ^ sc * v <= sext 8 e * 2 ^ 24 + w < 2 ^ sc * v + 2 ^ sc).
  { subst v. destruct Hsc as [-> | ->]; divmod_lia. }
  clearbody v value. assert (Hp : 2 ^ sc = 1 \/ 2 ^ sc = 2) by (destruct Hsc as [-> | ->]; auto).
  rewrite Hb in Hd. clear Hb. set (p := 2 ^ sc) in *. clearbody p. clear Hsc.
  destruct (Z.lt_ge_cases v (- 2 ^ 23)); [| destruct (Z.lt_ge_cases v (2 ^ 23))].
  - replace (sat24 v) with (- 2 ^ 23) by (unfold sat24; lia).
    destruct (Z.eqb_spec (- 2 ^ 23) v); [lia |]. cbn [negb b2z]. change (- 2 ^ 23 mod 2 ^ 24) with 0x00800000.
    destruct (Z.ltb_spec e 128), (Z.leb_spec 128 e), (Z.eqb_spec e 0), (Z.eqb_spec e 255); cbn [andb]; try lia; try done.
    all: destruct (Z.leb_spec 0x800000 value); try done; divmod_lia.
  - replace (sat24 v) with v by (unfold sat24; lia). rewrite Z.eqb_refl, Hv. cbn [negb b2z].
    destruct (Z.ltb_spec e 128), (Z.leb_spec 128 e), (Z.eqb_spec e 0), (Z.eqb_spec e 255); cbn [andb]; try lia.
    + destruct (Z.leb_spec value 0x007fffff); [done | divmod_lia].
    + destruct (Z.leb_spec 0x800000 value); [done | divmod_lia].
  - replace (sat24 v) with (2 ^ 23 - 1) by (unfold sat24; lia).
    destruct (Z.eqb_spec (2 ^ 23 - 1) v); [lia |]. cbn [negb b2z]. change ((2 ^ 23 - 1) mod 2 ^ 24) with 0x007fffff.
    destruct (Z.ltb_spec e 128), (Z.leb_spec 128 e), (Z.eqb_spec e 0), (Z.eqb_spec e 255); cbn [andb]; try lia; try done.
    all: destruct (Z.leb_spec value 0x7fffff); try done; divmod_lia.
Qed.

(** The word the limiter looks at. *)
Lemma limiter_word e w sc : in_u 8 e -> in_u 24 w -> sc = 0 \/ sc = 1 ->
  match sc with
  | 1 => u32 (u32 (e ≪ 24) + w) ≫ 1
  | _ => u32 (u32 (e ≪ 24) + w)
  end .& BITMASK 24 = (e * 2 ^ 24 + w) / 2 ^ sc mod 2 ^ 24.
Proof.
  intros He Hw Hsc. unfold in_u in *. rewrite land_BITMASK, Z.shiftl_mul_pow2 by lia.
  rewrite (Z.mod_small (e * 2 ^ 24)), (Z.mod_small (e * 2 ^ 24 + w)) by lia.
  destruct Hsc as [-> | ->]; [by rewrite Z.div_1_r | by rewrite shiftr_div by lia].
Qed.

Lemma sign_byte e : in_u 8 e -> flag e (1 ≪ 7) = (128 <=? e).
Proof.
  intros He. unfold in_u in He. rewrite flag_bit, Z.testbit_eqb by lia. change (2 ^ 7) with 128.
  destruct (Z.leb_spec 128 e); [replace (e / 128) with 1 by divmod_lia | replace (e / 128) with 0 by divmod_lia]; done.
Qed.

(** C14: A move out of an accumulator transfers the number it holds, limited to the
    24 bits of the bus: in the scaling modes 0 and 1 (one bit down) the value is
    the accumulator's, the extension byte included, clamped to the range of a
    24-bit fraction; the L bit is set and the limit reported exactly when it was
    outside that range, and nothing else changes. *)
Theorem accumulator_read_limits c k sc : regs_fit c -> scaling_of (reg c DSP_REG_SR) = sc -> sc = 0 \/ sc = 1 ->
  let v := move_value c k sc in
  emu_pm_read_accu24 c k =
    (b2z (negb (sat24 v =? v)), sat24 v mod 2 ^ 24, if sat24 v =? v then c else or_sr c (1 ≪ DSP_SR_L)).
Proof.
  intros Hc Hsc Hcases v. unfold emu_pm_read_accu24. fold (scaling_of (reg c DSP_REG_SR)). rewrite Hsc. cbv zeta.
  set (e := reg c (DSP_REG_A2 + (k .& 1))). set (w := reg c (DSP_REG_A1 + (k .& 1))).
  assert (He : in_u 8 e /\ in_u 24 w /\ v = (sext 8 e * 2 ^ 24 + w) / 2 ^ sc).
  { subst v e w. unfold move_value, accum_read. rewrite land_1, Z.pow_add_r, <- Z.div_div by (try apply Z.pow_pos_nonneg; lia).
    destruct (bit_cases k) as [-> | ->]; cbn [Z.eqb];
      (split; [apply Hc | split; [apply Hc |]]); by rewrite top_words by (by apply load_acc_ok). }
  destruct He as (He & Hw & ->). rewrite <- (limit_words e w sc c (or_sr c (1 ≪ DSP_SR_L))) by done.
  rewrite <- (limiter_word e w sc), sign_byte by done. cbv zeta. by destruct Hcases as [-> | ->].
Qed.

(** ** Division *)

Fixpoint div_steps (n : nat) (c : dsp_core) : outcome dsp_core :=
  match n with O => Ok c | S n => c ← emu_div c; div_steps n c end.

Lemma div_steps_S n c : div_steps (S n) c = (c ← emu_div c; div_steps n c).
Proof. done. Qed.

Lemma sval_of_mod r x : acc_ok r -> val56 r = x mod 2 ^ 56 -> - 2 ^ 55 <= x < 2 ^ 55 -> sval56 r = x.
Proof.
  intros Hr Hv Hx. unfold sval56, sext. rewrite Hv. cbv zeta. change (2 ^ (56 - 1)) with (2 ^ 55).
  destruct (Z.ltb_spec ((x mod 2 ^ 56) mod 2 ^ 56) (2 ^ 55)); divmod_lia.
Qed.

Lemma low_bit_or r b x : acc_ok r -> val56 r = (2 * x) mod 2 ^ 56 ->
  acc_ok (mkAcc (dest0 r) (dest1 r) (dest2 r .| b2z b)) /\
  val56 (mkAcc (dest0 r) (dest1 r) (dest2 r .| b2z b)) = (2 * x + b2z b) mod 2 ^ 56.
Proof.
  intros Hr Hv. pose proof (val56_bounds r Hr) as Hb. destruct Hr as [H0 H1 H2]. 
  assert (He : dest2 r mod 2 = 0) by (unfold val56, in_u in *; divmod_lia).
  assert (E : dest2 r .| b2z b = dest2 r + b2z b).
  { rewrite <- Z.lxor_lor, Z.add_nocarry_lxor; try done; destruct b; cbn [b2z]; rewrite ?Z.land_0_r, ?land_1; done. }
  rewrite E. unfold val56, in_u in *. cbn [dest0 dest1 dest2].
  assert (0 <= b2z b <= 1) by (destruct b; cbn; lia).
  split; [split; unfold in_u; cbn; divmod_lia |]. divmod_lia.
Qed.

(** The operands the instruction word names. *)
Definition div_acc (c : dsp_core) : accum := accum_of (inst_bits c 3 1).
Definition div_reg (c : dsp_core) : Z := xy_of (inst_bits c 4 2).

(** What one step leaves: the accumulator and the carry. *)
Record div_next (c c' : dsp_core) (x : Z) : Prop := {
  dn_fit : regs_fit c';
  dn_inst : cur_inst c' = cur_inst c;
  dn_src : reg c' (div_reg c) = reg c (div_reg c);
  dn_acc : sval56 (load_acc c' (div_acc c)) = x;
  dn_carry : sr_bit (reg c' DSP_REG_SR) DSP_SR_C = (0 <=? x)
}.

Lemma word48_sval w : in_u 24 w -> w < 2 ^ 23 -> acc_ok (word48 w 0) /\ sval56 (word48 w 0) = w * 2 ^ 24.
Proof.
  intros Hw Hlt. assert (Hok : acc_ok (word48 w 0)) by (apply word48_ok; [done | by apply in_u_0]). split; [done |].
  unfold in_u in *. apply sval_of_mod; [done | | lia]. unfold val56, word48, ext24. cbn [dest0 dest1 dest2].
  rewrite flag_bit, (testbit_small 23) by (lia || done). rewrite Z.mod_small; lia.
Qed.

Lemma xy_reg_plain f : acc_reg (xy_of f) = false.
Proof. unfold xy_of. by repeat case_match. Qed.

Lemma sval56_sign a : acc_ok a -> (dest0 a ≫ 7) .& 1 = b2z (sval56 a <? 0).
Proof. intros Ha. rewrite land_1, shiftr_div, sign_bit by (done || lia). by destruct (_ <? _). Qed.

(** The end of a step, for the result [r]. *)
Lemma div_finish c r x newsr : regs_fit c -> acc_ok r -> sval56 r = x -> in_u 16 newsr ->
  div_next c (or_sr (or_sr (or_sr (clear_sr (store_acc c (div_acc c) r) ((1 ≪ DSP_SR_C) .| (1 ≪ DSP_SR_V)))
    ((1 - ((dest0 r ≫ 7) .& 1)) ≪ DSP_SR_C)) (newsr .& (1 ≪ DSP_SR_L))) (newsr .& (1 ≪ DSP_SR_V))) x.
Proof.
  intros Hc Hr Hx Hn. pose proof (sval56_sign r Hr) as Hs.
  split.
  - repeat apply or_sr_fit; try (apply in_u_land_l; done); [by apply clear_sr_fit, store_acc_fit |].
    rewrite Hs. destruct (_ <? _); split; vm_compute; congruence.
  - done.
  - unfold or_sr, clear_sr. rewrite !reg_set_ne by (intros E; pose proof (xy_reg_plain (inst_bits c 4 2)) as H; unfold div_reg in E; by rewrite <- E in H).
    apply reg_store_other. left. apply xy_reg_plain.
  - rewrite !load_acc_or, load_acc_clear, acc_load_store. by destruct (decide _).
  - unfold sr_bit. rewrite !reg_or_sr, reg_clear_sr, !Z.lor_spec, !Z.land_spec, Hs, Hx.
    change (Z.testbit (BITMASK 16 - _) DSP_SR_C) with false. change (Z.testbit (1 ≪ DSP_SR_L) DSP_SR_C) with false.
    change (Z.testbit (1 ≪ DSP_SR_V) DSP_SR_C) with false. rewrite !andb_false_r, !orb_false_r. cbn [orb].
    destruct (Z.ltb_spec x 0), (Z.leb_spec 0 x); (done || lia).
Qed.

Lemma div_step c : regs_fit c ->
  let P := sval56 (load_acc c (div_acc c)) in
  let S := reg c (div_reg c) in
  let D := S * 2 ^ 24 in
  0 < S < 2 ^ 23 -> - 2 ^ 52 <= P < 2 ^ 52 ->
  exists c', emu_div c = Ok c' /\
    div_next c c' (2 * P + (if P <? 0 then D else - D) + b2z (sr_bit (reg c DSP_REG_SR) DSP_SR_C)).
Proof.
  intros Hc P S D HS HP. unfold emu_div. fold (div_acc c) (div_reg c) S.
  pose proof (load_acc_ok c (div_acc c) Hc) as Ha. fold P.
  assert (HS24 : in_u 24 S) by (apply regs_fit_24, Hc).
  destruct (word48_sval S HS24) as [Hw Hws]; [lia |].
  destruct (asl56_spec _ Ha) as (r1 & -> & Hr1 & Hv1). rewrite ok_bind. fold P in Hv1 |- *.
  rewrite (sval56_sign _ Ha). fold P. rewrite (sr_bit_value (reg c DSP_REG_SR) DSP_SR_C) by done.
  assert (Esign : (dest1 (word48 S 0) ≫ 23) .& 1 = 0).
  { unfold in_u in HS24. cbn [word48 dest1]. rewrite land_1, shiftr_div, Z.div_small by lia. done. }
  rewrite Esign, Z.lxor_0_r. clear Esign.
  pose proof (sval_of_mod r1 (2 * P) Hr1 Hv1 ltac:(lia)) as Hs1.
  set (b := sr_bit (reg c DSP_REG_SR) DSP_SR_C).
  set (r2 := if negb (b2z (P <? 0) =? 0) then _ else _).
  assert (Hr2 : acc_ok r2 /\ val56 r2 = (2 * (P + (if P <? 0 then S * 2 ^ 23 else - (S * 2 ^ 23)))) mod 2 ^ 56).
  { assert (Hwv : val56 (word48 S 0) = S * 2 ^ 24) by (rewrite <- (sval56_mod _ Hw), Hws; apply Z.mod_small; lia).
    subst r2. destruct (P <? 0); cbn [b2z negb Z.eqb].
    - destruct (add56_val (word48 S 0) r1 Hw Hr1) as [? ->]. split; [done |]. rewrite Hv1, Hwv, Zplus_mod_idemp_l. f_equal. lia.
    - destruct (sub56_val (word48 S 0) r1 Hw Hr1) as [? ->]. split; [done |]. rewrite Hv1, Hwv, Zminus_mod_idemp_l. f_equal. lia. }
  destruct Hr2 as [Hr2 Hv2]. destruct (low_bit_or r2 b _ Hr2 Hv2) as [Hr3 Hv3].
  eexists. split; [reflexivity |]. apply div_finish; [done | done | | apply vc_flags_fit].
  assert (0 <= b2z b <= 1) by (destruct b; cbn; lia). subst D.
  apply sval_of_mod; [done | | destruct (P <? 0); lia].
  rewrite Hv3. f_equal. destruct (P <? 0); lia.
Qed.

(** After [i] steps with quotient bits [q]. *)
Record div_at (S X : Z) (i q : Z) (c : dsp_core) : Prop := {
  da_fit : regs_fit c;
  da_src : reg c (div_reg c) = S;
  da_q : 0 <= q < 2 ^ i;
  da_acc : sval56 (load_acc c (div_acc c)) = 2 ^ i * X - S * 2 ^ 24 * (2 * q + 1) + q;
  da_rest : - (S * 2 ^ 24) <= 2 ^ i * X - S * 2 ^ 24 * (2 * q + 1) < S * 2 ^ 24;
  da_carry : sr_bit (reg c DSP_REG_SR) DSP_SR_C = (0 <=? 2 ^ i * X - S * 2 ^ 24 * (2 * q + 1))
}.

(** The partial remainder is a multiple of 2^i: the quotient bits do not reach its
    sign. *)
Lemma remainder_sign i q S X : 0 <= i <= 24 -> 0 <= q < 2 ^ i ->
  let V := 2 ^ i * X - S * 2 ^ 24 * (2 * q + 1) in
  (V + q <? 0) = negb (0 <=? V).
Proof.
  intros Hi Hq V. assert (E : V = 2 ^ i * (X - S * 2 ^ (24 - i) * (2 * q + 1))).
  { subst V. replace (2 ^ 24) with (2 ^ i * 2 ^ (24 - i)) by (rewrite <- Z.pow_add_r by lia; f_equal; lia). ring. }
  set (k := X - S * 2 ^ (24 - i) * (2 * q + 1)) in *. clearbody k V.
  destruct (Z.ltb_spec (V + q) 0), (Z.leb_spec 0 V); try done; exfalso; [lia |].
  assert (k <= -1) by nia. nia.
Qed.

Lemma div_at_step S X i q c : 0 < S < 2 ^ 23 -> 0 <= i < 24 -> div_at S X i q c ->
  exists c' b, emu_div c = Ok c' /\ div_at S X (i + 1) (2 * q + b2z b) c' /\ div_acc c' = div_acc c /\ cur_inst c' = cur_inst c.
Proof.
  intros HS Hi [Hfit Hsrc Hq Hacc Hrest Hcarry].
  pose proof (remainder_sign i q S X ltac:(lia) Hq) as Hsign. cbv zeta in Hsign.
  set (V := 2 ^ i * X - S * 2 ^ 24 * (2 * q + 1)) in *.
  assert (Hpow : 2 ^ i <= 2 ^ 24) by (apply Z.pow_le_mono_r; lia).
  destruct (div_step c Hfit) as (c' & E & [Hf Hinst Hs Ha Hc]); [by rewrite Hsrc | rewrite Hacc; lia |].
  rewrite Hacc, Hsrc, Hcarry, Hsign in Ha, Hc. exists c', (0 <=? V).
  assert (Hd : div_acc c' = div_acc c) by (unfold div_acc, inst_bits; by rewrite Hinst).
  assert (Hr : div_reg c' = div_reg c) by (unfold div_reg, inst_bits; by rewrite Hinst).
  assert (Hx : forall b, 2 * V + (if negb b then S * 2 ^ 24 else - (S * 2 ^ 24)) =
     2 ^ (i + 1) * X - S * 2 ^ 24 * (2 * (2 * q + b2z b) + 1)).
  { intros b. subst V. rewrite Z.pow_add_r by lia. destruct b; cbn [negb b2z]; ring. }
  split; [done |]. split; [| done]. split.
  - done.
  - by rewrite Hr, Hs.
  - rewrite Z.pow_add_r by lia. destruct (0 <=? V); cbn [b2z]; lia.
  - rewrite Hd, Ha, <- Hx. destruct (0 <=? V); cbn [b2z negb]; lia.
  - rewrite <- Hx. destruct (Z.leb_spec 0 V); cbn [negb]; lia.
  - pose proof (remainder_sign (i + 1) (2 * q + b2z (0 <=? V)) S X) as Hs'. cbv zeta in Hs'. rewrite <- Hx in Hs'.
    rewrite Hc, <- Hx. specialize (Hs' ltac:(lia)).
    set (V' := 2 * V + _) in *. replace (2 * (V + q) + _ + _) with (V' + (2 * q + b2z (0 <=? V))) by lia.
    rewrite Z.leb_antisym, Hs', negb_involutive; [done |]. rewrite Z.pow_add_r by lia. destruct (0 <=? V); cbn [b2z]; lia.
Qed.

Lemma div_at_run S X n : forall i q c, 0 < S < 2 ^ 23 -> 0 <= i -> i + Z.of_nat n <= 24 -> div_at S X i q c ->
  exists c' q', div_steps n c = Ok c' /\ div_at S X (i + Z.of_nat n) q' c' /\ cur_inst c' = cur_inst c.
Proof.
  induction n as [| n IH]; intros i q c HS Hi Hn Hat; cbn [div_steps].
  { exists c, q. by rewrite Z.add_0_r. }
  destruct (div_at_step S X i q c HS ltac:(lia) Hat) as (c1 & b & -> & Hat1 & _ & Hinst). rewrite ok_bind.
  destruct (IH (i + 1) _ c1 HS ltac:(lia) ltac:(lia) Hat1) as (c' & q' & E & Hat' & Hinst').
  exists c', q'. replace (i + Z.of_nat (Datatypes.S n)) with (i + 1 + Z.of_nat n) by lia. rewrite Hinst', Hinst. done.
Qed.

Lemma low_word a : acc_ok a -> sval56 a mod 2 ^ 24 = dest2 a.
Proof.
  intros Ha. pose proof (sval56_val a Ha) as Hv. destruct Ha as [H0 H1 H2]. unfold val56, in_u in *.
  destruct (sval56 a <? 0); divmod_lia.
Qed.

(** C11: Twenty-four DIV instructions divide: with the carry clear, a positive
    divisor S in the source register and an accumulator X with 0 <= X < S * 2^24,
    repeating DIV 24 times always completes and leaves the quotient, rounded down
    to its 23 fraction bits, in the low word of the accumulator and the remainder
    of the last step in the words above it. *)
Theorem div_divides c d : regs_fit c -> d = div_acc c -> sr_bit (reg c DSP_REG_SR) DSP_SR_C = false ->
  let S := reg c (div_reg c) in
  let X := sval56 (load_acc c d) in
  0 < S < 2 ^ 23 -> 0 <= X < S * 2 ^ 24 ->
  exists c', div_steps 24 c = Ok c' /\
    reg c' (R0 d) = X / (2 * S) /\
    sval56 (load_acc c' d) / 2 ^ 24 = X - S * (2 * (X / (2 * S)) + 1).
Proof.
  intros Hc -> HC S X HS HX. rewrite (div_steps_S 23).
  destruct (div_step c Hc) as (c1 & E & [Hf Hinst Hs Ha HC1]); fold S; fold X; [done | lia |].
  fold S in Ha, HC1, Hs. fold X in Ha, HC1. rewrite HC in Ha, HC1. destruct (Z.ltb_spec X 0); [lia |].
  cbn [b2z] in Ha, HC1. rewrite E, ok_bind.
  assert (Hd : div_acc c1 = div_acc c) by (unfold div_acc, inst_bits; by rewrite Hinst).
  assert (Hr : div_reg c1 = div_reg c) by (unfold div_reg, inst_bits; by rewrite Hinst).
  assert (Hat : div_at S X 1 0 c1).
  { split; [done | congruence | lia | rewrite Hd, Ha; lia | lia | rewrite HC1; f_equal; lia]. }
  destruct (div_at_run S X 23 1 0 c1 HS ltac:(lia) ltac:(lia) Hat) as (c' & q & -> & [Hf' _ Hq Ha' Hrest _] & Hinst').
  change (1 + Z.of_nat 23) with 24 in *. replace (div_acc c') with (div_acc c) in Ha'
    by (unfold div_acc, inst_bits; by rewrite Hinst', Hinst).
  assert (Hquot : q = X / (2 * S)) by (apply Z.div_unique_pos with (r := X - 2 * S * q); nia).
  pose proof (load_acc_ok c' (div_acc c) Hf') as Hok. exists c'. split; [done |]. rewrite <- Hquot.
  assert (Hval : sval56 (load_acc c' (div_acc c)) = (X - S * (2 * q + 1)) * 2 ^ 24 + q) by (rewrite Ha'; ring).
  split.
  - change (reg c' (R0 (div_acc c))) with (dest2 (load_acc c' (div_acc c))).
    rewrite <- (low_word _ Hok), Hval, Z.add_comm, Z_mod_plus_full. apply Z.mod_small. lia.
  - rewrite Hval. rewrite Z.div_add_l by lia. rewrite Z.div_small by lia. lia.
Qed.

Lemma regs_fit_inst c v : regs_fit c -> regs_fit (c <| cur_inst := v |>).
Proof. by intros H k. Qed.

(** [div y0,a]: 0.25 divided by 0.5. *)
Lemma div_divides_witness :
  let c := (sample_core (mkAcc 0 0x200000 0) (mkAcc 0 0 0) 0 0x400000) <| cur_inst := 0x018050 |> in
  regs_fit c /\ exists c', div_steps 24 c = Ok c' /\ reg c' DSP_REG_A0 = 0x400000.
Proof.
  intros c.
  assert (Hc : regs_fit c)
    by (apply regs_fit_inst, sample_core_fit; word_bounds).
  split; [exact Hc |].
  destruct (div_divides c A Hc eq_refl eq_refl) as (c' & E & Hq & _);
    [split; vm_compute; reflexivity | split; vm_compute; congruence |].
  exists c'. split; [exact E |]. etransitivity; [exact Hq | vm_compute; reflexivity].
Defined.

(** An accumulator above the range: the largest fraction, and the L bit. *)
Lemma accumulator_read_limits_witness :
  let c := sample_core (mkAcc 0x01 0x234567 0) (mkAcc 0 0 0) 0 0 in
  regs_fit c /\ emu_pm_read_accu24 c DSP_REG_A = (1, 0x7fffff, or_sr c (1 ≪ DSP_SR_L)).
Proof.
  intros c. assert (Hc : regs_fit c) by (apply sample_core_fit; word_bounds). split; [exact Hc |].
  etransitivity; [exact (accumulator_read_limits c DSP_REG_A 0 Hc eq_refl (or_introl eq_refl)) |].
  assert (E : move_value c DSP_REG_A 0 = 0x1234567) by (vm_compute; reflexivity). rewrite E. reflexivity.
Defined.

(** ** Subroutines *)

(** The stack as it was. *)
Record same_stack (c c' : dsp_core) : Prop := {
  ss_sp : reg c' DSP_REG_SP = reg c DSP_REG_SP;
  ss_ssh : reg c' DSP_REG_SSH = reg c DSP_REG_SSH;
  ss_ssl : reg c' DSP_REG_SSL = reg c DSP_REG_SSL;
  ss_below : forall i, i <= reg c DSP_REG_SP ->
    rget (stack0 c') i = rget (stack0 c) i /\ rget (stack1 c') i = rget (stack1 c) i
}.

Lemma same_stack_ok c c' : same_stack c c' -> stack_ok c -> stack_ok c'.
Proof.
  intros [Hsp Hh Hl Hb] [H0 H1 H2]. destruct (Hb (reg c DSP_REG_SP)) as [E0 E1]; [lia |].
  split; rewrite Hsp; [done | congruence | congruence].
Qed.

Lemma pop_after_push c p sr c1 c2 : stack_ok c -> reg c DSP_REG_SP < 15 ->
  dsp_stack_push c p sr false = Ok c1 -> same_stack c1 c2 ->
  exists c3, dsp_stack_pop c2 = Ok (p .& BITMASK 16, sr .& BITMASK 16, c3) /\ same_stack c c3.
Proof.
  intros Hok Hlt E Hsame. destruct (push_ok c p sr Hok Hlt) as (c1' & E1 & Hok1 & Hsp & Hh & Hl & Hrest).
  rewrite E in E1. injection E1 as <-. pose proof (same_stack_ok _ _ Hsame Hok1) as Hok2.
  destruct Hok as [H0 H1 H2]. destruct Hsame as [Hsp2 Hh2 Hl2 Hb2].
  destruct (pop_ok c2 Hok2) as (c3 & E3 & Hok3 & Hsp3 & Hh3 & Hl3 & Es0 & Es1); [lia |].
  exists c3. rewrite E3, Hh2, Hl2, Hh, Hl. split; [done |].
  assert (Hbelow : forall i, i <= reg c DSP_REG_SP ->
    rget (stack0 c3) i = rget (stack0 c) i /\ rget (stack1 c3) i = rget (stack1 c) i).
  { intros i Hi. rewrite Es0, Es1. destruct (Hb2 i) as [-> ->]; [lia |]. apply Hrest. lia. }
  split; [lia | | | done].
  - rewrite Hh3, H1. replace (reg c2 DSP_REG_SP - 1) with (reg c DSP_REG_SP) by lia. rewrite <- Es0. by apply Hbelow.
  - rewrite Hl3, H2. replace (reg c2 DSP_REG_SP - 1) with (reg c DSP_REG_SP) by lia. rewrite <- Es1. by apply Hbelow.
Qed.

(** C13: A subroutine returns to the instruction after its call: JSR pushes the
    return address and status and jumps, and from any state the subroutine reaches
    with the stack as it found it, RTS continues after the JSR with the stack as it
    was before, and RTI does so with the status register of the caller (the
    program counter to the 16 bits the stack holds). The stack has room for one more
    entry, and no long interrupt is being entered, in which JSR pushes nothing itself. *)
Theorem subroutine_returns c : stack_ok c -> reg c DSP_REG_SP < 15 -> interrupt_state c <> DSP_INTERRUPT_LONG ->
  exists c1, emu_jsr_imm c = Ok c1 /\ pc c1 = inst_bits c 0 12 /\
    forall c2, same_stack c1 c2 ->
      (exists c3, emu_rts c2 = Ok c3 /\ pc c3 = u32 (pc c + cur_inst_len c) .& BITMASK 16 /\ cur_inst_len c3 = 0 /\
                  same_stack c c3) /\
      (exists c3, emu_rti c2 = Ok c3 /\ pc c3 = u32 (pc c + cur_inst_len c) .& BITMASK 16 /\ cur_inst_len c3 = 0 /\
                  same_stack c c3 /\ reg c3 DSP_REG_SR = reg c DSP_REG_SR .& BITMASK 16).
Proof.
  intros Hok Hlt Hint. unfold emu_jsr_imm, push_return.
  destruct (Z.eqb_spec (interrupt_state c) DSP_INTERRUPT_LONG); [done |]. cbn [negb].
  destruct (push_ok c (u32 (pc c + cur_inst_len c)) (reg c DSP_REG_SR) Hok Hlt) as (c1 & E & _).
  rewrite E, ok_bind. eexists. split; [reflexivity |]. split; [done |]. intros c2 Hs.
  assert (Hs1 : same_stack c1 c2) by (destruct Hs; by split).
  destruct (pop_after_push c _ _ c1 c2 Hok Hlt E Hs1) as (c3 & E3 & Hs3).
  unfold emu_rts, emu_rti. rewrite E3, !ok_bind. split; (eexists; split; [reflexivity |]); repeat (split; [done |]).
  - destruct Hs3. by split.
  - split; [| apply reg_set_eq]. destruct Hs3 as [S1 S2 S3 S4]. split; [rewrite <- S1 | rewrite <- S2 | rewrite <- S3 | exact S4].
    + by apply (reg_set_ne c3 DSP_REG_SR DSP_REG_SP).
    + by apply (reg_set_ne c3 DSP_REG_SR DSP_REG_SSH).
    + by apply (reg_set_ne c3 DSP_REG_SR DSP_REG_SSL).
Qed.

Lemma subroutine_returns_witness :
  let c := fresh_core <| cur_inst := 0x0d0100 |> <| cur_inst_len := 1 |> <| pc := 0x40 |> in
  stack_ok c /\ exists c1 c3, emu_jsr_imm c = Ok c1 /\ pc c1 = 0x100 /\ emu_rts c1 = Ok c3 /\ pc c3 = 0x41.
Proof.
  intros c. assert (Hok : stack_ok c) by (split; vm_compute; (discriminate || intuition discriminate || reflexivity)).
  split; [exact Hok |].
  destruct (subroutine_returns c Hok) as (c1 & E & Hpc & Hret); [vm_compute; reflexivity | vm_compute; discriminate |].
  destruct (Hret c1) as [(c3 & E3 & Hpc3 & _) _]; [by split |].
  exists c1, c3. split; [exact E |]. split; [exact Hpc |]. split; [exact E3 |]. exact Hpc3.
Defined.

(** ** Hardware loops *)

(** Inside a DO loop that was started in the state [old]: [n] passes are left, the
    body goes from [start] to [la], and the two frames of the loop are on top of
    the stack. *)
Record in_loop (old : dsp_core) (start la n : Z) (c : dsp_core) : Prop := {
  il_rep : loop_rep c = 0;
  il_lf : flag (reg c DSP_REG_SR) (1 ≪ DSP_SR_LF) = true;
  il_la : reg c DSP_REG_LA = la;
  il_lc : reg c DSP_REG_LC = n;
  il_stack : stack_ok c;
  il_sp : reg c DSP_REG_SP = reg old DSP_REG_SP + 2;
  il_ssh : reg c DSP_REG_SSH = start;
  il_ssl : reg c DSP_REG_SSL = reg old DSP_REG_SR .& BITMASK 16;
  il_outer : rget (stack0 c) (reg old DSP_REG_SP + 1) = reg old DSP_REG_LA .& BITMASK 16 /\
             rget (stack1 c) (reg old DSP_REG_SP + 1) = reg old DSP_REG_LC .& BITMASK 16;
  il_below : forall i, i <= reg old DSP_REG_SP ->
    rget (stack0 c) i = rget (stack0 old) i /\ rget (stack1 c) i = rget (stack1 old) i
}.

(** What is left of a loop when it has ended. *)
Record loop_ended (old : dsp_core) (c : dsp_core) : Prop := {
  le_la : reg c DSP_REG_LA = reg old DSP_REG_LA .& BITMASK 16;
  le_lc : reg c DSP_REG_LC = reg old DSP_REG_LC .& BITMASK 16;
  le_lf : flag (reg c DSP_REG_SR) (1 ≪ DSP_SR_LF) = flag (reg old DSP_REG_SR) (1 ≪ DSP_SR_LF);
  le_stack : same_stack old c
}.

Lemma or_lf sr : flag (sr .| (1 ≪ DSP_SR_LF)) (1 ≪ DSP_SR_LF) = true.
Proof. rewrite flag_bit, Z.lor_spec by done. change (Z.testbit (1 ≪ DSP_SR_LF) DSP_SR_LF) with true. apply orb_true_r. Qed.

Lemma restored_lf sr saved : flag ((sr .& 0x7f) .| (saved .& BITMASK 16 .& (1 ≪ DSP_SR_LF))) (1 ≪ DSP_SR_LF) = flag saved (1 ≪ DSP_SR_LF).
Proof.
  rewrite !flag_bit, Z.lor_spec, !Z.land_spec by done. change (Z.testbit 0x7f DSP_SR_LF) with false.
  change (Z.testbit (BITMASK 16) DSP_SR_LF) with true. change (Z.testbit (1 ≪ DSP_SR_LF) DSP_SR_LF) with true.
  by rewrite andb_false_r, !andb_true_r.
Qed.

(** What the stack operations leave alone. *)
Record stack_frame (c c' : dsp_core) : Prop := {
  sf_pc : pc c' = pc c;
  sf_len : cur_inst_len c' = cur_inst_len c;
  sf_inst : cur_inst c' = cur_inst c;
  sf_pram : pram c' = pram c;
  sf_rep : loop_rep c' = loop_rep c;
  sf_reg : forall k, k < DSP_REG_SP \/ DSP_REG_SSL < k -> reg c' k = reg c k
}.

Lemma exception_frame c c' : stack_exception c = Ok c' -> stack_frame c c'.
Proof.
  unfold stack_exception, dsp56k_add_interrupt. intros E. apply bind_ok in E as (c1 & E1 & E).
  apply bind_ok in E as (? & _ & E). injection E as <-. apply bind_ok in E1 as (ipl & _ & E1).
  destruct (ipl =? -1); [by injection E1 as <- |]. apply bind_ok in E1 as (p & _ & E1).
  destruct (p =? 0); [| by injection E1 as <-]. apply bind_ok in E1 as (l & _ & E1). by injection E1 as <-.
Qed.

Lemma frame_trans c1 c2 c3 : stack_frame c1 c2 -> stack_frame c2 c3 -> stack_frame c1 c3.
Proof. intros [] []. split; try congruence. intros k Hk. rewrite sf_reg1; auto. Qed.

Lemma push_frame c p sr b c' : dsp_stack_push c p sr b = Ok c' -> stack_frame c c'.
Proof.
  unfold dsp_stack_push. cbv zeta. intros E. apply bind_ok in E as (c1 & E1 & E).
  apply (frame_trans c c1). { destruct (_ && _); [by apply exception_frame | by injection E1 as <-]. }
  injection E as <-. destruct (negb _), b; split; try done; intros k Hk; rewrite !reg_set_ne by lia;
    apply (reg_set_ne c1 DSP_REG_SP); lia.
Qed.

Lemma pop_frame c p sr c' : dsp_stack_pop c = Ok (p, sr, c') -> stack_frame c c'.
Proof.
  unfold dsp_stack_pop. cbv zeta. intros E. apply bind_ok in E as (c1 & E1 & E).
  apply (frame_trans c c1). { destruct (_ && _); [by apply exception_frame | by injection E1 as <-]. }
  injection E as _ _ <-. split; try done. intros k Hk. rewrite !reg_set_ne by lia. done.
Qed.

(** DO sets the loop up. *)
Lemma do_enters c w : stack_ok c -> reg c DSP_REG_SP < 14 -> loop_rep c = 0 ->
  read_memory_p c (u32 (pc c + 1)) = Ok w ->
  exists c0, emu_do_imm c = Ok c0 /\ pc c0 = pc c /\ cur_inst_len c0 = u32 (cur_inst_len c + 1) /\
    in_loop c (u32 (pc c + u32 (cur_inst_len c + 1)) .& BITMASK 16) (w .& BITMASK 16) (loop_count c) c0.
Proof.
  intros Hok Hsp Hrep Hw. unfold emu_do_imm, start_do.
  destruct (push_ok c (reg c DSP_REG_LA) (reg c DSP_REG_LC) Hok ltac:(lia)) as (c1 & E1 & Hok1 & Hsp1 & Hh1 & Hl1 & Hrest1).
  pose proof (push_frame _ _ _ _ _ E1) as [F1 F2 F3 F4 F5 F6].
  assert (Hn : next_word c1 = Ok (w, c1 <| cur_inst_len := u32 (cur_inst_len c + 1) |>)).
  { unfold next_word. rewrite F1, F2. unfold read_memory_p in *. rewrite F4. by rewrite Hw. }
  rewrite E1, ok_bind, Hn, ok_bind. unfold push_loop. rewrite ok_bind. clear Hn.
  set (c2 := set_reg (c1 <| cur_inst_len := _ |>) DSP_REG_LA (w .& BITMASK 16)).
  assert (Hr2 : forall k, k <> DSP_REG_LA -> reg c2 k = reg c1 k) by (intros k Hk; apply (reg_set_ne c1); lia).
  assert (Hok2 : stack_ok c2) by (destruct Hok1; split; rewrite !Hr2 by lia; done).
  destruct (push_ok c2 (u32 (pc c2 + cur_inst_len c2)) (reg c2 DSP_REG_SR) Hok2) as (c3 & E3 & Hok3 & Hsp3 & Hh3 & Hl3 & Hrest3);
    [rewrite Hr2; lia |].
  pose proof (push_frame _ _ _ _ _ E3) as [G1 G2 G3 G4 G5 G6].
  rewrite E3, !ok_bind. eexists. split; [reflexivity |].
  set (c4 := add_cycles _ 4).
  assert (Hr4 : forall k, k <> DSP_REG_LC -> k <> DSP_REG_SR -> reg c4 k = reg c3 k)
    by (intros k H1 H2; etransitivity; [apply (reg_set_ne (or_sr c3 (1 ≪ DSP_SR_LF))); lia | apply (reg_set_ne c3); lia]).
  assert (Hs4 : stack0 c4 = stack0 c3 /\ stack1 c4 = stack1 c3) by done. destruct Hs4 as [Hs40 Hs41].
  rewrite Hr2 in Hsp3 by lia.
  split; [change (pc c3 = pc c); rewrite G1; exact F1 |].
  split; [change (cur_inst_len c3 = u32 (cur_inst_len c + 1)); by rewrite G2 |]. split.
  - change (loop_rep c3 = 0). rewrite G5. change (loop_rep c1 = 0). congruence.
  - change (flag (reg (set_reg (or_sr c3 (1 ≪ DSP_SR_LF)) DSP_REG_LC (loop_count c3)) DSP_REG_SR) (1 ≪ DSP_SR_LF) = true).
    rewrite reg_set_ne, reg_or_sr by lia. apply or_lf.
  - rewrite Hr4, G6 by lia. apply reg_set_eq.
  - etransitivity; [apply reg_set_eq |]. unfold loop_count, inst_bits. cbn [cur_inst or_sr set_reg set]. by rewrite G3, <- F3.
  - destruct Hok3. split; rewrite ?Hr4, ?Hs40, ?Hs41 by lia; done.
  - rewrite Hr4 by lia. lia.
  - rewrite Hr4, Hh3 by lia. by rewrite <- F1.
  - rewrite Hr4, Hl3, Hr2, F6 by lia. done.
  - rewrite Hs40, Hs41. destruct (Hrest3 (reg c DSP_REG_SP + 1)) as [-> ->]; [rewrite Hr2 by lia; lia |].
    destruct Hok1 as [_ K1 K2]. rewrite Hsp1 in K1, K2. by rewrite <- Hh1, <- Hl1.
  - intros i Hi. rewrite Hs40, Hs41. destruct (Hrest3 i) as [-> ->]; [rewrite Hr2 by lia; lia |]. apply Hrest1. lia.
Qed.

(** Leaving a loop, at its end or by ENDDO. *)
Lemma loop_leaves old start la n c : stack_ok old -> in_loop old start la n c ->
  exists c', emu_enddo c = Ok c' /\ pc c' = pc c /\ loop_ended old c'.
Proof.
  intros [Hold1 Hold2 Hold3] [_ _ _ _ Hok Hsp Hh Hl [Ho0 Ho1] Hb]. unfold emu_enddo.
  destruct (pop_ok c Hok) as (c3 & E3 & Hok3 & Hsp3 & Hh3 & Hl3 & Es0 & Es1); [lia |].
  pose proof (pop_frame _ _ _ _ E3) as [F1 _ _ _ _ F6]. rewrite E3, ok_bind, Hl.
  set (c4 := or_sr _ _).
  assert (E4 : c4 = set_reg c3 DSP_REG_SR ((reg c3 DSP_REG_SR .& 0x7f) .| (reg old DSP_REG_SR .& BITMASK 16 .& (1 ≪ DSP_SR_LF))))
    by (subst c4; unfold or_sr; by rewrite reg_set_eq, set_reg_twice).
  clearbody c4. subst c4. set (sr := _ .| _). set (c4 := set_reg c3 DSP_REG_SR sr).
  assert (Hr4 : forall k, k <> DSP_REG_SR -> reg c4 k = reg c3 k) by (intros k Hk; apply reg_set_ne; lia).
  assert (Hok4 : stack_ok c4) by (destruct Hok3; split; rewrite !Hr4 by lia; done).
  destruct (pop_ok c4 Hok4) as (c5 & E5 & Hok5 & Hsp5 & Hh5 & Hl5 & Fs0 & Fs1); [rewrite Hr4; lia |].
  pose proof (pop_frame _ _ _ _ E5) as [G1 _ _ _ _ G6]. rewrite E5, ok_bind.
  rewrite !Hr4 in * by lia. rewrite Hsp in *. replace (reg old DSP_REG_SP + 2 - 1) with (reg old DSP_REG_SP + 1) in * by lia.
  replace (reg old DSP_REG_SP + 1 - 1) with (reg old DSP_REG_SP) in * by lia.
  eexists. split; [reflexivity |].
  assert (Hr6 : forall k x y, k < DSP_REG_LA -> reg (set_reg (set_reg c5 DSP_REG_LA x) DSP_REG_LC y) k = reg c5 k)
    by (intros k x y Hk; by rewrite !reg_set_ne by lia).
  split; [change (pc c5 = pc c); rewrite G1; exact F1 |]. split.
  - rewrite reg_set_ne, reg_set_eq by lia. congruence.
  - rewrite reg_set_eq. congruence.
  - rewrite Hr6, G6 by lia. subst c4. rewrite reg_set_eq. apply restored_lf.
  - destruct (Hb (reg old DSP_REG_SP)) as [B0 B1]; [lia |]. split; rewrite ?Hr6 by lia.
    + lia.
    + rewrite Hh5. change (stack0 c4) with (stack0 c3). rewrite Hsp3, Z.add_simpl_r. congruence.
    + rewrite Hl5. change (stack1 c4) with (stack1 c3). rewrite Hsp3, Z.add_simpl_r. congruence.
    + intros i Hi. destruct (Hb i Hi) as [<- <-]. change (rget (stack0 c5) i = rget (stack0 c) i /\ rget (stack1 c5) i = rget (stack1 c) i).
      rewrite Fs0, Fs1. change (stack0 c4) with (stack0 c3). change (stack1 c4) with (stack1 c3). by rewrite Es0, Es1.
Qed.

(** The end of a pass: the core steps past [la], and goes back to [start] or leaves. *)
Lemma loop_pass old start la n c : stack_ok old -> in_loop old start la n c -> 1 <= n <= 2 ^ 16 -> in_u 16 la ->
  u32 (pc c + cur_inst_len c) = la + 1 ->
  exists c', dsp_postexecute_update_pc c = Ok c' /\
    if n =? 1 then pc c' = la + 1 /\ loop_ended old c' else in_loop old start la (n - 1) c' /\ pc c' = start.
Proof.
  intros Hold [Hrep Hlf Hla Hlc Hok Hsp Hh Hl Ho Hb] Hn Hla16 Hpc. unfold dsp_postexecute_update_pc.
  rewrite Hrep. cbn [negb Z.eqb]. rewrite Hpc. set (c1 := c <| pc := la + 1 |>).
  change (reg c1 DSP_REG_SR) with (reg c DSP_REG_SR). rewrite Hlf.
  change (reg c1 DSP_REG_LA) with (reg c DSP_REG_LA). rewrite Hla.
  unfold in_u in Hla16. rewrite (Z.mod_small (la + 1)) by lia. change (pc c1) with (la + 1). rewrite Z.eqb_refl.
  change (reg c1 DSP_REG_LC) with (reg c DSP_REG_LC). rewrite Hlc, lc_dec by lia. rewrite reg_set_eq.
  set (c2 := set_reg c1 DSP_REG_LC (n - 1)).
  assert (Hr2 : forall k, k <> DSP_REG_LC -> reg c2 k = reg c k) by (intros k Hk; apply (reg_set_ne c); lia).
  assert (Hin : in_loop old start la (n - 1) c2).
  { split; rewrite ?Hr2 by lia; try done; [apply reg_set_eq |]. destruct Hok. split; rewrite ?Hr2 by lia; done. }
  destruct (Z.eqb_spec (n - 1) 0), (Z.eqb_spec n 1); try lia.
  - destruct (loop_leaves old start la (n - 1) c2 Hold Hin) as (c' & E & Epc & Hend).
    exists c'. split; [exact E |]. split; [exact Epc | exact Hend].
  - eexists. split; [reflexivity |]. split; [| by rewrite <- Hh; apply Hr2].
    destruct Hin as [? ? ? ? [] ? ? ? ? ?]. split; try assumption. split; assumption.
Qed.

(** [n] passes of a body, each followed by the PC update of its last instruction. *)
Fixpoint loop_iter (body : dsp_core -> outcome dsp_core) (n : nat) (c : dsp_core) : outcome dsp_core :=
  match n with
  | O => Ok c
  | S n => c ← body c; c ← dsp_postexecute_update_pc c; loop_iter body n c
  end.

(** A body that runs from [start] to its last instruction, which ends at [la], and
    keeps the loop's state. *)
Definition loop_body (old : dsp_core) (start la : Z) (body : dsp_core -> outcome dsp_core) : Prop :=
  forall m c, in_loop old start la m c -> pc c = start ->
  exists c', body c = Ok c' /\ in_loop old start la m c' /\ u32 (pc c' + cur_inst_len c') = la + 1.

Lemma body_pass old start la body m c : stack_ok old -> in_u 16 la -> loop_body old start la body ->
  in_loop old start la m c -> pc c = start -> 1 <= m <= 2 ^ 16 ->
  exists c1 c2, body c = Ok c1 /\ dsp_postexecute_update_pc c1 = Ok c2 /\
    if m =? 1 then pc c2 = la + 1 /\ loop_ended old c2 else in_loop old start la (m - 1) c2 /\ pc c2 = start.
Proof.
  intros Hold Hla Hbody Hin Hpc Hm. destruct (Hbody m c Hin Hpc) as (c1 & E1 & Hin1 & Hpc1).
  destruct (loop_pass old start la m c1 Hold Hin1 Hm Hla Hpc1) as (c2 & E2 & H2). by exists c1, c2.
Qed.

Lemma iter_in_loop old start la body k m c : stack_ok old -> in_u 16 la -> loop_body old start la body ->
  in_loop old start la m c -> pc c = start -> m <= 2 ^ 16 -> Z.of_nat k < m ->
  exists c', loop_iter body k c = Ok c' /\ in_loop old start la (m - Z.of_nat k) c' /\ pc c' = start.
Proof.
  intros Hold Hla Hbody. revert m c. induction k as [| k IH]; intros m c Hin Hpc Hm Hk.
  - exists c. by rewrite Z.sub_0_r.
  - destruct (body_pass old start la body m c) as (c1 & c2 & E1 & E2 & H); try done; [lia |].
    cbn [loop_iter]. rewrite E1, ok_bind, E2, ok_bind. destruct (Z.eqb_spec m 1); [lia |]. destruct H as [H Hpc2].
    replace (m - Z.of_nat (S k)) with (m - 1 - Z.of_nat k) by lia. apply IH; done || lia.
Qed.

Lemma iter_snoc body k c c1 : loop_iter body k c = Ok c1 ->
  loop_iter body (S k) c = (c2 ← body c1; dsp_postexecute_update_pc c2).
Proof.
  revert c. induction k as [| k IH]; intros c E.
  - injection E as ->. cbn [loop_iter]. destruct (body c1); cbn; [| done ..]. by destruct (dsp_postexecute_update_pc _).
  - cbn [loop_iter] in E. apply bind_ok in E as (c2 & E2 & E). apply bind_ok in E as (c3 & E3 & E).
    rewrite <- (IH c3 E). change (loop_iter body (S (S k)) c) with (c ← body c; c ← dsp_postexecute_update_pc c; loop_iter body (S k) c).
    by rewrite E2, ok_bind, E3, ok_bind.
Qed.

Lemma iter_ends old start la body m c : stack_ok old -> in_u 16 la -> loop_body old start la body ->
  in_loop old start la m c -> pc c = start -> 1 <= m <= 2 ^ 16 ->
  exists c', loop_iter body (Z.to_nat m) c = Ok c' /\ pc c' = la + 1 /\ loop_ended old c'.
Proof.
  intros Hold Hla Hbody Hin Hpc Hm.
  destruct (iter_in_loop old start la body (Z.to_nat (m - 1)) m c) as (c1 & E1 & Hin1 & Hpc1); try done; [lia .. |].
  replace (m - Z.of_nat (Z.to_nat (m - 1))) with 1 in Hin1 by lia.
  destruct (body_pass old start la body 1 c1) as (c2 & c3 & E2 & E3 & H); try done.
  exists c3. replace (Z.to_nat m) with (S (Z.to_nat (m - 1))) by lia. rewrite (iter_snoc _ _ _ _ E1), E2, ok_bind. by split.
Qed.

Lemma do_starts old start la n c : in_loop old start la n c -> u32 (pc c + cur_inst_len c) = start ->
  start <> la + 1 -> in_u 16 la ->
  exists c', dsp_postexecute_update_pc c = Ok c' /\ in_loop old start la n c' /\ pc c' = start.
Proof.
  intros [Hrep Hlf Hla Hlc [? ? ?] Hsp Hh Hl Ho Hb] Hpc Hne Hla16. unfold dsp_postexecute_update_pc.
  rewrite Hrep. cbn [negb Z.eqb]. rewrite Hpc. set (c1 := c <| pc := start |>).
  change (reg c1 DSP_REG_SR) with (reg c DSP_REG_SR). rewrite Hlf.
  change (reg c1 DSP_REG_LA) with (reg c DSP_REG_LA). rewrite Hla. unfold in_u in Hla16. change (pc c1) with start.
  rewrite (Z.mod_small (la + 1)) by lia. apply Z.eqb_neq in Hne as ->.
  exists c1. split; [done |]. split; [| done]. split; try assumption. split; assumption.
Qed.

Lemma loop_count_range c : 0 <= loop_count c < 2 ^ 12.
Proof.
  unfold loop_count, inst_bits. rewrite !land_BITMASK, Z.shiftl_mul_pow2 by done.
  pose proof (Z.mod_pos_bound (cur_inst c ≫ 8) (2 ^ 8) eq_refl). pose proof (Z.mod_pos_bound (cur_inst c) (2 ^ 4) eq_refl). lia.
Qed.

(** C10: A DO loop runs its body exactly as often as its count says.  [do #n,expr] in
    a core with two free stack entries and no REP pushes the outer loop's LA and LC and
    the address of the body with the status register, and the PC update after it steps
    to the body; a body that runs through to the address LA and keeps the loop's own
    state (it may push and pop, branch inside, or run loops of its own) is then repeated:
    after every k < n passes the core stands at the first instruction with n - k passes
    left, and the n-th pass goes on at LA + 1 with LA, LC, the loop flag and the whole
    stack as they were before the DO. *)
Theorem do_loop_runs c w body :
  let start := u32 (pc c + u32 (cur_inst_len c + 1)) in
  let la := w .& BITMASK 16 in
  let n := loop_count c in
  stack_ok c -> reg c DSP_REG_SP < 14 -> loop_rep c = 0 ->
  read_memory_p c (u32 (pc c + 1)) = Ok w -> in_u 16 start -> start <> la + 1 -> 1 <= n ->
  loop_body c start la body ->
  exists c1, emu_do_imm c ≫= dsp_postexecute_update_pc = Ok c1 /\
    (forall k, Z.of_nat k < n -> exists c', loop_iter body k c1 = Ok c' /\ in_loop c start la (n - Z.of_nat k) c' /\ pc c' = start) /\
    exists c', loop_iter body (Z.to_nat n) c1 = Ok c' /\ pc c' = la + 1 /\ loop_ended c c'.
Proof.
  intros start la n Hok Hsp Hrep Hw Hst Hne Hn Hbody.
  assert (Hla : in_u 16 la) by (by apply fit_bitmask).
  assert (Hn16 : n <= 2 ^ 16) by (pose proof (loop_count_range c); lia).
  destruct (do_enters c w Hok Hsp Hrep Hw) as (c0 & E0 & Epc & Elen & Hin).
  rewrite (land_BITMASK _ 16), Z.mod_small in Hin by (done || lia).
  destruct (do_starts c start la n c0 Hin) as (c1 & E1 & Hin1 & Hpc1); [by rewrite Epc, Elen | done .. |].
  exists c1. split; [by rewrite E0, ok_bind |]. split.
  - intros k Hk. by apply iter_in_loop.
  - by apply (iter_ends c start).
Qed.

(** [do #3,$42] at $40, around a NOP at $42. *)
Lemma do_loop_runs_witness :
  let c := fresh_core <| cur_inst := 0x060380 |> <| cur_inst_len := 1 |> <| pc := 0x40 |> <| pram := rset (pram fresh_core) 0x41 0x42 |> in
  let body := fun c => emu_nothing (c <| cur_inst_len := 1 |>) in
  stack_ok c /\ loop_body c 0x42 0x42 body /\
  exists c1 c2, emu_do_imm c ≫= dsp_postexecute_update_pc = Ok c1 /\ loop_iter body 3 c1 = Ok c2 /\ pc c2 = 0x43.
Proof.
  intros c body. assert (Hok : stack_ok c) by (split; vm_compute; (discriminate || intuition discriminate || reflexivity)).
  assert (Hbody : loop_body c 0x42 0x42 body).
  { intros m c1 [? ? ? ? [] ? ? ? ? ?] Hpc. eexists. split; [reflexivity |].
    split; [split; try assumption; split; assumption | cbn; by rewrite Hpc]. }
  split; [exact Hok |]. split; [exact Hbody |].
  destruct (do_loop_runs c 0x42 body Hok) as (c1 & E1 & _ & c2 & E2 & Hpc2 & _);
    [vm_compute; reflexivity | vm_compute; reflexivity | vm_compute; reflexivity | vm_compute; split; (discriminate || reflexivity)
    | vm_compute; discriminate | vm_compute; discriminate | exact Hbody |].
  exists c1, c2. split; [exact E1 |]. split; [exact E2 |]. exact Hpc2.
Defined.

(** ** Where the code departs from the manual *)

(** Scaling up doubles the accumulator before the limiter looks at it, and the bit
    that leaves the word is lost: +1.0 is read as 0 and not as the largest value. *)
Example scaling_up_is_not_limited :
  let c := set_reg (sample_core (mkAcc 0 0x800000 0) (mkAcc 0 0 0) 0 0) DSP_REG_SR (1 ≪ DSP_SR_S1) in
  (emu_pm_read_accu24 c DSP_REG_A).1 = (0, 0).
Proof. reflexivity. Qed.

(** [cmp #$ffffff,a] of the accumulator -1 does not find them equal, where
    [add #$ffffff,a] adds -1: the comparison leaves the word unextended. *)
Example cmp_long_is_unsigned :
  let c := (sample_core (mkAcc 0xff 0xffffff 0) (mkAcc 0 0 0) 0 0) <| pram := rset (pram fresh_core) 1 0xffffff |> in
  (c' ← emu_cmp_long (c <| cur_inst := 0x0140c5 |>); Ok (sr_bit (reg c' DSP_REG_SR) DSP_SR_Z)) = Ok false /\
  (c' ← emu_add_long (c <| cur_inst := 0x0140c0 |>); Ok (load_acc c' A)) = Ok (mkAcc 0xff 0xfffffe 0).
Proof. split; reflexivity. Qed.

(** An arithmetic shift by zero shifts by -1 for the carry. *)
Example asr_by_zero_is_undefined :
  emu_asr_imm (fresh_core <| cur_inst := 0x0c1c00 |>) = Undef.
Proof. reflexivity. Qed.

(** Reverse-carry addressing with an offset of zero carries into bit 16 of a 16-bit
    address register. *)
Example reverse_carry_leaves_16_bits :
  reg (emu_update_rn_bitreverse fresh_core 0) DSP_REG_R0 = 0x10000.
Proof. reflexivity. Qed.

(** [lua] with an offset below zero leaves 24 bits in a 16-bit address register. *)
Example lua_rel_leaves_16_bits :
  (c ← emu_lua_rel (fresh_core <| cur_inst := 0x0438f0 |>); Ok (reg c DSP_REG_R0)) = Ok 0xffffff.
Proof. reflexivity. Qed.

(** The core alone, without peripherals. *)
#[local] Existing Instance bare_core.

(** REP of a memory word keeps all its 24 bits in the 16-bit LC, REP of a register
    sixteen of them. *)
Example rep_mem_leaves_16_bits :
  let c := fresh_core <| cur_inst := 0x060020 |> <| xram := rset (xram fresh_core) 0 0x123456 |> in
  (c' ← emu_rep_mem AA c; Ok (reg c' DSP_REG_LC)) = Ok 0x123456.
Proof. reflexivity. Qed.

(** The X: and register move that loads an accumulator writes the word a second time
    into the slot of the register file that stands for the whole accumulator. *)
Example pm_1_writes_the_accumulator_slot :
  let c := fresh_core <| cur_inst := 0x188000 |> <| xram := rset (xram fresh_core) 0 0x123456 |> in
  (c' ← emu_pm_1 c; Ok (reg c' DSP_REG_A1, reg c' DSP_REG_A)) = Ok (0x123456, 0x123456).
Proof. reflexivity. Qed.
