(* ===== verification/DspSafe.v ===== *)
(** * The instructions of the DSP do nothing undefined (mcpx/apu/dsp/dsp_emu.c.inc, dsp_cpu.c)

    The typing of the machine: [core_ok] bounds every register, every memory word
    and every interrupt table, and [sound] says of a run that it does not read or
    write outside an array, divide by zero or shift by an undefined count.  From a
    well-typed machine the execution of any instruction word that [admissible] allows
    is sound and leaves a well-typed machine.  What is around the core enters through
    the class [SoundPeripherals], which [DspSystem] implements for the DMA engine and
    the peripheral registers of the two DSPs; there the theorem is stated for them,
    together with the termination that [DspReturns] shows. *)

From stdpp Require Import base numbers list gmap strings.
From Stdlib Require Import ZArith Lia.
From S2P Require Import Prelude DspArith DspDecode DspCore DspAddr DspAlu DspAluSpec DspMove DspInstr.

(** ** Runs without undefined behaviour *)

(** [sound P m]: [m] does nothing undefined, and what it returns satisfies [P]. *)
Definition sound {A} (P : A -> Prop) (m : outcome A) : Prop :=
  match m with Ok a => P a | AssertFail | NoFuel => True | Undef => False end.

Lemma sound_bind {A B} (P : A -> Prop) (Q : B -> Prop) m (k : A -> outcome B) :
  sound P m -> (forall a, P a -> sound Q (k a)) -> sound Q (m ≫= k).
Proof. destruct m; cbn; intros H Hk; [by apply Hk | done ..]. Qed.

Lemma sound_assert {A} (Q : A -> Prop) b (k : outcome A) :
  (b = true -> sound Q k) -> sound Q (c_assert b;; k).
Proof. destruct b; cbn; intros H; [by apply H | done]. Qed.

Lemma sound_mono {A} (P Q : A -> Prop) m : sound P m -> (forall a, P a -> Q a) -> sound Q m.
Proof. destruct m; cbn; auto. Qed.

Lemma sound_fuelled {A} (P : A -> Prop) m : sound P m -> m <> NoFuel -> safe P m.
Proof. by destruct m. Qed.

Lemma sound_if {A} (Q : A -> Prop) (b : bool) m1 m2 :
  (b = true -> sound Q m1) -> (b = false -> sound Q m2) -> sound Q (if b then m1 else m2).
Proof. destruct b; auto. Qed.

Lemma sound_rd {A} (P : A -> Prop) (l : list A) i : 0 <= i < zlen l -> Forall P l -> sound P (rd l i).
Proof.
  intros Hi HP. destruct (rd_ok l i Hi) as (a & -> & Ha). cbn.
  by eapply Forall_lookup_1 in Ha.
Qed.

(** ** The well-typed machine

    [inst] is the instruction being executed. *)

Record core_ok (inst : Z) (c : dsp_core) : Prop := mkCoreOk {
  ok_inst : cur_inst c = inst;
  ok_regs : regs_fit c;
  ok_stack0 : regs_ok 16 (stack0 c);
  ok_stack1 : regs_ok 16 (stack1 c);
  ok_xram : regs_ok 24 (xram c);
  ok_yram : regs_ok 24 (yram c);
  ok_pram : regs_ok 24 (pram c);
  ok_mixbuffer : regs_ok 24 (mixbuffer c);
  ok_opcache : pram_cache_ok c;
  ok_pc : in_u 32 (pc c);
  ok_ipl : zlen (interrupt_ipl c) = 12 /\ Forall (fun l => -1 <= l <= 3) (interrupt_ipl c);
  ok_pending : zlen (interrupt_is_pending c) = 12;
  ok_raise : in_u 2 (interrupt_ipl_to_raise c);
  ok_fetch : in_u 16 (interrupt_instr_fetch c);
  ok_save : in_u 16 (interrupt_save_pc c)
}.

Lemma ok_set_inst inst c v : core_ok inst c -> core_ok v (c <| cur_inst := v |>).
Proof. intros []. by split. Qed.

(** ** The words covered

    Out of range are the immediate left shifts by more than 56 and the immediate
    right shift by nothing, whose C shift is undefined; setting or changing a bit
    above the 24th of an accumulator, which leaves A1 or B1 too wide; and the
    operation MAX, which swaps the words of different widths. *)
Definition in_range (name : string) (inst : Z) : bool :=
  let shift := (inst ≫ 1) .& BITMASK 6 in
  let numreg := (inst ≫ 8) .& BITMASK 6 in
  if String.eqb name "emu_asl_imm" then shift <=? 56
  else if String.eqb name "emu_asr_imm" then 1 <=? shift
  else if String.eqb name "emu_bset_reg" || String.eqb name "emu_bchg_reg" then
    negb ((numreg =? DSP_REG_A) || (numreg =? DSP_REG_B)) || (inst .& BITMASK 5 <? 24)
  else true.

Definition admissible (inst : Z) : bool :=
  if inst <? 0x100000 then
    match lookup_opcode_slow inst with
    | Ok i => match nonparallel_opcodes !! i with
              | Some e => match op_emu e with Some name => in_range name inst | None => true end
              | None => true
              end
    | _ => true
    end
  else bool_decide (opcodes_alu !! Z.to_nat (inst .& BITMASK 8) <> Some MAX).

(** What is around the core: its state has a condition of its own, and its
    accesses are sound. *)
Class SoundPeripherals (S : Type) `{HasCoreLaws S} := {
  env_ok : S -> Prop;
  env_with : forall s c, env_ok s -> env_ok (with_core s c);
  periph_read_sound : forall inst s a, core_ok inst (core_of s) -> env_ok s -> DSP_PERIPH_BASE <= a -> in_u 24 a ->
    sound (in_u 24) (read_peripheral s a);
  periph_write_sound : forall inst s a v, core_ok inst (core_of s) -> env_ok s -> DSP_PERIPH_BASE <= a -> in_u 24 a ->
    in_u 24 v -> sound (fun s' => core_ok inst (core_of s') /\ env_ok s') (write_peripheral s a v)
}.

Section typing.
Variable inst : Z.

(** The updates of the fields, each with the condition it has to meet. *)
Section updates.
Context (c : dsp_core) (Hc : core_ok inst c).

Lemma ok_set_reg k v : in_u (width k) v -> core_ok inst (set_reg c k v).
Proof. intros Hv. destruct Hc. split; try done. by apply regs_fit_set. Qed.
Lemma ok_set_pc v : in_u 32 v -> core_ok inst (c <| pc := v |>).
Proof. intros Hv. destruct Hc. by split. Qed.
Lemma ok_set_len v : core_ok inst (c <| cur_inst_len := v |>).
Proof. destruct Hc. by split. Qed.
Lemma ok_set_cycle v : core_ok inst (c <| instr_cycle := v |>).
Proof. destruct Hc. by split. Qed.
Lemma ok_set_num v : core_ok inst (c <| num_inst := v |>).
Proof. destruct Hc. by split. Qed.
Lemma ok_set_rep v : core_ok inst (c <| loop_rep := v |>).
Proof. destruct Hc. by split. Qed.
Lemma ok_set_on_rep v : core_ok inst (c <| pc_on_rep := v |>).
Proof. destruct Hc. by split. Qed.
Lemma ok_set_state v : core_ok inst (c <| interrupt_state := v |>).
Proof. destruct Hc. by split. Qed.
Lemma ok_set_counter v : core_ok inst (c <| interrupt_counter := v |>).
Proof. destruct Hc. by split. Qed.
Lemma ok_set_pipeline v : core_ok inst (c <| interrupt_pipeline_count := v |>).
Proof. destruct Hc. by split. Qed.
Lemma ok_set_save v : in_u 16 v -> core_ok inst (c <| interrupt_save_pc := v |>).
Proof. intros Hv. destruct Hc. by split. Qed.
Lemma ok_set_fetch v : in_u 16 v -> core_ok inst (c <| interrupt_instr_fetch := v |>).
Proof. intros Hv. destruct Hc. by split. Qed.
Lemma ok_set_raise v : in_u 2 v -> core_ok inst (c <| interrupt_ipl_to_raise := v |>).
Proof. intros Hv. destruct Hc. by split. Qed.
Lemma ok_set_pending v : zlen v = 12 -> core_ok inst (c <| interrupt_is_pending := v |>).
Proof. intros Hv. destruct Hc. by split. Qed.
Lemma ok_set_stack0 m : regs_ok 16 m -> core_ok inst (c <| stack0 := m |>).
Proof. intros Hm. destruct Hc. by split. Qed.
Lemma ok_set_stack1 m : regs_ok 16 m -> core_ok inst (c <| stack1 := m |>).
Proof. intros Hm. destruct Hc. by split. Qed.
Lemma ok_set_xram k v : in_u 24 v -> core_ok inst (c <| xram := rset (xram c) k v |>).
Proof. intros Hv. destruct Hc. split; try done. by apply regs_ok_rset. Qed.
Lemma ok_set_yram k v : in_u 24 v -> core_ok inst (c <| yram := rset (yram c) k v |>).
Proof. intros Hv. destruct Hc. split; try done. by apply regs_ok_rset. Qed.
Lemma ok_set_mix k v : in_u 24 v -> core_ok inst (c <| mixbuffer := rset (mixbuffer c) k v |>).
Proof. intros Hv. destruct Hc. split; try done. by apply regs_ok_rset. Qed.
Lemma ok_set_pram k v : in_u 24 v ->
  core_ok inst (c <| pram := rset (pram c) k v |> <| pram_opcache := delete k (pram_opcache c) |>).
Proof.
  intros Hv. destruct Hc. split; try done; [by apply regs_ok_rset |].
  exact (pram_cache_store c (CP k) v ok_opcache0).
Qed.
Lemma ok_cache op : lookup_opcode_slow (rget (pram c) (pc c)) = Ok op ->
  core_ok inst (c <| pram_opcache := <[pc c := op]> (pram_opcache c) |>).
Proof.
  intros Hop. destruct Hc. split; try done. intros a op'. cbn. rewrite lookup_insert.
  case_decide as E; [intros [= <-]; by rewrite <- E | apply ok_opcache0].
Qed.

Lemma ok_reg k : in_u (width k) (reg c k).
Proof. apply (ok_regs inst c Hc). Qed.
Lemma ok_reg24 k : in_u 24 (reg c k).
Proof. apply regs_fit_24, (ok_regs inst c Hc). Qed.
Lemma ok_add_cycles n : core_ok inst (add_cycles c n).
Proof. apply ok_set_cycle. Qed.
End updates.

(** ** Bounds of words *)

Lemma fit_mod w n x : 0 <= n <= w -> in_u w (x mod 2 ^ n).
Proof. intros Hn. apply (in_u_mono n); [lia |]. apply in_u_mod. lia. Qed.

Lemma fit_mod_le w n x : 0 <= n -> in_u w x -> in_u w (x mod 2 ^ n).
Proof.
  intros Hn [H0 H1]. assert (0 < 2 ^ n) by (by apply Z.pow_pos_nonneg).
  split; [by apply Z.mod_pos_bound |]. pose proof (Z.mod_le x (2 ^ n) H0 H). lia.
Qed.

Lemma fit_const w v : (0 <=? v) && (v <? 2 ^ w) = true -> in_u w v.
Proof. unfold in_u. rewrite andb_true_iff, Z.leb_le, Z.ltb_lt. done. Qed.

Lemma fit_shiftl w n x : 0 <= n <= w -> in_u (w - n) x -> in_u w (x ≪ n).
Proof.
  intros Hn [H1 H2]. rewrite Z.shiftl_mul_pow2 by lia. split; [apply Z.mul_nonneg_nonneg; lia |].
  replace w with ((w - n) + n) by lia. rewrite Z.pow_add_r by lia. apply Z.mul_lt_mono_pos_r; [apply Z.pow_pos_nonneg; lia | done].
Qed.

Lemma fit_not_bit w x : 1 <= w -> in_u w (1 - (x .& 1)).
Proof.
  intros Hw. apply (in_u_mono 1); [done |]. rewrite land_1. unfold in_u. destruct (bit_cases x) as [-> | ->]; lia.
Qed.

Lemma fit_inst w c s n : 0 <= n <= w -> in_u w (inst_bits c s n).
Proof. apply fit_bitmask. Qed.

Lemma ok_stack0_top c k : core_ok inst c -> in_u 16 (rget (stack0 c) k).
Proof. intros Hc. apply (ok_stack0 inst c Hc). Qed.

Lemma ok_stack1_top c k : core_ok inst c -> in_u 16 (rget (stack1 c) k).
Proof. intros Hc. apply (ok_stack1 inst c Hc). Qed.

(** Registers that hold 24 bits. *)
Lemma width_rn k : in_u 3 k -> width (DSP_REG_R0 + k) = 24.
Proof. intros [H0 H1]. unfold width. change (2 ^ 3) with 8 in H1. zcases; lia. Qed.
Lemma width_nn k : in_u 3 k -> width (DSP_REG_N0 + k) = 24.
Proof. intros [H0 H1]. unfold width. change (2 ^ 3) with 8 in H1. zcases; lia. Qed.
Lemma width_r1 d : width (R1 d) = 24.
Proof. by destruct d. Qed.
Lemma width_x f : width (x_or_accu f) = 24.
Proof. unfold x_or_accu. by repeat case_match. Qed.
Lemma width_y f : width (y_or_accu f) = 24.
Proof. unfold y_or_accu. by repeat case_match. Qed.
Lemma width_x_bit x : width (DSP_REG_X0 + (x .& 1)) = 24.
Proof. rewrite land_1. by destruct (bit_cases x) as [-> | ->]. Qed.
Lemma width_y_bit x : width (DSP_REG_Y0 + (x .& 1)) = 24.
Proof. rewrite land_1. by destruct (bit_cases x) as [-> | ->]. Qed.

(** A word in its bounds, by its shape. *)
Ltac fits :=
  repeat match goal with
  | |- in_u (width ?k) _ =>
      let w := eval vm_compute in (width k) in
      match w with Zpos _ => change (width k) with w end
  | |- in_u (width (DSP_REG_R0 + inst_bits ?c ?s 3)) _ => rewrite (width_rn (inst_bits c s 3)) by (apply fit_inst; lia)
  | |- in_u (width (DSP_REG_N0 + inst_bits ?c ?s 3)) _ => rewrite (width_nn (inst_bits c s 3)) by (apply fit_inst; lia)
  | |- in_u (width (R1 ?d)) _ => rewrite (width_r1 d)
  | |- in_u (width (if ?b then _ else _)) _ => destruct b
  | |- in_u (width (x_or_accu ?f)) _ => rewrite (width_x f)
  | |- in_u (width (y_or_accu ?f)) _ => rewrite (width_y f)
  | |- in_u (width (DSP_REG_X0 + (?x .& 1))) _ => rewrite (width_x_bit x)
  | |- in_u (width (DSP_REG_Y0 + (?x .& 1))) _ => rewrite (width_y_bit x)
  | H : in_u ?w ?x |- in_u ?w' ?x => first [exact H | apply (in_u_mono w w'); [vm_compute; discriminate | exact H]]
  | |- in_u _ (_ .& BITMASK _) => apply fit_bitmask; lia
  | |- in_u _ (_ mod 2 ^ _) => apply fit_mod; lia
  | |- in_u _ (_ mod 2 ^ _) => apply fit_mod_le; [lia | solve [fits]]
  | |- in_u _ (inst_bits _ _ _) => apply fit_inst; lia
  | |- in_u ?w (reg ?c ?k) => first
      [ apply (ok_reg c) | apply (in_u_mono (width k)); [done | apply (ok_reg c)]
      | apply (in_u_mono 24); [done | apply (ok_reg24 c)] ]; try assumption
  | |- in_u _ (rget (stack0 _) _) => apply (in_u_mono 16); [done | apply ok_stack0_top]
  | |- in_u _ (rget (stack1 _) _) => apply (in_u_mono 16); [done | apply ok_stack1_top]
  | |- in_u _ (interrupt_instr_fetch _) => apply (in_u_mono 16); [done | apply (ok_fetch inst)]
  | |- in_u _ (interrupt_save_pc _) => apply (in_u_mono 16); [done | apply (ok_save inst)]
  | |- in_u _ (interrupt_ipl_to_raise _) => apply (in_u_mono 2); [done | apply (ok_raise inst)]
  | |- in_u 32 (pc _) => apply (ok_pc inst)
  | |- in_u _ _ => apply fit_const; reflexivity
  | |- in_u _ (_ .| _) => apply in_u_lor; [done | |]
  | |- in_u ?w (_ ≪ ?n) =>
      apply fit_shiftl; [lia | let v := eval vm_compute in (w - n) in change (w - n) with v]
  | |- in_u _ (_ .& _) => first [apply in_u_land_l; [done | solve [fits]] | apply in_u_land_r; [done | solve [fits]]]
  | |- in_u _ (1 - (_ .& 1)) => apply fit_not_bit; lia
  | |- in_u _ (ext24 _) => apply (in_u_mono 8); [done | apply ext24_ok]
  | |- in_u _ (if ?b then _ else _) => destruct b
  end.

(** ** Types of results *)

Class Ty (A : Type) := ty : A -> Prop.
#[local] Instance ty_word : Ty Z := in_u 24.
#[local] Instance ty_core : Ty dsp_core := core_ok inst.
#[local] Instance ty_acc : Ty acc := acc_ok.
#[local] Instance ty_bool : Ty bool := fun _ => True.
#[local] Instance ty_pair {A B} `{Ty A, Ty B} : Ty (A * B) := fun p => ty p.1 /\ ty p.2.

Abbreviation well_typed m := (sound ty m).

Create HintDb sound discriminated.

(** The condition on a core, by the updates that made it; [core_rule] is
    extended below with the functions of a core. *)
Ltac core_rule := fail.
Ltac core_tac :=
  repeat match goal with
  | H : core_ok inst ?c |- core_ok inst ?c => exact H
  | H : ty ?c |- core_ok inst ?c => exact H
  | |- core_ok inst (set_reg _ _ _) => apply ok_set_reg
  | |- core_ok inst (add_cycles _ _) => apply ok_add_cycles
  | |- core_ok inst (_ <| pc := _ |>) => apply ok_set_pc
  | |- core_ok inst (_ <| cur_inst_len := _ |>) => apply ok_set_len
  | |- core_ok inst (_ <| instr_cycle := _ |>) => apply ok_set_cycle
  | |- core_ok inst (_ <| num_inst := _ |>) => apply ok_set_num
  | |- core_ok inst (_ <| loop_rep := _ |>) => apply ok_set_rep
  | |- core_ok inst (_ <| pc_on_rep := _ |>) => apply ok_set_on_rep
  | |- core_ok inst (_ <| interrupt_state := _ |>) => apply ok_set_state
  | |- core_ok inst (_ <| interrupt_counter := _ |>) => apply ok_set_counter
  | |- core_ok inst (_ <| interrupt_pipeline_count := _ |>) => apply ok_set_pipeline
  | |- core_ok inst (_ <| interrupt_save_pc := _ |>) => apply ok_set_save
  | |- core_ok inst (_ <| interrupt_instr_fetch := _ |>) => apply ok_set_fetch
  | |- core_ok inst (_ <| interrupt_ipl_to_raise := _ |>) => apply ok_set_raise
  | |- core_ok inst (_ <| interrupt_is_pending := _ |>) => apply ok_set_pending
  | |- core_ok inst (_ <| stack0 := _ |>) => apply ok_set_stack0
  | |- core_ok inst (_ <| stack1 := _ |>) => apply ok_set_stack1
  | |- core_ok inst (if ?b then _ else _) => destruct b
  | |- core_ok inst (let c := ?x in @?f c) => change (core_ok inst (f x)); cbv beta
  | |- regs_ok _ (rset _ _ _) => apply regs_ok_rset
  | |- regs_ok _ (stack0 _) => apply (ok_stack0 inst)
  | |- regs_ok _ (stack1 _) => apply (ok_stack1 inst)
  | |- in_u _ _ => progress fits
  | |- core_ok inst _ => core_rule
  end.

#[local] Hint Extern 1 (core_ok inst _) => solve [core_tac] : sound.
#[local] Hint Extern 1 (in_u _ _) => solve [core_tac] : sound.

(** Name a core that a function has computed, once it is known to be well typed. *)
Ltac name_core x :=
  let H := fresh "Hok" in let c := fresh "c" in
  assert (H : core_ok inst x) by (core_tac; fail);
  revert H; generalize x; intros c H.

(** Split what is known of a result. *)
Ltac split_ty :=
  repeat match goal with
  | H : @ty (_ * _) _ ?p |- _ => is_var p; destruct p
  | H : @ty (_ * _) _ _ |- _ => destruct H as [? ?]; cbn [fst snd] in *
  | H : @ty ?T ?i _ |- _ => progress (unfold ty, i in H)
  end.

(** One step through a definition; [bind_rule] is extended below with the calls
    whose results are known more precisely than by their type. *)
Ltac bind_rule := fail.
Ltac match_rule := fail.
Ltac let_rule x := fail.
Ltac walk_step :=
  match goal with
  | |- sound _ AssertFail => exact I
  | |- sound _ _ => solve [eauto 3 with sound]
  | |- sound _ (Ok _) => cbn [sound]; cbv beta iota
  | |- @ty (_ * _) _ _ => split; cbn [fst snd]
  | |- @ty bool _ _ => exact I
  | |- @ty Z _ ?x => change (in_u 24 x)
  | |- @ty dsp_core _ ?x => change (core_ok inst x)
  | |- @ty acc _ ?x => change (acc_ok x)
  | |- sound ?Q (let c := ?x in @?f c) =>
      match type of x with
      | dsp_core => change (sound Q (f x)); cbv beta; name_core x
      | _ => change (sound Q (f x)); cbv beta; let_rule x
      | _ => change (sound Q (f x)); cbv beta
      end
  | |- sound _ (mbind (fun _ => _) (c_assert _)) => apply sound_assert; intros ?
  | |- sound _ (mbind _ _) => bind_rule
  | |- sound _ (mbind _ _) =>
      eapply (sound_bind ty); [| let a := fresh "a" in let H := fresh "H" in
        intros a H; repeat match goal with x : (_ * _)%type |- _ => destruct x end; cbv beta iota; split_ty]
  | |- sound _ (if ?b then _ else _) => apply sound_if; intros ?
  | |- sound _ (match ?x with _ => _ end) => match_rule
  | |- sound _ (match ?x with _ => _ end) => destruct x
  | |- _ /\ _ => split
  | |- _ => solve [eauto with sound]
  | |- core_ok inst _ => progress core_tac
  | |- in_u _ _ => progress fits
  end.
Ltac walk := repeat walk_step.

(** Unfold a definition without expanding its local names. *)
Tactic Notation "open" reference(f) := cbv delta [f]; cbv beta.

(** ** The stack, interrupts and registers *)

Lemma add_interrupt_safe c i : core_ok inst c -> 0 <= i < 12 -> well_typed (dsp56k_add_interrupt c i).
Proof.
  intros Hc Hi. destruct (ok_ipl inst c Hc) as [Hl _]. pose proof (ok_pending inst c Hc) as Hp.
  unfold dsp56k_add_interrupt.
  destruct (rd_ok (interrupt_ipl c) i) as (a & -> & _); [lia |]. rewrite ok_bind.
  destruct (a =? -1); [done |].
  destruct (rd_ok (interrupt_is_pending c) i) as (b & -> & _); [lia |]. rewrite ok_bind.
  destruct (b =? 0); [| done]. rewrite wr_ok by lia. rewrite ok_bind.
  apply ok_set_counter, ok_set_pending; [done |]. by rewrite length_insert.
Qed.
#[local] Hint Resolve add_interrupt_safe : sound.
#[local] Hint Extern 5 (_ <= _ < _) => lia : sound.

Lemma stack_exception_safe c : core_ok inst c -> well_typed (stack_exception c).
Proof. intros Hc. open stack_exception. walk. Qed.
#[local] Hint Resolve stack_exception_safe : sound.

Lemma stack_push_safe c p sr only : core_ok inst c -> well_typed (dsp_stack_push c p sr only).
Proof. intros Hc. open dsp_stack_push. walk. Qed.

(** SSH and SSL hold sixteen bits. *)
Lemma stack_pop_safe c : core_ok inst c ->
  sound (fun '(newpc, newsr, c') => in_u 16 newpc /\ in_u 16 newsr /\ core_ok inst c') (dsp_stack_pop c).
Proof.
  intros Hc. open dsp_stack_pop. walk.
Qed.
#[local] Hint Resolve stack_push_safe : sound.

(** A mask of the table is no wider than the register. *)
Lemma mask_safe k : in_u 6 k -> exists m, rd registers_mask k = Ok m /\ 0 <= m <= width k.
Proof.
  intros [H0 H1]. destruct (rd_ok registers_mask k) as (m & E & Hm); [done |]. exists m. split; [done |].
  assert (H : forallb (fun k => let m := nthZ registers_mask k in (0 <=? m) && (m <=? width k)) (seqZ 0 64) = true)
    by (vm_compute; reflexivity).
  rewrite forallb_forall in H. specialize (H k ltac:(apply list_elem_of_In, elem_of_seqZ; lia)). cbv zeta in H.
  unfold nthZ in H. rewrite Hm in H. destruct (Z.ltb_spec k 0); [lia |]. cbn [default] in H.
  apply andb_prop in H as [Hl Hh]. apply Z.leb_le in Hl, Hh. done.
Qed.

Ltac bind_rule ::=
  match goal with
  | |- sound _ (mbind _ (dsp_stack_pop _)) =>
      eapply sound_bind; [apply stack_pop_safe; core_tac | intros [[? ?] ?] (? & ? & ?); cbv beta iota]
  end.

Lemma pop_value_safe c : core_ok inst c -> sound ty ('(v, _, c) ← dsp_stack_pop c; Ok (v, c)).
Proof.
  intros Hc. eapply sound_bind; [by apply stack_pop_safe |]. intros [[v w] c'] (Hv & _ & Hc').
  split; [| done]. by apply (in_u_mono 16).
Qed.

Lemma masked_safe c k v : core_ok inst c -> in_u 6 k ->
  sound ty (m ← rd registers_mask k; Ok (set_reg c k (v .& BITMASK m))).
Proof.
  intros Hc Hk. destruct (mask_safe k Hk) as (m & -> & Hm). rewrite ok_bind. cbn [sound].
  apply ok_set_reg; [done |]. by apply fit_bitmask.
Qed.
#[local] Hint Resolve pop_value_safe masked_safe : sound.

Lemma compute_ssh_ssl_ok c : core_ok inst c -> core_ok inst (dsp_compute_ssh_ssl c).
Proof. intros Hc. open dsp_compute_ssh_ssl. core_tac. Qed.
Ltac core_rule ::= match goal with |- core_ok inst (dsp_compute_ssh_ssl _) => apply compute_ssh_ssl_ok end.

Lemma write_reg_safe c k v : core_ok inst c -> in_u 6 k -> in_u 32 v ->
  (k = DSP_REG_A \/ k = DSP_REG_B -> in_u 24 v) -> well_typed (dsp_write_reg c k v).
Proof.
  intros Hc Hk Hv Hacc. open dsp_write_reg.
  assert (Hext : in_u 8 (if flag v (1 ≪ 23) then 0xff else 0x0)) by (destruct (flag _ _); fits).
  revert Hext. cbv zeta. generalize (if flag v (1 ≪ 23) then 0xff else 0x0). intros ext Hext.
  destruct (Z.eqb_spec k DSP_REG_A) as [-> |]; [specialize (Hacc ltac:(auto)); walk |].
  destruct (Z.eqb_spec k DSP_REG_B) as [-> |]; [specialize (Hacc ltac:(auto)); walk |].
  walk.
Qed.

Lemma read_memory_p_safe c a : core_ok inst c -> well_typed (read_memory_p c a).
Proof. intros Hc. open read_memory_p. walk. apply (ok_pram inst c Hc). Qed.
#[local] Hint Resolve read_memory_p_safe : sound.

(** ** After the instruction *)

Lemma update_pc_safe c : core_ok inst c -> well_typed (dsp_postexecute_update_pc c).
Proof.
  intros Hc. open dsp_postexecute_update_pc. walk.
Qed.

Lemma enter_long_interrupt_safe c : core_ok inst c -> well_typed (enter_long_interrupt c).
Proof.
  intros Hc. open enter_long_interrupt. walk.
Qed.
#[local] Hint Resolve update_pc_safe enter_long_interrupt_safe : sound.

Lemma interrupt_pipeline_safe c : core_ok inst c -> well_typed (interrupt_pipeline c).
Proof.
  intros Hc. open interrupt_pipeline. open pipeline_next. walk.
Qed.

Lemma arbitrate_range sr : forall p l i index raise r,
  arbitrate sr i p l index raise = Some r -> index = Some r \/ i <= r < i + zlen p.
Proof.
  induction p as [| x p IH]; intros [| y l] i index raise r E; cbn [arbitrate] in E; try (by left).
  cbn [length]. rewrite Nat2Z.inj_succ.
  repeat case_match; try (injection E as <-); try apply IH in E as [E | ?]; simplify_eq; auto with lia.
Qed.

Lemma raise_interrupt_safe c : core_ok inst c -> well_typed (raise_interrupt c).
Proof.
  intros Hc. open raise_interrupt. cbv zeta. destruct (ok_ipl inst c Hc) as [Hl Hf]. pose proof (ok_pending inst c Hc) as Hp.
  destruct (arbitrate _ _ _ _ _ _) as [i |] eqn:E; [| exact Hc].
  apply arbitrate_range in E as [[=] | Hi].
  rewrite wr_ok by lia. rewrite ok_bind.
  eapply sound_bind; [by apply (sound_rd (fun l => -1 <= l <= 3)); [cbn; lia | exact Hf] |].
  intros ipl Hipl. eapply sound_bind.
  - apply (sound_rd (in_u 16)); [change (zlen dsp_interrupt_vector) with 12; lia |]. repeat first [apply List.Forall_nil | apply List.Forall_cons; [fits |]].
  - intros vec Hvec. walk; [by rewrite length_insert |]. cbv beta in Hipl. split; lia.
Qed.
#[local] Hint Resolve interrupt_pipeline_safe raise_interrupt_safe : sound.

Lemma post_interrupts_safe c : core_ok inst c -> well_typed (post_interrupts c).
Proof. intros Hc. open post_interrupts. open dsp_postexecute_interrupts. walk. Qed.

Lemma post_pc_safe c : core_ok inst c -> well_typed (post_pc c).
Proof. intros Hc. open post_pc. walk. Qed.
#[local] Hint Resolve post_interrupts_safe post_pc_safe : sound.

(** ** Addresses *)

Lemma update_rn_modulo_safe c k m : core_ok inst c -> in_u 3 k -> m < 2 ^ 15 ->
  1 <= u16 (reg c (DSP_REG_M0 + k)) <= 32767 -> well_typed (emu_update_rn_modulo c k m).
Proof.
  intros Hc Hk Hm Hmod. open emu_update_rn_modulo. cbv zeta.
  replace (u16 (reg c (DSP_REG_M0 + k) + 1)) with (u16 (reg c (DSP_REG_M0 + k)) + 1) by divmod_lia.
  set (modulo := u16 (reg c (DSP_REG_M0 + k)) + 1) in *.
  rewrite grow_buffer_ok by lia. rewrite ok_bind. eapply (sound_bind (fun _ => True)).
  - destruct (Z.ltb_spec modulo m); [| done].
    assert (1 <= block_of modulo) by (unfold block_of; pose proof (Z.pow_pos_nonneg 2 (Z.log2_up modulo)); pose proof (Z.log2_up_nonneg modulo); lia).
    destruct (skip_up_ok (block_of modulo) (Z.to_nat (Z.abs m)) (sext 16 (reg c (DSP_REG_R0 + k))) m) as (r' & m' & -> & Hm');
      [lia .. |]. rewrite ok_bind. by rewrite skip_down_done.
  - intros [r' m'] _. cbn [sound]. apply ok_set_reg; [done |]. rewrite width_rn by done. fits.
Qed.

Lemma revbits_bounds v : 1 <= revbits_of v <= 17.
Proof.
  pose proof (revbits_pos v). unfold revbits_of in *. destruct (List.find _ _) as [k |] eqn:E; cbn [default from_option] in *; [| lia].
  apply List.find_some in E as [Hk _]. apply list_elem_of_In, elem_of_seqZ in Hk. unfold id in *. lia.
Qed.

Lemma reverse_into_fit w k x v : 0 <= k <= w -> in_u w v -> in_u w (reverse_into k x v).
Proof.
  intros Hk Hv. assert (H0 : 0 <= reverse_into k x v).
  { unfold reverse_into. assert (Hn : Forall (fun i => 0 <= i < k) (seqZ 0 k)) by (apply Forall_forall; intros i Hi; apply elem_of_seqZ in Hi; lia).
    revert v Hv Hn. generalize (seqZ 0 k). induction l as [| i l IH]; intros v Hv Hn; cbn [foldl]; [apply Hv |].
    inversion Hn as [| ? ? Hi Hl]; subst. apply IH; [| done]. destruct (flag _ _); [| done].
    apply in_u_lor; [lia | done |]. rewrite Z.shiftl_1_l. split; [apply Z.pow_nonneg; lia | apply Z.pow_lt_mono_r; lia]. }
  apply in_u_bits; [lia | done |]. intros i Hi. rewrite reverse_into_testbit by lia.
  rewrite (testbit_small w v i) by (done || lia). destruct (Z.ltb_spec i k); [lia | done].
Qed.

Lemma bitreverse_ok c k : core_ok inst c -> in_u 3 k -> core_ok inst (emu_update_rn_bitreverse c k).
Proof.
  intros Hc Hk. unfold emu_update_rn_bitreverse. pose proof (revbits_bounds (reg c (DSP_REG_N0 + k))) as Hb.
  set (n := revbits_of _) in *. apply ok_set_reg; [done |]. rewrite width_rn by done.
  pose proof (ok_reg24 c Hc (DSP_REG_R0 + k)) as Hr.
  assert (Hlow : forall x, in_u 24 (x .& BITMASK n)) by (intros; apply fit_bitmask; lia).
  apply reverse_into_fit; [lia |]. apply in_u_land_l; [done |].
  apply in_u_lor; [done | by apply in_u_land_l | apply Hlow].
Qed.

Lemma update_rn_safe c k m : core_ok inst c -> in_u 3 k -> m < 2 ^ 15 -> well_typed (emu_update_rn c k m).
Proof.
  intros Hc Hk Hm. open emu_update_rn. cbv zeta.
  destruct (Z.eqb_spec (u16 (reg c (DSP_REG_M0 + k))) 65535).
  { cbn [sound]. apply ok_set_reg; [done |]. rewrite width_rn by done. fits. }
  destruct (Z.eqb_spec (u16 (reg c (DSP_REG_M0 + k))) 0); [by apply bitreverse_ok |].
  destruct (Z.leb_spec (u16 (reg c (DSP_REG_M0 + k))) 32767); [| done].
  apply update_rn_modulo_safe; try done. split; [| done].
  assert (0 <= u16 (reg c (DSP_REG_M0 + k))) by (apply Z.mod_pos_bound; lia). lia.
Qed.
#[local] Hint Resolve update_rn_safe : sound.
#[local] Hint Extern 5 (_ < _) => lia : sound.

Lemma calc_ea_safe c mode : core_ok inst c -> well_typed (emu_calc_ea c mode).
Proof.
  intros Hc. open emu_calc_ea.
  assert (Hk : in_u 3 (mode .& BITMASK 3)) by fits.
  assert (Hv : in_u 3 ((mode ≫ 3) .& BITMASK 3)) by fits.
  revert Hk Hv. cbv zeta. generalize (mode .& BITMASK 3), ((mode ≫ 3) .& BITMASK 3). intros k v Hk Hv.
  pose proof (fun x => proj2 (sext16_bounds x)). walk.
Qed.
#[local] Hint Resolve calc_ea_safe : sound.

(** ** The accumulators of a move *)

Lemma or_sr_ok c v : core_ok inst c -> in_u 16 v -> core_ok inst (or_sr c v).
Proof. intros Hc Hv. unfold or_sr. core_tac. Qed.

Lemma clear_sr_ok c m : core_ok inst c -> core_ok inst (clear_sr c m).
Proof. intros Hc. unfold clear_sr. core_tac. Qed.

Ltac core_rule ::=
  match goal with
  | |- core_ok inst (dsp_compute_ssh_ssl _) => apply compute_ssh_ssl_ok
  | |- core_ok inst (or_sr _ _) => apply or_sr_ok
  | |- core_ok inst (clear_sr _ _) => apply clear_sr_ok
  end.

Lemma accu24_safe c k : core_ok inst c -> ty (emu_pm_read_accu24 c k).
Proof. intros Hc. cbv delta [emu_pm_read_accu24]. cbv beta zeta. repeat case_match; walk. Qed.

Lemma read_source_safe c k : core_ok inst c -> ty (read_source c k).
Proof.
  intros Hc. unfold read_source. destruct (_ || _); [| split; [apply (ok_reg24 c Hc) | done]].
  pose proof (accu24_safe c k Hc) as H. destruct (emu_pm_read_accu24 c k) as [[lim v] c'].
  destruct H as [[_ ?] ?]. by split.
Qed.

Lemma bit_01 x : x .& 1 = 0 \/ x .& 1 = 1.
Proof. rewrite land_1. apply bit_cases. Qed.

Lemma put_accu_ok c r v : core_ok inst c -> r = 0 \/ r = 1 -> in_u 24 v -> core_ok inst (put_accu c r v).
Proof. intros Hc [-> | ->] Hv; unfold put_accu; core_tac. Qed.

Lemma write_dest_masked_safe c k v : core_ok inst c -> in_u 6 k -> in_u 24 v -> well_typed (write_dest_masked c k v).
Proof. intros Hc Hk Hv. open write_dest_masked. walk; apply put_accu_ok; auto. Qed.

(** The registers of the data moves. *)
Definition xy_or_accu (k : Z) : bool := (4 <=? k) && (k <=? 7) || (k =? DSP_REG_A) || (k =? DSP_REG_B).

Lemma xy_or_accu_cases k : xy_or_accu k = true -> k = 4 \/ k = 5 \/ k = 6 \/ k = 7 \/ k = 14 \/ k = 15.
Proof. unfold xy_or_accu. zcases; try done; lia. Qed.

Lemma write_dest_ok c k v : core_ok inst c -> xy_or_accu k = true -> in_u 24 v -> core_ok inst (write_dest c k v).
Proof.
  intros Hc Hk Hv. unfold write_dest. apply xy_or_accu_cases in Hk.
  repeat destruct Hk as [-> | Hk]; subst; cbn; first [apply put_accu_ok; by auto | core_tac].
Qed.

Lemma x_or_accu_ok f : xy_or_accu (x_or_accu f) = true.
Proof. unfold x_or_accu. by repeat case_match. Qed.
Lemma y_or_accu_ok f : xy_or_accu (y_or_accu f) = true.
Proof. unfold y_or_accu. by repeat case_match. Qed.

Ltac core_rule ::=
  match goal with
  | |- core_ok inst (dsp_compute_ssh_ssl _) => apply compute_ssh_ssl_ok
  | |- core_ok inst (or_sr _ _) => apply or_sr_ok
  | |- core_ok inst (clear_sr _ _) => apply clear_sr_ok
  | |- core_ok inst (put_accu _ _ _) => apply put_accu_ok; [| first [left; reflexivity | right; reflexivity | apply bit_01] |]
  | |- core_ok inst (write_dest _ (x_or_accu _) _) => apply write_dest_ok; [| apply x_or_accu_ok |]
  | |- core_ok inst (write_dest _ (y_or_accu _) _) => apply write_dest_ok; [| apply y_or_accu_ok |]
  end.

(** Name a result that is known to be well typed. *)
Ltac name_result x lem :=
  let H := fresh "H" in pose proof lem as H; destruct x as [? ?]; split_ty.
Ltac match_rule ::=
  match goal with
  | |- sound _ (match read_source ?c ?k with _ => _ end) =>
      name_result (read_source c k) (read_source_safe c k ltac:(core_tac))
  | |- sound _ (match emu_pm_read_accu24 ?c ?k with _ => _ end) =>
      name_result (emu_pm_read_accu24 c k) (accu24_safe c k ltac:(core_tac))
  | p : (_ * _)%type |- sound _ (match ?p with _ => _ end) => destruct p; split_ty
  end; cbv beta iota.
Lemma ok_source_safe c k : core_ok inst c -> sound ty (Ok (read_source c k)).
Proof. apply read_source_safe. Qed.
#[local] Hint Resolve write_dest_masked_safe ok_source_safe : sound.

(** ** The operation beside a move *)

Lemma frame_ok c c' : core_ok inst c -> regs_fit c' -> alu_frame c c' -> core_ok inst c'.
Proof.
  intros Hc Hr [E _]. revert Hr. rewrite E. intros Hr. destruct Hc. by split.
Qed.

Lemma undefined_safe c : core_ok inst c -> well_typed (emu_undefined c).
Proof. intros Hc. open emu_undefined. walk. Qed.

(** The operation of a word is not MAX. *)
Definition alu_defined : Prop := opcodes_alu !! Z.to_nat (inst .& BITMASK 8) <> Some MAX.

Lemma parallel_alu_safe c : alu_defined -> core_ok inst c -> well_typed (parallel_alu c).
Proof.
  intros Hd Hc. unfold parallel_alu. rewrite (ok_inst inst c Hc).
  assert (Hb : in_u 8 (inst .& BITMASK 8)) by fits.
  destruct (rd_ok opcodes_alu (inst .& BITMASK 8)) as (op & -> & E);
    [change (zlen opcodes_alu) with (2 ^ 8); exact Hb |].
  rewrite ok_bind. destruct (decide (op = UNDEFINED)) as [-> | Hu]; [by apply undefined_safe |].
  destruct (run_alu_good op c) as (c' & -> & Hr & Hf); [apply (ok_regs inst c Hc) | done | intros ->; done |].
  by apply (frame_ok c).
Qed.

(** ** Memory *)

Section with_memory.
Context {S : Type} `{SoundPeripherals S}.

Definition st_ok (s : S) : Prop := core_ok inst (core_of s) /\ env_ok s.
#[local] Instance ty_state : Ty S := st_ok.

Lemma st_with s c : st_ok s -> core_ok inst c -> st_ok (with_core s c).
Proof. intros [_ He] Hc. split; [by rewrite core_with | by apply env_with]. Qed.

Lemma st_core s : st_ok s -> core_ok inst (core_of s).
Proof. by intros []. Qed.

Lemma high_byte_clear v : in_u 32 v -> (v .& 0xFF000000 =? 0) = true -> in_u 24 v.
Proof.
  intros Hv E. apply Z.eqb_eq in E. split; [apply Hv |].
  assert (Hs : v ≫ 24 = 0).
  { apply Z.bits_inj'. intros i Hi. rewrite Z.bits_0, Z.shiftr_spec by lia.
    destruct (Z.ltb_spec i 8) as [Hlt |].
    - assert (Hb : Z.testbit (v .& 0xFF000000) (i + 24) = false) by (rewrite E; apply Z.bits_0).
      rewrite Z.land_spec in Hb. replace 0xFF000000 with (BITMASK 8 ≪ 24) in Hb by reflexivity.
      rewrite Z.shiftl_spec, Z.add_simpl_r, BITMASK_ones, Z.ones_spec_low, andb_true_r in Hb by lia. done.
    - apply (testbit_small 32); [exact Hv | lia]. }
  rewrite Z.shiftr_div_pow2 in Hs by lia. apply Z.div_small_iff in Hs as [? | ?]; lia.
Qed.

Lemma read_memory_safe s space a : st_ok s -> in_u 32 a -> sound (in_u 24) (dsp56k_read_memory s space a).
Proof.
  intros [Hc He] Ha. unfold dsp56k_read_memory. apply sound_assert. intros Ea. apply high_byte_clear in Ea; [| done].
  destruct (space =? DSP_SPACE_X).
  - destruct (Z.leb_spec DSP_PERIPH_BASE a); [by apply (periph_read_sound inst) |].
    repeat case_match; cbn [sound]; first [apply (ok_mixbuffer inst _ Hc) | apply (ok_xram inst _ Hc) | fits].
  - destruct (space =? DSP_SPACE_Y); [apply sound_assert; intros _; apply (ok_yram inst _ Hc) |].
    destruct (space =? DSP_SPACE_P); [by apply read_memory_p_safe | done].
Qed.

Lemma write_memory_safe s space a v : st_ok s -> in_u 32 a -> in_u 32 v ->
  well_typed (dsp56k_write_memory s space a v).
Proof.
  intros Hs Ha Hv. pose proof (st_core s Hs) as Hc. unfold dsp56k_write_memory, write_memory_raw.
  apply sound_assert. intros Ev. apply high_byte_clear in Ev; [| done].
  apply sound_assert. intros Ea. apply high_byte_clear in Ea; [| done].
  destruct (space =? DSP_SPACE_X).
  - destruct (Z.leb_spec DSP_PERIPH_BASE a); [destruct Hs; by apply (periph_write_sound inst) |].
    destruct (_ && _); [by apply st_with, ok_set_mix |]. destruct (_ && _); [by apply st_with, ok_set_mix |].
    apply sound_assert. intros _. by apply st_with, ok_set_xram.
  - destruct (space =? DSP_SPACE_Y); [apply sound_assert; intros _; by apply st_with, ok_set_yram |].
    destruct (space =? DSP_SPACE_P); [apply sound_assert; intros _; by apply st_with, ok_set_pram | done].
Qed.
#[local] Hint Resolve write_memory_safe : sound.

Lemma read_word_safe s space a : st_ok s -> in_u 32 a -> well_typed (dsp56k_read_memory s space a).
Proof. apply read_memory_safe. Qed.
#[local] Hint Resolve read_word_safe : sound.

Ltac state_tac :=
  repeat match goal with
  | H : st_ok ?s |- st_ok ?s => exact H
  | |- @ty S _ ?s => change (st_ok s)
  | |- st_ok (with_core _ _) => apply st_with
  | |- st_ok (if ?b then _ else _) => destruct b
  | |- core_ok inst (core_of (with_core _ _)) => rewrite core_with
  | |- core_ok inst (core_of _) => apply st_core
  | |- core_ok inst _ => progress core_tac
  | |- in_u _ _ => progress fits
  end.
Ltac core_rule ::=
  match goal with
  | |- core_ok inst (core_of (with_core _ _)) => rewrite core_with
  | |- core_ok inst (core_of _) => apply st_core; state_tac
  | |- core_ok inst (dsp_compute_ssh_ssl _) => apply compute_ssh_ssl_ok
  | |- core_ok inst (or_sr _ _) => apply or_sr_ok
  | |- core_ok inst (clear_sr _ _) => apply clear_sr_ok
  | |- core_ok inst (put_accu _ _ _) => apply put_accu_ok; [| first [left; reflexivity | right; reflexivity | apply bit_01] |]
  | |- core_ok inst (write_dest _ (x_or_accu _) _) => apply write_dest_ok; [| apply x_or_accu_ok |]
  | |- core_ok inst (write_dest _ (y_or_accu _) _) => apply write_dest_ok; [| apply y_or_accu_ok |]
  end.
#[local] Hint Extern 1 (st_ok _) => solve [state_tac] : sound.
Ltac let_rule x ::=
  match type of x with
  | S => let H := fresh "Hst" in let s := fresh "s" in
      assert (H : st_ok x) by (state_tac; fail); revert H; generalize x; intros s H
  end.
Ltac walk ::= repeat first [walk_step | progress state_tac].

(** ** The parallel moves *)

Section parallel_moves.
Context (Hdef : alu_defined).

#[local] Hint Resolve parallel_alu_safe : sound.

Lemma pm_0_safe s : st_ok s -> well_typed (emu_pm_0 s).
Proof. intros Hs. open emu_pm_0. walk. Qed.

Lemma pm_1_safe s : st_ok s -> well_typed (emu_pm_1 s).
Proof. intros Hs. open emu_pm_1. walk. Qed.

Lemma pm_2_2_safe s : st_ok s -> well_typed (emu_pm_2_2 s).
Proof. intros Hs. open emu_pm_2_2. walk. Qed.

Lemma pm_3_safe s : st_ok s -> well_typed (emu_pm_3 s).
Proof. intros Hs. open emu_pm_3. walk. Qed.
#[local] Hint Resolve pm_2_2_safe pm_3_safe : sound.

Lemma pm_2_safe s : st_ok s -> well_typed (emu_pm_2 s).
Proof. intros Hs. open emu_pm_2. walk. Qed.
#[local] Hint Resolve pm_2_safe : sound.

Lemma read_long_safe c k : core_ok inst c -> sound ty (Ok (read_long c k)).
Proof.
  intros Hc. change (ty (read_long c k)). unfold read_long.
  repeat (match goal with
    | |- ty (match emu_pm_read_accu24 ?c ?k with _ => _ end) =>
        name_result (emu_pm_read_accu24 c k) (accu24_safe c k ltac:(core_tac))
    | |- ty (if ?b then _ else _) => destruct b
    | |- ty (match ?x with _ => _ end) => destruct x
    end; cbv beta iota); walk.
Qed.

Lemma write_long_ok c k x y : core_ok inst c -> in_u 24 x -> in_u 24 y -> core_ok inst (write_long c k x y).
Proof. intros Hc Hx Hy. unfold write_long. repeat case_match; core_tac. Qed.
#[local] Hint Resolve read_long_safe write_long_ok : sound.

Lemma pm_4x_safe s : st_ok s -> well_typed (emu_pm_4x s).
Proof. intros Hs. open emu_pm_4x. walk. Qed.

Lemma pm_5_safe s : st_ok s -> well_typed (emu_pm_5 s).
Proof. intros Hs. open emu_pm_5. walk. Qed.
#[local] Hint Resolve pm_4x_safe pm_5_safe : sound.

Lemma pm_4_safe s : st_ok s -> well_typed (emu_pm_4 s).
Proof. intros Hs. open emu_pm_4. walk. Qed.

Lemma pm_8_safe s : st_ok s -> well_typed (emu_pm_8 s).
Proof. intros Hs. open emu_pm_8. walk. Qed.
#[local] Hint Resolve pm_0_safe pm_1_safe pm_4_safe pm_8_safe : sound.

Lemma parmove_safe i s : st_ok s -> well_typed (opcodes_parmove i s).
Proof. intros Hs. unfold opcodes_parmove. repeat case_match; eauto with sound. Qed.
End parallel_moves.

(** ** Arithmetic with immediate operands *)

Lemma store_acc_ok c d a : core_ok inst c -> acc_ok a -> core_ok inst (store_acc c d a).
Proof. intros Hc [Ha0 Ha1 Ha2]. unfold store_acc. destruct d; cbn [R0 R1 R2]; core_tac. Qed.

Lemma ccr_ok c a : core_ok inst c -> core_ok inst (ccr c a).
Proof. intros Hc. apply (frame_ok c); [done | apply ccr_fit, (ok_regs inst c Hc) | apply ccr_frame, alu_frame_refl]. Qed.

Lemma set_vc_ok c v : core_ok inst c -> in_u 16 v -> core_ok inst (set_vc c v).
Proof. intros Hc Hv. unfold set_vc. core_tac. Qed.

Lemma logic_nz_ok c d : core_ok inst c -> core_ok inst (logic_nz c d).
Proof. intros Hc. apply (frame_ok c); [done | apply logic_nz_fit, (ok_regs inst c Hc) | apply logic_nz_frame, alu_frame_refl]. Qed.

Lemma lsl_ok d c : core_ok inst c -> core_ok inst (emu_lsl d c).
Proof.
  intros Hc. destruct (run_alu_good (LSL d) c) as (c' & E & Hr & Hf); [apply (ok_regs inst c Hc) | done | done |].
  injection E as ->. by apply (frame_ok c).
Qed.

Lemma load_ok c d : core_ok inst c -> acc_ok (load_acc c d).
Proof. intros Hc. apply load_acc_ok, (ok_regs inst c Hc). Qed.

Lemma add56_safe s d : acc_ok s -> acc_ok d -> in_u 16 (dsp_add56 s d).1 /\ acc_ok (dsp_add56 s d).2.
Proof. intros Hs Hd. destruct (add56_spec s d Hs Hd) as (r & -> & Hr & _). split; [apply vc_flags_fit | done]. Qed.

Lemma sub56_safe s d : acc_ok s -> acc_ok d -> in_u 16 (dsp_sub56 s d).1 /\ acc_ok (dsp_sub56 s d).2.
Proof. intros Hs Hd. destruct (sub56_spec s d Hs Hd) as (r & -> & Hr & _). split; [apply vc_flags_fit | done]. Qed.

Lemma next_word_safe c : core_ok inst c -> well_typed (next_word c).
Proof. intros Hc. open next_word. walk. Qed.

Lemma and_x_ok x d c : core_ok inst c -> in_u 24 x -> core_ok inst (emu_and_x x d c).
Proof.
  intros Hc Hx. unfold emu_and_x. apply logic_nz_ok, clear_sr_ok, ok_set_reg; [done |].
  destruct (accum_of d); cbn [R1]; fits.
Qed.

Lemma small_acc_ok x y : in_u 24 x -> in_u 24 y -> acc_ok (mkAcc 0 x y).
Proof. intros Hx Hy. split; [by apply in_u_0 | done | done]. Qed.

Lemma add_x_ok x d c : core_ok inst c -> in_u 24 x -> core_ok inst (emu_add_x x d c).
Proof.
  intros Hc Hx. unfold emu_add_x.
  destruct (add56_safe (word48 x 0) (load_acc c (accum_of d))) as [H3 H4]; [apply word48_ok; fits | by apply load_ok |].
  destruct (dsp_add56 _ _) as [sr r]. by apply set_vc_ok, H3; apply ccr_ok, store_acc_ok.
Qed.

Lemma sub_x_ok x d c : core_ok inst c -> in_u 24 x -> core_ok inst (emu_sub_x x d c).
Proof.
  intros Hc Hx. unfold emu_sub_x.
  destruct (sub56_safe (word48 x 0) (load_acc c (accum_of d))) as [H3 H4]; [apply word48_ok; fits | by apply load_ok |].
  destruct (dsp_sub56 _ _) as [sr r]. by apply set_vc_ok, H3; apply ccr_ok, store_acc_ok.
Qed.

Lemma cmp_words_ok a d c : core_ok inst c -> acc_ok a -> core_ok inst (cmp_words a d c).
Proof.
  intros Hc Ha. unfold cmp_words. destruct (sub56_safe a (load_acc c (accum_of d))) as [H3 H4]; [done | by apply load_ok |].
  destruct (dsp_sub56 _ _) as [sr r]. by apply set_vc_ok, H3; apply ccr_ok.
Qed.

Lemma asl56_safe a n : acc_ok a -> 0 <= n <= 56 -> sound (fun '(sr, r) => in_u 16 sr /\ acc_ok r) (dsp_asl56 a n).
Proof.
  intros Ha Hn. destruct (asl56_val a n Ha) as (sr & r & E & Hr & _); [lia |].
  rewrite E. split; [| done]. unfold dsp_asl56 in E. destruct (negb _); [done |].
  apply ok_pair_inj in E as [<- _]. unfold b2z. fits.
Qed.

Lemma asr56_safe a n : acc_ok a -> 1 <= n <= 63 -> sound (fun '(sr, r) => in_u 16 sr /\ acc_ok r) (dsp_asr56 a n).
Proof.
  intros Ha Hn. destruct (asr56_val a n Ha) as (sr & r & E & Hr & _); [lia |].
  rewrite E. split; [| done]. unfold dsp_asr56 in E. destruct (negb _); [done |].
  apply ok_pair_inj in E as [<- _]. fits.
Qed.

Lemma mul56_safe x y sg : in_u 24 x -> in_u 24 y -> well_typed (dsp_mul56 x y sg).
Proof. intros Hx Hy. by destruct (dsp_mul56_correct x y sg Hx Hy) as (r & -> & Hr & _). Qed.

Lemma signextend_safe n v : 1 <= n < 32 -> sound (in_u 32) (dsp_signextend n v).
Proof.
  intros Hn. unfold dsp_signextend. destruct (Z.ltb_spec 0 (32 - n)); [| done]. cbn [c_assert].
  rewrite ok_bind. destruct (Z.leb_spec 32 (32 - n)); [lia |]. cbn [sound]. fits.
Qed.

Lemma xy_word_ok c v : core_ok inst c -> in_u 24 v -> acc_ok (word48 v 0).
Proof. intros Hc Hv. apply word48_ok; [done | by apply in_u_0]. Qed.

#[local] Hint Resolve next_word_safe mul56_safe : sound.

Ltac acc_tac :=
  match goal with
  | |- acc_ok (load_acc _ _) => apply load_ok; core_tac
  | |- acc_ok (word48 _ _) => apply word48_ok; core_tac
  | |- acc_ok (mkAcc 0 _ _) => apply small_acc_ok; core_tac
  | |- acc_ok _ => assumption
  | |- acc_ok (if ?b then _ else _) => destruct b; acc_tac
  | |- acc_ok (dsp_add56 _ _).2 => apply add56_safe; acc_tac
  | |- acc_ok (dsp_sub56 _ _).2 => apply sub56_safe; acc_tac
  | H : acc_ok ?a |- acc_ok (mkAcc (dest0 ?a) (dest1 ?a) _) =>
      split; [apply (acc_ok0 a H) | apply (acc_ok1 a H) | apply in_u_lor; [done | apply (acc_ok2 a H) | core_tac]]
  end.
Ltac let_rule x ::=
  match type of x with
  | S => let H := fresh "Hst" in let s := fresh "s" in
      assert (H : st_ok x) by (state_tac; fail); revert H; generalize x; intros s H
  | acc => let H := fresh "Hacc" in let a := fresh "a" in
      assert (H : acc_ok x) by acc_tac; revert H; generalize x; intros a H
  end.
Ltac core_rule ::=
  match goal with
  | |- core_ok inst (core_of (with_core _ _)) => rewrite core_with
  | |- core_ok inst (core_of _) => apply st_core; state_tac
  | |- core_ok inst (dsp_compute_ssh_ssl _) => apply compute_ssh_ssl_ok
  | |- core_ok inst (or_sr _ _) => apply or_sr_ok
  | |- core_ok inst (clear_sr _ _) => apply clear_sr_ok
  | |- core_ok inst (put_accu _ _ _) => apply put_accu_ok; [| first [left; reflexivity | right; reflexivity | apply bit_01] |]
  | |- core_ok inst (write_dest _ (x_or_accu _) _) => apply write_dest_ok; [| apply x_or_accu_ok |]
  | |- core_ok inst (write_dest _ (y_or_accu _) _) => apply write_dest_ok; [| apply y_or_accu_ok |]
  | |- core_ok inst (store_acc _ _ _) => apply store_acc_ok; [| acc_tac]
  | |- core_ok inst (ccr _ _) => apply ccr_ok
  | |- core_ok inst (set_vc _ _) => apply set_vc_ok
  | |- core_ok inst (logic_nz _ _) => apply logic_nz_ok
  | |- core_ok inst (emu_and_x _ _ _) => apply and_x_ok
  | |- core_ok inst (emu_add_x _ _ _) => apply add_x_ok
  | |- core_ok inst (emu_sub_x _ _ _) => apply sub_x_ok
  | |- core_ok inst (cmp_words _ _ _) => apply cmp_words_ok; [| acc_tac]
  | |- core_ok inst (jump_to _ _) => unfold jump_to
  | |- core_ok inst (branch_by _ _) => unfold branch_by
  | |- core_ok inst (match ?x with _ => _ end) => destruct x
  end.
Ltac match_rule ::=
  match goal with
  | |- sound _ (match read_source ?c ?k with _ => _ end) =>
      name_result (read_source c k) (read_source_safe c k ltac:(core_tac))
  | |- sound _ (match emu_pm_read_accu24 ?c ?k with _ => _ end) =>
      name_result (emu_pm_read_accu24 c k) (accu24_safe c k ltac:(core_tac))
  | |- sound _ (match dsp_add56 ?s ?d with _ => _ end) =>
      let H := fresh "H" in pose proof (add56_safe s d ltac:(acc_tac) ltac:(acc_tac)) as H;
      destruct (dsp_add56 s d) as [? ?]; cbn [fst snd] in H; destruct H as [? ?]
  | |- sound _ (match dsp_sub56 ?s ?d with _ => _ end) =>
      let H := fresh "H" in pose proof (sub56_safe s d ltac:(acc_tac) ltac:(acc_tac)) as H;
      destruct (dsp_sub56 s d) as [? ?]; cbn [fst snd] in H; destruct H as [? ?]
  | p : (_ * _)%type |- sound _ (match ?p with _ => _ end) => destruct p; split_ty
  end; cbv beta iota.
Ltac bind_rule ::=
  match goal with
  | |- sound _ (mbind _ (dsp_stack_pop _)) =>
      eapply sound_bind; [apply stack_pop_safe; core_tac | intros [[? ?] ?] (? & ? & ?); cbv beta iota]
  | |- sound _ (mbind _ (dsp_signextend _ _)) =>
      eapply sound_bind; [apply signextend_safe; lia | intros ? ?]
  | |- sound _ (mbind _ (dsp_asl56 _ 1)) =>
      eapply sound_bind; [apply asl56_safe; [acc_tac | lia] | intros [? ?] [? ?]; cbv beta iota]
  | |- sound _ (mbind _ (dsp_asr56 _ 1)) =>
      eapply sound_bind; [apply asr56_safe; [acc_tac | lia] | intros [? ?] [? ?]; cbv beta iota]
  end.

(** ** Instructions that only use the core *)

Ltac head t := match t with ?f _ => head f | _ => t end.
Ltac open_head := match goal with |- sound _ ?t => let f := head t in cbv delta [f]; cbv beta end.

Lemma push_return_safe c : core_ok inst c -> well_typed (push_return c).
Proof. intros Hc. open push_return. walk. Qed.
Lemma push_loop_safe c : core_ok inst c -> well_typed (push_loop c).
Proof. intros Hc. open push_loop. walk. Qed.
Lemma start_do_safe c : core_ok inst c -> well_typed (start_do c).
Proof. intros Hc. open start_do. walk. Qed.
Lemma start_dor_safe c : core_ok inst c -> well_typed (start_dor c).
Proof. intros Hc. open start_dor. walk. Qed.
Lemma short_offset_safe c : sound (in_u 32) (short_offset c).
Proof. unfold short_offset. by apply signextend_safe. Qed.
#[local] Hint Resolve push_return_safe push_loop_safe start_do_safe start_dor_safe : sound.

Lemma core_functions_safe : Forall (fun f => forall c, core_ok inst c -> well_typed (f c))
  [emu_add_imm; emu_add_long; emu_sub_imm; emu_sub_long; emu_cmp_imm; emu_cmp_long; emu_cmpu; emu_dec; emu_inc;
   emu_and_imm; emu_and_long; emu_or_long; emu_andi; emu_ori; emu_mpyi; emu_lua; emu_lua_rel; emu_illegal; emu_reset; emu_nothing].
Proof. repeat first [apply List.Forall_nil | apply List.Forall_cons; [intros c Hc; open_head; walk |]]. Qed.

Lemma lsl_imm_safe c : core_ok inst c -> well_typed (emu_lsl_imm c).
Proof.
  intros Hc. unfold emu_lsl_imm. change (core_ok inst (Nat.iter (Z.to_nat (inst_bits c 1 5)) (emu_lsl (accum_of (inst_bits c 0 1))) c)).
  apply Nat.iter_invariant; [intros; by apply lsl_ok | done].
Qed.

Lemma tcc_safe c : core_ok inst c -> well_typed (emu_tcc c).
Proof.
  intros Hc. open emu_tcc. apply sound_if; intros _; [| done].
  destruct (rd_ok registers_tcc (inst_bits c 3 4)) as ([r1 r2] & -> & _).
  { change (zlen registers_tcc) with (2 ^ 4). apply fit_inst. lia. }
  rewrite ok_bind. walk.
Qed.

Lemma div_safe c : core_ok inst c -> well_typed (emu_div c).
Proof. intros Hc. open emu_div. walk. Qed.

Lemma norm_safe c : core_ok inst c -> well_typed (emu_norm c).
Proof.
  intros Hc. open emu_norm. walk_step. walk_step. walk_step. walk_step. walk_step. walk_step.
  eapply (sound_bind (fun '(sr, r, c') => in_u 16 sr /\ acc_ok r /\ core_ok inst c')).
  - walk.
  - intros [[sr r] c'] (Hsr & Hr & Hc'). walk.
Qed.

Lemma asl_imm_safe c : core_ok inst c -> (inst ≫ 1) .& BITMASK 6 <= 56 -> well_typed (emu_asl_imm c).
Proof.
  intros Hc Hn. open emu_asl_imm. assert (Hb : in_u 6 (inst_bits c 1 6)) by fits.
  eapply sound_bind; [apply asl56_safe; [acc_tac |] |].
  { split; [apply Hb |]. unfold inst_bits. by rewrite (ok_inst inst c Hc). }
  intros [sr r] [Hsr Hr]. walk.
Qed.

Lemma asr_imm_safe c : core_ok inst c -> 1 <= (inst ≫ 1) .& BITMASK 6 -> well_typed (emu_asr_imm c).
Proof.
  intros Hc Hn. open emu_asr_imm. assert (Hb : in_u 6 (inst_bits c 1 6)) by fits.
  eapply sound_bind; [apply asr56_safe; [acc_tac |] |].
  { unfold inst_bits in *. rewrite (ok_inst inst c Hc) in *. destruct Hb. change (2 ^ 6) with 64 in *. lia. }
  intros [sr r] [Hsr Hr]. walk.
Qed.

(** ** Jumps, subroutines and loops *)

Lemma lc_from_reg_ok c : core_ok inst c -> core_ok inst (lc_from_reg c).
Proof.
  intros Hc. unfold lc_from_reg. pose proof (read_source_safe c (inst_bits c 8 6) Hc) as H2.
  destruct (read_source _ _) as [v c']. split_ty. core_tac.
Qed.

Lemma start_rep_ok c : core_ok inst c -> core_ok inst (start_rep c).
Proof. intros Hc. unfold start_rep. core_tac. Qed.

Lemma loop_count_fit c : in_u 16 (loop_count c).
Proof.
  unfold loop_count, inst_bits. rewrite !land_BITMASK, Z.shiftl_mul_pow2 by lia.
  pose proof (Z.mod_pos_bound (cur_inst c ≫ 8) (2 ^ 8)). pose proof (Z.mod_pos_bound (cur_inst c) (2 ^ 4)).
  unfold in_u. lia.
Qed.

Ltac bind_rule ::=
  match goal with
  | |- sound _ (mbind _ (dsp_stack_pop _)) =>
      eapply sound_bind; [apply stack_pop_safe; core_tac | intros [[? ?] ?] (? & ? & ?); cbv beta iota]
  | |- sound _ (mbind _ (short_offset _)) => eapply sound_bind; [apply short_offset_safe | intros ? ?]
  | |- sound _ (mbind _ (dsp_signextend _ _)) =>
      eapply sound_bind; [apply signextend_safe; lia | intros ? ?]
  end.
#[local] Hint Extern 1 (core_ok inst (lc_from_reg _)) => apply lc_from_reg_ok : sound.
#[local] Hint Extern 1 (in_u _ (loop_count _)) => apply (in_u_mono 16); [done | apply loop_count_fit] : sound.
#[local] Hint Extern 1 (core_ok inst (start_rep _)) => apply start_rep_ok : sound.

Lemma jump_functions_safe : Forall (fun f => forall c, core_ok inst c -> well_typed (f c))
  [emu_bcc_long; emu_bcc_imm; emu_bra_long; emu_bra_imm; emu_bsr_long; emu_bsr_imm; emu_jcc_imm; emu_jcc_ea;
   emu_jmp_imm; emu_jmp_ea; emu_jscc_imm; emu_jscc_ea; emu_jsr_imm; emu_jsr_ea; emu_rti; emu_rts;
   emu_do_imm; emu_do_reg; emu_dor_imm; emu_dor_reg; emu_enddo; emu_rep_imm; emu_rep_reg].
Proof. repeat first [apply List.Forall_nil | apply List.Forall_cons; [intros c Hc; open_head; walk |]]. Qed.

(** ** Instructions that access memory *)

Definition loc_ok (l : loc) : Prop := match l with LMem _ a => in_u 32 a | LReg k => in_u 6 k end.
#[local] Instance ty_loc : Ty loc := loc_ok.

(** The operand of a register form is the register the word names. *)
Lemma locate_safe f s : st_ok s ->
  sound (fun '(l, s') => loc_ok l /\ st_ok s' /\ (forall k, l = LReg k -> f = REG /\ k = (inst ≫ 8) .& BITMASK 6)) (locate f s).
Proof.
  intros Hs. pose proof (ok_inst inst _ (st_core s Hs)) as Hi.
  assert (Hv : in_u 6 (inst_bits (core_of s) 8 6)) by fits.
  unfold locate. destruct f; cbn [sound loc_ok].
  - split; [by apply (in_u_mono 6) | split; [done | by intros]].
  - eapply sound_bind; [apply calc_ea_safe, st_core, Hs |]. intros [[r a] c] Hr. split_ty. cbn [sound loc_ok].
    split; [by apply (in_u_mono 24) | split; [by apply st_with | by intros]].
  - split; [| split; [done | by intros]]. destruct Hv. change (2 ^ 6) with 64 in *. split; lia.
  - split; [done | split; [done |]]. intros k [= <-]. unfold inst_bits. by rewrite Hi.
Qed.

Lemma read_loc_safe l s : loc_ok l -> st_ok s -> well_typed (read_loc l s).
Proof. intros Hl Hs. unfold read_loc. destruct l; cbn [loc_ok] in Hl; walk. Qed.

Lemma write_loc_safe l v s : loc_ok l -> st_ok s -> in_u 32 v ->
  (forall k, l = LReg k -> k = DSP_REG_A \/ k = DSP_REG_B -> in_u 24 v) -> well_typed (write_loc l v s).
Proof.
  intros Hl Hs Hv Hacc. unfold write_loc. destruct l as [space a | k]; cbn [loc_ok] in Hl; [walk |].
  eapply sound_bind; [apply write_reg_safe; [by apply st_core | done | done | by apply Hacc] |].
  intros c Hc. split_ty. by apply st_with.
Qed.
#[local] Hint Resolve read_loc_safe : sound.

Lemma set_carry_ok x c : core_ok inst c -> core_ok inst (set_carry (x .& 1) c).
Proof. intros Hc. unfold set_carry. core_tac. Qed.

(** The bit number, and whether the word names an accumulator as its operand. *)
Definition bit_number : Z := inst .& BITMASK 5.
Definition names_accumulator : Prop :=
  (inst ≫ 8) .& BITMASK 6 = DSP_REG_A \/ (inst ≫ 8) .& BITMASK 6 = DSP_REG_B.

Lemma bit_modify_safe modify f s : st_ok s ->
  (forall v, in_u 24 v -> in_u 32 (modify bit_number v)) ->
  (f = REG -> names_accumulator -> forall v, in_u 24 v -> in_u 24 (modify bit_number v)) ->
  well_typed (bit_modify modify f s).
Proof.
  intros Hs Hm Hacc. unfold bit_modify. unfold inst_bits. rewrite Z.shiftr_0_r, (ok_inst inst _ (st_core s Hs)).
  change (inst .& BITMASK 5) with bit_number.
  eapply sound_bind; [by apply locate_safe |]. intros [l s1] (Hl & Hs1 & Hreg).
  eapply sound_bind; [by apply read_loc_safe |]. intros [v s2] Hv. split_ty.
  eapply sound_bind; [apply write_loc_safe; try done; [by apply Hm |] |].
  { intros k -> Hk. destruct (Hreg k eq_refl) as [-> ->]. by apply Hacc. }
  intros s3 Hs3. split_ty. cbn [sound]. unfold map_core. apply st_with; [done |]. apply set_carry_ok, st_core, Hs3.
Qed.

Lemma btst_safe f s : st_ok s -> well_typed (emu_btst f s).
Proof.
  intros Hs. unfold emu_btst.
  eapply sound_bind; [by apply locate_safe |]. intros [l s1] (Hl & Hs1 & _).
  eapply sound_bind; [by apply read_loc_safe |]. intros [v s2] Hv. split_ty.
  cbn [sound]. unfold map_core. apply st_with; [done |]. apply set_carry_ok. by apply st_core.
Qed.

Lemma bit_jump_safe want sub f s : st_ok s -> well_typed (bit_jump want sub f s).
Proof.
  intros Hs. unfold bit_jump.
  eapply sound_bind; [by apply locate_safe |]. intros [l s1] (Hl & Hs1 & _).
  eapply sound_bind; [by apply read_loc_safe |]. intros [v s2] Hv. split_ty. walk.
Qed.

Lemma bit_branch_safe want f s : st_ok s -> well_typed (bit_branch want f s).
Proof.
  intros Hs. open bit_branch. eapply (sound_bind ty); [apply next_word_safe, st_core, Hs |].
  intros [x c] Hx. cbv beta iota. split_ty.
  eapply sound_bind; [apply locate_safe; by apply st_with |]. intros [l s1] (Hl & Hs1 & _).
  eapply sound_bind; [by apply read_loc_safe |]. intros [v s2] Hv. split_ty. walk.
Qed.

Lemma do_mem_safe f s : st_ok s -> well_typed (emu_do_mem f s).
Proof.
  intros Hs. open emu_do_mem. walk_step; [walk |]. walk_step; [walk |].
  eapply sound_bind; [apply locate_safe; by apply st_with |]. intros [l s1] (Hl & Hs1 & _).
  eapply sound_bind; [by apply read_loc_safe |]. intros [v s2] Hv. split_ty. unfold map_core. walk.
Qed.

Lemma rep_mem_safe f s : st_ok s -> well_typed (emu_rep_mem f s).
Proof.
  intros Hs. open emu_rep_mem.
  eapply sound_bind; [apply locate_safe; unfold map_core; apply st_with, start_rep_ok, st_core, Hs; done |].
  intros [l s1] (Hl & Hs1 & _).
  eapply sound_bind; [by apply read_loc_safe |]. intros [v s2] Hv. split_ty. unfold map_core. walk.
Qed.

Lemma bit32_bounds n : in_u 5 n -> in_u 32 (bit32 n).
Proof. intros Hn. unfold bit32. fits. Qed.

Lemma bit32_small n : 0 <= n < 24 -> in_u 24 (bit32 n).
Proof.
  intros Hn. unfold bit32. rewrite Z.shiftl_1_l. assert (H2 : 2 ^ n < 2 ^ 24) by (apply Z.pow_lt_mono_r; lia).
  assert (0 < 2 ^ n) by (apply Z.pow_pos_nonneg; lia). rewrite Z.mod_small by lia. split; lia.
Qed.

Lemma bit_number_fit : in_u 5 bit_number.
Proof. unfold bit_number. fits. Qed.

Lemma bset_safe f s : st_ok s -> (f = REG -> names_accumulator -> bit_number < 24) -> well_typed (emu_bset f s).
Proof.
  intros Hs Hb. apply bit_modify_safe; [done | |].
  - intros v Hv. apply in_u_lor; [done | by apply (in_u_mono 24) |]. apply bit32_bounds, bit_number_fit.
  - intros Hf Hn v Hv. apply in_u_lor; [done | done |]. apply bit32_small. destruct bit_number_fit. auto.
Qed.

Lemma bclr_safe f s : st_ok s -> well_typed (emu_bclr f s).
Proof.
  intros Hs. apply bit_modify_safe; [done | |]; intros; apply in_u_land_l; try done. by apply (in_u_mono 24).
Qed.

Lemma toggle_fit n v : 0 <= n < 24 -> in_u 24 v ->
  in_u 24 (if negb ((v ≫ n) .& 1 =? 0) then u32 (v - bit32 n) else u32 (v + bit32 n)).
Proof.
  intros Hn Hv. pose proof (bit32_small n Hn) as Hb. rewrite land_1, <- Z.bit0_mod, Z.shiftr_spec, Z.add_0_l by lia.
  assert (E : bit32 n = 2 ^ n).
  { unfold bit32. rewrite Z.shiftl_1_l. assert (2 ^ n < 2 ^ 24) by (apply Z.pow_lt_mono_r; lia).
    assert (0 < 2 ^ n) by (apply Z.pow_pos_nonneg; lia). apply Z.mod_small. lia. }
  destruct (Z.testbit v n) eqn:Et; cbn.
  - assert (2 ^ n <= v).
    { destruct (Z.le_gt_cases (2 ^ n) v); [done |]. rewrite (testbit_small n) in Et; [done | split; [apply Hv | lia] | lia]. }
    apply fit_mod_le; [lia |]. destruct Hv. rewrite E in *. destruct Hb. split; lia.
  - apply fit_mod_le; [lia |]. rewrite Z.add_nocarry_lxor; [by apply in_u_lxor |]. rewrite E.
    apply Z.bits_inj'. intros i Hi. rewrite Z.bits_0, Z.land_spec. destruct (decide (i = n)) as [-> |]; [by rewrite Et |].
    rewrite Z.pow2_bits_false by lia. apply andb_false_r.
Qed.

Lemma bchg_safe f s : st_ok s -> (f = REG -> names_accumulator -> bit_number < 24) -> well_typed (emu_bchg f s).
Proof.
  intros Hs Hb. apply bit_modify_safe; [done | |].
  - intros v Hv. cbv zeta. fits.
  - intros Hf Hn v Hv. apply toggle_fit; [| done]. destruct bit_number_fit. auto.
Qed.

(** ** Moves *)

Lemma write_masked_safe c k v : core_ok inst c -> in_u 6 k -> well_typed (write_masked c k v).
Proof.
  intros Hc Hk. unfold write_masked. destruct (mask_safe k Hk) as (m & -> & Hm). rewrite ok_bind.
  pose proof (width_bounds k). assert (Hv : in_u 24 (v .& BITMASK m)) by (apply fit_bitmask; lia).
  apply write_reg_safe; try done. by apply (in_u_mono 24).
Qed.

Lemma read_or_pop_safe c k : core_ok inst c -> well_typed (read_or_pop c k).
Proof. intros Hc. open read_or_pop. walk. Qed.

Lemma read_limit_or_pop_safe c k : core_ok inst c -> well_typed (read_limit_or_pop c k).
Proof. intros Hc. open read_limit_or_pop. walk. Qed.
#[local] Hint Resolve write_masked_safe read_or_pop_safe read_limit_or_pop_safe : sound.

Lemma write_reg24_safe c k v : core_ok inst c -> in_u 6 k -> in_u 24 v -> well_typed (dsp_write_reg c k v).
Proof. intros Hc Hk Hv. apply write_reg_safe; try done. by apply (in_u_mono 24). Qed.
#[local] Hint Resolve write_reg24_safe : sound.

Lemma movec_reg_safe c : core_ok inst c -> well_typed (emu_movec_reg c).
Proof. intros Hc. open emu_movec_reg. walk. Qed.

Lemma movec_imm_safe c : core_ok inst c -> well_typed (emu_movec_imm c).
Proof. intros Hc. open emu_movec_imm. walk. Qed.

Lemma move_p_safe a s : in_u 32 a -> st_ok s -> well_typed (move_p a s).
Proof. intros Ha Hs. open move_p. cbv delta [map_core]. walk. Qed.
#[local] Hint Resolve move_p_safe : sound.

Lemma move_periph_safe space a s : in_u 32 a -> st_ok s -> well_typed (move_periph space a s).
Proof. intros Ha Hs. open move_periph. cbv delta [map_core]. walk. Qed.

Lemma move_displaced_safe space a k w s : in_u 32 a -> in_u 6 k -> st_ok s -> well_typed (move_displaced space a k w s).
Proof. intros Ha Hk Hs. open move_displaced. walk. Qed.
#[local] Hint Resolve move_displaced_safe : sound.

Lemma peripheral_fit base c s : 0 <= base <= 0xffffc0 -> in_u 32 (base + inst_bits c s 6).
Proof.
  intros Hb. assert (Hv : in_u 6 (inst_bits c s 6)) by fits. destruct Hv. change (2 ^ 6) with 64 in *. split; lia.
Qed.
#[local] Hint Extern 1 (in_u 32 (_ + inst_bits _ _ 6)) => apply peripheral_fit; lia : sound.
#[local] Hint Resolve move_periph_safe : sound.

Lemma move_functions_safe : Forall (fun f : S -> outcome S => forall s, st_ok s -> well_typed (f s))
  [emu_movec_aa; emu_movec_ea; emu_movem_aa; emu_movem_ea; emu_movep_0; emu_movep_1; emu_movep_23; emu_movep_x_qq;
   emu_move_x_long; emu_move_xy_imm DSP_SPACE_X; emu_move_xy_imm DSP_SPACE_Y].
Proof.
  repeat first [apply List.Forall_nil | apply List.Forall_cons; [intros s Hs; open_head; cbv delta [map_core]; walk |]].
Qed.

(** ** The functions by name *)

Lemma on_core_safe f s : (forall c, core_ok inst c -> well_typed (f c)) -> st_ok s -> well_typed (on_core f s).
Proof.
  intros Hf Hs. unfold on_core. eapply sound_bind; [apply Hf, st_core, Hs |]. intros c Hc. by apply st_with.
Qed.

Lemma bit_in_range name : name = "emu_bset_reg"%string \/ name = "emu_bchg_reg"%string -> in_range name inst = true ->
  names_accumulator -> bit_number < 24.
Proof.
  intros Hn Hr Ha. unfold in_range in Hr. unfold names_accumulator, bit_number in *.
  assert (E : negb ((inst ≫ 8 .& BITMASK 6 =? DSP_REG_A) || (inst ≫ 8 .& BITMASK 6 =? DSP_REG_B)) || (inst .& BITMASK 5 <? 24) = true)
    by (destruct Hn as [-> | ->]; exact Hr).
  destruct Ha as [Ha | Ha]; rewrite Ha in E; cbn in E; by apply Z.ltb_lt.
Qed.

Lemma functions_safe : Forall (fun p => in_range p.1 inst = true -> forall s, st_ok s -> well_typed (p.2 s))
  (emu_functions (S := S)).
Proof.
  assert (Hcore := proj1 (List.Forall_forall _ _) core_functions_safe).
  assert (Hjump := proj1 (List.Forall_forall _ _) jump_functions_safe).
  assert (Hmove := proj1 (List.Forall_forall _ _) move_functions_safe).
  repeat first [apply List.Forall_nil | apply List.Forall_cons; [intros Hr s Hs; cbn [fst snd] in * |]].
  all: try (apply on_core_safe; [intros c Hc | exact Hs]).
  all: try (apply Hcore; [repeat first [left; reflexivity | right] | exact Hc]; fail).
  all: try (apply Hjump; [repeat first [left; reflexivity | right] | exact Hc]; fail).
  all: try (apply Hmove; [repeat first [left; reflexivity | right] | exact Hs]; fail).
  all: match goal with
    | |- sound _ (emu_asl_imm _) => by apply asl_imm_safe, Z.leb_le
    | |- sound _ (emu_asr_imm _) => by apply asr_imm_safe, Z.leb_le
    | |- sound _ (emu_div _) => by apply div_safe
    | |- sound _ (emu_lsl_imm _) => by apply lsl_imm_safe
    | |- sound _ (emu_movec_reg _) => by apply movec_reg_safe
    | |- sound _ (emu_movec_imm _) => by apply movec_imm_safe
    | |- sound _ (emu_norm _) => by apply norm_safe
    | |- sound _ (emu_tcc _) => by apply tcc_safe
    | |- sound _ (emu_bchg REG _) => apply bchg_safe; [done | intros _; eapply bit_in_range, Hr; auto]
    | |- sound _ (emu_bset REG _) => apply bset_safe; [done | intros _; eapply bit_in_range, Hr; auto]
    | |- sound _ (emu_bchg _ _) => apply bchg_safe; [done | intros [=]]
    | |- sound _ (emu_bset _ _) => apply bset_safe; [done | intros [=]]
    | |- sound _ (emu_bclr _ _) => by apply bclr_safe
    | |- sound _ (emu_btst _ _) => by apply btst_safe
    | |- sound _ (emu_do_mem _ _) => by apply do_mem_safe
    | |- sound _ (emu_rep_mem _ _) => by apply rep_mem_safe
    | |- sound _ (emu_brclr _ _) => by apply bit_branch_safe
    | |- sound _ (emu_brset _ _) => by apply bit_branch_safe
    | |- _ => by apply bit_jump_safe
    end.
Qed.

(** Every function the table names is there. *)
Lemma functions_named :
  forallb (fun e => match op_emu e with Some f => existsb (fun p => String.eqb p.1 f) (emu_functions (S := S)) | None => true end)
    nonparallel_opcodes = true.
Proof. vm_compute. reflexivity. Qed.

Lemma emu_safe e name s : e ∈ nonparallel_opcodes -> op_emu e = Some name -> in_range name inst = true -> st_ok s ->
  well_typed (emu name s).
Proof.
  intros He Hn Hr Hs. unfold emu. pose proof functions_named as H2. rewrite forallb_forall in H2.
  specialize (H2 e ltac:(by apply list_elem_of_In)). rewrite Hn in H2.
  destruct (List.find _ _) as [[n f] |] eqn:E.
  - apply List.find_some in E as [Hin E]. apply String.eqb_eq in E. cbn [fst] in E. subst n.
    by apply (proj1 (List.Forall_forall _ _) functions_safe (name, f) Hin Hr).
  - apply existsb_exists in H2 as (p & Hin & Hp). by rewrite (List.find_none _ _ E p Hin) in Hp.
Qed.

End with_memory.

End typing.

(** ** The driver *)

Section driver.
Context {S : Type} `{SoundPeripherals S}.

Definition machine_ok (s : S) (cache : opcache_t) : Prop :=
  core_ok (cur_inst (core_of s)) (core_of s) /\ env_ok s /\ opcache_ok cache.

(** The function of an entry, or the undefined instruction. *)
Lemma run_entry_safe inst s op : st_ok inst s -> lookup_opcode_slow inst = Ok op -> (inst <? 0x100000) = true ->
  admissible inst = true -> sound (st_ok inst) (run_entry emu (on_core emu_undefined) s op).
Proof.
  intros Hs Hop Hlt Ha. unfold admissible in Ha. rewrite Hlt, Hop in Ha. unfold run_entry.
  destruct (nonparallel_opcodes !! op) as [e |] eqn:E.
  - destruct (op_emu e) as [name |] eqn:En.
    + apply (emu_safe inst e); [by eapply list_elem_of_lookup_2 | done | done | done].
    + apply on_core_safe; [| done]. intros c Hc. by apply undefined_safe.
  - pose proof (lookup_opcode_slow_sound inst) as Hl. rewrite Hop in Hl. destruct Hl as (e & He & _). congruence.
Qed.

Lemma read_memory_p_value c a v : read_memory_p c a = Ok v -> v = rget (pram c) a.
Proof. unfold read_memory_p. intros E. inv_ok. by simplify_eq. Qed.

Lemma fetch_safe inst c cache : core_ok inst c -> opcache_ok cache -> inst = rget (pram c) (pc c) ->
  sound (fun '(op, c', cache') => lookup_opcode_slow inst = Ok op /\ core_ok inst c' /\ opcache_ok cache')
    (fetch_opcode c cache).
Proof.
  intros Hc Hcache Hi. pose proof (ok_inst inst c Hc) as Hinst. unfold fetch_opcode.
  destruct (pram_opcache c !! pc c) as [op |] eqn:E.
  { cbn. split; [| done]. rewrite Hi. by apply (ok_opcache inst c Hc). }
  pose proof (lookup_opcode_slow_defined inst) as [Hd1 Hd2].
  pose proof (lookup_opcode_cases cache inst Hcache) as Hl. rewrite Hinst.
  destruct (lookup_opcode cache inst) as [[op cache'] | | |]; cbn; try done.
  destruct Hl as [Hl Hcache']. split; [done |]. split; [| done]. apply ok_cache; [done |]. by rewrite <- Hi.
Qed.

(** The execution of the word at the PC, through decoding, operand addressing,
    arithmetic, moves, the PC update, loops and interrupts. *)
Lemma dsp_instruction_sound s cache : machine_ok s cache ->
  admissible (rget (pram (core_of s)) (pc (core_of s))) = true ->
  sound (fun '(s', cache') => machine_ok s' cache') (dsp_instruction s cache).
Proof.
  intros (Hc & He & Hcache) Ha. unfold dsp_instruction, dsp56k_execute_instruction.
  destruct (read_memory_p (core_of s) (pc (core_of s))) as [inst | | |] eqn:Er;
    try (by pose proof (read_memory_p_safe _ _ (pc (core_of s)) Hc) as Hr; rewrite Er in Hr).
  apply read_memory_p_value in Er. rewrite <- Er in Ha. rewrite ok_bind.
  set (c1 := _ <| instr_cycle := 2 |>).
  assert (Hc1 : core_ok inst c1) by (apply ok_set_cycle, ok_set_len, (ok_set_inst _ _ _ Hc)).
  assert (Hst : forall s' c, env_ok s' -> core_ok inst c -> st_ok inst (with_core s' c))
    by (intros s' c Hs' Hcs; split; [by rewrite core_with | by apply env_with]).
  eapply (sound_bind (fun p => st_ok inst p.1 /\ opcache_ok p.2)).
  - change (cur_inst c1) with inst. destruct (inst <? 0x100000) eqn:Hlt.
    + eapply sound_bind; [by apply (fetch_safe inst) |]. intros [[op c2] cache2] (Hop & Hc2 & Hcache2).
      eapply sound_bind; [apply (run_entry_safe inst); try done; by apply Hst |]. intros s2 Hs2. by split.
    + eapply (sound_bind (st_ok inst)); [| by intros s2 Hs2; split].
      apply parmove_safe; [| by apply Hst]. unfold admissible in Ha. rewrite Hlt in Ha. by apply bool_decide_eq_true in Ha.
  - intros [s2 cache2] [[Hc2 He2] Hcache2]. cbn [fst snd] in *.
    eapply sound_bind; [by apply (post_pc_safe inst) |]. intros c3 Hc3.
    eapply sound_bind; [by apply (post_interrupts_safe inst) |]. intros c4 Hc4. cbn [sound].
    set (c5 := c4 <| num_inst := _ |>). assert (Hc5 : core_ok inst c5) by by apply ok_set_num.
    unfold machine_ok. rewrite core_with, (ok_inst inst c5 Hc5). split; [done |]. by split; [apply env_with |].
Qed.

End driver.

Lemma fresh_core_ok : core_ok 0 fresh_core.
Proof.
  split; try (by apply regs_ok_empty); try done.
  - apply regs_fit_reset.
  - split; [done |]. repeat constructor; done.
Qed.
