(* ===== verification/DspReturns.v ===== *)
(** * The DSP's instructions return (mcpx/apu/dsp/dsp_emu.c.inc)

    The only loops of an instruction's own code are those of the address update,
    and they end.  An instruction that does not return has written to a
    peripheral register, and that write does not return. *)

From stdpp Require Import base numbers list gmap strings.
From Stdlib Require Import ZArith Lia.
From S2P Require Import Prelude DspArith DspDecode DspCore DspAddr DspAlu DspMove DspInstr.

(** ** The core's own functions *)

Ltac head t := match t with ?f _ => head f | _ => t end.
Ltac open_head := match goal with |- fuelled ?t => let f := head t in cbv delta [f]; cbv beta end.

Lemma block_pos modulo : 1 <= block_of modulo.
Proof. unfold block_of. pose proof (Z.log2_up_nonneg modulo). pose proof (Z.pow_pos_nonneg 2 (Z.log2_up modulo)). lia. Qed.

Lemma fuelled_modulo c k m : m < 2 ^ 15 -> 1 <= u16 (reg c (DSP_REG_M0 + k)) <= 32767 ->
  fuelled (emu_update_rn_modulo c k m).
Proof.
  intros Hm Hmod. unfold emu_update_rn_modulo. cbv zeta.
  replace (u16 (reg c (DSP_REG_M0 + k) + 1)) with (u16 (reg c (DSP_REG_M0 + k)) + 1) by divmod_lia.
  set (modulo := u16 (reg c (DSP_REG_M0 + k)) + 1) in *. rewrite grow_buffer_ok, ok_bind by lia.
  pose proof (block_pos modulo). apply fuelled_bind; [| by intros [r m']].
  destruct (Z.ltb_spec modulo m); [| done].
  destruct (skip_up_ok (block_of modulo) (Z.to_nat (Z.abs m)) (sext 16 (reg c (DSP_REG_R0 + k))) m) as (r' & m' & -> & Hm');
    [lia .. |]. rewrite ok_bind. by rewrite skip_down_done.
Qed.

Lemma fuelled_update_rn c k m : m < 2 ^ 15 -> fuelled (emu_update_rn c k m).
Proof.
  intros Hm. unfold emu_update_rn. pose proof (Z.mod_pos_bound (reg c (DSP_REG_M0 + k)) (2 ^ 16)).
  destruct (_ =? 65535); [done |]. destruct (Z.eqb_spec (u16 (reg c (DSP_REG_M0 + k))) 0); [done |].
  destruct (Z.leb_spec (u16 (reg c (DSP_REG_M0 + k))) 32767); [| done]. apply fuelled_modulo; lia.
Qed.

Lemma fuelled_update_sext c k m : fuelled (emu_update_rn c k (sext 16 m)).
Proof. apply fuelled_update_rn. apply sext16_bounds. Qed.

Lemma fuelled_update_up c k : fuelled (emu_update_rn c k 1).
Proof. by apply fuelled_update_rn. Qed.

Lemma fuelled_update_down c k : fuelled (emu_update_rn c k (-1)).
Proof. by apply fuelled_update_rn. Qed.
#[export] Hint Resolve fuelled_update_sext fuelled_update_up fuelled_update_down : fuel.

Lemma fuelled_calc_ea c m : fuelled (emu_calc_ea c m).
Proof. unfold emu_calc_ea. fuel_walk. Qed.

Lemma fuelled_undefined c : fuelled (emu_undefined c).
Proof. unfold emu_undefined. fuel_walk. Qed.

Lemma fuelled_asl56 a n : fuelled (dsp_asl56 a n).
Proof. unfold dsp_asl56. fuel_walk. Qed.

Lemma fuelled_asr56 a n : fuelled (dsp_asr56 a n).
Proof. unfold dsp_asr56. fuel_walk. Qed.

Lemma fuelled_mul56 x y s : fuelled (dsp_mul56 x y s).
Proof. unfold dsp_mul56. fuel_walk. apply fuelled_asl56. Qed.

Lemma fuelled_signextend n v : fuelled (dsp_signextend n v).
Proof. unfold dsp_signextend. fuel_walk. Qed.
#[export] Hint Resolve fuelled_asl56 fuelled_asr56 fuelled_mul56 fuelled_signextend : fuel.

Lemma fuelled_run_alu op c : fuelled (run_alu op c).
Proof. destruct op; cbn [run_alu]; autounfold with alu; fuel_walk. Qed.
#[export] Hint Resolve fuelled_calc_ea fuelled_undefined fuelled_run_alu : fuel.

Lemma fuelled_parallel_alu c : fuelled (parallel_alu c).
Proof. unfold parallel_alu. fuel_walk. Qed.

Lemma fuelled_write_reg c k v : fuelled (dsp_write_reg c k v).
Proof. unfold dsp_write_reg. fuel_walk. Qed.

Lemma fuelled_next_word c : fuelled (next_word c).
Proof. unfold next_word. fuel_walk. Qed.
#[export] Hint Resolve fuelled_parallel_alu fuelled_write_reg fuelled_next_word : fuel.

Lemma fuelled_write_masked c k v : fuelled (write_masked c k v).
Proof. unfold write_masked. fuel_walk. Qed.

Lemma fuelled_write_dest c k v : fuelled (write_dest_masked c k v).
Proof. unfold write_dest_masked. fuel_walk. Qed.

Lemma fuelled_read_or_pop c k : fuelled (read_or_pop c k).
Proof. unfold read_or_pop. fuel_walk. Qed.

Lemma fuelled_read_limit c k : fuelled (read_limit_or_pop c k).
Proof. unfold read_limit_or_pop. fuel_walk. Qed.

Lemma fuelled_push_loop c : fuelled (push_loop c).
Proof. unfold push_loop. fuel_walk. Qed.

Lemma fuelled_start_do c : fuelled (start_do c).
Proof. unfold start_do. fuel_walk. Qed.
#[export] Hint Resolve fuelled_write_masked fuelled_write_dest fuelled_read_or_pop fuelled_read_limit : fuel.
#[export] Hint Resolve fuelled_push_loop fuelled_start_do : fuel.

Lemma core_functions_fuelled : Forall (fun f => forall c, fuelled (f c))
  [emu_add_imm; emu_add_long; emu_sub_imm; emu_sub_long; emu_cmp_imm; emu_cmp_long; emu_cmpu; emu_dec; emu_inc;
   emu_and_imm; emu_and_long; emu_or_long; emu_andi; emu_ori; emu_mpyi; emu_lua; emu_lua_rel; emu_illegal; emu_reset;
   emu_nothing; emu_tcc; emu_div; emu_norm; emu_asl_imm; emu_asr_imm; emu_lsl_imm; emu_movec_reg; emu_movec_imm;
   emu_bcc_long; emu_bcc_imm; emu_bra_long; emu_bra_imm; emu_bsr_long; emu_bsr_imm; emu_jcc_imm; emu_jcc_ea;
   emu_jmp_imm; emu_jmp_ea; emu_jscc_imm; emu_jscc_ea; emu_jsr_imm; emu_jsr_ea; emu_rti; emu_rts;
   emu_do_imm; emu_do_reg; emu_dor_imm; emu_dor_reg; emu_enddo; emu_rep_imm; emu_rep_reg].
Proof.
  repeat first [apply List.Forall_nil | apply List.Forall_cons; [intros c; open_head |]];
    unfold push_return, start_dor; fuel_walk.
Qed.

(** ** What the memory holds

    Everything an instruction does before it writes to memory leaves the contents
    of the memories alone; [m0] is what they hold. *)
Definition mems (c : dsp_core) := (xram c, yram c, pram c, mixbuffer c).

Class Still (A : Type) := still : A -> Prop.

Section contents.
Variable m0 : gmap Z Z * gmap Z Z * gmap Z Z * gmap Z Z.

#[local] Instance still_core : Still dsp_core := fun c => mems c = m0.
#[local] Instance still_pair {A B} `{Still B} : Still (A * B) := fun p => still p.2.

Definition kept {A} `{Still A} (m : outcome A) : Prop := forall a, m = Ok a -> still a.

Lemma kept_ok {A} `{Still A} (a : A) : still a -> kept (Ok a).
Proof. by intros Ha a' [= <-]. Qed.

Lemma kept_bind {A B} `{Still A, Still B} (m : outcome A) (f : A -> outcome B) :
  kept m -> (forall a, still a -> kept (f a)) -> kept (m ≫= f).
Proof. intros Hm Hf b E. apply bind_ok in E as (a & Ea & E). by apply (Hf a (Hm a Ea)). Qed.

Lemma kept_value {A B} `{Still B} (m : outcome A) (f : A -> outcome B) : (forall a, kept (f a)) -> kept (m ≫= f).
Proof. intros Hf b E. apply bind_ok in E as (a & Ea & E). by apply (Hf a). Qed.

(** The updates that leave the memories alone. *)
Section updates.
Context (c : dsp_core) (Hc : still c).
Lemma still_set_reg k v : still (set_reg c k v).
Proof. exact Hc. Qed.
Lemma still_or_sr v : still (or_sr c v).
Proof. exact Hc. Qed.
Lemma still_clear_sr v : still (clear_sr c v).
Proof. exact Hc. Qed.
Lemma still_set_vc v : still (set_vc c v).
Proof. exact Hc. Qed.
Lemma still_store_acc d a : still (store_acc c d a).
Proof. exact Hc. Qed.
Lemma still_logic_nz d : still (logic_nz c d).
Proof. exact Hc. Qed.
Lemma still_put_accu r v : still (put_accu c r v).
Proof. exact Hc. Qed.
Lemma still_add_cycles n : still (add_cycles c n).
Proof. exact Hc. Qed.
Lemma still_dsp_compute_ssh_ssl : still (dsp_compute_ssh_ssl c).
Proof. exact Hc. Qed.
Lemma still_len v : still (c <| cur_inst_len := v |>).
Proof. exact Hc. Qed.
Lemma still_cycle v : still (c <| instr_cycle := v |>).
Proof. exact Hc. Qed.
Lemma still_stack0 v : still (c <| stack0 := v |>).
Proof. exact Hc. Qed.
Lemma still_stack1 v : still (c <| stack1 := v |>).
Proof. exact Hc. Qed.
Lemma still_ccr a : still (ccr c a).
Proof. unfold still, still_core, ccr. by rewrite ccr_update_sr. Qed.
End updates.

Create HintDb kept discriminated.

Ltac still_core_tac :=
  repeat match goal with
  | H : still ?c |- still ?c => exact H
  | |- still (set_reg _ _ _) => apply still_set_reg
  | |- still (or_sr _ _) => apply still_or_sr
  | |- still (clear_sr _ _) => apply still_clear_sr
  | |- still (set_vc _ _) => apply still_set_vc
  | |- still (store_acc _ _ _) => apply still_store_acc
  | |- still (logic_nz _ _) => apply still_logic_nz
  | |- still (put_accu _ _ _) => apply still_put_accu
  | |- still (add_cycles _ _) => apply still_add_cycles
  | |- still (dsp_compute_ssh_ssl _) => apply still_dsp_compute_ssh_ssl
  | |- still (ccr _ _) => apply still_ccr
  | |- still (_ <| cur_inst_len := _ |>) => apply still_len
  | |- still (_ <| instr_cycle := _ |>) => apply still_cycle
  | |- still (_ <| stack0 := _ |>) => apply still_stack0
  | |- still (_ <| stack1 := _ |>) => apply still_stack1
  | |- still (if ?b then _ else _) => destruct b
  | |- still (match ?x with _ => _ end) => destruct x
  | |- still (let c := ?x in @?f c) => change (still (f x)); cbv beta
  | |- @still (_ * _) _ (_, ?c) => change (still c)
  end.
#[local] Hint Extern 1 (still _) => solve [still_core_tac] : kept.

Ltac still_norm := repeat match goal with H : @still (_ * _) _ (_, ?c) |- _ => change (still c) in H end.

Ltac kept_walk :=
  repeat match goal with
  | |- kept _ => solve [eauto 3 with kept]
  | |- kept (Ok _) => apply kept_ok; still_core_tac
  | |- kept AssertFail => intros ? [=]
  | |- kept Undef => intros ? [=]
  | |- kept (let c := ?x in @?f c) => change (kept (f x)); cbv beta
  | |- kept (if ?b then _ else _) => destruct b
  | |- kept (@mbind _ _ dsp_core _ _ _) => apply kept_bind; [| intros]
  | |- kept (@mbind _ _ (_ * dsp_core) _ _ _) => apply kept_bind; [| intros [? ?] ?; still_norm]
  | |- kept (@mbind _ _ _ _ _ _) => apply kept_value; intros
  | |- kept (match ?x with _ => _ end) => destruct x
  end.

Lemma add_interrupt_kept c i : still c -> kept (dsp56k_add_interrupt c i).
Proof. intros Hc. unfold dsp56k_add_interrupt. kept_walk; exact Hc. Qed.
#[local] Hint Resolve add_interrupt_kept : kept.

Lemma push_kept c p sr b : still c -> kept (dsp_stack_push c p sr b).
Proof. intros Hc. unfold dsp_stack_push, stack_exception. kept_walk. Qed.

Lemma pop_kept c : still c -> kept (dsp_stack_pop c).
Proof. intros Hc. unfold dsp_stack_pop, stack_exception. kept_walk. Qed.
#[local] Hint Resolve push_kept pop_kept : kept.

Lemma write_reg_kept c k v : still c -> kept (dsp_write_reg c k v).
Proof. intros Hc. unfold dsp_write_reg. kept_walk. Qed.
#[local] Hint Resolve write_reg_kept : kept.

Lemma run_alu_kept op c : still c -> kept (run_alu op c).
Proof.
  intros Hc. destruct op; cbn [run_alu]; autounfold with alu; unfold emu_max, emu_tfr, clear_shift, emu_undefined; kept_walk.
Qed.

Lemma parallel_alu_kept c : still c -> kept (parallel_alu c).
Proof. intros Hc. apply kept_value. intros op. by apply run_alu_kept. Qed.

Lemma update_rn_kept c k m : still c -> kept (emu_update_rn c k m).
Proof. intros Hc. unfold emu_update_rn, emu_update_rn_modulo, emu_update_rn_bitreverse. kept_walk. Qed.
#[local] Hint Resolve parallel_alu_kept update_rn_kept : kept.

Lemma calc_ea_kept c m : still c -> kept (emu_calc_ea c m).
Proof. intros Hc. unfold emu_calc_ea. kept_walk. Qed.
#[local] Hint Resolve calc_ea_kept : kept.

Lemma accu24_still c k : still c -> still (emu_pm_read_accu24 c k).
Proof. intros Hc. unfold emu_pm_read_accu24. repeat case_match; exact Hc. Qed.

Lemma read_source_still c k : still c -> still (read_source c k).
Proof.
  intros Hc. unfold read_source. destruct (_ || _); [| exact Hc].
  pose proof (accu24_still c k Hc) as H. by destruct (emu_pm_read_accu24 c k) as [[l v] c'].
Qed.

Lemma read_long_still c k : still c -> still (read_long c k).
Proof.
  intros Hc. unfold read_long.
  repeat (match goal with
    | |- still (match emu_pm_read_accu24 ?c ?k with _ => _ end) =>
        let H := fresh in pose proof (accu24_still c k) as H; destruct (emu_pm_read_accu24 c k) as [[? ?] ?];
        specialize (H ltac:(assumption))
    | |- still (if ?b then _ else _) => destruct b
    | |- still (match ?x with _ => _ end) => destruct x
    end; cbv beta iota); try exact Hc; assumption.
Qed.

Lemma next_word_kept c : still c -> kept (next_word c).
Proof. intros Hc. unfold next_word. kept_walk. Qed.

Lemma push_loop_kept c : still c -> kept (push_loop c).
Proof. intros Hc. unfold push_loop. kept_walk. Qed.
#[local] Hint Resolve next_word_kept : kept.

Lemma start_do_kept c : still c -> kept (start_do c).
Proof. intros Hc. unfold start_do. kept_walk. Qed.

Lemma read_or_pop_kept c k : still c -> kept (read_or_pop c k).
Proof. intros Hc. unfold read_or_pop. kept_walk. Qed.

Lemma read_limit_kept c k : still c -> kept (read_limit_or_pop c k).
Proof. intros Hc. unfold read_limit_or_pop. kept_walk. by apply read_source_still. Qed.
#[local] Hint Resolve push_loop_kept start_do_kept read_or_pop_kept read_limit_kept : kept.

(** ** The state around the core

    [env] is what the state holds beside the core, [e0] that part of the state.
    [stuck] is a write to a peripheral register, in a state with those contents,
    that does not return. *)
Section states.
Context {S : Type} `{HasCoreLaws S}.
Context {E : Type} (env : S -> E) (e0 : E).
Context (env_with : forall (s : S) c, env (with_core s c) = env s).
Context (periph_read_fuelled : forall (s : S) a, fuelled (read_peripheral s a)).

Definition stuck : Prop :=
  exists (s : S) a v, env s = e0 /\ mems (core_of s) = m0 /\ write_peripheral s a v = NoFuel.
Definition ends {A} (m : outcome A) : Prop := m = NoFuel -> stuck.

#[local] Instance still_state : Still S := fun s => env s = e0 /\ still (core_of s).

Lemma still_with (s : S) c : env s = e0 -> still c -> still (with_core s c).
Proof. intros Hs Hc. split; [by rewrite env_with | by rewrite core_with]. Qed.

Lemma ends_fuelled {A} (m : outcome A) : fuelled m -> ends m.
Proof. by intros Hm E'. Qed.

(** Before the write: the part returns and keeps the contents. *)
Lemma ends_bind {A B} `{Still A} (m : outcome A) (f : A -> outcome B) :
  fuelled m -> kept m -> (forall a, still a -> ends (f a)) -> ends (m ≫= f).
Proof. intros Hm Hk Hf. destruct m; cbn; [by apply Hf, Hk | by intros [=] .. | by destruct Hm]. Qed.

Lemma ends_value {A B} (m : outcome A) (f : A -> outcome B) :
  fuelled m -> (forall a, ends (f a)) -> ends (m ≫= f).
Proof. intros Hm Hf. destruct m; cbn; [apply Hf | by intros [=] .. | by destruct Hm]. Qed.

(** The write, and what returns after it. *)
Lemma ends_then {A B} (m : outcome A) (f : A -> outcome B) :
  ends m -> (forall a, fuelled (f a)) -> ends (m ≫= f).
Proof. intros Hm Hf. destruct m; cbn; [by apply ends_fuelled | by intros [=] .. | intros _; by apply Hm]. Qed.

Lemma fuelled_read_memory (s : S) space a : fuelled (dsp56k_read_memory s space a).
Proof. unfold dsp56k_read_memory. fuel_walk. Qed.

Lemma fuelled_write_y (s : S) a v : fuelled (dsp56k_write_memory s DSP_SPACE_Y a v).
Proof. unfold dsp56k_write_memory, write_memory_raw. change (DSP_SPACE_Y =? DSP_SPACE_X) with false. fuel_walk. Qed.
#[local] Hint Resolve fuelled_read_memory fuelled_write_y : fuel.

Lemma ends_write (s : S) space a v : still s -> ends (dsp56k_write_memory s space a v).
Proof.
  intros [Hs Hc]. unfold dsp56k_write_memory, write_memory_raw.
  apply ends_value; [auto with fuel |]. intros _. apply ends_value; [auto with fuel |]. intros _.
  destruct (space =? DSP_SPACE_X); [destruct (DSP_PERIPH_BASE <=? a) |].
  - intros E'. by exists s, a, v.
  - apply ends_fuelled. fuel_walk.
  - apply ends_fuelled. fuel_walk.
Qed.

(** States and cores of states. *)
Ltac still_state_tac :=
  repeat match goal with
  | H : @still S _ ?s |- @still S _ ?s => exact H
  | H : @still S _ ?s |- still (core_of ?s) => exact (proj2 H)
  | H : @still S _ ?s |- env ?s = e0 => exact (proj1 H)
  | |- @still S _ (with_core _ _) => apply still_with
  | |- @still S _ (if ?b then _ else _) => destruct b
  | |- still (core_of (with_core _ _)) => rewrite core_with
  | |- env (with_core _ _) = e0 => rewrite env_with
  | |- @still (_ * _) _ (_, ?c) => change (still c)
  | |- still _ => progress still_core_tac
  | |- still (read_source _ _) => apply read_source_still
  | |- still (read_long _ _) => apply read_long_still
  end.
#[local] Hint Extern 1 (still _) => solve [still_state_tac] : kept.

Ltac name_still x lem :=
  let H := fresh "Hst" in pose proof lem as H; destruct x as [? ?];
  specialize (H ltac:(solve [still_state_tac])); still_norm.

Ltac ends_step :=
  match goal with
  | |- ends _ => progress rewrite ?core_with
  | |- ends (Ok _) => apply ends_fuelled, fuelled_ok
  | |- ends (let c := ?x in @?f c) => change (ends (f x)); cbv beta
  | |- ends (if ?b then _ else _) => destruct b
  | |- ends (dsp56k_write_memory _ _ _ _) => apply ends_write; still_state_tac
  | |- ends (@mbind _ _ S _ _ _) => apply ends_then; [| intros; solve [fuel_walk]]
  | |- ends (@mbind _ _ dsp_core _ _ _) => apply ends_bind; [solve [fuel_walk] | solve [kept_walk; still_state_tac] | intros]
  | |- ends (@mbind _ _ (_ * dsp_core) _ _ _) =>
      apply ends_bind; [solve [fuel_walk] | solve [kept_walk; still_state_tac] | intros [? ?] ?; still_norm]
  | |- ends (@mbind _ _ (_ * S) _ _ _) =>
      apply ends_bind; [solve [fuel_walk] | solve [kept_walk; still_state_tac] | intros [? ?] ?; still_norm]
  | |- ends (@mbind _ _ _ _ _ _) => apply ends_value; [solve [fuel_walk] | intros]
  | |- ends (match read_source ?c ?k with _ => _ end) => name_still (read_source c k) (read_source_still c k)
  | |- ends (match emu_pm_read_accu24 ?c ?k with _ => _ end) => name_still (emu_pm_read_accu24 c k) (accu24_still c k)
  | |- ends (match ?x with _ => _ end) => destruct x
  end.
Ltac ends_walk := repeat ends_step.

Lemma pm_0_ends s : still s -> ends (emu_pm_0 s).
Proof. intros Hs. unfold emu_pm_0. ends_walk. Qed.

Lemma pm_1_ends s : still s -> ends (emu_pm_1 s).
Proof. intros Hs. unfold emu_pm_1. ends_walk. Qed.

Lemma parmove_ends i s : still s -> ends (opcodes_parmove i s).
Proof.
  intros Hs. pose proof (pm_0_ends s Hs). pose proof (pm_1_ends s Hs).
  assert (H3' : ends (emu_pm_3 s)) by (unfold emu_pm_3; ends_walk).
  assert (H2' : ends (emu_pm_2 s)) by (unfold emu_pm_2, emu_pm_2_2; ends_walk; exact H3').
  assert (H5' : ends (emu_pm_5 s)) by (unfold emu_pm_5; ends_walk).
  assert (H4' : ends (emu_pm_4x s)) by (unfold emu_pm_4x; ends_walk).
  assert (H8' : ends (emu_pm_8 s)) by (unfold emu_pm_8; ends_walk).
  assert (H6' : ends (emu_pm_4 s)) by (unfold emu_pm_4; by destruct (_ =? _)).
  unfold opcodes_parmove. repeat case_match; assumption.
Qed.

(** ** Operands in memory *)

Lemma fuelled_locate f (s : S) : fuelled (locate f s).
Proof. unfold locate. fuel_walk. Qed.

Lemma fuelled_read_loc l (s : S) : fuelled (read_loc l s).
Proof. unfold read_loc. fuel_walk. Qed.
#[local] Hint Resolve fuelled_locate fuelled_read_loc : fuel.

Lemma locate_kept f s : still s -> kept (locate f s).
Proof. intros Hs. unfold locate. kept_walk; still_state_tac. Qed.

Lemma read_loc_kept l s : still s -> kept (read_loc l s).
Proof.
  intros Hs. unfold read_loc. destruct l; [kept_walk |].
  name_still (read_source (core_of s) numreg) (read_source_still (core_of s) numreg). kept_walk; still_state_tac.
Qed.
#[local] Hint Resolve locate_kept read_loc_kept : kept.

Lemma write_loc_ends l v s : still s -> ends (write_loc l v s).
Proof. intros Hs. unfold write_loc. ends_walk. Qed.

Lemma bit_modify_ends g f s : still s -> ends (bit_modify g f s).
Proof. intros Hs. unfold bit_modify. ends_walk. apply write_loc_ends. still_state_tac. Qed.

Lemma bit_jump_ends want sub f s : still s -> ends (bit_jump want sub f s).
Proof. intros Hs. unfold bit_jump. ends_walk. Qed.

Lemma bit_branch_ends want f s : still s -> ends (bit_branch want f s).
Proof. intros Hs. unfold bit_branch. ends_walk. Qed.

Lemma memory_functions_end f s : still s -> Forall ends
  [emu_btst f s; emu_do_mem f s; emu_rep_mem f s; emu_movec_aa s; emu_movec_ea s; emu_movem_aa s; emu_movem_ea s;
   emu_movep_0 s; emu_movep_1 s; emu_movep_23 s; emu_movep_x_qq s; emu_move_x_long s; emu_move_xy_imm DSP_SPACE_X s;
   emu_move_xy_imm DSP_SPACE_Y s].
Proof.
  intros Hs. unfold emu_btst, emu_do_mem, emu_rep_mem, emu_movec_aa, emu_movec_ea, emu_movem_aa, emu_movem_ea,
    emu_movep_0, emu_movep_1, emu_movep_23, emu_movep_x_qq, emu_move_x_long, emu_move_xy_imm, move_p, move_periph,
    move_displaced, map_core.
  repeat first [apply List.Forall_nil | apply List.Forall_cons; [ends_walk |]].
Qed.

Lemma on_core_ends f (s : S) : (forall c, fuelled (f c)) -> ends (on_core f s).
Proof. intros Hf. apply ends_value; [apply Hf |]. intros c. apply ends_fuelled. fuel_walk. Qed.

Lemma functions_end : Forall (fun p => forall s, still s -> ends (p.2 s)) (emu_functions (S := S)).
Proof.
  assert (Hcore := proj1 (List.Forall_forall _ _) core_functions_fuelled).
  assert (Hmem : forall f s, still s -> forall m, In m _ -> ends m)
    by (intros f s Hs; exact (proj1 (List.Forall_forall _ _) (memory_functions_end f s Hs))).
  repeat first [apply List.Forall_nil | apply List.Forall_cons; [intros s Hs; cbn [snd] |]].
  all: try (apply on_core_ends; apply Hcore; repeat first [left; reflexivity | right]; fail).
  all: try (first [apply bit_modify_ends | apply bit_jump_ends | apply bit_branch_ends]; exact Hs; fail).
  all: match goal with
    | |- ends (?g ?f ?s) => match type of f with operand => apply (Hmem f s Hs) end
    | |- ends (_ ?s) => apply (Hmem AA s Hs)
    end; repeat first [left; reflexivity | right].
Qed.

Lemma emu_ends name s : still s -> ends (emu name s).
Proof.
  intros Hs. unfold emu. destruct (List.find _ _) as [[n f] |] eqn:Ef; [| by intros [=]].
  apply List.find_some in Ef as [Hin _]. by apply (proj1 (List.Forall_forall _ _) functions_end (n, f) Hin).
Qed.

(** An instruction that does not return has made a write that does not. *)
Lemma instruction_ends s cache : still s -> ends (dsp_instruction s cache).
Proof.
  intros Hs. unfold dsp_instruction, dsp56k_execute_instruction.
  apply ends_value; [auto with fuel |]. intros inst. cbv zeta. apply ends_then.
  2: { intros [s1 cache1]. fuel_walk. }
  set (c0 := _ <| instr_cycle := 2 |>). assert (H0' : still c0) by exact (proj2 Hs). clearbody c0.
  destruct (cur_inst c0 <? 0x100000).
  - destruct (fetch_opcode c0 cache) as [[[op c1] cache1] | | |] eqn:Ef; try by intros [=].
    2: { by apply fuelled_fetch in Ef. }
    rewrite ok_bind. assert (Hc1 : still c1).
    { unfold fetch_opcode in Ef. destruct (pram_opcache c0 !! pc c0); [by simplify_eq |].
      apply bind_ok in Ef as ([? ?] & _ & Ef). by simplify_eq. }
    apply ends_then; [| intros; auto with fuel]. unfold run_entry.
    destruct (nonparallel_opcodes !! op) as [e |]; [| by intros [=]].
    destruct (op_emu e) as [f |]; [apply emu_ends; still_state_tac | apply on_core_ends; auto with fuel].
  - apply ends_then; [apply parmove_ends; still_state_tac | intros; auto with fuel].
Qed.
End states.
End contents.
