(* ===== verification/DspDma.v ===== *)
(** * The DSP's DMA engine and peripherals (mcpx/apu/dsp/dsp_dma.c, dsp.c)

    A linked list of blocks in DSP memory describes transfers between DSP memory
    and the APU's scratch space or FIFOs.  [DspIO] is the interface to those (the
    callbacks [scratch_rw] and [fifo_rw] that gp_ep.c installs).  On top of the
    engine, a DSP ([DSPState]) is a core with its DMA state: its peripheral
    registers implement the interface [HasCore] that the core asks for. *)

From stdpp Require Import base numbers list gmap strings.
From Stdlib Require Import ZArith Lia.
From S2P Require Import Prelude DspArith DspDecode DspCore.

Abbreviation DMA_CONTROL_ACTION := 0x7.
Abbreviation DMA_CONTROL_ACTION_START := 1.
Abbreviation DMA_CONTROL_ACTION_STOP := 2.
Abbreviation DMA_CONTROL_ACTION_FREEZE := 3.
Abbreviation DMA_CONTROL_ACTION_UNFREEZE := 4.
Abbreviation DMA_CONTROL_FROZEN := 8.
Abbreviation DMA_CONTROL_RUNNING := 16.
Abbreviation DMA_CONTROL_STOPPED := 32.
Abbreviation NODE_POINTER_VAL := 0x3fff.
Abbreviation NODE_POINTER_EOL := 0x4000.
Abbreviation NODE_CONTROL_DIRECTION := 2.

(** ** The interface to the APU

    A call gets the bytes of the buffer it is given a pointer into and returns
    them as it leaves them; [dir] is true for a transfer out of the buffer. *)
Class DspIO (W : Type) := {
  scratch_rw : W -> list Z -> Z -> bool -> outcome (list Z * W);
  fifo_rw : W -> list Z -> Z -> bool -> outcome (list Z * W)
}.

(** What the circular copies rely on: a read transfer fills the buffer from
    byte-addressed scratch space and changes nothing else. *)
Class ScratchRead (W : Type) `{DspIO W} := {
  scratch_byte : W -> Z -> Z;
  scratch_mapped : W -> Z -> Prop;
  scratch_read_spec : forall (w : W) buf addr,
    (forall i, 0 <= i < zlen buf -> scratch_mapped w (addr + i)) -> 0 <= addr ->
    exists buf', scratch_rw w buf addr false = Ok (buf', w) /\ zlen buf' = zlen buf /\
      forall i, 0 <= i < zlen buf -> nthZ buf' i = scratch_byte w (addr + i)
}.

Section circular.
Context {W : Type} `{DspIO W}.

(** The loop of [scratch_circular_copy]; [fuel] bounds its rounds. *)
Fixpoint circular_loop (fuel : nat) (w : W) (scratch_base scratch_offset scratch_size transfer_size
    buf_offset : Z) (buf : list Z) (direction : bool) : outcome (list Z * Z * W) :=
  if transfer_size <=? 0 then Ok (buf, scratch_offset, w) else
  match fuel with
  | O => NoFuel
  | S fuel =>
      let bytes_until_wrap := u32 (scratch_size - scratch_offset) in
      let chunk_size := Z.min transfer_size bytes_until_wrap in
      let scratch_addr := u32 (scratch_base + scratch_offset) in
      chunk ← slice buf buf_offset chunk_size;
      '(chunk, w) ← scratch_rw w chunk scratch_addr direction;
      buf ← blit buf buf_offset chunk;
      let scratch_offset := u32 (scratch_offset + chunk_size) in
      let scratch_offset := if scratch_size <=? scratch_offset then 0 else scratch_offset in
      circular_loop fuel w scratch_base scratch_offset scratch_size
        (u32 (transfer_size - chunk_size)) (u32 (buf_offset + chunk_size)) buf direction
  end.

(** Every round moves at least one byte: [transfer_size] rounds are enough. *)
Definition scratch_circular_copy (w : W) (scratch_base scratch_offset scratch_size transfer_size : Z)
    (scratch_buf : list Z) (direction : bool) : outcome (list Z * Z * W) :=
  let scratch_offset := if scratch_size <=? scratch_offset then 0 else scratch_offset in
  circular_loop (Z.to_nat transfer_size) w scratch_base scratch_offset scratch_size transfer_size
    0 scratch_buf direction.
End circular.

(** ** Blocks *)

Record DSPDMAState := mkDMA {
  dma_configuration : Z;
  dma_control : Z;
  dma_start_block : Z;
  dma_next_block : Z;
  dma_error : bool;
  dma_eol : bool
}.

#[export] Instance eta_DSPDMAState : Eta DSPDMAState := fun s =>
  mkDMA (dma_configuration s) (dma_control s) (dma_start_block s) (dma_next_block s)
    (dma_error s) (dma_eol s).

(** A DMA address names a word of X, Y or P memory; [room] is what must lie
    below the end of the window from there on. *)
Definition dma_address (addr room : Z) : outcome (Z * Z) :=
  if addr <? 0x1800 then
    c_assert (u32 (addr + room) <? 0x1800) ;; Ok (DSP_SPACE_X, addr)
  else if (0x1800 <=? addr) && (addr <? 0x2000) then
    c_assert (u32 (addr + room) <? 0x2000) ;; Ok (DSP_SPACE_Y, addr - 0x1800)
  else if (0x2800 <=? addr) && (addr <? 0x3800) then
    c_assert (u32 (addr + room) <? 0x3800) ;; Ok (DSP_SPACE_P, addr - 0x2800)
  else AssertFail.

(** The engine's accesses never reach the peripheral window ([dma_address_plain]
    below), so that they act on the core alone. *)
#[local] Instance dma_view : HasCore dsp_core := {|
  core_of := fun c => c;
  with_core := fun _ c => c;
  read_peripheral := fun _ _ => AssertFail;
  write_peripheral := fun _ _ _ => AssertFail
|}.

Definition dma_read (c : dsp_core) (space address : Z) : outcome Z :=
  dsp56k_read_memory c space address.
Definition dma_write (c : dsp_core) (space address v : Z) : outcome dsp_core :=
  dsp56k_write_memory c space address v.

(** The seven words of a block; the size word counts from zero. *)
Record block := mkBlock {
  b_next : Z; b_control : Z; b_count : Z; b_dsp_offset : Z;
  b_scratch_offset : Z; b_scratch_base : Z; b_scratch_size : Z
}.

Definition read_block (c : dsp_core) (space addr : Z) : outcome block :=
  next ← dma_read c space addr;
  control ← dma_read c space (addr + 1);
  count ← dma_read c space (addr + 2);
  dsp_offset ← dma_read c space (addr + 3);
  scratch_offset ← dma_read c space (addr + 4);
  scratch_base ← dma_read c space (addr + 5);
  size ← dma_read c space (addr + 6);
  Ok (mkBlock next control count dsp_offset scratch_offset scratch_base (u32 (size + 1))).

(** [item_size] and [item_mask] by format. *)
Definition item_format (format : Z) : outcome (Z * Z) :=
  if format =? 1 then Ok (2, 0x0000ffff)
  else if (format =? 2) || (format =? 6) then Ok (4, 0x00ffffff)
  else AssertFail.

(** The bytes stored for a DSP word, and the DSP word read from them. *)
Definition item_bytes (item_size v : Z) : list Z :=
  if item_size =? 2 then le_bytes 2 (v ≫ 8) else le_bytes 4 v.

Definition item_word (item_size item_mask : Z) (bs : list Z) : Z :=
  if item_size =? 2 then le_val bs ≪ 8 else le_val bs .& item_mask.

(** Gather [n] words into the buffer: word [i] of the list of addresses goes to
    item [i]. *)
Fixpoint gather (c : dsp_core) (space item_size : Z) (addrs : list Z) (i : Z) (buf : list Z)
    : outcome (list Z) :=
  match addrs with
  | [] => Ok buf
  | a :: addrs =>
      v ← dma_read c space a;
      buf ← blit buf (i * item_size) (item_bytes item_size v);
      gather c space item_size addrs (i + 1) buf
  end.

(** The addresses in the order of the two loops: sample by sample, and within a
    sample channel by channel. *)
Definition interleaved (mem block_count channel_count : Z) : list Z :=
  flat_map (fun i => map (fun ch => mem + ch * block_count + i) (seqZ 0 channel_count))
    (seqZ 0 block_count).

Definition linear (mem count : Z) : list Z := map (fun i => mem + i) (seqZ 0 count).

(** Scatter the items of the buffer to consecutive words. *)
Fixpoint scatter (c : dsp_core) (space item_size item_mask mem : Z) (n : nat) (i : Z) (buf : list Z)
    : outcome dsp_core :=
  match n with
  | O => Ok c
  | S n =>
      bs ← slice buf (i * item_size) item_size;
      c ← dma_write c space (mem + i) (item_word item_size item_mask bs);
      scatter c space item_size item_mask mem n (i + 1) buf
  end.

Section engine.
Context {W : Type} `{DspIO W}.

(** The transfer of one block, in the direction out of DSP memory. *)
Definition transfer_out (c : dsp_core) (w : W) (b : block) (interleave : bool)
    (buf_id item_size space mem : Z) : outcome (Z * W) :=
  let count := b_count b in
  let channel_count := (count .& 0xF) + 1 in
  let block_count := count ≫ 4 in
  let buf := replicate (Z.to_nat (u32 (count * item_size))) 0 in
  '(size, buf) ←
    (if interleave then
       buf ← gather c space item_size (interleaved mem block_count channel_count) 0 buf;
       Ok (u32 (u32 (block_count * item_size) * channel_count), buf)
     else
       buf ← gather c space item_size (linear mem count) 0 buf;
       Ok (u32 (count * item_size), buf));
  data ← slice buf 0 size;
  if (0 <=? buf_id) && (buf_id <=? 3) then
    '(_, w) ← fifo_rw w data buf_id true; Ok (b_scratch_offset b, w)
  else if buf_id =? 0xE then
    '(_, off, w) ← scratch_circular_copy w (b_scratch_base b) (b_scratch_offset b)
                     (b_scratch_size b) size data true;
    Ok (off, w)
  else if buf_id =? 0xF then
    '(_, w) ← scratch_rw w data (u32 (b_scratch_base b + b_scratch_offset b)) true;
    Ok (b_scratch_offset b, w)
  else AssertFail.

(** Into DSP memory. *)
Definition transfer_in (c : dsp_core) (w : W) (b : block) (interleave : bool)
    (buf_id item_size item_mask space mem : Z) : outcome (Z * dsp_core * W) :=
  c_assert (negb interleave) ;;
  let size := u32 (b_count b * item_size) in
  let buf := replicate (Z.to_nat size) 0 in
  '(buf, off, w) ←
    (if buf_id =? 0xE then
       scratch_circular_copy w (b_scratch_base b) (b_scratch_offset b) (b_scratch_size b) size buf false
     else if buf_id =? 0xF then
       '(buf, w) ← scratch_rw w buf (u32 (b_scratch_base b + b_scratch_offset b)) false;
       Ok (buf, b_scratch_offset b, w)
     else AssertFail);
  c ← scatter c space item_size item_mask mem (Z.to_nat (b_count b)) 0 buf;
  Ok (off, c, w).

(** One round of the loop of [dsp_dma_run]. *)
Definition dma_block (s : DSPDMAState) (c : dsp_core) (w : W) : outcome (DSPDMAState * dsp_core * W) :=
  let addr := dma_next_block s .& NODE_POINTER_VAL in
  '(block_space, block_addr) ← dma_address addr 6;
  b ← read_block c block_space block_addr;
  let s := s <| dma_next_block := b_next b |> in
  let s := if flag (dma_next_block s) NODE_POINTER_EOL then s <| dma_eol := true |> else s in
  let control := b_control b in
  let interleave := flag control 1 in
  let direction := flag control NODE_CONTROL_DIRECTION in
  let unk2 := (control ≫ 2) .& 0x3 in
  let writeback := flag (control ≫ 4) 1 in
  let buf_id := (control ≫ 5) .& 0xf in
  let format := (control ≫ 10) .& 0x7 in
  let unk13 := flag (control ≫ 13) 1 in
  c_assert (unk2 =? 0) ;;
  c_assert (negb unk13) ;;
  '(item_size, item_mask) ← item_format format;
  '(mem_space, mem_address) ← dma_address (b_dsp_offset b) (b_count b);
  '(off, c, w) ←
    (if direction then
       '(off, w) ← transfer_out c w b interleave buf_id item_size mem_space mem_address;
       Ok (off, c, w)
     else transfer_in c w b interleave buf_id item_size item_mask mem_space mem_address);
  c ← (if writeback then dma_write c block_space (block_addr + 4) off else Ok c);
  Ok (s, c, w).

Fixpoint dma_loop (fuel : nat) (s : DSPDMAState) (c : dsp_core) (w : W)
    : outcome (DSPDMAState * dsp_core * W) :=
  if flag (dma_next_block s) NODE_POINTER_EOL then Ok (s, c, w) else
  match fuel with
  | O => NoFuel
  | S fuel => '(s, c, w) ← dma_block s c w; dma_loop fuel s c w
  end.

Definition dsp_dma_run (fuel : nat) (s : DSPDMAState) (c : dsp_core) (w : W)
    : outcome (DSPDMAState * dsp_core * W) :=
  if negb (flag (dma_control s) DMA_CONTROL_RUNNING) || flag (dma_control s) DMA_CONTROL_FROZEN
  then Ok (s, c, w) else dma_loop fuel s c w.

Inductive DSPDMARegister := DMA_CONFIGURATION | DMA_CONTROL | DMA_START_BLOCK | DMA_NEXT_BLOCK.

Definition dsp_dma_read (s : DSPDMAState) (reg : DSPDMARegister) : Z :=
  match reg with
  | DMA_CONFIGURATION => dma_configuration s
  | DMA_CONTROL => dma_control s
  | DMA_START_BLOCK => dma_start_block s
  | DMA_NEXT_BLOCK => dma_next_block s
  end.

Definition dsp_dma_write (fuel : nat) (s : DSPDMAState) (c : dsp_core) (w : W) (reg : DSPDMARegister)
    (v : Z) : outcome (DSPDMAState * dsp_core * W) :=
  match reg with
  | DMA_CONFIGURATION => Ok (s <| dma_configuration := v |>, c, w)
  | DMA_CONTROL =>
      let ctl := dma_control s in
      let action := v .& DMA_CONTROL_ACTION in
      s ← (if action =? DMA_CONTROL_ACTION_START then
             Ok (s <| dma_control := (ctl .| DMA_CONTROL_RUNNING) .& u32 (Z.lnot DMA_CONTROL_STOPPED) |>)
           else if action =? DMA_CONTROL_ACTION_STOP then
             Ok (s <| dma_control := (ctl .| DMA_CONTROL_STOPPED) .& u32 (Z.lnot DMA_CONTROL_RUNNING) |>)
           else if action =? DMA_CONTROL_ACTION_FREEZE then
             Ok (s <| dma_control := ctl .| DMA_CONTROL_FROZEN |>)
           else if action =? DMA_CONTROL_ACTION_UNFREEZE then
             Ok (s <| dma_control := ctl .& u32 (Z.lnot DMA_CONTROL_FROZEN) |>)
           else AssertFail);
      dsp_dma_run fuel s c w
  | DMA_START_BLOCK => Ok (s <| dma_start_block := v |>, c, w)
  | DMA_NEXT_BLOCK => Ok (s <| dma_next_block := v |>, c, w)
  end.
End engine.

(** ** The DSP (dsp.c) *)

Record DSPState (W : Type) := mkDSP {
  dsp_cpu : dsp_core;
  dsp_dma : DSPDMAState;
  save_cycles : Z;
  dsp_interrupts : Z;
  dsp_world : W
}.
Arguments mkDSP {W}.
Arguments dsp_cpu {W}.
Arguments dsp_dma {W}.
Arguments save_cycles {W}.
Arguments dsp_interrupts {W}.
Arguments dsp_world {W}.

#[export] Instance eta_DSPState W : Eta (DSPState W) := fun d =>
  mkDSP (dsp_cpu d) (dsp_dma d) (save_cycles d) (dsp_interrupts d) (dsp_world d).

Abbreviation INTERRUPT_START_FRAME := 2.
Abbreviation INTERRUPT_DMA_EOL := 128.

Section dsp.
Context {W : Type} `{DspIO W}.
Variable fuel : nat.

Definition dsp_reset (d : DSPState W) : DSPState W :=
  d <| dsp_cpu := dsp56k_reset_cpu (dsp_cpu d) |> <| save_cycles := 0 |>.

(** Addresses without a register return the constant the code starts from. *)
Definition read_periph (d : DSPState W) (address : Z) : outcome Z :=
  Ok (if address =? 0xFFFFB3 then 0
      else if address =? 0xFFFFC5 then
        if dma_eol (dsp_dma d) then dsp_interrupts d .| INTERRUPT_DMA_EOL else dsp_interrupts d
      else if address =? 0xFFFFD4 then dsp_dma_read (dsp_dma d) DMA_NEXT_BLOCK
      else if address =? 0xFFFFD5 then dsp_dma_read (dsp_dma d) DMA_START_BLOCK
      else if address =? 0xFFFFD6 then dsp_dma_read (dsp_dma d) DMA_CONTROL
      else if address =? 0xFFFFD7 then dsp_dma_read (dsp_dma d) DMA_CONFIGURATION
      else 0xababa).

Definition periph_dma_write (d : DSPState W) (r : DSPDMARegister) (v : Z) : outcome (DSPState W) :=
  '(s, c, w) ← dsp_dma_write fuel (dsp_dma d) (dsp_cpu d) (dsp_world d) r v;
  Ok (d <| dsp_dma := s |> <| dsp_cpu := c |> <| dsp_world := w |>).

Definition write_periph (d : DSPState W) (address value : Z) : outcome (DSPState W) :=
  if address =? 0xFFFFC4 then
    Ok (if flag value 1 then d <| dsp_cpu := (dsp_cpu d) <| is_idle := true |> |> else d)
  else if address =? 0xFFFFC5 then
    let d := d <| dsp_interrupts := dsp_interrupts d .& u32 (Z.lnot value) |> in
    Ok (if flag value INTERRUPT_DMA_EOL then d <| dsp_dma := (dsp_dma d) <| dma_eol := false |> |> else d)
  else if address =? 0xFFFFD4 then periph_dma_write d DMA_NEXT_BLOCK value
  else if address =? 0xFFFFD5 then periph_dma_write d DMA_START_BLOCK value
  else if address =? 0xFFFFD6 then periph_dma_write d DMA_CONTROL value
  else if address =? 0xFFFFD7 then periph_dma_write d DMA_CONFIGURATION value
  else Ok d.

#[export] Instance dsp_has_core : HasCore (DSPState W) := {|
  core_of := dsp_cpu;
  with_core := fun d c => d <| dsp_cpu := c |>;
  read_peripheral := read_periph;
  write_peripheral := write_periph
|}.

#[export] Instance dsp_has_core_laws : HasCoreLaws (DSPState W).
Proof. split; [done | by intros [] | done]. Qed.

Definition dsp_start_frame (d : DSPState W) : DSPState W :=
  d <| dsp_interrupts := dsp_interrupts d .| INTERRUPT_START_FRAME |>.

(** [dsp_bootstrap]: 0x800 words of scratch memory into program memory, the top
    byte of each cleared, and the opcode cache emptied. *)
Fixpoint bootstrap_words (m : gmap Z Z) (i : Z) (n : nat) (buf : list Z) : outcome (gmap Z Z) :=
  match n with
  | O => Ok m
  | S n =>
      bs ← slice buf (i * 4) 4;
      bootstrap_words (rset m i (le_val bs .& 0x00ffffff)) (i + 1) n buf
  end.

Definition dsp_bootstrap (d : DSPState W) : outcome (DSPState W) :=
  '(buf, w) ← scratch_rw (dsp_world d) (replicate (Z.to_nat (0x800 * 4)) 0) 0 false;
  p ← bootstrap_words (pram (dsp_cpu d)) 0 (Z.to_nat 0x800) buf;
  Ok (d <| dsp_cpu := (dsp_cpu d) <| pram := p |> <| pram_opcache := ∅ |> |> <| dsp_world := w |>).

(** [dsp_run]: [emu], [emu_undefined] and [parmove] are the instructions; one
    unit of [n] per instruction. *)
Variable emu : string -> DSPState W -> outcome (DSPState W).
Variable emu_undefined : DSPState W -> outcome (DSPState W).
Variable parmove : Z -> DSPState W -> outcome (DSPState W).

Definition dma_tick (d : DSPState W) (dma_timer : Z) : DSPState W * Z :=
  let dma_timer := if flag (dma_control (dsp_dma d)) DMA_CONTROL_RUNNING then dma_timer + 1 else dma_timer in
  if 2 <? dma_timer then
    (d <| dsp_dma := (dsp_dma d) <| dma_control :=
       (dma_control (dsp_dma d) .& u32 (Z.lnot DMA_CONTROL_RUNNING)) .| DMA_CONTROL_STOPPED |> |>, 0)
  else (d, dma_timer).

Fixpoint run_loop (n : nat) (d : DSPState W) (cache : opcache_t) (dma_timer : Z)
    : outcome (DSPState W * opcache_t) :=
  if save_cycles d <=? 0 then Ok (d, cache) else
  match n with
  | O => NoFuel
  | S n =>
      '(d, cache) ← dsp56k_execute_instruction emu emu_undefined parmove d cache;
      let d := d <| save_cycles := save_cycles d - instr_cycle (dsp_cpu d) |>
                 <| dsp_cpu := (dsp_cpu d) <| cycle_count := u32 (cycle_count (dsp_cpu d) + 1) |> |> in
      let '(d, dma_timer) := dma_tick d dma_timer in
      if is_idle (dsp_cpu d) then Ok (d, cache) else run_loop n d cache dma_timer
  end.

Definition dsp_run (n : nat) (d : DSPState W) (cache : opcache_t) (cycles : Z)
    : outcome (DSPState W * opcache_t) :=
  run_loop n (d <| save_cycles := save_cycles d + cycles |>) cache 0.
End dsp.

(** ** The circular copy *)

Section circular_proofs.
Context {W : Type} `{ScratchRead W}.
Context (w : W) (base size : Z).
Context (Hsize : 0 < size < 2 ^ 32) (Hbase : 0 <= base) (Hend : base + size <= 2 ^ 32).
Context (Hmap : forall a, base <= a < base + size -> scratch_mapped w a).

(** The chunk of one round: the bytes up to the end of the ring, or fewer. *)
Lemma circular_round buf off bo t :
  0 <= off < size -> 0 <= bo -> 0 < t -> bo + t <= zlen buf -> zlen buf < 2 ^ 32 ->
  let n := Z.min t (size - off) in
  exists chunk chunk' buf', slice buf bo n = Ok chunk /\
    scratch_rw w chunk (base + off) false = Ok (chunk', w) /\
    blit buf bo chunk' = Ok buf' /\ zlen buf' = zlen buf /\
    (forall i, nthZ buf' i = if (bo <=? i) && (i <? bo + n) then scratch_byte w (base + off + (i - bo))
                             else nthZ buf i).
Proof.
  intros Hoff Hbo Ht Hbuf H32 n.
  destruct (slice_spec buf bo n) as (chunk & E1 & L1 & _); [lia .. |].
  destruct (scratch_read_spec w chunk (base + off)) as (chunk' & E2 & L2 & S2);
    [intros i Hi; apply Hmap; lia | lia |].
  destruct (blit_spec buf bo chunk') as (buf' & E3 & L3 & S3); [lia .. |].
  exists chunk, chunk', buf'. repeat (split; [done |]). intros i. rewrite S3, L2, L1.
  destruct (Z.leb_spec bo i), (Z.ltb_spec i (bo + n)); cbn; try done. apply S2. lia.
Qed.

Lemma circular_loop_spec fuel : forall buf off bo t,
  0 <= off < size -> 0 <= bo -> 0 <= t -> bo + t = zlen buf -> zlen buf < 2 ^ 32 -> t <= Z.of_nat fuel ->
  exists buf', circular_loop fuel w base off size t bo buf false = Ok (buf', (off + t) mod size, w) /\
    zlen buf' = zlen buf /\
    (forall i, nthZ buf' i = if (bo <=? i) && (i <? zlen buf)
                             then scratch_byte w (base + (off + (i - bo)) mod size) else nthZ buf i).
Proof.
  induction fuel as [| fuel IH]; intros buf off bo t Hoff Hbo Ht Hbuf H32 Hfuel;
    cbn [circular_loop]; destruct (Z.leb_spec t 0); try lia.
  1,2: exists buf; replace t with 0 by lia; rewrite Z.add_0_r, Z.mod_small by lia; split; [done |];
    split; [done |]; intros i; destruct (Z.leb_spec bo i), (Z.ltb_spec i (zlen buf)); try done; lia.
  rewrite (u32_small (size - off)), (u32_small (base + off)) by lia.
  destruct (circular_round buf off bo t) as (chunk & chunk' & buf1 & -> & E2 & E3 & L1 & S1); [lia .. |].
  set (n := Z.min t (size - off)) in *. cbn [mbind outcome_bind]. rewrite E2. cbn [mbind outcome_bind].
  rewrite E3. cbn [mbind outcome_bind]. rewrite !u32_small by lia.
  assert (Hoff' : (if size <=? off + n then 0 else off + n) = (off + n) mod size).
  { rewrite slot_mod by lia. destruct (Z.leb_spec size (off + n)), (Z.ltb_spec (off + n) size); lia. }
  rewrite Hoff'.
  destruct (IH buf1 ((off + n) mod size) (bo + n) (t - n)) as (buf' & E & L & S);
    [apply Z.mod_pos_bound; lia | lia .. |].
  exists buf'. rewrite E. split; [| split; [lia |]].
  { rewrite Zplus_mod_idemp_l. by replace (off + n + (t - n)) with (off + t) by lia. }
  intros i. rewrite S, S1, L1.
  destruct (Z.leb_spec (bo + n) i), (Z.leb_spec bo i), (Z.ltb_spec i (zlen buf)),
    (Z.ltb_spec i (bo + n)); cbn; try lia; try done.
  - rewrite Zplus_mod_idemp_l. f_equal. f_equal. f_equal. lia.
  - rewrite Z.mod_small by lia. f_equal. lia.
Qed.
End circular_proofs.

(** A circular DMA read terminates and fills the buffer, byte [i] coming from
    the scratch byte at the ring position [(offset + i) mod size], whatever the
    number of times the transfer runs around the ring; the offset it leaves is
    [(offset + length) mod size].  An initial offset outside the ring starts at
    its beginning. *)
Theorem scratch_circular_copy_reads {W} `{ScratchRead W} (w : W) base off size buf :
  0 < size < 2 ^ 32 -> 0 <= base -> base + size <= 2 ^ 32 -> 0 <= off -> zlen buf < 2 ^ 32 ->
  (forall a, base <= a < base + size -> scratch_mapped w a) ->
  let off0 := if size <=? off then 0 else off in
  exists buf', scratch_circular_copy w base off size (zlen buf) buf false =
                 Ok (buf', (off0 + zlen buf) mod size, w) /\
    zlen buf' = zlen buf /\
    forall i, 0 <= i < zlen buf -> nthZ buf' i = scratch_byte w (base + (off0 + i) mod size).
Proof.
  intros Hsize Hbase Hend Hoff Hbuf Hmap off0. unfold scratch_circular_copy. fold off0.
  assert (0 <= off0 < size) by (subst off0; destruct (Z.leb_spec size off); lia).
  destruct (circular_loop_spec w base size Hsize Hbase Hend Hmap (Z.to_nat (zlen buf)) buf off0 0 (zlen buf))
    as (buf' & E & L & S); [lia .. |].
  exists buf'. split; [done |]. split; [done |]. intros i Hi. rewrite S.
  destruct (Z.leb_spec 0 i), (Z.ltb_spec i (zlen buf)); try lia. cbn. by rewrite Z.sub_0_r.
Qed.

(** Scratch space as a plain array of bytes, zero outside of it. *)
#[local] Instance array_io : DspIO (list Z) := {|
  scratch_rw := fun w buf addr dir =>
    if dir : bool then w' ← blit w addr buf; Ok (buf, w')
    else Ok ((fun i => nthZ w (addr + i)) <$> seqZ 0 (zlen buf), w);
  fifo_rw := fun w buf _ _ => Ok (buf, w)
|}.

#[local] Instance array_scratch : ScratchRead (list Z).
Proof.
  refine {| scratch_byte := nthZ; scratch_mapped := fun _ _ => True |}.
  intros w buf addr _ Ha. eexists. split; [reflexivity |].
  rewrite length_fmap, length_seqZ. split; [lia |]. intros i Hi.
  rewrite nthZ_fmap, nthZ_seqZ by (rewrite ?length_seqZ; lia). done.
Defined.

Lemma scratch_circular_copy_reads_witness :
  exists buf', scratch_circular_copy [10; 11; 12; 13; 14] 1 2 3 7 (replicate 7 0) false =
                 Ok (buf', 0, [10; 11; 12; 13; 14]) /\ nthZ buf' 5 = 12.
Proof.
  destruct (scratch_circular_copy_reads [10; 11; 12; 13; 14] 1 2 3 (replicate 7 0)
    ltac:(lia) ltac:(lia) ltac:(lia) ltac:(lia) ltac:(cbn; lia) ltac:(done)) as (buf' & E & _ & H).
  exists buf'. split; [exact E |]. exact (H 5 ltac:(cbn; lia)).
Defined.

(** ** Words and items *)

(** What survives of a word in an item of the given size. *)
Definition item_trunc (item_size v : Z) : Z :=
  if item_size =? 2 then v .& 0xffff00 else v .& 0xffffff.

Lemma length_item_bytes sz v : sz = 2 \/ sz = 4 -> zlen (item_bytes sz v) = sz.
Proof. intros [-> | ->]; reflexivity. Qed.

Lemma item_word_bytes sz mask v : (sz = 2 /\ mask = 0xffff) \/ (sz = 4 /\ mask = 0xffffff) ->
  item_word sz mask (item_bytes sz v) = item_trunc sz v.
Proof.
  intros [[-> ->] | [-> ->]]; unfold item_word, item_bytes, item_trunc; cbn [Z.eqb]; cbn [Pos.eqb];
    rewrite le_val_bytes; cbn [Z.of_nat Pos.of_succ_nat Pos.succ].
  - change 0xffff00 with (Z.ones 16 ≪ 8). change (8 * 2) with 16. zbits.
  - change 0xffffff with (Z.ones 24). change (8 * 4) with 32. zbits.
Qed.


Lemma gather_app c space sz addrs : sz = 2 \/ sz = 4 -> forall vs i pre rest,
  Forall2 (fun a v => dma_read c space a = Ok v) addrs vs ->
  zlen pre = i * sz -> zlen addrs * sz <= zlen rest ->
  exists rest', gather c space sz addrs i (pre ++ rest) =
    Ok (pre ++ flat_map (item_bytes sz) vs ++ rest') /\ zlen rest' = zlen rest - zlen addrs * sz.
Proof.
  intros Hsz vs i pre rest HF. revert i pre rest.
  induction HF as [| a v addrs vs Hv HF IH]; intros i pre rest Hpre Hrest; cbn [gather flat_map].
  { exists rest. cbn. split; [done | lia]. }
  rewrite Hv. cbn [mbind outcome_bind length] in *. pose proof (length_item_bytes sz v Hsz) as Hl.
  rewrite <- Hpre, blit_app by nia. cbn [mbind outcome_bind].
  destruct (IH (i + 1) (pre ++ item_bytes sz v) (drop (length (item_bytes sz v)) rest)) as (rest' & E & L).
  - rewrite length_app. lia.
  - rewrite length_drop. nia.
  - exists rest'. rewrite <- app_assoc in E. rewrite E, <- !app_assoc. split; [done |].
    rewrite L, length_drop. nia.
Qed.

#[local] Instance dma_view_laws : HasCoreLaws dsp_core.
Proof. by split. Qed.

(** Addresses of the window a transfer was given are outside the peripherals. *)
Lemma dma_address_plain addr room space mem k :
  dma_address addr room = Ok (space, mem) -> 0 <= addr -> 0 <= room < 2 ^ 24 -> 0 <= k <= room ->
  plain space (mem + k) = true /\ (mem + k) .& 0xFF000000 = 0 /\ 0 <= mem + k < 0x1800.
Proof.
  intros H Haddr Hroom Hk. unfold dma_address in H.
  assert (Hm : 0 <= mem + k < 0x1800).
  { destruct (Z.ltb_spec addr 0x1800); [| destruct (Z.leb_spec 0x1800 addr), (Z.ltb_spec addr 0x2000),
      (Z.leb_spec 0x2800 addr), (Z.ltb_spec addr 0x3800); cbn in H; try done].
    all: apply bind_ok in H as (? & E & H); injection H as <- <-; apply c_assert_ok, Z.ltb_lt in E;
      rewrite Z.mod_small in E; lia. }
  split; [| split; [| done]].
  - unfold plain. destruct (Z.leb_spec DSP_PERIPH_BASE (mem + k)); [lia |]. by rewrite andb_false_r.
  - change 0xFF000000 with (Z.ones 8 ≪ 24). rewrite <- (Z.mod_small (mem + k) (2 ^ 13)) by lia. zbits.
Qed.

Section roundtrip.
Context (space mem n sz mask : Z) (c : dsp_core).
Context (Hfmt : (sz = 2 /\ mask = 0xffff) \/ (sz = 4 /\ mask = 0xffffff)).
Context (Hplain : forall k, 0 <= k < n -> plain space (mem + k) = true /\ (mem + k) .& 0xFF000000 = 0).

(** Scattering the items of words that were read from [c] at the same addresses
    makes every address written so far read back what survives of its word. *)
Lemma scatter_reads vs : forall k pre tl c1 c2,
  0 <= k -> k + zlen vs = n -> zlen pre = k * sz ->
  (forall j, 0 <= j < zlen vs -> dma_read c space (mem + k + j) = Ok (nthZ vs j)) ->
  (forall j, 0 <= j < k -> exists v, dma_read c space (mem + j) = Ok v /\
                                     dma_read c1 space (mem + j) = Ok (item_trunc sz v)) ->
  scatter c1 space sz mask mem (length vs) k (pre ++ flat_map (item_bytes sz) vs ++ tl) = Ok c2 ->
  forall j, 0 <= j < n -> exists v, dma_read c space (mem + j) = Ok v /\
                                    dma_read c2 space (mem + j) = Ok (item_trunc sz v).
Proof.
  assert (Hsz : sz = 2 \/ sz = 4) by tauto.
  induction vs as [| v vs IH]; intros k pre tl c1 c2 Hk Hn Hpre Hvs Hdone Hs; cbn [length scatter flat_map] in *.
  { injection Hs as <-. intros j Hj. apply Hdone. lia. }
  rewrite <- app_assoc in Hs.
  pose proof (slice_app pre (item_bytes sz v) (flat_map (item_bytes sz) vs ++ tl)) as Hsl.
  rewrite length_item_bytes, Hpre in Hsl by done. rewrite Hsl in Hs. cbn [mbind outcome_bind] in Hs.
  apply bind_ok in Hs as (c3 & Hw & Hs). rewrite item_word_bytes in Hw by done.
  pose proof (Hvs 0 ltac:(lia)) as Hv. rewrite Z.add_0_r, nthZ_cons in Hv. cbn [Z.eqb] in Hv.
  apply (IH (k + 1) (pre ++ item_bytes sz v) tl c3 c2); [lia | lia | | | |].
  - rewrite length_app, Nat2Z.inj_add, length_item_bytes by done. lia.
  - intros j Hj. specialize (Hvs (j + 1) ltac:(lia)). rewrite nthZ_cons in Hvs.
    destruct (Z.eqb_spec (j + 1) 0); [lia |].
    replace (mem + (k + 1) + j) with (mem + k + (j + 1)) by lia. rewrite Hvs. f_equal. f_equal. lia.
  - intros j Hj. destruct (Hplain j) as [Pj Aj], (Hplain k) as [Pk Ak]; [lia .. |].
    pose proof (read_write_cell c1 c3 space (mem + k) (item_trunc sz v) space (mem + j) Pk Pj Hw) as Hrw.
    unfold dma_read at 2. rewrite Hrw. case_decide as Ec.
    + exists v. rewrite Aj. split; [| done]. unfold dma_read in *.
      rewrite read_memory_cell, Aj, <- Ec by done. by rewrite read_memory_cell, Ak in Hv by done.
    + apply Hdone. destruct (decide (j = k)) as [-> |]; [done | lia].
  - by rewrite <- app_assoc.
Qed.
End roundtrip.

(** A linear DMA transfer out of DSP memory followed by the transfer of the
    same buffer back to the same addresses restores every word, up to the bits
    that the item format does not store (the low byte in the 16-bit format, the
    bits above 23 in the 24-bit formats), also where the window covers the mix
    buffer and its alias. *)
Theorem dma_linear_roundtrip addr count space mem format sz mask c c1 c2 vs :
  0 <= addr -> 0 <= count < 2 ^ 24 -> dma_address addr count = Ok (space, mem) ->
  item_format format = Ok (sz, mask) ->
  Forall2 (fun a v => dma_read c space a = Ok v) (linear mem count) vs ->
  exists buf, gather c space sz (linear mem count) 0 (replicate (Z.to_nat (count * sz)) 0) = Ok buf /\
    (scatter c1 space sz mask mem (Z.to_nat count) 0 buf = Ok c2 ->
     forall j, 0 <= j < count -> exists v, dma_read c space (mem + j) = Ok v /\
       dma_read c2 space (mem + j) = Ok (item_trunc sz v)).
Proof.
  intros Haddr Hcount Ha Hf HF.
  assert (Hfmt : (sz = 2 /\ mask = 0xffff) \/ (sz = 4 /\ mask = 0xffffff)).
  { unfold item_format in Hf. destruct (format =? 1); [injection Hf as <- <-; by left |].
    destruct (_ || _); [injection Hf as <- <-; by right | done]. }
  assert (Hsz : sz = 2 \/ sz = 4) by tauto.
  assert (Hlen : zlen (linear mem count) = count) by (unfold linear; rewrite length_map, length_seqZ; lia).
  destruct (gather_app c space sz (linear mem count) Hsz vs 0 [] (replicate (Z.to_nat (count * sz)) 0) HF)
    as (rest' & E & L); [done | rewrite length_replicate; lia |].
  cbn [app] in E. eexists. split; [exact E |].
  pose proof (Forall2_length _ _ _ HF) as Hvl. intros Hs.
  replace (Z.to_nat count) with (length vs) in Hs by lia.
  apply (scatter_reads space mem count sz mask c Hfmt) with (vs := vs) (k := 0) (pre := []) (tl := rest') (c1 := c1);
    [| done | lia | done | | lia | done].
  - intros k Hk. destruct (dma_address_plain addr count space mem k) as (? & ? & _); (done || lia).
  - intros j Hj. rewrite Z.add_0_r.
    assert (Hj2 : linear mem count !! Z.to_nat j = Some (mem + j)).
    { unfold linear. rewrite list_lookup_fmap, lookup_seqZ_lt by lia. cbn. f_equal. lia. }
    destruct (Forall2_lookup_l _ _ _ _ _ HF Hj2) as (v & Hv & Hr). rewrite lookup_nthZ in Hv by lia. congruence.
Qed.

Lemma dma_linear_roundtrip_witness :
  let c := fresh_core in
  exists buf, gather c DSP_SPACE_Y 2 (linear 4 3) 0 (replicate 6 0) = Ok buf /\
    forall c2, scatter c DSP_SPACE_Y 2 0xffff 4 3 0 buf = Ok c2 ->
    exists v, dma_read c DSP_SPACE_Y 5 = Ok v /\ dma_read c2 DSP_SPACE_Y 5 = Ok (item_trunc 2 v).
Proof.
  destruct (dma_linear_roundtrip 0x1804 3 DSP_SPACE_Y 4 1 2 0xffff fresh_core fresh_core fresh_core [0; 0; 0]
    ltac:(lia) ltac:(lia) eq_refl eq_refl ltac:(repeat constructor)) as (buf & E & _).
  exists buf. split; [exact E |]. intros c2 Hs.
  destruct (dma_linear_roundtrip 0x1804 3 DSP_SPACE_Y 4 1 2 0xffff fresh_core fresh_core c2 [0; 0; 0]
    ltac:(lia) ltac:(lia) eq_refl eq_refl ltac:(repeat constructor)) as (buf' & E' & H).
  assert (buf' = buf) as -> by congruence.
  exact (H Hs 1 ltac:(lia)).
Defined.

(** ** Interleaving *)

Lemma flat_map_split {A} (f : A -> list Z) m l k x : (forall a, zlen (f a) = m) -> l !! k = Some x ->
  exists l1 l2, flat_map f l = l1 ++ f x ++ l2 /\ zlen l1 = Z.of_nat k * m.
Proof.
  intros Hm. revert k. induction l as [| a l IH]; intros [| k] E; cbn in E; try done.
  - injection E as ->. exists [], (flat_map f l). done.
  - destruct (IH k E) as (l1 & l2 & E1 & L1). exists (f a ++ l1), l2. cbn [flat_map].
    rewrite E1, <- app_assoc. split; [done |]. rewrite length_app, Nat2Z.inj_add, Hm. lia.
Qed.

Lemma length_flat_map {A} (f : A -> list Z) m l : (forall a, zlen (f a) = m) ->
  zlen (flat_map f l) = zlen l * m.
Proof.
  intros Hm. induction l as [| a l IH]; cbn [flat_map length]; [lia |].
  rewrite length_app, Nat2Z.inj_add, Hm, IH. lia.
Qed.

Lemma length_interleaved mem bc cc : 0 <= bc -> 0 <= cc -> zlen (interleaved mem bc cc) = bc * cc.
Proof.
  intros Hb Hc. unfold interleaved. rewrite (length_flat_map _ cc); rewrite ?length_seqZ; [lia |].
  intros a. rewrite length_map, length_seqZ. lia.
Qed.

Lemma interleaved_lookup mem bc cc i ch : 0 <= i < bc -> 0 <= ch < cc ->
  interleaved mem bc cc !! Z.to_nat (i * cc + ch) = Some (mem + ch * bc + i).
Proof.
  intros Hi Hch. unfold interleaved.
  destruct (flat_map_split (fun i => map (fun ch => mem + ch * bc + i) (seqZ 0 cc)) cc (seqZ 0 bc) (Z.to_nat i) i)
    as (l1 & l2 & -> & L).
  { intros a. rewrite length_map, length_seqZ. lia. }
  { rewrite lookup_seqZ_lt by lia. f_equal. lia. }
  rewrite lookup_app_r by nia. rewrite lookup_app_l by (rewrite length_map, length_seqZ; nia).
  rewrite list_lookup_fmap. replace (Z.to_nat (i * cc + ch) - length l1)%nat with (Z.to_nat ch) by nia.
  rewrite lookup_seqZ_lt by lia. cbn. f_equal. rewrite Z2Nat.id by lia. ring.
Qed.

(** An interleaved DMA transfer out of DSP memory fits the transfer buffer
    for every count word (low four bits: channels minus one, the others: samples
    per channel), and item number [i * channels + ch] of the buffer is sample [i]
    of channel [ch], read at [mem + ch * samples + i]. *)
Theorem dma_interleave c space mem count sz vs :
  (sz = 2 \/ sz = 4) -> 0 <= count ->
  let cc := (count .& 0xF) + 1 in
  let bc := count ≫ 4 in
  Forall2 (fun a v => dma_read c space a = Ok v) (interleaved mem bc cc) vs ->
  exists buf, gather c space sz (interleaved mem bc cc) 0 (replicate (Z.to_nat (count * sz)) 0) = Ok buf /\
    bc * cc * sz <= zlen buf /\
    forall i ch, 0 <= i < bc -> 0 <= ch < cc ->
      exists v, dma_read c space (mem + ch * bc + i) = Ok v /\
        slice buf ((i * cc + ch) * sz) sz = Ok (item_bytes sz v).
Proof.
  intros Hsz Hcount cc bc HF.
  assert (Hcc : cc = count mod 16 + 1) by (unfold cc; change 0xF with (Z.ones 4); by rewrite Z.land_ones by lia).
  assert (Hbc : bc = count / 16) by (unfold bc; by rewrite Z.shiftr_div_pow2 by lia).
  assert (Hlen : zlen (interleaved mem bc cc) = bc * cc)
    by (apply length_interleaved; rewrite ?Hbc, ?Hcc; Z.div_mod_to_equations; lia).
  assert (Hfit : bc * cc <= count) by (rewrite Hbc, Hcc; Z.div_mod_to_equations; nia).
  destruct (gather_app c space sz _ Hsz vs 0 [] (replicate (Z.to_nat (count * sz)) 0) HF) as (rest & E & L).
  { done. } { rewrite length_replicate. nia. }
  pose proof (Forall2_length _ _ _ HF) as Hvl. cbn [app] in E.
  assert (Hfl : zlen (flat_map (item_bytes sz) vs) = zlen vs * sz)
    by (apply length_flat_map; intros; by apply length_item_bytes).
  eexists. split; [exact E |]. split; [rewrite length_app; nia |].
  intros i ch Hi Hch. pose proof (interleaved_lookup mem bc cc i ch Hi Hch) as Hl.
  destruct (Forall2_lookup_l _ _ _ _ _ HF Hl) as (v & Hv & Hr). exists v. split; [done |].
  destruct (flat_map_split (item_bytes sz) sz vs _ v ltac:(intros; by apply length_item_bytes) Hv)
    as (l1 & l2 & -> & L1).
  replace ((i * cc + ch) * sz) with (zlen l1) by nia.
  rewrite <- (length_item_bytes sz v Hsz) at 2. rewrite <- !app_assoc. apply slice_app.
Qed.

Lemma dma_interleave_witness :
  let c := fresh_core <| yram := rset ∅ 9 0x123456 |> in
  exists buf, gather c DSP_SPACE_Y 4 (interleaved 7 2 2) 0 (replicate 132 0) = Ok buf /\
    exists v, dma_read c DSP_SPACE_Y (7 + 1 * 2 + 0) = Ok v /\
      slice buf ((0 * 2 + 1) * 4) 4 = Ok (item_bytes 4 v).
Proof.
  destruct (dma_interleave (fresh_core <| yram := rset ∅ 9 0x123456 |>) DSP_SPACE_Y 7 33 4
    [0; 0x123456; 0; 0] ltac:(by right) ltac:(lia) ltac:(repeat constructor)) as (buf & E & _ & H).
  exists buf. split; [exact E |]. exact (H 0 1 ltac:(vm_compute; intuition discriminate) ltac:(vm_compute; intuition discriminate)).
Defined.
