(* ===== verification/DspRun.v ===== *)
(** * Running the DSP's instruction set (mcpx/apu/dsp/dsp.c, dsp_cpu.c, dsp_emu.c.inc)

    The composition of the DSP of DspDma.v with the instructions of DspInstr.v:
    [dsp_run] with the real instruction set.  Every instruction takes at least two
    cycles and leaves the cycle budget alone, so that running for a number of
    cycles ends. *)

From stdpp Require Import base numbers list gmap strings.
From Stdlib Require Import ZArith Lia.
From S2P Require Import Prelude DspArith DspDecode DspCore DspAddr DspAlu DspMove DspInstr DspDma.

(** ** The clock of an instruction

    [instr_cycle] starts at 2 and grows by small constants; [within hi] bounds it
    in the state a run returns. *)

Class Ticks (A : Type) := ticking : Z -> A -> Prop.
#[export] Instance ticks_core : Ticks dsp_core := fun hi c => 2 <= instr_cycle c <= hi.
#[export] Instance ticks_pair {A B} `{Ticks B} : Ticks (A * B) := fun hi p => ticking hi p.2.

Definition within {A} `{Ticks A} (hi : Z) (m : outcome A) : Prop :=
  forall a, m = Ok a -> ticking hi a.

Lemma within_ok {A} `{Ticks A} hi (a : A) : ticking hi a -> within hi (Ok a).
Proof. by intros Ha a' [= <-]. Qed.

Lemma within_bind {A B} `{Ticks A, Ticks B} hi1 hi (m : outcome A) (f : A -> outcome B) :
  within hi1 m -> (forall a, ticking hi1 a -> within hi (f a)) -> within hi (m ≫= f).
Proof. intros Hm Hf b E. apply bind_ok in E as (a & Ea & E). by apply (Hf a (Hm a Ea)). Qed.

(** A value read on the side. *)
Lemma within_value {A B} `{Ticks B} hi (m : outcome A) (f : A -> outcome B) :
  (forall a, within hi (f a)) -> within hi (m ≫= f).
Proof. intros Hf b E. apply bind_ok in E as (a & Ea & E). by apply (Hf a). Qed.

Lemma ticking_mono hi hi' (c : dsp_core) : hi <= hi' -> ticking hi c -> ticking hi' c.
Proof. intros Hh [Hl Hc]. split; lia. Qed.

(** A core whose clock another core has. *)
Lemma ticking_eq hi (c c' : dsp_core) : instr_cycle c' = instr_cycle c -> ticking hi c -> ticking hi c'.
Proof. unfold ticking, ticks_core. by intros ->. Qed.

Lemma within_eq {A} hi (c : dsp_core) (m : outcome (A * dsp_core)) :
  ticking hi c -> (forall a c', m = Ok (a, c') -> instr_cycle c' = instr_cycle c) -> within hi m.
Proof. intros Hc Hm [a c'] E. exact (ticking_eq hi c c' (Hm a c' E) Hc). Qed.

Lemma ticking_add hi c n : ticking hi c -> 0 <= n -> hi + n < 2 ^ 16 -> ticking (hi + n) (add_cycles c n).
Proof.
  intros [Hl Hh] Hn Hb. unfold ticking, ticks_core in *. cbn. rewrite Z.mod_small; lia.
Qed.

(** Updates that keep the clock. *)
Section updates.
Context (hi : Z) (c : dsp_core) (Hc : ticking hi c).
Lemma tick_set_reg k v : ticking hi (set_reg c k v).
Proof. exact Hc. Qed.
Lemma tick_or_sr v : ticking hi (or_sr c v).
Proof. exact Hc. Qed.
Lemma tick_clear_sr v : ticking hi (clear_sr c v).
Proof. exact Hc. Qed.
Lemma tick_set_vc v : ticking hi (set_vc c v).
Proof. exact Hc. Qed.
Lemma tick_store_acc d a : ticking hi (store_acc c d a).
Proof. exact Hc. Qed.
Lemma tick_logic_nz d : ticking hi (logic_nz c d).
Proof. exact Hc. Qed.
Lemma tick_jump_to p : ticking hi (jump_to c p).
Proof. exact Hc. Qed.
Lemma tick_branch_by p : ticking hi (branch_by c p).
Proof. exact Hc. Qed.
Lemma tick_put_accu r v : ticking hi (put_accu c r v).
Proof. exact Hc. Qed.
Lemma tick_compute : ticking hi (dsp_compute_ssh_ssl c).
Proof. exact Hc. Qed.
Lemma tick_start_rep : ticking hi (start_rep c).
Proof. exact Hc. Qed.
Lemma tick_pc v : ticking hi (c <| pc := v |>).
Proof. exact Hc. Qed.
Lemma tick_len v : ticking hi (c <| cur_inst_len := v |>).
Proof. exact Hc. Qed.
Lemma tick_rep v : ticking hi (c <| loop_rep := v |>).
Proof. exact Hc. Qed.
Lemma tick_on_rep v : ticking hi (c <| pc_on_rep := v |>).
Proof. exact Hc. Qed.
Lemma tick_state v : ticking hi (c <| interrupt_state := v |>).
Proof. exact Hc. Qed.
Lemma tick_stack1 v : ticking hi (c <| stack1 := v |>).
Proof. exact Hc. Qed.
Lemma tick_pram v w : ticking hi (c <| pram := v |> <| pram_opcache := w |>).
Proof. exact Hc. Qed.
Lemma tick_xram v : ticking hi (c <| xram := v |>).
Proof. exact Hc. Qed.
Lemma tick_yram v : ticking hi (c <| yram := v |>).
Proof. exact Hc. Qed.
Lemma tick_mix v : ticking hi (c <| mixbuffer := v |>).
Proof. exact Hc. Qed.
Lemma tick_ccr a : ticking hi (ccr c a).
Proof. unfold ticking, ticks_core, ccr. by rewrite ccr_update_sr. Qed.
End updates.

(** The clock of a core, by the updates that made it. *)
Ltac tick :=
  repeat match goal with
  | H : ticking ?h ?c |- ticking ?h ?c => exact H
  | H : ticking _ ?c |- ticking _ ?c => refine (ticking_mono _ _ _ _ H); lia
  | |- ticking ?hi (add_cycles ?c ?n) =>
      replace hi with ((hi - n) + n) by lia; apply ticking_add; [| lia | lia]
  | |- ticking ?hi (?c <| instr_cycle := u16 (instr_cycle ?c + ?n) |>) => change (ticking hi (add_cycles c n))
  | |- ticking _ (set_reg _ _ _) => apply tick_set_reg
  | |- ticking _ (or_sr _ _) => apply tick_or_sr
  | |- ticking _ (clear_sr _ _) => apply tick_clear_sr
  | |- ticking _ (set_vc _ _) => apply tick_set_vc
  | |- ticking _ (store_acc _ _ _) => apply tick_store_acc
  | |- ticking _ (logic_nz _ _) => apply tick_logic_nz
  | |- ticking _ (jump_to _ _) => apply tick_jump_to
  | |- ticking _ (branch_by _ _) => apply tick_branch_by
  | |- ticking _ (put_accu _ _ _) => apply tick_put_accu
  | |- ticking _ (dsp_compute_ssh_ssl _) => apply tick_compute
  | |- ticking _ (start_rep _) => apply tick_start_rep
  | |- ticking _ (_ <| pc := _ |>) => apply tick_pc
  | |- ticking _ (_ <| cur_inst_len := _ |>) => apply tick_len
  | |- ticking _ (_ <| loop_rep := _ |>) => apply tick_rep
  | |- ticking _ (_ <| pc_on_rep := _ |>) => apply tick_on_rep
  | |- ticking _ (_ <| interrupt_state := _ |>) => apply tick_state
  | |- ticking _ (_ <| stack1 := _ |>) => apply tick_stack1
  | |- ticking _ (_ <| pram := _ |> <| pram_opcache := _ |>) => apply tick_pram
  | |- ticking _ (_ <| xram := _ |>) => apply tick_xram
  | |- ticking _ (_ <| yram := _ |>) => apply tick_yram
  | |- ticking _ (_ <| mixbuffer := _ |>) => apply tick_mix
  | |- ticking _ (ccr _ _) => apply tick_ccr
  | |- ticking ?hi (if ?b then _ else _) => destruct b
  | |- ticking ?hi (match ?x with _ => _ end) => destruct x
  | |- ticking ?hi (let c := ?x in @?f c) => change (ticking hi (f x)); cbv beta
  | |- @ticking (_ * _) _ ?hi (_, ?b) => change (ticking hi b)
  end.

Create HintDb ticks discriminated.
#[export] Hint Extern 1 (ticking _ _) => solve [tick] : ticks.

(** A call that returns a core: the bound it had, if the call is known to keep
    it, or a little more. *)
Ltac tick_bind :=
  match goal with
  | H : ticking ?hi _ |- _ =>
      first [ eapply (within_bind hi); [solve [eauto 3 with ticks] |]
            | is_var hi; eapply (within_bind hi)
            | let hi' := eval vm_compute in (hi + 120) in eapply (within_bind hi') ]
  end.

Ltac tick_norm :=
  repeat match goal with
  | H : @ticking (_ * _) _ ?hi (_, ?c) |- _ => change (ticking hi c) in H
  end.
Ltac tick_match := fail.
Ltac tick_step :=
  match goal with
  | |- within _ _ => solve [eauto 3 with ticks]
  | |- within _ (Ok _) => apply within_ok; tick
  | |- within _ AssertFail => intros ? [=]
  | |- within _ Undef => intros ? [=]
  | |- within ?hi (let c := ?x in @?f c) => change (within hi (f x)); cbv beta
  | |- within _ (if ?b then _ else _) => destruct b
  | |- within _ (@mbind _ _ dsp_core _ _ _) => tick_bind; [.. | intros]
  | |- within _ (@mbind _ _ (_ * dsp_core) _ _ _) => tick_bind; [.. | intros [? ?] ?; tick_norm]
  | |- within _ (@mbind _ _ _ _ _ _) => apply within_value; intros
  | |- within _ (match _ with _ => _ end) => tick_match
  | |- within _ (match ?x with _ => _ end) => destruct x
  end.
Ltac ticks := repeat tick_step.

Lemma push_ticks hi c p sr b : ticking hi c -> within hi (dsp_stack_push c p sr b).
Proof. intros Hc c' E. apply cycles_push in E. by apply (ticking_eq hi c). Qed.

Lemma pop_ticks hi c : ticking hi c -> within hi (dsp_stack_pop c).
Proof. intros Hc. apply (within_eq hi c); [done |]. intros [p sr] c' E. by apply cycles_pop in E. Qed.

Lemma add_interrupt_ticks hi c i : ticking hi c -> within hi (dsp56k_add_interrupt c i).
Proof. intros Hc c' E. apply cycles_add in E. by apply (ticking_eq hi c). Qed.
#[export] Hint Resolve push_ticks pop_ticks add_interrupt_ticks : ticks.

Lemma write_reg_ticks hi c k v : ticking hi c -> within hi (dsp_write_reg c k v).
Proof. intros Hc. unfold dsp_write_reg. ticks. Qed.
#[export] Hint Resolve write_reg_ticks : ticks.

#[export] Hint Extern 2 (_ <= _) => lia : ticks.
#[export] Hint Extern 2 (_ < _) => lia : ticks.

Lemma within_le {A} (hi hi' : Z) (m : outcome (A * dsp_core)) : hi <= hi' -> within hi m -> within hi' m.
Proof. intros Hh Hm [a c] E. destruct (Hm _ E). split; cbn in *; lia. Qed.

Lemma undefined_ticks hi hi' c : ticking hi c -> hi + 100 <= hi' -> hi' < 2 ^ 16 -> within hi' (emu_undefined c).
Proof. intros Hc Hhi Hb. unfold emu_undefined. ticks. Qed.

Lemma run_alu_ticks hi op c : ticking hi c -> op <> UNDEFINED -> within hi (run_alu op c).
Proof.
  intros Hc Hu. destruct op; try done; cbn [run_alu]; autounfold with alu; unfold emu_max, emu_tfr, clear_shift; ticks.
Qed.

Lemma parallel_alu_ticks hi hi' c : ticking hi c -> hi + 100 <= hi' -> hi' < 2 ^ 16 -> within hi' (parallel_alu c).
Proof.
  intros Hc Hhi Hb. apply within_value. intros op. destruct (decide (op = UNDEFINED)) as [-> | Hu].
  - by apply (undefined_ticks hi).
  - apply run_alu_ticks; [tick | done].
Qed.

Lemma update_rn_ticks hi c k m : ticking hi c -> within hi (emu_update_rn c k m).
Proof. intros Hc. unfold emu_update_rn, emu_update_rn_modulo, emu_update_rn_bitreverse. ticks. Qed.
#[export] Hint Resolve update_rn_ticks parallel_alu_ticks undefined_ticks : ticks.

Lemma calc_ea_ticks hi hi' c m : ticking hi c -> hi + 2 <= hi' -> hi' < 2 ^ 16 -> within hi' (emu_calc_ea c m).
Proof. intros Hc Hhi Hb. assert (Hc2 : ticking (hi + 2) (add_cycles c 2)) by tick. unfold emu_calc_ea. ticks. Qed.
#[export] Hint Resolve calc_ea_ticks : ticks.

Lemma accu24_ticks hi c k : ticking hi c -> ticking hi (emu_pm_read_accu24 c k).
Proof. intros Hc. unfold emu_pm_read_accu24. repeat case_match; tick. Qed.

Lemma read_source_ticks hi c k : ticking hi c -> ticking hi (read_source c k).
Proof.
  intros Hc. unfold read_source. destruct (_ || _); [| exact Hc].
  pose proof (accu24_ticks hi c k Hc) as H. by destruct (emu_pm_read_accu24 c k) as [[l v] c'].
Qed.

Lemma ok_source_ticks hi c k : ticking hi c -> within hi (Ok (read_source c k)).
Proof. intros Hc. by apply within_ok, read_source_ticks. Qed.
#[export] Hint Resolve ok_source_ticks : ticks.

Ltac name_ticks x lem :=
  match goal with
  | H : ticking ?hi ?c |- _ =>
      let Hx := fresh "Ht" in assert (Hx : ticking hi x) by (apply lem; tick); destruct x as [? ?]; tick_norm
  end.
Ltac tick_match ::=
  match goal with
  | |- within _ (match read_source ?c ?k with _ => _ end) => name_ticks (read_source c k) read_source_ticks
  | |- within _ (match emu_pm_read_accu24 ?c ?k with _ => _ end) => name_ticks (emu_pm_read_accu24 c k) accu24_ticks
  end.

Ltac head t := match t with ?f _ => head f | _ => t end.
Ltac open_head := match goal with |- within _ ?t => let f := head t in cbv delta [f]; cbv beta end.

Lemma next_word_ticks hi c : ticking hi c -> within hi (next_word c).
Proof. intros Hc. unfold next_word. ticks. Qed.
Lemma push_return_ticks hi c : ticking hi c -> within hi (push_return c).
Proof. intros Hc. unfold push_return. ticks. Qed.
Lemma push_loop_ticks hi c : ticking hi c -> within hi (push_loop c).
Proof. intros Hc. unfold push_loop. ticks. Qed.
#[export] Hint Resolve next_word_ticks push_return_ticks push_loop_ticks : ticks.
Lemma start_do_ticks hi c : ticking hi c -> within hi (start_do c).
Proof. intros Hc. unfold start_do. ticks. Qed.
Lemma start_dor_ticks hi c : ticking hi c -> within hi (start_dor c).
Proof. intros Hc. unfold start_dor. ticks. Qed.
#[export] Hint Resolve start_do_ticks start_dor_ticks : ticks.

Lemma lc_from_reg_ticks hi c : ticking hi c -> ticking hi (lc_from_reg c).
Proof.
  intros Hc. unfold lc_from_reg. pose proof (read_source_ticks hi c (inst_bits c 8 6) Hc) as H.
  destruct (read_source _ _) as [v c']. tick_norm. tick.
Qed.
#[export] Hint Extern 1 (ticking _ (lc_from_reg _)) => apply lc_from_reg_ticks; tick : ticks.

Lemma write_masked_ticks hi c k v : ticking hi c -> within hi (write_masked c k v).
Proof. intros Hc. unfold write_masked. ticks. Qed.
Lemma read_or_pop_ticks hi c k : ticking hi c -> within hi (read_or_pop c k).
Proof. intros Hc. unfold read_or_pop. ticks. Qed.
Lemma read_limit_ticks hi c k : ticking hi c -> within hi (read_limit_or_pop c k).
Proof. intros Hc. unfold read_limit_or_pop. ticks. Qed.
#[export] Hint Resolve write_masked_ticks read_or_pop_ticks read_limit_ticks : ticks.

Lemma core_functions_ticks : Forall (fun f => forall c, ticking 2 c -> within 2000 (f c))
  [emu_add_imm; emu_add_long; emu_sub_imm; emu_sub_long; emu_cmp_imm; emu_cmp_long; emu_cmpu; emu_dec; emu_inc;
   emu_and_imm; emu_and_long; emu_or_long; emu_andi; emu_ori; emu_mpyi; emu_lua; emu_lua_rel; emu_illegal; emu_reset;
   emu_nothing; emu_tcc; emu_div; emu_norm; emu_asl_imm; emu_asr_imm; emu_movec_reg; emu_movec_imm;
   emu_bcc_long; emu_bcc_imm; emu_bra_long; emu_bra_imm; emu_bsr_long; emu_bsr_imm; emu_jcc_imm; emu_jcc_ea;
   emu_jmp_imm; emu_jmp_ea; emu_jscc_imm; emu_jscc_ea; emu_jsr_imm; emu_jsr_ea; emu_rti; emu_rts;
   emu_do_imm; emu_do_reg; emu_dor_imm; emu_dor_reg; emu_enddo; emu_rep_imm; emu_rep_reg].
Proof. 
  repeat first [apply List.Forall_nil | apply List.Forall_cons; [intros c Hc; open_head |]]; unfold emu_add_x, emu_sub_x, emu_and_x, cmp_words; ticks; auto with ticks.
  all: repeat first [apply lc_from_reg_ticks | tick].
Qed.

Lemma lsl_imm_ticks c : ticking 2 c -> within 2000 (emu_lsl_imm c).
Proof.
  intros Hc. apply within_ok. change (ticking 2000 (Nat.iter (Z.to_nat (inst_bits c 1 5)) (emu_lsl (accum_of (inst_bits c 0 1))) c)).
  apply Nat.iter_invariant; [| tick]. intros c' Hc'. unfold emu_lsl, clear_shift. tick.
Qed.

(** ** The state around the core

    [saved] is what of it no instruction changes. *)
Class CycleFrame (S : Type) `{HasCoreLaws S} := {
  saved : S -> Z;
  saved_with : forall s c, saved (with_core s c) = saved s;
  periph_write_frame : forall s a v s', write_peripheral s a v = Ok s' ->
    saved s' = saved s /\ instr_cycle (core_of s') = instr_cycle (core_of s)
}.

Section states.
Context {S : Type} `{CycleFrame S}.
Variable budget : Z.

#[local] Instance ticks_state : Ticks S := fun hi s => saved s = budget /\ ticking hi (core_of s).

Lemma tick_with hi s c : saved s = budget -> ticking hi c -> ticking hi (with_core s c).
Proof. intros Hs Hc. split; [by rewrite saved_with | by rewrite core_with]. Qed.

Lemma write_memory_ticks hi (s : S) space a v : ticking hi s -> within hi (dsp56k_write_memory s space a v).
Proof.
  intros [Hs Hc]. unfold dsp56k_write_memory, write_memory_raw.
  apply within_value. intros _. apply within_value. intros _.
  destruct (space =? DSP_SPACE_X).
  - destruct (DSP_PERIPH_BASE <=? a).
    + intros s' E. apply periph_write_frame in E as [E1 E2]. split; [congruence | by apply (ticking_eq hi (core_of s))].
    + destruct (_ && _); [apply within_ok, tick_with; [done | tick] |].
      destruct (_ && _); [apply within_ok, tick_with; [done | tick] |].
      apply within_value. intros _. apply within_ok, tick_with; [done | tick].
  - destruct (space =? DSP_SPACE_Y); [apply within_value; intros _; apply within_ok, tick_with; [done | tick] |].
    destruct (space =? DSP_SPACE_P); [| by intros ? [=]].
    apply within_value; intros _; apply within_ok, tick_with; [done | tick].
Qed.
#[local] Hint Resolve write_memory_ticks : ticks.

(** States and cores of states. *)
Ltac tick_state :=
  repeat match goal with
  | H : @ticking S _ _ ?s |- _ => destruct H as [? ?]
  | |- @ticking S _ _ (with_core _ _) => apply tick_with; [try assumption; by rewrite ?saved_with |]
  | |- @ticking S _ _ (if ?b then _ else _) => destruct b
  | |- @ticking S _ _ _ => split; [assumption |]
  | |- ticking _ (core_of (with_core _ _)) => rewrite core_with
  | |- saved _ = budget => rewrite ?saved_with; assumption
  | |- ticking _ _ => progress tick
  end.
#[local] Hint Extern 1 (ticking _ _) => solve [tick_state] : ticks.

Ltac state_step :=
  match goal with
  | |- within _ _ => solve [eauto 3 with ticks]
  | |- within _ _ => progress rewrite ?core_with
  | |- within _ (Ok _) => apply within_ok; tick_state
  | |- within ?hi (@mbind _ _ S _ _ _) => tick_bind; [.. | intros ? [? ?]]
  | |- within ?hi (@mbind _ _ (_ * S) _ _ _) => tick_bind; [.. | intros [? ?] [? ?]; cbn [snd] in *]
  | |- _ => tick_step
  end.
Ltac states := repeat state_step.

Lemma pm_0_ticks s : ticking 2 s -> within 2000 (emu_pm_0 s).
Proof. intros [Hs Hc]. unfold emu_pm_0. states. Qed.

Lemma pm_1_ticks s : ticking 2 s -> within 2000 (emu_pm_1 s).
Proof. intros [Hs Hc]. unfold emu_pm_1. states. Qed.

Lemma write_dest_ticks hi c k v : ticking hi c -> ticking hi (write_dest c k v).
Proof. intros Hc. unfold write_dest. tick. Qed.
Lemma write_dest_masked_ticks hi c k v : ticking hi c -> within hi (write_dest_masked c k v).
Proof. intros Hc. unfold write_dest_masked. ticks. Qed.
Lemma write_long_ticks hi c k x y : ticking hi c -> ticking hi (write_long c k x y).
Proof. intros Hc. unfold write_long. tick. Qed.
Lemma read_long_ticks hi c k : ticking hi c -> within hi (Ok (read_long c k)).
Proof.
  intros Hc. apply within_ok. unfold read_long.
  repeat (match goal with
    | |- ticking _ (match emu_pm_read_accu24 ?c ?k with _ => _ end) => name_ticks (emu_pm_read_accu24 c k) accu24_ticks
    | |- ticking _ (if ?b then _ else _) => destruct b
    | |- ticking _ (match ?x with _ => _ end) => destruct x
    end; cbv beta iota); tick.
Qed.
#[local] Hint Resolve write_dest_masked_ticks read_long_ticks : ticks.
#[local] Hint Extern 1 (ticking _ (write_dest _ _ _)) => apply write_dest_ticks; tick_state : ticks.
#[local] Hint Extern 1 (ticking _ (write_long _ _ _ _)) => apply write_long_ticks; tick_state : ticks.

Lemma parmove_ticks i s : ticking 2 s -> within 2000 (opcodes_parmove i s).
Proof.
  intros [Hs Hc]. pose proof pm_0_ticks as H3. pose proof pm_1_ticks as H4.
  assert (H5 : within 2000 (emu_pm_2 s)) by (unfold emu_pm_2, emu_pm_2_2, emu_pm_3; states).
  assert (H6 : within 2000 (emu_pm_3 s)) by (unfold emu_pm_3; states).
  assert (H7 : within 2000 (emu_pm_5 s)) by (unfold emu_pm_5; states).
  assert (H8 : within 2000 (emu_pm_4x s)) by (unfold emu_pm_4x; states; auto with ticks).
  assert (H9 : within 2000 (emu_pm_4 s)) by (unfold emu_pm_4; by destruct (_ =? _)).
  assert (H10 : within 2000 (emu_pm_8 s)) by (unfold emu_pm_8; states; auto with ticks).
  unfold opcodes_parmove. repeat case_match; first [assumption | by apply H3 | by apply H4].
Qed.

(** ** Operands in memory *)

Lemma locate_ticks hi hi' f s : ticking hi s -> hi + 2 <= hi' -> hi' < 2 ^ 16 -> within hi' (locate f s).
Proof.
  intros [Hs Hc] Hhi Hb. unfold locate. destruct f; try (apply within_ok; split; [done | tick]).
  eapply (within_bind hi'); [eauto with ticks |]. intros [[r a] c] Hca. tick_norm. apply within_ok. by apply tick_with.
Qed.

Lemma read_loc_ticks hi l s : ticking hi s -> within hi (read_loc l s).
Proof.
  intros [Hs Hc]. unfold read_loc. destruct l; [apply within_value; intros v; by apply within_ok |].
  name_ticks (read_source (core_of s) numreg) read_source_ticks. apply within_ok. by apply tick_with.
Qed.

Lemma write_loc_ticks hi l v s : ticking hi s -> within hi (write_loc l v s).
Proof. intros Hs. unfold write_loc. destruct l; [by apply write_memory_ticks | destruct Hs; states]. Qed.
#[local] Hint Resolve read_loc_ticks write_loc_ticks : ticks.
#[local] Hint Extern 1 (within ?hi' (locate _ _)) =>
  match goal with H : ticking ?h _ |- _ => apply (locate_ticks h hi'); [solve [tick_state] | lia | lia] end : ticks.

Lemma bit_modify_ticks g f s : ticking 2 s -> within 2000 (bit_modify g f s).
Proof. intros [Hs Hc]. unfold bit_modify, map_core, set_carry. states. Qed.

Lemma memory_functions_ticks f s : ticking 2 s -> Forall (within 2000)
  [emu_btst f s; emu_do_mem f s; emu_rep_mem f s; emu_movec_aa s; emu_movec_ea s; emu_movem_aa s; emu_movem_ea s;
   emu_movep_0 s; emu_movep_1 s; emu_movep_23 s; emu_movep_x_qq s; emu_move_x_long s; emu_move_xy_imm DSP_SPACE_X s;
   emu_move_xy_imm DSP_SPACE_Y s].
Proof.
  intros [Hs Hc]. unfold emu_btst, emu_do_mem, emu_rep_mem, emu_movec_aa, emu_movec_ea, emu_movem_aa, emu_movem_ea,
    emu_movep_0, emu_movep_1, emu_movep_23, emu_movep_x_qq, emu_move_x_long, emu_move_xy_imm, move_p, move_periph,
    move_displaced, map_core, set_carry.
  repeat first [apply List.Forall_nil | apply List.Forall_cons; [states |]].
Qed.

Lemma bit_jump_ticks want sub f s : ticking 2 s -> within 2000 (bit_jump want sub f s).
Proof. intros [Hs Hc]. unfold bit_jump. states. Qed.

Lemma bit_branch_ticks want f s : ticking 2 s -> within 2000 (bit_branch want f s).
Proof. intros [Hs Hc]. unfold bit_branch. states. Qed.

Lemma on_core_ticks f s : (forall c, ticking 2 c -> within 2000 (f c)) -> ticking 2 s -> within 2000 (on_core f s).
Proof.
  intros Hf [Hs Hc]. unfold on_core. eapply (within_bind 2000); [by apply Hf |].
  intros c Hc'. apply within_ok. by apply tick_with.
Qed.

Lemma functions_ticks : Forall (fun p => forall s, ticking 2 s -> within 2000 (p.2 s)) (emu_functions (S := S)).
Proof.
  assert (Hcore := proj1 (List.Forall_forall _ _) core_functions_ticks).
  assert (Hmem : forall f s, ticking 2 s -> forall m, In m _ -> within 2000 m)
    by (intros f s Hs; exact (proj1 (List.Forall_forall _ _) (memory_functions_ticks f s Hs))).
  repeat first [apply List.Forall_nil | apply List.Forall_cons; [intros s Hs; cbn [snd] |]].
  all: try (apply on_core_ticks; [intros c Hc | exact Hs]).
  all: try (apply Hcore; [repeat first [left; reflexivity | right] | exact Hc]; fail).
  all: try (by apply lsl_imm_ticks).
  all: try (by apply bit_modify_ticks).
  all: try (by apply bit_jump_ticks).
  all: try (by apply bit_branch_ticks).
  all: match goal with
    | Hs : ticking 2 ?s |- within _ (?g ?f ?s) => match type of f with operand => apply (Hmem f s Hs) end
    | Hs : ticking 2 ?s |- _ => apply (Hmem AA s Hs)
    end; repeat first [left; reflexivity | right].
Qed.

Lemma emu_ticks name s : ticking 2 s -> within 2000 (emu name s).
Proof.
  intros Hs. unfold emu. destruct (List.find _ _) as [[n f] |] eqn:E; [| by intros ? [=]].
  apply List.find_some in E as [Hin _]. by apply (proj1 (List.Forall_forall _ _) functions_ticks (n, f) Hin).
Qed.


(** One instruction of the driver. *)
Lemma instruction_ticks s cache s' cache' : saved s = budget -> dsp_instruction s cache = Ok (s', cache') ->
  saved s' = budget /\ 2 <= instr_cycle (core_of s').
Proof.
  intros Hs E. unfold dsp_instruction, dsp56k_execute_instruction in E.
  apply bind_ok in E as (inst & _ & E). apply bind_ok in E as ([s1 cache1] & E1 & E).
  apply bind_ok in E as (c2 & E2 & E). apply bind_ok in E as (c3 & E3 & E).
  apply ok_pair_inj in E as [<- _]. apply cycles_post_pc in E2. apply cycles_post in E3.
  rewrite saved_with, core_with. cbn [instr_cycle set].
  enough (H5 : ticking 2000 s1) by (destruct H5 as [? [? _]]; split; [done | lia]).
  revert E1. cbv zeta. set (c0 := _ <| instr_cycle := 2 |>). intros E1.
  assert (H0' : forall s c, saved s = budget -> instr_cycle c = 2 -> ticking 2 (with_core s c))
    by (intros; apply tick_with; [done | split; lia]).
  destruct (cur_inst c0 <? 0x100000).
  - apply bind_ok in E1 as ([[op c1] cache2] & E1 & E4). apply bind_ok in E4 as (s2 & E4 & E5).
    apply ok_pair_inj in E5 as [<- _].
    assert (Hc1 : instr_cycle c1 = 2).
    { unfold fetch_opcode in E1. destruct (pram_opcache c0 !! pc c0); [by simplify_eq |].
      apply bind_ok in E1 as ([? ?] & _ & E1). by simplify_eq. }
    unfold run_entry in E4. destruct (nonparallel_opcodes !! op) as [e |]; [| done].
    destruct (op_emu e) as [f |]; [by apply (emu_ticks f (with_core s c1)); [apply H0' |] |].
    apply (on_core_ticks emu_undefined (with_core s c1)); [| by apply H0' | done].
    intros c Hc. by apply (undefined_ticks 2).
  - apply bind_ok in E1 as (s2 & E4 & E5). apply ok_pair_inj in E5 as [<- _].
    exact (parmove_ticks _ (with_core s c0) (H0' s c0 Hs eq_refl) s2 E4).
Qed.
End states.

(** ** The DSP *)

Section dsp.
Context {W : Type} `{DspIO W}.
Variable fuel : nat.

Lemma dma_write_clock c space a v c' : dma_write c space a v = Ok c' -> instr_cycle c' = instr_cycle c.
Proof.
  unfold dma_write, dsp56k_write_memory, write_memory_raw. intros E.
  apply bind_ok in E as (? & _ & E). apply bind_ok in E as (? & _ & E). cbn in E.
  repeat match type of E with
  | (if ?b then _ else _) = _ => destruct b
  | (_ ≫= _) = _ => apply bind_ok in E as (? & _ & E)
  end; first [discriminate E | injection E as <-; reflexivity].
Qed.

Lemma scatter_clock c space sz mask mem n : forall c0 i buf c', instr_cycle c0 = instr_cycle c ->
  scatter c0 space sz mask mem n i buf = Ok c' -> instr_cycle c' = instr_cycle c.
Proof.
  induction n as [| n IH]; intros c0 i buf c' Hc E; cbn [scatter] in E; [by injection E as <- |].
  apply bind_ok in E as (bs & _ & E). apply bind_ok in E as (c1 & E1 & E).
  apply dma_write_clock in E1. eapply IH; [| exact E]. congruence.
Qed.

Lemma dma_block_clock s c w s' c' w' : dma_block s c w = Ok (s', c', w') -> instr_cycle c' = instr_cycle c.
Proof.
  unfold dma_block. intros E.
  apply bind_ok in E as ([bs ba] & _ & E). apply bind_ok in E as (b & _ & E). cbv zeta in E.
  apply bind_ok in E as (? & _ & E). apply bind_ok in E as (? & _ & E).
  apply bind_ok in E as ([isz im] & _ & E). apply bind_ok in E as ([ms ma] & _ & E).
  apply bind_ok in E as ([[off c1] w1] & E1 & E). apply bind_ok in E as (c2 & E2 & E).
  assert (H1 : instr_cycle c1 = instr_cycle c).
  { destruct (flag (b_control b) NODE_CONTROL_DIRECTION).
    - apply bind_ok in E1 as ([? ?] & _ & E1). congruence.
    - unfold transfer_in in E1. apply bind_ok in E1 as (? & _ & E1). cbv zeta in E1.
      apply bind_ok in E1 as ([[buf o] w2] & _ & E1). apply bind_ok in E1 as (c3 & E3 & E1).
      apply (scatter_clock c) in E3; [congruence | done]. }
  assert (H2 : instr_cycle c2 = instr_cycle c1)
    by (destruct (flag (b_control b ≫ 4) 1); [by apply dma_write_clock in E2 | congruence]).
  congruence.
Qed.

Lemma dma_loop_clock n : forall s c w s' c' w', dma_loop n s c w = Ok (s', c', w') -> instr_cycle c' = instr_cycle c.
Proof.
  induction n as [| n IH]; intros s c w s' c' w' E; cbn [dma_loop] in E;
    destruct (flag _ NODE_POINTER_EOL); try congruence.
  apply bind_ok in E as ([[s1 c1] w1] & E1 & E). apply dma_block_clock in E1. apply IH in E. congruence.
Qed.

Lemma periph_dma_clock d r v d' : periph_dma_write fuel d r v = Ok d' ->
  save_cycles d' = save_cycles d /\ instr_cycle (dsp_cpu d') = instr_cycle (dsp_cpu d).
Proof.
  unfold periph_dma_write. intros E. apply bind_ok in E as ([[s c] w] & E1 & E). injection E as <-. split; [done |].
  cbn [dsp_cpu set]. change (instr_cycle c = instr_cycle (dsp_cpu d)).
  unfold dsp_dma_write in E1. destruct r; try congruence.
  apply bind_ok in E1 as (s1 & _ & E1). unfold dsp_dma_run in E1. destruct (_ || _); [congruence |].
  by apply dma_loop_clock in E1.
Qed.

#[local] Instance dsp_core_here : HasCore (DSPState W) := dsp_has_core fuel.
#[local] Instance dsp_laws_here : HasCoreLaws (DSPState W) := dsp_has_core_laws fuel.

Lemma write_periph_clock (d : DSPState W) a v d' : write_peripheral d a v = Ok d' ->
  save_cycles d' = save_cycles d /\ instr_cycle (dsp_cpu d') = instr_cycle (dsp_cpu d).
Proof.
  cbn. unfold write_periph.
  repeat match goal with |- (if ?b then _ else _) = _ -> _ => destruct b end;
    try (by apply periph_dma_clock); intros [= <-]; first [done | by case_match].
Qed.

#[export] Instance dsp_cycle_frame : CycleFrame (DSPState W) := {|
  saved := save_cycles; saved_with := fun _ _ => eq_refl; periph_write_frame := write_periph_clock
|}.

(** [dsp_run] with the instructions of the DSP. *)
Definition dsp_run_program : nat -> DSPState W -> opcache_t -> Z -> outcome (DSPState W * opcache_t) :=
  dsp_run fuel emu (on_core emu_undefined) opcodes_parmove.

(** The states in which the loop starts an instruction. *)
Inductive starts : DSPState W -> opcache_t -> Z -> DSPState W -> opcache_t -> Prop :=
  | starts_here d cache timer : 0 < save_cycles d -> starts d cache timer d cache
  | starts_next d cache timer d1 cache1 d2 d3 timer3 d' cache' :
      0 < save_cycles d -> dsp_instruction d cache = Ok (d1, cache1) ->
      d2 = d1 <| save_cycles := save_cycles d1 - instr_cycle (dsp_cpu d1) |>
              <| dsp_cpu := (dsp_cpu d1) <| cycle_count := u32 (cycle_count (dsp_cpu d1) + 1) |> |> ->
      dma_tick d2 timer = (d3, timer3) -> is_idle (dsp_cpu d3) = false ->
      starts d3 cache1 timer3 d' cache' -> starts d cache timer d' cache'.

(** C12: The DSP's run loop ends, with the instruction set it has: every
    instruction costs at least two cycles of the budget, so that running for a
    number of cycles takes at most half as many rounds, unless one of the
    instructions it starts does not return (a DMA transfer whose chain of blocks
    has no end). *)
Theorem dsp_run_program_ends n d cache cycles :
  (forall d' cache', starts (d <| save_cycles := save_cycles d + cycles |>) cache 0 d' cache' ->
     dsp_instruction d' cache' <> NoFuel) ->
  save_cycles d + cycles <= 2 * Z.of_nat n ->
  dsp_run_program n d cache cycles <> NoFuel.
Proof.
  unfold dsp_run_program, dsp_run. generalize 0. intros timer.
  set (d0 := d <| save_cycles := _ |>). intros Hi Hn. change (save_cycles d + cycles) with (save_cycles d0) in Hn.
  clearbody d0. clear d cycles. revert d0 cache timer Hi Hn.
  induction n as [| n IH]; intros d cache timer Hi Hn; cbn [run_loop];
    destruct (Z.leb_spec (save_cycles d) 0) as [| Hpos]; try done; [lia |].
  change (dsp56k_execute_instruction emu (on_core emu_undefined) opcodes_parmove d cache) with (dsp_instruction d cache).
  destruct (dsp_instruction d cache) as [[d1 cache1] | | |] eqn:E; try done.
  2: { exfalso. apply (Hi d cache); [by apply starts_here | done]. }
  assert (Hs0 : saved d = save_cycles d) by reflexivity.
  destruct (instruction_ticks (save_cycles d) d cache d1 cache1 Hs0 E) as [Es Ec].
  change (saved d1) with (save_cycles d1) in Es. change (core_of d1) with (dsp_cpu d1) in Ec.
  cbn [mbind outcome_bind]. set (d2 := _ <| dsp_cpu := _ |>).
  assert (Hd2 : save_cycles d2 = save_cycles d - instr_cycle (dsp_cpu d1)) by (cbn; lia).
  destruct (dma_tick d2 timer) as [d3 timer3] eqn:Et.
  assert (Hd3 : save_cycles d3 = save_cycles d2)
    by (unfold dma_tick in Et; destruct (2 <? _); injection Et as <- <-; done).
  destruct (is_idle (dsp_cpu d3)) eqn:Eidle; [done |]. apply IH; [| lia].
  intros d' cache' Hst. apply (Hi d' cache'). by eapply starts_next.
Qed.
End dsp.

#[local] Existing Instance array_io.

(** Two instructions of an empty program memory. *)
Definition idle_dsp : DSPState (list Z) := mkDSP fresh_core (mkDMA 0 0 0 0 false false) 0 0 [].

Lemma starts_inv {W} `{DspIO W} fuel (d : DSPState W) cache timer d' cache' : starts fuel d cache timer d' cache' ->
  0 < save_cycles d /\ ((d', cache') = (d, cache) \/
    match dsp_instruction (H := dsp_core_here fuel) d cache with
    | Ok (d1, cache1) =>
        let d2 := d1 <| save_cycles := save_cycles d1 - instr_cycle (dsp_cpu d1) |>
                     <| dsp_cpu := (dsp_cpu d1) <| cycle_count := u32 (cycle_count (dsp_cpu d1) + 1) |> |> in
        starts fuel (dma_tick d2 timer).1 cache1 (dma_tick d2 timer).2 d' cache'
    | _ => False
    end).
Proof.
  destruct 1 as [d cache timer Hs | d cache timer d1 cache1 d2 d3 timer3 d' cache' Hs E -> Et Hi Hst]; (split; [done |]).
  - by left.
  - right. rewrite E. cbv zeta. by rewrite Et.
Qed.

Lemma idle_dsp_starts d' cache' : starts 0 (idle_dsp <| save_cycles := save_cycles idle_dsp + 4 |>) ∅ 0 d' cache' ->
  dsp_instruction (H := dsp_core_here 0) d' cache' <> NoFuel.
Proof.
  intros H. apply starts_inv in H as [_ [[= -> ->] | H]]; [vm_compute; discriminate |].
  vm_compute in H. apply starts_inv in H as [_ [[= -> ->] | H]]; [vm_compute; discriminate |].
  vm_compute in H. apply starts_inv in H as [H _]. vm_compute in H. discriminate H.
Qed.

Lemma dsp_run_program_ends_witness : dsp_run_program 0 2 idle_dsp ∅ 4 <> NoFuel.
Proof.
  exact (dsp_run_program_ends 0 2 idle_dsp ∅ 4 idle_dsp_starts ltac:(vm_compute; discriminate)).
Defined.
