(* ===== verification/GpEp.v ===== *)
(** * The APU's global and encode processors (mcpx/apu/dsp/gp_ep.c)

    The two DSPs share guest RAM and the APU's registers.  Their scratch space
    and FIFOs live in guest RAM behind scatter-gather tables of 4 KiB pages;
    [scatter_gather_rw] and [circular_scatter_gather_rw] implement the interface
    [DspIO] of the DMA engine, once for each processor.  The rest of the file is
    their MMIO windows, their reset and the per-frame driver. *)

From stdpp Require Import base numbers list gmap strings.
From Stdlib Require Import ZArith Lia.
From S2P Require Import Prelude DspArith DspDecode DspCore DspDma.

Abbreviation TARGET_PAGE_SIZE := 4096.

Abbreviation NV_PAPU_GPSADDR := 0x2040.
Abbreviation NV_PAPU_GPFADDR := 0x2044.
Abbreviation NV_PAPU_EPSADDR := 0x2048.
Abbreviation NV_PAPU_EPFADDR := 0x204C.
Abbreviation NV_PAPU_GPSMAXSGE := 0x20D4.
Abbreviation NV_PAPU_GPFMAXSGE := 0x20D8.
Abbreviation NV_PAPU_EPSMAXSGE := 0x20DC.
Abbreviation NV_PAPU_EPFMAXSGE := 0x20E0.
Abbreviation NV_PAPU_GPOFBASE0 := 0x3024.
Abbreviation NV_PAPU_GPOFEND0 := 0x3028.
Abbreviation NV_PAPU_GPOFCUR0 := 0x302C.
Abbreviation NV_PAPU_GPIFBASE0 := 0x3064.
Abbreviation NV_PAPU_GPIFEND0 := 0x3068.
Abbreviation NV_PAPU_GPIFCUR0 := 0x306C.
Abbreviation NV_PAPU_EPOFBASE0 := 0x4024.
Abbreviation NV_PAPU_EPOFEND0 := 0x4028.
Abbreviation NV_PAPU_EPOFCUR0 := 0x402C.
Abbreviation NV_PAPU_EPIFBASE0 := 0x4064.
Abbreviation NV_PAPU_EPIFEND0 := 0x4068.
Abbreviation NV_PAPU_EPIFCUR0 := 0x406C.
Abbreviation FIFO_VALUE := 0x00FFFFFF.
Abbreviation OUTPUT_FIFO_COUNT := 4.
Abbreviation INPUT_FIFO_COUNT := 2.
Abbreviation GP_DSP_MIXBUF_BASE := 0x001400.
Abbreviation NV_PAPU_GPXMEM := 0x0000.
Abbreviation NV_PAPU_GPMIXBUF := 0x5000.
Abbreviation NV_PAPU_GPYMEM := 0x6000.
Abbreviation NV_PAPU_GPPMEM := 0xA000.
Abbreviation NV_PAPU_GPRST := 0xFFFC.
Abbreviation NV_PAPU_GPRST_GPRST := 1.
Abbreviation NV_PAPU_GPRST_GPDSPRST := 2.

(** Where the monitor taps the audio (apu_debug.h). *)
Inductive monitor_point := MON_AC97 | MON_VP | MON_GP | MON_EP | MON_GP_OR_EP.

(** What the two processors share: guest RAM, the APU registers, the monitor. *)
Record apu_io := mkApuIO {
  io_ram : list Z;
  io_regs : gmap Z Z;
  io_monitor : monitor_point;
  io_frame_buf : list Z
}.

#[export] Instance eta_apu_io : Eta apu_io := fun d =>
  mkApuIO (io_ram d) (io_regs d) (io_monitor d) (io_frame_buf d).

Section gp_ep.
(** [ldl_le_phys(&address_space_memory, addr)], on guest memory. *)
Variable ldl_le_phys : list Z -> Z -> Z.

(** ** Scatter-gather *)

(** The loop of [scatter_gather_rw]: [ptr] is the index of the next byte of the
    caller's buffer. *)
Fixpoint sg_loop (fuel : nat) (ram : list Z) (sge_base max_sge : Z) (buf : list Z)
    (ptr page_entry offset_in_page bytes_to_copy len : Z) (dir : bool) : outcome (list Z * list Z) :=
  if len <=? 0 then Ok (buf, ram) else
  match fuel with
  | O => NoFuel
  | S fuel =>
      c_assert (page_entry <=? max_sge) ;;
      let prd_address := ldl_le_phys ram (u64 (sge_base + u32 (page_entry * 8))) in
      let paddr := u32 (prd_address + offset_in_page) in
      let bytes_to_copy := if len <? bytes_to_copy then len else bytes_to_copy in
      c_assert (paddr + bytes_to_copy <? zlen ram) ;;
      '(buf, ram) ←
        (if dir then
           src ← slice buf ptr bytes_to_copy;
           ram ← blit ram paddr src; Ok (buf, ram)
         else
           src ← slice ram paddr bytes_to_copy;
           buf ← blit buf ptr src; Ok (buf, ram));
      sg_loop fuel ram sge_base max_sge buf (ptr + bytes_to_copy) (u32 (page_entry + 1)) 0
        TARGET_PAGE_SIZE (len - bytes_to_copy) dir
  end.

(** Every round copies at least one byte. *)
Definition scatter_gather_rw (d : apu_io) (sge_base max_sge : Z) (buf : list Z) (addr : Z) (dir : bool)
    : outcome (list Z * apu_io) :=
  let page_entry := addr / TARGET_PAGE_SIZE in
  let offset_in_page := addr mod TARGET_PAGE_SIZE in
  let bytes_to_copy := TARGET_PAGE_SIZE - offset_in_page in
  '(buf, ram) ← sg_loop (length buf) (io_ram d) sge_base max_sge buf 0 page_entry offset_in_page
                  bytes_to_copy (zlen buf) dir;
  Ok (buf, d <| io_ram := ram |>).

Definition gp_scratch_rw (d : apu_io) (buf : list Z) (addr : Z) (dir : bool) : outcome (list Z * apu_io) :=
  scatter_gather_rw d (rget (io_regs d) NV_PAPU_GPSADDR) (rget (io_regs d) NV_PAPU_GPSMAXSGE) buf addr dir.

Definition ep_scratch_rw (d : apu_io) (buf : list Z) (addr : Z) (dir : bool) : outcome (list Z * apu_io) :=
  scatter_gather_rw d (rget (io_regs d) NV_PAPU_EPSADDR) (rget (io_regs d) NV_PAPU_EPSMAXSGE) buf addr dir.

(** Returns the buffer, the APU and the new [cur]. *)
Fixpoint circular_sg_loop (fuel : nat) (d : apu_io) (sge_base max_sge : Z) (buf : list Z)
    (ptr base end_ cur len : Z) (dir : bool) : outcome (list Z * apu_io * Z) :=
  if len <=? 0 then Ok (buf, d, cur) else
  match fuel with
  | O => NoFuel
  | S fuel =>
      let bytes_to_copy := u32 (end_ - cur) in
      let bytes_to_copy := if len <? bytes_to_copy then len else bytes_to_copy in
      c_assert ((base <=? cur) && (u32 (cur + bytes_to_copy) <=? end_)) ;;
      chunk ← slice buf ptr bytes_to_copy;
      '(chunk, d) ← scatter_gather_rw d sge_base max_sge chunk cur dir;
      buf ← blit buf ptr chunk;
      let cur := u32 (cur + bytes_to_copy) in
      cur ← (if end_ <=? cur then c_assert (cur =? end_) ;; Ok base else Ok cur);
      circular_sg_loop fuel d sge_base max_sge buf (ptr + bytes_to_copy) base end_ cur
        (len - bytes_to_copy) dir
  end.

Definition circular_scatter_gather_rw (d : apu_io) (sge_base max_sge : Z) (buf : list Z)
    (base end_ cur : Z) (dir : bool) : outcome (list Z * apu_io * Z) :=
  circular_sg_loop (length buf) d sge_base max_sge buf 0 base end_ cur (zlen buf) dir.

(** ** FIFOs *)

Definition gp_fifo_rw (d : apu_io) (buf : list Z) (index : Z) (dir : bool) : outcome (list Z * apu_io) :=
  '(base, end_, cur_reg) ←
    (if dir then
       c_assert (index <? OUTPUT_FIFO_COUNT) ;;
       Ok (GET_MASK (rget (io_regs d) (NV_PAPU_GPOFBASE0 + 0x10 * index)) FIFO_VALUE,
           GET_MASK (rget (io_regs d) (NV_PAPU_GPOFEND0 + 0x10 * index)) FIFO_VALUE,
           NV_PAPU_GPOFCUR0 + 0x10 * index)
     else
       c_assert (index <? INPUT_FIFO_COUNT) ;;
       Ok (GET_MASK (rget (io_regs d) (NV_PAPU_GPIFBASE0 + 0x10 * index)) FIFO_VALUE,
           GET_MASK (rget (io_regs d) (NV_PAPU_GPIFEND0 + 0x10 * index)) FIFO_VALUE,
           NV_PAPU_GPIFCUR0 + 0x10 * index));
  let cur := GET_MASK (rget (io_regs d) cur_reg) FIFO_VALUE in
  c_assert (cur <? end_) ;;
  let cur := if cur <? base then base else cur in
  '(buf, d, cur) ← circular_scatter_gather_rw d (rget (io_regs d) NV_PAPU_GPFADDR)
                     (rget (io_regs d) NV_PAPU_GPFMAXSGE) buf base end_ cur dir;
  Ok (buf, d <| io_regs := rset (io_regs d) cur_reg (SET_MASK (rget (io_regs d) cur_reg) FIFO_VALUE cur) |>).

(** Whether the samples were sunk, and the APU with the monitor's frame. *)
Definition ep_sink_samples (d : apu_io) (buf : list Z) : outcome (bool * apu_io) :=
  match io_monitor d with
  | MON_AC97 => Ok (false, d)
  | MON_EP | MON_GP_OR_EP =>
      c_assert (zlen buf =? zlen (io_frame_buf d)) ;;
      Ok (true, d <| io_frame_buf := buf |>)
  | _ => Ok (true, d)
  end.

Definition ep_fifo_rw (d : apu_io) (buf : list Z) (index : Z) (dir : bool) : outcome (list Z * apu_io) :=
  '(base, end_, cur_reg) ←
    (if dir then
       c_assert (index <? OUTPUT_FIFO_COUNT) ;;
       Ok (GET_MASK (rget (io_regs d) (NV_PAPU_EPOFBASE0 + 0x10 * index)) FIFO_VALUE,
           GET_MASK (rget (io_regs d) (NV_PAPU_EPOFEND0 + 0x10 * index)) FIFO_VALUE,
           NV_PAPU_EPOFCUR0 + 0x10 * index)
     else
       c_assert (index <? INPUT_FIFO_COUNT) ;;
       Ok (GET_MASK (rget (io_regs d) (NV_PAPU_EPIFBASE0 + 0x10 * index)) FIFO_VALUE,
           GET_MASK (rget (io_regs d) (NV_PAPU_EPIFEND0 + 0x10 * index)) FIFO_VALUE,
           NV_PAPU_EPIFCUR0 + 0x10 * index));
  let cur := GET_MASK (rget (io_regs d) cur_reg) FIFO_VALUE in
  '(ptr, d) ←
    (if dir && (index =? 0) then
       '(did_sink, d) ← ep_sink_samples d buf;
       if did_sink : bool then c_assert (zlen buf <=? 1024) ;; Ok (replicate (length buf) 0, d)
       else Ok (buf, d)
     else Ok (buf, d));
  cur ← (if end_ <=? cur then
           if u32 (end_ - base) =? 0 then Undef else Ok (cur mod u32 (end_ - base))
         else Ok cur);
  let cur := if cur <? base then base else cur in
  '(ptr, d, cur) ← circular_scatter_gather_rw d (rget (io_regs d) NV_PAPU_EPFADDR)
                     (rget (io_regs d) NV_PAPU_EPFMAXSGE) ptr base end_ cur dir;
  Ok (if dir then buf else ptr,
      d <| io_regs := rset (io_regs d) cur_reg (SET_MASK (rget (io_regs d) cur_reg) FIFO_VALUE cur) |>).

(** The interface of the DMA engine, for each processor. *)
Definition gp_io : DspIO apu_io := {| scratch_rw := gp_scratch_rw; fifo_rw := gp_fifo_rw |}.
Definition ep_io : DspIO apu_io := {| scratch_rw := ep_scratch_rw; fifo_rw := ep_fifo_rw |}.

(** ** MMIO *)

(** A processor without the world it shares with the other one. *)
Abbreviation DSP := (DSPState unit).

Definition attach (p : DSP) (w : apu_io) : DSPState apu_io :=
  mkDSP (dsp_cpu p) (dsp_dma p) (save_cycles p) (dsp_interrupts p) w.

Definition detach (d : DSPState apu_io) : DSP * apu_io :=
  (mkDSP (dsp_cpu d) (dsp_dma d) (save_cycles d) (dsp_interrupts d) (), dsp_world d).

Record MCPXAPU := mkApu {
  apu : apu_io;
  gp_dsp : DSP;
  gp_regs : gmap Z Z;
  gp_realtime : bool;
  ep_dsp : DSP;
  ep_regs : gmap Z Z;
  ep_realtime : bool;
  ep_frame_div : Z
}.

#[local] Instance eta_MCPXAPU : Eta MCPXAPU := fun d =>
  mkApu (apu d) (gp_dsp d) (gp_regs d) (gp_realtime d) (ep_dsp d) (ep_regs d) (ep_realtime d)
    (ep_frame_div d).

Variable dma_fuel : nat.

(** Run an operation of the GP or of the EP on the shared world. *)
Definition on_gp (d : MCPXAPU) (f : DSPState apu_io -> outcome (DSPState apu_io)) : outcome MCPXAPU :=
  p ← f (attach (gp_dsp d) (apu d));
  let '(p, w) := detach p in Ok (d <| gp_dsp := p |> <| apu := w |>).

Definition on_ep (d : MCPXAPU) (f : DSPState apu_io -> outcome (DSPState apu_io)) : outcome MCPXAPU :=
  p ← f (attach (ep_dsp d) (apu d));
  let '(p, w) := detach p in Ok (d <| ep_dsp := p |> <| apu := w |>).

Definition gp_core : HasCore (DSPState apu_io) := @dsp_has_core apu_io gp_io dma_fuel.
Definition ep_core : HasCore (DSPState apu_io) := @dsp_has_core apu_io ep_io dma_fuel.

(** [dsp_read_memory] and [dsp_write_memory]: the space by its letter. *)
Inductive space_letter := LX | LY | LP.
Definition space_id (l : space_letter) : Z :=
  match l with LX => DSP_SPACE_X | LY => DSP_SPACE_Y | LP => DSP_SPACE_P end.

Definition dsp_read_memory (H : HasCore (DSPState apu_io)) (p : DSPState apu_io) (l : space_letter) (a : Z)
    : outcome Z := dsp56k_read_memory p (space_id l) a.
Definition dsp_write_memory (H : HasCore (DSPState apu_io)) (p : DSPState apu_io) (l : space_letter) (a v : Z)
    : outcome (DSPState apu_io) := dsp56k_write_memory p (space_id l) a v.

(** The window of a processor's MMIO space that an address falls in: the space
    and the first address of the window, or the registers. *)
Definition gp_window (addr : Z) : option (space_letter * Z) :=
  if (NV_PAPU_GPXMEM <=? addr) && (addr <=? NV_PAPU_GPXMEM + 0x1000 * 4 - 1) then
    Some (LX, (addr - NV_PAPU_GPXMEM) / 4)
  else if (NV_PAPU_GPMIXBUF <=? addr) && (addr <=? NV_PAPU_GPMIXBUF + 0x400 * 4 - 1) then
    Some (LX, GP_DSP_MIXBUF_BASE + (addr - NV_PAPU_GPMIXBUF) / 4)
  else if (NV_PAPU_GPYMEM <=? addr) && (addr <=? NV_PAPU_GPYMEM + 0x800 * 4 - 1) then
    Some (LY, (addr - NV_PAPU_GPYMEM) / 4)
  else if (NV_PAPU_GPPMEM <=? addr) && (addr <=? NV_PAPU_GPPMEM + 0x1000 * 4 - 1) then
    Some (LP, (addr - NV_PAPU_GPPMEM) / 4)
  else None.

Definition ep_window (addr : Z) : option (space_letter * Z) :=
  if (NV_PAPU_GPXMEM <=? addr) && (addr <=? NV_PAPU_GPXMEM + 0xC00 * 4 - 1) then
    Some (LX, (addr - NV_PAPU_GPXMEM) / 4)
  else if (NV_PAPU_GPYMEM <=? addr) && (addr <=? NV_PAPU_GPYMEM + 0x100 * 4 - 1) then
    Some (LY, (addr - NV_PAPU_GPYMEM) / 4)
  else if (NV_PAPU_GPPMEM <=? addr) && (addr <=? NV_PAPU_GPPMEM + 0x1000 * 4 - 1) then
    Some (LP, (addr - NV_PAPU_GPPMEM) / 4)
  else None.

Definition gp_read (d : MCPXAPU) (addr size : Z) : outcome Z :=
  c_assert (size =? 4) ;; c_assert (addr mod 4 =? 0) ;;
  match gp_window addr with
  | Some (l, a) => dsp_read_memory gp_core (attach (gp_dsp d) (apu d)) l a
  | None => Ok (rget (gp_regs d) addr)
  end.

Definition ep_read (d : MCPXAPU) (addr size : Z) : outcome Z :=
  c_assert (size =? 4) ;; c_assert (addr mod 4 =? 0) ;;
  match ep_window addr with
  | Some (l, a) => dsp_read_memory ep_core (attach (ep_dsp d) (apu d)) l a
  | None => Ok (rget (ep_regs d) addr)
  end.

(** Both reset lines high. *)
Definition out_of_reset (v : Z) : bool := flag v NV_PAPU_GPRST_GPRST && flag v NV_PAPU_GPRST_GPDSPRST.

Definition proc_rst_write (io : DspIO apu_io) (p : DSPState apu_io) (oldval val : Z)
    : outcome (DSPState apu_io) :=
  if negb (out_of_reset val) then Ok (dsp_reset p)
  else if negb (out_of_reset oldval) then @dsp_bootstrap apu_io io p
  else Ok p.

Definition gp_write (d : MCPXAPU) (addr val size : Z) : outcome MCPXAPU :=
  c_assert (size =? 4) ;; c_assert (addr mod 4 =? 0) ;;
  match gp_window addr with
  | Some (l, a) => on_gp d (fun p => dsp_write_memory gp_core p l a (u32 val))
  | None =>
      if addr =? NV_PAPU_GPRST then
        d' ← on_gp d (fun p => proc_rst_write gp_io p (rget (gp_regs d) NV_PAPU_GPRST) (u32 val));
        Ok (d' <| gp_regs := rset (gp_regs d') NV_PAPU_GPRST (u32 val) |>)
      else Ok (d <| gp_regs := rset (gp_regs d) addr (u32 val) |>)
  end.

Definition ep_write (d : MCPXAPU) (addr val size : Z) : outcome MCPXAPU :=
  c_assert (size =? 4) ;; c_assert (addr mod 4 =? 0) ;;
  match ep_window addr with
  | Some (l, a) => on_ep d (fun p => dsp_write_memory ep_core p l a (u32 val))
  | None =>
      if addr =? NV_PAPU_GPRST then
        d' ← on_ep d (fun p => proc_rst_write ep_io p (rget (ep_regs d) NV_PAPU_GPRST) (u32 val));
        Ok (d' <| ep_regs := rset (ep_regs d') NV_PAPU_GPRST (u32 val) |> <| ep_frame_div := 0 |>)
      else Ok (d <| ep_regs := rset (ep_regs d) addr (u32 val) |>)
  end.
End gp_ep.

(** ** Scatter-gather reads are reads of the mapped bytes *)

Section sg_proofs.
Variable ldl_le_phys : list Z -> Z -> Z.
Context (ram : list Z) (sge_base max_sge : Z).

(** The page that entry [pe] of the table maps, and the guest byte behind an
    address of the scattered space. *)
Definition prd (pe : Z) : Z := ldl_le_phys ram (u64 (sge_base + u32 (pe * 8))).
Definition sg_byte (a : Z) : Z := nthZ ram (prd (a / TARGET_PAGE_SIZE) + a mod TARGET_PAGE_SIZE).

(** The address has an entry, and the entry's page lies in RAM (below its last
    byte, which the code's strict comparison excludes). *)
Definition sg_mapped (a : Z) : Prop :=
  0 <= a < 2 ^ 32 /\ a / TARGET_PAGE_SIZE <= max_sge /\ zlen ram <= 2 ^ 32 /\
  0 <= prd (a / TARGET_PAGE_SIZE) /\ prd (a / TARGET_PAGE_SIZE) + TARGET_PAGE_SIZE < zlen ram.

Lemma sg_loop_done fuel buf ptr pe off btc dir :
  sg_loop ldl_le_phys fuel ram sge_base max_sge buf ptr pe off btc 0 dir = Ok (buf, ram).
Proof. by destruct fuel. Qed.

Lemma sg_loop_reads fuel : forall buf ptr pe off len,
  0 <= ptr -> ptr + len = zlen buf -> 0 <= len <= Z.of_nat fuel -> 0 <= off < TARGET_PAGE_SIZE ->
  (forall i, 0 <= i < len -> sg_mapped (pe * TARGET_PAGE_SIZE + off + i)) ->
  exists buf', sg_loop ldl_le_phys fuel ram sge_base max_sge buf ptr pe off (TARGET_PAGE_SIZE - off) len false
                 = Ok (buf', ram) /\ zlen buf' = zlen buf /\
    forall i, nthZ buf' i = if (ptr <=? i) && (i <? zlen buf)
                            then sg_byte (pe * TARGET_PAGE_SIZE + off + (i - ptr)) else nthZ buf i.
Proof.
  induction fuel as [| fuel IH]; intros buf ptr pe off len Hptr Hlen Hfuel Hoff Hmap.
  all: destruct (decide (len = 0)) as [-> | Hne].
  1,3: exists buf; rewrite sg_loop_done; split; [done |]; split; [done |]; intros i;
       destruct (Z.leb_spec ptr i), (Z.ltb_spec i (zlen buf)); done || lia.
  { lia. }
  assert (Hdiv : forall j, 0 <= off + j < TARGET_PAGE_SIZE ->
    (pe * TARGET_PAGE_SIZE + off + j) / TARGET_PAGE_SIZE = pe /\
    (pe * TARGET_PAGE_SIZE + off + j) mod TARGET_PAGE_SIZE = off + j)
    by (intros j Hj; Z.div_mod_to_equations; lia).
  pose proof (Hmap 0 ltac:(lia)) as (Ha & Hsge & Hram & Hp0 & Hp).
  destruct (Hdiv 0 ltac:(lia)) as [Hd0 Hm0]. rewrite Hd0 in Hsge, Hp0, Hp.
  cbn [sg_loop]. destruct (Z.leb_spec len 0); [lia |].
  rewrite (c_assert_true (pe <=? max_sge)) by (apply Z.leb_le; lia). cbn [mbind outcome_bind]. fold (prd pe).
  rewrite (u32_small (prd pe + off)) by lia.
  set (n := if len <? _ then len else _).
  assert (Hn : 0 < n <= len /\ off + n <= TARGET_PAGE_SIZE /\ (n < len -> off + n = TARGET_PAGE_SIZE))
    by (subst n; destruct (Z.ltb_spec len (TARGET_PAGE_SIZE - off)); lia).
  clearbody n. destruct Hn as (Hn1 & Hn2 & Hn3).
  rewrite c_assert_true by (apply Z.ltb_lt; lia). cbn [mbind outcome_bind].
  destruct (slice_spec ram (prd pe + off) n) as (src & -> & Ls & Ss); [lia .. |]. cbn [mbind outcome_bind].
  destruct (blit_spec buf ptr src) as (buf1 & -> & Lb & Sb); [lia .. |]. cbn [mbind outcome_bind].
  assert (Hhead : forall i, ptr <= i < ptr + n -> nthZ buf1 i = sg_byte (pe * TARGET_PAGE_SIZE + off + (i - ptr))).
  { intros i Hi. rewrite Sb, Ls. destruct (Z.leb_spec ptr i), (Z.ltb_spec i (ptr + n)); try lia. cbn.
    rewrite Ss by lia. unfold sg_byte. destruct (Hdiv (i - ptr)) as [-> ->]; [lia |]. f_equal. lia. }
  destruct (decide (n = len)) as [-> |].
  - rewrite Z.sub_diag, sg_loop_done. exists buf1. split; [done |]. split; [done |]. intros i.
    destruct (Z.leb_spec ptr i), (Z.ltb_spec i (zlen buf)); cbn; try (apply Hhead; lia);
      rewrite Sb, Ls; destruct (Z.leb_spec ptr i), (Z.ltb_spec i (ptr + len)); done || lia.
  - assert (Hpe : u32 (pe + 1) = pe + 1).
    { destruct (Hmap n ltac:(lia)) as (Hb & _). apply u32_small. lia. }
    rewrite Hpe. change TARGET_PAGE_SIZE with (TARGET_PAGE_SIZE - 0) at 1.
    destruct (IH buf1 (ptr + n) (pe + 1) 0 (len - n)) as (buf' & E & L & S); [lia .. | |].
    { intros i Hi. replace ((pe + 1) * TARGET_PAGE_SIZE + 0 + i) with (pe * TARGET_PAGE_SIZE + off + (n + i)) by lia.
      apply Hmap. lia. }
    exists buf'. rewrite E. split; [done |]. split; [lia |]. intros i. rewrite S, Lb.
    destruct (Z.leb_spec (ptr + n) i), (Z.leb_spec ptr i), (Z.ltb_spec i (zlen buf)); cbn; try lia.
    + f_equal. lia.
    + rewrite Sb, Ls. destruct (Z.leb_spec ptr i), (Z.ltb_spec i (ptr + n)); done || lia.
    + apply Hhead. lia.
    + rewrite Sb, Ls. destruct (Z.leb_spec ptr i), (Z.ltb_spec i (ptr + n)); done || lia.
Qed.
End sg_proofs.

Section gp_scratch.
Variable ldl_le_phys : list Z -> Z -> Z.

Lemma scatter_gather_read d sge_base max_sge buf addr :
  (forall i, 0 <= i < zlen buf -> sg_mapped ldl_le_phys (io_ram d) sge_base max_sge (addr + i)) ->
  0 <= addr ->
  exists buf', scatter_gather_rw ldl_le_phys d sge_base max_sge buf addr false = Ok (buf', d) /\
    zlen buf' = zlen buf /\
    forall i, 0 <= i < zlen buf -> nthZ buf' i = sg_byte ldl_le_phys (io_ram d) sge_base (addr + i).
Proof.
  intros Hmap Haddr. unfold scatter_gather_rw.
  assert (Hpe : addr / TARGET_PAGE_SIZE * TARGET_PAGE_SIZE + addr mod TARGET_PAGE_SIZE = addr)
    by (Z.div_mod_to_equations; lia).
  destruct (sg_loop_reads ldl_le_phys (io_ram d) sge_base max_sge (length buf) buf 0 (addr / TARGET_PAGE_SIZE)
    (addr mod TARGET_PAGE_SIZE) (zlen buf)) as (buf' & E & L & S);
    [lia .. | apply Z.mod_pos_bound; lia | by rewrite Hpe |].
  exists buf'. rewrite E. split; [by destruct d |]. split; [done |]. intros i Hi.
  rewrite S, Hpe, Z.sub_0_r. destruct (Z.leb_spec 0 i), (Z.ltb_spec i (zlen buf)); done || lia.
Qed.

(** The scratch space of each processor, as the DMA engine sees it. *)
#[export] Instance gp_scratch : @ScratchRead apu_io (gp_io ldl_le_phys).
Proof.
  refine {|
    scratch_byte := fun d a => sg_byte ldl_le_phys (io_ram d) (rget (io_regs d) NV_PAPU_GPSADDR) a;
    scratch_mapped := fun d a => sg_mapped ldl_le_phys (io_ram d) (rget (io_regs d) NV_PAPU_GPSADDR)
                                   (rget (io_regs d) NV_PAPU_GPSMAXSGE) a
  |}.
  intros d buf addr Hm Ha. exact (scatter_gather_read d _ _ buf addr Hm Ha).
Defined.

#[export] Instance ep_scratch : @ScratchRead apu_io (ep_io ldl_le_phys).
Proof.
  refine {|
    scratch_byte := fun d a => sg_byte ldl_le_phys (io_ram d) (rget (io_regs d) NV_PAPU_EPSADDR) a;
    scratch_mapped := fun d a => sg_mapped ldl_le_phys (io_ram d) (rget (io_regs d) NV_PAPU_EPSADDR)
                                   (rget (io_regs d) NV_PAPU_EPSMAXSGE) a
  |}.
  intros d buf addr Hm Ha. exact (scatter_gather_read d _ _ buf addr Hm Ha).
Defined.
End gp_scratch.

(** A scatter-gather read fills the buffer with the bytes the page table maps:
    byte [i] comes from page [entry((addr + i) / 4096)] at offset
    [(addr + i) mod 4096], however the transfer straddles pages; it terminates,
    passes its own assertions and leaves RAM alone, for a transfer whose addresses
    have entries that map pages inside RAM. *)
Theorem scatter_gather_reads_pages ldl d sge_base max_sge buf addr :
  (forall i, 0 <= i < zlen buf -> sg_mapped ldl (io_ram d) sge_base max_sge (addr + i)) -> 0 <= addr ->
  exists buf', scatter_gather_rw ldl d sge_base max_sge buf addr false = Ok (buf', d) /\
    zlen buf' = zlen buf /\
    forall i, 0 <= i < zlen buf ->
      nthZ buf' i = nthZ (io_ram d) (prd ldl (io_ram d) sge_base ((addr + i) / TARGET_PAGE_SIZE)
                                     + (addr + i) mod TARGET_PAGE_SIZE).
Proof. apply scatter_gather_read. Qed.

(** A guest memory of three pages and a bit, with two table entries at its start
    that map the second and the first page. *)
Definition ldl_ram (ram : list Z) (a : Z) : Z :=
  le_val (take 4 (drop (Z.to_nat a) ram)).
Definition sg_ram : list Z :=
  le_bytes 4 0x1000 ++ le_bytes 4 0 ++ le_bytes 4 0x0 ++ le_bytes 4 0 ++
  seqZ 0 12288 ++ [7].

Lemma scatter_gather_reads_pages_witness :
  let d := mkApuIO sg_ram ∅ MON_AC97 [] in
  exists buf', scatter_gather_rw ldl_ram d 0 1 (replicate 4 0) 4094 false = Ok (buf', d) /\
    nthZ buf' 3 = nthZ sg_ram (0 + 1).
Proof.
  destruct (scatter_gather_reads_pages ldl_ram (mkApuIO sg_ram ∅ MON_AC97 []) 0 1 (replicate 4 0) 4094)
    as (buf' & E & _ & H); [| lia |].
  - intros i Hi. cbn in Hi.
    assert (i = 0 \/ i = 1 \/ i = 2 \/ i = 3) as [-> | [-> | [-> | ->]]] by lia;
      vm_compute; intuition discriminate.
  - exists buf'. split; [exact E |].
    etransitivity; [exact (H 3 ltac:(cbn; lia)) |]. vm_compute. reflexivity.
Defined.

(** ** The FIFO position *)

Lemma circular_sg_cur ldl fuel : forall d sge_base max_sge buf ptr base end_ cur len dir buf' d' cur',
  0 <= base <= cur -> cur < end_ -> end_ < 2 ^ 32 -> 0 <= len ->
  circular_sg_loop ldl fuel d sge_base max_sge buf ptr base end_ cur len dir = Ok (buf', d', cur') ->
  cur' = base + (cur - base + len) mod (end_ - base) /\ io_regs d' = io_regs d.
Proof.
  induction fuel as [| fuel IH]; intros d sge_base max_sge buf ptr base end_ cur len dir buf' d' cur' Hb Hc He Hl E;
    cbn [circular_sg_loop] in E; destruct (Z.leb_spec len 0); try discriminate E.
  1,2: injection E as <- <- <-; replace len with 0 by lia; rewrite Z.add_0_r, Z.mod_small by lia; split; [lia | done].
  rewrite (u32_small (end_ - cur)) in E by lia.
  set (n := if len <? _ then len else _) in E.
  assert (Hn : 0 < n <= len /\ cur + n <= end_ /\ (n < len -> cur + n = end_))
    by (subst n; destruct (Z.ltb_spec len (end_ - cur)); lia).
  clearbody n. rewrite (u32_small (cur + n)) in E by lia.
  apply bind_ok in E as (? & _ & E). apply bind_ok in E as (chunk & _ & E).
  apply bind_ok in E as ([chunk' d1] & E1 & E). apply bind_ok in E as (buf1 & _ & E).
  assert (Hr : io_regs d1 = io_regs d).
  { unfold scatter_gather_rw in E1. apply bind_ok in E1 as ([? ?] & _ & E1). by injection E1 as _ <-. }
  destruct (Z.leb_spec end_ (cur + n)).
  - apply bind_ok in E as (c1 & E2 & E). apply bind_ok in E2 as (? & _ & E2). injection E2 as <-.
    apply IH in E as [-> ->]; [| lia ..]. split; [| done]. f_equal.
    replace (base - base + (len - n)) with (cur - base + len + (-1) * (end_ - base)) by lia.
    rewrite Z.mod_add by lia. done.
  - apply bind_ok in E as (c1 & E2 & E). injection E2 as <-.
    apply IH in E as [-> ->]; [| lia ..]. split; [| done]. do 2 f_equal. lia.
Qed.

(** A FIFO transfer of the GP advances the FIFO's current position by the
    length of the transfer, around the ring between its base and end registers,
    and never leaves the ring (a position below the base starts at the base). *)
Theorem gp_fifo_position ldl d buf index dir buf' d' :
  gp_fifo_rw ldl d buf index dir = Ok (buf', d') -> 0 <= index ->
  let regs := io_regs d in
  let cur_reg := (if dir : bool then NV_PAPU_GPOFCUR0 else NV_PAPU_GPIFCUR0) + 0x10 * index in
  let base := GET_MASK (rget regs ((if dir then NV_PAPU_GPOFBASE0 else NV_PAPU_GPIFBASE0) + 0x10 * index)) FIFO_VALUE in
  let end_ := GET_MASK (rget regs ((if dir then NV_PAPU_GPOFEND0 else NV_PAPU_GPIFEND0) + 0x10 * index)) FIFO_VALUE in
  let cur := Z.max base (GET_MASK (rget regs cur_reg) FIFO_VALUE) in
  base < end_ ->
  GET_MASK (rget (io_regs d') cur_reg) FIFO_VALUE = base + (cur - base + zlen buf) mod (end_ - base).
Proof.
  intros E Hi. cbn zeta. intros Hlt.
  set (b := GET_MASK (rget (io_regs d) ((if dir then NV_PAPU_GPOFBASE0 else _) + _)) _) in *.
  set (e := GET_MASK (rget (io_regs d) ((if dir then NV_PAPU_GPOFEND0 else _) + _)) _) in *.
  set (r := (if dir then NV_PAPU_GPOFCUR0 else _) + _).
  assert (Hfield : forall v, 0 <= GET_MASK v FIFO_VALUE < 2 ^ 24)
    by (intros v; rewrite (GET_MASK_field v FIFO_VALUE 0 24) by reflexivity; apply Z.mod_pos_bound; lia).
  pose proof (Hfield (rget (io_regs d) r)) as Hcur.
  assert (Hb : 0 <= b < 2 ^ 24) by apply Hfield. assert (He : 0 <= e < 2 ^ 24) by apply Hfield.
  unfold gp_fifo_rw in E. apply bind_ok in E as ([[b' e'] r'] & E1 & E).
  assert (b' = b /\ e' = e /\ r' = r) as (-> & -> & ->)
    by (destruct dir; apply bind_ok in E1 as (? & _ & E1); by injection E1 as <- <- <-).
  apply bind_ok in E as (? & Ha & E). apply c_assert_ok, Z.ltb_lt in Ha.
  apply bind_ok in E as ([[buf1 d1] cur1] & E2 & E). injection E as <- <-.
  unfold circular_scatter_gather_rw in E2.
  assert (Hmax : (if GET_MASK (rget (io_regs d) r) FIFO_VALUE <? b then b else GET_MASK (rget (io_regs d) r) FIFO_VALUE)
                 = Z.max b (GET_MASK (rget (io_regs d) r) FIFO_VALUE))
    by (destruct (Z.ltb_spec (GET_MASK (rget (io_regs d) r) FIFO_VALUE) b); lia).
  rewrite Hmax in E2. apply circular_sg_cur in E2 as [-> Hr]; [| lia ..].
  cbn. rewrite rget_rset_eq, (GET_SET_MASK_eq _ FIFO_VALUE 0 24) by reflexivity.
  pose proof (Z.mod_pos_bound (Z.max b (GET_MASK (rget (io_regs d) r) FIFO_VALUE) - b + zlen buf) (e - b)).
  rewrite Z.mod_small by lia. done.
Qed.

Lemma gp_fifo_position_witness :
  let regs := rset (rset (rset ∅ NV_PAPU_GPOFBASE0 0) NV_PAPU_GPOFEND0 8) NV_PAPU_GPOFCUR0 6 in
  let d := mkApuIO (replicate 64 0) (rset regs NV_PAPU_GPFMAXSGE 1) MON_AC97 [] in
  exists buf' d', gp_fifo_rw (fun _ _ => 0) d [1; 2; 3; 4; 5] 0 true = Ok (buf', d') /\
    GET_MASK (rget (io_regs d') NV_PAPU_GPOFCUR0) FIFO_VALUE = 3.
Proof.
  cbn zeta. match goal with |- context [gp_fifo_rw ?a ?b ?c ?d ?e] =>
    destruct (gp_fifo_rw a b c d e) as [[buf' d'] | | |] eqn:E end;
    [| vm_compute in E; discriminate E ..].
  exists buf', d'. split; [reflexivity |].
  exact (gp_fifo_position _ _ _ _ _ _ _ E ltac:(lia) ltac:(vm_compute; reflexivity)).
Defined.
