(* ===== verification/DspSystem.v ===== *)
(** * The DSPs in their system (mcpx/apu/dsp/dsp_cpu.c, dsp.c, dsp_dma.c, gp_ep.c)

    An instruction of a DSP may start the DMA engine, whose transfers go to guest RAM
    through the scatter-gather tables and FIFOs of the global or the encode processor.
    This file closes the loop: the transfers of gp_ep.c and the blocks of dsp_dma.c do
    nothing undefined and come to an end ([SoundIO], [block_safe]), so that the
    peripheral registers meet the interface [SoundPeripherals] of the core, and an
    instruction of either DSP is safe as long as the guest's list of DMA blocks ends. *)

From stdpp Require Import base numbers list gmap strings.
From Stdlib Require Import ZArith Lia.
From S2P Require Import Prelude DspArith DspDecode DspCore DspAddr DspAlu DspMove DspInstr DspSafe DspReturns DspDma GpEp.

Abbreviation bytes := (Forall (in_u 8)).

(** ** Lists of bytes *)

Lemma slice_bytes l at_ n : bytes l -> 0 <= at_ -> 0 <= n -> at_ + n <= zlen l ->
  exists s, slice l at_ n = Ok s /\ zlen s = n /\ bytes s.
Proof.
  intros Hl Ha Hn Hle. destruct (slice_spec l at_ n) as (s & E & L & _); [done.. |]. exists s. split; [done | split; [done |]].
  rewrite slice_ok in E by done. injection E as <-. by apply Forall_take, Forall_drop.
Qed.

Lemma blit_bytes l at_ s : bytes l -> bytes s -> 0 <= at_ -> at_ + zlen s <= zlen l ->
  exists l', blit l at_ s = Ok l' /\ zlen l' = zlen l /\ bytes l'.
Proof.
  intros Hl Hs Ha Hle. eexists. split; [by apply blit_ok |]. split.
  - rewrite !length_app, length_take, length_drop. lia.
  - apply Forall_app; split; [by apply Forall_take | apply Forall_app; split; [done | by apply Forall_drop]].
Qed.

(** ** Scatter-gather *)

Section scatter_gather.
Context (ldl : list Z -> Z -> Z).

Lemma sg_loop_safe fuel : forall ram sge_base max_sge buf ptr entry offset n len dir,
  bytes ram -> bytes buf -> 0 <= ptr -> ptr + len = zlen buf -> 1 <= n -> len <= Z.of_nat fuel ->
  safe (fun '(buf', ram') => zlen buf' = zlen buf /\ bytes buf' /\ bytes ram')
    (sg_loop ldl fuel ram sge_base max_sge buf ptr entry offset n len dir).
Proof.
  induction fuel as [| fuel IH]; intros ram sge_base max_sge buf ptr entry offset n len dir Hram Hbuf Hptr Hlen Hn Hf;
    cbn [sg_loop]; destruct (Z.leb_spec len 0); try done; [lia |].
  apply safe_assert. intros _. cbv zeta. set (paddr := u32 (ldl _ _ + offset)). assert (Hp : 0 <= paddr) by by apply Z.mod_pos_bound.
  set (k := if len <? n then len else n). assert (Hk : 1 <= k <= len) by (unfold k; zcases; lia).
  apply safe_assert. intros Hfit%Z.ltb_lt. destruct dir.
  - destruct (slice_bytes buf ptr k) as (s & -> & Ls & Hs); [done | lia.. |]. cbn [mbind outcome_bind].
    destruct (blit_bytes ram paddr s) as (ram' & -> & _ & Hram'); [done | done | lia.. |]. cbn [mbind outcome_bind].
    eapply safe_mono; [apply IH; (done || lia) |]. done.
  - destruct (slice_bytes ram paddr k) as (s & -> & Ls & Hs); [done | lia.. |]. cbn [mbind outcome_bind].
    destruct (blit_bytes buf ptr s) as (buf' & -> & Lb & Hbuf'); [done | done | lia.. |]. cbn [mbind outcome_bind].
    eapply safe_mono; [apply IH; (done || lia) |]. intros [b r]. by rewrite Lb.
Qed.

(** A transfer keeps everything of the unit but RAM. *)
Definition ram_changed (d d' : apu_io) : Prop := bytes (io_ram d') /\ io_regs d' = io_regs d.

Lemma scatter_gather_safe d sge_base max_sge buf addr dir : bytes (io_ram d) -> bytes buf ->
  safe (fun '(buf', d') => zlen buf' = zlen buf /\ bytes buf' /\ ram_changed d d')
    (scatter_gather_rw ldl d sge_base max_sge buf addr dir).
Proof.
  intros Hram Hbuf. unfold scatter_gather_rw. cbv zeta. pose proof (Z.mod_pos_bound addr TARGET_PAGE_SIZE ltac:(done)).
  eapply safe_bind; [apply sg_loop_safe; (done || lia) |]. intros [buf' ram'] (Hl & Hb & Hr). done.
Qed.

Lemma circular_sg_safe fuel : forall d sge_base max_sge buf ptr base end_ cur len dir,
  bytes (io_ram d) -> bytes buf -> 0 <= ptr -> ptr + len = zlen buf -> len <= Z.of_nat fuel ->
  base <> end_ -> cur <> end_ -> 0 <= end_ < 2 ^ 32 -> 0 <= cur < 2 ^ 32 -> 0 <= base < 2 ^ 32 ->
  safe (fun '(buf', d', _) => zlen buf' = zlen buf /\ bytes buf' /\ ram_changed d d')
    (circular_sg_loop ldl fuel d sge_base max_sge buf ptr base end_ cur len dir).
Proof.
  induction fuel as [| fuel IH]; intros d sge_base max_sge buf ptr base end_ cur len dir Hram Hbuf Hptr Hlen Hf Hbe Hce He Hc Hb;
    cbn [circular_sg_loop]; destruct (Z.leb_spec len 0); try done; [lia |].
  cbv zeta. set (k := if len <? u32 (end_ - cur) then len else u32 (end_ - cur)).
  assert (Hk : 1 <= k <= len).
  { unfold k. assert (1 <= u32 (end_ - cur)); [| zcases; lia].
    destruct (Z.lt_ge_cases cur end_); [rewrite Z.mod_small by lia; lia |].
    rewrite <- (Z_mod_plus_full _ 1), Z.mod_small by lia. lia. }
  apply safe_assert. intros [_ Hend%Z.leb_le]%andb_true_iff.
  destruct (slice_bytes buf ptr k) as (s & -> & Ls & Hs); [done | lia.. |]. cbn [mbind outcome_bind].
  eapply safe_bind; [by apply scatter_gather_safe |]. intros [s' d'] (Ls' & Hs' & Hram' & Hregs').
  destruct (blit_bytes buf ptr s') as (buf' & -> & Lb & Hbuf'); [done | done | lia.. |]. cbn [mbind outcome_bind].
  set (cur' := u32 (cur + k)) in *. assert (Hc' : 0 <= cur' < 2 ^ 32) by by apply Z.mod_pos_bound.
  eapply (safe_bind (fun c => c <> end_ /\ 0 <= c < 2 ^ 32)).
  - destruct (Z.leb_spec end_ cur'); [by apply safe_assert |]. cbn. lia.
  - intros c [Hne Hcr]. eapply safe_mono; [apply IH; (done || lia) |]. intros [[b d2] c2] (Hl2 & Hb2 & Hram2 & Hregs2).
    rewrite Lb in Hl2. split; [done | split; [done | split; [done |]]]. by rewrite Hregs2.
Qed.
End scatter_gather.

(** ** The interface of the DMA engine *)

(** What the engine relies on: on a sound world, a transfer of bytes to or from
    scratch space, or to a FIFO, is safe and keeps the world sound. *)
Class SoundIO (W : Type) `{DspIO W} := {
  world_ok : W -> Prop;
  scratch_safe : forall w buf addr dir, world_ok w -> bytes buf ->
    safe (fun '(buf', w') => zlen buf' = zlen buf /\ bytes buf' /\ world_ok w') (scratch_rw w buf addr dir);
  fifo_safe : forall w buf index, world_ok w -> bytes buf -> 0 <= index < 4 ->
    safe (fun '(_, w') => world_ok w') (fifo_rw w buf index true)
}.

(** RAM holds bytes, and no output FIFO is empty by construction: with equal limits
    the code of the global processor loops for ever and that of the encode processor
    divides by zero. *)
Definition fifos_ok (base0 end0 : Z) (d : apu_io) : Prop :=
  bytes (io_ram d) /\ forall i, 0 <= i < 4 ->
    GET_MASK (rget (io_regs d) (base0 + 0x10 * i)) FIFO_VALUE <> GET_MASK (rget (io_regs d) (end0 + 0x10 * i)) FIFO_VALUE.

Lemma fifo_value_range v : 0 <= GET_MASK v FIFO_VALUE < 2 ^ 24.
Proof. rewrite (GET_MASK_field _ _ 0 24) by done. by apply Z.mod_pos_bound. Qed.

Lemma fifos_ok_ram base0 end0 d d' : fifos_ok base0 end0 d -> ram_changed d d' -> fifos_ok base0 end0 d'.
Proof. intros [_ Hf] [Hr Hregs]. split; [done |]. by rewrite Hregs. Qed.

Lemma fifos_ok_cur base0 end0 d r v : fifos_ok base0 end0 d ->
  (forall i, 0 <= i < 4 -> base0 + 0x10 * i <> r /\ end0 + 0x10 * i <> r) ->
  fifos_ok base0 end0 (d <| io_regs := rset (io_regs d) r v |>).
Proof.
  intros [Hb Hf] Hr. split; [done |]. intros i Hi. destruct (Hr i Hi) as [? ?]. cbn. rewrite !rget_rset_ne by done. by apply Hf.
Qed.

Section processors.
Context (ldl : list Z -> Z -> Z).

Lemma gp_fifo_safe d buf index : fifos_ok NV_PAPU_GPOFBASE0 NV_PAPU_GPOFEND0 d -> bytes buf -> 0 <= index < 4 ->
  safe (fun '(_, d') => fifos_ok NV_PAPU_GPOFBASE0 NV_PAPU_GPOFEND0 d') (gp_fifo_rw ldl d buf index true).
Proof.
  intros Hd Hbuf Hi. pose proof Hd as [Hram Hne]. specialize (Hne index Hi). unfold gp_fifo_rw.
  destruct (Z.ltb_spec index OUTPUT_FIFO_COUNT); [| lia]. cbn [c_assert mbind outcome_bind].
  set (base := GET_MASK (rget (io_regs d) (NV_PAPU_GPOFBASE0 + _)) _) in *. set (end_ := GET_MASK (rget (io_regs d) (NV_PAPU_GPOFEND0 + _)) _) in *.
  set (cur := GET_MASK _ _). pose proof (fifo_value_range (rget (io_regs d) (NV_PAPU_GPOFBASE0 + 0x10 * index))).
  pose proof (fifo_value_range (rget (io_regs d) (NV_PAPU_GPOFEND0 + 0x10 * index))).
  pose proof (fifo_value_range (rget (io_regs d) (NV_PAPU_GPOFCUR0 + 0x10 * index))). fold base end_ cur in H0, H1, H2.
  apply safe_assert. intros Hlt%Z.ltb_lt. unfold circular_scatter_gather_rw.
  eapply safe_bind; [apply circular_sg_safe; try done; try (zcases; lia); lia |].
  intros [[b d'] c'] (_ & _ & Hd'). cbn [safe]. apply fifos_ok_cur; [by eapply fifos_ok_ram |]. intros; lia.
Qed.

Lemma sink_safe d buf : fifos_ok NV_PAPU_EPOFBASE0 NV_PAPU_EPOFEND0 d ->
  safe (fun '(_, d') => fifos_ok NV_PAPU_EPOFBASE0 NV_PAPU_EPOFEND0 d' /\ io_regs d' = io_regs d) (ep_sink_samples d buf).
Proof. intros Hd. unfold ep_sink_samples. destruct (io_monitor d); try done; by apply safe_assert. Qed.

Lemma ep_cur_ok base end_ cur : 0 <= base < 2 ^ 24 -> 0 <= end_ < 2 ^ 24 -> 0 <= cur < 2 ^ 24 -> base <> end_ ->
  safe (fun c => 0 <= c < 2 ^ 24 /\ (c < base \/ c <> end_))
    (if end_ <=? cur then if u32 (end_ - base) =? 0 then Undef else Ok (cur mod u32 (end_ - base)) else Ok cur).
Proof.
  intros Hb He Hc Hne. destruct (Z.leb_spec end_ cur); [| cbn; lia].
  assert (Hk : u32 (end_ - base) = if base <? end_ then end_ - base else 2 ^ 32 + end_ - base).
  { destruct (Z.ltb_spec base end_); [apply Z.mod_small; lia |]. rewrite <- (Z_mod_plus_full _ 1), Z.mod_small by lia. lia. }
  rewrite Hk. destruct (Z.ltb_spec base end_); (rewrite (proj2 (Z.eqb_neq _ 0)) by lia); cbn [safe].
  - pose proof (Z.mod_pos_bound cur (end_ - base) ltac:(lia)). lia.
  - rewrite Z.mod_small by lia. lia.
Qed.

Lemma ep_fifo_safe d buf index : fifos_ok NV_PAPU_EPOFBASE0 NV_PAPU_EPOFEND0 d -> bytes buf -> 0 <= index < 4 ->
  safe (fun '(_, d') => fifos_ok NV_PAPU_EPOFBASE0 NV_PAPU_EPOFEND0 d') (ep_fifo_rw ldl d buf index true).
Proof.
  intros Hd Hbuf Hi. pose proof Hd as [Hram Hne]. specialize (Hne index Hi). unfold ep_fifo_rw.
  destruct (Z.ltb_spec index OUTPUT_FIFO_COUNT); [| lia]. cbn [c_assert mbind outcome_bind andb].
  set (base := GET_MASK (rget (io_regs d) (NV_PAPU_EPOFBASE0 + _)) _) in *. set (end_ := GET_MASK (rget (io_regs d) (NV_PAPU_EPOFEND0 + _)) _) in *.
  set (cur := GET_MASK _ _). pose proof (fifo_value_range (rget (io_regs d) (NV_PAPU_EPOFBASE0 + 0x10 * index))) as Hb.
  pose proof (fifo_value_range (rget (io_regs d) (NV_PAPU_EPOFEND0 + 0x10 * index))) as He.
  pose proof (fifo_value_range (rget (io_regs d) (NV_PAPU_EPOFCUR0 + 0x10 * index))) as Hc. fold base end_ cur in Hb, He, Hc.
  eapply (safe_bind (fun '(ptr, d') => bytes ptr /\ fifos_ok NV_PAPU_EPOFBASE0 NV_PAPU_EPOFEND0 d' /\ io_regs d' = io_regs d)).
  { destruct (index =? 0); [| done]. eapply safe_bind; [by apply sink_safe |]. intros [[] d'] [Hd' Hregs]; [| done].
    apply safe_assert. intros _. split; [by apply Forall_replicate | done]. }
  intros [ptr d1] (Hptr & Hd1 & Hregs). eapply safe_bind; [by apply ep_cur_ok |]. intros c [Hcr Hce].
  unfold circular_scatter_gather_rw. eapply safe_bind; [apply circular_sg_safe; try done; try apply Hd1; try (zcases; lia); lia |].
  intros [[b d'] c'] (_ & _ & Hd'). cbn [safe]. apply fifos_ok_cur; [by eapply fifos_ok_ram |]. intros; lia.
Qed.

Definition gp_sound : @SoundIO apu_io (gp_io ldl).
Proof.
  refine {| world_ok := fifos_ok NV_PAPU_GPOFBASE0 NV_PAPU_GPOFEND0 : apu_io -> Prop |}.
  - intros w buf addr dir Hw Hbuf. eapply safe_mono; [apply scatter_gather_safe; [apply Hw | done] |].
    intros [b d'] (? & ? & ?). split; [done | split; [done |]]. by eapply fifos_ok_ram.
  - intros w buf index. apply gp_fifo_safe.
Defined.

Definition ep_sound : @SoundIO apu_io (ep_io ldl).
Proof.
  refine {| world_ok := fifos_ok NV_PAPU_EPOFBASE0 NV_PAPU_EPOFEND0 : apu_io -> Prop |}.
  - intros w buf addr dir Hw Hbuf. eapply safe_mono; [apply scatter_gather_safe; [apply Hw | done] |].
    intros [b d'] (? & ? & ?). split; [done | split; [done |]]. by eapply fifos_ok_ram.
  - intros w buf index. apply ep_fifo_safe.
Defined.
End processors.

(** ** The DMA engine's accesses to DSP memory *)

Definition view_sound : @SoundPeripherals dsp_core dma_view dma_view_laws.
Proof. by refine (Build_SoundPeripherals dsp_core dma_view dma_view_laws (fun _ => True) _ _ _). Defined.
#[local] Existing Instances dma_view dma_view_laws view_sound.

Section core_accesses.
Context (inst : Z).

Lemma dma_read_safe c space a : core_ok inst c -> in_u 32 a -> safe (in_u 24) (dma_read c space a).
Proof.
  intros Hc Ha. apply sound_fuelled; [by apply (read_memory_safe inst) |].
  unfold dma_read, dsp56k_read_memory. by apply fuelled_read_memory.
Qed.

Lemma dma_write_safe c space a v : core_ok inst c -> in_u 32 a -> in_u 32 v -> safe (core_ok inst) (dma_write c space a v).
Proof.
  intros Hc Ha Hv. apply sound_fuelled; [eapply sound_mono; [by apply (write_memory_safe inst) |]; by intros c' [Hc' _] |].
  unfold dma_write, dsp56k_write_memory, write_memory_raw. fuel_walk; done.
Qed.

Lemma read_block_safe c space a : core_ok inst c -> 0 <= a < 2 ^ 31 ->
  safe (fun b => in_u 24 (b_next b) /\ in_u 24 (b_count b) /\ in_u 24 (b_dsp_offset b) /\ in_u 24 (b_scratch_offset b) /\
                 1 <= b_scratch_size b <= 2 ^ 24) (read_block c space a).
Proof.
  intros Hc Ha. unfold read_block.
  repeat (eapply safe_bind; [apply dma_read_safe; [done | unfold in_u; lia] | intros ? ?]).
  cbn [safe b_next b_count b_dsp_offset b_scratch_offset b_scratch_size]. unfold in_u in *. rewrite u32_small by lia. lia.
Qed.

Lemma item_bytes_ok sz v : sz = 2 \/ sz = 4 -> zlen (item_bytes sz v) = sz /\ bytes (item_bytes sz v).
Proof. intros Hsz. split; [by apply length_item_bytes |]. unfold item_bytes. destruct (sz =? 2); apply Forall_le_bytes. Qed.

Lemma item_word_ok sz mask bs : sz = 2 /\ mask = 0xffff \/ sz = 4 /\ mask = 0xffffff -> zlen bs = sz -> bytes bs ->
  in_u 32 (item_word sz mask bs).
Proof.
  intros Hsz Hl Hb. pose proof (le_val_in_u bs Hb) as Hv. rewrite Hl in Hv.
  destruct Hsz as [[-> ->] | [-> ->]]; unfold item_word; cbn [Z.eqb Pos.eqb].
  - unfold in_u in *. rewrite Z.shiftl_mul_pow2 by lia. change (8 * 2) with 16 in Hv. lia.
  - apply (in_u_mono 24); [lia |]. change 0xffffff with (Z.ones 24). rewrite Z.land_ones by lia. apply in_u_mod. lia.
Qed.

Lemma gather_safe c space sz addrs : core_ok inst c -> sz = 2 \/ sz = 4 -> Forall (in_u 32) addrs -> forall i buf,
  0 <= i -> bytes buf -> (i + zlen addrs) * sz <= zlen buf ->
  safe (fun buf' => zlen buf' = zlen buf /\ bytes buf') (gather c space sz addrs i buf).
Proof.
  intros Hc Hsz Ha. induction Ha as [| a addrs Ha _ IH]; intros i buf Hi Hb Hfit; cbn [gather]; [done |].
  eapply safe_bind; [by apply dma_read_safe |]. intros v Hv. destruct (item_bytes_ok sz v Hsz) as [Li Hbi]. cbn [length] in Hfit.
  destruct (blit_bytes buf (i * sz) (item_bytes sz v)) as (buf' & -> & Lb & Hb'); [done | done | nia | nia |]. cbn [mbind outcome_bind].
  eapply safe_mono; [apply IH; [lia | done | nia] |]. intros b. by rewrite Lb.
Qed.

Lemma scatter_safe space sz mask mem n : sz = 2 /\ mask = 0xffff \/ sz = 4 /\ mask = 0xffffff -> forall c i buf,
  core_ok inst c -> 0 <= mem -> 0 <= i -> mem + i + Z.of_nat n < 2 ^ 32 -> bytes buf -> (i + Z.of_nat n) * sz <= zlen buf ->
  safe (core_ok inst) (scatter c space sz mask mem n i buf).
Proof.
  intros Hsz. induction n as [| n IH]; intros c i buf Hc Hm Hi Hend Hb Hfit; cbn [scatter]; [done |].
  destruct (slice_bytes buf (i * sz) sz) as (bs & -> & Lb & Hbs); [done | nia | lia | nia |]. cbn [mbind outcome_bind].
  eapply safe_bind; [apply dma_write_safe; [done | unfold in_u; lia | by apply item_word_ok] |].
  intros c' Hc'. apply IH; (done || lia).
Qed.
End core_accesses.

(** ** The blocks of the DMA engine *)

Section engine.
Context {W : Type} `{SoundIO W}.
Context (inst : Z).

Lemma circular_safe fuel : forall (w : W) base off size t bo buf dir,
  world_ok w -> bytes buf -> 0 <= off < size -> size <= 2 ^ 24 -> 0 <= bo -> 0 <= t -> bo + t <= zlen buf -> zlen buf < 2 ^ 31 ->
  t <= Z.of_nat fuel ->
  safe (fun '(buf', off', w') => zlen buf' = zlen buf /\ bytes buf' /\ 0 <= off' < size /\ world_ok w')
    (circular_loop fuel w base off size t bo buf dir).
Proof.
  induction fuel as [| fuel IH]; intros w base off size t bo buf dir Hw Hb Hoff Hsz Hbo Ht Hfit Hlen Hf;
    cbn [circular_loop]; destruct (Z.leb_spec t 0); try done; [lia |].
  cbv zeta. rewrite (u32_small (size - off)) by lia. set (k := Z.min t (size - off)).
  destruct (slice_bytes buf bo k) as (s & -> & Ls & Hs); [done | lia.. |]. cbn [mbind outcome_bind].
  eapply safe_bind; [by apply scratch_safe |]. intros [s' w'] (Ls' & Hs' & Hw').
  destruct (blit_bytes buf bo s') as (buf' & -> & Lb & Hb'); [done | done | lia.. |]. cbn [mbind outcome_bind].
  rewrite (u32_small (off + k)), (u32_small (t - k)), (u32_small (bo + k)) by lia.
  eapply safe_mono; [apply IH; try done; try lia; zcases; lia |]. intros [[b o] w2] (Hl2 & Hrest). by rewrite Hl2, Lb.
Qed.

Lemma circular_copy_safe (w : W) base off size t buf dir :
  world_ok w -> bytes buf -> 0 <= off -> 1 <= size <= 2 ^ 24 -> t = zlen buf -> zlen buf < 2 ^ 31 ->
  safe (fun '(buf', off', w') => zlen buf' = zlen buf /\ bytes buf' /\ in_u 24 off' /\ world_ok w')
    (scratch_circular_copy w base off size t buf dir).
Proof.
  intros Hw Hb Hoff Hsz -> Hlen. unfold scratch_circular_copy. cbv zeta.
  eapply safe_mono; [apply circular_safe; try done; try lia; zcases; lia |].
  intros [[b o] w'] (? & ? & ? & ?). split; [done | split; [done | split; [| done]]]. unfold in_u. lia.
Qed.

(** A count word, its samples and its channels. *)
Lemma interleave_fits count : 0 <= count -> let cc := (count .& 0xF) + 1 in let bc := count ≫ 4 in
  0 <= bc /\ 1 <= cc <= 16 /\ bc * cc <= count.
Proof.
  intros Hc cc bc. unfold cc, bc. change 0xF with (Z.ones 4). rewrite Z.land_ones, Z.shiftr_div_pow2 by lia.
  change (2 ^ 4) with 16. pose proof (Z.div_mod count 16 ltac:(done)). pose proof (Z.mod_pos_bound count 16 ltac:(done)).
  pose proof (Z.div_pos count 16 Hc ltac:(done)). nia.
Qed.

Lemma interleaved_range mem count : 0 <= mem -> 0 <= count -> mem + count < 2 ^ 31 ->
  Forall (in_u 32) (interleaved mem (count ≫ 4) ((count .& 0xF) + 1)).
Proof.
  intros Hm Hc Hend. destruct (interleave_fits count Hc) as (Hbc & Hcc & Hfit).
  apply Forall_forall. intros a Ha. apply list_elem_of_In, in_flat_map in Ha as (i & Hi & Ha).
  apply in_map_iff in Ha as (ch & <- & Hch). apply list_elem_of_In, elem_of_seqZ in Hi, Hch. unfold in_u. nia.
Qed.

Lemma linear_range mem count : 0 <= mem -> mem + count < 2 ^ 31 -> Forall (in_u 32) (linear mem count).
Proof.
  intros Hm Hend. apply Forall_forall. intros a Ha. apply list_elem_of_In, in_map_iff in Ha as (i & <- & Hi).
  apply list_elem_of_In, elem_of_seqZ in Hi. unfold in_u. lia.
Qed.

Definition block_ok (b : block) : Prop :=
  in_u 24 (b_count b) /\ in_u 24 (b_scratch_offset b) /\ 1 <= b_scratch_size b <= 2 ^ 24.

Lemma transfer_out_safe c (w : W) b interleave buf_id sz space mem :
  core_ok inst c -> world_ok w -> block_ok b -> sz = 2 \/ sz = 4 -> 0 <= mem < 2 ^ 24 ->
  safe (fun '(off, w') => in_u 24 off /\ world_ok w') (transfer_out c w b interleave buf_id sz space mem).
Proof.
  intros Hc Hw (Hcount & Hoff & Hsize) Hsz Hmem. unfold transfer_out. cbv zeta. set (count := b_count b) in *.
  unfold in_u in Hcount. destruct (interleave_fits count ltac:(lia)) as (Hbc & Hcc & Hfit).
  pose proof (length_interleaved mem (count ≫ 4) ((count .& 0xF) + 1) ltac:(lia) ltac:(lia)) as Lint.
  assert (Llin : zlen (linear mem count) = count) by (unfold linear; rewrite length_map, length_seqZ; lia).
  assert (Hcs : 0 <= count * sz < 2 ^ 27) by (destruct Hsz; subst sz; lia).
  rewrite (u32_small (count * sz)) by lia. set (buf := replicate _ 0).
  assert (Lbuf : zlen buf = count * sz) by (unfold buf; rewrite length_replicate; lia).
  assert (Hbuf : bytes buf) by by apply Forall_replicate.
  eapply (safe_bind (fun '(size, buf') => bytes buf' /\ 0 <= size <= zlen buf' /\ zlen buf' < 2 ^ 31)).
  - destruct interleave.
    + eapply safe_bind; [apply (gather_safe inst); try done; [apply interleaved_range; lia | nia] |].
      intros buf' [Lb Hb]. cbn [safe]. assert (0 <= (count ≫ 4) * sz <= count * sz) by nia.
      assert (0 <= (count ≫ 4) * sz * ((count .& 0xF) + 1) <= count * sz) by nia.
      rewrite (u32_small ((count ≫ 4) * sz)), u32_small by lia. split; [done |]. lia.
    + eapply safe_bind; [apply (gather_safe inst); try done; [apply linear_range; lia | nia] |].
      intros buf' [Lb Hb]. cbn [safe]. split; [done |]. lia.
  - intros [size buf'] (Hb & Hs & Hl). destruct (slice_bytes buf' 0 size) as (data & -> & Ld & Hd); [done | lia.. |].
    cbn [mbind outcome_bind]. destruct ((0 <=? buf_id) && (buf_id <=? 3)) eqn:Ef; [| destruct (buf_id =? 0xE); [| destruct (buf_id =? 0xF); [| done]]].
    + apply andb_true_iff in Ef as [?%Z.leb_le ?%Z.leb_le]. eapply safe_bind; [apply fifo_safe; (done || lia) |]. by intros [? w'] ?.
    + eapply safe_bind; [apply circular_copy_safe; try done; unfold in_u in *; lia |]. by intros [[? off] w'] (_ & _ & ? & ?).
    + eapply safe_bind; [by apply scratch_safe |]. by intros [? w'] (_ & _ & ?).
Qed.

Lemma transfer_in_safe c (w : W) b interleave buf_id sz mask space mem :
  core_ok inst c -> world_ok w -> block_ok b -> sz = 2 /\ mask = 0xffff \/ sz = 4 /\ mask = 0xffffff -> 0 <= mem < 2 ^ 24 ->
  safe (fun '(off, c', w') => in_u 24 off /\ core_ok inst c' /\ world_ok w') (transfer_in c w b interleave buf_id sz mask space mem).
Proof.
  intros Hc Hw (Hcount & Hoff & Hsize) Hsz Hmem. unfold transfer_in. apply safe_assert. intros _. cbv zeta.
  unfold in_u in Hcount. assert (Hsz' : sz = 2 \/ sz = 4) by tauto. rewrite (u32_small (b_count b * sz)) by lia.
  set (buf := replicate _ 0). assert (Lbuf : zlen buf = b_count b * sz) by (unfold buf; rewrite length_replicate; lia).
  assert (Hbuf : bytes buf) by by apply Forall_replicate.
  eapply (safe_bind (fun '(buf', off, w') => zlen buf' = zlen buf /\ bytes buf' /\ in_u 24 off /\ world_ok w')).
  - destruct (buf_id =? 0xE); [apply circular_copy_safe; try done; unfold in_u in *; lia |]. destruct (buf_id =? 0xF); [| done].
    eapply safe_bind; [by apply scratch_safe |]. by intros [b' w'] (? & ? & ?).
  - intros [[buf' off] w'] (Lb & Hb & Ho & Hw'). eapply safe_bind; [apply (scatter_safe inst); try done; try lia; nia |].
    by intros c' Hc'.
Qed.
Lemma dma_address_safe addr room : 0 <= addr -> safe (fun '(_, m) => 0 <= m < 0x1800) (dma_address addr room).
Proof.
  intros Ha. unfold dma_address. destruct (Z.ltb_spec addr 0x1800); [apply safe_assert; intros _; cbn [safe]; lia |].
  destruct ((0x1800 <=? addr) && (addr <? 0x2000)) eqn:E1; [apply safe_assert; intros _; cbn [safe]; lia |].
  destruct ((0x2800 <=? addr) && (addr <? 0x3800)) eqn:E2; [apply safe_assert; intros _; cbn [safe]; lia | done].
Qed.

(** The registers of the engine hold words of the DSP. *)
Record dma_ok (s : DSPDMAState) : Prop := {
  do_configuration : in_u 24 (dma_configuration s);
  do_control : in_u 24 (dma_control s);
  do_start : in_u 24 (dma_start_block s);
  do_next : in_u 24 (dma_next_block s)
}.

Lemma item_format_ok format sz mask : item_format format = Ok (sz, mask) ->
  sz = 2 /\ mask = 0xffff \/ sz = 4 /\ mask = 0xffffff.
Proof.
  unfold item_format. destruct (format =? 1); [intros [= <- <-]; by left |]. destruct (_ || _); [intros [= <- <-]; by right | done].
Qed.

Definition engine_ok (p : DSPDMAState * dsp_core * W) : Prop := let '(s, c, w) := p in dma_ok s /\ core_ok inst c /\ world_ok w.

Lemma block_safe s c w : engine_ok (s, c, w) -> safe engine_ok (dma_block s c w).
Proof.
  intros (Hs & Hc & Hw). unfold dma_block. cbv zeta. set (addr := _ .& _).
  assert (Ha : in_u 14 addr) by (unfold addr; change NODE_POINTER_VAL with (Z.ones 14); rewrite Z.land_ones by lia; apply in_u_mod; lia).
  unfold in_u in Ha. eapply safe_bind; [apply dma_address_safe; lia |]. intros [bspace baddr] Hb.
  eapply safe_bind; [apply (read_block_safe inst); [done | lia] |]. intros b (Hnext & Hcount & Hdsp & Hoff & Hsize).
  set (s1 := if flag _ NODE_POINTER_EOL then _ else _).
  assert (Hs1 : dma_ok s1) by (unfold s1; destruct Hs; destruct (flag _ _); by split).
  apply safe_assert. intros _. apply safe_assert. intros _.
  destruct (item_format _) as [[sz mask] | | |] eqn:Ef; try done; try (unfold item_format in Ef; repeat case_match; done).
  apply item_format_ok in Ef. cbn [mbind outcome_bind]. unfold in_u in Hdsp. pose proof Hcount as Hcount'. unfold in_u in Hcount'.
  eapply safe_bind; [apply dma_address_safe; lia |]. intros [mspace mem] Hm.
  eapply (safe_bind (fun '(off, c', w') => in_u 24 off /\ core_ok inst c' /\ world_ok w')).
  - destruct (flag _ NODE_CONTROL_DIRECTION).
    + eapply safe_bind; [apply transfer_out_safe; try done; [tauto | lia] |]. intros [off w'] [? ?]. done.
    + apply transfer_in_safe; (done || lia).
  - intros [[off c1] w1] (Ho & Hc1 & Hw1). eapply (safe_bind (core_ok inst)); [| by intros c2 Hc2].
    destruct (flag _ 1); [| done]. apply dma_write_safe; [done | unfold in_u; lia | by apply (in_u_mono 24)].
Qed.

Lemma loop_sound fuel : forall s c w, engine_ok (s, c, w) -> sound engine_ok (dma_loop fuel s c w).
Proof.
  induction fuel as [| fuel IH]; intros s c w Hok; cbn [dma_loop]; (destruct (flag _ _); [done |]); [done |].
  pose proof (block_safe s c w Hok) as Hb. destruct (dma_block s c w) as [[[s' c'] w'] | | |]; try done. by apply IH.
Qed.

Lemma dma_write_sound fuel s c w r v : engine_ok (s, c, w) -> in_u 24 v -> sound engine_ok (dsp_dma_write fuel s c w r v).
Proof.
  intros ([H1 H2 H3 H4] & Hc & Hw) Hv. unfold dsp_dma_write. destruct r; try (by split).
  eapply (sound_bind dma_ok).
  - assert (Hlor : forall x, in_u 24 x -> in_u 24 (dma_control s .| x)) by (intros x Hx; by apply in_u_lor).
    repeat case_match; cbn [sound]; try done; split; try done; cbn; first [apply in_u_land_l | idtac]; first [by apply Hlor | done].
  - intros s' Hs'. unfold dsp_dma_run. destruct (_ || _); [done |]. by apply loop_sound.
Qed.
End engine.

(** ** The peripheral registers *)

Section peripherals.
Context {W : Type} `{SoundIO W}.
Context (fuel : nat).

Record system_ok (d : DSPState W) : Prop := {
  sy_dma : dma_ok (dsp_dma d);
  sy_interrupts : in_u 24 (dsp_interrupts d);
  sy_world : world_ok (dsp_world d)
}.

Lemma read_periph_ok d a : system_ok d -> sound (in_u 24) (read_periph d a).
Proof.
  intros [[] Hi Hw]. unfold read_periph. cbn [sound]. repeat case_match; try done; by apply in_u_lor.
Qed.

Lemma write_periph_ok inst d a v : core_ok inst (dsp_cpu d) -> system_ok d -> in_u 24 v ->
  sound (fun d' => core_ok inst (dsp_cpu d') /\ system_ok d') (write_periph fuel d a v).
Proof.
  intros Hc [Hs Hi Hw] Hv.
  assert (Hdma : forall r, sound (fun d' => core_ok inst (dsp_cpu d') /\ system_ok d') (periph_dma_write fuel d r v)).
  { intros r. unfold periph_dma_write. eapply sound_bind; [by apply (dma_write_sound inst) |].
    intros [[s c] w] (Hs' & Hc' & Hw'). split; [done | by split]. }
  unfold write_periph. repeat case_match; try done; try apply Hdma; cbn [sound].
  - split; [| by split]. destruct Hc. by split.
  - split; [done |]. destruct Hs. split; [by split | by apply in_u_land_l | done].
  - split; [done |]. split; [done | by apply in_u_land_l | done].
Qed.

#[export] Instance dsp_sound : @SoundPeripherals (DSPState W) (dsp_has_core fuel) (dsp_has_core_laws fuel).
Proof.
  refine (Build_SoundPeripherals (DSPState W) (dsp_has_core fuel) (dsp_has_core_laws fuel) system_ok _ _ _).
  - intros s c [H1 H2 H3]. by split.
  - intros inst s a _ Hs _ _. by apply read_periph_ok.
  - intros inst s a v Hc Hs _ _ Hv. by apply write_periph_ok.
Defined.
End peripherals.

(** ** The two DSPs *)

Inductive processor := GP | EP.

Section system.
Context (ldl : list Z -> Z -> Z).

Definition processor_io (p : processor) : DspIO apu_io := match p with GP => gp_io ldl | EP => ep_io ldl end.
Definition processor_sound (p : processor) : @SoundIO apu_io (processor_io p) :=
  match p with GP => gp_sound ldl | EP => ep_sound ldl end.

(** One instruction of a processor; [fuel] bounds the blocks of a DMA transfer. *)
Definition run_instruction (p : processor) (fuel : nat) (d : DSPState apu_io) (cache : opcache_t)
    : outcome (DSPState apu_io * opcache_t) :=
  @dsp_instruction (DSPState apu_io) (@dsp_has_core apu_io (processor_io p) fuel) d cache.

(** The core, the DMA registers and the world of a processor are well typed, and the
    opcode caches are coherent. *)
Record processor_ok (p : processor) (d : DSPState apu_io) (cache : opcache_t) : Prop := {
  po_core : core_ok (cur_inst (dsp_cpu d)) (dsp_cpu d);
  po_dma : dma_ok (dsp_dma d);
  po_interrupts : in_u 24 (dsp_interrupts d);
  po_world : match p with
             | GP => fifos_ok NV_PAPU_GPOFBASE0 NV_PAPU_GPOFEND0 (dsp_world d)
             | EP => fifos_ok NV_PAPU_EPOFBASE0 NV_PAPU_EPOFEND0 (dsp_world d)
             end;
  po_cache : opcache_ok cache
}.

(** The list of DMA blocks that DSP memory holds ends within [fuel] blocks. *)
Definition dma_ends (p : processor) (fuel : nat) (d : DSPState apu_io) : Prop :=
  forall c ctl, mems c = mems (dsp_cpu d) ->
    @dma_loop apu_io (processor_io p) fuel ((dsp_dma d) <| dma_control := ctl |>) c (dsp_world d) <> NoFuel.

Lemma processor_machine p fuel d cache : processor_ok p d cache <->
  @machine_ok _ _ _ (@dsp_sound _ _ (processor_sound p) fuel) d cache.
Proof.
  split.
  - intros [H1 H2 H3 H4 H5]. split; [done | split; [split; [done | done |] | done]]. by destruct p.
  - intros (H1 & [H2 H3 H4] & H5). split; try done. by destruct p.
Qed.

(** A write to a peripheral register that does not return runs the engine. *)
Lemma write_runs_engine `{DspIO apu_io} fuel (d : DSPState apu_io) a v : write_periph fuel d a v = NoFuel ->
  exists ctl, dma_loop fuel ((dsp_dma d) <| dma_control := ctl |>) (dsp_cpu d) (dsp_world d) = NoFuel.
Proof.
  intros E. assert (Hrun : exists r, dsp_dma_write fuel (dsp_dma d) (dsp_cpu d) (dsp_world d) r v = NoFuel).
  { unfold write_periph, periph_dma_write in E. repeat case_match; try done.
    all: match type of E with (_ ← ?m; _) = _ =>
           assert (Hm : m = NoFuel) by (by destruct m as [[[? ?] ?] | | |]); eexists; exact Hm end. }
  destruct Hrun as [[] Hrun]; try done. unfold dsp_dma_write in Hrun. cbv zeta in Hrun.
  repeat match type of Hrun with (_ ← (if ?b then _ else _); _) = _ => destruct b end; cbn [mbind outcome_bind] in Hrun; try done;
    unfold dsp_dma_run in Hrun; (destruct (_ || _); [done |]); by eexists.
Qed.
End system.

(** C8: No instruction of the global or the encode processor does anything undefined,
    DMA transfers to guest RAM included. Let the machine be well typed (every register,
    stack, memory, interrupt and DMA word in its width, the opcode caches coherent, RAM
    made of bytes, no output FIFO with equal limits) and let the list of DMA blocks in
    DSP memory end. Then the execution of the word at the PC, if its shift counts, bit
    numbers and operation are those [admissible] allows, either returns a well-typed
    machine or stops at one of the assertions of the code; through decoding, operand
    addressing, arithmetic, moves, the peripheral registers and the transfers they
    start, the PC update, loops and interrupts. (A cyclic list of blocks makes the DMA
    engine run for ever.) *)
Theorem dsp_instruction_safe ldl p fuel d cache : processor_ok p d cache -> dma_ends ldl p fuel d ->
  admissible (rget (pram (dsp_cpu d)) (pc (dsp_cpu d))) = true ->
  safe (fun '(d', cache') => processor_ok p d' cache') (run_instruction ldl p fuel d cache).
Proof.
  intros Hok Hends Ha. apply sound_fuelled.
  - eapply sound_mono;
      [apply (@dsp_instruction_sound _ _ _ (@dsp_sound _ _ (processor_sound ldl p) fuel)); [by apply processor_machine | done] |].
    intros [d' cache'] Hm. by apply (processor_machine ldl p fuel).
  - intros Hrun.
    destruct (@instruction_ends (mems (dsp_cpu d)) (DSPState apu_io) _ (@dsp_has_core_laws _ (processor_io ldl p) fuel) _
      (fun d => (dsp_dma d, dsp_world d)) (dsp_dma d, dsp_world d) ltac:(done) ltac:(done) d cache ltac:(done) Hrun)
      as (s & a & v & Henv & Hmem & Hw).
    apply write_runs_engine in Hw as [ctl Hw]. injection Henv as Hdma Hworld. rewrite Hdma, Hworld in Hw.
    by apply (Hends (dsp_cpu s) ctl).
Qed.

(** The global processor with a list of blocks that has ended, about to start the DMA
    engine: [movep #1,x:$ffffd6]. *)
Definition start_dma : DSPState apu_io :=
  let c := fresh_core <| pram := rset (pram fresh_core) 0 0x08F496 |> <| pram_opcache := delete 0 (pram_opcache fresh_core) |> in
  mkDSP (c <| pram := rset (pram c) 1 1 |> <| pram_opcache := delete 1 (pram_opcache c) |>) (mkDMA 0 0 0 0x4000 false false) 0 0
    (mkApuIO [] {[NV_PAPU_GPOFEND0 := 0x1000; NV_PAPU_GPOFEND0 + 0x10 := 0x1000; NV_PAPU_GPOFEND0 + 0x20 := 0x1000;
                  NV_PAPU_GPOFEND0 + 0x30 := 0x1000]} MON_AC97 []).

Lemma start_dma_ok : processor_ok GP start_dma ∅.
Proof.
  split; [| by split | done | | by intros tag op e E].
  - apply ok_set_pram; [apply ok_set_pram; [exact fresh_core_ok | done] | done].
  - split; [by apply Forall_nil |]. intros i Hi.
    assert (i = 0 \/ i = 1 \/ i = 2 \/ i = 3) as [-> | [-> | [-> | ->]]] by lia; vm_compute; discriminate.
Qed.

Lemma dsp_instruction_safe_witness :
  admissible 0x08F496 = true /\
  safe (fun '(d', cache') => processor_ok GP d' cache') (run_instruction (fun _ _ => 0) GP 1 start_dma ∅) /\
  (fun '(d', _) => dma_control (dsp_dma d')) <$> run_instruction (fun _ _ => 0) GP 1 start_dma ∅ = Ok DMA_CONTROL_RUNNING.
Proof.
  assert (Ha : admissible 0x08F496 = true) by (vm_compute; reflexivity).
  split; [exact Ha | split; [| vm_compute; reflexivity]].
  apply (dsp_instruction_safe (fun _ _ => 0) GP 1 start_dma ∅); [exact start_dma_ok | intros c ctl _; discriminate | exact Ha].
Defined.

(** ** FIFOs with equal limits *)

(** A byte for an output FIFO of the encode processor whose limits are equal: the
    position is reduced modulo zero. *)
Example ep_fifo_divides_by_zero :
  ep_fifo_rw (fun _ _ => 0) (mkApuIO [] ∅ MON_AC97 []) [0] 0 true = Undef.
Proof. reflexivity. Qed.

(** The copy to a ring with equal limits makes no progress, however long it runs. *)
Lemma empty_ring_hangs ldl fuel d sge_base max_sge base : 0 <= base < 2 ^ 32 ->
  circular_sg_loop ldl fuel d sge_base max_sge [0] 0 base base base 1 true = NoFuel.
Proof.
  intros Hb. induction fuel as [| fuel IH]; [done |]. cbn [circular_sg_loop Z.leb Z.compare]. cbv zeta.
  rewrite Z.sub_diag. change (u32 0) with 0. cbn [Z.ltb Z.compare]. rewrite (Z.add_0_r base), (u32_small base Hb), Z.leb_refl.
  cbn [andb c_assert mbind outcome_bind]. change (slice [0] 0 0) with (Ok ([] : list Z)). cbn [mbind outcome_bind].
  change (scatter_gather_rw ldl d sge_base max_sge [] base true) with (Ok ([] : list Z, d <| io_ram := io_ram d |>)).
  cbn [mbind outcome_bind]. change (blit [0] 0 []) with (Ok [0]). cbn [mbind outcome_bind].
  rewrite Z.eqb_refl. cbn [c_assert mbind outcome_bind]. by destruct d.
Qed.

(** So the global processor does not return from a FIFO whose limits are equal and
    above its position. *)
Example gp_fifo_hangs :
  gp_fifo_rw (fun _ _ => 0) (mkApuIO [] {[NV_PAPU_GPOFBASE0 := 0x100; NV_PAPU_GPOFEND0 := 0x100]} MON_AC97 []) [0] 0 true = NoFuel.
Proof. reflexivity. Qed.
