(* ===== verification/Nv2a.v ===== *)
(** * The NV2A graphics processor: device registers (hw/xbox/nv2a)

    The GPU's state as its register blocks share it, the interrupt aggregation
    [nv2a_update_irq], and the MMIO handlers of PMC, PBUS, PCRTC, PTIMER,
    PRAMDAC, PRMDIO, PFB, PVIDEO and USER, with the DMA objects, the vblank timer
    and the reset of nv2a.c.  PFIFO's pusher and puller are in Pfifo.v, the methods of
    the 2D classes, whose state is declared here, in ImageBlit.v and Pgraph.v.  The
    invariant: the PCI interrupt line always shows what the units request. *)

From stdpp Require Import base numbers list gmap.
From Stdlib Require Import ZArith Lia.
From S2P Require Import Prelude.

(** ** Register numbers (nv2a_regs.h) *)

Abbreviation NV_PMC_BOOT_0 := 0x0.
Abbreviation NV_PMC_INTR_0 := 0x100.
Abbreviation NV_PMC_INTR_0_PFIFO := 0x100.
Abbreviation NV_PMC_INTR_0_PGRAPH := 0x1000.
Abbreviation NV_PMC_INTR_0_PCRTC := 0x1000000.
Abbreviation NV_PMC_INTR_EN_0 := 0x140.
Abbreviation NV_PBUS_PCI_NV_0 := 0x800.
Abbreviation NV_PBUS_PCI_NV_1 := 0x804.
Abbreviation NV_PBUS_PCI_NV_2 := 0x808.
Abbreviation NV_PCRTC_INTR_0 := 0x100.
Abbreviation NV_PCRTC_INTR_0_VBLANK := 1.
Abbreviation NV_PCRTC_INTR_EN_0 := 0x140.
Abbreviation NV_PCRTC_START := 0x800.
Abbreviation NV_PCRTC_RASTER := 0x808.
Abbreviation NV_PTIMER_INTR_0 := 0x100.
Abbreviation NV_PTIMER_INTR_EN_0 := 0x140.
Abbreviation NV_PTIMER_NUMERATOR := 0x200.
Abbreviation NV_PTIMER_DENOMINATOR := 0x210.
Abbreviation NV_PTIMER_TIME_0 := 0x400.
Abbreviation NV_PTIMER_TIME_1 := 0x410.
Abbreviation NV_PTIMER_ALARM_0 := 0x420.
Abbreviation NV_PRAMDAC_NVPLL_COEFF := 0x500.
Abbreviation NV_PRAMDAC_MPLL_COEFF := 0x504.
Abbreviation NV_PRAMDAC_VPLL_COEFF := 0x508.
Abbreviation NV_PRAMDAC_PLL_TEST_COUNTER := 0x514.
Abbreviation NV_PRAMDAC_GENERAL_CONTROL := 0x600.
Abbreviation NV_PRAMDAC_GENERAL_CONTROL_ALT_MODE_SEL := 0x1000.
Abbreviation NV_PRAMDAC_FP_VDISPLAY_END := 0x800.
Abbreviation NV_PRAMDAC_FP_VCRTC := 0x808.
Abbreviation NV_PRAMDAC_FP_VSYNC_END := 0x810.
Abbreviation NV_PRAMDAC_FP_VVALID_END := 0x818.
Abbreviation NV_PRAMDAC_FP_HDISPLAY_END := 0x820.
Abbreviation NV_PRAMDAC_FP_HCRTC := 0x828.
Abbreviation NV_PRAMDAC_FP_HVALID_END := 0x838.
Abbreviation NV_USER_DAC_WRITE_MODE_ADDRESS := 0x3C8.
Abbreviation NV_USER_DAC_PALETTE_DATA := 0x3C9.
Abbreviation NV_PFB_CSTATUS := 0x20C.
Abbreviation NV_PFB_WBC := 0x410.
Abbreviation NV_PVIDEO_BUFFER := 0x700.
Abbreviation NV_PVIDEO_STOP := 0x704.
Abbreviation NV_USER_DMA_PUT := 0x40.
Abbreviation NV_USER_DMA_GET := 0x44.
Abbreviation NV_USER_REF := 0x48.
Abbreviation NV_PFIFO_MODE := 0x504.
Abbreviation NV_PFIFO_CACHE1_PUSH1 := 0x1204.
Abbreviation NV_PFIFO_CACHE1_PUSH1_CHID := 0x1F.
Abbreviation NV_PFIFO_CACHE1_STATUS := 0x1214.
Abbreviation NV_PFIFO_CACHE1_STATUS_LOW_MARK := 0x10.
Abbreviation NV_PFIFO_CACHE1_DMA_PUT := 0x1240.
Abbreviation NV_PFIFO_CACHE1_DMA_GET := 0x1244.
Abbreviation NV_PFIFO_CACHE1_REF := 0x1248.
Abbreviation NV2A_NUM_CHANNELS := 32.
Abbreviation NV2A_CRYSTAL_FREQ := 16666666.
Abbreviation NANOSECONDS_PER_SECOND := 1000000000.
Abbreviation NV_NUM_GPU_TILES := 8.

(** ** State of the 2D classes (pgraph.h) *)

Record ContextSurfaces2DState := mkSurfaces2D {
  surfaces_instance : Z;
  dma_image_source : Z;
  dma_image_dest : Z;
  color_format : Z;
  source_pitch : Z;
  dest_pitch : Z;
  source_offset : Z;
  dest_offset : Z
}.

Record ImageBlitState := mkImageBlit {
  blit_instance : Z;
  context_surfaces : Z;
  operation : Z;
  in_x : Z;
  in_y : Z;
  out_x : Z;
  out_y : Z;
  width : Z;
  height : Z
}.

Record BetaState := mkBeta {
  beta_instance : Z;
  beta : Z
}.

(** A surface of the renderer: rendered pixels that video memory may not have yet. *)
Record SurfaceBinding := mkSurface {
  vram_addr : Z;
  surface_width : Z;
  surface_height : Z;
  draw_dirty : bool;
  download_pending : bool;
  upload_pending : bool
}.

#[export] Instance eta_surfaces_2d : Eta ContextSurfaces2DState := fun c =>
  mkSurfaces2D (surfaces_instance c) (dma_image_source c) (dma_image_dest c) (color_format c) (source_pitch c)
    (dest_pitch c) (source_offset c) (dest_offset c).
#[export] Instance eta_image_blit : Eta ImageBlitState := fun i =>
  mkImageBlit (blit_instance i) (context_surfaces i) (operation i) (in_x i) (in_y i) (out_x i) (out_y i) (width i) (height i).
#[export] Instance eta_beta : Eta BetaState := fun b => mkBeta (beta_instance b) (beta b).

#[export] Instance eta_surface : Eta SurfaceBinding := fun s =>
  mkSurface (vram_addr s) (surface_width s) (surface_height s) (draw_dirty s) (download_pending s) (upload_pending s).

(** ** State

    The fields of [NV2AState] and of the parts of [PGRAPHState] that the other
    blocks use; [nv_irq] is the level of the PCI interrupt line, [vblank_deadline]
    the expiry of [vblank_timer] once the timer exists. *)
Record NV2AState := mkNV2A {
  nv_irq : bool;
  nv_config : list Z;
  nv_vram : list Z;
  nv_ramin : list Z;
  vblank_deadline : option Z;
  pmc_pending : Z;
  pmc_enabled : Z;
  pfifo_pending : Z;
  pfifo_enabled : Z;
  pfifo_regs : gmap Z Z;
  pfifo_kicked : bool;
  pfifo_halt : bool;
  pvideo_regs : gmap Z Z;
  ptimer_pending : Z;
  ptimer_enabled : Z;
  ptimer_numerator : Z;
  ptimer_denominator : Z;
  ptimer_alarm_time : Z;
  pfb_regs : gmap Z Z;
  pgraph_pending : Z;
  pgraph_enabled : Z;
  pgraph_regs : gmap Z Z;
  regs_dirty : gset Z;
  vsh_constants : list Z;
  waiting_for_nop : bool;
  waiting_for_flip : bool;
  waiting_for_context_switch : bool;
  pcrtc_pending : Z;
  pcrtc_enabled : Z;
  pcrtc_start : Z;
  pcrtc_raster : Z;
  core_clock_coeff : Z;
  core_clock_freq : Z;
  memory_clock_coeff : Z;
  video_clock_coeff : Z;
  general_control : Z;
  fp_vdisplay_end : Z;
  fp_vcrtc : Z;
  fp_vsync_end : Z;
  fp_vvalid_end : Z;
  fp_hdisplay_end : Z;
  fp_hcrtc : Z;
  fp_hvalid_end : Z;
  write_mode_address : Z;
  dac_palette : list Z;
  pg_surfaces_2d : ContextSurfaces2DState;
  pg_image_blit : ImageBlitState;
  pg_beta : BetaState;
  surfaces : list SurfaceBinding;
  draw_time : Z
}.

#[export] Instance eta_NV2AState : Eta NV2AState := fun d =>
  mkNV2A (nv_irq d) (nv_config d) (nv_vram d) (nv_ramin d) (vblank_deadline d) (pmc_pending d)
    (pmc_enabled d) (pfifo_pending d) (pfifo_enabled d) (pfifo_regs d) (pfifo_kicked d) (pfifo_halt d)
    (pvideo_regs d) (ptimer_pending d) (ptimer_enabled d) (ptimer_numerator d) (ptimer_denominator d)
    (ptimer_alarm_time d) (pfb_regs d) (pgraph_pending d) (pgraph_enabled d) (pgraph_regs d)
    (regs_dirty d) (vsh_constants d) (waiting_for_nop d) (waiting_for_flip d) (waiting_for_context_switch d) (pcrtc_pending d)
    (pcrtc_enabled d) (pcrtc_start d) (pcrtc_raster d) (core_clock_coeff d) (core_clock_freq d)
    (memory_clock_coeff d) (video_clock_coeff d) (general_control d) (fp_vdisplay_end d) (fp_vcrtc d)
    (fp_vsync_end d) (fp_vvalid_end d) (fp_hdisplay_end d) (fp_hcrtc d) (fp_hvalid_end d)
    (write_mode_address d) (dac_palette d) (pg_surfaces_2d d) (pg_image_blit d) (pg_beta d) (surfaces d) (draw_time d).

(** ** Interrupts *)

(** Set or clear a unit's bit of PMC. *)
Definition unit_bit (pending enabled bit pmc : Z) : Z :=
  if flag pending enabled then pmc .| bit else pmc .& u32 (Z.lnot bit).

Definition nv2a_update_irq (d : NV2AState) : NV2AState :=
  let d := d <| pmc_pending :=
    unit_bit (pfifo_pending d) (pfifo_enabled d) NV_PMC_INTR_0_PFIFO (pmc_pending d) |> in
  let d := d <| pmc_pending :=
    unit_bit (pcrtc_pending d) (pcrtc_enabled d) NV_PMC_INTR_0_PCRTC (pmc_pending d) |> in
  let d := d <| pmc_pending :=
    unit_bit (pgraph_pending d) (pgraph_enabled d) NV_PMC_INTR_0_PGRAPH (pmc_pending d) |> in
  d <| nv_irq := negb (pmc_pending d =? 0) && negb (pmc_enabled d =? 0) |>.

(** ** PMC and PBUS *)

Definition pmc_read (d : NV2AState) (addr : Z) : Z :=
  if addr =? NV_PMC_BOOT_0 then 0x02A000A3
  else if addr =? NV_PMC_INTR_0 then pmc_pending d
  else if addr =? NV_PMC_INTR_EN_0 then pmc_enabled d
  else 0.

Definition pmc_write (d : NV2AState) (addr val : Z) : NV2AState :=
  if addr =? NV_PMC_INTR_0 then
    nv2a_update_irq (d <| pmc_pending := pmc_pending d .& u32 (Z.lnot val) |>)
  else if addr =? NV_PMC_INTR_EN_0 then
    nv2a_update_irq (d <| pmc_enabled := u32 val |>)
  else d.

(** [pci_get_long] and [pci_set_long] at the standard header's offsets. *)
Abbreviation PCI_VENDOR_ID := 0x00.
Abbreviation PCI_COMMAND := 0x04.
Abbreviation PCI_CLASS_REVISION := 0x08.

Definition pci_get_long (config : list Z) (off : Z) : outcome Z :=
  bs ← slice config off 4; Ok (le_val bs).

Definition pci_set_long (config : list Z) (off v : Z) : outcome (list Z) :=
  blit config off (le_bytes 4 v).

Definition pbus_read (d : NV2AState) (addr : Z) : outcome Z :=
  if addr =? NV_PBUS_PCI_NV_0 then pci_get_long (nv_config d) PCI_VENDOR_ID
  else if addr =? NV_PBUS_PCI_NV_1 then pci_get_long (nv_config d) PCI_COMMAND
  else if addr =? NV_PBUS_PCI_NV_2 then pci_get_long (nv_config d) PCI_CLASS_REVISION
  else Ok 0.

Definition pbus_write (d : NV2AState) (addr val : Z) : outcome NV2AState :=
  if addr =? NV_PBUS_PCI_NV_1 then
    config ← pci_set_long (nv_config d) PCI_COMMAND (u32 val);
    Ok (d <| nv_config := config |>)
  else Ok d.

(** ** PCRTC and the vblank timer *)

(** Reading the raster position advances it. *)
Definition pcrtc_read (d : NV2AState) (addr : Z) : Z * NV2AState :=
  if addr =? NV_PCRTC_INTR_0 then (pcrtc_pending d, d)
  else if addr =? NV_PCRTC_INTR_EN_0 then (pcrtc_enabled d, d)
  else if addr =? NV_PCRTC_START then (pcrtc_start d, d)
  else if addr =? NV_PCRTC_RASTER then
    (pcrtc_raster d, d <| pcrtc_raster := u32 (pcrtc_raster d + 1) |>)
  else (0, d).

Definition pcrtc_write (d : NV2AState) (addr val : Z) : NV2AState :=
  if addr =? NV_PCRTC_INTR_0 then
    nv2a_update_irq (d <| pcrtc_pending := pcrtc_pending d .& u32 (Z.lnot val) |>)
  else if addr =? NV_PCRTC_INTR_EN_0 then
    nv2a_update_irq (d <| pcrtc_enabled := u32 val |>)
  else if addr =? NV_PCRTC_START then d <| pcrtc_start := val .& 0x07FFFFFF |>
  else d.

Definition nv2a_calc_vblank_period_ns (d : NV2AState) : Z :=
  if 480 <? fp_vdisplay_end d then NANOSECONDS_PER_SECOND / 50 else 16683750.

(** [now] is [qemu_clock_get_ns(QEMU_CLOCK_REALTIME)]. *)
Definition nv2a_vblank_timer_cb (now : Z) (d : NV2AState) : NV2AState :=
  let d := d <| pcrtc_pending := pcrtc_pending d .| NV_PCRTC_INTR_0_VBLANK |> <| pcrtc_raster := 0 |> in
  let d := nv2a_update_irq d in
  d <| vblank_deadline := Some (now + nv2a_calc_vblank_period_ns d) |>.

Definition nv2a_vblank_recalc (now : Z) (d : NV2AState) : NV2AState :=
  match vblank_deadline d with
  | Some _ => d <| vblank_deadline := Some (now + nv2a_calc_vblank_period_ns d) |>
  | None => d
  end.

(** ** PTIMER *)

(** [muldiv64(a, b, c)]: the 96-bit product divided, 64 bits of it. *)
Definition muldiv64 (a b c : Z) : outcome Z :=
  if u32 c =? 0 then Undef else Ok (u64 (a * u32 b / u32 c)).

(** [ns] is [qemu_clock_get_ns(QEMU_CLOCK_VIRTUAL)]. *)
Definition ptimer_get_clock (ns : Z) (d : NV2AState) : outcome Z :=
  t ← muldiv64 ns (core_clock_freq d) NANOSECONDS_PER_SECOND;
  muldiv64 t (ptimer_denominator d) (ptimer_numerator d).

Definition ptimer_read (ns : Z) (d : NV2AState) (addr : Z) : outcome Z :=
  if addr =? NV_PTIMER_INTR_0 then Ok (ptimer_pending d)
  else if addr =? NV_PTIMER_INTR_EN_0 then Ok (ptimer_enabled d)
  else if addr =? NV_PTIMER_NUMERATOR then Ok (ptimer_numerator d)
  else if addr =? NV_PTIMER_DENOMINATOR then Ok (ptimer_denominator d)
  else if addr =? NV_PTIMER_TIME_0 then
    c ← ptimer_get_clock ns d; Ok ((c .& 0x7ffffff) ≪ 5)
  else if addr =? NV_PTIMER_TIME_1 then
    c ← ptimer_get_clock ns d; Ok ((c ≫ 27) .& 0x1fffffff)
  else Ok 0.

Definition ptimer_write (d : NV2AState) (addr val : Z) : NV2AState :=
  if addr =? NV_PTIMER_INTR_0 then
    nv2a_update_irq (d <| ptimer_pending := ptimer_pending d .& u32 (Z.lnot val) |>)
  else if addr =? NV_PTIMER_INTR_EN_0 then
    nv2a_update_irq (d <| ptimer_enabled := u32 val |>)
  else if addr =? NV_PTIMER_DENOMINATOR then d <| ptimer_denominator := u32 val |>
  else if addr =? NV_PTIMER_NUMERATOR then d <| ptimer_numerator := u32 val |>
  else if addr =? NV_PTIMER_ALARM_0 then d <| ptimer_alarm_time := u32 val |>
  else d.

(** ** PRAMDAC *)

(** The register at a word address; the PLLs report locked. *)
Definition pramdac_reg (d : NV2AState) (addr : Z) : Z :=
  if addr =? NV_PRAMDAC_NVPLL_COEFF then core_clock_coeff d
  else if addr =? NV_PRAMDAC_MPLL_COEFF then memory_clock_coeff d
  else if addr =? NV_PRAMDAC_VPLL_COEFF then video_clock_coeff d
  else if addr =? NV_PRAMDAC_PLL_TEST_COUNTER then
    (1 ≪ 27) .| (1 ≪ 29) .| (1 ≪ 30) .| (1 ≪ 31)
  else if addr =? NV_PRAMDAC_GENERAL_CONTROL then general_control d
  else if addr =? NV_PRAMDAC_FP_VDISPLAY_END then fp_vdisplay_end d
  else if addr =? NV_PRAMDAC_FP_VCRTC then fp_vcrtc d
  else if addr =? NV_PRAMDAC_FP_VSYNC_END then fp_vsync_end d
  else if addr =? NV_PRAMDAC_FP_VVALID_END then fp_vvalid_end d
  else if addr =? NV_PRAMDAC_FP_HDISPLAY_END then fp_hdisplay_end d
  else if addr =? NV_PRAMDAC_FP_HCRTC then fp_hcrtc d
  else if addr =? NV_PRAMDAC_FP_HVALID_END then fp_hvalid_end d
  else 0.

(** The shift count is a 64-bit unsigned expression. *)
Definition pramdac_read (d : NV2AState) (addr size : Z) : outcome Z :=
  let r := pramdac_reg d (addr .& u64 (Z.lnot 3)) in
  let shift := u64 (32 - 8 * size - 8 * (addr .& 3)) in
  if 64 <=? shift then Undef else Ok (r ≫ shift).

Definition pramdac_write (now : Z) (d : NV2AState) (addr val : Z) : NV2AState :=
  if addr =? NV_PRAMDAC_NVPLL_COEFF then
    let d := d <| core_clock_coeff := u32 val |> in
    let m := val .& 0xFF in
    let n := (val .& 0xFF00) ≫ 8 in
    let p := (val .& 0x70000) ≫ 16 in
    if m =? 0 then d <| core_clock_freq := 0 |>
    else d <| core_clock_freq := u32 (NV2A_CRYSTAL_FREQ * n) / (1 ≪ p) / m |>
  else if addr =? NV_PRAMDAC_MPLL_COEFF then d <| memory_clock_coeff := u32 val |>
  else if addr =? NV_PRAMDAC_VPLL_COEFF then d <| video_clock_coeff := u32 val |>
  else if addr =? NV_PRAMDAC_GENERAL_CONTROL then d <| general_control := u32 val |>
  else if addr =? NV_PRAMDAC_FP_VDISPLAY_END then
    nv2a_vblank_recalc now (d <| fp_vdisplay_end := u32 val |>)
  else if addr =? NV_PRAMDAC_FP_VCRTC then d <| fp_vcrtc := u32 val |>
  else if addr =? NV_PRAMDAC_FP_VSYNC_END then d <| fp_vsync_end := u32 val |>
  else if addr =? NV_PRAMDAC_FP_VVALID_END then d <| fp_vvalid_end := u32 val |>
  else if addr =? NV_PRAMDAC_FP_HDISPLAY_END then d <| fp_hdisplay_end := u32 val |>
  else if addr =? NV_PRAMDAC_FP_HCRTC then d <| fp_hcrtc := u32 val |>
  else if addr =? NV_PRAMDAC_FP_HVALID_END then d <| fp_hvalid_end := u32 val |>
  else d.

(** ** PRMDIO: the palette *)

Definition prmdio_read (d : NV2AState) (addr : Z) : Z :=
  if addr =? NV_USER_DAC_WRITE_MODE_ADDRESS then write_mode_address d / 3 else 0.

Definition prmdio_write (d : NV2AState) (addr val : Z) : outcome NV2AState :=
  if addr =? NV_USER_DAC_WRITE_MODE_ADDRESS then
    Ok (d <| write_mode_address := (val .& 0xff) * 3 |>)
  else if addr =? NV_USER_DAC_PALETTE_DATA then
    p ← wr (dac_palette d) (write_mode_address d mod (256 * 3)) (u8 val);
    Ok (d <| dac_palette := p |> <| write_mode_address := u16 (write_mode_address d + 1) |>)
  else Ok d.

(** ** PFB and PVIDEO *)

Definition pfb_read (d : NV2AState) (addr : Z) : Z :=
  if addr =? NV_PFB_CSTATUS then zlen (nv_vram d)
  else if addr =? NV_PFB_WBC then 0
  else rget (pfb_regs d) addr.

Definition pfb_write (d : NV2AState) (addr val : Z) : NV2AState :=
  d <| pfb_regs := rset (pfb_regs d) addr (u32 val) |>.

Definition pvideo_read (d : NV2AState) (addr : Z) : Z :=
  if addr =? NV_PVIDEO_STOP then 0 else rget (pvideo_regs d) addr.

(** The scanlines that [pvideo_vga_invalidate] redraws: display state only. *)
Definition pvideo_vga_invalidate (d : NV2AState) : Z * Z :=
  let y1 := GET_MASK (rget (pvideo_regs d) 0x948) 0x0FFF0000 in
  (y1, y1 + GET_MASK (rget (pvideo_regs d) 0x950) 0x0FFF0000).

(** The device, and the scanlines invalidated if any. *)
Definition pvideo_write (d : NV2AState) (addr val : Z) : NV2AState * option (Z * Z) :=
  if addr =? NV_PVIDEO_BUFFER then
    let d := d <| pvideo_regs := rset (pvideo_regs d) addr (u32 val) |> in
    (d, Some (pvideo_vga_invalidate d))
  else if addr =? NV_PVIDEO_STOP then
    let d := if flag val 1 then d <| pvideo_regs := rset (pvideo_regs d) NV_PVIDEO_BUFFER 0 |> else d in
    (d, Some (pvideo_vga_invalidate d))
  else (d <| pvideo_regs := rset (pvideo_regs d) addr (u32 val) |>, None).

(** ** PFIFO and USER: the FIFO's registers and the channel's window on them *)

Abbreviation NV_PFIFO_INTR_0 := 0x100.
Abbreviation NV_PFIFO_INTR_EN_0 := 0x140.
Abbreviation NV_PFIFO_RUNOUT_STATUS := 0x400.
Abbreviation NV_PFIFO_RUNOUT_STATUS_LOW_MARK := 0x10.

Definition pfifo_kick (d : NV2AState) : NV2AState := d <| pfifo_kicked := true |>.

Definition pfifo_read (d : NV2AState) (addr : Z) : Z :=
  if addr =? NV_PFIFO_INTR_0 then pfifo_pending d
  else if addr =? NV_PFIFO_INTR_EN_0 then pfifo_enabled d
  else if addr =? NV_PFIFO_RUNOUT_STATUS then NV_PFIFO_RUNOUT_STATUS_LOW_MARK
  else rget (pfifo_regs d) addr.

Definition pfifo_write (d : NV2AState) (addr val : Z) : NV2AState :=
  pfifo_kick
    (if addr =? NV_PFIFO_INTR_0 then
       nv2a_update_irq (d <| pfifo_pending := pfifo_pending d .& u32 (Z.lnot val) |>)
     else if addr =? NV_PFIFO_INTR_EN_0 then
       nv2a_update_irq (d <| pfifo_enabled := u32 val |>)
     else d <| pfifo_regs := rset (pfifo_regs d) addr (u32 val) |>).

(** The channel addressed is in DMA mode and is the current one. *)
Definition user_channel (d : NV2AState) (addr : Z) : outcome unit :=
  let channel_id := addr ≫ 16 in
  c_assert (channel_id <? NV2A_NUM_CHANNELS) ;;
  c_assert (flag (rget (pfifo_regs d) NV_PFIFO_MODE) (1 ≪ channel_id)) ;;
  c_assert (channel_id =? GET_MASK (rget (pfifo_regs d) NV_PFIFO_CACHE1_PUSH1) NV_PFIFO_CACHE1_PUSH1_CHID).

(** The PFIFO register behind an offset of the window. *)
Definition user_reg (addr : Z) : option Z :=
  let a := addr .& 0xFFFF in
  if a =? NV_USER_DMA_PUT then Some NV_PFIFO_CACHE1_DMA_PUT
  else if a =? NV_USER_DMA_GET then Some NV_PFIFO_CACHE1_DMA_GET
  else if a =? NV_USER_REF then Some NV_PFIFO_CACHE1_REF
  else None.

Definition user_read (d : NV2AState) (addr : Z) : outcome Z :=
  user_channel d addr ;;
  Ok (match user_reg addr with Some r => rget (pfifo_regs d) r | None => 0 end).

Definition user_write (d : NV2AState) (addr val : Z) : outcome NV2AState :=
  user_channel d addr ;;
  match user_reg addr with
  | Some r => Ok (pfifo_kick (d <| pfifo_regs := rset (pfifo_regs d) r (u32 val) |>))
  | None => AssertFail
  end.

(** ** PGRAPH: registers

    The engine behind the registers is the interface of [Pfifo]; here are the
    register file with its dirty map, the indirect window on the vertex
    constants ([vsh_constants], rows of four words) and the channel switch. *)

Abbreviation NV_PGRAPH_DEBUG_3 := 0x8C.
Abbreviation NV_PGRAPH_DEBUG_3_HW_CONTEXT_SWITCH := 4.
Abbreviation NV_PGRAPH_INTR := 0x100.
Abbreviation NV_PGRAPH_INTR_CONTEXT_SWITCH := 0x1000.
Abbreviation NV_PGRAPH_INTR_ERROR := 0x100000.
Abbreviation NV_PGRAPH_INTR_EN := 0x140.
Abbreviation NV_PGRAPH_CTX_CONTROL := 0x144.
Abbreviation NV_PGRAPH_CTX_CONTROL_CHID := 0x10000.
Abbreviation NV_PGRAPH_CTX_USER := 0x148.
Abbreviation NV_PGRAPH_CTX_USER_CHID := 0x1F000000.
Abbreviation NV_PGRAPH_TRAPPED_ADDR := 0x704.
Abbreviation NV_PGRAPH_TRAPPED_ADDR_CHID := 0x01F00000.
Abbreviation NV_PGRAPH_SURFACE := 0x710.
Abbreviation NV_PGRAPH_SURFACE_WRITE_3D := 0x00700000.
Abbreviation NV_PGRAPH_SURFACE_READ_3D := 0x07000000.
Abbreviation NV_PGRAPH_SURFACE_MODULO_3D := 0x70000000.
Abbreviation NV_PGRAPH_INCREMENT := 0x71C.
Abbreviation NV_PGRAPH_INCREMENT_READ_3D := 2.
Abbreviation NV_PGRAPH_FIFO := 0x720.
Abbreviation NV_PGRAPH_FIFO_ACCESS := 1.
Abbreviation NV_PGRAPH_RDI_INDEX := 0x750.
Abbreviation NV_PGRAPH_RDI_INDEX_ADDRESS := 0x1FFC.
Abbreviation NV_PGRAPH_RDI_INDEX_SELECT := 0x01FF0000.
Abbreviation NV_PGRAPH_RDI_DATA := 0x754.
Abbreviation NV_PGRAPH_CHANNEL_CTX_POINTER := 0x784.
Abbreviation NV_PGRAPH_CHANNEL_CTX_POINTER_INST := 0xFFFF.
Abbreviation NV_PGRAPH_CHANNEL_CTX_TRIGGER := 0x788.
Abbreviation NV_PGRAPH_CHANNEL_CTX_TRIGGER_READ_IN := 1.
Abbreviation RDI_INDEX_VTX_CONSTANTS0 := 0x17.
Abbreviation RDI_INDEX_VTX_CONSTANTS1 := 0xCC.
Abbreviation NV2A_VERTEXSHADER_CONSTANTS := 192.

Definition pgraph_reg_r (d : NV2AState) (r : Z) : outcome Z :=
  c_assert (r mod 4 =? 0) ;; Ok (rget (pgraph_regs d) r).

Definition pgraph_reg_w (d : NV2AState) (r v : Z) : outcome NV2AState :=
  c_assert (r mod 4 =? 0) ;;
  Ok (d <| regs_dirty := if rget (pgraph_regs d) r =? v then regs_dirty d else {[r / 4]} ∪ regs_dirty d |>
        <| pgraph_regs := rset (pgraph_regs d) r v |>).

Definition PG_GET_MASK (d : NV2AState) (reg mask : Z) : outcome Z :=
  v ← pgraph_reg_r d reg; Ok (GET_MASK v mask).

Definition PG_SET_MASK (d : NV2AState) (reg mask value : Z) : outcome NV2AState :=
  v ← pgraph_reg_r d reg; pgraph_reg_w d reg (SET_MASK v mask value).

Definition pgraph_rdi_read (d : NV2AState) (select address : Z) : outcome Z :=
  if (select =? RDI_INDEX_VTX_CONSTANTS0) || (select =? RDI_INDEX_VTX_CONSTANTS1) then
    c_assert (address / 4 <? NV2A_VERTEXSHADER_CONSTANTS) ;;
    rd (vsh_constants d) (4 * (address / 4) + (3 - address mod 4))
  else AssertFail.

(** Writing the constants through the window is refused as untested. *)
Definition pgraph_rdi_write (d : NV2AState) (select address val : Z) : outcome NV2AState :=
  if (select =? RDI_INDEX_VTX_CONSTANTS0) || (select =? RDI_INDEX_VTX_CONSTANTS1) then AssertFail
  else Ok d.

(** The index moves on after an access, and must not run into the selector. *)
Definition rdi_advance (d : NV2AState) (address : Z) : outcome NV2AState :=
  c_assert (address <? GET_MASK NV_PGRAPH_RDI_INDEX_ADDRESS NV_PGRAPH_RDI_INDEX_ADDRESS) ;;
  PG_SET_MASK d NV_PGRAPH_RDI_INDEX NV_PGRAPH_RDI_INDEX_ADDRESS (address + 1).

Definition pgraph_read (d : NV2AState) (addr : Z) : outcome (Z * NV2AState) :=
  if addr =? NV_PGRAPH_INTR then Ok (pgraph_pending d, d)
  else if addr =? NV_PGRAPH_INTR_EN then Ok (pgraph_enabled d, d)
  else if addr =? NV_PGRAPH_RDI_DATA then
    select ← PG_GET_MASK d NV_PGRAPH_RDI_INDEX NV_PGRAPH_RDI_INDEX_SELECT;
    address ← PG_GET_MASK d NV_PGRAPH_RDI_INDEX NV_PGRAPH_RDI_INDEX_ADDRESS;
    r ← pgraph_rdi_read d select address;
    d ← rdi_advance d address;
    Ok (r, d)
  else r ← pgraph_reg_r d addr; Ok (r, d).

(** Acknowledging interrupts releases the puller. *)
Definition pgraph_ack (d : NV2AState) (val : Z) : NV2AState :=
  let d := d <| pgraph_pending := pgraph_pending d .& u32 (Z.lnot val) |> in
  let d := if flag (pgraph_pending d) NV_PGRAPH_INTR_ERROR then d else d <| waiting_for_nop := false |> in
  let d := if flag (pgraph_pending d) NV_PGRAPH_INTR_CONTEXT_SWITCH then d
           else d <| waiting_for_context_switch := false |> in
  pfifo_kick d.

(** The flip index of the surface in front advances, modulo the swap chain. *)
Definition increment_read_3d (d : NV2AState) : outcome NV2AState :=
  i ← PG_GET_MASK d NV_PGRAPH_SURFACE NV_PGRAPH_SURFACE_READ_3D;
  n ← PG_GET_MASK d NV_PGRAPH_SURFACE NV_PGRAPH_SURFACE_MODULO_3D;
  if n =? 0 then Undef else
  d ← PG_SET_MASK d NV_PGRAPH_SURFACE NV_PGRAPH_SURFACE_READ_3D ((i + 1) mod n);
  Ok (pfifo_kick d).

Definition pgraph_write (d : NV2AState) (addr val : Z) : outcome NV2AState :=
  d ← (if addr =? NV_PGRAPH_INTR then Ok (pgraph_ack d val)
       else if addr =? NV_PGRAPH_INTR_EN then Ok (d <| pgraph_enabled := u32 val |>)
       else if addr =? NV_PGRAPH_INCREMENT then
         if flag val NV_PGRAPH_INCREMENT_READ_3D then increment_read_3d d else Ok d
       else if addr =? NV_PGRAPH_RDI_DATA then
         select ← PG_GET_MASK d NV_PGRAPH_RDI_INDEX NV_PGRAPH_RDI_INDEX_SELECT;
         address ← PG_GET_MASK d NV_PGRAPH_RDI_INDEX NV_PGRAPH_RDI_INDEX_ADDRESS;
         d ← pgraph_rdi_write d select address val;
         rdi_advance d address
       else if addr =? NV_PGRAPH_CHANNEL_CTX_TRIGGER then
         inst ← PG_GET_MASK d NV_PGRAPH_CHANNEL_CTX_POINTER NV_PGRAPH_CHANNEL_CTX_POINTER_INST;
         if flag val NV_PGRAPH_CHANNEL_CTX_TRIGGER_READ_IN then
           c_assert (inst ≪ 4 <? zlen (nv_ramin d)) ;;
           bs ← slice (nv_ramin d) (inst ≪ 4) 4;
           pgraph_reg_w d NV_PGRAPH_CTX_USER (le_val bs)
         else Ok d
       else pgraph_reg_w d addr (u32 val));
  Ok (if addr =? NV_PGRAPH_FIFO then pfifo_kick d else d).

Definition pgraph_context_switch (d : NV2AState) (channel_id : Z) : outcome NV2AState :=
  control ← pgraph_reg_r d NV_PGRAPH_CTX_CONTROL;
  pgraph_channel_id ← PG_GET_MASK d NV_PGRAPH_CTX_USER NV_PGRAPH_CTX_USER_CHID;
  if flag control NV_PGRAPH_CTX_CONTROL_CHID && (pgraph_channel_id =? channel_id) then Ok d else
  d ← PG_SET_MASK d NV_PGRAPH_TRAPPED_ADDR NV_PGRAPH_TRAPPED_ADDR_CHID channel_id;
  hw ← PG_GET_MASK d NV_PGRAPH_DEBUG_3 NV_PGRAPH_DEBUG_3_HW_CONTEXT_SWITCH;
  c_assert (hw =? 0) ;;
  Ok (nv2a_update_irq (d <| waiting_for_context_switch := true |>
                         <| pgraph_pending := pgraph_pending d .| NV_PGRAPH_INTR_CONTEXT_SWITCH |>)).

(** ** DMA objects *)

Record DMAObject := mkDMAObject { dma_class : Z; dma_target : Z; dma_addr : Z; dma_limit : Z }.

Definition ldl_le_p (mem : list Z) (off : Z) : outcome Z := bs ← slice mem off 4; Ok (le_val bs).

Definition nv_dma_load (d : NV2AState) (dma_obj_address : Z) : outcome DMAObject :=
  c_assert (dma_obj_address <? zlen (nv_ramin d)) ;;
  flags ← ldl_le_p (nv_ramin d) dma_obj_address;
  limit ← ldl_le_p (nv_ramin d) (dma_obj_address + 4);
  frame ← ldl_le_p (nv_ramin d) (dma_obj_address + 8);
  Ok (mkDMAObject (GET_MASK flags 0xFFF) (GET_MASK flags 0x30000)
        ((frame .& 0xFFFFF000) .| GET_MASK flags 0xFFF00000) limit).

(** The offset into video memory of the pointer returned, and the length. *)
Definition nv_dma_map (d : NV2AState) (dma_obj_address : Z) : outcome (Z * Z) :=
  dma ← nv_dma_load d dma_obj_address;
  let address := dma_addr dma .& 0x07FFFFFF in
  c_assert (address <? zlen (nv_vram d)) ;;
  Ok (address, dma_limit dma).

(** ** Clipping a blit at a tile *)

Fixpoint clip_tiles (n : nat) (i : Z) (regs : gmap Z Z) (base len : Z) : Z :=
  match n with
  | O => len
  | S n =>
      let base_and_flags := rget regs (0x240 + i * 0x10) in
      if negb (flag base_and_flags 1) then clip_tiles n (i + 1) regs base len else
      let limit := rget regs (0x244 + i * 0x10) in
      if (base <? limit) && (limit <? u64 (base + len)) then u64 (u32 (limit + 1) - base)
      else clip_tiles n (i + 1) regs base len
  end.

Definition nv_clip_gpu_tile_blit (d : NV2AState) (base len : Z) : Z :=
  clip_tiles (Z.to_nat NV_NUM_GPU_TILES) 0 (pfb_regs d) base len.

(** ** Reset

    The pauses for the FIFO thread to flush and the reset of the VGA core are
    outside the model. *)
Definition nv2a_reset (d : NV2AState) : NV2AState :=
  d <| pfifo_regs := rset ∅ NV_PFIFO_CACHE1_STATUS (0 .| NV_PFIFO_CACHE1_STATUS_LOW_MARK) |>
    <| pgraph_regs := ∅ |> <| pvideo_regs := ∅ |>
    <| pcrtc_start := 0 |> <| core_clock_coeff := 0x00011C01 |> <| core_clock_freq := 233333324 |>
    <| memory_clock_coeff := 0 |> <| video_clock_coeff := 0x0003C20D |>
    <| waiting_for_nop := false |> <| waiting_for_flip := false |>
    <| waiting_for_context_switch := false |>
    <| pmc_pending := 0 |> <| pfifo_pending := 0 |> <| ptimer_pending := 0 |> <| pcrtc_pending := 0 |>
    <| dac_palette := flat_map (fun i => [i; i; i]) (seqZ 0 256) |>
    <| pfifo_kicked := true |>.

(** ** The interrupt line *)

#[local] Arguments unit_bit : simpl never.
#[local] Arguments Z.testbit : simpl never.

(** PMC's summary shows what PFIFO and PCRTC request, and the line follows the
    summary. *)
Record irq_ok (d : NV2AState) : Prop := {
  irq_pfifo : Z.testbit (pmc_pending d) 8 = flag (pfifo_pending d) (pfifo_enabled d);
  irq_pcrtc : Z.testbit (pmc_pending d) 24 = flag (pcrtc_pending d) (pcrtc_enabled d);
  irq_line : nv_irq d = negb (pmc_pending d =? 0) && negb (pmc_enabled d =? 0)
}.

Lemma unit_bit_same p e k v : 0 <= k < 32 -> Z.testbit (unit_bit p e (2 ^ k) v) k = flag p e.
Proof.
  intros Hk. unfold unit_bit. destruct (flag p e).
  - rewrite Z.lor_spec, Z.pow2_bits_true by lia. apply orb_true_r.
  - rewrite Z.land_spec, Z.mod_pow2_bits_low, Z.lnot_spec, Z.pow2_bits_true by lia. apply andb_false_r.
Qed.

Lemma unit_bit_other p e k v i : 0 <= k < 32 -> 0 <= i < 32 -> i <> k ->
  Z.testbit (unit_bit p e (2 ^ k) v) i = Z.testbit v i.
Proof.
  intros Hk Hi Hne. unfold unit_bit. destruct (flag p e).
  - rewrite Z.lor_spec, Z.pow2_bits_false by lia. apply orb_false_r.
  - rewrite Z.land_spec, Z.mod_pow2_bits_low, Z.lnot_spec, Z.pow2_bits_false by lia. apply andb_true_r.
Qed.

Lemma update_irq_ok d : irq_ok (nv2a_update_irq d).
Proof.
  unfold nv2a_update_irq. change NV_PMC_INTR_0_PFIFO with (2 ^ 8).
  change NV_PMC_INTR_0_PCRTC with (2 ^ 24). change NV_PMC_INTR_0_PGRAPH with (2 ^ 12).
  split; cbn; [| | done].
  - by rewrite !unit_bit_other, unit_bit_same by lia.
  - by rewrite unit_bit_other, unit_bit_same by lia.
Qed.

(** PGRAPH's bit is brought up to date by [nv2a_update_irq] only. *)
Lemma update_irq_pgraph d :
  Z.testbit (pmc_pending (nv2a_update_irq d)) 12 = flag (pgraph_pending d) (pgraph_enabled d).
Proof. unfold nv2a_update_irq. cbn. by apply (unit_bit_same _ _ 12). Qed.

(** The fields that [irq_ok] reads. *)
Definition irq_view (d : NV2AState) :=
  (nv_irq d, pmc_pending d, pmc_enabled d, (pfifo_pending d, pfifo_enabled d),
   (pcrtc_pending d, pcrtc_enabled d)).

Lemma irq_ok_view d d' : irq_view d' = irq_view d -> irq_ok d -> irq_ok d'.
Proof. intros [= ???????] []. split; congruence. Qed.

Lemma irq_ok_kick d : irq_ok d -> irq_ok (pfifo_kick d).
Proof. by apply irq_ok_view. Qed.

Lemma irq_ok_deadline d t : irq_ok d -> irq_ok (d <| vblank_deadline := t |>).
Proof. by apply irq_ok_view. Qed.

Lemma reg_w_view d r v d' : pgraph_reg_w d r v = Ok d' -> irq_view d' = irq_view d.
Proof. unfold pgraph_reg_w. intros H. inv_ok. by subst. Qed.

Lemma set_mask_view d r m v d' : PG_SET_MASK d r m v = Ok d' -> irq_view d' = irq_view d.
Proof. unfold PG_SET_MASK. intros H. inv_ok. by eapply reg_w_view. Qed.

Lemma irq_ok_reg_w d r v d' : pgraph_reg_w d r v = Ok d' -> irq_ok d -> irq_ok d'.
Proof. intros H%reg_w_view. by apply irq_ok_view. Qed.

Lemma irq_ok_set_mask d r m v d' : PG_SET_MASK d r m v = Ok d' -> irq_ok d -> irq_ok d'.
Proof. intros H%set_mask_view. by apply irq_ok_view. Qed.

Lemma irq_ok_rdi d a d' : rdi_advance d a = Ok d' -> irq_ok d -> irq_ok d'.
Proof. unfold rdi_advance. intros H. inv_ok. by eapply irq_ok_set_mask. Qed.

(** What happens to the device between two moments of the guest: a register
    access of some block or the vblank timer. *)
Inductive nv2a_step : NV2AState -> NV2AState -> Prop :=
| step_pmc d addr val : nv2a_step d (pmc_write d addr val)
| step_pbus d d' addr val : pbus_write d addr val = Ok d' -> nv2a_step d d'
| step_pfifo d addr val : nv2a_step d (pfifo_write d addr val)
| step_pcrtc_read d addr : nv2a_step d (pcrtc_read d addr).2
| step_pcrtc d addr val : nv2a_step d (pcrtc_write d addr val)
| step_ptimer d addr val : nv2a_step d (ptimer_write d addr val)
| step_pramdac now d addr val : nv2a_step d (pramdac_write now d addr val)
| step_prmdio d d' addr val : prmdio_write d addr val = Ok d' -> nv2a_step d d'
| step_pfb d addr val : nv2a_step d (pfb_write d addr val)
| step_pvideo d addr val : nv2a_step d (pvideo_write d addr val).1
| step_user d d' addr val : user_write d addr val = Ok d' -> nv2a_step d d'
| step_pgraph_read d r d' addr : pgraph_read d addr = Ok (r, d') -> nv2a_step d d'
| step_pgraph d d' addr val : pgraph_write d addr val = Ok d' -> nv2a_step d d'
| step_switch d d' channel : pgraph_context_switch d channel = Ok d' -> nv2a_step d d'
| step_vblank now d : nv2a_step d (nv2a_vblank_timer_cb now d).

Create HintDb nv2a discriminated.
#[export] Hint Resolve update_irq_ok : nv2a.
#[export] Hint Extern 3 (irq_ok _) =>
  (match goal with H : irq_ok _ |- _ => refine (irq_ok_view _ _ _ H); reflexivity end) : nv2a.
#[export] Hint Resolve irq_ok_kick irq_ok_deadline : nv2a.
#[export] Hint Resolve irq_ok_reg_w irq_ok_set_mask irq_ok_rdi : nv2a.

Lemma pgraph_read_irq d r d' addr : pgraph_read d addr = Ok (r, d') -> irq_ok d -> irq_ok d'.
Proof. unfold pgraph_read. intros H Hd. repeat case_match; inv_ok; subst; eauto with nv2a. Qed.

Lemma pgraph_ack_irq d val : irq_ok d -> irq_ok (pgraph_ack d val).
Proof. intros Hd. unfold pgraph_ack. cbn zeta. repeat case_match; auto with nv2a. Qed.

Lemma increment_irq d d' : increment_read_3d d = Ok d' -> irq_ok d -> irq_ok d'.
Proof. unfold increment_read_3d. intros H Hd. inv_ok. case_match; inv_ok; subst; eauto with nv2a. Qed.

Lemma pgraph_write_irq d d' addr val : pgraph_write d addr val = Ok d' -> irq_ok d -> irq_ok d'.
Proof.
  unfold pgraph_write. intros H Hd. inv_ok. subst.
  enough (irq_ok x) by (destruct (addr =? NV_PGRAPH_FIFO); auto with nv2a).
  unfold pgraph_rdi_write in E.
  repeat first [case_match | progress inv_ok]; subst; eauto using pgraph_ack_irq, increment_irq with nv2a.
Qed.

Lemma context_switch_irq d d' ch : pgraph_context_switch d ch = Ok d' -> irq_ok d -> irq_ok d'.
Proof.
  unfold pgraph_context_switch. intros H Hd. inv_ok. case_match; inv_ok; subst; auto with nv2a.
Qed.

Lemma nv2a_step_irq d d' : nv2a_step d d' -> irq_ok d -> irq_ok d'.
Proof.
  intros Hs Hd. inversion Hs; subst; clear Hs.
  - unfold pmc_write. repeat case_match; auto with nv2a.
  - unfold pbus_write in H. case_match; inv_ok; subst; auto with nv2a.
  - unfold pfifo_write. repeat case_match; auto with nv2a.
  - unfold pcrtc_read. repeat case_match; auto with nv2a.
  - unfold pcrtc_write. repeat case_match; auto with nv2a.
  - unfold ptimer_write. repeat case_match; auto with nv2a.
  - unfold pramdac_write, nv2a_vblank_recalc. cbn zeta. repeat case_match; auto with nv2a.
  - unfold prmdio_write in H. repeat case_match; inv_ok; subst; auto with nv2a.
  - auto with nv2a.
  - unfold pvideo_write. repeat case_match; auto with nv2a.
  - unfold user_write in H. inv_ok. case_match; inv_ok; subst; auto with nv2a.
  - eauto using pgraph_read_irq.
  - eauto using pgraph_write_irq.
  - eauto using context_switch_irq.
  - unfold nv2a_vblank_timer_cb. auto with nv2a.
Qed.

(** C2: after any sequence of register accesses, channel switches and timer
    callbacks the bits of PMC's summary equal the requests of PFIFO and PCRTC
    (pending and enabled in the unit), and the interrupt line is up exactly when
    the summary and the master enable register are both non-zero: the guest
    cannot acknowledge these units away at PMC. *)
Theorem nv2a_irq_invariant d d' : irq_ok d -> rtc nv2a_step d d' -> irq_ok d'.
Proof. intros Hd Hs. induction Hs; eauto using nv2a_step_irq. Qed.

(** A device with everything clear. *)
Definition quiet : NV2AState :=
  mkNV2A false (replicate 256 0) (replicate 64 0) (replicate 64 0) (Some 0) 0 0 0 0 ∅ false false ∅
    0 0 0 0 0 ∅ 0 0 ∅ ∅ (replicate 768 0) false false false 0 0 0 0 0 0 0 0 0 0 0 0 0 0 0 0 0 (replicate 768 0)
    (mkSurfaces2D 0 0 0 0 0 0 0 0) (mkImageBlit 0 0 0 0 0 0 0 0 0) (mkBeta 0 0) [] 0.

Lemma nv2a_irq_invariant_witness :
  irq_ok (pmc_write (nv2a_vblank_timer_cb 7 (pcrtc_write quiet NV_PCRTC_INTR_EN_0 1)) NV_PMC_INTR_0 (2 ^ 24)).
Proof.
  eapply (nv2a_irq_invariant (pcrtc_write quiet NV_PCRTC_INTR_EN_0 1)).
  - apply update_irq_ok.
  - eapply rtc_l; [apply (step_vblank 7) | eapply rtc_once, step_pmc].
Defined.

(** The master enable register does not select units: with a unit
    requesting, the line goes up for any non-zero value of the register, also
    one that leaves the unit's own bit clear. *)
Theorem nv2a_irq_ignores_unit_mask d :
  flag (pcrtc_pending d) (pcrtc_enabled d) = true -> pmc_enabled d <> 0 ->
  Z.testbit (pmc_enabled d) 24 = false -> nv_irq (nv2a_update_irq d) = true.
Proof.
  intros Hreq Hen _. destruct (update_irq_ok d) as [_ Hc ->].
  change (pmc_enabled (nv2a_update_irq d)) with (pmc_enabled d).
  change (pcrtc_pending (nv2a_update_irq d)) with (pcrtc_pending d) in Hc.
  change (pcrtc_enabled (nv2a_update_irq d)) with (pcrtc_enabled d) in Hc.
  apply andb_true_intro; split; apply negb_true_iff, Z.eqb_neq; [|done].
  intros H0. rewrite H0, Z.bits_0, Hreq in Hc. done.
Qed.

Lemma nv2a_irq_ignores_unit_mask_witness :
  nv_irq (nv2a_update_irq (quiet <| pcrtc_pending := 1 |> <| pcrtc_enabled := 1 |> <| pmc_enabled := 1 |>)) = true.
Proof. by apply nv2a_irq_ignores_unit_mask. Defined.

(** Acknowledging PGRAPH's interrupts at PGRAPH does not update the summary:
    the unit has nothing pending any more, while its bit of PMC and the line
    stay up until some other access recomputes them. *)
Theorem pgraph_ack_leaves_line_up d :
  nv_irq d = true -> Z.testbit (pmc_pending d) 12 = true ->
  exists d', pgraph_write d NV_PGRAPH_INTR (Z.ones 32) = Ok d' /\
    pgraph_pending d' = 0 /\ waiting_for_nop d' = false /\ waiting_for_context_switch d' = false /\
    Z.testbit (pmc_pending d') 12 = true /\ nv_irq d' = true /\
    Z.testbit (pmc_pending (nv2a_update_irq d')) 12 = false.
Proof.
  intros Hirq Hbit. eexists. split; [reflexivity|].
  rewrite update_irq_pgraph. unfold pgraph_ack. cbn.
  change (u32 (Z.lnot (Z.ones 32))) with 0. rewrite Z.land_0_r. by split_and!.
Qed.

Lemma pgraph_ack_leaves_line_up_witness :
  let d := quiet <| pgraph_enabled := 0x1000 |> <| pgraph_pending := 0x1000 |> <| pmc_enabled := 1 |> in
  exists d', pgraph_write (nv2a_update_irq d) NV_PGRAPH_INTR (Z.ones 32) = Ok d' /\
    pgraph_pending d' = 0 /\ nv_irq d' = true.
Proof.
  intros d. destruct (pgraph_ack_leaves_line_up (nv2a_update_irq d)) as (d' & H & H0 & _ & _ & _ & H1 & _);
    [done.. |]. by exists d'.
Defined.

(** ** Timer and clock *)

(** The two registers' pieces of a count. *)
Lemma time_pieces c :
  let t0 := (c .& 0x7ffffff) ≪ 5 in let t1 := (c ≫ 27) .& 0x1fffffff in
  t0 mod 32 = 0 /\ 0 <= t0 < 2 ^ 32 /\ t1 * 2 ^ 27 + t0 / 32 = c mod 2 ^ 56.
Proof.
  change 0x7ffffff with (Z.ones 27). change 0x1fffffff with (Z.ones 29). cbn zeta.
  rewrite !Z.land_ones, Z.shiftl_mul_pow2, Z.shiftr_div_pow2 by lia.
  change (2 ^ 5) with 32. change (2 ^ 56) with (2 ^ 27 * 2 ^ 29).
  rewrite Z.mod_mul, Z.div_mul, (Z.rem_mul_r c (2 ^ 27) (2 ^ 29)) by lia.
  pose proof (Z.mod_pos_bound c (2 ^ 27) ltac:(lia)). lia.
Qed.

(** The guest reads the timer as two registers whose useful bits (29 above,
    27 below, the lowest five of TIME_0 being zero) together are the core clock
    scaled by denominator over numerator, modulo 2^56. With a zero numerator,
    the value after reset, the read divides by zero. *)
Theorem ptimer_time ns d :
  0 <= ns -> 0 <= core_clock_freq d < 2 ^ 32 -> 0 <= ptimer_denominator d < 2 ^ 32 ->
  0 <= ptimer_numerator d < 2 ^ 32 ->
  if ptimer_numerator d =? 0 then
    ptimer_read ns d NV_PTIMER_TIME_0 = Undef /\ ptimer_read ns d NV_PTIMER_TIME_1 = Undef
  else exists t0 t1,
    ptimer_read ns d NV_PTIMER_TIME_0 = Ok t0 /\ ptimer_read ns d NV_PTIMER_TIME_1 = Ok t1 /\
    t0 mod 32 = 0 /\ 0 <= t0 < 2 ^ 32 /\
    t1 * 2 ^ 27 + t0 / 32 =
      (ns * core_clock_freq d / NANOSECONDS_PER_SECOND) mod 2 ^ 64
        * ptimer_denominator d / ptimer_numerator d mod 2 ^ 56.
Proof.
  intros Hns Hf Hd Hn. unfold ptimer_read, ptimer_get_clock, muldiv64. cbn -[u32 u64].
  rewrite (u32_small (core_clock_freq d)), (u32_small (ptimer_denominator d)), (u32_small (ptimer_numerator d)) by lia.
  destruct (Z.eqb_spec (ptimer_numerator d) 0) as [|Hn0]; [done|]. cbn -[u64].
  eexists _, _. split; [done|]. split; [done|].
  destruct (time_pieces (u64 (u64 (ns * core_clock_freq d / u32 1000000000) * ptimer_denominator d
    / ptimer_numerator d))) as (H1 & H2 & ->).
  split; [done|]. split; [done|]. by rewrite Z.mod_mod_divide by by exists (2 ^ 8).
Qed.

Lemma ptimer_time_witness :
  exists t0 t1,
    ptimer_read 5000 (quiet <| core_clock_freq := 233333324 |> <| ptimer_numerator := 7 |> <| ptimer_denominator := 3 |>) NV_PTIMER_TIME_0 = Ok t0 /\
    ptimer_read 5000 (quiet <| core_clock_freq := 233333324 |> <| ptimer_numerator := 7 |> <| ptimer_denominator := 3 |>) NV_PTIMER_TIME_1 = Ok t1 /\
    t1 * 2 ^ 27 + t0 / 32 = 499.
Proof.
  destruct (ptimer_time 5000 (quiet <| core_clock_freq := 233333324 |> <| ptimer_numerator := 7 |>
    <| ptimer_denominator := 3 |>)) as (t0 & t1 & H0 & H1 & _ & _ & H); [done..|].
  exists t0, t1. split; [exact H0|]. split; [exact H1|]. rewrite H. reflexivity.
Defined.

(** Programming the core PLL with divider M, multiplier N and post-divider
    P sets the clock to crystal * N / 2^P / M, the 32-bit product never
    wrapping, and to zero for M = 0 instead of dividing. *)
Theorem nvpll_frequency now d M N P :
  0 <= M < 2 ^ 8 -> 0 <= N < 2 ^ 8 -> 0 <= P < 2 ^ 3 ->
  let d' := pramdac_write now d NV_PRAMDAC_NVPLL_COEFF (P * 2 ^ 16 + N * 2 ^ 8 + M) in
  core_clock_freq d' = (if M =? 0 then 0 else NV2A_CRYSTAL_FREQ * N / (2 ^ P * M)) /\
  core_clock_coeff d' = P * 2 ^ 16 + N * 2 ^ 8 + M.
Proof.
  intros HM HN HP. cbn zeta. set (v := P * 2 ^ 16 + N * 2 ^ 8 + M). unfold pramdac_write. cbn -[u32].
  assert (Hm : v .& 0xFF = M).
  { change 0xFF with (Z.ones 8). rewrite Z.land_ones by lia. subst v. Z.div_mod_to_equations. lia. }
  assert (Hn : (v .& 0xFF00) ≫ 8 = N).
  { change 0xFF00 with (Z.ones 8 ≪ 8). rewrite Z.shiftr_land, Z.shiftr_shiftl_l, Z.shiftl_0_r by lia.
    rewrite Z.land_ones, Z.shiftr_div_pow2 by lia. subst v. Z.div_mod_to_equations. lia. }
  assert (Hp : (v .& 0x70000) ≫ 16 = P).
  { change 0x70000 with (Z.ones 3 ≪ 16). rewrite Z.shiftr_land, Z.shiftr_shiftl_l, Z.shiftl_0_r by lia.
    rewrite Z.land_ones, Z.shiftr_div_pow2 by lia. subst v. Z.div_mod_to_equations. lia. }
  rewrite Hm, Hn, Hp. split.
  - destruct (Z.eqb_spec M 0) as [|HM0]; [done|]. cbn -[u32].
    rewrite u32_small, Z.shiftl_mul_pow2, Z.mul_1_l, Z.div_div by lia. done.
  - destruct (M =? 0); cbn -[u32]; rewrite u32_small by (subst v; lia); done.
Qed.

Lemma nvpll_frequency_witness :
  core_clock_freq (pramdac_write 0 quiet NV_PRAMDAC_NVPLL_COEFF (1 * 2 ^ 16 + 28 * 2 ^ 8 + 1)) = 233333324.
Proof. destruct (nvpll_frequency 0 quiet 1 28 1) as [-> _]; [lia..|]. reflexivity. Defined.

(** Masking with [~(2^n - 1)] at 64 bits rounds down. *)
Lemma land_align n z : 0 <= n -> 0 <= z < 2 ^ 64 ->
  z .& u64 (Z.lnot (Z.ones n)) = 2 ^ n * (z / 2 ^ n).
Proof.
  intros Hn Hz. rewrite <- (Z.land_ones (Z.lnot _) 64), (Z.land_comm (Z.lnot _)), Z.land_assoc by lia.
  rewrite (Z.land_ones z), Z.mod_small, <- Z.ldiff_land, Z.ldiff_ones_r by lia.
  rewrite Z.shiftl_mul_pow2, Z.shiftr_div_pow2 by lia. lia.
Qed.

(** A word read of PRAMDAC returns the register; the byte read at offset k
    of it returns byte 3 - k, the reverse of the order of the bus; and a word
    read off the word boundary shifts by a wrapped count, which is undefined. *)
Theorem pramdac_bytes d a k :
  0 <= a < 2 ^ 62 -> 0 <= k < 4 ->
  pramdac_read d (4 * a) 4 = Ok (pramdac_reg d (4 * a)) /\
  pramdac_read d (4 * a + k) 1 = Ok (pramdac_reg d (4 * a) / 2 ^ (8 * (3 - k))) /\
  (0 < k -> pramdac_read d (4 * a + k) 4 = Undef).
Proof.
  intros Ha Hk. unfold pramdac_read.
  assert (Hlow : forall j, 0 <= j < 4 -> (4 * a + j) .& 3 = j /\ (4 * a + j) .& u64 (Z.lnot 3) = 4 * a).
  { intros j Hj. change 3 with (Z.ones 2). rewrite Z.land_ones, land_align by lia.
    change (2 ^ 2) with 4. Z.div_mod_to_equations. lia. }
  destruct (Hlow k Hk) as [-> ->]. destruct (Hlow 0 ltac:(lia)) as [H0 H1].
  rewrite Z.add_0_r in H0, H1. rewrite H0, H1. split_and!; [done | | intros Hk0].
  - rewrite Z.mod_small by lia. rewrite (proj2 (Z.leb_gt _ _)), Z.shiftr_div_pow2 by lia.
    do 3 f_equal. lia.
  - assert (k = 1 \/ k = 2 \/ k = 3) as [-> | [-> | ->]] by lia; done.
Qed.

Lemma pramdac_bytes_witness :
  pramdac_read (nv2a_reset quiet) (4 * 0x140 + 3) 1 = Ok 0x00011C01.
Proof. by destruct (pramdac_bytes (nv2a_reset quiet) 0x140 3) as (_ & -> & _). Defined.

(** ** Tiles *)

(** Tile [i] is valid and ends strictly inside [base, base + len). *)
Definition tile_cuts (regs : gmap Z Z) (base len i : Z) : Prop :=
  flag (rget regs (0x240 + i * 0x10)) 1 = true /\ base < rget regs (0x244 + i * 0x10) < base + len.

Lemma clip_tiles_spec n i regs base len :
  0 <= base -> 0 <= len -> base + len < 2 ^ 32 -> (forall a, 0 <= rget regs a < 2 ^ 32) ->
  (clip_tiles n i regs base len = len /\ forall j, i <= j < i + Z.of_nat n -> ~ tile_cuts regs base len j) \/
  (exists j, i <= j < i + Z.of_nat n /\ tile_cuts regs base len j /\
     (forall k, i <= k < j -> ~ tile_cuts regs base len k) /\
     clip_tiles n i regs base len = rget regs (0x244 + j * 0x10) + 1 - base).
Proof.
  intros Hb Hl Hs Hr. revert i. induction n as [|n IH]; intros i; [left; split; [done | lia]|].
  cbn [clip_tiles]. set (b := rget regs (0x240 + i * 0x10)). set (l := rget regs (0x244 + i * 0x10)).
  rewrite (Z.mod_small (base + len)) by lia.
  destruct (flag b 1 && (base <? l) && (l <? base + len)) eqn:E.
  - right. exists i. apply andb_prop in E as [[Ef ?%Z.ltb_lt]%andb_prop ?%Z.ltb_lt].
    rewrite Ef. cbn [negb]. rewrite !(proj2 (Z.ltb_lt _ _)) by lia. cbn [andb].
    split; [lia|]. split; [done|]. split; [lia|]. fold l.
    rewrite (u32_small (l + 1)), Z.mod_small by lia. done.
  - assert (Hno : ~ tile_cuts regs base len i).
    { intros (Hf & Hx & Hy). fold b in Hf. fold l in Hx, Hy.
      apply Z.ltb_lt in Hx, Hy. by rewrite Hf, Hx, Hy in E. }
    match goal with |- context [if negb (flag b 1) then ?x else ?y] =>
      replace (if negb (flag b 1) then x else y) with x
        by (destruct (flag b 1); [cbn [negb andb] in *; by rewrite E | done]) end.
    destruct (IH (i + 1)) as [[-> H] | (j & Hj & Hc & H & ->)].
    + left. split; [done|]. intros j Hj. destruct (Z.eq_dec j i) as [->|]; [done | apply H; lia].
    + right. exists j. split; [lia|]. split; [done|]. split; [|done].
      intros k Hk. destruct (Z.eq_dec k i) as [->|]; [done | apply H; lia].
Qed.

(** Clipping a blit at the GPU's tiles never lengthens it or makes it
    empty, and stops it just past the limit of the first valid tile that ends
    inside it; a blit no tile cuts keeps its length. *)
Theorem clip_tile_blit d base len :
  0 <= base -> 0 < len -> base + len < 2 ^ 32 -> (forall a, 0 <= rget (pfb_regs d) a < 2 ^ 32) ->
  let r := nv_clip_gpu_tile_blit d base len in
  0 < r <= len /\
  ((r = len /\ forall i, 0 <= i < 8 -> ~ tile_cuts (pfb_regs d) base len i) \/
   (exists i, 0 <= i < 8 /\ tile_cuts (pfb_regs d) base len i /\
      (forall k, 0 <= k < i -> ~ tile_cuts (pfb_regs d) base len k) /\
      base + r = rget (pfb_regs d) (0x244 + i * 0x10) + 1)).
Proof.
  intros Hb Hl Hs Hr. cbn zeta. unfold nv_clip_gpu_tile_blit.
  destruct (clip_tiles_spec (Z.to_nat 8) 0 (pfb_regs d) base len) as [[-> H] | (j & Hj & Hc & H & ->)];
    [lia.. | done | |].
  - split; [lia|]. left. split; [done|]. intros i Hi. apply H. lia.
  - destruct Hc as [Hf Hc]. split; [lia|]. right. exists j. split; [lia|]. split; [done|]. split; [done | lia].
Qed.

Lemma clip_tile_blit_witness :
  let d := pfb_write (pfb_write quiet 0x250 1) 0x254 0x1fff in
  0 < nv_clip_gpu_tile_blit d 0x1000 0x4000 <= 0x4000 /\ nv_clip_gpu_tile_blit d 0x1000 0x4000 = 0x1000.
Proof.
  intros d. split; [|reflexivity].
  refine (proj1 (clip_tile_blit d 0x1000 0x4000 _ _ _ _)); [lia.. |].
  intros a. change (pfb_regs d) with (rset (rset ∅ 0x250 1) 0x254 0x1fff).
  rewrite !rget_rset. unfold rget. rewrite lookup_empty. repeat case_decide; cbn; lia.
Defined.
