(* ===== verification/Pfifo.v ===== *)
(** * The command FIFO of the NV2A (hw/xbox/nv2a/pfifo.c)

    The pusher reads words of the push buffer between GET and PUT, decodes
    jumps, calls and method headers into the DMA state register, and hands every
    data word to the puller, which looks objects up in the hash table RAMHT and
    passes methods to the graphics engine.

    The engine, [pgraph_method] of pgraph.c, is the interface [Pgraph], implemented in
    Pgraph.v; what the pusher relies on is [PacketEngine]. *)

From Stdlib Require Import ZArith Lia Bool Btauto.
From stdpp Require Import base gmap list.
From S2P Require Import Prelude Nv2a.
#[local] Open Scope Z_scope.

(** ** Registers *)

Abbreviation NV_PFIFO_RAMHT := 0x210.
Abbreviation NV_PFIFO_RAMHT_BASE_ADDRESS := 0x1F0.
Abbreviation NV_PFIFO_RAMHT_SIZE := 0x30000.
Abbreviation NV_PFIFO_CACHE1_PUSH0 := 0x1200.
Abbreviation NV_PFIFO_CACHE1_PUSH0_ACCESS := 1.
Abbreviation NV_PFIFO_CACHE1_PUSH1_MODE := 0x100.
Abbreviation NV_PFIFO_CACHE1_PUSH1_MODE_DMA := 1.
Abbreviation NV_PFIFO_CACHE1_DMA_PUSH := 0x1220.
Abbreviation NV_PFIFO_CACHE1_DMA_PUSH_ACCESS := 1.
Abbreviation NV_PFIFO_CACHE1_DMA_PUSH_STATUS := 0x1000.
Abbreviation NV_PFIFO_CACHE1_DMA_STATE := 0x1228.
Abbreviation NV_PFIFO_CACHE1_DMA_STATE_METHOD_TYPE := 1.
Abbreviation NV_PFIFO_CACHE1_DMA_STATE_METHOD_TYPE_INC := 0.
Abbreviation NV_PFIFO_CACHE1_DMA_STATE_METHOD_TYPE_NON_INC := 1.
Abbreviation NV_PFIFO_CACHE1_DMA_STATE_METHOD := 0x1FFC.
Abbreviation NV_PFIFO_CACHE1_DMA_STATE_SUBCHANNEL := 0xE000.
Abbreviation NV_PFIFO_CACHE1_DMA_STATE_METHOD_COUNT := 0x1FFC0000.
Abbreviation NV_PFIFO_CACHE1_DMA_STATE_ERROR := 0xE0000000.
Abbreviation NV_PFIFO_CACHE1_DMA_STATE_ERROR_NONE := 0.
Abbreviation NV_PFIFO_CACHE1_DMA_STATE_ERROR_CALL := 1.
Abbreviation NV_PFIFO_CACHE1_DMA_STATE_ERROR_RETURN := 3.
Abbreviation NV_PFIFO_CACHE1_DMA_INSTANCE := 0x122C.
Abbreviation NV_PFIFO_CACHE1_DMA_INSTANCE_ADDRESS := 0xFFFF.
Abbreviation NV_PFIFO_CACHE1_DMA_SUBROUTINE := 0x124C.
Abbreviation NV_PFIFO_CACHE1_DMA_SUBROUTINE_STATE := 1.
Abbreviation NV_PFIFO_CACHE1_PULL0 := 0x1250.
Abbreviation NV_PFIFO_CACHE1_PULL0_ACCESS := 1.
Abbreviation NV_PFIFO_CACHE1_PULL1 := 0x1254.
Abbreviation NV_PFIFO_CACHE1_PULL1_ENGINE := 3.
Abbreviation NV_PFIFO_CACHE1_ENGINE := 0x1280.
Abbreviation NV_PFIFO_CACHE1_DMA_DCOUNT := 0x12A0.
Abbreviation NV_PFIFO_CACHE1_DMA_GET_JMP_SHADOW := 0x12A4.
Abbreviation NV_PFIFO_CACHE1_DMA_RSVD_SHADOW := 0x12A8.
Abbreviation NV_PFIFO_CACHE1_DMA_DATA_SHADOW := 0x12AC.
Abbreviation NV_PFIFO_CACHE1_METHOD_TYPE := 1.
Abbreviation NV_PFIFO_CACHE1_METHOD_ADDRESS := 0x1FFC.
Abbreviation NV_PFIFO_CACHE1_METHOD_SUBCHANNEL := 0xE000.
Abbreviation NV_RAMHT_INSTANCE := 0xFFFF.
Abbreviation NV_RAMHT_ENGINE := 0x30000.
Abbreviation NV_RAMHT_CHID := 0x1F000000.
Abbreviation NV_RAMHT_STATUS := 0x80000000.
Abbreviation ENGINE_GRAPHICS := 1.

(** A register of PFIFO, and an assignment to one. *)
Definition fr (d : NV2AState) (r : Z) : Z := rget (pfifo_regs d) r.
Definition fw (d : NV2AState) (r v : Z) : NV2AState := d <| pfifo_regs := rset (pfifo_regs d) r v |>.
Definition fset (d : NV2AState) (r mask v : Z) : NV2AState := fw d r (SET_MASK (fr d r) mask v).

(** ** RAMHT *)

Record RAMHTEntry := mkRAMHT {
  ht_handle : Z; ht_instance : Z; ht_engine : Z; ht_channel_id : Z; ht_valid : bool
}.

Definition ramht_size (d : NV2AState) : Z := 1 ≪ (GET_MASK (fr d NV_PFIFO_RAMHT) NV_PFIFO_RAMHT_SIZE + 12).

Fixpoint hash_loop (fuel : nat) (bits handle hash : Z) : outcome Z :=
  if handle =? 0 then Ok hash else
  match fuel with
  | O => NoFuel
  | S fuel => hash_loop fuel bits (handle ≫ bits) (Z.lxor hash (handle .& ((1 ≪ bits) - 1)))
  end.

(** Three rounds consume 32 bits, as [bits] is at least 11. *)
Definition ramht_hash (d : NV2AState) (handle : Z) : outcome Z :=
  let bits := ctz32 (ramht_size d) - 1 in
  hash ← hash_loop 3 bits handle 0;
  let channel_id := GET_MASK (fr d NV_PFIFO_CACHE1_PUSH1) NV_PFIFO_CACHE1_PUSH1_CHID in
  Ok (Z.lxor hash (channel_id ≪ (bits - 4))).

Definition ramht_lookup (d : NV2AState) (handle : Z) : outcome RAMHTEntry :=
  hash ← ramht_hash d handle;
  c_assert (u32 (hash * 8) <? ramht_size d) ;;
  let ramht_address := GET_MASK (fr d NV_PFIFO_RAMHT) NV_PFIFO_RAMHT_BASE_ADDRESS ≪ 12 in
  c_assert (ramht_address + u32 (hash * 8) <? zlen (nv_ramin d)) ;;
  entry_handle ← ldl_le_p (nv_ramin d) (ramht_address + u32 (hash * 8));
  entry_context ← ldl_le_p (nv_ramin d) (ramht_address + u32 (hash * 8) + 4);
  Ok {| ht_handle := entry_handle;
        ht_instance := (entry_context .& NV_RAMHT_INSTANCE) ≪ 4;
        ht_engine := (entry_context .& NV_RAMHT_ENGINE) ≫ 16;
        ht_channel_id := (entry_context .& NV_RAMHT_CHID) ≫ 24;
        ht_valid := flag entry_context NV_RAMHT_STATUS |}.

(** ** The engine's interface

    [pgraph_method d subchannel method parameter parameters available lookahead inc]
    returns the number of words it processed; [parameters] is the offset of the
    data words in video memory. *)
Class Pgraph := {
  pgraph_method : NV2AState -> Z -> Z -> Z -> Z -> Z -> Z -> bool -> outcome (Z * NV2AState)
}.

Section Fifo.
Context `{engine : !Pgraph}.

(** ** Stalls *)

Definition can_fifo_access (d : NV2AState) : bool := flag (rget (pgraph_regs d) NV_PGRAPH_FIFO) NV_PGRAPH_FIFO_ACCESS.

Definition is_flip_stall_complete (d : NV2AState) : bool :=
  let s := rget (pgraph_regs d) NV_PGRAPH_SURFACE in
  negb (GET_MASK s NV_PGRAPH_SURFACE_READ_3D =? GET_MASK s NV_PGRAPH_SURFACE_WRITE_3D).

Definition pfifo_stall_for_flip (d : NV2AState) : bool * NV2AState :=
  if waiting_for_flip d then
    if negb (is_flip_stall_complete d) then (true, d) else (false, d <| waiting_for_flip := false |>)
  else (false, d).

Definition pfifo_puller_should_stall (d : NV2AState) : bool * NV2AState :=
  let '(stall, d) := pfifo_stall_for_flip d in
  (stall || waiting_for_nop d || waiting_for_context_switch d || negb (can_fifo_access d), d).

Definition pfifo_pusher_should_stall (d : NV2AState) : bool := negb (can_fifo_access d) || waiting_for_nop d.

(** ** The puller *)

(** Method 0: bind the object's engine to the subchannel, switch the channel. *)
Definition pull_object (d : NV2AState) (subchannel parameter parameters available lookahead : Z) (inc : bool) :
  outcome (Z * NV2AState) :=
  entry ← ramht_lookup d parameter;
  c_assert (ht_valid entry) ;;
  c_assert (ht_engine entry =? ENGINE_GRAPHICS) ;;
  c_assert (subchannel <? 8) ;;
  let d := fset d NV_PFIFO_CACHE1_ENGINE (3 ≪ (4 * subchannel)) (ht_engine entry) in
  let d := fset d NV_PFIFO_CACHE1_PULL1 NV_PFIFO_CACHE1_PULL1_ENGINE (ht_engine entry) in
  if can_fifo_access d then
    d ← pgraph_context_switch d (ht_channel_id entry);
    if waiting_for_context_switch d then Ok (-1, d)
    else pgraph_method d subchannel 0 (ht_instance entry) parameters available lookahead inc
  else Ok (-1, d).

(** Other methods; the range 0x180 to 0x1ff takes object handles. *)
Definition pull_method (d : NV2AState) (subchannel method parameter parameters available lookahead : Z) (inc : bool) :
  outcome (Z * NV2AState) :=
  parameter ←
    (if (0x180 <=? method) && (method <? 0x200) then
       entry ← ramht_lookup d parameter;
       c_assert (ht_valid entry) ;;
       Ok (ht_instance entry)
     else Ok parameter);
  let engine := GET_MASK (fr d NV_PFIFO_CACHE1_ENGINE) (3 ≪ (4 * subchannel)) in
  c_assert (engine =? ENGINE_GRAPHICS) ;;
  let d := fset d NV_PFIFO_CACHE1_PULL1 NV_PFIFO_CACHE1_PULL1_ENGINE engine in
  if can_fifo_access d then
    pgraph_method d subchannel method parameter parameters available lookahead inc
  else Ok (-1, d).

(** -1 is a stall. *)
Definition pfifo_run_puller (d : NV2AState) (method_entry parameter parameters available lookahead : Z) :
  outcome (Z * NV2AState) :=
  let '(stall, d) := pfifo_puller_should_stall d in
  if stall then Ok (-1, d) else
  if (GET_MASK (fr d NV_PFIFO_CACHE1_PULL0) NV_PFIFO_CACHE1_PULL0_ACCESS =? 0)
     || flag (fr d NV_PFIFO_CACHE1_STATUS) NV_PFIFO_CACHE1_STATUS_LOW_MARK then Ok (-1, d) else
  let method := method_entry .& 0x1FFC in
  let subchannel := GET_MASK method_entry NV_PFIFO_CACHE1_METHOD_SUBCHANNEL in
  let inc := GET_MASK method_entry NV_PFIFO_CACHE1_METHOD_TYPE =? 0 in
  r ← (if method =? 0 then pull_object d subchannel parameter parameters available lookahead inc
       else if 0x100 <=? method then pull_method d subchannel method parameter parameters available lookahead inc
       else AssertFail);
  let '(num_proc, d) := r in
  Ok (num_proc,
      if 0 <? num_proc then
        fw d NV_PFIFO_CACHE1_STATUS (fr d NV_PFIFO_CACHE1_STATUS .| NV_PFIFO_CACHE1_STATUS_LOW_MARK)
      else d).

(** ** The pusher *)

(** A data word of the current method packet; [get] is past the word already.
    The result is the new GET, or [None] when the puller stalled. *)
Definition push_data (d : NV2AState) (word word_ptr get available : Z) : outcome (option Z * NV2AState) :=
  let s := fr d NV_PFIFO_CACHE1_DMA_STATE in
  let method_type := GET_MASK s NV_PFIFO_CACHE1_DMA_STATE_METHOD_TYPE in
  let method_subchannel := GET_MASK s NV_PFIFO_CACHE1_DMA_STATE_SUBCHANNEL in
  let method := GET_MASK s NV_PFIFO_CACHE1_DMA_STATE_METHOD ≪ 2 in
  let method_count := GET_MASK s NV_PFIFO_CACHE1_DMA_STATE_METHOD_COUNT in
  let d := fw d NV_PFIFO_CACHE1_DMA_DATA_SHADOW word in
  c_assert (method .& 3 =? 0) ;;
  let method_entry := SET_MASK 0 NV_PFIFO_CACHE1_METHOD_ADDRESS (method ≫ 2) in
  let method_entry := SET_MASK method_entry NV_PFIFO_CACHE1_METHOD_TYPE method_type in
  let method_entry := SET_MASK method_entry NV_PFIFO_CACHE1_METHOD_SUBCHANNEL method_subchannel in
  let d := fw d NV_PFIFO_CACHE1_STATUS (fr d NV_PFIFO_CACHE1_STATUS .& u32 (Z.lnot NV_PFIFO_CACHE1_STATUS_LOW_MARK)) in
  r ← pfifo_run_puller d method_entry word word_ptr (Z.min method_count available) available;
  let '(n, d) := r in
  if n <? 0 then Ok (None, d) else
  let d := if method_type =? NV_PFIFO_CACHE1_DMA_STATE_METHOD_TYPE_INC then
             fset d NV_PFIFO_CACHE1_DMA_STATE NV_PFIFO_CACHE1_DMA_STATE_METHOD (u64 (method + 4 * n) ≫ 2)
           else d in
  let d := fset d NV_PFIFO_CACHE1_DMA_STATE NV_PFIFO_CACHE1_DMA_STATE_METHOD_COUNT
             (method_count - Z.min method_count n) in
  let d := fw d NV_PFIFO_CACHE1_DMA_DCOUNT (u32 (fr d NV_PFIFO_CACHE1_DMA_DCOUNT + n)) in
  Ok (Some (u32 (get + (n - 1) * 4)), d).

(** A method header. *)
Definition push_header (d : NV2AState) (word method_type : Z) : NV2AState :=
  let d := fset d NV_PFIFO_CACHE1_DMA_STATE NV_PFIFO_CACHE1_DMA_STATE_METHOD ((word .& 0x1fff) ≫ 2) in
  let d := fset d NV_PFIFO_CACHE1_DMA_STATE NV_PFIFO_CACHE1_DMA_STATE_SUBCHANNEL ((word ≫ 13) .& 7) in
  let d := fset d NV_PFIFO_CACHE1_DMA_STATE NV_PFIFO_CACHE1_DMA_STATE_METHOD_COUNT ((word ≫ 18) .& 0x7ff) in
  let d := fset d NV_PFIFO_CACHE1_DMA_STATE NV_PFIFO_CACHE1_DMA_STATE_METHOD_TYPE method_type in
  fw d NV_PFIFO_CACHE1_DMA_DCOUNT 0.

(** The first word of a command. *)
Definition push_command (d : NV2AState) (word get : Z) : outcome (option Z * NV2AState) :=
  let subroutine_state :=
    GET_MASK (fr d NV_PFIFO_CACHE1_DMA_SUBROUTINE) NV_PFIFO_CACHE1_DMA_SUBROUTINE_STATE in
  let d := fw d NV_PFIFO_CACHE1_DMA_RSVD_SHADOW word in
  if word .& 0xe0000003 =? 0x20000000 then
    Ok (Some (word .& 0x1fffffff), fw d NV_PFIFO_CACHE1_DMA_GET_JMP_SHADOW get)
  else if word .& 3 =? 1 then
    Ok (Some (word .& 0xfffffffc), fw d NV_PFIFO_CACHE1_DMA_GET_JMP_SHADOW get)
  else if word .& 3 =? 2 then
    if negb (subroutine_state =? 0) then
      Ok (None, fset d NV_PFIFO_CACHE1_DMA_STATE NV_PFIFO_CACHE1_DMA_STATE_ERROR
                  NV_PFIFO_CACHE1_DMA_STATE_ERROR_CALL)
    else
      let d := fw d NV_PFIFO_CACHE1_DMA_SUBROUTINE get in
      Ok (Some (word .& 0xfffffffc),
          fset d NV_PFIFO_CACHE1_DMA_SUBROUTINE NV_PFIFO_CACHE1_DMA_SUBROUTINE_STATE 1)
  else if word =? 0x00020000 then
    if subroutine_state =? 0 then
      Ok (Some get, fset d NV_PFIFO_CACHE1_DMA_STATE NV_PFIFO_CACHE1_DMA_STATE_ERROR
                      NV_PFIFO_CACHE1_DMA_STATE_ERROR_RETURN)
    else
      Ok (Some (fr d NV_PFIFO_CACHE1_DMA_SUBROUTINE .& 0xfffffffc),
          fset d NV_PFIFO_CACHE1_DMA_SUBROUTINE NV_PFIFO_CACHE1_DMA_SUBROUTINE_STATE 0)
  else if word .& 0xe0030003 =? 0 then
    Ok (Some get, push_header d word NV_PFIFO_CACHE1_DMA_STATE_METHOD_TYPE_INC)
  else if word .& 0xe0030003 =? 0x40000000 then
    Ok (Some get, push_header d word NV_PFIFO_CACHE1_DMA_STATE_METHOD_TYPE_NON_INC)
  else AssertFail.

Definition dma_state_error (d : NV2AState) : bool :=
  negb (GET_MASK (fr d NV_PFIFO_CACHE1_DMA_STATE) NV_PFIFO_CACHE1_DMA_STATE_ERROR =? 0).

(** One round of the loop, GET and PUT differing: whether to go on, and the
    device. [dma] is the offset of the push buffer in video memory. *)
Definition push_word (d : NV2AState) (dma dma_len : Z) : outcome (bool * NV2AState) :=
  let get := fr d NV_PFIFO_CACHE1_DMA_GET in
  let put := fr d NV_PFIFO_CACHE1_DMA_PUT in
  c_assert (get <? dma_len) ;;
  let bytes := u32 (put - get) in
  c_assert (bytes mod 4 =? 0) ;;
  word ← ldl_le_p (nv_vram d) (dma + get);
  r ← (if GET_MASK (fr d NV_PFIFO_CACHE1_DMA_STATE) NV_PFIFO_CACHE1_DMA_STATE_METHOD_COUNT =? 0
       then push_command d word (u32 (get + 4))
       else push_data d word (dma + get) (u32 (get + 4)) (bytes / 4));
  match r with
  | (None, d) => Ok (false, d)
  | (Some get, d) => let d := fw d NV_PFIFO_CACHE1_DMA_GET get in Ok (negb (dma_state_error d), d)
  end.

Fixpoint pusher_loop (fuel : nat) (d : NV2AState) (dma dma_len : Z) : outcome NV2AState :=
  if pfifo_pusher_should_stall d then Ok d else
  if fr d NV_PFIFO_CACHE1_DMA_GET =? fr d NV_PFIFO_CACHE1_DMA_PUT then Ok d else
  match fuel with
  | O => NoFuel
  | S fuel =>
      r ← push_word d dma dma_len;
      let '(go_on, d) := r in
      if (go_on : bool) then pusher_loop fuel d dma dma_len else Ok d
  end.

(** Any error of the DMA state ends in a failed assertion. *)
Definition pfifo_run_pusher (fuel : nat) (d : NV2AState) : outcome NV2AState :=
  if (GET_MASK (fr d NV_PFIFO_CACHE1_PUSH0) NV_PFIFO_CACHE1_PUSH0_ACCESS =? 0)
     || (GET_MASK (fr d NV_PFIFO_CACHE1_DMA_PUSH) NV_PFIFO_CACHE1_DMA_PUSH_ACCESS =? 0)
     || negb (GET_MASK (fr d NV_PFIFO_CACHE1_DMA_PUSH) NV_PFIFO_CACHE1_DMA_PUSH_STATUS =? 0) then Ok d else
  let push1 := fr d NV_PFIFO_CACHE1_PUSH1 in
  c_assert (flag (fr d NV_PFIFO_MODE) (1 ≪ GET_MASK push1 NV_PFIFO_CACHE1_PUSH1_CHID)) ;;
  c_assert (GET_MASK push1 NV_PFIFO_CACHE1_PUSH1_MODE =? NV_PFIFO_CACHE1_PUSH1_MODE_DMA) ;;
  c_assert (negb (dma_state_error d)) ;;
  m ← nv_dma_map d (GET_MASK (fr d NV_PFIFO_CACHE1_DMA_INSTANCE) NV_PFIFO_CACHE1_DMA_INSTANCE_ADDRESS ≪ 4);
  d ← pusher_loop fuel d m.1 m.2;
  c_assert (negb (dma_state_error d)) ;;
  Ok d.

End Fifo.

(** ** Registers and fields *)

Lemma fr_fw d r v r' : fr (fw d r v) r' = if decide (r = r') then v else fr d r'.
Proof. apply rget_rset. Qed.

Lemma land_GET_MASK v mask s w :
  field_mask mask s w = true -> v .& mask = GET_MASK v mask ≪ s.
Proof.
  intros Hm. rewrite (GET_MASK_field _ _ s w) by done.
  apply field_mask_spec in Hm as (-> & _ & Hs & Hw & _). zbits.
Qed.

(** Read a register of an updated file, and a field of an updated register. *)
Ltac fields :=
  repeat first
    [ progress unfold fset
    | rewrite fr_fw; case_decide; [try done | try done]
    | rewrite GET_SET_MASK_ne by done
    | rewrite (GET_SET_MASK_eq _ NV_PFIFO_CACHE1_DMA_STATE_METHOD_TYPE 0 1) by done
    | rewrite (GET_SET_MASK_eq _ NV_PFIFO_CACHE1_DMA_STATE_METHOD 2 11) by done
    | rewrite (GET_SET_MASK_eq _ NV_PFIFO_CACHE1_DMA_STATE_SUBCHANNEL 13 3) by done
    | rewrite (GET_SET_MASK_eq _ NV_PFIFO_CACHE1_DMA_STATE_METHOD_COUNT 18 11) by done
    | rewrite (GET_SET_MASK_eq _ NV_PFIFO_CACHE1_DMA_STATE_ERROR 29 3) by done ].

(** The entry that the pusher builds, as the puller takes it apart. *)
Lemma method_entry_fields t s m :
  0 <= t < 2 -> 0 <= s < 8 -> 0 <= m < 2 ^ 11 ->
  let e := SET_MASK (SET_MASK (SET_MASK 0 NV_PFIFO_CACHE1_METHOD_ADDRESS m)
             NV_PFIFO_CACHE1_METHOD_TYPE t) NV_PFIFO_CACHE1_METHOD_SUBCHANNEL s in
  e .& 0x1FFC = 4 * m /\ GET_MASK e NV_PFIFO_CACHE1_METHOD_SUBCHANNEL = s /\
  GET_MASK e NV_PFIFO_CACHE1_METHOD_TYPE = t.
Proof.
  intros Ht Hs Hm. cbn zeta. split_and!.
  - rewrite (land_GET_MASK _ 0x1FFC 2 11) by done. fields.
    rewrite Z.shiftl_mul_pow2, Z.mod_small by lia. lia.
  - fields. rewrite Z.mod_small; lia.
  - fields. rewrite Z.mod_small; lia.
Qed.

(** A method header of the push buffer. *)
Definition header (t s m c : Z) : Z := t * 2 ^ 30 + c * 2 ^ 18 + s * 2 ^ 13 + 4 * m.

Definition header_ok (t s m c : Z) : Prop :=
  0 <= t < 2 /\ 0 <= s < 8 /\ 0 <= m < 2 ^ 11 /\ 0 <= c < 2 ^ 11.

Lemma header_decodes t s m c : header_ok t s m c ->
  let w := header t s m c in
  w .& 0xe0000003 <> 0x20000000 /\ w .& 3 = 0 /\ w .& 0xe0030003 = t * 2 ^ 30 /\
  (w .& 0x1fff) ≫ 2 = m /\ (w ≫ 13) .& 7 = s /\ (w ≫ 18) .& 0x7ff = c.
Proof.
  intros (Ht & Hs & Hm & Hc). cbn zeta. set (w := header t s m c).
  assert (Hlow : w .& 3 = 0).
  { change 3 with (Z.ones 2). rewrite Z.land_ones by lia. unfold w, header. Z.div_mod_to_equations. lia. }
  assert (Hmid : w .& 0x30000 = 0).
  { rewrite (land_GET_MASK _ 0x30000 16 2), (GET_MASK_field _ _ 16 2), Z.shiftr_div_pow2, Z.shiftl_mul_pow2 by done.
    unfold w, header. Z.div_mod_to_equations. lia. }
  assert (Htop : w .& 0xe0000000 = t * 2 ^ 30).
  { rewrite (land_GET_MASK _ 0xe0000000 29 3), (GET_MASK_field _ _ 29 3), Z.shiftr_div_pow2, Z.shiftl_mul_pow2 by done.
    unfold w, header. Z.div_mod_to_equations. lia. }
  change 0xe0030003 with (3 .| (0x30000 .| 0xe0000000)). change 0xe0000003 with (3 .| 0xe0000000).
  rewrite !Z.land_lor_distr_r, Hlow, Hmid, Htop, !Z.lor_0_l.
  change 0x1fff with (Z.ones 13). change 7 with (Z.ones 3). change 0x7ff with (Z.ones 11).
  rewrite !Z.land_ones, !Z.shiftr_div_pow2 by lia. unfold w, header.
  split_and!; [lia | done | done | Z.div_mod_to_equations; lia..].
Qed.

(** ** A method packet *)

Section Packet.
Context `{engine : !Pgraph}.

(** What an engine promises for the methods [P] of subchannel [s], in states with the
    invariant [I]: it processes the one word without stalling, its own state [view]
    makes the step of that method, and it leaves PFIFO, video memory and the
    conditions for a stall as they are. *)
Class PacketEngine (s : Z) (I : NV2AState -> Prop) (P : Z -> Z -> Prop) {V : Type} (view : NV2AState -> V)
    (step : Z -> Z -> V -> V) : Prop := {
  pe_regs : forall d r v, I d -> I (fw d r v);
  pe_view : forall d r v, view (fw d r v) = view d;
  pe_method : forall d m p ptr n look inc, I d -> P m p -> 1 <= n <= look ->
    exists d', pgraph_method d s m p ptr n look inc = Ok (1, d') /\ I d' /\ view d' = step m p (view d) /\
      pfifo_regs d' = pfifo_regs d /\ nv_vram d' = nv_vram d /\
      can_fifo_access d' = can_fifo_access d /\ waiting_for_flip d' = waiting_for_flip d /\
      waiting_for_nop d' = waiting_for_nop d /\
      waiting_for_context_switch d' = waiting_for_context_switch d
}.

(** Nothing holds the pusher or the puller up, and subchannel [s] is bound. *)
Record ready (d : NV2AState) (s : Z) : Prop := {
  rdy_pull0 : GET_MASK (fr d NV_PFIFO_CACHE1_PULL0) NV_PFIFO_CACHE1_PULL0_ACCESS <> 0;
  rdy_engine : GET_MASK (fr d NV_PFIFO_CACHE1_ENGINE) (3 ≪ (4 * s)) = ENGINE_GRAPHICS;
  rdy_access : can_fifo_access d = true;
  rdy_flip : waiting_for_flip d = false;
  rdy_nop : waiting_for_nop d = false;
  rdy_switch : waiting_for_context_switch d = false
}.

(** [c] words of a packet of [n] are left, the next for method [4 * m]. *)
Record packet (d : NV2AState) (t s m c n put : Z) (vram : list Z) : Prop := {
  pk_ready : ready d s;
  pk_get : fr d NV_PFIFO_CACHE1_DMA_GET = put - 4 * c;
  pk_put : fr d NV_PFIFO_CACHE1_DMA_PUT = put;
  pk_type : GET_MASK (fr d NV_PFIFO_CACHE1_DMA_STATE) NV_PFIFO_CACHE1_DMA_STATE_METHOD_TYPE = t;
  pk_sub : GET_MASK (fr d NV_PFIFO_CACHE1_DMA_STATE) NV_PFIFO_CACHE1_DMA_STATE_SUBCHANNEL = s;
  pk_method : GET_MASK (fr d NV_PFIFO_CACHE1_DMA_STATE) NV_PFIFO_CACHE1_DMA_STATE_METHOD = m;
  pk_count : GET_MASK (fr d NV_PFIFO_CACHE1_DMA_STATE) NV_PFIFO_CACHE1_DMA_STATE_METHOD_COUNT = c;
  pk_error : GET_MASK (fr d NV_PFIFO_CACHE1_DMA_STATE) NV_PFIFO_CACHE1_DMA_STATE_ERROR = 0;
  pk_dcount : fr d NV_PFIFO_CACHE1_DMA_DCOUNT = n - c;
  pk_vram : nv_vram d = vram
}.

Lemma ready_stall d s : ready d s ->
  pfifo_puller_should_stall d = (false, d) /\ pfifo_pusher_should_stall d = false.
Proof.
  intros [_ _ Ha Hf Hn Hs]. unfold pfifo_puller_should_stall, pfifo_stall_for_flip, pfifo_pusher_should_stall.
  by rewrite Hf, Hn, Hs, Ha.
Qed.

(** Registers other than PULL0 and ENGINE do not matter to [ready]. *)
Lemma ready_fw d s r v :
  r <> NV_PFIFO_CACHE1_PULL0 -> r <> NV_PFIFO_CACHE1_ENGINE -> ready d s -> ready (fw d r v) s.
Proof.
  intros H0 H1 [Hp He Ha Hf Hn Hs]. split; [| | done..]; rewrite fr_fw; by case_decide.
Qed.

Context (s : Z) (I : NV2AState -> Prop) (P : Z -> Z -> Prop) {V : Type} (view : NV2AState -> V) (step : Z -> Z -> V -> V).
Context `{!PacketEngine s I P view step}.

(** The puller hands a method to the engine and raises the mark again. *)
Lemma puller_method d t m p ptr n look :
  I d -> ready d s -> 0 <= t < 2 -> 0 <= s < 8 -> 0x40 <= m < 2 ^ 11 -> (m < 0x60 \/ 0x80 <= m) -> P (4 * m) p ->
  1 <= n <= look -> flag (fr d NV_PFIFO_CACHE1_STATUS) NV_PFIFO_CACHE1_STATUS_LOW_MARK = false ->
  exists d', pfifo_run_puller d (SET_MASK (SET_MASK (SET_MASK 0 NV_PFIFO_CACHE1_METHOD_ADDRESS m)
      NV_PFIFO_CACHE1_METHOD_TYPE t) NV_PFIFO_CACHE1_METHOD_SUBCHANNEL s) p ptr n look = Ok (1, d') /\
    I d' /\ view d' = step (4 * m) p (view d) /\ ready d' s /\ nv_vram d' = nv_vram d /\
    (forall r, r <> NV_PFIFO_CACHE1_PULL1 -> r <> NV_PFIFO_CACHE1_STATUS -> fr d' r = fr d r).
Proof.
  intros HI Hr Ht Hs Hm Hobj HP Hn Hmark. unfold pfifo_run_puller.
  destruct (ready_stall d s Hr) as [-> _]. rewrite Hmark, orb_false_r.
  rewrite (proj2 (Z.eqb_neq _ _) (rdy_pull0 _ _ Hr)).
  destruct (method_entry_fields t s m) as (-> & -> & ->); [lia..|].
  rewrite (proj2 (Z.eqb_neq (4 * m) 0)), (proj2 (Z.leb_le 0x100 (4 * m))) by lia.
  unfold pull_method. replace ((0x180 <=? 4 * m) && (4 * m <? 0x200)) with false by (symmetry; zcases; lia).
  cbn [mbind outcome_bind]. rewrite (rdy_engine _ _ Hr). cbn [Z.eqb c_assert mbind outcome_bind].
  set (d1 := fset d NV_PFIFO_CACHE1_PULL1 _ _).
  assert (Hr1 : ready d1 s) by by apply ready_fw.
  rewrite (rdy_access _ _ Hr1).
  destruct (pe_method d1 (4 * m) p ptr n look (t =? 0)) as (d' & -> & HI' & Hview & Hregs & Hv & Ha & Hf & Hnop & Hsw);
    [by apply pe_regs | done | done |].
  cbn [mbind outcome_bind c_assert Pos.eqb Z.ltb Z.compare]. eexists. split; [reflexivity|].
  assert (Hr2 : ready d' s).
  { destruct Hr1. split; unfold fr in *; rewrite ?Hregs, ?Ha, ?Hf, ?Hnop, ?Hsw; done. }
  split; [by apply pe_regs|]. split; [rewrite pe_view, Hview; unfold d1, fset; by rewrite pe_view|].
  split; [by apply ready_fw|]. split; [done|].
  intros r H1 H2. rewrite fr_fw. case_decide; [by subst|]. unfold fr at 1. rewrite Hregs.
  change (fr d1 r = fr d r). unfold d1, fset. rewrite fr_fw. by case_decide; [subst|].
Qed.

(** The methods a packet addresses: none takes an object handle, and the engine
    takes them all. *)
Definition methods_ok (t m : Z) (ws : list Z) : Prop := forall j w, ws !! j = Some w ->
  let x := if t =? 0 then m + Z.of_nat j else m in
  0x40 <= x < 2 ^ 11 /\ (x < 0x60 \/ 0x80 <= x) /\ P (4 * x) w.

(** The steps of the engine for the words of a packet, in order: with the method
    [4 * m], and with the methods from there on in a packet of increasing methods. *)
Fixpoint packet_steps (t m : Z) (ws : list Z) (v : V) : V :=
  match ws with
  | [] => v
  | w :: ws => packet_steps t (if t =? 0 then m + 1 else m) ws (step (4 * m) w v)
  end.

Lemma mark_cleared v : flag (v .& u32 (Z.lnot 0x10)) 0x10 = false.
Proof using.
  unfold flag. rewrite <- Z.land_assoc. change (u32 (Z.lnot 16) .& 16) with 0. by rewrite Z.land_0_r.
Qed.

(** A data word: the puller is entered with the method the packet says. *)
Lemma push_data_step d t m c n put vram word ptr :
  I d -> packet d t s m c n put vram -> 0 <= t < 2 -> 0 <= s < 8 -> 0x40 <= m < 2 ^ 11 -> (m < 0x60 \/ 0x80 <= m) ->
  P (4 * m) word -> 0 < c <= n -> n < 2 ^ 11 -> 4 * c <= put < 2 ^ 32 ->
  exists d', push_data d word ptr (put - 4 * c + 4) c = Ok (Some (put - 4 * (c - 1)), d') /\
    I d' /\ view d' = step (4 * m) word (view d) /\
    packet (fw d' NV_PFIFO_CACHE1_DMA_GET (put - 4 * (c - 1))) t s
      (if t =? 0 then (m + 1) mod 2 ^ 11 else m) (c - 1) n put vram.
Proof.
  intros HI Hpk Ht Hs Hm Hobj HP Hc Hn Hput. destruct Hpk as [Hr Hget Hp Htype Hsub Hmeth Hcnt Herr Hdc Hv].
  unfold push_data. rewrite Htype, Hsub, Hmeth, Hcnt.
  replace ((m ≪ 2) .& 3) with 0
    by (change 3 with (Z.ones 2); rewrite Z.land_ones, Z.shiftl_mul_pow2 by lia; symmetry; apply Z.mod_mul; lia).
  rewrite (Z.shiftr_shiftl_l m 2 2), Z.shiftl_0_r, Z.min_id by lia. cbn [Z.eqb c_assert mbind outcome_bind].
  set (d1 := fw (fw d _ _) _ _).
  destruct (puller_method d1 t m word ptr c c) as (d' & -> & HI' & Hview & Hr' & Hv' & Hregs); try done.
  - by apply pe_regs, pe_regs.
  - apply ready_fw; [done.. |]. by apply ready_fw.
  - lia.
  - unfold d1. rewrite fr_fw, decide_True by done. apply mark_cleared.
  - cbn [mbind outcome_bind Z.ltb Z.compare]. rewrite Z.min_r by lia. eexists.
    split; [do 3 f_equal; rewrite Z.mod_small; lia |].
    assert (Hfr : forall r, r <> NV_PFIFO_CACHE1_PULL1 -> r <> NV_PFIFO_CACHE1_STATUS ->
      r <> NV_PFIFO_CACHE1_DMA_DATA_SHADOW -> fr d' r = fr d r).
    { intros r H1 H2 H3. rewrite Hregs by done. unfold d1. rewrite !fr_fw. by repeat case_decide; try congruence. }
    assert (Hbig : u64 (m ≪ 2 + 4 * 1) ≫ 2 = m + 1).
    { rewrite Z.shiftl_mul_pow2, Z.shiftr_div_pow2, Z.mod_small by lia. Z.div_mod_to_equations. lia. }
    assert (Hvram : nv_vram d' = vram) by by rewrite Hv'.
    unfold d1 in Hview. rewrite !pe_view in Hview. rewrite Hbig.
    split; [destruct (t =? 0); repeat apply pe_regs; done |].
    split; [destruct (t =? 0); unfold fset; rewrite !pe_view; done |].
    destruct (Z.eqb_spec t 0) as [->|Ht0]; split; fields; rewrite ?Hfr by done; try done;
      solve [lia | repeat apply ready_fw; done | rewrite Z.mod_small; lia].
Qed.

(** The rest of a packet runs to its end. *)
Lemma packet_completes t n put vram dma len :
  0 <= t < 2 -> 0 <= s < 8 -> n < 2 ^ 11 -> put <= len -> put < 2 ^ 32 ->
  forall ws d m, zlen ws <= n -> 4 * zlen ws <= put -> I d -> packet d t s m (zlen ws) n put vram -> methods_ok t m ws ->
  (forall j w, ws !! j = Some w -> ldl_le_p vram (dma + put - 4 * zlen ws + 4 * Z.of_nat j) = Ok w) ->
  exists d' m', packet d' t s m' 0 n put vram /\ view d' = packet_steps t m ws (view d) /\
    forall fuel, (length ws <= fuel)%nat -> pusher_loop fuel d dma len = Ok d'.
Proof.
  intros Ht Hs Hn Hlen Hput ws. induction ws as [|w ws IH]; intros d m Hc Hcp HI Hpk Hok Hws;
    (destruct (ready_stall d s (pk_ready _ _ _ _ _ _ _ _ Hpk)) as [_ Hst]).
  { exists d, m. split; [done | split; [done |]]. intros fuel _. destruct fuel; cbn [pusher_loop];
      rewrite Hst, (pk_get _ _ _ _ _ _ _ _ Hpk), (pk_put _ _ _ _ _ _ _ _ Hpk); cbn [length];
      rewrite (proj2 (Z.eqb_eq _ _)) by lia; done. }
  destruct (Hok 0%nat w eq_refl) as (Hm & Hobj & HP). rewrite Z.add_0_r in Hm, Hobj, HP.
  assert (Hx : (if t =? 0 then m else m) = m) by (by destruct (t =? 0)). rewrite Hx in Hm, Hobj, HP.
  pose proof (Hws 0%nat w eq_refl) as Hw. set (c := zlen (w :: ws)) in *. assert (Hcl : c = zlen ws + 1) by (unfold c; cbn; lia).
  destruct (push_data_step d t m c n put vram w (dma + (put - 4 * c))) as (d1 & Hd & HI1 & Hview1 & Hpk1); try done; [lia..|].
  replace (c - 1) with (zlen ws) in * by lia.
  assert (Hmods : ws <> [] -> (if t =? 0 then (m + 1) mod 2 ^ 11 else m) = if t =? 0 then m + 1 else m).
  { intros Hne. destruct ws as [|w1 ws]; [done |]. destruct (Hok 1%nat w1 eq_refl) as (Hm1 & _).
    destruct (t =? 0); [apply Z.mod_small; lia | done]. }
  destruct (IH (fw d1 NV_PFIFO_CACHE1_DMA_GET (put - 4 * zlen ws)) (if t =? 0 then (m + 1) mod 2 ^ 11 else m))
    as (d' & m' & Hend & Hview & Hrun); [lia | lia | by apply pe_regs | done | | |].
  - intros j w' Hj. rewrite Hmods by (by intros ->). destruct (Hok (S j) w' Hj) as (H1 & H2 & H3).
    destruct (t =? 0); [| done]. replace (m + 1 + Z.of_nat j) with (m + Z.of_nat (S j)) by lia. done.
  - intros j w' Hj. rewrite <- (Hws (S j) w' Hj). f_equal. lia.
  - exists d', m'. split; [done | split].
    { rewrite Hview, pe_view, Hview1. cbn [packet_steps]. destruct ws; [done |]. by rewrite Hmods. }
    intros fuel Hf. destruct fuel as [|fuel]; [cbn in Hf; lia|].
    cbn [pusher_loop]. rewrite Hst, (pk_get _ _ _ _ _ _ _ _ Hpk), (pk_put _ _ _ _ _ _ _ _ Hpk).
    rewrite (proj2 (Z.eqb_neq _ _)) by lia. unfold push_word.
    rewrite (pk_get _ _ _ _ _ _ _ _ Hpk), (pk_put _ _ _ _ _ _ _ _ Hpk), (pk_vram _ _ _ _ _ _ _ _ Hpk).
    replace (dma + put - 4 * c + 4 * Z.of_nat 0) with (dma + (put - 4 * c)) in Hw by lia.
    rewrite Hw, (pk_count _ _ _ _ _ _ _ _ Hpk).
    rewrite (proj2 (Z.ltb_lt (put - 4 * c) len)), (proj2 (Z.eqb_neq c 0)) by lia.
    replace (u32 (put - (put - 4 * c))) with (4 * c) by (rewrite Z.mod_small; lia).
    rewrite (Z.mul_comm 4 c), Z.mod_mul, Z.div_mul by lia. rewrite (Z.mul_comm c 4).
    rewrite (u32_small (put - 4 * c + 4)) by lia. cbn [Z.eqb c_assert mbind outcome_bind]. rewrite Hd.
    cbn [mbind outcome_bind]. unfold dma_state_error. rewrite (pk_error _ _ _ _ _ _ _ _ Hpk1).
    cbn [Z.eqb negb]. apply Hrun. cbn in Hf. lia.
Qed.

(** A header starts a packet. *)
Lemma header_step d t m n :
  header_ok t s m n -> ready d s ->
  GET_MASK (fr d NV_PFIFO_CACHE1_DMA_STATE) NV_PFIFO_CACHE1_DMA_STATE_ERROR = 0 ->
  I d -> forall get put, put = get + 4 * n -> fr d NV_PFIFO_CACHE1_DMA_PUT = put ->
  exists d', push_command d (header t s m n) get = Ok (Some get, d') /\
    packet (fw d' NV_PFIFO_CACHE1_DMA_GET get) t s m n n put (nv_vram d) /\
    I d' /\ view d' = view d.
Proof.
  intros Hh Hr He HI get put Hget Hput. destruct (header_decodes t s m n Hh) as (H1 & H2 & H3 & Hm & Hs & Hc).
  destruct Hh as (Rt & Rs & Rm & Rc). unfold push_command. rewrite H2, H3.
  rewrite (proj2 (Z.eqb_neq _ _) H1). cbn [Z.eqb].
  rewrite (proj2 (Z.eqb_neq (header t s m n) 0x20000)) by (unfold header; Z.div_mod_to_equations; lia).
  assert (t = 0 \/ t = 1) as [-> | ->] by lia; cbn [Z.mul Z.pow Z.eqb].
  all: change (0 * 2 ^ 30 =? 0) with true || change (1 * 2 ^ 30 =? 0) with false;
    try change (1 * 2 ^ 30 =? 0x40000000) with true; cbv iota.
  all: eexists; split; [reflexivity|]; unfold push_header; rewrite Hm, Hs, Hc.
  all: split; [| split; [repeat apply pe_regs; done | unfold fset; by rewrite !pe_view]].
  all: split; fields; solve [done | lia | repeat apply ready_fw; done | rewrite Z.mod_small; lia].
Qed.

(** A run of the pusher over one packet, with any engine that keeps the promise. *)
Lemma packet_runs d t m dma len ws :
  let get := fr d NV_PFIFO_CACHE1_DMA_GET in let put := fr d NV_PFIFO_CACHE1_DMA_PUT in
  header_ok t s m (zlen ws) -> methods_ok t m ws -> I d -> ready d s ->
  GET_MASK (fr d NV_PFIFO_CACHE1_DMA_STATE) NV_PFIFO_CACHE1_DMA_STATE_ERROR = 0 ->
  GET_MASK (fr d NV_PFIFO_CACHE1_DMA_STATE) NV_PFIFO_CACHE1_DMA_STATE_METHOD_COUNT = 0 ->
  put = get + 4 * (zlen ws + 1) -> 0 <= get -> put < 2 ^ 32 -> put <= len ->
  (forall j w, (header t s m (zlen ws) :: ws) !! j = Some w -> ldl_le_p (nv_vram d) (dma + get + 4 * Z.of_nat j) = Ok w) ->
  exists d', (forall fuel, (length ws + 1 <= fuel)%nat -> pusher_loop fuel d dma len = Ok d') /\
    fr d' NV_PFIFO_CACHE1_DMA_GET = put /\ fr d' NV_PFIFO_CACHE1_DMA_DCOUNT = zlen ws /\
    GET_MASK (fr d' NV_PFIFO_CACHE1_DMA_STATE) NV_PFIFO_CACHE1_DMA_STATE_METHOD_COUNT = 0 /\
    dma_state_error d' = false /\ nv_vram d' = nv_vram d /\ view d' = packet_steps t m ws (view d).
Proof.
  intros get put Hh Hok HI Hr He Hc Hput Hg Hp Hl Hw. pose proof Hh as (Rt & Rs & Rm & Rn).
  destruct (header_step d t m (zlen ws) Hh Hr He HI (get + 4) put) as (d1 & Hcmd & Hpk & HI1 & Hv1); [lia | done |].
  pose proof (Hw 0%nat _ eq_refl) as Hw0. rewrite Z.add_0_r in Hw0.
  destruct (packet_completes t (zlen ws) put (nv_vram d) dma len Rt Rs (proj2 Rn) Hl Hp ws
    (fw d1 NV_PFIFO_CACHE1_DMA_GET (get + 4)) m) as (d' & m' & Hend & Hview & Hrun);
    [lia | lia | by apply pe_regs | done | done | |].
  { intros j w Hj. rewrite <- (Hw (S j) w Hj). f_equal. lia. }
  exists d'. split.
  - intros fuel Hf. destruct fuel as [|fuel]; [lia|]. cbn [pusher_loop].
    rewrite (proj2 (ready_stall d s Hr)). fold get put. rewrite (proj2 (Z.eqb_neq get put)) by lia.
    unfold push_word. fold get put. rewrite Hw0, Hc, (proj2 (Z.ltb_lt get len)) by lia.
    replace (u32 (put - get)) with ((zlen ws + 1) * 4) by (rewrite Z.mod_small; lia).
    rewrite Z.mod_mul, (u32_small (get + 4)) by lia. cbn [Z.eqb c_assert mbind outcome_bind].
    rewrite Hcmd. cbn [mbind outcome_bind]. unfold dma_state_error. rewrite (pk_error _ _ _ _ _ _ _ _ Hpk).
    cbn [Z.eqb negb]. apply Hrun. lia.
  - unfold dma_state_error. rewrite (pk_get _ _ _ _ _ _ _ _ Hend), (pk_dcount _ _ _ _ _ _ _ _ Hend).
    rewrite (pk_count _ _ _ _ _ _ _ _ Hend), (pk_error _ _ _ _ _ _ _ _ Hend). rewrite Hview, pe_view, Hv1.
    split_and!; [lia.. | done | by apply (pk_vram _ _ _ _ _ _ _ _ Hend) | done].
Qed.

End Packet.

Section Stalls.
Context `{engine : !Pgraph}.

(** Whether the puller stalls does not depend on PFIFO, which it leaves alone. *)
Lemma stall_fw d r v : (pfifo_puller_should_stall (fw d r v)).1 = (pfifo_puller_should_stall d).1.
Proof.
  unfold pfifo_puller_should_stall, pfifo_stall_for_flip. cbn.
  change (is_flip_stall_complete (fw d r v)) with (is_flip_stall_complete d).
  destruct (waiting_for_flip d), (is_flip_stall_complete d); done.
Qed.

Lemma stall_regs d : pfifo_regs (pfifo_puller_should_stall d).2 = pfifo_regs d.
Proof.
  unfold pfifo_puller_should_stall, pfifo_stall_for_flip.
  destruct (waiting_for_flip d), (is_flip_stall_complete d); done.
Qed.

(** A word the puller stalls on is not consumed: GET, the outstanding count,
    the method and the word counter stay, so the same word is pushed again when
    the FIFO is next kicked. *)
Theorem stalled_word_is_retried d dma len word :
  let get := fr d NV_PFIFO_CACHE1_DMA_GET in
  GET_MASK (fr d NV_PFIFO_CACHE1_DMA_STATE) NV_PFIFO_CACHE1_DMA_STATE_METHOD_COUNT <> 0 ->
  (pfifo_puller_should_stall d).1 = true -> get < len ->
  u32 (fr d NV_PFIFO_CACHE1_DMA_PUT - get) mod 4 = 0 -> ldl_le_p (nv_vram d) (dma + get) = Ok word ->
  exists d', push_word d dma len = Ok (false, d') /\
    fr d' NV_PFIFO_CACHE1_DMA_GET = get /\
    fr d' NV_PFIFO_CACHE1_DMA_STATE = fr d NV_PFIFO_CACHE1_DMA_STATE /\
    fr d' NV_PFIFO_CACHE1_DMA_DCOUNT = fr d NV_PFIFO_CACHE1_DMA_DCOUNT.
Proof.
  intros get Hc Hst Hg Ha Hw. unfold push_word. fold get.
  rewrite Hw, Ha, (proj2 (Z.ltb_lt get len)), (proj2 (Z.eqb_neq _ 0) Hc) by lia.
  cbn [Z.eqb c_assert mbind outcome_bind]. unfold push_data.
  match goal with |- context [c_assert (?x .& 3 =? 0)] => assert (Hal : x .& 3 = 0) end.
  { change 3 with (Z.ones 2). rewrite Z.land_ones, Z.shiftl_mul_pow2 by lia. by apply Z.mod_mul. }
  rewrite Hal. cbn [Z.eqb c_assert mbind outcome_bind]. unfold pfifo_run_puller.
  set (d1 := fw (fw d _ _) _ _). pose proof (stall_regs d1) as Hregs.
  assert (Hst1 : (pfifo_puller_should_stall d1).1 = true) by (unfold d1; by rewrite !stall_fw).
  destruct (pfifo_puller_should_stall d1) as [b d2]. cbn in Hst1, Hregs. rewrite Hst1. cbn [mbind outcome_bind].
  assert (Hfr : forall r, fr d2 r = fr d1 r) by (intros r; unfold fr; by rewrite Hregs).
  exists d2. split; [done|]. rewrite !Hfr. unfold d1. split_and!; fields; done.
Qed.

(** A jump to itself is never left by the pusher: with GET at the jump and PUT
    elsewhere, no amount of fuel ends the loop. The loop runs under the FIFO's
    lock, which a write of PUT takes too. *)
Theorem jump_to_self_spins d dma len fuel :
  let get := fr d NV_PFIFO_CACHE1_DMA_GET in
  pfifo_pusher_should_stall d = false -> get <> fr d NV_PFIFO_CACHE1_DMA_PUT ->
  GET_MASK (fr d NV_PFIFO_CACHE1_DMA_STATE) NV_PFIFO_CACHE1_DMA_STATE_METHOD_COUNT = 0 ->
  GET_MASK (fr d NV_PFIFO_CACHE1_DMA_STATE) NV_PFIFO_CACHE1_DMA_STATE_ERROR = 0 ->
  0 <= get < 2 ^ 32 -> get mod 4 = 0 -> get < len -> u32 (fr d NV_PFIFO_CACHE1_DMA_PUT - get) mod 4 = 0 ->
  ldl_le_p (nv_vram d) (dma + get) = Ok (get + 1) ->
  pusher_loop fuel d dma len = NoFuel.
Proof.
  revert d. induction fuel as [|fuel IH]; intros d get Hst Hne Hc He Hg Ha Hl Hb Hw; cbn [pusher_loop]; fold get.
  { by rewrite Hst, (proj2 (Z.eqb_neq _ _) Hne). }
  rewrite Hst, (proj2 (Z.eqb_neq _ _) Hne). unfold push_word. fold get.
  rewrite Hw, Hb, Hc, (proj2 (Z.ltb_lt get len)) by lia. cbn [Z.eqb c_assert mbind outcome_bind].
  unfold push_command.
  assert (H3 : (get + 1) .& 3 = 1).
  { change 3 with (Z.ones 2). rewrite Z.land_ones by lia. change (2 ^ 2) with 4. Z.div_mod_to_equations. lia. }
  assert (Hold : (get + 1) .& 0xe0000003 <> 0x20000000).
  { intros E. assert (H4 : ((get + 1) .& 0xe0000003) .& 3 = 0) by by rewrite E.
    rewrite <- Z.land_assoc in H4. change (0xe0000003 .& 3) with 3 in H4. lia. }
  assert (Hto : (get + 1) .& 0xfffffffc = get).
  { rewrite (land_GET_MASK _ 0xfffffffc 2 30), (GET_MASK_field _ _ 2 30) by done.
    rewrite Z.shiftl_mul_pow2, Z.shiftr_div_pow2 by lia. change (2 ^ 2) with 4. Z.div_mod_to_equations. lia. }
  rewrite (proj2 (Z.eqb_neq _ _) Hold), H3, Hto. cbn [Z.eqb Pos.eqb mbind outcome_bind].
  unfold dma_state_error. fields. rewrite He. cbn [Z.eqb negb].
  apply IH; fields; done.
Qed.

End Stalls.

(** ** A device ready to push *)

(** An engine that processes every method word by word and changes nothing. *)
#[local] Instance idle_engine : Pgraph := {| pgraph_method d _ _ _ _ _ _ _ := Ok (1, d) |}.

(** Subchannel 0 bound, push buffer at the start of video memory. *)
Definition pushing (words : list Z) (put : Z) : NV2AState :=
  (fw (fw (fw quiet NV_PFIFO_CACHE1_PULL0 1) NV_PFIFO_CACHE1_ENGINE 1) NV_PFIFO_CACHE1_DMA_PUT put)
    <| nv_vram := flat_map (le_bytes 4) words |> <| pgraph_regs := rset ∅ NV_PGRAPH_FIFO 1 |>.

Lemma stalled_word_is_retried_witness :
  let d := (fset (pushing [7] 4) NV_PFIFO_CACHE1_DMA_STATE NV_PFIFO_CACHE1_DMA_STATE_METHOD_COUNT 1)
             <| waiting_for_context_switch := true |> in
  exists d', push_word d 0 4 = Ok (false, d') /\ fr d' NV_PFIFO_CACHE1_DMA_GET = 0.
Proof.
  intros d. destruct (stalled_word_is_retried d 0 4 7) as (d' & H & Hg & _); [done.. |].
  exists d'. split; [exact H | exact Hg].
Defined.

Lemma jump_to_self_spins_witness : pusher_loop 1000 (pushing [1; 0] 4) 0 8 = NoFuel.
Proof. apply jump_to_self_spins; done. Defined.

(** ** RAMHT *)

(** The width of a hash step, from the size field. *)
Lemma ramht_bits d : exists k, 0 <= k < 4 /\ ramht_size d = 2 ^ (k + 12) /\ ctz32 (ramht_size d) - 1 = k + 11.
Proof.
  unfold ramht_size. rewrite (GET_MASK_field _ NV_PFIFO_RAMHT_SIZE 16 2) by done.
  pose proof (Z.mod_pos_bound (fr d NV_PFIFO_RAMHT ≫ 16) (2 ^ 2) ltac:(lia)) as Hk.
  set (k := _ mod 2 ^ 2) in *. exists k. split; [lia|]. clearbody k.
  assert (k = 0 \/ k = 1 \/ k = 2 \/ k = 3) as [-> | [-> | [-> | ->]]] by lia; done.
Qed.

Lemma hash_loop_round fuel bits handle hash : 0 < bits -> handle <> 0 ->
  hash_loop (S fuel) bits handle hash =
    hash_loop fuel bits (handle / 2 ^ bits) (Z.lxor hash (handle mod 2 ^ bits)).
Proof.
  intros Hb Hh. cbn [hash_loop]. rewrite (proj2 (Z.eqb_neq _ _) Hh), Z.shiftr_div_pow2 by lia.
  rewrite Z.shiftl_mul_pow2, Z.mul_1_l, <- Z.land_ones, Z.ones_equiv by lia. done.
Qed.

Lemma lxor_in_u w a b : 0 <= w -> in_u w a -> in_u w b -> in_u w (Z.lxor a b).
Proof.
  intros Hw Ha Hb. replace (Z.lxor a b) with ((Z.lxor a b) mod 2 ^ w).
  - apply Z.mod_pos_bound. by apply Z.pow_pos_nonneg.
  - apply Z.bits_inj'. intros i Hi. destruct (Z.lt_ge_cases i w).
    + by rewrite Z.mod_pow2_bits_low.
    + rewrite Z.mod_pow2_bits_high, Z.lxor_spec, !(testbit_small w) by (done || lia). done.
Qed.

(** Three rounds are enough for 32 bits. *)
Lemma hash_loop_total k handle : 0 <= k < 4 -> 0 <= handle < 2 ^ 32 ->
  exists h, hash_loop 3 (k + 11) handle 0 = Ok h /\ in_u (k + 11) h.
Proof.
  intros Hk Hh.
  assert (Hgen : forall n hd hash, 0 <= hd < 2 ^ (Z.of_nat n * (k + 11)) -> in_u (k + 11) hash ->
    exists h, hash_loop n (k + 11) hd hash = Ok h /\ in_u (k + 11) h).
  { induction n as [|n IH]; intros hd hash Hhd Hash.
    - assert (hd = 0) as -> by (rewrite Z.mul_0_l in Hhd; lia). by exists hash.
    - destruct (Z.eq_dec hd 0) as [-> | H0]; [by exists hash|].
      rewrite hash_loop_round by lia. apply IH.
      + split; [apply Z.div_pos; lia|]. apply Z.div_lt_upper_bound; [lia|].
        rewrite <- Z.pow_add_r by lia. replace (k + 11 + _) with (Z.of_nat (S n) * (k + 11)) by lia. lia.
      + apply lxor_in_u; [lia | done |]. apply Z.mod_pos_bound. lia. }
  apply (Hgen 3%nat); [| unfold in_u; lia].
  split; [lia|]. apply (Z.lt_le_trans _ (2 ^ 32)); [lia|]. apply Z.pow_le_mono_r; lia.
Qed.

(** Hashing a handle always ends (three rounds consume 32 bits) in a value
    below the number of bytes of the table, but a table has an eighth as many
    entries: a handle whose hash reaches that number fails the assertion of the
    lookup instead of missing. *)
Theorem ramht_hash_range d handle : 0 <= handle < 2 ^ 32 ->
  exists hash, ramht_hash d handle = Ok hash /\ 0 <= hash < ramht_size d /\
    (ramht_size d / 8 <= hash -> ramht_lookup d handle = AssertFail).
Proof.
  intros Hh. destruct (ramht_bits d) as (k & Hk & Hsize & Hbits).
  destruct (hash_loop_total k handle Hk Hh) as (h & Hloop & Hr).
  set (c := GET_MASK (fr d NV_PFIFO_CACHE1_PUSH1) NV_PFIFO_CACHE1_PUSH1_CHID).
  assert (Hc : in_u 5 c) by (unfold c; rewrite (GET_MASK_field _ _ 0 5) by done; apply Z.mod_pos_bound; lia).
  assert (Hrun : ramht_hash d handle = Ok (Z.lxor h (c ≪ (k + 11 - 4)))).
  { unfold ramht_hash. rewrite Hbits, Hloop. done. }
  assert (Hrange : in_u (k + 12) (Z.lxor h (c ≪ (k + 11 - 4)))).
  { unfold in_u in *. apply lxor_in_u; [lia | |]; unfold in_u.
    - replace (k + 12) with (Z.succ (k + 11)) by lia. rewrite Z.pow_succ_r; lia.
    - rewrite Z.shiftl_mul_pow2 by lia. replace (k + 12) with (5 + (k + 11 - 4)) by lia.
      rewrite Z.pow_add_r by lia. nia. }
  eexists. split; [exact Hrun|]. rewrite Hsize. split; [exact Hrange|]. intros Hbig.
  unfold ramht_lookup. rewrite Hrun. cbn [mbind outcome_bind]. rewrite Hsize.
  assert (H8 : 2 ^ (k + 12) = 8 * 2 ^ (k + 9))
    by (replace (k + 12) with (3 + (k + 9)) by lia; rewrite Z.pow_add_r; lia).
  rewrite H8, (Z.mul_comm 8), Z.div_mul in Hbig by lia. unfold in_u in Hrange.
  assert (Hmax : 2 ^ (k + 12) <= 2 ^ 15) by (apply Z.pow_le_mono_r; lia).
  set (x := Z.lxor h _) in *. clearbody x. rewrite (u32_small (x * 8)) by lia.
  by rewrite (proj2 (Z.ltb_ge (x * 8) (2 ^ (k + 12)))) by lia.
Qed.

Lemma ramht_hash_range_witness :
  ramht_hash quiet 0x600 = Ok 0x600 /\ ramht_lookup quiet 0x600 = AssertFail.
Proof.
  destruct (ramht_hash_range quiet 0x600) as (h & Hh & _ & H); [lia|].
  assert (E : ramht_hash quiet 0x600 = Ok 0x600) by reflexivity.
  split; [exact E|]. apply H. rewrite Hh in E. injection E as ->. vm_compute. discriminate.
Defined.

(** Lookups do not compare handles: a handle and the same handle moved up by
    the width of a hash step find the same entry. *)
Theorem ramht_handles_alias d handle :
  let bits := ctz32 (ramht_size d) - 1 in
  0 < handle < 2 ^ bits -> ramht_lookup d (handle ≪ bits) = ramht_lookup d handle.
Proof.
  intros bits Hh. destruct (ramht_bits d) as (k & Hk & _ & Hbits). fold bits in Hbits.
  unfold ramht_lookup, ramht_hash. fold bits. clearbody bits. cbn zeta.
  rewrite (Z.shiftl_mul_pow2 handle) by lia.
  assert (H2 : 0 < 2 ^ bits) by (apply Z.pow_pos_nonneg; lia).
  rewrite (hash_loop_round 2 bits (handle * 2 ^ bits)) by nia. rewrite Z.div_mul, Z.mod_mul by lia.
  rewrite (hash_loop_round 1 bits handle), (hash_loop_round 2 bits handle) by lia.
  by rewrite Z.div_small, Z.mod_small by lia.
Qed.

Lemma ramht_handles_alias_witness : ramht_lookup quiet (5 ≪ 11) = ramht_lookup quiet 5.
Proof. apply (ramht_handles_alias quiet 5). vm_compute. done. Defined.
