(* ===== verification/PrimRewrite.v ===== *)
(** * Primitive assembly on the CPU (hw/xbox/nv2a/pgraph/prim_rewrite.c)

    The renderers draw only points, lines and triangles with the provoking
    vertex first. This component rewrites the index stream of the other
    primitives into a shared buffer that it grows as needed.

    The operations write the buffer through [emit_vertex], whose store past the
    end of the buffer is undefined; the theorems show that the size computed by
    [max_output_indices] is always enough, that what is emitted is the
    decomposition given by a recursive definition on the vertex list, and that
    the reordering keeps winding and provoking vertex. *)

From Stdlib Require Import ZArith Lia Bool.
From stdpp Require Import base list.
From S2P Require Import Prelude.
#[local] Open Scope Z_scope.

(** ** Data *)

Inductive ShaderPrimitiveMode :=
| PRIM_TYPE_INVALID | PRIM_TYPE_POINTS | PRIM_TYPE_LINES | PRIM_TYPE_LINE_LOOP | PRIM_TYPE_LINE_STRIP
| PRIM_TYPE_TRIANGLES | PRIM_TYPE_TRIANGLE_STRIP | PRIM_TYPE_TRIANGLE_FAN
| PRIM_TYPE_QUADS | PRIM_TYPE_QUAD_STRIP | PRIM_TYPE_POLYGON.

Inductive ShaderPolygonMode := POLY_MODE_FILL | POLY_MODE_POINT | POLY_MODE_LINE.

#[export] Instance ShaderPrimitiveMode_eq_dec : EqDecision ShaderPrimitiveMode.
Proof. solve_decision. Defined.
#[export] Instance ShaderPolygonMode_eq_dec : EqDecision ShaderPolygonMode.
Proof. solve_decision. Defined.

Record PrimRewriteBuf := mkBuf { buf_data : list Z; buf_capacity : Z }.

(** [indices] is the buffer's storage, shared with the buffer. *)
Record PrimRewrite := mkRewrite { indices : list Z; num_indices : Z }.

Record PrimAssemblyState := mkAssembly {
  primitive_mode : ShaderPrimitiveMode;
  polygon_mode : ShaderPolygonMode;
  last_provoking : bool;
  flat_shading : bool
}.

Definition pgraph_prim_rewrite_init : PrimRewriteBuf := mkBuf [] 0.
Definition pgraph_prim_rewrite_finalize (buf : PrimRewriteBuf) : PrimRewriteBuf := mkBuf [] 0.

Definition is_line (m : ShaderPolygonMode) : bool := bool_decide (m = POLY_MODE_LINE).

Definition pgraph_prim_rewrite_get_output_mode (m : ShaderPrimitiveMode) (p : ShaderPolygonMode) :
  outcome ShaderPrimitiveMode :=
  match m with
  | PRIM_TYPE_POINTS => Ok PRIM_TYPE_POINTS
  | PRIM_TYPE_LINES | PRIM_TYPE_LINE_STRIP | PRIM_TYPE_LINE_LOOP => Ok PRIM_TYPE_LINES
  | PRIM_TYPE_TRIANGLES | PRIM_TYPE_TRIANGLE_STRIP | PRIM_TYPE_TRIANGLE_FAN => Ok PRIM_TYPE_TRIANGLES
  | PRIM_TYPE_QUADS | PRIM_TYPE_QUAD_STRIP | PRIM_TYPE_POLYGON =>
      Ok (if is_line p then PRIM_TYPE_LINES else PRIM_TYPE_TRIANGLES)
  | PRIM_TYPE_INVALID => AssertFail
  end.

Definition needs_rewrite (mode : PrimAssemblyState) : bool :=
  match primitive_mode mode with
  | PRIM_TYPE_POINTS => false
  | PRIM_TYPE_LINES | PRIM_TYPE_TRIANGLES => last_provoking mode && flat_shading mode
  | _ => true
  end.

Definition max_output_indices (m : ShaderPrimitiveMode) (p : ShaderPolygonMode) (n : Z) : Z :=
  match m with
  | PRIM_TYPE_LINES => n
  | PRIM_TYPE_LINE_STRIP => if 2 <=? n then u32 ((n - 1) * 2) else 0
  | PRIM_TYPE_LINE_LOOP => if 2 <=? n then u32 (n * 2) else 0
  | PRIM_TYPE_TRIANGLES => n
  | PRIM_TYPE_TRIANGLE_STRIP | PRIM_TYPE_TRIANGLE_FAN => if 3 <=? n then u32 ((n - 2) * 3) else 0
  | PRIM_TYPE_POLYGON =>
      if is_line p then if 2 <=? n then u32 (n * 2) else 0
      else if 3 <=? n then u32 ((n - 2) * 3) else 0
  | PRIM_TYPE_QUADS => if is_line p then u32 (n / 4 * 8) else u32 (n / 4 * 6)
  | PRIM_TYPE_QUAD_STRIP =>
      if is_line p then if 4 <=? n then u32 ((n - 2) / 2 * 8) else 0
      else if 4 <=? n then u32 ((n - 2) / 2 * 6) else 0
  | _ => 0
  end.

(** ** Emitting *)

(** [idx] is the array of indices, or [None] for consecutive vertices. *)
Definition idx_at (idx : option (list Z)) (i base : Z) : outcome Z :=
  match idx with
  | Some l => rd l i
  | None => Ok (u32 (base + i))
  end.

Definition emit_vertex (r : PrimRewrite) (v : Z) : outcome PrimRewrite :=
  d ← wr (indices r) (num_indices r) v; Ok (mkRewrite d (u32 (num_indices r + 1))).

Definition emit_line (r : PrimRewrite) (a b : Z) : outcome PrimRewrite :=
  r ← emit_vertex r a; emit_vertex r b.

Definition emit_line_pv (r : PrimRewrite) (a b p : Z) : outcome PrimRewrite :=
  if p =? a then emit_line r a b else emit_line r b a.

Definition emit_tri (r : PrimRewrite) (a b c : Z) : outcome PrimRewrite :=
  r ← emit_vertex r a; r ← emit_vertex r b; emit_vertex r c.

Definition emit_tri_pv (r : PrimRewrite) (a b c p : Z) : outcome PrimRewrite :=
  if p =? a then emit_tri r a b c
  else if p =? b then emit_tri r b c a
  else emit_tri r c a b.

(** [for (i = i0; i + look < count; i += step) body(i)]. *)
Fixpoint for_loop (fuel : nat) (i look step count : Z) (body : PrimRewrite -> Z -> outcome PrimRewrite)
  (r : PrimRewrite) : outcome PrimRewrite :=
  if negb (u32 (i + look) <? count) then Ok r else
  match fuel with
  | O => NoFuel
  | S fuel => r ← body r i; for_loop fuel (u32 (i + step)) look step count body r
  end.

(** Every round advances by at least one vertex. *)
Definition rounds (count : Z) : nat := Z.to_nat count.

(** ** The primitives *)

Section Rewrite.
Variable idx : option (list Z).
Variable base : Z.

Definition rewrite_lines (r : PrimRewrite) (count : Z) (lastp : bool) : outcome PrimRewrite :=
  for_loop (rounds count) 0 1 2 count (fun r i =>
    v0 ← idx_at idx i base; v1 ← idx_at idx (i + 1) base;
    emit_line_pv r v0 v1 (if lastp then v1 else v0)) r.

Definition rewrite_line_strip (r : PrimRewrite) (count : Z) (lastp : bool) : outcome PrimRewrite :=
  for_loop (rounds count) 0 1 1 count (fun r i =>
    v0 ← idx_at idx i base; v1 ← idx_at idx (i + 1) base;
    emit_line_pv r v0 v1 (if lastp then v1 else v0)) r.

Definition rewrite_line_loop (r : PrimRewrite) (count : Z) (lastp : bool) : outcome PrimRewrite :=
  if count <? 2 then Ok r else
  r ← for_loop (rounds count) 0 1 1 count (fun r i =>
    v0 ← idx_at idx i base; v1 ← idx_at idx (i + 1) base;
    emit_line_pv r v0 v1 (if lastp then v1 else v0)) r;
  v_last ← idx_at idx (count - 1) base;
  v_first ← idx_at idx 0 base;
  emit_line_pv r v_last v_first (if lastp then v_first else v_last).

Definition rewrite_triangles (r : PrimRewrite) (count : Z) (lastp : bool) : outcome PrimRewrite :=
  for_loop (rounds count) 0 2 3 count (fun r i =>
    v0 ← idx_at idx i base; v1 ← idx_at idx (i + 1) base; v2 ← idx_at idx (i + 2) base;
    emit_tri_pv r v0 v1 v2 (if lastp then v2 else v0)) r.

Definition rewrite_triangle_strip (r : PrimRewrite) (count : Z) (lastp : bool) : outcome PrimRewrite :=
  for_loop (rounds count) 0 2 1 count (fun r i =>
    v0 ← idx_at idx i base; v1 ← idx_at idx (i + 1) base; v2 ← idx_at idx (i + 2) base;
    let pv := if lastp then v2 else v0 in
    if flag i 1 then emit_tri_pv r v1 v0 v2 pv else emit_tri_pv r v0 v1 v2 pv) r.

Definition rewrite_triangle_fan (r : PrimRewrite) (count : Z) (lastp : bool) : outcome PrimRewrite :=
  if count <? 3 then Ok r else
  hub ← idx_at idx 0 base;
  for_loop (rounds count) 0 2 1 count (fun r i =>
    v1 ← idx_at idx (i + 1) base; v2 ← idx_at idx (i + 2) base;
    emit_tri_pv r hub v1 v2 (if lastp then v2 else v1)) r.

Definition rewrite_quads (r : PrimRewrite) (count : Z) (flat : bool) : outcome PrimRewrite :=
  for_loop (rounds count) 0 3 4 count (fun r i =>
    v0 ← idx_at idx i base; v1 ← idx_at idx (i + 1) base;
    v2 ← idx_at idx (i + 2) base; v3 ← idx_at idx (i + 3) base;
    if flat then r ← emit_tri r v3 v0 v1; emit_tri r v3 v1 v2
    else r ← emit_tri r v0 v1 v2; emit_tri r v0 v2 v3) r.

Definition rewrite_quads_line (r : PrimRewrite) (count : Z) : outcome PrimRewrite :=
  for_loop (rounds count) 0 3 4 count (fun r i =>
    v0 ← idx_at idx i base; v1 ← idx_at idx (i + 1) base;
    v2 ← idx_at idx (i + 2) base; v3 ← idx_at idx (i + 3) base;
    r ← emit_line r v0 v1; r ← emit_line r v1 v2; r ← emit_line r v2 v3; emit_line r v3 v0) r.

Definition rewrite_quad_strip (r : PrimRewrite) (count : Z) (flat : bool) : outcome PrimRewrite :=
  if count <? 4 then Ok r else
  for_loop (rounds count) 0 3 2 count (fun r i =>
    v0 ← idx_at idx i base; v1 ← idx_at idx (i + 1) base;
    v2 ← idx_at idx (i + 2) base; v3 ← idx_at idx (i + 3) base;
    if flat then r ← emit_tri r v3 v2 v0; emit_tri r v3 v0 v1
    else r ← emit_tri r v0 v1 v2; emit_tri r v2 v1 v3) r.

Definition rewrite_quad_strip_line (r : PrimRewrite) (count : Z) : outcome PrimRewrite :=
  if count <? 4 then Ok r else
  for_loop (rounds count) 0 3 2 count (fun r i =>
    v0 ← idx_at idx i base; v1 ← idx_at idx (i + 1) base;
    v2 ← idx_at idx (i + 2) base; v3 ← idx_at idx (i + 3) base;
    r ← emit_line r v0 v1; r ← emit_line r v1 v3; r ← emit_line r v3 v2; emit_line r v2 v0) r.

Definition rewrite_polygon (r : PrimRewrite) (count : Z) : outcome PrimRewrite :=
  if count <? 3 then Ok r else
  hub ← idx_at idx 0 base;
  for_loop (rounds count) 0 2 1 count (fun r i =>
    v1 ← idx_at idx (i + 1) base; v2 ← idx_at idx (i + 2) base;
    emit_tri r hub v1 v2) r.

Definition rewrite_polygon_line (r : PrimRewrite) (count : Z) : outcome PrimRewrite :=
  if count <? 2 then Ok r else
  r ← for_loop (rounds count) 0 1 1 count (fun r i =>
    v0 ← idx_at idx i base; v1 ← idx_at idx (i + 1) base; emit_line r v0 v1) r;
  v_last ← idx_at idx (count - 1) base;
  v_first ← idx_at idx 0 base;
  emit_line r v_last v_first.

Definition rewrite_indices (r : PrimRewrite) (mode : PrimAssemblyState) (n : Z) : outcome PrimRewrite :=
  match primitive_mode mode with
  | PRIM_TYPE_LINES => rewrite_lines r n (last_provoking mode)
  | PRIM_TYPE_LINE_STRIP => rewrite_line_strip r n (last_provoking mode)
  | PRIM_TYPE_LINE_LOOP => rewrite_line_loop r n (last_provoking mode)
  | PRIM_TYPE_TRIANGLES => rewrite_triangles r n (last_provoking mode)
  | PRIM_TYPE_TRIANGLE_STRIP => rewrite_triangle_strip r n (last_provoking mode)
  | PRIM_TYPE_TRIANGLE_FAN => rewrite_triangle_fan r n (last_provoking mode)
  | PRIM_TYPE_QUADS =>
      if is_line (polygon_mode mode) then rewrite_quads_line r n else rewrite_quads r n (flat_shading mode)
  | PRIM_TYPE_QUAD_STRIP =>
      if is_line (polygon_mode mode) then rewrite_quad_strip_line r n
      else rewrite_quad_strip r n (flat_shading mode)
  | PRIM_TYPE_POLYGON =>
      if is_line (polygon_mode mode) then rewrite_polygon_line r n else rewrite_polygon r n
  | _ => AssertFail
  end.

End Rewrite.

(** ** The entry points

    [fresh n] is what [g_realloc] leaves in the [n] elements it adds. *)
Section Entry.
Variable fresh : nat -> list Z.

Definition ensure_capacity (buf : PrimRewriteBuf) (needed : Z) : PrimRewriteBuf :=
  if needed <=? buf_capacity buf then buf else
  let capacity := Z.max needed (u32 (buf_capacity buf * 2)) in
  mkBuf (buf_data buf ++ fresh (Z.to_nat (capacity - buf_capacity buf))) capacity.

(** [polygon_mode != POINT || primitive_mode != POLYGON]. *)
Definition mode_supported (mode : PrimAssemblyState) : bool :=
  negb (bool_decide (polygon_mode mode = POLY_MODE_POINT))
  || negb (bool_decide (primitive_mode mode = PRIM_TYPE_POLYGON)).

(** Both return the buffer and the result; no result is [None]. *)
Definition pgraph_prim_rewrite_indexed (buf : PrimRewriteBuf) (mode : PrimAssemblyState) (input : list Z) (n : Z) :
  outcome (PrimRewriteBuf * option PrimRewrite) :=
  c_assert (mode_supported mode) ;;
  if negb (needs_rewrite mode) then Ok (buf, None) else
  let max_output := max_output_indices (primitive_mode mode) (polygon_mode mode) n in
  if max_output =? 0 then Ok (buf, None) else
  let buf := ensure_capacity buf max_output in
  r ← rewrite_indices (Some input) 0 (mkRewrite (buf_data buf) 0) mode n;
  Ok (mkBuf (indices r) (buf_capacity buf), Some r).

Fixpoint total_max_output (mode : PrimAssemblyState) (counts : list Z) (acc : Z) : Z :=
  match counts with
  | [] => acc
  | c :: counts =>
      total_max_output mode counts
        (u32 (acc + max_output_indices (primitive_mode mode) (polygon_mode mode) (u32 c)))
  end.

Fixpoint rewrite_ranges (mode : PrimAssemblyState) (ranges : list (Z * Z)) (r : PrimRewrite) : outcome PrimRewrite :=
  match ranges with
  | [] => Ok r
  | (start, count) :: ranges =>
      if count =? 0 then rewrite_ranges mode ranges r else
      r ← rewrite_indices None (u32 start) r mode (u32 count);
      rewrite_ranges mode ranges r
  end.

(** [ranges] pairs [starts] with [counts]. *)
Definition pgraph_prim_rewrite_ranges (buf : PrimRewriteBuf) (mode : PrimAssemblyState) (ranges : list (Z * Z)) :
  outcome (PrimRewriteBuf * option PrimRewrite) :=
  c_assert (mode_supported mode) ;;
  if negb (needs_rewrite mode) then Ok (buf, None) else
  let total := total_max_output mode (map snd ranges) 0 in
  if total =? 0 then Ok (buf, None) else
  let buf := ensure_capacity buf total in
  r ← rewrite_ranges mode ranges (mkRewrite (buf_data buf) 0);
  Ok (mkBuf (indices r) (buf_capacity buf), Some r).

Definition pgraph_prim_rewrite_sequential (buf : PrimRewriteBuf) (mode : PrimAssemblyState) (start count : Z) :
  outcome (PrimRewriteBuf * option PrimRewrite) :=
  pgraph_prim_rewrite_ranges buf mode [(start, count)].

End Entry.

(** ** Reference decomposition, by recursion on the vertices *)

Definition pv_line (lastp : bool) (a b : Z) : list Z := if lastp then [b; a] else [a; b].

(** The rotation of [a, b, c] that starts at [p]. *)
Definition pv_tri (a b c p : Z) : list Z :=
  if p =? a then [a; b; c] else if p =? b then [b; c; a] else [c; a; b].

Fixpoint lines (lastp : bool) (l : list Z) : list Z :=
  match l with
  | a :: b :: l => pv_line lastp a b ++ lines lastp l
  | _ => []
  end.

Fixpoint line_strip (lastp : bool) (l : list Z) : list Z :=
  match l with
  | a :: ((b :: _) as l) => pv_line lastp a b ++ line_strip lastp l
  | _ => []
  end.

Definition line_loop (lastp : bool) (l : list Z) : list Z :=
  match l with
  | a :: _ :: _ => line_strip lastp l ++ pv_line lastp (List.last l 0) a
  | _ => []
  end.

Fixpoint triangles (lastp : bool) (l : list Z) : list Z :=
  match l with
  | a :: b :: c :: l => pv_tri a b c (if lastp then c else a) ++ triangles lastp l
  | _ => []
  end.

(** Every other triangle of a strip is turned around. *)
Fixpoint triangle_strip (lastp odd : bool) (l : list Z) : list Z :=
  match l with
  | a :: ((b :: c :: _) as l) =>
      (let pv := if lastp then c else a in if odd then pv_tri b a c pv else pv_tri a b c pv)
      ++ triangle_strip lastp (negb odd) l
  | _ => []
  end.

Fixpoint fan (tri : Z -> Z -> list Z) (l : list Z) : list Z :=
  match l with
  | b :: ((c :: _) as l) => tri b c ++ fan tri l
  | _ => []
  end.

Definition triangle_fan (lastp : bool) (l : list Z) : list Z :=
  match l with
  | hub :: l => fan (fun b c => pv_tri hub b c (if lastp then c else b)) l
  | [] => []
  end.

Definition polygon (l : list Z) : list Z :=
  match l with
  | hub :: l => fan (fun b c => [hub; b; c]) l
  | [] => []
  end.

Fixpoint quads (one : Z -> Z -> Z -> Z -> list Z) (l : list Z) : list Z :=
  match l with
  | a :: b :: c :: d :: l => one a b c d ++ quads one l
  | _ => []
  end.

Fixpoint quad_strip (one : Z -> Z -> Z -> Z -> list Z) (l : list Z) : list Z :=
  match l with
  | a :: b :: ((c :: d :: _) as l) => one a b c d ++ quad_strip one l
  | _ => []
  end.

Definition quad_tris (flat : bool) (a b c d : Z) : list Z :=
  if flat then [d; a; b; d; b; c] else [a; b; c; a; c; d].
Definition strip_quad_tris (flat : bool) (a b c d : Z) : list Z :=
  if flat then [d; c; a; d; a; b] else [a; b; c; c; b; d].
Definition quad_outline (a b c d : Z) : list Z := [a; b; b; c; c; d; d; a].
Definition strip_quad_outline (a b c d : Z) : list Z := [a; b; b; d; d; c; c; a].

Definition decompose (mode : PrimAssemblyState) (l : list Z) : list Z :=
  match primitive_mode mode with
  | PRIM_TYPE_LINES => lines (last_provoking mode) l
  | PRIM_TYPE_LINE_STRIP => line_strip (last_provoking mode) l
  | PRIM_TYPE_LINE_LOOP => line_loop (last_provoking mode) l
  | PRIM_TYPE_TRIANGLES => triangles (last_provoking mode) l
  | PRIM_TYPE_TRIANGLE_STRIP => triangle_strip (last_provoking mode) false l
  | PRIM_TYPE_TRIANGLE_FAN => triangle_fan (last_provoking mode) l
  | PRIM_TYPE_QUADS =>
      quads (if is_line (polygon_mode mode) then quad_outline else quad_tris (flat_shading mode)) l
  | PRIM_TYPE_QUAD_STRIP =>
      quad_strip (if is_line (polygon_mode mode) then strip_quad_outline else strip_quad_tris (flat_shading mode)) l
  | PRIM_TYPE_POLYGON => if is_line (polygon_mode mode) then line_loop false l else polygon l
  | _ => []
  end.

(** ** Emission *)

(** [m] appends [l] to the indices emitted so far, if there is room. *)
Definition emits (m : PrimRewrite -> outcome PrimRewrite) (l : list Z) : Prop := forall pre rest,
  zlen pre + zlen l < 2 ^ 32 -> zlen l <= zlen rest ->
  m (mkRewrite (pre ++ rest) (zlen pre)) =
    Ok (mkRewrite ((pre ++ l) ++ drop (length l) rest) (zlen (pre ++ l))).

Lemma emits_nil : emits Ok [].
Proof. intros pre rest _ _. by rewrite app_nil_r. Qed.

Lemma emits_seq m1 m2 l1 l2 : emits m1 l1 -> emits m2 l2 -> emits (fun r => r ← m1 r; m2 r) (l1 ++ l2).
Proof.
  intros H1 H2 pre rest Hp Hr. rewrite length_app in Hp, Hr.
  rewrite H1 by lia. cbn [mbind outcome_bind]. rewrite H2.
  - by rewrite drop_drop, (length_app l1 l2), (app_assoc pre l1 l2).
  - rewrite length_app. lia.
  - rewrite length_drop. lia.
Qed.

Lemma emits_vertex v : emits (fun r => emit_vertex r v) [v].
Proof.
  intros pre rest Hp Hr. destruct rest as [|x rest]; [cbn in Hr; lia|]. unfold emit_vertex, wr. cbn [indices num_indices].
  rewrite !length_app. cbn [length] in *. rewrite (proj2 (Z.leb_le _ _)), (proj2 (Z.ltb_lt _ _)) by lia.
  cbn [andb mbind outcome_bind]. rewrite Nat2Z.id, insert_app_r_alt, Nat.sub_diag by lia.
  cbn [list_insert insert drop]. rewrite <- app_assoc, Z.mod_small by lia. do 2 f_equal. lia.
Qed.

Create HintDb emits discriminated.
#[export] Hint Resolve emits_nil emits_vertex : emits.

Lemma emits_line a b : emits (fun r => emit_line r a b) [a; b].
Proof. apply (emits_seq _ _ [a] [b]); auto with emits. Qed.

Lemma emits_tri a b c : emits (fun r => emit_tri r a b c) [a; b; c].
Proof.
  apply (emits_seq _ _ [a] [b; c]); [auto with emits|]. apply (emits_seq _ _ [b] [c]); auto with emits.
Qed.

#[export] Hint Resolve emits_line emits_tri : emits.

Lemma emits_line_pv (lastp : bool) a b :
  emits (fun r => emit_line_pv r a b (if lastp then b else a)) (pv_line lastp a b).
Proof.
  unfold emit_line_pv, pv_line. destruct lastp.
  - destruct (Z.eqb_spec b a) as [->|]; auto with emits.
  - rewrite Z.eqb_refl. auto with emits.
Qed.

Lemma emits_tri_pv a b c p : emits (fun r => emit_tri_pv r a b c p) (pv_tri a b c p).
Proof. unfold emit_tri_pv, pv_tri. destruct (p =? a); [|destruct (p =? b)]; auto with emits. Qed.

#[export] Hint Resolve emits_line_pv emits_tri_pv : emits.

(** A loop emits what a function [F] on the remaining vertices says, if its body
    emits what [F] puts in front. *)
Lemma emits_for (F g : Z -> list Z -> list Z) look step vs body :
  zlen vs < 2 ^ 31 -> 0 <= look <= 3 -> 1 <= step <= 4 ->
  (forall i l, F i l = if look <? zlen l then g i l ++ F (i + step) (drop (Z.to_nat step) l) else []) ->
  (forall i, 0 <= i -> i + look < zlen vs -> emits (fun r => body r i) (g i (drop (Z.to_nat i) vs))) ->
  forall fuel i, 0 <= i <= 2 ^ 31 + 4 -> zlen vs - i <= Z.of_nat fuel ->
  emits (for_loop fuel i look step (zlen vs) body) (F i (drop (Z.to_nat i) vs)).
Proof.
  intros Hvs Hl Hs HF Hb. induction fuel as [|fuel IH]; intros i Hi Hf.
  all: rewrite HF, length_drop.
  - rewrite (proj2 (Z.ltb_ge _ _)) by lia. intros pre rest Hp Hr. cbn [for_loop].
    rewrite Z.mod_small, (proj2 (Z.ltb_ge (i + look) _)) by lia. by apply emits_nil.
  - cbn [for_loop]. destruct (Z.lt_ge_cases (i + look) (zlen vs)) as [Hlt | Hge].
    + rewrite (proj2 (Z.ltb_lt look _)) by lia. rewrite drop_drop, <- Z2Nat.inj_add by lia.
      intros pre rest Hp Hr. rewrite (Z.mod_small (i + look)), (proj2 (Z.ltb_lt (i + look) _)) by lia.
      cbn [negb]. rewrite (Z.mod_small (i + step)) by lia.
      revert pre rest Hp Hr. apply (emits_seq (fun r => body r i)); [apply Hb; lia | apply IH; lia].
    + rewrite (proj2 (Z.ltb_ge look _)) by lia. intros pre rest Hp Hr.
      rewrite (Z.mod_small (i + look)), (proj2 (Z.ltb_ge (i + look) _)) by lia. by apply emits_nil.
Qed.

Lemma emits_loop (F g : Z -> list Z -> list Z) look step vs body :
  zlen vs < 2 ^ 31 -> 0 <= look <= 3 -> 1 <= step <= 4 ->
  (forall i l, F i l = if look <? zlen l then g i l ++ F (i + step) (drop (Z.to_nat step) l) else []) ->
  (forall i, 0 <= i -> i + look < zlen vs -> emits (fun r => body r i) (g i (drop (Z.to_nat i) vs))) ->
  emits (fun r => for_loop (rounds (zlen vs)) 0 look step (zlen vs) body r) (F 0 vs).
Proof.
  intros Hvs Hl Hs HF Hb. apply (emits_for F g look step vs body Hvs Hl Hs HF Hb _ 0); unfold rounds; lia.
Qed.

Lemma drop_nthZ i l : 0 <= i < zlen l -> drop (Z.to_nat i) l = nthZ l i :: drop (Z.to_nat (i + 1)) l.
Proof.
  intros Hi. rewrite (drop_S l (nthZ l i) (Z.to_nat i)) by (apply lookup_nthZ; lia).
  do 2 f_equal. lia.
Qed.

(** ** The primitives emit their decomposition *)

Section Emission.
Context (idx : option (list Z)) (base : Z) (vs : list Z).
Hypothesis vs_short : zlen vs < 2 ^ 31.
Hypothesis idx_vs : forall i, 0 <= i < zlen vs -> idx_at idx i base = Ok (nthZ vs i).

(** Unfold one round of a decomposition. *)
Ltac unfold_round :=
  intros ? l; do 4 (destruct l as [|? l]; try reflexivity); cbn [length];
  rewrite (proj2 (Z.ltb_lt _ _)) by lia; reflexivity.

(** The body of a loop: fetch the vertices, then emit. *)
Ltac body :=
  intros i Hi Hlt; repeat (rewrite idx_vs by lia; cbn [mbind outcome_bind]);
  rewrite !drop_nthZ by lia; rewrite <- ?Z.add_assoc; cbn [Z.add Pos.add]; auto with emits.

Ltac by_rounds F g :=
  apply (emits_loop F g); [exact vs_short | lia | lia | |].

Lemma emits_lines lastp : emits (fun r => rewrite_lines idx base r (zlen vs) lastp) (lines lastp vs).
Proof.
  unfold rewrite_lines. by_rounds (fun _ : Z => lines lastp)
    (fun (_ : Z) l => match l with a :: b :: _ => pv_line lastp a b | _ => [] end).
  - unfold_round.
  - body.
Qed.

Lemma emits_strip lastp (m : PrimRewrite -> Z -> Z -> outcome PrimRewrite) :
  (forall a b, emits (fun r => m r a b) (pv_line lastp a b)) ->
  emits (fun r => for_loop (rounds (zlen vs)) 0 1 1 (zlen vs) (fun r i =>
    v0 ← idx_at idx i base; v1 ← idx_at idx (i + 1) base; m r v0 v1) r) (line_strip lastp vs).
Proof.
  intros Hm. by_rounds (fun _ : Z => line_strip lastp)
    (fun (_ : Z) l => match l with a :: b :: _ => pv_line lastp a b | _ => [] end).
  - unfold_round.
  - body.
Qed.

Lemma emits_line_strip lastp :
  emits (fun r => rewrite_line_strip idx base r (zlen vs) lastp) (line_strip lastp vs).
Proof.
  apply (emits_strip lastp (fun r a b => emit_line_pv r a b (if lastp then b else a))). auto with emits.
Qed.

Lemma last_nthZ l : 0 < zlen l -> List.last l 0 = nthZ l (zlen l - 1).
Proof.
  induction l as [|a l IH]; intros H; [done|]. destruct l as [|b l]; [done|].
  change (List.last (a :: b :: l) 0) with (List.last (b :: l) 0). rewrite IH by (cbn [length]; lia).
  rewrite (nthZ_cons a). cbn [length]. rewrite (proj2 (Z.eqb_neq _ _)) by lia. f_equal. lia.
Qed.

(** Lines closed into a loop: none for fewer than two vertices. *)
Lemma emits_closed lastp (m : PrimRewrite -> Z -> Z -> outcome PrimRewrite) :
  (forall a b, emits (fun r => m r a b) (pv_line lastp a b)) ->
  emits (fun r => if zlen vs <? 2 then Ok r else
    r ← for_loop (rounds (zlen vs)) 0 1 1 (zlen vs) (fun r i =>
      v0 ← idx_at idx i base; v1 ← idx_at idx (i + 1) base; m r v0 v1) r;
    v_last ← idx_at idx (zlen vs - 1) base; v_first ← idx_at idx 0 base; m r v_last v_first)
    (line_loop lastp vs).
Proof.
  intros Hm. destruct (Z.ltb_spec (zlen vs) 2) as [H2 | H2].
  - replace (line_loop lastp vs) with (@nil Z); [auto with emits|].
    destruct vs as [|a [|b l]]; cbn [length] in H2; done || lia.
  - replace (line_loop lastp vs) with
      (line_strip lastp vs ++ pv_line lastp (nthZ vs (zlen vs - 1)) (nthZ vs 0)).
    + rewrite (idx_vs (zlen vs - 1)), (idx_vs 0) by lia. cbn [mbind outcome_bind].
      refine (emits_seq _ _ _ _ (emits_strip lastp m Hm) _). auto with emits.
    + rewrite <- last_nthZ by lia. destruct vs as [|a [|b l]]; cbn [length] in H2; try lia. by rewrite (nthZ_cons a).
Qed.

Lemma emits_line_loop lastp :
  emits (fun r => rewrite_line_loop idx base r (zlen vs) lastp) (line_loop lastp vs).
Proof.
  apply (emits_closed lastp (fun r a b => emit_line_pv r a b (if lastp then b else a))). auto with emits.
Qed.

Lemma emits_polygon_line : emits (fun r => rewrite_polygon_line idx base r (zlen vs)) (line_loop false vs).
Proof. apply (emits_closed false emit_line). intros a b. apply emits_line. Qed.

Lemma emits_triangles lastp :
  emits (fun r => rewrite_triangles idx base r (zlen vs) lastp) (triangles lastp vs).
Proof.
  unfold rewrite_triangles. by_rounds (fun _ : Z => triangles lastp)
    (fun (_ : Z) l => match l with a :: b :: c :: _ => pv_tri a b c (if lastp then c else a) | _ => [] end).
  - unfold_round.
  - body.
Qed.

Lemma emits_triangle_strip lastp :
  emits (fun r => rewrite_triangle_strip idx base r (zlen vs) lastp) (triangle_strip lastp false vs).
Proof.
  unfold rewrite_triangle_strip. by_rounds (fun i => triangle_strip lastp (Z.odd i))
    (fun i l => match l with
                | a :: b :: c :: _ =>
                    let pv := if lastp then c else a in if Z.odd i then pv_tri b a c pv else pv_tri a b c pv
                | _ => []
                end).
  - intros i. rewrite Z.odd_add, xorb_true_r. revert i. unfold_round.
  - intros i Hi Hlt. replace (flag i 1) with (Z.odd i).
    + revert i Hi Hlt. body. destruct (Z.odd i); auto with emits.
    + unfold flag. change 1 with (Z.ones 1). rewrite Z.land_ones, Zmod_odd by lia. by destruct (Z.odd i).
Qed.

Lemma emits_fan (tri : Z -> Z -> list Z) (m : PrimRewrite -> Z -> Z -> outcome PrimRewrite) :
  (forall b c, emits (fun r => m r b c) (tri b c)) ->
  emits (fun r => for_loop (rounds (zlen vs)) 0 2 1 (zlen vs) (fun r i =>
    v1 ← idx_at idx (i + 1) base; v2 ← idx_at idx (i + 2) base; m r v1 v2) r) (fan tri (tl vs)).
Proof.
  intros Hm. by_rounds (fun (_ : Z) l => fan tri (tl l))
    (fun (_ : Z) l => match l with _ :: b :: c :: _ => tri b c | _ => [] end).
  - unfold_round.
  - body.
Qed.

(** Fans have none for fewer than three vertices. *)
Lemma emits_hub (tri : Z -> Z -> Z -> list Z) (m : Z -> PrimRewrite -> Z -> Z -> outcome PrimRewrite) :
  (forall hub b c, emits (fun r => m hub r b c) (tri hub b c)) ->
  emits (fun r => if zlen vs <? 3 then Ok r else
    hub ← idx_at idx 0 base;
    for_loop (rounds (zlen vs)) 0 2 1 (zlen vs) (fun r i =>
      v1 ← idx_at idx (i + 1) base; v2 ← idx_at idx (i + 2) base; m hub r v1 v2) r)
    (match vs with hub :: l => fan (tri hub) l | [] => [] end).
Proof.
  intros Hm. destruct (Z.ltb_spec (zlen vs) 3) as [H3 | H3].
  - replace (match vs with _ :: _ => _ | _ => _ end) with (@nil Z); [auto with emits|].
    destruct vs as [|a [|b [|c l]]]; cbn [length] in H3; done || lia.
  - rewrite (idx_vs 0) by lia. cbn [mbind outcome_bind].
    replace (match vs with hub :: l => fan (tri hub) l | [] => [] end) with (fan (tri (nthZ vs 0)) (tl vs)).
    + apply emits_fan. apply Hm.
    + destruct vs as [|a l]; [done|]. by rewrite (nthZ_cons a).
Qed.

Lemma emits_triangle_fan lastp :
  emits (fun r => rewrite_triangle_fan idx base r (zlen vs) lastp) (triangle_fan lastp vs).
Proof.
  apply (emits_hub (fun hub b c => pv_tri hub b c (if lastp then c else b))
    (fun hub r b c => emit_tri_pv r hub b c (if lastp then c else b))). auto with emits.
Qed.

Lemma emits_polygon : emits (fun r => rewrite_polygon idx base r (zlen vs)) (polygon vs).
Proof.
  apply (emits_hub (fun hub b c => [hub; b; c]) (fun hub r b c => emit_tri r hub b c)). auto with emits.
Qed.

(** What one quad emits, as triangles or as its outline. *)
Lemma emits_two_tris a b c a' b' c' :
  emits (fun r => r ← emit_tri r a b c; emit_tri r a' b' c') [a; b; c; a'; b'; c'].
Proof. apply (emits_seq _ _ [a; b; c] [a'; b'; c']); auto with emits. Qed.

Lemma emits_four_lines a b c d a' b' c' d' :
  emits (fun r => r ← emit_line r a b; r ← emit_line r c d; r ← emit_line r a' b'; emit_line r c' d')
    [a; b; c; d; a'; b'; c'; d'].
Proof.
  apply (emits_seq _ _ [a; b] [c; d; a'; b'; c'; d']); [auto with emits|].
  apply (emits_seq _ _ [c; d] [a'; b'; c'; d']); [auto with emits|].
  apply (emits_seq _ _ [a'; b'] [c'; d']); auto with emits.
Qed.

Hint Resolve emits_two_tris emits_four_lines : emits.

Lemma emits_quads one (m : PrimRewrite -> Z -> Z -> Z -> Z -> outcome PrimRewrite) :
  (forall a b c d, emits (fun r => m r a b c d) (one a b c d)) ->
  emits (fun r => for_loop (rounds (zlen vs)) 0 3 4 (zlen vs) (fun r i =>
    v0 ← idx_at idx i base; v1 ← idx_at idx (i + 1) base;
    v2 ← idx_at idx (i + 2) base; v3 ← idx_at idx (i + 3) base; m r v0 v1 v2 v3) r) (quads one vs).
Proof.
  intros Hm. by_rounds (fun _ : Z => quads one)
    (fun (_ : Z) l => match l with a :: b :: c :: d :: _ => one a b c d | _ => [] end).
  - unfold_round.
  - body.
Qed.

Lemma emits_quad_strip one (m : PrimRewrite -> Z -> Z -> Z -> Z -> outcome PrimRewrite) :
  (forall a b c d, emits (fun r => m r a b c d) (one a b c d)) ->
  emits (fun r => if zlen vs <? 4 then Ok r else
    for_loop (rounds (zlen vs)) 0 3 2 (zlen vs) (fun r i =>
      v0 ← idx_at idx i base; v1 ← idx_at idx (i + 1) base;
      v2 ← idx_at idx (i + 2) base; v3 ← idx_at idx (i + 3) base; m r v0 v1 v2 v3) r) (quad_strip one vs).
Proof.
  intros Hm. destruct (Z.ltb_spec (zlen vs) 4) as [H4 | H4].
  - replace (quad_strip one vs) with (@nil Z); [auto with emits|].
    destruct vs as [|a [|b [|c [|d l]]]]; cbn [length] in H4; done || lia.
  - by_rounds (fun _ : Z => quad_strip one)
      (fun (_ : Z) l => match l with a :: b :: c :: d :: _ => one a b c d | _ => [] end).
    + unfold_round.
    + body.
Qed.

Lemma emits_rewrite_indices mode :
  needs_rewrite mode = true -> primitive_mode mode <> PRIM_TYPE_INVALID ->
  emits (fun r => rewrite_indices idx base r mode (zlen vs)) (decompose mode vs).
Proof.
  intros Hn Hi. destruct mode as [m p lastp flat]. unfold rewrite_indices, decompose. cbn in *.
  destruct m; try done.
  - apply emits_lines.
  - apply emits_line_loop.
  - apply emits_line_strip.
  - apply emits_triangles.
  - apply emits_triangle_strip.
  - apply emits_triangle_fan.
  - destruct (is_line p).
    + apply (emits_quads quad_outline). intros. apply emits_four_lines.
    + apply (emits_quads (quad_tris flat)). intros. destruct flat; apply emits_two_tris.
  - destruct (is_line p).
    + apply (emits_quad_strip strip_quad_outline). intros. apply emits_four_lines.
    + apply (emits_quad_strip (strip_quad_tris flat)). intros. destruct flat; apply emits_two_tris.
  - destruct (is_line p); [apply emits_polygon_line | apply emits_polygon].
Qed.

End Emission.

(** ** Room for the indices *)

Lemma pv_tri_length a b c p : zlen (pv_tri a b c p) = 3.
Proof. unfold pv_tri. by destruct (p =? a), (p =? b). Qed.

Lemma pv_line_length lastp a b : zlen (pv_line lastp a b) = 2.
Proof. by destruct lastp. Qed.

(** Induction on vertices taken several at a time. *)
Ltac by_length l := induction l as [l IH] using (Wf_nat.induction_ltof1 _ (@length Z)); unfold Wf_nat.ltof in IH.

Lemma lines_length lastp l : zlen (lines lastp l) <= zlen l.
Proof.
  by_length l. destruct l as [|a [|b l]]; [cbn; lia.. |]. cbn [lines]. rewrite length_app.
  pose proof (pv_line_length lastp a b). specialize (IH l ltac:(cbn; lia)). cbn [length]. lia.
Qed.

Lemma line_strip_length lastp l : zlen (line_strip lastp l) = 2 * Z.max 0 (zlen l - 1).
Proof.
  induction l as [|a [|b l] IH]; [done.. |].
  change (line_strip lastp (a :: b :: l)) with (pv_line lastp a b ++ line_strip lastp (b :: l)).
  rewrite length_app. pose proof (pv_line_length lastp a b). cbn [length] in *. lia.
Qed.

Lemma triangles_length lastp l : zlen (triangles lastp l) <= zlen l.
Proof.
  by_length l. destruct l as [|a [|b [|c l]]]; [cbn; lia.. |]. cbn [triangles]. rewrite length_app.
  pose proof (pv_tri_length a b c (if lastp then c else a)). specialize (IH l ltac:(cbn; lia)). cbn [length]. lia.
Qed.

Lemma triangle_strip_length lastp odd l : zlen (triangle_strip lastp odd l) = 3 * Z.max 0 (zlen l - 2).
Proof.
  revert odd. induction l as [|a [|b [|c l]] IH]; intros odd; [done.. |]. specialize (IH (negb odd)).
  change (triangle_strip lastp odd (a :: b :: c :: l)) with
    ((if odd then pv_tri b a c (if lastp then c else a) else pv_tri a b c (if lastp then c else a))
     ++ triangle_strip lastp (negb odd) (b :: c :: l)).
  rewrite length_app.
  assert (zlen (if odd then pv_tri b a c (if lastp then c else a) else pv_tri a b c (if lastp then c else a)) = 3)
    by (destruct odd; apply pv_tri_length).
  cbn [length] in *. lia.
Qed.

Lemma fan_length tri l : (forall b c, zlen (tri b c) = 3) -> zlen (fan tri l) = 3 * Z.max 0 (zlen l - 1).
Proof.
  intros Ht. induction l as [|b [|c l] IH]; [done.. |].
  change (fan tri (b :: c :: l)) with (tri b c ++ fan tri (c :: l)). rewrite length_app.
  pose proof (Ht b c). cbn [length] in *. lia.
Qed.

Lemma quads_length k one l : (forall a b c d, zlen (one a b c d) = k) -> zlen (quads one l) = zlen l / 4 * k.
Proof.
  intros Ho. by_length l. destruct l as [|a [|b [|c [|d l]]]]; [done.. |]. cbn [quads]. rewrite length_app.
  pose proof (Ho a b c d). specialize (IH l ltac:(cbn; lia)). cbn [length].
  replace (Z.of_nat (S (S (S (S (length l)))))) with (zlen l + 1 * 4) by lia. rewrite Z.div_add by lia. lia.
Qed.

Lemma quad_strip_length k one l : (forall a b c d, zlen (one a b c d) = k) ->
  zlen (quad_strip one l) = Z.max 0 ((zlen l - 2) / 2) * k.
Proof.
  intros Ho. by_length l. destruct l as [|a [|b [|c [|d l]]]]; [done.. |].
  change (quad_strip one (a :: b :: c :: d :: l)) with (one a b c d ++ quad_strip one (c :: d :: l)).
  rewrite length_app. pose proof (Ho a b c d). specialize (IH (c :: d :: l) ltac:(cbn; lia)). cbn [length] in *.
  replace (Z.of_nat (S (S (S (S (length l))))) - 2) with (Z.of_nat (S (S (length l))) - 2 + 1 * 2) by lia.
  rewrite Z.div_add by lia. assert (0 <= (Z.of_nat (S (S (length l))) - 2) / 2) by (apply Z.div_pos; lia). lia.
Qed.

Lemma line_loop_length lastp l :
  zlen (line_loop lastp l) = if 2 <=? zlen l then zlen l * 2 else 0.
Proof.
  destruct l as [|a [|b l]]; [done.. |]. unfold line_loop. rewrite length_app.
  pose proof (pv_line_length lastp (List.last (a :: b :: l) 0) a).
  pose proof (line_strip_length lastp (a :: b :: l)).
  rewrite (proj2 (Z.leb_le _ _)) by (cbn [length]; lia). cbn [length] in *. lia.
Qed.

(** The size asked for is enough. *)
Lemma decompose_length mode l : zlen l < 2 ^ 30 ->
  zlen (decompose mode l) <= max_output_indices (primitive_mode mode) (polygon_mode mode) (zlen l) < 2 ^ 32.
Proof.
  intros Hl. destruct mode as [m p lastp flat]. unfold decompose, max_output_indices. cbn.
  assert (Hq : 0 <= zlen l / 4 <= zlen l) by (split; [apply Z.div_pos | apply Z.div_le_upper_bound]; lia).
  assert (Hs : 4 <= zlen l -> 0 <= (zlen l - 2) / 2 <= zlen l)
    by (split; [apply Z.div_pos | apply Z.div_le_upper_bound]; lia).
  assert (Hs' : zlen l < 4 -> (zlen l - 2) / 2 <= 0)
    by (intros; assert ((zlen l - 2) / 2 < 1) by (apply Z.div_lt_upper_bound; lia); lia).
  destruct m; try (cbn; lia).
  - pose proof (lines_length lastp l). lia.
  - rewrite line_loop_length. destruct (Z.leb_spec 2 (zlen l)); [rewrite Z.mod_small|]; lia.
  - rewrite line_strip_length. destruct (Z.leb_spec 2 (zlen l)); [rewrite Z.mod_small|]; lia.
  - pose proof (triangles_length lastp l). lia.
  - rewrite triangle_strip_length. destruct (Z.leb_spec 3 (zlen l)); [rewrite Z.mod_small|]; lia.
  - destruct l as [|hub l]; [by split|]. unfold triangle_fan.
    rewrite fan_length by (intros; apply pv_tri_length). cbn [length] in *.
    destruct (Z.leb_spec 3 (Z.of_nat (S (length l)))); [rewrite Z.mod_small|]; lia.
  - destruct (is_line p); [rewrite (quads_length 8) | rewrite (quads_length 6)]; try (by destruct flat);
      rewrite Z.mod_small; Z.div_mod_to_equations; lia.
  - destruct (is_line p); [rewrite (quad_strip_length 8) | rewrite (quad_strip_length 6)]; try (by destruct flat);
      destruct (Z.leb_spec 4 (zlen l)); rewrite ?Z.mod_small; Z.div_mod_to_equations; lia.
  - destruct (is_line p); [rewrite line_loop_length; destruct (Z.leb_spec 2 (zlen l)); [rewrite Z.mod_small|]; lia|].
    destruct l as [|hub l]; [by split|]. unfold polygon. rewrite fan_length by done. cbn [length] in *.
    destruct (Z.leb_spec 3 (Z.of_nat (S (length l)))); [rewrite Z.mod_small|]; lia.
Qed.

Lemma max_output_le m p n : 0 <= n < 2 ^ 30 -> 0 <= max_output_indices m p n <= 4 * n.
Proof.
  intros Hn. assert (H4 : 0 <= 4 * (n / 4) <= n) by (Z.div_mod_to_equations; lia).
  assert (H2 : 2 * ((n - 2) / 2) <= n /\ (4 <= n -> 0 <= (n - 2) / 2)) by (Z.div_mod_to_equations; lia).
  unfold max_output_indices. destruct m, (is_line p); zcases; rewrite ?Z.mod_small by lia; lia.
Qed.

(** ** The entry points are safe and emit the decomposition *)

Section Correct.
Context (fresh : nat -> list Z) (fresh_length : forall n, length (fresh n) = n).

Definition buf_ok (buf : PrimRewriteBuf) : Prop :=
  buf_capacity buf = zlen (buf_data buf) /\ buf_capacity buf < 2 ^ 32.

Lemma ensure_capacity_ok buf n : buf_ok buf -> 0 <= n < 2 ^ 32 ->
  let buf' := ensure_capacity fresh buf n in
  buf_ok buf' /\ n <= buf_capacity buf' /\ buf_capacity buf <= buf_capacity buf'.
Proof.
  intros [Hc Hl] Hn. cbn zeta. unfold ensure_capacity. destruct (Z.leb_spec n (buf_capacity buf)); [done|].
  cbn. unfold buf_ok. cbn. rewrite length_app, fresh_length.
  pose proof (Z.mod_pos_bound (buf_capacity buf * 2) (2 ^ 32) ltac:(lia)). lia.
Qed.

(** What a caller gets: the decomposition at the front of the buffer. *)
Definition holds (res : option PrimRewrite) (buf : PrimRewriteBuf) (l : list Z) : Prop :=
  match res with
  | None => l = []
  | Some r => indices r = buf_data buf /\ num_indices r = zlen l /\ take (length l) (indices r) = l
  end.

(** Running something that emits [l] in a buffer with room for it. *)
Lemma emits_run m buf l : emits m l -> buf_ok buf -> zlen l <= buf_capacity buf ->
  exists r, m (mkRewrite (buf_data buf) 0) = Ok r /\ buf_ok (mkBuf (indices r) (buf_capacity buf)) /\
    holds (Some r) (mkBuf (indices r) (buf_capacity buf)) l.
Proof.
  intros Hm [Hc Hb] Hl. specialize (Hm [] (buf_data buf)). cbn [app] in Hm.
  change (zlen []) with 0 in Hm. rewrite Hm by lia. eexists. split; [done|]. cbn. unfold buf_ok. cbn.
  split; [rewrite length_app, length_drop; lia|]. by rewrite take_app_length.
Qed.

(** C5: for a supported primitive and fewer than 2^30 indices, rewriting an indexed
    draw never writes outside the buffer, never stops on
    fuel, leaves the buffer's capacity equal to its storage, and puts in front of
    it exactly the decomposition of the primitives defined by recursion on the
    input; without a result there is nothing to draw or the primitive needs no
    rewriting. *)
Theorem rewrite_indexed_correct buf mode input :
  buf_ok buf -> zlen input < 2 ^ 30 -> mode_supported mode = true ->
  exists buf' res, pgraph_prim_rewrite_indexed fresh buf mode input (zlen input) = Ok (buf', res) /\
    buf_ok buf' /\ buf_capacity buf <= buf_capacity buf' /\
    (if needs_rewrite mode then holds res buf' (decompose mode input) else res = None /\ buf' = buf).
Proof.
  intros Hbuf Hin Hsup. unfold pgraph_prim_rewrite_indexed. rewrite Hsup. cbn [c_assert mbind outcome_bind].
  destruct (needs_rewrite mode) eqn:Hneed; [| by exists buf, None]. cbn [negb].
  pose proof (decompose_length mode input Hin) as Hlen.
  pose proof (max_output_le (primitive_mode mode) (polygon_mode mode) (zlen input) ltac:(lia)) as Hmax.
  set (n := max_output_indices _ _ _) in *. destruct (Z.eqb_spec n 0) as [Hn0 | Hn0].
  - exists buf, None. split; [done|]. split; [done|]. split; [lia|].
    apply nil_length_inv. lia.
  - destruct (ensure_capacity_ok buf n Hbuf) as (Hok & Hroom & Hgrow); [lia|].
    destruct (emits_run (fun r => rewrite_indices (Some input) 0 r mode (zlen input))
      (ensure_capacity fresh buf n) (decompose mode input)) as (r & -> & Hok' & Hr); [| done | lia |].
    + apply emits_rewrite_indices; [lia | intros i Hi; by apply rd_nthZ | done |].
      intros E. subst n. by rewrite E in Hn0.
    + cbn [mbind outcome_bind]. eexists _, _. split; [done|]. split; [done|]. split; [exact Hgrow | exact Hr].
Qed.

(** The vertices of a range of consecutive ones. *)
Definition range_vertices (range : Z * Z) : list Z := map (fun i => u32 (u32 range.1 + i)) (seqZ 0 range.2).

Definition ranges_total (ranges : list (Z * Z)) : Z := foldr (fun r n => r.2 + n) 0 ranges.

Lemma ranges_total_nonneg ranges : Forall (fun r => 0 <= r.2) ranges -> 0 <= ranges_total ranges.
Proof. induction 1; [done|]. cbn [ranges_total foldr]. fold (ranges_total l). lia. Qed.

Lemma range_vertices_length r : 0 <= r.2 -> zlen (range_vertices r) = r.2.
Proof. intros Hr. unfold range_vertices. rewrite length_map, length_seqZ. lia. Qed.

Lemma idx_at_range s c i : 0 <= i < c -> idx_at None i (u32 s) = Ok (nthZ (range_vertices (s, c)) i).
Proof.
  intros Hi. change (range_vertices (s, c)) with ((fun i => u32 (u32 s + i)) <$> seqZ 0 c).
  rewrite nthZ_fmap by (rewrite length_seqZ; lia).
  rewrite nthZ_seqZ by lia. done.
Qed.

Lemma emits_ranges mode ranges :
  needs_rewrite mode = true -> primitive_mode mode <> PRIM_TYPE_INVALID ->
  Forall (fun r => 0 <= r.2 < 2 ^ 30) ranges ->
  emits (rewrite_ranges mode ranges) (flat_map (fun r => decompose mode (range_vertices r)) ranges).
Proof.
  intros Hn Hi. induction 1 as [|[s c] ranges Hr Hall IH]; [apply emits_nil|].
  cbn [rewrite_ranges flat_map]. cbn [snd] in Hr. destruct (Z.eqb_spec c 0) as [-> | Hc].
  - replace (decompose mode (range_vertices (s, 0))) with (@nil Z); [exact IH|].
    unfold decompose. change (range_vertices (s, 0)) with (@nil Z).
    by destruct (primitive_mode mode), (is_line (polygon_mode mode)).
  - rewrite (Z.mod_small c) by lia. refine (emits_seq _ _ _ _ _ IH).
    assert (Hlen : zlen (range_vertices (s, c)) = c) by (apply range_vertices_length; cbn; lia).
    pose proof (emits_rewrite_indices None (u32 s) (range_vertices (s, c))) as H. rewrite Hlen in H.
    apply H; [lia | intros i Hi'; by apply idx_at_range | done | done].
Qed.

Lemma total_max_output_sum mode ranges : Forall (fun r => 0 <= r.2) ranges -> forall acc,
  0 <= acc -> acc + 4 * ranges_total ranges < 2 ^ 32 -> ranges_total ranges < 2 ^ 30 ->
  let total := total_max_output mode (map snd ranges) acc in
  acc + zlen (flat_map (fun r => decompose mode (range_vertices r)) ranges) <= total < 2 ^ 32.
Proof.
  induction 1 as [|[s c] ranges Hr Hall IH]; intros acc Hacc Hsum Hlt; [cbn in *; lia|].
  cbn [map flat_map total_max_output ranges_total foldr snd] in *. fold (ranges_total ranges) in *.
  pose proof (ranges_total_nonneg ranges Hall) as Hpos.
  rewrite length_app, (Z.mod_small c) by lia.
  pose proof (max_output_le (primitive_mode mode) (polygon_mode mode) c ltac:(lia)) as Hm.
  pose proof (decompose_length mode (range_vertices (s, c))) as Hd.
  rewrite (range_vertices_length (s, c)) in Hd by done. cbn [snd] in Hd.
  rewrite Z.mod_small by lia.
  specialize (IH (acc + max_output_indices (primitive_mode mode) (polygon_mode mode) c)). lia.
Qed.

(** Rewriting a draw of several ranges of consecutive vertices reserves room
    for all of them at once and emits their decompositions one after the other,
    whatever the buffer held before. *)
Theorem rewrite_ranges_correct buf mode ranges :
  buf_ok buf -> Forall (fun r => 0 <= r.2) ranges -> ranges_total ranges < 2 ^ 30 ->
  mode_supported mode = true -> needs_rewrite mode = true ->
  exists buf' res, pgraph_prim_rewrite_ranges fresh buf mode ranges = Ok (buf', res) /\
    buf_ok buf' /\ buf_capacity buf <= buf_capacity buf' /\
    holds res buf' (flat_map (fun r => decompose mode (range_vertices r)) ranges).
Proof.
  intros Hbuf Hall Hsum Hsup Hneed. unfold pgraph_prim_rewrite_ranges. rewrite Hsup, Hneed.
  cbn [c_assert mbind outcome_bind negb].
  destruct (total_max_output_sum mode ranges Hall 0) as [Hlen Hmax]; [lia..|].
  set (n := total_max_output _ _ _) in *. destruct (Z.eqb_spec n 0) as [Hn0 | Hn0].
  - exists buf, None. split; [done|]. split; [done|]. split; [lia|]. apply nil_length_inv. lia.
  - destruct (ensure_capacity_ok buf n Hbuf) as (Hok & Hroom & Hgrow); [lia|].
    destruct (emits_run (rewrite_ranges mode ranges) (ensure_capacity fresh buf n)
      (flat_map (fun r => decompose mode (range_vertices r)) ranges)) as (r & -> & Hok' & Hr); [| done | lia |].
    + apply emits_ranges; [done | |].
      * intros E. apply Hn0. subst n. clear -E. generalize (map snd ranges) as cs. intros cs.
        cut (forall cs, total_max_output mode cs 0 = 0); [done|]. clear cs. induction cs as [|c cs IH]; [done|].
        cbn [total_max_output]. rewrite E. exact IH.
      * clear -Hall Hsum. induction Hall as [|[s c] l Hr Hl IH]; [done|].
        cbn [ranges_total foldr snd] in *. fold (ranges_total l) in *.
        pose proof (ranges_total_nonneg l Hl). constructor; [cbn; lia | apply IH; lia].
    + cbn [mbind outcome_bind]. eexists _, _. split; [done|]. split; [done|]. split; [exact Hgrow | exact Hr].
Qed.

End Correct.

(** Putting the provoking vertex first keeps the winding: the triangle
    emitted is a rotation of the given one and starts with the provoking vertex. *)
Theorem emit_tri_pv_rotates a b c p :
  p ∈ [a; b; c] ->
  exists k t, (k < 3)%nat /\ t = drop k [a; b; c] ++ take k [a; b; c] /\ head t = Some p /\
    emits (fun r => emit_tri_pv r a b c p) t.
Proof.
  intros Hp. pose proof (emits_tri_pv a b c p) as He. revert He. unfold pv_tri.
  destruct (Z.eqb_spec p a) as [->|Ha]; [by exists 0%nat, [a; b; c]; split_and!; [lia|..]|].
  destruct (Z.eqb_spec p b) as [->|Hb]; [by exists 1%nat, [b; c; a]; split_and!; [lia|..]|].
  assert (p = c) as -> by (rewrite !elem_of_cons, elem_of_nil in Hp; tauto). by exists 2%nat, [c; a; b]; split_and!; [lia|..].
Qed.

Lemma emit_tri_pv_rotates_witness :
  exists k t, (k < 3)%nat /\ t = drop k [4; 5; 6] ++ take k [4; 5; 6] /\ head t = Some 6 /\
    emits (fun r => emit_tri_pv r 4 5 6 6) t.
Proof. apply (emit_tri_pv_rotates 4 5 6 6). rewrite !elem_of_cons. tauto. Defined.

Lemma rewrite_indexed_correct_witness :
  exists buf' res, pgraph_prim_rewrite_indexed (fun n => replicate n 0) pgraph_prim_rewrite_init
      (mkAssembly PRIM_TYPE_QUAD_STRIP POLY_MODE_FILL false false) [7; 8; 9; 10; 11; 12] 6 = Ok (buf', res) /\
    holds res buf' [7; 8; 9; 9; 8; 10; 9; 10; 11; 11; 10; 12].
Proof.
  destruct (rewrite_indexed_correct (fun n => replicate n 0) (fun n => length_replicate n 0)
    pgraph_prim_rewrite_init (mkAssembly PRIM_TYPE_QUAD_STRIP POLY_MODE_FILL false false) [7; 8; 9; 10; 11; 12])
    as (b & res & H & _ & _ & Hh); [done.. |].
  exists b, res. split; [exact H | exact Hh].
Defined.

Lemma rewrite_ranges_correct_witness :
  exists buf' res, pgraph_prim_rewrite_ranges (fun n => replicate n 0) pgraph_prim_rewrite_init
      (mkAssembly PRIM_TYPE_TRIANGLE_FAN POLY_MODE_FILL false true) [(0, 4); (10, 3)] = Ok (buf', res) /\
    holds res buf' [1; 2; 0; 2; 3; 0; 11; 12; 10].
Proof.
  destruct (rewrite_ranges_correct (fun n => replicate n 0) (fun n => length_replicate n 0)
    pgraph_prim_rewrite_init (mkAssembly PRIM_TYPE_TRIANGLE_FAN POLY_MODE_FILL false true) [(0, 4); (10, 3)])
    as (b & res & H & _ & _ & Hh); [done | repeat constructor; cbn; lia | done.. |].
  exists b, res. split; [exact H | exact Hh].
Defined.
