(* ===== verification/VertexSubmit.v ===== *)
(** * Submission of vertices (hw/xbox/nv2a/pgraph/pgraph.c, pgraph/vertex.c, gl/draw.c)

    What the graphics engine collects between BEGIN and END: ranges of vertices, lists
    of indices, raw words, and vertices built from the current attribute values; the
    joining of adjacent ranges, the expansion of ranges into indices, the squashing of
    repeated BEGIN, DRAW_ARRAYS, END, and the choice of what the OpenGL renderer draws.
    A draw is logged with its primitive mode; what the host's graphics library makes
    of it is outside, and its indices are rewritten as in [PrimRewrite].

    The theorems say that the indices drawn are those submitted, that squashing does
    not change what is drawn, that attribute values recorded lazily are those that
    every vertex had, and which method can leave an array. *)

From stdpp Require Import base gmap numbers list.
From Stdlib Require Import ZArith Lia.
From S2P Require Import Prelude.

Abbreviation NV2A_MAX_BATCH_LENGTH := 0x07FFFF.
Abbreviation NV2A_VERTEXSHADER_ATTRIBUTES := 16.
Abbreviation NV2A_VERTEX_ATTR_POSITION := 0.
Abbreviation NV2A_VERTEX_ATTR_WEIGHT := 1.
Abbreviation NV2A_VERTEX_ATTR_NORMAL := 2.
Abbreviation NV2A_VERTEX_ATTR_DIFFUSE := 3.
Abbreviation NV2A_VERTEX_ATTR_SPECULAR := 4.
Abbreviation NV2A_VERTEX_ATTR_FOG := 5.
Abbreviation NV2A_VERTEX_ATTR_TEXTURE0 := 9.
Abbreviation NV2A_VERTEX_ATTR_TEXTURE1 := 10.
Abbreviation NV2A_VERTEX_ATTR_TEXTURE2 := 11.
Abbreviation NV2A_VERTEX_ATTR_TEXTURE3 := 12.
Abbreviation DRAW_ARRAYS_SIZE := 1250.
Abbreviation PRIM_TYPE_INVALID := 0.
Abbreviation NV097_SET_BEGIN_END := 0x17FC.
Abbreviation NV097_SET_BEGIN_END_OP_END := 0.
Abbreviation NV097_SET_BEGIN_END_OP_POLYGON := 0xA.
Abbreviation NV097_DRAW_ARRAYS := 0x1810.
Abbreviation NV097_DRAW_ARRAYS_COUNT := 0xFF000000.
Abbreviation NV097_DRAW_ARRAYS_START_INDEX := 0x00FFFFFF.

(** ** State *)

(** A float: given by its bits, converted from a 16-bit integer, a byte divided by 255
    (in single or double precision, which give the same single), or a 16-bit integer
    divided by 32767 and clamped to -1. *)
Inductive fval :=
  | Bits (w : Z)
  | OfInt (z : Z)
  | Of255 (b : Z)
  | Of32767 (z : Z).

Definition zero : fval := OfInt 0.
Definition one : fval := OfInt 1.

(** The four components of an attribute. *)
Definition vec : Type := list fval.

Record VertexAttribute := mkAttribute {
  inline_value : vec;
  inline_buffer : gmap Z vec;
  inline_buffer_populated : bool
}.

(** What the renderer is asked to draw. Of vertices it gets, for each attribute, an
    array of values or one value for all. *)
Inductive drawing :=
  | DrawArrays (ranges : list (Z * Z))
  | DrawElements (indices : list Z)
  | DrawBuffer (n : Z) (attributes : list (gmap Z vec + vec))
  | DrawInlineArray (words : list Z).

(** The used parts of the arrays, whose lengths the code keeps beside them. [bound]
    says that the renderer has a surface to draw to, [nop_draw] that the current state
    writes to none; [fetched x i] is the value that attribute [i] has for the last
    vertex of the draw [x] where the attribute is read from an array in memory; [drawn]
    is the log. *)
Record PGRAPHState := mkPG {
  primitive_mode : Z;
  vertex_attributes : list VertexAttribute;
  inline_array : list Z;
  inline_elements : list Z;
  inline_buffer_length : Z;
  draw_arrays : list (Z * Z);
  draw_arrays_min_start : Z;
  draw_arrays_max_count : Z;
  draw_arrays_prevent_connect : bool;
  bound : bool;
  nop_draw : bool;
  fetched : drawing -> nat -> option vec;
  drawn : list (Z * drawing)
}.

#[export] Instance eta_attribute : Eta VertexAttribute := fun a =>
  mkAttribute (inline_value a) (inline_buffer a) (inline_buffer_populated a).
#[export] Instance eta_pg : Eta PGRAPHState := fun pg =>
  mkPG (primitive_mode pg) (vertex_attributes pg) (inline_array pg) (inline_elements pg) (inline_buffer_length pg)
    (draw_arrays pg) (draw_arrays_min_start pg) (draw_arrays_max_count pg) (draw_arrays_prevent_connect pg)
    (bound pg) (nop_draw pg) (fetched pg) (drawn pg).

Implicit Types pg : PGRAPHState.

(** ** Buffers *)

(** Append to an array of [size] elements. *)
Definition push {A} (l : list A) (x : A) (size : Z) : outcome (list A) :=
  if zlen l <? size then Ok (l ++ [x]) else Undef.

Definition pgraph_reset_draw_arrays pg : PGRAPHState :=
  pg <| draw_arrays := [] |> <| draw_arrays_min_start := 0xFFFFFFFF |> <| draw_arrays_max_count := 0 |>
     <| draw_arrays_prevent_connect := false |>.

Definition pgraph_reset_inline_buffers pg : PGRAPHState :=
  pgraph_reset_draw_arrays
    (pg <| inline_elements := [] |> <| inline_array := [] |> <| inline_buffer_length := 0 |>).

(** An attribute that changes in the middle of a batch gets a buffer, with its old
    value for the vertices so far. *)
Definition fill (n : Z) (x : vec) (b : gmap Z vec) : gmap Z vec :=
  foldr (fun i b => <[i := x]> b) b (seqZ 0 n).

Definition pgraph_allocate_inline_buffer_vertices pg (attr : Z) : outcome PGRAPHState :=
  a ← rd (vertex_attributes pg) attr;
  if inline_buffer_populated a || (inline_buffer_length pg =? 0) then Ok pg else
  l ← wr (vertex_attributes pg) attr
        (a <| inline_buffer_populated := true |>
           <| inline_buffer := fill (inline_buffer_length pg) (inline_value a) (inline_buffer a) |>);
  Ok (pg <| vertex_attributes := l |>).

Definition pgraph_finish_inline_buffer_vertex pg : outcome PGRAPHState :=
  c_assert (inline_buffer_length pg <? NV2A_MAX_BATCH_LENGTH);;
  let record a := if inline_buffer_populated a
                  then a <| inline_buffer := <[inline_buffer_length pg := inline_value a]> (inline_buffer a) |> else a in
  Ok (pg <| vertex_attributes := record <$> vertex_attributes pg |>
         <| inline_buffer_length := inline_buffer_length pg + 1 |>).

(** ** The renderer *)

(** After a draw from buffers each attribute keeps the value of the last vertex. *)
Definition unbind (n : Z) (a : VertexAttribute) : VertexAttribute :=
  if inline_buffer_populated a then
    a <| inline_buffer_populated := false |> <| inline_value := default [] (inline_buffer a !! (n - 1)) |>
  else a.

(** So does an attribute that a draw reads from an array. *)
Definition bind_vertex_attributes pg (x : drawing) : PGRAPHState :=
  let update i a := match fetched pg x i with Some v => a <| inline_value := v |> | None => a end in
  pg <| vertex_attributes := imap update (vertex_attributes pg) |>.

Definition flush_draw pg : outcome PGRAPHState :=
  if negb (bound pg) then Ok pg else
  let draw x := drawn pg ++ [(primitive_mode pg, x)] in
  match draw_arrays pg, inline_elements pg with
  | _ :: _, _ =>
      c_assert (zlen (inline_elements pg) =? 0);;
      c_assert (inline_buffer_length pg =? 0);;
      c_assert (zlen (inline_array pg) =? 0);;
      Ok ((bind_vertex_attributes pg (DrawArrays (draw_arrays pg))) <| drawn := draw (DrawArrays (draw_arrays pg)) |>)
  | [], _ :: _ =>
      c_assert (inline_buffer_length pg =? 0);;
      c_assert (zlen (inline_array pg) =? 0);;
      Ok ((bind_vertex_attributes pg (DrawElements (inline_elements pg))) <| drawn := draw (DrawElements (inline_elements pg)) |>)
  | [], [] =>
      if negb (inline_buffer_length pg =? 0) then
        c_assert (zlen (inline_array pg) =? 0);;
        let n := inline_buffer_length pg in
        Ok (pg <| drawn := draw (DrawBuffer n ((fun a => if inline_buffer_populated a then inl (inline_buffer a)
                                                         else inr (inline_value a)) <$> vertex_attributes pg)) |>
               <| vertex_attributes := unbind n <$> vertex_attributes pg |>)
      else if negb (zlen (inline_array pg) =? 0) then
        Ok ((bind_vertex_attributes pg (DrawInlineArray (inline_array pg))) <| drawn := draw (DrawInlineArray (inline_array pg)) |>)
      else Ok pg
  end.

(** The textures and shaders that [draw_begin] binds and the state it sets are left out. *)
Definition draw_begin pg : outcome PGRAPHState :=
  if nop_draw pg then Ok pg else c_assert (bound pg);; Ok pg.

Definition draw_end pg : outcome PGRAPHState := if nop_draw pg then Ok pg else flush_draw pg.

(** ** Methods *)

Definition SET_BEGIN_END pg (parameter : Z) : outcome PGRAPHState :=
  if parameter =? NV097_SET_BEGIN_END_OP_END then
    if primitive_mode pg =? PRIM_TYPE_INVALID then Ok (pgraph_reset_inline_buffers pg)
    else
      pg ← draw_end pg;
      Ok ((pgraph_reset_inline_buffers pg) <| primitive_mode := PRIM_TYPE_INVALID |>)
  else if negb (primitive_mode pg =? PRIM_TYPE_INVALID) then Ok pg
  else
    c_assert (parameter <=? NV097_SET_BEGIN_END_OP_POLYGON);;
    draw_begin (pgraph_reset_inline_buffers (pg <| primitive_mode := parameter |>)).

(** [count] indices from [start] on. *)
Definition push_range (l : list Z) (start count : Z) : outcome (list Z) :=
  mfor (seqZ 0 count) (fun i l => push l (u32 (start + i)) NV2A_MAX_BATCH_LENGTH) l.

Definition pgraph_expand_draw_arrays pg : outcome PGRAPHState :=
  '(start, count) ← rd (draw_arrays pg) (zlen (draw_arrays pg) - 1);
  pg ← (if zlen (draw_arrays pg) >? 1 then
          pg ← flush_draw pg; Ok (pgraph_reset_inline_buffers pg)
        else Ok pg);
  c_assert (zlen (inline_elements pg) + count <? NV2A_MAX_BATCH_LENGTH);;
  l ← push_range (inline_elements pg) start count;
  Ok (pgraph_reset_draw_arrays (pg <| inline_elements := l |>)).

Definition ARRAY_ELEMENT16 pg (parameter : Z) : outcome PGRAPHState :=
  pg ← (if zlen (draw_arrays pg) =? 0 then Ok pg else pgraph_expand_draw_arrays pg);
  c_assert (zlen (inline_elements pg) <? NV2A_MAX_BATCH_LENGTH);;
  l ← push (inline_elements pg) (parameter .& 0xFFFF) NV2A_MAX_BATCH_LENGTH;
  l ← push l (parameter ≫ 16) NV2A_MAX_BATCH_LENGTH;
  Ok (pg <| inline_elements := l |>).

Definition ARRAY_ELEMENT32 pg (parameter : Z) : outcome PGRAPHState :=
  pg ← (if zlen (draw_arrays pg) =? 0 then Ok pg else pgraph_expand_draw_arrays pg);
  c_assert (zlen (inline_elements pg) <? NV2A_MAX_BATCH_LENGTH);;
  l ← push (inline_elements pg) parameter NV2A_MAX_BATCH_LENGTH;
  Ok (pg <| inline_elements := l |>).

Definition DRAW_ARRAYS pg (parameter : Z) : outcome PGRAPHState :=
  let start := GET_MASK parameter NV097_DRAW_ARRAYS_START_INDEX in
  let count := GET_MASK parameter NV097_DRAW_ARRAYS_COUNT + 1 in
  if negb (zlen (inline_elements pg) =? 0) then
    c_assert (zlen (inline_elements pg) + count <? NV2A_MAX_BATCH_LENGTH);;
    c_assert (negb (draw_arrays_prevent_connect pg));;
    l ← push_range (inline_elements pg) start count;
    Ok (pg <| inline_elements := l |>)
  else
    let pg := pg <| draw_arrays_min_start := Z.min (draw_arrays_min_start pg) start |>
                 <| draw_arrays_max_count := Z.max (draw_arrays_max_count pg) (start + count) |> in
    c_assert (zlen (draw_arrays pg) <? DRAW_ARRAYS_SIZE);;
    let append :=
      l ← push (draw_arrays pg) (start, count) DRAW_ARRAYS_SIZE;
      Ok (pg <| draw_arrays := l |> <| draw_arrays_prevent_connect := false |>) in
    if negb (draw_arrays_prevent_connect pg) && (zlen (draw_arrays pg) >? 0) then
      '(last_start, last_count) ← rd (draw_arrays pg) (zlen (draw_arrays pg) - 1);
      if start =? u32 (last_start + last_count) then
        l ← wr (draw_arrays pg) (zlen (draw_arrays pg) - 1) (last_start, last_count + count);
        Ok (pg <| draw_arrays := l |>)
      else append
    else append.

Definition INLINE_ARRAY pg (parameter : Z) : outcome PGRAPHState :=
  c_assert (zlen (inline_array pg) <? NV2A_MAX_BATCH_LENGTH);;
  l ← push (inline_array pg) parameter NV2A_MAX_BATCH_LENGTH;
  Ok (pg <| inline_array := l |>).

(** ** Vertices from attribute values *)

(** The 16-bit halves and the bytes of a parameter. *)
Definition low16 (parameter : Z) : Z := sext 16 (parameter .& 0xFFFF).
Definition high16 (parameter : Z) : Z := sext 16 (parameter ≫ 16).

Definition bytes255 (parameter : Z) : list (Z * fval) :=
  [(0, Of255 (parameter .& 0xFF)); (1, Of255 ((parameter ≫ 8) .& 0xFF));
   (2, Of255 ((parameter ≫ 16) .& 0xFF)); (3, Of255 ((parameter ≫ 24) .& 0xFF))].

(** Store components [i], [i] + 1, ... of an attribute. *)
Definition set_components (v : vec) (l : list (Z * fval)) : outcome vec :=
  mfor l (fun x v => wr v x.1 x.2) v.

Definition set_attribute pg (attr : Z) (l : list (Z * fval)) : outcome PGRAPHState :=
  pg ← pgraph_allocate_inline_buffer_vertices pg attr;
  a ← rd (vertex_attributes pg) attr;
  v ← set_components (inline_value a) l;
  attrs ← wr (vertex_attributes pg) attr (a <| inline_value := v |>);
  Ok (pg <| vertex_attributes := attrs |>).

Definition SET_VERTEX3F pg (slot parameter : Z) : outcome PGRAPHState :=
  pg ← set_attribute pg NV2A_VERTEX_ATTR_POSITION [(slot, Bits parameter); (3, one)];
  if slot =? 2 then pgraph_finish_inline_buffer_vertex pg else Ok pg.

Definition SET_VERTEX4F pg (slot parameter : Z) : outcome PGRAPHState :=
  pg ← set_attribute pg NV2A_VERTEX_ATTR_POSITION [(slot, Bits parameter)];
  if slot =? 3 then pgraph_finish_inline_buffer_vertex pg else Ok pg.

(** The five methods SET_VERTEX_DATA. *)
Inductive vertex_data := DATA2F_M | DATA4F_M | DATA2S | DATA4UB | DATA4S_M.

Definition SET_VERTEX_DATA pg (m : vertex_data) (slot parameter : Z) : outcome PGRAPHState :=
  let low := OfInt (low16 parameter) in
  let high := OfInt (high16 parameter) in
  let '(parts, l) :=
    match m with
    | DATA2F_M => (2, [(slot mod 2, Bits parameter); (2, zero); (3, one)])
    | DATA4F_M => (4, [(slot mod 4, Bits parameter)])
    | DATA2S => (1, [(0, low); (1, high); (2, zero); (3, one)])
    | DATA4UB => (1, bytes255 parameter)
    | DATA4S_M => (2, [(slot mod 2 * 2, low); (slot mod 2 * 2 + 1, high)])
    end in
  pg ← set_attribute pg (slot / parts) l;
  if (slot / parts =? 0) && (slot mod parts =? parts - 1) then pgraph_finish_inline_buffer_vertex pg else Ok pg.

(** Methods of one attribute. *)

Definition SET_FOG_COORD pg (parameter : Z) : outcome PGRAPHState :=
  let v := Bits parameter in
  set_attribute pg NV2A_VERTEX_ATTR_FOG [(0, v); (1, v); (2, v); (3, v)].

Definition SET_WEIGHT1F pg (parameter : Z) : outcome PGRAPHState :=
  set_attribute pg NV2A_VERTEX_ATTR_WEIGHT [(0, Bits parameter); (1, zero); (2, zero); (3, one)].

Definition SET_NORMAL3S pg (slot parameter : Z) : outcome PGRAPHState :=
  let part := slot mod 2 in
  set_attribute pg NV2A_VERTEX_ATTR_NORMAL
    [(part * 2 + 0, Of32767 (low16 parameter)); (part * 2 + 1, Of32767 (high16 parameter))].

Definition SET_VERTEX_ATTRIBUTE_4S (attr_index : Z) pg (slot parameter : Z) : outcome PGRAPHState :=
  let part := slot mod 2 in
  set_attribute pg attr_index [(part * 2 + 0, OfInt (low16 parameter)); (part * 2 + 1, OfInt (high16 parameter))].

Definition SET_VERTEX_ATRIBUTE_TEX_2S (attr_index : Z) pg (parameter : Z) : outcome PGRAPHState :=
  set_attribute pg attr_index [(0, OfInt (low16 parameter)); (1, OfInt (high16 parameter)); (2, zero); (3, one)].

Definition SET_VERTEX_COLOR_3F (attr_index : Z) pg (slot parameter : Z) : outcome PGRAPHState :=
  set_attribute pg attr_index [(slot, Bits parameter); (3, one)].

Definition SET_VERTEX_ATTRIBUTE_F (attr_index : Z) pg (slot parameter : Z) : outcome PGRAPHState :=
  set_attribute pg attr_index [(slot, Bits parameter)].

Definition SET_WEIGHT2F pg (slot parameter : Z) : outcome PGRAPHState :=
  set_attribute pg NV2A_VERTEX_ATTR_WEIGHT [(slot, Bits parameter); (2, zero); (3, one)].

Definition SET_WEIGHT3F pg (slot parameter : Z) : outcome PGRAPHState :=
  set_attribute pg NV2A_VERTEX_ATTR_WEIGHT [(slot, Bits parameter); (3, one)].

Definition SET_VERTEX_ATRIBUTE_TEX_2F (attr_index : Z) pg (slot parameter : Z) : outcome PGRAPHState :=
  set_attribute pg attr_index [(slot, Bits parameter); (2, zero); (3, one)].

Definition SET_VERTEX_ATTRIBUTE_4UB (attr_index : Z) pg (parameter : Z) : outcome PGRAPHState :=
  set_attribute pg attr_index (bytes255 parameter).

(** ** Dispatch *)

Inductive handler :=
  | H_VERTEX3F | H_VERTEX4F | H_FOG_COORD | H_WEIGHT1F | H_WEIGHT2F | H_WEIGHT3F | H_NORMAL3S
  | H_4S (attr : Z) | H_2S (attr : Z) | H_COLOR_3F (attr : Z) | H_F (attr : Z) | H_2F (attr : Z) | H_4UB (attr : Z)
  | H_DATA (m : vertex_data)
  | H_BEGIN_END | H_ARRAY_ELEMENT16 | H_ARRAY_ELEMENT32 | H_INLINE_ARRAY | H_DRAW_ARRAYS.

Definition handle (h : handler) pg (slot parameter : Z) : outcome PGRAPHState :=
  match h with
  | H_VERTEX3F => SET_VERTEX3F pg slot parameter
  | H_VERTEX4F => SET_VERTEX4F pg slot parameter
  | H_FOG_COORD => SET_FOG_COORD pg parameter
  | H_WEIGHT1F => SET_WEIGHT1F pg parameter
  | H_WEIGHT2F => SET_WEIGHT2F pg slot parameter
  | H_WEIGHT3F => SET_WEIGHT3F pg slot parameter
  | H_NORMAL3S => SET_NORMAL3S pg slot parameter
  | H_4S attr => SET_VERTEX_ATTRIBUTE_4S attr pg slot parameter
  | H_2S attr => SET_VERTEX_ATRIBUTE_TEX_2S attr pg parameter
  | H_COLOR_3F attr => SET_VERTEX_COLOR_3F attr pg slot parameter
  | H_F attr => SET_VERTEX_ATTRIBUTE_F attr pg slot parameter
  | H_2F attr => SET_VERTEX_ATRIBUTE_TEX_2F attr pg slot parameter
  | H_4UB attr => SET_VERTEX_ATTRIBUTE_4UB attr pg parameter
  | H_DATA m => SET_VERTEX_DATA pg m slot parameter
  | H_BEGIN_END => SET_BEGIN_END pg parameter
  | H_ARRAY_ELEMENT16 => ARRAY_ELEMENT16 pg parameter
  | H_ARRAY_ELEMENT32 => ARRAY_ELEMENT32 pg parameter
  | H_INLINE_ARRAY => INLINE_ARRAY pg parameter
  | H_DRAW_ARRAYS => DRAW_ARRAYS pg parameter
  end.

(** How a handler takes the words of a packet: one at a time, all those of its range
    in a packet of increasing methods, or all those in a packet of one method. *)
Inductive taking := ONE | INC | NON_INC.

Record method_entry := mkMethod {
  m_base : Z;
  m_range : Z;
  m_taking : taking;
  m_handler : handler
}.

(** The methods that set attributes, and the others, as in methods.h.inc. *)
Definition attribute_methods : list method_entry :=
  [ mkMethod 0x1500 3 INC H_VERTEX3F; mkMethod 0x1518 4 INC H_VERTEX4F;
    mkMethod 0x1530 3 INC (H_F NV2A_VERTEX_ATTR_NORMAL); mkMethod 0x1540 3 INC H_NORMAL3S;
    mkMethod 0x1550 4 INC (H_F NV2A_VERTEX_ATTR_DIFFUSE); mkMethod 0x1560 3 INC (H_COLOR_3F NV2A_VERTEX_ATTR_DIFFUSE);
    mkMethod 0x156C 1 INC (H_4UB NV2A_VERTEX_ATTR_DIFFUSE); mkMethod 0x1570 4 INC (H_F NV2A_VERTEX_ATTR_SPECULAR);
    mkMethod 0x1580 3 INC (H_COLOR_3F NV2A_VERTEX_ATTR_SPECULAR); mkMethod 0x158C 1 INC (H_4UB NV2A_VERTEX_ATTR_SPECULAR);
    mkMethod 0x1590 2 INC (H_2F NV2A_VERTEX_ATTR_TEXTURE0); mkMethod 0x15A0 4 INC (H_F NV2A_VERTEX_ATTR_TEXTURE0);
    mkMethod 0x1598 1 INC (H_2S NV2A_VERTEX_ATTR_TEXTURE0); mkMethod 0x15B0 2 INC (H_4S NV2A_VERTEX_ATTR_TEXTURE0);
    mkMethod 0x15B8 2 INC (H_2F NV2A_VERTEX_ATTR_TEXTURE1); mkMethod 0x15C8 4 INC (H_F NV2A_VERTEX_ATTR_TEXTURE1);
    mkMethod 0x15C0 1 INC (H_2S NV2A_VERTEX_ATTR_TEXTURE1); mkMethod 0x15D8 2 INC (H_4S NV2A_VERTEX_ATTR_TEXTURE1);
    mkMethod 0x15E0 2 INC (H_2F NV2A_VERTEX_ATTR_TEXTURE2); mkMethod 0x15F0 4 INC (H_F NV2A_VERTEX_ATTR_TEXTURE2);
    mkMethod 0x15E8 1 INC (H_2S NV2A_VERTEX_ATTR_TEXTURE2); mkMethod 0x1600 2 INC (H_4S NV2A_VERTEX_ATTR_TEXTURE2);
    mkMethod 0x1608 2 INC (H_2F NV2A_VERTEX_ATTR_TEXTURE3); mkMethod 0x1620 4 INC (H_F NV2A_VERTEX_ATTR_TEXTURE3);
    mkMethod 0x1610 1 INC (H_2S NV2A_VERTEX_ATTR_TEXTURE3); mkMethod 0x1630 2 INC (H_4S NV2A_VERTEX_ATTR_TEXTURE3);
    mkMethod 0x1698 1 ONE H_FOG_COORD; mkMethod 0x169C 1 ONE H_WEIGHT1F;
    mkMethod 0x16A0 2 INC H_WEIGHT2F; mkMethod 0x16B0 3 INC H_WEIGHT3F; mkMethod 0x16C0 4 INC (H_F NV2A_VERTEX_ATTR_WEIGHT);
    mkMethod 0x1880 32 INC (H_DATA DATA2F_M); mkMethod 0x1A00 64 INC (H_DATA DATA4F_M); mkMethod 0x1900 16 INC (H_DATA DATA2S);
    mkMethod 0x1940 16 INC (H_DATA DATA4UB); mkMethod 0x1980 32 INC (H_DATA DATA4S_M) ].

Definition submit_methods : list method_entry :=
  [ mkMethod NV097_SET_BEGIN_END 1 ONE H_BEGIN_END; mkMethod 0x1800 1 NON_INC H_ARRAY_ELEMENT16;
    mkMethod 0x1808 1 NON_INC H_ARRAY_ELEMENT32; mkMethod NV097_DRAW_ARRAYS 1 ONE H_DRAW_ARRAYS;
    mkMethod 0x1818 1 NON_INC H_INLINE_ARRAY ].

Definition covers (method : Z) (e : method_entry) : bool := (m_base e <=? method) && (method <? m_base e + 4 * m_range e).

Definition vertex_method (method : Z) : option method_entry :=
  List.find (covers method) (submit_methods ++ attribute_methods).

Definition call (e : method_entry) pg (method parameter : Z) : outcome PGRAPHState :=
  handle (m_handler e) pg ((method - m_base e) / 4) parameter.

Definition pgraph_method_inc (e : method_entry) pg (method : Z) (parameters : list Z) (num_words_available : Z) (inc : bool) :
    outcome (PGRAPHState * Z) :=
  if negb inc then parameter ← rd parameters 0; pg ← call e pg method parameter; Ok (pg, 1)
  else
    let count := Z.min num_words_available ((m_base e + 4 * m_range e - method) / 4) in
    pg ← mfor (seqZ 0 count) (fun i pg => parameter ← rd parameters i; call e pg (method + 4 * i) parameter) pg;
    Ok (pg, count).

Definition pgraph_method_non_inc (e : method_entry) pg (method : Z) (parameters : list Z) (num_words_available : Z) (inc : bool) :
    outcome (PGRAPHState * Z) :=
  if inc then parameter ← rd parameters 0; pg ← call e pg method parameter; Ok (pg, 1)
  else
    pg ← mfor (seqZ 0 num_words_available) (fun i pg => parameter ← rd parameters i; call e pg method parameter) pg;
    Ok (pg, num_words_available).

(** The squashing of BEGIN, DRAW_ARRAYS, END: [parameters] are the words from the
    method's own on, of which [max_lookahead_words] may be read. *)
Definition LAM (parameters : list Z) (i mthd : Z) : bool := nthZ parameters (i * 2 + 1) .& 0x31fff =? mthd.
Definition LAP (parameters : list Z) (i prm : Z) : bool := nthZ parameters (i * 2 + 2) =? prm.

Definition squash pg (method : Z) (parameters : list Z) (max_lookahead_words num_words_consumed : Z) : PGRAPHState * Z :=
  if (method =? NV097_DRAW_ARRAYS) && (max_lookahead_words >=? 7) && (zlen (inline_elements pg) =? 0) &&
     (zlen (draw_arrays pg) <? DRAW_ARRAYS_SIZE - 1) &&
     (LAM parameters 0 NV097_SET_BEGIN_END && LAP parameters 0 NV097_SET_BEGIN_END_OP_END) &&
     (LAM parameters 1 NV097_SET_BEGIN_END && LAP parameters 1 (primitive_mode pg)) &&
     LAM parameters 2 NV097_DRAW_ARRAYS
  then (pg <| draw_arrays_prevent_connect := true |>, num_words_consumed + 4)
  else (pg, num_words_consumed).

(** The case of the 3D class in [pgraph_method], for a method of the tables: the new
    state and the number of words consumed. *)
Definition pgraph_method (e : method_entry) pg (method : Z) (parameters : list Z)
    (num_words_available max_lookahead_words : Z) (inc : bool) : outcome (PGRAPHState * Z) :=
  '(pg, n) ←
    match m_taking e with
    | ONE => parameter ← rd parameters 0; pg ← call e pg method parameter; Ok (pg, 1)
    | INC => pgraph_method_inc e pg method parameters num_words_available inc
    | NON_INC => pgraph_method_non_inc e pg method parameters num_words_available inc
    end;
  Ok (squash pg method parameters max_lookahead_words n).

(** ** Indices *)

(** A method that submits indices. *)
Inductive submission :=
  | Element16 (parameter : Z)
  | Element32 (parameter : Z)
  | Arrays (parameter : Z).

Definition submit (s : submission) pg : outcome PGRAPHState :=
  match s with
  | Element16 p => ARRAY_ELEMENT16 pg p
  | Element32 p => ARRAY_ELEMENT32 pg p
  | Arrays p => DRAW_ARRAYS pg p
  end.

(** The first index and the number of indices of a range. *)
Definition range_of (p : Z) : Z * Z := (GET_MASK p NV097_DRAW_ARRAYS_START_INDEX, GET_MASK p NV097_DRAW_ARRAYS_COUNT + 1).

Definition range (r : Z * Z) : list Z := seqZ r.1 r.2.

(** The indices that a method submits, and those that a draw has. *)
Definition indices_of (s : submission) : list Z :=
  match s with
  | Element16 p => [p .& 0xFFFF; p ≫ 16]
  | Element32 p => [p]
  | Arrays p => range (range_of p)
  end.

Definition indices_drawn (x : drawing) : list Z :=
  match x with
  | DrawArrays rs => concat (range <$> rs)
  | DrawElements l => l
  | _ => []
  end.

(** Ranges, with a new one that may continue the last. *)
Definition join (rs : list (Z * Z)) (r : Z * Z) : list (Z * Z) :=
  match last rs with
  | Some (s, c) => if r.1 =? s + c then removelast rs ++ [(s, c + r.2)] else rs ++ [r]
  | None => [r]
  end.

(** No index comes after two ranges that do not join; [rs] are the ranges so far, and
    [indexed] says that there were indices. *)
Fixpoint expandable (indexed : bool) (rs : list (Z * Z)) (l : list submission) : bool :=
  match l with
  | [] => true
  | Arrays p :: l => if indexed then expandable true [] l else expandable false (join rs (range_of p)) l
  | _ :: l => (zlen rs <=? 1) && expandable true [] l
  end.

(** A range as the methods make them. *)
Definition range_ok (r : Z * Z) : Prop := 0 <= r.1 /\ 1 <= r.2 /\ r.1 + r.2 <= 2 ^ 24 + 255.

Lemma range_of_ok p : range_ok (range_of p) /\ (range_of p).1 < 2 ^ 24.
Proof.
  unfold range_of, range_ok. cbn [fst snd]. rewrite (GET_MASK_field _ _ 0 24), (GET_MASK_field _ _ 24 8) by done.
  pose proof (Z.mod_pos_bound (p ≫ 0) (2 ^ 24)). pose proof (Z.mod_pos_bound (p ≫ 24) (2 ^ 8)). lia.
Qed.

Lemma length_range r : 0 <= r.2 -> zlen (range r) = r.2.
Proof. intros. unfold range. rewrite length_seqZ. lia. Qed.

Lemma push_fits {A} (l : list A) x size : zlen l < size -> push l x size = Ok (l ++ [x]).
Proof. intros. unfold push. by zcases. Qed.

Lemma push_range_ok l r : range_ok r -> zlen l + r.2 <= NV2A_MAX_BATCH_LENGTH ->
  push_range l r.1 r.2 = Ok (l ++ range r).
Proof.
  intros (Hs & Hc & He) Hl. unfold push_range.
  destruct (mfor_seqZ (fun i m => m = l ++ seqZ r.1 i) 0 r.2 (fun i l => push l (u32 (r.1 + i)) NV2A_MAX_BATCH_LENGTH) l)
    as (m & Hm & ->).
  - by rewrite app_nil_r.
  - intros i m Hi ->. rewrite push_fits by (rewrite length_app, length_seqZ; lia). eexists; split; [reflexivity |].
    rewrite <- app_assoc. f_equal. rewrite u32_small by lia. by rewrite seqZ_app by lia.
  - rewrite Hm. unfold range. do 3 f_equal. lia.
Qed.

(** What is collected in a block of indices: [rs] ranges, or the indices [l]. *)
Record collecting (m : Z) (log : list (Z * drawing)) (indexed : bool) (rs : list (Z * Z)) (l : list Z) pg : Prop := {
  co_mode : primitive_mode pg = m;
  co_log : drawn pg = log;
  co_ranges : draw_arrays pg = rs;
  co_indices : inline_elements pg = if indexed then l else [];
  co_indexed : if indexed then rs = [] /\ l <> [] else l = concat (range <$> rs);
  co_ok : Forall range_ok rs;
  co_connect : draw_arrays_prevent_connect pg = false;
  co_others : inline_array pg = [] /\ inline_buffer_length pg = 0;
  co_draws : bound pg = true /\ nop_draw pg = false
}.

Lemma collecting_expand m log rs l pg : collecting m log false rs l pg -> zlen rs <= 1 -> rs <> [] ->
  zlen l < NV2A_MAX_BATCH_LENGTH ->
  exists pg', pgraph_expand_draw_arrays pg = Ok pg' /\ collecting m log true [] l pg'.
Proof.
  intros [Hm Hl Hr Hi Hx Hok Hc Ho Hd] H1 Hne Hlen. destruct rs as [|r [|]]; [done | | cbn in H1; lia].
  cbn in Hx. rewrite app_nil_r in Hx. subst l. inversion Hok as [|? ? Hr0 _]; subst.
  unfold pgraph_expand_draw_arrays. rewrite Hr. destruct r as [s c].
  change (rd [(s, c)] (zlen [(s, c)] - 1)) with (Ok (s, c)). change (zlen [(s, c)] >? 1) with false. cbn [mbind outcome_bind].
  rewrite length_range in Hlen by (destruct Hr0 as (? & ? & ?); cbn in *; lia). cbn [snd] in Hlen. rewrite Hi.
  rewrite c_assert_true by (apply Z.ltb_lt; cbn; lia). pose proof (push_range_ok [] (s, c) Hr0) as Hp. cbn in Hp |- *.
  rewrite Hp by lia. cbn [mbind outcome_bind]. eexists; split; [reflexivity |]. split; cbn; try done.
  split; [done |]. destruct Hr0 as (_ & Hc1 & _). cbn in Hc1. unfold range. cbn. rewrite seqZ_cons by lia. done.
Qed.

(** Before an index is stored, the ranges so far have become indices. *)
Lemma collecting_flat m log ix rs l pg : collecting m log ix rs l pg -> zlen rs <= 1 -> zlen l < NV2A_MAX_BATCH_LENGTH ->
  exists pg', (if zlen (draw_arrays pg) =? 0 then Ok pg else pgraph_expand_draw_arrays pg) = Ok pg' /\
    inline_elements pg' = l /\
    forall l', l' <> [] -> collecting m log true [] l' (pg' <| inline_elements := l' |>).
Proof.
  intros Hco H1 Hlen. assert (Hflat : rs = [] -> inline_elements pg = l /\
    forall l', l' <> [] -> collecting m log true [] l' (pg <| inline_elements := l' |>)).
  { intros ->. destruct Hco as [Hm Hl Hr Hi Hx Hok Hc Ho Hd]. split; [| intros l' Hl'; by split].
    destruct ix; [done |]. by rewrite Hi, Hx. }
  rewrite (co_ranges _ _ _ _ _ _ Hco). destruct rs as [|r rs]; [by exists pg; destruct (Hflat eq_refl) |].
  destruct ix; [by destruct (co_indexed _ _ _ _ _ _ Hco) |].
  destruct (collecting_expand m log (r :: rs) l pg Hco H1) as (pg1 & Hrun & [Hm Hl Hr Hi Hx Hok Hc Ho Hd]); [done.. |].
  exists pg1. split; [| split; [done | intros l' Hl'; by split]]. destruct (Z.eqb_spec (zlen (r :: rs)) 0) as [E|_]; [cbn in E; lia | exact Hrun].
Qed.

Lemma rd_snoc {A} (l : list A) x : rd (l ++ [x]) (zlen (l ++ [x]) - 1) = Ok x.
Proof.
  unfold rd. rewrite length_app. cbn [length]. destruct (Z.ltb_spec (Z.of_nat (length l + 1) - 1) 0); [lia |].
  replace (Z.to_nat (Z.of_nat (length l + 1) - 1)) with (length l) by lia.
  by rewrite lookup_app_r, Nat.sub_diag by lia.
Qed.

Lemma wr_snoc {A} (l : list A) x y : wr (l ++ [x]) (zlen (l ++ [x]) - 1) y = Ok (l ++ [y]).
Proof.
  rewrite wr_ok by (rewrite length_app; cbn; lia). f_equal. rewrite length_app. cbn [length].
  replace (Z.to_nat (Z.of_nat (length l + 1) - 1)) with (length l + 0)%nat by lia. by rewrite insert_app_r.
Qed.

(** Joining keeps the indices. *)
Lemma join_range rs p : Forall range_ok rs -> Forall range_ok (join rs (range_of p)) /\
  concat (range <$> join rs (range_of p)) = concat (range <$> rs) ++ range (range_of p) /\ join rs (range_of p) <> [].
Proof.
  intros Hok. destruct (range_of_ok p) as [Hp Hlt]. destruct (range_of p) as [s c] eqn:E.
  destruct rs as [|r rs _] using rev_ind; [cbn; rewrite app_nil_r; split; [by apply Forall_singleton | done] |].
  apply Forall_app in Hok as [Hrs Hr]. inversion Hr as [|? ? Hr0 _]; subst. unfold join. rewrite last_snoc.
  destruct r as [s0 c0]. cbn [fst snd] in *. destruct (Z.eqb_spec s (s0 + c0)) as [->|Hne].
  - rewrite removelast_last. unfold range_ok in *. cbn [fst snd] in *. split; [| split; [| by destruct rs]].
    + apply Forall_app. split; [done |]. apply Forall_singleton. cbn. lia.
    + rewrite !fmap_app, !concat_app. cbn. rewrite !app_nil_r, <- app_assoc. f_equal. unfold range. cbn.
      by rewrite seqZ_app by lia.
  - split; [| split; [| by destruct rs]].
    + rewrite !Forall_app, !Forall_singleton. done.
    + rewrite (fmap_app _ (rs ++ _)), concat_app. cbn. by rewrite app_nil_r.
Qed.

Lemma submit_arrays m log ix rs l p pg : collecting m log ix rs l pg ->
  zlen l + zlen (range (range_of p)) < NV2A_MAX_BATCH_LENGTH -> zlen rs < DRAW_ARRAYS_SIZE ->
  exists pg', DRAW_ARRAYS pg p = Ok pg' /\
    collecting m log ix (if ix then [] else join rs (range_of p)) (l ++ range (range_of p)) pg'.
Proof.
  intros Hco Hlen Hrs. destruct (range_of_ok p) as [Hp Hlt]. rewrite length_range in Hlen by (destruct Hp as (? & ? & ?); lia).
  pose proof (push_range_ok l (range_of p) Hp) as Hpush. unfold DRAW_ARRAYS. fold (range_of p).
  change (GET_MASK p NV097_DRAW_ARRAYS_START_INDEX) with (range_of p).1.
  change (GET_MASK p NV097_DRAW_ARRAYS_COUNT + 1) with (range_of p).2.
  destruct Hco as [Hm Hl Hr Hi Hx Hok Hc Ho Hd]. destruct ix.
  - destruct Hx as [-> Hne]. rewrite Hi. destruct (Z.eqb_spec (zlen l) 0) as [E|_]; [by destruct l |]. cbn [negb].
    rewrite Hc, !c_assert_true by (done || apply Z.ltb_lt; lia).
    rewrite Hpush by lia. cbn [mbind outcome_bind]. eexists; split; [reflexivity |].
    split; try done. cbn. split; [done |]. by destruct l.
  - destruct (join_range rs p Hok) as (Hjok & Hj & Hjne). rewrite Hi. change (negb (zlen (@nil Z) =? 0)) with false. cbv match zeta.
    set (pg1 := pg <| draw_arrays_min_start := _ |> <| draw_arrays_max_count := _ |>).
    assert (Hfin : forall pg', primitive_mode pg' = m -> drawn pg' = log -> draw_arrays pg' = join rs (range_of p) ->
      inline_elements pg' = [] -> draw_arrays_prevent_connect pg' = false -> inline_array pg' = [] /\ inline_buffer_length pg' = 0 ->
      bound pg' = true /\ nop_draw pg' = false -> collecting m log false (join rs (range_of p)) (l ++ range (range_of p)) pg').
    { intros pg' ? ? ? ? ? ? ?. split; try done. by rewrite Hj, Hx. }
    rewrite c_assert_true by (apply Z.ltb_lt; change (draw_arrays pg1) with (draw_arrays pg); rewrite Hr; lia).
    change (draw_arrays_prevent_connect pg1) with (draw_arrays_prevent_connect pg). rewrite Hc. cbn [negb andb].
    change (draw_arrays pg1) with (draw_arrays pg). rewrite Hr, push_fits by lia. cbn [mbind outcome_bind].
    unfold join in *. destruct rs as [|r rs _] using rev_ind; [eexists; split; [reflexivity |]; by apply Hfin |].
    rewrite last_snoc in *. destruct r as [s0 c0]. rewrite (proj2 (Z.gtb_lt _ _)) by (rewrite length_app; cbn; lia).
    rewrite rd_snoc. cbn [mbind outcome_bind]. apply Forall_app in Hok as [_ Hr0]. inversion Hr0 as [|? ? (? & ? & ?) _]; subst.
    cbn [fst snd] in *. rewrite u32_small by lia. destruct ((range_of p).1 =? s0 + c0).
    + rewrite wr_snoc. cbn [mbind outcome_bind]. rewrite removelast_last in *. eexists; split; [reflexivity |]. by apply Hfin.
    + eexists; split; [reflexivity |]. by apply Hfin.
Qed.

Lemma submit_ok m log ix rs l s pg : collecting m log ix rs l pg ->
  zlen l + zlen (indices_of s) < NV2A_MAX_BATCH_LENGTH -> zlen rs < DRAW_ARRAYS_SIZE ->
  match s with Arrays _ => True | _ => zlen rs <= 1 end ->
  exists pg', submit s pg = Ok pg' /\
    match s with
    | Arrays p => collecting m log ix (if ix then [] else join rs (range_of p)) (l ++ indices_of s) pg'
    | _ => collecting m log true [] (l ++ indices_of s) pg'
    end.
Proof.
  intros Hco Hlen Hrs Hs. destruct s as [p|p|p]; cbn [submit indices_of] in *.
  - cbn in Hlen. destruct (collecting_flat m log ix rs l pg Hco Hs) as (pg1 & E & Hi & Hfin); [lia |].
    unfold ARRAY_ELEMENT16. rewrite E. cbn [mbind outcome_bind]. rewrite Hi, c_assert_true by (apply Z.ltb_lt; lia).
    rewrite push_fits by lia. cbn [mbind outcome_bind]. rewrite push_fits by (rewrite length_app; cbn; lia).
    cbn [mbind outcome_bind]. eexists; split; [reflexivity |]. rewrite <- app_assoc. apply Hfin. by destruct l.
  - cbn in Hlen. destruct (collecting_flat m log ix rs l pg Hco Hs) as (pg1 & E & Hi & Hfin); [lia |].
    unfold ARRAY_ELEMENT32. rewrite E. cbn [mbind outcome_bind]. rewrite Hi, c_assert_true by (apply Z.ltb_lt; lia).
    rewrite push_fits by lia. cbn [mbind outcome_bind]. eexists; split; [reflexivity |]. apply Hfin. by destruct l.
  - by apply submit_arrays.
Qed.

Lemma length_join rs r : zlen (join rs r) <= zlen rs + 1.
Proof.
  unfold join. destruct rs as [|[s c] rs _] using rev_ind; [done |]. rewrite last_snoc.
  destruct (_ =? _); rewrite ?removelast_last, !length_app; cbn; lia.
Qed.

Lemma submissions_ok m log subs ix rs l pg : collecting m log ix rs l pg -> expandable ix rs subs = true ->
  zlen l + zlen (concat (indices_of <$> subs)) < NV2A_MAX_BATCH_LENGTH -> zlen rs + zlen subs <= DRAW_ARRAYS_SIZE ->
  exists pg' ix' rs', mfor subs submit pg = Ok pg' /\ collecting m log ix' rs' (l ++ concat (indices_of <$> subs)) pg'.
Proof.
  revert ix rs l pg. induction subs as [|s subs IH]; intros ix rs l pg Hco Hex Hlen Hrs.
  - exists pg, ix, rs. by rewrite app_nil_r.
  - cbn [fmap list_fmap concat mfor] in *. rewrite length_app in Hlen. cbn [length] in Hrs.
    assert (Hs1 : match s with Arrays _ => True | _ => zlen rs <= 1 end)
      by (destruct s; cbn [expandable] in Hex; [by apply andb_true_iff in Hex as [?%Z.leb_le _] .. | done]).
    destruct (submit_ok m log ix rs l s pg Hco) as (pg1 & -> & Hco1); [lia | lia | done |]. cbn [mbind outcome_bind].
    assert (exists ix1 rs1, collecting m log ix1 rs1 (l ++ indices_of s) pg1 /\ expandable ix1 rs1 subs = true /\
      zlen rs1 <= zlen rs + 1) as (ix1 & rs1 & Hco2 & Hex2 & Hl2).
    { destruct s; cbn [expandable] in Hex.
      - apply andb_true_iff in Hex as [_ Hex]. exists true, []. split; [done | split; [done | cbn; lia]].
      - apply andb_true_iff in Hex as [_ Hex]. exists true, []. split; [done | split; [done | cbn; lia]].
      - destruct ix; [exists true, [] | eexists false, _]; (split; [done | split; [done |]]); [cbn; lia | apply length_join]. }
    destruct (IH ix1 rs1 _ pg1 Hco2 Hex2) as (pg2 & ix2 & rs2 & Hr & Hco3); [rewrite length_app; lia | lia |].
    exists pg2, ix2, rs2. split; [exact Hr |]. by rewrite <- app_assoc in Hco3.
Qed.

(** The end of the block draws what was collected. *)
Lemma end_draws m log ix rs l pg : collecting m log ix rs l pg -> l <> [] -> m <> PRIM_TYPE_INVALID ->
  exists pg' x, SET_BEGIN_END pg NV097_SET_BEGIN_END_OP_END = Ok pg' /\ drawn pg' = log ++ [(m, x)] /\
    indices_drawn x = l /\ primitive_mode pg' = PRIM_TYPE_INVALID.
Proof.
  intros [Hm Hl Hr Hi Hx Hok Hc [Ha Hb] [Hbo Hno]] Hne Hmode. unfold SET_BEGIN_END, draw_end, flush_draw. cbn [Z.eqb].
  rewrite Hm, (proj2 (Z.eqb_neq m 0) Hmode), Hno, Hbo, Hr, Hi, Ha, Hb. cbn [negb]. destruct ix.
  - destruct Hx as [-> _]. destruct l as [|i l]; [done |]. cbn. eexists _, (DrawElements (i :: l)). rewrite Hl. done.
  - destruct rs as [|r rs]; [by rewrite Hx in Hne |]. cbn. eexists _, (DrawArrays (r :: rs)). rewrite Hl. by subst l.
Qed.

(** BEGIN with a surface to draw to. *)
Lemma begin_ok pg m : primitive_mode pg = PRIM_TYPE_INVALID -> bound pg = true -> nop_draw pg = false ->
  1 <= m <= NV097_SET_BEGIN_END_OP_POLYGON ->
  SET_BEGIN_END pg m = Ok (pgraph_reset_inline_buffers (pg <| primitive_mode := m |>)).
Proof.
  intros Hpm Hb Hn Hm. unfold SET_BEGIN_END, draw_begin. rewrite Hpm.
  destruct (Z.eqb_spec m NV097_SET_BEGIN_END_OP_END); [lia |]. cbn [negb Z.eqb].
  rewrite (proj2 (Z.leb_le m NV097_SET_BEGIN_END_OP_POLYGON)) by lia. cbn. by rewrite Hn, Hb.
Qed.

(** C7: The indices drawn are the indices submitted. Let the renderer have a surface to
    draw to and the current state write to it. For any sequence of DRAW_ARRAYS and
    ARRAY_ELEMENT methods between BEGIN and END that fits the arrays, in which no index
    comes after two ranges that do not join, the methods succeed and END gives the
    renderer one draw, in the mode of BEGIN, whose indices are those of the methods in
    their order. *)
Theorem draws_what_is_submitted pg m subs :
  primitive_mode pg = PRIM_TYPE_INVALID -> bound pg = true -> nop_draw pg = false ->
  1 <= m <= NV097_SET_BEGIN_END_OP_POLYGON ->
  subs <> [] -> expandable false [] subs = true ->
  zlen (concat (indices_of <$> subs)) < NV2A_MAX_BATCH_LENGTH -> zlen subs <= DRAW_ARRAYS_SIZE ->
  exists pg' x, (pg ← SET_BEGIN_END pg m; pg ← mfor subs submit pg; SET_BEGIN_END pg NV097_SET_BEGIN_END_OP_END) = Ok pg' /\
    drawn pg' = drawn pg ++ [(m, x)] /\ indices_drawn x = concat (indices_of <$> subs) /\
    primitive_mode pg' = PRIM_TYPE_INVALID.
Proof.
  intros Hpm Hb Hn Hm Hne Hex Hlen Hsz. set (pg0 := pgraph_reset_inline_buffers (pg <| primitive_mode := m |>)).
  assert (Hbegin : SET_BEGIN_END pg m = Ok pg0) by by apply begin_ok.
  rewrite Hbegin. cbn [mbind outcome_bind].
  destruct (submissions_ok m (drawn pg) subs false [] [] pg0) as (pg1 & ix & rs & Hrun & Hco); [by split | done | done | done |].
  rewrite Hrun. cbn [mbind outcome_bind app] in *. apply (end_draws m (drawn pg) ix rs); [done | | lia].
  destruct subs as [|s subs]; [done |]. cbn. destruct s as [p|p|p]; cbn; [done | done |].
  destruct (range_of_ok p) as [(_ & Hc & _) _]. unfold range. by rewrite seqZ_cons by lia.
Qed.

(** ** Squashing *)

(** Words for the engine, each method with a header of its own, as the command FIFO
    hands them over: the methods see the words behind theirs. *)
Fixpoint run_words (fuel : nat) pg (ws : list Z) : outcome PGRAPHState :=
  match ws with
  | [] => Ok pg
  | h :: rest =>
      match fuel with
      | O => NoFuel
      | S fuel =>
          let method := h .& 0x1ffc in
          match vertex_method method with
          | Some e => '(pg, n) ← pgraph_method e pg method rest 1 (zlen rest) true; run_words fuel pg (drop (Z.to_nat n) rest)
          | None => AssertFail
          end
      end
  end.

(** A header for one word. *)
Definition header (method : Z) : Z := method .| (1 ≪ 18).

Definition draw_words (p : Z) (rest : list Z) : list Z :=
  header NV097_DRAW_ARRAYS :: p :: header NV097_SET_BEGIN_END :: NV097_SET_BEGIN_END_OP_END :: rest.

(** BEGIN, DRAW_ARRAYS, END for every parameter. *)
Fixpoint stream (m : Z) (ps : list Z) : list Z :=
  match ps with
  | [] => []
  | p :: ps => header NV097_SET_BEGIN_END :: m :: draw_words p (stream m ps)
  end.

(** The ranges that the renderer got, each with its mode. *)
Definition picture (log : list (Z * drawing)) : list (Z * (Z * Z)) :=
  concat ((fun d => match d.2 with DrawArrays rs => (fun r => (d.1, r)) <$> rs | _ => [] end) <$> log).

(** Outside a block; and in a block with ranges [rs]. *)
Definition idle (log : list (Z * drawing)) pg : Prop :=
  primitive_mode pg = PRIM_TYPE_INVALID /\ drawn pg = log /\ bound pg = true /\ nop_draw pg = false.

Record block (m : Z) (log : list (Z * drawing)) (rs : list (Z * Z)) (apart : bool) pg : Prop := {
  bl_mode : primitive_mode pg = m;
  bl_log : drawn pg = log;
  bl_ranges : draw_arrays pg = rs;
  bl_apart : draw_arrays_prevent_connect pg = apart;
  bl_others : inline_elements pg = [] /\ inline_array pg = [] /\ inline_buffer_length pg = 0;
  bl_draws : bound pg = true /\ nop_draw pg = false
}.

Lemma begin_block m log pg : idle log pg -> 1 <= m <= NV097_SET_BEGIN_END_OP_POLYGON ->
  exists pg', SET_BEGIN_END pg m = Ok pg' /\ block m log [] false pg'.
Proof.
  intros (Hm & Hl & Hb & Hn) Hr. rewrite begin_ok by done. eexists; split; [reflexivity |]. by split.
Qed.

Lemma end_block m log rs apart pg : block m log rs apart pg -> rs <> [] -> m <> PRIM_TYPE_INVALID ->
  exists pg', SET_BEGIN_END pg NV097_SET_BEGIN_END_OP_END = Ok pg' /\ idle (log ++ [(m, DrawArrays rs)]) pg'.
Proof.
  intros [Hm Hl Hr Hp (He & Ha & Hb) [Hbo Hno]] Hne Hmode. unfold SET_BEGIN_END, draw_end, flush_draw. cbn [Z.eqb].
  rewrite Hm, (proj2 (Z.eqb_neq m 0) Hmode), Hno, Hbo, Hr, He, Ha, Hb. destruct rs as [|r rs]; [done |].
  cbn. rewrite Hl. eexists; split; [reflexivity |]. by split.
Qed.

(** A range that is to be kept apart, or is the first, becomes one of its own. *)
Lemma draw_block m log rs apart p pg : block m log rs apart pg -> apart = true \/ rs = [] -> zlen rs < DRAW_ARRAYS_SIZE ->
  exists pg', DRAW_ARRAYS pg p = Ok pg' /\ block m log (rs ++ [range_of p]) false pg'.
Proof.
  intros [Hm Hl Hr Hp (He & Ha & Hb) Hd] Hap Hlen. unfold DRAW_ARRAYS. rewrite He.
  change (negb (zlen (@nil Z) =? 0)) with false. cbv match zeta. set (pg1 := pg <| draw_arrays_min_start := _ |> <| draw_arrays_max_count := _ |>).
  change (draw_arrays pg1) with (draw_arrays pg). change (draw_arrays_prevent_connect pg1) with (draw_arrays_prevent_connect pg).
  rewrite Hr, Hp, c_assert_true by (by apply Z.ltb_lt).
  assert (E : negb apart && (zlen rs >? 0) = false) by (destruct Hap as [-> | ->]; [done | by rewrite andb_false_r]).
  rewrite E, push_fits by done. cbn [mbind outcome_bind]. eexists; split; [reflexivity |]. by split.
Qed.

(** DRAW_ARRAYS with the words behind it. *)
Definition draw_arrays_words pg (ws : list Z) : outcome (PGRAPHState * Z) :=
  parameter ← rd ws 0; pg ← DRAW_ARRAYS pg parameter; Ok (squash pg NV097_DRAW_ARRAYS ws (zlen ws) 1).

(** The block that continues is squashed, if there is room for its range. *)
Lemma squash_block m log rs p q rest pg : block m log rs false pg -> rs <> [] ->
  forall pg0, DRAW_ARRAYS pg0 p = Ok pg ->
  let ws := p :: header NV097_SET_BEGIN_END :: NV097_SET_BEGIN_END_OP_END :: header NV097_SET_BEGIN_END :: m :: draw_words q rest in
  exists pg' n, draw_arrays_words pg0 ws = Ok (pg', n) /\
    if zlen rs <? DRAW_ARRAYS_SIZE - 1 then n = 5 /\ block m log rs true pg' else n = 1 /\ pg' = pg.
Proof.
  intros [Hm Hl Hr Hp (He & Ha & Hb) Hd] Hne pg0 Hrun ws. unfold draw_arrays_words. change (rd ws 0) with (Ok p). cbn [mbind outcome_bind].
  rewrite Hrun. cbn [mbind outcome_bind]. unfold squash. rewrite He, Hr, Hm.
  assert (Hlook : (zlen ws >=? 7) = true) by (apply Z.geb_le; unfold ws, draw_words; cbn [length]; lia).
  rewrite Hlook. change (LAM ws 0 NV097_SET_BEGIN_END) with true. change (LAP ws 0 NV097_SET_BEGIN_END_OP_END) with true.
  change (LAM ws 1 NV097_SET_BEGIN_END) with true. change (LAM ws 2 NV097_DRAW_ARRAYS) with true.
  change (LAP ws 1 m) with (m =? m). rewrite (Z.eqb_refl m). change (zlen (@nil Z) =? 0) with true. rewrite !andb_true_r. cbn [andb Z.eqb Pos.eqb].
  destruct (zlen rs <? DRAW_ARRAYS_SIZE - 1); eexists _, _; (split; [reflexivity | split; [done |]]); [by split | done].
Qed.

Lemma picture_app l1 l2 : picture (l1 ++ l2) = picture l1 ++ picture l2.
Proof. unfold picture. by rewrite fmap_app, concat_app. Qed.

Lemma picture_one m rs : picture [(m, DrawArrays rs)] = (fun r => (m, r)) <$> rs.
Proof. unfold picture. cbn. apply app_nil_r. Qed.

(** The words of BEGIN and of END. *)
Lemma run_begin fuel pg m rest : run_words (S fuel) pg (header NV097_SET_BEGIN_END :: m :: rest) =
  (pg ← SET_BEGIN_END pg m; run_words fuel pg rest).
Proof.
  cbn [run_words]. change (vertex_method _) with (Some (mkMethod NV097_SET_BEGIN_END 1 ONE H_BEGIN_END)).
  unfold pgraph_method, call. cbn [m_taking m_handler handle]. change (rd (m :: rest) 0) with (Ok m).
  cbn [mbind outcome_bind]. by destruct (SET_BEGIN_END pg m).
Qed.

Lemma run_draw fuel pg ws : run_words (S fuel) pg (header NV097_DRAW_ARRAYS :: ws) =
  ('(pg, n) ← draw_arrays_words pg ws; run_words fuel pg (drop (Z.to_nat n) ws)).
Proof.
  cbn [run_words]. change (vertex_method _) with (Some (mkMethod NV097_DRAW_ARRAYS 1 ONE H_DRAW_ARRAYS)).
  unfold pgraph_method, draw_arrays_words, call. cbn [m_taking m_handler handle]. destruct (rd ws 0) as [p| | |]; [|done..].
  cbn [mbind outcome_bind]. by destruct (DRAW_ARRAYS pg p).
Qed.

(** From a DRAW_ARRAYS on, with ranges [rs] squashed before it. *)
Lemma run_squashed m ps : 1 <= m <= NV097_SET_BEGIN_END_OP_POLYGON ->
  forall fuel p log rs apart pg, block m log rs apart pg -> apart = true \/ rs = [] -> zlen rs < DRAW_ARRAYS_SIZE ->
  (3 * length (p :: ps) <= fuel)%nat ->
  exists pg' log', run_words fuel pg (draw_words p (stream m ps)) = Ok pg' /\ idle log' pg' /\
    picture log' = picture log ++ ((fun r => (m, r)) <$> rs ++ (range_of <$> p :: ps)).
Proof.
  intros Hm. induction ps as [|q ps IH]; intros fuel p log rs apart pg Hb Hap Hlen Hf;
    destruct (draw_block m log rs apart p pg Hb Hap Hlen) as (pg1 & Hrun & Hb1);
    cbn [length] in Hf; destruct fuel as [|[|[|fuel]]]; try lia; cbn [stream]; unfold draw_words at 1; rewrite run_draw.
  - unfold draw_arrays_words. cbn [rd mbind outcome_bind].
    change (rd [p; header NV097_SET_BEGIN_END; NV097_SET_BEGIN_END_OP_END] 0) with (Ok p). cbn [mbind outcome_bind].
    rewrite Hrun. cbn [mbind outcome_bind]. unfold squash. change (zlen [p; header NV097_SET_BEGIN_END; NV097_SET_BEGIN_END_OP_END] >=? 7) with false.
    cbn [andb mbind outcome_bind Z.eqb Pos.eqb]. change (drop (Z.to_nat 1) [p; header NV097_SET_BEGIN_END; NV097_SET_BEGIN_END_OP_END])
      with [header NV097_SET_BEGIN_END; NV097_SET_BEGIN_END_OP_END]. rewrite run_begin.
    destruct (end_block m log (rs ++ [range_of p]) false pg1 Hb1) as (pg2 & -> & Hid); [by destruct rs | lia |].
    cbn [mbind outcome_bind run_words]. exists pg2. eexists; split; [reflexivity | split; [exact Hid |]].
    by rewrite picture_app, picture_one.
  - destruct (squash_block m log (rs ++ [range_of p]) p q (stream m ps) pg1 Hb1) with (pg0 := pg) as (pg2 & n & -> & Hn);
      [by destruct rs | done |]. cbn [mbind outcome_bind].
    destruct (Z.ltb_spec (zlen (rs ++ [range_of p])) (DRAW_ARRAYS_SIZE - 1)) as [Hroom|Hfull]; destruct Hn as [-> Hn].
    + destruct (IH (S (S fuel)) q log _ true pg2 Hn) as (pg3 & log' & Hr3 & Hid & Hpic); [by left | lia | cbn [length]; lia |].
      exists pg3, log'. split; [exact Hr3 | split; [exact Hid |]]. rewrite Hpic, <- app_assoc. done.
    + subst pg2. change (drop (Z.to_nat 1) (p :: ?l)) with l. rewrite run_begin.
      destruct (end_block m log (rs ++ [range_of p]) false pg1 Hb1) as (pg2 & -> & Hid); [by destruct rs | lia |].
      cbn [mbind outcome_bind]. rewrite run_begin.
      destruct (begin_block m _ pg2 Hid Hm) as (pg3 & -> & Hb3). cbn [mbind outcome_bind].
      destruct (IH fuel q _ [] false pg3 Hb3) as (pg4 & log' & Hr4 & Hid4 & Hpic); [by right | done | cbn [length]; lia |].
      exists pg4, log'. split; [exact Hr4 | split; [exact Hid4 |]].
      rewrite Hpic, picture_app, picture_one, <- app_assoc, <- fmap_app, <- app_assoc. done.
Qed.

(** The same draws, one block at a time. *)
Lemma run_blocks m ps : 1 <= m <= NV097_SET_BEGIN_END_OP_POLYGON -> forall log pg, idle log pg ->
  exists pg' log', mfor ps (fun p pg => pg ← SET_BEGIN_END pg m; pg ← DRAW_ARRAYS pg p;
      SET_BEGIN_END pg NV097_SET_BEGIN_END_OP_END) pg = Ok pg' /\ idle log' pg' /\
    picture log' = picture log ++ ((fun r => (m, r)) <$> (range_of <$> ps)).
Proof.
  intros Hm. induction ps as [|p ps IH]; intros log pg Hid; cbn [mfor].
  - exists pg, log. by rewrite app_nil_r.
  - destruct (begin_block m log pg Hid Hm) as (pg1 & -> & Hb1). cbn [mbind outcome_bind].
    destruct (draw_block m log [] false p pg1 Hb1) as (pg2 & -> & Hb2); [by right | done |]. cbn [mbind outcome_bind].
    destruct (end_block m log _ false pg2 Hb2) as (pg3 & -> & Hid3); [done | lia |]. cbn [mbind outcome_bind].
    destruct (IH _ pg3 Hid3) as (pg4 & log' & Hr & Hid4 & Hpic). exists pg4, log'. split; [exact Hr | split; [exact Hid4 |]].
    by rewrite Hpic, picture_app, picture_one, <- app_assoc.
Qed.

(** C18: Squashing does not change what is drawn. The words of any number of blocks
    BEGIN, DRAW_ARRAYS, END in one mode, of which the engine looks ahead and leaves
    out END and BEGIN as long as the array of ranges has room, give the renderer the
    same ranges, in the same order and unjoined, as the blocks one at a time. *)
Theorem squash_transparent pg m ps fuel :
  idle (drawn pg) pg -> 1 <= m <= NV097_SET_BEGIN_END_OP_POLYGON -> (3 * length ps <= fuel)%nat ->
  exists pg1 pg2, run_words (S fuel) pg (stream m ps) = Ok pg1 /\
    mfor ps (fun p pg => pg ← SET_BEGIN_END pg m; pg ← DRAW_ARRAYS pg p;
      SET_BEGIN_END pg NV097_SET_BEGIN_END_OP_END) pg = Ok pg2 /\
    picture (drawn pg1) = picture (drawn pg) ++ ((fun p => (m, range_of p)) <$> ps) /\
    picture (drawn pg1) = picture (drawn pg2).
Proof.
  intros Hid Hm Hf. destruct (run_blocks m ps Hm _ pg Hid) as (pg2 & log2 & Hr2 & (_ & Hl2 & _) & Hp2).
  rewrite <- list_fmap_compose in Hp2. destruct ps as [|p ps].
  - exists pg, pg2. injection Hr2 as <-. split; [done | split; [done | split; [by rewrite app_nil_r | done]]].
  - cbn [stream]. rewrite run_begin. destruct (begin_block m _ pg Hid Hm) as (pg0 & -> & Hb). cbn [mbind outcome_bind].
    destruct (run_squashed m ps Hm fuel p _ [] false pg0 Hb) as (pg1 & log1 & Hr1 & (_ & Hl1 & _) & Hp1); [by right | done | done |].
    exists pg1, pg2. split; [exact Hr1 | split; [exact Hr2 |]]. rewrite app_nil_l, <- list_fmap_compose in Hp1.
    rewrite Hl1, Hl2, Hp1, Hp2. done.
Qed.

(** ** Packets *)

#[export] Instance vertex_data_eq_dec : EqDecision vertex_data.
Proof. solve_decision. Defined.
#[export] Instance handler_eq_dec : EqDecision handler.
Proof. solve_decision. Defined.
#[export] Instance taking_eq_dec : EqDecision taking.
Proof. solve_decision. Defined.
#[export] Instance method_entry_eq_dec : EqDecision method_entry.
Proof. solve_decision. Defined.

(** The method of the next words. *)
Definition advance (method n : Z) (inc : bool) : Z := if inc then method + 4 * n else method.

(** A packet as the command FIFO hands it over, with the words behind it in [rest]. *)
Fixpoint run_packet (fuel : nat) pg (method : Z) (words rest : list Z) (inc : bool) : outcome PGRAPHState :=
  match words with
  | [] => Ok pg
  | _ :: _ =>
      match fuel, vertex_method method with
      | O, _ => NoFuel
      | S _, None => AssertFail
      | S fuel, Some e =>
          '(pg, n) ← pgraph_method e pg method (words ++ rest) (zlen words) (zlen words + zlen rest) inc;
          run_packet fuel pg (advance method n inc) (drop (Z.to_nat n) words) rest inc
      end
  end.

(** The words of a packet, each on its own. *)
Fixpoint each_word pg (method : Z) (words : list Z) (inc : bool) : outcome PGRAPHState :=
  match words with
  | [] => Ok pg
  | w :: words =>
      match vertex_method method with
      | Some e => pg ← call e pg method w; each_word pg (advance method 1 inc) words inc
      | None => AssertFail
      end
  end.

Lemma advance_add method a b inc : advance (advance method a inc) b inc = advance method (a + b) inc.
Proof. unfold advance. destruct inc; lia. Qed.

Lemma each_word_app pg method l1 l2 inc : each_word pg method (l1 ++ l2) inc =
  (pg ← each_word pg method l1 inc; each_word pg (advance method (zlen l1) inc) l2 inc).
Proof.
  revert pg method. induction l1 as [|w l1 IH]; intros pg method.
  - cbn. f_equal. unfold advance. destruct inc; lia.
  - cbn [app each_word]. destruct (vertex_method method) as [e|]; [|done]. destruct (call e pg method w) as [pg'| | |]; [|done..].
    cbn [mbind outcome_bind]. rewrite IH. destruct (each_word pg' _ l1 inc); [|done..]. cbn [mbind outcome_bind].
    rewrite advance_add. do 2 f_equal. cbn [length]. lia.
Qed.

(** A method of an entry's range is found there. *)
Lemma vertex_method_slot e s : In e (submit_methods ++ attribute_methods) -> 0 <= s < m_range e ->
  vertex_method (m_base e + 4 * s) = Some e.
Proof.
  assert (H : Forall (fun e => Forall (fun s => vertex_method (m_base e + 4 * s) = Some e) (seqZ 0 (m_range e)))
    (submit_methods ++ attribute_methods)) by (apply (bool_decide_unpack _); vm_compute; exact I).
  intros He Hs. rewrite List.Forall_forall in H. specialize (H e He). rewrite Forall_forall in H.
  apply H, elem_of_seqZ. lia.
Qed.

Lemma vertex_method_in method e : vertex_method method = Some e ->
  In e (submit_methods ++ attribute_methods) /\ m_base e <= method < m_base e + 4 * m_range e /\ m_base e mod 4 = 0.
Proof.
  intros H. apply List.find_some in H as [Hin Hc]. unfold covers in Hc. apply andb_true_iff in Hc as [?%Z.leb_le ?%Z.ltb_lt].
  split; [done | split; [lia |]].
  assert (Hal : Forall (fun e => m_base e mod 4 = 0) (submit_methods ++ attribute_methods))
    by (apply (bool_decide_unpack _); vm_compute; exact I).
  rewrite List.Forall_forall in Hal. by apply Hal.
Qed.

(** The words that one call consumes are handled as if each came on its own. *)
Lemma loop_each e pg method words rest inc n : 0 <= n <= zlen words ->
  (forall i, 0 <= i < n -> vertex_method (advance method i inc) = Some e) ->
  mfor (seqZ 0 n) (fun i pg => parameter ← rd (words ++ rest) i; call e pg (advance method i inc) parameter) pg =
  each_word pg method (take (Z.to_nat n) words) inc.
Proof.
  intros Hn He. rewrite <- (Z2Nat.id n) in * by lia. generalize dependent (Z.to_nat n). clear n. intros n Hn He.
  rewrite Nat2Z.id. induction n as [|n IH]; [done |].
  destruct (lookup_lt_is_Some_2 words n) as [w Hw]; [lia |].
  rewrite seqZ_snoc, mfor_app, (take_S_r words n w Hw), each_word_app by lia.
  replace (Z.of_nat (S n) - 1) with (Z.of_nat n) by lia. rewrite IH; [| lia | intros i Hi; apply He; lia].
  destruct (each_word pg method (take n words) inc) as [pg'| | |]; [|done..]. cbn [mbind outcome_bind mfor].
  rewrite rd_nthZ by (rewrite length_app; lia). cbn [mbind outcome_bind].
  assert (Hnth : nthZ (words ++ rest) (Z.of_nat n) = w).
  { pose proof (lookup_nthZ (words ++ rest) (Z.of_nat n)) as Hl. rewrite Nat2Z.id, lookup_app_l in Hl by lia.
    rewrite Hw in Hl. injection Hl as ->; [done |]. rewrite length_app. lia. }
  rewrite Hnth, length_take, Nat.min_l by lia. cbn [each_word]. rewrite He by lia. done.
Qed.

Lemma pgraph_method_each e pg method words rest inc : words <> [] -> method mod 4 = 0 ->
  vertex_method method = Some e -> method <> NV097_DRAW_ARRAYS ->
  exists n, 1 <= n <= zlen words /\
    pgraph_method e pg method (words ++ rest) (zlen words) (zlen words + zlen rest) inc =
      (pg ← each_word pg method (take (Z.to_nat n) words) inc; Ok (pg, n)).
Proof.
  intros Hne Hal He Hda. destruct words as [|w words]; [done |].
  destruct (vertex_method_in method e He) as (Hin & Hr & Hbase).
  assert (Hsq : forall pg n, squash pg method ((w :: words) ++ rest) (zlen (w :: words) + zlen rest) n = (pg, n))
    by (intros pg' n; unfold squash; by rewrite (proj2 (Z.eqb_neq _ _) Hda)).
  assert (Hone : (pg ← (parameter ← rd ((w :: words) ++ rest) 0; pg ← call e pg method parameter; Ok (pg, 1));
      let '(pg, n) := pg in Ok (squash pg method ((w :: words) ++ rest) (zlen (w :: words) + zlen rest) n)) =
    (pg ← each_word pg method (take (Z.to_nat 1) (w :: words)) inc; Ok (pg, 1))).
  { change (rd ((w :: words) ++ rest) 0) with (Ok w). change (take (Z.to_nat 1) (w :: words)) with [w].
    cbn [each_word mbind outcome_bind]. rewrite He. destruct (call e pg method w); [|done..]. cbn [mbind outcome_bind]. by rewrite Hsq. }
  assert (Hloop : forall n, 1 <= n <= zlen (w :: words) ->
      (forall i, 0 <= i < n -> vertex_method (advance method i inc) = Some e) ->
      (pg ← (pg ← mfor (seqZ 0 n) (fun i pg => parameter ← rd ((w :: words) ++ rest) i; call e pg (advance method i inc) parameter) pg;
             Ok (pg, n));
       let '(pg, n) := pg in Ok (squash pg method ((w :: words) ++ rest) (zlen (w :: words) + zlen rest) n)) =
      (pg ← each_word pg method (take (Z.to_nat n) (w :: words)) inc; Ok (pg, n))).
  { intros n Hn Hv. rewrite loop_each by (done || lia). destruct (each_word pg method (take (Z.to_nat n) (w :: words)) inc); [|reflexivity..]. cbn [mbind outcome_bind]. by rewrite Hsq. }
  unfold pgraph_method, pgraph_method_inc, pgraph_method_non_inc. destruct (m_taking e), inc; cbn [negb].
  - exists 1. split; [cbn; lia | exact Hone].
  - exists 1. split; [cbn; lia | exact Hone].
  - exists (Z.min (zlen (w :: words)) ((m_base e + 4 * m_range e - method) / 4)).
    apply Z.mod_divide in Hal as [q Hq]; [|done]. apply Z.mod_divide in Hbase as [b Hb]; [|done].
    assert (Hdiv : (m_base e + 4 * m_range e - method) / 4 = b + m_range e - q)
      by (symmetry; apply Z.div_unique_exact; lia). rewrite Hdiv.
    split; [cbn [length]; lia |]. apply Hloop; [cbn [length]; lia |]. intros i Hi. unfold advance.
    replace (method + 4 * i) with (m_base e + 4 * (q - b + i)) by lia.
    apply vertex_method_slot; [done |]. lia.
  - exists 1. split; [cbn; lia | exact Hone].
  - exists 1. split; [cbn; lia | exact Hone].
  - exists (zlen (w :: words)). split; [cbn [length]; lia |]. apply Hloop; [cbn [length]; lia |]. done.
Qed.

(** C19: Batching does not change what a packet does. The engine takes all words of a
    range, or all words for one method, in a single call; for every packet of vertex
    methods other than DRAW_ARRAYS, whatever words follow it, the calls together do
    what the methods do with one word at a time, errors included, and they consume
    the packet. *)
Theorem packet_word_by_word pg method words rest inc fuel :
  method mod 4 = 0 -> (length words <= fuel)%nat ->
  (forall i, 0 <= i < zlen words -> advance method i inc <> NV097_DRAW_ARRAYS) ->
  run_packet fuel pg method words rest inc = each_word pg method words inc.
Proof.
  revert pg method words. induction fuel as [|fuel IH]; intros pg method words Hal Hf Hda.
  - by destruct words; [| cbn in Hf; lia].
  - destruct words as [|w words]; [done |]. cbn [run_packet]. destruct (vertex_method method) as [e|] eqn:He; [| cbn [each_word]; by rewrite He].
    destruct (pgraph_method_each e pg method (w :: words) rest inc) as (n & Hn & ->); [done | done | done | |].
    { specialize (Hda 0). unfold advance in Hda. destruct inc; [rewrite Z.add_0_r in Hda |]; apply Hda; cbn; lia. }
    transitivity (each_word pg method (take (Z.to_nat n) (w :: words) ++ drop (Z.to_nat n) (w :: words)) inc); [| by rewrite take_drop].
    rewrite each_word_app.
    destruct (each_word pg method (take (Z.to_nat n) (w :: words)) inc) as [pg'| | |]; [|done..]. cbn [mbind outcome_bind].
    replace (zlen (take (Z.to_nat n) (w :: words))) with n by (rewrite length_take; lia).
    apply IH.
    + unfold advance. destruct inc; [|done]. by rewrite Z.mul_comm, Z.mod_add.
    + rewrite length_drop. cbn [length] in *. lia.
    + intros i Hi. rewrite advance_add. apply Hda. rewrite length_drop in Hi. lia.
Qed.

(** ** Vertices *)

(** What an attribute method assigns: an attribute, the components and their values,
    and whether the vertex is then complete. *)
Definition assigns (h : handler) (slot p : Z) : option (Z * list (Z * fval) * bool) :=
  match h with
  | H_VERTEX3F => Some (0, [(slot, Bits p); (3, one)], slot =? 2)
  | H_VERTEX4F => Some (0, [(slot, Bits p)], slot =? 3)
  | H_FOG_COORD => Some (5, [(0, Bits p); (1, Bits p); (2, Bits p); (3, Bits p)], false)
  | H_WEIGHT1F => Some (1, [(0, Bits p); (1, zero); (2, zero); (3, one)], false)
  | H_WEIGHT2F => Some (1, [(slot, Bits p); (2, zero); (3, one)], false)
  | H_WEIGHT3F => Some (1, [(slot, Bits p); (3, one)], false)
  | H_NORMAL3S => Some (2, [(slot mod 2 * 2 + 0, Of32767 (low16 p)); (slot mod 2 * 2 + 1, Of32767 (high16 p))], false)
  | H_4S a => Some (a, [(slot mod 2 * 2 + 0, OfInt (low16 p)); (slot mod 2 * 2 + 1, OfInt (high16 p))], false)
  | H_2S a => Some (a, [(0, OfInt (low16 p)); (1, OfInt (high16 p)); (2, zero); (3, one)], false)
  | H_COLOR_3F a => Some (a, [(slot, Bits p); (3, one)], false)
  | H_F a => Some (a, [(slot, Bits p)], false)
  | H_2F a => Some (a, [(slot, Bits p); (2, zero); (3, one)], false)
  | H_4UB a => Some (a, bytes255 p, false)
  | H_DATA DATA2F_M => Some (slot / 2, [(slot mod 2, Bits p); (2, zero); (3, one)], slot =? 1)
  | H_DATA DATA4F_M => Some (slot / 4, [(slot mod 4, Bits p)], slot =? 3)
  | H_DATA DATA2S => Some (slot, [(0, OfInt (low16 p)); (1, OfInt (high16 p)); (2, zero); (3, one)], slot =? 0)
  | H_DATA DATA4UB => Some (slot, bytes255 p, slot =? 0)
  | H_DATA DATA4S_M => Some (slot / 2, [(slot mod 2 * 2, OfInt (low16 p)); (slot mod 2 * 2 + 1, OfInt (high16 p))], slot =? 1)
  | _ => None
  end.

(** The machine that records all attributes of every vertex: the current values, and
    the vertices so far. *)
Definition machine : Type := list vec * list (list vec).

Definition assign (cur : list vec) (attr : Z) (l : list (Z * fval)) : list vec :=
  alter (fun v => foldl (fun v x => <[Z.to_nat x.1 := x.2]> v) v l) (Z.to_nat attr) cur.

Definition eager (s : machine) (c : Z * Z) : machine :=
  match vertex_method c.1 with
  | Some e =>
      match assigns (m_handler e) ((c.1 - m_base e) / 4) c.2 with
      | Some (attr, l, complete) =>
          let cur := assign s.1 attr l in (cur, if complete : bool then s.2 ++ [cur] else s.2)
      | None => s
      end
  | None => s
  end.

(** A method of the tables with one word. *)
Definition call_method (c : Z * Z) pg : outcome PGRAPHState :=
  match vertex_method c.1 with
  | Some e => call e pg c.1 c.2
  | None => AssertFail
  end.

Definition sets_attribute (c : Z * Z) : bool := existsb (covers c.1) attribute_methods && (c.1 mod 4 =? 0).

(** The values that are kept for vertex [j], and those that the renderer gets. *)
Definition value_at (j : Z) (a : VertexAttribute) : vec :=
  if inline_buffer_populated a then default [] (inline_buffer a !! j) else inline_value a.

Definition current pg : list vec := inline_value <$> vertex_attributes pg.

Definition vertices pg : list (list vec) := (fun j => value_at j <$> vertex_attributes pg) <$> seqZ 0 (inline_buffer_length pg).

Definition vertices_drawn (x : drawing) : list (list vec) :=
  match x with
  | DrawBuffer n attrs =>
      (fun j => (fun a => match a with inl b => default [] (b !! j) | inr v => v end) <$> attrs) <$> seqZ 0 n
  | _ => []
  end.

(** Attributes of four components. *)
Record attributes_ok pg : Prop := {
  at_count : zlen (vertex_attributes pg) = NV2A_VERTEXSHADER_ATTRIBUTES;
  at_size : Forall (fun a => zlen (inline_value a) = 4) (vertex_attributes pg);
  at_length : 0 <= inline_buffer_length pg
}.

(** The rest of the state is the same. *)
Record same_rest pg pg' : Prop := {
  sr_mode : primitive_mode pg' = primitive_mode pg;
  sr_log : drawn pg' = drawn pg;
  sr_ranges : draw_arrays pg' = draw_arrays pg;
  sr_elements : inline_elements pg' = inline_elements pg;
  sr_array : inline_array pg' = inline_array pg;
  sr_draws : bound pg' = bound pg /\ nop_draw pg' = nop_draw pg
}.

Lemma same_rest_trans pg1 pg2 pg3 : same_rest pg1 pg2 -> same_rest pg2 pg3 -> same_rest pg1 pg3.
Proof. intros [? ? ? ? ? []] [? ? ? ? ? []]. split; try congruence. split; congruence. Qed.

Lemma lookup_fill n x b j : 0 <= j < n -> fill n x b !! j = Some x.
Proof.
  intros Hj. unfold fill. assert (Hin : j ∈ seqZ 0 n) by (apply elem_of_seqZ; lia). clear Hj.
  induction (seqZ 0 n) as [|i l IH]; [by apply not_elem_of_nil in Hin |]. cbn.
  destruct (decide (i = j)) as [->|Hne]; [apply lookup_insert_eq |]. rewrite lookup_insert_ne by done.
  apply IH. apply elem_of_cons in Hin as [->|]; done.
Qed.

Lemma set_components_ok v l : Forall (fun x => 0 <= x.1 < zlen v) l ->
  set_components v l = Ok (foldl (fun v x => <[Z.to_nat x.1 := x.2]> v) v l) /\
  zlen (foldl (fun v x => <[Z.to_nat x.1 := x.2]> v) v l) = zlen v.
Proof.
  unfold set_components. revert v. induction l as [|x l IH]; intros v Hl; [done |]. inversion Hl as [|? ? Hx Hl']; subst.
  cbn [mfor foldl]. rewrite wr_ok by done. cbn [mbind outcome_bind].
  destruct (IH (<[Z.to_nat x.1 := x.2]> v)) as [H1 H2]; [by rewrite length_insert |]. rewrite H1, H2, length_insert. done.
Qed.

(** An attribute that is about to change has its old value kept for the vertices so far. *)
Lemma allocate_ok pg attr a v : rd (vertex_attributes pg) attr = Ok a -> vertex_attributes pg !! Z.to_nat attr = Some a ->
  exists a', pgraph_allocate_inline_buffer_vertices pg attr =
      Ok (pg <| vertex_attributes := <[Z.to_nat attr := a']> (vertex_attributes pg) |>) /\
    inline_value a' = inline_value a /\
    forall j, 0 <= j < inline_buffer_length pg -> value_at j (a' <| inline_value := v |>) = value_at j a.
Proof.
  intros Hrd Ha. unfold pgraph_allocate_inline_buffer_vertices. rewrite Hrd. cbn [mbind outcome_bind].
  assert (Hid : pg = pg <| vertex_attributes := <[Z.to_nat attr := a]> (vertex_attributes pg) |>)
    by (rewrite list_insert_id by done; by destruct pg).
  destruct (inline_buffer_populated a) eqn:Hp; cbn [orb].
  - exists a. split; [by f_equal | split; [done |]]. intros j _. unfold value_at. cbn. by rewrite Hp.
  - destruct (Z.eqb_spec (inline_buffer_length pg) 0) as [Hn0|Hn0].
    + exists a. split; [by f_equal | split; [done |]]. intros; lia.
    + apply lookup_lt_Some in Ha. rewrite wr_ok.
      * cbn [mbind outcome_bind]. eexists. split; [reflexivity | split; [done |]].
        intros j Hj. unfold value_at. cbn. by rewrite Hp, lookup_fill.
      * unfold rd in Hrd. destruct (Z.ltb_spec attr 0); [done | lia].
Qed.

(** A change of one attribute's value leaves the vertices as they are. *)
Lemma set_attribute_ok pg attr l : attributes_ok pg -> 0 <= attr < NV2A_VERTEXSHADER_ATTRIBUTES ->
  Forall (fun x : Z * fval => 0 <= x.1 < 4) l ->
  exists pg', set_attribute pg attr l = Ok pg' /\ attributes_ok pg' /\ same_rest pg pg' /\
    inline_buffer_length pg' = inline_buffer_length pg /\
    current pg' = assign (current pg) attr l /\ vertices pg' = vertices pg.
Proof.
  intros [Hc Hs Hn] Hattr Hl. destruct (rd_ok (vertex_attributes pg) attr) as (a & Hrd & Ha); [by rewrite Hc |].
  assert (Hsz : zlen (inline_value a) = 4) by (by eapply Forall_lookup_1 in Hs).
  destruct (set_components_ok (inline_value a) l) as [Hset Hsize]; [by rewrite Hsz |].
  destruct (allocate_ok pg attr a (foldl (fun v x => <[Z.to_nat x.1 := x.2]> v) (inline_value a) l) Hrd Ha) as (a' & Hall & Hv & Hat).
  set (v := foldl _ _ l) in *. unfold set_attribute. rewrite Hall. cbn [mbind outcome_bind].
  set (attrs := vertex_attributes pg) in *. change (vertex_attributes (pg <| vertex_attributes := ?x |>)) with x.
  assert (Hlt : (Z.to_nat attr < length attrs)%nat) by lia.
  unfold rd. rewrite (proj2 (Z.ltb_ge attr 0)), list_lookup_insert_eq by lia. cbn [mbind outcome_bind].
  rewrite Hv, Hset. cbn [mbind outcome_bind]. rewrite wr_ok, list_insert_insert_eq by (rewrite length_insert; lia).
  cbn [mbind outcome_bind]. eexists; split; [reflexivity |]. split; [| split; [by split | split; [done | split]]].
  - split; [cbn; by rewrite length_insert | | done]. cbn. apply Forall_insert; [done |]. cbn. by rewrite Hsize.
  - unfold current, assign. cbn. fold attrs. rewrite list_fmap_insert. cbn. apply list_eq. intros i.
    destruct (decide (i = Z.to_nat attr)) as [->|Hne].
    + rewrite list_lookup_insert_eq, list_lookup_alter_eq, list_lookup_fmap, Ha by (by rewrite length_fmap). done.
    + by rewrite list_lookup_insert_ne, list_lookup_alter_ne by done.
  - unfold vertices. cbn. fold attrs. apply list_fmap_ext. intros k j Hj%list_elem_of_lookup_2%elem_of_seqZ.
    rewrite list_fmap_insert, Hat by lia. apply list_insert_id. by rewrite list_lookup_fmap, Ha.
Qed.

(** The end of a vertex appends the current values. *)
Lemma finish_ok pg : attributes_ok pg -> inline_buffer_length pg < NV2A_MAX_BATCH_LENGTH ->
  exists pg', pgraph_finish_inline_buffer_vertex pg = Ok pg' /\ attributes_ok pg' /\ same_rest pg pg' /\
    inline_buffer_length pg' = inline_buffer_length pg + 1 /\
    current pg' = current pg /\ vertices pg' = vertices pg ++ [current pg].
Proof.
  intros [Hc Hs Hn] Hlt. unfold pgraph_finish_inline_buffer_vertex. rewrite c_assert_true by (by apply Z.ltb_lt).
  set (record := fun a => if inline_buffer_populated a then _ else a).
  assert (Hval : forall a, inline_value (record a) = inline_value a) by (intros a; unfold record; by destruct (inline_buffer_populated a)).
  cbn [mbind outcome_bind]. eexists; split; [reflexivity |]. split; [| split; [by split | split; [done | split]]].
  - split; [cbn; by rewrite length_fmap | | cbn; lia]. cbn. apply Forall_fmap. eapply Forall_impl; [exact Hs |].
    intros a Hlen. cbn. by rewrite Hval.
  - unfold current. cbn. rewrite <- list_fmap_compose. apply list_fmap_ext. intros ? a _. apply Hval.
  - unfold vertices, current. cbn. rewrite seqZ_snoc by lia. rewrite fmap_app, Z.add_simpl_r. f_equal.
    + apply list_fmap_ext. intros k j Hj%list_elem_of_lookup_2%elem_of_seqZ. rewrite <- list_fmap_compose. apply list_fmap_ext.
      intros i a _. cbn. unfold value_at, record. destruct (inline_buffer_populated a) eqn:E; cbn; rewrite E; [|done].
      rewrite lookup_insert_ne by lia. done.
    + cbn. f_equal. rewrite <- list_fmap_compose. apply list_fmap_ext. intros i a _. cbn. unfold value_at, record.
      destruct (inline_buffer_populated a) eqn:E; cbn; rewrite E; [|done]. by rewrite lookup_insert_eq.
Qed.

(** Attributes and components of the methods are in range. *)
Definition assigns_in_range (p : Z) (e : method_entry) (slot : Z) : bool :=
  match assigns (m_handler e) slot p with
  | Some (attr, l, _) => (0 <=? attr) && (attr <? NV2A_VERTEXSHADER_ATTRIBUTES) && forallb (fun x => (0 <=? x.1) && (x.1 <? 4)) l
  | None => false
  end.

Lemma attribute_methods_in_range p e slot : In e attribute_methods -> 0 <= slot < m_range e ->
  exists attr l complete, assigns (m_handler e) slot p = Some (attr, l, complete) /\
    0 <= attr < NV2A_VERTEXSHADER_ATTRIBUTES /\ Forall (fun x => 0 <= x.1 < 4) l.
Proof.
  assert (H : forallb (fun e => forallb (assigns_in_range p e) (seqZ 0 (m_range e))) attribute_methods = true)
    by (vm_compute; reflexivity).
  intros He Hs. rewrite forallb_forall in H. specialize (H e He). rewrite forallb_forall in H.
  specialize (H slot). unfold assigns_in_range in H. destruct (assigns (m_handler e) slot p) as [[[attr l] complete]|].
  - exists attr, l, complete. apply andb_true_iff in H as [[?%Z.leb_le ?%Z.ltb_lt]%andb_true_iff Hl].
    + split; [done | split; [done |]]. apply List.Forall_forall. intros x Hx. rewrite forallb_forall in Hl.
      specialize (Hl x Hx). apply andb_true_iff in Hl as [?%Z.leb_le ?%Z.ltb_lt]. done.
    + apply list_elem_of_In, elem_of_seqZ. lia.
  - discriminate H. apply list_elem_of_In, elem_of_seqZ. lia.
Qed.

Lemma handle_assigns h pg slot p attr l complete : 0 <= slot -> assigns h slot p = Some (attr, l, complete) ->
  handle h pg slot p = (pg ← set_attribute pg attr l; if complete then pgraph_finish_inline_buffer_vertex pg else Ok pg).
Proof.
  assert (Hret : forall m : outcome PGRAPHState, m = (pg ← m; Ok pg)) by (by intros []).
  assert (Hlast : forall n, 0 < n -> 0 <= slot -> (slot / n =? 0) && (slot mod n =? n - 1) = (slot =? n - 1)).
  { intros n Hn Hs. apply Bool.eq_iff_eq_true. rewrite andb_true_iff, !Z.eqb_eq. split.
    - intros [Hd Hm]. pose proof (Z.div_mod slot n). lia.
    - intros ->. rewrite Z.div_small, Z.mod_small by lia. done. }
  intros Hs Ha. destruct h as [| | | | | | | | | | | | | m | | | | |]; cbn [assigns] in Ha; try discriminate Ha;
    [injection Ha as <- <- <-; cbn [handle]; try apply Hret; done .. |].
  destruct m; injection Ha as <- <- <-; cbn [handle SET_VERTEX_DATA]; unfold SET_VERTEX_DATA.
  - by rewrite (Hlast 2).
  - by rewrite (Hlast 4).
  - by rewrite (Hlast 1), Z.div_1_r.
  - by rewrite (Hlast 1), Z.div_1_r.
  - by rewrite (Hlast 2).
Qed.

(** One method does to the vertices what it does in the machine. *)
Lemma call_refines c pg vs : sets_attribute c = true -> attributes_ok pg -> vertices pg = vs ->
  zlen (eager (current pg, vs) c).2 <= NV2A_MAX_BATCH_LENGTH ->
  exists pg', call_method c pg = Ok pg' /\ attributes_ok pg' /\ same_rest pg pg' /\
    eager (current pg, vs) c = (current pg', vertices pg').
Proof.
  destruct c as [method p]. intros Hc Hok Hvs Hlen. unfold sets_attribute in Hc. cbn [fst] in Hc.
  apply andb_true_iff in Hc as [(e & Hin & Hcov)%existsb_exists Hal%Z.eqb_eq]. unfold covers in Hcov.
  apply andb_true_iff in Hcov as [?%Z.leb_le ?%Z.ltb_lt].
  assert (Hbase : m_base e mod 4 = 0).
  { assert (Hall : Forall (fun e => m_base e mod 4 = 0) attribute_methods) by (apply (bool_decide_unpack _); vm_compute; exact I).
    rewrite List.Forall_forall in Hall. by apply Hall. }
  apply Z.mod_divide in Hal as [q Hq]; [|done]. apply Z.mod_divide in Hbase as [b Hb]; [|done].
  assert (Hslot : (method - m_base e) / 4 = q - b) by (symmetry; apply Z.div_unique_exact; lia).
  assert (Hvm : vertex_method method = Some e).
  { replace method with (m_base e + 4 * (q - b)) by lia. apply vertex_method_slot; [apply in_or_app; by right | lia]. }
  destruct (attribute_methods_in_range p e (q - b) Hin) as (attr & l & complete & Has & Hattr & Hl); [lia |].
  unfold call_method, call, eager in *. cbn [fst snd] in *. rewrite Hvm, Hslot in *. rewrite Has in *.
  rewrite (handle_assigns _ _ _ _ attr l complete) by (done || lia).
  destruct (set_attribute_ok pg attr l Hok Hattr Hl) as (pg1 & -> & Hok1 & Hsr1 & Hn1 & Hcur1 & Hvs1). cbn [mbind outcome_bind].
  rewrite <- Hcur1, <- Hvs, <- Hvs1 in *. destruct complete; [| by exists pg1].
  assert (Hroom : inline_buffer_length pg1 < NV2A_MAX_BATCH_LENGTH).
  { destruct Hok1 as [_ _ Hn]. cbn [snd] in Hlen. rewrite length_app in Hlen. unfold vertices in Hlen. rewrite length_fmap, length_seqZ in Hlen. cbn in Hlen. lia. }
  destruct (finish_ok pg1 Hok1 Hroom) as (pg2 & -> & Hok2 & Hsr2 & _ & Hcur2 & Hvs2). exists pg2.
  split; [done | split; [done | split; [by eapply same_rest_trans | by rewrite Hcur2, Hvs2]]].
Qed.

Lemma eager_grows s c : exists l, (eager s c).2 = s.2 ++ l.
Proof.
  assert (H0 : exists l, s.2 = s.2 ++ l) by (exists []; by rewrite app_nil_r). unfold eager.
  destruct (vertex_method c.1) as [e|]; [|done]. destruct (assigns _ _ _) as [[[attr l] complete]|]; [|done].
  destruct complete; cbn; [by eexists | done].
Qed.

Lemma eager_grows_all s calls : zlen s.2 <= zlen (foldl eager s calls).2.
Proof.
  revert s. induction calls as [|c calls IH]; intros s; cbn [foldl]; [lia |].
  destruct (eager_grows s c) as [l Hl]. specialize (IH (eager s c)). rewrite Hl, length_app in IH. lia.
Qed.

Lemma calls_refine calls pg : Forall (fun c => sets_attribute c = true) calls -> attributes_ok pg ->
  zlen (foldl eager (current pg, vertices pg) calls).2 <= NV2A_MAX_BATCH_LENGTH ->
  exists pg', mfor calls call_method pg = Ok pg' /\ attributes_ok pg' /\ same_rest pg pg' /\
    foldl eager (current pg, vertices pg) calls = (current pg', vertices pg').
Proof.
  revert pg. induction calls as [|c calls IH]; intros pg Hcalls Hok Hlen; [by exists pg |].
  inversion Hcalls as [|? ? Hc Hcs]; subst. cbn [foldl mfor] in *.
  pose proof (eager_grows_all (eager (current pg, vertices pg) c) calls).
  destruct (call_refines c pg _ Hc Hok eq_refl) as (pg1 & -> & Hok1 & Hsr1 & Heq); [lia |].
  cbn [mbind outcome_bind]. rewrite Heq in *. destruct (IH pg1 Hcs Hok1 Hlen) as (pg2 & Hrun & Hok2 & Hsr2 & Heq2).
  exists pg2. split; [done | split; [done | split; [by eapply same_rest_trans | done]]].
Qed.

(** What the end of a block with vertices draws, and the values that remain. *)
Lemma end_vertices m pg : m <> PRIM_TYPE_INVALID -> primitive_mode pg = m -> bound pg = true -> nop_draw pg = false ->
  draw_arrays pg = [] -> inline_elements pg = [] -> inline_array pg = [] -> 0 <= inline_buffer_length pg ->
  exists pg', SET_BEGIN_END pg NV097_SET_BEGIN_END_OP_END = Ok pg' /\ primitive_mode pg' = PRIM_TYPE_INVALID /\
    if decide (vertices pg = []) then drawn pg' = drawn pg /\ current pg' = current pg
    else exists x, drawn pg' = drawn pg ++ [(m, x)] /\ vertices_drawn x = vertices pg /\ last (vertices pg) = Some (current pg').
Proof.
  intros Hm Hpm Hb Hnop Hda Hel Har Hn. unfold SET_BEGIN_END, draw_end, flush_draw. cbn [Z.eqb].
  rewrite Hpm, (proj2 (Z.eqb_neq m 0) Hm), Hnop, Hb, Hda, Hel, Har. cbn [negb].
  destruct (Z.eqb_spec (inline_buffer_length pg) 0) as [Hn0|Hn0]; cbn [negb].
  - eexists; split; [reflexivity | split; [done |]]. by rewrite decide_True by (unfold vertices; by rewrite Hn0).
  - rewrite c_assert_true by done. cbn [mbind outcome_bind]. eexists; split; [reflexivity | split; [done |]].
    assert (Hsnoc : vertices pg = ((fun j => value_at j <$> vertex_attributes pg) <$> seqZ 0 (inline_buffer_length pg - 1)) ++
      [value_at (inline_buffer_length pg - 1) <$> vertex_attributes pg]) by (unfold vertices; rewrite seqZ_snoc, fmap_app by lia; done).
    rewrite decide_False by (rewrite Hsnoc; apply app_cons_not_nil || (intros E; by apply app_nil in E as [_ ?])).
    eexists; split; [reflexivity | split].
    + unfold vertices_drawn, vertices. apply list_fmap_ext. intros i j _. rewrite <- list_fmap_compose. apply list_fmap_ext.
      intros k a _. cbn. unfold value_at. by destruct (inline_buffer_populated a).
    + rewrite Hsnoc, last_snoc. f_equal. unfold current. cbn. rewrite <- list_fmap_compose. apply list_fmap_ext.
      intros k a _. cbn. unfold value_at, unbind. by destruct (inline_buffer_populated a).
Qed.

(** C6: Vertices built from attribute values are drawn as they were submitted. The code
    gives an attribute a buffer only once it changes within a batch, and then fills in
    its old value for the vertices so far; for every sequence of attribute methods
    between BEGIN and END, with at most NV2A_MAX_BATCH_LENGTH vertices, the methods
    succeed and the renderer gets exactly the vertices, with all their attributes,
    that a machine gets which records the current values at the end of each vertex.
    The values that then remain are those of the last vertex. *)
Theorem immediate_mode pg m calls :
  idle (drawn pg) pg -> attributes_ok pg -> 1 <= m <= NV097_SET_BEGIN_END_OP_POLYGON ->
  Forall (fun c => sets_attribute c = true) calls ->
  let '(cur, vs) := foldl eager (current pg, []) calls in
  zlen vs <= NV2A_MAX_BATCH_LENGTH ->
  exists pg', (pg ← SET_BEGIN_END pg m; pg ← mfor calls call_method pg; SET_BEGIN_END pg NV097_SET_BEGIN_END_OP_END) = Ok pg' /\
    primitive_mode pg' = PRIM_TYPE_INVALID /\
    if decide (vs = []) then drawn pg' = drawn pg /\ current pg' = cur
    else exists x, drawn pg' = drawn pg ++ [(m, x)] /\ vertices_drawn x = vs /\ last vs = Some (current pg').
Proof.
  intros (Hpm & _ & Hb & Hnop) [Hc Hs _] Hm Hcalls. destruct (foldl eager _ calls) as [cur vs] eqn:Hfold. intros Hlen.
  set (pg0 := pgraph_reset_inline_buffers (pg <| primitive_mode := m |>)).
  assert (Hbegin : SET_BEGIN_END pg m = Ok pg0) by by apply begin_ok.
  rewrite Hbegin. cbn [mbind outcome_bind]. change (current pg, []) with (current pg0, vertices pg0) in Hfold.
  destruct (calls_refine calls pg0 Hcalls) as (pg1 & -> & Hok1 & [Hm1 Hl1 Hr1 He1 Ha1 [Hb1 Hn1]] & Heq);
    [by split | by rewrite Hfold |]. cbn [mbind outcome_bind]. rewrite Hfold in Heq. injection Heq as -> ->.
  destruct (end_vertices m pg1) as (pg2 & Hend & Hpm2 & Hdr);
    [lia | by rewrite Hm1 | by rewrite Hb1 | by rewrite Hn1 | by rewrite Hr1 | by rewrite He1 | by rewrite Ha1 | by destruct Hok1 |].
  exists pg2. split; [exact Hend | split; [exact Hpm2 |]]. change (drawn pg) with (drawn pg0). by rewrite <- Hl1.
Qed.

(** ** Executions *)

Definition start_state : PGRAPHState :=
  mkPG PRIM_TYPE_INVALID (replicate 16 (mkAttribute [zero; zero; zero; one] ∅ false)) [] [] 0 [] 0xFFFFFFFF 0 false true false (fun _ _ => None) [].

(** Ranges that join, then indices. *)
Lemma draws_what_is_submitted_witness :
  exists pg' x, (pg ← SET_BEGIN_END start_state 5; pg ← mfor [Arrays 0x02000005; Arrays 0x01000008; Element16 0x00010002] submit pg;
      SET_BEGIN_END pg NV097_SET_BEGIN_END_OP_END) = Ok pg' /\
    drawn pg' = [(5, x)] /\ indices_drawn x = [5; 6; 7; 8; 9; 2; 1] /\ primitive_mode pg' = PRIM_TYPE_INVALID.
Proof.
  apply (draws_what_is_submitted start_state 5 [Arrays 0x02000005; Arrays 0x01000008; Element16 0x00010002]);
    first [done | reflexivity | vm_compute; done | lia].
Defined.

Lemma squash_transparent_witness :
  exists pg1 pg2, run_words 10 start_state (stream 5 [0x02000000; 0x02000003; 0x01000010]) = Ok pg1 /\
    mfor [0x02000000; 0x02000003; 0x01000010] (fun p pg => pg ← SET_BEGIN_END pg 5; pg ← DRAW_ARRAYS pg p;
      SET_BEGIN_END pg NV097_SET_BEGIN_END_OP_END) start_state = Ok pg2 /\
    picture (drawn pg1) = [(5, (0, 3)); (5, (3, 3)); (5, (16, 2))] /\ picture (drawn pg1) = picture (drawn pg2).
Proof.
  apply (squash_transparent start_state 5 [0x02000000; 0x02000003; 0x01000010] 9); [done | done | cbn; lia].
Defined.

(** A packet of nine words over the methods of the diffuse and the specular colour. *)
Lemma packet_word_by_word_witness :
  (fun pg => (current pg !! 3%nat, current pg !! 4%nat)) <$> run_packet 9 start_state 0x1550 [1; 2; 3; 4; 5; 6; 7; 8; 9] [] true =
  Ok (Some [Of255 8; Of255 0; Of255 0; Of255 0], Some [Bits 9; zero; zero; one]).
Proof.
  rewrite (packet_word_by_word start_state 0x1550 [1; 2; 3; 4; 5; 6; 7; 8; 9] [] true 9).
  - vm_compute. done.
  - done.
  - cbn. lia.
  - intros i Hi. unfold advance. cbn in Hi. lia.
Defined.

(** Two vertices; the colour is set before the first, and again between them. *)
Lemma immediate_mode_witness :
  exists pg', (pg ← SET_BEGIN_END start_state 2;
      pg ← mfor [(0x156C, 0xFF0000FF); (0x1900, 0x00020001); (0x156C, 0); (0x1900, 0x00040003)] call_method pg;
      SET_BEGIN_END pg NV097_SET_BEGIN_END_OP_END) = Ok pg' /\ primitive_mode pg' = PRIM_TYPE_INVALID /\
    exists x, drawn pg' = [(2, x)] /\
      (fun v => (v !! 0%nat, v !! 3%nat)) <$> vertices_drawn x =
        [(Some [OfInt 1; OfInt 2; zero; one], Some [Of255 255; Of255 0; Of255 0; Of255 255]);
         (Some [OfInt 3; OfInt 4; zero; one], Some [Of255 0; Of255 0; Of255 0; Of255 0])].
Proof.
  destruct (immediate_mode start_state 2 [(0x156C, 0xFF0000FF); (0x1900, 0x00020001); (0x156C, 0); (0x1900, 0x00040003)])
    as (pg' & Hrun & Hpm & x & Hdr & Hvs & _).
  - done.
  - split; [done | by repeat constructor | done].
  - lia.
  - by repeat constructor.
  - vm_compute. done.
  - exists pg'. split; [exact Hrun | split; [exact Hpm |]]. exists x. split; [exact Hdr |]. rewrite Hvs. vm_compute. done.
Defined.

(** The words of a block that squashing continues, with an index after its range: the
    range is drawn with the ranges before it, and again with the index. *)
Example range_drawn_twice :
  let after := [0x00041808; 9; header NV097_SET_BEGIN_END; 0] in
  let begin := [header NV097_SET_BEGIN_END; 5] in
  let block1 := begin ++ [header NV097_DRAW_ARRAYS; 0x02000000; header NV097_SET_BEGIN_END; 0] in
  let block2 := begin ++ [header NV097_DRAW_ARRAYS; 0x02000003] ++ after in
  drawn <$> run_words 9 start_state (block1 ++ block2) =
    Ok [(5, DrawArrays [(0, 3); (3, 3)]); (5, DrawElements [3; 4; 5; 9])] /\
  drawn <$> (pg ← run_words 9 start_state block1; run_words 9 pg block2) =
    Ok [(5, DrawArrays [(0, 3)]); (5, DrawElements [3; 4; 5; 9])].
Proof. by vm_compute. Qed.

(** Parameters of DRAW_ARRAYS that look like the headers of END and BEGIN are skipped. *)
Example parameters_squashed :
  let words := [0x02000000; NV097_SET_BEGIN_END; 0; NV097_SET_BEGIN_END; 5; NV097_DRAW_ARRAYS; 0x02000003] in
  let pg := start_state <| primitive_mode := 5 |> in
  draw_arrays <$> run_packet 7 pg NV097_DRAW_ARRAYS words [] false = Ok [(0, 3); (NV097_DRAW_ARRAYS, 1); (3, 3)] /\
  draw_arrays <$> each_word pg NV097_DRAW_ARRAYS words false =
    Ok [(0, 3); (NV097_SET_BEGIN_END, 1); (0, 1); (NV097_SET_BEGIN_END, 1); (5, 1); (NV097_DRAW_ARRAYS, 1); (3, 3)].
Proof. by vm_compute. Qed.

(** Two indices in one word overrun the array when there is room for one. *)
Lemma element16_overruns pg p : draw_arrays pg = [] -> zlen (inline_elements pg) = NV2A_MAX_BATCH_LENGTH - 1 ->
  ARRAY_ELEMENT16 pg p = Undef.
Proof.
  intros Hda Hn. unfold ARRAY_ELEMENT16. rewrite Hda. change (zlen (@nil (Z * Z)) =? 0) with true. cbn [mbind outcome_bind].
  rewrite c_assert_true by (apply Z.ltb_lt; lia). rewrite push_fits by lia. cbn [mbind outcome_bind].
  unfold push. rewrite length_app. cbn [length]. by rewrite (proj2 (Z.ltb_ge _ _)) by lia.
Qed.

(** A colour set after the last vertex is lost at the end of the block; set before
    BEGIN or after END it stays. *)
Example late_value_lost :
  let color pg := nth 3 (current pg) [] in
  color <$> (pg ← SET_BEGIN_END start_state 2; pg ← mfor [(0x1900, 0x00020001); (0x156C, 0xFFFFFFFF)] call_method pg;
    SET_BEGIN_END pg NV097_SET_BEGIN_END_OP_END) = Ok [zero; zero; zero; one] /\
  color <$> (pg ← SET_BEGIN_END start_state 2; pg ← mfor [(0x1900, 0x00020001)] call_method pg;
    pg ← SET_BEGIN_END pg NV097_SET_BEGIN_END_OP_END; mfor [(0x156C, 0xFFFFFFFF)] call_method pg) =
    Ok [Of255 255; Of255 255; Of255 255; Of255 255].
Proof. by vm_compute. Qed.
