(* ===== verification/ImageBlit.v ===== *)
(** * Image blits (hw/xbox/nv2a/pgraph/pgraph.c, pgraph/gl/blit.c, gl/surface.c)

    The classes of the graphics engine that copy rectangles in video memory: the state
    that their methods set, the geometry of a blit with its clipping at the tiles of
    the memory controller, the copy and the blend of rows, the patching of alpha, and
    the surfaces of the renderer that a blit has to fetch first or invalidates. The
    way the renderer updates and reads back its surfaces is the class [Renderer]; the
    state, video memory, DMA objects and tiles are those of [Nv2a].

    The theorems say which bytes a blit writes and with which values, that it stays in
    front of the limit of the tile it begins in, and that blending stays between its
    two operands. *)

From stdpp Require Import base gmap numbers list.
From Stdlib Require Import ZArith Lia.
From S2P Require Import Prelude Nv2a.

Abbreviation NV09F_SET_OPERATION_BLEND_AND := 2.
Abbreviation NV09F_SET_OPERATION_SRCCOPY := 3.
Abbreviation NV062_SET_COLOR_FORMAT_LE_Y8 := 0x01.
Abbreviation NV062_SET_COLOR_FORMAT_LE_R5G6B5 := 0x04.
Abbreviation NV062_SET_COLOR_FORMAT_LE_X8R8G8B8_Z8R8G8B8 := 0x06.
Abbreviation NV062_SET_COLOR_FORMAT_LE_X8R8G8B8 := 0x07.
Abbreviation NV062_SET_COLOR_FORMAT_LE_A8R8G8B8 := 0x0A.
Abbreviation NV062_SET_COLOR_FORMAT_LE_Y32 := 0x0B.

(** ** State *)

Implicit Types b : NV2AState.

Definition context_surfaces_2d b : ContextSurfaces2DState := pg_surfaces_2d b.
Definition image_blit b : ImageBlitState := pg_image_blit b.
Definition beta_state b : BetaState := pg_beta b.

Definition vram b : list Z := nv_vram b.
Definition with_vram b (v : list Z) : NV2AState := b <| nv_vram := v |>.

(** The renderer: what it does before a blit to bring its surfaces up to date, and the
    video memory after the pixels of a surface have been read back. *)
Class Renderer := {
  pgraph_gl_surface_update : NV2AState -> NV2AState;
  surface_download_to_buffer : SurfaceBinding -> list Z -> list Z
}.

(** ** Rows *)

Definition blend_byte (beta_mult s d : Z) : Z :=
  let max_beta_mult := 0x7f80 in
  let inv_beta_mult := u32 (max_beta_mult - beta_mult) in
  u8 (u32 (u32 (s * beta_mult) + u32 (d * inv_beta_mult)) / max_beta_mult).

Definition perform_blit (operation : Z) (v : list Z) (source dest width height width_bytes source_pitch dest_pitch : Z)
    (bt : BetaState) : outcome (list Z) :=
  if operation =? NV09F_SET_OPERATION_SRCCOPY then
    mfor (seqZ 0 height) (fun y v =>
      row ← slice v (source + y * source_pitch) width_bytes;
      blit v (dest + y * dest_pitch) row) v
  else if operation =? NV09F_SET_OPERATION_BLEND_AND then
    let beta_mult := beta bt ≫ 16 in
    mfor (seqZ 0 height) (fun y v =>
      let s := source + y * source_pitch in
      let d := dest + y * dest_pitch in
      mfor (seqZ 0 width) (fun x v =>
        mfor (seqZ 0 3) (fun ch v =>
          sv ← rd v (s + x * 4 + ch);
          dv ← rd v (d + x * 4 + ch);
          wr v (d + x * 4 + ch) (blend_byte beta_mult sv dv)) v) v) v
  else AssertFail.

Definition patch_alpha (v : list Z) (dest width_pixels height dest_pitch alpha_val : Z) : outcome (list Z) :=
  mfor (seqZ 0 height) (fun y v =>
    mfor (seqZ 0 width_pixels) (fun x v => wr v (dest + y * dest_pitch + x * 4 + 3) alpha_val) v) v.

(** ** A blit *)

Definition format_bytes (color_format : Z) : outcome Z :=
  if color_format =? NV062_SET_COLOR_FORMAT_LE_Y8 then Ok 1
  else if color_format =? NV062_SET_COLOR_FORMAT_LE_R5G6B5 then Ok 2
  else if (color_format =? NV062_SET_COLOR_FORMAT_LE_A8R8G8B8) || (color_format =? NV062_SET_COLOR_FORMAT_LE_X8R8G8B8) ||
          (color_format =? NV062_SET_COLOR_FORMAT_LE_X8R8G8B8_Z8R8G8B8) || (color_format =? NV062_SET_COLOR_FORMAT_LE_Y32) then Ok 4
  else AssertFail.

Definition format_alpha (color_format : Z) : option Z :=
  if color_format =? NV062_SET_COLOR_FORMAT_LE_X8R8G8B8 then Some 0xff
  else if color_format =? NV062_SET_COLOR_FORMAT_LE_X8R8G8B8_Z8R8G8B8 then Some 0
  else None.

(** What is computed before anything is copied; addresses are offsets in video memory. *)
Record geometry := mkGeometry {
  bytes_per_pixel : Z;
  source_addr : Z;
  dest_addr : Z;
  source_row : Z;
  dest_row : Z;
  row_pixels : Z;
  clipped_dest_size : Z;
  adjusted_height : Z;
  leftover_bytes : Z
}.

Definition blit_geometry b : outcome geometry :=
  let cs := context_surfaces_2d b in
  let ib := image_blit b in
  c_assert (surfaces_instance cs =? context_surfaces ib);;
  bpp ← format_bytes (color_format cs);
  '(source, source_dma_len) ← nv_dma_map b (dma_image_source cs);
  c_assert (source_offset cs <? source_dma_len);;
  let source_addr := source + source_offset cs in
  '(dest, dest_dma_len) ← nv_dma_map b (dma_image_dest cs);
  c_assert (dest_offset cs <? dest_dma_len);;
  let dest_addr := dest + dest_offset cs in
  let source_off := u32 (in_y ib * source_pitch cs + in_x ib * bpp) in
  let dest_off := u32 (out_y ib * dest_pitch cs + out_x ib * bpp) in
  let max_row_pixels := Z.min (source_pitch cs) (dest_pitch cs) / bpp in
  let row_pixels := Z.min max_row_pixels (width ib) in
  let dest_size := u32 ((height ib - 1) * dest_pitch cs + width ib * bpp) in
  let clipped := nv_clip_gpu_tile_blit b (dest_addr + dest_off) dest_size in
  '(adjusted, leftover) ←
    (if clipped <? dest_size then
       if dest_pitch cs =? 0 then Undef
       else Ok (clipped / dest_pitch cs, clipped - clipped / dest_pitch cs * dest_pitch cs)
     else Ok (height ib, 0));
  Ok (mkGeometry bpp source_addr dest_addr (source_addr + source_off) (dest_addr + dest_off) row_pixels clipped adjusted leftover).

Section WithRenderer.
Context `{renderer : !Renderer}.

Definition pgraph_gl_surface_get b (addr : Z) : option (nat * SurfaceBinding) :=
  list_find (fun s => vram_addr s = addr) (surfaces b).

Definition surface_download b (k : nat) (s : SurfaceBinding) (force : bool) : NV2AState :=
  if negb (download_pending s || force) || (surface_width s =? 0) || (surface_height s =? 0) then b
  else (with_vram b (surface_download_to_buffer s (vram b)))
         <| surfaces := <[k := s <| download_pending := false |> <| draw_dirty := false |>]> (surfaces b) |>.

Definition pgraph_gl_surface_download_if_dirty b (k : nat) (s : SurfaceBinding) : NV2AState :=
  if draw_dirty s then surface_download b k s true else b.

(** The surfaces at the two addresses: the source is read back; so is the destination
    unless the blit replaces it, and its pixels are then to be uploaded again. *)
Definition fetch_source b (g : geometry) : NV2AState :=
  match pgraph_gl_surface_get b (source_addr g) with
  | Some (k, s) => pgraph_gl_surface_download_if_dirty b k s
  | None => b
  end.

Definition fetch_dest b (g : geometry) : NV2AState :=
  match pgraph_gl_surface_get b (dest_addr g) with
  | Some (k, s) =>
      let b :=
        if (adjusted_height g <? surface_height s) || (row_pixels g <? surface_width s)
        then pgraph_gl_surface_download_if_dirty b k s
        else b <| surfaces := alter (fun s => s <| download_pending := false |> <| draw_dirty := false |>) k (surfaces b) |> in
      b <| surfaces := alter (fun s => s <| upload_pending := true |>) k (surfaces b) |> <| draw_time := draw_time b + 1 |>
  | None => b
  end.

(** The rows, and the part of a row in front of the limit. *)
Definition copy_rows b (g : geometry) (v : list Z) : outcome (list Z) :=
  let cs := context_surfaces_2d b in
  let op := operation (image_blit b) in
  let sp := source_pitch cs in
  let dp := dest_pitch cs in
  v ← (if 0 <? adjusted_height g then
         perform_blit op v (source_row g) (dest_row g) (row_pixels g) (adjusted_height g) (row_pixels g * bytes_per_pixel g)
           sp dp (beta_state b)
       else Ok v);
  if 0 <? leftover_bytes g then
    perform_blit op v (source_row g + adjusted_height g * sp) (dest_row g + adjusted_height g * dp)
      (leftover_bytes g / bytes_per_pixel g) 1 (leftover_bytes g) sp dp (beta_state b)
  else Ok v.

Definition patch_rows b (g : geometry) (v : list Z) : outcome (list Z) :=
  let cs := context_surfaces_2d b in
  match format_alpha (color_format cs) with
  | Some alpha =>
      v ← (if 0 <? adjusted_height g then patch_alpha v (dest_row g) (row_pixels g) (adjusted_height g) (dest_pitch cs) alpha
           else Ok v);
      if 0 <? leftover_bytes g then
        patch_alpha v (dest_row g + adjusted_height g * dest_pitch cs) (leftover_bytes g / 4) 1 0 alpha
      else Ok v
  | None => Ok v
  end.

Definition pgraph_gl_image_blit b : outcome NV2AState :=
  let b := pgraph_gl_surface_update b in
  g ← blit_geometry b;
  let b := fetch_dest (fetch_source b g) g in
  v ← copy_rows b g (vram b);
  v ← patch_rows b g v;
  Ok (with_vram b v).

(** ** Methods

    What each method stores; an unknown one stores nothing. *)

Definition beta_set (bt : BetaState) (method parameter : Z) : BetaState :=
  if method =? 0 then bt <| beta_instance := parameter |>
  else if method =? 0x300 then bt <| beta := if flag parameter 0x80000000 then 0 else parameter .& 0x7f800000 |>
  else bt.

Definition surfaces_2d_set (cs : ContextSurfaces2DState) (method parameter : Z) : ContextSurfaces2DState :=
  if method =? 0 then cs <| surfaces_instance := parameter |>
  else if method =? 0x184 then cs <| dma_image_source := parameter |>
  else if method =? 0x188 then cs <| dma_image_dest := parameter |>
  else if method =? 0x300 then cs <| color_format := parameter |>
  else if method =? 0x304 then cs <| source_pitch := parameter .& 0xFFFF |> <| dest_pitch := parameter ≫ 16 |>
  else if method =? 0x308 then cs <| source_offset := parameter .& 0x07FFFFFF |>
  else if method =? 0x30C then cs <| dest_offset := parameter .& 0x07FFFFFF |>
  else cs.

Definition image_blit_set (ib : ImageBlitState) (method parameter : Z) : ImageBlitState :=
  if method =? 0 then ib <| blit_instance := parameter |>
  else if method =? 0x19C then ib <| context_surfaces := parameter |>
  else if method =? 0x2FC then ib <| operation := parameter |>
  else if method =? 0x300 then ib <| in_x := parameter .& 0xFFFF |> <| in_y := parameter ≫ 16 |>
  else if method =? 0x304 then ib <| out_x := parameter .& 0xFFFF |> <| out_y := parameter ≫ 16 |>
  else if method =? 0x308 then ib <| width := parameter .& 0xFFFF |> <| height := parameter ≫ 16 |>
  else ib.

Definition beta_method b (method parameter : Z) : NV2AState := b <| pg_beta := beta_set (pg_beta b) method parameter |>.

Definition surfaces_2d_method b (method parameter : Z) : NV2AState :=
  b <| pg_surfaces_2d := surfaces_2d_set (pg_surfaces_2d b) method parameter |>.

(** Setting a size other than zero starts the blit. *)
Definition starts_blit (method : Z) (ib : ImageBlitState) : bool :=
  (method =? 0x308) && negb (width ib =? 0) && negb (height ib =? 0).

Definition image_blit_method b (method parameter : Z) : outcome NV2AState :=
  let b := b <| pg_image_blit := image_blit_set (pg_image_blit b) method parameter |> in
  if starts_blit method (pg_image_blit b) then pgraph_gl_image_blit b else Ok b.

End WithRenderer.

(** ** Which bytes are written *)

(** Byte [i] is one of the [bytes] of a row at [at_]; and where it comes from. *)
Definition in_rows (at_ pitch rows bytes i : Z) : bool :=
  (at_ <=? i) && ((i - at_) / pitch <? rows) && ((i - at_) mod pitch <? bytes).

Definition from_row (src at_ spitch pitch i : Z) : Z := src + (i - at_) / pitch * spitch + (i - at_) mod pitch.

(** The value of byte [k] of a row, from those of the source and the destination. *)
Definition op_byte (op beta_mult k s d : Z) : Z :=
  if op =? NV09F_SET_OPERATION_SRCCOPY then s else if k mod 4 =? 3 then d else blend_byte beta_mult s d.

Lemma in_rows_iff at_ pitch rows bytes i : 0 < pitch -> 0 <= bytes <= pitch ->
  in_rows at_ pitch rows bytes i = true <->
  exists y k, 0 <= y < rows /\ 0 <= k < bytes /\ i = at_ + y * pitch + k /\ (i - at_) / pitch = y /\ (i - at_) mod pitch = k.
Proof.
  intros Hp Hb. unfold in_rows. rewrite !andb_true_iff, Z.leb_le, !Z.ltb_lt. split.
  - intros [[Hi Hy] Hk]. exists ((i - at_) / pitch), ((i - at_) mod pitch).
    pose proof (Z.mod_pos_bound (i - at_) pitch Hp). pose proof (Z.div_pos (i - at_) pitch ltac:(lia) Hp).
    pose proof (Z.div_mod (i - at_) pitch ltac:(lia)). repeat split; lia.
  - intros (y & k & Hy & Hk & Hi & Hd & Hm). nia.
Qed.

Lemma row_offset at_ pitch y k : 0 < pitch -> 0 <= k < pitch ->
  (at_ + y * pitch + k - at_) / pitch = y /\ (at_ + y * pitch + k - at_) mod pitch = k.
Proof.
  intros Hp Hk. replace (at_ + y * pitch + k - at_) with (k + y * pitch) by lia.
  rewrite Z.div_add, Z.mod_add, Z.div_small, Z.mod_small by lia. done.
Qed.

(** One more row. *)
Lemma in_rows_next at_ pitch rows bytes i : 0 < pitch -> 0 <= bytes <= pitch -> 0 <= rows ->
  in_rows at_ pitch (rows + 1) bytes i =
  in_rows at_ pitch rows bytes i || ((at_ + rows * pitch <=? i) && (i <? at_ + rows * pitch + bytes)).
Proof.
  intros Hp Hb Hr. apply Bool.eq_iff_eq_true.
  rewrite orb_true_iff, andb_true_iff, Z.leb_le, Z.ltb_lt, !in_rows_iff by lia. split.
  - intros (y & k & Hy & Hk & Hi & Hd). destruct (Z.eq_dec y rows) as [->|]; [right; lia | left; exists y, k; repeat split; lia].
  - intros [(y & k & Hy & Hd) | Hi]; [exists y, k; split; [lia | done] |]. exists rows, (i - at_ - rows * pitch).
    destruct (row_offset at_ pitch rows (i - at_ - rows * pitch) Hp) as [H1 H2]; [lia |].
    replace (at_ + rows * pitch + (i - at_ - rows * pitch)) with i in * by lia. repeat split; lia.
Qed.

(** No byte is read after it was written. *)
Definition no_feedback (src dst sp dp rows bytes : Z) : Prop :=
  forall y k y' k', 0 <= y' <= y -> y < rows -> 0 <= k < bytes -> 0 <= k' < bytes -> y' < y \/ k' < k ->
    dst + y' * dp + k' <> src + y * sp + k.

(** Video memory after [rows] rows. *)
Record rows_done (op bm : Z) (v0 : list Z) (src dst sp dp rows bytes : Z) (v : list Z) : Prop := {
  rows_length : zlen v = zlen v0;
  rows_bytes : forall i, nthZ v i =
    if in_rows dst dp rows bytes i then op_byte op bm ((i - dst) mod dp) (nthZ v0 (from_row src dst sp dp i)) (nthZ v0 i)
    else nthZ v0 i
}.

Lemma rows_done_0 op bm v src dst sp dp bytes : 0 < dp -> 0 <= bytes <= dp -> rows_done op bm v src dst sp dp 0 bytes v.
Proof.
  intros Hp Hb. split; [done |]. intros i. destruct (in_rows dst dp 0 bytes i) eqn:E; [|done].
  apply in_rows_iff in E as (y & k & Hy & _); lia.
Qed.

Lemma rows_done_next op bm v0 src dst sp dp rows bytes v v' : 0 < dp -> 0 <= bytes <= dp -> 0 <= rows ->
  no_feedback src dst sp dp (rows + 1) bytes -> rows_done op bm v0 src dst sp dp rows bytes v ->
  zlen v' = zlen v ->
  (forall i, nthZ v' i = let k := i - (dst + rows * dp) in
     if (dst + rows * dp <=? i) && (i <? dst + rows * dp + bytes)
     then op_byte op bm k (nthZ v (src + rows * sp + k)) (nthZ v i) else nthZ v i) ->
  rows_done op bm v0 src dst sp dp (rows + 1) bytes v'.
Proof.
  intros Hp Hb Hr Hnf [Hl Hv] Hl' Hv'. split; [by rewrite Hl' |]. intros i. rewrite Hv'. cbv zeta. rewrite in_rows_next by lia.
  destruct ((dst + rows * dp <=? i) && (i <? dst + rows * dp + bytes)) eqn:Erow.
  - rewrite orb_true_r. apply andb_true_iff in Erow as [?%Z.leb_le ?%Z.ltb_lt]. set (k := i - (dst + rows * dp)).
    assert (Hi : i = dst + rows * dp + k) by lia. destruct (row_offset dst dp rows k Hp) as [Hd Hm]; [lia |]. rewrite <- Hi in Hd, Hm.
    unfold from_row. rewrite Hd, Hm.
    assert (Hsrc : nthZ v (src + rows * sp + k) = nthZ v0 (src + rows * sp + k)).
    { rewrite Hv. destruct (in_rows dst dp rows bytes (src + rows * sp + k)) eqn:E; [|done].
      apply in_rows_iff in E as (y & k' & Hy & Hk' & Heq & _); [|lia..]. destruct (Hnf rows k y k'); lia. }
    assert (Hdst : nthZ v i = nthZ v0 i).
    { rewrite Hv. destruct (in_rows dst dp rows bytes i) eqn:E; [|done].
      apply in_rows_iff in E as (y & k' & Hy & _ & _ & Hd' & _); lia. }
    by rewrite Hsrc, Hdst.
  - rewrite orb_false_r. apply Hv.
Qed.

Lemma copy_row v s d n : 0 <= s -> 0 <= d -> 0 <= n -> s + n <= zlen v -> d + n <= zlen v ->
  exists v', (row ← slice v s n; blit v d row) = Ok v' /\ zlen v' = zlen v /\
    forall i, nthZ v' i = if (d <=? i) && (i <? d + n) then nthZ v (s + (i - d)) else nthZ v i.
Proof.
  intros Hs Hd Hn Hse Hde. destruct (slice_spec v s n) as (row & -> & Hl & Hrow); [lia..|]. cbn [mbind outcome_bind].
  destruct (blit_spec v d row) as (v' & -> & Hl' & Hv'); [lia..|]. exists v'. split; [done | split; [done |]].
  intros i. rewrite Hv', Hl. destruct (Z.leb_spec d i), (Z.ltb_spec i (d + n)); cbn [andb]; try done. apply Hrow. lia.
Qed.

(** The first [n] bytes of a row blended. *)
Definition blended (bm : Z) (v : list Z) (s d n : Z) (v' : list Z) : Prop :=
  zlen v' = zlen v /\ forall i, nthZ v' i =
    if (d <=? i) && (i <? d + n) then op_byte NV09F_SET_OPERATION_BLEND_AND bm (i - d) (nthZ v (s + (i - d))) (nthZ v i)
    else nthZ v i.

Lemma blended_grow bm v s d n m v' : n <= m -> (forall i, d + n <= i < d + m -> (i - d) mod 4 = 3) ->
  blended bm v s d n v' -> blended bm v s d m v'.
Proof.
  intros Hnm Hskip [Hl Hv]. split; [done |]. intros i. rewrite Hv.
  destruct (Z.leb_spec d i), (Z.ltb_spec i (d + n)), (Z.ltb_spec i (d + m)); cbn [andb]; try done; try lia.
  unfold op_byte. by rewrite Hskip by lia.
Qed.

Lemma blend_one bm v s d n v' : 0 <= s -> 0 <= d -> 0 <= n -> s + n < zlen v -> d + n < zlen v ->
  (forall k, 0 <= k < n -> d + k <> s + n) -> n mod 4 <> 3 -> blended bm v s d n v' ->
  exists v'', (sv ← rd v' (s + n); dv ← rd v' (d + n); wr v' (d + n) (blend_byte bm sv dv)) = Ok v'' /\
    blended bm v s d (n + 1) v''.
Proof.
  intros Hs Hd Hn Hse Hde Hnf H3 [Hl Hv]. rewrite (rd_nthZ v' (s + n)), (rd_nthZ v' (d + n)) by lia. cbn [mbind outcome_bind].
  assert (Hsv : nthZ v' (s + n) = nthZ v (s + n)).
  { rewrite Hv. destruct (Z.leb_spec d (s + n)), (Z.ltb_spec (s + n) (d + n)); cbn [andb]; try done.
    destruct (Hnf (s + n - d)); lia. }
  assert (Hdv : nthZ v' (d + n) = nthZ v (d + n)).
  { rewrite Hv. destruct (Z.leb_spec d (d + n)), (Z.ltb_spec (d + n) (d + n)); cbn [andb]; try done. lia. }
  rewrite Hsv, Hdv, wr_ok by lia. eexists; split; [reflexivity |]. split; [by rewrite length_insert |].
  intros i. rewrite nthZ_insert by lia. destruct (Z.eqb_spec i (d + n)) as [->|Hne].
  - rewrite (proj2 (Z.leb_le d (d + n))), (proj2 (Z.ltb_lt (d + n) (d + (n + 1)))) by lia. cbn [andb].
    replace (d + n - d) with n by lia. unfold op_byte. cbn [Z.eqb Pos.eqb].
    by rewrite (proj2 (Z.eqb_neq _ _) H3).
  - rewrite Hv. destruct (Z.leb_spec d i), (Z.ltb_spec i (d + n)), (Z.ltb_spec i (d + (n + 1))); cbn [andb]; try done; lia.
Qed.

Lemma blend_row bm v s d w : 0 <= s -> 0 <= d -> 0 <= w -> s + w * 4 <= zlen v -> d + w * 4 <= zlen v ->
  (forall k k', 0 <= k' < k -> k < w * 4 -> d + k' <> s + k) ->
  exists v', mfor (seqZ 0 w) (fun x v => mfor (seqZ 0 3) (fun ch v =>
      sv ← rd v (s + x * 4 + ch); dv ← rd v (d + x * 4 + ch); wr v (d + x * 4 + ch) (blend_byte bm sv dv)) v) v = Ok v' /\
    blended bm v s d (w * 4) v'.
Proof.
  intros Hs Hd Hw Hse Hde Hnf.
  destruct (mfor_seqZ (fun x v' => blended bm v s d (x * 4) v') 0 w (fun x v => mfor (seqZ 0 3) (fun ch v =>
      sv ← rd v (s + x * 4 + ch); dv ← rd v (d + x * 4 + ch); wr v (d + x * 4 + ch) (blend_byte bm sv dv)) v) v) as (v' & Hrun & Hb).
  - split; [done |]. intros i. destruct (Z.leb_spec d i), (Z.ltb_spec i (d + 0 * 4)); cbn [andb]; try done. lia.
  - intros x v1 Hx Hb1.
    destruct (mfor_seqZ (fun c v' => blended bm v s d (x * 4 + c) v') 0 3 (fun ch v =>
      sv ← rd v (s + x * 4 + ch); dv ← rd v (d + x * 4 + ch); wr v (d + x * 4 + ch) (blend_byte bm sv dv)) v1) as (v2 & -> & Hb2).
    + by rewrite Z.add_0_r.
    + intros c v2 Hc Hb2. destruct (blend_one bm v s d (x * 4 + c) v2) as (v3 & Hr & Hb3); try lia; [| | done |].
      * intros k Hk. apply Hnf; lia.
      * rewrite Z.add_comm, Z.mod_add, Z.mod_small by lia. lia.
      * exists v3. rewrite <- !Z.add_assoc in *. done.
    + exists v2. split; [done |]. apply (blended_grow _ _ _ _ (x * 4 + (0 + 3))); [lia | | done].
      intros i Hi. replace (i - d) with (3 + x * 4) by lia. by rewrite Z.mod_add.
  - exists v'. split; [exact Hrun |]. replace (w * 4) with ((0 + Z.max 0 w) * 4) by lia. exact Hb.
Qed.

(** The operations that a blit can do on its format: blending takes four bytes per
    pixel. *)
Definition op_fits (op width bytes : Z) : Prop :=
  op = NV09F_SET_OPERATION_SRCCOPY \/ op = NV09F_SET_OPERATION_BLEND_AND /\ bytes = width * 4.

Lemma perform_blit_ok op v src dst w rows bytes sp dp bt : op_fits op w bytes ->
  0 < dp -> 0 <= bytes <= dp -> 0 <= rows -> 0 <= w -> 0 <= sp -> 0 <= src -> 0 <= dst ->
  (0 < rows -> src + (rows - 1) * sp + bytes <= zlen v) -> (0 < rows -> dst + (rows - 1) * dp + bytes <= zlen v) ->
  no_feedback src dst sp dp rows bytes ->
  exists v', perform_blit op v src dst w rows bytes sp dp bt = Ok v' /\
    rows_done op (beta bt ≫ 16) v src dst sp dp rows bytes v'.
Proof.
  intros Hop Hp Hb Hr Hw Hsp Hs Hd Hse Hde Hnf.
  assert (Hin : forall y, 0 <= y < rows -> src + y * sp + bytes <= zlen v /\ dst + y * dp + bytes <= zlen v) by (intros y Hy; nia).
  assert (Hnf' : forall y, 0 <= y < rows -> no_feedback src dst sp dp (y + 1) bytes)
    by (intros y Hy y1 k y' k' ? ? ? ? ?; apply Hnf; lia).
  unfold perform_blit. destruct Hop as [-> | [-> Hbytes]]; cbn [Z.eqb Pos.eqb].
  - destruct (mfor_seqZ (fun y v' => rows_done NV09F_SET_OPERATION_SRCCOPY (beta bt ≫ 16) v src dst sp dp y bytes v') 0 rows
      (fun y v => row ← slice v (src + y * sp) bytes; blit v (dst + y * dp) row) v) as (v' & Hrun & Hdone).
    + by apply rows_done_0.
    + intros y v1 Hy Hv1. pose proof (Hin y ltac:(lia)). pose proof (rows_length _ _ _ _ _ _ _ _ _ _ Hv1).
      destruct (copy_row v1 (src + y * sp) (dst + y * dp) bytes) as (v2 & Hrun2 & Hl2 & Hv2); [nia..|].
      exists v2. split; [exact Hrun2 |]. eapply rows_done_next; [done.. | lia | by apply Hnf'; lia | exact Hv1 | done |].
      intros i. by rewrite Hv2.
    + exists v'. rewrite Z.add_0_l, Z.max_r in Hdone by lia. done.
  - set (f := fun y v => _). destruct (mfor_seqZ (fun y v' => rows_done NV09F_SET_OPERATION_BLEND_AND (beta bt ≫ 16) v src dst sp dp y bytes v')
      0 rows f v) as (v' & Hrun & Hdone).
    + by apply rows_done_0.
    + intros y v1 Hy Hv1. pose proof (Hin y ltac:(lia)). pose proof (rows_length _ _ _ _ _ _ _ _ _ _ Hv1).
      destruct (blend_row (beta bt ≫ 16) v1 (src + y * sp) (dst + y * dp) w) as (v2 & Hrun2 & Hl2 & Hv2); [nia..| |].
      { intros k k' Hk Hkw. apply (Hnf y k y k'); lia. }
      exists v2. split; [exact Hrun2 |]. eapply rows_done_next; [done.. | lia | by apply Hnf'; lia | exact Hv1 | done |].
      intros i. rewrite Hv2, Hbytes. done.
    + exists v'. rewrite Z.add_0_l, Z.max_r in Hdone by lia. done.
Qed.

(** Alpha in the first [n] bytes of a row, or in rows. *)
Lemma patch_row v d w alpha : 0 <= d -> 0 <= w -> d + w * 4 <= zlen v ->
  exists v', mfor (seqZ 0 w) (fun x v => wr v (d + x * 4 + 3) alpha) v = Ok v' /\ zlen v' = zlen v /\
    forall i, nthZ v' i = if (d <=? i) && (i <? d + w * 4) && ((i - d) mod 4 =? 3) then alpha else nthZ v i.
Proof.
  intros Hd Hw He. destruct (mfor_seqZ (fun x v' => zlen v' = zlen v /\ forall i, nthZ v' i =
      if (d <=? i) && (i <? d + x * 4) && ((i - d) mod 4 =? 3) then alpha else nthZ v i) 0 w
    (fun x v => wr v (d + x * 4 + 3) alpha) v) as (v' & Hrun & Hdone).
  - split; [done |]. intros i. destruct (Z.leb_spec d i), (Z.ltb_spec i (d + 0 * 4)); cbn [andb]; try done. lia.
  - intros x v1 Hx [Hl Hv]. rewrite wr_ok by lia. eexists; split; [reflexivity |]. split; [by rewrite length_insert |].
    intros i. rewrite nthZ_insert by lia. destruct (Z.eqb_spec i (d + x * 4 + 3)) as [->|Hne].
    + replace (d + x * 4 + 3 - d) with (3 + x * 4) by lia. rewrite Z.mod_add by lia.
      rewrite (proj2 (Z.leb_le d _)), (proj2 (Z.ltb_lt _ (d + (x + 1) * 4))) by lia. done.
    + rewrite Hv. destruct (Z.leb_spec d i), (Z.ltb_spec i (d + x * 4)), (Z.ltb_spec i (d + (x + 1) * 4)),
        (Z.eqb_spec ((i - d) mod 4) 3) as [E|]; cbn [andb]; try done; try lia.
      exfalso. replace (i - d) with (i - d - x * 4 + x * 4) in E by lia. rewrite Z.mod_add, Z.mod_small in E by lia. lia.
  - exists v'. rewrite Z.add_0_l, Z.max_r in Hdone by lia. done.
Qed.

Lemma patch_alpha_ok v d w rows dp alpha : 0 < dp -> 0 <= w -> w * 4 <= dp -> 0 <= rows -> 0 <= d ->
  (0 < rows -> d + (rows - 1) * dp + w * 4 <= zlen v) ->
  exists v', patch_alpha v d w rows dp alpha = Ok v' /\ zlen v' = zlen v /\
    forall i, nthZ v' i = if in_rows d dp rows (w * 4) i && ((i - d) mod dp mod 4 =? 3) then alpha else nthZ v i.
Proof.
  intros Hp Hw Hwd Hr Hd He. unfold patch_alpha. set (f := fun y v => _).
  destruct (mfor_seqZ (fun y v' => zlen v' = zlen v /\ forall i, nthZ v' i =
      if in_rows d dp y (w * 4) i && ((i - d) mod dp mod 4 =? 3) then alpha else nthZ v i) 0 rows f v) as (v' & Hrun & Hdone).
  - split; [done |]. intros i. destruct (in_rows d dp 0 (w * 4) i) eqn:E; [|done]. apply in_rows_iff in E as (y & k & Hy & _); lia.
  - intros y v1 Hy [Hl Hv]. destruct (patch_row v1 (d + y * dp) w alpha) as (v2 & Hrun2 & Hl2 & Hv2); [nia..|].
    exists v2. split; [exact Hrun2 | split; [by rewrite Hl2 |]]. intros i. rewrite Hv2, in_rows_next, Hv by lia.
    destruct ((d + y * dp <=? i) && (i <? d + y * dp + w * 4)) eqn:E; cbn [andb].
    + apply andb_true_iff in E as [?%Z.leb_le ?%Z.ltb_lt]. rewrite orb_true_r. cbn [andb].
      destruct (row_offset d dp y (i - (d + y * dp)) Hp) as [_ Hm]; [lia |].
      replace (d + y * dp + (i - (d + y * dp))) with i in Hm by lia. rewrite Hm.
      destruct (_ =? 3); [done |]. by rewrite andb_false_r.
    + by rewrite orb_false_r.
  - exists v'. rewrite Z.add_0_l, Z.max_r in Hdone by lia. done.
Qed.

(** ** A whole blit *)

(** ** Where a blit writes, whatever the rectangles *)

(** The same bytes outside of an interval. *)
Definition within (lo hi : Z) (v v' : list Z) : Prop :=
  zlen v' = zlen v /\ forall i, ~ (lo <= i < hi) -> nthZ v' i = nthZ v i.

Lemma within_refl lo hi v : within lo hi v v.
Proof. done. Qed.







Section Whole.
Context `{renderer : !Renderer}.

(** The bytes that a blit writes: full rows, and the part of a row before the limit. *)
Definition written (g : geometry) (dp i : Z) : bool :=
  in_rows (dest_row g) dp (adjusted_height g) (row_pixels g * bytes_per_pixel g) i ||
  ((dest_row g + adjusted_height g * dp <=? i) && (i <? dest_row g + adjusted_height g * dp + leftover_bytes g)).

(** The value of such a byte, from video memory [v] before the blit. *)
Definition blit_value b (g : geometry) (v : list Z) (i : Z) : Z :=
  let cs := context_surfaces_2d b in
  let k := (i - dest_row g) mod dest_pitch cs in
  match format_alpha (color_format cs), k mod 4 =? 3 with
  | Some alpha, true => alpha
  | _, _ => op_byte (operation (image_blit b)) (beta (beta_state b) ≫ 16) k
              (nthZ v (from_row (source_row g) (dest_row g) (source_pitch cs) (dest_pitch cs) i)) (nthZ v i)
  end.

(** A blit between [source_row] and [s_end], and [dest_row] and [d_end], in memory of
    [size] bytes: the rectangles are apart, or a surface is moved up or to the left. *)
Record blit_fits b (g : geometry) (s_end d_end size : Z) : Prop := {
  fit_pitch : 0 < dest_pitch (context_surfaces_2d b) /\ 0 <= source_pitch (context_surfaces_2d b);
  fit_start : 0 <= source_row g /\ 0 <= dest_row g;
  fit_rows : 0 <= adjusted_height g /\ 0 <= row_pixels g /\ 0 < bytes_per_pixel g /\
    row_pixels g * bytes_per_pixel g <= dest_pitch (context_surfaces_2d b);
  fit_left : 0 <= leftover_bytes g < dest_pitch (context_surfaces_2d b);
  fit_source : 0 < adjusted_height g ->
    source_row g + (adjusted_height g - 1) * source_pitch (context_surfaces_2d b) + row_pixels g * bytes_per_pixel g <= s_end;
  fit_source_left : 0 < leftover_bytes g ->
    source_row g + adjusted_height g * source_pitch (context_surfaces_2d b) + leftover_bytes g <= s_end;
  fit_dest : 0 < adjusted_height g ->
    dest_row g + (adjusted_height g - 1) * dest_pitch (context_surfaces_2d b) + row_pixels g * bytes_per_pixel g <= d_end;
  fit_dest_left : 0 < leftover_bytes g ->
    dest_row g + adjusted_height g * dest_pitch (context_surfaces_2d b) + leftover_bytes g <= d_end;
  fit_memory : s_end <= size /\ d_end <= size;
  fit_apart : source_pitch (context_surfaces_2d b) = dest_pitch (context_surfaces_2d b) /\ dest_row g <= source_row g \/
    s_end <= dest_row g \/ d_end <= source_row g;
  fit_op : op_fits (operation (image_blit b)) (row_pixels g) (row_pixels g * bytes_per_pixel g) /\
    op_fits (operation (image_blit b)) (leftover_bytes g / bytes_per_pixel g) (leftover_bytes g);
  fit_alpha : format_alpha (color_format (context_surfaces_2d b)) <> None -> bytes_per_pixel g = 4
}.

(** Rows and the part of a row: what is read has not been written. *)
Lemma fits_apart b g s_end d_end size y n y' n' k k' : blit_fits b g s_end d_end size ->
  let sp := source_pitch (context_surfaces_2d b) in let dp := dest_pitch (context_surfaces_2d b) in
  source_row g + y * sp + n <= s_end -> dest_row g + y' * dp + n' <= d_end ->
  0 <= y' <= y -> 0 <= k < n -> 0 <= k' < n' -> n' <= dp -> y' < y \/ k' < k ->
  dest_row g + y' * dp + k' <> source_row g + y * sp + k.
Proof.
  intros Hf sp dp Hs Hd Hy Hk Hk' Hn' Hlt. pose proof (fit_apart _ _ _ _ _ Hf) as Hap. destruct (fit_pitch _ _ _ _ _ Hf) as [Hdp Hsp].
  change (0 < dp) in Hdp. change (0 <= sp) in Hsp. change (sp = dp /\ dest_row g <= source_row g \/ s_end <= dest_row g \/ d_end <= source_row g) in Hap.
  clearbody sp dp. destruct Hap as [[-> Hle] | [Hle | Hle]]; [| nia..].
  destruct Hlt as [Hlt|Hlt]; [assert ((y' + 1) * dp <= y * dp) by nia; lia | nia].
Qed.

Lemma full_rows_ok b g v s_end d_end : blit_fits b g s_end d_end (zlen v) ->
  exists v', (if 0 <? adjusted_height g then
      perform_blit (operation (image_blit b)) v (source_row g) (dest_row g) (row_pixels g) (adjusted_height g)
        (row_pixels g * bytes_per_pixel g) (source_pitch (context_surfaces_2d b)) (dest_pitch (context_surfaces_2d b)) (beta_state b)
    else Ok v) = Ok v' /\
    rows_done (operation (image_blit b)) (beta (beta_state b) ≫ 16) v (source_row g) (dest_row g) (source_pitch (context_surfaces_2d b)) (dest_pitch (context_surfaces_2d b))
      (adjusted_height g) (row_pixels g * bytes_per_pixel g) v'.
Proof.
  intros Hf. destruct (fit_pitch _ _ _ _ _ Hf) as [Hdp Hsp], (fit_rows _ _ _ _ _ Hf) as (Hah & Hrp & Hbpp & Hrb).
  pose proof (fit_source _ _ _ _ _ Hf) as Hse. pose proof (fit_dest _ _ _ _ _ Hf) as Hde.
  destruct (Z.ltb_spec 0 (adjusted_height g)) as [Hpos|Hzero].
  - destruct (fit_start _ _ _ _ _ Hf), (fit_memory _ _ _ _ _ Hf). apply perform_blit_ok; try nia; [apply (fit_op _ _ _ _ _ Hf) |].
    intros y k y' k' Hy Hya Hk Hk' Hlt. eapply (fits_apart b g s_end d_end (zlen v)); [done | | | done | done | done | done | done]; nia.
  - exists v. replace (adjusted_height g) with 0 by lia. split; [done |]. apply rows_done_0; nia.
Qed.

Lemma in_row_1 at_ pitch bytes i : 0 < pitch -> 0 <= bytes <= pitch ->
  in_rows at_ pitch 1 bytes i = (at_ <=? i) && (i <? at_ + bytes).
Proof.
  intros Hp Hb. change 1 with (0 + 1). rewrite in_rows_next by lia. destruct (in_rows at_ pitch 0 bytes i) eqn:E.
  - apply in_rows_iff in E as (y & _ & Hy & _); lia.
  - by rewrite Z.mul_0_l, Z.add_0_r.
Qed.

Lemma copy_rows_ok b g v s_end d_end : blit_fits b g s_end d_end (zlen v) ->
  exists v', copy_rows b g v = Ok v' /\ zlen v' = zlen v /\ forall i, nthZ v' i =
    if written g (dest_pitch (context_surfaces_2d b)) i then
      op_byte (operation (image_blit b)) (beta (beta_state b) ≫ 16) ((i - dest_row g) mod dest_pitch (context_surfaces_2d b))
        (nthZ v (from_row (source_row g) (dest_row g) (source_pitch (context_surfaces_2d b)) (dest_pitch (context_surfaces_2d b)) i)) (nthZ v i)
    else nthZ v i.
Proof.
  intros Hf. unfold copy_rows. destruct (full_rows_ok b g v s_end d_end Hf) as (v1 & Hrun & [Hl1 Hv1]).
  rewrite Hrun. cbn [mbind outcome_bind].
  destruct (fit_pitch _ _ _ _ _ Hf) as [Hdp Hsp], (fit_rows _ _ _ _ _ Hf) as (Hah & Hrp & Hbpp & Hrb). pose proof (fit_left _ _ _ _ _ Hf) as Hleft.
  pose proof (fit_source_left _ _ _ _ _ Hf) as Hse. pose proof (fit_dest_left _ _ _ _ _ Hf) as Hde.
  pose proof (fit_dest _ _ _ _ _ Hf) as Hdr. destruct (fit_start _ _ _ _ _ Hf), (fit_memory _ _ _ _ _ Hf).
  unfold written. destruct (Z.ltb_spec 0 (leftover_bytes g)) as [Hpos|Hzero].
  - destruct (perform_blit_ok (operation (image_blit b)) v1 (source_row g + adjusted_height g * source_pitch (context_surfaces_2d b))
      (dest_row g + adjusted_height g * dest_pitch (context_surfaces_2d b)) (leftover_bytes g / bytes_per_pixel g) 1 (leftover_bytes g)
      (source_pitch (context_surfaces_2d b)) (dest_pitch (context_surfaces_2d b)) (beta_state b)) as (v2 & -> & [Hl2 Hv2]); try nia.
    { apply (fit_op _ _ _ _ _ Hf). }
    { apply Z.div_pos; lia. }
    { intros y k y' k' Hy Hy1 Hk Hk' Hlt. assert (y = 0) as -> by lia. assert (y' = 0) as -> by lia. rewrite !Z.mul_0_l, !Z.add_0_r.
      eapply (fits_apart b g s_end d_end (zlen v)); [done | by apply Hse | by apply Hde | lia | done | done | lia | lia]. }
    exists v2. split; [done | split; [by rewrite Hl2 |]]. intros i. rewrite Hv2, in_row_1 by lia.
    destruct ((dest_row g + adjusted_height g * dest_pitch (context_surfaces_2d b) <=? i) && _) eqn:E; [| rewrite orb_false_r; apply Hv1].
    apply andb_true_iff in E as [?%Z.leb_le ?%Z.ltb_lt]. rewrite orb_true_r.
    set (k := i - (dest_row g + adjusted_height g * dest_pitch (context_surfaces_2d b))). assert (Hi : i = dest_row g + adjusted_height g * dest_pitch (context_surfaces_2d b) + k) by lia.
    destruct (row_offset (dest_row g) (dest_pitch (context_surfaces_2d b)) (adjusted_height g) k Hdp) as [Hd Hm]; [lia |]. rewrite <- Hi in Hd, Hm.
    unfold from_row. fold k. rewrite Hd, Hm, (Z.div_small k), (Z.mod_small k), Z.mul_0_l, Z.add_0_r by lia.
    assert (Hsrc : nthZ v1 (source_row g + adjusted_height g * source_pitch (context_surfaces_2d b) + k) =
      nthZ v (source_row g + adjusted_height g * source_pitch (context_surfaces_2d b) + k)).
    { rewrite Hv1. destruct (in_rows _ _ _ _ _) eqn:E; [|done]. apply in_rows_iff in E as (y & k' & Hy & Hk' & Heq & _); [|nia..].
      exfalso. eapply (fits_apart b g s_end d_end (zlen v) (adjusted_height g) (leftover_bytes g) y (row_pixels g * bytes_per_pixel g) k k');
        [done | by apply Hse | nia | lia | lia | lia | lia | lia | lia]. }
    assert (Hdst : nthZ v1 i = nthZ v i).
    { rewrite Hv1. destruct (in_rows _ _ _ _ _) eqn:E; [|done]. apply in_rows_iff in E as (y & k' & Hy & _ & _ & Hd' & _); nia. }
    by rewrite Hsrc, Hdst.
  - exists v1. split; [done | split; [done |]]. intros i. rewrite Hv1.
    destruct (Z.leb_spec (dest_row g + adjusted_height g * dest_pitch (context_surfaces_2d b)) i),
      (Z.ltb_spec i (dest_row g + adjusted_height g * dest_pitch (context_surfaces_2d b) + leftover_bytes g)); cbn [andb]; try lia; by rewrite orb_false_r.
Qed.

(** The part of a row after the full rows. *)
Lemma left_offset g dp i : 0 < dp -> 0 <= leftover_bytes g < dp ->
  dest_row g + adjusted_height g * dp <= i < dest_row g + adjusted_height g * dp + leftover_bytes g ->
  (i - dest_row g) mod dp = i - (dest_row g + adjusted_height g * dp).
Proof.
  intros Hp Hl Hi. destruct (row_offset (dest_row g) dp (adjusted_height g) (i - (dest_row g + adjusted_height g * dp)) Hp) as [_ Hm]; [lia |].
  by replace (dest_row g + adjusted_height g * dp + (i - (dest_row g + adjusted_height g * dp))) with i in Hm by lia.
Qed.

Lemma patch_left v d n alpha : 0 <= d -> 0 <= n -> (0 < n -> d + n <= zlen v) ->
  exists v', (if 0 <? n then patch_alpha v d (n / 4) 1 0 alpha else Ok v) = Ok v' /\ zlen v' = zlen v /\
    forall i, nthZ v' i = if (d <=? i) && (i <? d + n) && ((i - d) mod 4 =? 3) then alpha else nthZ v i.
Proof.
  intros Hd Hn He. pose proof (Z.div_mod n 4 ltac:(lia)). pose proof (Z.mod_pos_bound n 4 ltac:(lia)).
  destruct (Z.ltb_spec 0 n) as [Hpos|Hzero].
  - destruct (patch_row v d (n / 4) alpha) as (v' & Hrun & Hl & Hv); [lia..|]. exists v'.
    split; [unfold patch_alpha; change (seqZ 0 1) with [0]; cbn [mfor] | split; [done |]].
    + rewrite Z.mul_0_l, Z.add_0_r, Hrun. done.
    + intros i. rewrite Hv. pose proof (Z.div_mod (i - d) 4 ltac:(lia)). pose proof (Z.mod_pos_bound (i - d) 4 ltac:(lia)).
      destruct (Z.leb_spec d i), (Z.ltb_spec i (d + n / 4 * 4)), (Z.ltb_spec i (d + n)), (Z.eqb_spec ((i - d) mod 4) 3); cbn [andb]; try done; lia.
  - exists v. split; [done | split; [done |]]. intros i. destruct (Z.leb_spec d i), (Z.ltb_spec i (d + n)); cbn [andb]; try done. lia.
Qed.

Lemma patch_rows_ok b g v s_end d_end : blit_fits b g s_end d_end (zlen v) ->
  exists v', patch_rows b g v = Ok v' /\ zlen v' = zlen v /\ forall i, nthZ v' i =
    match format_alpha (color_format (context_surfaces_2d b)) with
    | Some alpha =>
        if written g (dest_pitch (context_surfaces_2d b)) i && ((i - dest_row g) mod dest_pitch (context_surfaces_2d b) mod 4 =? 3)
        then alpha else nthZ v i
    | None => nthZ v i
    end.
Proof.
  intros Hf. unfold patch_rows. pose proof (fit_alpha _ _ _ _ _ Hf) as Hbpp. destruct (format_alpha _) as [alpha|]; [|by exists v].
  destruct (fit_pitch _ _ _ _ _ Hf) as [Hdp Hsp], (fit_rows _ _ _ _ _ Hf) as (Hah & Hrp & _ & Hrb). pose proof (fit_left _ _ _ _ _ Hf) as Hleft.
  pose proof (fit_dest _ _ _ _ _ Hf) as Hdr. pose proof (fit_dest_left _ _ _ _ _ Hf) as Hdl. rewrite Hbpp in * by done.
  destruct (fit_start _ _ _ _ _ Hf), (fit_memory _ _ _ _ _ Hf). set (dp := dest_pitch (context_surfaces_2d b)) in *.
  assert (exists v1, (if 0 <? adjusted_height g then patch_alpha v (dest_row g) (row_pixels g) (adjusted_height g) dp alpha else Ok v) = Ok v1 /\
    zlen v1 = zlen v /\ forall i, nthZ v1 i =
      if in_rows (dest_row g) dp (adjusted_height g) (row_pixels g * 4) i && ((i - dest_row g) mod dp mod 4 =? 3) then alpha else nthZ v i)
    as (v1 & -> & Hl1 & Hv1).
  { destruct (Z.ltb_spec 0 (adjusted_height g)); [apply patch_alpha_ok; lia |]. exists v. split; [done | split; [done |]]. intros i.
    destruct (in_rows _ _ _ _ _) eqn:E; [|done]. apply in_rows_iff in E as (y & k & Hy & _); lia. }
  cbn [mbind outcome_bind].
  destruct (patch_left v1 (dest_row g + adjusted_height g * dp) (leftover_bytes g) alpha) as (v2 & -> & Hl2 & Hv2); [nia | lia | lia |].
  exists v2. split; [done | split; [by rewrite Hl2 |]]. intros i. rewrite Hv2, Hv1. unfold written. rewrite Hbpp by done.
  destruct ((dest_row g + adjusted_height g * dp <=? i) && (i <? dest_row g + adjusted_height g * dp + leftover_bytes g)) eqn:E;
    [| by rewrite orb_false_r]. apply andb_true_iff in E as [?%Z.leb_le ?%Z.ltb_lt].
  rewrite (left_offset g dp i), orb_true_r by lia. cbn [andb]. destruct (_ =? 3); [done |]. by rewrite andb_false_r.
Qed.

(** The surfaces do not change what is blitted where. *)
Lemma fetch_keeps b g : let b' := fetch_dest (fetch_source b g) g in
  context_surfaces_2d b' = context_surfaces_2d b /\ image_blit b' = image_blit b /\ beta_state b' = beta_state b.
Proof.
  assert (Hdl : forall b k s, context_surfaces_2d (pgraph_gl_surface_download_if_dirty b k s) = context_surfaces_2d b /\
    image_blit (pgraph_gl_surface_download_if_dirty b k s) = image_blit b /\
    beta_state (pgraph_gl_surface_download_if_dirty b k s) = beta_state b).
  { intros b0 k s. unfold pgraph_gl_surface_download_if_dirty, surface_download. destruct (draw_dirty s); [|done].
    by destruct (negb _ || _ || _). }
  cbv zeta. unfold fetch_dest, fetch_source.
  destruct (pgraph_gl_surface_get b (source_addr g)) as [[k s]|]; [set (b1 := pgraph_gl_surface_download_if_dirty b k s); destruct (Hdl b k s) as (<- & <- & <-); fold b1 | set (b1 := b)];
    (destruct (pgraph_gl_surface_get b1 (dest_addr g)) as [[k2 s2]|]; [|done]); cbn;
    (destruct ((adjusted_height g <? surface_height s2) || (row_pixels g <? surface_width s2)); [apply Hdl | done]).
Qed.

(** The state as the methods leave it. *)
Record blit_typed b : Prop := {
  ty_pitch : in_u 16 (source_pitch (context_surfaces_2d b)) /\ in_u 16 (dest_pitch (context_surfaces_2d b));
  ty_offset : 0 <= source_offset (context_surfaces_2d b) /\ 0 <= dest_offset (context_surfaces_2d b);
  ty_size : 0 < width (image_blit b) < 2 ^ 16 /\ 0 < height (image_blit b) < 2 ^ 16;
  ty_tiles : regs_ok 32 (pfb_regs b)
}.

(** The bytes from the first to the last of the destination, before clipping. *)
Definition dest_extent b (g : geometry) : Z :=
  (height (image_blit b) - 1) * dest_pitch (context_surfaces_2d b) + width (image_blit b) * bytes_per_pixel g.

Lemma format_bytes_pos f n : format_bytes f = Ok n -> 0 < n /\ (format_alpha f <> None -> n = 4).
Proof.
  unfold format_bytes, format_alpha. intros H.
  destruct (Z.eqb_spec f 0x07) as [->|]; [by injection H as <- |]. destruct (Z.eqb_spec f 0x06) as [->|]; [by injection H as <- |].
  split; [| done]. destruct (f =? 1); [by injection H as <- |]. destruct (f =? 4); [by injection H as <- |].
  destruct (_ || _); [by injection H as <- | done].
Qed.

Lemma dma_map_pos d a p : nv_dma_map d a = Ok p -> 0 <= p.1.
Proof.
  unfold nv_dma_map. intros (dma & _ & H)%bind_ok. apply bind_ok in H as (u & _ & H). injection H as <-. cbn.
  apply Z.land_nonneg. right. done.
Qed.

(** What the geometry is made of. *)
Lemma geometry_inv b g : blit_geometry b = Ok g ->
  let dp := dest_pitch (context_surfaces_2d b) in let size := u32 (dest_extent b g) in
  0 < bytes_per_pixel g /\ (format_alpha (color_format (context_surfaces_2d b)) <> None -> bytes_per_pixel g = 4) /\
  row_pixels g = Z.min (Z.min (source_pitch (context_surfaces_2d b)) dp / bytes_per_pixel g) (width (image_blit b)) /\
  clipped_dest_size g = nv_clip_gpu_tile_blit b (dest_row g) size /\
  (if clipped_dest_size g <? size
   then adjusted_height g = clipped_dest_size g / dp /\ leftover_bytes g = clipped_dest_size g - clipped_dest_size g / dp * dp
   else adjusted_height g = height (image_blit b) /\ leftover_bytes g = 0) /\
  (blit_typed b -> 0 <= source_row g /\ 0 <= dest_row g).
Proof.
  unfold blit_geometry. intros H. apply bind_ok in H as (u1 & _ & H). apply bind_ok in H as (bpp & Hbpp & H).
  apply bind_ok in H as ([src slen] & Hsrc%dma_map_pos & H). apply bind_ok in H as (u2 & _ & H).
  apply bind_ok in H as ([dst dlen] & Hdst%dma_map_pos & H). apply bind_ok in H as (u3 & _ & H).
  apply bind_ok in H as ([ah left] & Hah & H). apply (f_equal (fun m => match m with Ok x => x | _ => g end)) in H. subst g.
  apply format_bytes_pos in Hbpp as [Hpos Halpha]. cbn [fst] in Hsrc, Hdst. cbv zeta. cbn [bytes_per_pixel row_pixels clipped_dest_size
    adjusted_height leftover_bytes source_row dest_row dest_extent]. unfold dest_extent. cbn [bytes_per_pixel].
  split; [done | split; [done | split; [done | split; [done | split]]]].
  - destruct (_ <? _); [| by injection Hah as <- <-]. destruct (_ =? 0); [done | by injection Hah as <- <-].
  - intros [_ [? ?] _ _]. clear Hah. split; (apply Z.add_nonneg_nonneg; [lia | by apply Z.mod_pos_bound]).
Qed.

(** Rows and what is left of them stay in the clipped size. *)
Lemma geometry_ok b g : blit_typed b -> blit_geometry b = Ok g -> 0 < dest_pitch (context_surfaces_2d b) ->
  dest_row g + dest_extent b g < 2 ^ 32 ->
  let dp := dest_pitch (context_surfaces_2d b) in let rb := row_pixels g * bytes_per_pixel g in
  0 <= adjusted_height g /\ 0 <= row_pixels g /\ 0 < bytes_per_pixel g /\ rb <= dp /\ 0 <= leftover_bytes g < dp /\
  (0 < adjusted_height g -> (adjusted_height g - 1) * dp + rb <= clipped_dest_size g) /\
  (0 < leftover_bytes g -> adjusted_height g * dp + leftover_bytes g <= clipped_dest_size g) /\
  0 <= source_row g /\ 0 <= dest_row g.
Proof.
  intros Hty Hg Hdp Hext. destruct (geometry_inv b g Hg) as (Hbpp & _ & Hrp & Hclip & Hah & Hpos). destruct (Hpos Hty) as [Hs Hd].
  destruct Hty as [[[Hsp _] _] _ [[Hw _] [Hh _]] Hregs]. unfold dest_extent in *. cbv zeta.
  set (dp := dest_pitch (context_surfaces_2d b)) in *. set (sp := source_pitch (context_surfaces_2d b)) in *.
  set (w := width (image_blit b)) in *. set (h := height (image_blit b)) in *. clearbody dp sp w h.
  assert (Hrow : 0 <= row_pixels g /\ row_pixels g * bytes_per_pixel g <= dp /\ row_pixels g * bytes_per_pixel g <= w * bytes_per_pixel g).
  { rewrite Hrp. pose proof (Z.mul_div_le (Z.min sp dp) (bytes_per_pixel g) Hbpp).
    pose proof (Z.div_pos (Z.min sp dp) (bytes_per_pixel g) ltac:(lia) Hbpp). nia. }
  assert (Hsize : 0 < (h - 1) * dp + w * bytes_per_pixel g) by nia. rewrite u32_small in * by lia.
  destruct (clip_tile_blit b (dest_row g) ((h - 1) * dp + w * bytes_per_pixel g)) as [Hc _]; [lia.. | apply Hregs |]. rewrite <- Hclip in Hc.
  destruct (Z.ltb_spec (clipped_dest_size g) ((h - 1) * dp + w * bytes_per_pixel g)) as [Hlt|Hge]; destruct Hah as [Hah Hleft].
  - pose proof (Z.div_mod (clipped_dest_size g) dp ltac:(lia)). pose proof (Z.mod_pos_bound (clipped_dest_size g) dp Hdp).
    pose proof (Z.div_pos (clipped_dest_size g) dp ltac:(lia) Hdp). rewrite <- Hah in *. repeat split; try lia; nia.
  - rewrite Hah, Hleft. repeat split; try lia; nia.
Qed.

(** A blit whose source ends at [s_end] in memory of [size] bytes. *)
Record blit_placed b (g : geometry) (s_end size : Z) : Prop := {
  pl_source : 0 < adjusted_height g ->
    source_row g + (adjusted_height g - 1) * source_pitch (context_surfaces_2d b) + row_pixels g * bytes_per_pixel g <= s_end;
  pl_source_left : 0 < leftover_bytes g ->
    source_row g + adjusted_height g * source_pitch (context_surfaces_2d b) + leftover_bytes g <= s_end;
  pl_memory : s_end <= size /\ dest_row g + clipped_dest_size g <= size;
  pl_apart : source_pitch (context_surfaces_2d b) = dest_pitch (context_surfaces_2d b) /\ dest_row g <= source_row g \/
    s_end <= dest_row g \/ dest_row g + clipped_dest_size g <= source_row g;
  pl_op : op_fits (operation (image_blit b)) (row_pixels g) (row_pixels g * bytes_per_pixel g) /\
    op_fits (operation (image_blit b)) (leftover_bytes g / bytes_per_pixel g) (leftover_bytes g)
}.

Lemma placed_fits b g s_end size : blit_typed b -> blit_geometry b = Ok g -> 0 < dest_pitch (context_surfaces_2d b) ->
  dest_row g + dest_extent b g < 2 ^ 32 -> blit_placed b g s_end size ->
  blit_fits b g s_end (dest_row g + clipped_dest_size g) size.
Proof.
  intros Hty Hg Hdp Hext [Hs Hsl Hm Ha Hop].
  destruct (geometry_ok b g Hty Hg Hdp Hext) as (Hah & Hrp & Hbpp & Hrb & Hleft & Hrows & Hlast & Hst).
  destruct (geometry_inv b g Hg) as (_ & Halpha & _). destruct Hty as [[[Hsp _] _] _ _ _].
  split; try done; intros; lia.
Qed.

(** C20: What a blit does. Let the geometry be computed and the surfaces involved be
    fetched, let the destination's pitch be positive and its end lie below 4 GiB, and
    let the rectangles lie in video memory, apart from each other or, where the two
    pitches are equal, with the destination in front of the source. Then a copy in any
    supported format succeeds, and so does a blend whose pixels have four bytes and
    whose part of a row in front of a tile's limit is a whole number of pixels. It
    writes exactly the bytes of the rows of the destination, and of that part of a row,
    each with the operation's value of the bytes of the source and the destination
    before the blit, and the alpha of formats without alpha with their constant. *)
Theorem image_blit_correct b g s_end :
  let b0 := pgraph_gl_surface_update b in
  let b1 := fetch_dest (fetch_source b0 g) g in
  blit_typed b0 -> blit_geometry b0 = Ok g -> 0 < dest_pitch (context_surfaces_2d b0) ->
  dest_row g + dest_extent b0 g < 2 ^ 32 -> blit_placed b0 g s_end (zlen (vram b1)) ->
  exists b', pgraph_gl_image_blit b = Ok b' /\ zlen (vram b') = zlen (vram b1) /\ surfaces b' = surfaces b1 /\
    forall i, nthZ (vram b') i =
      if written g (dest_pitch (context_surfaces_2d b0)) i then blit_value b0 g (vram b1) i else nthZ (vram b1) i.
Proof.
  intros b0 b1 Hty Hg Hdp Hext Hpl. pose proof (placed_fits _ _ _ _ Hty Hg Hdp Hext Hpl) as Hf.
  unfold pgraph_gl_image_blit. fold b0. rewrite Hg. cbn [mbind outcome_bind]. fold b1.
  destruct (fetch_keeps b0 g) as (Hcs & Hib & Hbt). fold b1 in Hcs, Hib, Hbt.
  assert (Hf1 : blit_fits b1 g s_end (dest_row g + clipped_dest_size g) (zlen (vram b1)))
    by (destruct Hf; split; rewrite ?Hcs, ?Hib; assumption).
  destruct (copy_rows_ok b1 g (vram b1) _ _ Hf1) as (v1 & -> & Hl1 & Hv1). cbn [mbind outcome_bind].
  rewrite <- Hl1 in Hf1. destruct (patch_rows_ok b1 g v1 _ _ Hf1) as (v2 & -> & Hl2 & Hv2). cbn [mbind outcome_bind].
  eexists; split; [reflexivity |]. change (vram (with_vram b1 v2)) with v2. split; [by rewrite Hl2 | split; [done |]].
  intros i. rewrite Hv2, Hv1, Hcs, Hib, Hbt. unfold blit_value.
  destruct (written g (dest_pitch (context_surfaces_2d b0)) i); cbn [andb].
  - by destruct (format_alpha _), ((i - dest_row g) mod dest_pitch (context_surfaces_2d b0) mod 4 =? 3).
  - destruct (format_alpha (color_format (context_surfaces_2d b0))); reflexivity.
Qed.





End Whole.

(** ** Blending *)

Lemma factor_bound a : 0 <= a .& 0x7f80 <= 0x7f80.
Proof.
  assert (Hq : ((a .& 0x7f80) ≫ 7) < 2 ^ 8).
  { rewrite Z.shiftr_land. change (0x7f80 ≫ 7) with (Z.ones 8). rewrite Z.land_ones by done. by apply Z.mod_pos_bound. }
  assert (Hr : (a .& 0x7f80) mod 2 ^ 7 = 0).
  { rewrite <- Z.land_ones, <- Z.land_assoc by done. change (0x7f80 .& Z.ones 7) with 0. apply Z.land_0_r. }
  rewrite Z.shiftr_div_pow2 in Hq by done. pose proof (Z.div_mod (a .& 0x7f80) (2 ^ 7) ltac:(done)).
  split; [apply Z.land_nonneg; by right | lia].
Qed.

(** Blending mixes. With a factor as SET_BETA stores it, the byte that blending
    stores lies between the byte of the source and that of the destination, equals the
    destination's at factor zero and the source's at the largest factor, and no 32-bit
    operation overflows. *)
Theorem blend_between b p s d :
  in_u 32 p -> in_u 8 s -> in_u 8 d ->
  let bm := beta (beta_state (beta_method b 0x300 p)) ≫ 16 in
  0 <= bm <= 0x7f80 /\ Z.min s d <= blend_byte bm s d <= Z.max s d /\
  blend_byte bm s d = (s * bm + d * (0x7f80 - bm)) / 0x7f80 /\
  (bm = 0 -> blend_byte bm s d = d) /\ (bm = 0x7f80 -> blend_byte bm s d = s).
Proof.
  intros Hp Hs Hd. unfold in_u in *.
  assert (Hbm : 0 <= beta (beta_state (beta_method b 0x300 p)) ≫ 16 <= 0x7f80).
  { cbn. destruct (flag p 0x80000000); [done |]. rewrite Z.shiftr_land. change (0x7f800000 ≫ 16) with 0x7f80.
    apply factor_bound. }
  cbv zeta. set (bm := _ ≫ 16) in *. clearbody bm.
  assert (Heq : blend_byte bm s d = (s * bm + d * (0x7f80 - bm)) / 0x7f80).
  { unfold blend_byte. rewrite (u32_small (0x7f80 - bm)), (u32_small (s * bm)), (u32_small (d * _)), (u32_small (_ + _)) by nia.
    apply Z.mod_small. split; [apply Z.div_pos; nia |]. apply Z.div_lt_upper_bound; nia. }
  rewrite Heq. split; [done | split; [| split; [done | split]]].
  - split; [apply Z.div_le_lower_bound; nia |]. apply Z.lt_succ_r, Z.div_lt_upper_bound; nia.
  - intros ->. rewrite Z.mul_0_r, Z.add_0_l, Z.sub_0_r. by apply Z.div_mul.
  - intros ->. rewrite Z.sub_diag, Z.mul_0_r, Z.add_0_r. by apply Z.div_mul.
Qed.

(** ** Executions *)

Definition no_surfaces : Renderer := {|
  pgraph_gl_surface_update := fun b => b;
  surface_download_to_buffer := fun _ v => v
|}.

(** Video memory with byte [i] at address [i], one DMA object for all of it, and tile
    0 with the given limit; the methods set up a blit of [format] from ([sx], [sy]) after
    [offset] to ([dx], [dy]), with 32 bytes per row. *)
Definition example_chip (tile_flags limit : Z) : NV2AState :=
  quiet <| nv_vram := seqZ 0 256 |> <| nv_ramin := flat_map (le_bytes 4) [0; 0xFFFF; 0] |>
        <| pfb_regs := rset (rset ∅ 0x240 tile_flags) 0x244 limit |>.

Definition example_setup `{Renderer} (chip : NV2AState) (sfs : list SurfaceBinding) (offset format op sx sy dx dy : Z) : outcome NV2AState :=
  let b := chip <| surfaces := sfs |> <| draw_time := 0 |> in
  let b := surfaces_2d_method (surfaces_2d_method (surfaces_2d_method b 0x300 format) 0x304 0x00200020) 0x308 offset in
  b ← image_blit_method (beta_method b 0x300 0x40000000) 0x2FC op;
  b ← image_blit_method b 0x300 (sx .| (sy ≪ 16));
  image_blit_method b 0x304 (dx .| (dy ≪ 16)).

Definition example_blit `{Renderer} (chip : NV2AState) (sfs : list SurfaceBinding) (offset format op sx sy dx dy w h : Z) : outcome NV2AState :=
  b ← example_setup chip sfs offset format op sx sy dx dy;
  image_blit_method b 0x308 (w .| (h ≪ 16)).

(** Three rows of four pixels without alpha move up by one row; the tile ends after
    two pixels of the second. *)
Definition example_state : NV2AState :=
  match example_setup (H := no_surfaces) (example_chip 1 39) [] 0 0x07 NV09F_SET_OPERATION_SRCCOPY 0 1 0 0 with
  | Ok b => b <| pg_image_blit := (image_blit b) <| width := 4 |> <| height := 3 |> |>
  | _ => quiet
  end.

Definition example_geometry : geometry := mkGeometry 4 0 0 32 0 4 40 1 8.

Lemma example_typed : blit_typed example_state.
Proof.
  split; [done | done | done |]. intros k. change (pfb_regs example_state) with (rset (rset ∅ 0x240 1) 0x244 39).
  rewrite !rget_rset. unfold rget. rewrite lookup_empty. repeat case_decide; done.
Qed.

Lemma image_blit_correct_witness :
  exists b', pgraph_gl_image_blit (renderer := no_surfaces) example_state = Ok b' /\
    nthZ (vram b') <$> [0; 2; 3; 15; 16; 32; 35; 39; 40] = [32; 34; 255; 255; 16; 64; 255; 255; 40].
Proof.
  destruct (image_blit_correct (renderer := no_surfaces) example_state example_geometry 256) as (b' & Hrun & _ & _ & Hv).
  - exact example_typed.
  - vm_compute. done.
  - done.
  - done.
  - split; [done | done | done | by left | split; by left].
  - exists b'. split; [exact Hrun |]. cbn [fmap list_fmap]. rewrite !Hv. vm_compute. done.
Defined.





Lemma blend_between_witness :
  let bm := beta (beta_state (beta_method example_state 0x300 0x40000000)) ≫ 16 in
  Z.min 200 100 <= blend_byte bm 200 100 <= Z.max 200 100 /\ blend_byte bm 200 100 = 150.
Proof.
  destruct (blend_between example_state 0x40000000 200 100) as (_ & H & _); [done.. |]. split; [exact H |]. vm_compute. done.
Defined.

(** The part of a row in front of a limit is copied to the limit, past the width of the
    blit: bytes 48 to 55 are not part of the rectangle. *)
Example part_of_row_too_wide :
  (fun b => nthZ (vram b) <$> [15; 16; 47; 48; 55; 56]) <$>
    example_blit (H := no_surfaces) (example_chip 1 55) [] 0 0x0A NV09F_SET_OPERATION_SRCCOPY 0 1 0 0 4 3 =
  Ok [47; 16; 79; 80; 87; 56].
Proof. by vm_compute. Qed.

(** Blending pixels of two bytes writes four bytes for each of them. *)
Example blend_16bit_too_wide :
  (fun b => nthZ (vram b) <$> [0; 7; 8; 14; 16]) <$>
    example_blit (H := no_surfaces) (example_chip 0 0) [] 0 0x04 NV09F_SET_OPERATION_BLEND_AND 0 1 0 0 4 1 =
  Ok [16; 7; 24; 30; 16].
Proof. by vm_compute. Qed.

(** Only the first byte is compared with the length of the DMA object. *)
Example blit_leaves_memory :
  example_blit (H := no_surfaces) (example_chip 0 0) [] 0 0x0A NV09F_SET_OPERATION_SRCCOPY 0 0 0 7 4 2 = Undef.
Proof. by vm_compute. Qed.

(** A surface of two by two pixels with rendered pixels that memory does not have yet:
    a blit of two by two pixels beside it discards them. *)
Example surface_pixels_lost :
  let renderer := {| pgraph_gl_surface_update := fun b => b; surface_download_to_buffer := fun _ v => replicate 8 0xAA ++ drop 8 v |} in
  let surface := mkSurface 0 2 2 true false false in
  (fun b => (nthZ (vram b) 0, draw_dirty <$> surfaces b)) <$>
    example_blit (H := renderer) (example_chip 0 0) [surface] 128 0x0A NV09F_SET_OPERATION_SRCCOPY 0 0 2 0 2 2 = Ok (0, [false]) /\
  (fun b => (nthZ (vram b) 0, draw_dirty <$> surfaces b)) <$>
    example_blit (H := renderer) (example_chip 0 0) [surface] 128 0x0A NV09F_SET_OPERATION_SRCCOPY 0 0 2 0 2 1 = Ok (0xAA, [false]).
Proof. by vm_compute. Qed.
