(* ===== verification/Pgraph.v ===== *)
(** * Methods of the graphics engine (hw/xbox/nv2a/pgraph/pgraph.c)

    [pgraph_method] binds an object to a subchannel, switches to the context of the
    subchannel, and hands the method to the class of its object: the blend factor, the
    pattern, the 2D surfaces and the image blit, whose methods are in ImageBlit.v, or
    the 3D class, whose table of handlers is the class [Kelvin]. The renderer is that
    of ImageBlit.v.

    The methods of the 2D classes discharge [PacketEngine], the promise the pusher of
    Pfifo.v relies on, so the theorem about a packet is about pusher, puller and
    engine together. *)

From Stdlib Require Import ZArith Lia Bool.
From stdpp Require Import base gmap list.
From S2P Require Import Prelude Nv2a Pfifo ImageBlit.
#[local] Open Scope Z_scope.

Abbreviation NV_PGRAPH_CTX_SWITCH1 := 0x14C.
Abbreviation NV_PGRAPH_CTX_SWITCH1_GRCLASS := 0xFF.
Abbreviation NV_PGRAPH_CTX_SWITCH2 := 0x150.
Abbreviation NV_PGRAPH_CTX_SWITCH3 := 0x154.
Abbreviation NV_PGRAPH_CTX_SWITCH4 := 0x158.
Abbreviation NV_PGRAPH_CTX_SWITCH5 := 0x15C.
Abbreviation NV_PGRAPH_CTX_CACHE1 := 0x160.
Abbreviation NV_PGRAPH_CTX_CACHE2 := 0x180.
Abbreviation NV_PGRAPH_CTX_CACHE3 := 0x1A0.
Abbreviation NV_PGRAPH_CTX_CACHE4 := 0x1C0.
Abbreviation NV_PGRAPH_CTX_CACHE5 := 0x1E0.
Abbreviation NV_PGRAPH_PATT_COLOR0 := 0xB10.
Abbreviation NV_SET_OBJECT := 0.
Abbreviation NV_BETA := 0x12.
Abbreviation NV_CONTEXT_PATTERN := 0x44.
Abbreviation NV_CONTEXT_SURFACES_2D := 0x62.
Abbreviation NV_KELVIN_PRIMITIVE := 0x97.
Abbreviation NV_IMAGE_BLIT := 0x9F.
Abbreviation NV044_SET_MONOCHROME_COLOR0 := 0x310.

(** The methods of the 3D class, with the arguments of [pgraph_method]. *)
Class Kelvin := {
  kelvin_method : NV2AState -> Z -> Z -> Z -> Z -> Z -> Z -> bool -> outcome (Z * NV2AState)
}.

(** ** Operations *)

(** The context of an object in instance memory is kept for the subchannel. *)
Definition bind_object (d : NV2AState) (subchannel parameter : Z) : outcome NV2AState :=
  c_assert (parameter <? zlen (nv_ramin d)) ;;
  ctx_1 ← ldl_le_p (nv_ramin d) parameter;
  ctx_2 ← ldl_le_p (nv_ramin d) (parameter + 4);
  ctx_3 ← ldl_le_p (nv_ramin d) (parameter + 8);
  ctx_4 ← ldl_le_p (nv_ramin d) (parameter + 12);
  d ← pgraph_reg_w d (NV_PGRAPH_CTX_CACHE1 + subchannel * 4) ctx_1;
  d ← pgraph_reg_w d (NV_PGRAPH_CTX_CACHE2 + subchannel * 4) ctx_2;
  d ← pgraph_reg_w d (NV_PGRAPH_CTX_CACHE3 + subchannel * 4) ctx_3;
  d ← pgraph_reg_w d (NV_PGRAPH_CTX_CACHE4 + subchannel * 4) ctx_4;
  pgraph_reg_w d (NV_PGRAPH_CTX_CACHE5 + subchannel * 4) parameter.

Definition reg_copy (d : NV2AState) (to from : Z) : outcome NV2AState :=
  v ← pgraph_reg_r d from; pgraph_reg_w d to v.

Definition switch_context (d : NV2AState) (subchannel : Z) : outcome NV2AState :=
  d ← reg_copy d NV_PGRAPH_CTX_SWITCH1 (NV_PGRAPH_CTX_CACHE1 + subchannel * 4);
  d ← reg_copy d NV_PGRAPH_CTX_SWITCH2 (NV_PGRAPH_CTX_CACHE2 + subchannel * 4);
  d ← reg_copy d NV_PGRAPH_CTX_SWITCH3 (NV_PGRAPH_CTX_CACHE3 + subchannel * 4);
  d ← reg_copy d NV_PGRAPH_CTX_SWITCH4 (NV_PGRAPH_CTX_CACHE4 + subchannel * 4);
  reg_copy d NV_PGRAPH_CTX_SWITCH5 (NV_PGRAPH_CTX_CACHE5 + subchannel * 4).

Definition pattern_method (d : NV2AState) (method parameter : Z) : outcome NV2AState :=
  if method =? NV044_SET_MONOCHROME_COLOR0 then pgraph_reg_w d NV_PGRAPH_PATT_COLOR0 parameter else Ok d.

Section Engine.
Context `{renderer : !Renderer} `{kelvin : !Kelvin}.

(** The class of the object takes the method. One that its class does not know is
    dropped, and so is one of an unknown class. *)
Definition class_method (graphics_class : Z) (d : NV2AState) (subchannel method parameter parameters available lookahead : Z)
    (inc : bool) : outcome (Z * NV2AState) :=
  if graphics_class =? NV_BETA then Ok (1, beta_method d method parameter)
  else if graphics_class =? NV_CONTEXT_PATTERN then d ← pattern_method d method parameter; Ok (1, d)
  else if graphics_class =? NV_CONTEXT_SURFACES_2D then Ok (1, surfaces_2d_method d method parameter)
  else if graphics_class =? NV_IMAGE_BLIT then d ← image_blit_method d method parameter; Ok (1, d)
  else if graphics_class =? NV_KELVIN_PRIMITIVE then
    kelvin_method d subchannel method parameter parameters available lookahead inc
  else Ok (1, d).

Definition pgraph_method (d : NV2AState) (subchannel method parameter parameters available lookahead : Z) (inc : bool)
    : outcome (Z * NV2AState) :=
  channel_valid ← PG_GET_MASK d NV_PGRAPH_CTX_CONTROL NV_PGRAPH_CTX_CONTROL_CHID;
  c_assert (negb (channel_valid =? 0)) ;;
  c_assert (subchannel <? 8) ;;
  d ← (if method =? NV_SET_OBJECT then bind_object d subchannel parameter else Ok d);
  d ← switch_context d subchannel;
  graphics_class ← PG_GET_MASK d NV_PGRAPH_CTX_SWITCH1 NV_PGRAPH_CTX_SWITCH1_GRCLASS;
  c_assert ((subchannel =? 0) || negb (graphics_class =? NV_KELVIN_PRIMITIVE)) ;;
  class_method graphics_class d subchannel method parameter parameters available lookahead inc.

#[export] Instance pgraph : Pgraph := {| Pfifo.pgraph_method := pgraph_method |}.

(** ** The 2D classes as an engine *)

(** The state that the methods of the 2D classes set. *)
Record state_2d := mk2D {
  surfaces_of : ContextSurfaces2DState;
  blit_of : ImageBlitState;
  beta_of : BetaState;
  color_of : Z
}.

Definition view_2d (d : NV2AState) : state_2d :=
  mk2D (pg_surfaces_2d d) (pg_image_blit d) (pg_beta d) (rget (pgraph_regs d) NV_PGRAPH_PATT_COLOR0).

(** What a method of class [cls] does to it. *)
Definition method_2d (cls method parameter : Z) (v : state_2d) : state_2d :=
  let '(mk2D cs ib bt color) := v in
  mk2D (if cls =? NV_CONTEXT_SURFACES_2D then surfaces_2d_set cs method parameter else cs)
       (if cls =? NV_IMAGE_BLIT then image_blit_set ib method parameter else ib)
       (if cls =? NV_BETA then beta_set bt method parameter else bt)
       (if (cls =? NV_CONTEXT_PATTERN) && (method =? NV044_SET_MONOCHROME_COLOR0) then parameter else color).

(** The channel is valid and the object bound to the subchannel is of class [cls]. *)
Definition bound_2d (s cls : Z) (d : NV2AState) : Prop :=
  GET_MASK (rget (pgraph_regs d) NV_PGRAPH_CTX_CONTROL) NV_PGRAPH_CTX_CONTROL_CHID <> 0 /\
  GET_MASK (rget (pgraph_regs d) (NV_PGRAPH_CTX_CACHE1 + s * 4)) NV_PGRAPH_CTX_SWITCH1_GRCLASS = cls.

(** The word binds no object and does not start a blit. *)
Definition sets_only (cls method parameter : Z) : Prop :=
  method <> NV_SET_OBJECT /\
  (cls = NV_IMAGE_BLIT -> method = 0x308 -> parameter .& 0xFFFF = 0 \/ parameter ≫ 16 = 0).

(** Two devices that differ in registers of PGRAPH outside [keep] only. *)
Definition same_but_regs (d d' : NV2AState) (keep : Z -> Prop) : Prop :=
  (exists dirty regs, d' = d <| regs_dirty := dirty |> <| pgraph_regs := regs |>) /\
  forall r, keep r -> rget (pgraph_regs d') r = rget (pgraph_regs d) r.

Lemma reg_w_ok d r v : r mod 4 = 0 ->
  exists d', pgraph_reg_w d r v = Ok d' /\ same_but_regs d d' (fun k => k <> r) /\ rget (pgraph_regs d') r = v.
Proof.
  intros Hr. unfold pgraph_reg_w. rewrite Hr. eexists. split; [reflexivity |]. split; [split; [by do 2 eexists |] |].
  - intros k Hk. by apply rget_rset_ne.
  - apply rget_rset_eq.
Qed.

Lemma get_mask_ok d r mask : r mod 4 = 0 -> PG_GET_MASK d r mask = Ok (GET_MASK (rget (pgraph_regs d) r) mask).
Proof. intros Hr. unfold PG_GET_MASK, pgraph_reg_r. by rewrite Hr. Qed.

Lemma same_trans d d' d'' (P Q R : Z -> Prop) :
  same_but_regs d d' P -> same_but_regs d' d'' Q -> (forall r, R r -> P r /\ Q r) -> same_but_regs d d'' R.
Proof.
  intros [(? & ? & ->) H1] [(? & ? & ->) H2] HR. split; [by do 2 eexists |].
  intros r (HP & HQ)%HR. rewrite H2, H1; done.
Qed.

Lemma reg_copy_ok d to from : to mod 4 = 0 -> from mod 4 = 0 ->
  exists d', reg_copy d to from = Ok d' /\ same_but_regs d d' (fun k => k <> to) /\
    rget (pgraph_regs d') to = rget (pgraph_regs d) from.
Proof.
  intros Ht Hf. unfold reg_copy, pgraph_reg_r. rewrite Hf. cbn [Z.eqb c_assert mbind outcome_bind].
  by apply reg_w_ok.
Qed.

Definition not_switch (r : Z) : Prop := r < NV_PGRAPH_CTX_SWITCH1 \/ NV_PGRAPH_CTX_SWITCH5 < r.

Lemma switch_context_ok d s : 0 <= s < 8 ->
  exists d', switch_context d s = Ok d' /\ same_but_regs d d' not_switch /\
    rget (pgraph_regs d') NV_PGRAPH_CTX_SWITCH1 = rget (pgraph_regs d) (NV_PGRAPH_CTX_CACHE1 + s * 4).
Proof.
  intros Hs. unfold switch_context.
  destruct (reg_copy_ok d NV_PGRAPH_CTX_SWITCH1 (NV_PGRAPH_CTX_CACHE1 + s * 4)) as (d1 & -> & S1 & E1); [done | Z.div_mod_to_equations; lia |].
  cbn [mbind outcome_bind].
  destruct (reg_copy_ok d1 NV_PGRAPH_CTX_SWITCH2 (NV_PGRAPH_CTX_CACHE2 + s * 4)) as (d2 & -> & S2 & _); [done | Z.div_mod_to_equations; lia |].
  cbn [mbind outcome_bind].
  destruct (reg_copy_ok d2 NV_PGRAPH_CTX_SWITCH3 (NV_PGRAPH_CTX_CACHE3 + s * 4)) as (d3 & -> & S3 & _); [done | Z.div_mod_to_equations; lia |].
  cbn [mbind outcome_bind].
  destruct (reg_copy_ok d3 NV_PGRAPH_CTX_SWITCH4 (NV_PGRAPH_CTX_CACHE4 + s * 4)) as (d4 & -> & S4 & _); [done | Z.div_mod_to_equations; lia |].
  cbn [mbind outcome_bind].
  destruct (reg_copy_ok d4 NV_PGRAPH_CTX_SWITCH5 (NV_PGRAPH_CTX_CACHE5 + s * 4)) as (d5 & -> & S5 & _); [done | Z.div_mod_to_equations; lia |].
  exists d5. split; [done |].
  pose proof (same_trans _ _ _ _ _ _ S4 S5 (fun r H => H)) as S45.
  pose proof (same_trans _ _ _ _ _ _ S3 S45 (fun r H => H)) as S35.
  pose proof (same_trans _ _ _ _ _ _ S2 S35 (fun r H => H)) as S25.
  split.
  - refine (same_trans _ _ _ _ _ _ S1 S25 _). unfold not_switch. lia.
  - rewrite <- E1. apply (proj2 S25). lia.
Qed.

(** What the 2D methods leave as it is. *)
Record kept (d d' : NV2AState) : Prop := {
  kept_pfifo : pfifo_regs d' = pfifo_regs d;
  kept_vram : nv_vram d' = nv_vram d;
  kept_flip : waiting_for_flip d' = waiting_for_flip d;
  kept_nop : waiting_for_nop d' = waiting_for_nop d;
  kept_switch : waiting_for_context_switch d' = waiting_for_context_switch d;
  kept_regs : forall r, not_switch r -> r <> NV_PGRAPH_PATT_COLOR0 -> rget (pgraph_regs d') r = rget (pgraph_regs d) r
}.

Lemma class_method_2d cls d s m p ptr n look inc : cls <> NV_KELVIN_PRIMITIVE -> sets_only cls m p ->
  exists d', class_method cls d s m p ptr n look inc = Ok (1, d') /\ kept d d' /\ view_2d d' = method_2d cls m p (view_2d d).
Proof.
  intros Hk [_ Hblit]. unfold class_method, method_2d. rewrite (proj2 (Z.eqb_neq _ _) Hk). cbn [view_2d].
  destruct (Z.eqb_spec cls NV_BETA) as [-> |]; [by eexists |].
  destruct (Z.eqb_spec cls NV_CONTEXT_PATTERN) as [-> |].
  { unfold pattern_method. destruct (m =? NV044_SET_MONOCHROME_COLOR0); [| by eexists].
    destruct (reg_w_ok d NV_PGRAPH_PATT_COLOR0 p eq_refl) as (d' & -> & [(? & ? & ->) Hregs] & Hp).
    eexists. split; [reflexivity |]. split; [split; try done; intros; by apply Hregs |].
    unfold view_2d. by rewrite Hp. }
  destruct (Z.eqb_spec cls NV_CONTEXT_SURFACES_2D) as [-> |]; [by eexists |].
  destruct (Z.eqb_spec cls NV_IMAGE_BLIT) as [-> |]; [| by exists d].
  unfold image_blit_method. set (d' := d <| pg_image_blit := _ |>).
  assert (starts_blit m (pg_image_blit d') = false) as ->; [| by exists d'].
  unfold starts_blit. destruct (Z.eqb_spec m 0x308) as [-> |]; [| done].
  change (width _) with (p .& 0xFFFF). change (height _) with (p ≫ 16).
  destruct (Hblit eq_refl eq_refl) as [-> | ->]; [done | by rewrite andb_comm].
Qed.

(** The 2D classes keep the promise to the pusher. *)
Lemma engine_2d s cls : 0 <= s < 8 -> cls <> NV_KELVIN_PRIMITIVE ->
  PacketEngine s (bound_2d s cls) (sets_only cls) view_2d (method_2d cls).
Proof.
  intros Hs Hk. split; [done | done |]. intros d m p ptr n look inc [Hch Hcls] Hset _.
  cbn [Pfifo.pgraph_method pgraph]. unfold pgraph_method. rewrite get_mask_ok by done. cbn [mbind outcome_bind].
  rewrite (proj2 (Z.eqb_neq _ _) Hch), (proj2 (Z.ltb_lt s 8)), (proj2 (Z.eqb_neq m NV_SET_OBJECT) (proj1 Hset)) by lia.
  cbn [negb c_assert mbind outcome_bind].
  destruct (switch_context_ok d s Hs) as (d1 & -> & [(? & ? & ->) Hregs] & Hsw). cbn [mbind outcome_bind].
  rewrite get_mask_ok, Hsw, Hcls by done. cbn [mbind outcome_bind].
  rewrite (proj2 (Z.eqb_neq _ _) Hk), orb_true_r. cbn [c_assert mbind outcome_bind].
  set (d1 := d <| regs_dirty := _ |> <| pgraph_regs := _ |>) in *.
  destruct (class_method_2d cls d1 s m p ptr n look inc Hk Hset) as (d' & -> & [K1 K2 K3 K4 K5 K6] & Hview).
  assert (Hall : forall r, not_switch r -> r <> NV_PGRAPH_PATT_COLOR0 -> rget (pgraph_regs d') r = rget (pgraph_regs d) r)
    by (intros; by rewrite K6, Hregs).
  eexists. split; [reflexivity |]. split.
  { split; rewrite Hall; try done; unfold not_switch; lia. }
  split; [| unfold can_fifo_access; rewrite Hall; [done | unfold not_switch; lia | done]].
  rewrite Hview. f_equal. unfold view_2d. f_equal. apply Hregs. unfold not_switch. lia.
Qed.

(** C1: The pusher runs a method packet to its end, and the engine has every word of
    it. GET points at a header, of increasing methods or of one method, with its words
    [ws] in video memory and PUT just behind them; no packet is outstanding and no
    error is flagged, nothing makes the puller stall, and an object of a class other
    than the 3D class is bound to the subchannel. The methods are from 0x100 on, none
    is between 0x180 and 0x1FF, where the puller takes a handle instead of a value,
    and no word starts a blit. Then a run with one round of fuel for each word and one
    for the header, or more, ends with GET at PUT, all words counted, none outstanding,
    no error and video memory unchanged; and the state of the 2D classes is what the
    methods of the class make of it, applied to the words in their order, each word
    once and with its own method. *)
Theorem pusher_runs_packet d t s m dma len ws cls :
  let get := fr d NV_PFIFO_CACHE1_DMA_GET in let put := fr d NV_PFIFO_CACHE1_DMA_PUT in
  header_ok t s m (zlen ws) -> methods_ok (sets_only cls) t m ws -> cls <> NV_KELVIN_PRIMITIVE ->
  bound_2d s cls d -> ready d s ->
  GET_MASK (fr d NV_PFIFO_CACHE1_DMA_STATE) NV_PFIFO_CACHE1_DMA_STATE_ERROR = 0 ->
  GET_MASK (fr d NV_PFIFO_CACHE1_DMA_STATE) NV_PFIFO_CACHE1_DMA_STATE_METHOD_COUNT = 0 ->
  put = get + 4 * (zlen ws + 1) -> 0 <= get -> put < 2 ^ 32 -> put <= len ->
  (forall j w, (header t s m (zlen ws) :: ws) !! j = Some w -> ldl_le_p (nv_vram d) (dma + get + 4 * Z.of_nat j) = Ok w) ->
  exists d', (forall fuel, (length ws + 1 <= fuel)%nat -> pusher_loop fuel d dma len = Ok d') /\
    fr d' NV_PFIFO_CACHE1_DMA_GET = put /\ fr d' NV_PFIFO_CACHE1_DMA_DCOUNT = zlen ws /\
    GET_MASK (fr d' NV_PFIFO_CACHE1_DMA_STATE) NV_PFIFO_CACHE1_DMA_STATE_METHOD_COUNT = 0 /\
    dma_state_error d' = false /\ nv_vram d' = nv_vram d /\
    view_2d d' = packet_steps (method_2d cls) t m ws (view_2d d).
Proof.
  intros get put Hh Hok Hcls. pose proof (engine_2d s cls (proj1 (proj2 Hh)) Hcls) as Hengine.
  by apply (packet_runs s _ (sets_only cls)).
Qed.

End Engine.

(** ** A packet *)

(** The image blit class is bound to subchannel 3; its packet sets the two points and
    an empty size. *)
Definition blit_words : list Z := [0x00010002; 0x00030004; 0x00050000].

Definition blit_device : NV2AState :=
  (fw (fw (fw quiet NV_PFIFO_CACHE1_PULL0 1) NV_PFIFO_CACHE1_ENGINE 0x1000) NV_PFIFO_CACHE1_DMA_PUT 16)
    <| nv_vram := flat_map (le_bytes 4) (header 0 3 0xC0 3 :: blit_words) |>
    <| pgraph_regs := rset (rset (rset ∅ NV_PGRAPH_FIFO 1) NV_PGRAPH_CTX_CONTROL 0x10000) 0x16C NV_IMAGE_BLIT |>.

Definition no_kelvin : Kelvin := {| kelvin_method := fun d _ _ _ _ _ _ _ => Ok (1, d) |}.

Lemma pusher_runs_packet_witness :
  exists d', pusher_loop (engine := pgraph (renderer := no_surfaces) (kelvin := no_kelvin)) 4 blit_device 0 16 = Ok d' /\
    fr d' NV_PFIFO_CACHE1_DMA_GET = 16 /\ blit_of (view_2d d') = mkImageBlit 0 0 0 2 1 4 3 0 5.
Proof.
  destruct (pusher_runs_packet (renderer := no_surfaces) (kelvin := no_kelvin) blit_device 0 3 0xC0 0 16 blit_words NV_IMAGE_BLIT)
    as (d' & Hrun & Hget & _ & _ & _ & _ & Hview).
  - done.
  - intros [|[|[|j]]] w [= <-]; cbn; split_and!; try lia; split; try done; by left.
  - done.
  - done.
  - by split.
  - reflexivity.
  - reflexivity.
  - reflexivity.
  - discriminate.
  - reflexivity.
  - discriminate.
  - intros [|[|[|[|j]]]] w [= <-]; reflexivity.
  - exists d'. split; [apply Hrun; cbn; lia |]. split; [exact Hget |]. rewrite Hview. reflexivity.
Defined.
