(* ===== verification/Swizzle.v ===== *)
(** * Swizzled textures (hw/xbox/nv2a/pgraph/swizzle.c, swizzle.h)

    Conversion between the linear layout of a texture and the Z-order layout of
    the hardware, for power-of-two sizes. The code walks the linear texture and
    steps the swizzled offset of each dimension with one subtraction and one
    mask; the theorems show that these steps enumerate the Z-order offsets, that
    the offsets are a bijection between texels and places, and that the two
    conversions are inverse to each other. *)

From Stdlib Require Import ZArith Lia Bool.
From stdpp Require Import base list.
From S2P Require Import Prelude.
#[local] Open Scope Z_scope.

(** ** The masks *)

(** One round of [do ... while (!done)] per bit of the sizes. *)
Fixpoint mask_loop (fuel : nat) (width height depth x y z bit mask_bit : Z) : outcome (Z * Z * Z * Z) :=
  match fuel with
  | O => NoFuel
  | S fuel =>
      let bx := bit <? width in
      let x := if bx then x .| mask_bit else x in
      let mask_bit := if bx then u32 (mask_bit ≪ 1) else mask_bit in
      let by_ := bit <? height in
      let y := if by_ then y .| mask_bit else y in
      let mask_bit := if by_ then u32 (mask_bit ≪ 1) else mask_bit in
      let bz := bit <? depth in
      let z := if bz then z .| mask_bit else z in
      let mask_bit := if bz then u32 (mask_bit ≪ 1) else mask_bit in
      if bx || by_ || bz then mask_loop fuel width height depth x y z (u32 (bit ≪ 1)) mask_bit
      else Ok (x, y, z, mask_bit)
  end.

(** 32 rounds shift [bit] past any size up to 2^31. *)
Definition generate_swizzle_masks (width height depth : Z) : outcome (Z * Z * Z) :=
  r ← mask_loop 33 width height depth 0 0 0 1 1;
  let '(x, y, z, mask_bit) := r in
  c_assert (Z.lxor (Z.lxor x y) z =? u32 (mask_bit - 1)) ;;
  Ok (x, y, z).

(** ** Copying

    [for (i = 0; i < n; i++) { body(i, off); off = (off - mask) & mask; }] *)
Fixpoint masked_for (n : nat) (i off mask : Z) (body : Z -> Z -> list Z -> outcome (list Z)) (dst : list Z) :
  outcome (list Z) :=
  match n with
  | O => Ok dst
  | S n => dst ← body i off dst; masked_for n (i + 1) (u32 (off - mask) .& mask) mask body dst
  end.

Definition memcpy (dst : list Z) (to : Z) (src : list Z) (from n : Z) : outcome (list Z) :=
  bs ← slice src from n; blit dst to bs.

Definition swizzle_box_internal (src : list Z) (width height depth : Z) (dst : list Z)
  (row_pitch slice_pitch bpp : Z) : outcome (list Z) :=
  masks ← generate_swizzle_masks width height depth;
  let '(mask_x, mask_y, mask_z) := masks in
  masked_for (Z.to_nat depth) 0 0 mask_z (fun z off_z =>
    masked_for (Z.to_nat height) 0 0 mask_y (fun y off_y =>
      masked_for (Z.to_nat width) 0 0 mask_x (fun x off_x dst =>
        memcpy dst (u32 ((off_y + off_z) * bpp) + u32 (off_x * bpp))
          src (z * slice_pitch + u32 (y * row_pitch) + u32 (x * bpp)) bpp))) dst.

Definition unswizzle_box_internal (src : list Z) (width height depth : Z) (dst : list Z)
  (row_pitch slice_pitch bpp : Z) : outcome (list Z) :=
  masks ← generate_swizzle_masks width height depth;
  let '(mask_x, mask_y, mask_z) := masks in
  masked_for (Z.to_nat depth) 0 0 mask_z (fun z off_z =>
    masked_for (Z.to_nat height) 0 0 mask_y (fun y off_y =>
      masked_for (Z.to_nat width) 0 0 mask_x (fun x off_x dst =>
        memcpy dst (z * slice_pitch + u32 (y * row_pitch) + u32 (x * bpp))
          src (u32 ((off_y + off_z) * bpp) + u32 (off_x * bpp)) bpp))) dst.

(** The multiversioned entry points: the same code with the pixel size a
    constant for the common sizes. *)
Definition multiversion (m : Z -> outcome (list Z)) (bpp : Z) : outcome (list Z) :=
  if bpp =? 1 then m 1 else if bpp =? 2 then m 2 else if bpp =? 3 then m 3
  else if bpp =? 4 then m 4 else m bpp.

Definition swizzle_box (src : list Z) (width height depth : Z) (dst : list Z) (row_pitch slice_pitch bpp : Z) :=
  multiversion (swizzle_box_internal src width height depth dst row_pitch slice_pitch) bpp.

Definition unswizzle_box (src : list Z) (width height depth : Z) (dst : list Z) (row_pitch slice_pitch bpp : Z) :=
  multiversion (unswizzle_box_internal src width height depth dst row_pitch slice_pitch) bpp.

Definition swizzle_rect (src : list Z) (width height : Z) (dst : list Z) (pitch bpp : Z) :=
  swizzle_box src width height 1 dst pitch 0 bpp.

Definition unswizzle_rect (src : list Z) (width height : Z) (dst : list Z) (pitch bpp : Z) :=
  unswizzle_box src width height 1 dst pitch 0 bpp.

Lemma multiversion_eq m bpp : multiversion m bpp = m bpp.
Proof. unfold multiversion. zcases; congruence. Qed.

(** ** Z-order

    A layout is the list of the dimensions that own the bits of an offset, the
    lowest first. *)

Inductive dim := DX | DY | DZ.

#[export] Instance dim_eq_dec : EqDecision dim.
Proof. solve_decision. Defined.

(** The offset of a texel, and the texel at an offset. *)
Fixpoint zorder (ds : list dim) (x y z : Z) : Z :=
  match ds with
  | [] => 0
  | DX :: ds => x mod 2 + 2 * zorder ds (x / 2) y z
  | DY :: ds => y mod 2 + 2 * zorder ds x (y / 2) z
  | DZ :: ds => z mod 2 + 2 * zorder ds x y (z / 2)
  end.

Fixpoint texel_at (ds : list dim) (o : Z) : Z * Z * Z :=
  match ds with
  | [] => (0, 0, 0)
  | d :: ds =>
      let '(x, y, z) := texel_at ds (o / 2) in
      match d with
      | DX => (o mod 2 + 2 * x, y, z)
      | DY => (x, o mod 2 + 2 * y, z)
      | DZ => (x, y, o mod 2 + 2 * z)
      end
  end.

(** The bits that one dimension owns, as a number and as a spread of an index. *)
Fixpoint mask_of (d : dim) (ds : list dim) : Z :=
  match ds with
  | [] => 0
  | e :: ds => Z.b2z (bool_decide (e = d)) + 2 * mask_of d ds
  end.

Fixpoint spread (d : dim) (ds : list dim) (i : Z) : Z :=
  match ds with
  | [] => 0
  | e :: ds => if decide (e = d) then i mod 2 + 2 * spread d ds (i / 2) else 2 * spread d ds i
  end.

Fixpoint owned (d : dim) (ds : list dim) : Z :=
  match ds with
  | [] => 0
  | e :: ds => Z.b2z (bool_decide (e = d)) + owned d ds
  end.

(** ** Bits one at a time *)

Lemma testbit_cons (a : bool) m i : 0 <= i ->
  Z.testbit (Z.b2z a + 2 * m) i = if i =? 0 then a else Z.testbit m (i - 1).
Proof.
  intros Hi. destruct (Z.eqb_spec i 0) as [->|].
  - apply Z.add_b2z_double_bit0.
  - rewrite <- (Z.testbit_succ_r m a (i - 1)) by lia. f_equal; lia.
Qed.

Lemma land_cons (a b : bool) m n :
  (Z.b2z a + 2 * m) .& (Z.b2z b + 2 * n) = Z.b2z (a && b) + 2 * (m .& n).
Proof.
  apply Z.bits_inj'. intros i Hi. rewrite Z.land_spec, !testbit_cons by done.
  destruct (i =? 0); [done|]. by rewrite Z.land_spec.
Qed.

Lemma lxor_cons (a b : bool) m n :
  Z.lxor (Z.b2z a + 2 * m) (Z.b2z b + 2 * n) = Z.b2z (xorb a b) + 2 * Z.lxor m n.
Proof.
  apply Z.bits_inj'. intros i Hi. rewrite Z.lxor_spec, !testbit_cons by done.
  destruct (i =? 0); [done|]. by rewrite Z.lxor_spec.
Qed.

(** Subtracting the mask and one from a part of it leaves the part in the mask. *)
Lemma land_sub_succ s m : s .& m = s -> (s - m - 1) .& m = s.
Proof.
  intros Hs. replace (s - m - 1) with (Z.lnot (m - s)) by (unfold Z.lnot; lia).
  assert (Hd : m - s = Z.ldiff m s).
  { apply Z.sub_nocarry_ldiff. apply Z.bits_inj'. intros i Hi. rewrite Z.ldiff_spec, Z.bits_0.
    rewrite <- Hs, Z.land_spec. by destruct (Z.testbit s i), (Z.testbit m i). }
  rewrite Hd. apply Z.bits_inj'. intros i Hi. rewrite Z.land_spec, Z.lnot_spec, Z.ldiff_spec by done.
  rewrite <- Hs, Z.land_spec. by destruct (Z.testbit s i), (Z.testbit m i).
Qed.

Lemma b2z_bounds b : 0 <= Z.b2z b <= 1.
Proof. by destruct b. Qed.

Lemma b2z_odd i : i mod 2 = Z.b2z (Z.odd i).
Proof. rewrite Zmod_odd. by destruct (Z.odd i). Qed.

Lemma spread_cons d e ds i :
  spread d (e :: ds) i =
    Z.b2z (bool_decide (e = d) && Z.odd i) + 2 * spread d ds (if decide (e = d) then i / 2 else i).
Proof. cbn [spread]. destruct (decide (e = d)) as [->|]; [by rewrite bool_decide_eq_true_2, b2z_odd | by rewrite bool_decide_eq_false_2]. Qed.

Lemma spread_mask d ds i : spread d ds i .& mask_of d ds = spread d ds i.
Proof.
  revert i. induction ds as [|e ds IH]; intros i; [done|].
  rewrite spread_cons. cbn [mask_of]. rewrite land_cons, IH. do 2 f_equal.
  by destruct (bool_decide (e = d)), (Z.odd i).
Qed.

(** The step of the loops goes from the offset of an index to the next one's. *)
Lemma spread_step d ds i : (spread d ds i - mask_of d ds) .& mask_of d ds = spread d ds (i + 1).
Proof.
  revert i. induction ds as [|e ds IH]; intros i; [done|].
  rewrite !spread_cons. cbn [mask_of]. destruct (decide (e = d)) as [->|Hne].
  - rewrite bool_decide_eq_true_2 by done. cbn [andb Z.b2z]. rewrite Z.odd_add, xorb_true_r.
    destruct (Z.odd i) eqn:Ho; cbn [negb Z.b2z].
    + replace (1 + 2 * spread d ds (i / 2) - (1 + 2 * mask_of d ds))
        with (Z.b2z false + 2 * (spread d ds (i / 2) - mask_of d ds)) by (cbn [Z.b2z]; lia).
      rewrite (land_cons false true), IH. cbn [andb Z.b2z]. do 3 f_equal.
      assert (i mod 2 = 1) by (by rewrite b2z_odd, Ho). Z.div_mod_to_equations. lia.
    + replace (0 + 2 * spread d ds (i / 2) - (1 + 2 * mask_of d ds))
        with (Z.b2z true + 2 * (spread d ds (i / 2) - mask_of d ds - 1)) by (cbn [Z.b2z]; lia).
      rewrite (land_cons true true), land_sub_succ by apply spread_mask. cbn [andb Z.b2z]. do 3 f_equal.
      assert (i mod 2 = 0) by (by rewrite b2z_odd, Ho). Z.div_mod_to_equations. lia.
  - rewrite bool_decide_eq_false_2 by done. cbn [andb Z.b2z].
    replace (0 + 2 * spread d ds i - (0 + 2 * mask_of d ds))
      with (Z.b2z false + 2 * (spread d ds i - mask_of d ds)) by (cbn [Z.b2z]; lia).
    by rewrite (land_cons false false), IH.
Qed.

Lemma spread_0 d ds : spread d ds 0 = 0.
Proof. induction ds as [|e ds IH]; [done|]. cbn [spread]. change (0 / 2) with 0. rewrite IH. by case_decide. Qed.

Lemma spread_bound d ds i : 0 <= spread d ds i < 2 ^ zlen ds.
Proof.
  revert i. induction ds as [|e ds IH]; intros i; [done|]. rewrite spread_cons. cbn [length].
  rewrite Nat2Z.inj_succ, Z.pow_succ_r by lia.
  specialize (IH (if decide (e = d) then i / 2 else i)). pose proof (b2z_bounds (bool_decide (e = d) && Z.odd i)). lia.
Qed.

Lemma mask_bound d ds : 0 <= mask_of d ds < 2 ^ zlen ds.
Proof.
  induction ds as [|e ds IH]; [done|]. cbn [mask_of length]. rewrite Nat2Z.inj_succ, Z.pow_succ_r by lia.
  pose proof (b2z_bounds (bool_decide (e = d))). lia.
Qed.

Lemma zorder_spread ds x y z : zorder ds x y z = spread DX ds x + spread DY ds y + spread DZ ds z.
Proof.
  revert x y z. induction ds as [|e ds IH]; intros x y z; [done|].
  destruct e; cbn [zorder spread]; rewrite IH; repeat case_decide; try done; lia.
Qed.

Lemma zorder_bound ds x y z : 0 <= zorder ds x y z < 2 ^ zlen ds.
Proof.
  revert x y z. induction ds as [|e ds IH]; intros x y z; [done|]. cbn [length].
  rewrite Nat2Z.inj_succ, Z.pow_succ_r by lia.
  destruct e; cbn [zorder]; [specialize (IH (x / 2) y z) | specialize (IH x (y / 2) z) | specialize (IH x y (z / 2))];
    [pose proof (Z.mod_pos_bound x 2 ltac:(lia)) | pose proof (Z.mod_pos_bound y 2 ltac:(lia))
    | pose proof (Z.mod_pos_bound z 2 ltac:(lia))]; lia.
Qed.

Lemma owned_nonneg d ds : 0 <= owned d ds.
Proof. induction ds as [|e ds IH]; [done|]. cbn [owned]. pose proof (b2z_bounds (bool_decide (e = d))). lia. Qed.

Lemma owned_total ds : owned DX ds + owned DY ds + owned DZ ds = zlen ds.
Proof. induction ds as [|[] ds IH]; [done | cbn [owned length]; repeat case_bool_decide; cbn [Z.b2z]; simplify_eq; lia..]. Qed.

Lemma mod_pow_succ x k : 0 <= k -> x mod 2 ^ (1 + k) = x mod 2 + 2 * ((x / 2) mod 2 ^ k).
Proof. intros Hk. rewrite Z.pow_add_r by lia. by rewrite Z.rem_mul_r by lia. Qed.

(** Reading the coordinates back off an offset. *)
Lemma texel_at_zorder ds x y z :
  texel_at ds (zorder ds x y z) = (x mod 2 ^ owned DX ds, y mod 2 ^ owned DY ds, z mod 2 ^ owned DZ ds).
Proof.
  revert x y z. induction ds as [|e ds IH]; intros x y z.
  { cbn [texel_at owned]. by rewrite !Z.mod_1_r. }
  pose proof (owned_nonneg DX ds). pose proof (owned_nonneg DY ds). pose proof (owned_nonneg DZ ds).
  assert (Hdm : forall r q, (r mod 2 + 2 * q) / 2 = q /\ (r mod 2 + 2 * q) mod 2 = r mod 2)
    by (intros r q; pose proof (Z.mod_pos_bound r 2 ltac:(lia)); split; Z.div_mod_to_equations; lia).
  destruct e; cbn [zorder texel_at owned]; repeat case_bool_decide; try done; cbn [Z.b2z];
    rewrite mod_pow_succ, !Z.add_0_l by lia.
  - destruct (Hdm x (zorder ds (x / 2) y z)) as [-> ->]. by rewrite IH.
  - destruct (Hdm y (zorder ds x (y / 2) z)) as [-> ->]. by rewrite IH.
  - destruct (Hdm z (zorder ds x y (z / 2))) as [-> ->]. by rewrite IH.
Qed.

(** Every offset is the offset of the texel read off it. *)
Lemma zorder_texel_at ds o : 0 <= o < 2 ^ zlen ds ->
  let '(x, y, z) := texel_at ds o in
  zorder ds x y z = o /\ 0 <= x < 2 ^ owned DX ds /\ 0 <= y < 2 ^ owned DY ds /\ 0 <= z < 2 ^ owned DZ ds.
Proof.
  revert o. induction ds as [|e ds IH]; intros o Ho.
  { cbn in *. lia. }
  cbn [length] in Ho. rewrite Nat2Z.inj_succ, Z.pow_succ_r in Ho by lia.
  specialize (IH (o / 2)). cbn [texel_at]. destruct (texel_at ds (o / 2)) as [[x y] z].
  destruct IH as (IHo & Hx & Hy & Hz); [Z.div_mod_to_equations; lia|].
  pose proof (owned_nonneg DX ds). pose proof (owned_nonneg DY ds). pose proof (owned_nonneg DZ ds).
  pose proof (Z.mod_pos_bound o 2 ltac:(lia)) as Hm.
  assert (Hdm : forall q, (o mod 2 + 2 * q) / 2 = q /\ (o mod 2 + 2 * q) mod 2 = o mod 2)
    by (intros q; split; Z.div_mod_to_equations; lia).
  assert (Ho2 : o mod 2 + 2 * (o / 2) = o) by (Z.div_mod_to_equations; lia).
  destruct e; cbn [zorder owned]; repeat case_bool_decide; try done; cbn [Z.b2z];
    rewrite !Z.add_0_l, Z.pow_add_r by lia.
  - destruct (Hdm x) as [-> ->]. rewrite IHo. lia.
  - destruct (Hdm y) as [-> ->]. rewrite IHo. lia.
  - destruct (Hdm z) as [-> ->]. rewrite IHo. lia.
Qed.

(** ** The layout of a texture

    Bit [j] of each coordinate that has one, for [j] from 0 up. *)

Definition has (b : bool) (d : dim) : list dim := if b then [d] else [].

Definition level (a b c j : Z) : list dim := has (j <? a) DX ++ has (j <? b) DY ++ has (j <? c) DZ.

Definition layout_upto (a b c : Z) (n : nat) : list dim := flat_map (level a b c) (seqZ 0 (Z.of_nat n)).

Definition layout (a b c : Z) : list dim := layout_upto a b c (Z.to_nat (Z.max a (Z.max b c))).

Lemma layout_upto_S a b c n : layout_upto a b c (S n) = layout_upto a b c n ++ level a b c (Z.of_nat n).
Proof.
  unfold layout_upto. replace (Z.of_nat (S n)) with (Z.of_nat n + 1) by lia.
  rewrite seqZ_app by lia. rewrite flat_map_app. cbn [seqZ]. f_equal.
  change (seqZ (0 + Z.of_nat n) 1) with [0 + Z.of_nat n]. cbn [flat_map]. by rewrite app_nil_r, Z.add_0_l.
Qed.

Lemma owned_app d ds es : owned d (ds ++ es) = owned d ds + owned d es.
Proof. induction ds as [|e ds IH]; [done|]. cbn [app owned]. lia. Qed.

Lemma owned_layout a b c n : 0 <= a -> 0 <= b -> 0 <= c ->
  owned DX (layout_upto a b c n) = Z.min a (Z.of_nat n) /\
  owned DY (layout_upto a b c n) = Z.min b (Z.of_nat n) /\
  owned DZ (layout_upto a b c n) = Z.min c (Z.of_nat n).
Proof.
  intros Ha Hb Hc. induction n as [|n (IHx & IHy & IHz)]; [change (layout_upto a b c 0) with (@nil dim); cbn [owned]; lia|].
  rewrite layout_upto_S, !owned_app, IHx, IHy, IHz. unfold level, has.
  destruct (Z.ltb_spec (Z.of_nat n) a), (Z.ltb_spec (Z.of_nat n) b), (Z.ltb_spec (Z.of_nat n) c);
    cbn [app owned]; repeat (case_bool_decide; try done); cbn [Z.b2z]; lia.
Qed.

Lemma mask_app d ds es : mask_of d (ds ++ es) = mask_of d ds + 2 ^ zlen ds * mask_of d es.
Proof.
  induction ds as [|e ds IH]; [cbn [app mask_of length]; lia|]. cbn [app mask_of length].
  rewrite IH, Nat2Z.inj_succ, Z.pow_succ_r by lia. lia.
Qed.

(** Giving the next bit to a dimension, or not. *)
Lemma give_bit (b : bool) d ds :
  (if b then mask_of d ds .| 2 ^ zlen ds else mask_of d ds) = mask_of d (ds ++ has b d) /\
  (forall e, e <> d -> mask_of e (ds ++ has b d) = mask_of e ds) /\
  (zlen (ds ++ has b d) <= 31 -> (if b then u32 (2 ^ zlen ds ≪ 1) else 2 ^ zlen ds) = 2 ^ zlen (ds ++ has b d)).
Proof.
  destruct b; cbn [has]; [| by rewrite app_nil_r].
  rewrite mask_app, length_app. cbn [mask_of length]. rewrite bool_decide_eq_true_2 by done. split_and!.
  - replace (2 ^ zlen ds) with (1 ≪ zlen ds) at 1 by (rewrite Z.shiftl_mul_pow2; lia).
    rewrite lor_shiftl_add by (lia || apply mask_bound). cbn [Z.b2z]. lia.
  - intros e He. rewrite mask_app. cbn [mask_of]. rewrite bool_decide_eq_false_2 by done. cbn [Z.b2z]. lia.
  - intros Hl. rewrite Z.shiftl_mul_pow2 by lia.
    replace (Z.of_nat (length ds + 1)) with (zlen ds + 1) by lia. rewrite Z.pow_add_r by lia.
    apply Z.mod_small. split; [lia|]. change (2 ^ 32) with (2 ^ 31 * 2).
    assert (2 ^ zlen ds <= 2 ^ 30) by (apply Z.pow_le_mono_r; lia). lia.
Qed.

Lemma mask_loop_layout a b c : 0 <= a -> 0 <= b -> 0 <= c -> a + b + c <= 31 ->
  forall fuel n, Z.max a (Z.max b c) - Z.of_nat n < Z.of_nat fuel -> Z.of_nat n <= Z.max a (Z.max b c) ->
  let ds := layout_upto a b c n in let L := layout a b c in
  mask_loop fuel (2 ^ a) (2 ^ b) (2 ^ c) (mask_of DX ds) (mask_of DY ds) (mask_of DZ ds)
    (2 ^ Z.of_nat n) (2 ^ zlen ds) = Ok (mask_of DX L, mask_of DY L, mask_of DZ L, 2 ^ zlen L).
Proof.
  intros Ha Hb Hc Hsum. induction fuel as [|fuel IH]; intros n Hf Hn; [lia|]. cbn zeta in *.
  set (ds := layout_upto a b c n). cbn [mask_loop].
  assert (Hlt : forall k, 0 <= k -> (2 ^ Z.of_nat n <? 2 ^ k) = (Z.of_nat n <? k)).
  { intros k Hk. destruct (Z.ltb_spec (Z.of_nat n) k) as [H|H].
    - apply Z.ltb_lt, Z.pow_lt_mono_r; lia.
    - apply Z.ltb_ge, Z.pow_le_mono_r; lia. }
  rewrite !Hlt by done. set (bx := Z.of_nat n <? a). set (by_ := Z.of_nat n <? b). set (bz := Z.of_nat n <? c).
  assert (Hnext : layout_upto a b c (S n) = ((ds ++ has bx DX) ++ has by_ DY) ++ has bz DZ)
    by (rewrite layout_upto_S, <- !app_assoc; done).
  assert (Hlen : zlen (layout_upto a b c (S n)) <= 31).
  { rewrite <- owned_total. destruct (owned_layout a b c (S n)) as (-> & -> & ->); lia. }
  rewrite Hnext, !length_app in Hlen.
  destruct (give_bit bx DX ds) as (-> & Ox & ->); [|rewrite length_app; lia].
  destruct (give_bit by_ DY (ds ++ has bx DX)) as (Ey & Oy & ->); [|rewrite !length_app; lia].
  rewrite (Ox DY) in Ey by done. rewrite Ey.
  destruct (give_bit bz DZ ((ds ++ has bx DX) ++ has by_ DY)) as (Ez & Oz & ->); [|rewrite !length_app; lia].
  rewrite (Oy DZ), (Ox DZ) in Ez by done. rewrite Ez.
  rewrite <- (Oy DX), <- (Oz DX) by done. rewrite <- (Oz DY) by done. rewrite <- Hnext.
  destruct (bx || by_ || bz) eqn:Ebits.
  - rewrite Z.shiftl_mul_pow2 by lia.
    replace (2 ^ Z.of_nat n * 2 ^ 1) with (2 ^ Z.of_nat (S n)) by (rewrite Nat2Z.inj_succ, Z.pow_succ_r; lia).
    assert (Hlt' : Z.of_nat n < Z.max a (Z.max b c))
      by (apply orb_prop in Ebits as [[E|E]%orb_prop|E]; apply Z.ltb_lt in E; lia).
    rewrite u32_small.
    + apply IH; lia.
    + split; [lia|]. apply Z.pow_lt_mono_r; lia.
  - apply orb_false_elim in Ebits as [[E1 E2]%orb_false_elim E3]. apply Z.ltb_ge in E1, E2, E3.
    rewrite Hnext. unfold bx, by_, bz. rewrite !(proj2 (Z.ltb_ge _ _)) by lia. cbn [has].
    rewrite !app_nil_r. unfold ds, layout. by replace (Z.to_nat (Z.max a (Z.max b c))) with n by lia.
Qed.

Lemma masks_cover ds : Z.lxor (Z.lxor (mask_of DX ds) (mask_of DY ds)) (mask_of DZ ds) = 2 ^ zlen ds - 1.
Proof.
  induction ds as [|e ds IH]; [done|]. cbn [mask_of length]. rewrite !lxor_cons, IH, Nat2Z.inj_succ, Z.pow_succ_r by lia.
  destruct e; repeat (case_bool_decide; try done); cbn [xorb Z.b2z]; lia.
Qed.

Lemma layout_length a b c : 0 <= a -> 0 <= b -> 0 <= c -> zlen (layout a b c) = a + b + c.
Proof.
  intros Ha Hb Hc. rewrite <- owned_total. unfold layout.
  destruct (owned_layout a b c (Z.to_nat (Z.max a (Z.max b c)))) as (-> & -> & ->); lia.
Qed.

Lemma layout_owned a b c : 0 <= a -> 0 <= b -> 0 <= c ->
  owned DX (layout a b c) = a /\ owned DY (layout a b c) = b /\ owned DZ (layout a b c) = c.
Proof.
  intros Ha Hb Hc. unfold layout.
  destruct (owned_layout a b c (Z.to_nat (Z.max a (Z.max b c)))) as (-> & -> & ->); lia.
Qed.

(** The masks of a texture are those of its layout, and pass the assertion. *)
Lemma generate_masks a b c : 0 <= a -> 0 <= b -> 0 <= c -> a + b + c <= 31 ->
  let L := layout a b c in
  generate_swizzle_masks (2 ^ a) (2 ^ b) (2 ^ c) = Ok (mask_of DX L, mask_of DY L, mask_of DZ L).
Proof.
  intros Ha Hb Hc Hs. cbn zeta. unfold generate_swizzle_masks.
  pose proof (mask_loop_layout a b c Ha Hb Hc Hs 33 0 ltac:(lia) ltac:(lia)) as H. cbn zeta in H.
  change (layout_upto a b c 0) with (@nil dim) in H. cbn [mask_of length] in H.
  change (2 ^ Z.of_nat 0) with 1 in H. rewrite H. cbn [mbind outcome_bind].
  rewrite masks_cover, Z.mod_small, Z.eqb_refl; [done|].
  pose proof (layout_length a b c Ha Hb Hc) as ->. split; [lia|].
  assert (2 ^ (a + b + c) <= 2 ^ 31) by (apply Z.pow_le_mono_r; lia). lia.
Qed.

(** The texels of a texture and the places of its swizzled form. *)
Lemma zorder_inj a b c x y z x' y' z' : 0 <= a -> 0 <= b -> 0 <= c ->
  0 <= x < 2 ^ a -> 0 <= y < 2 ^ b -> 0 <= z < 2 ^ c -> 0 <= x' < 2 ^ a -> 0 <= y' < 2 ^ b -> 0 <= z' < 2 ^ c ->
  zorder (layout a b c) x y z = zorder (layout a b c) x' y' z' -> (x, y, z) = (x', y', z').
Proof.
  intros Ha Hb Hc Hx Hy Hz Hx' Hy' Hz' E. apply (f_equal (texel_at (layout a b c))) in E.
  rewrite !texel_at_zorder in E. destruct (layout_owned a b c Ha Hb Hc) as (Eo & Eo' & Eo'').
  rewrite Eo, Eo', Eo'', !Z.mod_small in E by lia. exact E.
Qed.

(** ** The loops as one list of copies *)

Fixpoint iter {A} (l : list A) (f : A -> list Z -> outcome (list Z)) (dst : list Z) : outcome (list Z) :=
  match l with
  | [] => Ok dst
  | a :: l => dst ← f a dst; iter l f dst
  end.

Lemma iter_ext {A} (l : list A) f g dst : (forall a dst, a ∈ l -> f a dst = g a dst) -> iter l f dst = iter l g dst.
Proof.
  revert dst. induction l as [|a l IH]; intros dst H; [done|]. cbn [iter]. rewrite H by left.
  destruct (g a dst); cbn [mbind outcome_bind]; [| done..]. apply IH. intros b d Hb. apply H. by right.
Qed.

Lemma iter_app {A} (l1 l2 : list A) f dst : iter (l1 ++ l2) f dst = (dst ← iter l1 f dst; iter l2 f dst).
Proof.
  revert dst. induction l1 as [|a l1 IH]; intros dst; [done|]. cbn [app iter].
  destruct (f a dst); cbn [mbind outcome_bind]; [apply IH | done..].
Qed.

Lemma iter_flat_map {A B} (g : B -> list A) (l : list B) f dst :
  iter (flat_map g l) f dst = iter l (fun b => iter (g b) f) dst.
Proof.
  revert dst. induction l as [|b l IH]; intros dst; [done|]. cbn [flat_map iter]. rewrite iter_app.
  destruct (iter (g b) f dst); cbn [mbind outcome_bind]; [apply IH | done..].
Qed.

Lemma iter_map {A B} (g : B -> A) (l : list B) f dst : iter (map g l) f dst = iter l (fun b => f (g b)) dst.
Proof.
  revert dst. induction l as [|b l IH]; intros dst; [done|]. cbn [map iter].
  destruct (f (g b) dst); cbn [mbind outcome_bind]; [apply IH | done..].
Qed.

Lemma land_u32 v m : 0 <= m < 2 ^ 32 -> u32 v .& m = v .& m.
Proof.
  intros Hm. rewrite <- (Z.land_ones v 32), <- Z.land_assoc by lia.
  by rewrite (Z.land_comm (Z.ones 32)), Z.land_ones, (Z.mod_small m) by lia.
Qed.

(** A loop visits the indices in order with their spread offsets. *)
Lemma masked_for_iter d ds body : zlen ds <= 31 -> forall n i dst,
  masked_for n i (spread d ds i) (mask_of d ds) body dst =
    iter (seqZ i (Z.of_nat n)) (fun j => body j (spread d ds j)) dst.
Proof.
  intros Hl. induction n as [|n IH]; intros i dst; [done|]. cbn [masked_for].
  rewrite seqZ_cons by lia. cbn [iter]. replace (Z.pred (Z.of_nat (S n))) with (Z.of_nat n) by lia.
  destruct (body i (spread d ds i) dst) as [dst'| | |]; cbn [mbind outcome_bind]; [| done..].
  assert (Hm : 2 ^ zlen ds <= 2 ^ 31) by (apply Z.pow_le_mono_r; lia).
  pose proof (mask_bound d ds). rewrite land_u32 by lia. rewrite spread_step, IH. by rewrite Z.add_1_r.
Qed.

(** The texels in the order of the loops. *)
Definition texels (w h d : Z) : list (Z * Z * Z) :=
  flat_map (fun z => flat_map (fun y => map (fun x => (x, y, z)) (seqZ 0 w)) (seqZ 0 h)) (seqZ 0 d).

Lemma elem_of_texels w h d x y z : (x, y, z) ∈ texels w h d <-> 0 <= x < w /\ 0 <= y < h /\ 0 <= z < d.
Proof.
  assert (Hs : forall i n, In i (seqZ 0 n) <-> 0 <= i < n)
    by (intros i n; rewrite <- list_elem_of_In, elem_of_seqZ; lia).
  unfold texels. rewrite list_elem_of_In, in_flat_map. split.
  - intros (z' & Hz & (y' & Hy & (x' & [= <- <- <-] & Hx)%in_map_iff)%in_flat_map).
    apply Hs in Hx, Hy, Hz. done.
  - intros (Hx & Hy & Hz). apply Hs in Hx, Hy, Hz. exists z. split; [done|].
    apply in_flat_map. exists y. split; [done|]. apply in_map_iff. by exists x.
Qed.

Lemma box_iter ds (body : Z -> Z -> Z -> Z -> Z -> Z -> list Z -> outcome (list Z)) w h d dst :
  zlen ds <= 31 -> 0 <= w -> 0 <= h -> 0 <= d ->
  masked_for (Z.to_nat d) 0 0 (mask_of DZ ds) (fun z oz => masked_for (Z.to_nat h) 0 0 (mask_of DY ds)
    (fun y oy => masked_for (Z.to_nat w) 0 0 (mask_of DX ds) (fun x ox => body x y z ox oy oz))) dst =
  iter (texels w h d) (fun '(x, y, z) => body x y z (spread DX ds x) (spread DY ds y) (spread DZ ds z)) dst.
Proof.
  intros Hl Hw Hh Hd. unfold texels. rewrite iter_flat_map.
  pose proof (masked_for_iter DZ ds (fun z oz => masked_for (Z.to_nat h) 0 0 (mask_of DY ds)
    (fun y oy => masked_for (Z.to_nat w) 0 0 (mask_of DX ds) (fun x ox => body x y z ox oy oz))) Hl (Z.to_nat d) 0 dst) as E.
  rewrite spread_0, Z2Nat.id in E by done. rewrite E. apply iter_ext. clear E dst. intros z dst _.
  rewrite iter_flat_map.
  pose proof (masked_for_iter DY ds (fun y oy => masked_for (Z.to_nat w) 0 0 (mask_of DX ds)
    (fun x ox => body x y z ox oy (spread DZ ds z))) Hl (Z.to_nat h) 0 dst) as E.
  rewrite spread_0, Z2Nat.id in E by done. rewrite E. apply iter_ext. clear E dst. intros y dst _.
  rewrite iter_map.
  pose proof (masked_for_iter DX ds (fun x ox => body x y z ox (spread DY ds y) (spread DZ ds z)) Hl (Z.to_nat w) 0 dst) as E.
  rewrite spread_0, Z2Nat.id in E by done. exact E.
Qed.

(** Copies to disjoint places: every copy is seen at the end, and the rest of the
    destination is left alone. *)
Lemma copies_spec {A} `{EqDecision A} (to from : A -> Z) (src : list Z) (n : Z) : 0 <= n -> forall ops dst,
  (forall p q, p ∈ ops -> q ∈ ops -> p <> q -> to p + n <= to q \/ to q + n <= to p) ->
  (forall p, p ∈ ops -> 0 <= from p /\ from p + n <= zlen src /\ 0 <= to p /\ to p + n <= zlen dst) ->
  exists dst', iter ops (fun p dst => memcpy dst (to p) src (from p) n) dst = Ok dst' /\ zlen dst' = zlen dst /\
    (forall p k, p ∈ ops -> 0 <= k < n -> nthZ dst' (to p + k) = nthZ src (from p + k)) /\
    (forall j, (forall p, p ∈ ops -> ~ to p <= j < to p + n) -> nthZ dst' j = nthZ dst j).
Proof.
  intros Hn. induction ops as [|p ops IH]; intros dst Hdis Hin.
  { exists dst. split_and!; [done.. | by intros ? ? ?%elem_of_nil | done]. }
  destruct (Hin p) as (Hf & Hf' & Ht & Ht'); [left|].
  destruct (slice_spec src (from p) n) as (bs & Hs & Hbl & Hbs); [lia..|].
  destruct (blit_spec dst (to p) bs) as (d1 & Hb & Hl1 & Hd1); [lia..|].
  destruct (IH d1) as (d2 & Hrun & Hl2 & Hops & Hrest).
  - intros q r Hq Hr. apply Hdis; by right.
  - intros q Hq. rewrite Hl1. apply Hin. by right.
  - exists d2. split_and!.
    + cbn [iter]. replace (memcpy dst (to p) src (from p) n) with (Ok d1) by (unfold memcpy; by rewrite Hs).
      exact Hrun.
    + lia.
    + intros q k Hq Hk. destruct (decide (q ∈ ops)) as [Hq' | Hq']; [by apply Hops|].
      apply elem_of_cons in Hq as [-> | Hq]; [|done]. rewrite Hrest.
      * rewrite Hd1, Hbl, (proj2 (Z.leb_le _ _)), (proj2 (Z.ltb_lt _ _)) by lia. cbn [andb].
        rewrite Hbs by lia. f_equal. lia.
      * intros r Hr. destruct (Hdis p r); [left | by right | by intros -> | lia..].
    + intros j Hj. rewrite Hrest by (intros q Hq; apply Hj; by right).
      rewrite Hd1, Hbl. assert (~ to p <= j < to p + n) by (apply Hj; left). zcases.
Qed.

(** ** The conversions *)

(** A texture whose linear layout does not overlap and whose sizes fit 32 bits. *)
Record texture (a b c row slice bpp : Z) : Prop := {
  tex_a : 0 <= a; tex_b : 0 <= b; tex_c : 0 <= c; tex_bits : a + b + c <= 31;
  tex_bpp : 0 < bpp; tex_size : 2 ^ (a + b + c) * bpp < 2 ^ 32;
  tex_row : 0 <= row; tex_rows : 2 ^ b * row < 2 ^ 32; tex_slice : 0 <= slice;
  tex_row_room : 0 < b -> 2 ^ a * bpp <= row;
  tex_slice_room : 0 < c -> (2 ^ b - 1) * row + 2 ^ a * bpp <= slice
}.

Section Convert.
Context (a b c row slice_ bpp : Z) (tex : texture a b c row slice_ bpp).

Definition linear (x y z : Z) : Z := z * slice_ + y * row + x * bpp.
Definition linear_size : Z := (2 ^ c - 1) * slice_ + (2 ^ b - 1) * row + 2 ^ a * bpp.
Definition swizzled_size : Z := 2 ^ (a + b + c) * bpp.
Definition place (x y z : Z) : Z := zorder (layout a b c) x y z * bpp.
Definition in_texture (x y z : Z) : Prop := 0 <= x < 2 ^ a /\ 0 <= y < 2 ^ b /\ 0 <= z < 2 ^ c.

Lemma pow_pos k : 0 <= k -> 0 < 2 ^ k.
Proof. intros Hk. by apply Z.pow_pos_nonneg. Qed.

(** The machine arithmetic of the loops does not wrap. *)
Lemma offsets_exact x y z : in_texture x y z ->
  let L := layout a b c in
  u32 ((spread DY L y + spread DZ L z) * bpp) + u32 (spread DX L x * bpp) = place x y z /\
  z * slice_ + u32 (y * row) + u32 (x * bpp) = linear x y z.
Proof.
  intros (Hx & Hy & Hz). destruct tex. cbn zeta. unfold place, linear.
  pose proof (zorder_bound (layout a b c) x y z) as Ho. rewrite layout_length in Ho by done.
  rewrite zorder_spread in *.
  pose proof (spread_bound DX (layout a b c) x). pose proof (spread_bound DY (layout a b c) y).
  pose proof (spread_bound DZ (layout a b c) z).
  assert (Hw : 2 ^ a <= 2 ^ (a + b + c)) by (apply Z.pow_le_mono_r; lia).
  rewrite (Z.mod_small (_ * bpp)), (Z.mod_small (spread DX _ _ * bpp)) by nia.
  rewrite (Z.mod_small (y * row)), (Z.mod_small (x * bpp)) by nia. lia.
Qed.

Lemma place_bound x y z : in_texture x y z -> 0 <= place x y z /\ place x y z + bpp <= swizzled_size.
Proof.
  intros _. destruct tex. unfold place, swizzled_size.
  pose proof (zorder_bound (layout a b c) x y z) as Ho. rewrite layout_length in Ho by done. nia.
Qed.

Lemma place_disjoint p q : let '(x, y, z) := p in let '(x', y', z') := q in
  in_texture x y z -> in_texture x' y' z' -> p <> q ->
  place x y z + bpp <= place x' y' z' \/ place x' y' z' + bpp <= place x y z.
Proof.
  destruct p as [[x y] z], q as [[x' y'] z']. intros (Hx & Hy & Hz) (Hx' & Hy' & Hz') Hne. destruct tex.
  assert (Ho : zorder (layout a b c) x y z <> zorder (layout a b c) x' y' z')
    by (intros E; apply Hne; by apply (zorder_inj a b c)).
  unfold place. nia.
Qed.

Lemma linear_bound x y z : in_texture x y z -> 0 <= linear x y z /\ linear x y z + bpp <= linear_size.
Proof. intros (Hx & Hy & Hz). destruct tex. unfold linear, linear_size. nia. Qed.

Lemma linear_disjoint p q : let '(x, y, z) := p in let '(x', y', z') := q in
  in_texture x y z -> in_texture x' y' z' -> p <> q ->
  linear x y z + bpp <= linear x' y' z' \/ linear x' y' z' + bpp <= linear x y z.
Proof.
  destruct p as [[x y] z], q as [[x' y'] z']. intros (Hx & Hy & Hz) (Hx' & Hy' & Hz') Hne. destruct tex.
  unfold linear.
  assert (Hb : y <> y' -> 0 < b) by (intros; destruct (Z.eq_dec b 0) as [->|]; lia).
  assert (Hc : z <> z' -> 0 < c) by (intros; destruct (Z.eq_dec c 0) as [->|]; lia).
  destruct (Z.lt_trichotomy z z') as [Hlt | [-> | Hlt]].
  - left. specialize (tex_slice_room0 ltac:(lia)). nia.
  - destruct (Z.lt_trichotomy y y') as [Hlt | [-> | Hlt]].
    + left. specialize (tex_row_room0 ltac:(lia)). nia.
    + assert (x <> x') by congruence. nia.
    + right. specialize (tex_row_room0 ltac:(lia)). nia.
  - right. specialize (tex_slice_room0 ltac:(lia)). nia.
Qed.

Definition place_of (p : Z * Z * Z) : Z := let '(x, y, z) := p in place x y z.
Definition linear_of (p : Z * Z * Z) : Z := let '(x, y, z) := p in linear x y z.

Abbreviation all_texels := (texels (2 ^ a) (2 ^ b) (2 ^ c)).

Lemma in_all_texels x y z : (x, y, z) ∈ all_texels <-> in_texture x y z.
Proof. apply elem_of_texels. Qed.

(** Both conversions are one list of copies. *)
Lemma swizzle_copies src dst :
  swizzle_box src (2 ^ a) (2 ^ b) (2 ^ c) dst row slice_ bpp =
    iter all_texels (fun p dst => memcpy dst (place_of p) src (linear_of p) bpp) dst.
Proof.
  unfold swizzle_box. rewrite multiversion_eq. unfold swizzle_box_internal. pose proof tex as [].
  rewrite generate_masks by done. cbn [mbind outcome_bind].
  rewrite (box_iter (layout a b c) (fun x y z ox oy oz dst =>
    memcpy dst (u32 ((oy + oz) * bpp) + u32 (ox * bpp)) src (z * slice_ + u32 (y * row) + u32 (x * bpp)) bpp))
    by (rewrite ?layout_length by done; try apply Z.pow_nonneg; lia).
  apply iter_ext. intros [[x y] z] d Hp%in_all_texels.
  destruct (offsets_exact x y z Hp) as [-> ->]. done.
Qed.

Lemma unswizzle_copies src dst :
  unswizzle_box src (2 ^ a) (2 ^ b) (2 ^ c) dst row slice_ bpp =
    iter all_texels (fun p dst => memcpy dst (linear_of p) src (place_of p) bpp) dst.
Proof.
  unfold unswizzle_box. rewrite multiversion_eq. unfold unswizzle_box_internal. pose proof tex as [].
  rewrite generate_masks by done. cbn [mbind outcome_bind].
  rewrite (box_iter (layout a b c) (fun x y z ox oy oz dst =>
    memcpy dst (z * slice_ + u32 (y * row) + u32 (x * bpp)) src (u32 ((oy + oz) * bpp) + u32 (ox * bpp)) bpp))
    by (rewrite ?layout_length by done; try apply Z.pow_nonneg; lia).
  apply iter_ext. intros [[x y] z] d Hp%in_all_texels.
  destruct (offsets_exact x y z Hp) as [-> ->]. done.
Qed.

Lemma swizzle_spec src dst : linear_size <= zlen src -> swizzled_size <= zlen dst ->
  exists dst', swizzle_box src (2 ^ a) (2 ^ b) (2 ^ c) dst row slice_ bpp = Ok dst' /\ zlen dst' = zlen dst /\
    forall x y z k, in_texture x y z -> 0 <= k < bpp -> nthZ dst' (place x y z + k) = nthZ src (linear x y z + k).
Proof.
  intros Hs Hd. rewrite swizzle_copies. pose proof (tex_bpp _ _ _ _ _ _ tex).
  destruct (copies_spec place_of linear_of src bpp ltac:(lia) all_texels dst) as (dst' & -> & Hl & Hc & _).
  - intros [[x y] z] [[x' y'] z'] Hp%in_all_texels Hq%in_all_texels Hne. by apply (place_disjoint (x, y, z) (x', y', z')).
  - intros [[x y] z] Hp%in_all_texels. cbn. pose proof (linear_bound x y z Hp). pose proof (place_bound x y z Hp). lia.
  - exists dst'. split; [done|]. split; [done|]. intros x y z k Hp Hk.
    apply (Hc (x, y, z)); [by apply in_all_texels | done].
Qed.

Lemma unswizzle_spec src dst : swizzled_size <= zlen src -> linear_size <= zlen dst ->
  exists dst', unswizzle_box src (2 ^ a) (2 ^ b) (2 ^ c) dst row slice_ bpp = Ok dst' /\ zlen dst' = zlen dst /\
    (forall x y z k, in_texture x y z -> 0 <= k < bpp -> nthZ dst' (linear x y z + k) = nthZ src (place x y z + k)) /\
    (forall j, (forall x y z, in_texture x y z -> ~ linear x y z <= j < linear x y z + bpp) -> nthZ dst' j = nthZ dst j).
Proof.
  intros Hs Hd. rewrite unswizzle_copies. pose proof (tex_bpp _ _ _ _ _ _ tex).
  destruct (copies_spec linear_of place_of src bpp ltac:(lia) all_texels dst) as (dst' & -> & Hl & Hc & Hr).
  - intros [[x y] z] [[x' y'] z'] Hp%in_all_texels Hq%in_all_texels Hne. by apply (linear_disjoint (x, y, z) (x', y', z')).
  - intros [[x y] z] Hp%in_all_texels. cbn. pose proof (linear_bound x y z Hp). pose proof (place_bound x y z Hp). lia.
  - exists dst'. split; [done|]. split; [done|]. split.
    + intros x y z k Hp Hk. apply (Hc (x, y, z)); [by apply in_all_texels | done].
    + intros j Hj. apply Hr. intros [[x y] z] Hp%in_all_texels. by apply Hj.
Qed.

End Convert.

(** Swizzling a texture of 2^a by 2^b by 2^c texels terminates without
    touching memory outside it and puts every texel at its Z-order place (bits of
    x, y and z interleaved from the lowest, each as long as it has bits); the
    places fill the swizzled texture without gaps: every place is the place of
    exactly the texel whose coordinates are read off it. *)
Theorem swizzle_box_zorder a b c row slice bpp src dst : texture a b c row slice bpp ->
  linear_size a b c row slice bpp <= zlen src -> swizzled_size a b c bpp <= zlen dst ->
  exists dst', swizzle_box src (2 ^ a) (2 ^ b) (2 ^ c) dst row slice bpp = Ok dst' /\ zlen dst' = zlen dst /\
    forall o k, 0 <= o < 2 ^ (a + b + c) -> 0 <= k < bpp ->
    let '(x, y, z) := texel_at (layout a b c) o in
    zorder (layout a b c) x y z = o /\ in_texture a b c x y z /\
    nthZ dst' (o * bpp + k) = nthZ src (z * slice + y * row + x * bpp + k).
Proof.
  intros Htex Hs Hd. destruct (swizzle_spec a b c row slice bpp Htex src dst Hs Hd) as (dst' & Hrun & Hl & Hspec).
  exists dst'. split; [done|]. split; [done|]. intros o k Ho Hk.
  pose proof (zorder_texel_at (layout a b c) o) as Hz. destruct Htex.
  rewrite layout_length in Hz by done. destruct (layout_owned a b c) as (Ex & Ey & Ez); [done..|].
  destruct (texel_at (layout a b c) o) as [[x y] z]. destruct (Hz Ho) as (<- & Hx & Hy & Hz').
  rewrite Ex in Hx. rewrite Ey in Hy. rewrite Ez in Hz'.
  split; [done|]. split; [done|]. by apply Hspec.
Qed.

(** C24: unswizzling a swizzled texture gives every byte of every texel back, into
    any destination, and leaves the padding between rows and slices of the
    destination as it was. *)
Theorem swizzle_roundtrip a b c row slice bpp src mid dst : texture a b c row slice bpp ->
  linear_size a b c row slice bpp <= zlen src -> swizzled_size a b c bpp <= zlen mid ->
  linear_size a b c row slice bpp <= zlen dst ->
  exists mid' dst', swizzle_box src (2 ^ a) (2 ^ b) (2 ^ c) mid row slice bpp = Ok mid' /\
    unswizzle_box mid' (2 ^ a) (2 ^ b) (2 ^ c) dst row slice bpp = Ok dst' /\ zlen dst' = zlen dst /\
    (forall x y z k, in_texture a b c x y z -> 0 <= k < bpp ->
       nthZ dst' (linear row slice bpp x y z + k) = nthZ src (linear row slice bpp x y z + k)) /\
    (forall j, (forall x y z, in_texture a b c x y z ->
         ~ linear row slice bpp x y z <= j < linear row slice bpp x y z + bpp) ->
       nthZ dst' j = nthZ dst j).
Proof.
  intros Htex Hs Hm Hd.
  destruct (swizzle_spec a b c row slice bpp Htex src mid Hs Hm) as (mid' & Hrun & Hl & Hspec).
  destruct (unswizzle_spec a b c row slice bpp Htex mid' dst) as (dst' & Hrun' & Hl' & Hspec' & Hrest); [lia..|].
  exists mid', dst'. split_and!; [done.. | | done].
  intros x y z k Hp Hk. rewrite Hspec' by done. by apply Hspec.
Qed.

Lemma texture_4x2 : texture 2 1 0 5 0 1.
Proof. split; cbn; lia. Qed.

(** Rows of four texels with a byte of padding. *)
Lemma swizzle_box_zorder_witness :
  exists dst', swizzle_box [0; 1; 2; 3; 99; 4; 5; 6; 7] 4 2 1 (replicate 8 0) 5 0 1 = Ok dst' /\
    dst' = [0; 1; 4; 5; 2; 3; 6; 7].
Proof.
  destruct (swizzle_box_zorder 2 1 0 5 0 1 [0; 1; 2; 3; 99; 4; 5; 6; 7] (replicate 8 0) texture_4x2)
    as (dst' & H & _ & _); [done..|].
  exists dst'. split; [exact H|]. vm_compute in H. injection H as <-. reflexivity.
Defined.

Lemma swizzle_roundtrip_witness :
  exists mid' dst', swizzle_box [0; 1; 2; 3; 99; 4; 5; 6; 7] 4 2 1 (replicate 8 0) 5 0 1 = Ok mid' /\
    unswizzle_box mid' 4 2 1 (replicate 9 77) 5 0 1 = Ok dst' /\ nthZ dst' 4 = 77.
Proof.
  destruct (swizzle_roundtrip 2 1 0 5 0 1 [0; 1; 2; 3; 99; 4; 5; 6; 7] (replicate 8 0) (replicate 9 77) texture_4x2)
    as (m & d & H1 & H2 & _ & _ & H3); [done..|].
  exists m, d. split; [exact H1|]. split; [exact H2|]. rewrite H3; [reflexivity|].
  intros x y z (Hx & Hy & Hz). unfold linear. lia.
Defined.
