(* ===== verification/Sha1.v ===== *)
(** * SHA-1 as the EEPROM generator uses it (util/sha1.c)

    [SHA1Context] and its operations as the code has them: a 64-byte block that
    fills byte by byte, a block function that rewrites the five intermediate
    words, padding that may need a second block. [Fips] is the hash as the
    standard defines it, on the whole message, with the message schedule as a
    window of sixteen words; the theorems connect the two for a message that
    arrives in any number of pieces. *)

From stdpp Require Import base numbers list.
From Stdlib Require Import ZArith Lia Btauto.
From S2P Require Import Prelude.

(** ** SHA-1 *)

Record SHA1Context := mkSHA1 {
  intermediate : list Z;
  msg_blk : list Z;
  msg_blk_index : Z;
  msg_length : Z;
  computed : bool
}.

#[export] Instance SHA1Context_eta : Eta SHA1Context := fun c =>
  mkSHA1 (intermediate c) (msg_blk c) (msg_blk_index c) (msg_length c) (computed c).

Definition sha1_rotate (bits val : Z) : Z := u32 (val ≪ bits) .| (val ≫ (32 - bits)).

Definition sha1_fill (ctx : SHA1Context) (a b c d e : Z) : SHA1Context :=
  ctx <| intermediate := [a; b; c; d; e] |>.

(** [cpu_to_be32] of the 32-bit word stored in four bytes: the bytes read most
    significant first. *)
Definition be32 (b0 b1 b2 b3 : Z) : Z := (b0 ≪ 24) .| (b1 ≪ 16) .| (b2 ≪ 8) .| b3.

(** The first loop: sixteen words of the block. *)
Fixpoint sha1_load (n : nat) (i : Z) (blk w : list Z) : outcome (list Z) :=
  match n with
  | O => Ok w
  | S n =>
      b0 ← rd blk (4 * i); b1 ← rd blk (4 * i + 1);
      b2 ← rd blk (4 * i + 2); b3 ← rd blk (4 * i + 3);
      sha1_load n (i + 1) blk (w ++ [be32 b0 b1 b2 b3])
  end.

(** The second loop: the schedule up to [w[79]]. *)
Fixpoint sha1_schedule (n : nat) (i : Z) (w : list Z) : outcome (list Z) :=
  match n with
  | O => Ok w
  | S n =>
      w3 ← rd w (i - 3); w8 ← rd w (i - 8); w14 ← rd w (i - 14); w16 ← rd w (i - 16);
      sha1_schedule n (i + 1) (w ++ [sha1_rotate 1 (w3 .^ w8 .^ w14 .^ w16)])
  end.

Definition sha1_k : list Z := [0x5A827999; 0x6ED9EBA1; 0x8F1BBCDC; 0xCA62C1D6].

(** What the switch on [i / 20] adds to [temp]. *)
Definition sha1_mix (i b c d : Z) : outcome Z :=
  if i / 20 =? 0 then
    k ← rd sha1_k 0; Ok (k + ((b .& c) .| (u32 (Z.lnot b) .& d)))
  else if i / 20 =? 1 then
    k ← rd sha1_k 1; Ok (k + (b .^ c .^ d))
  else if i / 20 =? 2 then
    k ← rd sha1_k 2; Ok (k + ((b .& c) .| (b .& d) .| (c .& d)))
  else if i / 20 =? 3 then
    k ← rd sha1_k 3; Ok (k + (b .^ c .^ d))
  else Ok 0.

(** The working variables. *)
Record sha1_regs := Regs { va : Z; vb : Z; vc : Z; vd : Z; ve : Z }.

(** The third loop, with [temp] accumulated modulo 2^32. *)
Fixpoint sha1_rounds (n : nat) (i : Z) (w : list Z) (s : sha1_regs) : outcome sha1_regs :=
  match n with
  | O => Ok s
  | S n =>
      wi ← rd w i;
      let temp := u32 (sha1_rotate 5 (va s) + wi + ve s) in
      m ← sha1_mix i (vb s) (vc s) (vd s);
      let temp := u32 (temp + m) in
      sha1_rounds n (i + 1) w (Regs temp (va s) (sha1_rotate 30 (vb s)) (vc s) (vd s))
  end.

Definition sha1_process (ctx : SHA1Context) : outcome SHA1Context :=
  a ← rd (intermediate ctx) 0;
  b ← rd (intermediate ctx) 1;
  c ← rd (intermediate ctx) 2;
  d ← rd (intermediate ctx) 3;
  e ← rd (intermediate ctx) 4;
  w ← sha1_load 16 0 (msg_blk ctx) [];
  w ← sha1_schedule 64 16 w;
  s ← sha1_rounds 80 0 w (Regs a b c d e);
  Ok (ctx <| intermediate :=
        [u32 (a + va s); u32 (b + vb s); u32 (c + vc s); u32 (d + vd s); u32 (e + ve s)] |>
          <| msg_blk_index := 0 |>).

(** [ctx->msg_blk[ctx->msg_blk_index++] = v]. *)
Definition sha1_put (ctx : SHA1Context) (v : Z) : outcome SHA1Context :=
  blk ← wr (msg_blk ctx) (msg_blk_index ctx) v;
  Ok (ctx <| msg_blk := blk |> <| msg_blk_index := msg_blk_index ctx + 1 |>).

(** [while (ctx->msg_blk_index < lim)] append a zero byte. *)
Fixpoint sha1_zeros (fuel : nat) (lim : Z) (ctx : SHA1Context) : outcome SHA1Context :=
  if msg_blk_index ctx <? lim then
    match fuel with
    | O => NoFuel
    | S fuel => ctx ← sha1_put ctx 0; sha1_zeros fuel lim ctx
    end
  else Ok ctx.

(** The four bytes that storing [cpu_to_be32(v)] writes. *)
Definition be32_bytes (v : Z) : list Z := [u8 (v ≫ 24); u8 (v ≫ 16); u8 (v ≫ 8); u8 v].

Definition sha1_pad (ctx : SHA1Context) : outcome SHA1Context :=
  ctx ← sha1_put ctx 0x80;
  ctx ← (if msg_blk_index ctx >? 56 then
           ctx ← sha1_zeros 64 64 ctx; sha1_process ctx
         else Ok ctx);
  ctx ← sha1_zeros 64 56 ctx;
  blk ← blit (msg_blk ctx) 56 [0; 0; 0; 0];
  blk ← blit blk 60 (be32_bytes (msg_length ctx));
  sha1_process (ctx <| msg_blk := blk |>).

(** Where [sha1_input] reads from: an array of the caller, or the context's own
    block, which the loop overwrites as it reads. *)
Inductive sha1_src :=
| Ext (data : list Z)
| OwnBlk.

Definition src_get (ctx : SHA1Context) (p : sha1_src) (i : Z) : outcome Z :=
  match p with
  | Ext data => rd data i
  | OwnBlk => rd (msg_blk ctx) i
  end.

Fixpoint sha1_input_loop (n : nat) (i : Z) (p : sha1_src) (ctx : SHA1Context)
    : outcome SHA1Context :=
  match n with
  | O => Ok ctx
  | S n =>
      v ← src_get ctx p i;
      ctx ← sha1_put ctx v;
      ctx ← (if msg_blk_index ctx =? 64 then sha1_process ctx else Ok ctx);
      sha1_input_loop n (i + 1) p ctx
  end.

Definition sha1_input (ctx : SHA1Context) (p : sha1_src) (len : Z) : outcome SHA1Context :=
  let ctx := ctx <| msg_length := u32 (msg_length ctx + u64 (len ≪ 3)) |> in
  sha1_input_loop (Z.to_nat len) 0 p ctx.

(** The twenty bytes written to [data]. *)
Fixpoint sha1_digest (n : nat) (i : Z) (h : list Z) : outcome (list Z) :=
  match n with
  | O => Ok []
  | S n =>
      v ← rd h (i ≫ 2);
      rest ← sha1_digest n (i + 1) h;
      Ok (u8 (v ≫ (8 * (3 - (i .& 3)))) :: rest)
  end.

Definition sha1_result (ctx : SHA1Context) : outcome (SHA1Context * list Z) :=
  ctx ← (if negb (computed ctx) then
           ctx ← sha1_pad ctx;
           Ok (ctx <| msg_length := 0 |> <| computed := true |>)
         else Ok ctx);
  data ← sha1_digest 20 0 (intermediate ctx);
  Ok (ctx, data).

Definition sha1_reset (ctx : SHA1Context) : SHA1Context :=
  (sha1_fill ctx 0x67452301 0xEFCDAB89 0x98BADCFE 0x10325476 0xC3D2E1F0)
    <| msg_blk_index := 0 |> <| computed := false |> <| msg_length := 0 |>.


(** ** The hash of the standard

    FIPS 180-4, with the message schedule computed in a window of the next
    sixteen words. [pre] counts the bytes hashed before the message: 0 for the
    standard hash, 64 where the initial state stands for a hashed key block. *)

Module Fips.

Definition ROTL (n x : Z) : Z := (x * 2 ^ n) mod 2 ^ 32 + x / 2 ^ (32 - n).

Definition Ch (x y z : Z) : Z := (x .& y) .^ (Z.lnot x .& z).
Definition Parity (x y z : Z) : Z := x .^ y .^ z.
Definition Maj (x y z : Z) : Z := (x .& y) .^ (x .& z) .^ (y .& z).

Definition f (t : Z) : Z -> Z -> Z -> Z :=
  if t <? 20 then Ch else if t <? 40 then Parity else if t <? 60 then Maj else Parity.

Definition K (t : Z) : Z :=
  if t <? 20 then 0x5A827999 else if t <? 40 then 0x6ED9EBA1
  else if t <? 60 then 0x8F1BBCDC else 0xCA62C1D6.

Definition next (win : list Z) : Z :=
  ROTL 1 (nthZ win 13 .^ nthZ win 8 .^ nthZ win 2 .^ nthZ win 0).

Fixpoint rounds (n : nat) (t : Z) (win : list Z) (s : sha1_regs) : sha1_regs :=
  match n with
  | O => s
  | S n =>
      let T := (ROTL 5 (va s) + f t (vb s) (vc s) (vd s) + ve s + K t + nthZ win 0) mod 2 ^ 32 in
      rounds n (t + 1) (drop 1 win ++ [next win])
        (Regs T (va s) (ROTL 30 (vb s)) (vc s) (vd s))
  end.

Definition word (blk : list Z) (i : Z) : Z :=
  nthZ blk (4 * i) * 2 ^ 24 + nthZ blk (4 * i + 1) * 2 ^ 16
  + nthZ blk (4 * i + 2) * 2 ^ 8 + nthZ blk (4 * i + 3).

Definition compress (h blk : list Z) : list Z :=
  let s := rounds 80 0 (word blk <$> seqZ 0 16)
             (Regs (nthZ h 0) (nthZ h 1) (nthZ h 2) (nthZ h 3) (nthZ h 4)) in
  zip_with (fun x y => (x + y) mod 2 ^ 32) h [va s; vb s; vc s; vd s; ve s].

(** The first [n] blocks of a message. *)
Fixpoint chain (n : nat) (h bytes : list Z) : list Z :=
  match n with
  | O => h
  | S n => chain n (compress h (take 64 bytes)) (drop 64 bytes)
  end.

Definition be64 (v : Z) : list Z := (fun k => (v / 2 ^ (8 * (7 - k))) mod 256) <$> seqZ 0 8.

Definition padding (pre len : Z) : list Z :=
  0x80 :: replicate (Z.to_nat ((55 - len) mod 64)) 0 ++ be64 (8 * (pre + len)).

Definition padded (pre : Z) (msg : list Z) : list Z := msg ++ padding pre (zlen msg).

Definition digest (h : list Z) : list Z :=
  h ≫= (fun v => (fun k => (v / 2 ^ (8 * (3 - k))) mod 256) <$> seqZ 0 4).

Definition hash (iv : list Z) (pre : Z) (msg : list Z) : list Z :=
  digest (chain (length (padded pre msg) / 64) iv (padded pre msg)).

Definition iv : list Z := [0x67452301; 0xEFCDAB89; 0x98BADCFE; 0x10325476; 0xC3D2E1F0].

End Fips.

(** ** The block function is the standard's *)

Lemma sha1_rotate_ROTL n v : 0 < n < 32 -> in_u 32 v -> sha1_rotate n v = Fips.ROTL n v.
Proof.
  intros Hn Hv. unfold sha1_rotate, Fips.ROTL.
  replace (v / 2 ^ (32 - n)) with (v ≫ (32 - n)) by (rewrite Z.shiftr_div_pow2; lia).
  replace (v * 2 ^ n) with (v ≪ n) by (rewrite Z.shiftl_mul_pow2; lia).
  replace (u32 (v ≪ n)) with ((v mod 2 ^ (32 - n)) ≪ n) by zbits.
  rewrite Z.lor_comm, lor_shiftl_add; [| lia |].
  - rewrite Z.shiftl_mul_pow2 by lia. lia.
  - rewrite Z.shiftr_div_pow2 by lia. split; [apply Z.div_pos; [apply Hv | by apply Z.pow_pos_nonneg; lia] |].
    apply Z.div_lt_upper_bound; [by apply Z.pow_pos_nonneg; lia |].
    rewrite <- Z.pow_add_r by lia. replace (32 - n + n) with 32 by lia. apply Hv.
Qed.

Lemma sha1_rotate_in_u n v : 0 < n < 32 -> in_u 32 v -> in_u 32 (sha1_rotate n v).
Proof. intros Hn Hv. unfold sha1_rotate. auto with words. Qed.

Lemma ROTL_in_u n v : 0 < n < 32 -> in_u 32 v -> in_u 32 (Fips.ROTL n v).
Proof. intros Hn Hv. rewrite <- sha1_rotate_ROTL by done. by apply sha1_rotate_in_u. Qed.

(** Choice and majority: the code's disjunctions are the standard's sums. *)
Lemma sha1_ch b c d : in_u 32 d ->
  (b .& c) .| (u32 (Z.lnot b) .& d) = Fips.Ch b c d.
Proof.
  intros Hd. unfold Fips.Ch. apply Z.bits_inj'. intros i Hi.
  autorewrite with zbits. destruct (Z.ltb_spec i 32); cbn; [btauto |].
  rewrite (testbit_small 32 d) by (done || lia). btauto.
Qed.

Lemma sha1_maj b c d : (b .& c) .| (b .& d) .| (c .& d) = Fips.Maj b c d.
Proof. unfold Fips.Maj. zbits. Qed.

Lemma sha1_mix_spec i b c d : 0 <= i < 80 -> in_u 32 d ->
  sha1_mix i b c d = Ok (Fips.K i + Fips.f i b c d).
Proof.
  intros Hi Hd. unfold sha1_mix, Fips.K, Fips.f.
  assert (i / 20 = if i <? 20 then 0 else if i <? 40 then 1 else if i <? 60 then 2 else 3) as ->.
  { repeat case_match; rewrite ?Z.ltb_lt, ?Z.ltb_ge in *; symmetry;
      [apply (Z.div_unique_pos _ _ _ i) | apply (Z.div_unique_pos _ _ _ (i - 20))
       | apply (Z.div_unique_pos _ _ _ (i - 40)) | apply (Z.div_unique_pos _ _ _ (i - 60))]; lia. }
  destruct (i <? 20); cbn; [by rewrite sha1_ch |].
  destruct (i <? 40); cbn; [done |].
  destruct (i <? 60); cbn; [by rewrite sha1_maj | done].
Qed.

Lemma be32_sum b0 b1 b2 b3 :
  in_u 8 b0 -> in_u 8 b1 -> in_u 8 b2 -> in_u 8 b3 ->
  be32 b0 b1 b2 b3 = b0 * 2 ^ 24 + b1 * 2 ^ 16 + b2 * 2 ^ 8 + b3.
Proof.
  intros H0 H1 H2 H3. unfold be32.
  replace (b0 ≪ 24 .| b1 ≪ 16 .| b2 ≪ 8 .| b3)
    with (b3 .| ((b2 .| ((b1 .| (b0 ≪ 8)) ≪ 8)) ≪ 8)).
  2: { rewrite !Z.shiftl_lor, !Z.shiftl_shiftl by lia.
       change (8 + (8 + 8)) with 24. change (8 + 8) with 16. zbits. }
  rewrite !lor_shiftl_add by (done || lia). lia.
Qed.

Lemma sha1_load_spec n i blk w :
  0 <= i -> 4 * (i + Z.of_nat n) <= zlen blk -> Forall (in_u 8) blk ->
  sha1_load n i blk w = Ok (w ++ (Fips.word blk <$> seqZ i (Z.of_nat n))).
Proof.
  revert i w. induction n as [| n IH]; intros i w Hi Hl Hb; cbn [sha1_load].
  { by rewrite app_nil_r. }
  rewrite !rd_nthZ by lia. cbn [mbind outcome_bind].
  rewrite IH by (done || lia).
  rewrite (seqZ_cons i (Z.of_nat (S n))) by lia. cbn [fmap list_fmap].
  rewrite <- app_assoc. cbn [app]. do 3 f_equal.
  - rewrite be32_sum by (apply nthZ_Forall; [done | lia]). done.
  - do 2 f_equal; lia.
Qed.

(** [w] is a message schedule up to [hi]. *)
Definition scheduled (w : list Z) (hi : Z) : Prop :=
  forall t, 16 <= t < hi ->
  nthZ w t = sha1_rotate 1 (nthZ w (t - 3) .^ nthZ w (t - 8) .^ nthZ w (t - 14) .^ nthZ w (t - 16)).

Lemma scheduled_app w l hi : hi <= zlen w -> scheduled w hi -> scheduled (w ++ l) hi.
Proof.
  intros Hl Hs t Ht. rewrite !nthZ_app_l by lia. by apply Hs.
Qed.

Lemma sha1_schedule_spec n i w :
  zlen w = i -> 16 <= i -> scheduled w i -> Forall (in_u 32) w ->
  exists w', sha1_schedule n i w = Ok w' /\ zlen w' = i + Z.of_nat n /\
    take (Z.to_nat i) w' = w /\ scheduled w' (i + Z.of_nat n) /\ Forall (in_u 32) w'.
Proof.
  revert i w. induction n as [| n IH]; intros i w Hl Hi Hs Hw; cbn [sha1_schedule].
  { exists w. rewrite Z.add_0_r. split_and!; [done.. | | done | done].
    apply take_ge. lia. }
  rewrite !rd_nthZ by lia. cbn [mbind outcome_bind].
  set (v := sha1_rotate 1 _).
  assert (in_u 32 v).
  { apply sha1_rotate_in_u; [lia |]. repeat apply in_u_lxor; try lia;
      (apply nthZ_Forall; [done | lia]). }
  destruct (IH (i + 1) (w ++ [v])) as (w' & E & Hl' & Ht & Hs' & Hw').
  - rewrite length_app. cbn. lia.
  - lia.
  - intros t Ht. destruct (decide (t < i)) as [Hlt | Hge].
    { apply (scheduled_app w [v] i); [lia | done | lia]. }
    replace t with i by lia. rewrite nthZ_app_r, !nthZ_app_l by lia.
    by rewrite Hl, Z.sub_diag.
  - apply Forall_app. split; [done |]. by constructor.
  - exists w'. split_and!; [done | lia | | by rewrite Nat2Z.inj_succ, <- Z.add_1_l, Z.add_assoc | done].
    apply (f_equal (take (Z.to_nat i))) in Ht. rewrite take_take, Nat.min_l in Ht by lia.
    rewrite Ht. rewrite take_app_le by lia. apply take_ge. lia.
Qed.

Definition regs_in_u (s : sha1_regs) : Prop :=
  in_u 32 (va s) /\ in_u 32 (vb s) /\ in_u 32 (vc s) /\ in_u 32 (vd s) /\ in_u 32 (ve s).

(** The window holds the words from [i] on. *)
Definition window (w win : list Z) (i : Z) : Prop :=
  zlen win = 16 /\ forall k, 0 <= k < 16 -> i + k < 80 -> nthZ win k = nthZ w (i + k).

Lemma window_next w win i :
  zlen w = 80 -> scheduled w 80 -> Forall (in_u 32) w -> 0 <= i -> window w win i ->
  window w (drop 1 win ++ [Fips.next win]) (i + 1).
Proof.
  intros Hl Hs Hw Hi [Hwl Hwin]. split; [rewrite length_app, length_drop; cbn; lia |].
  intros k Hk Hik. rewrite nthZ_app, length_drop.
  destruct (Z.ltb_spec k (Z.of_nat (length win - 1))).
  - rewrite nthZ_drop by lia. rewrite Hwin by lia. f_equal. lia.
  - assert (k = 15) as -> by lia.
    replace (15 - Z.of_nat (length win - 1)) with 0 by lia. change (nthZ [?x] 0) with x.
    rewrite Hs by lia. unfold Fips.next. rewrite !Hwin by lia.
    rewrite sha1_rotate_ROTL; [do 2 f_equal; [do 2 f_equal; f_equal; lia | f_equal; lia] | lia |].
    repeat apply in_u_lxor; try lia; (apply nthZ_Forall; [done | lia]).
Qed.

Lemma sha1_rounds_spec n i w win s :
  zlen w = 80 -> scheduled w 80 -> Forall (in_u 32) w -> 0 <= i -> i + Z.of_nat n <= 80 ->
  window w win i -> regs_in_u s ->
  sha1_rounds n i w s = Ok (Fips.rounds n i win s) /\ regs_in_u (Fips.rounds n i win s).
Proof.
  intros Hl Hs Hw. revert i win s. induction n as [| n IH]; intros i win s Hi Hn Hwin Hr;
    cbn [sha1_rounds Fips.rounds]; [done |].
  rewrite rd_nthZ by lia. cbn [mbind outcome_bind].
  destruct Hr as (Ha & Hb & Hc & Hd & He).
  rewrite sha1_mix_spec by (done || lia). cbn [mbind outcome_bind].
  rewrite !sha1_rotate_ROTL by (done || lia).
  rewrite Zplus_mod_idemp_l.
  pose proof (window_next w win i Hl Hs Hw Hi Hwin) as Hwin'.
  destruct Hwin as [Hwl Hwin]. rewrite (Hwin 0), Z.add_0_r by lia.
  replace (Fips.ROTL 5 (va s) + nthZ w i + ve s + (Fips.K i + Fips.f i (vb s) (vc s) (vd s)))
    with (Fips.ROTL 5 (va s) + Fips.f i (vb s) (vc s) (vd s) + ve s + Fips.K i + nthZ w i) by lia.
  apply IH; [lia | lia | done |].
  split_and!; cbn; [| done | | done | done]; [by apply in_u_mod |].
  by apply ROTL_in_u.
Qed.

Lemma word_in_u blk i : Forall (in_u 8) blk -> 0 <= i -> 4 * i + 3 < zlen blk ->
  in_u 32 (Fips.word blk i).
Proof.
  intros Hb Hi Hl. unfold Fips.word.
  pose proof (nthZ_Forall _ blk (4 * i) Hb ltac:(lia)).
  pose proof (nthZ_Forall _ blk (4 * i + 1) Hb ltac:(lia)).
  pose proof (nthZ_Forall _ blk (4 * i + 2) Hb ltac:(lia)).
  pose proof (nthZ_Forall _ blk (4 * i + 3) Hb ltac:(lia)).
  unfold in_u in *. lia.
Qed.

(** The intermediate words of a context. *)
Definition state_ok (h : list Z) : Prop := length h = 5%nat /\ Forall (in_u 32) h.

Lemma sha1_block_spec blk s0 :
  length blk = 64%nat -> Forall (in_u 8) blk -> regs_in_u s0 ->
  let s := Fips.rounds 80 0 (Fips.word blk <$> seqZ 0 16) s0 in
  (w ← sha1_load 16 0 blk []; w ← sha1_schedule 64 16 w; sha1_rounds 80 0 w s0) = Ok s /\
  regs_in_u s.
Proof.
  intros Hl Hb Hr. rewrite sha1_load_spec by (done || lia). cbn [mbind outcome_bind].
  rewrite app_nil_l. change (Z.of_nat 16) with 16. set (w0 := Fips.word blk <$> seqZ 0 16).
  assert (zlen w0 = 16) as Hw0 by (unfold w0; rewrite length_fmap, length_seqZ; lia).
  destruct (sha1_schedule_spec 64 16 w0) as (w & Ew & Hwl & Hwt & Hws & Hwu);
    [done | lia | intros t Ht; lia | |].
  { apply Forall_fmap, Forall_forall. intros x Hx%elem_of_seqZ. apply word_in_u; [done | lia..]. }
  rewrite Ew. cbn [mbind outcome_bind].
  apply (sha1_rounds_spec 80 0 w w0 s0); [done | done | done | lia | lia | | done].
  split; [done |]. intros k Hk _. rewrite <- Hwt, nthZ_take.
  by rewrite (proj2 (Z.ltb_lt k (Z.of_nat (Z.to_nat 16)))) by lia.
Qed.

Lemma zip_add5 h s : length h = 5%nat ->
  zip_with (fun x y => u32 (x + y)) h [va s; vb s; vc s; vd s; ve s] =
    [u32 (nthZ h 0 + va s); u32 (nthZ h 1 + vb s); u32 (nthZ h 2 + vc s);
     u32 (nthZ h 3 + vd s); u32 (nthZ h 4 + ve s)].
Proof. intros E. do 5 (destruct h as [| ? h]; [discriminate |]). by destruct h. Qed.

(** The block function: the code's three loops are the standard's rounds. *)
Lemma sha1_process_spec ctx :
  state_ok (intermediate ctx) -> length (msg_blk ctx) = 64%nat -> Forall (in_u 8) (msg_blk ctx) ->
  sha1_process ctx =
    Ok (ctx <| intermediate := Fips.compress (intermediate ctx) (msg_blk ctx) |>
            <| msg_blk_index := 0 |>) /\
  state_ok (Fips.compress (intermediate ctx) (msg_blk ctx)).
Proof.
  intros [Hh Hu] Hl Hb. unfold sha1_process, Fips.compress.
  rewrite !rd_nthZ by lia. rewrite ?ok_bind. set (s0 := Regs _ _ _ _ _).
  destruct (sha1_block_spec (msg_blk ctx) s0) as [E Hr]; [done | done | |].
  { repeat split; apply (nthZ_Forall (in_u 32)); (done || lia). }
  generalize dependent (Fips.rounds 80 0 (Fips.word (msg_blk ctx) <$> seqZ 0 16) s0).
  intros s E Hr. apply bind_ok in E as (w0 & -> & E). apply bind_ok in E as (w & E1 & E2).
  rewrite ?ok_bind. rewrite E1. rewrite ?ok_bind. rewrite E2.
  rewrite ?ok_bind. cbv zeta. rewrite zip_add5 by done. split; [done |].
  split; [done |]. repeat (apply Forall_cons; split; [by apply in_u_mod |]). by apply Forall_nil.
Qed.

#[local] Opaque Fips.compress sha1_process.

(** ** Absorbing a message

    [pending h0 msg n ctx]: [n] blocks of [msg] have been compressed into the
    intermediate words, starting from [h0], and the rest of [msg] is the
    beginning of the block. *)

Record pending (h0 msg : list Z) (n : nat) (ctx : SHA1Context) : Prop := {
  pend_state : state_ok (intermediate ctx);
  pend_chain : intermediate ctx = Fips.chain n h0 msg;
  pend_blk : length (msg_blk ctx) = 64%nat;
  pend_bytes : Forall (in_u 8) (msg_blk ctx);
  pend_len : 64 * Z.of_nat n <= zlen msg <= 64 * Z.of_nat n + 64;
  pend_rest : take (length msg - 64 * n) (msg_blk ctx) = drop (64 * n) msg
}.

(** The number of bytes waiting in the block. *)
Definition waiting (msg : list Z) (n : nat) : Z := zlen msg - 64 * Z.of_nat n.

Lemma chain_app n h a b : 64 * Z.of_nat n <= zlen a -> Fips.chain n h (a ++ b) = Fips.chain n h a.
Proof.
  revert h a. induction n as [| n IH]; intros h a Hl; cbn [Fips.chain]; [done |].
  rewrite take_app_le, drop_app_le by lia. apply IH. rewrite length_drop. lia.
Qed.

Lemma chain_snoc n h m : 64 * Z.of_nat (S n) <= zlen m ->
  Fips.chain (S n) h m = Fips.compress (Fips.chain n h m) (take 64 (drop (64 * n) m)).
Proof.
  revert h m. induction n as [| n IH]; intros h m Hl; [done |].
  cbn [Fips.chain] in IH |- *. rewrite IH by (rewrite length_drop; lia).
  rewrite drop_drop. by replace (64 + 64 * n)%nat with (64 * S n)%nat by lia.
Qed.

#[local] Arguments Fips.chain : simpl never.

Lemma pending_put h0 msg n ctx v :
  pending h0 msg n ctx -> waiting msg n < 64 -> msg_blk_index ctx = waiting msg n -> in_u 8 v ->
  exists ctx', sha1_put ctx v = Ok ctx' /\ pending h0 (msg ++ [v]) n ctx' /\
    msg_blk_index ctx' = waiting (msg ++ [v]) n /\
    msg_length ctx' = msg_length ctx /\ computed ctx' = computed ctx.
Proof.
  unfold waiting. intros [Hs Hc Hl Hb Hn Hr] Hw Hi Hv. unfold sha1_put.
  rewrite wr_ok by lia. rewrite ok_bind. eexists. split; [done |]. split; [constructor; cbn -[Nat.mul Nat.sub] |].
  - done.
  - by rewrite chain_app by lia.
  - by rewrite length_insert.
  - by apply Forall_insert.
  - rewrite length_app. cbn. lia.
  - rewrite Hi, length_app. cbn [length].
    replace (length msg + 1 - 64 * n)%nat with (S (length msg - 64 * n)) by lia.
    replace (Z.to_nat (zlen msg - 64 * Z.of_nat n)) with (length msg - 64 * n)%nat by lia.
    erewrite take_S_r by (apply list_lookup_insert_eq; lia).
    rewrite take_insert_ge, Hr by done. by rewrite drop_app_le by lia.
  - rewrite length_app. cbn. split_and!; [lia | done | done].
Qed.

Lemma pending_process h0 msg n ctx :
  pending h0 msg n ctx -> waiting msg n = 64 ->
  exists ctx', sha1_process ctx = Ok ctx' /\ pending h0 msg (S n) ctx' /\
    msg_blk_index ctx' = 0 /\ waiting msg (S n) = 0 /\
    msg_length ctx' = msg_length ctx /\ computed ctx' = computed ctx.
Proof.
  unfold waiting. intros [Hs Hc Hl Hb Hn Hr] Hw.
  destruct (sha1_process_spec ctx Hs Hl Hb) as [-> Hs'].
  eexists. split; [done |]. split; [constructor; cbn -[Nat.mul Nat.sub] | split_and!; try done; lia].
  - done.
  - rewrite (chain_snoc n) by lia. rewrite <- Hc, <- Hr, take_take.
    rewrite take_ge by lia. done.
  - done.
  - done.
  - lia.
  - rewrite drop_ge by lia. by replace (length msg - _)%nat with 0%nat by lia.
Qed.

Lemma pending_zeros fuel lim h0 msg n ctx :
  pending h0 msg n ctx -> msg_blk_index ctx = waiting msg n ->
  waiting msg n <= lim <= 64 -> lim - waiting msg n <= Z.of_nat fuel ->
  exists ctx', sha1_zeros fuel lim ctx = Ok ctx' /\
    pending h0 (msg ++ replicate (Z.to_nat (lim - waiting msg n)) 0) n ctx' /\
    msg_blk_index ctx' = lim /\ msg_length ctx' = msg_length ctx /\ computed ctx' = computed ctx.
Proof.
  revert msg ctx. induction fuel as [| fuel IH]; intros msg ctx Hp Hi Hw Hf; cbn [sha1_zeros];
    destruct (Z.ltb_spec (msg_blk_index ctx) lim) as [Hlt | Hge]; try lia.
  1, 3: exists ctx; replace (lim - waiting msg n) with 0 by lia; cbn [Z.to_nat replicate];
    rewrite app_nil_r; split_and!; (done || lia).
  destruct (pending_put h0 msg n ctx 0) as (c1 & -> & Hp1 & Hi1 & Hl1 & Hc1);
    [done | lia | done | done |].
  rewrite ok_bind.
  assert (waiting (msg ++ [0]) n = waiting msg n + 1) as E1
    by (unfold waiting; rewrite length_app; cbn; lia).
  destruct (IH (msg ++ [0]) c1 Hp1 Hi1) as (c2 & -> & Hp2 & Hi2 & Hl2 & Hc2); [lia | lia |].
  exists c2. rewrite <- app_assoc in Hp2. split_and!; [done | | done | congruence | congruence].
  replace (Z.to_nat (lim - waiting msg n)) with (S (Z.to_nat (lim - waiting (msg ++ [0]) n))) by lia.
  done.
Qed.

(** Overwriting the block from the waiting bytes on completes it. *)
Lemma pending_fill h0 msg n ctx l blk' :
  pending h0 msg n ctx -> waiting msg n + zlen l = 64 -> Forall (in_u 8) l ->
  blit (msg_blk ctx) (waiting msg n) l = Ok blk' ->
  pending h0 (msg ++ l) n (ctx <| msg_blk := blk' |>).
Proof.
  unfold waiting. intros [Hs Hc Hl Hb Hn Hr] Hw Hu Hbl.
  constructor; cbn -[Nat.mul Nat.sub].
  - done.
  - by rewrite chain_app by lia.
  - erewrite blit_length; done.
  - by eapply Forall_blit.
  - rewrite length_app. lia.
  - revert Hbl. rewrite blit_ok by lia. intros [= <-].
    rewrite drop_app_le by lia. rewrite <- Hr.
    replace (Z.to_nat (zlen msg - 64 * Z.of_nat n)) with (length msg - 64 * n)%nat by lia.
    rewrite (drop_ge _ (_ + length l)) by lia. rewrite app_nil_r.
    apply take_ge. rewrite !length_app, length_take. lia.
Qed.

Lemma be64_small v : in_u 32 v -> [0; 0; 0; 0] ++ be32_bytes v = Fips.be64 v.
Proof.
  intros [H0 H1].
  change (Fips.be64 v) with [(v / 2 ^ 56) mod 256; (v / 2 ^ 48) mod 256; (v / 2 ^ 40) mod 256;
    (v / 2 ^ 32) mod 256; (v / 2 ^ 24) mod 256; (v / 2 ^ 16) mod 256; (v / 2 ^ 8) mod 256;
    (v / 2 ^ 0) mod 256].
  rewrite !(Z.div_small v (2 ^ 56)), !(Z.div_small v (2 ^ 48)), !(Z.div_small v (2 ^ 40)),
    !(Z.div_small v (2 ^ 32)) by lia.
  unfold be32_bytes. rewrite !Z.shiftr_div_pow2 by lia. by rewrite Z.div_1_r.
Qed.

(** Two adjacent stores are one. *)
Lemma blit_two dst at_ l1 l2 :
  0 <= at_ -> at_ + zlen (l1 ++ l2) <= zlen dst ->
  exists d1 d2, blit dst at_ l1 = Ok d1 /\ blit d1 (at_ + zlen l1) l2 = Ok d2 /\
    blit dst at_ (l1 ++ l2) = Ok d2.
Proof.
  intros H0 Hl. rewrite length_app in Hl.
  destruct (blit dst at_ l1) as [d1 | | |] eqn:E1; try (rewrite blit_ok in E1 by lia; done).
  pose proof (blit_length _ _ _ _ E1) as Hl1.
  destruct (blit d1 (at_ + zlen l1) l2) as [d2 | | |] eqn:E2; try (rewrite blit_ok in E2 by lia; done).
  exists d1, d2. split_and!; [done.. |].
  destruct (blit dst at_ (l1 ++ l2)) as [d3 | | |] eqn:E3;
    try (rewrite blit_ok in E3 by (rewrite ?length_app; lia); done).
  f_equal. pose proof (blit_length _ _ _ _ E2). pose proof (blit_length _ _ _ _ E3).
  apply listZ_eq; [lia |]. intros i Hi.
  rewrite (nthZ_blit _ _ _ _ _ E3), (nthZ_blit _ _ _ _ _ E2), (nthZ_blit _ _ _ _ _ E1).
  rewrite length_app, nthZ_app.
  repeat match goal with
  | |- context [?a <=? ?b] => destruct (Z.leb_spec a b); try lia
  | |- context [?a <? ?b] => destruct (Z.ltb_spec a b); try lia
  end; cbn [andb]; try done; try lia.
  f_equal. lia.
Qed.

(** A context that has absorbed [msg]: every full block is compressed. *)
Definition absorbed (h0 msg : list Z) (ctx : SHA1Context) : Prop :=
  exists n, pending h0 msg n ctx /\ waiting msg n < 64 /\ msg_blk_index ctx = waiting msg n.

(** The block of a context is 64 bytes. *)
Definition block_ok (ctx : SHA1Context) : Prop :=
  length (msg_blk ctx) = 64%nat /\ Forall (in_u 8) (msg_blk ctx).

(** The first half of the padding: the end marker and, where the length no
    longer fits the block, zeros up to its end. *)
Lemma pad_first h0 msg n ctx :
  pending h0 msg n ctx -> waiting msg n < 64 -> msg_blk_index ctx = waiting msg n ->
  exists z n' ctx', (ctx ← sha1_put ctx 0x80;
      (if msg_blk_index ctx >? 56 then ctx ← sha1_zeros 64 64 ctx; sha1_process ctx
       else Ok ctx)) = Ok ctx' /\
    pending h0 (msg ++ 0x80 :: replicate z 0) n' ctx' /\
    msg_blk_index ctx' = waiting (msg ++ 0x80 :: replicate z 0) n' /\
    waiting (msg ++ 0x80 :: replicate z 0) n' <= 56 /\
    Z.of_nat z + (56 - waiting (msg ++ 0x80 :: replicate z 0) n') = (55 - zlen msg) mod 64 /\
    msg_length ctx' = msg_length ctx.
Proof.
  intros Hp Hw Hi. pose proof (pend_len _ _ _ _ Hp) as Hn.
  destruct (pending_put h0 msg n ctx 0x80) as (c1 & -> & Hp1 & Hi1 & Hl1 & Hc1);
    [done | lia | done | done |].
  rewrite ok_bind, Z.gtb_ltb.
  assert (waiting (msg ++ [0x80]) n = waiting msg n + 1) as E1
    by (unfold waiting; rewrite length_app; cbn; lia).
  assert (zlen msg mod 64 = waiting msg n) as Em.
  { unfold waiting in *. symmetry. apply (Z.mod_unique_pos _ _ (Z.of_nat n)); lia. }
  assert (0 <= waiting msg n) by (unfold waiting; lia).
  destruct (Z.ltb_spec 56 (msg_blk_index c1)).
  - destruct (pending_zeros 64 64 h0 (msg ++ [0x80]) n c1) as (c2 & -> & Hp2 & Hi2 & Hl2 & Hc2);
      [done | done | lia | lia |].
    rewrite ok_bind. set (z := Z.to_nat (64 - waiting (msg ++ [0x80]) n)) in *.
    assert (waiting ((msg ++ [0x80]) ++ replicate z 0) n = 64) as E2.
    { unfold z, waiting in *. rewrite !length_app, length_replicate in *. cbn in *. lia. }
    destruct (pending_process _ _ _ _ Hp2 E2) as (c3 & -> & Hp3 & Hi3 & Hw3 & Hl3 & Hc3).
    rewrite <- app_assoc in Hp3, Hw3. exists z, (S n), c3.
    cbn [app] in *. split_and!; [done | done | lia | lia | | congruence].
    rewrite <- Zminus_mod_idemp_r, Em, Hw3. apply (Z.mod_unique_pos _ _ (-1)); unfold z; lia.
  - exists 0%nat, n, c1. cbn [replicate]. split_and!; [done.. | lia | | done].
    rewrite <- Zminus_mod_idemp_r, Em. rewrite Z.mod_small; lia.
Qed.

Lemma pad_spec h0 pre msg ctx :
  absorbed h0 msg ctx -> 0 <= pre -> 8 * (pre + zlen msg) < 2 ^ 32 ->
  msg_length ctx = 8 * (pre + zlen msg) ->
  exists ctx', sha1_pad ctx = Ok ctx' /\ state_ok (intermediate ctx') /\ block_ok ctx' /\
    intermediate ctx' =
      Fips.chain (length (Fips.padded pre msg) / 64) h0 (Fips.padded pre msg).
Proof.
  intros (n & Hp & Hw & Hi) Hpre Hlt Hlen.
  destruct (pad_first h0 msg n ctx Hp Hw Hi) as (z & n1 & c1 & E & Hp1 & Hi1 & Hw1 & Hz & Hl1).
  unfold sha1_pad. apply bind_ok in E as (c0 & -> & E). rewrite ok_bind, E, ok_bind. clear E c0.
  pose proof (pend_len _ _ _ _ Hp1) as Hn1.
  set (msg1 := msg ++ 0x80 :: replicate z 0) in *.
  destruct (pending_zeros 64 56 h0 msg1 n1 c1) as (c2 & -> & Hp2 & Hi2 & Hl2 & Hc2);
    [done | done | lia | unfold waiting in *; lia |].
  rewrite ok_bind. set (msg2 := msg1 ++ _) in Hp2.
  assert (waiting msg2 n1 = 56) as Hw2
    by (unfold msg2, waiting in *; rewrite length_app, length_replicate in *; lia).
  destruct (blit_two (msg_blk c2) 56 [0; 0; 0; 0] (be32_bytes (msg_length c2)))
    as (blk1 & blk2 & -> & E2 & Eb); [lia | rewrite (pend_blk _ _ _ _ Hp2); cbn; lia |].
  rewrite ok_bind. change 60 with (56 + zlen [0; 0; 0; 0]). rewrite E2, ok_bind. clear E2 blk1.
  rewrite <- Hw2 in Eb. apply (pending_fill _ _ _ _ _ _ Hp2) in Eb; [| rewrite Hw2; done | ].
  2: { repeat constructor; unfold in_u; try lia; apply Z.mod_pos_bound; lia. }
  destruct (pending_process _ _ _ _ Eb) as (c3 & -> & Hp3 & Hi3 & Hw3 & _).
  { unfold waiting in *. rewrite length_app. cbn. lia. }
  exists c3. split; [done |]. split; [apply (pend_state _ _ _ _ Hp3) |].
  split; [split; [apply (pend_blk _ _ _ _ Hp3) | apply (pend_bytes _ _ _ _ Hp3)] |].
  rewrite (pend_chain _ _ _ _ Hp3).
  assert (msg2 ++ [0; 0; 0; 0] ++ be32_bytes (msg_length c2) = Fips.padded pre msg) as <-.
  { unfold msg2, msg1, Fips.padded, Fips.padding. rewrite be64_small; rewrite Hl2, Hl1, Hlen; [| unfold in_u; lia].
    rewrite <- !app_assoc. cbn [app]. do 2 f_equal.
    rewrite app_assoc, <- replicate_add. do 2 f_equal. fold msg1. lia. }
  f_equal. unfold waiting in Hw3. apply (Nat.div_unique _ _ _ 0); lia.
Qed.

Lemma absorb_one h0 msg ctx v :
  absorbed h0 msg ctx -> in_u 8 v ->
  exists ctx', (ctx ← sha1_put ctx v;
      (if msg_blk_index ctx =? 64 then sha1_process ctx else Ok ctx)) = Ok ctx' /\
    absorbed h0 (msg ++ [v]) ctx' /\
    msg_length ctx' = msg_length ctx /\ computed ctx' = computed ctx.
Proof.
  intros (n & Hp & Hw & Hi) Hv.
  destruct (pending_put h0 msg n ctx v Hp Hw Hi Hv) as (c1 & -> & Hp1 & Hi1 & Hl1 & Hc1).
  rewrite ok_bind. destruct (Z.eqb_spec (msg_blk_index c1) 64) as [E | E].
  - destruct (pending_process _ _ _ _ Hp1) as (c2 & -> & Hp2 & Hi2 & Hw2 & Hl2 & Hc2); [lia |].
    exists c2. split_and!; [done | exists (S n) | congruence..]. split_and!; (done || lia).
  - exists c1. split_and!; [done | exists n | done..].
    pose proof (pend_len _ _ _ _ Hp1). unfold waiting in *. split_and!; [done | lia..].
Qed.

Lemma absorb_loop n i data h0 msg ctx :
  absorbed h0 msg ctx -> Forall (in_u 8) data -> 0 <= i -> i + Z.of_nat n <= zlen data ->
  exists ctx', sha1_input_loop n i (Ext data) ctx = Ok ctx' /\
    absorbed h0 (msg ++ take n (drop (Z.to_nat i) data)) ctx' /\
    msg_length ctx' = msg_length ctx /\ computed ctx' = computed ctx.
Proof.
  revert i msg ctx. induction n as [| n IH]; intros i msg ctx Ha Hd Hi Hl; cbn [sha1_input_loop src_get].
  { exists ctx. cbn [take]. by rewrite app_nil_r. }
  rewrite rd_nthZ, ok_bind by lia.
  destruct (absorb_one h0 msg ctx (nthZ data i)) as (c1 & E & Ha1 & Hl1 & Hc1);
    [done | apply nthZ_Forall; [done | lia] |].
  apply bind_ok in E as (c0 & -> & E). rewrite ok_bind, E, ok_bind.
  destruct (IH (i + 1) _ c1 Ha1) as (c2 & -> & Ha2 & Hl2 & Hc2); [done | lia | lia |].
  exists c2. split_and!; [done | | congruence..].
  rewrite <- app_assoc in Ha2.
  rewrite (drop_S data (nthZ data i) (Z.to_nat i)) by (apply lookup_nthZ; lia).
  cbn [take]. by replace (S (Z.to_nat i)) with (Z.to_nat (i + 1)) by lia.
Qed.

(** Reading the bytes of one's own block while putting them back. *)
Lemma own_block_loop n i ctx :
  msg_blk_index ctx = i -> 0 <= i -> i + Z.of_nat n < 64 -> length (msg_blk ctx) = 64%nat ->
  sha1_input_loop n i OwnBlk ctx = sha1_input_loop n i (Ext (msg_blk ctx)) ctx.
Proof.
  revert i ctx. induction n as [| n IH]; intros i ctx Hi H0 Hn Hl; cbn [sha1_input_loop src_get]; [done |].
  rewrite rd_nthZ, !ok_bind by lia. unfold sha1_put. rewrite Hi, wr_ok, !ok_bind by lia.
  rewrite list_insert_id by (apply lookup_nthZ; lia). cbn.
  destruct (Z.eqb_spec (i + 1) 64); [lia |]. rewrite !ok_bind.
  by rewrite IH by (cbn; (done || lia)).
Qed.

Lemma digest_spec h : state_ok h -> sha1_digest 20 0 h = Ok (Fips.digest h).
Proof.
  intros [Hl _]. do 5 (destruct h as [| ? h]; [discriminate |]). destruct h; [| done].
  assert (forall v n, 0 <= n -> (v / 2 ^ n) mod 256 = u8 (v ≫ n)) as E.
  { intros v n Hn. by rewrite Z.shiftr_div_pow2. }
  unfold Fips.digest. cbn [mbind list_bind].
  change (seqZ 0 4) with [0; 1; 2; 3]. cbn [fmap list_fmap app].
  rewrite !E by lia. reflexivity.
Qed.

Lemma digest_bytes h : Forall (in_u 8) (Fips.digest h).
Proof.
  unfold Fips.digest. apply Forall_bind, Forall_forall. intros v _.
  apply Forall_fmap, Forall_forall. intros k _. by apply in_u_mod.
Qed.

Lemma digest_length h : length (Fips.digest h) = (4 * length h)%nat.
Proof.
  induction h as [| v h IH]; [done |].
  unfold Fips.digest in *. rewrite bind_cons, length_app, IH, length_fmap, length_seqZ. cbn. lia.
Qed.

(** A fresh context: the hash starts from [h0], [pre] bytes count as hashed. *)
Definition fresh (h0 : list Z) (pre : Z) (ctx : SHA1Context) : Prop :=
  state_ok h0 /\ intermediate ctx = h0 /\ block_ok ctx /\ msg_blk_index ctx = 0 /\
  msg_length ctx = 8 * pre /\ computed ctx = false.

Lemma fresh_absorbed h0 pre ctx : fresh h0 pre ctx -> absorbed h0 [] ctx.
Proof.
  intros (Hs & Hh & [Hl Hb] & Hi & _). exists 0%nat. split; [constructor |]; cbn; subst; (done || lia).
Qed.

Lemma result_spec h0 pre msg ctx :
  absorbed h0 msg ctx -> 0 <= pre -> 8 * (pre + zlen msg) < 2 ^ 32 ->
  msg_length ctx = 8 * (pre + zlen msg) -> computed ctx = false ->
  exists ctx', sha1_result ctx = Ok (ctx', Fips.hash h0 pre msg) /\ block_ok ctx' /\
    length (Fips.hash h0 pre msg) = 20%nat.
Proof.
  intros Ha Hp Hlt Hl Hc. unfold sha1_result. rewrite Hc. cbn [negb].
  destruct (pad_spec h0 pre msg ctx Ha Hp Hlt Hl) as (c & -> & Hs & Hb & Hi). rewrite !ok_bind.
  change (intermediate _ <| computed := true |>) with (intermediate c).
  rewrite digest_spec, ok_bind by done. rewrite Hi. eexists. split_and!; [done | apply Hb.. |].
  unfold Fips.hash. rewrite <- Hi, digest_length. destruct Hs as [-> _]. done.
Qed.

(** [sha1_input] for every piece in turn. *)
Fixpoint sha1_inputs (ctx : SHA1Context) (pieces : list (list Z)) : outcome SHA1Context :=
  match pieces with
  | [] => Ok ctx
  | p :: pieces => ctx ← sha1_input ctx (Ext p) (zlen p); sha1_inputs ctx pieces
  end.

Lemma input_spec h0 msg ctx data :
  absorbed h0 msg ctx -> Forall (in_u 8) data -> 8 * zlen data < 2 ^ 64 ->
  exists ctx', sha1_input ctx (Ext data) (zlen data) = Ok ctx' /\
    absorbed h0 (msg ++ data) ctx' /\
    msg_length ctx' = u32 (msg_length ctx + 8 * zlen data) /\ computed ctx' = computed ctx.
Proof.
  intros (n & Hp & Hw & Hi) Hd Hlt. unfold sha1_input. rewrite Nat2Z.id.
  set (ctx1 := ctx <| _ := _ |>).
  destruct (absorb_loop (length data) 0 data h0 msg ctx1) as (c & -> & Ha & Hl & Hc);
    [| done | lia | lia |].
  { exists n. split_and!; [| done | done]. destruct Hp. by constructor. }
  exists c. change (Z.to_nat 0) with 0%nat in Ha. rewrite drop_0, take_ge in Ha by lia.
  split_and!; [done | done | | done].
  rewrite Hl. cbn. rewrite Z.shiftl_mul_pow2 by lia. rewrite (Z.mod_small (_ * _)) by lia.
  f_equal. lia.
Qed.

(** Hashing the first bytes of the context's own block. *)
Lemma input_own_spec h0 pre ctx len :
  fresh h0 pre ctx -> 0 <= len < 64 -> 0 <= pre -> 8 * (pre + len) < 2 ^ 32 ->
  exists ctx', sha1_input ctx OwnBlk len = Ok ctx' /\
    absorbed h0 (take (Z.to_nat len) (msg_blk ctx)) ctx' /\
    msg_length ctx' = 8 * (pre + len) /\ computed ctx' = false.
Proof.
  intros Hf Hlen Hpre Hlt. pose proof (fresh_absorbed _ _ _ Hf) as (n & Hp & Hw & Hi).
  destruct Hf as (_ & _ & [Hbl Hbb] & Hi0 & Hl & Hc). unfold sha1_input.
  set (ctx1 := ctx <| _ := _ |>).
  rewrite own_block_loop by (cbn; (done || lia)).
  destruct (absorb_loop (Z.to_nat len) 0 (msg_blk ctx1) h0 [] ctx1) as (c & -> & Ha & Hl1 & Hc1);
    [| done | lia | cbn; lia |].
  { exists n. split_and!; [| done | done]. destruct Hp. by constructor. }
  exists c. split_and!; [done.. | | by rewrite Hc1]. rewrite Hl1. cbn. rewrite Hl.
  rewrite Z.shiftl_mul_pow2, (Z.mod_small (len * _)), Z.mod_small by lia. lia.
Qed.

Lemma inputs_spec h0 pre msg pieces ctx :
  absorbed h0 msg ctx -> Forall (in_u 8) (concat pieces) -> 0 <= pre ->
  8 * (pre + zlen (msg ++ concat pieces)) < 2 ^ 32 ->
  msg_length ctx = 8 * (pre + zlen msg) -> computed ctx = false ->
  exists ctx', sha1_inputs ctx pieces = Ok ctx' /\ absorbed h0 (msg ++ concat pieces) ctx' /\
    msg_length ctx' = 8 * (pre + zlen (msg ++ concat pieces)) /\ computed ctx' = false.
Proof.
  revert msg ctx. induction pieces as [| p ps IH]; intros msg ctx Ha Hb Hp Hlt Hl Hc; cbn [sha1_inputs].
  { exists ctx. cbn [concat]. by rewrite app_nil_r. }
  cbn [concat] in Hb, Hlt |- *. apply Forall_app in Hb as [Hb1 Hb2].
  rewrite app_assoc in Hlt |- *. pose proof Hlt as Hlt2. rewrite !length_app in Hlt2.
  destruct (input_spec h0 msg ctx p Ha Hb1) as (c & -> & Ha1 & Hl1 & Hc1); [lia |].
  rewrite ok_bind. apply IH; try done; [| congruence].
  rewrite Hl1, Hl, length_app, Z.mod_small; lia.
Qed.

(** C36: hashing a message that arrives in any number of pieces, of any sizes,
    through [sha1_input] and then calling [sha1_result] returns the digest that
    the standard defines for the whole message (padding, block chaining and
    rounds included); no access leaves an array. It holds from any initial state
    and any number of bytes counted as hashed before, as long as the bit length
    fits the 32-bit counter. *)
Theorem sha1_streams_hash h0 pre pieces ctx :
  fresh h0 pre ctx -> 0 <= pre -> Forall (in_u 8) (concat pieces) ->
  8 * (pre + zlen (concat pieces)) < 2 ^ 32 ->
  exists ctx1 ctx2, sha1_inputs ctx pieces = Ok ctx1 /\
    sha1_result ctx1 = Ok (ctx2, Fips.hash h0 pre (concat pieces)).
Proof.
  intros Hf Hp Hb Hlt. pose proof (fresh_absorbed _ _ _ Hf) as Ha.
  destruct Hf as (_ & _ & _ & _ & Hl & Hc).
  destruct (inputs_spec h0 pre [] pieces ctx) as (c & E & Ha1 & Hl1 & Hc1); try done.
  { rewrite Hl. cbn. lia. }
  destruct (result_spec h0 pre (concat pieces) c) as (c2 & E2 & _); [done.. |]. eauto.
Qed.

(** Two pieces of the message [abc]: the test vector of the standard. *)
Lemma sha1_streams_hash_witness :
  exists ctx1 ctx2,
    sha1_inputs (sha1_reset (mkSHA1 [] (replicate 64 0xFF) 7 9 true)) [[97]; [98; 99]] = Ok ctx1 /\
    sha1_result ctx1 = Ok (ctx2,
      [0xa9; 0x99; 0x3e; 0x36; 0x47; 0x06; 0x81; 0x6a; 0xba; 0x3e;
       0x25; 0x71; 0x78; 0x50; 0xc2; 0x6c; 0x9c; 0xd0; 0xd8; 0x9d]).
Proof.
  destruct (sha1_streams_hash Fips.iv 0 [[97]; [98; 99]]
              (sha1_reset (mkSHA1 [] (replicate 64 0xFF) 7 9 true)))
    as (c1 & c2 & E1 & E2).
  - repeat split; try lia; repeat constructor; lia.
  - lia.
  - repeat constructor; lia.
  - cbn. lia.
  - exists c1, c2. split; [exact E1 |]. rewrite E2. vm_compute. reflexivity.
Defined.
