(* ===== verification/Rc4.v ===== *)
(** * The RC4 stream cipher (util/rc4.c)

    A context is its array [s] of 256 bytes. The theorems show that the array
    stays a permutation of the bytes, so that no index leaves it, that
    encryption adds a key stream which does not depend on the data, and that
    encrypting twice gives the data back. *)

From stdpp Require Import base numbers list.
From Stdlib Require Import ZArith Lia.
From S2P Require Import Prelude.

Definition rc4_swap (s : list Z) (first second : Z) : outcome (list Z) :=
  temp ← rd s first;
  v ← rd s second;
  s ← wr s first v;
  wr s second temp.

(** The key schedule's loop; [i % len] is undefined for an empty key. *)
Fixpoint rc4_init_loop (n : nat) (i j : Z) (s data : list Z) (len : Z) : outcome (list Z) :=
  match n with
  | O => Ok s
  | S n =>
      si ← rd s i;
      (if len =? 0 then Undef else Ok tt);;
      d ← rd data (i mod len);
      let j := (j + si + d) mod 256 in
      s ← rc4_swap s i j;
      rc4_init_loop n (i + 1) j s data len
  end.

Definition rc4_init (data : list Z) (len : Z) : outcome (list Z) :=
  rc4_init_loop 256 0 0 (seqZ 0 256) data len.

Fixpoint rc4_crypt_loop (n : nat) (i j k : Z) (s data : list Z) : outcome (list Z * list Z) :=
  match n with
  | O => Ok (s, data)
  | S n =>
      let i := (i + 1) mod 256 in
      si ← rd s i;
      let j := (j + si) mod 256 in
      s ← rc4_swap s i j;
      si ← rd s i; sj ← rd s j;
      ks ← rd s ((si + sj) mod 256);
      d ← rd data k;
      data ← wr data k (d .^ ks);
      rc4_crypt_loop n i j (k + 1) s data
  end.

Definition rc4_crypt (s data : list Z) (len : Z) : outcome (list Z * list Z) :=
  rc4_crypt_loop (Z.to_nat len) 0 0 0 s data.

(** ** The state stays a permutation of the bytes *)

Definition rc4_ok (s : list Z) : Prop := s ≡ₚ seqZ 0 256.

Lemma rc4_ok_length s : rc4_ok s -> length s = 256%nat.
Proof. intros H. rewrite (Permutation_length H). by rewrite length_seqZ. Qed.

Lemma rc4_ok_byte s i : rc4_ok s -> 0 <= i < 256 -> in_u 8 (nthZ s i).
Proof.
  intros H Hi. pose proof (rc4_ok_length s H).
  apply nthZ_Forall; [| lia]. unfold rc4_ok in H. rewrite H. apply Forall_forall. intros x Hx%elem_of_seqZ.
  unfold in_u. lia.
Qed.

Lemma rc4_swap_ok s i j :
  rc4_ok s -> 0 <= i < 256 -> 0 <= j < 256 ->
  exists s', rc4_swap s i j = Ok s' /\ rc4_ok s'.
Proof.
  intros H Hi Hj. pose proof (rc4_ok_length s H) as Hl. unfold rc4_swap.
  rewrite !rd_nthZ by lia. rewrite !ok_bind.
  rewrite wr_ok, ok_bind by lia. rewrite wr_ok by (rewrite length_insert; lia).
  eexists. split; [done |]. unfold rc4_ok. etransitivity; [| exact H].
  apply Permutation_insert_swap; apply lookup_nthZ; lia.
Qed.

Lemma rc4_init_loop_ok n i j s data len :
  rc4_ok s -> 0 <= i -> i + Z.of_nat n <= 256 -> 0 < len <= zlen data ->
  exists s', rc4_init_loop n i j s data len = Ok s' /\ rc4_ok s'.
Proof.
  revert i j s. induction n as [| n IH]; intros i j s Hs Hi Hn Hd; cbn [rc4_init_loop]; [by exists s |].
  pose proof (rc4_ok_length s Hs). rewrite (rd_nthZ s i), ok_bind by lia.
  rewrite (proj2 (Z.eqb_neq len 0)) by lia. rewrite ok_bind.
  pose proof (Z.mod_pos_bound i len ltac:(lia)). rewrite rd_nthZ, ok_bind by lia. cbv zeta.
  set (j' := _ mod 256). assert (0 <= j' < 256) by (apply Z.mod_pos_bound; lia).
  destruct (rc4_swap_ok s i j') as (s1 & -> & Hs1); [done | lia | done |].
  rewrite ok_bind. apply IH; (done || lia).
Qed.

(** ** The key stream *)

Fixpoint keystream (n : nat) (i j : Z) (s : list Z) : outcome (list Z * list Z) :=
  match n with
  | O => Ok (s, [])
  | S n =>
      let i := (i + 1) mod 256 in
      si ← rd s i;
      let j := (j + si) mod 256 in
      s ← rc4_swap s i j;
      si ← rd s i; sj ← rd s j;
      k ← rd s ((si + sj) mod 256);
      '(s', ks) ← keystream n i j s;
      Ok (s', k :: ks)
  end.

Lemma keystream_ok n i j s : rc4_ok s ->
  exists s' ks, keystream n i j s = Ok (s', ks) /\ rc4_ok s' /\ length ks = n /\ Forall (in_u 8) ks.
Proof.
  revert i j s. induction n as [| n IH]; intros i j s Hs; cbn [keystream]; [by exists s, [] |].
  pose proof (rc4_ok_length s Hs). cbv zeta.
  set (i' := (i + 1) mod 256). assert (0 <= i' < 256) by (apply Z.mod_pos_bound; lia).
  rewrite rd_nthZ, ok_bind by lia.
  set (j' := _ mod 256). assert (0 <= j' < 256) by (apply Z.mod_pos_bound; lia).
  destruct (rc4_swap_ok s i' j') as (s1 & -> & Hs1); [done.. |]. rewrite ok_bind.
  pose proof (rc4_ok_length s1 Hs1). rewrite !rd_nthZ, !ok_bind by lia.
  set (k := _ mod 256). assert (0 <= k < 256) by (apply Z.mod_pos_bound; lia).
  rewrite rd_nthZ, ok_bind by lia.
  destruct (IH i' j' s1 Hs1) as (s2 & ks & -> & Hs2 & Hl & Hks). rewrite ok_bind.
  exists s2, (nthZ s1 k :: ks). split_and!; [done.. | cbn; by rewrite Hl |].
  constructor; [by apply rc4_ok_byte | done].
Qed.

(** Encryption adds the key stream to the bytes from [k] on. *)
Lemma rc4_crypt_loop_spec n i j k s s' ks pre data post :
  keystream n i j s = Ok (s', ks) -> length data = n -> zlen pre = k ->
  rc4_crypt_loop n i j k s (pre ++ data ++ post) =
    Ok (s', pre ++ zip_with Z.lxor data ks ++ post).
Proof.
  revert i j k s ks pre data. induction n as [| n IH]; intros i j k s ks pre data E Hl Hk;
    cbn [rc4_crypt_loop keystream] in *.
  { inv_ok. destruct data; [| done]. by simplify_eq. }
  destruct data as [| d data]; [done |]. cbn in Hl. simplify_eq.
  inv_ok. rewrite E0, ok_bind. rewrite E1, ok_bind. rewrite E2, ok_bind. rewrite E3, ok_bind.
  rewrite E4, ok_bind.
  rewrite rd_nthZ by (rewrite !length_app; cbn; lia). rewrite ok_bind.
  rewrite wr_ok by (rewrite !length_app; cbn; lia). rewrite ok_bind.
  destruct x4 as [s2 ks2]. inv_ok. simplify_eq.
  rewrite nthZ_app_r, Z.sub_diag by lia. change (nthZ ((d :: data) ++ post) 0) with d.
  rewrite Nat2Z.id. rewrite insert_app_r_alt, Nat.sub_diag by lia. cbn [app list_insert insert].
  cbn [zip_with app]. rewrite (cons_middle _ pre (data ++ post)), !app_assoc, <- (app_assoc _ data).
  rewrite (IH _ _ _ _ ks2); [by rewrite <- !app_assoc | done | done | rewrite length_app; cbn; lia].
Qed.

Lemma rc4_crypt_spec s data :
  rc4_ok s -> exists s' ks, keystream (length data) 0 0 s = Ok (s', ks) /\
    length ks = length data /\ Forall (in_u 8) ks /\ rc4_ok s' /\
    rc4_crypt s data (zlen data) = Ok (s', zip_with Z.lxor data ks).
Proof.
  intros Hs. destruct (keystream_ok (length data) 0 0 s Hs) as (s' & ks & E & Hs' & Hl & Hks).
  exists s', ks. split_and!; [done.. |]. unfold rc4_crypt. rewrite Nat2Z.id.
  pose proof (rc4_crypt_loop_spec _ _ _ 0 _ _ _ [] data [] E eq_refl eq_refl) as H.
  by rewrite !app_nil_r in H.
Qed.

Lemma zip_lxor_invol data ks : length ks = length data ->
  zip_with Z.lxor (zip_with Z.lxor data ks) ks = data.
Proof.
  revert ks. induction data as [| d data IH]; intros [| k ks] Hl; try done.
  cbn in *. rewrite IH by congruence. f_equal.
  by rewrite Z.lxor_assoc, Z.lxor_nilpotent, Z.lxor_0_r.
Qed.

Lemma rc4_init_ok key : key <> [] -> exists s, rc4_init key (zlen key) = Ok s /\ rc4_ok s.
Proof.
  intros Hk. apply rc4_init_loop_ok; [exact (Permutation_refl _) | lia | lia |].
  destruct key; [done | cbn; lia].
Qed.

Lemma zip_lxor_bytes data ks : Forall (in_u 8) data -> Forall (in_u 8) ks ->
  Forall (in_u 8) (zip_with Z.lxor data ks).
Proof.
  intros Hd. revert ks. induction Hd as [| d data Hd _ IH]; intros ks Hk; [constructor |].
  destruct Hk as [| k ks Hk Hks]; cbn; constructor; auto with words.
Qed.

(** Encrypting twice from the same state. *)
Lemma rc4_twice s data : rc4_ok s ->
  exists s' c, rc4_crypt s data (zlen data) = Ok (s', c) /\ rc4_ok s' /\ length c = length data /\
    (Forall (in_u 8) data -> Forall (in_u 8) c) /\ rc4_crypt s c (zlen c) = Ok (s', data).
Proof.
  intros Hs. destruct (rc4_crypt_spec s data Hs) as (s' & ks & Ek & Hl & Hks & Hs' & Ec).
  exists s', (zip_with Z.lxor data ks).
  assert (length (zip_with Z.lxor data ks) = length data) as Hlen
    by (rewrite length_zip_with; lia).
  split_and!; [done.. | intros Hd; by apply zip_lxor_bytes |].
  destruct (rc4_crypt_spec s (zip_with Z.lxor data ks) Hs) as (s2 & ks2 & Ek2 & _ & _ & _ & ->).
  rewrite Hlen, Ek in Ek2. simplify_eq. by rewrite zip_lxor_invol.
Qed.

(** For every key that is not empty the key schedule returns a permutation
    of the 256 bytes, encryption of any data then returns, keeps the state a
    permutation, and encrypting the result again from the same key gives the
    data back. *)
Theorem rc4_roundtrip key data :
  key <> [] ->
  exists s s' c, rc4_init key (zlen key) = Ok s /\ s ≡ₚ seqZ 0 256 /\
    rc4_crypt s data (zlen data) = Ok (s', c) /\ s' ≡ₚ seqZ 0 256 /\ length c = length data /\
    rc4_crypt s c (zlen c) = Ok (s', data).
Proof.
  intros Hk. destruct (rc4_init_ok key Hk) as (s & E & Hs).
  destruct (rc4_twice s data Hs) as (s' & c & Ec & Hs' & Hl & _ & Ed).
  exists s, s', c. split_and!; done.
Qed.

Lemma rc4_roundtrip_witness :
  exists s s' c, rc4_init [1; 2; 3; 4; 5] 5 = Ok s /\ s ≡ₚ seqZ 0 256 /\
    rc4_crypt s [0; 0; 0; 0] 4 = Ok (s', c) /\ s' ≡ₚ seqZ 0 256 /\ length c = 4%nat /\
    rc4_crypt s c (zlen c) = Ok (s', [0; 0; 0; 0]).
Proof. exact (rc4_roundtrip [1; 2; 3; 4; 5] [0; 0; 0; 0] ltac:(discriminate)). Defined.

(** The key stream of the key 01 02 03 04 05 (RFC 6229). *)
Example rc4_rfc6229 :
  (s ← rc4_init [1; 2; 3; 4; 5] 5; snd <$> rc4_crypt s (replicate 8 0) 8)
  = Ok [0xb2; 0x39; 0x63; 0x05; 0xf0; 0x3d; 0xc0; 0x27].
Proof. vm_compute. reflexivity. Qed.
