(* ===== verification/Eeprom.v ===== *)
(** * Generation of the console's EEPROM image (eeprom_generation.c)

    The packed structure [XboxEEPROM] is its 256 bytes, with the offset of each
    field; the code reads and writes across field boundaries. The random bytes,
    the uninitialised hash context and the results of the file operations are
    arguments. The theorems show that the generated image passes the checks of
    the console: both checksums, and the encrypted section, which decrypts under
    the key derived from the stored hash to bytes whose hash is the stored one. *)

From stdpp Require Import base numbers list.
From Stdlib Require Import ZArith Lia.
From S2P Require Import Prelude Sha1 Rc4.

Inductive XboxEEPROMVersion :=
| XBOX_EEPROM_VERSION_D
| XBOX_EEPROM_VERSION_R1
| XBOX_EEPROM_VERSION_R2
| XBOX_EEPROM_VERSION_R3.

(** Offsets of the fields of [XboxEEPROM]. *)
Abbreviation e_hash := (0) (only parsing).
Abbreviation e_confounder := (20) (only parsing).
Abbreviation e_hdd_key := (28) (only parsing).
Abbreviation e_region := (44) (only parsing).
Abbreviation e_checksum := (48) (only parsing).
Abbreviation e_serial := (52) (only parsing).
Abbreviation e_mac := (64) (only parsing).
Abbreviation e_online_key := (72) (only parsing).
Abbreviation e_video_standard := (88) (only parsing).
Abbreviation e_user_checksum := (96) (only parsing).
Abbreviation e_user_section := (100) (only parsing).

(** ** The checksum *)

Fixpoint crc_loop (n : nat) (i high low : Z) (data : list Z) : outcome (Z * Z) :=
  match n with
  | O => Ok (high, low)
  | S n =>
      w ← slice data (4 * i) 4;
      let val := le_val w in
      let sum := (high ≪ 32) .| low in
      crc_loop n (i + 1) (u32 (u64 (sum + val) ≫ 32)) (u32 (low + val)) data
  end.

Definition xbox_eeprom_crc (data : list Z) (len : Z) : outcome Z :=
  '(high, low) ← crc_loop (Z.to_nat (len / 4)) 0 0 0 data;
  Ok (u32 (Z.lnot (u32 (high + low)))).

(** ** The keyed hash *)

Definition xbox_sha1_reset (ctx : SHA1Context) (ver : XboxEEPROMVersion) (first : bool)
    : SHA1Context :=
  let ctx := ctx <| msg_blk_index := 0 |> <| computed := false |> <| msg_length := 512 |> in
  match ver with
  | XBOX_EEPROM_VERSION_D =>
      if first then sha1_fill ctx 0x85F9E51A 0xE04613D2 0x6D86A50C 0x77C32E3C 0x4BD717A4
      else sha1_fill ctx 0x5D7A9C6B 0xE1922BEB 0xB82CCDBC 0x3137AB34 0x486B52B3
  | XBOX_EEPROM_VERSION_R2 =>
      if first then sha1_fill ctx 0x39B06E79 0xC9BD25E8 0xDBC6B498 0x40B4389D 0x86BBD7ED
      else sha1_fill ctx 0x9B49BED3 0x84B430FC 0x6B8749CD 0xEBFE5FE5 0xD96E7393
  | XBOX_EEPROM_VERSION_R3 =>
      if first then sha1_fill ctx 0x8058763A 0xF97D4E0E 0x865A9762 0x8A3D920D 0x08995B2C
      else sha1_fill ctx 0x01075307 0xA2f1E037 0x1186EEEA 0x88DA9992 0x168A5609
  | _ =>
      if first then sha1_fill ctx 0x72127625 0x336472B9 0xBE609BEA 0xF55E226B 0x99958DAC
      else sha1_fill ctx 0x76441D41 0x4DE82659 0x2E8EF85E 0xB256FACA 0xC4FE2DE8
  end.

(** The first digest is written over the context's own block and hashed from
    there. *)
Definition xbox_sha1_compute (ctx : SHA1Context) (ver : XboxEEPROMVersion) (data : list Z) (len : Z)
    : outcome (SHA1Context * list Z) :=
  let ctx := xbox_sha1_reset ctx ver true in
  ctx ← sha1_input ctx (Ext data) len;
  '(ctx, d) ← sha1_result ctx;
  blk ← blit (msg_blk ctx) 0 d;
  let ctx := ctx <| msg_blk := blk |> in
  let ctx := xbox_sha1_reset ctx ver false in
  ctx ← sha1_input ctx OwnBlk 20;
  sha1_result ctx.

(** ** The image *)

(** The bytes of [qcrypto_random_bytes], in the order of the calls. *)
Record EepromRandom := mkRandom {
  r_confounder : list Z;
  r_hdd_key : list Z;
  r_online_key : list Z;
  r_mac : list Z;
  r_serial : list Z
}.

(** The default time zone and language. *)
Definition default_user_section : list Z :=
  [0x00; 0x00; 0x00; 0x00; 0x47; 0x4D; 0x54; 0x00; 0x42; 0x53; 0x54; 0x00;
   0x00; 0x00; 0x00; 0x00; 0x00; 0x00; 0x00; 0x00; 0x0A; 0x05; 0x00; 0x02; 0x03; 0x05; 0x00; 0x01; 0x00; 0x00;
   0x00; 0x00; 0x00; 0x00; 0x00; 0x00; 0x00; 0x00; 0x00; 0x00; 0xC4; 0xFF; 0xFF; 0xFF].

(** The fields set before the checksums. *)
Definition eeprom_fields (r : EepromRandom) : outcome (list Z) :=
  let e := replicate 256 0 in
  e ← blit e e_region (le_bytes 4 1);
  e ← blit e e_video_standard (le_bytes 4 0x00400100);
  e ← blit e e_confounder (r_confounder r);
  e ← blit e e_hdd_key (r_hdd_key r);
  e ← blit e e_online_key (r_online_key r);
  e ← blit e e_mac [0x00; 0x50; 0xF2];
  e ← blit e (e_mac + 3) (r_mac r);
  e ← blit e e_serial (r_serial r);
  serial ← slice e e_serial 12;
  e ← blit e e_serial ((fun b => u8 (48 + b mod 10)) <$> serial);
  e ← blit e e_user_section default_user_section;
  blit e (e_user_section + 0x2C) (le_bytes 4 1).

Definition eeprom_checksums (e : list Z) : outcome (list Z) :=
  d ← slice e e_serial 0x2C;
  c ← xbox_eeprom_crc d 0x2C;
  e ← blit e e_checksum (le_bytes 4 c);
  d ← slice e e_user_section 0x5C;
  c ← xbox_eeprom_crc d 0x5C;
  blit e e_user_checksum (le_bytes 4 c).

(** Hash and encrypt the security section: confounder, disk key and region. *)
Definition eeprom_encrypt (ver : XboxEEPROMVersion) (sctx : SHA1Context) (e : list Z)
    : outcome (list Z) :=
  d ← slice e e_confounder 0x1C;
  '(sctx, hash) ← xbox_sha1_compute sctx ver d 0x1C;
  e ← blit e e_hash hash;
  h ← slice e e_hash 20;
  '(_, seed) ← xbox_sha1_compute sctx ver h 20;
  rctx ← rc4_init seed 20;
  d ← slice e e_confounder 0x1C;
  '(_, d) ← rc4_crypt rctx d 0x1C;
  blit e e_confounder d.

(** [fopen_ok]: whether the file could be opened; [fwrite e]: the number of
    objects written. The result is what the function returns and the image it
    tried to write. *)
Definition xbox_eeprom_generate (fopen_ok : bool) (fwrite : list Z -> Z)
    (ver : XboxEEPROMVersion) (r : EepromRandom) (sctx : SHA1Context)
    : outcome (bool * option (list Z)) :=
  e ← eeprom_fields r;
  e ← eeprom_checksums e;
  e ← eeprom_encrypt ver sctx e;
  Ok (if fopen_ok then (fwrite e =? 1, Some e) else (false, None)).

(** ** Slices of stored bytes *)

Lemma slice_in_front l a n m x y :
  slice l a n = Ok x -> slice l (a + n) m = Ok y -> slice l a (n + m) = Ok (x ++ y).
Proof.
  unfold slice. intros Hx Hy.
  destruct (_ && _) eqn:B in Hx; [| done]. destruct (_ && _) eqn:C in Hy; [| done].
  repeat apply andb_prop in B as [B ?]. repeat apply andb_prop in C as [C ?].
  rewrite !Z.leb_le in *. simplify_eq.
  destruct (Z.leb_spec 0 a), (Z.leb_spec 0 (n + m)), (Z.leb_spec (a + (n + m)) (zlen l)); try lia.
  cbn. f_equal. rewrite Z2Nat.inj_add by lia. rewrite (Z2Nat.inj_add a n) by lia.
  rewrite <- (drop_drop l). by rewrite <- take_take_drop.
Qed.

(** ** The checksum *)

(** The first [n] little-endian words. *)
Fixpoint le_words (n : nat) (data : list Z) : list Z :=
  match n with
  | O => []
  | S n => le_val (take 4 data) :: le_words n (drop 4 data)
  end.

Definition sumZ (l : list Z) : Z := foldr Z.add 0 l.

Lemma crc_loop_spec n i high low data :
  in_u 32 high -> in_u 32 low -> 0 <= i -> 4 * (i + Z.of_nat n) <= zlen data ->
  crc_loop n i high low data =
    let T := u64 (high * 2 ^ 32 + low + sumZ (le_words n (drop (Z.to_nat (4 * i)) data))) in
    Ok (T / 2 ^ 32, u32 T).
Proof.
  revert i high low. induction n as [| n IH]; intros i h l Hh Hl Hi Hn; cbn [crc_loop le_words].
  { cbn [sumZ foldr]. rewrite Z.add_0_r. unfold in_u in *. cbv zeta.
    rewrite (Z.mod_small (_ + _)) by lia. f_equal. f_equal.
    - apply (Z.div_unique_pos _ _ _ l); lia.
    - apply (Z.mod_unique_pos _ _ h); lia. }
  rewrite slice_ok, ok_bind by lia. cbv zeta. change (Z.to_nat 4) with 4%nat.
  set (val := le_val _).
  rewrite IH; [| | by apply in_u_mod | lia | lia].
  2: { by apply in_u_mod. }
  cbv zeta. rewrite drop_drop. replace (Z.to_nat (4 * (i + 1))) with (Z.to_nat (4 * i) + 4)%nat by lia.
  set (rest := sumZ (le_words n _)). cbn [sumZ foldr]. fold (sumZ (le_words n (drop (Z.to_nat (4 * i) + 4) data))).
  fold rest.
  enough (u64 (u32 (u64 ((h ≪ 32) .| l + val) ≫ 32) * 2 ^ 32 + u32 (l + val) + rest)
          = u64 (h * 2 ^ 32 + l + (val + rest))) as -> by done.
  rewrite Z.lor_comm, lor_shiftl_add, Z.shiftr_div_pow2 by (done || lia).
  rewrite <- Zplus_mod_idemp_l. rewrite (Z.add_assoc _ val).
  rewrite <- (Zplus_mod_idemp_l (_ + val)). f_equal. f_equal.
  rewrite (Z.add_comm l (h * 2 ^ 32)). set (S := h * 2 ^ 32 + l + val).
  assert (u32 (l + val) = u32 (u64 S)) as ->.
  { rewrite Z.mod_mod_divide by (by exists (2 ^ 32)).
    unfold S. rewrite <- Z.add_assoc, (Z.add_comm (h * _)). by rewrite Z_mod_plus_full. }
  assert (0 <= u64 S < 2 ^ 64) as HS by (apply Z.mod_pos_bound; lia).
  rewrite (Z.mod_small (u64 S / 2 ^ 32)).
  - rewrite Z.mul_comm, <- Z.div_mod by lia. by apply Z.mod_small.
  - split; [apply Z.div_pos; lia | apply Z.div_lt_upper_bound; lia].
Qed.

(** The sum with its carry folded back in. *)
Definition folded_sum (l : list Z) : Z := u32 (sumZ l / 2 ^ 32 + sumZ l mod 2 ^ 32).

Lemma sumZ_bound l b : 0 <= b -> Forall (fun x => 0 <= x < b) l -> 0 <= sumZ l <= zlen l * b.
Proof.
  intros Hb. induction 1 as [| x l Hx _ IH]; cbn [sumZ foldr length]; [lia |].
  change (foldr Z.add 0 l) with (sumZ l). nia.
Qed.

Lemma le_words_bound n data : Forall (in_u 8) data -> Forall (fun x => 0 <= x < 2 ^ 32) (le_words n data).
Proof.
  revert data. induction n as [| n IH]; intros data Hb; cbn [le_words]; constructor.
  - pose proof (le_val_in_u (take 4 data) ltac:(by apply Forall_take)) as [H1 H2].
    split; [done |]. eapply Z.lt_le_trans; [exact H2 |].
    apply Z.pow_le_mono_r; [lia |]. rewrite length_take. lia.
  - apply IH. by apply Forall_drop.
Qed.

Lemma le_words_length n data : length (le_words n data) = n.
Proof. revert data. induction n; intros; cbn; by rewrite ?IHn. Qed.

Lemma crc_spec data len :
  Forall (in_u 8) data -> 0 <= len <= zlen data -> len < 2 ^ 32 ->
  xbox_eeprom_crc data len =
    Ok (2 ^ 32 - 1 - folded_sum (le_words (Z.to_nat (len / 4)) data)).
Proof.
  intros Hb Hl Hlt. unfold xbox_eeprom_crc.
  pose proof (Z.mul_div_le len 4). pose proof (Z.div_pos len 4).
  rewrite crc_loop_spec by (done || lia). cbv zeta. rewrite ok_bind.
  change (Z.to_nat (4 * 0)) with 0%nat. rewrite drop_0, Z.mul_0_l, !Z.add_0_l.
  set (l := le_words _ data).
  assert (0 <= sumZ l <= zlen l * 2 ^ 32) as HS by (apply sumZ_bound; [lia | by apply le_words_bound]).
  assert (length l = Z.to_nat (len / 4)) as El by apply le_words_length. rewrite El in HS.
  rewrite (Z.mod_small (sumZ l) (2 ^ 64)) by lia. fold (folded_sum l). f_equal.
  assert (0 <= folded_sum l < 2 ^ 32) by (apply Z.mod_pos_bound; lia).
  unfold Z.lnot. symmetry. apply (Z.mod_unique_pos _ _ (-1)); lia.
Qed.

(** ** The keyed hash *)

Definition xbox_iv (ver : XboxEEPROMVersion) (first : bool) : list Z :=
  intermediate (xbox_sha1_reset (mkSHA1 [] [] 0 0 false) ver first).

(** Two nested hashes; each initial state stands for one 64-byte key block. *)
Definition xbox_hmac (ver : XboxEEPROMVersion) (data : list Z) : list Z :=
  Fips.hash (xbox_iv ver false) 64 (Fips.hash (xbox_iv ver true) 64 data).

Lemma reset_fresh ctx ver first :
  block_ok ctx -> fresh (xbox_iv ver first) 64 (xbox_sha1_reset ctx ver first).
Proof.
  intros Hb. destruct ver, first; (split; [split; [done |]; repeat constructor; lia |]); done.
Qed.

Lemma xbox_sha1_compute_spec ctx ver data :
  block_ok ctx -> Forall (in_u 8) data -> zlen data < 2 ^ 28 ->
  exists ctx', xbox_sha1_compute ctx ver data (zlen data) = Ok (ctx', xbox_hmac ver data) /\
    block_ok ctx' /\ length (xbox_hmac ver data) = 20%nat /\ Forall (in_u 8) (xbox_hmac ver data).
Proof.
  intros Hb Hd Hl. unfold xbox_sha1_compute. cbv zeta.
  pose proof (reset_fresh ctx ver true Hb) as Hf.
  destruct (input_spec _ [] _ data (fresh_absorbed _ _ _ Hf) Hd) as (c1 & -> & Ha1 & Hl1 & Hc1); [lia |].
  rewrite ok_bind. destruct Hf as (_ & _ & _ & _ & Hl0 & Hc0). rewrite Hl0 in Hl1. rewrite Hc0 in Hc1.
  destruct (result_spec _ 64 data c1 Ha1) as (c2 & -> & [Hb2 Hb2'] & Hd1);
    [lia | lia | rewrite Hl1, Z.mod_small; lia | done |].
  rewrite ok_bind. set (d1 := Fips.hash _ 64 data) in *.
  assert (Forall (in_u 8) d1) as Hd1' by apply digest_bytes.
  rewrite blit_ok, ok_bind by lia. change (Z.to_nat 0) with 0%nat. rewrite take_0, Nat.add_0_l. cbn [app].
  set (blk := d1 ++ drop (length d1) (msg_blk c2)).
  assert (block_ok (c2 <| msg_blk := blk |>)) as Hb3.
  { change (length blk = 64%nat /\ Forall (in_u 8) blk). unfold blk.
    split; [rewrite length_app, length_drop; lia |].
    apply Forall_app. split; [done | by apply Forall_drop]. }
  pose proof (reset_fresh _ ver false Hb3) as Hf3.
  destruct (input_own_spec _ 64 _ 20 Hf3) as (c3 & -> & Ha3 & Hl3 & Hc3); [lia | lia | lia |].
  rewrite ok_bind.
  assert (take (Z.to_nat 20) (msg_blk (xbox_sha1_reset (c2 <| msg_blk := blk |>) ver false)) = d1) as Et.
  { replace (msg_blk _) with blk by (by destruct ver). unfold blk.
    rewrite take_app_length' by (rewrite Hd1; done). done. }
  rewrite Et in Ha3.
  destruct (result_spec _ 64 d1 c3 Ha3) as (c4 & -> & Hb4 & Hd4); [lia | lia | lia | done |].
  exists c4. split_and!; [done | apply Hb4.. | done | apply digest_bytes].
Qed.

(** ** The image *)

(** An image: 256 bytes. *)
Definition image (e : list Z) : Prop := length e = 256%nat /\ Forall (in_u 8) e.

Lemma image_blit e a l :
  image e -> 0 <= a -> a + zlen l <= 256 -> Forall (in_u 8) l ->
  exists e', blit e a l = Ok e' /\ image e'.
Proof.
  intros [Hl Hb] Ha Hal Hu.
  destruct (blit e a l) as [e' | | |] eqn:E; try (rewrite blit_ok in E by lia; done).
  exists e'. split; [done |]. split; [by erewrite blit_length | by eapply Forall_blit].
Qed.

Lemma image_slice e a n :
  image e -> 0 <= a -> 0 <= n -> a + n <= 256 ->
  exists l, slice e a n = Ok l /\ zlen l = n /\ Forall (in_u 8) l.
Proof.
  intros [Hl Hb] Ha Hn Hal. rewrite slice_ok by lia. eexists. split; [done |].
  split; [rewrite length_take, length_drop; lia | by apply Forall_take, Forall_drop].
Qed.

(** The next store of the image: introduce its result. *)
Ltac store E :=
  match goal with
  | H : image ?e |- context [blit ?e ?a ?l] =>
      let e' := fresh "e" in
      destruct (image_blit e a l H) as (e' & E & ?);
      [cbn; lia | rewrite ?length_le_bytes, ?length_fmap; (lia || (cbn; lia))
       | auto using Forall_le_bytes | rewrite E, ok_bind; clear H]
  end.

(** The random bytes fill their fields. *)
Record random_ok (r : EepromRandom) : Prop := {
  ok_confounder : length (r_confounder r) = 8%nat /\ Forall (in_u 8) (r_confounder r);
  ok_hdd_key : length (r_hdd_key r) = 16%nat /\ Forall (in_u 8) (r_hdd_key r);
  ok_online_key : length (r_online_key r) = 16%nat /\ Forall (in_u 8) (r_online_key r);
  ok_mac : length (r_mac r) = 3%nat /\ Forall (in_u 8) (r_mac r);
  ok_serial : length (r_serial r) = 12%nat /\ Forall (in_u 8) (r_serial r)
}.

(** The security section in clear. *)
Definition security_section (r : EepromRandom) : list Z :=
  r_confounder r ++ r_hdd_key r ++ le_bytes 4 1.

(** The serial number and the MAC address. *)
Definition factory_section (r : EepromRandom) : list Z :=
  ((fun b => u8 (48 + b mod 10)) <$> r_serial r) ++ [0x00; 0x50; 0xF2] ++ r_mac r.

Lemma slice_blit_at dst at_ src dst' n :
  blit dst at_ src = Ok dst' -> n = zlen src -> slice dst' at_ n = Ok src.
Proof. intros E ->. by eapply slice_blit_eq. Qed.

(** Read a slice through the stores above it. *)
Ltac through E := rewrite (slice_blit_ne _ _ _ _ _ _ E)
  by (rewrite ?length_le_bytes, ?length_fmap; (lia || (cbn; lia))).

Lemma eeprom_fields_spec r : random_ok r ->
  exists e, eeprom_fields r = Ok e /\ image e /\
    slice e e_confounder 28 = Ok (security_section r) /\
    slice e e_serial 18 = Ok (factory_section r).
Proof.
  intros [[L1 B1] [L2 B2] [L3 B3] [L4 B4] [L5 B5]]. unfold eeprom_fields.
  cbv zeta. assert (image (replicate 256 0)) as Hi.
  { split; [done |]. by apply Forall_replicate. }
  store E1. store E2. store E3. store E4. store E5.
  assert (Forall (in_u 8) [0; 80; 242]) by (repeat constructor; lia).
  store E6. store E7. store E8.
  rewrite (slice_blit_at _ _ _ _ _ E8), ok_bind by lia.
  assert (Forall (in_u 8) ((fun b => u8 (48 + b mod 10)) <$> r_serial r)).
  { apply Forall_fmap, Forall_forall. intros x _. by apply in_u_mod. }
  store E9.
  assert (Forall (in_u 8) default_user_section) by (repeat constructor; lia).
  store E10.
  destruct (image_blit e8 (100 + 0x2C) (le_bytes 4 1)) as (e9 & E11 & Hi9);
    [done | lia | cbn; lia | apply Forall_le_bytes |].
  exists e9. split_and!; [done | apply Hi9.. | |].
  - apply (slice_in_front _ 20 8 20); [| apply (slice_in_front _ _ 16 4)];
      through E11; through E10; through E9; through E8; through E7; through E6; through E5.
    + through E4. apply (slice_blit_at _ _ _ _ _ E3). lia.
    + apply (slice_blit_at _ _ _ _ _ E4). lia.
    + through E4. through E3. through E2. apply (slice_blit_at _ _ _ _ _ E1). done.
  - apply (slice_in_front _ 52 12 6); [| apply (slice_in_front _ _ 3 3)]; through E11; through E10.
    + apply (slice_blit_at _ _ _ _ _ E9). rewrite length_fmap. lia.
    + through E9. through E8. through E7. apply (slice_blit_at _ _ _ _ _ E6). done.
    + through E9. through E8. apply (slice_blit_at _ _ _ _ _ E7). lia.
Qed.

(** The checksum of a section: the complement of the sum of its words with the carry
    added in. *)
Definition section_checksum (d : list Z) : Z := 2 ^ 32 - 1 - folded_sum (le_words (length d / 4) d).

(** The checksum stored at [at_] is that of the [n] bytes from [from]. *)
Definition checksum_holds (e : list Z) (at_ from n : Z) : Prop :=
  exists d c, slice e from n = Ok d /\ xbox_eeprom_crc d n = Ok c /\ c = section_checksum d /\
    slice e at_ 4 = Ok (le_bytes 4 c).

Lemma section_words d n k : length d = n -> (n / 4 = k)%nat ->
  2 ^ 32 - 1 - folded_sum (le_words k d) = section_checksum d.
Proof. by intros <- <-. Qed.

Lemma eeprom_checksums_spec e : image e ->
  exists e', eeprom_checksums e = Ok e' /\ image e' /\
    checksum_holds e' e_checksum e_serial 0x2C /\
    checksum_holds e' e_user_checksum e_user_section 0x5C /\
    slice e' e_confounder 28 = slice e e_confounder 28 /\
    slice e' e_serial 18 = slice e e_serial 18.
Proof.
  intros Hi. unfold eeprom_checksums, checksum_holds.
  destruct (image_slice e 52 0x2C Hi) as (d1 & S1 & L1 & B1); [lia.. |].
  rewrite S1, ok_bind. pose proof (crc_spec d1 0x2C B1 ltac:(lia) ltac:(lia)) as C1.
  set (c1 := 2 ^ 32 - 1 - _) in C1. rewrite C1, ok_bind. store E1.
  destruct (image_slice e0 100 0x5C) as (d2 & S2 & L2 & B2); [done | lia.. |].
  rewrite S2, ok_bind. pose proof (crc_spec d2 0x5C B2 ltac:(lia) ltac:(lia)) as C2.
  set (c2 := 2 ^ 32 - 1 - _) in C2. rewrite C2, ok_bind.
  destruct (image_blit e0 96 (le_bytes 4 c2)) as (e1 & E2 & Hi1);
    [done | lia | cbn; lia | apply Forall_le_bytes |].
  exists e1. split_and!; [done | apply Hi1.. | exists d1, c1 | exists d2, c2 | |].
  - split_and!; [through E2; by through E1 | done | by rewrite <- (section_words d1 44 11); [| lia | ] | through E2].
    apply (slice_blit_at _ _ _ _ _ E1). by rewrite length_le_bytes.
  - split_and!; [by through E2 | done | by rewrite <- (section_words d2 92 23); [| lia | ] |].
    apply (slice_blit_at _ _ _ _ _ E2). by rewrite length_le_bytes.
  - through E2. by through E1.
  - through E2. by through E1.
Qed.

(** The stored section decrypts, under the key derived from the stored hash, to
    [plain], and the stored hash is that of [plain]. *)
Definition security_holds (ver : XboxEEPROMVersion) (e plain : list Z) : Prop :=
  exists sec s s', slice e e_hash 20 = Ok (xbox_hmac ver plain) /\
    slice e e_confounder 28 = Ok sec /\
    rc4_init (xbox_hmac ver (xbox_hmac ver plain)) 20 = Ok s /\
    rc4_crypt s sec 28 = Ok (s', plain).

Lemma eeprom_encrypt_spec ver sctx e plain :
  image e -> block_ok sctx -> slice e e_confounder 28 = Ok plain ->
  exists e', eeprom_encrypt ver sctx e = Ok e' /\ image e' /\ security_holds ver e' plain /\
    forall a n, 48 <= a -> slice e' a n = slice e a n.
Proof.
  unfold eeprom_encrypt, security_holds. intros Hi Hb Sp.
  destruct (image_slice e 20 28 Hi) as (p & S1 & L1 & B1); [lia.. |].
  rewrite Sp in S1. injection S1 as <-. rewrite Sp, ok_bind.
  destruct (xbox_sha1_compute_spec sctx ver plain Hb B1) as (c1 & E1 & Hb1 & HL1 & HB1); [lia |].
  rewrite L1 in E1. rewrite E1, ok_bind. cbv beta iota. store E2.
  rewrite (slice_blit_at _ _ _ _ _ E2), ok_bind by lia.
  destruct (xbox_sha1_compute_spec c1 ver (xbox_hmac ver plain) Hb1 HB1) as (c2 & E3 & _ & HL2 & HB2); [lia |].
  rewrite HL1 in E3. change (Z.of_nat 20) with 20 in E3. rewrite E3, ok_bind. cbv beta iota.
  destruct (rc4_init_ok (xbox_hmac ver (xbox_hmac ver plain))) as (s & E4 & Hs).
  { intros E. by rewrite E in HL2. }
  rewrite HL2 in E4. change (Z.of_nat 20) with 20 in E4. rewrite E4, ok_bind.
  assert (slice e0 20 28 = Ok plain) as S0 by (by through E2).
  rewrite S0, ok_bind. destruct (rc4_twice s plain Hs) as (s' & sec & E5 & _ & HL & HB & E6).
  rewrite L1 in E5. rewrite E5, ok_bind. cbv beta iota.
  destruct (image_blit e0 20 sec) as (e1 & E7 & Hi1); [done | lia | lia | by apply HB |].
  exists e1. split_and!; [done | apply Hi1.. | exists sec, s, s' |].
  - split_and!; [through E7; apply (slice_blit_at _ _ _ _ _ E2); lia | | done |].
    + apply (slice_blit_at _ _ _ _ _ E7). lia.
    + by replace 28 with (zlen sec) by lia.
  - intros a n Ha. rewrite (slice_blit_ne _ _ _ _ _ _ E7), (slice_blit_ne _ _ _ _ _ _ E2) by lia. done.
Qed.

Lemma checksum_holds_keep e e' at_ from n :
  slice e' from n = slice e from n -> slice e' at_ 4 = slice e at_ 4 ->
  checksum_holds e at_ from n -> checksum_holds e' at_ from n.
Proof. intros E1 E2 (d & c & H1 & H2 & H3). exists d, c. rewrite E1, E2. done. Qed.

(** C37: for every console version and all random bytes, generation returns a
    256-byte image that the console accepts: the section encrypted in it
    decrypts, under the RC4 key derived from the stored hash, to the confounder,
    the disk key and the region that were generated, and the stored hash is the
    keyed hash of that plain text; both stored checksums are the checksums of
    their sections, the complement of the sum of the words; serial number and MAC address are in their places. The call
    reports success exactly when the file was opened and written. *)
Theorem eeprom_image_accepted fopen_ok fwrite ver r sctx :
  random_ok r -> block_ok sctx ->
  exists img,
    xbox_eeprom_generate fopen_ok fwrite ver r sctx =
      Ok (if fopen_ok then (fwrite img =? 1, Some img) else (false, None)) /\
    length img = 256%nat /\ Forall (in_u 8) img /\
    security_holds ver img (security_section r) /\
    checksum_holds img e_checksum e_serial 0x2C /\
    checksum_holds img e_user_checksum e_user_section 0x5C /\
    slice img e_serial 18 = Ok (factory_section r).
Proof.
  intros Hr Hb. unfold xbox_eeprom_generate.
  destruct (eeprom_fields_spec r Hr) as (e1 & -> & Hi1 & S1 & F1). rewrite ok_bind.
  destruct (eeprom_checksums_spec e1 Hi1) as (e2 & -> & Hi2 & C1 & C2 & S2 & F2). rewrite ok_bind.
  rewrite <- S2 in S1. rewrite <- F2 in F1.
  destruct (eeprom_encrypt_spec ver sctx e2 _ Hi2 Hb S1) as (e3 & -> & [Hl Hu] & Hs & Hk).
  rewrite ok_bind. exists e3. split_and!; [done.. | | |].
  - eapply checksum_holds_keep, C1; apply Hk; done.
  - eapply checksum_holds_keep, C2; apply Hk; done.
  - rewrite Hk; done.
Qed.

Lemma eeprom_image_accepted_witness :
  let r := mkRandom (seqZ 1 8) (seqZ 10 16) (seqZ 30 16) [7; 8; 9] (seqZ 250 6 ++ seqZ 0 6) in
  let sctx := mkSHA1 [] (replicate 64 0xA5) 3 77 true in
  exists img,
    xbox_eeprom_generate true (fun _ => 1) XBOX_EEPROM_VERSION_R1 r sctx = Ok (true, Some img) /\
    length img = 256%nat /\
    security_holds XBOX_EEPROM_VERSION_R1 img (security_section r).
Proof.
  intros r sctx.
  destruct (eeprom_image_accepted true (fun _ => 1) XBOX_EEPROM_VERSION_R1 r sctx)
    as (img & E & Hl & _ & Hs & _).
  - constructor; (split; [reflexivity | repeat constructor; lia]).
  - split; [reflexivity | repeat constructor; lia].
  - exists img. split; [exact E |]. split; [exact Hl | exact Hs].
Defined.
