(* ===== verification/I2c.v ===== *)
(** * The I2C bus and SMBus transactions over it
      (hw/i2c/core.c, smbus_slave.c, smbus_master.c)

    Three layers, as in the code. [I2CSlaveClass] is what the bus calls on a
    slave; the bus ([I2CBus]) keeps the slaves and the list of those selected by
    the current transfer. [SMBusDeviceClass] is what the SMBus slave protocol
    calls on a device; the protocol ([SMBusDevice]) collects the written bytes
    and is itself an I2C slave. The master's transactions are sequences of bus
    operations. The theorems show that a transaction on an idle bus is exactly
    the calls of the addressed device's functions, leaves every other device
    alone and the bus idle. Bottom halves and asynchronous sends (bus masters
    other than the controller) are not used by the console and left out. *)

From stdpp Require Import base numbers list sets.
From Stdlib Require Import ZArith Lia.
From S2P Require Import Prelude.

Inductive i2c_event :=
| I2C_START_RECV
| I2C_START_SEND
| I2C_START_SEND_ASYNC
| I2C_FINISH
| I2C_NACK.

(** The functions of a slave's class; [None] where the class leaves it NULL. *)
Class I2CSlaveClass (S : Type) := {
  slave_address : S -> Z;
  sc_event : option (S -> i2c_event -> outcome (S * Z));
  sc_send : option (S -> Z -> outcome (S * Z));
  sc_recv : option (S -> outcome (S * Z))
}.

(** ** The bus

    [children] are the slaves in the order they were added; [current_devs] the
    positions of the selected ones, the last inserted first. *)

Record I2CBus (S : Type) := mkBus {
  children : list S;
  current_devs : list nat;
  broadcast : bool
}.
Arguments mkBus {S} _ _ _.
Arguments children {S} _.
Arguments current_devs {S} _.
Arguments broadcast {S} _.

#[export] Instance I2CBus_eta S : Eta (I2CBus S) := fun b =>
  mkBus (children b) (current_devs b) (broadcast b).

Abbreviation I2C_BROADCAST := (0) (only parsing).

Section Core.
Context {S : Type} `{sc : !I2CSlaveClass S}.

Definition i2c_slave_match (candidate : S) (address : Z) (bcast : bool) : bool :=
  (slave_address candidate =? address) || bcast.

(** The scan of the children from position [i] on; a match is inserted at the
    head of the list and ends the scan unless this is a broadcast. *)
Fixpoint i2c_scan_bus (kids : list S) (i : nat) (address : Z) (bcast : bool) (devs : list nat)
    : list nat :=
  match kids with
  | [] => devs
  | k :: kids =>
      if i2c_slave_match k address bcast then
        if bcast then i2c_scan_bus kids (i + 1) address bcast (i :: devs) else i :: devs
      else i2c_scan_bus kids (i + 1) address bcast devs
  end.

(** Run [f] on the slave at position [i]. *)
Definition on_slave {A} (bus : I2CBus S) (i : nat) (f : S -> outcome (S * A))
    : outcome (I2CBus S * A) :=
  match children bus !! i with
  | Some s =>
      '(s, a) ← f s;
      Ok (bus <| children := <[i := s]> (children bus) |>, a)
  | None => Undef
  end.

Fixpoint end_each (devs : list nat) (bus : I2CBus S) : outcome (I2CBus S) :=
  match devs with
  | [] => Ok bus
  | i :: devs =>
      bus ← match sc_event with
            | Some ev => '(bus, _) ← on_slave bus i (fun s => ev s I2C_FINISH); Ok bus
            | None => Ok bus
            end;
      end_each devs (bus <| current_devs := devs |>)
  end.

Definition i2c_end_transfer (bus : I2CBus S) : outcome (I2CBus S) :=
  bus ← end_each (current_devs bus) bus;
  Ok (bus <| broadcast := false |>).

(** The start condition on every selected slave. *)
Fixpoint start_each (devs : list nat) (event : i2c_event) (scanned : bool) (bus : I2CBus S)
    : outcome (I2CBus S * Z) :=
  match devs with
  | [] => Ok (bus, 0)
  | i :: devs =>
      match sc_event with
      | Some ev =>
          '(bus, rv) ← on_slave bus i (fun s => ev s event);
          if negb (rv =? 0) && negb (broadcast bus) then
            bus ← (if scanned then i2c_end_transfer bus else Ok bus);
            Ok (bus, rv)
          else start_each devs event scanned bus
      | None => start_each devs event scanned bus
      end
  end.

Definition i2c_do_start_transfer (bus : I2CBus S) (address : Z) (event : i2c_event)
    : outcome (I2CBus S * Z) :=
  let bus := if address =? I2C_BROADCAST then bus <| broadcast := true |> else bus in
  let scanned := match current_devs bus with [] => true | _ => false end in
  let bus := if scanned
             then bus <| current_devs :=
                    i2c_scan_bus (children bus) 0 address (broadcast bus) (current_devs bus) |>
             else bus in
  match current_devs bus with
  | [] => Ok (bus, 1)
  | devs => start_each devs event scanned bus
  end.

Definition i2c_start_transfer (bus : I2CBus S) (address : Z) (is_recv : bool) :=
  i2c_do_start_transfer bus address (if is_recv then I2C_START_RECV else I2C_START_SEND).

Definition i2c_start_recv (bus : I2CBus S) (address : Z) :=
  i2c_do_start_transfer bus address I2C_START_RECV.

Definition i2c_start_send (bus : I2CBus S) (address : Z) :=
  i2c_do_start_transfer bus address I2C_START_SEND.

(** [ret = ret || sc->send(s, data)]: after a failure the next slaves get
    nothing. *)
Fixpoint send_each (devs : list nat) (data : Z) (ret : bool) (bus : I2CBus S)
    : outcome (I2CBus S * bool) :=
  match devs with
  | [] => Ok (bus, ret)
  | i :: devs =>
      match sc_send with
      | Some send =>
          if ret then send_each devs data true bus
          else '(bus, r) ← on_slave bus i (fun s => send s data);
               send_each devs data (negb (r =? 0)) bus
      | None => send_each devs data true bus
      end
  end.

Definition i2c_send (bus : I2CBus S) (data : Z) : outcome (I2CBus S * Z) :=
  '(bus, ret) ← send_each (current_devs bus) data false bus;
  Ok (bus, if ret : bool then -1 else 0).

Definition i2c_recv (bus : I2CBus S) : outcome (I2CBus S * Z) :=
  match current_devs bus with
  | i :: _ =>
      if broadcast bus then Ok (bus, 0xff)
      else match sc_recv with
           | Some recv => on_slave bus i recv
           | None => Ok (bus, 0xff)
           end
  | [] => Ok (bus, 0xff)
  end.

Fixpoint nack_each (devs : list nat) (bus : I2CBus S) : outcome (I2CBus S) :=
  match devs with
  | [] => Ok bus
  | i :: devs =>
      bus ← match sc_event with
            | Some ev => '(bus, _) ← on_slave bus i (fun s => ev s I2C_NACK); Ok bus
            | None => Ok bus
            end;
      nack_each devs bus
  end.

Definition i2c_nack (bus : I2CBus S) : outcome (I2CBus S) := nack_each (current_devs bus) bus.

(** ** The master's transactions; -1 where no slave answers *)

Definition smbus_quick_command (bus : I2CBus S) (addr : Z) (read : bool) : outcome (I2CBus S * Z) :=
  '(bus, rv) ← i2c_start_transfer bus addr read;
  if negb (rv =? 0) then Ok (bus, -1)
  else bus ← i2c_end_transfer bus; Ok (bus, 0).

Definition smbus_receive_byte (bus : I2CBus S) (addr : Z) : outcome (I2CBus S * Z) :=
  '(bus, rv) ← i2c_start_recv bus addr;
  if negb (rv =? 0) then Ok (bus, -1)
  else
    '(bus, data) ← i2c_recv bus;
    bus ← i2c_nack bus;
    bus ← i2c_end_transfer bus;
    Ok (bus, data).

Definition smbus_send_byte (bus : I2CBus S) (addr data : Z) : outcome (I2CBus S * Z) :=
  '(bus, rv) ← i2c_start_send bus addr;
  if negb (rv =? 0) then Ok (bus, -1)
  else
    '(bus, _) ← i2c_send bus data;
    bus ← i2c_end_transfer bus;
    Ok (bus, 0).

Definition smbus_read_byte (bus : I2CBus S) (addr command : Z) : outcome (I2CBus S * Z) :=
  '(bus, rv) ← i2c_start_send bus addr;
  if negb (rv =? 0) then Ok (bus, -1)
  else
    '(bus, _) ← i2c_send bus command;
    '(bus, rv) ← i2c_start_recv bus addr;
    if negb (rv =? 0) then bus ← i2c_end_transfer bus; Ok (bus, -1)
    else
      '(bus, data) ← i2c_recv bus;
      bus ← i2c_nack bus;
      bus ← i2c_end_transfer bus;
      Ok (bus, data).

Definition smbus_write_byte (bus : I2CBus S) (addr command data : Z) : outcome (I2CBus S * Z) :=
  '(bus, rv) ← i2c_start_send bus addr;
  if negb (rv =? 0) then Ok (bus, -1)
  else
    '(bus, _) ← i2c_send bus command;
    '(bus, _) ← i2c_send bus data;
    bus ← i2c_end_transfer bus;
    Ok (bus, 0).

Definition smbus_read_word (bus : I2CBus S) (addr command : Z) : outcome (I2CBus S * Z) :=
  '(bus, rv) ← i2c_start_send bus addr;
  if negb (rv =? 0) then Ok (bus, -1)
  else
    '(bus, _) ← i2c_send bus command;
    '(bus, rv) ← i2c_start_recv bus addr;
    if negb (rv =? 0) then bus ← i2c_end_transfer bus; Ok (bus, -1)
    else
      '(bus, lo) ← i2c_recv bus;
      '(bus, hi) ← i2c_recv bus;
      let data := u16 (u16 lo .| (hi ≪ 8)) in
      bus ← i2c_nack bus;
      bus ← i2c_end_transfer bus;
      Ok (bus, data).

Definition smbus_write_word (bus : I2CBus S) (addr command data : Z) : outcome (I2CBus S * Z) :=
  '(bus, rv) ← i2c_start_send bus addr;
  if negb (rv =? 0) then Ok (bus, -1)
  else
    '(bus, _) ← i2c_send bus command;
    '(bus, _) ← i2c_send bus (data .& 0xff);
    '(bus, _) ← i2c_send bus (data ≫ 8);
    bus ← i2c_end_transfer bus;
    Ok (bus, 0).

(** [for (i = 0; i < rlen; i++) data[i] = i2c_recv(bus)]. *)
Fixpoint recv_block (n : nat) (i : Z) (bus : I2CBus S) (data : list Z)
    : outcome (I2CBus S * list Z) :=
  match n with
  | O => Ok (bus, data)
  | Datatypes.S n =>
      '(bus, v) ← i2c_recv bus;
      data ← wr data i v;
      recv_block n (i + 1) bus data
  end.

Definition smbus_read_block (bus : I2CBus S) (addr command : Z) (data : list Z) (len : Z)
    (recv_len send_cmd : bool) : outcome (I2CBus S * list Z * Z) :=
  '(bus, rv) ← (if send_cmd then
                  '(bus, rv) ← i2c_start_send bus addr;
                  if negb (rv =? 0) then Ok (bus, rv)
                  else '(bus, _) ← i2c_send bus command; Ok (bus, 0)
                else Ok (bus, 0));
  if negb (rv =? 0) then Ok (bus, data, -1)
  else
    '(bus, rv) ← i2c_start_recv bus addr;
    if negb (rv =? 0) then
      bus ← (if send_cmd then i2c_end_transfer bus else Ok bus);
      Ok (bus, data, -1)
    else
      '(bus, rlen) ← (if recv_len then i2c_recv bus else Ok (bus, len));
      let rlen := if rlen >? len then 0 else rlen in
      '(bus, data) ← recv_block (Z.to_nat rlen) 0 bus data;
      bus ← i2c_nack bus;
      bus ← i2c_end_transfer bus;
      Ok (bus, data, rlen).

Fixpoint send_block (n : nat) (i : Z) (bus : I2CBus S) (data : list Z) : outcome (I2CBus S) :=
  match n with
  | O => Ok bus
  | Datatypes.S n =>
      v ← rd data i;
      '(bus, _) ← i2c_send bus v;
      send_block n (i + 1) bus data
  end.

Definition smbus_write_block (bus : I2CBus S) (addr command : Z) (data : list Z) (len : Z)
    (send_len : bool) : outcome (I2CBus S * Z) :=
  let len := if len >? 32 then 32 else len in
  '(bus, rv) ← i2c_start_send bus addr;
  if negb (rv =? 0) then Ok (bus, -1)
  else
    '(bus, _) ← i2c_send bus command;
    '(bus, _) ← (if send_len then i2c_send bus (u8 len) else Ok (bus, 0));
    bus ← send_block (Z.to_nat len) 0 bus data;
    bus ← i2c_end_transfer bus;
    Ok (bus, 0).

End Core.

(** ** The SMBus slave protocol *)

Inductive smbus_mode :=
| SMBUS_IDLE
| SMBUS_WRITE_DATA
| SMBUS_READ_DATA
| SMBUS_DONE
| SMBUS_CONFUSED.

#[export] Instance smbus_mode_eq_dec : EqDecision smbus_mode.
Proof. solve_decision. Defined.

(** The functions of a device's class; [None] where the class leaves it NULL.
    The buffer given to [write_data] is exactly the bytes written, so that a
    device that reads further is undefined. *)
Class SMBusDeviceClass (D : Type) := {
  quick_cmd : D -> option (Z -> outcome D);
  write_data : D -> option (list Z -> outcome (D * Z));
  receive_byte : D -> option (outcome (D * Z))
}.

Abbreviation SMBUS_DATA_MAX_LEN := (34) (only parsing).

Record SMBusDevice (D : Type) := mkSMBusDevice {
  i2c_address : Z;
  mode : smbus_mode;
  data_len : Z;
  data_buf : list Z;
  dev : D
}.
Arguments mkSMBusDevice {D} _ _ _ _ _.
Arguments i2c_address {D} _.
Arguments mode {D} _.
Arguments data_len {D} _.
Arguments data_buf {D} _.
Arguments dev {D} _.

#[export] Instance SMBusDevice_eta D : Eta (SMBusDevice D) := fun s =>
  mkSMBusDevice (i2c_address s) (mode s) (data_len s) (data_buf s) (dev s).

Section Slave.
Context {D : Type} `{dc : !SMBusDeviceClass D}.

Definition smbus_do_quick_cmd (s : SMBusDevice D) (recv : Z) : outcome (SMBusDevice D) :=
  match quick_cmd (dev s) with
  | Some f => d ← f (u8 recv); Ok (s <| dev := d |>)
  | None => Ok s
  end.

Definition smbus_do_write (s : SMBusDevice D) : outcome (SMBusDevice D) :=
  match write_data (dev s) with
  | Some f =>
      buf ← slice (data_buf s) 0 (u8 (data_len s));
      '(d, _) ← f buf;
      Ok (s <| dev := d |>)
  | None => Ok s
  end.

Definition smbus_i2c_event (s : SMBusDevice D) (event : i2c_event) : outcome (SMBusDevice D * Z) :=
  match event with
  | I2C_START_SEND =>
      match mode s with
      | SMBUS_IDLE => Ok (s <| mode := SMBUS_WRITE_DATA |>, 0)
      | _ => Ok (s <| mode := SMBUS_CONFUSED |>, 0)
      end
  | I2C_START_RECV =>
      match mode s with
      | SMBUS_IDLE => Ok (s <| mode := SMBUS_READ_DATA |>, 0)
      | SMBUS_WRITE_DATA =>
          if data_len s =? 0 then Ok (s <| mode := SMBUS_CONFUSED |>, 0)
          else s ← smbus_do_write s; Ok (s <| mode := SMBUS_READ_DATA |>, 0)
      | _ => Ok (s <| mode := SMBUS_CONFUSED |>, 0)
      end
  | I2C_FINISH =>
      s ← (if data_len s =? 0 then
             match mode s with
             | SMBUS_WRITE_DATA => smbus_do_quick_cmd s 0
             | SMBUS_READ_DATA => smbus_do_quick_cmd s 1
             | _ => Ok s
             end
           else
             match mode s with
             | SMBUS_WRITE_DATA => smbus_do_write s
             | _ => Ok s
             end);
      Ok (s <| mode := SMBUS_IDLE |> <| data_len := 0 |>, 0)
  | I2C_NACK =>
      match mode s with
      | SMBUS_DONE => Ok (s, 0)
      | SMBUS_READ_DATA => Ok (s <| mode := SMBUS_DONE |>, 0)
      | _ => Ok (s <| mode := SMBUS_CONFUSED |>, 0)
      end
  | I2C_START_SEND_ASYNC => Ok (s, -1)
  end.

Definition smbus_i2c_recv (s : SMBusDevice D) : outcome (SMBusDevice D * Z) :=
  match mode s with
  | SMBUS_READ_DATA =>
      match receive_byte (dev s) with
      | Some r => '(d, v) ← r; Ok (s <| dev := d |>, v)
      | None => Ok (s, 0xff)
      end
  | _ => Ok (s <| mode := SMBUS_CONFUSED |>, 0xff)
  end.

Definition smbus_i2c_send (s : SMBusDevice D) (data : Z) : outcome (SMBusDevice D * Z) :=
  match mode s with
  | SMBUS_WRITE_DATA =>
      if data_len s >=? SMBUS_DATA_MAX_LEN then Ok (s, 0)
      else
        buf ← wr (data_buf s) (data_len s) data;
        Ok (s <| data_buf := buf |> <| data_len := data_len s + 1 |>, 0)
  | _ => Ok (s, 0)
  end.

(** An SMBus device is an I2C slave. *)
#[export] Instance smbus_slave : I2CSlaveClass (SMBusDevice D) := {
  slave_address := i2c_address;
  sc_event := Some smbus_i2c_event;
  sc_send := Some smbus_i2c_send;
  sc_recv := Some smbus_i2c_recv
}.

(** ** What a transaction is to the device *)

(** The class's functions with the defaults for NULL. *)
Definition dev_quick (d : D) (read : bool) : outcome D :=
  match quick_cmd d with Some f => f (Z.b2z read) | None => Ok d end.

Definition dev_write (d : D) (bytes : list Z) : outcome D :=
  match write_data d with Some f => '(d, _) ← f bytes; Ok d | None => Ok d end.

Definition dev_read (d : D) : outcome (D * Z) :=
  match receive_byte d with Some r => r | None => Ok (d, 0xff) end.

(** The bus between transactions, and during one with the slave at [i]. *)
Definition idle_bus (kids : list (SMBusDevice D)) : I2CBus (SMBusDevice D) := mkBus kids [] false.
Definition busy_bus (kids : list (SMBusDevice D)) (i : nat) (s : SMBusDevice D)
    : I2CBus (SMBusDevice D) := mkBus (<[i := s]> kids) [i] false.

(** A slave between transactions. *)
Definition slave_idle (s : SMBusDevice D) : Prop :=
  mode s = SMBUS_IDLE /\ data_len s = 0 /\ zlen (data_buf s) = SMBUS_DATA_MAX_LEN.

(** The slave at [i] is the first that answers at [addr]. *)
Definition answers (kids : list (SMBusDevice D)) (addr : Z) (i : nat) (s : SMBusDevice D) : Prop :=
  list_find (fun s => i2c_address s = addr) kids = Some (i, s).

(** The slave [s] in [md] after [bytes] arrived, with the device in state [d]. *)
Definition slave_at (s : SMBusDevice D) (md : smbus_mode) (bytes : list Z) (d : D) : SMBusDevice D :=
  mkSMBusDevice (i2c_address s) md (zlen bytes) (bytes ++ drop (length bytes) (data_buf s)) d.

(** The slave when the transaction is over: only the device and the contents
    of the buffer remain. *)
Definition slave_after (s : SMBusDevice D) (bytes : list Z) (d : D) : SMBusDevice D :=
  mkSMBusDevice (i2c_address s) SMBUS_IDLE 0 (bytes ++ drop (length bytes) (data_buf s)) d.

Lemma scan_answers kids k addr :
  i2c_scan_bus kids k addr false [] =
    match list_find (fun s => i2c_address s = addr) kids with
    | Some (i, _) => [(k + i)%nat]
    | None => []
    end.
Proof.
  revert k. induction kids as [| s kids IH]; intros k; cbn; [done |].
  unfold i2c_slave_match. cbn. rewrite orb_false_r. rewrite IH. clear IH.
  case_decide as E; destruct (Z.eqb_spec (i2c_address s) addr); try done.
  - by rewrite Nat.add_0_r.
  - destruct (list_find _ kids) as [[i t] |]; cbn; [| done]. f_equal. lia.
Qed.

Lemma answers_lookup kids addr i s : answers kids addr i s -> kids !! i = Some s.
Proof. intros H. by apply list_find_Some in H as [H _]. Qed.

Lemma on_slave_busy {A} kids i s (f : SMBusDevice D -> outcome (SMBusDevice D * A)) :
  (i < length kids)%nat ->
  on_slave (busy_bus kids i s) i f = '(s', a) ← f s; Ok (busy_bus kids i s', a).
Proof.
  intros Hi. unfold on_slave, busy_bus. cbn.
  rewrite list_lookup_insert_eq by done.
  destruct (f s) as [[s' a] | | |]; cbn; [| done..].
  by rewrite list_insert_insert_eq.
Qed.

(** ** Bus operations on the selected slave *)

Section Transfer.
Context (kids : list (SMBusDevice D)) (addr : Z) (i : nat) (s : SMBusDevice D).
Context (Hans : answers kids addr i s) (Hidle : slave_idle s) (Haddr : addr <> I2C_BROADCAST).

Lemma slave_in_range : (i < length kids)%nat.
Proof using Hans. apply lookup_lt_Some with s. by apply answers_lookup with addr. Qed.

Lemma start_idle ev md :
  (ev = I2C_START_SEND /\ md = SMBUS_WRITE_DATA) \/ (ev = I2C_START_RECV /\ md = SMBUS_READ_DATA) ->
  i2c_do_start_transfer (idle_bus kids) addr ev = Ok (busy_bus kids i (slave_at s md [] (dev s)), 0).
Proof using Hans Hidle Haddr.
  intros Hev. unfold i2c_do_start_transfer. rewrite (proj2 (Z.eqb_neq addr _)) by done. cbn.
  rewrite scan_answers. unfold answers in Hans. rewrite Hans. cbn.
  unfold on_slave. cbn. rewrite (answers_lookup _ _ _ _ Hans).
  destruct Hidle as (Hm & Hl & _). destruct s as [a md' l buf d]. cbn in *. subst.
  destruct Hev as [[-> ->] | [-> ->]]; done.
Qed.

Lemma send_busy bytes d v :
  (length bytes < 34)%nat ->
  i2c_send (busy_bus kids i (slave_at s SMBUS_WRITE_DATA bytes d)) v
  = Ok (busy_bus kids i (slave_at s SMBUS_WRITE_DATA (bytes ++ [v]) d), 0).
Proof using Hans Hidle.
  intros Hb. unfold i2c_send. cbn [current_devs busy_bus send_each sc_send smbus_slave].
  rewrite on_slave_busy by apply slave_in_range. unfold smbus_i2c_send.
  cbn [mode slave_at data_len data_buf].  rewrite Z.geb_leb.
  destruct (Z.leb_spec 34 (zlen bytes)); [lia |].
  destruct Hidle as (_ & _ & Hbuf). 
  rewrite wr_ok, !ok_bind by (rewrite length_app, length_drop; lia). cbv beta iota. rewrite ?ok_bind.
  cbn [negb send_each Z.eqb]. rewrite ?ok_bind. cbv beta iota.
  do 2 f_equal. unfold slave_at. cbn. f_equal. f_equal.
  - rewrite length_app. cbn. lia.
  - rewrite Nat2Z.id, insert_app_r_alt, Nat.sub_diag by lia.
    destruct (drop (length bytes) (data_buf s)) as [| x l] eqn:E.
    { apply (f_equal length) in E. rewrite length_drop in E. cbn in E. lia. }
    cbn. rewrite <- app_assoc. cbn. do 2 f_equal.
    rewrite length_app. cbn [length]. rewrite <- drop_drop, E. done.
Qed.

Lemma do_write_slave md bytes d :
  (length bytes <= 34)%nat ->
  smbus_do_write (slave_at s md bytes d) = d' ← dev_write d bytes; Ok (slave_at s md bytes d').
Proof using Hidle.
  intros Hb. unfold smbus_do_write, dev_write. cbn.
  destruct (write_data d) as [f |]; [| done].
  destruct Hidle as (_ & _ & Hbuf). 
  rewrite Z.mod_small by lia. rewrite slice_ok by (rewrite ?length_app, ?length_drop; lia).
  rewrite Nat2Z.id, drop_0, take_app_length. cbn.
  destruct (f bytes) as [[d' r] | | |]; done.
Qed.

Lemma do_quick_slave md bytes d (read : bool) :
  smbus_do_quick_cmd (slave_at s md bytes d) (Z.b2z read)
  = d' ← dev_quick d read; Ok (slave_at s md bytes d').
Proof using Type.
  unfold smbus_do_quick_cmd, dev_quick. cbn.
  replace (u8 (Z.b2z read)) with (Z.b2z read) by (by destruct read).
  by destruct (quick_cmd d).
Qed.

Lemma restart_busy bytes d :
  bytes <> [] -> (length bytes <= 34)%nat ->
  i2c_start_recv (busy_bus kids i (slave_at s SMBUS_WRITE_DATA bytes d)) addr
  = d' ← dev_write d bytes; Ok (busy_bus kids i (slave_at s SMBUS_READ_DATA bytes d'), 0).
Proof using Hans Hidle Haddr.
  intros Hne Hb. unfold i2c_start_recv, i2c_do_start_transfer.
  rewrite (proj2 (Z.eqb_neq addr _)) by done. cbn [current_devs busy_bus start_each sc_event smbus_slave].
  rewrite on_slave_busy by apply slave_in_range. unfold smbus_i2c_event. cbn [mode slave_at data_len].
  destruct (Z.eqb_spec (zlen bytes) 0); [destruct bytes; [done | cbn in *; lia] |].
  rewrite do_write_slave by done.
  destruct (dev_write d bytes) as [d' | | |]; done.
Qed.

Lemma recv_busy bytes d :
  i2c_recv (busy_bus kids i (slave_at s SMBUS_READ_DATA bytes d))
  = '(d', v) ← dev_read d; Ok (busy_bus kids i (slave_at s SMBUS_READ_DATA bytes d'), v).
Proof using Hans.
  unfold i2c_recv. cbn [current_devs busy_bus broadcast sc_recv smbus_slave].
  rewrite on_slave_busy by apply slave_in_range. unfold smbus_i2c_recv, dev_read. cbn [mode slave_at dev].
  destruct (receive_byte d) as [[[d' v] | | |] |]; done.
Qed.

Lemma nack_busy bytes d :
  i2c_nack (busy_bus kids i (slave_at s SMBUS_READ_DATA bytes d))
  = Ok (busy_bus kids i (slave_at s SMBUS_DONE bytes d)).
Proof using Hans.
  unfold i2c_nack. cbn [current_devs busy_bus nack_each sc_event smbus_slave].
  by rewrite on_slave_busy by apply slave_in_range.
Qed.

(** The device calls made by the stop condition. *)
Definition finish_calls (md : smbus_mode) (bytes : list Z) (d : D) : outcome D :=
  match md, bytes with
  | SMBUS_WRITE_DATA, [] => dev_quick d false
  | SMBUS_READ_DATA, [] => dev_quick d true
  | SMBUS_WRITE_DATA, _ => dev_write d bytes
  | _, _ => Ok d
  end.

Lemma end_busy md bytes d :
  (length bytes <= 34)%nat ->
  i2c_end_transfer (busy_bus kids i (slave_at s md bytes d))
  = d' ← finish_calls md bytes d; Ok (idle_bus (<[i := slave_after s bytes d']> kids)).
Proof using Hans Hidle.
  intros Hb. unfold i2c_end_transfer. cbn [current_devs busy_bus end_each sc_event smbus_slave].
  rewrite on_slave_busy by apply slave_in_range. unfold smbus_i2c_event.
  cbn [mode slave_at data_len]. destruct bytes as [| b bytes].
  - change (zlen [] =? 0) with true. cbv iota.
    destruct md; cbn [finish_calls]; try done;
      [rewrite (do_quick_slave _ [] d false) | rewrite (do_quick_slave _ [] d true)];
      destruct (dev_quick d _) as [d' | | |]; done.
  - destruct (Z.eqb_spec (zlen (b :: bytes)) 0); [cbn in *; lia |].
    destruct md; cbn [finish_calls]; try done.
    rewrite do_write_slave by done. destruct (dev_write d (b :: bytes)) as [d' | | |]; done.
Qed.

(** ** The transactions on an idle bus *)

(** [n] bytes from the device. *)
Fixpoint dev_reads (n : nat) (d : D) : outcome (D * list Z) :=
  match n with
  | O => Ok (d, [])
  | Datatypes.S n =>
      '(d, v) ← dev_read d;
      '(d, vs) ← dev_reads n d;
      Ok (d, v :: vs)
  end.

(** The bus after the transaction: only the slave at [i] has changed. *)
Definition after (bytes : list Z) (d : D) : I2CBus (SMBusDevice D) :=
  idle_bus (<[i := slave_after s bytes d]> kids).

(** Step through a transaction; [n] is the number of bytes sent so far. *)
Ltac bus_steps :=
  repeat first
  [ progress (rewrite ?ok_bind; cbv beta iota; cbn [negb Z.eqb app finish_calls])
  | rewrite send_busy by (cbn; lia)
  | rewrite restart_busy by (done || (cbn; lia))
  | rewrite recv_busy
  | rewrite nack_busy
  | rewrite end_busy by (cbn; lia) ].

Ltac dev_steps :=
  bus_steps; try done;
  match goal with
  | |- context [dev_write ?d ?l] => destruct (dev_write d l) as [? | | |]; try done; try dev_steps
  | |- context [dev_read ?d] => destruct (dev_read d) as [[? ?] | | |]; try done; try dev_steps
  | |- context [dev_quick ?d ?r] => destruct (dev_quick d r) as [? | | |]; try done; try dev_steps
  end.

Lemma quick_command_spec read :
  smbus_quick_command (idle_bus kids) addr read
  = d ← dev_quick (dev s) read; Ok (after [] d, 0).
Proof using Hans Hidle Haddr.
  unfold smbus_quick_command, i2c_start_transfer, after. destruct read;
    [rewrite (start_idle _ SMBUS_READ_DATA) by auto | rewrite (start_idle _ SMBUS_WRITE_DATA) by auto];
    dev_steps.
Qed.

Lemma receive_byte_spec :
  smbus_receive_byte (idle_bus kids) addr
  = '(d, v) ← dev_read (dev s); Ok (after [] d, v).
Proof using Hans Hidle Haddr.
  unfold smbus_receive_byte, i2c_start_recv, after.
  rewrite (start_idle _ SMBUS_READ_DATA) by auto. dev_steps.
Qed.

Lemma send_byte_spec c :
  smbus_send_byte (idle_bus kids) addr c
  = d ← dev_write (dev s) [c]; Ok (after [c] d, 0).
Proof using Hans Hidle Haddr.
  unfold smbus_send_byte, i2c_start_send, after.
  rewrite (start_idle _ SMBUS_WRITE_DATA) by auto. dev_steps.
Qed.

Lemma read_byte_spec c :
  smbus_read_byte (idle_bus kids) addr c
  = d ← dev_write (dev s) [c]; '(d, v) ← dev_read d; Ok (after [c] d, v).
Proof using Hans Hidle Haddr.
  unfold smbus_read_byte, i2c_start_send, after.
  rewrite (start_idle _ SMBUS_WRITE_DATA) by auto. dev_steps.
Qed.

Lemma write_byte_spec c v :
  smbus_write_byte (idle_bus kids) addr c v
  = d ← dev_write (dev s) [c; v]; Ok (after [c; v] d, 0).
Proof using Hans Hidle Haddr.
  unfold smbus_write_byte, i2c_start_send, after.
  rewrite (start_idle _ SMBUS_WRITE_DATA) by auto. dev_steps.
Qed.

Lemma read_word_spec c :
  smbus_read_word (idle_bus kids) addr c
  = d ← dev_write (dev s) [c]; '(d, lo) ← dev_read d; '(d, hi) ← dev_read d;
    Ok (after [c] d, u16 (u16 lo .| (hi ≪ 8))).
Proof using Hans Hidle Haddr.
  unfold smbus_read_word, i2c_start_send, after.
  rewrite (start_idle _ SMBUS_WRITE_DATA) by auto. dev_steps.
Qed.

Lemma write_word_spec c v :
  smbus_write_word (idle_bus kids) addr c v
  = d ← dev_write (dev s) [c; v .& 0xff; v ≫ 8]; Ok (after [c; v .& 0xff; v ≫ 8] d, 0).
Proof using Hans Hidle Haddr.
  unfold smbus_write_word, i2c_start_send, after.
  rewrite (start_idle _ SMBUS_WRITE_DATA) by auto. dev_steps.
Qed.

Lemma send_block_busy n k data bytes d :
  0 <= k -> k + Z.of_nat n <= zlen data -> (length bytes + n <= 34)%nat ->
  send_block n k (busy_bus kids i (slave_at s SMBUS_WRITE_DATA bytes d)) data
  = Ok (busy_bus kids i
          (slave_at s SMBUS_WRITE_DATA (bytes ++ take n (drop (Z.to_nat k) data)) d)).
Proof using Hans Hidle.
  revert k bytes. induction n as [| n IH]; intros k bytes Hk Hl Hb; cbn [send_block].
  { cbn [take]. by rewrite app_nil_r. }
  rewrite rd_nthZ, ok_bind, send_busy, ok_bind by lia. cbv beta iota.
  rewrite IH by (rewrite ?length_app; cbn; lia). do 3 f_equal. rewrite <- app_assoc. f_equal.
  rewrite (drop_S data (nthZ data k) (Z.to_nat k)) by (apply lookup_nthZ; lia). cbn.
  do 2 f_equal. f_equal. lia.
Qed.

Lemma recv_block_busy n k data bytes d :
  0 <= k -> k + Z.of_nat n <= zlen data ->
  recv_block n k (busy_bus kids i (slave_at s SMBUS_READ_DATA bytes d)) data
  = '(d, vs) ← dev_reads n d;
    Ok (busy_bus kids i (slave_at s SMBUS_READ_DATA bytes d),
        take (Z.to_nat k) data ++ vs ++ drop (Z.to_nat k + n) data).
Proof using Hans.
  revert k data d. induction n as [| n IH]; intros k data d Hk Hl; cbn [recv_block dev_reads].
  { rewrite ok_bind, Nat.add_0_r. cbn [app]. by rewrite take_drop. }
  rewrite recv_busy. destruct (dev_read d) as [[d1 v] | | |]; try done.
  rewrite !ok_bind. cbv beta iota. rewrite wr_ok, ok_bind by lia.
  rewrite IH by (rewrite ?length_insert; lia).
  destruct (dev_reads n d1) as [[d2 vs] | | |]; try done. cbn. do 2 f_equal.
  replace (Z.to_nat (k + 1)) with (Datatypes.S (Z.to_nat k)) by lia.
  erewrite take_S_r by (apply list_lookup_insert_eq; lia).
  rewrite take_insert_ge, drop_insert_lt, <- app_assoc by lia. cbn. do 3 f_equal. f_equal. lia.
Qed.

(** The bytes of a block write. *)
Definition block_bytes (c len : Z) (data : list Z) : list Z :=
  let len := Z.min len 32 in c :: len :: take (Z.to_nat len) data.

Lemma write_block_spec c data len :
  0 <= len -> zlen data = 32 ->
  smbus_write_block (idle_bus kids) addr c data len true
  = d ← dev_write (dev s) (block_bytes c len data); Ok (after (block_bytes c len data) d, 0).
Proof using Hans Hidle Haddr.
  intros Hl Hd. unfold smbus_write_block, i2c_start_send, after, block_bytes. rewrite Z.gtb_ltb.
  replace (if 32 <? len then 32 else len) with (Z.min len 32) by (destruct (Z.ltb_spec 32 len); lia).
  set (n := Z.min len 32). assert (0 <= n <= 32) by lia. clearbody n.
  rewrite (start_idle _ SMBUS_WRITE_DATA) by auto. bus_steps.
  rewrite (Z.mod_small n) by lia.
  rewrite send_block_busy by (cbn; lia). rewrite ok_bind. cbn [app]. change (Z.to_nat 0) with 0%nat.
  rewrite drop_0, end_busy by (cbn; rewrite length_take; lia). cbn [finish_calls].
  destruct (dev_write _ _) as [d | | |]; done.
Qed.

(** A block read: the first byte is the length; one that is too large counts
    as zero. *)
Lemma read_block_spec c data :
  zlen data = 32 ->
  smbus_read_block (idle_bus kids) addr c data 32 true true
  = d ← dev_write (dev s) [c];
    '(d, len) ← dev_read d;
    let len := if len >? 32 then 0 else len in
    '(d, vs) ← dev_reads (Z.to_nat len) d;
    Ok (after [c] d, vs ++ drop (Z.to_nat len) data, len).
Proof using Hans Hidle Haddr.
  intros Hd. unfold smbus_read_block, i2c_start_send, after.
  rewrite (start_idle _ SMBUS_WRITE_DATA) by auto. bus_steps.
  destruct (dev_write (dev s) [c]) as [d | | |]; try done. bus_steps.
  destruct (dev_read d) as [[d1 len] | | |]; try done. bus_steps. rewrite Z.gtb_ltb.
  set (n := if 32 <? len then 0 else len).
  assert (n <= 32) by (unfold n; destruct (Z.ltb_spec 32 len); lia). clearbody n.
  rewrite recv_block_busy by lia.
  destruct (dev_reads (Z.to_nat n) d1) as [[d2 vs] | | |]; try done. bus_steps. done.
Qed.

End Transfer.

(** ** No slave at the address *)

Lemma start_no_answer kids addr ev :
  list_find (fun s => i2c_address s = addr) kids = None -> addr <> I2C_BROADCAST ->
  i2c_do_start_transfer (idle_bus kids) addr ev = Ok (idle_bus kids, 1).
Proof using Type.
  intros Hn Ha. unfold i2c_do_start_transfer. rewrite (proj2 (Z.eqb_neq addr _)) by done.
  cbn. by rewrite scan_answers, Hn.
Qed.

(** ** Devices that keep an invariant

    What the protocol needs of a device: on states that satisfy [dok] its
    functions return and re-establish [dok], and the bytes read are bytes. *)

Class SMBusDeviceLaws (dok : D -> Prop) : Prop := {
  quick_ok d r : dok d -> exists d', dev_quick d r = Ok d' /\ dok d';
  write_ok d bytes : dok d -> bytes <> [] -> (length bytes <= 34)%nat -> Forall (in_u 8) bytes ->
    exists d', dev_write d bytes = Ok d' /\ dok d';
  read_ok d : dok d -> exists d' v, dev_read d = Ok (d', v) /\ in_u 8 v /\ dok d'
}.

Section Safety.
Context (dok : D -> Prop) `{laws : !SMBusDeviceLaws dok}.

Record slave_ok (s : SMBusDevice D) : Prop := {
  so_dev : dok (dev s);
  so_buf : zlen (data_buf s) = SMBUS_DATA_MAX_LEN;
  so_bytes : Forall (in_u 8) (data_buf s);
  so_len : 0 <= data_len s <= SMBUS_DATA_MAX_LEN
}.

Definition slave_quiet (s : SMBusDevice D) : Prop := mode s = SMBUS_IDLE /\ data_len s = 0.

(** The bus during and between transfers: every slave is in order, and those
    that are not selected are quiet. *)
Record bus_ok (bus : I2CBus (SMBusDevice D)) : Prop := {
  bo_slaves : Forall slave_ok (children bus);
  bo_devs : Forall (fun i => (i < length (children bus))%nat) (current_devs bus);
  bo_quiet : forall j s, children bus !! j = Some s -> j ∈ current_devs bus \/ slave_quiet s
}.

Lemma do_write_ok s : slave_ok s -> data_len s <> 0 ->
  exists s', smbus_do_write s = Ok s' /\ slave_ok s' /\ mode s' = mode s.
Proof using laws.
  intros [Hd Hb Hu Hl] Hne. 
  set (bytes := take (Z.to_nat (data_len s)) (data_buf s)).
  destruct (write_ok (dev s) bytes) as (d' & E & Hd'); [done | | | by apply Forall_take |].
  { intros E%(f_equal length). unfold bytes in E. rewrite length_take in E. cbn in E. lia. }
  { unfold bytes. rewrite length_take. lia. }
  revert E. unfold smbus_do_write, dev_write. rewrite Z.mod_small, slice_ok by lia.
  change (Z.to_nat 0) with 0%nat. rewrite drop_0. fold bytes.
  destruct (write_data (dev s)) as [f |].
  - rewrite ok_bind. destruct (f bytes) as [[d1 r] | | |]; try done. cbn. intros [= ->].
    eexists. split; [done |]. split; [by constructor | done].
  - intros [= <-]. exists s. split; [done |]. split; [by constructor | done].
Qed.

Lemma do_quick_ok s recv : slave_ok s -> recv = 0 \/ recv = 1 ->
  exists s', smbus_do_quick_cmd s recv = Ok s' /\ slave_ok s' /\ mode s' = mode s.
Proof using laws.
  intros [Hd Hb Hu Hl] Hr. unfold smbus_do_quick_cmd.
  destruct (quick_ok (dev s) (recv =? 1) Hd) as (d' & E & Hd'). revert E. unfold dev_quick.
  replace (Z.b2z (recv =? 1)) with (u8 recv) by (by destruct Hr as [-> | ->]).
  destruct (quick_cmd (dev s)) as [f |].
  - intros ->. cbn. eexists. split; [done |]. split; [by constructor | done].
  - intros [= <-]. exists s. split; [done |]. split; [by constructor | done].
Qed.

Lemma slave_ok_set s md l : slave_ok s -> 0 <= l <= SMBUS_DATA_MAX_LEN ->
  slave_ok (s <| mode := md |>) /\ slave_ok (s <| mode := md |> <| data_len := l |>).
Proof using Type. intros [Hd Hb Hu Hl] H. split; by constructor. Qed.

(** Every event, in every mode, keeps the slave in order; the stop condition
    quietens it. *)
Lemma event_ok s ev : slave_ok s -> ev <> I2C_START_SEND_ASYNC ->
  exists s', smbus_i2c_event s ev = Ok (s', 0) /\ slave_ok s' /\ (ev = I2C_FINISH -> slave_quiet s').
Proof using laws.
  intros Hs Hev. pose proof (so_len s Hs) as Hl.
  assert (forall md, exists s', Ok (s <| mode := md |>, 0) = Ok (s', 0) /\ slave_ok s') as Hset.
  { intros md. eexists. split; [done |]. by apply (slave_ok_set s md (data_len s)). }
  destruct ev; try done; unfold smbus_i2c_event.
  - destruct (mode s); try (destruct (Hset SMBUS_CONFUSED) as (s' & E & H); by exists s').
    + destruct (Hset SMBUS_READ_DATA) as (s' & E & H). by exists s'.
    + destruct (Z.eqb_spec (data_len s) 0) as [E0 | E0].
      { destruct (Hset SMBUS_CONFUSED) as (s' & E & H). by exists s'. }
      destruct (do_write_ok s Hs E0) as (s1 & -> & H1 & _). rewrite ok_bind.
      eexists. split; [done |]. split; [| done].
      by apply (slave_ok_set s1 SMBUS_READ_DATA 0).
  - destruct (mode s); try (destruct (Hset SMBUS_CONFUSED) as (s' & E & H); by exists s').
    destruct (Hset SMBUS_WRITE_DATA) as (s' & E & H). by exists s'.
  - match goal with |- context [(?m) ≫= _] => assert (exists s1, m = Ok s1 /\ slave_ok s1) as (s1 & E & H1) end.
    { destruct (Z.eqb_spec (data_len s) 0).
      - destruct (mode s); try by exists s.
        + destruct (do_quick_ok s 0 Hs) as (s1 & ? & ? & _); eauto.
        + destruct (do_quick_ok s 1 Hs) as (s1 & ? & ? & _); eauto.
      - destruct (mode s); try by exists s.
        destruct (do_write_ok s Hs) as (s1 & ? & ? & _); eauto. }
    rewrite E, ok_bind. eexists. split; [done |]. split; [| done].
    by apply (slave_ok_set s1 SMBUS_IDLE 0).
  - destruct (mode s) eqn:Em; try (destruct (Hset SMBUS_CONFUSED) as (s' & E & H); by exists s').
    + destruct (Hset SMBUS_DONE) as (s' & E & H). by exists s'.
    + by exists s.
Qed.

Lemma send_ok s v : slave_ok s -> in_u 8 v ->
  exists s', smbus_i2c_send s v = Ok (s', 0) /\ slave_ok s'.
Proof using Type.
  intros [Hd Hb Hu Hl] Hv. unfold smbus_i2c_send. 
  assert (slave_ok s) by (by constructor).
  destruct (mode s); try by exists s.
  rewrite Z.geb_leb. destruct (Z.leb_spec 34 (data_len s)); [by exists s |].
  rewrite wr_ok, ok_bind by lia. eexists. split; [done |].
  constructor; cbn; [done | by rewrite length_insert | by apply Forall_insert | lia].
Qed.

Lemma recv_ok s : slave_ok s ->
  exists s' v, smbus_i2c_recv s = Ok (s', v) /\ slave_ok s' /\ in_u 8 v.
Proof using laws.
  intros Hs. pose proof (so_len s Hs) as Hl. unfold smbus_i2c_recv.
  destruct (mode s); try (eexists _, _; split; [done |]; split; [| done];
    by apply (slave_ok_set s SMBUS_CONFUSED (data_len s))).
  destruct Hs as [Hd Hb Hu _]. destruct (read_ok (dev s) Hd) as (d' & v & E & Hv & Hd').
  revert E. unfold dev_read. destruct (receive_byte (dev s)) as [r |].
  - intros ->. cbn. eexists _, _. split; [done |]. split; [by constructor | done].
  - intros [= <- <-]. eexists _, _. split; [done |]. split; [by constructor | done].
Qed.

(** Between transfers, and during one. *)
Definition bus_quiet (bus : I2CBus (SMBusDevice D)) : Prop :=
  bus_ok bus /\ children bus <> [] /\ current_devs bus = [] /\ broadcast bus = false.
Definition bus_active (bus : I2CBus (SMBusDevice D)) : Prop :=
  bus_ok bus /\ children bus <> [] /\ current_devs bus <> [].

(** [bus'] is [bus] with other states of the selected slaves. *)
Definition same_transfer (bus bus' : I2CBus (SMBusDevice D)) : Prop :=
  bus_ok bus' /\ current_devs bus' = current_devs bus /\ broadcast bus' = broadcast bus /\
  length (children bus') = length (children bus).

Lemma same_transfer_active bus bus' : bus_active bus -> same_transfer bus bus' -> bus_active bus'.
Proof using Type.
  intros (_ & Hc & Hd) (Ho & E & _ & El). split_and!; [done | | by rewrite E].
  intros E0. rewrite E0 in El. by destruct (children bus).
Qed.

Lemma same_transfer_trans b1 b2 b3 : same_transfer b1 b2 -> same_transfer b2 b3 -> same_transfer b1 b3.
Proof using Type. intros (_ & ? & ? & ?) (? & ? & ? & ?). split_and!; [done | congruence..]. Qed.

Lemma on_slave_ok {A} bus i (f : SMBusDevice D -> outcome (SMBusDevice D * A)) (Q : A -> Prop) :
  bus_ok bus -> i ∈ current_devs bus ->
  (forall s, slave_ok s -> exists s' a, f s = Ok (s', a) /\ slave_ok s' /\ Q a) ->
  exists bus' a, on_slave bus i f = Ok (bus', a) /\ same_transfer bus bus' /\ Q a.
Proof using Type.
  intros [Hs Hd Hq] Hi Hf. rewrite Forall_forall in Hd. pose proof (Hd i Hi) as Hlt.
  destruct (lookup_lt_is_Some_2 _ _ Hlt) as [s E]. unfold on_slave. rewrite E.
  destruct (Hf s) as (s' & a & -> & Hs' & Ha); [by eapply Forall_lookup_1 |].
  rewrite ok_bind. eexists _, a. split; [done |]. split; [| done].
  unfold same_transfer. cbn. rewrite length_insert. split_and!; [| done..].
  constructor; cbn.
  - by apply Forall_insert.
  - rewrite length_insert. by apply Forall_forall.
  - intros j t Hj. destruct (decide (i = j)) as [<- | Hne]; [by left |].
    rewrite list_lookup_insert_ne in Hj by done. by apply Hq.
Qed.

Lemma start_each_ok devs ev scanned bus :
  bus_ok bus -> devs ⊆ current_devs bus -> ev <> I2C_START_SEND_ASYNC ->
  exists bus', start_each devs ev scanned bus = Ok (bus', 0) /\ same_transfer bus bus'.
Proof using laws.
  revert bus. induction devs as [| i devs IH]; intros bus Hb Hsub Hev; cbn [start_each sc_event smbus_slave].
  { exists bus. by split_and!. }
  destruct (on_slave_ok bus i (fun s => smbus_i2c_event s ev) (fun rv => rv = 0))
    as (b1 & rv & -> & H1 & ->); [done | set_solver | |].
  { intros s Hs. destruct (event_ok s ev Hs Hev) as (s' & E & H & _). eauto. }
  rewrite ok_bind. cbn [Z.eqb negb andb]. pose proof H1 as (Hb1 & Ec & _).
  destruct (IH b1 Hb1) as (b2 & -> & H2); [rewrite Ec; set_solver | done |].
  exists b2. split; [done |]. by eapply same_transfer_trans.
Qed.

Lemma restart_ok bus addr ev :
  bus_active bus -> ev <> I2C_START_SEND_ASYNC ->
  exists bus', i2c_do_start_transfer bus addr ev = Ok (bus', 0) /\ bus_active bus'.
Proof using laws.
  intros (Hb & Hc & Hd) Hev. unfold i2c_do_start_transfer.
  set (bus1 := if addr =? I2C_BROADCAST then _ else _).
  assert (bus_active bus1) as Ha1.
  { unfold bus1. destruct (addr =? I2C_BROADCAST); [| by split_and!].
    destruct Hb. split_and!; [by constructor | done..]. }
  clearbody bus1. pose proof Ha1 as (Hb1 & Hc1 & Hd1).
  destruct (current_devs bus1) as [| i devs] eqn:E; [done |].
  rewrite E. destruct (start_each_ok (i :: devs) ev false bus1) as (b2 & -> & H2);
    [done | by rewrite E | done |].
  exists b2. split; [done |]. by eapply same_transfer_active.
Qed.

Lemma scan_range kids addr bc k devs (P : nat -> Prop) :
  Forall P devs -> (forall j, (k <= j < k + length kids)%nat -> P j) ->
  Forall P (i2c_scan_bus kids k addr bc devs).
Proof using Type.
  revert k devs. induction kids as [| s kids IH]; intros k devs Hd HP; cbn; [done |].
  cbn in HP. destruct (i2c_slave_match s addr bc).
  - destruct bc; [| by constructor; [apply HP; lia |]].
    apply IH; [constructor; [apply HP; lia | done] |]. intros j Hj. apply HP. lia.
  - apply IH; [done |]. intros j Hj. apply HP. lia.
Qed.

Lemma scan_broadcast kids addr k devs : kids <> [] -> i2c_scan_bus kids k addr true devs <> [].
Proof using Type.
  intros Hk. assert (forall kids k devs, devs <> [] -> i2c_scan_bus (S := SMBusDevice D) kids k addr true devs <> []) as H.
  { clear. induction kids as [| s kids IH]; intros k devs Hd; cbn; [done |].
    unfold i2c_slave_match. rewrite orb_true_r. by apply IH. }
  destruct kids as [| s kids]; [done |]. cbn. unfold i2c_slave_match. rewrite orb_true_r. by apply H.
Qed.

(** A start condition on a quiet bus selects slaves or changes nothing. *)
Lemma start_ok bus addr ev :
  bus_quiet bus -> ev <> I2C_START_SEND_ASYNC ->
  (exists bus', i2c_do_start_transfer bus addr ev = Ok (bus', 0) /\ bus_active bus') \/
  i2c_do_start_transfer bus addr ev = Ok (bus, 1).
Proof using laws.
  intros (Hb & Hc & Hd & Hbc) Hev. unfold i2c_do_start_transfer.
  set (bus1 := if addr =? I2C_BROADCAST then _ else _).
  assert (children bus1 = children bus /\ current_devs bus1 = []) as [Ec1 Ed1].
  { unfold bus1. by destruct (addr =? I2C_BROADCAST). }
  rewrite Ed1. cbv iota zeta. set (devs := i2c_scan_bus _ _ _ _ _).
  change (current_devs bus1 <| current_devs := devs |>) with devs.
  destruct devs as [| i l] eqn:E.
  - right. unfold bus1, devs in *. destruct (addr =? I2C_BROADCAST).
    + exfalso. cbn in E. by eapply scan_broadcast.
    + destruct bus. cbn in *. by subst.
  - left. destruct (start_each_ok (i :: l) ev true (bus1 <| current_devs := i :: l |>)) as (b2 & -> & H2).
    + destruct Hb as [Hs _ Hq]. constructor; cbn [children current_devs set].
      * change (Forall slave_ok (children bus1)). by rewrite Ec1.
      * change (Forall (fun j => (j < length (children bus1))%nat) (i :: l)). rewrite <- E.
        apply scan_range; [by constructor |]. intros j Hj. lia.
      * change (forall j s, children bus1 !! j = Some s -> j ∈ i :: l \/ slave_quiet s).
        rewrite Ec1. intros j s Hj. right. destruct (Hq j s Hj) as [Hin |]; [| done].
        rewrite Hd in Hin. set_solver.
    + done.
    + done.
    + exists b2. split; [done |]. destruct H2 as (Hb2 & Ec2 & _ & El2). split_and!; [done | | by rewrite Ec2].
      intros E0. rewrite E0 in El2. change (0%nat = length (children bus1)) in El2. rewrite Ec1 in El2.
      by destruct (children bus).
Qed.

Lemma send_each_ok devs v ret bus :
  bus_ok bus -> devs ⊆ current_devs bus -> in_u 8 v ->
  exists bus' r, send_each devs v ret bus = Ok (bus', r) /\ same_transfer bus bus'.
Proof using laws.
  revert ret bus. induction devs as [| i devs IH]; intros ret bus Hb Hsub Hv;
    cbn [send_each sc_send smbus_slave].
  { exists bus, ret. by split_and!. }
  destruct ret; [apply IH; [done | set_solver | done] |].
  destruct (on_slave_ok bus i (fun s => smbus_i2c_send s v) (fun _ => True))
    as (b1 & r & -> & H1 & _); [done | set_solver | |].
  { intros s Hs. destruct (send_ok s v Hs Hv) as (s' & E & H). eauto. }
  rewrite ok_bind. cbv beta iota. pose proof H1 as (Hb1 & Ec & _).
  destruct (IH (negb (r =? 0)) b1 Hb1) as (b2 & r2 & -> & H2); [rewrite Ec; set_solver | done |].
  exists b2, r2. split; [done |]. by eapply same_transfer_trans.
Qed.

Lemma nack_each_ok devs bus :
  bus_ok bus -> devs ⊆ current_devs bus ->
  exists bus', nack_each devs bus = Ok bus' /\ same_transfer bus bus'.
Proof using laws.
  revert bus. induction devs as [| i devs IH]; intros bus Hb Hsub; cbn [nack_each sc_event smbus_slave].
  { exists bus. by split_and!. }
  destruct (on_slave_ok bus i (fun s => smbus_i2c_event s I2C_NACK) (fun _ => True))
    as (b1 & r & -> & H1 & _); [done | set_solver | |].
  { intros s Hs. destruct (event_ok s I2C_NACK Hs) as (s' & E & H & _); eauto. }
  rewrite ?ok_bind. cbv beta iota. rewrite ?ok_bind. pose proof H1 as (Hb1 & Ec & _).
  destruct (IH b1 Hb1) as (b2 & -> & H2); [rewrite Ec; set_solver |].
  exists b2. split; [done |]. by eapply same_transfer_trans.
Qed.

Lemma end_each_ok devs bus :
  bus_ok bus -> current_devs bus = devs ->
  exists bus', end_each devs bus = Ok bus' /\ bus_ok bus' /\ current_devs bus' = [] /\
    length (children bus') = length (children bus).
Proof using laws.
  revert bus. induction devs as [| i devs IH]; intros bus Hb Ed; cbn [end_each sc_event smbus_slave].
  { exists bus. by split_and!. }
  destruct Hb as [Hs Hd Hq]. rewrite Ed in Hd. apply Forall_cons in Hd as [Hi Hd].
  destruct (lookup_lt_is_Some_2 _ _ Hi) as [s E]. unfold on_slave. rewrite E.
  destruct (event_ok s I2C_FINISH) as (s' & -> & Hs' & Hq'); [by eapply Forall_lookup_1 | done |].
  rewrite ?ok_bind. cbv beta iota. rewrite ?ok_bind.
  destruct (IH ((bus <| children := <[i := s']> (children bus) |>) <| current_devs := devs |>))
    as (b2 & -> & Hb2 & Ed2 & El2).
  - constructor; cbn.
    + by apply Forall_insert.
    + by rewrite length_insert.
    + intros j t Hj. destruct (decide (i = j)) as [<- | Hne].
      { rewrite list_lookup_insert_eq in Hj by done. simplify_eq. right. by apply Hq'. }
      rewrite list_lookup_insert_ne in Hj by done.
      destruct (Hq j t Hj) as [Hin |]; [| by right].
      rewrite Ed in Hin. apply elem_of_cons in Hin as [-> |]; [done | by left].
  - done.
  - exists b2. split_and!; [done.. |]. rewrite El2. cbn. by rewrite length_insert.
Qed.

Lemma bus_send_ok bus v : bus_active bus -> in_u 8 v ->
  exists bus' r, i2c_send bus v = Ok (bus', r) /\ bus_active bus'.
Proof using laws.
  intros Ha Hv. pose proof Ha as (Hb & _ & _). unfold i2c_send.
  destruct (send_each_ok (current_devs bus) v false bus Hb) as (b1 & r & -> & H1); [done | done |].
  rewrite ok_bind. eexists _, _. split; [done |]. by eapply same_transfer_active.
Qed.

Lemma bus_recv_ok bus : bus_active bus ->
  exists bus' v, i2c_recv bus = Ok (bus', v) /\ in_u 8 v /\ bus_active bus'.
Proof using laws.
  intros Ha. pose proof Ha as (Hb & _ & Hd). unfold i2c_recv.
  destruct (current_devs bus) as [| i l] eqn:E; [done |].
  destruct (broadcast bus); [by exists bus, 0xff |]. cbn [sc_recv smbus_slave].
  destruct (on_slave_ok bus i smbus_i2c_recv (in_u 8)) as (b1 & v & -> & H1 & Hv);
    [done | rewrite E; apply elem_of_cons; by left | |].
  { intros s Hs. destruct (recv_ok s Hs) as (s' & v & ? & ? & ?). eauto 6. }
  exists b1, v. split_and!; [done | apply Hv.. |]. by eapply same_transfer_active.
Qed.

Lemma bus_nack_ok bus : bus_active bus -> exists bus', i2c_nack bus = Ok bus' /\ bus_active bus'.
Proof using laws.
  intros Ha. pose proof Ha as (Hb & _ & _). unfold i2c_nack.
  destruct (nack_each_ok (current_devs bus) bus Hb) as (b1 & -> & H1); [done |].
  exists b1. split; [done |]. by eapply same_transfer_active.
Qed.

Lemma bus_end_ok bus : bus_active bus -> exists bus', i2c_end_transfer bus = Ok bus' /\ bus_quiet bus'.
Proof using laws.
  intros (Hb & Hc & _). unfold i2c_end_transfer.
  destruct (end_each_ok (current_devs bus) bus Hb eq_refl) as (b1 & -> & [Hs Hd Hq] & Ed & El).
  rewrite ok_bind. eexists. split; [done |]. unfold bus_quiet. cbn. split_and!; [by constructor | | done | done].
  intros E0. rewrite E0 in El. by destruct (children bus).
Qed.

(** ** Every transaction on a quiet bus returns and leaves it quiet *)

Ltac bus_go :=
  repeat (rewrite ?ok_bind; cbv beta iota; cbn [negb Z.eqb];
    match goal with
    | H : bus_quiet ?b |- context [i2c_do_start_transfer ?b ?a ?ev] =>
        destruct (start_ok b a ev H) as [(? & -> & ?) | ->]; [done | clear H |]
    | H : bus_active ?b |- context [i2c_do_start_transfer ?b ?a ?ev] =>
        destruct (restart_ok b a ev H) as (? & -> & ?); [done | clear H]
    | H : bus_active ?b |- context [i2c_send ?b ?v] =>
        destruct (bus_send_ok b v H) as (? & ? & -> & ?); [try done | clear H]
    | H : bus_active ?b |- context [i2c_recv ?b] =>
        destruct (bus_recv_ok b H) as (? & ? & -> & ? & ?); clear H
    | H : bus_active ?b |- context [i2c_nack ?b] =>
        destruct (bus_nack_ok b H) as (? & -> & ?); clear H
    | H : bus_active ?b |- context [i2c_end_transfer ?b] =>
        destruct (bus_end_ok b H) as (? & -> & ?); clear H
    end);
  rewrite ?ok_bind; cbv beta iota; cbn [negb Z.eqb].

(** The result of a transaction that reads at most 16 bits. *)
Definition returns_quiet (m : outcome (I2CBus (SMBusDevice D) * Z)) : Prop :=
  exists bus' r, m = Ok (bus', r) /\ bus_quiet bus' /\ -1 <= r < 2 ^ 16.

Ltac bus_done := eexists _, _; split; [reflexivity |]; split; [assumption |]; unfold in_u in *; lia.

Lemma quick_command_ok bus addr r : bus_quiet bus -> returns_quiet (smbus_quick_command bus addr r).
Proof using laws.
  intros H. unfold smbus_quick_command, i2c_start_transfer. destruct r; bus_go; bus_done.
Qed.

Lemma receive_byte_ok bus addr : bus_quiet bus -> returns_quiet (smbus_receive_byte bus addr).
Proof using laws. intros H. unfold smbus_receive_byte, i2c_start_recv. bus_go; bus_done. Qed.

Lemma send_byte_ok bus addr c : bus_quiet bus -> in_u 8 c -> returns_quiet (smbus_send_byte bus addr c).
Proof using laws. intros H Hc. unfold smbus_send_byte, i2c_start_send. bus_go; bus_done. Qed.

Lemma read_byte_ok bus addr c : bus_quiet bus -> in_u 8 c -> returns_quiet (smbus_read_byte bus addr c).
Proof using laws.
  intros H Hc. unfold smbus_read_byte, i2c_start_send, i2c_start_recv. bus_go; bus_done.
Qed.

Lemma write_byte_ok bus addr c v :
  bus_quiet bus -> in_u 8 c -> in_u 8 v -> returns_quiet (smbus_write_byte bus addr c v).
Proof using laws. intros H Hc Hv. unfold smbus_write_byte, i2c_start_send. bus_go; bus_done. Qed.

Lemma read_word_ok bus addr c : bus_quiet bus -> in_u 8 c -> returns_quiet (smbus_read_word bus addr c).
Proof using laws.
  intros H Hc. unfold smbus_read_word, i2c_start_send, i2c_start_recv. bus_go; [| bus_done].
  match goal with |- context [u16 ?z] => pose proof (Z.mod_pos_bound z (2 ^ 16) ltac:(lia)) end. bus_done.
Qed.

Lemma write_word_ok bus addr c v :
  bus_quiet bus -> in_u 8 c -> in_u 16 v -> returns_quiet (smbus_write_word bus addr c v).
Proof using laws.
  intros H Hc Hv. unfold smbus_write_word, i2c_start_send.
  assert (in_u 8 (v .& 0xff)) by (change 0xff with (Z.ones 8); rewrite Z.land_ones by lia; by apply in_u_mod).
  assert (in_u 8 (v ≫ 8)).
  { rewrite Z.shiftr_div_pow2 by lia. unfold in_u in *.
    split; [apply Z.div_pos; lia | apply Z.div_lt_upper_bound; lia]. }
  bus_go; bus_done.
Qed.

Lemma recv_block_ok n k bus data :
  bus_active bus -> 0 <= k -> k + Z.of_nat n <= zlen data -> Forall (in_u 8) data ->
  exists bus' data', recv_block n k bus data = Ok (bus', data') /\ bus_active bus' /\
    length data' = length data /\ Forall (in_u 8) data'.
Proof using laws.
  revert k bus data. induction n as [| n IH]; intros k bus data Ha Hk Hl Hu; cbn [recv_block];
    [by exists bus, data |].
  bus_go. rewrite wr_ok, ok_bind by lia.
  match goal with H : bus_active ?b |- context [recv_block n _ ?b ?l] =>
    destruct (IH (k + 1) b l H) as (b2 & d2 & -> & Hb2 & El & Hu2) end;
    [lia | rewrite length_insert; lia | by apply Forall_insert |].
  exists b2, d2. rewrite length_insert in El. done.
Qed.

Lemma send_block_ok n k bus data :
  bus_active bus -> 0 <= k -> k + Z.of_nat n <= zlen data -> Forall (in_u 8) data ->
  exists bus', send_block n k bus data = Ok bus' /\ bus_active bus'.
Proof using laws.
  revert k bus. induction n as [| n IH]; intros k bus Ha Hk Hl Hu; cbn [send_block]; [by exists bus |].
  rewrite rd_nthZ, ok_bind by lia. pose proof (nthZ_Forall _ data k Hu ltac:(lia)).
  bus_go. apply IH; (done || lia).
Qed.

Lemma read_block_ok bus addr c data :
  bus_quiet bus -> in_u 8 c -> zlen data = 32 -> Forall (in_u 8) data ->
  exists bus' data' r, smbus_read_block bus addr c data 32 true true = Ok (bus', data', r) /\
    bus_quiet bus' /\ -1 <= r <= 32 /\ zlen data' = 32 /\ Forall (in_u 8) data'.
Proof using laws.
  intros H Hc Hl Hu. unfold smbus_read_block, i2c_start_send, i2c_start_recv. bus_go.
  - match goal with |- context [if ?v >? 32 then 0 else ?v] => set (n := if v >? 32 then 0 else v) end.
    assert (0 <= n <= 32) as Hn.
    { unfold n, in_u in *. rewrite Z.gtb_ltb. case_match; lia. }
    match goal with H : bus_active ?b |- _ =>
      destruct (recv_block_ok (Z.to_nat n) 0 b data H) as (b1 & d1 & -> & Hb1 & El & Hu1) end;
      [lia | lia | done |].
    bus_go. eexists _, d1, n. split_and!; [done | assumption | lia | lia | lia | done].
  - exists bus, data, (-1). split_and!; (done || lia).
Qed.

Lemma write_block_ok bus addr c data len :
  bus_quiet bus -> in_u 8 c -> 0 <= len -> zlen data = 32 -> Forall (in_u 8) data ->
  returns_quiet (smbus_write_block bus addr c data len true).
Proof using laws.
  intros H Hc Hlen Hl Hu. unfold smbus_write_block, i2c_start_send.
  set (n := if len >? 32 then 32 else len).
  assert (0 <= n <= 32) as Hn by (unfold n; rewrite Z.gtb_ltb; destruct (Z.ltb_spec 32 len); lia).
  assert (in_u 8 (u8 n)) by (by apply in_u_mod).
  clearbody n. bus_go; [| bus_done].
  match goal with H : bus_active ?b |- _ =>
    destruct (send_block_ok (Z.to_nat n) 0 b data H) as (b1 & -> & Hb1) end; [lia | lia | done |].
  bus_go. bus_done.
Qed.

End Safety.

End Slave.
