(* ===== verification/AmdSmbus.v ===== *)
(** * The SMBus controller (amd_smbus.c)

    The register block [AMD756SMBus] with its bus, the transaction started by a
    write of the control register, and the port handlers. The devices are any
    instance of [SMBusDeviceClass]. [device_call] says what a transaction is to
    the addressed device alone; the theorems show that the controller, the
    master, the bus and the slave protocol together implement it, that an
    absent device is reported as an error and changes nothing, and that no
    sequence of port accesses leaves an array or breaks the invariant. *)

From stdpp Require Import base numbers list.
From Stdlib Require Import ZArith Lia.
From S2P Require Import Prelude I2c.

Abbreviation SMB_GLOBAL_STATUS := (0x0) (only parsing).
Abbreviation SMB_GLOBAL_ENABLE := (0x2) (only parsing).
Abbreviation SMB_HOST_ADDRESS := (0x4) (only parsing).
Abbreviation SMB_HOST_DATA := (0x6) (only parsing).
Abbreviation SMB_HOST_COMMAND := (0x8) (only parsing).
Abbreviation SMB_HOST_BLOCK_DATA := (0x9) (only parsing).

Abbreviation AMD756_QUICK := (0x00) (only parsing).
Abbreviation AMD756_BYTE := (0x01) (only parsing).
Abbreviation AMD756_BYTE_DATA := (0x02) (only parsing).
Abbreviation AMD756_WORD_DATA := (0x03) (only parsing).
Abbreviation AMD756_BLOCK_DATA := (0x05) (only parsing).

Abbreviation GS_ABRT_STS := (1 ≪ 0) (only parsing).
Abbreviation GS_COL_STS := (1 ≪ 1) (only parsing).
Abbreviation GS_PRERR_STS := (1 ≪ 2) (only parsing).
Abbreviation GS_HCYC_STS := (1 ≪ 4) (only parsing).
Abbreviation GS_TO_STS := (1 ≪ 5) (only parsing).
Definition GS_CLEAR_STS : Z :=
  GS_ABRT_STS .| GS_COL_STS .| GS_PRERR_STS .| GS_HCYC_STS .| GS_TO_STS.

Abbreviation GE_CYC_TYPE_MASK := (7) (only parsing).
Abbreviation GE_HOST_STC := (1 ≪ 3) (only parsing).
Abbreviation GE_HCYC_EN := (1 ≪ 4) (only parsing).
Abbreviation GE_ABORT := (1 ≪ 5) (only parsing).

(** [irq] is [None] where the pointer is NULL, else the level of the line. *)
Record AMD756SMBus (D : Type) := mkAMD756 {
  smbus : I2CBus (SMBusDevice D);
  smb_stat : Z;
  smb_ctl : Z;
  smb_cmd : Z;
  smb_addr : Z;
  smb_data0 : Z;
  smb_data1 : Z;
  smb_data : list Z;
  smb_index : Z;
  irq : option bool
}.
Arguments mkAMD756 {D} _ _ _ _ _ _ _ _ _ _.
Arguments smbus {D} _.
Arguments smb_stat {D} _.
Arguments smb_ctl {D} _.
Arguments smb_cmd {D} _.
Arguments smb_addr {D} _.
Arguments smb_data0 {D} _.
Arguments smb_data1 {D} _.
Arguments smb_data {D} _.
Arguments smb_index {D} _.
Arguments irq {D} _.

#[export] Instance AMD756SMBus_eta D : Eta (AMD756SMBus D) := fun s =>
  mkAMD756 (smbus s) (smb_stat s) (smb_ctl s) (smb_cmd s) (smb_addr s) (smb_data0 s)
    (smb_data1 s) (smb_data s) (smb_index s) (irq s).

Section Controller.
Context {D : Type} `{dc : !SMBusDeviceClass D}.
Implicit Types s : AMD756SMBus D.

(** The labels at the end of [amd756_smb_transaction]. *)
Definition smb_error s : AMD756SMBus D := s <| smb_stat := smb_stat s .| GS_PRERR_STS |>.

Definition smb_done s (ret : Z) : AMD756SMBus D :=
  if ret <? 0 then smb_error s else s <| smb_stat := smb_stat s .| GS_HCYC_STS |>.

Definition smb_data8 s (ret : Z) : AMD756SMBus D :=
  if ret <? 0 then smb_error s else smb_done (s <| smb_data0 := u8 ret |>) ret.

Definition smb_data16 s (ret : Z) : AMD756SMBus D :=
  if ret <? 0 then smb_error s else smb_data8 (s <| smb_data1 := u8 (ret ≫ 8) |>) ret.

Definition amd756_smb_transaction s : outcome (AMD756SMBus D) :=
  let prot := smb_ctl s .& GE_CYC_TYPE_MASK in
  let read := flag (smb_addr s) 0x01 in
  let cmd := smb_cmd s in
  let addr := (smb_addr s ≫ 1) .& 0x7f in
  let bus := smbus s in
  if prot =? AMD756_QUICK then
    '(bus, ret) ← smbus_quick_command bus addr read;
    Ok (smb_done (s <| smbus := bus |>) ret)
  else if prot =? AMD756_BYTE then
    if read then
      '(bus, ret) ← smbus_receive_byte bus addr;
      Ok (smb_data8 (s <| smbus := bus |>) ret)
    else
      '(bus, ret) ← smbus_send_byte bus addr cmd;
      Ok (smb_done (s <| smbus := bus |>) ret)
  else if prot =? AMD756_BYTE_DATA then
    if read then
      '(bus, ret) ← smbus_read_byte bus addr cmd;
      Ok (smb_data8 (s <| smbus := bus |>) ret)
    else
      '(bus, ret) ← smbus_write_byte bus addr cmd (smb_data0 s);
      Ok (smb_done (s <| smbus := bus |>) ret)
  else if prot =? AMD756_WORD_DATA then
    if read then
      '(bus, ret) ← smbus_read_word bus addr cmd;
      Ok (smb_data16 (s <| smbus := bus |>) ret)
    else
      '(bus, ret) ← smbus_write_word bus addr cmd ((smb_data1 s ≪ 8) .| smb_data0 s);
      Ok (smb_done (s <| smbus := bus |>) ret)
  else if prot =? AMD756_BLOCK_DATA then
    if read then
      '(bus, data, ret) ← smbus_read_block bus addr cmd (smb_data s) 32 true true;
      Ok (smb_data8 (s <| smbus := bus |> <| smb_data := data |>) ret)
    else
      '(bus, ret) ← smbus_write_block bus addr cmd (smb_data s) (smb_data0 s) true;
      Ok (smb_done (s <| smbus := bus |>) ret)
  else Ok (smb_error s).

Definition set_irq s (level : bool) : AMD756SMBus D :=
  match irq s with
  | Some _ => s <| irq := Some level |>
  | None => s
  end.

(** [s->smb_index] after the access to the block data register. *)
Definition next_index (i : Z) : Z := let i := u8 (i + 1) in if i >? 31 then 0 else i.

Definition amd756_smb_ioport_writeb s (addr val : Z) : outcome (AMD756SMBus D) :=
  let addr := addr .& 0x3f in
  if addr =? SMB_GLOBAL_STATUS then
    let s := set_irq s (flag (smb_ctl s) GE_HCYC_EN &&
               flag (val .& GS_CLEAR_STS) (Z.lnot (smb_stat s .& GS_CLEAR_STS))) in
    Ok (if flag val GS_CLEAR_STS then s <| smb_stat := 0 |> <| smb_index := 0 |>
        else if flag val GS_HCYC_STS then s <| smb_stat := GS_HCYC_STS |> <| smb_index := 0 |>
        else s <| smb_stat := GS_HCYC_STS |> <| smb_index := 0 |>)
  else if addr =? SMB_GLOBAL_ENABLE then
    let s := s <| smb_ctl := u8 val |> in
    let s := if flag val GE_ABORT then s <| smb_stat := smb_stat s .| GS_ABRT_STS |> else s in
    if flag val GE_HOST_STC then
      s ← amd756_smb_transaction s;
      Ok (if flag val GE_HCYC_EN && flag (smb_stat s) GS_CLEAR_STS then set_irq s true else s)
    else Ok s
  else if addr =? SMB_HOST_COMMAND then Ok (s <| smb_cmd := u8 val |>)
  else if addr =? SMB_HOST_ADDRESS then Ok (s <| smb_addr := u8 val |>)
  else if addr =? SMB_HOST_DATA then Ok (s <| smb_data0 := u8 val |>)
  else if addr =? SMB_HOST_DATA + 1 then Ok (s <| smb_data1 := u8 val |>)
  else if addr =? SMB_HOST_BLOCK_DATA then
    data ← wr (smb_data s) (smb_index s) (u8 val);
    Ok (s <| smb_data := data |> <| smb_index := next_index (smb_index s) |>)
  else Ok s.

Definition amd756_smb_ioport_readb s (addr : Z) : outcome (AMD756SMBus D * Z) :=
  let addr := addr .& 0x3f in
  if addr =? SMB_GLOBAL_STATUS then Ok (s, smb_stat s)
  else if addr =? SMB_GLOBAL_ENABLE then Ok (s, smb_ctl s .& 0x1f)
  else if addr =? SMB_HOST_COMMAND then Ok (s, smb_cmd s)
  else if addr =? SMB_HOST_ADDRESS then Ok (s, smb_addr s)
  else if addr =? SMB_HOST_DATA then Ok (s, smb_data0 s)
  else if addr =? SMB_HOST_DATA + 1 then Ok (s, smb_data1 s)
  else if addr =? SMB_HOST_BLOCK_DATA then
    val ← rd (smb_data s) (smb_index s);
    Ok (s <| smb_index := next_index (smb_index s) |>, val)
  else Ok (s, 0).

(** The zeroed structure after [amd756_smbus_init] with the devices added. *)
Definition amd756_smbus_init (devices : list (SMBusDevice D)) (line : option bool) : AMD756SMBus D :=
  mkAMD756 (mkBus devices [] false) 0 0 0 0 0 0 (replicate 32 0) 0 line.

(** ** What a transaction is to the addressed device

    The calls of the device's functions, the bytes sent to it, and the data
    registers of the controller afterwards. *)

Definition device_call s (d : D) : outcome (D * list Z * AMD756SMBus D) :=
  let prot := smb_ctl s .& GE_CYC_TYPE_MASK in
  let read := flag (smb_addr s) 0x01 in
  let cmd := smb_cmd s in
  if prot =? AMD756_QUICK then d ← dev_quick d read; Ok (d, [], s)
  else if prot =? AMD756_BYTE then
    if read then '(d, v) ← dev_read d; Ok (d, [], s <| smb_data0 := v |>)
    else d ← dev_write d [cmd]; Ok (d, [cmd], s)
  else if prot =? AMD756_BYTE_DATA then
    if read then
      d ← dev_write d [cmd]; '(d, v) ← dev_read d;
      Ok (d, [cmd], s <| smb_data0 := v |>)
    else d ← dev_write d [cmd; smb_data0 s]; Ok (d, [cmd; smb_data0 s], s)
  else if prot =? AMD756_WORD_DATA then
    if read then
      d ← dev_write d [cmd]; '(d, lo) ← dev_read d; '(d, hi) ← dev_read d;
      Ok (d, [cmd], s <| smb_data0 := lo |> <| smb_data1 := hi |>)
    else
      d ← dev_write d [cmd; smb_data0 s; smb_data1 s];
      Ok (d, [cmd; smb_data0 s; smb_data1 s], s)
  else
    if read then
      d ← dev_write d [cmd]; '(d, n) ← dev_read d;
      let n := if n >? 32 then 0 else n in
      '(d, vs) ← dev_reads (Z.to_nat n) d;
      Ok (d, [cmd], s <| smb_data0 := n |> <| smb_data := vs ++ drop (Z.to_nat n) (smb_data s) |>)
    else
      let bytes := block_bytes cmd (smb_data0 s) (smb_data s) in
      d ← dev_write d bytes; Ok (d, bytes, s).

(** The protocols of the controller. *)
Definition valid_protocol s : Prop :=
  smb_ctl s .& GE_CYC_TYPE_MASK ∈ [AMD756_QUICK; AMD756_BYTE; AMD756_BYTE_DATA; AMD756_WORD_DATA; AMD756_BLOCK_DATA].

(** The seven bits of the address register. *)
Definition target s : Z := (smb_addr s ≫ 1) .& 0x7f.

(** The registers are bytes and the block index is in range. *)
Record regs_ok s : Prop := {
  ro_stat : in_u 8 (smb_stat s);
  ro_ctl : in_u 8 (smb_ctl s);
  ro_cmd : in_u 8 (smb_cmd s);
  ro_addr : in_u 8 (smb_addr s);
  ro_data0 : in_u 8 (smb_data0 s);
  ro_data1 : in_u 8 (smb_data1 s);
  ro_len : zlen (smb_data s) = 32;
  ro_data : Forall (in_u 8) (smb_data s);
  ro_index : 0 <= smb_index s <= 31
}.

Lemma valid_protocol_cases s : valid_protocol s ->
  smb_ctl s .& GE_CYC_TYPE_MASK = AMD756_QUICK \/ smb_ctl s .& GE_CYC_TYPE_MASK = AMD756_BYTE \/
  smb_ctl s .& GE_CYC_TYPE_MASK = AMD756_BYTE_DATA \/ smb_ctl s .& GE_CYC_TYPE_MASK = AMD756_WORD_DATA \/
  smb_ctl s .& GE_CYC_TYPE_MASK = AMD756_BLOCK_DATA.
Proof using Type. unfold valid_protocol. rewrite !elem_of_cons, elem_of_nil. tauto. Qed.

(** A transaction to an address at which no device answers, under any
    protocol, sets the error bit of the status register and changes nothing
    else: no data register, no device, no bus state, and no completion bit. *)
Theorem smb_absent_device s kids :
  smbus s = idle_bus kids -> target s <> I2C_BROADCAST ->
  list_find (fun d => i2c_address d = target s) kids = None ->
  amd756_smb_transaction s = Ok (s <| smb_stat := smb_stat s .| GS_PRERR_STS |>).
Proof using Type.
  intros Hbus Hb Hn. unfold amd756_smb_transaction. rewrite Hbus. fold (target s).
  assert (s <| smbus := idle_bus kids |> = s) as Es by (destruct s; cbn in *; by subst).
  unfold smbus_quick_command, smbus_receive_byte, smbus_send_byte, smbus_read_byte, smbus_write_byte,
    smbus_read_word, smbus_write_word, smbus_read_block, smbus_write_block,
    i2c_start_transfer, i2c_start_recv, i2c_start_send.
  rewrite !start_no_answer by done. rewrite ?ok_bind.
  cbn [negb Z.eqb mbind outcome_bind]. unfold smb_data16, smb_data8, smb_done.
  destruct s. cbn in *. subst. repeat case_match; done.
Qed.

(** Writing a status without any of the clear bits, 0 for instance, does not
    leave the status as it is but reports a completed cycle: the branch for the
    completion bit is unreachable, since that bit is one of the clear bits. *)
Lemma smb_status_write_sets_done s val :
  flag val GS_CLEAR_STS = false ->
  exists s', amd756_smb_ioport_writeb s SMB_GLOBAL_STATUS val = Ok s' /\
    smb_stat s' = GS_HCYC_STS.
Proof using Type.
  intros Hv. unfold amd756_smb_ioport_writeb. change (SMB_GLOBAL_STATUS .& 0x3f) with 0.
  cbn [Z.eqb]. cbv zeta. rewrite Hv. eexists. split; [done |].
  by destruct (flag val GS_HCYC_STS).
Qed.

Section Refinement.
Context (dok : D -> Prop) `{laws : !SMBusDeviceLaws dok}.

(** The words of two data registers. *)
Lemma word_bytes lo hi : in_u 8 lo -> in_u 8 hi ->
  u16 (u16 lo .| (hi ≪ 8)) = lo + hi * 256 /\
  (lo + hi * 256) .& 0xff = lo /\ (lo + hi * 256) ≫ 8 = hi /\ (hi ≪ 8) .| lo = lo + hi * 256.
Proof using Type.
  intros Hl Hh. pose proof (lor_shiftl_add 8 lo hi ltac:(lia) Hl) as E. unfold in_u in *.
  change (2 ^ 8) with 256 in *. rewrite (Z.mod_small lo) by lia. rewrite E.
  rewrite Z.mod_small by lia. split_and!; [done | | | by rewrite Z.lor_comm].
  - change 0xff with (Z.ones 8). rewrite Z.land_ones by lia. change (2 ^ 8) with 256.
    rewrite Z.mod_add by lia. apply Z.mod_small. lia.
  - rewrite Z.shiftr_div_pow2 by lia. change (2 ^ 8) with 256.
    rewrite Z.div_add by lia. rewrite Z.div_small; lia.
Qed.

Lemma smb_data8_byte s v : in_u 8 v ->
  smb_data8 s v = s <| smb_data0 := v |> <| smb_stat := smb_stat s .| GS_HCYC_STS |>.
Proof using Type.
  intros Hv. unfold smb_data8, smb_done. rewrite (in_u_small 8 v Hv). unfold in_u in Hv.
  by rewrite !(proj2 (Z.ltb_ge v 0)) by lia.
Qed.

Lemma smb_data16_word s lo hi : in_u 8 lo -> in_u 8 hi ->
  smb_data16 s (lo + hi * 256)
  = s <| smb_data0 := lo |> <| smb_data1 := hi |> <| smb_stat := smb_stat s .| GS_HCYC_STS |>.
Proof using Type.
  intros Hl Hh. destruct (word_bytes lo hi Hl Hh) as (_ & _ & E & _).
  unfold smb_data16, smb_data8, smb_done. unfold in_u in *. change (2 ^ 8) with 256 in *.
  rewrite !(proj2 (Z.ltb_ge (lo + hi * 256) 0)) by lia. rewrite E.
  rewrite Z.mod_add, !Z.mod_small by lia. done.
Qed.

Lemma dev_reads_ok n d : dok d ->
  exists d' vs, dev_reads n d = Ok (d', vs) /\ dok d' /\ length vs = n.
Proof using laws.
  revert d. induction n as [| n IH]; intros d Hd; cbn [dev_reads]; [by exists d, [] |].
  destruct (read_ok d Hd) as (d1 & v & -> & _ & Hd1). rewrite ok_bind.
  destruct (IH d1 Hd1) as (d2 & vs & -> & Hd2 & Hl). rewrite ok_bind.
  exists d2, (v :: vs). cbn. by rewrite Hl.
Qed.

(** Devices answer: introduce the results of the calls in the goal. *)
Ltac dev_go :=
  repeat (rewrite ?ok_bind; cbv beta iota;
    match goal with
    | H : dok ?d |- context [dev_quick ?d ?r] =>
        destruct (quick_ok d r H) as (? & -> & ?); clear H
    | H : dok ?d |- context [dev_write ?d ?l] =>
        destruct (write_ok d l H) as (? & -> & ?); [done | (cbn; lia) | auto | clear H]
    | H : dok ?d |- context [dev_read ?d] =>
        destruct (read_ok d H) as (? & ? & -> & ? & ?); clear H
    end);
  rewrite ?ok_bind; cbv beta iota.

Lemma block_bytes_ok c len data :
  in_u 8 c -> in_u 8 len -> zlen data = 32 -> Forall (in_u 8) data ->
  block_bytes c len data <> [] /\ (length (block_bytes c len data) <= 34)%nat /\
  Forall (in_u 8) (block_bytes c len data).
Proof using Type.
  intros Hc Hl Hd Hu. unfold block_bytes, in_u in *. split; [done |]. split.
  - cbn. rewrite length_take. lia.
  - constructor; [done |]. constructor; [lia | by apply Forall_take].
Qed.

(** A transaction with a device that is present. Started on an idle bus with
    a valid protocol and an address at which a device answers, the controller
    performs exactly the device's own calls ([device_call]: the command and data
    bytes written in one piece, the reply bytes read one by one), stores the
    reply in its data registers, reports completion, and leaves the bus idle
    with every other device untouched. Master, bus and slave protocol are
    invisible to the device. *)
Lemma transaction_device_call s kids i sl :
  regs_ok s -> smbus s = idle_bus kids -> valid_protocol s ->
  answers kids (target s) i sl -> target s <> I2C_BROADCAST -> slave_idle sl -> dok (dev sl) ->
  exists d bytes s', device_call s (dev sl) = Ok (d, bytes, s') /\ dok d /\
    amd756_smb_transaction s =
      Ok (s' <| smbus := idle_bus (<[i := slave_after sl bytes d]> kids) |>
             <| smb_stat := smb_stat s .| GS_HCYC_STS |>).
Proof using laws.
  intros [_ _ Hcmd _ Hd0 Hd1 Hlen Hdata _] Hbus Hprot Hans Hb Hidle Hok.
  unfold amd756_smb_transaction, device_call. rewrite Hbus. fold (target s).
  destruct (valid_protocol_cases s Hprot) as [-> | [-> | [-> | [-> | ->]]]];
    cbn [Z.eqb Pos.eqb];
    try destruct (flag (smb_addr s) 1).
  - erewrite quick_command_spec by done. dev_go. eauto 10.
  - erewrite quick_command_spec by done. dev_go. eauto 10.
  - erewrite receive_byte_spec by done. dev_go. rewrite smb_data8_byte by done. eauto 10.
  - erewrite send_byte_spec by done. dev_go. eauto 10.
  - erewrite read_byte_spec by done. dev_go. rewrite smb_data8_byte by done. eauto 10.
  - erewrite write_byte_spec by done. dev_go. eauto 10.
  - erewrite read_word_spec by done. dev_go.
    match goal with |- context [u16 (u16 ?lo .| (?hi ≪ 8))] =>
      destruct (word_bytes lo hi) as (-> & _); [done.. |] end.
    rewrite smb_data16_word by done. eauto 10.
  - destruct (word_bytes (smb_data0 s) (smb_data1 s)) as (_ & E1 & E2 & ->); [done.. |].
    erewrite write_word_spec by done. rewrite E1, E2. dev_go. eauto 10.
  - erewrite read_block_spec by done. dev_go.
    cbv zeta. set (n := if _ >? 32 then 0 else _).
    assert (in_u 8 n) by (unfold n; rewrite Z.gtb_ltb; case_match; done).
    match goal with H : dok ?d |- _ => destruct (dev_reads_ok (Z.to_nat n) d H) as (d2 & vs & -> & Hd2 & _) end.
    rewrite !ok_bind. cbv beta iota. rewrite smb_data8_byte by done. eauto 10.
  - erewrite write_block_spec by (done || apply Hd0).
    destruct (block_bytes_ok (smb_cmd s) (smb_data0 s) (smb_data s)) as (B1 & B2 & B3); [done.. |].
    destruct (write_ok (dev sl) _ Hok B1 B2 B3) as (d & -> & Hd). rewrite !ok_bind. eauto 10.
Qed.

(** ** Safety of the ports *)

Definition ctrl_ok s : Prop := regs_ok s /\ bus_quiet dok (smbus s).

Lemma set_bus_ok s bus : regs_ok s -> bus_quiet dok bus -> ctrl_ok (s <| smbus := bus |>).
Proof using Type. intros [] Hb. split; [by constructor | done]. Qed.

Lemma stat_ok s m : ctrl_ok s -> in_u 8 m -> ctrl_ok (s <| smb_stat := smb_stat s .| m |>).
Proof using Type. intros [[] Hb] Hm. split; [| done]. constructor; cbn; auto with words. Qed.

Lemma error_ok s : ctrl_ok s -> ctrl_ok (smb_error s).
Proof using Type. intros H. apply stat_ok; [done | by vm_compute]. Qed.

Lemma done_ok s r : ctrl_ok s -> ctrl_ok (smb_done s r).
Proof using Type.
  intros H. unfold smb_done. destruct (r <? 0); [by apply error_ok |].
  apply stat_ok; [done | by vm_compute].
Qed.

Lemma data8_ok s r : ctrl_ok s -> ctrl_ok (smb_data8 s r).
Proof using Type.
  intros H. unfold smb_data8. destruct (r <? 0); [by apply error_ok |]. apply done_ok.
  destruct H as [[] Hb]. split; [| done]. constructor; cbn; try done. by apply in_u_mod.
Qed.

Lemma data16_ok s r : ctrl_ok s -> ctrl_ok (smb_data16 s r).
Proof using Type.
  intros H. unfold smb_data16. destruct (r <? 0); [by apply error_ok |]. apply data8_ok.
  destruct H as [[] Hb]. split; [| done]. constructor; cbn; try done. by apply in_u_mod.
Qed.

Ltac transact L :=
  destruct L as (? & ? & -> & ? & ?); rewrite ok_bind; eexists; split; [reflexivity |].

Lemma transaction_ok s : ctrl_ok s ->
  exists s', amd756_smb_transaction s = Ok s' /\ ctrl_ok s' /\ irq s' = irq s.
Proof using laws.
  intros [Hr Hb]. pose proof Hr as [_ _ Hcmd _ Hd0 Hd1 Hlen Hdata _].
  assert (forall s', irq s' = irq s -> forall r,
    irq (smb_done s' r) = irq s /\ irq (smb_data8 s' r) = irq s /\ irq (smb_data16 s' r) = irq s) as Hirq.
  { intros s' Hs' x. unfold smb_data16, smb_data8, smb_done. destruct (x <? 0); done. }
  unfold amd756_smb_transaction. fold (target s).
  destruct (_ =? AMD756_QUICK).
  { transact (quick_command_ok dok (smbus s) (target s) (flag (smb_addr s) 1) Hb).
    split; [apply done_ok; by apply set_bus_ok | by apply Hirq]. }
  destruct (_ =? AMD756_BYTE).
  { destruct (flag (smb_addr s) 1).
    - transact (receive_byte_ok dok (smbus s) (target s) Hb).
      split; [apply data8_ok; by apply set_bus_ok | by apply Hirq].
    - transact (send_byte_ok dok (smbus s) (target s) _ Hb Hcmd).
      split; [apply done_ok; by apply set_bus_ok | by apply Hirq]. }
  destruct (_ =? AMD756_BYTE_DATA).
  { destruct (flag (smb_addr s) 1).
    - transact (read_byte_ok dok (smbus s) (target s) _ Hb Hcmd).
      split; [apply data8_ok; by apply set_bus_ok | by apply Hirq].
    - transact (write_byte_ok dok (smbus s) (target s) _ _ Hb Hcmd Hd0).
      split; [apply done_ok; by apply set_bus_ok | by apply Hirq]. }
  destruct (_ =? AMD756_WORD_DATA).
  { destruct (flag (smb_addr s) 1).
    - transact (read_word_ok dok (smbus s) (target s) _ Hb Hcmd).
      split; [apply data16_ok; by apply set_bus_ok | by apply Hirq].
    - destruct (word_bytes (smb_data0 s) (smb_data1 s) Hd0 Hd1) as (_ & _ & _ & ->).
      assert (in_u 16 (smb_data0 s + smb_data1 s * 256)) as Hw by (unfold in_u in *; lia).
      transact (write_word_ok dok (smbus s) (target s) _ _ Hb Hcmd Hw).
      split; [apply done_ok; by apply set_bus_ok | by apply Hirq]. }
  destruct (_ =? AMD756_BLOCK_DATA); [| eexists; split; [reflexivity |]; split; [by apply error_ok | done]].
  destruct (flag (smb_addr s) 1).
  - destruct (read_block_ok dok (smbus s) (target s) _ _ Hb Hcmd Hlen Hdata) as (bus' & d' & r & -> & Hq & Hr' & Hl' & Hu').
    rewrite ok_bind. eexists. split; [reflexivity |]. split; [| by apply Hirq].
    apply data8_ok. destruct Hr. split; [by constructor | done].
  - transact (write_block_ok dok (smbus s) (target s) _ _ (smb_data0 s) Hb Hcmd ltac:(apply Hd0) Hlen Hdata).
    split; [apply done_ok; by apply set_bus_ok | by apply Hirq].
Qed.

(** A port access of the guest. *)
Inductive port_op :=
| PortWrite (addr val : Z)
| PortRead (addr : Z).

Definition port_step s (op : port_op) : outcome (AMD756SMBus D) :=
  match op with
  | PortWrite addr val => amd756_smb_ioport_writeb s addr val
  | PortRead addr => '(s, _) ← amd756_smb_ioport_readb s addr; Ok s
  end.

Fixpoint port_run s (ops : list port_op) : outcome (AMD756SMBus D) :=
  match ops with
  | [] => Ok s
  | op :: ops => s ← port_step s op; port_run s ops
  end.

Lemma set_irq_ok s l : ctrl_ok s -> ctrl_ok (set_irq s l).
Proof using Type.
  intros H. unfold set_irq. destruct (irq s); [| done]. destruct H as [[] Hb]. split; [by constructor | done].
Qed.

Lemma next_index_ok i : 0 <= i <= 31 -> 0 <= next_index i <= 31.
Proof using Type.
  intros Hi. unfold next_index. rewrite Z.mod_small, Z.gtb_ltb by lia.
  destruct (Z.ltb_spec 31 (i + 1)); lia.
Qed.

Lemma status_write_ok s st : ctrl_ok s -> in_u 8 st -> ctrl_ok (s <| smb_stat := st |> <| smb_index := 0 |>).
Proof using Type. intros [[] Hb] Hst. split; [| done]. constructor; cbn; try done; lia. Qed.

Lemma writeb_ok s addr val : ctrl_ok s ->
  exists s', amd756_smb_ioport_writeb s addr val = Ok s' /\ ctrl_ok s'.
Proof using laws.
  intros H. unfold amd756_smb_ioport_writeb. set (a := addr .& 0x3f). cbv zeta.
  destruct (a =? SMB_GLOBAL_STATUS).
  { eexists. split; [done |]. assert (in_u 8 GS_HCYC_STS) by (by vm_compute).
    repeat case_match; apply status_write_ok; try done; by apply set_irq_ok. }
  destruct (a =? SMB_GLOBAL_ENABLE).
  { set (s1 := if flag val GE_ABORT then _ else _).
    assert (ctrl_ok s1) as H1.
    { assert (ctrl_ok (s <| smb_ctl := u8 val |>)) as H0.
      { destruct H as [[] Hb]. split; [| done]. constructor; cbn; try done. by apply in_u_mod. }
      unfold s1. destruct (flag val GE_ABORT); [| done].
      apply (stat_ok (s <| smb_ctl := u8 val |>) GS_ABRT_STS); [done | by vm_compute]. }
    clearbody s1. destruct (flag val GE_HOST_STC); [| by exists s1].
    destruct (transaction_ok s1 H1) as (s2 & -> & H2 & _). rewrite ok_bind.
    eexists. split; [done |]. case_match; [by apply set_irq_ok | done]. }
  pose proof H as [Hr Hb]. destruct Hr.
  repeat match goal with
  | |- context [if a =? ?r then Ok ?s' else _] =>
      destruct (a =? r); [eexists; split; [done |]; split; [constructor; cbn; try done; by apply in_u_mod | done] |]
  end.
  destruct (a =? SMB_HOST_BLOCK_DATA); [| by exists s].
  rewrite wr_ok, ok_bind by lia. eexists. split; [done |]. split; [| done].
  constructor; cbn; try done.
  - by rewrite length_insert.
  - apply Forall_insert; [done |]. by apply in_u_mod.
  - by apply next_index_ok.
Qed.

Lemma readb_ok s addr : ctrl_ok s ->
  exists s' v, amd756_smb_ioport_readb s addr = Ok (s', v) /\ in_u 8 v /\ ctrl_ok s'.
Proof using laws.
  intros H. unfold amd756_smb_ioport_readb. set (a := addr .& 0x3f). cbv zeta.
  pose proof H as [Hr Hb]. destruct Hr.
  repeat match goal with
  | |- context [if a =? ?r then Ok (?s', ?v) else _] =>
      destruct (a =? r); [exists s', v; split; [done |]; split; [auto with words | done] |]
  end.
  destruct (a =? SMB_HOST_BLOCK_DATA); [| by exists s, 0].
  rewrite rd_nthZ, ok_bind by lia. eexists _, _. split; [done |].
  split; [apply nthZ_Forall; [done | lia] |]. split; [| done].
  constructor; cbn; try done. by apply next_index_ok.
Qed.

(** No sequence of guest accesses to the ports, whatever the addresses,
    values and order (transactions to absent devices, broadcasts, aborted and
    reserved protocols included), makes the controller access outside its block
    buffer or a slave outside its own; every access returns, the registers stay
    bytes, the block index stays below 32, and between accesses the bus is idle
    and every slave quiet. *)
Lemma port_run_ok s ops :
  ctrl_ok s -> exists s', port_run s ops = Ok s' /\ ctrl_ok s'.
Proof using laws.
  revert s. induction ops as [| op ops IH]; intros s H; cbn [port_run]; [by exists s |].
  destruct op as [addr val | addr]; cbn [port_step].
  - destruct (writeb_ok s addr val H) as (s1 & -> & H1). rewrite ok_bind. by apply IH.
  - destruct (readb_ok s addr H) as (s1 & v & -> & _ & H1). rewrite !ok_bind. by apply IH.
Qed.

End Refinement.

End Controller.
