(* ===== verification/XboxSmbus.v ===== *)
(** * The devices of the console's SMBus (smbus_storage.c, smbus_xbox_smc.c,
      smbus_adm1032.c, smbus_cx25871.c, smbus_fs454.c, smbus_xcalibur.c)

    The EEPROM, the system management controller, the temperature sensor and the
    video encoders, each with its functions as the SMBus class has them, joined
    in [xbox_device], an instance of [SMBusDeviceClass] with its laws. The
    theorems put the layers together: bytes of the EEPROM written through the
    controller's ports are read back through them, and the controller's safety
    holds for the console's bus. *)

From stdpp Require Import base numbers list strings.
From Stdlib Require Import ZArith Lia.
From S2P Require Import Prelude Eeprom I2c AmdSmbus.

(** ** The EEPROM

    [file] says whether a file backs the data; [written] are the buffers handed
    to write(2), the last one first. The host's answers are [StorageHost]. *)

Class StorageHost := {
  host_open : bool;
  host_write : list Z -> Z
}.

Record SMBusStorageDevice := mkStorage {
  file : bool;
  data : list Z;
  size : Z;
  offset : Z;
  persist : bool;
  written : list (list Z)
}.

#[export] Instance SMBusStorageDevice_eta : Eta SMBusStorageDevice := fun s =>
  mkStorage (file s) (data s) (size s) (offset s) (persist s) (written s).

(** [s->offset = (s->offset + 1) % s->size]. *)
Definition storage_advance (s : SMBusStorageDevice) : outcome SMBusStorageDevice :=
  if size s =? 0 then Undef else Ok (s <| offset := u32 (offset s + 1) mod size s |>).

Fixpoint storage_store (buf : list Z) (s : SMBusStorageDevice) : outcome SMBusStorageDevice :=
  match buf with
  | [] => Ok s
  | b :: buf =>
      d ← wr (data s) (offset s) b;
      s ← storage_advance (s <| data := d |>);
      storage_store buf s
  end.

Section Storage.
Context `{host : StorageHost}.

(** [smbus_storage_realize]: [image] is the file's contents, or the reason it
    could not be read. *)
Definition smbus_storage_realize (image : option (list Z)) (sz : Z) (persists : bool)
    : option SMBusStorageDevice :=
  match image with
  | Some bytes => if zlen bytes =? sz then Some (mkStorage true bytes sz 0 persists []) else None
  | None => None
  end.

Definition smbus_storage_write_data (s : SMBusStorageDevice) (buf : list Z)
    : outcome (SMBusStorageDevice * Z) :=
  b ← rd buf 0;
  let s := s <| offset := b |> in
  let buf := drop 1 buf in
  let changed := match buf with [] => false | _ => true end in
  s ← storage_store buf s;
  if changed && file s && persist s then
    if host_open then
      let s := s <| written := data s :: written s |> in
      Ok (s, if host_write (data s) =? size s then 0 else -1)
    else Ok (s, -1)
  else Ok (s, 0).

Definition smbus_storage_receive_byte (s : SMBusStorageDevice) : outcome (SMBusStorageDevice * Z) :=
  val ← rd (data s) (offset s);
  s ← storage_advance s;
  Ok (s, val).

End Storage.

(** ** The system management controller

    [requests] logs the calls out of the device, the last one first. The index
    into the version string is an [int] that the model does not wrap. *)

Inductive smc_request :=
| ResetRequest
| ShutdownRequest
| ExtSmi.

Record SMBusSMCDevice := mkSMC {
  version_string : list Z;
  version_string_index : Z;
  smc_cmd : Z;
  traystate_reg : Z;
  avpack_reg : Z;
  intstatus_reg : Z;
  scratch_reg : Z;
  error_reg : Z;
  requests : list smc_request
}.

#[export] Instance SMBusSMCDevice_eta : Eta SMBusSMCDevice := fun s =>
  mkSMC (version_string s) (version_string_index s) (smc_cmd s) (traystate_reg s) (avpack_reg s)
    (intstatus_reg s) (scratch_reg s) (error_reg s) (requests s).

Abbreviation SMC_REG_VER := (0x01) (only parsing).
Abbreviation SMC_REG_POWER := (0x02) (only parsing).
Abbreviation SMC_REG_POWER_RESET := (0x01) (only parsing).
Abbreviation SMC_REG_POWER_CYCLE := (0x40) (only parsing).
Abbreviation SMC_REG_POWER_SHUTDOWN := (0x80) (only parsing).
Abbreviation SMC_REG_TRAYSTATE := (0x03) (only parsing).
Abbreviation SMC_REG_TRAYSTATE_OPEN := (0x10) (only parsing).
Abbreviation SMC_REG_TRAYSTATE_NO_MEDIA_DETECTED := (0x40) (only parsing).
Abbreviation SMC_REG_TRAYSTATE_MEDIA_DETECTED := (0x60) (only parsing).
Abbreviation SMC_REG_AVPACK := (0x04) (only parsing).
Abbreviation SMC_REG_ERROR_WRITE := (0x0e) (only parsing).
Abbreviation SMC_REG_ERROR_READ := (0x0f) (only parsing).
Abbreviation SMC_REG_INTSTATUS := (0x11) (only parsing).
Abbreviation SMC_REG_INTSTATUS_POWER := (0x01) (only parsing).
Abbreviation SMC_REG_INTSTATUS_TRAYCLOSED := (0x02) (only parsing).
Abbreviation SMC_REG_INTSTATUS_TRAYOPENING := (0x04) (only parsing).
Abbreviation SMC_REG_INTSTATUS_EJECT_BUTTON := (0x20) (only parsing).
Abbreviation SMC_REG_SCRATCH := (0x1b) (only parsing).
Abbreviation SMC_REG_SCRATCH_SHORT_ANIMATION := (0x04) (only parsing).
Abbreviation SMC_VERSION_LENGTH := (3) (only parsing).

Definition smc_log (s : SMBusSMCDevice) (r : smc_request) : SMBusSMCDevice :=
  s <| requests := r :: requests s |>.

Definition smc_write_data (s : SMBusSMCDevice) (buf : list Z) : outcome (SMBusSMCDevice * Z) :=
  cmd ← rd buf 0;
  let s := s <| smc_cmd := cmd |> in
  let buf := drop 1 buf in
  if zlen buf <? 1 then Ok (s, 0)
  else
    b ← rd buf 0;
    Ok (if cmd =? SMC_REG_VER then s <| version_string_index := b |>
        else if cmd =? SMC_REG_POWER then
          if flag b (SMC_REG_POWER_RESET .| SMC_REG_POWER_CYCLE) then smc_log s ResetRequest
          else if flag b SMC_REG_POWER_SHUTDOWN then smc_log s ShutdownRequest
          else s
        else if cmd =? SMC_REG_ERROR_WRITE then s <| error_reg := b |>
        else if cmd =? SMC_REG_SCRATCH then s <| scratch_reg := b |>
        else s, 0).

(** The index counts up without bound; it is an int in the code, which 2^31 reads of the
    version after one write of the index would exhaust. *)
Definition smc_receive_byte (s : SMBusSMCDevice) : outcome (SMBusSMCDevice * Z) :=
  let cmd := smc_cmd s in
  let s := s <| smc_cmd := u8 (cmd + 1) |> in
  if cmd =? SMC_REG_VER then
    v ← rd (version_string s) (Z.rem (version_string_index s) SMC_VERSION_LENGTH);
    Ok (s <| version_string_index := version_string_index s + 1 |>, v)
  else if cmd =? SMC_REG_TRAYSTATE then Ok (s, traystate_reg s)
  else if cmd =? SMC_REG_SCRATCH then Ok (s, scratch_reg s)
  else if cmd =? SMC_REG_AVPACK then Ok (s, avpack_reg s)
  else if cmd =? SMC_REG_ERROR_READ then Ok (s, error_reg s)
  else if cmd =? SMC_REG_INTSTATUS then Ok (s <| intstatus_reg := 0 |>, intstatus_reg s)
  else if cmd =? 0x1c then Ok (s, 0x52)
  else if cmd =? 0x1d then Ok (s, 0x72)
  else if cmd =? 0x1e then Ok (s, 0xea)
  else if cmd =? 0x1f then Ok (s, 0x46)
  else Ok (s, 0).

Definition xbox_smc_avpack_to_reg (avpack : string) : option Z :=
  if bool_decide (avpack = "composite"%string) then Some 0x06
  else if bool_decide (avpack = "scart"%string) then Some 0x00
  else if bool_decide (avpack = "svideo"%string) then Some 0x04
  else if bool_decide (avpack = "vga"%string) then Some 0x02
  else if bool_decide (avpack = "rfu"%string) then Some 0x03
  else if bool_decide (avpack = "hdtv"%string) then Some 0x01
  else if bool_decide (avpack = "none"%string) then Some 0x07
  else None.

Definition xbox_smc_power_button (s : SMBusSMCDevice) : SMBusSMCDevice :=
  smc_log (s <| intstatus_reg := intstatus_reg s .| SMC_REG_INTSTATUS_POWER |>) ExtSmi.

Definition xbox_smc_eject_button (s : SMBusSMCDevice) : SMBusSMCDevice :=
  smc_log (s <| intstatus_reg := intstatus_reg s .| SMC_REG_INTSTATUS_EJECT_BUTTON |>) ExtSmi.

(** [tray_open] and [media] are the state of the disc drive. *)
Definition xbox_smc_update_tray_state (tray_open media : bool) (s : SMBusSMCDevice) : SMBusSMCDevice :=
  let s :=
    if tray_open then
      s <| traystate_reg := SMC_REG_TRAYSTATE_OPEN |>
        <| intstatus_reg := intstatus_reg s .| SMC_REG_INTSTATUS_TRAYOPENING |>
    else
      s <| traystate_reg := if media then SMC_REG_TRAYSTATE_MEDIA_DETECTED
                            else SMC_REG_TRAYSTATE_NO_MEDIA_DETECTED |>
        <| intstatus_reg := intstatus_reg s .| SMC_REG_INTSTATUS_TRAYCLOSED |> in
  smc_log s ExtSmi.

(** The bytes of a C string. *)
Definition chars (s : string) : list Z :=
  (fun c => Z.of_N (Ascii.N_of_ascii c)) <$> String.list_ascii_of_string s.

(** [smbus_smc_realize] on the machine's properties, [None] where one is not
    set; the boolean says whether an error was reported. *)
Definition smbus_smc_realize (short_animation : bool) (avpack smc_version : option string)
    (tray_open media : bool) : SMBusSMCDevice * bool :=
  let s := mkSMC [] 0 0 0 0 0 0 0 [] in
  let s := if short_animation then s <| scratch_reg := SMC_REG_SCRATCH_SHORT_ANIMATION |> else s in
  let '(s, err) :=
    match avpack with
    | Some a =>
        match xbox_smc_avpack_to_reg a with
        | Some r => (s <| avpack_reg := r |>, false)
        | None => (s, true)
        end
    | None => (s, false)
    end in
  let '(s, err) :=
    match smc_version with
    | Some v => (s <| version_string := chars v |>, err || negb (zlen (chars v) =? SMC_VERSION_LENGTH))
    | None => (s, err)
    end in
  (xbox_smc_update_tray_state tray_open media s, err).

(** ** The temperature sensor: its command byte *)

Definition smbus_adm1032_write_data (cmd : Z) (buf : list Z) : outcome (Z * Z) :=
  b ← rd buf 0; Ok (b, 0).

Definition smbus_adm1032_receive_byte (cmd : Z) : outcome (Z * Z) :=
  Ok (u8 (cmd + 1), if (cmd =? 0x0) || (cmd =? 0x1) then 50 else 0).

(** ** The video encoders: 256 registers *)

Record SMBusEncoder := mkEncoder {
  registers : list Z;
  enc_cmd : Z
}.

#[export] Instance SMBusEncoder_eta : Eta SMBusEncoder := fun s => mkEncoder (registers s) (enc_cmd s).

Definition smbus_cx25871_realize : SMBusEncoder := mkEncoder (replicate 256 0) 0.

Definition smbus_cx25871_write_data (cx : SMBusEncoder) (buf : list Z) : outcome (SMBusEncoder * Z) :=
  cmd ← rd buf 0;
  let cx := cx <| enc_cmd := cmd |> in
  let buf := drop 1 buf in
  let len := zlen buf in
  if len <? 1 then Ok (cx, 0)
  else
    src ← slice buf 0 (Z.min len (256 - cmd));
    regs ← blit (registers cx) cmd src;
    Ok (cx <| registers := regs |>, 0).

Definition smbus_cx25871_receive_byte (cx : SMBusEncoder) : outcome (SMBusEncoder * Z) :=
  v ← rd (registers cx) (enc_cmd cx);
  Ok (cx <| enc_cmd := u8 (enc_cmd cx + 1) |>, v).

(** The other two encoders have the same code. *)
Definition smbus_fs454_write_data := smbus_cx25871_write_data.
Definition smbus_fs454_receive_byte := smbus_cx25871_receive_byte.
Definition smbus_xcalibur_write_data := smbus_cx25871_write_data.
Definition smbus_xcalibur_receive_byte := smbus_cx25871_receive_byte.

(** ** The devices as one class *)

Inductive xbox_device :=
| DevSMC (s : SMBusSMCDevice)
| DevStorage (s : SMBusStorageDevice)
| DevADM1032 (cmd : Z)
| DevCX25871 (cx : SMBusEncoder)
| DevFS454 (cx : SMBusEncoder)
| DevXcalibur (cx : SMBusEncoder).

Section Devices.
Context `{host : StorageHost}.

Definition wrap {A} (C : A -> xbox_device) (m : outcome (A * Z)) : outcome (xbox_device * Z) :=
  '(a, z) ← m; Ok (C a, z).

(** The quick commands of the devices that have one do nothing; the EEPROM's
    class leaves it out. *)
#[export] Instance xbox_device_class : SMBusDeviceClass xbox_device := {
  quick_cmd d := match d with DevStorage _ => None | _ => Some (fun _ => Ok d) end;
  write_data d :=
    Some (fun buf =>
      match d with
      | DevSMC s => wrap DevSMC (smc_write_data s buf)
      | DevStorage s => wrap DevStorage (smbus_storage_write_data s buf)
      | DevADM1032 c => wrap DevADM1032 (smbus_adm1032_write_data c buf)
      | DevCX25871 s => wrap DevCX25871 (smbus_cx25871_write_data s buf)
      | DevFS454 s => wrap DevFS454 (smbus_fs454_write_data s buf)
      | DevXcalibur s => wrap DevXcalibur (smbus_xcalibur_write_data s buf)
      end);
  receive_byte d :=
    Some match d with
      | DevSMC s => wrap DevSMC (smc_receive_byte s)
      | DevStorage s => wrap DevStorage (smbus_storage_receive_byte s)
      | DevADM1032 c => wrap DevADM1032 (smbus_adm1032_receive_byte c)
      | DevCX25871 s => wrap DevCX25871 (smbus_cx25871_receive_byte s)
      | DevFS454 s => wrap DevFS454 (smbus_fs454_receive_byte s)
      | DevXcalibur s => wrap DevXcalibur (smbus_xcalibur_receive_byte s)
      end
}.

(** A slave as the bus holds it after power-on. *)
Definition new_slave (addr : Z) (d : xbox_device) : SMBusDevice xbox_device :=
  mkSMBusDevice addr SMBUS_IDLE 0 (replicate 34 0) d.

(** The devices [xbox_init_common] adds, by the video encoder of the machine,
    and the EEPROM of the command line. *)
Definition xbox_devices (smc : SMBusSMCDevice) (video_encoder : string) (eeprom : SMBusStorageDevice)
    : list (SMBusDevice xbox_device) :=
  new_slave 0x10 (DevSMC smc) ::
  (if negb (bool_decide (video_encoder = "xcalibur"%string)) then
     (if bool_decide (video_encoder = "conexant"%string)
      then [new_slave 0x45 (DevCX25871 smbus_cx25871_realize)]
      else if bool_decide (video_encoder = "focus"%string)
      then [new_slave 0x6A (DevFS454 smbus_cx25871_realize)]
      else []) ++ [new_slave 0x4C (DevADM1032 0)]
   else [new_slave 0x70 (DevXcalibur smbus_cx25871_realize)]) ++
  [new_slave 0x54 (DevStorage eeprom)].

(** ** Invariants of the devices *)

Record storage_ok (s : SMBusStorageDevice) : Prop := {
  st_size : size s = 256;
  st_data : zlen (data s) = 256;
  st_bytes : Forall (in_u 8) (data s);
  st_offset : in_u 8 (offset s)
}.

Record smc_ok (s : SMBusSMCDevice) : Prop := {
  sm_version : zlen (version_string s) = 3;
  sm_chars : Forall (in_u 8) (version_string s);
  sm_index : 0 <= version_string_index s;
  sm_cmd : in_u 8 (smc_cmd s);
  sm_tray : in_u 8 (traystate_reg s);
  sm_av : in_u 8 (avpack_reg s);
  sm_int : in_u 8 (intstatus_reg s);
  sm_scratch : in_u 8 (scratch_reg s);
  sm_error : in_u 8 (error_reg s)
}.

Record encoder_ok (cx : SMBusEncoder) : Prop := {
  en_regs : zlen (registers cx) = 256;
  en_bytes : Forall (in_u 8) (registers cx);
  en_cmd : in_u 8 (enc_cmd cx)
}.

Definition xbox_device_ok (d : xbox_device) : Prop :=
  match d with
  | DevSMC s => smc_ok s
  | DevStorage s => storage_ok s
  | DevADM1032 c => in_u 8 c
  | DevCX25871 s | DevFS454 s | DevXcalibur s => encoder_ok s
  end.

Lemma storage_advance_ok s : storage_ok s ->
  exists s', storage_advance s = Ok s' /\ storage_ok s' /\ data s' = data s /\
    offset s' = u8 (offset s + 1) /\ file s' = file s /\ persist s' = persist s /\ written s' = written s.
Proof using Type.
  intros [Hs Hd Hb Ho]. unfold storage_advance. rewrite Hs. cbn. eexists. split; [done |].
  assert (u32 (offset s + 1) mod 256 = u8 (offset s + 1)) as E.
  { unfold in_u in Ho. by rewrite (Z.mod_small (_ + 1) (2 ^ 32)) by lia. }
  split_and!; [| done | done | done..]. constructor; cbn; try done. rewrite E. by apply in_u_mod.
Qed.

Lemma storage_store_ok buf s : storage_ok s -> Forall (in_u 8) buf ->
  exists s', storage_store buf s = Ok s' /\ storage_ok s'.
Proof using Type.
  revert s. induction buf as [| b buf IH]; intros s Hs Hb; cbn [storage_store]; [by exists s |].
  apply Forall_cons in Hb as [Hb Hbs]. pose proof Hs as [Hz Hd Hu Ho]. unfold in_u in Ho.
  rewrite wr_ok, ok_bind by lia.
  destruct (storage_advance_ok (s <| data := <[Z.to_nat (offset s) := b]> (data s) |>)) as (s1 & -> & H1 & _).
  { constructor; cbn; [done | by rewrite length_insert | by apply Forall_insert | done]. }
  rewrite ok_bind. by apply IH.
Qed.

Lemma rd_head (b : Z) l : rd (b :: l) 0 = Ok b.
Proof using Type. done. Qed.

Lemma storage_write_ok s buf : storage_ok s -> buf <> [] -> Forall (in_u 8) buf ->
  exists s' r, smbus_storage_write_data s buf = Ok (s', r) /\ storage_ok s'.
Proof using Type.
  intros Hs Hne Hb. destruct buf as [| b buf]; [done |]. apply Forall_cons in Hb as [Hb Hbs].
  unfold smbus_storage_write_data. rewrite rd_head, ok_bind. cbv zeta. rewrite skipn_cons, drop_0.
  destruct (storage_store_ok buf (s <| offset := b |>)) as (s1 & -> & H1); [| done |].
  { destruct Hs. by constructor. }
  rewrite ok_bind. assert (storage_ok (s1 <| written := data s1 :: written s1 |>)) as H2.
  { destruct H1. by constructor. }
  repeat case_match; eexists _, _; (split; [reflexivity |]); done.
Qed.

Lemma storage_read_ok s : storage_ok s ->
  exists s' v, smbus_storage_receive_byte s = Ok (s', v) /\ in_u 8 v /\ storage_ok s'.
Proof using Type.
  intros Hs. pose proof Hs as [Hz Hd Hu Ho]. unfold in_u in Ho.
  unfold smbus_storage_receive_byte. rewrite rd_nthZ, ok_bind by lia.
  destruct (storage_advance_ok s Hs) as (s1 & -> & H1 & _). rewrite ok_bind.
  eexists _, _. split; [reflexivity |]. split; [apply nthZ_Forall; [done | lia] | done].
Qed.

Lemma smc_write_ok s buf : smc_ok s -> buf <> [] -> Forall (in_u 8) buf ->
  exists s' r, smc_write_data s buf = Ok (s', r) /\ smc_ok s'.
Proof using Type.
  intros [] Hne Hb. destruct buf as [| c buf]; [done |]. apply Forall_cons in Hb as [Hc Hbs].
  unfold smc_write_data. rewrite rd_head, ok_bind. cbv zeta. rewrite skipn_cons, drop_0.
  destruct buf as [| b buf].
  { eexists _, _. split; [reflexivity |]. by constructor. }
  apply Forall_cons in Hbs as [Hb _]. rewrite rd_head, ok_bind.
  rewrite (proj2 (Z.ltb_ge _ 1)) by (cbn; lia). unfold in_u in *.
  repeat case_match; eexists _, _; (split; [reflexivity |]); constructor; cbn; (done || lia).
Qed.

Lemma smc_read_ok s : smc_ok s ->
  exists s' v, smc_receive_byte s = Ok (s', v) /\ in_u 8 v /\ smc_ok s'.
Proof using Type.
  intros []. unfold smc_receive_byte.
  assert (in_u 8 (u8 (smc_cmd s + 1))) by (by apply in_u_mod).
  destruct (_ =? SMC_REG_VER).
  - pose proof (Z.rem_bound_pos (version_string_index s) SMC_VERSION_LENGTH) as Hr.
     cbn [version_string version_string_index set].
    change (version_string s <| smc_cmd := _ |>) with (version_string s).
    change (version_string_index s <| smc_cmd := _ |>) with (version_string_index s).
    rewrite rd_nthZ, ok_bind by lia. eexists _, _. split; [reflexivity |].
    split; [apply nthZ_Forall; [done | lia] |]. constructor; cbn; (done || lia).
  - repeat case_match; eexists _, _; (split; [reflexivity |]); (split; [done |]);
      constructor; cbn; done.
Qed.

Lemma encoder_write_ok cx buf : encoder_ok cx -> buf <> [] -> Forall (in_u 8) buf ->
  exists cx' r, smbus_cx25871_write_data cx buf = Ok (cx', r) /\ encoder_ok cx'.
Proof using Type.
  intros [Hr Hu Hc] Hne Hb. destruct buf as [| c buf]; [done |]. apply Forall_cons in Hb as [Hcb Hbs].
  unfold smbus_cx25871_write_data. rewrite rd_head, ok_bind. cbv zeta. rewrite skipn_cons, drop_0.
  destruct (Z.ltb_spec (zlen buf) 1).
  { eexists _, _. split; [reflexivity |]. by constructor. }
  unfold in_u in Hcb. rewrite slice_ok, ok_bind by lia.
  change (registers cx <| enc_cmd := c |>) with (registers cx).
  destruct (blit (registers cx) c (take (Z.to_nat (Z.min (zlen buf) (256 - c))) (drop (Z.to_nat 0) buf)))
    as [regs | | |] eqn:E; try (rewrite blit_ok in E by (rewrite ?length_take, ?length_drop; lia); done).
  rewrite ok_bind. eexists _, _. split; [reflexivity |].
  constructor; cbn; [by erewrite blit_length | | done].
  eapply Forall_blit; [done | done | by apply Forall_take, Forall_drop].
Qed.

Lemma encoder_read_ok cx : encoder_ok cx ->
  exists cx' v, smbus_cx25871_receive_byte cx = Ok (cx', v) /\ in_u 8 v /\ encoder_ok cx'.
Proof using Type.
  intros [Hr Hu Hc]. unfold smbus_cx25871_receive_byte. unfold in_u in Hc.
  rewrite rd_nthZ, ok_bind by lia. eexists _, _. split; [reflexivity |].
  split; [apply nthZ_Forall; [done | lia] |]. constructor; cbn; [done.. | by apply in_u_mod].
Qed.

(** The console's devices satisfy what the slave protocol relies on. *)
#[export] Instance xbox_device_laws : SMBusDeviceLaws xbox_device_ok.
Proof using Type.
  constructor.
  - intros d r Hd. unfold dev_quick. destruct d; cbn; eauto.
  - intros d buf Hd Hne _ Hb. unfold dev_write. cbn [write_data xbox_device_class]. destruct d as [s | s | c | s | s | s]; cbn in Hd.
    + destruct (smc_write_ok s buf Hd Hne Hb) as (s' & r & -> & H). cbn. eauto.
    + destruct (storage_write_ok s buf Hd Hne Hb) as (s' & r & -> & H). cbn. eauto.
    + destruct buf as [| b buf]; [done |]. apply Forall_cons in Hb as [Hb _]. cbn. eauto.
    + destruct (encoder_write_ok s buf Hd Hne Hb) as (s' & r & -> & H). cbn. eauto.
    + destruct (encoder_write_ok s buf Hd Hne Hb) as (s' & r & E & H).
      unfold smbus_fs454_write_data. rewrite E. cbn. eauto.
    + destruct (encoder_write_ok s buf Hd Hne Hb) as (s' & r & E & H).
      unfold smbus_xcalibur_write_data. rewrite E. cbn. eauto.
  - intros d Hd. unfold dev_read. cbn [receive_byte xbox_device_class]. destruct d as [s | s | c | s | s | s]; cbn in Hd.
    + destruct (smc_read_ok s Hd) as (s' & v & -> & Hv & H). cbn. eauto.
    + destruct (storage_read_ok s Hd) as (s' & v & -> & Hv & H). cbn. eauto.
    + cbn. eexists _, _. split; [reflexivity |]. split; [by destruct (_ || _) | by apply in_u_mod].
    + destruct (encoder_read_ok s Hd) as (s' & v & -> & Hv & H). cbn. eauto.
    + destruct (encoder_read_ok s Hd) as (s' & v & E & Hv & H).
      unfold smbus_fs454_receive_byte. rewrite E. cbn. eauto.
    + destruct (encoder_read_ok s Hd) as (s' & v & E & Hv & H).
      unfold smbus_xcalibur_receive_byte. rewrite E. cbn. eauto.
Qed.

(** ** The console's bus *)

Lemma new_slave_ok addr d : xbox_device_ok d ->
  slave_ok xbox_device_ok (new_slave addr d) /\ slave_quiet (new_slave addr d).
Proof using Type.
  intros Hd. split; [constructor; cbn; try done | done].
  by apply (Forall_replicate (in_u 8) 34).
Qed.

Lemma encoder_realize_ok : encoder_ok smbus_cx25871_realize.
Proof using Type. constructor; cbn; [done | by apply (Forall_replicate (in_u 8) 256) | done]. Qed.

Lemma xbox_bus_quiet smc video eeprom :
  smc_ok smc -> storage_ok eeprom ->
  bus_quiet xbox_device_ok (mkBus (xbox_devices smc video eeprom) [] false).
Proof using Type.
  intros Hsmc Hst.
  assert (Forall (fun s => slave_ok xbox_device_ok s /\ slave_quiet s) (xbox_devices smc video eeprom)) as H.
  { unfold xbox_devices. apply Forall_cons. split; [by apply new_slave_ok |].
    apply Forall_app. split; [| apply Forall_singleton; by apply new_slave_ok].
    pose proof encoder_realize_ok.
    repeat case_match; rewrite ?Forall_app, ?Forall_singleton, ?Forall_nil;
      split_and?; try done; by apply new_slave_ok. }
  split_and!; [| by unfold xbox_devices | done | done]. constructor; cbn [children current_devs].
  - eapply Forall_impl; [exact H |]. by intros ? [].
  - constructor.
  - intros j s Hj. right. eapply Forall_lookup_1 in H; [| exact Hj]. apply H.
Qed.

(** A controller that realizes without an error keeps its invariant. *)
Lemma smc_realize_ok short av ver tray media s :
  smbus_smc_realize short av (Some ver) tray media = (s, false) -> smc_ok s.
Proof using Type.
  unfold smbus_smc_realize. cbv zeta.
  set (s0 := if short then _ else _).
  assert (s0 = mkSMC [] 0 0 0 0 0 (scratch_reg s0) 0 [] /\ in_u 8 (scratch_reg s0)) as [E0 H0]
    by (unfold s0; by destruct short).
  clearbody s0. rewrite E0. clear E0.
  assert (forall a r, xbox_smc_avpack_to_reg a = Some r -> in_u 8 r) as Hav.
  { intros a r. unfold xbox_smc_avpack_to_reg. repeat case_match; intros [= <-]; done. }
  assert (Forall (in_u 8) (chars ver)) as Hch.
  { apply Forall_fmap, Forall_forall. intros c _. unfold in_u. cbn.
    pose proof (Ascii.N_ascii_bounded c). lia. }
  destruct av as [a |]; [destruct (xbox_smc_avpack_to_reg a) as [r |] eqn:Ea |]; cbn; try done;
    destruct (Z.eqb_spec (zlen (chars ver)) SMC_VERSION_LENGTH) as [El |]; cbn; try done;
    intros [= <-]; constructor; cbn; destruct tray, media; try done; by eapply Hav.
Qed.

Lemma storage_realize_ok img persists s :
  Forall (in_u 8) img -> smbus_storage_realize (Some img) 256 persists = Some s -> storage_ok s.
Proof using Type.
  intros Hb. unfold smbus_storage_realize. destruct (Z.eqb_spec (zlen img) 256); [| done].
  intros [= <-]. by constructor.
Qed.

(** From power-on, with any machine configuration that the devices accept
    (connector, version string, tray, video encoder, EEPROM file), no sequence of guest
    accesses to the SMBus ports, whatever the addresses, values and order
    (transactions to absent devices, broadcasts, aborts and reserved protocols
    included), makes the controller, a slave or a device access outside its
    arrays: every access returns, the registers stay bytes, the block index
    stays below 32, the devices keep their invariants, and between accesses the
    bus is idle and every slave quiet. *)
Theorem xbox_smbus_ports_safe short av ver tray media smc video img persists eeprom line ops :
  smbus_smc_realize short av (Some ver) tray media = (smc, false) ->
  Forall (in_u 8) img -> smbus_storage_realize (Some img) 256 persists = Some eeprom ->
  exists s, port_run (amd756_smbus_init (xbox_devices smc video eeprom) line) ops = Ok s /\
    ctrl_ok xbox_device_ok s.
Proof using Type.
  intros Hsmc%smc_realize_ok Himg Hst. apply (storage_realize_ok _ _ _ Himg) in Hst.
  apply (port_run_ok xbox_device_ok). split.
  - constructor; cbn; try done. by apply (Forall_replicate (in_u 8) 32).
  - by apply xbox_bus_quiet.
Qed.

(** C33: a transaction with a device of the console. Started on an idle bus with
    a valid protocol and an address at which a device answers, the controller
    performs exactly the device's own calls ([device_call]: the command and data
    bytes written in one piece, the reply bytes read one by one), stores the
    reply in its data registers, reports completion, and leaves the bus idle
    with every other device untouched. Master, bus and slave protocol are
    invisible to the device. *)
Theorem xbox_transaction_refines s kids i sl :
  regs_ok s -> smbus s = idle_bus kids -> valid_protocol s ->
  answers kids (target s) i sl -> target s <> I2C_BROADCAST -> slave_idle sl ->
  xbox_device_ok (dev sl) ->
  exists d bytes s', device_call s (dev sl) = Ok (d, bytes, s') /\ xbox_device_ok d /\
    amd756_smb_transaction s =
      Ok (s' <| smbus := idle_bus (<[i := slave_after sl bytes d]> kids) |>
             <| smb_stat := smb_stat s .| GS_HCYC_STS |>).
Proof using Type. apply (transaction_device_call xbox_device_ok). Qed.

(** ** The EEPROM through the ports

    What a driver does for one byte: the address with its direction bit, the
    command byte, the data, then the protocol with the start bit. *)

Definition guest_write (s : AMD756SMBus xbox_device) (off v : Z) : outcome (AMD756SMBus xbox_device) :=
  port_run s [PortWrite SMB_HOST_ADDRESS 0xA8; PortWrite SMB_HOST_COMMAND off;
              PortWrite SMB_HOST_DATA v; PortWrite SMB_GLOBAL_ENABLE 0x0A].

Definition guest_read (s : AMD756SMBus xbox_device) (off : Z)
    : outcome (AMD756SMBus xbox_device * Z) :=
  s ← port_run s [PortWrite SMB_HOST_ADDRESS 0xA9; PortWrite SMB_HOST_COMMAND off;
                  PortWrite SMB_GLOBAL_ENABLE 0x0A];
  amd756_smb_ioport_readb s SMB_HOST_DATA.

(** The controller is in order and the EEPROM at address 0x54 is [st]. *)
Definition eeprom_at (s : AMD756SMBus xbox_device) (st : SMBusStorageDevice) : Prop :=
  regs_ok s /\ storage_ok st /\
  exists kids i sl, smbus s = idle_bus kids /\ answers kids 0x54 i sl /\ slave_idle sl /\
    dev sl = DevStorage st.

Lemma answers_insert {D} kids addr i (sl sl' : SMBusDevice D) :
  answers kids addr i sl -> i2c_address sl' = i2c_address sl -> answers (<[i := sl']> kids) addr i sl'.
Proof using Type.
  unfold answers. intros H E. apply list_find_Some in H as (H1 & H2 & H3).
  apply list_find_Some. split_and!.
  - apply list_lookup_insert_eq. by eapply lookup_lt_Some.
  - by rewrite E.
  - intros j t Hj Hlt. rewrite list_lookup_insert_ne in Hj by lia. by apply (H3 j).
Qed.

Lemma slave_after_idle {D} (sl : SMBusDevice D) bytes d :
  slave_idle sl -> (length bytes <= 34)%nat -> slave_idle (slave_after sl bytes d).
Proof using Type.
  intros (_ & _ & Hl) Hb. unfold slave_idle, slave_after in *. cbn.
  rewrite length_app, length_drop. split_and!; [done | done | lia].
Qed.

(** The stored byte, and the byte read. *)
Lemma storage_write_byte st off v : storage_ok st -> in_u 8 off -> in_u 8 v ->
  exists st' r, smbus_storage_write_data st [off; v] = Ok (st', r) /\ storage_ok st' /\
    data st' = <[Z.to_nat off := v]> (data st).
Proof using Type.
  intros Hs Ho Hv. pose proof Hs as [Hz Hd Hu _]. unfold smbus_storage_write_data.
  rewrite rd_head, ok_bind. cbv zeta. rewrite skipn_cons, drop_0. cbn [storage_store].
  change (data st <| offset := off |>) with (data st). change (offset st <| offset := off |>) with off.
  unfold in_u in Ho. rewrite wr_ok, !ok_bind by lia.
  match goal with |- context [storage_advance ?s1] =>
    destruct (storage_advance_ok s1) as (s2 & -> & H2 & Ed & _) end.
  { constructor; cbn; [done | by rewrite length_insert | by apply Forall_insert | done]. }
  rewrite !ok_bind. cbn [data set] in Ed.
  assert (storage_ok (s2 <| written := data s2 :: written s2 |>)) by (destruct H2; by constructor).
  repeat case_match; eexists _, _; (split; [reflexivity |]); done.
Qed.

Lemma storage_read_byte st off : storage_ok st -> in_u 8 off ->
  exists st1 st2, smbus_storage_write_data st [off] = Ok (st1, 0) /\
    smbus_storage_receive_byte st1 = Ok (st2, nthZ (data st) off) /\ storage_ok st2 /\
    data st2 = data st.
Proof using Type.
  intros Hs Ho. pose proof Hs as [Hz Hd Hu _]. unfold smbus_storage_write_data.
  rewrite rd_head, ok_bind. cbv zeta. rewrite skipn_cons, drop_0. cbn [storage_store].
  rewrite ok_bind. cbn [andb].
  destruct (storage_advance_ok (st <| offset := off |>)) as (s2 & E & H2 & Ed & _).
  { by constructor. }
  exists (st <| offset := off |>), s2. split; [reflexivity |].
  unfold smbus_storage_receive_byte. change (data st <| offset := off |>) with (data st).
  change (offset st <| offset := off |>) with off. unfold in_u in Ho.
  rewrite rd_nthZ, ok_bind, E, ok_bind by lia. done.
Qed.

(** The registers a driver sets before it starts a byte transaction. *)
Definition prepared (s : AMD756SMBus xbox_device) (addr off v : Z) : AMD756SMBus xbox_device :=
  s <| smb_addr := addr |> <| smb_cmd := off |> <| smb_data0 := v |> <| smb_ctl := 0x0A |>.

Lemma prepared_ok s addr off v : regs_ok s -> in_u 8 addr -> in_u 8 off -> in_u 8 v ->
  regs_ok (prepared s addr off v).
Proof using Type. intros [] Ha Ho Hv. by constructor. Qed.

Lemma prepared_valid s addr off v : valid_protocol (prepared s addr off v).
Proof using Type.
  unfold valid_protocol. change (smb_ctl (prepared s addr off v) .& GE_CYC_TYPE_MASK) with AMD756_BYTE_DATA.
  rewrite !elem_of_cons. auto.
Qed.

Lemma start_byte s : smb_ctl s = 0x0A ->
  (amd756_smb_ioport_writeb s SMB_GLOBAL_ENABLE 0x0A) = amd756_smb_transaction s.
Proof using Type.
  intros E. unfold amd756_smb_ioport_writeb.
  change (SMB_GLOBAL_ENABLE .& 0x3f) with 2. cbn [Z.eqb Pos.eqb].
  change (flag 0x0A GE_ABORT) with false. change (flag 0x0A GE_HOST_STC) with true.
  change (flag 0x0A GE_HCYC_EN) with false. cbv iota zeta. cbn [andb].
  replace (s <| smb_ctl := u8 0x0A |>) with s by (destruct s; cbn in *; by subst).
  by destruct (amd756_smb_transaction s).
Qed.

Lemma guest_write_eq s off v : in_u 8 off -> in_u 8 v ->
  guest_write s off v = amd756_smb_transaction (prepared s 0xA8 off v).
Proof using Type.
  intros Ho Hv. unfold guest_write. cbn [port_run port_step].
  rewrite <- (start_byte (prepared s 0xA8 off v)) by done.
  change (amd756_smb_ioport_writeb s SMB_HOST_ADDRESS 0xA8) with (Ok (s <| smb_addr := 0xA8 |>)).
  rewrite ok_bind.
  change (amd756_smb_ioport_writeb (s <| smb_addr := 0xA8 |>) SMB_HOST_COMMAND off)
    with (Ok (s <| smb_addr := 0xA8 |> <| smb_cmd := u8 off |>)). rewrite ok_bind.
  change (amd756_smb_ioport_writeb (s <| smb_addr := 0xA8 |> <| smb_cmd := u8 off |>) SMB_HOST_DATA v)
    with (Ok (s <| smb_addr := 0xA8 |> <| smb_cmd := u8 off |> <| smb_data0 := u8 v |>)). rewrite ok_bind.
  rewrite (in_u_small 8 off Ho), (in_u_small 8 v Hv).
  change (amd756_smb_ioport_writeb (s <| smb_addr := 0xA8 |> <| smb_cmd := off |> <| smb_data0 := v |>)
            SMB_GLOBAL_ENABLE 0x0A)
    with (amd756_smb_ioport_writeb (prepared s 0xA8 off v) SMB_GLOBAL_ENABLE 0x0A).
  by destruct (amd756_smb_ioport_writeb (prepared s 0xA8 off v) SMB_GLOBAL_ENABLE 0x0A).
Qed.

Lemma guest_read_eq s off : in_u 8 off ->
  guest_read s off = s' ← amd756_smb_transaction (prepared s 0xA9 off (smb_data0 s));
                     Ok (s', smb_data0 s').
Proof using Type.
  intros Ho. unfold guest_read. cbn [port_run port_step].
  rewrite <- (start_byte (prepared s 0xA9 off (smb_data0 s))) by done.
  change (amd756_smb_ioport_writeb s SMB_HOST_ADDRESS 0xA9) with (Ok (s <| smb_addr := 0xA9 |>)).
  rewrite ok_bind.
  change (amd756_smb_ioport_writeb (s <| smb_addr := 0xA9 |>) SMB_HOST_COMMAND off)
    with (Ok (s <| smb_addr := 0xA9 |> <| smb_cmd := u8 off |>)). rewrite ok_bind.
  rewrite (in_u_small 8 off Ho).
  change (amd756_smb_ioport_writeb (s <| smb_addr := 0xA9 |> <| smb_cmd := off |>) SMB_GLOBAL_ENABLE 0x0A)
    with (amd756_smb_ioport_writeb (prepared s 0xA9 off (smb_data0 s)) SMB_GLOBAL_ENABLE 0x0A).
  by destruct (amd756_smb_ioport_writeb (prepared s 0xA9 off (smb_data0 s)) SMB_GLOBAL_ENABLE 0x0A).
Qed.

Lemma regs_after (s : AMD756SMBus xbox_device) v bus stat :
  regs_ok s -> in_u 8 v -> in_u 8 stat ->
  regs_ok (s <| smb_data0 := v |> <| smbus := bus |> <| smb_stat := stat |>).
Proof using Type. intros [] Hv Hs. by constructor. Qed.

Lemma hcyc_ok (s : AMD756SMBus xbox_device) : regs_ok s -> in_u 8 (smb_stat s .| GS_HCYC_STS).
Proof using Type. intros []. apply in_u_lor; [lia | done | by vm_compute]. Qed.

Lemma guest_write_ok s st off v : eeprom_at s st -> in_u 8 off -> in_u 8 v ->
  exists s' st', guest_write s off v = Ok s' /\ eeprom_at s' st' /\
    data st' = <[Z.to_nat off := v]> (data st).
Proof using Type.
  intros (Hr & Hst & kids & i & sl & Hbus & Hans & Hid & Hdev) Ho Hv.
  rewrite guest_write_eq by done. set (p := prepared s 0xA8 off v).
  assert (regs_ok p) as Hp by (by apply prepared_ok).
  destruct (transaction_device_call xbox_device_ok p kids i sl) as (d & bytes & s' & E & Hd & ->);
    [done | done | apply prepared_valid | done | done | done | by rewrite Hdev |].
  revert E. rewrite Hdev.
  change (device_call p (DevStorage st)) with
    (d ← dev_write (DevStorage st) [off; v]; Ok (d, [off; v], p)).
  destruct (storage_write_byte st off v Hst Ho Hv) as (st' & r & Ew & Hst' & Hdata).
  unfold dev_write. cbn [write_data xbox_device_class]. rewrite Ew. cbn. intros [= <- <- <-].
  eexists _, st'. split; [reflexivity |]. split; [| done]. split; [| split; [done |]].
  - apply (regs_after p v); [done | done | by apply hcyc_ok].
  - eexists _, i, _. split; [reflexivity |]. split; [by eapply answers_insert |].
    split; [by apply slave_after_idle; [| cbn; lia] | done].
Qed.

Lemma guest_read_ok s st off : eeprom_at s st -> in_u 8 off ->
  exists s' st', guest_read s off = Ok (s', nthZ (data st) off) /\ eeprom_at s' st' /\
    data st' = data st.
Proof using Type.
  intros (Hr & Hst & kids & i & sl & Hbus & Hans & Hid & Hdev) Ho.
  rewrite guest_read_eq by done. set (p := prepared s 0xA9 off (smb_data0 s)).
  assert (regs_ok p) as Hp by (apply prepared_ok; try done; apply Hr).
  destruct (transaction_device_call xbox_device_ok p kids i sl) as (d & bytes & s' & E & Hd & ->);
    [done | done | apply prepared_valid | done | done | done | by rewrite Hdev |].
  revert E. rewrite Hdev.
  change (device_call p (DevStorage st)) with
    (d ← dev_write (DevStorage st) [off]; '(d, v) ← dev_read d; Ok (d, [off], p <| smb_data0 := v |>)).
  destruct (storage_read_byte st off Hst Ho) as (st1 & st2 & Ew & Er & Hst' & Hdata).
  unfold dev_write, dev_read. cbn [write_data receive_byte xbox_device_class]. rewrite Ew.
  cbn [wrap mbind outcome_bind]. rewrite Er. cbn. intros [= <- <- <-].
  eexists _, st2. split; [reflexivity |]. split; [| done]. split; [| split; [done |]].
  - apply (regs_after p (nthZ (data st) off) (idle_bus (<[i := slave_after sl [off] (DevStorage st2)]> kids)));
      [done | | by apply hcyc_ok].
    destruct Hst. apply nthZ_Forall; [done | unfold in_u in Ho; lia].
  - eexists _, i, _. split; [reflexivity |]. split; [by eapply answers_insert |].
    split; [by apply slave_after_idle; [| cbn; lia] | done].
Qed.

(** C4: the EEPROM is a memory through the controller's ports. Whatever the
    console's other devices, writing byte [v] at [off] with the port accesses of
    a driver and then reading [off'] with them returns [v] when the offsets agree
    and the byte that was there before otherwise. *)
Theorem eeprom_ports_roundtrip s st off v off' :
  eeprom_at s st -> in_u 8 off -> in_u 8 v -> in_u 8 off' ->
  exists s1 s2, guest_write s off v = Ok s1 /\
    guest_read s1 off' = Ok (s2, if off' =? off then v else nthZ (data st) off').
Proof using Type.
  intros Hat Ho Hv Ho'. destruct (guest_write_ok s st off v Hat Ho Hv) as (s1 & st1 & -> & Hat1 & Ed).
  destruct (guest_read_ok s1 st1 off' Hat1 Ho') as (s2 & st2 & E & _). exists s1, s2.
  split; [done |]. rewrite E, Ed. destruct Hat as (_ & [] & _).
  rewrite nthZ_insert; [done |]. unfold in_u in Ho. lia.
Qed.

End Devices.

(** ** A console *)

(** A host whose files open and take what is written. *)
#[local] Instance plain_host : StorageHost := { host_open := true; host_write d := zlen d }.

Definition sample_smc : SMBusSMCDevice :=
  fst (smbus_smc_realize true (Some "hdtv"%string) (Some "P01"%string) false true).

Definition sample_eeprom : SMBusStorageDevice := mkStorage true (seqZ 0 256) 256 0 true [].

Definition sample_console : AMD756SMBus xbox_device :=
  amd756_smbus_init (xbox_devices sample_smc "conexant" sample_eeprom) (Some false).

Lemma bytes_seqZ : Forall (in_u 8) (seqZ 0 256).
Proof. apply Forall_forall. intros x Hx%elem_of_seqZ. unfold in_u. lia. Qed.

Lemma sample_eeprom_ok : storage_ok sample_eeprom.
Proof. constructor; [done | done | exact bytes_seqZ | done]. Qed.

Lemma sample_regs_ok : regs_ok sample_console.
Proof. constructor; try done. by apply (Forall_replicate (in_u 8) 32). Qed.

(** A broadcast, a reserved protocol, a block access and a read of the status. *)
Lemma xbox_smbus_ports_safe_witness :
  exists s, port_run sample_console
    [PortWrite 4 1; PortWrite 2 0x0D; PortWrite 2 0x0E; PortWrite 9 0x55; PortRead 9; PortRead 0] = Ok s /\
    ctrl_ok xbox_device_ok s.
Proof.
  apply (xbox_smbus_ports_safe true (Some "hdtv"%string) "P01" false true sample_smc "conexant"
           (seqZ 0 256) true sample_eeprom (Some false)).
  - vm_compute. reflexivity.
  - exact bytes_seqZ.
  - vm_compute. reflexivity.
Defined.

(** Reading two bytes of the temperature sensor. *)
Lemma xbox_transaction_refines_witness :
  let s := sample_console <| smb_addr := 0x99 |> <| smb_ctl := 0x0B |> <| smb_cmd := 1 |> in
  exists s', amd756_smb_transaction s = Ok s' /\ smb_data0 s' = 50 /\ smb_data1 s' = 0 /\
    smb_stat s' = GS_HCYC_STS.
Proof.
  intros s.
  destruct (xbox_transaction_refines s (xbox_devices sample_smc "conexant" sample_eeprom) 2
              (new_slave 0x4C (DevADM1032 0))) as (d & bytes & s' & E1 & _ & E2).
  - destruct sample_regs_ok. by constructor.
  - reflexivity.
  - unfold valid_protocol. change (smb_ctl s .& GE_CYC_TYPE_MASK) with AMD756_WORD_DATA.
    rewrite !elem_of_cons. auto.
  - reflexivity.
  - discriminate.
  - repeat split.
  - vm_compute. split; [discriminate | reflexivity].
  - vm_compute in E1. injection E1 as <- <- <-. eexists. split; [exact E2 |].
    repeat split.
Defined.

Lemma eeprom_ports_roundtrip_witness :
  exists s1 s2, guest_write sample_console 0xFF 0x42 = Ok s1 /\ guest_read s1 0xFF = Ok (s2, 0x42).
Proof.
  apply (eeprom_ports_roundtrip sample_console sample_eeprom 0xFF 0x42 0xFF).
  - split; [exact sample_regs_ok |]. split; [exact sample_eeprom_ok |].
    exists (xbox_devices sample_smc "conexant" sample_eeprom), 3%nat, (new_slave 0x54 (DevStorage sample_eeprom)).
    repeat split.
  - done.
  - done.
  - done.
Defined.

(** No device answers at 0x20. *)
Lemma smb_absent_device_witness :
  let s := sample_console <| smb_addr := 0x41 |> <| smb_ctl := 0x0A |> in
  amd756_smb_transaction s = Ok (s <| smb_stat := 4 |>).
Proof.
  intros s.
  exact (smb_absent_device s (xbox_devices sample_smc "conexant" sample_eeprom)
           eq_refl ltac:(discriminate) eq_refl).
Defined.

(** The offset of the EEPROM comes from the command byte without a check: with
    a [size] below 256, which the property allows, a write goes outside. *)
Example storage_offset_unchecked :
  smbus_storage_write_data (mkStorage true (replicate 128 0) 128 0 true []) [200; 1] = Undef.
Proof. vm_compute. reflexivity. Qed.
