(* ===== verification/S3tc.v ===== *)
(** * Decompression of S3TC textures (pgraph/s3tc.c)

    The three block formats, the placement of a block's texels and the loops over
    the blocks of an image and of a volume. The output array starts with the
    arbitrary contents of a fresh allocation. The theorems show that every pixel
    of the output is the texel of its block, that nothing is written outside and
    that nothing of the initial contents survives, for every size, multiples of
    four or not; and that the block colours are the interpolated palette. *)

From stdpp Require Import base numbers list.
From Stdlib Require Import ZArith Lia.
From S2P Require Import Prelude.

Inductive S3TC_DECOMPRESS_FORMAT :=
| S3TC_DECOMPRESS_FORMAT_DXT1
| S3TC_DECOMPRESS_FORMAT_DXT3
| S3TC_DECOMPRESS_FORMAT_DXT5.

(** The arrays r, g, b and a of a block. *)
Record bc_colors := Colors {
  cr : list Z;
  cg : list Z;
  cb : list Z;
  ca : list Z
}.

Definition decode_bc1_colors (c0 c1 : Z) (transparent : bool) : bc_colors :=
  let r0 := u8 (((c0 .& 0xF800) ≫ 8) * 0xFF / 0xF8) in
  let g0 := u8 (((c0 .& 0x07E0) ≫ 3) * 0xFF / 0xFC) in
  let b0 := u8 (((c0 .& 0x001F) ≪ 3) * 0xFF / 0xF8) in
  let r1 := u8 (((c1 .& 0xF800) ≫ 8) * 0xFF / 0xF8) in
  let g1 := u8 (((c1 .& 0x07E0) ≫ 3) * 0xFF / 0xFC) in
  let b1 := u8 (((c1 .& 0x001F) ≪ 3) * 0xFF / 0xF8) in
  if transparent then
    Colors [r0; r1; u8 ((r0 + r1) / 2); 0] [g0; g1; u8 ((g0 + g1) / 2); 0]
      [b0; b1; u8 ((b0 + b1) / 2); 0] [255; 255; 255; 0]
  else
    Colors [r0; r1; u8 ((2 * r0 + r1) / 3); u8 ((r0 + 2 * r1) / 3)]
      [g0; g1; u8 ((2 * g0 + g1) / 3); u8 ((g0 + 2 * g1) / 3)]
      [b0; b1; u8 ((2 * b0 + b1) / 3); u8 ((b0 + 2 * b1) / 3)] [255; 255; 255; 255].

(** The body of the inner loop: the texel [xy_index] of the block to the pixel
    at [pos]. *)
Definition write_texel (indices : Z) (cs : bc_colors) (separate_alpha : bool) (xy_index pos : Z)
    (conv : list Z) : outcome (list Z) :=
  let index := u8 ((indices ≫ (2 * xy_index)) .& 0x03) in
  let alpha_index := if separate_alpha then u8 xy_index else index in
  r ← rd (cr cs) index;
  g ← rd (cg cs) index;
  b ← rd (cb cs) index;
  a ← rd (ca cs) alpha_index;
  blit conv (pos * 4) [r; g; b; a].

Definition write_block_to_texture (conv : list Z) (indices i j width height z_pos_factor : Z)
    (cs : bc_colors) (separate_alpha : bool) : outcome (list Z) :=
  let x0 := i * 4 in let y0 := j * 4 in
  let x1 := x0 + 4 in let y1 := y0 + 4 in
  mfor (seqZ y0 (Z.min y1 height - y0)) (fun y conv =>
    let y_index := 4 * (y - y0) in
    let z_plus_y_pos_factor := z_pos_factor + y * width in
    mfor (seqZ x0 (Z.min x1 width - x0)) (fun x conv =>
      write_texel indices cs separate_alpha (y_index + x - x0) (z_plus_y_pos_factor + x) conv)
    conv) conv.

(** A little-endian field of a block. *)
Definition field (block : list Z) (at_ n : Z) : outcome Z := le_val <$> slice block at_ n.

Definition decompress_dxt1_block (block conv : list Z) (i j width height z_pos_factor : Z)
    : outcome (list Z) :=
  c0 ← field block 0 2;
  c1 ← field block 2 2;
  let cs := decode_bc1_colors c0 c1 (c0 <=? c1) in
  indices ← field block 4 4;
  write_block_to_texture conv indices i j width height z_pos_factor cs false.

(** The sixteen explicit alpha values. *)
Definition dxt3_alpha (alpha : Z) : list Z :=
  (fun a_i => u8 ((((alpha ≫ (4 * a_i)) .& 0x0F) ≪ 4) * 0xFF / 0xF0)) <$> seqZ 0 16.

Definition decompress_dxt3_block (block conv : list Z) (i j width height z_pos_factor : Z)
    : outcome (list Z) :=
  c0 ← field block 8 2;
  c1 ← field block 10 2;
  let cs := decode_bc1_colors c0 c1 false in
  alpha ← field block 0 8;
  let cs := Colors (cr cs) (cg cs) (cb cs) (dxt3_alpha alpha) in
  indices ← field block 12 4;
  write_block_to_texture conv indices i j width height z_pos_factor cs true.

Definition dxt5_palette (a0 a1 : Z) : list Z :=
  if a0 >? a1 then
    [a0; a1; u8 ((6 * a0 + 1 * a1) / 7); u8 ((5 * a0 + 2 * a1) / 7); u8 ((4 * a0 + 3 * a1) / 7);
     u8 ((3 * a0 + 4 * a1) / 7); u8 ((2 * a0 + 5 * a1) / 7); u8 ((1 * a0 + 6 * a1) / 7)]
  else
    [a0; a1; u8 ((4 * a0 + 1 * a1) / 5); u8 ((3 * a0 + 2 * a1) / 5); u8 ((2 * a0 + 3 * a1) / 5);
     u8 ((1 * a0 + 4 * a1) / 5); 0; 255].

(** The sixteen alpha values taken from the palette. *)
Fixpoint dxt5_alpha (n : nat) (a_i alpha : Z) (palette : list Z) : outcome (list Z) :=
  match n with
  | O => Ok []
  | S n =>
      v ← rd palette ((alpha ≫ (16 + 3 * a_i)) .& 0x07);
      rest ← dxt5_alpha n (a_i + 1) alpha palette;
      Ok (v :: rest)
  end.

Definition decompress_dxt5_block (block conv : list Z) (i j width height z_pos_factor : Z)
    : outcome (list Z) :=
  c0 ← field block 8 2;
  c1 ← field block 10 2;
  let cs := decode_bc1_colors c0 c1 false in
  alpha ← field block 0 8;
  a0 ← rd block 0;
  a1 ← rd block 1;
  a ← dxt5_alpha 16 0 alpha (dxt5_palette a0 a1);
  let cs := Colors (cr cs) (cg cs) (cb cs) a in
  indices ← field block 12 4;
  write_block_to_texture conv indices i j width height z_pos_factor cs true.

(** The choice of the format, on block number [n] of the data. *)
Definition decompress_block (fmt : S3TC_DECOMPRESS_FORMAT) (data : list Z) (n : Z)
    (conv : list Z) (i j width height z_pos_factor : Z) : outcome (list Z) :=
  match fmt with
  | S3TC_DECOMPRESS_FORMAT_DXT1 =>
      block ← slice data (8 * n) 8;
      decompress_dxt1_block block conv i j width height z_pos_factor
  | S3TC_DECOMPRESS_FORMAT_DXT3 =>
      block ← slice data (16 * n) 16;
      decompress_dxt3_block block conv i j width height z_pos_factor
  | S3TC_DECOMPRESS_FORMAT_DXT5 =>
      block ← slice data (16 * n) 16;
      decompress_dxt5_block block conv i j width height z_pos_factor
  end.

(** [(v + 3) & ~3] in 32 bits. *)
Definition physical_size (v : Z) : Z := u32 (v + 3) .& u32 (Z.lnot 3).

(** [fresh n] are the [n] bytes that the allocator returns. *)
Definition s3tc_decompress_3d (fresh : Z -> list Z) (fmt : S3TC_DECOMPRESS_FORMAT) (data : list Z)
    (width height depth : Z) : outcome (list Z) :=
  c_assert (width >? 0);; c_assert (height >? 0);; c_assert (depth >? 0);;
  let num_blocks_x := physical_size width / 4 in
  let num_blocks_y := physical_size height / 4 in
  let num_blocks_z := u32 (depth + 3) / 4 in
  let conv := fresh (u32 (width * height * depth * 4)) in
  '(conv, _, _) ←
    mfor (seqZ 0 num_blocks_z) (fun k '(conv, cur_depth, sub_block_index) =>
      let residual_depth := depth - cur_depth in
      let block_depth := Z.min residual_depth 4 in
      '(conv, sub_block_index) ←
        mfor (seqZ 0 num_blocks_y) (fun j st =>
          mfor (seqZ 0 num_blocks_x) (fun i st =>
            mfor (seqZ 0 block_depth) (fun slice '(conv, sub_block_index) =>
              let z_pos_factor := (cur_depth + slice) * width * height in
              conv ← decompress_block fmt data sub_block_index conv i j width height z_pos_factor;
              Ok (conv, sub_block_index + 1)) st) st) (conv, sub_block_index);
      Ok (conv, cur_depth + block_depth, sub_block_index))
    (conv, 0, 0);
  Ok conv.

Definition s3tc_decompress_2d (fresh : Z -> list Z) (fmt : S3TC_DECOMPRESS_FORMAT) (data : list Z)
    (width height : Z) : outcome (list Z) :=
  c_assert (width >? 0);; c_assert (height >? 0);;
  let num_blocks_x := physical_size width / 4 in
  let num_blocks_y := physical_size height / 4 in
  let conv := fresh (u32 (width * height * 4)) in
  mfor (seqZ 0 num_blocks_y) (fun j conv =>
    mfor (seqZ 0 num_blocks_x) (fun i conv =>
      let block_index := j * num_blocks_x + i in
      decompress_block fmt data block_index conv i j width height 0) conv) conv.

(** ** The formats

    A block as the format defines it: two 5:6:5 colours with two interpolated
    between them, two bits per texel, and the alpha of each format. *)

Module Format.

Definition red (c : Z) : Z := (c / 2 ^ 11) mod 32 * 255 / 31.
Definition green (c : Z) : Z := (c / 2 ^ 5) mod 64 * 255 / 63.
Definition blue (c : Z) : Z := c mod 32 * 255 / 31.

(** Entry [k] of the palette of one channel, between [p] and [q]. *)
Definition channel (transparent : bool) (p q k : Z) : Z :=
  if k =? 0 then p else if k =? 1 then q
  else if k =? 2 then (if transparent then (p + q) / 2 else (2 * p + q) / 3)
  else if transparent then 0 else (p + 2 * q) / 3.

Definition rgb (transparent : bool) (c0 c1 k : Z) : list Z :=
  [channel transparent (red c0) (red c1) k; channel transparent (green c0) (green c1) k;
   channel transparent (blue c0) (blue c1) k].

(** The [n] bytes from [at_] as a number. *)
Definition num (block : list Z) (at_ n : nat) : Z := le_val (take n (drop at_ block)).

(** Field [t] of width [w] bits. *)
Definition bits (w v t : Z) : Z := (v / 2 ^ (w * t)) mod 2 ^ w.

(** Entry [k] of the alpha palette of DXT5. *)
Definition alpha5 (a0 a1 k : Z) : Z :=
  if k =? 0 then a0 else if k =? 1 then a1
  else if a0 >? a1 then ((8 - k) * a0 + (k - 1) * a1) / 7
  else if k =? 6 then 0 else if k =? 7 then 255
  else ((6 - k) * a0 + (k - 1) * a1) / 5.

(** Texel [t] of a block, row by row, as red, green, blue and alpha. *)
Definition texel (fmt : S3TC_DECOMPRESS_FORMAT) (block : list Z) (t : Z) : list Z :=
  match fmt with
  | S3TC_DECOMPRESS_FORMAT_DXT1 =>
      let c0 := num block 0 2 in let c1 := num block 2 2 in
      let k := bits 2 (num block 4 4) t in
      rgb (c0 <=? c1) c0 c1 k ++ [if (c0 <=? c1) && (k =? 3) then 0 else 255]
  | S3TC_DECOMPRESS_FORMAT_DXT3 =>
      rgb false (num block 8 2) (num block 10 2) (bits 2 (num block 12 4) t)
      ++ [bits 4 (num block 0 8) t * 255 / 15]
  | S3TC_DECOMPRESS_FORMAT_DXT5 =>
      rgb false (num block 8 2) (num block 10 2) (bits 2 (num block 12 4) t)
      ++ [alpha5 (num block 0 1) (num block 1 1) (bits 3 (num block 2 6) t)]
  end.

Definition block_size (fmt : S3TC_DECOMPRESS_FORMAT) : Z :=
  match fmt with S3TC_DECOMPRESS_FORMAT_DXT1 => 8 | _ => 16 end.

(** Block [n] of the data. *)
Definition block (fmt : S3TC_DECOMPRESS_FORMAT) (data : list Z) (n : Z) : list Z :=
  take (Z.to_nat (block_size fmt)) (drop (Z.to_nat (block_size fmt * n)) data).

(** The number of the block of a pixel: row by row in an image; in a volume slab
    by slab of four slices, the last one thinner, and slice by slice at each
    place of a slab. *)
Definition block_no_2d (w x y : Z) : Z := y / 4 * ((w + 3) / 4) + x / 4.

Definition block_no_3d (w h d x y z : Z) : Z :=
  let k := z / 4 in
  let slab := Z.min (d - 4 * k) 4 in
  4 * k * ((w + 3) / 4 * ((h + 3) / 4)) + block_no_2d w x y * slab + z mod 4.

End Format.

(** ** Pixels of the output *)

Definition px (conv : list Z) (p : Z) : list Z :=
  [nthZ conv (4 * p); nthZ conv (4 * p + 1); nthZ conv (4 * p + 2); nthZ conv (4 * p + 3)].

(** The texel that the code writes. *)
Definition pixel (indices : Z) (cs : bc_colors) (separate_alpha : bool) (t : Z) : list Z :=
  let index := (indices ≫ (2 * t)) .& 3 in
  [nthZ (cr cs) index; nthZ (cg cs) index; nthZ (cb cs) index;
   nthZ (ca cs) (if separate_alpha then t else index)].

(** Tables that every index stays in. *)
Definition tables_ok (cs : bc_colors) (separate_alpha : bool) : Prop :=
  length (cr cs) = 4%nat /\ length (cg cs) = 4%nat /\ length (cb cs) = 4%nat /\
  length (ca cs) = (if separate_alpha then 16 else 4)%nat.

Lemma land3 z : 0 <= z .& 3 < 4.
Proof. change 3 with (Z.ones 2). rewrite Z.land_ones by lia. apply Z.mod_pos_bound. lia. Qed.

Lemma write_texel_spec indices cs sep t pos conv :
  tables_ok cs sep -> 0 <= t < 16 -> 0 <= pos -> 4 * pos + 4 <= zlen conv ->
  exists conv', write_texel indices cs sep t pos conv = Ok conv' /\ length conv' = length conv /\
    forall p, px conv' p = if p =? pos then pixel indices cs sep t else px conv p.
Proof.
  intros (Hr & Hg & Hb & Ha) Ht Hpos Hl. unfold write_texel. pose proof (land3 (indices ≫ (2 * t))) as H3.
  rewrite (Z.mod_small (_ .& 3)) by lia. rewrite (Z.mod_small t) by lia.
  rewrite !rd_nthZ by (destruct sep; lia). rewrite !ok_bind.
  set (l := [_; _; _; _]).
  destruct (blit conv (pos * 4) l) as [conv' | | |] eqn:E; try (rewrite blit_ok in E by (cbn; lia); done).
  exists conv'. split; [done |]. split; [by erewrite blit_length |].
  intros p. unfold px. rewrite !(nthZ_blit _ _ _ _ _ E). change (zlen l) with 4.
  destruct (Z.eqb_spec p pos) as [-> | Hne].
  - repeat match goal with |- context [?a <=? ?b] => rewrite (proj2 (Z.leb_le a b)) by lia end.
    repeat match goal with |- context [?a <? ?b] => rewrite (proj2 (Z.ltb_lt a b)) by lia end.
    cbn [andb]. unfold pixel.
    replace (4 * pos - pos * 4) with 0 by lia. replace (4 * pos + 1 - pos * 4) with 1 by lia.
    replace (4 * pos + 2 - pos * 4) with 2 by lia. replace (4 * pos + 3 - pos * 4) with 3 by lia.
    by destruct sep.
  - repeat match goal with |- context [(pos * 4 <=? ?b) && (?b <? ?c)] =>
      replace ((pos * 4 <=? b) && (b <? c)) with false
        by (destruct (Z.leb_spec (pos * 4) b), (Z.ltb_spec b c); cbn; lia) end.
    done.
Qed.

Section Volume.
Context (w h d : Z) (Hw : 0 < w) (Hh : 0 < h) (Hd : 0 < d).

(** The coordinates of a pixel and its number in the output. *)
Definition inside (x y z : Z) : Prop := 0 <= x < w /\ 0 <= y < h /\ 0 <= z < d.
Definition idx (x y z : Z) : Z := z * w * h + y * w + x.

Lemma idx_range x y z : inside x y z -> 0 <= idx x y z < w * h * d.
Proof using Hw Hh.
  unfold inside, idx. intros H. assert (0 <= z * h + y <= h * d - 1) by nia.
  replace (z * w * h + y * w + x) with ((z * h + y) * w + x) by lia. nia.
Qed.

Lemma idx_inj x y z x' y' z' :
  inside x y z -> inside x' y' z' -> idx x y z = idx x' y' z' -> x = x' /\ y = y' /\ z = z'.
Proof using Hw Hh.
  unfold inside, idx. intros H H' E.
  assert (z * h + y = z' * h + y' /\ x = x') as [E1 ->].
  { apply (Z.div_mod_unique w); [left; lia | left; lia |]. rewrite !Z.mul_add_distr_l. lia. }
  assert (z = z' /\ y = y') as [-> ->]; [| done].
  apply (Z.div_mod_unique h); [left; lia | left; lia | lia].
Qed.

(** [conv'] is [conv] with the pixels in [R] replaced by [f]. *)
Definition repainted (conv conv' : list Z) (R : Z -> Z -> Z -> bool) (f : Z -> Z -> Z -> list Z) : Prop :=
  length conv' = length conv /\
  forall x y z, inside x y z ->
    px conv' (idx x y z) = if R x y z then f x y z else px conv (idx x y z).

Lemma repainted_refl conv f : repainted conv conv (fun _ _ _ => false) f.
Proof using Type. done. Qed.

(** Repaint another region on top, with the same function. *)
Lemma repainted_step c0 c1 c2 R1 R2 R f :
  repainted c0 c1 R1 f -> repainted c1 c2 R2 f ->
  (forall x y z, inside x y z -> R x y z = R2 x y z || R1 x y z) ->
  repainted c0 c2 R f.
Proof using Type.
  intros [L1 H1] [L2 H2] HR. split; [congruence |]. intros x y z Hi.
  rewrite H2, HR by done. destruct (R2 x y z); cbn; [done |]. by rewrite H1.
Qed.

Lemma repainted_ext c0 c1 R f R' f' :
  repainted c0 c1 R f ->
  (forall x y z, inside x y z -> R' x y z = R x y z /\ (R x y z = true -> f' x y z = f x y z)) ->
  repainted c0 c1 R' f'.
Proof using Type.
  intros [L H] HR. split; [done |]. intros x y z Hi. destruct (HR x y z Hi) as [-> Hf].
  rewrite H by done. destruct (R x y z); [by rewrite Hf | done].
Qed.

(** A texel of the block at column [i], row [j], slice [z]. *)
Definition in_block (i j z x y z' : Z) : bool := (z' =? z) && (y / 4 =? j) && (x / 4 =? i).

Definition texel_no (x y : Z) : Z := 4 * (y mod 4) + x mod 4.

Lemma write_block_texels conv indices i j z cs sep :
  tables_ok cs sep -> zlen conv = w * h * d * 4 -> 0 <= i -> 0 <= j -> 0 <= z < d ->
  exists conv', write_block_to_texture conv indices i j w h (z * w * h) cs sep = Ok conv' /\
    repainted conv conv' (in_block i j z) (fun x y _ => pixel indices cs sep (texel_no x y)).
Proof using Hw Hh Hd.
  intros Ht Hl Hi Hj Hz. unfold write_block_to_texture.
  set (f := fun x y (_ : Z) => pixel indices cs sep (texel_no x y)).
  destruct (mfor_seqZ (fun y c => repainted conv c
      (fun x' y' z' => (z' =? z) && (j * 4 <=? y') && (y' <? y) && (x' / 4 =? i)) f)
      (j * 4) (Z.min (j * 4 + 4) h - j * 4) (fun y conv =>
        mfor (seqZ (i * 4) (Z.min (i * 4 + 4) w - i * 4)) (fun x conv =>
          write_texel indices cs sep (4 * (y - j * 4) + x - i * 4) (z * w * h + y * w + x) conv) conv) conv)
    as (c1 & E & H1).
  - eapply repainted_ext; [apply (repainted_refl conv f) |]. intros x' y' z' _. split; [| done].
    destruct (Z.leb_spec (j * 4) y'), (Z.ltb_spec y' (j * 4)); try lia; by rewrite ?andb_false_r.
  - intros y c Hy Hc.
    destruct (mfor_seqZ (fun x c' => repainted c c'
        (fun x' y' z' => (z' =? z) && (y' =? y) && (i * 4 <=? x') && (x' <? x)) f)
        (i * 4) (Z.min (i * 4 + 4) w - i * 4) (fun x conv =>
          write_texel indices cs sep (4 * (y - j * 4) + x - i * 4) (z * w * h + y * w + x) conv) c)
      as (c2 & E2 & H2).
    + eapply repainted_ext; [apply (repainted_refl c f) |]. intros x' y' z' _. split; [| done].
      destruct (Z.leb_spec (i * 4) x'), (Z.ltb_spec x' (i * 4)); try lia; by rewrite ?andb_false_r.
    + intros x c' Hx [L' H'].
      assert (inside x y z) as Hin by (unfold inside; lia).
      pose proof (idx_range x y z Hin).
      destruct (write_texel_spec indices cs sep (4 * (y - j * 4) + x - i * 4) (idx x y z) c')
        as (c3 & E3 & L3 & H3); [done | lia | lia | destruct Hc; lia |].
      exists c3. split; [exact E3 |].
      eapply (repainted_step c c' c3 _ (fun x' y' z' => (z' =? z) && (y' =? y) && (x' =? x)));
        [split; [exact L' | exact H'] | split; [done |] |].
      * intros x' y' z' Hin'. rewrite H3.
        destruct (Z.eqb_spec (idx x' y' z') (idx x y z)) as [Ei | Ei].
        -- destruct (idx_inj _ _ _ _ _ _ Hin' Hin Ei) as (-> & -> & ->). rewrite !Z.eqb_refl. cbn.
           unfold f, texel_no. f_equal.
           rewrite <- (Z.mod_unique_pos y 4 j (y - j * 4)), <- (Z.mod_unique_pos x 4 i (x - i * 4)) by lia. lia.
        -- destruct (Z.eqb_spec z' z), (Z.eqb_spec y' y), (Z.eqb_spec x' x); subst; done.
      * intros x' y' z' _. by zcases.
    + exists c2. split; [done |]. eapply repainted_step; [exact Hc | exact H2 |].
      intros x' y' z' Hin. unfold inside in Hin. pose proof (Z.div_mod x' 4). pose proof (Z.mod_pos_bound x' 4). by zcases.
  - exists c1. split; [exact E |]. eapply repainted_ext; [exact H1 |]. intros x y z' Hin.
    split; [| done]. unfold in_block, inside in *.
    pose proof (Z.div_mod y 4). pose proof (Z.mod_pos_bound y 4). by zcases.
Qed.

End Volume.
(** ** The tables of a block are those of its format *)

(** A quotient between its bounds. *)
Ltac quotient_range := split; [apply Z.div_pos; lia | apply Z.div_lt_upper_bound; lia || nia].

(** A field of [n] bits at [s], moved to the top of a byte. *)
Lemma channel_value c m s n a :
  m = Z.ones n ≪ s -> 0 <= a <= s -> 0 < n -> n + (s - a) = 8 ->
  u8 (((c .& m) ≫ a) * 0xFF / (Z.ones n ≪ (s - a))) = (c / 2 ^ s) mod 2 ^ n * 255 / Z.ones n.
Proof.
  intros -> Ha Hn H8. set (v := (c / 2 ^ s) mod 2 ^ n).
  assert ((c .& (Z.ones n ≪ s)) ≫ a = v * 2 ^ (s - a)) as ->.
  { rewrite <- Z.shiftl_mul_pow2 by lia. subst v. rewrite <- Z.shiftr_div_pow2, <- Z.land_ones by lia.
    apply Z.bits_inj'. intros i Hi. rewrite Z.shiftr_spec, Z.land_spec, Z.shiftl_spec by lia.
    rewrite (Z.shiftl_spec _ (s - a)) by lia. destruct (Z.ltb_spec (i - (s - a)) 0).
    - rewrite (Z.testbit_neg_r _ (i + a - s)), (Z.testbit_neg_r _ (i - (s - a))) by lia. apply andb_false_r.
    - rewrite Z.land_spec, Z.shiftr_spec by lia. f_equal; f_equal; lia. }
  assert (0 <= v <= Z.ones n) as Hv.
  { subst v. rewrite Z.ones_equiv. pose proof (Z.mod_pos_bound (c / 2 ^ s) (2 ^ n)). lia. }
  assert (0 < Z.ones n) by (rewrite Z.ones_equiv; pose proof (Z.pow_gt_1 2 n); lia).
  rewrite Z.shiftl_mul_pow2 by lia.
  replace (v * 2 ^ (s - a) * 255) with (v * 255 * 2 ^ (s - a)) by lia.
  rewrite Z.div_mul_cancel_r by lia.
  apply Z.mod_small. quotient_range.
Qed.

Lemma red_value c : u8 (((c .& 0xF800) ≫ 8) * 0xFF / 0xF8) = Format.red c.
Proof. apply (channel_value c _ 11 5 8); by vm_compute || lia. Qed.

Lemma green_value c : u8 (((c .& 0x07E0) ≫ 3) * 0xFF / 0xFC) = Format.green c.
Proof. apply (channel_value c _ 5 6 3); by vm_compute || lia. Qed.

Lemma blue_value c : u8 (((c .& 0x001F) ≪ 3) * 0xFF / 0xF8) = Format.blue c.
Proof.
  replace ((c .& 0x001F) ≪ 3) with (((c ≪ 3) .& 0xF8) ≫ 0) 
    by (rewrite Z.shiftr_0_r; change 0xF8 with (0x1F ≪ 3); symmetry; apply Z.shiftl_land).
  etransitivity; [apply (channel_value (c ≪ 3) 0xF8 3 5 0); by vm_compute || lia |].
  unfold Format.blue. by rewrite Z.shiftl_mul_pow2, Z.div_mul by lia.
Qed.

(** The three colour tables of a block. *)
Lemma colour_tables c0 c1 tr k : 0 <= k < 4 ->
  let cs := decode_bc1_colors c0 c1 tr in
  [nthZ (cr cs) k; nthZ (cg cs) k; nthZ (cb cs) k] = Format.rgb tr c0 c1 k /\
  nthZ (ca cs) k = if tr && (k =? 3) then 0 else 255.
Proof.
  intros Hk. unfold decode_bc1_colors. rewrite !red_value, !green_value, !blue_value.
  assert (forall c, in_u 8 (Format.red c) /\ in_u 8 (Format.green c) /\ in_u 8 (Format.blue c)) as Hu.
  { intros c. unfold in_u. rewrite <- red_value, <- green_value, <- blue_value.
    repeat split; apply Z.mod_pos_bound; lia. }
  destruct (Hu c0) as (? & ? & ?), (Hu c1) as (? & ? & ?). unfold in_u in *. change (2 ^ 8) with 256 in *.
  unfold Format.rgb, Format.channel.
  assert (k = 0 \/ k = 1 \/ k = 2 \/ k = 3) as [-> | [-> | [-> | ->]]] by lia;
    destruct tr; cbn -[Z.div Z.modulo Z.mul Z.add]; split; try done;
    by rewrite !Z.mod_small by quotient_range.
Qed.

Lemma bits_land w v t : 0 <= w -> 0 <= t -> (v ≫ (w * t)) .& Z.ones w = Format.bits w v t.
Proof.
  intros. unfold Format.bits. rewrite Z.land_ones by lia. rewrite Z.shiftr_div_pow2 by nia. done.
Qed.

Lemma dxt3_alpha_value alpha t : 0 <= t < 16 ->
  nthZ (dxt3_alpha alpha) t = Format.bits 4 alpha t * 255 / 15.
Proof.
  intros Ht. unfold dxt3_alpha. rewrite nthZ_fmap by (rewrite length_seqZ; lia).
  rewrite nthZ_seqZ, Z.add_0_l by lia. 
  pose proof (bits_land 4 alpha t) as E. change (Z.ones 4) with 15 in E. rewrite E by lia.
  assert (0 <= Format.bits 4 alpha t < 16) by (apply Z.mod_pos_bound; lia).
  rewrite Z.shiftl_mul_pow2 by lia. change 0xF0 with (15 * 2 ^ 4).
  replace (Format.bits 4 alpha t * 2 ^ 4 * 0xFF) with (Format.bits 4 alpha t * 255 * 2 ^ 4) by lia.
  rewrite Z.div_mul_cancel_r by lia. apply Z.mod_small. quotient_range.
Qed.

Lemma dxt5_palette_value a0 a1 k : in_u 8 a0 -> in_u 8 a1 -> 0 <= k < 8 ->
  nthZ (dxt5_palette a0 a1) k = Format.alpha5 a0 a1 k.
Proof.
  intros H0 H1 Hk. unfold in_u in *. change (2 ^ 8) with 256 in *.
  assert (k = 0 \/ k = 1 \/ k = 2 \/ k = 3 \/ k = 4 \/ k = 5 \/ k = 6 \/ k = 7)
    as [-> | [-> | [-> | [-> | [-> | [-> | [-> | ->]]]]]]] by lia;
    unfold dxt5_palette, Format.alpha5; destruct (a0 >? a1); cbn -[Z.div Z.modulo Z.mul Z.add]; try done;
    apply Z.mod_small; quotient_range.
Qed.

Lemma dxt5_alpha_spec n s alpha palette : length palette = 8%nat ->
  exists l, dxt5_alpha n s alpha palette = Ok l /\ length l = n /\
    forall t, 0 <= t < Z.of_nat n -> nthZ l t = nthZ palette ((alpha ≫ (16 + 3 * (s + t))) .& 7).
Proof.
  intros Hp. revert s. induction n as [| n IH]; intros s; cbn [dxt5_alpha]; [exists []; split; [done |]; split; [done | lia] |].
  assert (forall v, 0 <= v .& 7 < 8) as H7.
  { intros v. change 7 with (Z.ones 3). rewrite Z.land_ones by lia. apply Z.mod_pos_bound. lia. }
  rewrite rd_nthZ by (specialize (H7 (alpha ≫ (16 + 3 * s))); lia). rewrite ok_bind.
  destruct (IH (s + 1)) as (l & -> & Hl & H). rewrite ok_bind. eexists. split; [done |]. cbn. split; [lia |].
  intros t Ht. rewrite nthZ_cons. destruct (Z.eqb_spec t 0) as [-> |]; [by rewrite Z.add_0_r |].
  rewrite H by lia. do 4 f_equal. lia.
Qed.

(** Fields of a block read as [Format.num] reads them. *)
Lemma field_num block a n : 0 <= a -> 0 <= n -> a + n <= zlen block ->
  field block a n = Ok (Format.num block (Z.to_nat a) (Z.to_nat n)).
Proof. intros. unfold field. by rewrite slice_ok by lia. Qed.

Lemma num_byte block k : Format.num block k 1 = nthZ block (Z.of_nat k).
Proof.
  unfold Format.num. rewrite <- (Z.add_0_r (Z.of_nat k)), <- nthZ_drop by lia.
  destruct (drop k block) as [| b l]; [done |]. cbn. apply Z.lor_0_r.
Qed.

(** The alpha indices of DXT5 start after the two end points. *)
Lemma dxt5_index block t : Forall (in_u 8) block -> length block = 16%nat -> 0 <= t ->
  (Format.num block 0 8 ≫ (16 + 3 * t)) .& 7 = Format.bits 3 (Format.num block 2 6) t.
Proof.
  intros Hb Hl Ht. rewrite <- bits_land by lia. change (Z.ones 3) with 7. f_equal.
  rewrite <- Z.shiftr_shiftr by lia. f_equal.
  destruct block as [| b0 [| b1 block]]; [done .. |]. unfold Format.num. cbn [drop take].
  inversion_clear Hb as [| ? ? H0 Hb']. inversion_clear Hb' as [| ? ? H1 _].
  rewrite !le_val_cons by done. unfold in_u in *. change (2 ^ 8) with 256 in *.
  set (v := le_val _). rewrite Z.shiftr_div_pow2 by lia. change (2 ^ 16) with (256 * 256).
  rewrite <- Z.div_div by lia. rewrite Z.div_add, (Z.div_small b0), Z.add_0_l by lia.
  by rewrite Z.div_add, (Z.div_small b1) by lia.
Qed.

Lemma pixel_colours indices c0 c1 tr sep a t : 0 <= t < 16 ->
  let cs := decode_bc1_colors c0 c1 tr in
  let k := Format.bits 2 indices t in
  pixel indices (Colors (cr cs) (cg cs) (cb cs) a) sep t =
    Format.rgb tr c0 c1 k ++ [nthZ a (if sep then t else k)].
Proof.
  intros Ht cs k. unfold pixel. change 3 with (Z.ones 2). rewrite bits_land by lia. fold k. cbn [cr cg cb ca].
  assert (0 <= k < 4) as Hk by (apply Z.mod_pos_bound; lia).
  destruct (colour_tables c0 c1 tr k Hk) as [<- _]. done.
Qed.

Lemma tables_colours c0 c1 tr (a : list Z) (sep : bool) : length a = (if sep then 16 else 4)%nat ->
  let cs := decode_bc1_colors c0 c1 tr in tables_ok (Colors (cr cs) (cg cs) (cb cs) a) sep.
Proof. intros Ha. unfold decode_bc1_colors, tables_ok. by destruct tr. Qed.

(** [op] writes the texels that the format gives to [block]. *)
Definition decodes (op : list Z -> list Z -> Z -> Z -> Z -> Z -> Z -> outcome (list Z))
    (fmt : S3TC_DECOMPRESS_FORMAT) (block : list Z) : Prop :=
  exists indices cs sep, tables_ok cs sep /\
    (forall conv i j w h zf, op block conv i j w h zf = write_block_to_texture conv indices i j w h zf cs sep) /\
    forall t, 0 <= t < 16 -> pixel indices cs sep t = Format.texel fmt block t.

Lemma dxt1_decodes block : length block = 8%nat ->
  decodes decompress_dxt1_block S3TC_DECOMPRESS_FORMAT_DXT1 block.
Proof.
  intros Hl. set (c0 := Format.num block 0 2). set (c1 := Format.num block 2 2).
  eexists (Format.num block 4 4), (decode_bc1_colors c0 c1 (c0 <=? c1)), false.
  split; [unfold decode_bc1_colors; by destruct (c0 <=? c1) |]. split.
  - intros. unfold decompress_dxt1_block. by rewrite !field_num, !ok_bind by lia.
  - intros t Ht. assert (0 <= Format.bits 2 (Format.num block 4 4) t < 4) as Hk by (apply Z.mod_pos_bound; lia).
    destruct (colour_tables c0 c1 (c0 <=? c1) _ Hk) as [_ Ha].
    etransitivity; [apply (pixel_colours _ c0 c1 (c0 <=? c1) false (ca (decode_bc1_colors c0 c1 (c0 <=? c1)))); done |].
    by rewrite Ha.
Qed.

Lemma dxt3_decodes block : length block = 16%nat ->
  decodes decompress_dxt3_block S3TC_DECOMPRESS_FORMAT_DXT3 block.
Proof.
  intros Hl. set (c0 := Format.num block 8 2). set (c1 := Format.num block 10 2).
  eexists (Format.num block 12 4), (Colors _ _ _ (dxt3_alpha (Format.num block 0 8))), true.
  split; [by apply (tables_colours c0 c1 false) |]. split.
  - intros. unfold decompress_dxt3_block. by rewrite !field_num, !ok_bind by lia.
  - intros t Ht. rewrite pixel_colours by done. by rewrite dxt3_alpha_value.
Qed.

Lemma dxt5_decodes block : Forall (in_u 8) block -> length block = 16%nat ->
  decodes decompress_dxt5_block S3TC_DECOMPRESS_FORMAT_DXT5 block.
Proof.
  intros Hb Hl. set (c0 := Format.num block 8 2). set (c1 := Format.num block 10 2).
  assert (forall k, 0 <= k < 16 -> in_u 8 (nthZ block k)) as Hu by (intros; apply nthZ_Forall; [done | lia]).
  destruct (dxt5_alpha_spec 16 0 (Format.num block 0 8) (dxt5_palette (nthZ block 0) (nthZ block 1)))
    as (a & Ea & La & Ha); [unfold dxt5_palette; by destruct (_ >? _) |].
  eexists (Format.num block 12 4), (Colors _ _ _ a), true.
  split; [by apply (tables_colours c0 c1 false) |]. split.
  - intros. unfold decompress_dxt5_block. rewrite !field_num, !(rd_nthZ block), !ok_bind by lia.
    change (Z.to_nat 0) with 0%nat. change (Z.to_nat 8) with 8%nat. by rewrite Ea, ok_bind.
  - intros t Ht. rewrite pixel_colours, Ha, Z.add_0_l, dxt5_index by (done || lia).
    rewrite dxt5_palette_value; [| apply Hu; lia .. | apply Z.mod_pos_bound; lia].
    cbn [Format.texel]. by rewrite !num_byte.
Qed.

(** A block of any format paints its texels and nothing else. *)
Lemma decompress_block_spec w h d fmt data n conv i j z :
  0 < w -> 0 < h -> 0 < d -> Forall (in_u 8) data ->
  0 <= n -> Format.block_size fmt * (n + 1) <= zlen data ->
  zlen conv = w * h * d * 4 -> 0 <= i -> 0 <= j -> 0 <= z < d ->
  exists conv', decompress_block fmt data n conv i j w h (z * w * h) = Ok conv' /\
    repainted w h d conv conv' (in_block i j z)
      (fun x y _ => Format.texel fmt (Format.block fmt data n) (texel_no x y)).
Proof.
  intros Hw Hh Hd Hdata Hn Hl Hconv Hi Hj Hz.
  set (block := Format.block fmt data n).
  assert (Forall (in_u 8) block) as Hb by (by apply Forall_take, Forall_drop).
  assert (zlen block = Format.block_size fmt) as Hbl.
  { unfold block, Format.block. rewrite length_take, length_drop. destruct fmt; cbn [Format.block_size] in *; lia. }
  assert (slice data (Format.block_size fmt * n) (Format.block_size fmt) = Ok block) as Hs.
  { rewrite slice_ok; [done | destruct fmt; cbn [Format.block_size] in *; lia ..]. }
  assert (forall x y, 0 <= texel_no x y < 16) as Ht.
  { intros x y. unfold texel_no. pose proof (Z.mod_pos_bound x 4). pose proof (Z.mod_pos_bound y 4). lia. }
  enough (exists op, (forall zf, decompress_block fmt data n conv i j w h zf = op block conv i j w h zf) /\
    decodes op fmt block) as (op & E & ix & cs & sep & Hok & Ew & Hp).
  { rewrite E, Ew. destruct (write_block_texels w h d Hw Hh Hd conv ix i j z cs sep) as (c & Ec & Hc); try done.
    exists c. split; [done |]. eapply repainted_ext; [exact Hc |]. intros x y z' _. split; [done |].
    intros _. symmetry. apply Hp, Ht. }
  clearbody block. destruct fmt; cbn [Format.block_size] in *; eexists;
    (split; [intros zf; unfold decompress_block; rewrite Hs, ok_bind; done |]).
  - apply dxt1_decodes. lia.
  - apply dxt3_decodes. lia.
  - apply dxt5_decodes; [done | lia].
Qed.

(** ** The loops over the blocks *)

Lemma physical_blocks v : 0 <= v -> v + 3 < 2 ^ 32 -> physical_size v / 4 = (v + 3) / 4.
Proof.
  intros. unfold physical_size. rewrite (Z.mod_small (v + 3)) by lia.
  change 4 with (2 ^ 2). rewrite <- !Z.shiftr_div_pow2 by lia. rewrite Z.shiftr_land.
  change (u32 (Z.lnot 3) ≫ 2) with (Z.ones 30). rewrite Z.land_ones, Z.shiftr_div_pow2 by lia.
  apply Z.mod_small. change (2 ^ 2) with 4. change (2 ^ 32) with (4 * 2 ^ 30) in *. quotient_range.
Qed.

Lemma block_of x n : 0 <= x < n -> 0 <= x / 4 < (n + 3) / 4.
Proof.
  intros. pose proof (Z.div_mod x 4). pose proof (Z.mod_pos_bound x 4).
  pose proof (Z.div_mod (n + 3) 4). pose proof (Z.mod_pos_bound (n + 3) 4). lia.
Qed.

Section Grid.
Context (w h d : Z) {S : Type} (conv : S -> list Z) (num : Z -> S -> Prop).
Context (slices : Z -> bool) (f : Z -> Z -> Z -> list Z) (body : Z -> Z -> S -> outcome S).
Abbreviation nbx := ((w + 3) / 4).
Abbreviation nby := ((h + 3) / 4).

(** The body paints the slices of the block column that it visits. *)
Context (Hbody : forall i j s, 0 <= i < nbx -> 0 <= j < nby -> num (j * nbx + i) s ->
  zlen (conv s) = w * h * d * 4 ->
  exists s', body i j s = Ok s' /\ num (j * nbx + i + 1) s' /\
    repainted w h d (conv s) (conv s') (fun x y z => slices z && (y / 4 =? j) && (x / 4 =? i)) f).

Lemma row_paints j s : 0 <= j < nby -> 0 <= nbx -> num (j * nbx) s -> zlen (conv s) = w * h * d * 4 ->
  exists s', mfor (seqZ 0 nbx) (fun i st => body i j st) s = Ok s' /\ num ((j + 1) * nbx) s' /\
    repainted w h d (conv s) (conv s') (fun x y z => slices z && (y / 4 =? j)) f.
Proof using Hbody.
  intros Hj Hnb Hn Hl.
  destruct (mfor_seqZ (fun i s' => num (j * nbx + i) s' /\ repainted w h d (conv s) (conv s')
      (fun x y z => slices z && (y / 4 =? j) && (x / 4 <? i)) f) 0 nbx (fun i st => body i j st) s)
    as (s' & E & Hn' & Hr).
  - rewrite Z.add_0_r. split; [done |]. eapply repainted_ext; [apply (repainted_refl _ _ _ _ f) |].
    intros x y z (Hx & _). split; [| done]. pose proof (block_of x w Hx). zcases; by rewrite andb_false_r.
  - intros i s1 Hi [Hn1 [L1 H1]]. destruct (Hbody i j s1) as (s2 & E2 & Hn2 & H2); [lia | done | done | lia |].
    exists s2. split; [done |]. split; [by rewrite Z.add_assoc |].
    eapply repainted_step; [split; [exact L1 | exact H1] | exact H2 |]. intros x y z _. cbn beta.
    destruct (slices z), (y / 4 =? j); cbn [andb]; try done; zcases; done.
  - exists s'. split; [done |]. split; [by replace ((j + 1) * nbx) with (j * nbx + (0 + Z.max 0 nbx)) by lia |].
    eapply repainted_ext; [exact Hr |]. intros x y z (Hx & _). split; [| done].
    pose proof (block_of x w Hx). destruct (slices z), (y / 4 =? j); cbn [andb]; try done; zcases; done.
Qed.

Lemma grid_paints s : 0 < w -> 0 < h -> num 0 s -> zlen (conv s) = w * h * d * 4 ->
  exists s', mfor (seqZ 0 nby) (fun j st => mfor (seqZ 0 nbx) (fun i st => body i j st) st) s = Ok s' /\
    num (nby * nbx) s' /\ repainted w h d (conv s) (conv s') (fun x y z => slices z) f.
Proof using Hbody.
  intros Hw Hh Hn Hl.
  assert (0 <= nbx) by (apply Z.div_pos; lia). assert (0 <= nby) by (apply Z.div_pos; lia).
  destruct (mfor_seqZ (fun j s' => num (j * nbx) s' /\ repainted w h d (conv s) (conv s')
      (fun x y z => slices z && (y / 4 <? j)) f) 0 nby
      (fun j st => mfor (seqZ 0 nbx) (fun i st => body i j st) st) s)
    as (s' & E & Hn' & Hr).
  - split; [done |]. eapply repainted_ext; [apply (repainted_refl _ _ _ _ f) |].
    intros x y z (_ & Hy & _). split; [| done]. pose proof (block_of y h Hy). zcases; by rewrite andb_false_r.
  - intros j s1 Hj [Hn1 [L1 H1]]. destruct (row_paints j s1) as (s2 & E2 & Hn2 & H2); [lia | done | done | lia |].
    exists s2. split; [done |]. split; [done |].
    eapply repainted_step; [split; [exact L1 | exact H1] | exact H2 |]. intros x y z _. cbn beta.
    destruct (slices z); cbn [andb]; try done; zcases; done.
  - exists s'. split; [done |]. split; [by replace nby with (0 + Z.max 0 nby) at 1 by lia |].
    eapply repainted_ext; [exact Hr |]. intros x y z (_ & Hy & _). split; [| done].
    pose proof (block_of y h Hy). destruct (slices z); cbn [andb]; try done; zcases; done.
Qed.

End Grid.

Lemma num_blocks_pos v : 0 < v -> 0 < (v + 3) / 4.
Proof. intros. apply Z.div_str_pos. lia. Qed.

(** A fresh allocation of [n] bytes. *)
Definition allocates (fresh : Z -> list Z) : Prop := forall n, 0 <= n -> zlen (fresh n) = n.

(** C38: the 2D decompressor returns for every size whose output is shorter than 2^31
    bytes and every data long enough, and every pixel of the output is the texel of its block as the format defines it:
    every byte of the fresh allocation is replaced and nothing is written outside,
    whether or not the size is a multiple of four. *)
Theorem s3tc_decompress_2d_correct fresh fmt data w h :
  allocates fresh -> 0 < w -> 0 < h -> w * h * 4 < 2 ^ 31 -> Forall (in_u 8) data ->
  Format.block_size fmt * ((w + 3) / 4 * ((h + 3) / 4)) <= zlen data ->
  exists out, s3tc_decompress_2d fresh fmt data w h = Ok out /\ zlen out = w * h * 4 /\
    forall x y, 0 <= x < w -> 0 <= y < h ->
      px out (y * w + x) =
        Format.texel fmt (Format.block fmt data (Format.block_no_2d w x y)) (texel_no x y).
Proof.
  intros Hf Hw Hh Hs Hdata Hl. unfold s3tc_decompress_2d.
  rewrite !c_assert_true, !ok_bind by (apply Z.gtb_lt; lia). cbv zeta.
  assert (w + 3 < 2 ^ 32 /\ h + 3 < 2 ^ 32) as [? ?] by (split; nia).
  rewrite !physical_blocks by lia. rewrite u32_small by lia.
  pose proof (num_blocks_pos w Hw). pose proof (num_blocks_pos h Hh).
  assert (zlen (fresh (w * h * 4)) = w * h * 4) as Hz by (apply Hf; lia).
  destruct (grid_paints w h 1 (fun c => c) (fun _ _ => True) (fun z => z =? 0)
    (fun x y _ => Format.texel fmt (Format.block fmt data (Format.block_no_2d w x y)) (texel_no x y))
    (fun i j c => decompress_block fmt data (j * ((w + 3) / 4) + i) c i j w h 0))
    with (s := fresh (w * h * 4)) as (out & E & _ & Lo & Ho); [| done | done | done | lia |].
  - intros i j c Hi Hj _ Hc.
    destruct (decompress_block_spec w h 1 fmt data (j * ((w + 3) / 4) + i) c i j 0) as (c' & Ec & Hr);
      [done | done | lia | done | nia | | lia ..|].
    { etransitivity; [| exact Hl]. apply Z.mul_le_mono_nonneg_l; [by destruct fmt | nia]. }
    exists c'. split; [exact Ec |]. split; [done |]. eapply repainted_ext; [exact Hr |].
    intros x y z _. split; [done |]. unfold in_block. intros R.
    destruct (Z.eqb_spec (y / 4) j) as [<- |], (Z.eqb_spec (x / 4) i) as [<- |]; rewrite ?andb_false_r in R; done.
  - exists out. split; [exact E |]. split; [lia |]. intros x y Hx Hy.
    etransitivity; [| apply (Ho x y 0); unfold inside; lia]. unfold idx. f_equal; lia.
Qed.

(** ** Volumes *)

Section Slab.
Context (fmt : S3TC_DECOMPRESS_FORMAT) (data : list Z) (w h d k : Z).
Abbreviation nb := ((w + 3) / 4 * ((h + 3) / 4)).
Abbreviation slab := (Z.min (d - 4 * k) 4).
Context (Hw : 0 < w) (Hh : 0 < h) (Hd : 0 < d) (Hk : 0 <= k) (Hkd : 4 * k < d).
Context (Hdata : Forall (in_u 8) data) (Hl : Format.block_size fmt * (nb * d) <= zlen data).

Definition volume_texel (x y z : Z) : list Z :=
  Format.texel fmt (Format.block fmt data (Format.block_no_3d w h d x y z)) (texel_no x y).

(** The number of the block at column [i], row [j] and slice [q] of the slab. *)
Definition slab_no (i j q : Z) : Z := 4 * k * nb + (j * ((w + 3) / 4) + i) * slab + q.

Lemma slab_no_bound i j q : 0 <= i < (w + 3) / 4 -> 0 <= j < (h + 3) / 4 -> 0 <= q < slab ->
  0 <= slab_no i j q /\ slab_no i j q + 1 <= nb * d.
Proof using Hk Hkd.
  clear Hw Hh Hd Hdata Hl. intros Hi Hj Hq. unfold slab_no. assert (0 <= j * ((w + 3) / 4) + i <= nb - 1) as Hn by nia.
  set (n := j * _ + i) in *. set (b := nb) in *. clearbody n b.
  assert (4 * k + slab <= d) by lia. split; [nia |].
  assert (n * slab + q + 1 <= b * slab) by nia. nia.
Qed.

(** The slices at one place of a slab. *)
Lemma slices_paint i j c sub : 0 <= i < (w + 3) / 4 -> 0 <= j < (h + 3) / 4 ->
  sub = slab_no i j 0 -> zlen c = w * h * d * 4 ->
  exists c', mfor (seqZ 0 slab) (fun slice '(conv, sub_block_index) =>
      let z_pos_factor := (4 * k + slice) * w * h in
      conv ← decompress_block fmt data sub_block_index conv i j w h z_pos_factor;
      Ok (conv, sub_block_index + 1)) (c, sub) = Ok (c', slab_no i j slab) /\
    repainted w h d c c' (fun x y z => (z / 4 =? k) && (y / 4 =? j) && (x / 4 =? i)) volume_texel.
Proof using Hw Hh Hd Hk Hkd Hdata Hl.
  intros Hi Hj -> Hc.
  destruct (mfor_seqZ (fun q s => s.2 = slab_no i j q /\ repainted w h d c s.1
      (fun x y z => (4 * k <=? z) && (z <? 4 * k + q) && (y / 4 =? j) && (x / 4 =? i)) volume_texel)
      0 slab (fun slice '(conv, sub_block_index) =>
        let z_pos_factor := (4 * k + slice) * w * h in
        conv ← decompress_block fmt data sub_block_index conv i j w h z_pos_factor;
        Ok (conv, sub_block_index + 1)) (c, slab_no i j 0)) as ([c' s'] & E & Hs' & Hr).
  - split; [done |]. eapply repainted_ext; [apply (repainted_refl _ _ _ _ volume_texel) |].
    intros x y z _. split; [| done]. by zcases.
  - intros q [c1 s1] Hq [Hs1 [L1 H1]]. cbn [fst snd] in *. subst s1.
    destruct (slab_no_bound i j q) as [Hb1 Hb2]; [done | done | lia |].
    destruct (decompress_block_spec w h d fmt data (slab_no i j q) c1 i j (4 * k + q)) as (c2 & E2 & H2);
      [done .. | | lia | lia | lia | lia |].
    { etransitivity; [| exact Hl]. apply Z.mul_le_mono_nonneg_l; [by destruct fmt | done]. }
    rewrite E2, ok_bind. eexists. split; [done |]. split; [unfold slab_no; cbn; lia |].
    eapply repainted_step; [split; [exact L1 | exact H1] | |]; cbn [fst].
    + eapply repainted_ext; [exact H2 |]. intros x y z _. split; [reflexivity |]. unfold in_block. intros R.
      apply andb_prop in R as [R R3]. apply andb_prop in R as [R1 R2].
      apply Z.eqb_eq in R1, R2, R3. subst i j z.
      unfold volume_texel, Format.block_no_3d, Format.block_no_2d.
      rewrite <- (Z.div_unique_pos (4 * k + q) 4 k q), <- (Z.mod_unique_pos (4 * k + q) 4 k q) by lia. done.
    + intros x y z _. unfold in_block. destruct (y / 4 =? j), (x / 4 =? i); rewrite ?andb_false_r; try done.
      by zcases.
  - cbn [fst snd] in *. subst s'. replace (0 + Z.max 0 slab) with slab in * by lia.
    exists c'. split; [exact E |]. eapply repainted_ext; [exact Hr |]. intros x y z (_ & _ & Hz).
    split; [| done]. pose proof (Z.div_mod z 4). pose proof (Z.mod_pos_bound z 4).
    destruct (y / 4 =? j), (x / 4 =? i); rewrite ?andb_false_r; try done. by zcases.
Qed.

(** A slab of at most four slices. *)
Lemma slab_paints c : zlen c = w * h * d * 4 ->
  exists c', mfor (seqZ 0 ((h + 3) / 4)) (fun j st =>
      mfor (seqZ 0 ((w + 3) / 4)) (fun i st =>
        mfor (seqZ 0 slab) (fun slice '(conv, sub_block_index) =>
          let z_pos_factor := (4 * k + slice) * w * h in
          conv ← decompress_block fmt data sub_block_index conv i j w h z_pos_factor;
          Ok (conv, sub_block_index + 1)) st) st) (c, 4 * k * nb) = Ok (c', (4 * k + slab) * nb) /\
    repainted w h d c c' (fun x y z => z / 4 =? k) volume_texel.
Proof using Hw Hh Hd Hk Hkd Hdata Hl.
  intros Hc.
  destruct (grid_paints w h d fst (fun n s => s.2 = 4 * k * nb + n * slab) (fun z => z / 4 =? k) volume_texel
    (fun i j st => mfor (seqZ 0 slab) (fun slice '(conv, sub_block_index) =>
          let z_pos_factor := (4 * k + slice) * w * h in
          conv ← decompress_block fmt data sub_block_index conv i j w h z_pos_factor;
          Ok (conv, sub_block_index + 1)) st))
    with (s := (c, 4 * k * nb)) as ([c' s'] & E & Hn & Hr); [| done | done | cbn; lia | done |].
  - intros i j [c1 s1] Hi Hj Hs Hc1. cbn [fst snd] in *.
    destruct (slices_paint i j c1 s1) as (c2 & E2 & H2); [done | done | unfold slab_no; lia | done |].
    eexists. split; [exact E2 |]. cbn [fst snd]. split; [unfold slab_no; lia | done].
  - cbn [fst snd] in *. exists c'. split; [| done]. rewrite E. do 2 f_equal. lia.
Qed.

End Slab.

(** The 3D decompressor returns and every voxel of the output is the texel of
    its block, the blocks taken slab by slab of four slices with the last slab
    thinner; the depth need not be a multiple of four either. *)
Theorem s3tc_decompress_3d_correct fresh fmt data w h d :
  allocates fresh -> 0 < w -> 0 < h -> 0 < d -> w * h * d * 4 < 2 ^ 31 -> Forall (in_u 8) data ->
  Format.block_size fmt * ((w + 3) / 4 * ((h + 3) / 4) * d) <= zlen data ->
  exists out, s3tc_decompress_3d fresh fmt data w h d = Ok out /\ zlen out = w * h * d * 4 /\
    forall x y z, 0 <= x < w -> 0 <= y < h -> 0 <= z < d ->
      px out ((z * h + y) * w + x) =
        Format.texel fmt (Format.block fmt data (Format.block_no_3d w h d x y z)) (texel_no x y).
Proof.
  intros Hf Hw Hh Hd Hs Hdata Hl. unfold s3tc_decompress_3d.
  rewrite !c_assert_true, !ok_bind by (apply Z.gtb_lt; lia). cbv zeta.
  assert (w + 3 < 2 ^ 32 /\ h + 3 < 2 ^ 32 /\ d + 3 < 2 ^ 32) as (? & ? & ?).
  { assert (0 < w * h) by nia. assert (0 < h * d) by nia. split; [nia | split; nia]. }
  rewrite !physical_blocks, !u32_small by lia.
  pose proof (num_blocks_pos w Hw). pose proof (num_blocks_pos h Hh).
  assert (zlen (fresh (w * h * d * 4)) = w * h * d * 4) as Hz by (apply Hf; lia).
  set (nb := (w + 3) / 4 * ((h + 3) / 4)) in *.
  match goal with |- context [mfor _ ?f ?s0] => destruct (mfor_seqZ (fun k (s : list Z * Z * Z) => let cur := Z.min (4 * k) d in
      s.1.2 = cur /\ s.2 = cur * nb /\
      repainted w h d (fresh (w * h * d * 4)) s.1.1 (fun x y z => z / 4 <? k) (volume_texel fmt data w h d))
      0 ((d + 3) / 4) f s0) as ([[out cur] sub] & E & Hc & Hsb & Lo & Ho) end.
  - split; [cbn; lia |]. split; [cbn; lia |]. eapply repainted_ext; [apply (repainted_refl _ _ _ _ (volume_texel fmt data w h d)) |].
    intros x y z (_ & _ & Hin). split; [| done]. pose proof (block_of z d Hin). by zcases.
  - intros k [[c cur] sub] Hk (Hcur & Hsub & Lc & Hc). cbn [fst snd] in *.
    assert (4 * k < d) by (pose proof (Z.div_mod (d + 3) 4); pose proof (Z.mod_pos_bound (d + 3) 4); lia).
    rewrite Z.min_l in Hcur, Hsub by lia. subst cur sub.
    destruct (slab_paints fmt data w h d k Hw Hh Hd) with (c := c) as (c' & E & Hr); [lia | done | done | done | lia |].
    subst nb. cbv zeta in E. rewrite E, ok_bind. eexists. split; [done |]. cbn [fst snd].
    replace (Z.min (4 * (k + 1)) d) with (4 * k + Z.min (d - 4 * k) 4) by lia.
    split; [done |]. split; [done |]. eapply repainted_step; [split; [exact Lc | exact Hc] | exact Hr |].
    intros x y z _. by zcases.
  - rewrite E, ok_bind. cbn [fst snd] in *. exists out. split; [done |]. split; [lia |]. intros x y z Hx Hy Hzz.
    etransitivity; [| etransitivity; [apply (Ho x y z); unfold inside; lia |]].
    + unfold idx. f_equal; lia.
    + pose proof (block_of z d Hzz). by zcases.
Qed.

Lemma replicate_allocates : allocates (fun n => replicate (Z.to_nat n) 0xCC).
Proof. intros n Hn. rewrite length_replicate. lia. Qed.

(** A 5 by 3 DXT1 image of two blocks, the second cut by the right edge. *)
Definition sample_blocks : list Z :=
  [0x00; 0xF8; 0x1F; 0x00; 0xE4; 0xE4; 0xE4; 0xE4;  0x1F; 0x00; 0x00; 0xF8; 0x1B; 0x1B; 0x1B; 0x1B].

Lemma s3tc_decompress_2d_correct_witness : exists out,
  s3tc_decompress_2d (fun n => replicate (Z.to_nat n) 0xCC) S3TC_DECOMPRESS_FORMAT_DXT1 sample_blocks 5 3 = Ok out /\
  zlen out = 60 /\ px out 4 = [0; 0; 0; 0] /\ px out 12 = [170; 0; 85; 255].
Proof.
  destruct (s3tc_decompress_2d_correct (fun n => replicate (Z.to_nat n) 0xCC) S3TC_DECOMPRESS_FORMAT_DXT1
    sample_blocks 5 3) as (out & E & L & H);
    [apply replicate_allocates | lia | lia | lia | repeat constructor; lia | vm_compute; done |].
  exists out. split; [exact E |]. split; [exact L |].
  split; [exact (H 4 0 ltac:(lia) ltac:(lia)) | exact (H 2 2 ltac:(lia) ltac:(lia))].
Defined.

(** Five slices of one block each: the last slab has one slice. *)
Definition sample_slices : list Z :=
  concat ((fun z => repeat z 8 ++ [0x00; 0xF8; 0x1F; 0x00; 0xE4; 0xE4; 0xE4; 0xE4]) <$> seqZ 0 5).

Lemma s3tc_decompress_3d_correct_witness : exists out,
  s3tc_decompress_3d (fun n => replicate (Z.to_nat n) 0xCC) S3TC_DECOMPRESS_FORMAT_DXT5 sample_slices 2 1 5 = Ok out /\
  zlen out = 40 /\ px out 9 = [0; 0; 255; 4].
Proof.
  destruct (s3tc_decompress_3d_correct (fun n => replicate (Z.to_nat n) 0xCC) S3TC_DECOMPRESS_FORMAT_DXT5
    sample_slices 2 1 5) as (out & E & L & H);
    [apply replicate_allocates | lia | lia | lia | lia | repeat constructor; lia | vm_compute; done |].
  exists out. split; [exact E |]. split; [exact L |]. exact (H 1 0 4 ltac:(lia) ltac:(lia) ltac:(lia)).
Defined.
