(* ===== verification/Memory.v ===== *)
(** * Guest memory

    What the devices rely on of the guest's physical memory, as an interface with
    its laws, and a RAM that satisfies them. The word and byte accesses of the
    audio unit are built on it. *)

From stdpp Require Import base gmap numbers list.
From Stdlib Require Import ZArith Lia.
From S2P Require Import Prelude.

(** [pci_dma_read] and [pci_dma_write], and as [address_space_memory] the accesses
    below, of the machine's one address space. *)
Class DmaMemory (M : Type) := {
  pci_dma_read : M -> Z -> Z -> list Z;
  pci_dma_write : M -> Z -> list Z -> M;
  backed : M -> Z -> Z -> Prop
}.

(** Where the address space is RAM ([backed]), a read gives what the last write
    left, byte by byte; elsewhere a read gives some bytes. Addresses stand for bytes of
    their own: the second view of RAM, the aperture of the graphics processor, is not
    an address of the descriptors, rings and buffers that the devices are given. *)
Class DmaMemoryLaws (M : Type) `{DmaMemory M} := {
  dma_read_length m a n : 0 <= n -> zlen (pci_dma_read m a n) = n;
  dma_read_bytes m a n : Forall (in_u 8) (pci_dma_read m a n);
  dma_read_write m a l : backed m a (zlen l) -> Forall (in_u 8) l ->
    pci_dma_read (pci_dma_write m a l) a (zlen l) = l;
  dma_read_write_ne m a n b l : a + n <= b \/ b + zlen l <= a ->
    pci_dma_read (pci_dma_write m b l) a n = pci_dma_read m a n;
  backed_write m a n b l : backed m a n -> backed (pci_dma_write m b l) a n;
  dma_read_nth m a n i : backed m a n -> 0 <= i < n ->
    nthZ (pci_dma_read m a n) i = nthZ (pci_dma_read m (a + i) 1) 0
}.

(** RAM from address 0; the rest reads as zero and ignores writes. *)
Definition ram_read (m : list Z) (a n : Z) : list Z := (fun i => u8 (nthZ m (a + i))) <$> seqZ 0 n.
Definition ram_write (m : list Z) (a : Z) (l : list Z) : list Z :=
  (fun i => if (a <=? i) && (i <? a + zlen l) then nthZ l (i - a) else nthZ m i) <$> seqZ 0 (zlen m).

#[export] Instance ram_dma : DmaMemory (list Z) := {
  pci_dma_read := ram_read;
  pci_dma_write := ram_write;
  backed m a n := 0 <= a /\ a + n <= zlen m
}.

Lemma nthZ_ram_read m a n i : 0 <= i < n -> nthZ (ram_read m a n) i = u8 (nthZ m (a + i)).
Proof.
  intros Hi. unfold ram_read. rewrite nthZ_fmap by (rewrite length_seqZ; lia).
  by rewrite nthZ_seqZ, Z.add_0_l by lia.
Qed.

Lemma nthZ_ram_write m a l i : 0 <= i < zlen m ->
  nthZ (ram_write m a l) i = if (a <=? i) && (i <? a + zlen l) then nthZ l (i - a) else nthZ m i.
Proof.
  intros Hi. unfold ram_write. rewrite nthZ_fmap by (rewrite length_seqZ; lia).
  by rewrite nthZ_seqZ, Z.add_0_l by lia.
Qed.

Lemma length_ram_read m a n : 0 <= n -> zlen (ram_read m a n) = n.
Proof. intros. unfold ram_read. rewrite length_fmap, length_seqZ. lia. Qed.

Lemma length_ram_write m a l : length (ram_write m a l) = length m.
Proof. unfold ram_write. rewrite length_fmap, length_seqZ. lia. Qed.

Lemma ram_read_write m a l : 0 <= a -> a + zlen l <= zlen m -> Forall (in_u 8) l ->
  ram_read (ram_write m a l) a (zlen l) = l.
Proof.
  intros Ha Hb Hl. apply listZ_eq; rewrite length_ram_read by lia; [done |]. intros i Hi.
  rewrite nthZ_ram_read, nthZ_ram_write by lia. zcases. replace (a + i - a) with i by lia.
  apply in_u_small, nthZ_Forall; [done | lia].
Qed.

Lemma ram_read_write_ne m a n b l : a + n <= b \/ b + zlen l <= a ->
  ram_read (ram_write m b l) a n = ram_read m a n.
Proof.
  intros Hd. destruct (Z.le_gt_cases n 0) as [Hn | Hn]; [unfold ram_read; by rewrite seqZ_nil by lia |].
  apply listZ_eq; [by rewrite !length_ram_read by lia |]. rewrite length_ram_read by lia.
  intros i Hi. rewrite !nthZ_ram_read by lia. f_equal.
  destruct (Z.le_gt_cases 0 (a + i)); [| by rewrite !nthZ_neg by lia].
  destruct (Z.lt_ge_cases (a + i) (zlen m)).
  - rewrite nthZ_ram_write by lia. by zcases.
  - by rewrite !nthZ_ge by (rewrite ?length_ram_write; lia).
Qed.

#[export] Instance ram_dma_laws : DmaMemoryLaws (list Z).
Proof.
  constructor; cbn.
  - apply length_ram_read.
  - intros. apply Forall_fmap, Forall_forall. intros x _. by apply in_u_mod.
  - intros m a l [? ?] ?. by apply ram_read_write.
  - intros. by apply ram_read_write_ne.
  - intros. by rewrite length_ram_write.
  - intros m a n i _ Hi. rewrite !nthZ_ram_read by lia. by rewrite Z.add_0_r.
Qed.

(** RAM at every address, by the bytes that are not zero; evaluation reads and writes
    it without walking through it. *)
Definition sparse_read (m : gmap Z Z) (a n : Z) : list Z := (fun i => u8 (rget m (a + i))) <$> seqZ 0 n.

Fixpoint sparse_write (m : gmap Z Z) (a : Z) (l : list Z) : gmap Z Z :=
  match l with
  | [] => m
  | b :: l => rset (sparse_write m (a + 1) l) a b
  end.

#[export] Instance sparse_dma : DmaMemory (gmap Z Z) := {
  pci_dma_read := sparse_read;
  pci_dma_write := sparse_write;
  backed m a n := True
}.

Lemma length_sparse_read m a n : 0 <= n -> zlen (sparse_read m a n) = n.
Proof. intros Hn. unfold sparse_read. rewrite length_fmap, length_seqZ. lia. Qed.

Lemma nthZ_sparse_read m a n i : 0 <= i < n -> nthZ (sparse_read m a n) i = u8 (rget m (a + i)).
Proof.
  intros Hi. unfold sparse_read. rewrite nthZ_fmap by (rewrite length_seqZ; lia). by rewrite nthZ_seqZ.
Qed.

Lemma rget_sparse_write m a l i :
  rget (sparse_write m a l) i = if (a <=? i) && (i <? a + zlen l) then nthZ l (i - a) else rget m i.
Proof.
  revert a. induction l as [|b l IH]; intros a; cbn [sparse_write length].
  - zcases; (done || lia).
  - destruct (Z.eq_dec i a) as [->|Hne].
    + rewrite rget_rset_eq, Z.sub_diag. zcases; (done || lia).
    + rewrite rget_rset_ne, IH, nthZ_cons by done. replace (i - (a + 1)) with (i - a - 1) by lia.
      zcases; try lia; done.
Qed.

#[export] Instance sparse_dma_laws : DmaMemoryLaws (gmap Z Z).
Proof.
  constructor; cbn.
  - apply length_sparse_read.
  - intros. apply Forall_fmap, Forall_forall. intros x _. by apply in_u_mod.
  - intros m a l _ Hl. apply listZ_eq; rewrite length_sparse_read by lia; [done |]. intros i Hi.
    rewrite nthZ_sparse_read, rget_sparse_write by lia. zcases. replace (a + i - a) with i by lia.
    apply in_u_small, nthZ_Forall; [done | lia].
  - intros m a n b l Hd. unfold sparse_read. apply list_fmap_ext. intros j x Hx%lookup_seqZ.
    rewrite rget_sparse_write. zcases; (done || lia).
  - done.
  - intros m a n i _ Hi. rewrite !nthZ_sparse_read by lia. by rewrite Z.add_0_r.
Qed.

(** ** Words *)

Section Words.

Context {M : Type} `{DmaMemory M}.

Definition ldl_le_phys (m : M) (a : Z) : Z := le_val (pci_dma_read m a 4).
Definition stl_le_phys (m : M) (a v : Z) : M := pci_dma_write m a (le_bytes 4 v).
Definition stb_phys (m : M) (a v : Z) : M := pci_dma_write m a (le_bytes 1 v).

Context `{!DmaMemoryLaws M}.

Lemma ldl_range m a : in_u 32 (ldl_le_phys m a).
Proof using All.
  unfold ldl_le_phys. pose proof (dma_read_length m a 4 ltac:(lia)) as Hl.
  pose proof (le_val_in_u _ (dma_read_bytes m a 4)) as Hr. by rewrite Hl in Hr.
Qed.

Lemma ldl_stl m a v : backed m a 4 -> ldl_le_phys (stl_le_phys m a v) a = u32 v.
Proof using All.
  intros Hb. unfold ldl_le_phys, stl_le_phys.
  pose proof (dma_read_write m a (le_bytes 4 v)) as Hrw. rewrite length_le_bytes in Hrw.
  change (Z.of_nat 4) with 4 in Hrw. rewrite Hrw by (done || apply Forall_le_bytes). apply le_val_bytes.
Qed.

Lemma ldl_stl_ne m a b v : a + 4 <= b \/ b + 4 <= a -> ldl_le_phys (stl_le_phys m b v) a = ldl_le_phys m a.
Proof using All.
  intros Hd. unfold ldl_le_phys, stl_le_phys. by rewrite dma_read_write_ne by (rewrite length_le_bytes; lia).
Qed.

Lemma ldl_stb_ne m a b v : a + 4 <= b \/ b + 1 <= a -> ldl_le_phys (stb_phys m b v) a = ldl_le_phys m a.
Proof using All.
  intros Hd. unfold ldl_le_phys, stb_phys. by rewrite dma_read_write_ne by (rewrite length_le_bytes; lia).
Qed.

Lemma backed_stl m a n b v : backed m a n -> backed (stl_le_phys m b v) a n.
Proof using All. apply backed_write. Qed.

Lemma backed_stb m a n b v : backed m a n -> backed (stb_phys m b v) a n.
Proof using All. apply backed_write. Qed.

End Words.
