(* ===== verification/Nvnet.v ===== *)
(** * The Ethernet controller (hw/xbox/mcpx/nvnet/nvnet.c)

    Registers kept as bytes, the interrupt line, the descriptor rings of the
    transmitter and the receiver, the packet filter, the PHY behind its MDIO
    registers, link changes with auto-negotiation, reset and the fix-up after an
    old snapshot. Guest memory is the interface [DmaMemory], which a RAM
    implements; frames handed to the network are the list [sent].

    The theorems show that no access leaves the arrays of the device and that an
    enabled interrupt is never lost, that a kick sends the concatenation of the
    buffers of a chain of descriptors and gives them back, that an accepted frame
    reaches the buffer of the current descriptor, and that the filter accepts the
    frames it should. *)

From stdpp Require Import base numbers list.
From Stdlib Require Import ZArith Lia.
From S2P Require Import Prelude Memory.

(** ** Registers (nvnet_regs.h, hw/net/mii.h) *)

Abbreviation MMIO_SIZE := 0x400.
Abbreviation PHY_ADDR := 1.
Abbreviation AUTONEG_DURATION_MS := 250.

Abbreviation NVNET_IRQ_STATUS := 0x000.
Abbreviation NVNET_IRQ_STATUS_RX := 0x00000002.
Abbreviation NVNET_IRQ_STATUS_TX := 0x00000010.
Abbreviation NVNET_IRQ_STATUS_MIIEVENT := 0x00000040.
Abbreviation NVNET_IRQ_MASK := 0x004.
Abbreviation NVNET_TRANSMITTER_CONTROL := 0x084.
Abbreviation NVNET_TRANSMITTER_CONTROL_START := 1.
Abbreviation NVNET_PACKET_FILTER := 0x08C.
Abbreviation NVNET_PACKET_FILTER_MYADDR := 0x00000020.
Abbreviation NVNET_RECEIVER_CONTROL := 0x094.
Abbreviation NVNET_RECEIVER_CONTROL_START := 1.
Abbreviation NVNET_MAC_ADDR_A := 0x0A8.
Abbreviation NVNET_MAC_ADDR_B := 0x0AC.
Abbreviation NVNET_MULTICAST_ADDR_A := 0x0B0.
Abbreviation NVNET_MULTICAST_ADDR_B := 0x0B4.
Abbreviation NVNET_MULTICAST_MASK_A := 0x0B8.
Abbreviation NVNET_MULTICAST_MASK_B := 0x0BC.
Abbreviation NVNET_TX_RING_PHYS_ADDR := 0x100.
Abbreviation NVNET_RX_RING_PHYS_ADDR := 0x104.
Abbreviation NVNET_RING_SIZE := 0x108.
Abbreviation NVNET_RING_SIZE_TX := 0x0000FFFF.
Abbreviation NVNET_RING_SIZE_RX := 0xFFFF0000.
Abbreviation NVNET_TX_RING_CURRENT_DESC_PHYS_ADDR := 0x11C.
Abbreviation NVNET_RX_RING_CURRENT_DESC_PHYS_ADDR := 0x120.
Abbreviation NVNET_UNKNOWN_SETUP_REG5 := 0x130.
Abbreviation NVNET_UNKNOWN_SETUP_REG5_BIT31 := 0x80000000.
Abbreviation NVNET_TX_RING_NEXT_DESC_PHYS_ADDR := 0x134.
Abbreviation NVNET_RX_RING_NEXT_DESC_PHYS_ADDR := 0x138.
Abbreviation NVNET_TX_RX_CONTROL := 0x144.
Abbreviation NVNET_TX_RX_CONTROL_KICK := 0x00000001.
Abbreviation NVNET_TX_RX_CONTROL_BIT1 := 0x00000002.
Abbreviation NVNET_TX_RX_CONTROL_BIT2 := 0x00000004.
Abbreviation NVNET_TX_RX_CONTROL_IDLE := 0x00000008.
Abbreviation NVNET_TX_RX_CONTROL_RESET := 0x00000010.
Abbreviation NVNET_MII_STATUS := 0x180.
Abbreviation NVNET_MII_STATUS_LINKCHANGE := 0x00000008.
Abbreviation NVNET_ADAPTER_CONTROL := 0x188.
Abbreviation NVNET_ADAPTER_CONTROL_LINKUP := 0x00000004.
Abbreviation NVNET_MDIO_ADDR := 0x190.
Abbreviation NVNET_MDIO_ADDR_INUSE := 0x00008000.
Abbreviation NVNET_MDIO_ADDR_WRITE := 0x00000400.
Abbreviation NVNET_MDIO_ADDR_PHYADDR := 0x000003E0.
Abbreviation NVNET_MDIO_ADDR_PHYREG := 0x0000001F.
Abbreviation NVNET_MDIO_DATA := 0x194.

Abbreviation NV_TX_LASTPACKET := 0x0001.
Abbreviation NV_TX_RETRYERROR := 0x0008.
Abbreviation NV_TX_DEFERRED := 0x0400.
Abbreviation NV_TX_CARRIERLOST := 0x0800.
Abbreviation NV_TX_LATECOLLISION := 0x1000.
Abbreviation NV_TX_UNDERFLOW := 0x2000.
Abbreviation NV_TX_ERROR := 0x4000.
Abbreviation NV_TX_VALID := 0x8000.
Abbreviation NV_RX_DESCRIPTORVALID := 0x0001.
Abbreviation NV_RX_BIT4 := 0x0010.
Abbreviation NV_RX_AVAIL := 0x8000.

Abbreviation RX_ALLOC_BUFSIZE := 1628.
Abbreviation TX_ALLOC_BUFSIZE := 1628.

Abbreviation MII_BMCR := 0.
Abbreviation MII_BMSR := 1.
Abbreviation MII_ANAR := 4.
Abbreviation MII_ANLPAR := 5.
Abbreviation MII_BMCR_AUTOEN := 0x1000.
Abbreviation MII_BMCR_FD := 0x0100.
Abbreviation MII_BMSR_AN_COMP := 0x0020.
Abbreviation MII_BMSR_AUTONEG := 0x0008.
Abbreviation MII_BMSR_LINK_ST := 0x0004.
Abbreviation MII_ANLPAR_ACK := 0x4000.
Abbreviation MII_ANLPAR_T4 := 0x0200.
Abbreviation MII_ANLPAR_TXFD := 0x0100.
Abbreviation MII_ANLPAR_TX := 0x0080.
Abbreviation MII_ANLPAR_10FD := 0x0040.
Abbreviation MII_ANLPAR_10 := 0x0020.

(** ** State *)

Record NvNetState (M : Type) := mkNvNet {
  regs : list Z;
  phy_regs : list Z;
  tx_dma_buf_offset : Z;
  tx_dma_buf : list Z;
  rx_dma_buf : list Z;
  autoneg_timer_at : option Z;
  tx_ring_index : Z;
  rx_ring_index : Z;
  link_down : bool;
  irq : bool;
  mem : M;
  sent : list (list Z)
}.
Arguments mkNvNet {M}.
Arguments regs {M}.
Arguments phy_regs {M}.
Arguments tx_dma_buf_offset {M}.
Arguments tx_dma_buf {M}.
Arguments rx_dma_buf {M}.
Arguments autoneg_timer_at {M}.
Arguments tx_ring_index {M}.
Arguments rx_ring_index {M}.
Arguments link_down {M}.
Arguments irq {M}.
Arguments mem {M}.
Arguments sent {M}.

#[export] Instance eta_NvNetState {M} : Eta (NvNetState M) := fun s =>
  mkNvNet (regs s) (phy_regs s) (tx_dma_buf_offset s) (tx_dma_buf s) (rx_dma_buf s) (autoneg_timer_at s)
    (tx_ring_index s) (rx_ring_index s) (link_down s) (irq s) (mem s) (sent s).

Record RingDesc := mkRingDesc {
  buffer_addr : Z;
  length_ : Z;
  flags : Z
}.

Abbreviation sizeof_RingDesc := 8.

Section nvnet.
Context {M : Type} `{DmaMemory M}.
Implicit Types s : NvNetState M.

Definition get_reg_ext s (addr size : Z) : outcome Z :=
  c_assert (addr <? MMIO_SIZE);;
  c_assert (addr .& (size - 1) =? 0);;
  if size =? 4 then le_val <$> slice (regs s) addr 4
  else if size =? 2 then le_val <$> slice (regs s) addr 2
  else if size =? 1 then rd (regs s) addr
  else AssertFail.

Definition get_reg s (addr : Z) : outcome Z := get_reg_ext s addr 4.

Definition set_reg_ext s (addr val size : Z) : outcome (NvNetState M) :=
  c_assert (addr <? MMIO_SIZE);;
  c_assert (addr .& (size - 1) =? 0);;
  r ← (if size =? 4 then blit (regs s) addr (le_bytes 4 val)
       else if size =? 2 then blit (regs s) addr (le_bytes 2 val)
       else if size =? 1 then wr (regs s) addr (u8 val)
       else AssertFail);
  Ok (s <| regs := r |>).

Definition set_reg s (addr val : Z) : outcome (NvNetState M) := set_reg_ext s addr val 4.

Definition or_reg s (addr val : Z) : outcome (NvNetState M) :=
  v ← get_reg s addr; set_reg s addr (v .| val).

Definition and_reg s (addr val : Z) : outcome (NvNetState M) :=
  v ← get_reg s addr; set_reg s addr (v .& val).

Definition set_reg_with_mask s (addr val w_mask : Z) : outcome (NvNetState M) :=
  v ← get_reg s addr;
  set_reg s addr ((v .& (val .| u32 (Z.lnot w_mask))) .| (val .& w_mask)).

Definition update_irq s : outcome (NvNetState M) :=
  irq_status ← get_reg s NVNET_IRQ_STATUS;
  irq_mask ← get_reg s NVNET_IRQ_MASK;
  Ok (s <| irq := flag irq_mask irq_status |>).

Definition set_intr_status s (status : Z) : outcome (NvNetState M) :=
  s ← or_reg s NVNET_IRQ_STATUS status;
  update_irq s.

Definition set_mii_intr_status s (status : Z) : outcome (NvNetState M) :=
  s ← or_reg s NVNET_MII_STATUS status;
  set_intr_status s NVNET_IRQ_STATUS_MIIEVENT.

Definition send_packet s (buf : list Z) : NvNetState M := s <| sent := sent s ++ [buf] |>.

Definition get_tx_ring_size s : outcome Z :=
  ring_size ← get_reg s NVNET_RING_SIZE;
  Ok (u16 (GET_MASK ring_size NVNET_RING_SIZE_TX + 1)).

Definition get_rx_ring_size s : outcome Z :=
  ring_size ← get_reg s NVNET_RING_SIZE;
  Ok (u16 (GET_MASK ring_size NVNET_RING_SIZE_RX + 1)).

Definition reset_descriptor_ring_pointers s : outcome (NvNetState M) :=
  base_desc_addr ← get_reg s NVNET_TX_RING_PHYS_ADDR;
  s ← set_reg s NVNET_TX_RING_CURRENT_DESC_PHYS_ADDR base_desc_addr;
  s ← set_reg s NVNET_TX_RING_NEXT_DESC_PHYS_ADDR base_desc_addr;
  base_desc_addr ← get_reg s NVNET_RX_RING_PHYS_ADDR;
  s ← set_reg s NVNET_RX_RING_CURRENT_DESC_PHYS_ADDR base_desc_addr;
  set_reg s NVNET_RX_RING_NEXT_DESC_PHYS_ADDR base_desc_addr.

Definition link_up s : outcome bool :=
  v ← rd (phy_regs s) MII_BMSR; Ok (flag v MII_BMSR_LINK_ST).

Definition dma_enabled s : outcome bool :=
  v ← get_reg s NVNET_TX_RX_CONTROL; Ok (v .& NVNET_TX_RX_CONTROL_BIT2 =? 0).

Definition set_dma_idle s (idle : bool) : outcome (NvNetState M) :=
  if idle then or_reg s NVNET_TX_RX_CONTROL NVNET_TX_RX_CONTROL_IDLE
  else and_reg s NVNET_TX_RX_CONTROL (u32 (Z.lnot NVNET_TX_RX_CONTROL_IDLE)).

Definition rx_enabled s : outcome bool :=
  v ← get_reg s NVNET_RECEIVER_CONTROL; Ok (flag v NVNET_RECEIVER_CONTROL_START).

(** ** Receiving *)

(** [sizeof] makes the sums 64 bits wide; the assignment truncates the limit. *)
Definition update_current_rx_ring_desc_addr s : outcome (NvNetState M * Z) :=
  base_desc_addr ← get_reg s NVNET_RX_RING_PHYS_ADDR;
  n ← get_rx_ring_size s;
  let max_desc_addr := u32 (base_desc_addr + n * sizeof_RingDesc) in
  cur_desc_addr ← get_reg s NVNET_RX_RING_NEXT_DESC_PHYS_ADDR;
  let cur_desc_addr :=
    if (cur_desc_addr <? base_desc_addr) || (cur_desc_addr + sizeof_RingDesc >? max_desc_addr)
    then base_desc_addr else cur_desc_addr in
  s ← set_reg s NVNET_RX_RING_CURRENT_DESC_PHYS_ADDR cur_desc_addr;
  Ok (s, cur_desc_addr).

Definition advance_next_rx_ring_desc_addr s : outcome (NvNetState M) :=
  base_desc_addr ← get_reg s NVNET_RX_RING_PHYS_ADDR;
  n ← get_rx_ring_size s;
  let max_desc_addr := u32 (base_desc_addr + n * sizeof_RingDesc) in
  cur_desc_addr ← get_reg s NVNET_RX_RING_CURRENT_DESC_PHYS_ADDR;
  let next_desc_addr := u32 (cur_desc_addr + sizeof_RingDesc) in
  let next_desc_addr := if next_desc_addr >=? max_desc_addr then base_desc_addr else next_desc_addr in
  set_reg s NVNET_RX_RING_NEXT_DESC_PHYS_ADDR next_desc_addr.

Definition load_ring_desc s (desc_addr : Z) : RingDesc :=
  let raw_desc := pci_dma_read (mem s) desc_addr sizeof_RingDesc in
  mkRingDesc (le_val (take 4 raw_desc)) (le_val (take 2 (drop 4 raw_desc))) (le_val (take 2 (drop 6 raw_desc))).

Definition store_ring_desc s (desc_addr : Z) (desc : RingDesc) : NvNetState M :=
  s <| mem := pci_dma_write (mem s) desc_addr
                (le_bytes 4 (buffer_addr desc) ++ le_bytes 2 (length_ desc) ++ le_bytes 2 (flags desc)) |>.

Definition rx_buf_available s : outcome (NvNetState M * bool) :=
  '(s, cur_desc_addr) ← update_current_rx_ring_desc_addr s;
  let desc := load_ring_desc s cur_desc_addr in
  Ok (s, flag (flags desc) NV_RX_AVAIL).

Definition nvnet_can_receive s : outcome (NvNetState M * bool) :=
  rx_en ← rx_enabled s;
  dma_en ← dma_enabled s;
  link_en ← link_up s;
  '(s, buf_avail) ← rx_buf_available s;
  Ok (s, rx_en && dma_en && link_en && buf_avail).

Definition dma_packet_to_guest s (buf : list Z) : outcome (NvNetState M * Z) :=
  '(s, can_rx) ← nvnet_can_receive s;
  if negb can_rx then Ok (s, -1) else
  s ← set_dma_idle s false;
  '(s, cur_desc_addr) ← update_current_rx_ring_desc_addr s;
  let desc := load_ring_desc s cur_desc_addr in
  '(s, rval) ←
    (if flag (flags desc) NV_RX_AVAIL then
       c_assert (length_ desc + 1 >=? zlen buf);;
       let s := s <| mem := pci_dma_write (mem s) (buffer_addr desc) buf |> in
       let desc := mkRingDesc (buffer_addr desc) (u16 (zlen buf)) (NV_RX_BIT4 .| NV_RX_DESCRIPTORVALID) in
       let s := store_ring_desc s cur_desc_addr desc in
       s ← set_intr_status s NVNET_IRQ_STATUS_RX;
       s ← advance_next_rx_ring_desc_addr s;
       Ok (s, zlen buf)
     else Ok (s, -1));
  s ← set_dma_idle s true;
  Ok (s, rval).

(** ** Transmitting *)

Definition tx_enabled s : outcome bool :=
  v ← get_reg s NVNET_TRANSMITTER_CONTROL; Ok (flag v NVNET_TRANSMITTER_CONTROL_START).

Definition can_transmit s : outcome bool :=
  tx_en ← tx_enabled s;
  dma_en ← dma_enabled s;
  link_en ← link_up s;
  Ok (tx_en && dma_en && link_en).

Definition update_current_tx_ring_desc_addr s : outcome (NvNetState M * Z) :=
  base_desc_addr ← get_reg s NVNET_TX_RING_PHYS_ADDR;
  n ← get_tx_ring_size s;
  let max_desc_addr := u32 (base_desc_addr + n * sizeof_RingDesc) in
  cur_desc_addr ← get_reg s NVNET_TX_RING_NEXT_DESC_PHYS_ADDR;
  let cur_desc_addr :=
    if (cur_desc_addr <? base_desc_addr) || (cur_desc_addr + sizeof_RingDesc >? max_desc_addr)
    then base_desc_addr else cur_desc_addr in
  s ← set_reg s NVNET_TX_RING_CURRENT_DESC_PHYS_ADDR cur_desc_addr;
  Ok (s, cur_desc_addr).

Definition advance_next_tx_ring_desc_addr s : outcome (NvNetState M) :=
  base_desc_addr ← get_reg s NVNET_TX_RING_PHYS_ADDR;
  n ← get_tx_ring_size s;
  let max_desc_addr := u32 (base_desc_addr + n * sizeof_RingDesc) in
  cur_desc_addr ← get_reg s NVNET_TX_RING_CURRENT_DESC_PHYS_ADDR;
  let next_desc_addr := u32 (cur_desc_addr + sizeof_RingDesc) in
  let next_desc_addr := if next_desc_addr >=? max_desc_addr then base_desc_addr else next_desc_addr in
  set_reg s NVNET_TX_RING_NEXT_DESC_PHYS_ADDR next_desc_addr.

Definition tx_done_flags (f : Z) : Z :=
  f .& u16 (Z.lnot (NV_TX_VALID .| NV_TX_RETRYERROR .| NV_TX_DEFERRED .| NV_TX_CARRIERLOST .|
                    NV_TX_LATECOLLISION .| NV_TX_UNDERFLOW .| NV_TX_ERROR)).

(** What one round of the loop on the descriptors does next. *)
Inductive tx_next := TxBreak | TxSent | TxContinue.

Definition tx_descriptor s : outcome (NvNetState M * tx_next) :=
  '(s, cur_desc_addr) ← update_current_tx_ring_desc_addr s;
  let desc := load_ring_desc s cur_desc_addr in
  let len := u16 (length_ desc + 1) in
  if negb (flag (flags desc) NV_TX_VALID) then Ok (s, TxBreak) else
  c_assert (u32 (tx_dma_buf_offset s + len) <=? TX_ALLOC_BUFSIZE);;
  buf ← blit (tx_dma_buf s) (tx_dma_buf_offset s) (pci_dma_read (mem s) (buffer_addr desc) len);
  let s := s <| tx_dma_buf := buf |> <| tx_dma_buf_offset := u32 (tx_dma_buf_offset s + len) |> in
  let is_last_packet := flag (flags desc) NV_TX_LASTPACKET in
  s ← (if is_last_packet then
         pkt ← slice (tx_dma_buf s) 0 (tx_dma_buf_offset s);
         Ok ((send_packet s pkt) <| tx_dma_buf_offset := 0 |>)
       else Ok s);
  let desc := mkRingDesc (buffer_addr desc) (length_ desc) (tx_done_flags (flags desc)) in
  let s := store_ring_desc s cur_desc_addr desc in
  s ← advance_next_tx_ring_desc_addr s;
  Ok (s, if is_last_packet then TxSent else TxContinue).

(** The loop from round [i]; the flag says whether a packet was sent. The ring
    has fewer than 2^16 descriptors. *)
Fixpoint tx_loop (fuel : nat) (i : Z) s : outcome (NvNetState M * bool) :=
  n ← get_tx_ring_size s;
  if negb (i <? n) then Ok (s, false) else
  match fuel with
  | O => NoFuel
  | S fuel =>
      '(s, next) ← tx_descriptor s;
      match next with
      | TxBreak => Ok (s, false)
      | TxSent => Ok (s, true)
      | TxContinue => tx_loop fuel (i + 1) s
      end
  end.

Definition dma_packet_from_guest s : outcome (NvNetState M) :=
  can_tx ← can_transmit s;
  if negb can_tx then Ok s else
  s ← set_dma_idle s false;
  '(s, packet_sent) ← tx_loop (Z.to_nat (2 ^ 16)) 0 s;
  s ← set_dma_idle s true;
  if packet_sent : bool then set_intr_status s NVNET_IRQ_STATUS_TX else Ok s.

(** ** The packet filter *)

Definition is_packet_oversized (size : Z) : bool := size >? RX_ALLOC_BUFSIZE.

Definition is_broadcast_ether_addr (addr : list Z) : outcome bool :=
  a0 ← rd addr 0; a1 ← rd addr 1; a2 ← rd addr 2;
  a3 ← rd addr 3; a4 ← rd addr 4; a5 ← rd addr 5;
  Ok (a0 .& a1 .& a2 .& a3 .& a4 .& a5 =? 0xff).

(** The bytes of two registers, as [uint32_t addr[2]] holds them. *)
Definition addr_bytes (a b : Z) : list Z := le_bytes 4 a ++ le_bytes 4 b.

Definition receive_filter s (buf : list Z) (size : Z) : outcome bool :=
  if size <? 6 then Ok false else
  rctl ← get_reg s NVNET_PACKET_FILTER;
  bcast ← is_broadcast_ether_addr buf;
  if bcast : bool then Ok true else
  if negb (flag rctl NVNET_PACKET_FILTER_MYADDR) then Ok true else
  a ← get_reg s NVNET_MULTICAST_ADDR_A;
  b ← get_reg s NVNET_MULTICAST_ADDR_B;
  let addr := addr_bytes a b in
  mc_off ← is_broadcast_ether_addr addr;
  dest ← slice buf 0 6;
  mcast ← (if mc_off : bool then Ok false else
           mask_a ← get_reg s NVNET_MULTICAST_MASK_A;
           mask_b ← get_reg s NVNET_MULTICAST_MASK_B;
           let dest_addr := addr_bytes (le_val (take 4 dest) .& mask_a) (le_val (drop 4 dest) .& mask_b) in
           Ok (bool_decide (take 6 dest_addr = take 6 addr)));
  if mcast : bool then Ok true else
  a ← get_reg s NVNET_MAC_ADDR_A;
  b ← get_reg s NVNET_MAC_ADDR_B;
  Ok (bool_decide (dest = take 6 (addr_bytes a b))).

Definition nvnet_receive_iov s (iov : list (list Z)) : outcome (NvNetState M * Z) :=
  let pkt := concat iov in
  let size := zlen pkt in
  if is_packet_oversized size then Ok (s, size) else
  buf ← blit (rx_dma_buf s) 0 pkt;
  let s := s <| rx_dma_buf := buf |> in
  ok ← receive_filter s buf size;
  if negb ok then Ok (s, size) else
  pkt ← slice buf 0 size;
  dma_packet_to_guest s pkt.

Definition nvnet_receive s (buf : list Z) : outcome (NvNetState M * Z) := nvnet_receive_iov s [buf].

(** ** Link and PHY *)

Definition phy_update s (reg : Z) (f : Z -> Z) : outcome (NvNetState M) :=
  v ← rd (phy_regs s) reg;
  r ← wr (phy_regs s) reg (f v);
  Ok (s <| phy_regs := r |>).

Definition update_regs_on_link_down s : outcome (NvNetState M) :=
  s ← phy_update s MII_BMSR (fun v => v .& u32 (Z.lnot MII_BMSR_LINK_ST));
  s ← phy_update s MII_BMSR (fun v => v .& u32 (Z.lnot MII_BMSR_AN_COMP));
  s ← phy_update s MII_ANLPAR (fun v => v .& u32 (Z.lnot MII_ANLPAR_ACK));
  and_reg s NVNET_ADAPTER_CONTROL (u32 (Z.lnot NVNET_ADAPTER_CONTROL_LINKUP)).

Definition set_link_down s : outcome (NvNetState M) :=
  s ← update_regs_on_link_down s;
  set_mii_intr_status s NVNET_MII_STATUS_LINKCHANGE.

Definition update_regs_on_link_up s : outcome (NvNetState M) :=
  s ← phy_update s MII_BMSR (fun v => v .| MII_BMSR_LINK_ST);
  or_reg s NVNET_ADAPTER_CONTROL NVNET_ADAPTER_CONTROL_LINKUP.

Definition set_link_up s : outcome (NvNetState M) :=
  s ← update_regs_on_link_up s;
  set_mii_intr_status s NVNET_MII_STATUS_LINKCHANGE.

(** [now] is the virtual clock in milliseconds. *)
Definition restart_autoneg s (now : Z) : NvNetState M :=
  s <| autoneg_timer_at := Some (now + AUTONEG_DURATION_MS) |>.

Definition autoneg_done s : outcome (NvNetState M) :=
  s ← phy_update s MII_ANLPAR (fun v => v .| MII_ANLPAR_ACK);
  s ← phy_update s MII_BMSR (fun v => v .| MII_BMSR_AN_COMP);
  set_link_up s.

Definition autoneg_timer s : outcome (NvNetState M) :=
  if negb (link_down s) then autoneg_done s else Ok s.

Definition have_autoneg s : outcome bool :=
  v ← rd (phy_regs s) MII_BMCR; Ok (flag v MII_BMCR_AUTOEN).

(** The condition under which the link waits for negotiation. *)
Definition autoneg_pending s : outcome bool :=
  an ← have_autoneg s;
  v ← rd (phy_regs s) MII_BMSR;
  Ok (an && negb (flag v MII_BMSR_AN_COMP)).

Definition nvnet_set_link_status s (now : Z) : outcome (NvNetState M) :=
  if link_down s then set_link_down s
  else
    pending ← autoneg_pending s;
    if pending : bool then Ok (restart_autoneg s now) else set_link_up s.

Definition phy_reg_read s (reg : Z) : outcome Z :=
  if reg <? zlen (phy_regs s) then v ← rd (phy_regs s) reg; Ok (u16 v) else Ok 0.

Definition phy_reg_write s (reg value : Z) : outcome (NvNetState M) :=
  if reg <? zlen (phy_regs s) then
    r ← wr (phy_regs s) reg value; Ok (s <| phy_regs := r |>)
  else Ok s.

Definition mdio_read s : outcome (NvNetState M) :=
  mdio_addr ← get_reg s NVNET_MDIO_ADDR;
  let phy_addr := u8 (GET_MASK mdio_addr NVNET_MDIO_ADDR_PHYADDR) in
  let phy_reg := u8 (GET_MASK mdio_addr NVNET_MDIO_ADDR_PHYREG) in
  mdio_data ← (if phy_addr =? PHY_ADDR then phy_reg_read s phy_reg else Ok (u32 (-1)));
  s ← set_reg s NVNET_MDIO_DATA mdio_data;
  and_reg s NVNET_MDIO_ADDR (u32 (Z.lnot NVNET_MDIO_ADDR_INUSE)).

Definition mdio_write s : outcome (NvNetState M) :=
  mdio_addr ← get_reg s NVNET_MDIO_ADDR;
  mdio_data ← get_reg s NVNET_MDIO_DATA;
  let phy_addr := u8 (GET_MASK mdio_addr NVNET_MDIO_ADDR_PHYADDR) in
  let phy_reg := u8 (GET_MASK mdio_addr NVNET_MDIO_ADDR_PHYREG) in
  s ← (if phy_addr =? PHY_ADDR then phy_reg_write s phy_reg (u16 mdio_data) else Ok s);
  and_reg s NVNET_MDIO_ADDR (u32 (Z.lnot NVNET_MDIO_ADDR_INUSE)).

(** ** Register accesses *)

Definition nvnet_mmio_read s (addr size : Z) : outcome Z := get_reg_ext s addr size.

Definition nvnet_mmio_write s (addr val size : Z) : outcome (NvNetState M) :=
  c_assert (addr .& 3 =? 0);;
  if addr =? NVNET_MDIO_ADDR then
    c_assert (size =? 4);;
    s ← set_reg_ext s addr (u32 val) size;
    if flag val NVNET_MDIO_ADDR_WRITE then mdio_write s else mdio_read s
  else if addr =? NVNET_TX_RX_CONTROL then
    s ← set_reg_with_mask s addr (u32 val) (u32 (Z.lnot NVNET_TX_RX_CONTROL_IDLE));
    s ← (if flag val NVNET_TX_RX_CONTROL_KICK then dma_packet_from_guest s else Ok s);
    s ← (if flag val NVNET_TX_RX_CONTROL_RESET then
           s ← reset_descriptor_ring_pointers s;
           Ok (s <| tx_dma_buf_offset := 0 |>)
         else Ok s);
    if flag val NVNET_TX_RX_CONTROL_BIT1 then set_reg s NVNET_IRQ_STATUS 0
    else if val =? 0 then set_reg s NVNET_UNKNOWN_SETUP_REG5 NVNET_UNKNOWN_SETUP_REG5_BIT31
    else Ok s
  else if (addr =? NVNET_IRQ_STATUS) || (addr =? NVNET_MII_STATUS) then
    v ← get_reg_ext s addr size;
    s ← set_reg_ext s addr (u32 (v .& u64 (Z.lnot val))) size;
    update_irq s
  else if addr =? NVNET_IRQ_MASK then
    s ← set_reg_ext s addr (u32 val) size;
    update_irq s
  else set_reg_ext s addr (u32 val) size.

Definition nvnet_io_read s (addr size : Z) : Z := 0.
Definition nvnet_io_write s (addr val size : Z) : NvNetState M := s.

(** ** Reset and snapshots *)

Definition phy_reg_init : list Z :=
  [MII_BMCR_FD .| MII_BMCR_AUTOEN;
   MII_BMSR_AUTONEG .| MII_BMSR_AN_COMP .| MII_BMSR_LINK_ST; 0; 0;
   MII_ANLPAR_10 .| MII_ANLPAR_10FD .| MII_ANLPAR_TX .| MII_ANLPAR_TXFD .| MII_ANLPAR_T4;
   MII_ANLPAR_10 .| MII_ANLPAR_10FD .| MII_ANLPAR_TX .| MII_ANLPAR_TXFD .| MII_ANLPAR_T4].

Definition reset_phy_regs s : outcome (NvNetState M) :=
  c_assert (zlen (phy_regs s) >=? zlen phy_reg_init);;
  r ← blit (replicate (length (phy_regs s)) 0) 0 phy_reg_init;
  Ok (s <| phy_regs := r |>).

Definition nvnet_reset s : outcome (NvNetState M) :=
  let s := s <| regs := replicate (length (regs s)) 0 |> in
  s ← or_reg s NVNET_TX_RX_CONTROL NVNET_TX_RX_CONTROL_IDLE;
  s ← reset_phy_regs s;
  let s := s <| tx_dma_buf := replicate (length (tx_dma_buf s)) 0 |>
             <| rx_dma_buf := replicate (length (rx_dma_buf s)) 0 |>
             <| tx_dma_buf_offset := 0 |> <| autoneg_timer_at := None |> in
  s ← (if link_down s then update_regs_on_link_down s else Ok s);
  Ok (s <| tx_ring_index := 0 |> <| rx_ring_index := 0 |>).

(** The two moduli are divisions by zero when the ring size wraps to 0. *)
Definition nvnet_post_load s (version_id now : Z) : outcome (NvNetState M) :=
  s ← (if version_id <? 2 then
         s ← reset_phy_regs s;
         base ← get_reg s NVNET_TX_RING_PHYS_ADDR;
         n ← get_tx_ring_size s;
         (if n =? 0 then Undef else Ok tt);;
         let next_desc_addr := u32 (base + tx_ring_index s mod n * sizeof_RingDesc) in
         s ← set_reg s NVNET_TX_RING_NEXT_DESC_PHYS_ADDR next_desc_addr;
         let s := s <| tx_ring_index := 0 |> in
         base ← get_reg s NVNET_RX_RING_PHYS_ADDR;
         n ← get_rx_ring_size s;
         (if n =? 0 then Undef else Ok tt);;
         let next_desc_addr := u32 (base + rx_ring_index s mod n * sizeof_RingDesc) in
         s ← set_reg s NVNET_RX_RING_NEXT_DESC_PHYS_ADDR next_desc_addr;
         Ok (s <| rx_ring_index := 0 |>)
       else Ok s);
  v ← rd (phy_regs s) MII_BMSR;
  let s := s <| link_down := v .& MII_BMSR_LINK_ST =? 0 |> in
  pending ← autoneg_pending s;
  if pending : bool then Ok (restart_autoneg (s <| link_down := false |>) now) else Ok s.

End nvnet.

(** ** Safety and the interrupt line *)

Create HintDb nvnet.

Section safety.
Context {M : Type} `{DmaMemoryLaws M}.
Implicit Types s : NvNetState M.

(** The arrays have the sizes of their declarations. *)
Record wf s : Prop := {
  wf_regs : zlen (regs s) = MMIO_SIZE;
  wf_regs_bytes : Forall (in_u 8) (regs s);
  wf_phy : zlen (phy_regs s) = 6;
  wf_tx : zlen (tx_dma_buf s) = TX_ALLOC_BUFSIZE;
  wf_rx : zlen (rx_dma_buf s) = RX_ALLOC_BUFSIZE;
  wf_off : 0 <= tx_dma_buf_offset s <= TX_ALLOC_BUFSIZE
}.

(** The value of a 32-bit register. *)
Definition reg s (a : Z) : Z := le_val (take 4 (drop (Z.to_nat a) (regs s))).

(** An enabled interrupt is pending. *)
Definition pending s : bool := flag (reg s NVNET_IRQ_MASK) (reg s NVNET_IRQ_STATUS).

(** [s'] is well formed and [s] with other registers or contents. *)
Definition quiet s s' : Prop := wf s' /\ pending s' = pending s /\ irq s' = irq s.

(** No enabled interrupt without the line up. *)
Definition nvnet_inv s : Prop := wf s /\ (pending s = true -> irq s = true).

Lemma quiet_refl s : wf s -> quiet s s.
Proof. done. Qed.

Lemma quiet_trans s1 s2 s3 : quiet s1 s2 -> quiet s2 s3 -> quiet s1 s3.
Proof. unfold quiet. intros (? & ? & ?) (? & ? & ?). split; [done |]. split; congruence. Qed.

Lemma quiet_inv s s' : quiet s s' -> nvnet_inv s -> nvnet_inv s'.
Proof. unfold quiet, nvnet_inv. intros (? & -> & ->) [_ ?]. done. Qed.

Lemma aligned_room a n : 0 <= a < MMIO_SIZE -> n = 4 \/ n = 2 \/ n = 1 ->
  (a .& (n - 1) =? 0) = true -> a + n <= MMIO_SIZE.
Proof.
  intros Ha Hn E%Z.eqb_eq.
  assert (n - 1 = Z.ones 2 \/ n - 1 = Z.ones 1 \/ n - 1 = Z.ones 0) as [En | [En | En]]
    by (destruct Hn as [-> | [-> | ->]]; auto);
    rewrite En, Z.land_ones in E by lia; (apply Z.mod_divide in E as [k ->]; [| lia]);
    destruct Hn as [-> | [-> | ->]]; try done; cbn in *; lia.
Qed.

Lemma get_reg_ext_safe s a n : wf s -> 0 <= a -> safe (fun _ => True) (get_reg_ext s a n).
Proof.
  intros Hs Ha. unfold get_reg_ext. apply safe_assert. intros Hm%Z.ltb_lt. apply safe_assert. intros Hal.
  pose proof (wf_regs s Hs).
  destruct (Z.eqb_spec n 4) as [-> |]; [| destruct (Z.eqb_spec n 2) as [-> |]; [| destruct (Z.eqb_spec n 1) as [-> |]]].
  1,2: rewrite slice_ok; [done | lia | lia | apply aligned_room in Hal; lia].
  - by rewrite rd_nthZ by lia.
  - done.
Qed.

Lemma wf_set_regs s r : wf s -> zlen r = MMIO_SIZE -> Forall (in_u 8) r -> wf (s <| regs := r |>).
Proof. by intros []; constructor. Qed.

(** A register write replaces [n] bytes at [a]. *)
Lemma set_reg_ext_run s a v n : wf s -> 0 <= a ->
  safe (fun s' => exists r, s' = s <| regs := r |> /\ blit (regs s) a (le_bytes (Z.to_nat n) v) = Ok r)
    (set_reg_ext s a v n).
Proof.
  intros Hs Ha. unfold set_reg_ext. apply safe_assert. intros Hm%Z.ltb_lt. apply safe_assert. intros Hal.
  pose proof (wf_regs s Hs) as Hr.
  assert (forall l, zlen l = n -> n = 4 \/ n = 2 \/ n = 1 -> is_ok (blit (regs s) a l)) as Hb.
  { intros l Hl Hn. apply aligned_room in Hal; [| lia | done]. rewrite blit_ok by lia. by eexists. }
  eapply (safe_bind (fun r => blit (regs s) a (le_bytes (Z.to_nat n) v) = Ok r)).
  - rewrite wr_blit. change [u8 v] with (le_bytes 1 v).
    destruct (Z.eqb_spec n 4) as [-> |]; [| destruct (Z.eqb_spec n 2) as [-> |]; [| destruct (Z.eqb_spec n 1) as [-> |]]].
    1-3: match goal with |- context [Z.to_nat ?k] => let m := eval compute in (Z.to_nat k) in
        change (Z.to_nat k) with m; destruct (Hb (le_bytes m v)) as [r ->]; [by rewrite length_le_bytes | by auto | done] end.
    done.
  - intros r E. by exists r.
Qed.

Lemma wf_blit s a n v r : wf s -> blit (regs s) a (le_bytes n v) = Ok r -> wf (s <| regs := r |>).
Proof.
  intros Hs E. apply wf_set_regs; [done | |].
  - rewrite (blit_length _ _ _ _ E). apply Hs.
  - eapply Forall_blit; [exact E | apply Hs | apply Forall_le_bytes].
Qed.

Lemma reg_slice s b : 0 <= b -> b + 4 <= zlen (regs s) -> slice (regs s) b 4 = Ok (take 4 (drop (Z.to_nat b) (regs s))).
Proof. intros. by rewrite slice_ok by lia. Qed.

Lemma reg_blit_ne s a n v r b : wf s -> blit (regs s) a (le_bytes n v) = Ok r ->
  0 <= b -> b + 4 <= MMIO_SIZE -> b + 4 <= a \/ a + Z.of_nat n <= b -> reg (s <| regs := r |>) b = reg s b.
Proof.
  intros Hs E Hb Hm Hd. pose proof (wf_regs s Hs). pose proof (blit_length _ _ _ _ E).
  assert (slice r b 4 = slice (regs s) b 4) as Es.
  { eapply slice_blit_ne; [exact E |]. rewrite length_le_bytes. lia. }
  rewrite !slice_ok in Es by lia. injection Es as Es. change (Z.to_nat 4) with 4%nat in Es.
  unfold reg. change (regs (s <| regs := r |>)) with r. by rewrite Es.
Qed.

(** A write that misses the status and the mask leaves the interrupt as it is. *)
Lemma set_reg_ext_quiet s a v n : wf s -> 8 <= a -> safe (quiet s) (set_reg_ext s a v n).
Proof.
  intros Hs Ha. eapply safe_mono; [apply set_reg_ext_run; [done | lia] |]. intros s' (r & -> & E).
  split; [by eapply wf_blit |]. split; [| done]. unfold pending.
  by rewrite !(reg_blit_ne s a _ v r) by (done || lia).
Qed.

Lemma set_reg_ext_wf s a v n : wf s -> 0 <= a -> safe wf (set_reg_ext s a v n).
Proof.
  intros Hs Ha. eapply safe_mono; [by apply set_reg_ext_run |]. intros s' (r & -> & E). by eapply wf_blit.
Qed.

Lemma get_reg_eq s a : wf s -> 0 <= a -> safe (fun v => v = reg s a) (get_reg s a).
Proof.
  intros Hs Ha. unfold get_reg, get_reg_ext. apply safe_assert. intros Hm%Z.ltb_lt. apply safe_assert. intros Hal.
  pose proof (wf_regs s Hs). cbn [Z.eqb Pos.eqb]. apply aligned_room in Hal; [| lia | auto].
  by rewrite reg_slice by lia.
Qed.

Lemma update_irq_inv s : wf s -> safe nvnet_inv (update_irq s).
Proof.
  intros Hs. unfold update_irq. eapply safe_bind; [by apply get_reg_eq |]. intros st ->.
  eapply safe_bind; [by apply get_reg_eq |]. intros mk ->. split; [by destruct Hs; constructor | done].
Qed.

Lemma quiet_wf s s' : quiet s s' -> wf s'.
Proof. by intros []. Qed.

(** Changes of the other fields. *)
Lemma quiet_other s s' :
  wf s' -> regs s' = regs s -> irq s' = irq s -> quiet s s'.
Proof. intros Hs E Ei. split; [done |]. unfold pending, reg. by rewrite E. Qed.

(** From quiet after the last call to quiet after the first. *)
Lemma safe_quiet_trans s s1 (m : outcome (NvNetState M)) : quiet s s1 -> safe (quiet s1) m -> safe (quiet s) m.
Proof. intros Q Hm. eapply safe_mono; [exact Hm |]. intros s2 Q2. by eapply quiet_trans. Qed.

(** One step of a run of code: the state of each call is quiet after the last. *)
Ltac chain := match goal with
  | |- wf ?s => first [done | eapply quiet_wf; eassumption]
  | Q : quiet ?a ?b |- quiet ?a ?b => exact Q
  | Q : quiet ?b ?c |- quiet ?a ?c => eapply quiet_trans; [| exact Q]; chain
  | W : wf ?a |- quiet ?a ?a => by apply quiet_refl
  end.

Ltac run := repeat (cbn beta zeta; match goal with
  | |- safe _ (c_assert _;; _) => apply safe_assert; intros ?
  | |- safe _ (get_reg _ _ ≫= _) => eapply safe_bind; [apply get_reg_eq; [chain | lia] | intros ? ->]
  | |- safe _ (_ ≫= _) => eapply safe_bind; [solve [eauto 2 with nvnet] | intros ? ?]
  | |- safe _ (let '(_, _) := ?p in _) => destruct p; cbn [fst snd] in *
  | |- safe _ (if ?b then _ else _) => destruct b eqn:?
  | |- safe _ (Ok _) => cbn [safe fst snd]; solve [chain | done]
  | |- safe _ _ => solve [eauto 2 with nvnet]
  | |- safe (quiet _) _ => eapply safe_quiet_trans; [| solve [eauto 2 with nvnet]]; chain
  end).

#[local] Hint Extern 1 (wf _) => chain : nvnet.
#[local] Hint Extern 1 (_ <= _) => lia : nvnet.

Lemma set_reg_quiet s a v : wf s -> 8 <= a -> safe (quiet s) (set_reg s a v).
Proof. apply set_reg_ext_quiet. Qed.
#[local] Hint Resolve set_reg_quiet set_reg_ext_quiet get_reg_ext_safe : nvnet.

Lemma or_reg_quiet s a v : wf s -> 8 <= a -> safe (quiet s) (or_reg s a v).
Proof. intros. unfold or_reg. run. Qed.

Lemma and_reg_quiet s a v : wf s -> 8 <= a -> safe (quiet s) (and_reg s a v).
Proof. intros. unfold and_reg. run. Qed.

Lemma set_reg_with_mask_quiet s a v m : wf s -> 8 <= a -> safe (quiet s) (set_reg_with_mask s a v m).
Proof. intros. unfold set_reg_with_mask. run. Qed.
#[local] Hint Resolve or_reg_quiet and_reg_quiet set_reg_with_mask_quiet : nvnet.

Lemma set_dma_idle_quiet s b : wf s -> safe (quiet s) (set_dma_idle s b).
Proof. intros. unfold set_dma_idle. run. Qed.

Lemma get_tx_ring_size_safe s : wf s -> safe (in_u 16) (get_tx_ring_size s).
Proof. intros. unfold get_tx_ring_size. run. by apply in_u_mod. Qed.

Lemma get_rx_ring_size_safe s : wf s -> safe (in_u 16) (get_rx_ring_size s).
Proof. intros. unfold get_rx_ring_size. run. by apply in_u_mod. Qed.
#[local] Hint Resolve set_dma_idle_quiet get_tx_ring_size_safe get_rx_ring_size_safe : nvnet.

Lemma reset_descriptor_ring_pointers_quiet s : wf s -> safe (quiet s) (reset_descriptor_ring_pointers s).
Proof.
  intros. unfold reset_descriptor_ring_pointers. run.
Qed.

Lemma link_up_safe s : wf s -> safe (fun _ => True) (link_up s).
Proof. intros Hs. unfold link_up. rewrite rd_nthZ; [done |]. rewrite (wf_phy s Hs). lia. Qed.

Lemma dma_enabled_safe s : wf s -> safe (fun _ => True) (dma_enabled s).
Proof. intros. unfold dma_enabled. run. Qed.

Lemma rx_enabled_safe s : wf s -> safe (fun _ => True) (rx_enabled s).
Proof. intros. unfold rx_enabled. run. Qed.

Lemma tx_enabled_safe s : wf s -> safe (fun _ => True) (tx_enabled s).
Proof. intros. unfold tx_enabled. run. Qed.
#[local] Hint Resolve link_up_safe dma_enabled_safe rx_enabled_safe tx_enabled_safe : nvnet.

Lemma can_transmit_safe s : wf s -> safe (fun _ => True) (can_transmit s).
Proof. intros. unfold can_transmit. run. Qed.

Lemma update_current_rx_quiet s : wf s -> safe (fun p => quiet s p.1) (update_current_rx_ring_desc_addr s).
Proof. intros. unfold update_current_rx_ring_desc_addr. run. Qed.

Lemma update_current_tx_quiet s : wf s -> safe (fun p => quiet s p.1) (update_current_tx_ring_desc_addr s).
Proof. intros. unfold update_current_tx_ring_desc_addr. run. Qed.

Lemma advance_next_rx_quiet s : wf s -> safe (quiet s) (advance_next_rx_ring_desc_addr s).
Proof. intros. unfold advance_next_rx_ring_desc_addr. run. Qed.

Lemma advance_next_tx_quiet s : wf s -> safe (quiet s) (advance_next_tx_ring_desc_addr s).
Proof. intros. unfold advance_next_tx_ring_desc_addr. run. Qed.
#[local] Hint Resolve can_transmit_safe update_current_rx_quiet update_current_tx_quiet
  advance_next_rx_quiet advance_next_tx_quiet : nvnet.

Lemma rx_buf_available_quiet s : wf s -> safe (fun p => quiet s p.1) (rx_buf_available s).
Proof. intros. unfold rx_buf_available. run. Qed.
#[local] Hint Resolve rx_buf_available_quiet : nvnet.

Lemma nvnet_can_receive_quiet s : wf s -> safe (fun p => quiet s p.1) (nvnet_can_receive s).
Proof. intros. unfold nvnet_can_receive. run. Qed.
#[local] Hint Resolve nvnet_can_receive_quiet : nvnet.

Lemma set_reg_wf s a v : wf s -> 0 <= a -> safe wf (set_reg s a v).
Proof. apply set_reg_ext_wf. Qed.

Lemma set_intr_status_inv s v : wf s -> safe nvnet_inv (set_intr_status s v).
Proof.
  intros. unfold set_intr_status, or_reg. eapply (safe_bind wf); [| apply update_irq_inv].
  eapply safe_bind; [apply get_reg_eq; [done | lia] |]. intros. by apply set_reg_wf.
Qed.

Lemma set_mii_intr_status_inv s v : wf s -> safe nvnet_inv (set_mii_intr_status s v).
Proof.
  intros. unfold set_mii_intr_status. eapply safe_bind; [by apply or_reg_quiet |].
  intros s1 Q. apply set_intr_status_inv. chain.
Qed.

Lemma safe_inv s (m : outcome (NvNetState M)) : nvnet_inv s -> safe (quiet s) m -> safe nvnet_inv m.
Proof. intros I Hm. eapply safe_mono; [exact Hm |]. intros s1 Q. by eapply quiet_inv. Qed.

Lemma dma_packet_to_guest_inv s buf : nvnet_inv s ->
  safe (fun p => nvnet_inv p.1) (dma_packet_to_guest s buf).
Proof.
  intros I. assert (wf s) by apply I. unfold dma_packet_to_guest.
  eapply safe_bind; [by apply nvnet_can_receive_quiet |]. intros [s1 can] Q1. cbn [fst] in Q1.
  destruct can; cbn [negb safe fst]; [| by eapply quiet_inv].
  eapply safe_bind; [eapply set_dma_idle_quiet; chain |]. intros s2 Q2.
  eapply safe_bind; [eapply update_current_rx_quiet; chain |]. intros [s3 cur] Q3. cbn [fst] in Q3.
  cbv zeta. eapply (safe_bind (fun p => nvnet_inv p.1)).
  - destruct (flag _ _); [| cbn; eapply quiet_inv; [| exact I]; chain].
    apply safe_assert. intros _. set (s4 := store_ring_desc _ _ _).
    assert (wf s4) as W4 by (destruct (quiet_wf _ _ Q3); by constructor).
    eapply safe_bind; [by apply set_intr_status_inv |]. intros s5 I5.
    eapply safe_bind; [apply advance_next_rx_quiet, I5 |]. intros s6 Q6. by eapply quiet_inv.
  - intros [s4 rv] I4. cbn [fst] in I4. eapply safe_bind; [apply set_dma_idle_quiet, I4 |].
    intros s5 Q5. by eapply quiet_inv.
Qed.

Lemma wf_tx_fields s buf off : wf s -> zlen buf = TX_ALLOC_BUFSIZE -> 0 <= off <= TX_ALLOC_BUFSIZE ->
  wf (s <| tx_dma_buf := buf |> <| tx_dma_buf_offset := off |>).
Proof. by intros []; constructor. Qed.

Lemma tx_descriptor_quiet s : wf s -> safe (fun p => quiet s p.1) (tx_descriptor s).
Proof.
  intros W. unfold tx_descriptor. eapply safe_bind; [by apply update_current_tx_quiet |].
  intros [s1 cur] Q1. cbn [fst] in Q1. cbv zeta. destruct (negb _); [exact Q1 |].
  set (len := u16 (_ + 1)). assert (0 <= len < 2 ^ 16) as Hlen by (apply Z.mod_pos_bound; lia).
  apply safe_assert. intros Hfit%Z.leb_le.
  destruct (quiet_wf _ _ Q1) as [R1 RB1 P1 T1 X1 O1].
  rewrite Z.mod_small in Hfit by lia.
  destruct (blit _ _ _) as [buf | | |] eqn:E; [| rewrite blit_ok in E; [done | lia | rewrite dma_read_length; lia] ..].
  rewrite ok_bind. rewrite Z.mod_small by lia. pose proof (blit_length _ _ _ _ E) as Lb.
  set (s2 := s1 <| tx_dma_buf := buf |> <| tx_dma_buf_offset := _ |>).
  assert (quiet s s2) as Q2.
  { eapply quiet_trans; [exact Q1 |]. apply quiet_other; [apply wf_tx_fields; [done | lia | lia] | done ..]. }
  clearbody s2. destruct (quiet_wf _ _ Q2) as [R2 RB2 P2 T2 X2 O2].
  eapply (safe_bind (quiet s)).
  - destruct (flag _ _); [| exact Q2]. rewrite slice_ok by lia. rewrite ok_bind.
    eapply quiet_trans; [exact Q2 |]. apply quiet_other; [by constructor | done ..].
  - intros s3 Q3. eapply safe_bind.
    + apply advance_next_tx_quiet. destruct (quiet_wf _ _ Q3). by constructor.
    + intros s4 Q4. cbn [safe fst]. eapply quiet_trans; [exact Q3 |]. eapply quiet_trans; [| exact Q4].
      apply quiet_other; [| done ..]. destruct (quiet_wf _ _ Q3). by constructor.
Qed.

Lemma tx_loop_quiet fuel i s : wf s -> 0 <= i -> 2 ^ 16 - i <= Z.of_nat fuel ->
  safe (fun p => quiet s p.1) (tx_loop fuel i s).
Proof.
  revert i s. induction fuel as [| fuel IH]; intros i s W Hi Hf; cbn [tx_loop];
    (eapply safe_bind; [by apply get_tx_ring_size_safe |]); intros n [_ Hn]; destruct (Z.ltb_spec i n); cbn [negb];
    try (by cbn; apply quiet_refl).
  - cbn in Hf. lia.
  - eapply safe_bind; [by apply tx_descriptor_quiet |]. intros [s1 next] Q1. cbn [fst] in Q1.
    destruct next; [exact Q1 | exact Q1 |].
    eapply safe_mono; [apply IH; [chain | lia | lia] |]. intros [s2 b] Q2. by eapply quiet_trans.
Qed.

Lemma dma_packet_from_guest_inv s : nvnet_inv s -> safe nvnet_inv (dma_packet_from_guest s).
Proof.
  intros I. assert (wf s) by apply I. unfold dma_packet_from_guest.
  eapply safe_bind; [by apply can_transmit_safe |]. intros can _. destruct can; cbn [negb]; [| exact I].
  eapply safe_bind; [by apply set_dma_idle_quiet |]. intros s1 Q1.
  eapply safe_bind; [apply tx_loop_quiet; [chain | lia | rewrite Z2Nat.id; lia] |].
  intros [s2 b] Q2. cbn [fst] in Q2. eapply safe_bind; [apply set_dma_idle_quiet; chain |]. intros s3 Q3.
  destruct b; [apply set_intr_status_inv; chain |]. eapply quiet_inv; [| exact I]. chain.
Qed.

Lemma is_broadcast_safe l : 6 <= zlen l -> safe (fun _ => True) (is_broadcast_ether_addr l).
Proof. intros. unfold is_broadcast_ether_addr. by rewrite !rd_nthZ by lia. Qed.

Lemma receive_filter_safe s buf size : wf s -> 6 <= zlen buf -> safe (fun _ => True) (receive_filter s buf size).
Proof.
  intros W L. unfold receive_filter. destruct (size <? 6); [done |].
  eapply safe_bind; [apply get_reg_eq; [done | lia] |]. intros ? _.
  eapply safe_bind; [by apply is_broadcast_safe |]. intros [] _; [done |].
  destruct (negb _); [done |].
  do 2 (eapply safe_bind; [apply get_reg_eq; [done | lia] |]; intros ? _). cbv zeta.
  eapply safe_bind; [apply is_broadcast_safe; unfold addr_bytes; rewrite length_app, !length_le_bytes; lia |].
  intros b _. rewrite slice_ok by lia. rewrite ok_bind.
  eapply (safe_bind (fun _ => True)).
  - destruct b; [done |]. by do 2 (eapply safe_bind; [apply get_reg_eq; [done | lia] |]; intros ? _).
  - intros [] _; [done |]. by do 2 (eapply safe_bind; [apply get_reg_eq; [done | lia] |]; intros ? _).
Qed.

Lemma nvnet_receive_iov_inv s iov : nvnet_inv s -> safe (fun p => nvnet_inv p.1) (nvnet_receive_iov s iov).
Proof.
  intros I. pose proof I as [[R RB P T X O] Hp]. unfold nvnet_receive_iov, is_packet_oversized. cbv zeta.
  destruct (Z.gtb_spec (zlen (concat iov)) RX_ALLOC_BUFSIZE); [exact I |].
  destruct (blit _ _ _) as [buf | | |] eqn:E; try (rewrite blit_ok in E by lia; done).
  rewrite ok_bind. pose proof (blit_length _ _ _ _ E).
  set (s1 := s <| rx_dma_buf := buf |>). assert (wf s1) by (constructor; [done .. | cbn; lia | done]).
  assert (quiet s s1) as Q by (by apply quiet_other).
  eapply safe_bind; [apply receive_filter_safe; [done | lia] |]. intros [] _; cbn [negb]; [| by eapply quiet_inv].
  rewrite slice_ok by lia. rewrite ok_bind. apply dma_packet_to_guest_inv. by eapply quiet_inv.
Qed.

Lemma phy_update_quiet s r f : wf s -> 0 <= r < 6 -> safe (quiet s) (phy_update s r f).
Proof.
  intros W Hr. unfold phy_update. destruct W as [R RB P T X O].
  rewrite rd_nthZ by lia. rewrite ok_bind, wr_ok by lia. rewrite ok_bind. cbn [safe].
  apply quiet_other; [| done ..]. constructor; try done. cbn. by rewrite length_insert.
Qed.
#[local] Hint Extern 1 (_ <= _ < _) => lia : nvnet.
#[local] Hint Resolve phy_update_quiet : nvnet.

Lemma link_down_quiet s : wf s -> safe (quiet s) (update_regs_on_link_down s).
Proof. intros. unfold update_regs_on_link_down. run. Qed.

Lemma link_up_quiet s : wf s -> safe (quiet s) (update_regs_on_link_up s).
Proof. intros. unfold update_regs_on_link_up. run. Qed.
#[local] Hint Resolve link_down_quiet link_up_quiet set_mii_intr_status_inv : nvnet.

Lemma set_link_down_inv s : wf s -> safe nvnet_inv (set_link_down s).
Proof. intros. unfold set_link_down. run. Qed.

Lemma set_link_up_inv s : wf s -> safe nvnet_inv (set_link_up s).
Proof. intros. unfold set_link_up. run. Qed.
#[local] Hint Resolve set_link_up_inv set_link_down_inv : nvnet.

Lemma autoneg_timer_inv s : nvnet_inv s -> safe nvnet_inv (autoneg_timer s).
Proof. intros I. assert (wf s) by apply I. unfold autoneg_timer, autoneg_done. run. Qed.

Lemma autoneg_pending_safe s : wf s -> safe (fun _ => True) (autoneg_pending s).
Proof.
  intros W. unfold autoneg_pending, have_autoneg. pose proof (wf_phy s W).
  by rewrite !rd_nthZ, !ok_bind by lia.
Qed.
#[local] Hint Resolve autoneg_pending_safe : nvnet.

Lemma nvnet_set_link_status_inv s down now : nvnet_inv s ->
  safe nvnet_inv (nvnet_set_link_status (s <| link_down := down |>) now).
Proof.
  intros I. assert (wf (s <| link_down := down |>)) as W by (destruct I as [[] _]; by constructor).
  assert (quiet s (s <| link_down := down |>)) as Q by (by apply quiet_other).
  assert (quiet s (restart_autoneg (s <| link_down := down |>) now)) as Q'
    by (apply quiet_other; [destruct I as [[] _]; by constructor | done ..]).
  unfold nvnet_set_link_status. run. by eapply quiet_inv.
Qed.

Lemma phy_reg_write_quiet s r v : wf s -> 0 <= r -> safe (quiet s) (phy_reg_write s r v).
Proof.
  intros W Hr. unfold phy_reg_write. destruct (Z.ltb_spec r (zlen (phy_regs s))); [| by apply quiet_refl].
  rewrite wr_ok by lia. rewrite ok_bind. apply quiet_other; [| done ..]. destruct W. constructor; try done.
  cbn. by rewrite length_insert.
Qed.

Lemma phy_reg_read_safe s r : wf s -> 0 <= r -> safe (fun _ => True) (phy_reg_read s r).
Proof.
  intros W Hr. unfold phy_reg_read. destruct (Z.ltb_spec r (zlen (phy_regs s))); [| done].
  by rewrite rd_nthZ by lia.
Qed.
#[local] Hint Resolve phy_reg_write_quiet phy_reg_read_safe : nvnet.
#[local] Hint Extern 1 (0 <= _ mod _) => apply Z.mod_pos_bound : nvnet.

Lemma mdio_read_quiet s : wf s -> safe (quiet s) (mdio_read s).
Proof.
  intros. unfold mdio_read. eapply safe_bind; [by apply get_reg_eq |]. intros a _. cbv zeta.
  eapply (safe_bind (fun _ => True)); [| intros; run].
  destruct (_ =? _); [| done]. apply phy_reg_read_safe; [done |]. by apply Z.mod_pos_bound.
Qed.

Lemma mdio_write_quiet s : wf s -> safe (quiet s) (mdio_write s).
Proof.
  intros. unfold mdio_write. do 2 (eapply safe_bind; [by apply get_reg_eq |]; intros ? _). cbv zeta.
  eapply (safe_bind (quiet s)); [| intros; run].
  destruct (_ =? _); [| by apply quiet_refl]. apply phy_reg_write_quiet; [done |]. by apply Z.mod_pos_bound.
Qed.
#[local] Hint Resolve mdio_read_quiet mdio_write_quiet : nvnet.

Lemma mmio_control_inv s val : nvnet_inv s -> safe nvnet_inv
  (s ← set_reg_with_mask s NVNET_TX_RX_CONTROL (u32 val) (u32 (Z.lnot NVNET_TX_RX_CONTROL_IDLE));
   s ← (if flag val NVNET_TX_RX_CONTROL_KICK then dma_packet_from_guest s else Ok s);
   s ← (if flag val NVNET_TX_RX_CONTROL_RESET then
          s ← reset_descriptor_ring_pointers s;
          Ok (s <| tx_dma_buf_offset := 0 |>)
        else Ok s);
   if flag val NVNET_TX_RX_CONTROL_BIT1 then set_reg s NVNET_IRQ_STATUS 0
   else if val =? 0 then set_reg s NVNET_UNKNOWN_SETUP_REG5 NVNET_UNKNOWN_SETUP_REG5_BIT31
   else Ok s).
Proof.
  intros I. assert (wf s) by apply I.
  eapply safe_bind; [apply set_reg_with_mask_quiet; [done | lia] |]. intros s1 Q1.
  eapply (safe_bind nvnet_inv).
  { destruct (flag _ _); [apply dma_packet_from_guest_inv |]; by eapply quiet_inv. }
  intros s2 I2. eapply (safe_bind nvnet_inv).
  { destruct (flag _ _); [| exact I2]. eapply safe_bind; [apply reset_descriptor_ring_pointers_quiet, I2 |].
    intros s3 Q3. eapply quiet_inv; [| exact I2]. eapply quiet_trans; [exact Q3 |].
    apply quiet_other; [| done ..]. destruct (quiet_wf _ _ Q3). constructor; (done || cbn; lia). }
  intros s3 I3. destruct (flag _ _).
  - eapply safe_mono; [apply set_reg_ext_run; [apply I3 | lia] |]. intros s4 (r & -> & E).
    split; [eapply wf_blit; [apply I3 | exact E] |]. unfold pending.
    assert (slice r 0 4 = Ok [0; 0; 0; 0]) as Es by (by apply (slice_blit_eq _ _ _ _ E)).
    rewrite slice_ok in Es; [| lia | lia | by rewrite (blit_length _ _ _ _ E), (wf_regs s3) by apply I3].
    unfold reg at 2. change (regs (s3 <| regs := r |>)) with r. injection Es as Es.
    change (Z.to_nat 4) with 4%nat in Es. rewrite Es.
    unfold flag. change (le_val [0; 0; 0; 0]) with 0. by rewrite Z.land_0_r.
  - destruct (_ =? _); [| exact I3]. eapply safe_inv; [exact I3 |]. apply set_reg_quiet; [apply I3 | lia].
Qed.

(** The guest can only fail an assertion, and the interrupt follows. *)
Lemma nvnet_mmio_write_inv s addr val size : nvnet_inv s -> 0 <= addr ->
  safe nvnet_inv (nvnet_mmio_write s addr val size).
Proof.
  intros I Ha. assert (W : wf s) by apply I. unfold nvnet_mmio_write. apply safe_assert. intros Hal%Z.eqb_eq.
  destruct (Z.eqb_spec addr NVNET_MDIO_ADDR) as [-> |].
  { eapply safe_inv; [exact I |]. run. }
  destruct (Z.eqb_spec addr NVNET_TX_RX_CONTROL) as [-> |]; [by apply mmio_control_inv |].
  destruct (_ || _) eqn:E0.
  { eapply safe_bind; [by apply get_reg_ext_safe |]. intros v _.
    eapply safe_bind; [by apply set_reg_ext_wf |]. intros s1 W1. by apply update_irq_inv. }
  destruct (Z.eqb_spec addr NVNET_IRQ_MASK).
  { eapply safe_bind; [by apply set_reg_ext_wf |]. intros s1 W1. by apply update_irq_inv. }
  apply orb_false_elim in E0 as [E0%Z.eqb_neq _].
  eapply safe_inv; [exact I |]. apply set_reg_ext_quiet; [done |].
  change 3 with (Z.ones 2) in Hal. rewrite Z.land_ones in Hal by lia.
  apply Z.mod_divide in Hal as [k ->]; [| done]. change (2 ^ 2) with 4 in *. lia.
Qed.

Lemma wf_regs_zero s : wf s -> wf (s <| regs := replicate (length (regs s)) 0 |>).
Proof. intros W. apply wf_set_regs; [done | rewrite length_replicate; apply W | by apply Forall_replicate]. Qed.

Lemma reset_phy_regs_quiet s : wf s -> safe (quiet s) (reset_phy_regs s).
Proof.
  intros W. unfold reset_phy_regs. pose proof (wf_phy s W) as P. apply safe_assert. intros _.
  destruct (blit _ _ _) as [r | | |] eqn:E;
    [| rewrite blit_ok in E; [done | lia | rewrite length_replicate, P; cbn; lia] ..].
  rewrite ok_bind. apply quiet_other; [| done ..]. destruct W. constructor; try done.
  cbn. by rewrite (blit_length _ _ _ _ E), length_replicate.
Qed.
#[local] Hint Resolve reset_phy_regs_quiet : nvnet.

Lemma pending_zero s : pending (s <| regs := replicate (length (regs s)) 0 |>) = false.
Proof.
  unfold pending, reg. change (regs (s <| regs := replicate (length (regs s)) 0 |>)) with (replicate (length (regs s)) 0).
  change (Z.to_nat NVNET_IRQ_MASK) with 4%nat. change (Z.to_nat NVNET_IRQ_STATUS) with 0%nat. rewrite drop_0.
  destruct (length (regs s)) as [| [| [| [| n]]]]; [done .. |]. cbn [replicate take].
  unfold flag. change (le_val [0; 0; 0; 0]) with 0. by rewrite Z.land_0_r.
Qed.

Lemma nvnet_reset_inv s : wf s -> safe nvnet_inv (nvnet_reset s).
Proof.
  intros W. unfold nvnet_reset. cbv zeta. set (s0 := s <| regs := _ |>).
  assert (nvnet_inv s0) as I0 by (split; [by apply wf_regs_zero | subst s0; by rewrite pending_zero]).
  assert (wf s0) by apply I0. clearbody s0.
  eapply safe_bind; [apply or_reg_quiet; [done | lia] |]. intros s1 Q1.
  eapply safe_bind; [apply reset_phy_regs_quiet; chain |]. intros s2 Q2.
  set (s3 := s2 <| tx_dma_buf := _ |> <| rx_dma_buf := _ |> <| tx_dma_buf_offset := 0 |> <| autoneg_timer_at := None |>).
  assert (quiet s2 s3) as Q3.
  { destruct (quiet_wf _ _ Q2). apply quiet_other; [| done ..].
    constructor; try done; cbn; rewrite ?length_replicate; (done || lia). }
  clearbody s3. eapply (safe_bind (quiet s3)).
  { destruct (link_down s3); [apply link_down_quiet; chain | apply quiet_refl; chain]. }
  intros s4 Q4. cbn [safe]. eapply quiet_inv; [| exact I0].
  apply (quiet_trans _ s4); [chain |]. apply quiet_other; [| done ..]. destruct (quiet_wf _ _ Q4). by constructor.
Qed.

End safety.

(** ** Events *)

(** What happens to the device: accesses of the guest to its registers and to its
    own memory, frames, link changes, the timer and resets. *)
Inductive event (M : Type) :=
| MmioRead (addr size : Z)
| MmioWrite (addr val size : Z)
| IoRead (addr size : Z)
| IoWrite (addr val size : Z)
| GuestMemory (m : M)
| Receive (iov : list (list Z))
| LinkStatus (down : bool) (now : Z)
| AutonegTimer
| Reset.
Arguments MmioRead {M}.
Arguments MmioWrite {M}.
Arguments IoRead {M}.
Arguments IoWrite {M}.
Arguments GuestMemory {M}.
Arguments Receive {M}.
Arguments LinkStatus {M}.
Arguments AutonegTimer {M}.
Arguments Reset {M}.

Definition on_event {M} `{DmaMemory M} (e : event M) (s : NvNetState M) : outcome (NvNetState M) :=
  match e with
  | MmioRead addr size => _ ← nvnet_mmio_read s addr size; Ok s
  | MmioWrite addr val size => nvnet_mmio_write s addr val size
  | IoRead addr size => Ok s
  | IoWrite addr val size => Ok (nvnet_io_write s addr val size)
  | GuestMemory m => Ok (s <| mem := m |>)
  | Receive iov => '(s, _) ← nvnet_receive_iov s iov; Ok s
  | LinkStatus down now => nvnet_set_link_status (s <| link_down := down |>) now
  | AutonegTimer => autoneg_timer s
  | Reset => nvnet_reset s
  end.

(** Addresses are unsigned. *)
Definition event_ok {M} (e : event M) : Prop :=
  match e with
  | MmioRead addr _ | MmioWrite addr _ _ => 0 <= addr
  | _ => True
  end.

Fixpoint run_events {M} `{DmaMemory M} (es : list (event M)) (s : NvNetState M) : outcome (NvNetState M) :=
  match es with
  | [] => Ok s
  | e :: es => s ← on_event e s; run_events es s
  end.

Lemma on_event_inv {M} `{DmaMemoryLaws M} e (s : NvNetState M) : event_ok e -> nvnet_inv s ->
  safe nvnet_inv (on_event e s).
Proof.
  intros He I. assert (W : wf s) by apply I. destruct e; cbn [on_event event_ok] in *.
  - eapply safe_bind; [by apply get_reg_ext_safe | done].
  - by apply nvnet_mmio_write_inv.
  - exact I.
  - exact I.
  - eapply quiet_inv; [| exact I]. apply quiet_other; [| done ..]. destruct W. by constructor.
  - eapply safe_bind; [by apply nvnet_receive_iov_inv |]. by intros [].
  - by apply nvnet_set_link_status_inv.
  - by apply autoneg_timer_inv.
  - by apply nvnet_reset_inv.
Qed.

(** C23: whatever the guest, the network and the timer do, the device never reads or
    writes outside its register file, PHY registers and packet buffers and never
    loops (it can only stop on an assertion), its arrays keep their sizes, and an
    interrupt that is pending and enabled always holds the interrupt line up. *)
Theorem nvnet_never_loses_interrupt {M} `{DmaMemoryLaws M} es (s : NvNetState M) :
  Forall event_ok es -> nvnet_inv s -> safe nvnet_inv (run_events es s).
Proof.
  intros He. revert s. induction He as [| e es He _ IH]; intros s I; cbn [run_events]; [exact I |].
  eapply safe_bind; [by apply on_event_inv | exact IH].
Qed.

(** ** Registers as words *)

Section words.
Context {M : Type} `{DmaMemoryLaws M}.
Implicit Types s : NvNetState M.

Definition valid (a : Z) : bool := (0 <=? a) && (a + 4 <=? MMIO_SIZE) && (a mod 4 =? 0).

(** [s] with the word at [a] replaced. *)
Definition put s (a v : Z) : NvNetState M :=
  s <| regs := take (Z.to_nat a) (regs s) ++ le_bytes 4 v ++ drop (Z.to_nat a + 4) (regs s) |>.

Lemma valid_spec a : valid a = true -> 0 <= a /\ a + 4 <= MMIO_SIZE /\ a mod 4 = 0.
Proof. unfold valid. rewrite !andb_true_iff, !Z.leb_le, Z.eqb_eq. tauto. Qed.

Lemma valid_guards a : valid a = true -> (a <? MMIO_SIZE) = true /\ (a .& (4 - 1) =? 0) = true.
Proof.
  intros (? & ? & E)%valid_spec. split; [apply Z.ltb_lt; lia |].
  apply Z.eqb_eq. change (4 - 1) with (Z.ones 2). by rewrite Z.land_ones by lia.
Qed.

Lemma get_reg_ok s a : wf s -> valid a = true -> get_reg s a = Ok (reg s a).
Proof.
  intros W V. destruct (valid_guards a V) as [G1 G2]. apply valid_spec in V as (? & ? & _).
  unfold get_reg, get_reg_ext. rewrite G1, G2. cbn [c_assert]. rewrite !ok_bind. cbn [Z.eqb Pos.eqb].
  rewrite reg_slice by (rewrite ?(wf_regs s W); lia). done.
Qed.

Lemma blit_put s a v : wf s -> valid a = true -> blit (regs s) a (le_bytes 4 v) = Ok (regs (put s a v)).
Proof. intros W (? & ? & _)%valid_spec. rewrite blit_ok; [done | lia | rewrite (wf_regs s W); cbn; lia]. Qed.

Lemma set_reg_ok s a v : wf s -> valid a = true -> set_reg s a v = Ok (put s a v).
Proof.
  intros W V. destruct (valid_guards a V) as [G1 G2]. unfold set_reg, set_reg_ext. rewrite G1, G2.
  cbn [c_assert]. rewrite !ok_bind. cbn [Z.eqb Pos.eqb]. by rewrite blit_put.
Qed.

Lemma wf_put s a v : wf s -> valid a = true -> wf (put s a v).
Proof. intros W V. exact (wf_blit s a 4 v _ W (blit_put s a v W V)). Qed.

Lemma reg_put_eq s a v : wf s -> valid a = true -> reg (put s a v) a = u32 v.
Proof.
  intros W V. pose proof (blit_put s a v W V) as E. apply slice_blit_eq in E.
  pose proof (wf_regs _ (wf_put s a v W V)). apply valid_spec in V as (? & ? & _).
  change (zlen (le_bytes 4 v)) with 4 in E.
  rewrite slice_ok in E by lia. change (Z.to_nat 4) with 4%nat in E.
  unfold reg. transitivity (le_val (le_bytes 4 v)); [f_equal; congruence | apply (le_val_bytes 4)].
Qed.

Lemma reg_put_ne s a b v : wf s -> valid a = true -> valid b = true -> a <> b -> reg (put s a v) b = reg s b.
Proof.
  intros W V Vb Hne. pose proof (blit_put s a v W V) as E.
  apply valid_spec in V as (? & ? & Ea), Vb as (? & ? & Eb).
  assert (b + 4 <= a \/ a + 4 <= b).
  { apply Z.mod_divide in Ea as [x ->]; [| lia]. apply Z.mod_divide in Eb as [y ->]; [| lia]. lia. }
  by apply (reg_blit_ne s a 4 v _ b W E).
Qed.

Lemma reg_in_u s a : wf s -> in_u 32 (reg s a).
Proof.
  intros W. unfold reg. eapply in_u_mono; [| apply le_val_in_u, Forall_take, Forall_drop, W].
  rewrite length_take. lia.
Qed.

Lemma reg_mod s a : wf s -> u32 (reg s a) = reg s a.
Proof. intros W. apply in_u_small, reg_in_u, W. Qed.

(** Execute register accesses at constant addresses. *)
Ltac wf_tac := repeat first
  [ assumption | reflexivity | apply wf_put ].
Ltac regs_run := repeat first
  [ rewrite ok_bind | rewrite get_reg_ok by wf_tac | rewrite set_reg_ok by wf_tac ].
Ltac regs_simpl := repeat first
  [ rewrite reg_put_eq by wf_tac | rewrite reg_put_ne by (wf_tac || discriminate) ].

(** ** The descriptor rings

    The code has the same routines for both rings, on their own registers. *)

Inductive direction := TX | RX.

Definition base_reg (k : direction) : Z :=
  match k with TX => NVNET_TX_RING_PHYS_ADDR | RX => NVNET_RX_RING_PHYS_ADDR end.
Definition next_reg (k : direction) : Z :=
  match k with TX => NVNET_TX_RING_NEXT_DESC_PHYS_ADDR | RX => NVNET_RX_RING_NEXT_DESC_PHYS_ADDR end.
Definition cur_reg (k : direction) : Z :=
  match k with TX => NVNET_TX_RING_CURRENT_DESC_PHYS_ADDR | RX => NVNET_RX_RING_CURRENT_DESC_PHYS_ADDR end.
Definition size_mask (k : direction) : Z :=
  match k with TX => NVNET_RING_SIZE_TX | RX => NVNET_RING_SIZE_RX end.
Definition get_ring_size (k : direction) s : outcome Z :=
  match k with TX => get_tx_ring_size s | RX => get_rx_ring_size s end.
Definition update_current (k : direction) s : outcome (NvNetState M * Z) :=
  match k with TX => update_current_tx_ring_desc_addr s | RX => update_current_rx_ring_desc_addr s end.
Definition advance_next (k : direction) s : outcome (NvNetState M) :=
  match k with TX => advance_next_tx_ring_desc_addr s | RX => advance_next_rx_ring_desc_addr s end.

(** A ring of [n] descriptors at [base] in RAM, not at the very end of the
    address space; the next descriptor is number [p]. *)
Record ring (k : direction) s (base n p : Z) : Prop := {
  rg_wf : wf s;
  rg_base : reg s (base_reg k) = base;
  rg_size : u16 (GET_MASK (reg s NVNET_RING_SIZE) (size_mask k) + 1) = n;
  rg_n : 0 < n;
  rg_next : reg s (next_reg k) = base + 8 * p;
  rg_p : 0 <= p < n;
  rg_top : base + 8 * n < 2 ^ 32;
  rg_ram : forall q, 0 <= q < n -> backed (mem s) (base + 8 * q) 8
}.

Lemma ring_base_pos k s base n p : ring k s base n p -> 0 <= base < 2 ^ 32.
Proof. intros R. rewrite <- (rg_base _ _ _ _ _ R). apply reg_in_u, R. Qed.

Lemma get_ring_size_ok k s base n p : ring k s base n p -> get_ring_size k s = Ok n.
Proof.
  intros R. assert (wf s) by apply R. rewrite <- (rg_size _ _ _ _ _ R).
  destruct k; cbn [get_ring_size size_mask]; unfold get_tx_ring_size, get_rx_ring_size; by regs_run.
Qed.

(** The current descriptor is the next one: no wrap is needed. *)
Lemma update_current_ok k s base n p : ring k s base n p ->
  update_current k s = Ok (put s (cur_reg k) (base + 8 * p), base + 8 * p).
Proof.
  intros R. assert (wf s) by apply R. pose proof (get_ring_size_ok _ _ _ _ _ R) as En.
  pose proof (ring_base_pos _ _ _ _ _ R). destruct R as [_ Eb _ ? Ex ? ? _].
  destruct k; cbn [update_current get_ring_size base_reg next_reg cur_reg] in *;
    unfold update_current_tx_ring_desc_addr, update_current_rx_ring_desc_addr;
    rewrite En; regs_run; rewrite Eb, Ex, Z.mod_small by lia;
    destruct (Z.ltb_spec (base + 8 * p) base), (Z.gtb_spec (base + 8 * p + 8) (base + n * 8)); try lia;
    cbn [orb]; by regs_run.
Qed.

Lemma advance_next_ok k s base n p : ring k s base n p -> reg s (cur_reg k) = base + 8 * p ->
  advance_next k s = Ok (put s (next_reg k) (base + 8 * ((p + 1) mod n))).
Proof.
  intros R Hc. assert (wf s) by apply R. pose proof (get_ring_size_ok _ _ _ _ _ R) as En.
  pose proof (ring_base_pos _ _ _ _ _ R). destruct R as [_ Eb _ ? Ex ? ? _].
  destruct k; cbn [advance_next get_ring_size base_reg next_reg cur_reg] in *;
    unfold advance_next_tx_ring_desc_addr, advance_next_rx_ring_desc_addr;
    rewrite En; regs_run; rewrite Eb, Hc, !Z.mod_small by lia;
    do 2 f_equal; rewrite (slot_mod n) by lia;
    destruct (Z.geb_spec (base + 8 * p + 8) (base + n * 8)), (Z.ltb_spec (p + 1) n); lia.
Qed.

Lemma ring_frame k s s' base n p : ring k s base n p -> wf s' ->
  reg s' (base_reg k) = reg s (base_reg k) -> reg s' NVNET_RING_SIZE = reg s NVNET_RING_SIZE ->
  reg s' (next_reg k) = reg s (next_reg k) ->
  (forall a k, backed (mem s) a k -> backed (mem s') a k) -> ring k s' base n p.
Proof. intros [] W E1 E2 E3 Hb. constructor; rewrite ?E1, ?E2, ?E3; auto. Qed.

Lemma ring_next k s base n p : ring k s base n p ->
  ring k (put s (next_reg k) (base + 8 * ((p + 1) mod n))) base n ((p + 1) mod n).
Proof.
  intros R. pose proof (ring_base_pos _ _ _ _ _ R). destruct R as [W ? ? ? ? ? ? ?].
  pose proof (Z.mod_pos_bound (p + 1) n).
  constructor; try (rewrite reg_put_ne by (by destruct k)); try done; [by destruct k; apply wf_put | | lia].
  rewrite reg_put_eq by (by destruct k). apply Z.mod_small. lia.
Qed.

Lemma ring_put k s base n p a v : ring k s base n p -> valid a = true ->
  a <> base_reg k -> a <> NVNET_RING_SIZE -> a <> next_reg k -> ring k (put s a v) base n p.
Proof.
  intros R Va H1 H2 H3. assert (wf s) by apply R.
  apply (ring_frame k s); [done | by apply wf_put | by rewrite reg_put_ne by (done || by destruct k) .. | done].
Qed.

(** ** Descriptors in memory *)

Definition desc_ok (d : RingDesc) : Prop := in_u 32 (buffer_addr d) /\ in_u 16 (length_ d) /\ in_u 16 (flags d).

Definition raw_desc (d : RingDesc) : list Z :=
  le_bytes 4 (buffer_addr d) ++ le_bytes 2 (length_ d) ++ le_bytes 2 (flags d).

Lemma load_desc_ok s a : desc_ok (load_ring_desc s a).
Proof.
  unfold load_ring_desc. pose proof (dma_read_bytes (mem s) a 8) as Hb.
  assert (forall i n, in_u (8 * Z.of_nat n) (le_val (take n (drop i (pci_dma_read (mem s) a 8))))) as Hi.
  { intros i n. eapply in_u_mono; [| apply le_val_in_u, Forall_take, Forall_drop, Hb]. rewrite length_take. lia. }
  split; [exact (Hi 0%nat 4%nat) | split; [exact (Hi 4%nat 2%nat) | exact (Hi 6%nat 2%nat)]].
Qed.

Lemma load_store_eq s a d : desc_ok d -> backed (mem s) a 8 -> load_ring_desc (store_ring_desc s a d) a = d.
Proof.
  intros (Hb & Hl & Hf) Hm. unfold load_ring_desc, store_ring_desc. cbn [mem].
  change (mem (s <| mem := ?m |>)) with m.
  pose proof (dma_read_write (mem s) a (raw_desc d) Hm) as E. unfold raw_desc in E.
  change sizeof_RingDesc with (zlen (raw_desc d)). unfold raw_desc. rewrite E.
  - destruct d as [b l f]. cbn [buffer_addr length_ flags] in *. f_equal.
    + etransitivity; [apply (le_val_bytes 4) |]. by apply in_u_small.
    + etransitivity; [apply (le_val_bytes 2) |]. by apply in_u_small.
    + etransitivity; [apply (le_val_bytes 2) |]. by apply in_u_small.
  - repeat apply Forall_app_2; apply Forall_le_bytes.
Qed.

Lemma load_store_ne s a b d : a + 8 <= b \/ b + 8 <= a ->
  load_ring_desc (store_ring_desc s b d) a = load_ring_desc s a.
Proof.
  intros Hd. unfold load_ring_desc, store_ring_desc. cbn [mem].
  change (mem (s <| mem := ?m |>)) with m. by rewrite dma_read_write_ne.
Qed.

Lemma load_mem s s' a : mem s' = mem s -> load_ring_desc s' a = load_ring_desc s a.
Proof. unfold load_ring_desc. by intros ->. Qed.

Lemma tx_done_ok d : desc_ok d -> desc_ok (mkRingDesc (buffer_addr d) (length_ d) (tx_done_flags (flags d))).
Proof.
  intros (? & ? & ?). split; [done |]. split; [done |]. apply in_u_land_l; [lia | done].
Qed.

(** A descriptor given back to the guest. *)
Definition tx_done (d : RingDesc) : RingDesc := mkRingDesc (buffer_addr d) (length_ d) (tx_done_flags (flags d)).

Definition tx_len (d : RingDesc) : Z := u16 (length_ d + 1).

(** The bytes of a descriptor's buffer. *)
Definition payload (m : M) (d : RingDesc) : list Z := pci_dma_read m (buffer_addr d) (tx_len d).

(** [s'] differs from [s] in the ring pointers, the packet buffer, the frames
    sent and memory only. *)
Definition tx_frame s s' : Prop :=
  wf s' /\ irq s' = irq s /\ phy_regs s' = phy_regs s /\
  forall a, valid a = true -> a <> NVNET_TX_RING_CURRENT_DESC_PHYS_ADDR ->
    a <> NVNET_TX_RING_NEXT_DESC_PHYS_ADDR -> reg s' a = reg s a.

Lemma tx_frame_trans s1 s2 s3 : tx_frame s1 s2 -> tx_frame s2 s3 -> tx_frame s1 s3.
Proof.
  intros (_ & E1 & P1 & F1) (W & E2 & P2 & F2). split; [done |]. split; [congruence |]. split; [congruence |].
  intros a Va H1 H2. by rewrite F2, F1.
Qed.

(** The accumulated part of a packet. *)
Definition acc s : list Z := take (Z.to_nat (tx_dma_buf_offset s)) (tx_dma_buf s).

Lemma tx_append (buf : list Z) off l : 0 <= off -> off + zlen l <= zlen buf ->
  exists b, blit buf off l = Ok b /\ length b = length buf /\
    take (Z.to_nat (off + zlen l)) b = take (Z.to_nat off) buf ++ l.
Proof.
  intros Ho Hl. destruct (blit buf off l) as [b | | |] eqn:E; try (rewrite blit_ok in E by lia; done).
  exists b. split; [done |]. split; [by rewrite (blit_length _ _ _ _ E) |].
  exact (take_blit _ _ _ _ E).
Qed.

(** One round on a valid descriptor. *)
Lemma tx_descriptor_ok s base n p d : ring TX s base n p ->
  load_ring_desc s (base + 8 * p) = d -> flag (flags d) NV_TX_VALID = true ->
  tx_dma_buf_offset s + tx_len d <= TX_ALLOC_BUFSIZE ->
  let last := flag (flags d) NV_TX_LASTPACKET in
  exists s', tx_descriptor s = Ok (s', if last then TxSent else TxContinue) /\
    ring TX s' base n ((p + 1) mod n) /\ tx_frame s s' /\
    mem s' = pci_dma_write (mem s) (base + 8 * p) (raw_desc (tx_done d)) /\
    sent s' = (if last then sent s ++ [acc s ++ payload (mem s) d] else sent s) /\
    tx_dma_buf_offset s' = (if last then 0 else tx_dma_buf_offset s + tx_len d) /\
    (last = false -> acc s' = acc s ++ payload (mem s) d).
Proof.
  intros R Hd Hv Hfit last. assert (W : wf s) by apply R.
  unfold tx_descriptor. rewrite (update_current_ok TX _ _ _ _ R : update_current_tx_ring_desc_addr s = _), ok_bind. cbv zeta.
  set (s1 := put s _ _). assert (W1 : wf s1) by (by apply wf_put).
  rewrite (load_mem s s1) by done. rewrite Hd, Hv. cbn [negb]. fold (tx_len d) last.
  change (tx_dma_buf_offset s1) with (tx_dma_buf_offset s). change (mem s1) with (mem s).
  change (tx_dma_buf s1) with (tx_dma_buf s). fold (payload (mem s) d).
  pose proof (wf_off s W). pose proof (wf_tx s W) as Ht.
  assert (0 <= tx_len d < 2 ^ 16) as Hlen by (apply Z.mod_pos_bound; lia).
  assert (zlen (payload (mem s) d) = tx_len d) as Hpl by (apply dma_read_length; lia).
  rewrite !(Z.mod_small (tx_dma_buf_offset s + tx_len d)) by lia.
  rewrite c_assert_true, ok_bind by (by apply Z.leb_le).
  destruct (tx_append (tx_dma_buf s) (tx_dma_buf_offset s) (payload (mem s) d)) as (buf & Eb & Lb & Tb); [lia | lia |].
  rewrite Eb, ok_bind. rewrite Hpl in Tb. set (s2 := s1 <| tx_dma_buf := buf |> <| tx_dma_buf_offset := _ |>).
  assert (W2 : wf s2) by (apply wf_tx_fields; [done | lia | lia]).
  set (s3 := if last then (send_packet s2 (acc s ++ payload (mem s) d)) <| tx_dma_buf_offset := 0 |> else s2).
  replace (if last then _ else Ok s2) with (Ok s3).
  2: { subst s3. destruct last; [| done]. change (tx_dma_buf s2) with buf.
       change (tx_dma_buf_offset s2) with (tx_dma_buf_offset s + tx_len d).
       rewrite slice_ok by lia. rewrite ok_bind. cbn [drop]. change (Z.to_nat 0) with 0%nat. rewrite drop_0. by rewrite Tb. }
  rewrite ok_bind. assert (W3 : wf s3) by (subst s3; destruct last; [destruct W2; by constructor | done]).
  assert (regs s3 = regs s1 /\ mem s3 = mem s /\ irq s3 = irq s /\ phy_regs s3 = phy_regs s) as (E3 & M3 & I3 & P3)
    by (subst s3; by destruct last).
  set (s4 := store_ring_desc s3 _ _). assert (W4 : wf s4) by (destruct W3; by constructor).
  assert (forall a, valid a = true -> a <> NVNET_TX_RING_CURRENT_DESC_PHYS_ADDR -> reg s4 a = reg s a) as F4.
  { intros a Va Hne. transitivity (reg s1 a); [unfold reg; by rewrite <- E3 | subst s1; by rewrite reg_put_ne by done]. }
  assert (ring TX s4 base n p) as R4.
  { apply (ring_frame TX s); [done | done | by apply F4 .. |]. intros a k Hk. unfold s4. cbn.
    change (backed (pci_dma_write (mem s3) (base + 8 * p) (raw_desc (tx_done d))) a k).
    apply backed_write. by rewrite M3. }
  rewrite (advance_next_ok TX s4 base n p R4 : _ -> advance_next_tx_ring_desc_addr s4 = _), ok_bind.
  2: { transitivity (reg s1 NVNET_TX_RING_CURRENT_DESC_PHYS_ADDR); [unfold reg; by rewrite <- E3 |].
       subst s1. rewrite reg_put_eq by done. pose proof (ring_base_pos _ _ _ _ _ R). destruct R. by rewrite Z.mod_small by lia. }
  eexists. split; [done |]. split; [by apply ring_next |]. split.
  { split; [by apply wf_put |]. split; [done |]. split; [done |]. intros a Va Ha1 Ha2. rewrite reg_put_ne by done. by apply F4. }
  split; [cbn; by rewrite M3 |]. subst s3 s4. cbn. destruct last; cbn; [done |].
  split; [done |]. split; [done |]. intros _. exact Tb.
Qed.

(** ** A chain of descriptors *)

Section chain.
Context (base n : Z).

Definition slot s (q : Z) : RingDesc := load_ring_desc s (base + 8 * q).

(** The descriptors from number [p] are [ds], all handed to the device, and only
    the last one ends the packet. *)
Fixpoint tx_chain s (p : Z) (ds : list RingDesc) : Prop :=
  match ds with
  | [] => False
  | d :: ds' =>
      slot s p = d /\ flag (flags d) NV_TX_VALID = true /\
      match ds' with
      | [] => flag (flags d) NV_TX_LASTPACKET = true
      | _ => flag (flags d) NV_TX_LASTPACKET = false /\ tx_chain s ((p + 1) mod n) ds'
      end
  end.

(** A range of memory beside the ring. *)
Definition off_ring (a k : Z) : Prop := a + k <= base \/ base + 8 * n <= a.

Definition total (ds : list RingDesc) : Z := foldr (fun d z => tx_len d + z) 0 ds.

Lemma tx_len_pos d : 0 <= tx_len d < 2 ^ 16.
Proof. apply Z.mod_pos_bound. lia. Qed.

Lemma total_pos ds : 0 <= total ds.
Proof. unfold total. induction ds as [| d ds IH]; cbn [foldr]; [done |]. pose proof (tx_len_pos d). lia. Qed.

(** The distance from [p] to [q] around the ring. *)
Lemma dist_next p q : 0 < n -> 0 <= p < n -> 0 <= q < n -> q <> p ->
  (q - (p + 1) mod n) mod n = (q - p) mod n - 1.
Proof.
  intros Hn Hp Hq Hne. rewrite (slot_mod n (p + 1)) by lia.
  destruct (Z.ltb_spec (p + 1) n), (Z.lt_ge_cases q p).
  - rewrite <- (Z.mod_unique_pos (q - p) n (-1) (q - p + n)) by lia.
    rewrite <- (Z.mod_unique_pos (q - (p + 1)) n (-1) (q - p + n - 1)) by lia. done.
  - rewrite !Z.mod_small by lia. lia.
  - rewrite <- (Z.mod_unique_pos (q - p) n (-1) (q - p + n)) by lia. rewrite Z.mod_small by lia. lia.
  - lia.
Qed.

Lemma dist_self p : 0 <= p < n -> (p - (p + 1) mod n) mod n = n - 1.
Proof.
  intros Hp. rewrite (slot_mod n (p + 1)) by lia. destruct (Z.ltb_spec (p + 1) n).
  - symmetry. apply (Z.mod_unique_pos _ n (-1)); lia.
  - rewrite Z.mod_small by lia. lia.
Qed.

Lemma slot_write s s' p q d : desc_ok d -> backed (mem s) (base + 8 * p) 8 ->
  mem s' = pci_dma_write (mem s) (base + 8 * p) (raw_desc d) ->
  slot s' q = if q =? p then d else slot s q.
Proof.
  intros Hd Hb E. unfold slot. transitivity (load_ring_desc (store_ring_desc s (base + 8 * p) d) (base + 8 * q)).
  { by apply load_mem. }
  destruct (Z.eqb_spec q p) as [-> |]; [by apply load_store_eq | apply load_store_ne; lia].
Qed.

(** Rewriting a descriptor behind the chain leaves the chain. *)
Lemma tx_chain_write s s' p0 ds p : 0 < n -> 0 <= p0 < n -> 0 <= p < n ->
  (forall q, q <> p0 -> slot s' q = slot s q) -> Z.of_nat (length ds) <= (p0 - p) mod n ->
  tx_chain s p ds -> tx_chain s' p ds.
Proof.
  intros Hn Hp0 Hp Hs. revert p Hp. induction ds as [| d ds IH]; intros p Hp Hl; [done |].
  cbn [tx_chain length] in *. assert (p <> p0) by (intros ->; rewrite Z.sub_diag, Z.mod_0_l in Hl; lia).
  intros (E & Hv & Ht). split; [by rewrite Hs |]. split; [done |]. destruct ds as [| d' ds']; [done |].
  destruct Ht as [Ht Hc]. split; [done |]. apply IH; [apply Z.mod_pos_bound; lia | | exact Hc].
  rewrite dist_next by lia. lia.
Qed.

Lemma tx_chain_mem s s' ds p : mem s' = mem s -> tx_chain s p ds -> tx_chain s' p ds.
Proof.
  intros E. revert p. induction ds as [| d ds IH]; intros p; [done |]. cbn [tx_chain].
  intros (Hd & Hv & Ht). split; [by unfold slot; rewrite (load_mem s s' _ E) |]. split; [done |].
  destruct ds; [done |]. destruct Ht as [Ht Hc]. split; [done | by apply IH].
Qed.

Lemma payload_write s s' p d l : mem s' = pci_dma_write (mem s) (base + 8 * p) l -> zlen l = 8 -> 0 <= p < n ->
  off_ring (buffer_addr d) (tx_len d) -> payload (mem s') d = payload (mem s) d.
Proof. intros E Hl Hp Hd. unfold payload. rewrite E. apply dma_read_write_ne. unfold off_ring in Hd. lia. Qed.

Lemma length_raw_desc d : zlen (raw_desc d) = 8.
Proof. done. Qed.

Lemma tx_loop_sends ds : forall s p i fuel, ring TX s base n p -> tx_chain s p ds ->
  0 <= i -> i + Z.of_nat (length ds) <= n -> (length ds <= fuel)%nat ->
  tx_dma_buf_offset s + total ds <= TX_ALLOC_BUFSIZE ->
  Forall (fun d => off_ring (buffer_addr d) (tx_len d)) ds ->
  exists s', tx_loop fuel i s = Ok (s', true) /\
    ring TX s' base n ((p + Z.of_nat (length ds)) mod n) /\ tx_frame s s' /\
    sent s' = sent s ++ [acc s ++ concat (payload (mem s) <$> ds)] /\ tx_dma_buf_offset s' = 0 /\
    (forall q, 0 <= q < n ->
      slot s' q = if (q - p) mod n <? Z.of_nat (length ds) then tx_done (slot s q) else slot s q) /\
    (forall a k, off_ring a k -> pci_dma_read (mem s') a k = pci_dma_read (mem s) a k).
Proof.
  induction ds as [| d ds IH]; intros s p i fuel R Hc Hi Hn Hf Ht Ho; [done |].
  destruct Hc as (Hd & Hv & Hlast). destruct fuel as [| fuel]; [cbn in Hf; lia |].
  cbn [tx_loop length] in *. rewrite (get_ring_size_ok TX _ _ _ _ R : get_tx_ring_size s = _), ok_bind.
  destruct (Z.ltb_spec i n); [cbn [negb] | lia].
  unfold total in Ht. cbn [foldr] in Ht. fold (total ds) in Ht. pose proof (total_pos ds).
  inversion_clear Ho as [| ? ? Hod Hods].
  destruct (tx_descriptor_ok s base n p d R Hd Hv) as (s1 & E1 & R1 & F1 & M1 & S1 & O1 & A1); [lia |].
  rewrite E1, ok_bind. pose proof (rg_p _ _ _ _ _ R) as Hp. pose proof (rg_n _ _ _ _ _ R) as Hn0.
  assert (Hslot : forall q, slot s1 q = if q =? p then tx_done (slot s p) else slot s q).
  { intros q. rewrite Hd. apply (slot_write s); [| by apply R | done].
    apply tx_done_ok. rewrite <- Hd. apply load_desc_ok. }
  assert (Hmem : forall a k, off_ring a k -> pci_dma_read (mem s1) a k = pci_dma_read (mem s) a k).
  { intros a k Ha. rewrite M1. apply dma_read_write_ne. rewrite length_raw_desc. unfold off_ring in Ha. lia. }
  destruct ds as [| d' ds'].
  - rewrite Hlast in *. exists s1. split; [done |]. split; [done |]. split; [done |].
    split; [rewrite S1; cbn; by rewrite app_nil_r |]. split; [done |]. split; [| done].
    intros q Hq. rewrite Hslot. replace (Z.of_nat _) with 1 by done. destruct (Z.eqb_spec q p) as [-> |].
    + by rewrite Z.sub_diag, Z.mod_0_l by lia.
    + pose proof (dist_next p q Hn0 Hp Hq n0). pose proof (Z.mod_pos_bound (q - (p + 1) mod n) n).
      destruct (Z.ltb_spec ((q - p) mod n) 1); [lia | done].
  - destruct Hlast as [Hl Hc]. rewrite Hl in *. set (ds := d' :: ds') in *.
    destruct (IH s1 ((p + 1) mod n) (i + 1) fuel R1) as (s2 & E2 & R2 & F2 & S2 & O2 & D2 & N2);
      [| lia | lia | lia | lia | done |].
    { apply (tx_chain_write s s1 p); [done | done | apply Z.mod_pos_bound; lia | | | exact Hc].
      - intros q Hq. rewrite Hslot. by apply Z.eqb_neq in Hq as ->.
      - rewrite dist_self by done. lia. }
    exists s2. split; [done |]. split; [| split; [by eapply tx_frame_trans |]].
    { replace ((p + Z.of_nat (S (length ds))) mod n) with (((p + 1) mod n + Z.of_nat (length ds)) mod n); [done |].
      rewrite Z.add_mod_idemp_l by lia. f_equal. lia. }
    split; [| split; [done |]; split].
    + rewrite S2, S1, A1 by done. rewrite <- app_assoc. cbn [fmap list_fmap concat]. do 5 f_equal.
      apply list_fmap_ext. intros j x Hx%(list_elem_of_lookup_2 _ _ _).
      eapply payload_write; [exact M1 | done | done |]. exact (proj1 (Forall_forall _ ds) Hods x Hx).
    + intros q Hq. rewrite D2, Hslot by done. destruct (Z.eqb_spec q p) as [-> | Hne].
      * rewrite dist_self, Z.sub_diag, Z.mod_0_l by lia.
        destruct (Z.ltb_spec (n - 1) (Z.of_nat (length ds))), (Z.ltb_spec 0 (Z.of_nat (S (length ds)))); (done || lia).
      * rewrite dist_next by done.
        destruct (Z.ltb_spec ((q - p) mod n - 1) (Z.of_nat (length ds))),
          (Z.ltb_spec ((q - p) mod n) (Z.of_nat (S (length ds)))); (done || lia).
    + intros a k Ha. by rewrite N2, Hmem.
Qed.
End chain.

Lemma or_reg_ok s a v : wf s -> valid a = true -> or_reg s a v = Ok (put s a (reg s a .| v)).
Proof. intros. unfold or_reg. by regs_run. Qed.

Lemma and_reg_ok s a v : wf s -> valid a = true -> and_reg s a v = Ok (put s a (reg s a .& v)).
Proof. intros. unfold and_reg. by regs_run. Qed.

(** [s] with the status bits [v] raised and the line updated. *)
Definition raised s (v : Z) : NvNetState M :=
  (put s NVNET_IRQ_STATUS (reg s NVNET_IRQ_STATUS .| v))
    <| irq := flag (reg s NVNET_IRQ_MASK) (reg s NVNET_IRQ_STATUS .| v) |>.

Lemma lor_in_u32 s a v : wf s -> in_u 32 v -> u32 (reg s a .| v) = reg s a .| v.
Proof. intros W Hv. apply in_u_small, in_u_lor; [done | by apply reg_in_u | done]. Qed.

Lemma set_intr_status_ok s v : wf s -> in_u 32 v -> set_intr_status s v = Ok (raised s v).
Proof.
  intros W Hv. unfold set_intr_status, update_irq. rewrite or_reg_ok by done. regs_run. regs_simpl.
  by rewrite lor_in_u32.
Qed.

Lemma wf_raised s v : wf s -> wf (raised s v).
Proof. intros W. destruct (wf_put s NVNET_IRQ_STATUS (reg s NVNET_IRQ_STATUS .| v)); [done | done |]. by constructor. Qed.

Lemma set_dma_idle_ok s b : wf s ->
  set_dma_idle s b = Ok (put s NVNET_TX_RX_CONTROL
    (if b then reg s NVNET_TX_RX_CONTROL .| NVNET_TX_RX_CONTROL_IDLE
     else reg s NVNET_TX_RX_CONTROL .& u32 (Z.lnot NVNET_TX_RX_CONTROL_IDLE))).
Proof. intros W. unfold set_dma_idle. destruct b; [by apply or_reg_ok | by apply and_reg_ok]. Qed.

(** The transmitter is started and the link is up. *)
Definition tx_ready s : Prop :=
  flag (reg s NVNET_TRANSMITTER_CONTROL) NVNET_TRANSMITTER_CONTROL_START = true /\
  flag (nthZ (phy_regs s) MII_BMSR) MII_BMSR_LINK_ST = true.

Lemma can_transmit_ok s : wf s -> tx_ready s -> reg s NVNET_TX_RX_CONTROL .& NVNET_TX_RX_CONTROL_BIT2 = 0 ->
  can_transmit s = Ok true.
Proof.
  intros W [H1 H2] H3. unfold can_transmit, tx_enabled, dma_enabled, link_up. regs_run.
  rewrite rd_nthZ by (rewrite (wf_phy s W); lia). rewrite !ok_bind. by rewrite H1, H2, H3.
Qed.

(** A kick with a complete packet in the ring. *)
Lemma dma_packet_from_guest_ok s base n p ds : ring TX s base n p -> tx_ready s ->
  reg s NVNET_TX_RX_CONTROL .& NVNET_TX_RX_CONTROL_BIT2 = 0 ->
  tx_chain base n s p ds -> Z.of_nat (length ds) <= n -> tx_dma_buf_offset s = 0 ->
  total ds <= TX_ALLOC_BUFSIZE -> Forall (fun d => off_ring base n (buffer_addr d) (tx_len d)) ds ->
  exists s', dma_packet_from_guest s = Ok s' /\
    ring TX s' base n ((p + Z.of_nat (length ds)) mod n) /\
    sent s' = sent s ++ [concat (payload (mem s) <$> ds)] /\ tx_dma_buf_offset s' = 0 /\
    reg s' NVNET_IRQ_STATUS = reg s NVNET_IRQ_STATUS .| NVNET_IRQ_STATUS_TX /\
    irq s' = flag (reg s NVNET_IRQ_MASK) (reg s NVNET_IRQ_STATUS .| NVNET_IRQ_STATUS_TX) /\
    (forall q, 0 <= q < n ->
      slot base s' q = if (q - p) mod n <? Z.of_nat (length ds) then tx_done (slot base s q) else slot base s q) /\
    (forall a k, off_ring base n a k -> pci_dma_read (mem s') a k = pci_dma_read (mem s) a k).
Proof.
  intros R Hrdy Hb2 Hc Hlen Hoff Htot Hoffr. assert (W : wf s) by apply R.
  unfold dma_packet_from_guest. rewrite can_transmit_ok, ok_bind by done. cbn [negb].
  rewrite set_dma_idle_ok, ok_bind by done. set (s1 := put s _ _).
  assert (ring TX s1 base n p) as R1 by (by apply ring_put).
  destruct (tx_loop_sends base n ds s1 p 0 (Z.to_nat (2 ^ 16)) R1) as (s2 & E2 & R2 & F2 & S2 & O2 & D2 & N2);
    [by apply (tx_chain_mem base n s) | done | lia | | | done |].
  { pose proof (rg_size _ _ _ _ _ R) as E. pose proof (Z.mod_pos_bound
      (GET_MASK (reg s NVNET_RING_SIZE) (size_mask TX) + 1) (2 ^ 16)). lia. }
  { change (tx_dma_buf_offset s1) with (tx_dma_buf_offset s). lia. }
  rewrite E2, ok_bind. assert (W2 : wf s2) by apply R2. destruct F2 as (_ & I2 & P2 & F2).
  rewrite set_dma_idle_ok, ok_bind by done. set (s3 := put s2 _ _). assert (W3 : wf s3) by (by apply wf_put).
  rewrite set_intr_status_ok by done. eexists. split; [done |].
  assert (forall a, valid a = true -> a <> NVNET_TX_RX_CONTROL -> a <> NVNET_TX_RING_CURRENT_DESC_PHYS_ADDR ->
    a <> NVNET_TX_RING_NEXT_DESC_PHYS_ADDR -> reg s3 a = reg s a) as F3.
  { intros a Va Ha1 Ha2 Ha3. subst s3 s1. by rewrite reg_put_ne, F2, reg_put_ne by done. }
  split; [| split; [| split; [done | split; [| split; [| split; [done | done]]]]]].
  - apply (ring_frame TX s2); [done | by apply wf_raised | | | | done];
      (etransitivity; [by apply (reg_put_ne s3 NVNET_IRQ_STATUS) | subst s3; by rewrite reg_put_ne]).
  - cbn. rewrite S2. unfold acc. change (tx_dma_buf_offset s1) with (tx_dma_buf_offset s). by rewrite Hoff.
  - transitivity (u32 (reg s3 NVNET_IRQ_STATUS .| NVNET_IRQ_STATUS_TX)); [by apply (reg_put_eq s3 NVNET_IRQ_STATUS) |].
    by rewrite lor_in_u32, F3 by done.
  - unfold raised. cbn. by rewrite !F3 by done.
Qed.

(** C34: where the transmitter is ready, no part of a packet is left from an earlier
    kick, the packet fits the buffer of the device and its buffers are beside the
    ring, a kick with a complete packet in the ring sends exactly one frame, the
    concatenation of the buffers of its descriptors in ring order, across the end
    of the ring; it gives those descriptors and no others back, moves the ring
    pointer past them, changes no memory beside the ring, and raises the transmit
    interrupt. *)
Theorem nvnet_kick_sends_packet s base n p ds :
  ring TX s base n p -> tx_ready s -> tx_chain base n s p ds -> Z.of_nat (length ds) <= n ->
  tx_dma_buf_offset s = 0 -> total ds <= TX_ALLOC_BUFSIZE ->
  Forall (fun d => off_ring base n (buffer_addr d) (tx_len d)) ds ->
  exists s', nvnet_mmio_write s NVNET_TX_RX_CONTROL NVNET_TX_RX_CONTROL_KICK 4 = Ok s' /\
    sent s' = sent s ++ [concat (payload (mem s) <$> ds)] /\ tx_dma_buf_offset s' = 0 /\
    ring TX s' base n ((p + Z.of_nat (length ds)) mod n) /\
    reg s' NVNET_IRQ_STATUS = reg s NVNET_IRQ_STATUS .| NVNET_IRQ_STATUS_TX /\
    irq s' = flag (reg s NVNET_IRQ_MASK) (reg s NVNET_IRQ_STATUS .| NVNET_IRQ_STATUS_TX) /\
    (forall q, 0 <= q < n ->
      slot base s' q = if (q - p) mod n <? Z.of_nat (length ds) then tx_done (slot base s q) else slot base s q) /\
    (forall a k, off_ring base n a k -> pci_dma_read (mem s') a k = pci_dma_read (mem s) a k).
Proof.
  intros R Hrdy Hc Hlen Hoff Htot Hoffr. assert (W : wf s) by apply R.
  unfold nvnet_mmio_write, set_reg_with_mask. rewrite c_assert_true, ok_bind by done. cbn [Z.eqb Pos.eqb].
  regs_run. set (w := (_ .& (_ .| _)) .| _). set (s1 := put s _ w). assert (W1 : wf s1) by (by apply wf_put).
  destruct (dma_packet_from_guest_ok s1 base n p ds) as (s2 & E & R2 & S2 & O2 & St & I2 & D2 & N2); try done.
  - by apply ring_put.
  - subst s1. destruct Hrdy. split; [by rewrite reg_put_ne | done].
  - subst s1. rewrite reg_put_eq by done. subst w. rewrite <- Z.land_ones, <- Z.land_assoc by lia.
    rewrite Z.land_lor_distr_l, <- Z.land_assoc. change (Z.land (Z.ones 32) 4) with 4.
    match goal with |- ?v .& ?k .| ?j = 0 => change k with 0; change j with 0 end. by rewrite Z.land_0_r.
  - by apply (tx_chain_mem base n s).
  - change (flag NVNET_TX_RX_CONTROL_KICK NVNET_TX_RX_CONTROL_KICK) with true. cbn iota. rewrite E, !ok_bind.
    exists s2. split; [done |]. subst s1. rewrite reg_put_ne in St by done. rewrite !reg_put_ne in I2 by done.
    split; [exact S2 |]. split; [exact O2 |]. split; [exact R2 |]. split; [exact St |]. split; [exact I2 |]. split; [exact D2 | exact N2].
Qed.
End words.

(** ** The packet filter *)

Section filter.
Context {M : Type} `{DmaMemoryLaws M}.
Implicit Types s : NvNetState M.

(** The six bytes of an address register pair. *)
Definition mac_at s (a : Z) : list Z := take 6 (drop (Z.to_nat a) (regs s)).

Definition broadcast : list Z := replicate 6 0xff.

(** The destinations that the guest asked for: broadcast always; everything when
    the address match is off; else the masked multicast address, unless it is set
    to broadcast, and the station's own address. *)
Definition accepts s (dst : list Z) : bool :=
  bool_decide (dst = broadcast) ||
  negb (flag (reg s NVNET_PACKET_FILTER) NVNET_PACKET_FILTER_MYADDR) ||
  (bool_decide (mac_at s NVNET_MULTICAST_ADDR_A <> broadcast) &&
   bool_decide (zip_with Z.land dst (mac_at s NVNET_MULTICAST_MASK_A) = mac_at s NVNET_MULTICAST_ADDR_A)) ||
  bool_decide (dst = mac_at s NVNET_MAC_ADDR_A).

Lemma land_255 a b : in_u 8 a -> in_u 8 b -> (a .& b =? 0xff) = (a =? 0xff) && (b =? 0xff).
Proof.
  intros Ha Hb. destruct (Z.eqb_spec (a .& b) 0xff) as [E | E].
  - assert (forall x y, in_u 8 x -> x .& y = 0xff -> x = 0xff) as Hx.
    { intros x y Hx Exy. apply Z.bits_inj'. intros i Hi. destruct (Z.lt_ge_cases i 8).
      - assert (Z.testbit (x .& y) i = true) as Ei
          by (rewrite Exy; change 0xff with (Z.ones 8); apply Z.ones_spec_low; lia).
        rewrite Z.land_spec in Ei. apply andb_prop in Ei as [-> _].
        symmetry. change 0xff with (Z.ones 8). apply Z.ones_spec_low. lia.
      - rewrite (testbit_small 8 x), (testbit_small 8 0xff) by (done || lia). done. }
    rewrite (Hx a b), (Hx b a); [done | done | by rewrite Z.land_comm | done | done].
  - destruct (Z.eqb_spec a 0xff) as [-> |], (Z.eqb_spec b 0xff) as [-> |]; done.
Qed.

Lemma is_broadcast_ok l : 6 <= zlen l -> Forall (in_u 8) l ->
  is_broadcast_ether_addr l = Ok (bool_decide (take 6 l = broadcast)).
Proof.
  intros Hl Hb. unfold is_broadcast_ether_addr. rewrite !rd_nthZ, !ok_bind by lia.
  destruct l as [| a0 [| a1 [| a2 [| a3 [| a4 [| a5 l]]]]]]; cbn in Hl; try lia.
  repeat (apply Forall_cons in Hb as [? Hb]).
  repeat match goal with |- context [nthZ ?l ?k] => let v := eval vm_compute in (nthZ l k) in change (nthZ l k) with v end.
  f_equal. rewrite !land_255 by (repeat (apply in_u_land_l; [lia |]); done).
  unfold broadcast. cbn.
  destruct (Z.eqb_spec a0 255) as [-> |], (Z.eqb_spec a1 255) as [-> |], (Z.eqb_spec a2 255) as [-> |],
    (Z.eqb_spec a3 255) as [-> |], (Z.eqb_spec a4 255) as [-> |], (Z.eqb_spec a5 255) as [-> |]; cbn;
    symmetry; (apply bool_decide_eq_true; done) || (apply bool_decide_eq_false; congruence).
Qed.

Lemma le_bytes_land n a b : le_bytes n (a .& b) = zip_with Z.land (le_bytes n a) (le_bytes n b).
Proof.
  revert a b. induction n as [| n IH]; intros a b; cbn; [done |]. rewrite Z.shiftr_land, IH. f_equal.
  rewrite <- !Z.land_ones by lia. zbits.
Qed.

Lemma le_bytes_reg s a : wf s -> valid a = true -> le_bytes 4 (reg s a) = take 4 (drop (Z.to_nat a) (regs s)).
Proof.
  intros W V. apply valid_spec in V as (? & ? & _). pose proof (wf_regs s W).
  rewrite <- (le_bytes_val (take 4 (drop (Z.to_nat a) (regs s)))) by apply Forall_take, Forall_drop, W.
  unfold reg. f_equal. rewrite length_take, length_drop. lia.
Qed.

Lemma addr_bytes_reg s a : wf s -> valid a = true -> valid (a + 4) = true ->
  addr_bytes (reg s a) (reg s (a + 4)) = take 8 (drop (Z.to_nat a) (regs s)).
Proof.
  intros W V V'. unfold addr_bytes. rewrite !le_bytes_reg by done. apply valid_spec in V as (? & ? & _).
  rewrite <- (take_take_drop _ 4 4), drop_drop. do 3 f_equal. lia.
Qed.

Lemma mac_at_addr s a b : wf s -> b = a + 4 -> valid a = true -> valid b = true ->
  take 6 (addr_bytes (reg s a) (reg s b)) = mac_at s a.
Proof. intros ? -> ? ?. by rewrite addr_bytes_reg, take_take by done. Qed.

(** The masked destination, word by word, is the mask applied byte by byte. *)
Lemma masked_dest s a b dst : wf s -> b = a + 4 -> valid a = true -> valid b = true -> Forall (in_u 8) dst -> length dst = 6%nat ->
  take 6 (addr_bytes (le_val (take 4 dst) .& reg s a) (le_val (drop 4 dst) .& reg s b)) =
    zip_with Z.land dst (mac_at s a).
Proof.
  intros W -> V V' Hd Hl. unfold addr_bytes. rewrite !le_bytes_land.
  rewrite <- (mac_at_addr s a (a + 4)) by done. unfold addr_bytes.
  pose proof (le_bytes_val (take 4 dst)) as E1. pose proof (le_bytes_val (drop 4 dst ++ [0; 0])) as E2.
  destruct dst as [| d0 [| d1 [| d2 [| d3 [| d4 [| d5 [|]]]]]]]; try done.
  change (take 4 [d0; d1; d2; d3; d4; d5]) with [d0; d1; d2; d3] in *.
  change (drop 4 [d0; d1; d2; d3; d4; d5]) with [d4; d5] in *. cbn [app length] in E1, E2. rewrite E1.
  2: { by apply (Forall_take _ 4) in Hd. }
  assert (le_val [d4; d5; 0; 0] = le_val [d4; d5]) as Ev by (cbn; by rewrite !Z.lor_0_r).
  rewrite Ev in E2. rewrite E2.
  2: { apply (Forall_drop _ 4) in Hd. inversion_clear Hd as [| ? ? H4 H5]. inversion_clear H5.
       do 4 (apply Forall_cons_2; [done || (split; lia) |]). done. }
  reflexivity.
Qed.

(** The filter accepts exactly the destinations that the registers ask for. *)
Lemma receive_filter_ok s buf size : wf s -> 6 <= zlen buf -> Forall (in_u 8) buf -> 6 <= size ->
  receive_filter s buf size = Ok (accepts s (take 6 buf)).
Proof.
  intros W Hl Hb Hs. unfold receive_filter, accepts. destruct (Z.ltb_spec size 6); [lia |].
  rewrite (get_reg_ok s NVNET_PACKET_FILTER), ok_bind by done. rewrite (is_broadcast_ok buf), ok_bind by done.
  destruct (bool_decide (take 6 buf = broadcast)); [done |]. cbn [orb].
  destruct (negb (flag _ _)); [done |]. cbn [orb].
  rewrite !(get_reg_ok s) by done. rewrite !ok_bind. cbv zeta.
  rewrite (is_broadcast_ok (addr_bytes _ _)), ok_bind;
    [| unfold addr_bytes; rewrite length_app, !length_le_bytes; lia | apply Forall_app; split; apply Forall_le_bytes].
  rewrite (mac_at_addr s NVNET_MULTICAST_ADDR_A NVNET_MULTICAST_ADDR_B) by done.
  rewrite slice_ok, ok_bind by lia. change (Z.to_nat 0) with 0%nat. change (Z.to_nat 6) with 6%nat. rewrite drop_0.
  set (dst := take 6 buf). assert (Forall (in_u 8) dst) by (by apply Forall_take).
  assert (length dst = 6%nat) by (subst dst; rewrite length_take; lia).
  case_bool_decide as E; cbn [andb orb].
  - rewrite !ok_bind, (bool_decide_eq_false_2 (mac_at s NVNET_MULTICAST_ADDR_A <> broadcast)) by (intros N; by apply N).
    by rewrite (mac_at_addr s NVNET_MAC_ADDR_A NVNET_MAC_ADDR_B).
  - rewrite !ok_bind, (bool_decide_eq_true_2 (mac_at s NVNET_MULTICAST_ADDR_A <> broadcast)) by done. cbn [andb].
    rewrite (masked_dest s NVNET_MULTICAST_MASK_A NVNET_MULTICAST_MASK_B) by done.
    rewrite ?ok_bind, (mac_at_addr s NVNET_MAC_ADDR_A NVNET_MAC_ADDR_B) by done. by destruct (bool_decide (zip_with _ _ _ = _)).
Qed.
End filter.

(** ** Receiving a frame *)

Section receive.
Context {M : Type} `{DmaMemoryLaws M}.
Implicit Types s : NvNetState M.

(** The receiver is started, DMA is on and the link is up. *)
Definition rx_ready s : Prop :=
  flag (reg s NVNET_RECEIVER_CONTROL) NVNET_RECEIVER_CONTROL_START = true /\
  reg s NVNET_TX_RX_CONTROL .& NVNET_TX_RX_CONTROL_BIT2 = 0 /\
  flag (nthZ (phy_regs s) MII_BMSR) MII_BMSR_LINK_ST = true.

Lemma can_receive_ok s base n p : ring RX s base n p -> rx_ready s ->
  nvnet_can_receive s =
    Ok (put s NVNET_RX_RING_CURRENT_DESC_PHYS_ADDR (base + 8 * p), flag (flags (slot base s p)) NV_RX_AVAIL).
Proof.
  intros R (H1 & H2 & H3). assert (W : wf s) by apply R.
  unfold nvnet_can_receive, rx_enabled, dma_enabled, link_up, rx_buf_available.
  rewrite (update_current_ok RX _ _ _ _ R : update_current_rx_ring_desc_addr s = _).
  rewrite (rd_nthZ (phy_regs s)) by (rewrite (wf_phy s W); lia).
  rewrite !get_reg_ok, !ok_bind by done. by rewrite H1, H2, H3.
Qed.

(** The descriptor of a received frame. *)
Definition rx_done (d : RingDesc) (size : Z) : RingDesc :=
  mkRingDesc (buffer_addr d) size (NV_RX_BIT4 .| NV_RX_DESCRIPTORVALID).

(** Memory after the frame and then its descriptor are written. *)
Lemma rx_memory s s' base n p b buf d : ring RX s base n p ->
  mem s' = pci_dma_write (pci_dma_write (mem s) b buf) (base + 8 * p) (raw_desc d) ->
  desc_ok d -> Forall (in_u 8) buf -> off_ring base n b (zlen buf) -> backed (mem s) b (zlen buf) ->
  pci_dma_read (mem s') b (zlen buf) = buf /\
  forall q, 0 <= q < n -> slot base s' q = if q =? p then d else slot base s q.
Proof.
  intros R E Hd Hbuf Hoff Hram. pose proof (rg_p _ _ _ _ _ R) as Hp. unfold off_ring in Hoff. split.
  - rewrite E, dma_read_write_ne by (rewrite length_raw_desc; lia). by apply dma_read_write.
  - intros q Hq. rewrite (slot_write base (s <| mem := pci_dma_write (mem s) b buf |>) s' p q d);
      [| done | apply backed_write, R; lia | done].
    destruct (q =? p); [done |]. unfold slot, load_ring_desc.
    change (mem (s <| mem := ?m |>)) with m. by rewrite dma_read_write_ne by lia.
Qed.

Lemma dma_packet_to_guest_ok s base n p buf : ring RX s base n p -> rx_ready s ->
  let d := slot base s p in
  flag (flags d) NV_RX_AVAIL = true -> zlen buf <= length_ d + 1 -> zlen buf <= RX_ALLOC_BUFSIZE ->
  Forall (in_u 8) buf -> off_ring base n (buffer_addr d) (zlen buf) -> backed (mem s) (buffer_addr d) (zlen buf) ->
  exists s', dma_packet_to_guest s buf = Ok (s', zlen buf) /\
    ring RX s' base n ((p + 1) mod n) /\
    pci_dma_read (mem s') (buffer_addr d) (zlen buf) = buf /\
    (forall q, 0 <= q < n -> slot base s' q = if q =? p then rx_done d (zlen buf) else slot base s q) /\
    reg s' NVNET_IRQ_STATUS = reg s NVNET_IRQ_STATUS .| NVNET_IRQ_STATUS_RX /\
    irq s' = flag (reg s NVNET_IRQ_MASK) (reg s NVNET_IRQ_STATUS .| NVNET_IRQ_STATUS_RX) /\
    sent s' = sent s.
Proof.
  intros R Hrdy d Hav Hlen Hmax Hbuf Hoff Hram. assert (W : wf s) by apply R.
  unfold dma_packet_to_guest. rewrite (can_receive_ok _ _ _ _ R Hrdy), ok_bind. fold d. rewrite Hav. cbn [negb].
  set (s1 := put s _ _). assert (R1 : ring RX s1 base n p) by (by apply ring_put).
  rewrite set_dma_idle_ok, ok_bind by apply R1. set (s2 := put s1 _ _).
  assert (R2 : ring RX s2 base n p) by (by apply ring_put).
  rewrite (update_current_ok RX _ _ _ _ R2 : update_current_rx_ring_desc_addr s2 = _), ok_bind.
  cbn [cur_reg]. set (s3 := put s2 _ _). assert (R3 : ring RX s3 base n p) by (by apply ring_put).
  change (load_ring_desc s3 (base + 8 * p)) with d. cbv zeta. rewrite Hav.
  rewrite c_assert_true, ok_bind by (rewrite Z.geb_leb; by apply Z.leb_le).
  rewrite (Z.mod_small (zlen buf)) by lia. fold (rx_done d (zlen buf)).
  change (mem s3) with (mem s). set (s4 := s3 <| mem := _ |>). set (s5 := store_ring_desc s4 _ _).
  pose proof (rg_p _ _ _ _ _ R) as Hp. unfold off_ring in Hoff.
  assert (R5 : ring RX s5 base n p).
  { apply (ring_frame RX s3); [done | destruct (rg_wf _ _ _ _ _ R3); by constructor | done .. |].
    intros a k Hk. by do 2 apply backed_write. }
  rewrite set_intr_status_ok, ok_bind by (done || apply R5). set (s6 := raised s5 _).
  assert (W6 : wf s6) by (apply wf_raised, R5).
  assert (F6 : forall a, valid a = true -> a <> NVNET_IRQ_STATUS -> a <> NVNET_RX_RING_CURRENT_DESC_PHYS_ADDR ->
    a <> NVNET_TX_RX_CONTROL -> reg s6 a = reg s a).
  { intros a Va Ha1 Ha2 Ha3. transitivity (reg s5 a); [apply (reg_put_ne s5 NVNET_IRQ_STATUS); [apply R5 | done ..] |].
    change (reg s5 a) with (reg s3 a). subst s3 s2 s1.
    by rewrite !reg_put_ne by (done || apply R2 || apply R1). }
  assert (R6 : ring RX s6 base n p) by (apply (ring_frame RX s); [done | done | by apply F6 .. |];
    intros a k Hk; by do 2 apply backed_write).
  rewrite (advance_next_ok RX s6 base n p R6 : _ -> advance_next_rx_ring_desc_addr s6 = _), ok_bind.
  2: { transitivity (reg s5 NVNET_RX_RING_CURRENT_DESC_PHYS_ADDR);
         [apply (reg_put_ne s5 NVNET_IRQ_STATUS); [apply R5 | done ..] |].
       change (reg s5 ?a) with (reg s3 a). subst s3. rewrite reg_put_eq by (done || apply R2).
       apply Z.mod_small. pose proof (ring_base_pos _ _ _ _ _ R). pose proof (rg_top _ _ _ _ _ R). lia. }
  pose proof (ring_next _ _ _ _ _ R6) as R7. set (s7 := put s6 _ _) in *. rewrite ok_bind. cbv beta iota.
  rewrite set_dma_idle_ok, ok_bind by apply R7. eexists. split; [done |].
  destruct (rx_memory s s7 base n p (buffer_addr d) buf (rx_done d (zlen buf))) as [Hrd Hsl]; try done.
  { split; [apply (load_desc_ok s) |]. split; [unfold in_u; cbn [rx_done length_]; lia | done]. }
  split; [by apply ring_put |]. split; [exact Hrd |]. split; [exact Hsl |].
  rewrite reg_put_ne by (done || apply R7). subst s7. rewrite reg_put_ne by done.
  split; [| split; [| done]].
  - transitivity (u32 (reg s5 NVNET_IRQ_STATUS .| NVNET_IRQ_STATUS_RX)).
    { apply (reg_put_eq s5 NVNET_IRQ_STATUS); [apply R5 | done]. }
    rewrite lor_in_u32 by (done || apply R5). change (reg s5 ?a) with (reg s3 a). subst s3 s2 s1.
    by rewrite !reg_put_ne by (done || apply R2 || apply R1).
  - change (irq _) with (flag (reg s5 NVNET_IRQ_MASK) (reg s5 NVNET_IRQ_STATUS .| NVNET_IRQ_STATUS_RX)).
    change (reg s5 ?a) with (reg s3 a). subst s3 s2 s1.
    by rewrite !reg_put_ne by (done || apply R2 || apply R1).
Qed.

(** The frame in the receive buffer. *)
Lemma rx_copy s frame : wf s -> zlen frame <= RX_ALLOC_BUFSIZE ->
  exists buf, blit (rx_dma_buf s) 0 frame = Ok buf /\ zlen buf = RX_ALLOC_BUFSIZE /\
    slice buf 0 (zlen frame) = Ok frame /\ wf (s <| rx_dma_buf := buf |>).
Proof.
  intros W Hl. pose proof (wf_rx s W) as X.
  destruct (blit (rx_dma_buf s) 0 frame) as [buf | | |] eqn:E; try (rewrite blit_ok in E by lia; done).
  exists buf. pose proof (blit_length _ _ _ _ E). split; [done |]. split; [lia |].
  split; [by apply slice_blit_eq in E |]. destruct W. constructor; (done || cbn; lia).
Qed.

(** C35: a frame of a legal size for an accepted destination, with the receiver
    ready and room in the current descriptor, reaches the descriptor's buffer byte
    for byte; that descriptor alone is rewritten with the frame's length, the ring
    moves on by one and the receive interrupt is raised. A frame that the filter
    rejects is consumed with no effect on registers and memory. *)
Theorem nvnet_receive_delivers s frame : wf s -> Forall (in_u 8) (rx_dma_buf s) -> Forall (in_u 8) frame ->
  6 <= zlen frame <= RX_ALLOC_BUFSIZE ->
  if accepts s (take 6 frame) then
    forall base n p, ring RX s base n p -> rx_ready s ->
    let d := slot base s p in
    flag (flags d) NV_RX_AVAIL = true -> zlen frame <= length_ d + 1 ->
    off_ring base n (buffer_addr d) (zlen frame) -> backed (mem s) (buffer_addr d) (zlen frame) ->
    exists s', nvnet_receive s frame = Ok (s', zlen frame) /\
      ring RX s' base n ((p + 1) mod n) /\
      pci_dma_read (mem s') (buffer_addr d) (zlen frame) = frame /\
      (forall q, 0 <= q < n -> slot base s' q = if q =? p then rx_done d (zlen frame) else slot base s q) /\
      reg s' NVNET_IRQ_STATUS = reg s NVNET_IRQ_STATUS .| NVNET_IRQ_STATUS_RX /\
      irq s' = flag (reg s NVNET_IRQ_MASK) (reg s NVNET_IRQ_STATUS .| NVNET_IRQ_STATUS_RX) /\
      sent s' = sent s
  else exists buf, nvnet_receive s frame = Ok (s <| rx_dma_buf := buf |>, zlen frame).
Proof.
  intros W Hrx Hf Hsz. destruct (rx_copy s frame W) as (buf & Eb & Lb & Es & Wb); [lia |].
  set (s1 := s <| rx_dma_buf := buf |>) in *.
  assert (Forall (in_u 8) buf) as Hbuf by (by eapply Forall_blit).
  assert (take 6 buf = take 6 frame) as Ht.
  { rewrite slice_ok in Es by lia. change (Z.to_nat 0) with 0%nat in Es. rewrite drop_0 in Es.
    injection Es as Es. rewrite <- Es, take_take. f_equal. lia. }
  assert (E0 : nvnet_receive s frame =
    if negb (accepts s (take 6 frame)) then Ok (s1, zlen frame) else dma_packet_to_guest s1 frame).
  { unfold nvnet_receive, nvnet_receive_iov, is_packet_oversized. cbn [concat]. rewrite app_nil_r. cbv zeta.
    destruct (Z.gtb_spec (zlen frame) RX_ALLOC_BUFSIZE); [lia |]. rewrite Eb, ok_bind. fold s1.
    rewrite receive_filter_ok, ok_bind, Ht by (done || lia). change (accepts s1 ?x) with (accepts s x).
    destruct (negb _); [done |]. by rewrite Es, ok_bind. }
  rewrite E0. destruct (accepts s (take 6 frame)); cbn [negb]; [| by exists buf].
  intros base n p R Hrdy Hav Hlen Hoff Hram.
  apply (dma_packet_to_guest_ok s1 base n p frame); try done; [| lia].
  apply (ring_frame RX s); done.
Qed.
End receive.

(** ** A small machine

    128 bytes of RAM with a transmit ring of two descriptors at 0x10, a packet in
    two pieces that starts at the second one, and a receive ring of one descriptor
    at 0x20; transmitter and receiver started, all interrupts enabled. *)

Definition sample_ram : list Z :=
  let m := ram_write (seqZ 0 128) 0x18 (raw_desc (mkRingDesc 0x40 2 NV_TX_VALID)) in
  let m := ram_write m 0x10 (raw_desc (mkRingDesc 0x50 1 (NV_TX_VALID .| NV_TX_LASTPACKET))) in
  ram_write m 0x20 (raw_desc (mkRingDesc 0x60 0x0f NV_RX_AVAIL)).

Definition sample_nic : NvNetState (list Z) :=
  let s := mkNvNet (replicate 0x400 0) phy_reg_init 0 (replicate 1628 0) (replicate 1628 0) None 0 0 false false
             sample_ram [] in
  let s := put s NVNET_IRQ_MASK 0xff in
  let s := put s NVNET_TRANSMITTER_CONTROL NVNET_TRANSMITTER_CONTROL_START in
  let s := put s NVNET_RECEIVER_CONTROL NVNET_RECEIVER_CONTROL_START in
  let s := put s NVNET_PACKET_FILTER NVNET_PACKET_FILTER_MYADDR in
  let s := put s NVNET_MAC_ADDR_A 0x33221100 in
  let s := put s NVNET_MAC_ADDR_B 0x5544 in
  let s := put s NVNET_TX_RING_PHYS_ADDR 0x10 in
  let s := put s NVNET_TX_RING_NEXT_DESC_PHYS_ADDR 0x18 in
  let s := put s NVNET_RX_RING_PHYS_ADDR 0x20 in
  let s := put s NVNET_RX_RING_NEXT_DESC_PHYS_ADDR 0x20 in
  put s NVNET_RING_SIZE 1.

Definition byteb (b : Z) : bool := (0 <=? b) && (b <? 256).

Lemma bytes_forallb l : forallb byteb l = true -> Forall (in_u 8) l.
Proof.
  intros E. apply Forall_forall. intros x Hx. rewrite forallb_forall in E.
  apply list_elem_of_In in Hx. apply E in Hx. unfold byteb in Hx.
  apply andb_prop in Hx as [H1%Z.leb_le H2%Z.ltb_lt]. by split.
Qed.

Lemma sample_wf : wf sample_nic.
Proof. constructor; [done | apply bytes_forallb; by vm_compute | done ..]. Qed.

Lemma sample_inv : nvnet_inv sample_nic.
Proof. split; [apply sample_wf | by vm_compute]. Qed.

Lemma sample_tx : ring TX sample_nic 0x10 2 1.
Proof.
  constructor; [apply sample_wf | by vm_compute .. | lia |]. intros q Hq.
  change (0 <= 0x10 + 8 * q /\ 0x10 + 8 * q + 8 <= 128). lia.
Qed.

Lemma sample_rx : ring RX sample_nic 0x20 1 0.
Proof.
  constructor; [apply sample_wf | by vm_compute .. | lia |]. intros q Hq.
  change (0 <= 0x20 + 8 * q /\ 0x20 + 8 * q + 8 <= 128). lia.
Qed.

Lemma nvnet_never_loses_interrupt_witness :
  nvnet_inv sample_nic /\
  safe nvnet_inv (run_events [MmioWrite NVNET_TX_RX_CONTROL NVNET_TX_RX_CONTROL_KICK 4;
    MmioWrite NVNET_IRQ_STATUS 0x10 4; LinkStatus true 0; Reset] sample_nic).
Proof.
  split; [apply sample_inv |].
  apply nvnet_never_loses_interrupt; [repeat constructor; cbn; lia | apply sample_inv].
Defined.

Lemma nvnet_kick_sends_packet_witness : exists s',
  nvnet_mmio_write sample_nic NVNET_TX_RX_CONTROL NVNET_TX_RX_CONTROL_KICK 4 = Ok s' /\
  sent s' = [[0x40; 0x41; 0x42; 0x50; 0x51]] /\ reg s' NVNET_TX_RING_NEXT_DESC_PHYS_ADDR = 0x18 /\ irq s' = true.
Proof.
  destruct (nvnet_kick_sends_packet sample_nic 0x10 2 1
    [mkRingDesc 0x40 2 NV_TX_VALID; mkRingDesc 0x50 1 (NV_TX_VALID .| NV_TX_LASTPACKET)])
    as (s' & E & S' & _ & R' & _ & I' & _).
  - exact sample_tx.
  - split; by vm_compute.
  - split; [by vm_compute |]. split; [by vm_compute |]. split; [by vm_compute |].
    split; [by vm_compute |]. split; by vm_compute.
  - cbn. lia.
  - by vm_compute.
  - by vm_compute.
  - do 2 (apply Forall_cons_2; [right; by vm_compute |]). done.
  - exists s'. split; [exact E |]. split; [exact S' |]. split; [exact (rg_next _ _ _ _ _ R') | exact I'].
Defined.

Definition sample_frame : list Z := [0x00; 0x11; 0x22; 0x33; 0x44; 0x55; 0xaa; 0xbb].

Lemma nvnet_receive_delivers_witness : exists s',
  nvnet_receive sample_nic sample_frame = Ok (s', 8) /\
  pci_dma_read (mem s') 0x60 8 = sample_frame /\ irq s' = true /\
  slot 0x20 s' 0 = mkRingDesc 0x60 8 0x11.
Proof.
  pose proof (nvnet_receive_delivers sample_nic sample_frame sample_wf) as HT.
  replace (accepts sample_nic (take 6 sample_frame)) with true in HT by (by vm_compute).
  destruct (HT ltac:(apply bytes_forallb; by vm_compute) ltac:(apply bytes_forallb; by vm_compute)
    ltac:(by vm_compute) 0x20 1 0 sample_rx) as (s' & E & R & Hm & Hs & St & Hi & _).
  - split; [by vm_compute |]. split; by vm_compute.
  - by vm_compute.
  - by vm_compute.
  - right. by vm_compute.
  - by vm_compute.
  - exists s'. split; [exact E |]. split; [exact Hm |]. split; [exact Hi |]. exact (Hs 0 ltac:(lia)).
Defined.

(** The control register's bit 1 clears the status without updating the line, which
    stays up with nothing pending. *)
Example control_bit1_leaves_line_up :
  match run_events [MmioWrite NVNET_TX_RX_CONTROL NVNET_TX_RX_CONTROL_KICK 4;
                    MmioWrite NVNET_TX_RX_CONTROL NVNET_TX_RX_CONTROL_BIT1 4] sample_nic with
  | Ok s => irq s = true /\ reg s NVNET_IRQ_STATUS = 0
  | _ => False
  end.
Proof. by vm_compute. Qed.

(** A descriptor that announces more than the packet buffer stops the device on
    an assertion. *)
Example oversized_packet_asserts :
  run_events [GuestMemory (ram_write sample_ram 0x18 (raw_desc (mkRingDesc 0x40 2000 NV_TX_VALID)));
              MmioWrite NVNET_TX_RX_CONTROL NVNET_TX_RX_CONTROL_KICK 4] sample_nic = AssertFail.
Proof. by vm_compute. Qed.

(** So does a frame longer than the buffer of its receive descriptor. *)
Example small_rx_buffer_asserts : nvnet_receive sample_nic (sample_frame ++ replicate 16 0) = AssertFail.
Proof. by vm_compute. Qed.

(** A ring of 65536 descriptors has size 0 in the 16-bit result: a kick then sends
    nothing, and an old snapshot divides by zero. *)
Example ring_of_65536_is_empty :
  let s := put sample_nic NVNET_RING_SIZE 0xffff in
  match nvnet_mmio_write s NVNET_TX_RX_CONTROL NVNET_TX_RX_CONTROL_KICK 4 with
  | Ok s' => sent s' = []
  | _ => False
  end /\ nvnet_post_load s 1 0 = Undef.
Proof. by vm_compute. Qed.
