(* ===== verification/UsbPacket.v ===== *)
(** * USB packets (hw/usb/core.c)

    A packet with the memory of its transfer, and the copy between that memory and
    a device's buffer, which the gamepad and the headset are clients of. *)

From stdpp Require Import base numbers list.
From Stdlib Require Import ZArith Lia.
From S2P Require Import Prelude.

Abbreviation USB_TOKEN_SETUP := 0x2d.
Abbreviation USB_TOKEN_IN := 0x69.
Abbreviation USB_TOKEN_OUT := 0xe1.

Abbreviation USB_RET_SUCCESS := 0.
Abbreviation USB_RET_STALL := (-3).

(** [ep_nr] is [p->ep->nr]; [iov] the bytes that the scatter list covers, in order,
    so that [p->iov.size] is its length. The packet is not part of a combined one. *)
Record USBPacket := mkUSBPacket {
  pid : Z;
  ep_nr : Z;
  iov : list Z;
  status : Z;
  actual_length : Z
}.

#[export] Instance eta_USBPacket : Eta USBPacket := fun p =>
  mkUSBPacket (pid p) (ep_nr p) (iov p) (status p) (actual_length p).

(** Where the device's pointer leads: a buffer of its own, or constant data that
    may only be read. *)
Inductive target := Buffer (l : list Z) | Constant (l : list Z).

(** The new packet, and the buffer after the copy. *)
Definition usb_packet_copy (p : USBPacket) (ptr : target) (bytes : Z) : outcome (USBPacket * target) :=
  c_assert (actual_length p >=? 0);;
  c_assert (actual_length p + bytes <=? zlen (iov p));;
  '(p, ptr) ←
    (if (pid p =? USB_TOKEN_SETUP) || (pid p =? USB_TOKEN_OUT) then
       src ← slice (iov p) (actual_length p) bytes;
       match ptr with
       | Buffer l => l ← blit l 0 src; Ok (p, Buffer l)
       | Constant l => if bytes =? 0 then Ok (p, ptr) else Undef
       end
     else if pid p =? USB_TOKEN_IN then
       src ← slice (match ptr with Buffer l | Constant l => l end) 0 bytes;
       v ← blit (iov p) (actual_length p) src;
       Ok (p <| iov := v |>, ptr)
     else AssertFail);
  Ok (p <| actual_length := actual_length p + bytes |>, ptr).

(** The device to the host. *)
Lemma usb_packet_copy_in p ptr bytes l :
  pid p = USB_TOKEN_IN -> 0 <= actual_length p -> 0 <= bytes -> actual_length p + bytes <= zlen (iov p) ->
  match ptr with Buffer l' | Constant l' => l' end = l -> bytes <= zlen l ->
  exists v, usb_packet_copy p ptr bytes =
      Ok (p <| iov := v |> <| actual_length := actual_length p + bytes |>, ptr) /\
    blit (iov p) (actual_length p) (take (Z.to_nat bytes) l) = Ok v.
Proof.
  intros Hp Ha Hb Hfit Hl Hlen. unfold usb_packet_copy.
  rewrite !c_assert_true, !ok_bind by (rewrite ?Z.geb_leb; by apply Z.leb_le).
  rewrite Hp. cbn [Z.eqb Pos.eqb orb]. rewrite Hl, slice_ok, ok_bind by lia.
  change (Z.to_nat 0) with 0%nat. rewrite drop_0.
  destruct (blit (iov p) _ _) as [v | | |] eqn:E;
    [| rewrite blit_ok in E by (rewrite ?length_take; lia); done ..].
  exists v. by rewrite !ok_bind.
Qed.

(** The host to the device. *)
Lemma usb_packet_copy_out p l bytes :
  pid p = USB_TOKEN_OUT -> 0 <= actual_length p -> 0 <= bytes -> actual_length p + bytes <= zlen (iov p) ->
  bytes <= zlen l ->
  usb_packet_copy p (Buffer l) bytes =
    Ok (p <| actual_length := actual_length p + bytes |>,
        Buffer (take (Z.to_nat bytes) (drop (Z.to_nat (actual_length p)) (iov p)) ++ drop (Z.to_nat bytes) l)).
Proof.
  intros Hp Ha Hb Hfit Hlen. unfold usb_packet_copy.
  rewrite !c_assert_true, !ok_bind by (rewrite ?Z.geb_leb; by apply Z.leb_le).
  rewrite Hp. cbn [Z.eqb Pos.eqb orb]. rewrite slice_ok, ok_bind by lia.
  assert (length (take (Z.to_nat bytes) (drop (Z.to_nat (actual_length p)) (iov p))) = Z.to_nat bytes) as Hs
    by (rewrite length_take, length_drop; lia).
  rewrite blit_ok, !ok_bind by (rewrite ?Hs; lia). rewrite Hs. done.
Qed.

(** A copy past the end of the device's buffer. *)
Lemma overlong_copy p l m : pid p = USB_TOKEN_OUT -> 0 <= actual_length p -> actual_length p + m <= zlen (iov p) ->
  zlen l < m -> usb_packet_copy p (Buffer l) m = Undef.
Proof.
  intros Hp Ha Hfit Hm. unfold usb_packet_copy.
  rewrite !c_assert_true, !ok_bind by (rewrite ?Z.geb_leb; apply Z.leb_le; lia).
  rewrite Hp. cbn [Z.eqb Pos.eqb orb]. rewrite slice_ok, ok_bind by lia. unfold blit.
  rewrite length_take, length_drop. zcases. done.
Qed.

(** A copy over constant data. *)
Lemma constant_copy p l m : pid p = USB_TOKEN_OUT -> 0 <= actual_length p -> 0 < m -> actual_length p + m <= zlen (iov p) ->
  usb_packet_copy p (Constant l) m = Undef.
Proof.
  intros Hp Ha Hm Hfit. unfold usb_packet_copy.
  rewrite !c_assert_true, !ok_bind by (rewrite ?Z.geb_leb; apply Z.leb_le; lia).
  rewrite Hp. cbn [Z.eqb Pos.eqb orb]. rewrite slice_ok, ok_bind by lia.
  destruct (Z.eqb_spec m 0); [lia | done].
Qed.
