(* ===== verification/Xblc.v ===== *)
(** * The Xbox Live Communicator (hw/xbox/xblc.c)

    The headset: two byte FIFOs between the USB endpoints and the voices of the
    host's audio backend, a client of the FIFO's specification ([Fifo8]) and of the
    USB packet copy ([UsbPacket]). The backend is the interface [AudioBackend].

    The theorems show that a microphone packet carries the oldest bytes of its FIFO
    followed by silence, that the speaker's bytes reach the backend in the order
    in which the guest sent them, which speaker packets the code can take at all,
    and that all loops end. *)

From stdpp Require Import base numbers list.
From Stdlib Require Import ZArith Lia.
From S2P Require Import Prelude Fifo8 UsbPacket.

Abbreviation XBLC_EP_OUT := 0x04.
Abbreviation XBLC_EP_IN := 0x05.
Abbreviation XBLC_SET_SAMPLE_RATE := 0x00.
Abbreviation XBLC_SET_AGC := 0x01.
Abbreviation XBLC_MAX_PACKET := 48.
Abbreviation XBLC_FIFO_SIZE := 4800.
Abbreviation VendorInterfaceOutRequest := 0x4100.
Abbreviation USB_REQ_SET_FEATURE := 0x03.

Definition silence : list Z := replicate 256 0.

Definition xblc_sample_rates : list Z := [8000; 11025; 16000; 22050; 24000].

(** [AUD_write] takes some of the bytes offered and returns how many; [AUD_read]
    gives at most the number of bytes asked for. *)
Class AudioBackend (B : Type) := {
  AUD_write : B -> list Z -> B * Z;
  AUD_read : B -> Z -> B * list Z
}.

Class AudioBackendLaws (B : Type) `{AudioBackend B} := {
  aud_write_bound b l : 0 <= (AUD_write b l).2 <= zlen l;
  aud_read_bound b n : 0 <= n -> zlen (AUD_read b n).2 <= n
}.

(** [stream] is the rate at which both voices are open and active. *)
Record USBXBLCState (B : Type) := mkXBLC {
  auto_gain_control : Z;
  sample_rate : Z;
  stream : option Z;
  backend : B;
  out_packet : list Z;
  out_fifo : Fifo8;
  in_packet : list Z;
  in_fifo : Fifo8
}.
Arguments mkXBLC {B}.
Arguments auto_gain_control {B}.
Arguments sample_rate {B}.
Arguments stream {B}.
Arguments backend {B}.
Arguments out_packet {B}.
Arguments out_fifo {B}.
Arguments in_packet {B}.
Arguments in_fifo {B}.

#[export] Instance eta_USBXBLCState {B} : Eta (USBXBLCState B) := fun s =>
  mkXBLC (auto_gain_control s) (sample_rate s) (stream s) (backend s) (out_packet s) (out_fifo s)
    (in_packet s) (in_fifo s).

Section xblc.
Context {B : Type} `{AudioBackend B}.
Implicit Types s : USBXBLCState B.

Definition usb_xblc_handle_reset s : USBXBLCState B :=
  s <| in_fifo := fifo8_reset (in_fifo s) |> <| out_fifo := fifo8_reset (out_fifo s) |>.

(** The [do] loop on silence: each further round follows a round that took at
    least [XBLC_MAX_PACKET] bytes off [avail]. *)
Fixpoint silence_loop (fuel : nat) (b : B) (avail : Z) : outcome B :=
  let '(b, processed) := AUD_write b silence in
  let avail := avail - processed in
  if (avail >? 0) && (processed >=? XBLC_MAX_PACKET) then
    match fuel with
    | O => NoFuel
    | S fuel => silence_loop fuel b avail
    end
  else Ok b.

(** The loop on the FIFO, which each round shortens. *)
Fixpoint speaker_loop (fuel : nat) (f : Fifo8) (b : B) (avail : Z) : outcome (Fifo8 * B) :=
  if negb ((avail >? 0) && negb (fifo8_is_empty f)) then Ok (f, b) else
  match fuel with
  | O => NoFuel
  | S fuel =>
      let max_len := Z.min (fifo8_num_used f) avail in
      '(data, max_len, f) ← fifo8_pop_bufptr f max_len;
      chunk ← slice (fifo_data f) data max_len;
      let '(b, processed) := AUD_write b chunk in
      let avail := avail - processed in
      if processed <? max_len then Ok (f, b) else speaker_loop fuel f b avail
  end.

Definition output_callback s (avail : Z) : outcome (USBXBLCState B) :=
  if fifo8_num_used (out_fifo s) <? XBLC_MAX_PACKET then
    b ← silence_loop (S (Z.to_nat avail)) (backend s) avail;
    Ok (s <| backend := b |>)
  else
    '(f, b) ← speaker_loop (Z.to_nat (fifo8_num_used (out_fifo s))) (out_fifo s) (backend s) avail;
    Ok (s <| out_fifo := f |> <| backend := b |>).

(** The first loop of [input_callback]; the flag says that it left the function. *)
Fixpoint microphone_loop (fuel : nat) s (avail : Z) : outcome (USBXBLCState B * Z * bool) :=
  if negb ((avail >? 0) && negb (fifo8_is_full (in_fifo s))) then Ok (s, avail, false) else
  match fuel with
  | O => NoFuel
  | S fuel =>
      let max_len := Z.min XBLC_MAX_PACKET (fifo8_num_free (in_fifo s)) in
      let '(b, data) := AUD_read (backend s) max_len in
      let processed := zlen data in
      packet ← blit (in_packet s) 0 data;
      let avail := avail - processed in
      f ← fifo8_push_all (in_fifo s) packet processed;
      let s := s <| backend := b |> <| in_packet := packet |> <| in_fifo := f |> in
      if processed <? max_len then Ok (s, avail, true) else microphone_loop fuel s avail
  end.

(** The second loop, which throws away what the backend still holds. *)
Fixpoint flush_loop (fuel : nat) s (avail : Z) : outcome (USBXBLCState B) :=
  if negb (avail >? 0) then Ok s else
  match fuel with
  | O => NoFuel
  | S fuel =>
      let '(b, data) := AUD_read (backend s) XBLC_MAX_PACKET in
      let processed := zlen data in
      packet ← blit (in_packet s) 0 data;
      let s := s <| backend := b |> <| in_packet := packet |> in
      let avail := avail - processed in
      if processed =? 0 then Ok s else flush_loop fuel s avail
  end.

Definition input_callback s (avail : Z) : outcome (USBXBLCState B) :=
  '(s, avail, left_) ← microphone_loop (Z.to_nat (fifo8_num_free (in_fifo s))) s avail;
  if left_ : bool then Ok s else flush_loop (Z.to_nat avail) s avail.

Definition xblc_audio_stream_init s (rate : Z) : USBXBLCState B :=
  s <| in_fifo := fifo8_reset (in_fifo s) |> <| out_fifo := fifo8_reset (out_fifo s) |>
    <| stream := Some rate |>.

(** [handled] says that the generic descriptor code took the request. *)
Definition usb_xblc_handle_control s (handled : bool) (request value index : Z) : outcome (USBXBLCState B) :=
  if handled then Ok s else
  if request =? VendorInterfaceOutRequest .| USB_REQ_SET_FEATURE then
    if index =? XBLC_SET_SAMPLE_RATE then
      let rate := value .& 0xFF in
      c_assert (rate <? zlen xblc_sample_rates);;
      r ← rd xblc_sample_rates rate;
      let s := s <| sample_rate := r |> in
      Ok (xblc_audio_stream_init s (sample_rate s))
    else if index =? XBLC_SET_AGC then
      Ok (s <| auto_gain_control := if negb (value =? 0) then 1 else 0 |>)
    else AssertFail
  else AssertFail.

(** The FIFO may give its bytes in several pieces. *)
Fixpoint mic_copy_loop (fuel : nat) (f : Fifo8) (p : USBPacket) (to_process : Z) : outcome (Fifo8 * USBPacket) :=
  if to_process =? 0 then Ok (f, p) else
  match fuel with
  | O => NoFuel
  | S fuel =>
      '(packet, chunk_len, f) ← fifo8_pop_bufptr f to_process;
      src ← slice (fifo_data f) packet chunk_len;
      '(p, _) ← usb_packet_copy p (Buffer src) chunk_len;
      mic_copy_loop fuel f p (u32 (to_process - chunk_len))
  end.

Definition usb_xblc_handle_data s (p : USBPacket) : outcome (USBXBLCState B * USBPacket) :=
  '(s, p) ←
    (if pid p =? USB_TOKEN_IN then
       c_assert (ep_nr p =? XBLC_EP_IN);;
       let to_process := Z.min (fifo8_num_used (in_fifo s)) (zlen (iov p)) in
       '(f, p) ← mic_copy_loop (Z.to_nat to_process) (in_fifo s) p to_process;
       Ok (s <| in_fifo := f |>, p)
     else if pid p =? USB_TOKEN_OUT then
       c_assert (ep_nr p =? XBLC_EP_OUT);;
       let to_process := Z.min (fifo8_num_free (out_fifo s)) (zlen (iov p)) in
       '(p, t) ← usb_packet_copy p (Buffer (out_packet s)) to_process;
       match t with
       | Buffer packet =>
           f ← fifo8_push_all (out_fifo s) packet to_process;
           Ok (s <| out_packet := packet |> <| out_fifo := f |>, p)
       | Constant _ => Undef
       end
     else AssertFail);
  if actual_length p <? zlen (iov p) then
    '(p, _) ← usb_packet_copy p (Constant silence) (zlen (iov p) - actual_length p);
    Ok (s, p)
  else Ok (s, p).

(** [mem_in] and [mem_out] are what the allocations of the two FIFOs hold. *)
Definition usb_xbox_communicator_realize s (backend_ok : bool) (mem_in mem_out : list Z) : USBXBLCState B :=
  if negb backend_ok then s else
  s <| in_fifo := fifo8_create mem_in XBLC_FIFO_SIZE |> <| out_fifo := fifo8_create mem_out XBLC_FIFO_SIZE |>.

End xblc.

(** ** Taking pieces off a FIFO *)

Lemma pop_piece f max : fifo_ok f -> 0 < max <= fifo_num f ->
  exists at_ n, fifo8_pop_bufptr f max = Ok (at_, n, advance f n) /\ 0 < n <= max /\
    slice (fifo_data (advance f n)) at_ n = Ok (take (Z.to_nat n) (contents f)).
Proof.
  intros Hf Hm. destruct (bufptr_spec f max 0 true Hf) as (E & Hn & Hs); [lia .. | done |].
  eexists _, _. split; [exact E |]. split; [lia |]. rewrite drop_0 in Hs. exact Hs.
Qed.

Lemma advance_zero f : fifo_ok f -> contents (advance f 0) = contents f.
Proof. intros Hf. destruct (fifo_ok_num f Hf). rewrite contents_advance by (done || lia). by rewrite drop_0. Qed.

Lemma take_split (l : list Z) (n m : Z) : 0 <= n -> 0 <= m ->
  take (Z.to_nat (n + m)) l = take (Z.to_nat n) l ++ take (Z.to_nat m) (drop (Z.to_nat n) l).
Proof. intros. by rewrite Z2Nat.inj_add, take_take_drop by lia. Qed.

Lemma drop_split (l : list Z) (n m : Z) : 0 <= n -> 0 <= m ->
  drop (Z.to_nat (n + m)) l = drop (Z.to_nat m) (drop (Z.to_nat n) l).
Proof. intros. by rewrite drop_drop, Z2Nat.inj_add by lia. Qed.

Section proofs.
Context {B : Type} `{AudioBackendLaws B}.
Implicit Types s : USBXBLCState B.

(** The backend after a sequence of writes, and whether it took all of each. *)
Fixpoint writes (b : B) (chunks : list (list Z)) : B :=
  match chunks with [] => b | c :: cs => writes (AUD_write b c).1 cs end.

Fixpoint all_taken (b : B) (chunks : list (list Z)) : Prop :=
  match chunks with
  | [] => True
  | c :: cs => (AUD_write b c).2 = zlen c /\ all_taken (AUD_write b c).1 cs
  end.

(** What one call of the speaker callback does to the FIFO and the backend: [k]
    bytes leave the FIFO, in order, in [chunks]. *)
Definition plays (f : Fifo8) (b : B) (avail : Z) (f' : Fifo8) (b' : B) (k : Z) (chunks : list (list Z)) : Prop :=
  fifo_ok f' /\ 0 <= k <= Z.min (Z.max 0 avail) (fifo_num f) /\ contents f' = drop (Z.to_nat k) (contents f) /\
  concat chunks = take (Z.to_nat k) (contents f) /\ b' = writes b chunks /\
  (all_taken b chunks -> k = Z.min (Z.max 0 avail) (fifo_num f)).

Lemma speaker_loop_plays fuel : forall f b avail, fifo_ok f -> fifo_num f <= Z.of_nat fuel ->
  exists f' b' k chunks, speaker_loop fuel f b avail = Ok (f', b') /\ plays f b avail f' b' k chunks.
Proof.
  induction fuel as [| fuel IH]; intros f b avail Hf Hfuel; pose proof (fifo_ok_num f Hf) as Hn;
    cbn [speaker_loop]; unfold fifo8_is_empty, fifo8_num_used;
    (destruct (Z.gtb_spec avail 0), (Z.eqb_spec (fifo_num f) 0) as [Hz | Hz]; cbn [andb negb];
     try (exists f, b, 0, []; split; [done |]; split; [done |]; rewrite drop_0; repeat split; lia)); try lia.
  destruct (pop_piece f (Z.min (fifo_num f) avail) Hf) as (at_ & n & E & Hn' & Hs); [lia |].
  rewrite E, ok_bind. cbv beta iota. rewrite Hs, ok_bind. set (c := take (Z.to_nat n) (contents f)).
  assert (Hc : zlen c = n) by (pose proof (length_contents f Hf); subst c; rewrite length_take; lia).
  pose proof (aud_write_bound b c) as Hb. destruct (AUD_write b c) as [b1 processed] eqn:Ew. cbn [snd] in Hb.
  assert (fifo_ok (advance f n)) as Hf1 by (apply advance_ok; [done | lia]).
  destruct (Z.ltb_spec processed n).
  - exists (advance f n), b1, n, [c]. split; [done |]. split; [done |]. split; [lia |].
    split; [by apply contents_advance; [| lia] |]. cbn [concat writes all_taken]. rewrite app_nil_r, Ew.
    split; [done |]. split; [done |]. cbn. intros [? _]. lia.
  - destruct (IH (advance f n) b1 (avail - processed) Hf1) as (f' & b' & k & cs & E' & Hf' & Hk & Hcon & Hcat & Hb' & Hall);
      [rewrite advance_num; lia |]. rewrite advance_num in Hk, Hall.
    rewrite contents_advance in Hcon, Hcat by (done || lia).
    exists f', b', (n + k), (c :: cs). split; [done |]. split; [done |]. split; [lia |].
    rewrite take_split, drop_split by lia. split; [done |]. cbn [concat writes all_taken]. rewrite Ew. cbn [fst snd].
    split; [by rewrite Hcat |]. split; [done |]. intros [_ Ha]. specialize (Hall Ha). lia.
Qed.

Lemma silence_loop_returns fuel : forall b avail, avail <= Z.of_nat fuel ->
  is_ok (silence_loop fuel b avail).
Proof.
  induction fuel as [| fuel IH]; intros b avail Hf; cbn [silence_loop];
    pose proof (aud_write_bound b silence) as Hb; destruct (AUD_write b silence) as [b1 processed]; cbn [snd] in Hb;
    destruct (Z.gtb_spec (avail - processed) 0), (Z.geb_spec processed XBLC_MAX_PACKET); cbn [andb];
    try (by eexists); try lia.
  apply IH. lia.
Qed.

(** A piece of the FIFO into the packet, at its position. *)
Lemma mic_copy_loop_spec fuel : forall f p n l, fifo_ok f -> 0 <= n <= fifo_num f -> n <= Z.of_nat fuel ->
  pid p = USB_TOKEN_IN -> 0 <= actual_length p -> actual_length p + n <= zlen (iov p) ->
  take (Z.to_nat (actual_length p)) (iov p) = l ->
  exists f' p', mic_copy_loop fuel f p n = Ok (f', p') /\ fifo_ok f' /\
    contents f' = drop (Z.to_nat n) (contents f) /\ pid p' = USB_TOKEN_IN /\ ep_nr p' = ep_nr p /\
    status p' = status p /\ actual_length p' = actual_length p + n /\ length (iov p') = length (iov p) /\
    take (Z.to_nat (actual_length p')) (iov p') = l ++ take (Z.to_nat n) (contents f).
Proof.
  induction fuel as [| fuel IH]; intros f p n l Hf Hn Hfuel Hp Ha Hfit Hl; cbn [mic_copy_loop];
    (destruct (Z.eqb_spec n 0) as [-> |];
      [exists f, p; rewrite Z.add_0_r; change (Z.to_nat 0) with 0%nat; rewrite drop_0, app_nil_r; done |]); [lia |].
  destruct (pop_piece f n Hf) as (at_ & m & E & Hm & Hs); [lia |].
  rewrite E, ok_bind. cbv beta iota. rewrite Hs, ok_bind. set (c := take (Z.to_nat m) (contents f)) in *.
  assert (Hc : zlen c = m) by (pose proof (length_contents f Hf); subst c; rewrite length_take; lia).
  destruct (usb_packet_copy_in p (Buffer c) m c) as (v & Ep & Ev); try done; [lia .. |].
  rewrite Ep, ok_bind. cbv beta iota. rewrite (Z.mod_small (n - m)) by (destruct (fifo_ok_capacity f Hf), (fifo_ok_num f Hf); lia).
  rewrite take_ge in Ev by lia. pose proof (blit_length _ _ _ _ Ev) as Lv.
  set (p1 := p <| iov := v |> <| actual_length := _ |>).
  destruct (IH (advance f m) p1 (n - m) (l ++ c)) as (f' & p' & E' & Hf' & Hcon & Hp' & He & Hst & Hal & Hlen & Htk).
  - apply advance_ok; [done | lia].
  - rewrite advance_num. lia.
  - lia.
  - done.
  - cbn. lia.
  - cbn. lia.
  - cbn. rewrite <- Hc, (take_blit _ _ _ _ Ev). by rewrite Hl.
  - exists f', p'. split; [done |]. split; [done |].
    rewrite contents_advance in Hcon, Htk by (done || lia).
    replace n with (m + (n - m)) by lia. rewrite drop_split, take_split by lia. fold c.
    split; [by replace (m + (n - m) - m) with (n - m) by lia |].
    split; [done |]. split; [done |]. split; [done |]. split; [rewrite Hal; cbn; lia |].
    split; [rewrite Hlen; cbn; lia |]. by rewrite Htk, <- app_assoc.
Qed.

(** The buffers have their declared sizes and the FIFOs are well formed. *)
Record xblc_ok s : Prop := {
  ok_out : fifo_ok (out_fifo s);
  ok_in : fifo_ok (in_fifo s);
  ok_out_packet : zlen (out_packet s) = XBLC_MAX_PACKET;
  ok_in_packet : zlen (in_packet s) = XBLC_MAX_PACKET
}.

Lemma take_all_of (l l' : list Z) n : take n l = l' -> n = length l -> l = l'.
Proof. intros <- ->. by rewrite take_ge. Qed.

(** A microphone packet of [n] bytes carries the oldest bytes of the FIFO, in
    order and across the end of its array, which leave the FIFO, and is filled
    up with silence; this holds up to 256 missing bytes, the size of the code's
    block of silence. *)
Theorem xblc_microphone_packet s p : xblc_ok s -> pid p = USB_TOKEN_IN -> ep_nr p = XBLC_EP_IN ->
  actual_length p = 0 -> let n := zlen (iov p) in n <= fifo_num (in_fifo s) + 256 ->
  exists s' p', usb_xblc_handle_data s p = Ok (s', p') /\ xblc_ok s' /\
    iov p' = take (length (iov p)) (contents (in_fifo s)) ++
             replicate (Z.to_nat (n - fifo_num (in_fifo s))) 0 /\
    actual_length p' = n /\
    contents (in_fifo s') = drop (length (iov p)) (contents (in_fifo s)) /\ out_fifo s' = out_fifo s.
Proof.
  intros [Ho Hi Hop Hip] Hp He Ha n Hn. pose proof (length_contents _ Hi) as Hlc.
  pose proof (fifo_ok_num _ Hi) as Hnum. unfold usb_xblc_handle_data. rewrite Hp, He.
  cbn [Z.eqb Pos.eqb c_assert]. rewrite ok_bind. cbv zeta. unfold fifo8_num_used. fold n.
  set (m := Z.min (fifo_num (in_fifo s)) n).
  destruct (mic_copy_loop_spec (Z.to_nat m) (in_fifo s) p m []) as (f' & p1 & E & Hf' & Hcon & Hp1 & He1 & _ & Ha1 & Hl1 & Ht1);
    [done | lia | lia | done | lia | lia | by rewrite Ha |].
  rewrite E, !ok_bind. cbv beta iota. rewrite Ha, Z.add_0_l in Ha1. rewrite Ha1 in *. cbn [app] in Ht1.
  replace (zlen (iov p1)) with n by lia.
  set (s1 := s <| in_fifo := f' |>). assert (xblc_ok s1) as Hok by (by constructor).
  assert (drop (Z.to_nat m) (contents (in_fifo s)) = drop (length (iov p)) (contents (in_fifo s))) as Hd.
  { destruct (Z.le_gt_cases (fifo_num (in_fifo s)) n); [rewrite !drop_ge by lia; done | f_equal; lia]. }
  assert (take (Z.to_nat m) (contents (in_fifo s)) = take (length (iov p)) (contents (in_fifo s))) as Htk.
  { destruct (Z.le_gt_cases (fifo_num (in_fifo s)) n); [rewrite !take_ge by lia; done | f_equal; lia]. }
  destruct (Z.ltb_spec m n).
  - assert (zlen silence = 256) as Hsil by done.
    destruct (usb_packet_copy_in p1 (Constant silence) (n - m) silence) as (v & Ev & Bv); [done | lia .. | done | lia |].
    rewrite Ev, ok_bind. eexists _, _. split; [done |]. split; [done |]. cbn [iov actual_length].
    split; [| split; [cbn; lia | split; [by rewrite <- Hd | done]]].
    change (iov (p1 <| iov := v |> <| actual_length := _ |>)) with v.
    pose proof (take_blit _ _ _ _ Bv) as Tv. pose proof (blit_length _ _ _ _ Bv) as Lv.
    rewrite Ha1, Ht1, Htk in Tv. eapply take_all_of in Tv.
    + rewrite Tv. f_equal. unfold silence. rewrite take_replicate. f_equal. lia.
    + rewrite length_take. lia.
  - eexists _, _. split; [done |]. split; [done |]. split; [| split; [lia | split; [by rewrite <- Hd | done]]].
    replace (Z.to_nat (n - fifo_num (in_fifo s))) with 0%nat by lia. rewrite app_nil_r, <- Htk.
    eapply take_all_of; [exact Ht1 | lia].
Qed.

Lemma num_free f : fifo_ok f -> fifo8_num_free f = fifo_capacity f - fifo_num f.
Proof. intros [_ Hc _ Hn]. unfold fifo8_num_free. apply u32_small. lia. Qed.

(** A speaker packet that fits. *)
Lemma speaker_packet s p : xblc_ok s -> pid p = USB_TOKEN_OUT -> ep_nr p = XBLC_EP_OUT -> actual_length p = 0 ->
  zlen (iov p) <= XBLC_MAX_PACKET -> zlen (iov p) <= fifo_capacity (out_fifo s) - fifo_num (out_fifo s) ->
  exists s' p', usb_xblc_handle_data s p = Ok (s', p') /\ xblc_ok s' /\
    contents (out_fifo s') = contents (out_fifo s) ++ iov p /\
    fifo_capacity (out_fifo s') = fifo_capacity (out_fifo s) /\
    actual_length p' = zlen (iov p) /\ backend s' = backend s.
Proof.
  intros [Ho Hi Hop Hip] Hp He Ha Hmax Hfree. unfold usb_xblc_handle_data. rewrite Hp, He.
  cbn [Z.eqb Pos.eqb c_assert]. rewrite ok_bind, num_free by done. cbv zeta.
  rewrite Z.min_r by lia. rewrite usb_packet_copy_out, ok_bind by (done || lia). cbv beta iota.
  rewrite Ha, Z.add_0_l. change (Z.to_nat 0) with 0%nat. rewrite drop_0, Nat2Z.id.
  rewrite (take_ge (iov p)) by lia. set (packet := iov p ++ _).
  assert (zlen packet = XBLC_MAX_PACKET) by (subst packet; rewrite length_app, length_drop; lia).
  destruct (push_all_spec (out_fifo s) packet (zlen (iov p))) as (f' & Ef & Hf' & Hcon); [done | lia | lia |].
  rewrite Ef, !ok_bind. cbv beta iota.
  change (actual_length (p <| actual_length := ?a |>)) with a. change (iov (p <| actual_length := ?a |>)) with (iov p).
  rewrite Z.ltb_irrefl. eexists _, _. split; [done |]. split; [by constructor |].
  split; [cbn; rewrite Hcon; f_equal; subst packet; rewrite Nat2Z.id; by apply take_app_length |].
  split; [| done]. unfold fifo8_push_all in Ef. inv_ok. by subst f'.
Qed.

(** The headset can take a speaker packet exactly when the packet is no longer
    than its 48-byte buffer and the FIFO has room for all of it. A longer packet
    is copied past the end of the buffer; a packet that the FIFO has no room for
    is copied over the constant block of silence. *)
Theorem xblc_speaker_packet_iff s p : xblc_ok s -> pid p = USB_TOKEN_OUT -> ep_nr p = XBLC_EP_OUT ->
  actual_length p = 0 -> let n := zlen (iov p) in
  if (n <=? XBLC_MAX_PACKET) && (n <=? fifo8_num_free (out_fifo s)) then
    exists s' p', usb_xblc_handle_data s p = Ok (s', p') /\ xblc_ok s' /\
      contents (out_fifo s') = contents (out_fifo s) ++ iov p /\ actual_length p' = n
  else usb_xblc_handle_data s p = Undef.
Proof.
  intros Hs Hp He Ha n. pose proof Hs as [Ho Hi Hop Hip]. rewrite num_free by done.
  pose proof (fifo_ok_num _ Ho) as Hnum. pose proof (fifo_ok_capacity _ Ho) as Hcap.
  destruct (Z.leb_spec n XBLC_MAX_PACKET), (Z.leb_spec n (fifo_capacity (out_fifo s) - fifo_num (out_fifo s))); cbn [andb].
  1: { destruct (speaker_packet s p) as (s' & p' & E & Hok & Hcon & _ & Hal & _); try done.
       by exists s', p'. }
  all: unfold usb_xblc_handle_data; rewrite Hp, He; cbn [Z.eqb Pos.eqb c_assert]; rewrite ok_bind, num_free by done;
    cbv zeta; fold n; set (m := Z.min (fifo_capacity (out_fifo s) - fifo_num (out_fifo s)) n).
  1,3: assert (m = fifo_capacity (out_fifo s) - fifo_num (out_fifo s)) as Em by lia.
  3: assert (m = n) as Em by lia.
  all: destruct (Z.le_gt_cases m XBLC_MAX_PACKET); [| by rewrite overlong_copy by (done || lia)]; try lia.
  all: rewrite usb_packet_copy_out, ok_bind by (done || lia); cbv beta iota.
  all: match goal with |- context [fifo8_push_all _ ?l _] => set (packet := l) end.
  all: assert (zlen packet = XBLC_MAX_PACKET)
    by (subst packet; rewrite length_app, length_take, !length_drop; lia).
  all: destruct (push_all_spec (out_fifo s) packet m) as (f' & Ef & Hf' & Hcon); [done | lia | lia |].
  all: rewrite Ef, !ok_bind; cbv beta iota; rewrite Ha.
  all: change (actual_length (p <| actual_length := ?a |>)) with a; change (iov (p <| actual_length := ?a |>)) with (iov p).
  all: fold n; rewrite (proj2 (Z.ltb_lt (0 + m) n)) by lia.
  all: rewrite constant_copy; [done | done | cbn; lia ..].
Qed.

(** The guest sends speaker packets one after the other. *)
Fixpoint send_packets s (ps : list (list Z)) : outcome (USBXBLCState B) :=
  match ps with
  | [] => Ok s
  | bytes :: ps =>
      '(s, _) ← usb_xblc_handle_data s (mkUSBPacket USB_TOKEN_OUT XBLC_EP_OUT bytes 0 0);
      send_packets s ps
  end.

Lemma send_packets_queue ps : forall s, xblc_ok s -> Forall (fun l => zlen l <= XBLC_MAX_PACKET) ps ->
  fifo_num (out_fifo s) + zlen (concat ps) <= fifo_capacity (out_fifo s) ->
  exists s', send_packets s ps = Ok s' /\ xblc_ok s' /\ backend s' = backend s /\
    contents (out_fifo s') = contents (out_fifo s) ++ concat ps.
Proof.
  induction ps as [| l ps IH]; intros s Hs Hps Hroom; cbn [send_packets concat] in *.
  { exists s. by rewrite app_nil_r. }
  apply Forall_cons in Hps as [Hl Hps]. rewrite length_app in Hroom.
  destruct (speaker_packet s (mkUSBPacket USB_TOKEN_OUT XBLC_EP_OUT l 0 0)) as (s1 & p1 & E & Hs1 & Hc & Hcap & _ & Hb);
    [done .. | cbn; lia |]. cbn [iov] in Hc. rewrite E, ok_bind. cbv beta iota.
  destruct (IH s1 Hs1 Hps) as (s' & E' & Hs' & Hb' & Hc').
  { pose proof (length_contents _ (ok_out _ Hs)). pose proof (length_contents _ (ok_out _ Hs1)) as L1.
    rewrite Hc, length_app in L1. lia. }
  exists s'. split; [done |]. split; [done |]. split; [congruence |]. by rewrite Hc', Hc, <- app_assoc.
Qed.

(** What the guest sends to the speaker reaches the backend in that order:
    after packets that fit, a callback of the backend that asks for [avail] bytes
    and finds at least one packet's worth returns and writes a prefix of the bytes
    queued, in consecutive chunks, and as many as it can if the backend takes them
    all; exactly those bytes leave the FIFO. With less queued it writes silence and
    leaves the FIFO alone. *)
Theorem xblc_speaker_path s ps avail : xblc_ok s -> Forall (fun l => zlen l <= XBLC_MAX_PACKET) ps ->
  fifo_num (out_fifo s) + zlen (concat ps) <= fifo_capacity (out_fifo s) ->
  let queue := contents (out_fifo s) ++ concat ps in
  exists s1 s2, send_packets s ps = Ok s1 /\ output_callback s1 avail = Ok s2 /\ xblc_ok s2 /\
    if zlen queue <? XBLC_MAX_PACKET then contents (out_fifo s2) = queue
    else exists k chunks, 0 <= k <= zlen queue /\ concat chunks = take (Z.to_nat k) queue /\
      contents (out_fifo s2) = drop (Z.to_nat k) queue /\ backend s2 = writes (backend s) chunks /\
      (all_taken (backend s) chunks -> k = Z.min (Z.max 0 avail) (zlen queue)).
Proof.
  intros Hs Hps Hroom queue. destruct (send_packets_queue ps s Hs Hps Hroom) as (s1 & E1 & Hs1 & Hb1 & Hc1).
  exists s1. fold queue in Hc1. pose proof (length_contents _ (ok_out _ Hs1)) as L1. rewrite Hc1 in L1.
  unfold output_callback, fifo8_num_used. rewrite L1. pose proof Hs1 as [Ho Hi Hop Hip].
  destruct (Z.ltb_spec (fifo_num (out_fifo s1)) XBLC_MAX_PACKET).
  - destruct (silence_loop_returns (S (Z.to_nat avail)) (backend s1) avail) as [b' Eb]; [lia |].
    rewrite Eb, ok_bind. eexists. split; [done |]. split; [done |]. by split; [constructor |].
  - destruct (speaker_loop_plays (Z.to_nat (fifo_num (out_fifo s1))) (out_fifo s1) (backend s1) avail Ho)
      as (f' & b' & k & cs & E & Hf' & Hk & Hcon & Hcat & Hb' & Hall); [pose proof (fifo_ok_num _ Ho); lia |].
    rewrite E, ok_bind. eexists. split; [done |]. split; [done |]. split; [by constructor |].
    exists k, cs. rewrite Hc1 in Hcon, Hcat. rewrite Hb1 in *. split; [lia |]. by repeat (split; [done |]).
Qed.

(** ** The microphone *)

(** The bytes of a sequence of reads, and the backend after them. *)
Inductive reads : B -> list (list Z) -> B -> Prop :=
| reads_nil b : reads b [] b
| reads_cons b n cs b' : reads (AUD_read b n).1 cs b' -> reads b ((AUD_read b n).2 :: cs) b'.

(** The flush empties the backend and leaves the FIFO. *)
Lemma flush_loop_returns fuel : forall s avail, xblc_ok s -> avail <= Z.of_nat fuel ->
  exists s' cs, flush_loop fuel s avail = Ok s' /\ xblc_ok s' /\ in_fifo s' = in_fifo s /\
    reads (backend s) cs (backend s').
Proof.
  induction fuel as [| fuel IH]; intros s avail Hs Hf; cbn [flush_loop];
    (destruct (Z.gtb_spec avail 0); cbn [negb]; [| exists s, []; by repeat (split; [done |]); constructor]); [lia |].
  pose proof (reads_cons (backend s) XBLC_MAX_PACKET) as Hr.
  pose proof (aud_read_bound (backend s) XBLC_MAX_PACKET) as Hd.
  destruct (AUD_read (backend s) XBLC_MAX_PACKET) as [b data]. cbn [fst snd] in *.
  destruct Hs as [Ho Hi Hop Hip].
  destruct (blit (in_packet s) 0 data) as [pk | | |] eqn:E; try (rewrite blit_ok in E by lia; done).
  rewrite ok_bind. pose proof (blit_length _ _ _ _ E).
  set (s1 := s <| backend := b |> <| in_packet := pk |>).
  assert (xblc_ok s1) as Hs1 by (constructor; (done || cbn; lia)).
  destruct (Z.eqb_spec (zlen data) 0).
  - exists s1, [data]. split; [done |]. split; [done |]. split; [done |]. apply Hr. constructor.
  - destruct (IH s1 (avail - zlen data) Hs1) as (s' & cs & E' & Hs' & Hf' & Hr'); [lia |].
    exists s', (data :: cs). split; [done |]. split; [done |]. split; [done |]. by apply Hr.
Qed.

Lemma microphone_loop_reads fuel : forall s avail, xblc_ok s ->
  fifo_capacity (in_fifo s) - fifo_num (in_fifo s) <= Z.of_nat fuel ->
  exists s' avail' left_ cs, microphone_loop fuel s avail = Ok (s', avail', left_) /\ xblc_ok s' /\
    reads (backend s) cs (backend s') /\
    contents (in_fifo s') = contents (in_fifo s) ++ concat cs /\
    (left_ = false -> avail' <= 0 \/ fifo_num (in_fifo s') = fifo_capacity (in_fifo s')).
Proof.
  induction fuel as [| fuel IH]; intros s avail Hs Hf; pose proof Hs as [Ho Hi Hop Hip];
    pose proof (fifo_ok_num _ Hi) as Hnum; cbn [microphone_loop]; unfold fifo8_is_full;
    (destruct (Z.gtb_spec avail 0), (Z.eqb_spec (fifo_num (in_fifo s)) (fifo_capacity (in_fifo s))); cbn [andb negb];
     try (exists s, avail, false, []; split; [done |]; split; [done |]; split; [constructor |];
          split; [by rewrite app_nil_r | intros; lia])); [lia |].
  rewrite num_free by done. set (m := Z.min _ _).
  assert (0 < m <= XBLC_MAX_PACKET /\ m <= fifo_capacity (in_fifo s) - fifo_num (in_fifo s)) as [Hm1 Hm2] by lia.
  clearbody m. pose proof (reads_cons (backend s) m) as Hr. pose proof (aud_read_bound (backend s) m) as Hd.
  destruct (AUD_read (backend s) m) as [b data]. cbn [fst snd] in *.
  destruct (blit (in_packet s) 0 data) as [pk | | |] eqn:E; try (rewrite blit_ok in E by lia; done).
  rewrite ok_bind. pose proof (blit_length _ _ _ _ E). pose proof (take_blit _ _ _ _ E) as Tb.
  destruct (push_all_spec (in_fifo s) pk (zlen data)) as (f' & Ef & Hf' & Hcon); [done | lia | lia |].
  rewrite Ef, ok_bind. rewrite Z.add_0_l in Tb. change (Z.to_nat 0) with 0%nat in Tb.
  rewrite take_0 in Tb. cbn [app] in Tb. rewrite Tb in Hcon.
  set (s1 := s <| backend := b |> <| in_packet := pk |> <| in_fifo := f' |>).
  assert (xblc_ok s1) as Hs1 by (constructor; (done || cbn; lia)).
  assert (fifo_capacity f' = fifo_capacity (in_fifo s)) as Hcap
    by (unfold fifo8_push_all in Ef; inv_ok; by subst f').
  assert (fifo_num f' = fifo_num (in_fifo s) + zlen data) as Hn'.
  { pose proof (length_contents _ Hf') as L. rewrite Hcon, length_app in L.
    pose proof (length_contents _ Hi). lia. }
  destruct (Z.ltb_spec (zlen data) m).
  - exists s1, (avail - zlen data), true, [data]. split; [done |]. split; [done |].
    split; [apply Hr; constructor |]. split; [cbn; by rewrite app_nil_r | done].
  - destruct (IH s1 (avail - zlen data) Hs1) as (s' & av & lf & cs & E' & Hs' & Hr' & Hc' & Hl').
    { change (in_fifo s1) with f'. rewrite Hcap, Hn'. lia. }
    exists s', av, lf, (data :: cs). split; [done |]. split; [done |]. split; [by apply Hr |].
    split; [| done]. rewrite Hc'. change (in_fifo s1) with f'. by rewrite Hcon, <- app_assoc.
Qed.

(** The microphone callback returns, appends what it read to the FIFO in order, and
    throws data away only when it was not asked for or the FIFO is full. *)
Lemma input_callback_reads s avail : xblc_ok s ->
  exists s' kept lost, input_callback s avail = Ok s' /\ xblc_ok s' /\
    reads (backend s) (kept ++ lost) (backend s') /\
    contents (in_fifo s') = contents (in_fifo s) ++ concat kept /\
    (lost <> [] -> fifo_num (in_fifo s') = fifo_capacity (in_fifo s')).
Proof.
  intros Hs. unfold input_callback. pose proof Hs as [Ho Hi Hop Hip]. rewrite num_free by done.
  destruct (microphone_loop_reads (Z.to_nat (fifo_capacity (in_fifo s) - fifo_num (in_fifo s))) s avail Hs)
    as (s1 & av & lf & cs & E & Hs1 & Hr & Hc & Hl); [pose proof (fifo_ok_num _ Hi); lia |].
  rewrite E, ok_bind. cbv beta iota. destruct lf.
  - exists s1, cs, []. rewrite app_nil_r. by repeat (split; [done |]).
  - destruct (Z.le_gt_cases av 0) as [Hav | Hav].
    + exists s1, cs, []. rewrite app_nil_r. split; [| by repeat (split; [done |])].
      destruct (Z.to_nat av) eqn:En; cbn [flush_loop]; destruct (Z.gtb_spec av 0); (done || lia).
    + destruct (flush_loop_returns (Z.to_nat av) s1 av Hs1) as (s2 & ls & E2 & Hs2 & Hf2 & Hr2); [lia |].
      exists s2, cs, ls. split; [done |]. split; [done |]. split.
      * clear -Hr Hr2. induction Hr; [done |]. cbn. constructor. auto.
      * rewrite Hf2. split; [done |]. intros _. destruct (Hl eq_refl); [lia | done].
Qed.
End proofs.

(** ** A backend that takes everything *)

(** It records what it is given and reads from a list. *)
#[export] Instance log_backend : AudioBackend (list Z * list Z) := {
  AUD_write b l := ((b.1 ++ l, b.2), zlen l);
  AUD_read b n := ((b.1, drop (Z.to_nat n) b.2), take (Z.to_nat n) b.2)
}.

#[export] Instance log_backend_laws : AudioBackendLaws (list Z * list Z).
Proof. constructor; cbn; intros; [lia |]. rewrite length_take. lia. Qed.

(** Small FIFOs whose contents run around the end of the array. *)
Definition sample_xblc : USBXBLCState (list Z * list Z) :=
  mkXBLC 0 8000 (Some 8000) ([], []) (replicate 48 0) (mkFifo8 (seqZ 0 64) 64 40 48) (replicate 48 0)
    (mkFifo8 [10; 11; 12; 13] 4 3 2).

Lemma sample_xblc_ok : xblc_ok sample_xblc.
Proof. constructor; [split; by vm_compute .. | done | done]. Qed.

Lemma xblc_microphone_packet_witness : exists s' p',
  usb_xblc_handle_data sample_xblc (mkUSBPacket USB_TOKEN_IN XBLC_EP_IN (replicate 5 0xff) 0 0) = Ok (s', p') /\
  iov p' = [13; 10; 0; 0; 0].
Proof.
  destruct (xblc_microphone_packet sample_xblc (mkUSBPacket USB_TOKEN_IN XBLC_EP_IN (replicate 5 0xff) 0 0) sample_xblc_ok)
    as (s' & p' & E & _ & Ep & _); [done | done | done | cbn; lia |].
  exists s', p'. split; [exact E | exact Ep].
Defined.

Lemma xblc_speaker_packet_iff_witness :
  usb_xblc_handle_data sample_xblc (mkUSBPacket USB_TOKEN_OUT XBLC_EP_OUT (replicate 20 1) 0 0) = Undef /\
  exists s' p', usb_xblc_handle_data sample_xblc (mkUSBPacket USB_TOKEN_OUT XBLC_EP_OUT [7; 8] 0 0) = Ok (s', p') /\
    contents (out_fifo s') = contents (out_fifo sample_xblc) ++ [7; 8].
Proof.
  split.
  - exact (xblc_speaker_packet_iff sample_xblc (mkUSBPacket USB_TOKEN_OUT XBLC_EP_OUT (replicate 20 1) 0 0)
      sample_xblc_ok eq_refl eq_refl eq_refl).
  - destruct (xblc_speaker_packet_iff sample_xblc (mkUSBPacket USB_TOKEN_OUT XBLC_EP_OUT [7; 8] 0 0)
      sample_xblc_ok eq_refl eq_refl eq_refl) as (s' & p' & E & _ & Hc & _).
    exists s', p'. split; [exact E | exact Hc].
Defined.

Lemma xblc_speaker_path_witness : exists s1 s2,
  send_packets sample_xblc [[1; 2]; [3]] = Ok s1 /\ output_callback s1 50 = Ok s2 /\
  exists k chunks, concat chunks = take (Z.to_nat k) (contents (out_fifo sample_xblc) ++ [1; 2; 3]) /\
    backend s2 = writes ([], []) chunks.
Proof.
  destruct (xblc_speaker_path sample_xblc [[1; 2]; [3]] 50 sample_xblc_ok) as (s1 & s2 & E1 & E2 & _ & HT);
    [repeat constructor; cbn; lia | cbn; lia |].
  exists s1, s2. split; [exact E1 |]. split; [exact E2 |].
  destruct HT as (k & cs & _ & Hcat & _ & Hb & _). exists k, cs. split; [exact Hcat | exact Hb].
Defined.

(** A backend that takes at most 8 bytes at a time. *)
Definition slow_backend : AudioBackend (list Z) := {|
  AUD_write b l := (b ++ take 8 l, Z.min 8 (zlen l));
  AUD_read b n := (b, [])
|}.

(** The callback takes a whole piece off the FIFO before it offers it: what the
    backend does not take is lost. *)
Example short_write_loses_bytes :
  match speaker_loop (H := slow_backend) 48 (mkFifo8 (seqZ 0 64) 64 0 48) [] 48 with
  | Ok (f, played) => played = seqZ 0 8 /\ contents f = []
  | _ => False
  end.
Proof. by vm_compute. Qed.
