(* ===== verification/Xid.v ===== *)
(** * The gamepad (hw/xbox/xid.c, hw/xbox/xid-gamepad.c)

    Reports between the emulated controller and the host's input: the state of
    the host's controller to the 20-byte input report, the 6-byte output report
    to the rumble motors, and the control requests. The host's controller is an
    argument: its last state after a poll, or none if nothing is bound.

    The theorems show that an input report says what the host's controller does,
    that an output report reaches the motors, and that the length byte which the
    guest can write decides the size of the next copy. *)

From stdpp Require Import base numbers list.
From Stdlib Require Import ZArith Lia.
From S2P Require Import Prelude UsbPacket.

(** ** Constants (xid.h, ui/xemu-input.h, hw/usb.h) *)

Abbreviation GAMEPAD_A := 0.
Abbreviation GAMEPAD_B := 1.
Abbreviation GAMEPAD_X := 2.
Abbreviation GAMEPAD_Y := 3.
Abbreviation GAMEPAD_BLACK := 4.
Abbreviation GAMEPAD_WHITE := 5.
Abbreviation GAMEPAD_LEFT_TRIGGER := 6.
Abbreviation GAMEPAD_RIGHT_TRIGGER := 7.
Abbreviation GAMEPAD_DPAD_UP := 8.
Abbreviation GAMEPAD_DPAD_DOWN := 9.
Abbreviation GAMEPAD_DPAD_LEFT := 10.
Abbreviation GAMEPAD_DPAD_RIGHT := 11.
Abbreviation GAMEPAD_START := 12.
Abbreviation GAMEPAD_BACK := 13.
Abbreviation GAMEPAD_LEFT_THUMB := 14.
Abbreviation GAMEPAD_RIGHT_THUMB := 15.

Abbreviation CONTROLLER_BUTTON_A := 0x0001.
Abbreviation CONTROLLER_BUTTON_B := 0x0002.
Abbreviation CONTROLLER_BUTTON_X := 0x0004.
Abbreviation CONTROLLER_BUTTON_Y := 0x0008.
Abbreviation CONTROLLER_BUTTON_DPAD_LEFT := 0x0010.
Abbreviation CONTROLLER_BUTTON_DPAD_UP := 0x0020.
Abbreviation CONTROLLER_BUTTON_DPAD_RIGHT := 0x0040.
Abbreviation CONTROLLER_BUTTON_DPAD_DOWN := 0x0080.
Abbreviation CONTROLLER_BUTTON_BACK := 0x0100.
Abbreviation CONTROLLER_BUTTON_START := 0x0200.
Abbreviation CONTROLLER_BUTTON_WHITE := 0x0400.
Abbreviation CONTROLLER_BUTTON_BLACK := 0x0800.
Abbreviation CONTROLLER_BUTTON_LSTICK := 0x1000.
Abbreviation CONTROLLER_BUTTON_RSTICK := 0x2000.

Abbreviation CONTROLLER_AXIS_LTRIG := 0.
Abbreviation CONTROLLER_AXIS_RTRIG := 1.
Abbreviation CONTROLLER_AXIS_LSTICK_X := 2.
Abbreviation CONTROLLER_AXIS_LSTICK_Y := 3.
Abbreviation CONTROLLER_AXIS_RSTICK_X := 4.
Abbreviation CONTROLLER_AXIS_RSTICK_Y := 5.

Abbreviation GAMEPAD_IN_ENDPOINT_ID := 0x02.
Abbreviation GAMEPAD_OUT_ENDPOINT_ID := 0x02.

Abbreviation ClassInterfaceRequest := 0xa100.
Abbreviation ClassInterfaceOutRequest := 0x2100.
Abbreviation VendorInterfaceRequest := 0xc100.
Abbreviation ClassDeviceRequest := 0xa000.
Abbreviation EndpointOutRequest := 0x0200.
Abbreviation USB_REQ_CLEAR_FEATURE := 0x01.
Abbreviation USB_REQ_GET_DESCRIPTOR := 0x06.
Abbreviation HID_GET_REPORT := 0x01.
Abbreviation HID_SET_REPORT := 0x09.
Abbreviation XID_GET_CAPABILITIES := 0x01.

(** ** State *)

(** The fields of the host's controller that the gamepad uses; axes are signed. *)
Record ControllerState := mkController {
  buttons : Z;
  axis : list Z;
  rumble_l : Z;
  rumble_r : Z
}.

#[export] Instance eta_ControllerState : Eta ControllerState := fun c =>
  mkController (buttons c) (axis c) (rumble_l c) (rumble_r c).

Record XIDGamepadReport := mkReport {
  bReportId : Z;
  bLength : Z;
  wButtons : Z;
  bAnalogButtons : list Z;
  sThumbLX : Z;
  sThumbLY : Z;
  sThumbRX : Z;
  sThumbRY : Z
}.

#[export] Instance eta_XIDGamepadReport : Eta XIDGamepadReport := fun r =>
  mkReport (bReportId r) (bLength r) (wButtons r) (bAnalogButtons r) (sThumbLX r) (sThumbLY r) (sThumbRX r) (sThumbRY r).

(** The packed structure in memory. *)
Definition report_bytes (r : XIDGamepadReport) : list Z :=
  [bReportId r; bLength r] ++ le_bytes 2 (wButtons r) ++ bAnalogButtons r ++
  le_bytes 2 (sThumbLX r) ++ le_bytes 2 (sThumbLY r) ++ le_bytes 2 (sThumbRX r) ++ le_bytes 2 (sThumbRY r).

Record XIDGamepadOutputReport := mkOutput {
  report_id : Z;
  out_length : Z;
  left_actuator_strength : Z;
  right_actuator_strength : Z
}.

Abbreviation sizeof_report := 20.
Abbreviation sizeof_output := 6.

Definition output_bytes (r : XIDGamepadOutputReport) : list Z :=
  [report_id r; out_length r] ++ le_bytes 2 (left_actuator_strength r) ++ le_bytes 2 (right_actuator_strength r).

Definition output_of_bytes (l : list Z) : XIDGamepadOutputReport :=
  mkOutput (nthZ l 0) (nthZ l 1) (le_val (take 2 (drop 2 l))) (le_val (take 2 (drop 4 l))).

Record XIDDesc := mkXIDDesc {
  xid_bLength : Z;
  bDescriptorType : Z;
  bcdXid : Z;
  bType : Z;
  bSubType : Z;
  bMaxInputReportSize : Z;
  bMaxOutputReportSize : Z;
  wAlternateProductIds : list Z
}.

Definition xid_desc_bytes (d : XIDDesc) : list Z :=
  [xid_bLength d; bDescriptorType d] ++ le_bytes 2 (bcdXid d) ++
  [bType d; bSubType d; bMaxInputReportSize d; bMaxOutputReportSize d] ++
  concat (le_bytes 2 <$> wAlternateProductIds d).

Definition desc_xid_xbox_gamepad : XIDDesc :=
  mkXIDDesc 0x10 0x42 0x100 0x01 0x01 20 6 [0xFFFF; 0xFFFF; 0xFFFF; 0xFFFF].
Definition desc_xid_xbox_gamepad_s : XIDDesc :=
  mkXIDDesc 0x10 0x42 0x100 0x01 0x02 20 6 [0xFFFF; 0xFFFF; 0xFFFF; 0xFFFF].

Record USBXIDGamepadState := mkXID {
  xid_desc : XIDDesc;
  in_state : XIDGamepadReport;
  in_state_capabilities : XIDGamepadReport;
  out_state : XIDGamepadOutputReport;
  out_state_capabilities : XIDGamepadOutputReport
}.

#[export] Instance eta_USBXIDGamepadState : Eta USBXIDGamepadState := fun s =>
  mkXID (xid_desc s) (in_state s) (in_state_capabilities s) (out_state s) (out_state_capabilities s).

(** The host: whether its controller test is on, and the bound controller as a
    poll finds it. *)
Record host := mkHost {
  test_mode : bool;
  bound : option ControllerState
}.

#[export] Instance eta_host : Eta host := fun h => mkHost (test_mode h) (bound h).

(** ** Reports *)

Definition update_output (s : USBXIDGamepadState) (h : host) : outcome host :=
  if test_mode h then Ok h else
  match bound h with
  | None => AssertFail
  | Some state =>
      Ok (h <| bound := Some (state <| rumble_l := left_actuator_strength (out_state s) |>
                                    <| rumble_r := right_actuator_strength (out_state s) |>) |>)
  end.

Definition button_map_analog : list (Z * Z) :=
  [(GAMEPAD_A, CONTROLLER_BUTTON_A); (GAMEPAD_B, CONTROLLER_BUTTON_B); (GAMEPAD_X, CONTROLLER_BUTTON_X);
   (GAMEPAD_Y, CONTROLLER_BUTTON_Y); (GAMEPAD_BLACK, CONTROLLER_BUTTON_BLACK);
   (GAMEPAD_WHITE, CONTROLLER_BUTTON_WHITE)].

Definition button_map_binary : list (Z * Z) :=
  [(GAMEPAD_BACK, CONTROLLER_BUTTON_BACK); (GAMEPAD_START, CONTROLLER_BUTTON_START);
   (GAMEPAD_LEFT_THUMB, CONTROLLER_BUTTON_LSTICK); (GAMEPAD_RIGHT_THUMB, CONTROLLER_BUTTON_RSTICK);
   (GAMEPAD_DPAD_UP, CONTROLLER_BUTTON_DPAD_UP); (GAMEPAD_DPAD_DOWN, CONTROLLER_BUTTON_DPAD_DOWN);
   (GAMEPAD_DPAD_LEFT, CONTROLLER_BUTTON_DPAD_LEFT); (GAMEPAD_DPAD_RIGHT, CONTROLLER_BUTTON_DPAD_RIGHT)].

Definition BUTTON_MASK (button : Z) : Z := 1 ≪ (button - GAMEPAD_DPAD_UP).

Definition update_input (s : USBXIDGamepadState) (h : host) : outcome USBXIDGamepadState :=
  if test_mode h then Ok s else
  match bound h with
  | None => AssertFail
  | Some state =>
      analog ← mfor button_map_analog (fun '(button, mask) l =>
                 wr l button (if flag (buttons state) mask then 0xff else 0)) (bAnalogButtons (in_state s));
      w ← mfor button_map_binary (fun '(button, mask) w =>
            Ok (if flag (buttons state) mask then w .| BUTTON_MASK button else w)) 0;
      lt ← rd (axis state) CONTROLLER_AXIS_LTRIG;
      analog ← wr analog GAMEPAD_LEFT_TRIGGER (u8 (lt ≫ 7));
      rt ← rd (axis state) CONTROLLER_AXIS_RTRIG;
      analog ← wr analog GAMEPAD_RIGHT_TRIGGER (u8 (rt ≫ 7));
      lx ← rd (axis state) CONTROLLER_AXIS_LSTICK_X;
      ly ← rd (axis state) CONTROLLER_AXIS_LSTICK_Y;
      rx ← rd (axis state) CONTROLLER_AXIS_RSTICK_X;
      ry ← rd (axis state) CONTROLLER_AXIS_RSTICK_Y;
      Ok (s <| in_state := (in_state s) <| bAnalogButtons := analog |> <| wButtons := w |>
                             <| sThumbLX := lx |> <| sThumbLY := ly |> <| sThumbRX := rx |> <| sThumbRY := ry |> |>)
  end.

(** ** Requests *)

(** [data] is the device's control buffer of [length] bytes requested; [handled]
    says that the generic descriptor code took the request. *)
Definition usb_xid_handle_control (s : USBXIDGamepadState) (h : host) (p : USBPacket) (handled : bool)
    (request value length : Z) (data : list Z) : outcome (USBXIDGamepadState * host * USBPacket * list Z) :=
  if handled then Ok (s, h, p, data)
  else if request =? ClassInterfaceRequest .| HID_GET_REPORT then
    s ← update_input s h;
    if value =? 0x0100 then
      if length <=? bLength (in_state s) then
        src ← slice (report_bytes (in_state s)) 0 (bLength (in_state s));
        data ← blit data 0 src;
        Ok (s, h, p <| actual_length := length |>, data)
      else Ok (s, h, p <| status := USB_RET_STALL |>, data)
    else AssertFail
  else if request =? ClassInterfaceOutRequest .| HID_SET_REPORT then
    if value =? 0x0200 then
      '(s, p) ←
        (if length =? out_length (out_state s) then
           src ← slice data 0 sizeof_output;
           let s := s <| out_state := output_of_bytes src |> in
           c_assert (out_length (out_state s) =? sizeof_output);;
           Ok (s, p <| actual_length := length |>)
         else Ok (s, p <| status := USB_RET_STALL |>));
      h ← update_output s h;
      Ok (s, h, p, data)
    else AssertFail
  else if request =? VendorInterfaceRequest .| USB_REQ_GET_DESCRIPTOR then
    if value =? 0x4200 then
      c_assert (xid_bLength (xid_desc s) <=? length);;
      src ← slice (xid_desc_bytes (xid_desc s)) 0 (xid_bLength (xid_desc s));
      data ← blit data 0 src;
      Ok (s, h, p <| actual_length := xid_bLength (xid_desc s) |>, data)
    else AssertFail
  else if request =? VendorInterfaceRequest .| XID_GET_CAPABILITIES then
    if value =? 0x0100 then
      let length := if length >? bLength (in_state_capabilities s) then bLength (in_state_capabilities s) else length in
      src ← slice (report_bytes (in_state_capabilities s)) 0 length;
      data ← blit data 0 src;
      Ok (s, h, p <| actual_length := length |>, data)
    else if value =? 0x0200 then
      let length := if length >? out_length (out_state_capabilities s)
                    then out_length (out_state_capabilities s) else length in
      src ← slice (output_bytes (out_state_capabilities s)) 0 length;
      data ← blit data 0 src;
      Ok (s, h, p <| actual_length := length |>, data)
    else AssertFail
  else if (request =? ClassDeviceRequest .| USB_REQ_GET_DESCRIPTOR) ||
          (request =? EndpointOutRequest .| USB_REQ_CLEAR_FEATURE) then
    data ← blit data 0 (replicate (Z.to_nat length) 0);
    Ok (s, h, p <| status := USB_RET_STALL |>, data)
  else AssertFail.

Definition usb_xid_gamepad_handle_data (s : USBXIDGamepadState) (h : host) (p : USBPacket)
    : outcome (USBXIDGamepadState * host * USBPacket) :=
  if pid p =? USB_TOKEN_IN then
    if ep_nr p =? GAMEPAD_IN_ENDPOINT_ID then
      s ← update_input s h;
      '(p, _) ← usb_packet_copy p (Buffer (report_bytes (in_state s))) (bLength (in_state s));
      Ok (s, h, p)
    else AssertFail
  else if pid p =? USB_TOKEN_OUT then
    if ep_nr p =? GAMEPAD_OUT_ENDPOINT_ID then
      '(p, t) ← usb_packet_copy p (Buffer (output_bytes (out_state s))) (out_length (out_state s));
      let s := match t with Buffer l | Constant l => s <| out_state := output_of_bytes l |> end in
      h ← update_output s h;
      Ok (s, h, p)
    else AssertFail
  else AssertFail.

(** [s] as the object was allocated. *)
Definition gamepad_realize (s : USBXIDGamepadState) (d : XIDDesc) : USBXIDGamepadState :=
  s <| in_state := (in_state s) <| bLength := sizeof_report |> <| bReportId := 0 |> |>
    <| out_state := mkOutput 0 sizeof_output (left_actuator_strength (out_state s))
                      (right_actuator_strength (out_state s)) |>
    <| xid_desc := d |>
    <| in_state_capabilities := mkReport 0 sizeof_report 0xFFFF (replicate 8 0xFF) (-1) (-1) (-1) (-1) |>
    <| out_state_capabilities := mkOutput 0 sizeof_output 0xFFFF 0xFFFF |>.

Definition usb_xbox_gamepad_realize (s : USBXIDGamepadState) : USBXIDGamepadState :=
  gamepad_realize s desc_xid_xbox_gamepad.
Definition usb_xbox_gamepad_s_realize (s : USBXIDGamepadState) : USBXIDGamepadState :=
  gamepad_realize s desc_xid_xbox_gamepad_s.

(** ** Well-formed devices *)

(** The sizes and lengths that creation sets; the length byte of the output report
    is the one that the guest can change. *)
Record xid_ok (s : USBXIDGamepadState) : Prop := {
  ok_in_length : bLength (in_state s) = sizeof_report;
  ok_in_id : bReportId (in_state s) = 0;
  ok_analog : length (bAnalogButtons (in_state s)) = 8%nat
}.

(** A controller with its six axes, each in 16 bits, triggers not negative. *)
Record controller_ok (c : ControllerState) : Prop := {
  ok_axis : length (axis c) = 6%nat;
  ok_axis_range : Forall (fun a => - 2 ^ 15 <= a < 2 ^ 15) (axis c);
  ok_trigger : 0 <= nthZ (axis c) CONTROLLER_AXIS_LTRIG /\ 0 <= nthZ (axis c) CONTROLLER_AXIS_RTRIG
}.

(** The host buttons in the order of the report's bits and analog bytes. *)
Definition digital : list Z :=
  [CONTROLLER_BUTTON_DPAD_UP; CONTROLLER_BUTTON_DPAD_DOWN; CONTROLLER_BUTTON_DPAD_LEFT; CONTROLLER_BUTTON_DPAD_RIGHT;
   CONTROLLER_BUTTON_START; CONTROLLER_BUTTON_BACK; CONTROLLER_BUTTON_LSTICK; CONTROLLER_BUTTON_RSTICK].
Definition pressure : list Z :=
  [CONTROLLER_BUTTON_A; CONTROLLER_BUTTON_B; CONTROLLER_BUTTON_X; CONTROLLER_BUTTON_Y;
   CONTROLLER_BUTTON_BLACK; CONTROLLER_BUTTON_WHITE].

(** What the 20 bytes of an input report say about the controller [c]. *)
Record report_of (c : ControllerState) (l : list Z) : Prop := {
  rep_length : length l = 20%nat;
  rep_header : nthZ l 0 = 0 /\ nthZ l 1 = sizeof_report;
  rep_digital : forall k, 0 <= k < 16 ->
    Z.testbit (le_val [nthZ l 2; nthZ l 3]) k = (k <? 8) && flag (buttons c) (nthZ digital k);
  rep_pressure : forall k, 0 <= k < 6 ->
    nthZ l (4 + k) = if flag (buttons c) (nthZ pressure k) then 0xff else 0;
  rep_trigger : forall k, 0 <= k < 2 -> nthZ l (10 + k) = nthZ (axis c) k / 128;
  rep_stick : forall k, 0 <= k < 4 ->
    sext 16 (le_val [nthZ l (12 + 2 * k); nthZ l (13 + 2 * k)]) = nthZ (axis c) (2 + k)
}.

Definition wbuttons (b : Z) : Z :=
  foldl (fun w '(button, mask) => if flag b mask then w .| BUTTON_MASK button else w) 0 button_map_binary.

Lemma update_input_ok s h c : xid_ok s -> controller_ok c -> test_mode h = false -> bound h = Some c ->
  exists lt rt lx ly rx ry, axis c = [lt; rt; lx; ly; rx; ry] /\
  update_input s h = Ok (s <| in_state := (in_state s)
    <| bAnalogButtons := ((fun m => if flag (buttons c) m then 0xff else 0) <$> pressure) ++ [u8 (lt ≫ 7); u8 (rt ≫ 7)] |>
    <| wButtons := wbuttons (buttons c) |>
    <| sThumbLX := lx |> <| sThumbLY := ly |> <| sThumbRX := rx |> <| sThumbRY := ry |> |>).
Proof.
  intros [_ _ La] [Lx _ _] Ht Hb. unfold update_input. rewrite Ht, Hb.
  destruct (axis c) as [| lt [| rt [| lx [| ly [| rx [| ry [|]]]]]]]; try done.
  exists lt, rt, lx, ly, rx, ry. split; [done |].
  destruct (bAnalogButtons (in_state s)) as [| ? [| ? [| ? [| ? [| ? [| ? [| ? [| ? [|]]]]]]]]]; try done.
Qed.

Lemma set_button_bit (f : bool) w j k : 0 <= j -> 0 <= k ->
  Z.testbit (if f then w .| (1 ≪ j) else w) k = Z.testbit w k || (f && (k =? j)).
Proof.
  intros Hj Hk. destruct f; cbn [andb]; [| by rewrite orb_false_r].
  rewrite Z.lor_spec, Z.shiftl_1_l, Z.pow2_bits_eqb by done. f_equal. apply Z.eqb_sym.
Qed.

Lemma wbuttons_bits b k : 0 <= k ->
  Z.testbit (wbuttons b) k = (k <? 8) && flag b (nthZ digital k).
Proof.
  intros Hk. unfold wbuttons, button_map_binary, BUTTON_MASK. cbn [foldl].
  rewrite !set_button_bit by lia. rewrite Z.testbit_0_l.
  destruct (Z.ltb_spec k 8) as [H8 | H8]; cbn [andb orb].
  - assert (k = 0 \/ k = 1 \/ k = 2 \/ k = 3 \/ k = 4 \/ k = 5 \/ k = 6 \/ k = 7)
      as [-> | [-> | [-> | [-> | [-> | [-> | [-> | ->]]]]]]] by lia; cbn [Z.eqb Z.sub Z.add Z.opp Z.pos_sub Pos.eqb Pos.pred_double];
      rewrite ?andb_false_r, ?andb_true_r, ?orb_false_r; reflexivity.
  - repeat match goal with |- context [k =? ?j] => rewrite (proj2 (Z.eqb_neq k j)) by lia end.
    by rewrite !andb_false_r.
Qed.

Lemma trigger_byte a : 0 <= a < 2 ^ 15 -> u8 (a ≫ 7) = a / 128.
Proof.
  intros Ha. rewrite Z.shiftr_div_pow2 by lia. apply Z.mod_small. change (2 ^ 7) with 128.
  split; [apply Z.div_pos; lia | apply Z.div_lt_upper_bound; lia].
Qed.

Lemma stick_bytes a : - 2 ^ 15 <= a < 2 ^ 15 -> sext 16 (le_val (le_bytes 2 a)) = a.
Proof.
  intros Ha. rewrite le_val_bytes. change (8 * Z.of_nat 2) with 16. unfold sext. rewrite Z.mod_mod by lia.
  change (2 ^ (16 - 1)) with (2 ^ 15). destruct (Z.lt_ge_cases a 0).
  - rewrite <- (Z.mod_unique_pos a (2 ^ 16) (-1) (a + 2 ^ 16)) by lia.
    destruct (Z.ltb_spec (a + 2 ^ 16) (2 ^ 15)); lia.
  - rewrite Z.mod_small by lia. destruct (Z.ltb_spec a (2 ^ 15)); lia.
Qed.

(** The bytes of an updated report. *)
Lemma report_of_controller c lt rt lx ly rx ry : controller_ok c -> axis c = [lt; rt; lx; ly; rx; ry] ->
  report_of c (report_bytes (mkReport 0 sizeof_report (wbuttons (buttons c))
    (((fun m => if flag (buttons c) m then 0xff else 0) <$> pressure) ++ [u8 (lt ≫ 7); u8 (rt ≫ 7)]) lx ly rx ry)).
Proof.
  intros [_ Hr Ht] Ea. rewrite Ea in *. destruct Ht as [Hlt Hrt].
  apply Forall_cons in Hr as [? Hr]. apply Forall_cons in Hr as [? Hr]. apply Forall_cons in Hr as [? Hr].
  apply Forall_cons in Hr as [? Hr]. apply Forall_cons in Hr as [? Hr]. apply Forall_cons in Hr as [? _].
  change (nthZ [lt; rt; lx; ly; rx; ry] 0) with lt in Hlt. change (nthZ [lt; rt; lx; ly; rx; ry] 1) with rt in Hrt.
  constructor; [done | done | | | | ].
  - intros k Hk. change (Z.testbit (le_val (le_bytes 2 (wbuttons (buttons c)))) k = (k <? 8) && flag (buttons c) (nthZ digital k)).
    rewrite le_val_bytes, testbit_mod_pow2 by lia. rewrite wbuttons_bits by lia. cbn. zcases; done.
  - intros k Hk. assert (k = 0 \/ k = 1 \/ k = 2 \/ k = 3 \/ k = 4 \/ k = 5) as [-> | [-> | [-> | [-> | [-> | ->]]]]] by lia;
      reflexivity.
  - intros k Hk. rewrite Ea. assert (k = 0 \/ k = 1) as [-> | ->] by lia.
    + change (u8 (lt ≫ 7) = lt / 128). apply trigger_byte. lia.
    + change (u8 (rt ≫ 7) = rt / 128). apply trigger_byte. lia.
  - intros k Hk. rewrite Ea. assert (k = 0 \/ k = 1 \/ k = 2 \/ k = 3) as [-> | [-> | [-> | ->]]] by lia.
    + change (sext 16 (le_val (le_bytes 2 lx)) = lx). by apply stick_bytes.
    + change (sext 16 (le_val (le_bytes 2 ly)) = ly). by apply stick_bytes.
    + change (sext 16 (le_val (le_bytes 2 rx)) = rx). by apply stick_bytes.
    + change (sext 16 (le_val (le_bytes 2 ry)) = ry). by apply stick_bytes.
Qed.

(** C39: with a controller bound and the controller test off, an interrupt IN transfer
    of at least 20 bytes, from its beginning, returns a report that says what the
    host's controller does: each digital button its own bit, each pressure button 0 or
    255, the triggers scaled to a byte and the sticks as signed 16-bit values. The
    device keeps that report as its input state and is otherwise unchanged, descriptor,
    capabilities and output state included; so is the host; and of the packet only the
    first 20 bytes and the count change. *)
Theorem xid_input_report s h p c : xid_ok s -> controller_ok c -> test_mode h = false -> bound h = Some c ->
  pid p = USB_TOKEN_IN -> ep_nr p = GAMEPAD_IN_ENDPOINT_ID -> actual_length p = 0 -> sizeof_report <= zlen (iov p) ->
  exists s' p', usb_xid_gamepad_handle_data s h p = Ok (s', h, p') /\ xid_ok s' /\
    s' = s <| in_state := in_state s' |> /\ report_of c (report_bytes (in_state s')) /\
    p' = p <| iov := report_bytes (in_state s') ++ drop 20 (iov p) |> <| actual_length := sizeof_report |>.
Proof.
  intros Hs Hc Ht Hb Hp He Ha Hl. unfold usb_xid_gamepad_handle_data. rewrite Hp, He. cbn [Z.eqb Pos.eqb].
  destruct (update_input_ok s h c Hs Hc Ht Hb) as (lt & rt & lx & ly & rx & ry & Ea & E).
  rewrite E, ok_bind. pose proof (report_of_controller c lt rt lx ly rx ry Hc Ea) as HR.
  set (r := mkReport _ _ _ _ _ _ _ _) in HR.
  match goal with |- context [Ok (?x, h, _)] => set (s1 := x) end.
  assert (in_state s1 = r) as Er.
  { destruct Hs as [H1 H2 _]. subst s1 r. cbn. by rewrite H1, H2. }
  rewrite Er. assert (zlen (report_bytes r) = 20) as Lr by done.
  change (bLength r) with sizeof_report.
  destruct (usb_packet_copy_in p (Buffer (report_bytes r)) sizeof_report (report_bytes r)) as (v & Ep & Ev);
    try done; try lia.
  rewrite Ep, ok_bind. eexists _, _. split; [done |]. split; [constructor; rewrite Er; done |].
  split; [done |]. rewrite Er. split; [done |].
  rewrite Ha in Ev |- *. rewrite (take_ge (report_bytes r)) in Ev by (change (length (report_bytes r)) with 20%nat; lia).
  rewrite blit_ok in Ev by lia. by injection Ev as <-.
Qed.

(** The output report that a packet leaves in the device. *)
Lemma output_copy s p : pid p = USB_TOKEN_OUT -> actual_length p = 0 ->
  0 <= out_length (out_state s) -> out_length (out_state s) <= zlen (iov p) ->
  usb_packet_copy p (Buffer (output_bytes (out_state s))) (out_length (out_state s)) =
    if out_length (out_state s) <=? sizeof_output then
      Ok (p <| actual_length := out_length (out_state s) |>,
          Buffer (take (Z.to_nat (out_length (out_state s))) (iov p) ++
                  drop (Z.to_nat (out_length (out_state s))) (output_bytes (out_state s))))
    else Undef.
Proof.
  intros Hp Ha Hn Hl. assert (zlen (output_bytes (out_state s)) = 6) as L6 by done.
  destruct (Z.leb_spec (out_length (out_state s)) sizeof_output).
  - rewrite usb_packet_copy_out by (done || lia). by rewrite Ha.
  - by rewrite overlong_copy by (done || lia).
Qed.

(** A transfer to the output endpoint, from its beginning. *)
Definition out_transfer (p : USBPacket) : Prop :=
  pid p = USB_TOKEN_OUT /\ ep_nr p = GAMEPAD_OUT_ENDPOINT_ID /\ actual_length p = 0.

Lemma handle_output s h p c : test_mode h = false -> bound h = Some c -> out_transfer p -> 0 <= out_length (out_state s) ->
  let n := out_length (out_state s) in
  let l := take (Z.to_nat n) (iov p) ++ drop (Z.to_nat n) (output_bytes (out_state s)) in
  usb_xid_gamepad_handle_data s h p =
    if zlen (iov p) <? n then AssertFail
    else if n <=? sizeof_output then
      Ok (s <| out_state := output_of_bytes l |>,
          h <| bound := Some (c <| rumble_l := le_val (take 2 (drop 2 l)) |> <| rumble_r := le_val (take 2 (drop 4 l)) |>) |>,
          p <| actual_length := n |>)
    else Undef.
Proof.
  intros Ht Hb (Hp & He & Ha) Hn n l. unfold usb_xid_gamepad_handle_data. rewrite Hp, He. cbn [Z.eqb Pos.eqb].
  fold n. destruct (Z.ltb_spec (zlen (iov p)) n).
  - unfold usb_packet_copy. rewrite Ha. change (c_assert (0 >=? 0)) with (Ok tt). rewrite ok_bind.
    destruct (Z.leb_spec (0 + n) (zlen (iov p))); [lia | done].
  - unfold n. rewrite output_copy by done. fold n. destruct (n <=? sizeof_output); [| done].
    rewrite ok_bind. cbv beta iota zeta. fold l. unfold update_output. by rewrite Ht, Hb.
Qed.

(** C40: an output report sets the two rumble motors to the packet's values; its
    second byte becomes the length of the next copy, so that a next transfer is
    taken if that length is at most 6, stops on an assertion if the transfer is
    shorter than it, and is otherwise written past the end of the report. *)
Theorem xid_output_report s h p c : test_mode h = false -> bound h = Some c -> out_transfer p ->
  Forall (in_u 8) (iov p) -> out_length (out_state s) = sizeof_output -> sizeof_output <= zlen (iov p) ->
  exists s' h' p', usb_xid_gamepad_handle_data s h p = Ok (s', h', p') /\
    bound h' = Some (c <| rumble_l := nthZ (iov p) 2 + 256 * nthZ (iov p) 3 |>
                       <| rumble_r := nthZ (iov p) 4 + 256 * nthZ (iov p) 5 |>) /\
    let n := nthZ (iov p) 1 in
    forall p2, out_transfer p2 ->
      if zlen (iov p2) <? n then usb_xid_gamepad_handle_data s' h' p2 = AssertFail
      else if n <=? sizeof_output then is_ok (usb_xid_gamepad_handle_data s' h' p2)
      else usb_xid_gamepad_handle_data s' h' p2 = Undef.
Proof.
  intros Ht Hb Hp Hby Ho Hl. rewrite (handle_output s h p c Ht Hb Hp) by lia. cbv zeta. rewrite Ho.
  change (sizeof_output <=? sizeof_output) with true.
  destruct (Z.ltb_spec (zlen (iov p)) sizeof_output); [lia |]. cbv iota.
  destruct (iov p) as [| b0 [| b1 [| b2 [| b3 [| b4 [| b5 l]]]]]]; cbn in Hl; try lia.
  assert (in_u 8 b1 /\ in_u 8 b2 /\ in_u 8 b3 /\ in_u 8 b4 /\ in_u 8 b5) as (H1 & H2 & H3 & H4 & H5).
  { rewrite !Forall_cons in Hby. tauto. }
  eexists _, _, _. split; [done |]. split.
  - change (take 2 (drop 2 _)) with [b2; b3]. change (take 2 (drop 4 _)) with [b4; b5].
    rewrite !le_val_cons by done. change (le_val []) with 0.
    replace (b2 + (b3 + 0 * 256) * 256) with (b2 + 256 * b3) by lia.
    replace (b4 + (b5 + 0 * 256) * 256) with (b4 + 256 * b5) by lia. done.
  - change (nthZ _ 1) with b1. intros p2 Hp2. erewrite handle_output; [| exact Ht | done | exact Hp2 |].
    + change (out_length (out_state _)) with b1.
      destruct (zlen (iov p2) <? b1); [done |]. destruct (b1 <=? sizeof_output); [by eexists | done].
    + change (out_length (out_state _)) with b1. apply H1.
Qed.

(** ** Samples *)

Definition sample_controller : ControllerState :=
  mkController (CONTROLLER_BUTTON_A .| CONTROLLER_BUTTON_DPAD_UP .| CONTROLLER_BUTTON_START)
    [32767; 0; -32768; -1; 0; 1] 0 0.
Definition sample_host : host := mkHost false (Some sample_controller).
Definition sample_pad : USBXIDGamepadState :=
  usb_xbox_gamepad_realize (mkXID desc_xid_xbox_gamepad (mkReport 0 0 0 (replicate 8 0) 0 0 0 0)
    (mkReport 0 0 0 (replicate 8 0) 0 0 0 0) (mkOutput 0 0 0 0) (mkOutput 0 0 0 0)).

Lemma xid_input_report_witness : exists s' p',
  usb_xid_gamepad_handle_data sample_pad sample_host (mkUSBPacket USB_TOKEN_IN 2 (replicate 32 0) 0 0) =
    Ok (s', sample_host, p') /\ report_of sample_controller (report_bytes (in_state s')) /\ iov p' = report_bytes (in_state s') ++ replicate 12 0.
Proof.
  destruct (xid_input_report sample_pad sample_host (mkUSBPacket USB_TOKEN_IN 2 (replicate 32 0) 0 0) sample_controller)
    as (s' & p' & E & _ & _ & HR & Ep); try done.
  - constructor; [done | | done]. repeat (apply Forall_cons_2; [lia |]). done.
  - exists s', p'. split; [exact E | split; [exact HR | by rewrite Ep]].
Defined.

Lemma xid_output_report_witness : exists s' h' p',
  usb_xid_gamepad_handle_data sample_pad sample_host (mkUSBPacket USB_TOKEN_OUT 2 [0; 0xff; 0x34; 0x12; 0x78; 0x56] 0 0) =
    Ok (s', h', p') /\
  bound h' = Some (sample_controller <| rumble_l := 0x1234 |> <| rumble_r := 0x5678 |>) /\
  usb_xid_gamepad_handle_data s' h' (mkUSBPacket USB_TOKEN_OUT 2 (replicate 300 1) 0 0) = Undef.
Proof.
  destruct (xid_output_report sample_pad sample_host
    (mkUSBPacket USB_TOKEN_OUT 2 [0; 0xff; 0x34; 0x12; 0x78; 0x56] 0 0) sample_controller)
    as (s' & h' & p' & E & Hb & Hn); try done.
  - repeat (apply Forall_cons_2; [by vm_compute |]). done.
  - exists s', h', p'. split; [exact E |]. split; [exact Hb |].
    exact (Hn (mkUSBPacket USB_TOKEN_OUT 2 (replicate 300 1) 0 0) (conj eq_refl (conj eq_refl eq_refl))).
Defined.
