(* ===== verification/Apu.v ===== *)
(** * The audio processing unit (hw/xbox/mcpx/apu/apu.c)

    The register file with its interrupt, and the frame thread with the monitor
    FIFO that carries finished frames to the host's audio callback. The voice
    processor and the DSPs appear as what they leave behind: new register values
    and a new frame buffer.

    The thread, the virtual CPU's register accesses, the audio callback, resets
    and the request to exit interleave in the step relation [step]. The theorems
    show that in every reachable state a frame fits into the FIFO, so that the
    assertion in front of the push never fails, that frames reach the callback in
    order with none lost or repeated, and what the interrupt line means. *)

From stdpp Require Import base gmap numbers list.
From Stdlib Require Import ZArith Lia.
From S2P Require Import Prelude Fifo8.

Abbreviation NV_PAPU_ISTS := 0x1000.
Abbreviation NV_PAPU_ISTS_GINTSTS := 0x01.
Abbreviation NV_PAPU_ISTS_FETINTSTS := 0x10.
Abbreviation NV_PAPU_IEN := 0x1004.
Abbreviation NV_PAPU_FECTL := 0x1100.
Abbreviation NV_PAPU_FECTL_FEMETHMODE_HALTED := 0x80.
Abbreviation NV_PAPU_FECTL_FEMETHMODE_TRAPPED := 0xE0.
Abbreviation NV_PAPU_FEMEMADDR := 0x1324.
Abbreviation NV_PAPU_FEMEMDATA := 0x1334.
Abbreviation NV_PAPU_SECTL := 0x2000.
Abbreviation NV_PAPU_SECTL_XCNTMODE := 0x18.
Abbreviation NV_PAPU_SECTL_XCNTMODE_OFF := 0.
Abbreviation NV_PAPU_XGSCNT := 0x200C.
Abbreviation EP_FRAME_US := 5333.
Abbreviation sizeof_frame_buf := 1024.

(** [phys_writes] are the 32-bit stores to guest memory, oldest first; [irq] is the
    level of the interrupt line. *)
Record MCPXAPUState := mkAPU {
  exiting : bool;
  set_irq : bool;
  regs : gmap Z Z;
  ep_frame_div : Z;
  sleep_acc_us : Z;
  next_frame_time_us : Z;
  frame_buf : list Z;
  fifo : Fifo8;
  fifo_capacity_bytes : Z;
  device_buffer_bytes : Z;
  queued_bytes_low : Z;
  queued_bytes_high : Z;
  irq : bool;
  phys_writes : list (Z * Z)
}.

#[export] Instance eta_MCPXAPUState : Eta MCPXAPUState := fun d =>
  mkAPU (exiting d) (set_irq d) (regs d) (ep_frame_div d) (sleep_acc_us d) (next_frame_time_us d) (frame_buf d)
    (fifo d) (fifo_capacity_bytes d) (device_buffer_bytes d) (queued_bytes_low d) (queued_bytes_high d) (irq d)
    (phys_writes d).

Implicit Types d : MCPXAPUState.

(** ** Registers *)

Definition update_irq d : MCPXAPUState :=
  let d := if flag (rget (regs d) NV_PAPU_FECTL) NV_PAPU_FECTL_FEMETHMODE_TRAPPED
           then d <| regs := rset (regs d) NV_PAPU_ISTS (rget (regs d) NV_PAPU_ISTS .| NV_PAPU_ISTS_FETINTSTS) |>
           else d in
  if flag (rget (regs d) NV_PAPU_IEN) NV_PAPU_ISTS_GINTSTS &&
     flag (rget (regs d) NV_PAPU_ISTS .& u32 (Z.lnot NV_PAPU_ISTS_GINTSTS)) (rget (regs d) NV_PAPU_IEN)
  then d <| regs := rset (regs d) NV_PAPU_ISTS (rget (regs d) NV_PAPU_ISTS .| NV_PAPU_ISTS_GINTSTS) |>
         <| irq := true |>
  else d <| regs := rset (regs d) NV_PAPU_ISTS (rget (regs d) NV_PAPU_ISTS .& u32 (Z.lnot NV_PAPU_ISTS_GINTSTS)) |>
         <| irq := false |>.

(** [now_ns] is the virtual clock. *)
Definition mcpx_apu_read d (now_ns addr : Z) : Z :=
  if addr =? NV_PAPU_XGSCNT then u64 (now_ns / 100)
  else if addr <? 0x20000 then rget (regs d) addr
  else 0.

Definition mcpx_apu_write d (addr val : Z) : MCPXAPUState :=
  if addr =? NV_PAPU_ISTS then
    update_irq (d <| regs := rset (regs d) NV_PAPU_ISTS (rget (regs d) NV_PAPU_ISTS .& u32 (Z.lnot val)) |>)
  else if (addr =? NV_PAPU_FECTL) || (addr =? NV_PAPU_SECTL) then
    d <| regs := rset (regs d) addr (u32 val) |>
  else if addr =? NV_PAPU_FEMEMDATA then
    d <| phys_writes := phys_writes d ++ [(rget (regs d) NV_PAPU_FEMEMADDR, u32 val)] |>
      <| regs := rset (regs d) addr (u32 val) |>
  else if addr <? 0x20000 then d <| regs := rset (regs d) addr (u32 val) |>
  else d.

(** ** The monitor *)

Definition monitor_num_used_bytes d : Z := fifo8_num_used (fifo d).

(** [throttle] does nothing on most frames. *)
Definition throttle_skipped d : bool :=
  negb (Z.rem (ep_frame_div d) 8 =? 0) || (fifo_capacity_bytes d <=? 0).

(** The first wait goes on: the queue was too long when last looked at. *)
Definition throttle_draining d (queued : Z) : bool :=
  negb (exiting d) && (queued >=? queued_bytes_high d).

(** The second wait is entered with [queued] bytes in the FIFO; [start_us] is the
    real time at which [throttle] was called. *)
Definition throttle_pace d (queued start_us : Z) : MCPXAPUState :=
  if queued >? queued_bytes_low d then
    if (next_frame_time_us d =? 0) || (start_us - next_frame_time_us d >? EP_FRAME_US)
    then d <| next_frame_time_us := start_us |> else d
  else d <| next_frame_time_us := start_us |>.

(** It goes on until the time of the next frame. *)
Definition throttle_pacing d (queued now_us : Z) : bool :=
  (queued >? queued_bytes_low d) && negb (exiting d) &&
  (Z.quot (next_frame_time_us d - now_us) 1000 >? 0).

(** The end of [throttle], at [end_us]. *)
Definition throttle_done d (queued start_us end_us : Z) : MCPXAPUState :=
  let d :=
    if queued >? queued_bytes_low d then
      let d := d <| next_frame_time_us := next_frame_time_us d + EP_FRAME_US |> in
      let mid := Z.quot (queued_bytes_low d + queued_bytes_high d) 2 in
      d <| next_frame_time_us := next_frame_time_us d +
            ((if queued >? mid then 1 else 0) - (if queued <? mid then 1 else 0)) |>
    else d in
  d <| sleep_acc_us := sleep_acc_us d + (end_us - start_us) |>.

(** [d] already holds what the voice processor and the DSPs produced; [scale] is
    the volume limit of the host's settings. *)
Definition se_frame (scale : list Z -> list Z) d : outcome MCPXAPUState :=
  d ← (if Z.rem (ep_frame_div d + 1) 8 =? 0 then
         let d := d <| frame_buf := scale (frame_buf d) |> in
         c_assert (fifo8_num_free (fifo d) >=? sizeof_frame_buf);;
         f ← fifo8_push_all (fifo d) (frame_buf d) sizeof_frame_buf;
         Ok (d <| fifo := f |> <| frame_buf := replicate (length (frame_buf d)) 0 |>)
       else Ok d);
  Ok (d <| ep_frame_div := sext 32 (ep_frame_div d + 1) |>).

(** The copy loop of the audio callback. *)
Fixpoint sink_loop (fuel : nat) (f : Fifo8) (stream : list Z) (copied to_copy : Z)
    : outcome (Fifo8 * list Z * Z) :=
  if negb (copied <? to_copy) then Ok (f, stream, copied) else
  match fuel with
  | O => NoFuel
  | S fuel =>
      '(chunk_len, dst, f) ← fifo8_pop_buf f (Some (drop (Z.to_nat copied) stream)) (to_copy - copied);
      let stream := match dst with
                    | Some dst => take (Z.to_nat copied) stream ++ dst
                    | None => stream
                    end in
      if chunk_len =? 0 then Ok (f, stream, copied)
      else sink_loop fuel f stream (copied + chunk_len) to_copy
  end.

(** [avail] is the number of bytes that the last poll of the FIFO saw; the polls
    before it only wait. [stream] has [free_b] bytes. *)
Definition monitor_sink_cb d (running : bool) (stream : list Z) (avail : Z) : outcome (MCPXAPUState * list Z) :=
  let free_b := zlen stream in
  if negb running then Ok (d, replicate (length stream) 0) else
  let to_copy := Z.min free_b avail in
  '(f, stream, copied) ← sink_loop (Z.to_nat to_copy) (fifo d) stream 0 to_copy;
  let stream := if copied <? free_b
                then take (Z.to_nat copied) stream ++ replicate (Z.to_nat (free_b - copied)) 0
                else stream in
  Ok (d <| fifo := f |>, stream).

(** [mem] is the allocation of the FIFO, [samples] what the audio device reports. *)
Definition monitor_init d (fifo_frames audio_samples samples : Z) (mem : list Z) : MCPXAPUState :=
  let fifo_capacity_bytes' := fifo_frames * sizeof_frame_buf in
  let d := d <| fifo := fifo8_create mem fifo_capacity_bytes' |> <| fifo_capacity_bytes := fifo_capacity_bytes' |> in
  let fifo_frame_bytes := sizeof_frame_buf in
  let drain_bytes := samples * 2 * 2 in
  let drain_bytes := if drain_bytes <=? 0 then audio_samples * 2 * 2 else drain_bytes in
  let drain_bytes := Z.max drain_bytes fifo_frame_bytes in
  let max_high := Z.max (fifo_capacity_bytes d - fifo_frame_bytes) fifo_frame_bytes in
  let d := d <| device_buffer_bytes := drain_bytes |> <| queued_bytes_high := Z.min (3 * drain_bytes) max_high |> in
  d <| queued_bytes_low := Z.min drain_bytes (queued_bytes_high d) |>.

(** The parsed value of an environment variable, or none. *)
Definition getenv_int_clamped (parsed : option Z) (min_value max_value fallback : Z) : Z :=
  match parsed with
  | None => fallback
  | Some parsed => if parsed <? min_value then min_value else if parsed >? max_value then max_value else parsed
  end.

(** The sizes that [monitor_init] starts from: FIFO frames and device samples, on
    Android overridden by two environment variables. *)
Definition monitor_config (android : bool) (frames_env samples_env : option Z) : Z * Z :=
  if android then (getenv_int_clamped frames_env 3 128 48, getenv_int_clamped samples_env 256 4096 2048)
  else (3, 512).

(** The part of [mcpx_apu_dsp_frame] that taps the global processor's mixing buffer
    [xmem] into the frame buffer: 32 stereo samples per frame. *)
Definition monitor_tap d (xmem : Z -> Z) : outcome MCPXAPUState :=
  let off := Z.rem (ep_frame_div d) 8 * 32 in
  buf ← mfor (seqZ 0 32) (fun i buf =>
    buf ← blit buf (4 * (off + i)) (le_bytes 2 (xmem (0x1400 + i) ≫ 8));
    blit buf (4 * (off + i) + 2) (le_bytes 2 (xmem (0x1400 + 1 * 0x20 + i) ≫ 8))) (frame_buf d);
  Ok (d <| frame_buf := buf |>).

(** The units that [mcpx_apu_vp_reset] and the opcode caches clear are modelled with
    the DSPs. *)
Definition mcpx_apu_reset d : MCPXAPUState :=
  d <| regs := ∅ |> <| set_irq := false |> <| next_frame_time_us := 0 |>.

(** ** The frame thread *)

(** The front end is off, trapped or halted. *)
Definition thread_idle d : bool :=
  (GET_MASK (rget (regs d) NV_PAPU_SECTL) NV_PAPU_SECTL_XCNTMODE =? NV_PAPU_SECTL_XCNTMODE_OFF) ||
  flag (rget (regs d) NV_PAPU_FECTL) NV_PAPU_FECTL_FEMETHMODE_TRAPPED ||
  flag (rget (regs d) NV_PAPU_FECTL) NV_PAPU_FECTL_FEMETHMODE_HALTED.

(** Where the thread is: at the top of its loop, before and after the interrupt
    update that runs without the lock, at the second test, waiting on the
    condition, at the start of [throttle], at the test and in the wait of its first
    loop, in its second loop, before [se_frame], or gone. *)
Inductive thread_pc :=
| Top | UpdateIrq | ClearIrq | Recheck | CondWait | Throttle | Draining (queued start_us : Z)
| DrainWait (queued start_us : Z) | Pacing (queued start_us : Z) | Frame | Exited.

(** The lock is free where the thread waits or has released it; the voice processor
    may wait for a voice at the start of a frame. *)
Definition lock_free (pc : thread_pc) : bool :=
  match pc with UpdateIrq | CondWait | DrainWait _ _ | Pacing _ _ | Frame | Exited => true | _ => false end.

(** The unit, the thread, and what was pushed to and played from the FIFO. *)
Record world := mkWorld {
  apu : MCPXAPUState;
  pc : thread_pc;
  pushed : list Z;
  played : list Z
}.

#[export] Instance eta_world : Eta world := fun w => mkWorld (apu w) (pc w) (pushed w) (played w).

Implicit Types w : world.

Section Thread.

(** The volume limit. *)
Context (scale : list Z -> list Z).

(** One step of the thread or of one of its neighbours. The clock is free; the
    voice processor, its front end and a loaded snapshot leave any registers. *)
Inductive step w : world -> Prop :=
| step_top :
    pc w = Top ->
    let d := apu w in
    let d' := if thread_idle d then d <| set_irq := true |> else d in
    step w (if exiting d then w <| pc := Exited |>
            else w <| apu := d' |> <| pc := if set_irq d' then UpdateIrq else Recheck |>)
| step_update_irq :
    pc w = UpdateIrq -> step w (w <| apu := update_irq (apu w) |> <| pc := ClearIrq |>)
| step_clear_irq :
    pc w = ClearIrq -> step w (w <| apu := (apu w) <| set_irq := false |> |> <| pc := Recheck |>)
| step_recheck :
    pc w = Recheck -> step w (w <| pc := if thread_idle (apu w) then CondWait else Throttle |>)
| step_wake :
    pc w = CondWait -> step w (w <| pc := Top |>)
| step_throttle start_us :
    pc w = Throttle -> step w (w <| pc := if throttle_skipped (apu w) then Frame
                      else Draining (monitor_num_used_bytes (apu w)) start_us |>)
| step_drain queued start_us :
    pc w = Draining queued start_us ->
    step w (if throttle_draining (apu w) queued then w <| pc := DrainWait queued start_us |>
            else w <| apu := throttle_pace (apu w) queued start_us |> <| pc := Pacing queued start_us |>)
| step_drained queued start_us :
    pc w = DrainWait queued start_us ->
    step w (if exiting (apu w)
            then w <| apu := throttle_pace (apu w) queued start_us |> <| pc := Pacing queued start_us |>
            else w <| pc := Draining (monitor_num_used_bytes (apu w)) start_us |>)
| step_pace queued start_us now_us :
    pc w = Pacing queued start_us ->
    step w (if throttle_pacing (apu w) queued now_us then w
            else w <| apu := throttle_done (apu w) queued start_us now_us |> <| pc := Frame |>)
| step_frame regs' set_irq' buf d' :
    pc w = Frame -> zlen buf = sizeof_frame_buf ->
    let d := (apu w) <| regs := regs' |> <| set_irq := set_irq' |> <| frame_buf := buf |> in
    se_frame scale d = Ok d' ->
    step w (w <| apu := d' |> <| pc := Top |>
              <| pushed := pushed w ++ (if Z.rem (ep_frame_div d + 1) 8 =? 0 then scale buf else []) |>)
| step_mmio addr val :
    step w (w <| apu := mcpx_apu_write (apu w) addr val |>)
| step_front_end regs' set_irq' :
    step w (w <| apu := (apu w) <| regs := regs' |> <| set_irq := set_irq' |> |>)
| step_reset :
    lock_free (pc w) = true -> step w (w <| apu := mcpx_apu_reset (apu w) |>)
| step_ep_rst :
    lock_free (pc w) = true -> step w (w <| apu := (apu w) <| ep_frame_div := 0 |> |>)
| step_sink running stream avail d' out :
    0 <= avail <= monitor_num_used_bytes (apu w) ->
    monitor_sink_cb (apu w) running stream avail = Ok (d', out) ->
    step w (w <| apu := d' |>
              <| played := played w ++ take (if running then Z.to_nat (Z.min (zlen stream) avail) else 0) out |>)
| step_exit :
    step w (w <| apu := (apu w) <| exiting := true |> |>).

(** Power-on: the thread starts with an empty FIFO. *)
Definition power_on (d : MCPXAPUState) (android : bool) (frames_env samples_env : option Z) (samples : Z)
    (mem : list Z) : world :=
  let '(fifo_frames, audio_samples) := monitor_config android frames_env samples_env in
  mkWorld (monitor_init d fifo_frames audio_samples samples mem) Top [] [].

Inductive reachable (w0 : world) : world -> Prop :=
| reach_start : reachable w0 w0
| reach_step w w' : reachable w0 w -> step w w' -> reachable w0 w'.

End Thread.

(** ** What each piece does *)

(** The part of the state that only [se_frame] and the audio callback change. *)
Record same_monitor d d' : Prop := {
  same_fifo : fifo d' = fifo d;
  same_capacity : fifo_capacity_bytes d' = fifo_capacity_bytes d;
  same_low : queued_bytes_low d' = queued_bytes_low d;
  same_high : queued_bytes_high d' = queued_bytes_high d;
  same_div : ep_frame_div d' = ep_frame_div d;
  same_exiting : exiting d' = exiting d
}.

Create HintDb apu.

Ltac by_cases_same :=
  repeat match goal with |- context [if ?b then _ else _] => destruct b end; by split.

Lemma update_irq_monitor d : same_monitor d (update_irq d).
Proof. unfold update_irq. by_cases_same. Qed.

Lemma mcpx_apu_write_monitor d addr val : same_monitor d (mcpx_apu_write d addr val).
Proof. unfold mcpx_apu_write, update_irq. by_cases_same. Qed.

Lemma mcpx_apu_reset_monitor d : same_monitor d (mcpx_apu_reset d).
Proof. by split. Qed.

Lemma throttle_pace_monitor d queued start_us : same_monitor d (throttle_pace d queued start_us).
Proof. unfold throttle_pace. by_cases_same. Qed.

Lemma throttle_done_monitor d queued start_us end_us : same_monitor d (throttle_done d queued start_us end_us).
Proof. unfold throttle_done. by_cases_same. Qed.

Lemma same_monitor_refl d : same_monitor d d.
Proof. by split. Qed.

#[export] Hint Resolve update_irq_monitor mcpx_apu_write_monitor mcpx_apu_reset_monitor throttle_pace_monitor
  throttle_done_monitor same_monitor_refl : apu.

(** After an update the line and the global status bit agree, and both say whether
    an enabled interrupt is pending. *)
Lemma update_irq_line d :
  flag (rget (regs (update_irq d)) NV_PAPU_ISTS) NV_PAPU_ISTS_GINTSTS = irq (update_irq d).
Proof.
  unfold update_irq.
  repeat match goal with |- context [if ?b then _ else _] => destruct b end; cbn -[flag Z.land Z.lor u32];
    unfold rget, rset; rewrite lookup_insert_eq; cbn -[flag Z.land Z.lor u32]; unfold flag;
    rewrite ?Z.land_lor_distr_l, <- ?Z.land_assoc.
  all: try (change (u32 (Z.lnot NV_PAPU_ISTS_GINTSTS) .& NV_PAPU_ISTS_GINTSTS) with 0; by rewrite Z.land_0_r).
  all: change (1 .& 1) with 1; match goal with |- negb (?a .| 1 =? 0) = true => idtac end.
  all: match goal with |- negb (?a .| 1 =? 0) = true =>
         assert (H : Z.testbit (a .| 1) 0 = true) by (rewrite Z.lor_spec; apply orb_true_r);
         destruct (Z.eqb_spec (a .| 1) 0) as [E|]; [rewrite E in H; by rewrite Z.testbit_0_l in H | done] end.
Qed.

Lemma push_all_capacity f buf num f' : fifo8_push_all f buf num = Ok f' -> fifo_capacity f' = fifo_capacity f.
Proof.
  unfold fifo8_push_all. intros H. inv_ok. by subst f'.
Qed.

(** The frame counter wraps without disturbing its count modulo 8. *)
Lemma frame_div_rem x : Z.rem (sext 32 (x + 1)) 8 = 0 <-> Z.rem (x + 1) 8 = 0.
Proof.
  rewrite !Z.rem_divide by lia. unfold sext.
  assert (E : (x + 1) mod 2 ^ 32 = x + 1 - 8 * (2 ^ 29 * ((x + 1) / 2 ^ 32)))
    by (rewrite Z.mod_eq by lia; lia).
  split; intros [k Hk].
  - destruct (_ <? _); [exists (k + 2 ^ 29 * ((x + 1) / 2 ^ 32)) | exists (k + 2 ^ 29 + 2 ^ 29 * ((x + 1) / 2 ^ 32))]; lia.
  - destruct (_ <? _); [exists (k - 2 ^ 29 * ((x + 1) / 2 ^ 32)) | exists (k - 2 ^ 29 - 2 ^ 29 * ((x + 1) / 2 ^ 32))]; lia.
Qed.

(** On the eighth frame the scaled buffer is appended to the FIFO, on the others
    nothing happens to it. *)
Lemma se_frame_spec scale d :
  fifo_ok (fifo d) -> zlen (scale (frame_buf d)) = sizeof_frame_buf ->
  let push := Z.rem (ep_frame_div d + 1) 8 =? 0 in
  (push = true -> monitor_num_used_bytes d + sizeof_frame_buf <= fifo_capacity (fifo d)) ->
  exists d', se_frame scale d = Ok d' /\ fifo_ok (fifo d') /\
    contents (fifo d') = contents (fifo d) ++ (if push then scale (frame_buf d) else []) /\
    fifo_capacity (fifo d') = fifo_capacity (fifo d) /\
    fifo_capacity_bytes d' = fifo_capacity_bytes d /\ queued_bytes_low d' = queued_bytes_low d /\
    queued_bytes_high d' = queued_bytes_high d /\ exiting d' = exiting d /\
    (push = false -> fifo d' = fifo d) /\
    ep_frame_div d' = sext 32 (ep_frame_div d + 1).
Proof.
  intros Hf Hlen push Hroom. unfold se_frame. fold push. destruct push.
  - specialize (Hroom eq_refl). unfold monitor_num_used_bytes, fifo8_num_used in Hroom.
    pose proof Hf as [_ Hc _ Hn]. cbn [fifo frame_buf].
    destruct (push_all_spec (fifo d) (scale (frame_buf d)) sizeof_frame_buf) as (f' & Hpush & Hf' & Hcont);
      [done | lia | lia |].
    rewrite c_assert_true
      by (apply Z.geb_le; unfold fifo8_num_free; change (1024 <= u32 (fifo_capacity (fifo d) - fifo_num (fifo d)));
          rewrite u32_small by lia; lia).
    cbn [mbind outcome_bind].
    change (fifo (d <| frame_buf := scale (frame_buf d) |>)) with (fifo d).
    change (frame_buf (d <| frame_buf := scale (frame_buf d) |>)) with (scale (frame_buf d)).
    rewrite Hpush. cbn [mbind outcome_bind]. eexists. split; [done |]. cbn.
    rewrite take_ge in Hcont by lia. pose proof (push_all_capacity _ _ _ _ Hpush). done.
  - eexists. split; [done |]. cbn. by rewrite app_nil_r.
Qed.

(** The callback's loop ends after one round. *)
Lemma sink_loop_spec fuel f stream to_copy :
  fifo_ok f -> 0 <= to_copy <= fifo_num f -> to_copy <= zlen stream -> (Z.to_nat to_copy <= fuel)%nat ->
  sink_loop fuel f stream 0 to_copy =
    Ok (if to_copy =? 0 then f else advance f to_copy,
        take (Z.to_nat to_copy) (contents f) ++ drop (Z.to_nat to_copy) stream, to_copy).
Proof.
  intros Hf Hn Hs Hfuel. destruct fuel as [|fuel]; cbn [sink_loop];
    destruct (Z.ltb_spec 0 to_copy) as [Hpos|]; cbn [negb]; try lia.
  1, 3: assert (to_copy = 0) as -> by lia; done.
  change (Z.to_nat 0) with 0%nat. rewrite drop_0, Z.sub_0_r. unfold fifo8_pop_buf.
  rewrite peekpop_buf_spec by (done || lia). cbn [mbind outcome_bind]. rewrite take_0, app_nil_l.
  destruct (Z.eqb_spec to_copy 0); [lia |]. rewrite Z.add_0_l.
  destruct fuel; cbn [sink_loop]; by rewrite Z.ltb_irrefl.
Qed.

(** The callback plays the oldest bytes of the FIFO and fills up with silence. *)
Lemma monitor_sink_cb_spec d stream avail :
  fifo_ok (fifo d) -> 0 <= avail <= monitor_num_used_bytes d ->
  let n := Z.min (zlen stream) avail in
  exists f, monitor_sink_cb d true stream avail =
      Ok (d <| fifo := f |>, take (Z.to_nat n) (contents (fifo d)) ++ replicate (Z.to_nat (zlen stream - n)) 0) /\
    fifo_ok f /\ fifo_capacity f = fifo_capacity (fifo d) /\ fifo_num f = fifo_num (fifo d) - n /\
    contents f = drop (Z.to_nat n) (contents (fifo d)).
Proof.
  intros Hf Ha n. unfold monitor_num_used_bytes, fifo8_num_used in Ha.
  exists (if n =? 0 then fifo d else advance (fifo d) n). unfold monitor_sink_cb. cbn [negb].
  pose proof (length_contents _ Hf) as Hlen.
  rewrite sink_loop_spec by (try done; unfold n in *; lia). cbn [mbind outcome_bind]. fold n.
  assert (Hn : 0 <= n <= fifo_num (fifo d)) by (unfold n; lia).
  assert (Hw : length (take (Z.to_nat n) (contents (fifo d))) = Z.to_nat n) by (rewrite length_take; lia).
  split; [|].
  - repeat f_equal. destruct (Z.ltb_spec n (zlen stream)).
    + by rewrite take_app_length' by done.
    + f_equal. rewrite drop_ge by lia. by replace (zlen stream - n) with 0 by lia.
  - destruct (Z.eqb_spec n 0) as [->|].
    + change (Z.to_nat 0) with 0%nat. rewrite drop_0. repeat split; [apply Hf..|lia].
    + repeat split; [by apply advance_ok.. | by apply contents_advance].
Qed.

(** ** The invariant of the thread *)

Definition on_eighth d : Prop := Z.rem (ep_frame_div d) 8 = 0.
Definition below_high d : Prop := monitor_num_used_bytes d < queued_bytes_high d.

(** Except right after an eighth frame the queue is below the high mark; a thread
    that leaves its waits because the machine exits does not get to another push. *)
Definition timely w : Prop :=
  let d := apu w in
  match pc w with
  | Top | Exited => on_eighth d \/ below_high d \/ exiting d = true
  | UpdateIrq | ClearIrq | Recheck | CondWait | Throttle => on_eighth d \/ below_high d
  | Draining queued _ | DrainWait queued _ => on_eighth d /\ monitor_num_used_bytes d <= queued
  | Pacing _ _ => on_eighth d /\ (below_high d \/ exiting d = true)
  | Frame => below_high d \/ (exiting d = true /\ on_eighth d)
  end.

Record world_ok w : Prop := {
  ok_fifo : fifo_ok (fifo (apu w));
  ok_capacity : 0 < fifo_capacity_bytes (apu w);
  ok_room : queued_bytes_high (apu w) + sizeof_frame_buf <= fifo_capacity (fifo (apu w));
  ok_flow : pushed w = played w ++ contents (fifo (apu w));
  ok_timely : timely w
}.

(** Nothing but a frame makes the queue longer. *)
Lemma timely_mono w d' :
  ep_frame_div d' = ep_frame_div (apu w) -> queued_bytes_high d' = queued_bytes_high (apu w) ->
  monitor_num_used_bytes d' <= monitor_num_used_bytes (apu w) ->
  (exiting (apu w) = true -> exiting d' = true) ->
  timely w -> timely (w <| apu := d' |>).
Proof.
  intros Hdiv Hhigh Hused Hexit. unfold timely, on_eighth, below_high.
  change (apu (w <| apu := d' |>)) with d'. change (pc (w <| apu := d' |>)) with (pc w).
  rewrite Hdiv, Hhigh. destruct (pc w); intros; intuition lia.
Qed.

(** Restarting the count of eight is always in time. *)
Lemma timely_restart w : timely w -> timely (w <| apu := (apu w) <| ep_frame_div := 0 |> |>).
Proof.
  unfold timely. cbn. set (d' := (apu w) <| ep_frame_div := 0 |>).
  assert (on_eighth d') by done. change (below_high d') with (below_high (apu w)).
  destruct (pc w); tauto.
Qed.

Lemma same_monitor_ok w d' : same_monitor (apu w) d' -> world_ok w -> world_ok (w <| apu := d' |>).
Proof.
  intros [Hf Hc Hl Hh Hd He] [Hok Hcap Hroom Hflow Ht]. split; cbn;
    rewrite ?Hf, ?Hc, ?Hh; try done.
  apply timely_mono; unfold monitor_num_used_bytes; by rewrite ?Hd, ?Hh, ?Hf, ?He.
Qed.

(** Moving the thread needs only the timing. *)
Lemma move_ok w p : timely (w <| pc := p |>) -> world_ok w -> world_ok (w <| pc := p |>).
Proof. intros Ht [? ? ? ? _]. by split. Qed.

Section Invariant.

Context (scale : list Z -> list Z).
Context (scale_length : forall l, length (scale l) = length l).

(** Unfold the timing at a known place of the thread. *)
Ltac at_pc := unfold timely; cbn -[Z.rem]; try match goal with H : pc _ = _ |- _ => rewrite H end.

Lemma step_frame_ok w regs' set_irq' buf :
  world_ok w -> pc w = Frame -> zlen buf = sizeof_frame_buf ->
  let d := (apu w) <| regs := regs' |> <| set_irq := set_irq' |> <| frame_buf := buf |> in
  exists d', se_frame scale d = Ok d' /\
    world_ok (w <| apu := d' |> <| pc := Top |>
                <| pushed := pushed w ++ (if Z.rem (ep_frame_div d + 1) 8 =? 0 then scale buf else []) |>).
Proof using scale_length.
  intros [Hf Hc Hr Hflow Ht] Hpc Hbuf d. unfold timely in Ht. rewrite Hpc in Ht.
  unfold on_eighth, below_high in Ht.
  assert (Hnext : Z.rem (ep_frame_div d + 1) 8 = 0 -> Z.rem (ep_frame_div (apu w)) 8 <> 0).
  { rewrite !Z.rem_divide by lia. change (ep_frame_div d) with (ep_frame_div (apu w)). intros [k Hk] [j Hj]. lia. }
  destruct (se_frame_spec scale d) as (d' & Hrun & Hf' & Hcont & Hcap & Hcb & Hlow & Hhigh & Hex & Hsame & Hdiv).
  { exact Hf. }
  { cbn. rewrite scale_length. done. }
  { intros Hp%Z.eqb_eq. specialize (Hnext Hp). change (monitor_num_used_bytes d) with (monitor_num_used_bytes (apu w)).
    change (fifo (d)) with (fifo (apu w)). destruct Ht as [Ht | [_ Ht]]; [lia | done]. }
  exists d'. split; [done |]. split; cbn -[Z.rem].
  - done.
  - rewrite Hcb. exact Hc.
  - rewrite Hhigh, Hcap. exact Hr.
  - change (ep_frame_div (apu w)) with (ep_frame_div d). rewrite Hcont, app_assoc. change (fifo d) with (fifo (apu w)).
    by rewrite <- Hflow.
  - unfold timely, on_eighth, below_high. cbn -[Z.rem]. rewrite Hdiv, frame_div_rem, Hhigh, Hex.
    destruct (Z.eqb_spec (Z.rem (ep_frame_div d + 1) 8) 0) as [|Hn]; [by left | right].
    unfold monitor_num_used_bytes in *. rewrite Hsame by done. cbn. intuition.
Qed.

Lemma step_sink_ok w running stream avail d' out :
  world_ok w -> 0 <= avail <= monitor_num_used_bytes (apu w) ->
  monitor_sink_cb (apu w) running stream avail = Ok (d', out) ->
  world_ok (w <| apu := d' |>
              <| played := played w ++ take (if running then Z.to_nat (Z.min (zlen stream) avail) else 0) out |>).
Proof using.
  intros Hw Ha Hrun. pose proof Hw as [Hf Hc Hr Hflow Ht]. destruct running.
  - destruct (monitor_sink_cb_spec (apu w) stream avail Hf Ha) as (f & Hcb & Hf' & Hcap & Hnum & Hcont).
    assert (Hlen := length_contents _ Hf). unfold monitor_num_used_bytes, fifo8_num_used in Ha.
    rewrite Hrun in Hcb. injection Hcb as -> ->. split; cbn.
    + done.
    + done.
    + by rewrite Hcap.
    + rewrite take_app_length' by (rewrite length_take; lia).
      by rewrite Hcont, <- app_assoc, take_drop.
    + apply (timely_mono w); try done. unfold monitor_num_used_bytes, fifo8_num_used. cbn. lia.
  - injection Hrun as <- <-. rewrite take_0, app_nil_r. by destruct w.
Qed.

(** A step that only touches the rest of the unit, with the thread moving to [p]. *)
Lemma quiet_step_ok w d' p :
  world_ok w -> same_monitor (apu w) d' -> timely (w <| apu := d' |> <| pc := p |>) ->
  world_ok (w <| apu := d' |> <| pc := p |>).
Proof using. intros Hw Hs Ht. apply move_ok; [done |]. by apply same_monitor_ok. Qed.

(** The timing only reads what [same_monitor] keeps. *)
Lemma timely_same w d' p :
  same_monitor (apu w) d' -> timely (w <| pc := p |>) -> timely (w <| apu := d' |> <| pc := p |>).
Proof using.
  intros [Hf Hc Hl Hh Hd He] Ht. change (timely ((w <| pc := p |>) <| apu := d' |>)).
  apply timely_mono; cbn; try done.
  - unfold monitor_num_used_bytes. by rewrite Hf.
  - by rewrite He.
Qed.

Hint Resolve timely_same quiet_step_ok move_ok same_monitor_ok : apu.

Theorem step_ok w w' : world_ok w -> step scale w w' -> world_ok w'.
Proof using scale_length.
  intros Hw Hs. pose proof (ok_timely w Hw) as Ht. pose proof (ok_capacity w Hw) as Hc.
  destruct Hs as [Hpc d d'|Hpc|Hpc|Hpc|Hpc|start_us Hpc|queued start_us Hpc|queued start_us Hpc
    |queued start_us now_us Hpc|regs' set_irq' buf d' Hpc Hbuf d Hrun|addr val|regs' set_irq'|Hpc|Hpc
    |running stream avail d' out Ha Hrun|]; unfold timely in Ht; try rewrite Hpc in Ht.
  - assert (Hsame : same_monitor (apu w) d') by (unfold d', d; by_cases_same).
    destruct (exiting d) eqn:He; unfold d in He; [apply move_ok; [by at_pc | done] |].
    apply quiet_step_ok; [done.. |]. apply timely_same; [done |].
    destruct Ht as [|[|]]; [| |congruence]; at_pc; destruct (set_irq _); auto.
  - apply quiet_step_ok; [done | auto with apu |]. apply timely_same; [auto with apu | done].
  - apply quiet_step_ok; [done | by split |]. by apply timely_same; [split |].
  - apply move_ok; [| done]. at_pc. by destruct (thread_idle _).
  - apply move_ok; [| done]. at_pc. tauto.
  - apply move_ok; [| done]. at_pc. unfold throttle_skipped.
    destruct (Z.leb_spec (fifo_capacity_bytes (apu w)) 0); [lia |]. rewrite orb_false_r.
    destruct (Z.eqb_spec (Z.rem (ep_frame_div (apu w)) 8) 0); cbn -[Z.rem]; unfold on_eighth in *; intuition lia.
  - unfold throttle_draining. destruct (exiting (apu w)) eqn:He; cbn [negb andb].
    + apply quiet_step_ok; [auto with apu.. |]. apply timely_same; [auto with apu |]. at_pc. tauto.
    + destruct (Z.geb_spec queued (queued_bytes_high (apu w))); [apply move_ok; [by at_pc | done] |].
      apply quiet_step_ok; [auto with apu.. |]. apply timely_same; [auto with apu |]. at_pc.
      unfold below_high. intuition lia.
  - destruct (exiting (apu w)) eqn:He.
    + apply quiet_step_ok; [auto with apu.. |]. apply timely_same; [auto with apu |]. at_pc. tauto.
    + apply move_ok; [| done]. at_pc. intuition lia.
  - destruct (throttle_pacing _ _ _); [done |].
    apply quiet_step_ok; [auto with apu.. |]. apply timely_same; [auto with apu |]. at_pc. tauto.
  - destruct (step_frame_ok w regs' set_irq' buf Hw Hpc Hbuf) as (d2 & Hrun2 & Hok).
    fold d in Hrun2, Hok. rewrite Hrun in Hrun2. injection Hrun2 as <-. exact Hok.
  - apply same_monitor_ok; [auto with apu | done].
  - apply same_monitor_ok; [by split | done].
  - apply same_monitor_ok; [auto with apu | done].
  - destruct Hw as [? ? ? ? Hti]. split; try done. by apply timely_restart.
  - by apply (step_sink_ok w running stream avail).
  - destruct Hw as [? ? ? ? Hti]. split; try done. by apply timely_mono.
Qed.

End Invariant.

Lemma getenv_int_clamped_range parsed lo hi fallback :
  lo <= fallback <= hi -> lo <= getenv_int_clamped parsed lo hi fallback <= hi.
Proof.
  intros H. unfold getenv_int_clamped. destruct parsed as [v|]; [|done].
  destruct (Z.ltb_spec v lo); [lia |]. destruct (Z.gtb_spec v hi); lia.
Qed.

Lemma monitor_config_range android frames_env samples_env :
  3 <= (monitor_config android frames_env samples_env).1 <= 128.
Proof. destruct android; cbn; [apply getenv_int_clamped_range |]; lia. Qed.

(** The marks leave room for a frame above the high one. *)
Lemma monitor_init_ok d fifo_frames audio_samples samples mem :
  on_eighth d -> 3 <= fifo_frames <= 128 -> zlen mem = fifo_frames * sizeof_frame_buf ->
  world_ok (mkWorld (monitor_init d fifo_frames audio_samples samples mem) Top [] []).
Proof.
  intros Hd Hr Hm. destruct (fifo8_create_contents mem (fifo_frames * sizeof_frame_buf)) as [Hf Hc]; [done | lia |].
  unfold monitor_init. destruct (samples * 2 * 2 <=? 0); split; cbn; try done; try lia; by left.
Qed.

Lemma reachable_ok scale w0 w :
  (forall l, length (scale l) = length l) -> world_ok w0 -> reachable scale w0 w -> world_ok w.
Proof. intros Hs H0. induction 1 as [|w w' _ IH Hstep]; [done |]. by apply (step_ok scale Hs w). Qed.

(** C22: The monitor FIFO never overflows and loses nothing. However the frame
    thread, the virtual CPU, resets, the audio callback and the exit request
    interleave, for every environment and audio device, a frame always fits when
    the thread comes to push it, so the assertion in [se_frame] holds; the callback
    always completes, playing the oldest bytes followed by silence; and what was
    pushed is what was played followed by what the FIFO holds. *)
Theorem monitor_never_overflows scale d android frames_env samples_env samples mem w :
  (forall l, length (scale l) = length l) -> ep_frame_div d = 0 ->
  zlen mem = (monitor_config android frames_env samples_env).1 * sizeof_frame_buf ->
  reachable scale (power_on d android frames_env samples_env samples mem) w ->
  (pc w = Frame -> forall regs' set_irq' buf, zlen buf = sizeof_frame_buf ->
     exists d', se_frame scale ((apu w) <| regs := regs' |> <| set_irq := set_irq' |> <| frame_buf := buf |>) = Ok d') /\
  (forall stream avail, 0 <= avail <= monitor_num_used_bytes (apu w) ->
     let n := Z.min (zlen stream) avail in
     exists d', monitor_sink_cb (apu w) true stream avail =
       Ok (d', take (Z.to_nat n) (contents (fifo (apu w))) ++ replicate (Z.to_nat (zlen stream - n)) 0)) /\
  pushed w = played w ++ contents (fifo (apu w)).
Proof.
  intros Hs Hd Hm Hreach.
  assert (Hw : world_ok w).
  { apply (reachable_ok scale _ w Hs) in Hreach; [done |]. unfold power_on.
    pose proof (monitor_config_range android frames_env samples_env) as Hr.
    destruct (monitor_config android frames_env samples_env) as [fr sa]. cbn in Hr, Hm.
    apply monitor_init_ok; [unfold on_eighth; by rewrite Hd | done | done]. }
  split; [| split; [| apply Hw]].
  - intros Hpc regs' set_irq' buf Hbuf.
    destruct (step_frame_ok scale Hs w regs' set_irq' buf Hw Hpc Hbuf) as (d' & Hrun & _). by exists d'.
  - intros stream avail Ha n.
    destruct (monitor_sink_cb_spec (apu w) stream avail (ok_fifo w Hw) Ha) as (f & Hrun & _). by eexists.
Qed.

(** A unit as allocated. *)
Definition apu_zero : MCPXAPUState :=
  mkAPU false false ∅ 0 0 0 (replicate 1024 0) (mkFifo8 [] 0 0 0) 0 0 0 0 false [].

(** The guest turns the unit on; the thread passes its tests and comes to the first
    frame. *)
Lemma monitor_never_overflows_witness :
  exists w, reachable id (power_on apu_zero false None None 512 (replicate 3072 0)) w /\ pc w = Frame /\
    (exists d', se_frame id ((apu w) <| regs := ∅ |> <| set_irq := false |> <| frame_buf := replicate 1024 7 |>) = Ok d') /\
    pushed w = played w ++ contents (fifo (apu w)).
Proof.
  set (w0 := power_on apu_zero false None None 512 (replicate 3072 0)).
  pose proof (reach_start id w0) as R0.
  eassert (R1 : reachable id w0 _) by (eapply reach_step; [exact R0 | apply (step_mmio id _ NV_PAPU_SECTL 0x8)]).
  eassert (R2 : reachable id w0 _) by (eapply reach_step; [exact R1 | apply step_top; exact eq_refl]).
  eassert (R3 : reachable id w0 _) by (eapply reach_step; [exact R2 | apply step_recheck; exact eq_refl]).
  eassert (R4 : reachable id w0 _) by (eapply reach_step; [exact R3 | apply (step_throttle id _ 100); exact eq_refl]).
  eassert (R5 : reachable id w0 _) by (eapply reach_step; [exact R4 | apply (step_drain id _ 0 100); exact eq_refl]).
  eassert (R6 : reachable id w0 _) by (eapply reach_step; [exact R5 | apply (step_pace id _ 0 100 200); exact eq_refl]).
  eexists. split; [exact R6 | split; [reflexivity |]].
  destruct (monitor_never_overflows id apu_zero false None None 512 (replicate 3072 0) _
    (fun l => eq_refl) eq_refl eq_refl R6) as (Hframe & _ & Hflow).
  split; [| exact Hflow]. apply Hframe; reflexivity.
Defined.

(** ** Surprises *)

(** A halted front end raises the trap interrupt: the masks of the two modes
    overlap. *)
Example halted_front_end_traps :
  let d := apu_zero <| regs := rset (rset ∅ NV_PAPU_FECTL NV_PAPU_FECTL_FEMETHMODE_HALTED) NV_PAPU_IEN 0x11 |> in
  irq (update_irq d) = true /\ flag (rget (regs (update_irq d)) NV_PAPU_ISTS) NV_PAPU_ISTS_FETINTSTS = true.
Proof. vm_compute. done. Qed.

(** The frame counter is a signed [int] that only a write to [EPRST] resets. At 1500
    frames a second it wraps after 16 days; from then on the tap of the mixing buffer
    writes before the start of the frame buffer. *)
Example frame_counter_wraps :
  let d := (apu (power_on apu_zero false None None 512 (replicate 3072 0))) <| ep_frame_div := 2 ^ 31 - 1 |> in
  let zero : Z -> Z := fun _ => 0 in
  (d ← monitor_tap d zero; Ok (zlen (frame_buf d))) = Ok 1024 /\
  (d ← se_frame id d; d ← se_frame id d; Ok (ep_frame_div d)) = Ok (- 2 ^ 31 + 1) /\
  (d ← se_frame id d; d ← se_frame id d; monitor_tap d zero) = Undef.
Proof. vm_compute. done. Qed.
