(* ===== verification/Adpcm.v ===== *)
(** * The ADPCM decoder (hw/xbox/mcpx/apu/vp/adpcm.h)

    [adpcm_decode_block] decodes one block of 4-bit ADPCM, one or two channels
    interleaved by words, into interleaved 16-bit samples. The theorem relates its
    pointer arithmetic to a decoder that runs each channel's nibbles through the
    predictor on its own, and says exactly how much room the output needs. *)

From stdpp Require Import base numbers list.
From Stdlib Require Import ZArith Lia.
From S2P Require Import Prelude.

Definition step_table : list Z :=
  [7; 8; 9; 10; 11; 12; 13; 14;
   16; 17; 19; 21; 23; 25; 28; 31;
   34; 37; 41; 45; 50; 55; 60; 66;
   73; 80; 88; 97; 107; 118; 130; 143;
   157; 173; 190; 209; 230; 253; 279; 307;
   337; 371; 408; 449; 494; 544; 598; 658;
   724; 796; 876; 963; 1060; 1166; 1282; 1411;
   1552; 1707; 1878; 2066; 2272; 2499; 2749; 3024;
   3327; 3660; 4026; 4428; 4871; 5358; 5894; 6484;
   7132; 7845; 8630; 9493; 10442; 11487; 12635; 13899;
   15289; 16818; 18500; 20350; 22385; 24623; 27086; 29794;
   32767].

Definition index_table : list Z := [-1; -1; -1; -1; 2; 4; 6; 8].

Definition CLIP (data min max : Z) : Z := if data >? max then max else if data <? min then min else data.

(** One nibble: the predictor [pcm] and the step index [ix] before and after. *)
Definition decode_nibble (p : Z * Z) (nib : Z) : outcome (Z * Z) :=
  let '(pcm, ix) := p in
  step ← rd step_table ix;
  let delta := step ≫ 3 in
  let delta := if flag nib 1 then delta + (step ≫ 2) else delta in
  let delta := if flag nib 2 then delta + (step ≫ 1) else delta in
  let delta := if flag nib 4 then delta + step else delta in
  let delta := if flag nib 8 then - delta else delta in
  let pcm := pcm + delta in
  d ← rd index_table (nib .& 0x7);
  let ix := ix + d in
  let ix := CLIP ix 0 88 in
  let pcm := CLIP pcm (-32768) 32767 in
  Ok (pcm, ix).

(** The predictors of the channels, the output and the position in the input. *)
Record decoder := mkDecoder { preds : list (Z * Z); outbuf : list Z; inpos : Z }.

#[export] Instance eta_decoder : Eta decoder := fun s => mkDecoder (preds s) (outbuf s) (inpos s).

(** The header of one channel; the predictors become [None] where the function
    returns 0. There are two places for predictors. *)
Definition read_header (inbuf : list Z) (ch : Z) (st : list Z * option (list (Z * Z)))
    : outcome (list Z * option (list (Z * Z))) :=
  match st with
  | (out, None) => Ok (out, None)
  | (out, Some ps) =>
      b0 ← rd inbuf (4 * ch);
      b1 ← rd inbuf (4 * ch + 1);
      b2 ← rd inbuf (4 * ch + 2);
      b3 ← rd inbuf (4 * ch + 3);
      let pcm := sext 16 (b0 .| (b1 ≪ 8)) in
      let ix := sext 8 b2 in
      if 2 <=? ch then Undef else
      out ← wr out ch pcm;
      if (ix <? 0) || (ix >? 88) || negb (b3 =? 0) then Ok (out, None) else Ok (out, Some (ps ++ [(pcm, ix)]))
  end.

Definition read_headers (out inbuf : list Z) (channels : Z) : outcome (list Z * option (list (Z * Z))) :=
  mfor (seqZ 0 channels) (read_header inbuf) (out, Some []).

(** One byte: two samples, [at_] being where [outbuf] points. *)
Definition decode_byte (inbuf : list Z) (channels at_ ch i : Z) (s : decoder) : outcome decoder :=
  b ← rd inbuf (inpos s);
  p ← rd (preds s) ch;
  p ← decode_nibble p (b .& 0xF);
  out ← wr (outbuf s) (at_ + i * 2 * channels) p.1;
  p ← decode_nibble p (b ≫ 4);
  out ← wr out (at_ + (i * 2 + 1) * channels) p.1;
  ps ← wr (preds s) ch p;
  Ok (mkDecoder ps out (inpos s + 1)).

(** Chunk number [c]: four bytes of each channel. *)
Definition decode_chunk (inbuf : list Z) (channels c : Z) (s : decoder) : outcome decoder :=
  mfor (seqZ 0 channels) (fun ch s =>
    mfor (seqZ 0 4) (decode_byte inbuf channels (channels + c * (channels * 8) + ch) ch) s) s.

(** The number of samples per channel, and the output. *)
Definition adpcm_decode_block (out inbuf : list Z) (inbufsize channels : Z) : outcome (Z * list Z) :=
  if inbufsize <? channels * 4 then Ok (0, out) else
  '(out, ps) ← read_headers out inbuf channels;
  match ps with
  | None => Ok (0, out)
  | Some ps =>
      let inbufsize := inbufsize - 4 * channels in
      let chunks := inbufsize / (channels * 4) in
      s ← mfor (seqZ 0 chunks) (decode_chunk inbuf channels) (mkDecoder ps out (4 * channels));
      Ok (1 + chunks * 8, outbuf s)
  end.

(** ** The format *)

(** The predictor as a total function, on an index in range. *)
Definition predict (p : Z * Z) (nib : Z) : Z * Z :=
  let step := nthZ step_table p.2 in
  let delta := (step ≫ 3) + (if flag nib 1 then step ≫ 2 else 0) + (if flag nib 2 then step ≫ 1 else 0) +
               (if flag nib 4 then step else 0) in
  (CLIP (p.1 + (if flag nib 8 then - delta else delta)) (-32768) 32767, CLIP (p.2 + nthZ index_table (nib .& 7)) 0 88).

Section Format.

(** A block of [channels] channels: after a header of four bytes for each, the
    channels take turns with four bytes. *)
Context (inbuf : list Z) (channels : Z).

(** Byte number [k] of the data of channel [ch]. *)
Definition data_byte (ch k : Z) : Z := nthZ inbuf (4 * channels + (k / 4) * (4 * channels) + ch * 4 + k mod 4).

(** Nibble number [n], the low one of a byte first. *)
Definition nibble (ch n : Z) : Z :=
  if n mod 2 =? 0 then data_byte ch (n / 2) .& 0xF else data_byte ch (n / 2) ≫ 4.

Definition header (ch : Z) : Z * Z :=
  (sext 16 (nthZ inbuf (4 * ch) .| (nthZ inbuf (4 * ch + 1) ≪ 8)), sext 8 (nthZ inbuf (4 * ch + 2))).

Definition header_ok (ch : Z) : bool :=
  (0 <=? (header ch).2) && ((header ch).2 <=? 88) && (nthZ inbuf (4 * ch + 3) =? 0).

(** The predictor of a channel after [n] nibbles, and its sample number [n]. *)
Fixpoint pred_after (ch : Z) (n : nat) : Z * Z :=
  match n with
  | O => header ch
  | S n => predict (pred_after ch n) (nibble ch (Z.of_nat n))
  end.

Definition sample (ch n : Z) : Z := (pred_after ch (Z.to_nat n)).1.

End Format.

(** ** The decoder decodes the format *)

Lemma CLIP_range x lo hi : lo <= hi -> lo <= CLIP x lo hi <= hi.
Proof. intros H. unfold CLIP. destruct (Z.gtb_spec x hi); [lia |]. destruct (Z.ltb_spec x lo); lia. Qed.

Lemma predict_range p nib : -32768 <= (predict p nib).1 <= 32767 /\ 0 <= (predict p nib).2 <= 88.
Proof. split; apply CLIP_range; lia. Qed.

Lemma decode_nibble_predict p nib : 0 <= p.2 <= 88 -> decode_nibble p nib = Ok (predict p nib).
Proof.
  intros Hp. destruct p as [pcm ix]. cbn [fst snd] in *. unfold decode_nibble.
  rewrite (rd_nthZ step_table) by (change (zlen step_table) with 89; lia). cbn [mbind outcome_bind].
  assert (Hn : 0 <= nib .& 7 < 8) by (change 7 with (Z.ones 3); rewrite Z.land_ones by lia; apply Z.mod_pos_bound; lia).
  rewrite (rd_nthZ index_table) by (change (zlen index_table) with 8; lia). cbn [mbind outcome_bind]. unfold predict. cbn [fst snd].
  do 2 f_equal. f_equal. destruct (flag nib 8), (flag nib 4), (flag nib 2), (flag nib 1); lia.
Qed.

Lemma header_range inbuf ch : -32768 <= (header inbuf ch).1 <= 32767.
Proof.
  unfold header. cbn [fst]. set (v := _ .| _). pose proof (Z.mod_pos_bound v (2 ^ 16) ltac:(lia)).
  unfold sext. change (2 ^ (16 - 1)) with 32768. change (2 ^ 16) with 65536 in *. zcases; lia.
Qed.

Lemma pred_after_range inbuf channels ch n : header_ok inbuf ch = true ->
  -32768 <= (pred_after inbuf channels ch n).1 <= 32767 /\ 0 <= (pred_after inbuf channels ch n).2 <= 88.
Proof.
  intros Hh. destruct n as [|n]; [| apply predict_range]. unfold header_ok in Hh.
  rewrite !andb_true_iff, !Z.leb_le in Hh. split; [apply header_range | apply Hh].
Qed.

Section Decode.

Context (inbuf out0 : list Z) (channels : Z).
Context (Hch : 0 < channels <= 2) (Hhdr : forall ch, 0 <= ch < channels -> header_ok inbuf ch = true).

(** [cnt x] nibbles of channel [x] are decoded, the input is at [pos]. *)
Record decoded (cnt : Z -> Z) (pos : Z) (s : decoder) : Prop := {
  de_pos : inpos s = pos;
  de_preds : forall x, 0 <= x < channels ->
    preds s !! Z.to_nat x = Some (pred_after inbuf channels x (Z.to_nat (cnt x)));
  de_plen : zlen (preds s) = channels;
  de_len : zlen (outbuf s) = zlen out0;
  de_out : forall i, 0 <= i < zlen out0 ->
    nthZ (outbuf s) i = if i / channels <=? cnt (i mod channels) then sample inbuf channels (i mod channels) (i / channels)
                        else nthZ out0 i
}.

Lemma decoded_ext cnt cnt' pos s : (forall x, 0 <= x < channels -> cnt' x = cnt x) ->
  decoded cnt pos s -> decoded cnt' pos s.
Proof using Hch.
  intros E [H1 H2 H3 H4 H5]. split; try done.
  - intros x Hx. by rewrite E, H2.
  - intros i Hi. rewrite E by (apply Z.mod_pos_bound; lia). by apply H5.
Qed.

(** The position of a sample determines its number and channel. *)
Lemma sample_pos n x i : 0 <= x < channels -> i = channels * n + x <-> i / channels = n /\ i mod channels = x.
Proof using Hch.
  intros Hx. split.
  - intros ->. rewrite Z.mul_comm. split.
    + rewrite Z.div_add_l by lia. rewrite Z.div_small by lia. lia.
    + rewrite Z.add_comm, Z.mod_add by lia. apply Z.mod_small. lia.
  - intros [<- <-]. apply Z.div_mod. lia.
Qed.

(** Two samples more of channel [ch]. *)
Lemma write_two cnt out ch n p1 p2 :
  0 <= ch < channels -> 0 <= n -> cnt ch = n ->
  p1 = sample inbuf channels ch (n + 1) -> p2 = sample inbuf channels ch (n + 2) ->
  channels * (n + 2) + ch < zlen out0 -> zlen out = zlen out0 ->
  (forall i, 0 <= i < zlen out0 ->
     nthZ out i = if i / channels <=? cnt (i mod channels) then sample inbuf channels (i mod channels) (i / channels)
                  else nthZ out0 i) ->
  forall i, 0 <= i < zlen out0 ->
    nthZ (<[Z.to_nat (channels * (n + 2) + ch) := p2]> (<[Z.to_nat (channels * (n + 1) + ch) := p1]> out)) i =
      if i / channels <=? (if i mod channels =? ch then n + 2 else cnt (i mod channels))
      then sample inbuf channels (i mod channels) (i / channels) else nthZ out0 i.
Proof using Hch.
  intros Hc Hn Hcnt -> -> Hroom Hlen Hout i Hi.
  rewrite nthZ_insert by (rewrite length_insert, Hlen; nia). rewrite nthZ_insert by (rewrite Hlen; nia).
  rewrite Hout by done. pose proof (sample_pos (n + 2) ch i Hc) as E2. pose proof (sample_pos (n + 1) ch i Hc) as E1.
  destruct (Z.eqb_spec i (channels * (n + 2) + ch)) as [->|N2].
  { destruct (proj1 E2 eq_refl) as [-> ->]. rewrite Z.eqb_refl. destruct (Z.leb_spec (n + 2) (n + 2)); [done | lia]. }
  destruct (Z.eqb_spec i (channels * (n + 1) + ch)) as [->|N1].
  { destruct (proj1 E1 eq_refl) as [-> ->]. rewrite Z.eqb_refl. destruct (Z.leb_spec (n + 1) (n + 2)); [done | lia]. }
  destruct (Z.eqb_spec (i mod channels) ch) as [E|]; [| done]. rewrite E, Hcnt.
  destruct (Z.leb_spec (i / channels) n), (Z.leb_spec (i / channels) (n + 2)); lia || done.
Qed.

Lemma decode_byte_spec cnt s ch i n at_ :
  let pos := 4 * channels + (n / 2 / 4) * (4 * channels) + ch * 4 + (n / 2) mod 4 in
  decoded cnt pos s -> 0 <= ch < channels -> 0 <= n -> n mod 2 = 0 -> cnt ch = n ->
  at_ + i * 2 * channels = channels * (n + 1) + ch ->
  0 <= pos < zlen inbuf -> channels * (n + 2) + ch < zlen out0 ->
  exists s', decode_byte inbuf channels at_ ch i s = Ok s' /\
    decoded (fun x => if x =? ch then n + 2 else cnt x) (pos + 1) s'.
Proof using Hch Hhdr.
  intros pos [Hp Hps Hpl Hl Hout] Hc Hn Hev Hcnt Hat Hpos Hroom. unfold decode_byte.
  rewrite Hp, (rd_nthZ inbuf) by done. cbn [mbind outcome_bind].
  assert (Hrd : rd (preds s) ch = Ok (pred_after inbuf channels ch (Z.to_nat n)))
    by (unfold rd; destruct (Z.ltb_spec ch 0); [lia |]; by rewrite Hps, Hcnt).
  rewrite Hrd. cbn [mbind outcome_bind].
  assert (N1 : nibble inbuf channels ch n = nthZ inbuf pos .& 0xF)
    by (unfold nibble, data_byte; rewrite Hev; reflexivity).
  assert (Hd2 : (n + 1) / 2 = n / 2 /\ (n + 1) mod 2 = 1).
  { pose proof (Z.div_mod n 2 ltac:(lia)). split; [symmetry; apply (Z.div_unique _ _ _ 1) | symmetry; apply (Z.mod_unique _ _ (n / 2))]; lia. }
  assert (N2 : nibble inbuf channels ch (n + 1) = nthZ inbuf pos ≫ 4)
    by (unfold nibble, data_byte; destruct Hd2 as [-> ->]; reflexivity).
  assert (S1 : pred_after inbuf channels ch (Z.to_nat (n + 1)) = predict (pred_after inbuf channels ch (Z.to_nat n)) (nthZ inbuf pos .& 0xF))
    by (replace (Z.to_nat (n + 1)) with (S (Z.to_nat n)) by lia; cbn [pred_after]; by rewrite Z2Nat.id, N1 by lia).
  assert (S2 : pred_after inbuf channels ch (Z.to_nat (n + 2)) = predict (pred_after inbuf channels ch (Z.to_nat (n + 1))) (nthZ inbuf pos ≫ 4))
    by (replace (Z.to_nat (n + 2)) with (S (Z.to_nat (n + 1))) by lia; cbn [pred_after]; by rewrite Z2Nat.id, N2 by lia).
  rewrite decode_nibble_predict by (by apply pred_after_range, Hhdr). rewrite <- S1. cbn [mbind outcome_bind].
  rewrite Hat, (wr_ok (outbuf s)) by nia. cbn [mbind outcome_bind].
  rewrite decode_nibble_predict by (by apply pred_after_range, Hhdr). rewrite <- S2. cbn [mbind outcome_bind].
  replace (at_ + (i * 2 + 1) * channels) with (channels * (n + 2) + ch) by lia.
  rewrite (wr_ok (<[_ := _]> (outbuf s))) by (rewrite length_insert; nia). cbn [mbind outcome_bind].
  rewrite (wr_ok (preds s)) by lia. cbn [mbind outcome_bind].
  eexists. split; [reflexivity |]. split; cbn [inpos preds outbuf].
  - done.
  - intros x Hx. destruct (Z.eqb_spec x ch) as [->|].
    + by rewrite list_lookup_insert_eq by lia.
    + rewrite list_lookup_insert_ne by lia. by apply Hps.
  - by rewrite length_insert.
  - by rewrite !length_insert.
  - intros j Hj. by apply (write_two cnt).
Qed.

(** The chunk loop decodes eight nibbles of every channel. *)
Lemma decode_channel_spec c s ch :
  let pos i := 4 * channels + c * (4 * channels) + ch * 4 + i in
  let cnt i x := 8 * c + (if x <? ch then 8 else if x =? ch then 2 * i else 0) in
  decoded (cnt 0) (pos 0) s -> 0 <= c -> 0 <= ch < channels ->
  4 * channels + (c + 1) * (4 * channels) <= zlen inbuf -> channels * (1 + 8 * (c + 1)) <= zlen out0 ->
  exists s', mfor (seqZ 0 4) (decode_byte inbuf channels (channels + c * (channels * 8) + ch) ch) s = Ok s' /\
    decoded (cnt 4) (pos 4) s'.
Proof using Hch Hhdr.
  intros pos cnt Hs Hc Hx Hin Hout. apply (mfor_seqZ (fun i s => decoded (cnt i) (pos i) s)); [done |].
  intros i t Hi Ht.
  assert (E : (8 * c + 2 * i) / 2 = 4 * c + i /\ (8 * c + 2 * i) mod 2 = 0).
  { split; [symmetry; apply (Z.div_unique _ _ _ 0) | symmetry; apply (Z.mod_unique _ _ (4 * c + i))]; lia. }
  assert (E4 : (4 * c + i) / 4 = c /\ (4 * c + i) mod 4 = i).
  { split; [symmetry; apply (Z.div_unique _ _ _ i) | symmetry; apply (Z.mod_unique _ _ c)]; lia. }
  assert (Hcnt : cnt i ch = 8 * c + 2 * i) by (unfold cnt; rewrite Z.ltb_irrefl, Z.eqb_refl; done).
  pose proof (decode_byte_spec (cnt i) t ch i (8 * c + 2 * i) (channels + c * (channels * 8) + ch)) as Hb.
  destruct E as [E1 E2], E4 as [E3 E4]. rewrite E1, E3, E4 in Hb.
  destruct (Hb Ht) as (t' & Hrun & Ht'); [done | lia | done | done | lia | nia | nia |].
  exists t'. split; [done |]. replace (pos (i + 1)) with (pos i + 1) by (unfold pos; lia).
  eapply decoded_ext; [| exact Ht']. intros x Hxr. unfold cnt. zcases; lia.
Qed.

Lemma decode_chunk_spec c s :
  decoded (fun _ => 8 * c) (4 * channels + c * (4 * channels)) s -> 0 <= c ->
  4 * channels + (c + 1) * (4 * channels) <= zlen inbuf -> channels * (1 + 8 * (c + 1)) <= zlen out0 ->
  exists s', decode_chunk inbuf channels c s = Ok s' /\
    decoded (fun _ => 8 * (c + 1)) (4 * channels + (c + 1) * (4 * channels)) s'.
Proof using Hch Hhdr.
  intros Hs Hc Hin Hout. unfold decode_chunk.
  destruct (mfor_seqZ (fun ch s => decoded (fun x => 8 * c + (if x <? ch then 8 else 0)) (4 * channels + c * (4 * channels) + ch * 4) s)
    0 channels (fun ch s => mfor (seqZ 0 4) (decode_byte inbuf channels (channels + c * (channels * 8) + ch) ch) s) s)
    as (s' & Hrun & Hs').
  - rewrite Z.add_0_r. eapply decoded_ext; [| exact Hs]. intros x Hx. cbn beta. zcases; lia.
  - intros ch t Hx Ht. destruct (decode_channel_spec c t ch) as (t' & Hrun & Ht'); [| done | lia | done | done |].
    + rewrite Z.add_0_r. eapply decoded_ext; [| exact Ht]. intros x Hxr. cbn beta. zcases; lia.
    + exists t'. split; [done |]. replace ((ch + 1) * 4) with (ch * 4 + 4) by lia. rewrite Z.add_assoc.
      eapply decoded_ext; [| exact Ht']. intros x Hxr. cbn beta. zcases; lia.
  - exists s'. split; [done |]. replace (0 + Z.max 0 channels) with channels in Hs' by lia.
    replace (4 * channels + (c + 1) * (4 * channels)) with (4 * channels + c * (4 * channels) + channels * 4) by lia.
    eapply decoded_ext; [| exact Hs']. intros x Hxr. cbn beta. zcases; lia.
Qed.

Lemma header_passes ch : 0 <= ch < channels ->
  ((header inbuf ch).2 <? 0) || ((header inbuf ch).2 >? 88) || negb (nthZ inbuf (4 * ch + 3) =? 0) = false.
Proof using Hch Hhdr.
  intros Hx. specialize (Hhdr ch Hx). unfold header_ok in Hhdr. rewrite !andb_true_iff, !Z.leb_le in Hhdr.
  destruct Hhdr as [[H1 H2] ->]. destruct (Z.ltb_spec (header inbuf ch).2 0), (Z.gtb_spec (header inbuf ch).2 88); lia || done.
Qed.

(** The headers of the channels below [ch] have been read. *)
Definition headers_read (ch : Z) (st : list Z * option (list (Z * Z))) : Prop :=
  exists ps, st.2 = Some ps /\ zlen ps = ch /\
    (forall x, 0 <= x < ch -> ps !! Z.to_nat x = Some (header inbuf x)) /\
    zlen st.1 = zlen out0 /\ (forall i, nthZ st.1 i = if (0 <=? i) && (i <? ch) then (header inbuf i).1 else nthZ out0 i).

Lemma read_header_spec ch st : headers_read ch st -> 0 <= ch < channels -> 4 * channels <= zlen inbuf ->
  if ch <? zlen out0 then exists st', read_header inbuf ch st = Ok st' /\ headers_read (ch + 1) st'
  else read_header inbuf ch st = Undef.
Proof using Hch Hhdr.
  intros (ps & Est & Hpl & Hps & Hl & Hout) Hx Hin. destruct st as [out st]. cbn [fst snd] in *. subst st.
  unfold read_header. rewrite !rd_nthZ by lia. cbn [mbind outcome_bind]. destruct (Z.leb_spec 2 ch); [lia |].
  destruct (Z.ltb_spec ch (zlen out0)); [| by rewrite wr_undef by lia].
  rewrite wr_ok by lia. cbn [mbind outcome_bind].
  pose proof (header_passes ch) as Hh. unfold header in Hh at 1 2. cbn [fst snd] in Hh. rewrite Hh by lia.
  eexists. split; [reflexivity |]. exists (ps ++ [header inbuf ch]). cbn [fst snd].
  split; [done | split; [rewrite length_app; cbn; lia | split; [| split; [by rewrite length_insert |]]]].
  - intros x Hxr. destruct (decide (x = ch)) as [->|].
    + rewrite lookup_app_r by lia. by replace (Z.to_nat ch - length ps)%nat with 0%nat by lia.
    + rewrite lookup_app_l by lia. apply Hps. lia.
  - intros i. rewrite nthZ_insert by lia. rewrite Hout. destruct (Z.eqb_spec i ch) as [->|]; zcases; lia || done.
Qed.

Lemma headers_read_start : headers_read 0 (out0, Some []).
Proof using.
  exists []. split; [done | split; [done | split; [lia | split; [done |]]]]. intros i. cbn. zcases; done || lia.
Qed.

Lemma read_headers_prefix n : 0 <= n <= channels -> n <= zlen out0 -> 4 * channels <= zlen inbuf ->
  exists st, mfor (seqZ 0 n) (read_header inbuf) (out0, Some []) = Ok st /\ headers_read n st.
Proof using Hch Hhdr.
  intros Hn Hroom Hin. destruct (mfor_seqZ headers_read 0 n (read_header inbuf) (out0, Some [])) as (st & Hrun & Hst).
  - apply headers_read_start.
  - intros ch st Hx Hst. pose proof (read_header_spec ch st Hst) as Hr.
    destruct (Z.ltb_spec ch (zlen out0)); [apply Hr; lia | lia].
  - exists st. split; [done |]. by replace (0 + Z.max 0 n) with n in Hst by lia.
Qed.

Lemma read_headers_spec :
  4 * channels <= zlen inbuf -> channels <= zlen out0 ->
  exists out ps, read_headers out0 inbuf channels = Ok (out, Some ps) /\
    decoded (fun _ => 0) (4 * channels) (mkDecoder ps out (4 * channels)).
Proof using Hch Hhdr.
  intros Hin Hroom. destruct (read_headers_prefix channels) as ([out st] & Hrun & ps & Hst & Hpl & Hps & Hl & Hout); [lia.. |].
  cbn [fst snd] in *. subst st. exists out, ps. split; [exact Hrun |]. split; cbn [inpos preds outbuf]; try done.
  intros i Hi. rewrite Hout. destruct (Z.leb_spec 0 i); [| lia]. destruct (Z.ltb_spec i channels); cbn [andb].
  - by rewrite Z.mod_small, Z.div_small by lia.
  - assert (1 <= i / channels) by (apply Z.div_le_lower_bound; lia). destruct (Z.leb_spec (i / channels) 0); [lia | done].
Qed.

(** Without room for the headers, reading them runs over the end. *)
Lemma read_headers_overflow : 4 * channels <= zlen inbuf -> zlen out0 < channels -> read_headers out0 inbuf channels = Undef.
Proof using Hch Hhdr.
  intros Hin Hroom. unfold read_headers.
  assert (E : seqZ 0 channels = seqZ 0 (zlen out0) ++ zlen out0 :: seqZ (zlen out0 + 1) (channels - zlen out0 - 1)).
  { replace channels with (zlen out0 + (1 + (channels - zlen out0 - 1))) at 1 by lia. rewrite seqZ_app by lia. f_equal.
    rewrite Z.add_0_l, seqZ_app by lia. done. }
  destruct (read_headers_prefix (zlen out0)) as (st & Hrun & Hst); [lia.. |].
  rewrite E, mfor_app, Hrun. cbn [mbind outcome_bind mfor].
  pose proof (read_header_spec (zlen out0) st Hst) as Hr. rewrite Z.ltb_irrefl in Hr. rewrite Hr by lia. done.
Qed.

(** The number of samples per channel in a block of [size] bytes. *)
Definition samples_in (size : Z) : Z := 1 + (size - 4 * channels) / (channels * 4) * 8.

Lemma decode_loop size out ps :
  4 * channels <= size <= zlen inbuf -> samples_in size * channels <= zlen out0 ->
  decoded (fun _ => 0) (4 * channels) (mkDecoder ps out (4 * channels)) ->
  exists s, mfor (seqZ 0 ((size - 4 * channels) / (channels * 4))) (decode_chunk inbuf channels)
      (mkDecoder ps out (4 * channels)) = Ok s /\
    decoded (fun _ => samples_in size - 1) (4 * channels + (size - 4 * channels) / (channels * 4) * (4 * channels)) s.
Proof using Hch Hhdr.
  intros Hsize Hroom Hs. unfold samples_in in *. set (chunks := (size - 4 * channels) / (channels * 4)) in *.
  assert (H0 : 0 <= chunks) by (apply Z.div_pos; lia).
  assert (Hle : chunks * (channels * 4) <= size - 4 * channels)
    by (rewrite Z.mul_comm; apply Z.mul_div_le; lia).
  destruct (mfor_seqZ (fun c s => decoded (fun _ => 8 * c) (4 * channels + c * (4 * channels)) s) 0 chunks
    (decode_chunk inbuf channels) (mkDecoder ps out (4 * channels))) as (s & Hrun & Hs').
  - by rewrite Z.mul_0_l, Z.add_0_r.
  - intros c t Hc Ht. apply decode_chunk_spec; [done | lia | nia | nia].
  - exists s. split; [done |]. replace (0 + Z.max 0 chunks) with chunks in Hs' by lia.
    eapply decoded_ext; [| exact Hs']. intros x _. cbn beta. lia.
Qed.


(** ** Too little room *)

Lemma decode_byte_length at_ ch i s s' : decode_byte inbuf channels at_ ch i s = Ok s' ->
  zlen (outbuf s') = zlen (outbuf s) /\ at_ + (i * 2 + 1) * channels < zlen (outbuf s).
Proof using.
  unfold decode_byte. intros Hrun. inv_ok. subst s'. cbn [outbuf].
  repeat match goal with H : wr _ _ _ = Ok _ |- _ => apply wr_inv in H as [? ->] end.
  rewrite !length_insert in *. lia.
Qed.

Lemma decode_bytes_length at_ ch s s' : mfor (seqZ 0 4) (decode_byte inbuf channels at_ ch) s = Ok s' ->
  zlen (outbuf s') = zlen (outbuf s) /\ at_ + 7 * channels < zlen (outbuf s).
Proof using.
  intros Hrun. assert (Hk : forall x t t', decode_byte inbuf channels at_ ch x t = Ok t' -> zlen (outbuf t') = zlen (outbuf t))
    by (intros x t t' Hx; by apply decode_byte_length in Hx as [? _]).
  split; [by apply (mfor_keeps (fun t => zlen (outbuf t)) _ _ _ _ Hk Hrun) |].
  rewrite seqZ_snoc in Hrun by lia. apply mfor_snoc in Hrun as (s1 & Hl & Hx).
  apply (mfor_keeps (fun t => zlen (outbuf t)) _ _ _ _ Hk) in Hl. apply decode_byte_length in Hx as [_ Hx]. lia.
Qed.

Lemma decode_chunk_length c s s' : decode_chunk inbuf channels c s = Ok s' ->
  zlen (outbuf s') = zlen (outbuf s) /\ (1 + 8 * (c + 1)) * channels <= zlen (outbuf s).
Proof using Hch.
  unfold decode_chunk. intros Hrun. set (f := fun ch s => _) in Hrun.
  assert (Hk : forall x t t', f x t = Ok t' -> zlen (outbuf t') = zlen (outbuf t))
    by (intros x t t' Hx; by apply decode_bytes_length in Hx as [? _]).
  split; [by apply (mfor_keeps (fun t => zlen (outbuf t)) _ _ _ _ Hk Hrun) |].
  rewrite seqZ_snoc in Hrun by lia. apply mfor_snoc in Hrun as (s1 & Hl & Hx).
  apply (mfor_keeps (fun t => zlen (outbuf t)) _ _ _ _ Hk) in Hl. apply decode_bytes_length in Hx as [_ Hx]. lia.
Qed.

(** A block that is decoded has had room. *)
Lemma decoded_has_room size out ps s :
  0 <= (size - 4 * channels) / (channels * 4) -> channels <= zlen out ->
  mfor (seqZ 0 ((size - 4 * channels) / (channels * 4))) (decode_chunk inbuf channels) (mkDecoder ps out (4 * channels)) = Ok s ->
  samples_in size * channels <= zlen out.
Proof using Hch.
  unfold samples_in. set (n := _ / _). intros Hn Hroom Hrun. destruct (Z.eq_dec n 0) as [->|]; [lia |].
  rewrite seqZ_snoc in Hrun by lia. apply mfor_snoc in Hrun as (s1 & Hl & Hx).
  apply (mfor_keeps (fun t => zlen (outbuf t))) in Hl; [| intros x t t' Ht; by apply decode_chunk_length in Ht as [? _]].
  apply decode_chunk_length in Hx as [_ Hx]. cbn [outbuf] in Hl. rewrite Hl in Hx. lia.
Qed.

End Decode.

Lemma decode_block_fits inbuf out size channels :
  0 < channels <= 2 -> 4 * channels <= size <= zlen inbuf ->
  (forall ch, 0 <= ch < channels -> header_ok inbuf ch = true) ->
  let n := samples_in channels size in
  n * channels <= zlen out ->
  exists out', adpcm_decode_block out inbuf size channels = Ok (n, out') /\ zlen out' = zlen out /\
    (forall ch s, 0 <= ch < channels -> 0 <= s < n ->
       nthZ out' (s * channels + ch) = sample inbuf channels ch s /\ -32768 <= sample inbuf channels ch s <= 32767) /\
    (forall i, n * channels <= i < zlen out -> nthZ out' i = nthZ out i).
Proof.
  intros Hch Hsize Hhdr n Hroom. assert (H0 : 0 <= (size - 4 * channels) / (channels * 4)) by (apply Z.div_pos; lia).
  assert (Hn1 : 1 <= n) by (unfold n, samples_in; lia).
  unfold adpcm_decode_block. destruct (Z.ltb_spec size (channels * 4)); [lia |].
  destruct (read_headers_spec inbuf out channels Hch Hhdr) as (out1 & ps & -> & Hs); [lia | nia |].
  cbn [mbind outcome_bind].
  destruct (decode_loop inbuf out channels Hch Hhdr size out1 ps Hsize Hroom Hs) as (s & -> & [_ _ _ Hl Hout]).
  cbn [mbind outcome_bind]. exists (outbuf s). split; [done | split; [done | split]].
  - intros ch k Hc Hk. split; [| apply pred_after_range; by apply Hhdr]. rewrite Hout by nia.
    destruct (proj1 (sample_pos channels Hch k ch (k * channels + ch) Hc)) as [-> ->]; [lia |].
    fold n. destruct (Z.leb_spec k (n - 1)); [done | lia].
  - intros i Hi. rewrite Hout by nia. fold n.
    assert (n <= i / channels) by (apply Z.div_le_lower_bound; lia). destruct (Z.leb_spec (i / channels) (n - 1)); [lia | done].
Qed.

(** Headers and samples of a block depend on its own bytes only. *)
Lemma header_prefix l l' channels ch : (forall i, 0 <= i < 4 * channels -> nthZ l i = nthZ l' i) -> 0 <= ch < channels ->
  header l ch = header l' ch /\ header_ok l ch = header_ok l' ch.
Proof.
  intros Heq Hc. assert (header l ch = header l' ch) as E by (unfold header; by rewrite !Heq by lia).
  split; [done |]. unfold header_ok. by rewrite E, Heq by lia.
Qed.

Lemma sample_prefix l l' channels size ch n :
  (forall i, 0 <= i < size -> nthZ l i = nthZ l' i) -> 4 * channels <= size -> 0 <= ch < channels ->
  0 <= n < samples_in channels size -> sample l channels ch n = sample l' channels ch n.
Proof.
  intros Heq Hsz Hc Hn. unfold sample. f_equal.
  assert (Hk : (Z.to_nat n <= Z.to_nat (samples_in channels size - 1))%nat) by lia. revert Hk.
  generalize (Z.to_nat n). intros k. induction k as [|k IH]; intros Hk; cbn [pred_after].
  - apply (header_prefix l l' channels); [intros; apply Heq; lia | done].
  - rewrite IH by lia. f_equal. unfold samples_in in Hk.
    assert (0 <= (size - 4 * channels) / (channels * 4)) by (apply Z.div_pos; lia).
    assert (Hb : data_byte l channels ch (Z.of_nat k / 2) = data_byte l' channels ch (Z.of_nat k / 2)); [| unfold nibble; cbn beta; by rewrite !Hb].
    apply Heq. set (c := (size - 4 * channels) / (channels * 4)) in *.
    assert (Hm : channels * 4 * c <= size - 4 * channels) by (apply Z.mul_div_le; lia).
    assert (0 <= Z.of_nat k / 2 / 4 < c) by (rewrite Z.div_div by lia; split; [apply Z.div_pos | apply Z.div_lt_upper_bound]; lia).
    pose proof (Z.mod_pos_bound (Z.of_nat k / 2) 4). nia.
Qed.

(** C32: The decoder decodes the format. For a block with valid headers it returns
    the number of samples per channel and the interleaved samples of every channel,
    each decoded from the channel's own nibbles, leaving the rest of the output
    alone; every sample fits 16 bits. It does so exactly when the output has room
    for the samples of the block, and otherwise writes outside it. *)
Theorem adpcm_decodes inbuf out size channels :
  0 < channels <= 2 -> 4 * channels <= size <= zlen inbuf ->
  (forall ch, 0 <= ch < channels -> header_ok inbuf ch = true) ->
  let n := samples_in channels size in
  if n * channels <=? zlen out then
    exists out', adpcm_decode_block out inbuf size channels = Ok (n, out') /\ zlen out' = zlen out /\
      (forall ch s, 0 <= ch < channels -> 0 <= s < n ->
         nthZ out' (s * channels + ch) = sample inbuf channels ch s /\ -32768 <= sample inbuf channels ch s <= 32767) /\
      (forall i, n * channels <= i < zlen out -> nthZ out' i = nthZ out i)
  else forall r, adpcm_decode_block out inbuf size channels <> Ok r.
Proof.
  intros Hch Hsize Hhdr n. assert (H0 : 0 <= (size - 4 * channels) / (channels * 4)) by (apply Z.div_pos; lia).
  destruct (Z.leb_spec (n * channels) (zlen out)) as [Hroom|Hroom].
  - by apply decode_block_fits.
  - intros r Hrun. unfold adpcm_decode_block in Hrun. destruct (Z.ltb_spec size (channels * 4)); [lia |].
    destruct (Z.le_gt_cases channels (zlen out)) as [Hc|Hc].
    + destruct (read_headers_spec inbuf out channels Hch Hhdr) as (out1 & ps & Eh & [_ _ _ Hl _]); [lia | done |].
      rewrite Eh in Hrun. cbn [mbind outcome_bind outbuf] in *. apply bind_ok in Hrun as (s & Hs & _).
      apply decoded_has_room in Hs; [unfold n in Hroom; lia | done | done | lia].
    + rewrite read_headers_overflow in Hrun by (done || lia). discriminate Hrun.
Qed.

(** A block of 36 bytes has room for its 65 samples in a buffer of 130; a block of 72
    bytes in one channel does not. *)
Lemma adpcm_decodes_witness :
  let block : list Z := [0x10; 0; 5; 0] ++ seqZ 0 68 in
  (exists out', adpcm_decode_block (replicate 130 0) block 36 1 = Ok (65, out') /\ nthZ out' 0 = 16) /\
  forall r, adpcm_decode_block (replicate 130 0) block 72 1 <> Ok r.
Proof.
  intros block. assert (Hh : forall ch, 0 <= ch < 1 -> header_ok block ch = true)
    by (intros ch Hc; assert (ch = 0) as -> by lia; reflexivity).
  split.
  - pose proof (adpcm_decodes block (replicate 130 0) 36 1 ltac:(lia)) as H1.
    destruct H1 as (out' & Hrun & _ & Hs & _); [vm_compute; split; discriminate | done |]. exists out'. split; [exact Hrun |].
    destruct (Hs 0 0) as [H0 _]; [lia | vm_compute; split; [discriminate | reflexivity] |]. exact H0.
  - apply (adpcm_decodes block (replicate 130 0) 72 1); [lia | vm_compute; split; discriminate | done].
Defined.

