(* ===== verification/Vp.v ===== *)
(** * The voice processor's front end and scheduler (hw/xbox/mcpx/apu/vp/vp.c)

    The methods with which the guest sets up voices, the voice lists it builds in
    guest memory, the walk over these lists at each frame and the distribution of
    the voices to worker threads. Voices live in guest memory, an instance of
    [DmaMemory]; coefficients of the HRTF filters are kept as the integers the
    guest sends. Resampling, filters and mixing compute in floating point and are
    not part of the model.

    The theorems relate the linked lists in memory to plain lists: switching a
    voice on inserts it, a frame queues exactly the active voices of the three
    lists in order, and the scheduler gives every voice to one worker, keeping a
    submix and its sources together. *)

From stdpp Require Import base gmap numbers list.
From Stdlib Require Import ZArith Lia.
From S2P Require Import Prelude Memory.

Abbreviation NV_PAPU_ISTS := 0x1000.
Abbreviation NV_PAPU_ISTS_FENINTSTS := 0x20.
Abbreviation NV_PAPU_ISTS_FEVINTSTS := 0x40.
Abbreviation NV_PAPU_FECTL := 0x1100.
Abbreviation NV_PAPU_FECTL_FEMETHMODE := 0xE0.
Abbreviation NV_PAPU_FECTL_FEMETHMODE_TRAPPED := 0xE0.
Abbreviation NV_PAPU_FECTL_FETRAPREASON := 0xF00.
Abbreviation NV_PAPU_FECTL_FETRAPREASON_REQUESTED := 0xF00.
Abbreviation NV_PAPU_FECV := 0x1110.
Abbreviation NV_PAPU_FEAV := 0x1118.
Abbreviation NV_PAPU_FEAV_VALUE := 0xFFFF.
Abbreviation NV_PAPU_FEAV_LST := 0x30000.
Abbreviation NV_PAPU_FENADDR := 0x115c.
Abbreviation NV_PAPU_FEDECMETH := 0x1300.
Abbreviation NV_PAPU_FEDECPARAM := 0x1304.
Abbreviation NV_PAPU_FETFORCE1 := 0x1504.
Abbreviation NV_PAPU_FETFORCE1_SE2FE_IDLE_VOICE := 0x8000.
Abbreviation NV_PAPU_VPVADDR := 0x202C.
Abbreviation NV_PAPU_VPSGEADDR := 0x2030.
Abbreviation NV_PAPU_VPSSLADDR := 0x2034.
Abbreviation NV_PAPU_TVL2D := 0x2054.
Abbreviation NV_PAPU_CVL2D := 0x2058.
Abbreviation NV_PAPU_NVL2D := 0x205C.
Abbreviation NV_PAPU_TVL3D := 0x2060.
Abbreviation NV_PAPU_CVL3D := 0x2064.
Abbreviation NV_PAPU_NVL3D := 0x2068.
Abbreviation NV_PAPU_TVLMP := 0x206C.
Abbreviation NV_PAPU_CVLMP := 0x2070.
Abbreviation NV_PAPU_NVLMP := 0x2074.

Abbreviation NV1BA0_PIO_FREE := 0x10.
Abbreviation NV1BA0_PIO_SET_ANTECEDENT_VOICE := 0x120.
Abbreviation NV1BA0_PIO_SET_ANTECEDENT_VOICE_LIST_INHERIT := 0.
Abbreviation NV1BA0_PIO_VOICE_ON := 0x124.
Abbreviation NV1BA0_PIO_VOICE_ON_HANDLE := 0xFFFF.
Abbreviation NV1BA0_PIO_VOICE_ON_ENVF := 0x0F000000.
Abbreviation NV1BA0_PIO_VOICE_ON_ENVA := 0xF0000000.
Abbreviation NV1BA0_PIO_VOICE_OFF := 0x128.
Abbreviation NV1BA0_PIO_VOICE_RELEASE := 0x12C.
Abbreviation NV1BA0_PIO_GET_VOICE_POSITION := 0x130.
Abbreviation NV1BA0_PIO_VOICE_PAUSE := 0x140.
Abbreviation NV1BA0_PIO_VOICE_PAUSE_ACTION := 0x40000.
Abbreviation NV1BA0_PIO_SET_CURRENT_HRTF_ENTRY := 0x160.
Abbreviation NV1BA0_PIO_SET_CONTEXT_DMA_NOTIFY := 0x180.
Abbreviation NV1BA0_PIO_SET_CURRENT_SSL_CONTEXT_DMA := 0x18C.
Abbreviation NV1BA0_PIO_SET_CURRENT_SSL := 0x190.
Abbreviation NV1BA0_PIO_SET_SSL_SEGMENT_OFFSET := 0x600.
Abbreviation NV1BA0_PIO_SET_SSL_SEGMENT_LENGTH := 0x604.
Abbreviation NV1BA0_PIO_SET_SUBMIX_HEADROOM := 0x200.
Abbreviation NV1BA0_PIO_SET_HRTF_HEADROOM := 0x280.
Abbreviation NV1BA0_PIO_SET_HRTF_SUBMIXES := 0x2C0.
Abbreviation NV1BA0_PIO_SET_CURRENT_VOICE := 0x2F8.
Abbreviation NV1BA0_PIO_VOICE_LOCK := 0x2FC.
Abbreviation NV1BA0_PIO_SET_VOICE_CFG_VBIN := 0x300.
Abbreviation NV1BA0_PIO_SET_VOICE_CFG_FMT := 0x304.
Abbreviation NV1BA0_PIO_SET_VOICE_CFG_ENV0 := 0x308.
Abbreviation NV1BA0_PIO_SET_VOICE_CFG_ENVA := 0x30C.
Abbreviation NV1BA0_PIO_SET_VOICE_CFG_ENV1 := 0x310.
Abbreviation NV1BA0_PIO_SET_VOICE_CFG_ENVF := 0x314.
Abbreviation NV1BA0_PIO_SET_VOICE_CFG_MISC := 0x318.
Abbreviation NV1BA0_PIO_SET_VOICE_TAR_HRTF := 0x31C.
Abbreviation NV1BA0_PIO_SET_VOICE_SSL_A := 0x320.
Abbreviation NV1BA0_PIO_SET_VOICE_SSL_A_COUNT := 0xFF.
Abbreviation NV1BA0_PIO_SET_VOICE_SSL_A_BASE := 0xFFFFFF00.
Abbreviation NV1BA0_PIO_SET_VOICE_SSL_B := 0x35C.
Abbreviation NV1BA0_PIO_SET_VOICE_TAR_VOLA := 0x360.
Abbreviation NV1BA0_PIO_SET_VOICE_TAR_VOLB := 0x364.
Abbreviation NV1BA0_PIO_SET_VOICE_TAR_VOLC := 0x368.
Abbreviation NV1BA0_PIO_SET_VOICE_LFO_ENV := 0x36C.
Abbreviation NV1BA0_PIO_SET_VOICE_TAR_FCA := 0x374.
Abbreviation NV1BA0_PIO_SET_VOICE_TAR_FCB := 0x378.
Abbreviation NV1BA0_PIO_SET_VOICE_TAR_PITCH := 0x37C.
Abbreviation NV1BA0_PIO_SET_VOICE_TAR_PITCH_STEP := 0xFFFF0000.
Abbreviation NV1BA0_PIO_SET_VOICE_CFG_BUF_BASE := 0x3A0.
Abbreviation NV1BA0_PIO_SET_VOICE_CFG_BUF_LBO := 0x3A4.
Abbreviation NV1BA0_PIO_SET_VOICE_BUF_CBO := 0x3D8.
Abbreviation NV1BA0_PIO_SET_VOICE_CFG_BUF_EBO := 0x3DC.
Abbreviation NV1BA0_PIO_SET_HRIR := 0x400.
Abbreviation NV1BA0_PIO_SET_HRIR_X := 0x43C.
Abbreviation NV1BA0_PIO_SET_CURRENT_INBUF_SGE := 0x804.
Abbreviation NV1BA0_PIO_SET_CURRENT_INBUF_SGE_OFFSET := 0x808.
Abbreviation NV1BA0_PIO_SET_OUTBUF_BA := 0x1000.
Abbreviation NV1BA0_PIO_SET_OUTBUF_LEN := 0x1004.
Abbreviation NV1BA0_PIO_SET_CURRENT_OUTBUF_SGE := 0x1800.
Abbreviation NV1BA0_PIO_SET_CURRENT_OUTBUF_SGE_OFFSET := 0x1808.
Abbreviation SE2FE_IDLE_VOICE := 0x8000.

Abbreviation NV_PAVS_SIZE := 0x80.
Abbreviation NV_PAVS_VOICE_CFG_VBIN := 0x00.
Abbreviation NV_PAVS_VOICE_CFG_FMT := 0x04.
Abbreviation NV_PAVS_VOICE_CFG_FMT_V6BIN := 0x1F.
Abbreviation NV_PAVS_VOICE_CFG_FMT_V7BIN := 0x3E0.
Abbreviation NV_PAVS_VOICE_CFG_FMT_MULTIPASS_BIN := 0x1F0000.
Abbreviation NV_PAVS_VOICE_CFG_FMT_MULTIPASS := 0x200000.
Abbreviation NV_PAVS_VOICE_CFG_FMT_DATA_TYPE := 0x1000000.
Abbreviation NV_PAVS_VOICE_CFG_FMT_CLEAR_MIX := 0x4000000.
Abbreviation NV_PAVS_VOICE_CFG_ENV0 := 0x08.
Abbreviation NV_PAVS_VOICE_CFG_ENV0_EA_DELAYTIME := 0xFFF000.
Abbreviation NV_PAVS_VOICE_CFG_ENVA := 0x0C.
Abbreviation NV_PAVS_VOICE_CFG_ENVA_EA_HOLDTIME := 0xFFF000.
Abbreviation NV_PAVS_VOICE_CFG_ENV1 := 0x10.
Abbreviation NV_PAVS_VOICE_CFG_ENVF := 0x14.
Abbreviation NV_PAVS_VOICE_CFG_MISC := 0x18.
Abbreviation NV_PAVS_VOICE_CFG_MISC_EF_RELEASERATE := 0xFFF.
Abbreviation NV_PAVS_VOICE_CFG_HRTF_TARGET := 0x1C.
Abbreviation NV_PAVS_VOICE_CFG_HRTF_TARGET_HANDLE := 0xFFFF.
Abbreviation NV_PAVS_VOICE_CUR_PSL_START := 0x20.
Abbreviation NV_PAVS_VOICE_CUR_PSL_START_BA := 0xFFFFFF.
Abbreviation NV_PAVS_VOICE_CUR_PSH_SAMPLE := 0x24.
Abbreviation NV_PAVS_VOICE_CUR_PSH_SAMPLE_LBO := 0xFFFFFF.
Abbreviation NV_PAVS_VOICE_CUR_ECNT := 0x34.
Abbreviation NV_PAVS_VOICE_CUR_ECNT_EACOUNT := 0xFFFF.
Abbreviation NV_PAVS_VOICE_CUR_ECNT_EFCOUNT := 0xFFFF0000.
Abbreviation NV_PAVS_VOICE_PAR_STATE := 0x54.
Abbreviation NV_PAVS_VOICE_PAR_STATE_PAUSED := 0x40000.
Abbreviation NV_PAVS_VOICE_PAR_STATE_ACTIVE_VOICE := 0x200000.
Abbreviation NV_PAVS_VOICE_PAR_STATE_EFCUR := 0x0F000000.
Abbreviation NV_PAVS_VOICE_PAR_STATE_EFCUR_DELAY := 1.
Abbreviation NV_PAVS_VOICE_PAR_STATE_EFCUR_ATTACK := 2.
Abbreviation NV_PAVS_VOICE_PAR_STATE_EFCUR_HOLD := 3.
Abbreviation NV_PAVS_VOICE_PAR_STATE_EFCUR_RELEASE := 6.
Abbreviation NV_PAVS_VOICE_PAR_STATE_EACUR := 0xF0000000.
Abbreviation NV_PAVS_VOICE_PAR_OFFSET := 0x58.
Abbreviation NV_PAVS_VOICE_PAR_OFFSET_CBO := 0xFFFFFF.
Abbreviation NV_PAVS_VOICE_PAR_NEXT := 0x5C.
Abbreviation NV_PAVS_VOICE_PAR_NEXT_EBO := 0xFFFFFF.
Abbreviation NV_PAVS_VOICE_TAR_VOLA := 0x60.
Abbreviation NV_PAVS_VOICE_TAR_VOLB := 0x64.
Abbreviation NV_PAVS_VOICE_TAR_VOLC := 0x68.
Abbreviation NV_PAVS_VOICE_TAR_LFO_ENV := 0x6C.
Abbreviation NV_PAVS_VOICE_TAR_LFO_ENV_EA_RELEASERATE := 0xFFF.
Abbreviation NV_PAVS_VOICE_TAR_FCA := 0x74.
Abbreviation NV_PAVS_VOICE_TAR_FCB := 0x78.
Abbreviation NV_PAVS_VOICE_TAR_PITCH_LINK := 0x7C.
Abbreviation NV_PAVS_VOICE_TAR_PITCH_LINK_NEXT_VOICE_HANDLE := 0xFFFF.
Abbreviation NV_PAVS_VOICE_TAR_PITCH_LINK_PITCH := 0xFFFF0000.

Abbreviation MCPX_HW_MAX_VOICES := 256.
Abbreviation MCPX_HW_MAX_3D_VOICES := 64.
Abbreviation MCPX_HW_MAX_SSL_PRDS := 8192.
Abbreviation NV_PSGE_SIZE := 8.
Abbreviation MCPX_HW_NOTIFIER_BASE_OFFSET := 2.
Abbreviation MCPX_HW_NOTIFIER_SSLA_DONE := 0.
Abbreviation MCPX_HW_NOTIFIER_COUNT := 4.
Abbreviation NV1BA0_NOTIFICATION_STATUS_DONE_SUCCESS := 1.
Abbreviation HRTF_NULL_HANDLE := 0xFFFF.
Abbreviation HRTF_ENTRY_COUNT := 128.
Abbreviation NUM_MIXBINS := 32.
Abbreviation MULTIPASS_BIN_MASK := 0x80000000.
Abbreviation MAX_VOICE_WORKERS := 16.

(** ** State *)

Record MCPXAPUVPSSLData := mkSSL {
  ssl_base : list Z;
  ssl_count : list Z;
  ssl_index : Z;
  ssl_seg : Z
}.

(** One head-related transfer function: the impulse responses of the two ears and
    the delay between them. *)
Record hrtf_entry := mkHrtf {
  hrir_left : list Z;
  hrir_right : list Z;
  itd : Z
}.

Record VoiceWorkItem := mkItem { voice : Z; voice_list : Z }.

(** The parts of [MCPXAPUState], [MCPXAPUVPState] and [VoiceWorkDispatch] at work
    here, with guest memory. [hrtf_tar] are the parameters each voice's HRTF filter
    was last given; [voice_spinlocks] says which spin locks are held. *)
Record VPState (M : Type) := mkVP {
  regs : gmap Z Z;
  mem : M;
  set_irq : bool;
  ssl_base_page : Z;
  ssl : list MCPXAPUVPSSLData;
  hrtf_headroom : Z;
  hrtf_submix : list Z;
  submix_headroom : list Z;
  voice_locked : list Z;
  voice_spinlocks : list bool;
  current_entry : Z;
  entries : list hrtf_entry;
  hrtf_tar : list (option hrtf_entry);
  inbuf_sge_handle : Z;
  outbuf_sge_handle : Z;
  queue : list VoiceWorkItem
}.

Arguments mkVP {M}.
Arguments regs {M}.
Arguments mem {M}.
Arguments set_irq {M}.
Arguments ssl_base_page {M}.
Arguments ssl {M}.
Arguments hrtf_headroom {M}.
Arguments hrtf_submix {M}.
Arguments submix_headroom {M}.
Arguments voice_locked {M}.
Arguments voice_spinlocks {M}.
Arguments current_entry {M}.
Arguments entries {M}.
Arguments hrtf_tar {M}.
Arguments inbuf_sge_handle {M}.
Arguments outbuf_sge_handle {M}.
Arguments queue {M}.

#[export] Instance eta_SSL : Eta MCPXAPUVPSSLData := fun s => mkSSL (ssl_base s) (ssl_count s) (ssl_index s) (ssl_seg s).
#[export] Instance eta_hrtf : Eta hrtf_entry := fun e => mkHrtf (hrir_left e) (hrir_right e) (itd e).
#[export] Instance eta_VP M : Eta (VPState M) := fun d =>
  mkVP (regs d) (mem d) (set_irq d) (ssl_base_page d) (ssl d) (hrtf_headroom d) (hrtf_submix d) (submix_headroom d)
    (voice_locked d) (voice_spinlocks d) (current_entry d) (entries d) (hrtf_tar d) (inbuf_sge_handle d)
    (outbuf_sge_handle d) (queue d).

Section VP.

Context {M : Type} `{DmaMemory M}.

Implicit Types d : VPState M.

(** ** Voices in guest memory *)

Definition set_notify_status d (v notifier status : Z) : VPState M :=
  let notify_offset := rget (regs d) NV_PAPU_FENADDR +
    16 * (MCPX_HW_NOTIFIER_BASE_OFFSET + v * MCPX_HW_NOTIFIER_COUNT + notifier) + 15 in
  let d := d <| mem := stb_phys (mem d) notify_offset status |> in
  let d := d <| mem := stb_phys (mem d) (notify_offset - 1) 1 |> in
  d <| regs := rset (regs d) NV_PAPU_ISTS
                 (rget (regs d) NV_PAPU_ISTS .| (NV_PAPU_ISTS_FEVINTSTS .| NV_PAPU_ISTS_FENINTSTS)) |>
    <| set_irq := true |>.

(** The filter memories are floating point. *)
Definition voice_reset_filters d (v : Z) : outcome (VPState M) :=
  c_assert (u16 v <? MCPX_HW_MAX_VOICES);; Ok d.

Definition voice_addr d (voice_handle : Z) : Z :=
  u32 (rget (regs d) NV_PAPU_VPVADDR + u16 voice_handle * NV_PAVS_SIZE).

Definition voice_get_mask d (voice_handle offset mask : Z) : Z :=
  GET_MASK (ldl_le_phys (mem d) (voice_addr d voice_handle + offset)) mask.

Definition voice_set_mask d (voice_handle offset mask val : Z) : VPState M :=
  d <| mem := stl_le_phys (mem d) (voice_addr d voice_handle + offset)
                (SET_MASK (ldl_le_phys (mem d) (voice_addr d voice_handle + offset)) mask val) |>.

Definition voice_off d (v : Z) : outcome (VPState M) :=
  let v := u16 v in
  let d := voice_set_mask d v NV_PAVS_VOICE_PAR_STATE NV_PAVS_VOICE_PAR_STATE_ACTIVE_VOICE 0 in
  let stream := negb (voice_get_mask d v NV_PAVS_VOICE_CFG_FMT NV_PAVS_VOICE_CFG_FMT_DATA_TYPE =? 0) in
  notifier ← (if stream then
                c_assert (v <? MCPX_HW_MAX_VOICES);;
                s ← rd (ssl d) v;
                c_assert (ssl_index s <=? 1);;
                Ok (MCPX_HW_NOTIFIER_SSLA_DONE + ssl_index s)
              else Ok MCPX_HW_NOTIFIER_SSLA_DONE);
  Ok (set_notify_status d v notifier NV1BA0_NOTIFICATION_STATUS_DONE_SUCCESS).

(** ** Locks *)

(** A spin lock that is already held is waited for; only its holder frees it, so a
    second acquisition by the same thread never returns. *)
Definition spin_lock (locks : list bool) (v : Z) : outcome (list bool) :=
  held ← rd locks v; if held : bool then NoFuel else wr locks v true.

Definition spin_unlock (locks : list bool) (v : Z) : outcome (list bool) := wr locks v false.

Definition voice_lock d (v : Z) (lock : bool) : outcome (VPState M) :=
  let v := u16 v in
  c_assert (v <? MCPX_HW_MAX_VOICES);;
  locks ← spin_lock (voice_spinlocks d) v;
  let mask := 1 ≪ (v mod 64) in
  word ← rd (voice_locked d) (v / 64);
  words ← wr (voice_locked d) (v / 64) (if lock then word .| mask else word .& u64 (Z.lnot mask));
  locks ← spin_unlock locks v;
  Ok (d <| voice_locked := words |> <| voice_spinlocks := locks |>).

Definition is_voice_locked d (v : Z) : outcome bool :=
  let v := u16 v in
  c_assert (v <? MCPX_HW_MAX_VOICES);;
  let mask := 1 ≪ (v mod 64) in
  word ← rd (voice_locked d) (v / 64);
  Ok (negb (word .& mask =? 0)).

(** ** Methods *)

Definition set_hrir_coeff_tar d (channel coeff_idx value : Z) : outcome (VPState M) :=
  e ← rd (entries d) (current_entry d);
  e ← (if channel =? 0 then l ← wr (hrir_left e) coeff_idx value; Ok (e <| hrir_left := l |>)
       else r ← wr (hrir_right e) coeff_idx value; Ok (e <| hrir_right := r |>));
  es ← wr (entries d) (current_entry d) e;
  Ok (d <| entries := es |>).

(** The tops, current and next registers of the three lists. *)
Definition voice_list_regs : list (Z * Z * Z) :=
  [(NV_PAPU_TVL2D, NV_PAPU_CVL2D, NV_PAPU_NVL2D); (NV_PAPU_TVL3D, NV_PAPU_CVL3D, NV_PAPU_NVL3D);
   (NV_PAPU_TVLMP, NV_PAPU_CVLMP, NV_PAPU_NVLMP)].

(** [NV1BA0_PIO_VOICE_ON], the linking of the voice into its list. *)
Definition voice_on_link d (selected_handle : Z) : outcome (VPState M) :=
  let list := GET_MASK (rget (regs d) NV_PAPU_FEAV) NV_PAPU_FEAV_LST in
  if negb (list =? NV1BA0_PIO_SET_ANTECEDENT_VOICE_LIST_INHERIT) then
    r ← rd voice_list_regs (list - 1);
    let top_reg := r.1.1 in
    let d := voice_set_mask d selected_handle NV_PAVS_VOICE_TAR_PITCH_LINK
               NV_PAVS_VOICE_TAR_PITCH_LINK_NEXT_VOICE_HANDLE (rget (regs d) top_reg) in
    Ok (d <| regs := rset (regs d) top_reg selected_handle |>)
  else
    let antecedent_voice := GET_MASK (rget (regs d) NV_PAPU_FEAV) NV_PAPU_FEAV_VALUE in
    c_assert (negb (antecedent_voice =? 0xFFFF));;
    let next_handle := voice_get_mask d antecedent_voice NV_PAVS_VOICE_TAR_PITCH_LINK
                         NV_PAVS_VOICE_TAR_PITCH_LINK_NEXT_VOICE_HANDLE in
    let d := voice_set_mask d selected_handle NV_PAVS_VOICE_TAR_PITCH_LINK
               NV_PAVS_VOICE_TAR_PITCH_LINK_NEXT_VOICE_HANDLE next_handle in
    Ok (voice_set_mask d antecedent_voice NV_PAVS_VOICE_TAR_PITCH_LINK
          NV_PAVS_VOICE_TAR_PITCH_LINK_NEXT_VOICE_HANDLE selected_handle).

(** The start of one of the two envelopes: [cur] is its phase field, [count] its
    counter, [env0] and [enva] the words with its delay and hold times. *)
Definition voice_on_envelope d (selected_handle start cur count env0 enva : Z) : VPState M :=
  let d := voice_set_mask d selected_handle NV_PAVS_VOICE_PAR_STATE cur start in
  if start =? NV_PAVS_VOICE_PAR_STATE_EFCUR_DELAY then
    let delay_time := u16 (voice_get_mask d selected_handle env0 NV_PAVS_VOICE_CFG_ENV0_EA_DELAYTIME) in
    voice_set_mask d selected_handle NV_PAVS_VOICE_CUR_ECNT count (delay_time * 16)
  else if start =? NV_PAVS_VOICE_PAR_STATE_EFCUR_ATTACK then
    voice_set_mask d selected_handle NV_PAVS_VOICE_CUR_ECNT count 0
  else if start =? NV_PAVS_VOICE_PAR_STATE_EFCUR_HOLD then
    let hold_time := u16 (voice_get_mask d selected_handle enva NV_PAVS_VOICE_CFG_ENVA_EA_HOLDTIME) in
    voice_set_mask d selected_handle NV_PAVS_VOICE_CUR_ECNT count (hold_time * 16)
  else d.

(** What happens between locking the voice and unlocking it. *)
Definition voice_on_start d (selected_handle argument : Z) : outcome (VPState M) :=
  d ← voice_on_link d selected_handle;
  let d := voice_set_mask d selected_handle NV_PAVS_VOICE_PAR_OFFSET NV_PAVS_VOICE_PAR_OFFSET_CBO 0 in
  s ← rd (ssl d) selected_handle;
  ssls ← wr (ssl d) selected_handle (s <| ssl_seg := 0 |> <| ssl_index := 0 |>);
  let d := d <| ssl := ssls |> in
  let d := voice_on_envelope d selected_handle (GET_MASK argument NV1BA0_PIO_VOICE_ON_ENVA)
             NV_PAVS_VOICE_PAR_STATE_EACUR NV_PAVS_VOICE_CUR_ECNT_EACOUNT
             NV_PAVS_VOICE_CFG_ENV0 NV_PAVS_VOICE_CFG_ENVA in
  let d := voice_on_envelope d selected_handle (GET_MASK argument NV1BA0_PIO_VOICE_ON_ENVF)
             NV_PAVS_VOICE_PAR_STATE_EFCUR NV_PAVS_VOICE_CUR_ECNT_EFCOUNT
             NV_PAVS_VOICE_CFG_ENV1 NV_PAVS_VOICE_CFG_ENVF in
  d ← voice_reset_filters d selected_handle;
  Ok (voice_set_mask d selected_handle NV_PAVS_VOICE_PAR_STATE NV_PAVS_VOICE_PAR_STATE_ACTIVE_VOICE 1).

Definition voice_on d (argument : Z) : outcome (VPState M) :=
  let selected_handle := argument .& NV1BA0_PIO_VOICE_ON_HANDLE in
  locked ← is_voice_locked d selected_handle;
  d ← (if locked : bool then Ok d else voice_lock d selected_handle true);
  d ← voice_on_start d selected_handle argument;
  if locked : bool then Ok d else voice_lock d selected_handle false.

Definition voice_release d (argument : Z) : outcome (VPState M) :=
  let selected_handle := argument .& NV1BA0_PIO_VOICE_ON_HANDLE in
  locked ← is_voice_locked d selected_handle;
  d ← (if locked : bool then Ok d else voice_lock d selected_handle true);
  let rr := u16 (voice_get_mask d selected_handle NV_PAVS_VOICE_TAR_LFO_ENV NV_PAVS_VOICE_TAR_LFO_ENV_EA_RELEASERATE) in
  let d := voice_set_mask d selected_handle NV_PAVS_VOICE_CUR_ECNT NV_PAVS_VOICE_CUR_ECNT_EACOUNT (rr * 16) in
  let d := voice_set_mask d selected_handle NV_PAVS_VOICE_PAR_STATE NV_PAVS_VOICE_PAR_STATE_EACUR
             NV_PAVS_VOICE_PAR_STATE_EFCUR_RELEASE in
  let rr := u16 (voice_get_mask d selected_handle NV_PAVS_VOICE_CFG_MISC NV_PAVS_VOICE_CFG_MISC_EF_RELEASERATE) in
  let d := voice_set_mask d selected_handle NV_PAVS_VOICE_CUR_ECNT NV_PAVS_VOICE_CUR_ECNT_EFCOUNT (rr * 16) in
  let d := voice_set_mask d selected_handle NV_PAVS_VOICE_PAR_STATE NV_PAVS_VOICE_PAR_STATE_EFCUR
             NV_PAVS_VOICE_PAR_STATE_EFCUR_RELEASE in
  if locked : bool then Ok d else voice_lock d selected_handle false.

Definition set_voice_tar_hrtf d (argument : Z) : outcome (VPState M) :=
  let handle := GET_MASK argument 0xFFFF in
  let current_voice := sext 32 (rget (regs d) NV_PAPU_FECV) in
  let d := voice_set_mask d current_voice NV_PAVS_VOICE_CFG_HRTF_TARGET NV_PAVS_VOICE_CFG_HRTF_TARGET_HANDLE handle in
  if (current_voice <? MCPX_HW_MAX_3D_VOICES) && negb (handle =? HRTF_NULL_HANDLE) then
    c_assert (handle <? HRTF_ENTRY_COUNT);;
    e ← rd (entries d) handle;
    tar ← wr (hrtf_tar d) current_voice (Some e);
    Ok (d <| hrtf_tar := tar |>)
  else Ok d.

(** [NV1BA0_PIO_SET_VOICE_SSL_A] and [_B]. *)
Definition set_voice_ssl d (ssl_no argument : Z) : outcome (VPState M) :=
  let current_voice := sext 32 (rget (regs d) NV_PAPU_FECV) in
  c_assert (current_voice <? MCPX_HW_MAX_VOICES);;
  s ← rd (ssl d) current_voice;
  base ← wr (ssl_base s) ssl_no (GET_MASK argument NV1BA0_PIO_SET_VOICE_SSL_A_BASE);
  count ← wr (ssl_count s) ssl_no (u8 (GET_MASK argument NV1BA0_PIO_SET_VOICE_SSL_A_COUNT));
  ssls ← wr (ssl d) current_voice (s <| ssl_base := base |> <| ssl_count := count |>);
  Ok (d <| ssl := ssls |>).

Definition set_hrir d (method argument : Z) : outcome (VPState M) :=
  c_assert (current_entry d <? HRTF_ENTRY_COUNT);;
  let slot := (method - NV1BA0_PIO_SET_HRIR) / 4 in
  let left0 := sext 8 (GET_MASK argument 0x000000FF) in
  let right0 := sext 8 (GET_MASK argument 0x0000FF00) in
  let left1 := sext 8 (GET_MASK argument 0x00FF0000) in
  let right1 := sext 8 (GET_MASK argument 0xFF000000) in
  let coeff_idx := slot * 2 in
  d ← set_hrir_coeff_tar d 0 coeff_idx left0;
  d ← set_hrir_coeff_tar d 1 coeff_idx right0;
  let coeff_idx := coeff_idx + 1 in
  d ← set_hrir_coeff_tar d 0 coeff_idx left1;
  set_hrir_coeff_tar d 1 coeff_idx right1.

Definition set_hrir_x d (argument : Z) : outcome (VPState M) :=
  c_assert (current_entry d <? HRTF_ENTRY_COUNT);;
  let left30 := sext 8 (GET_MASK argument 0x000000FF) in
  let right30 := sext 8 (GET_MASK argument 0x0000FF00) in
  let itd' := sext 16 (GET_MASK argument 0xFFFF0000) in
  d ← set_hrir_coeff_tar d 0 30 left30;
  d ← set_hrir_coeff_tar d 1 30 right30;
  e ← rd (entries d) (current_entry d);
  es ← wr (entries d) (current_entry d) (e <| itd := itd' |>);
  Ok (d <| entries := es |>).

(** The methods that store a field of the current voice: its word, its mask and the
    value stored. *)
Definition voice_field (method argument : Z) : option (Z * Z * Z) :=
  if method =? NV1BA0_PIO_SET_VOICE_CFG_VBIN then Some (NV_PAVS_VOICE_CFG_VBIN, 0xFFFFFFFF, argument)
  else if method =? NV1BA0_PIO_SET_VOICE_CFG_FMT then Some (NV_PAVS_VOICE_CFG_FMT, 0xFFFFFFFF, argument)
  else if method =? NV1BA0_PIO_SET_VOICE_CFG_ENV0 then Some (NV_PAVS_VOICE_CFG_ENV0, 0xFFFFFFFF, argument)
  else if method =? NV1BA0_PIO_SET_VOICE_CFG_ENVA then Some (NV_PAVS_VOICE_CFG_ENVA, 0xFFFFFFFF, argument)
  else if method =? NV1BA0_PIO_SET_VOICE_CFG_ENV1 then Some (NV_PAVS_VOICE_CFG_ENV1, 0xFFFFFFFF, argument)
  else if method =? NV1BA0_PIO_SET_VOICE_CFG_ENVF then Some (NV_PAVS_VOICE_CFG_ENVF, 0xFFFFFFFF, argument)
  else if method =? NV1BA0_PIO_SET_VOICE_CFG_MISC then Some (NV_PAVS_VOICE_CFG_MISC, 0xFFFFFFFF, argument)
  else if method =? NV1BA0_PIO_SET_VOICE_TAR_VOLA then Some (NV_PAVS_VOICE_TAR_VOLA, 0xFFFFFFFF, argument)
  else if method =? NV1BA0_PIO_SET_VOICE_TAR_VOLB then Some (NV_PAVS_VOICE_TAR_VOLB, 0xFFFFFFFF, argument)
  else if method =? NV1BA0_PIO_SET_VOICE_TAR_VOLC then Some (NV_PAVS_VOICE_TAR_VOLC, 0xFFFFFFFF, argument)
  else if method =? NV1BA0_PIO_SET_VOICE_LFO_ENV then Some (NV_PAVS_VOICE_TAR_LFO_ENV, 0xFFFFFFFF, argument)
  else if method =? NV1BA0_PIO_SET_VOICE_TAR_FCA then Some (NV_PAVS_VOICE_TAR_FCA, 0xFFFFFFFF, argument)
  else if method =? NV1BA0_PIO_SET_VOICE_TAR_FCB then Some (NV_PAVS_VOICE_TAR_FCB, 0xFFFFFFFF, argument)
  else if method =? NV1BA0_PIO_SET_VOICE_TAR_PITCH then
    Some (NV_PAVS_VOICE_TAR_PITCH_LINK, NV_PAVS_VOICE_TAR_PITCH_LINK_PITCH,
          (argument .& NV1BA0_PIO_SET_VOICE_TAR_PITCH_STEP) ≫ 16)
  else if method =? NV1BA0_PIO_SET_VOICE_CFG_BUF_BASE then
    Some (NV_PAVS_VOICE_CUR_PSL_START, NV_PAVS_VOICE_CUR_PSL_START_BA, argument)
  else if method =? NV1BA0_PIO_SET_VOICE_CFG_BUF_LBO then
    Some (NV_PAVS_VOICE_CUR_PSH_SAMPLE, NV_PAVS_VOICE_CUR_PSH_SAMPLE_LBO, argument)
  else if method =? NV1BA0_PIO_SET_VOICE_BUF_CBO then
    Some (NV_PAVS_VOICE_PAR_OFFSET, NV_PAVS_VOICE_PAR_OFFSET_CBO, argument)
  else if method =? NV1BA0_PIO_SET_VOICE_CFG_BUF_EBO then
    Some (NV_PAVS_VOICE_PAR_NEXT, NV_PAVS_VOICE_PAR_NEXT_EBO, argument)
  else None.

(** [CASE_4(v, step)] *)
Definition case_4 (method v step : Z) : bool :=
  (method =? v) || (method =? v + step) || (method =? v + 2 * step) || (method =? v + 3 * step).

Definition idle_voice d : outcome (VPState M) :=
  c_assert (flag (rget (regs d) NV_PAPU_FETFORCE1) NV_PAPU_FETFORCE1_SE2FE_IDLE_VOICE);;
  let fectl := rget (regs d) NV_PAPU_FECTL .& u32 (Z.lnot NV_PAPU_FECTL_FEMETHMODE) in
  let fectl := fectl .| NV_PAPU_FECTL_FEMETHMODE_TRAPPED in
  let fectl := fectl .& u32 (Z.lnot NV_PAPU_FECTL_FETRAPREASON) in
  let fectl := fectl .| NV_PAPU_FECTL_FETRAPREASON_REQUESTED in
  Ok (d <| regs := rset (regs d) NV_PAPU_FECTL fectl |> <| set_irq := true |>).

Definition fe_method d (method argument : Z) : outcome (VPState M) :=
  let d := d <| regs := rset (rset (regs d) NV_PAPU_FEDECMETH method) NV_PAPU_FEDECPARAM argument |> in
  if method =? NV1BA0_PIO_VOICE_LOCK then voice_lock d (rget (regs d) NV_PAPU_FECV) (negb (argument .& 1 =? 0))
  else if method =? NV1BA0_PIO_SET_ANTECEDENT_VOICE then Ok (d <| regs := rset (regs d) NV_PAPU_FEAV argument |>)
  else if method =? NV1BA0_PIO_VOICE_ON then voice_on d argument
  else if method =? NV1BA0_PIO_VOICE_RELEASE then voice_release d argument
  else if method =? NV1BA0_PIO_VOICE_OFF then voice_off d (argument .& 0xFFFF)
  else if method =? NV1BA0_PIO_VOICE_PAUSE then
    Ok (voice_set_mask d (argument .& 0xFFFF) NV_PAVS_VOICE_PAR_STATE NV_PAVS_VOICE_PAR_STATE_PAUSED
          (if flag argument NV1BA0_PIO_VOICE_PAUSE_ACTION then 1 else 0))
  else if method =? NV1BA0_PIO_SET_CURRENT_HRTF_ENTRY then Ok (d <| current_entry := GET_MASK argument 0xFFFF |>)
  else if method =? NV1BA0_PIO_SET_CURRENT_VOICE then Ok (d <| regs := rset (regs d) NV_PAPU_FECV argument |>)
  else if method =? NV1BA0_PIO_SET_VOICE_TAR_HRTF then set_voice_tar_hrtf d argument
  else if (NV1BA0_PIO_SET_HRIR <=? method) && (method <=? NV1BA0_PIO_SET_HRIR_X - 1) then set_hrir d method argument
  else if method =? NV1BA0_PIO_SET_HRIR_X then set_hrir_x d argument
  else if method =? NV1BA0_PIO_SET_CURRENT_INBUF_SGE then Ok (d <| inbuf_sge_handle := argument |>)
  else if method =? NV1BA0_PIO_SET_CURRENT_INBUF_SGE_OFFSET then
    let sge_address := rget (regs d) NV_PAPU_VPSGEADDR + u32 (inbuf_sge_handle d * 8) in
    Ok (d <| mem := stl_le_phys (mem d) (u32 sge_address) (argument .& 0xFFFFF000) |>)
  else if case_4 method NV1BA0_PIO_SET_OUTBUF_BA 8 then Ok d
  else if case_4 method NV1BA0_PIO_SET_OUTBUF_LEN 8 then Ok d
  else if method =? NV1BA0_PIO_SET_CURRENT_OUTBUF_SGE then Ok (d <| outbuf_sge_handle := argument |>)
  else if method =? NV1BA0_PIO_SET_CURRENT_OUTBUF_SGE_OFFSET then
    let sge_address := rget (regs d) NV_PAPU_VPSGEADDR + u32 (outbuf_sge_handle d * 8) in
    Ok (d <| mem := stl_le_phys (mem d) (u32 sge_address) (argument .& 0xFFFFF000) |>)
  else if method =? NV1BA0_PIO_SET_VOICE_SSL_A then set_voice_ssl d 0 argument
  else if method =? NV1BA0_PIO_SET_VOICE_SSL_B then set_voice_ssl d 1 argument
  else if method =? NV1BA0_PIO_SET_CURRENT_SSL then
    c_assert (argument .& 0x3f =? 0);;
    c_assert (argument <? MCPX_HW_MAX_SSL_PRDS * NV_PSGE_SIZE);;
    Ok (d <| ssl_base_page := argument |>)
  else if (NV1BA0_PIO_SET_SSL_SEGMENT_OFFSET <=? method) && (method <=? NV1BA0_PIO_SET_SSL_SEGMENT_LENGTH + 8 * 64 - 1)
  then
    c_assert (method .& 0x3 =? 0);;
    let addr := u32 (rget (regs d) NV_PAPU_VPSSLADDR + ssl_base_page d * 8 +
                     (method - NV1BA0_PIO_SET_SSL_SEGMENT_OFFSET)) in
    Ok (d <| mem := stl_le_phys (mem d) addr argument |>)
  else if method =? NV1BA0_PIO_SET_HRTF_SUBMIXES then
    Ok (d <| hrtf_submix := [(argument ≫ 0) .& 0x1f; (argument ≫ 8) .& 0x1f; (argument ≫ 16) .& 0x1f;
                             (argument ≫ 24) .& 0x1f] |>)
  else if method =? NV1BA0_PIO_SET_HRTF_HEADROOM then Ok (d <| hrtf_headroom := argument .& 0x7 |>)
  else if (NV1BA0_PIO_SET_SUBMIX_HEADROOM <=? method) &&
          (method <=? NV1BA0_PIO_SET_SUBMIX_HEADROOM + 4 * (NUM_MIXBINS - 1)) then
    c_assert (method .& 3 =? 0);;
    l ← wr (submix_headroom d) ((method - NV1BA0_PIO_SET_SUBMIX_HEADROOM) / 4) (argument .& 0x7);
    Ok (d <| submix_headroom := l |>)
  else if method =? SE2FE_IDLE_VOICE then idle_voice d
  else match voice_field method argument with
       | Some (offset, mask, val) => Ok (voice_set_mask d (rget (regs d) NV_PAPU_FECV) offset mask val)
       | None => AssertFail
       end.

Definition vp_read (addr : Z) : Z := if addr =? NV1BA0_PIO_FREE then 0x80 else 0.

(** The methods that the register window passes on. *)
Definition passed_on (addr : Z) : bool :=
  bool_decide (addr ∈ [NV1BA0_PIO_SET_ANTECEDENT_VOICE; NV1BA0_PIO_VOICE_LOCK; NV1BA0_PIO_VOICE_ON;
    NV1BA0_PIO_VOICE_RELEASE; NV1BA0_PIO_VOICE_OFF; NV1BA0_PIO_VOICE_PAUSE; NV1BA0_PIO_SET_CURRENT_HRTF_ENTRY;
    NV1BA0_PIO_SET_CURRENT_VOICE; NV1BA0_PIO_SET_VOICE_CFG_VBIN; NV1BA0_PIO_SET_VOICE_CFG_FMT;
    NV1BA0_PIO_SET_VOICE_CFG_ENV0; NV1BA0_PIO_SET_VOICE_CFG_ENVA; NV1BA0_PIO_SET_VOICE_CFG_ENV1;
    NV1BA0_PIO_SET_VOICE_CFG_ENVF; NV1BA0_PIO_SET_VOICE_CFG_MISC; NV1BA0_PIO_SET_VOICE_TAR_HRTF;
    NV1BA0_PIO_SET_VOICE_TAR_VOLA; NV1BA0_PIO_SET_VOICE_TAR_VOLB; NV1BA0_PIO_SET_VOICE_TAR_VOLC;
    NV1BA0_PIO_SET_VOICE_LFO_ENV; NV1BA0_PIO_SET_VOICE_TAR_FCA; NV1BA0_PIO_SET_VOICE_TAR_FCB;
    NV1BA0_PIO_SET_VOICE_TAR_PITCH; NV1BA0_PIO_SET_VOICE_CFG_BUF_BASE; NV1BA0_PIO_SET_VOICE_CFG_BUF_LBO;
    NV1BA0_PIO_SET_VOICE_BUF_CBO; NV1BA0_PIO_SET_VOICE_CFG_BUF_EBO; NV1BA0_PIO_SET_HRIR_X;
    NV1BA0_PIO_SET_CURRENT_INBUF_SGE; NV1BA0_PIO_SET_CURRENT_INBUF_SGE_OFFSET; NV1BA0_PIO_SET_CURRENT_OUTBUF_SGE;
    NV1BA0_PIO_SET_CURRENT_OUTBUF_SGE_OFFSET; NV1BA0_PIO_SET_CURRENT_SSL; NV1BA0_PIO_SET_VOICE_SSL_A;
    NV1BA0_PIO_SET_VOICE_SSL_B; NV1BA0_PIO_SET_HRTF_SUBMIXES; NV1BA0_PIO_SET_HRTF_HEADROOM]) ||
  ((NV1BA0_PIO_SET_HRIR <=? addr) && (addr <=? NV1BA0_PIO_SET_HRIR_X - 1)) ||
  case_4 addr NV1BA0_PIO_SET_OUTBUF_BA 8 || case_4 addr NV1BA0_PIO_SET_OUTBUF_LEN 8 ||
  ((NV1BA0_PIO_SET_SSL_SEGMENT_OFFSET <=? addr) && (addr <=? NV1BA0_PIO_SET_SSL_SEGMENT_LENGTH + 8 * 64 - 1)) ||
  ((NV1BA0_PIO_SET_SUBMIX_HEADROOM <=? addr) && (addr <=? NV1BA0_PIO_SET_SUBMIX_HEADROOM + 4 * (NUM_MIXBINS - 1))).

Definition vp_write d (addr val : Z) : outcome (VPState M) :=
  if passed_on addr then fe_method d (u32 addr) (u32 val)
  else if (addr =? NV1BA0_PIO_GET_VOICE_POSITION) || (addr =? NV1BA0_PIO_SET_CONTEXT_DMA_NOTIFY) ||
          (addr =? NV1BA0_PIO_SET_CURRENT_SSL_CONTEXT_DMA) then AssertFail
  else Ok d.

(** ** The frame *)

(** Waiting for the guest to release a voice lets the other threads run; here the
    wait is not entered. *)
Definition voice_work_acquire_voice_lock_for_processing d (v : Z) : outcome (VPState M) :=
  locks ← spin_lock (voice_spinlocks d) v;
  locked ← is_voice_locked d v;
  if locked : bool then NoFuel else Ok (d <| voice_spinlocks := locks |>).

Definition voice_work_enqueue d (v list : Z) : outcome (VPState M) :=
  c_assert (zlen (queue d) <? MCPX_HW_MAX_VOICES);;
  voice_work_acquire_voice_lock_for_processing (d <| queue := queue d ++ [mkItem v list] |>) v.

Definition voice_work_release_voice_locks d : outcome (VPState M) :=
  locks ← mfor (queue d) (fun item locks => spin_unlock locks (voice item)) (voice_spinlocks d);
  Ok (d <| voice_spinlocks := locks |>).

(** The walk over one list; the loop gives up after [MCPX_HW_MAX_VOICES] rounds. *)
Fixpoint list_loop (rounds : nat) d (list current next : Z) : outcome (VPState M) :=
  if rget (regs d) current =? 0xFFFF then Ok d else
  match rounds with
  | O => Ok d
  | S rounds =>
      let v := u16 (rget (regs d) current) in
      let d := d <| regs := rset (regs d) next
                 (voice_get_mask d v NV_PAVS_VOICE_TAR_PITCH_LINK NV_PAVS_VOICE_TAR_PITCH_LINK_NEXT_VOICE_HANDLE) |> in
      d ← (if voice_get_mask d v NV_PAVS_VOICE_PAR_STATE NV_PAVS_VOICE_PAR_STATE_ACTIVE_VOICE =? 0
           then fe_method d SE2FE_IDLE_VOICE v
           else voice_work_enqueue d v list);
      list_loop rounds (d <| regs := rset (regs d) current (rget (regs d) next) |>) list current next
  end.

(** The part of [mcpx_apu_vp_frame] before the dispatch. *)
Definition frame_lists d : outcome (VPState M) :=
  mfor (seqZ 0 3) (fun list d =>
    '(top, current, next) ← rd voice_list_regs list;
    let d := d <| regs := rset (regs d) current (rget (regs d) top) |> in
    list_loop (Z.to_nat MCPX_HW_MAX_VOICES) d list current next) d.

(** ** The scheduler *)

(** The bins a voice reads, writes and clears. *)
Definition get_voice_bin_src_dst d (v : Z) : outcome (Z * Z * Z) :=
  let multipass := negb (voice_get_mask d v NV_PAVS_VOICE_CFG_FMT NV_PAVS_VOICE_CFG_FMT_MULTIPASS =? 0) in
  let mp_bin := voice_get_mask d v NV_PAVS_VOICE_CFG_FMT NV_PAVS_VOICE_CFG_FMT_MULTIPASS_BIN in
  let clear_mix := negb (voice_get_mask d v NV_PAVS_VOICE_CFG_FMT NV_PAVS_VOICE_CFG_FMT_CLEAR_MIX =? 0) in
  let src_v := if multipass then 1 ≪ mp_bin else 0 in
  let clr_v := if multipass && clear_mix then 1 ≪ mp_bin else 0 in
  bin03 ← (if v <? MCPX_HW_MAX_3D_VOICES then slice (hrtf_submix d) 0 4
           else Ok [voice_get_mask d v NV_PAVS_VOICE_CFG_VBIN 0x1F; voice_get_mask d v NV_PAVS_VOICE_CFG_VBIN 0x3E0;
                    voice_get_mask d v NV_PAVS_VOICE_CFG_VBIN 0x7C00; voice_get_mask d v NV_PAVS_VOICE_CFG_VBIN 0x1F0000]);
  let bin := bin03 ++ [voice_get_mask d v NV_PAVS_VOICE_CFG_VBIN 0x3E00000;
                       voice_get_mask d v NV_PAVS_VOICE_CFG_VBIN 0x7C000000;
                       voice_get_mask d v NV_PAVS_VOICE_CFG_FMT NV_PAVS_VOICE_CFG_FMT_V6BIN;
                       voice_get_mask d v NV_PAVS_VOICE_CFG_FMT NV_PAVS_VOICE_CFG_FMT_V7BIN] in
  Ok (src_v, foldr (fun b dst_v => dst_v .| (1 ≪ b)) 0 bin, clr_v).

(** The scheduler's variables: the queues of the workers, the workers with work, the
    next worker, whether a submix group is open, and the bins written so far. *)
Record schedule := mkSchedule {
  worker_queues : list (list VoiceWorkItem);
  workers_pending : Z;
  next_worker : Z;
  group : bool;
  dirty : Z
}.

(** One round of [voice_work_schedule], for a voice with the bins [src], [dst] and
    [clr]. *)
Definition schedule_voice (item : VoiceWorkItem) (src dst clr : Z) (s : schedule) : outcome schedule :=
  c_assert ((src =? 0) || (src =? MULTIPASS_BIN_MASK));;
  c_assert ((src =? 0) || (clr =? MULTIPASS_BIN_MASK));;
  c_assert (negb (src =? 0) || flag dst MULTIPASS_BIN_MASK || negb (flag (dirty s) MULTIPASS_BIN_MASK));;
  let group1 := if flag (dst .& MULTIPASS_BIN_MASK) (u32 (Z.lnot (dirty s))) then true else group s in
  q ← rd (worker_queues s) (next_worker s);
  (if zlen q <? MCPX_HW_MAX_VOICES then Ok () else Undef);;
  queues ← wr (worker_queues s) (next_worker s) (q ++ [item]);
  let pending := workers_pending s .| (1 ≪ next_worker s) in
  let dirty1 := (dirty s .& u32 (Z.lnot clr)) .| dst in
  let group2 := if flag clr MULTIPASS_BIN_MASK then false else group1 in
  Ok (mkSchedule queues pending
        (if group2 then next_worker s else (next_worker s + 1) mod zlen (worker_queues s)) group2 dirty1).

Definition voice_work_schedule d (num_workers : Z) (pending : Z) : outcome schedule :=
  mfor (queue d) (fun item s =>
    '(src, dst, clr) ← get_voice_bin_src_dst d (voice item);
    schedule_voice item src dst clr s)
    (mkSchedule (replicate (Z.to_nat num_workers) []) pending 0 false 0).

Definition mcpx_apu_vp_reset d : VPState M :=
  d <| ssl_base_page := 0 |> <| hrtf_headroom := 0 |>
    <| ssl := replicate (length (ssl d)) (mkSSL [0; 0] [0; 0] 0 0) |>
    <| hrtf_submix := replicate (length (hrtf_submix d)) 0 |>
    <| submix_headroom := replicate (length (submix_headroom d)) 0 |>
    <| voice_locked := replicate (length (voice_locked d)) 0 |>
    <| hrtf_tar := replicate (length (hrtf_tar d)) None |>.

End VP.

(** The default number of workers for [cpus] processors; [env] is the parsed
    environment variable, consulted on Android. *)
Definition mcpx_apu_default_vp_worker_count (android : bool) (env : option Z) (cpus : Z) : Z :=
  let cpu_count := Z.max 1 cpus in
  if negb android then cpu_count else
  match env with
  | Some parsed => if 0 <? parsed then parsed else
      if cpu_count <=? 2 then 1 else if cpu_count <=? 4 then 2 else if cpu_count <=? 6 then 3 else 4
  | None => if cpu_count <=? 2 then 1 else if cpu_count <=? 4 then 2 else if cpu_count <=? 6 then 3 else 4
  end.

(** The number of workers that [voice_work_init] creates; [configured] is the user's
    setting. *)
Definition vp_num_workers (android : bool) (env : option Z) (cpus configured : Z) : Z :=
  let num_workers := if configured <=? 0 then mcpx_apu_default_vp_worker_count android env cpus else configured in
  Z.max 1 (Z.min num_workers MAX_VOICE_WORKERS).

(** ** Words of voices *)

Section Words.

Context {M : Type} `{DmaMemoryLaws M}.

Implicit Types d : VPState M.

(** A voice is one of the 256, a word of it one of its 32. *)
Definition voice_word (v off : Z) : Prop := 0 <= v < MCPX_HW_MAX_VOICES /\ (4 | off) /\ 0 <= off < NV_PAVS_SIZE.

(** The voices are in RAM, below the end of the address space. *)
Definition voices_ok d : Prop :=
  0 <= rget (regs d) NV_PAPU_VPVADDR /\
  rget (regs d) NV_PAPU_VPVADDR + MCPX_HW_MAX_VOICES * NV_PAVS_SIZE <= 2 ^ 32 /\
  forall v off, voice_word v off -> backed (mem d) (voice_addr d v + off) 4.

Definition word d (v off : Z) : Z := ldl_le_phys (mem d) (voice_addr d v + off).

Lemma voice_addr_eq d v : voices_ok d -> 0 <= v < MCPX_HW_MAX_VOICES ->
  voice_addr d v = rget (regs d) NV_PAPU_VPVADDR + v * NV_PAVS_SIZE.
Proof using. intros (? & ? & _) Hv. unfold voice_addr. rewrite (in_u_small 16) by (unfold in_u; lia). by rewrite u32_small by lia. Qed.

Lemma word_range d v off : in_u 32 (word d v off).
Proof using All. apply ldl_range. Qed.

Lemma voices_ok_set d v off mask val : voices_ok d -> voices_ok (voice_set_mask d v off mask val).
Proof using All.
  intros (Hb & Ht & Hm). split; [done | split; [done |]]. intros v' off' Hv'. apply backed_stl, Hm, Hv'.
Qed.

Lemma word_set_same d v off mask val : voices_ok d -> voice_word v off -> in_u 32 mask ->
  word (voice_set_mask d v off mask val) v off = SET_MASK (word d v off) mask val.
Proof using All.
  intros (Hb & Ht & Hm) Hv Hmask. unfold word. cbn. rewrite ldl_stl by (by apply Hm).
  apply in_u_small, SET_MASK_in_u; [apply ldl_range | done].
Qed.

Lemma word_set_ne d v off mask val v' off' : voices_ok d -> voice_word v off -> voice_word v' off' ->
  v <> v' \/ off <> off' -> word (voice_set_mask d v off mask val) v' off' = word d v' off'.
Proof using All.
  intros Hd Hv Hv' Hne. unfold word. cbn. apply ldl_stl_ne.
  change (voice_addr (voice_set_mask d v off mask val) v') with (voice_addr d v').
  destruct Hv as (? & [k ->] & ?), Hv' as (? & [k' ->] & ?).
  rewrite !voice_addr_eq by done. lia.
Qed.

(** A field of a word, after a field was set. *)
Lemma get_set_eq d v off mask x s w : voices_ok d -> voice_word v off -> in_u 32 mask -> field_mask mask s w = true ->
  voice_get_mask (voice_set_mask d v off mask x) v off mask = x mod 2 ^ w.
Proof using All.
  intros Hd Hv Hm Hf. change (voice_get_mask (voice_set_mask d v off mask x) v off mask) with
    (GET_MASK (word (voice_set_mask d v off mask x) v off) mask).
  rewrite word_set_same by done. by apply (GET_SET_MASK_eq _ _ s w).
Qed.

Lemma get_set_ne d v off mask x v' off' mask' : voices_ok d -> voice_word v off -> voice_word v' off' ->
  in_u 32 mask -> in_u 32 mask' -> v <> v' \/ off <> off' \/ mask .& mask' = 0 ->
  voice_get_mask (voice_set_mask d v off mask x) v' off' mask' = voice_get_mask d v' off' mask'.
Proof using All.
  intros Hd Hv Hv' Hm Hm' Hne. change (voice_get_mask (voice_set_mask d v off mask x) v' off' mask') with
    (GET_MASK (word (voice_set_mask d v off mask x) v' off') mask').
  destruct (Z.eq_dec v v') as [<-|Hvv]; [| rewrite word_set_ne; [done.. | by left]].
  destruct (Z.eq_dec off off') as [<-|Ho]; [| rewrite word_set_ne; [done.. | by right]].
  rewrite word_set_same by done. apply GET_SET_MASK_ne; [done |]. by destruct Hne as [|[|]].
Qed.

End Words.

(** ** Linked lists *)

Abbreviation NO_VOICE := 0xFFFF.

(** [chain nx x l]: following [nx] from [x] visits the voices [l] and then ends. *)
Fixpoint chain (nx : Z -> Z) (x : Z) (l : list Z) : Prop :=
  match l with
  | [] => x = NO_VOICE
  | v :: l => x = v /\ 0 <= v < MCPX_HW_MAX_VOICES /\ chain nx (nx v) l
  end.

Fixpoint insert_after (a h : Z) (l : list Z) : list Z :=
  match l with
  | [] => []
  | v :: l => if v =? a then v :: h :: l else v :: insert_after a h l
  end.

Lemma chain_ext nx nx' x l : (forall v, v ∈ l -> nx' v = nx v) -> chain nx x l -> chain nx' x l.
Proof.
  revert x. induction l as [|v l IH]; intros x Hnx; [done |]. intros (-> & Hv & Hc).
  split; [done | split; [done |]]. rewrite Hnx by (apply elem_of_cons; by left).
  apply IH; [| done]. intros u Hu. apply Hnx, elem_of_cons. by right.
Qed.

Lemma chain_unique nx x l1 l2 : chain nx x l1 -> chain nx x l2 -> l1 = l2.
Proof.
  revert x l2. induction l1 as [|v l1 IH]; intros x [|v2 l2]; cbn; try done.
  - intros -> (? & ? & _). lia.
  - intros (-> & ? & _) ?. lia.
  - intros (-> & _ & H1) (-> & _ & H2). f_equal. by apply (IH (nx v2)).
Qed.

Lemma chain_suffix nx x l1 v l2 : chain nx x (l1 ++ v :: l2) -> chain nx v (v :: l2).
Proof.
  revert x. induction l1 as [|u l1 IH]; intros x; cbn [app].
  - intros (_ & Hv & Hc). done.
  - intros (_ & _ & Hc). by apply (IH (nx u)).
Qed.

Lemma chain_NoDup nx x l : chain nx x l -> NoDup l.
Proof.
  revert x. induction l as [|v l IH]; intros x Hc; [constructor |]. pose proof Hc as (-> & Hv & Hc2). constructor.
  - intros (l1 & l2 & ->)%list_elem_of_split.
    assert (E : v :: l2 = v :: l1 ++ v :: l2).
    { apply (chain_unique nx v); [| done]. by apply (chain_suffix nx (nx v) l1). }
    apply (f_equal length) in E. cbn in E. rewrite length_app in E. cbn in E. lia.
  - by apply (IH (nx v)).
Qed.

Lemma chain_range nx x l v : chain nx x l -> v ∈ l -> 0 <= v < MCPX_HW_MAX_VOICES.
Proof.
  revert x. induction l as [|u l IH]; intros x; [set_solver |].
  intros (_ & Hu & Hc) [->|Hv]%elem_of_cons; [done | by apply (IH (nx u))].
Qed.

(** There is no room for more than 256 different voices. *)
Lemma voices_bound (l : list Z) : NoDup l -> (forall v, v ∈ l -> 0 <= v < MCPX_HW_MAX_VOICES) ->
  zlen l <= MCPX_HW_MAX_VOICES.
Proof.
  intros Hn Hr. assert (Hs : l ⊆+ seqZ 0 MCPX_HW_MAX_VOICES).
  { apply NoDup_submseteq; [done |]. intros v Hv. apply elem_of_seqZ. specialize (Hr v Hv). lia. }
  apply submseteq_length in Hs. rewrite length_seqZ in Hs. lia.
Qed.

Lemma chain_insert_after nx nx' a h x l :
  nx' a = h -> nx' h = nx a -> 0 <= h < MCPX_HW_MAX_VOICES ->
  (forall v, 0 <= v < MCPX_HW_MAX_VOICES -> v <> a -> v <> h -> nx' v = nx v) ->
  NoDup l -> h ∉ l -> chain nx x l -> chain nx' x (insert_after a h l).
Proof.
  intros Ha Hh Hr Hne. revert x. induction l as [|v l IH]; intros x Hnd Hhl; [done |].
  intros (-> & Hv & Hc). apply NoDup_cons in Hnd as [Hvl Hnd]. cbn.
  destruct (Z.eqb_spec v a) as [->|Hva]; cbn.
  - rewrite Ha, Hh. do 4 (split; [done |]). apply (chain_ext nx); [| done].
    apply not_elem_of_cons in Hhl as [? ?]. intros u Hu. apply Hne; [by eapply chain_range | by intros -> ..].
  - split; [done | split; [done |]]. apply not_elem_of_cons in Hhl as [? ?].
    rewrite Hne by done. by apply IH.
Qed.

Lemma insert_after_ne a h l : a ∉ l -> insert_after a h l = l.
Proof.
  induction l as [|v l IH]; [done |]. intros Hn. cbn. destruct (Z.eqb_spec v a); [set_solver |].
  by rewrite IH by set_solver.
Qed.

(** ** Types *)

Record ssl_ok (s : MCPXAPUVPSSLData) : Prop := {
  ok_ssl_base : length (ssl_base s) = 2%nat;
  ok_ssl_count : length (ssl_count s) = 2%nat
}.

Record entry_ok (e : hrtf_entry) : Prop := {
  ok_left : length (hrir_left e) = 31%nat;
  ok_right : length (hrir_right e) = 31%nat
}.

(** The arrays have their sizes and no spin lock is held. *)
Record vp_ok {M} (d : VPState M) : Prop := {
  ok_ssl_length : length (ssl d) = 256%nat;
  ok_ssl : Forall ssl_ok (ssl d);
  ok_locked : length (voice_locked d) = 4%nat;
  ok_words : Forall (in_u 64) (voice_locked d);
  ok_spin : voice_spinlocks d = replicate 256 false;
  ok_submix : length (hrtf_submix d) = 4%nat;
  ok_headroom : length (submix_headroom d) = 32%nat;
  ok_entries_length : length (entries d) = 128%nat;
  ok_entries : Forall entry_ok (entries d);
  ok_current : 0 <= current_entry d;
  ok_tar : length (hrtf_tar d) = 256%nat
}.

Create HintDb vp.

Section Types.

Context {M : Type} `{DmaMemory M}.

Implicit Types d : VPState M.

Lemma voice_index v : u16 v < MCPX_HW_MAX_VOICES -> 0 <= u16 v < MCPX_HW_MAX_VOICES /\ 0 <= u16 v / 64 < 4.
Proof using.
  intros Hv. pose proof (Z.mod_pos_bound v (2 ^ 16) ltac:(lia)). split; [lia |].
  split; [apply Z.div_pos; lia | apply Z.div_lt_upper_bound; lia].
Qed.

(** Locking a voice sets or clears its bit. *)
Lemma voice_lock_eq d v lock : vp_ok d -> u16 v < MCPX_HW_MAX_VOICES ->
  exists word, rd (voice_locked d) (u16 v / 64) = Ok word /\ in_u 64 word /\
  voice_lock d v lock = Ok (d <| voice_locked := <[Z.to_nat (u16 v / 64) :=
      if lock then word .| (1 ≪ (u16 v mod 64)) else word .& u64 (Z.lnot (1 ≪ (u16 v mod 64)))]> (voice_locked d) |>).
Proof using.
  intros Hd Hv. destruct (voice_index v Hv) as [Hi Hw]. pose proof (ok_locked d Hd) as Hl.
  destruct (rd_ok (voice_locked d) (u16 v / 64)) as (w & Hr & Hlk); [lia |]. exists w.
  split; [done | split; [by apply (Forall_lookup_1 _ _ _ _ (ok_words d Hd) Hlk) |]].
  unfold voice_lock. rewrite c_assert_true by (by apply Z.ltb_lt). cbn [mbind outcome_bind].
  unfold spin_lock, spin_unlock. rewrite (ok_spin d Hd).
  destruct (rd_ok (replicate 256 false) (u16 v)) as (b & Hb & Hlb); [rewrite length_replicate; lia |].
  apply lookup_replicate_1 in Hlb as [-> _]. rewrite Hb. cbn [mbind outcome_bind].
  rewrite wr_ok by (rewrite length_replicate; lia). cbn [mbind outcome_bind]. rewrite Hr. cbn [mbind outcome_bind].
  rewrite (wr_ok (voice_locked d)) by lia. cbn [mbind outcome_bind].
  rewrite wr_ok by (rewrite length_insert, length_replicate; lia). cbn [mbind outcome_bind].
  rewrite list_insert_insert_eq, list_insert_id by (apply lookup_replicate_2; lia).
  by rewrite <- (ok_spin d Hd).
Qed.

Lemma vp_ok_locked d i w : vp_ok d -> in_u 64 w -> vp_ok (d <| voice_locked := <[i := w]> (voice_locked d) |>).
Proof using.
  intros [] Hw. split; cbn; try done; [by rewrite length_insert |]. by apply Forall_insert.
Qed.

Lemma voice_lock_safe d v lock : vp_ok d -> safe vp_ok (voice_lock d v lock).
Proof using.
  intros Hd. destruct (Z.lt_ge_cases (u16 v) MCPX_HW_MAX_VOICES) as [Hv|Hv].
  - destruct (voice_lock_eq d v lock Hd Hv) as (w & _ & Hw & ->). cbn. apply vp_ok_locked; [done |].
    destruct lock; [| by apply in_u_land_l]. apply in_u_lor; [lia | done |].
    pose proof (Z.mod_pos_bound (u16 v) 64 ltac:(lia)). rewrite Z.shiftl_1_l.
    split; [lia | apply Z.pow_lt_mono_r; lia].
  - unfold voice_lock. apply safe_assert. intros ?%Z.ltb_lt. lia.
Qed.

Lemma is_voice_locked_safe d v : vp_ok d -> safe (fun _ => True) (is_voice_locked d v).
Proof using.
  intros Hd. unfold is_voice_locked. apply safe_assert. intros Hv%Z.ltb_lt.
  destruct (voice_index v Hv) as [_ Hw].
  destruct (rd_ok (voice_locked d) (u16 v / 64)) as (w & -> & _); [by rewrite (ok_locked d Hd); lia |]. done.
Qed.

(** Storing to guest memory or to a register changes no array. *)
Lemma vp_ok_mem d m : vp_ok d -> vp_ok (d <| mem := m |>).
Proof using. intros []. by split. Qed.

Lemma vp_ok_regs d r : vp_ok d -> vp_ok (d <| regs := r |>).
Proof using. intros []. by split. Qed.

Lemma vp_ok_set_irq d b : vp_ok d -> vp_ok (d <| set_irq := b |>).
Proof using. intros []. by split. Qed.

Lemma vp_ok_set_mask d v off mask val : vp_ok d -> vp_ok (voice_set_mask d v off mask val).
Proof using. apply vp_ok_mem. Qed.

Lemma vp_ok_envelope d v start cur count env0 enva : vp_ok d -> vp_ok (voice_on_envelope d v start cur count env0 enva).
Proof using.
  intros Hd. unfold voice_on_envelope.
  repeat match goal with |- context [if ?b then _ else _] => destruct b end; by repeat apply vp_ok_set_mask.
Qed.

End Types.

#[export] Hint Resolve vp_ok_mem vp_ok_regs vp_ok_set_irq vp_ok_set_mask vp_ok_envelope voice_lock_safe : vp.

Section Safety.

Context {M : Type} `{DmaMemory M}.

Implicit Types d : VPState M.

Lemma vp_ok_ssl d i s : vp_ok d -> ssl_ok s -> vp_ok (d <| ssl := <[i := s]> (ssl d) |>).
Proof using. intros [] Hs. split; cbn; try done; [by rewrite length_insert |]. by apply Forall_insert. Qed.

Lemma vp_ok_entry d i e : vp_ok d -> entry_ok e -> vp_ok (d <| entries := <[i := e]> (entries d) |>).
Proof using. intros [] Hs. split; cbn; try done; [by rewrite length_insert |]. by apply Forall_insert. Qed.

Lemma rd_ssl d v : vp_ok d -> 0 <= v < MCPX_HW_MAX_VOICES -> exists s, rd (ssl d) v = Ok s /\ ssl_ok s.
Proof using.
  intros Hd Hv. destruct (rd_ok (ssl d) v) as (s & Hr & Hl); [by rewrite (ok_ssl_length d Hd); lia |].
  exists s. split; [done |]. by apply (Forall_lookup_1 _ _ _ _ (ok_ssl d Hd) Hl).
Qed.

Lemma rd_entry d i : vp_ok d -> 0 <= i < HRTF_ENTRY_COUNT -> exists e, rd (entries d) i = Ok e /\ entry_ok e.
Proof using.
  intros Hd Hi. destruct (rd_ok (entries d) i) as (s & Hr & Hl); [by rewrite (ok_entries_length d Hd); lia |].
  exists s. split; [done |]. by apply (Forall_lookup_1 _ _ _ _ (ok_entries d Hd) Hl).
Qed.

Lemma voice_off_safe d v : vp_ok d -> safe vp_ok (voice_off d v).
Proof using.
  intros Hd. unfold voice_off. cbv zeta. set (d1 := voice_set_mask _ _ _ _ _).
  assert (Hd1 : vp_ok d1) by by apply vp_ok_set_mask.
  eapply (safe_bind (fun _ => True)).
  - destruct (negb _); [| done]. apply safe_assert. intros Hv%Z.ltb_lt.
    destruct (voice_index v Hv) as [Hi _]. destruct (rd_ssl d1 (u16 v) Hd1 Hi) as (s & -> & _).
    cbn [mbind outcome_bind]. by apply safe_assert.
  - intros n _. cbn [safe]. unfold set_notify_status. cbv zeta. auto 6 with vp.
Qed.

Lemma voice_on_link_safe d h : vp_ok d -> safe vp_ok (voice_on_link d h).
Proof using.
  intros Hd. unfold voice_on_link.
  rewrite (GET_MASK_field _ NV_PAPU_FEAV_LST 16 2) by done.
  pose proof (Z.mod_pos_bound (rget (regs d) NV_PAPU_FEAV ≫ 16) (2 ^ 2) ltac:(lia)).
  destruct (Z.eqb_spec ((rget (regs d) NV_PAPU_FEAV ≫ 16) mod 2 ^ 2) 0); cbn [negb].
  - apply safe_assert. intros _. cbn [mbind outcome_bind safe]. auto 8 with vp.
  - destruct (rd_ok voice_list_regs ((rget (regs d) NV_PAPU_FEAV ≫ 16) mod 2 ^ 2 - 1)) as (r & -> & _); [cbn; lia |].
    cbn [mbind outcome_bind safe]. auto 8 with vp.
Qed.

(** What the 16-bit handle of a method may be. *)
Lemma handle_range argument : 0 <= argument .& 0xFFFF < 2 ^ 16.
Proof using. change 0xFFFF with (Z.ones 16). rewrite Z.land_ones by lia. apply Z.mod_pos_bound. lia. Qed.

(** A voice that passed the test for being locked exists. *)
Lemma is_voice_locked_range d v b : is_voice_locked d v = Ok b -> u16 v < MCPX_HW_MAX_VOICES.
Proof using. unfold is_voice_locked. intros Hr. inv_ok. by apply Z.ltb_lt. Qed.

Lemma voice_on_start_safe d h argument : vp_ok d -> 0 <= h < MCPX_HW_MAX_VOICES ->
  safe vp_ok (voice_on_start d h argument).
Proof using.
  intros Hd Hh. unfold voice_on_start. cbv zeta.
  eapply safe_bind; [by apply voice_on_link_safe |]. intros d2 Hd2.
  set (d3 := voice_set_mask d2 _ _ _ _). assert (Hd3 : vp_ok d3) by (by apply vp_ok_set_mask).
  destruct (rd_ssl d3 h Hd3 Hh) as (s & -> & Hs). cbn [mbind outcome_bind].
  rewrite wr_ok by (rewrite (ok_ssl_length d3 Hd3); lia). cbn [mbind outcome_bind].
  assert (Hd4 : vp_ok (d3 <| ssl := <[Z.to_nat h := s <| ssl_seg := 0 |> <| ssl_index := 0 |>]> (ssl d3) |>))
    by (apply vp_ok_ssl; [done | destruct Hs; by split]).
  set (d4 := d3 <| ssl := _ |>) in *. unfold voice_reset_filters.
  rewrite c_assert_true by (apply Z.ltb_lt; rewrite (in_u_small 16) by (unfold in_u; lia); lia).
  cbn [mbind outcome_bind safe]. auto 8 with vp.
Qed.

Lemma voice_on_safe d argument : vp_ok d -> safe vp_ok (voice_on d argument).
Proof using.
  intros Hd. unfold voice_on. cbv zeta. set (h := argument .& NV1BA0_PIO_VOICE_ON_HANDLE).
  assert (Hh : 0 <= h < 2 ^ 16) by apply handle_range.
  destruct (is_voice_locked d h) as [locked| | |] eqn:El; cbn [mbind outcome_bind];
    try (pose proof (is_voice_locked_safe d h Hd) as Hs; by rewrite El in Hs).
  apply is_voice_locked_range in El. rewrite (in_u_small 16) in El by done.
  eapply (safe_bind vp_ok); [destruct locked; [done | auto with vp] |]. intros d1 Hd1.
  eapply safe_bind; [apply voice_on_start_safe; [done | lia] |]. intros d2 Hd2.
  destruct locked; [done | by apply voice_lock_safe].
Qed.

Lemma voice_release_safe d argument : vp_ok d -> safe vp_ok (voice_release d argument).
Proof using.
  intros Hd. unfold voice_release. cbv zeta. eapply safe_bind; [by apply is_voice_locked_safe |]. intros locked _.
  eapply (safe_bind vp_ok); [destruct locked; [done | auto with vp] |]. intros d1 Hd1.
  destruct locked; [cbn [safe]; auto 8 with vp | apply voice_lock_safe; auto 6 with vp].
Qed.

Lemma set_hrir_coeff_safe d channel idx value : vp_ok d -> current_entry d < HRTF_ENTRY_COUNT -> 0 <= idx < 31 ->
  safe (fun d' => vp_ok d' /\ current_entry d' = current_entry d) (set_hrir_coeff_tar d channel idx value).
Proof using.
  intros Hd Hc Hi. unfold set_hrir_coeff_tar. pose proof (ok_current d Hd) as H0.
  destruct (rd_entry d (current_entry d) Hd) as (e & -> & [Hl Hr]); [lia |]. cbn [mbind outcome_bind].
  destruct (channel =? 0); rewrite wr_ok by lia; cbn [mbind outcome_bind];
    (rewrite wr_ok by (rewrite (ok_entries_length d Hd); lia)); cbn;
    (split; [| done]); (apply vp_ok_entry; [done |]); split; cbn; by rewrite ?length_insert.
Qed.

Lemma set_hrir_safe d method argument :
  vp_ok d -> NV1BA0_PIO_SET_HRIR <= method <= NV1BA0_PIO_SET_HRIR_X - 1 -> safe vp_ok (set_hrir d method argument).
Proof using.
  intros Hd Hm. unfold set_hrir. apply safe_assert. intros Hc%Z.ltb_lt. cbv zeta.
  set (slot := (method - NV1BA0_PIO_SET_HRIR) / 4).
  assert (Hslot : 0 <= slot < 15) by (unfold slot; split; [apply Z.div_pos; lia | apply Z.div_lt_upper_bound; lia]).
  eapply safe_bind; [apply set_hrir_coeff_safe; [done | lia..] |]. intros d1 [Hd1 E1].
  eapply safe_bind; [apply set_hrir_coeff_safe; [done | lia..] |]. intros d2 [Hd2 E2].
  eapply safe_bind; [apply set_hrir_coeff_safe; [done | lia..] |]. intros d3 [Hd3 E3].
  eapply safe_mono; [apply set_hrir_coeff_safe; [done | lia..] |]. by intros d4 [? _].
Qed.

Lemma set_hrir_x_safe d argument : vp_ok d -> safe vp_ok (set_hrir_x d argument).
Proof using.
  intros Hd. unfold set_hrir_x. apply safe_assert. intros Hc%Z.ltb_lt. cbv zeta.
  eapply safe_bind; [apply set_hrir_coeff_safe; [done | lia..] |]. intros d1 [Hd1 E1].
  eapply safe_bind; [apply set_hrir_coeff_safe; [done | lia..] |]. intros d2 [Hd2 E2].
  pose proof (ok_current d2 Hd2). destruct (rd_entry d2 (current_entry d2) Hd2) as (e & -> & He); [lia |].
  cbn [mbind outcome_bind]. rewrite wr_ok by (rewrite (ok_entries_length d2 Hd2); lia). cbn.
  apply vp_ok_entry; [done |]. destruct He. by split.
Qed.

(** The methods that index an array with the current voice as a signed number. *)
Definition negative_index d (addr val : Z) : bool :=
  (2 ^ 31 <=? rget (regs d) NV_PAPU_FECV) &&
  ((addr =? NV1BA0_PIO_SET_VOICE_SSL_A) || (addr =? NV1BA0_PIO_SET_VOICE_SSL_B) ||
   ((addr =? NV1BA0_PIO_SET_VOICE_TAR_HRTF) && (u32 val .& 0xFFFF <? HRTF_ENTRY_COUNT))).

Lemma sext_voice d : in_u 32 (rget (regs d) NV_PAPU_FECV) ->
  sext 32 (rget (regs d) NV_PAPU_FECV) =
    if 2 ^ 31 <=? rget (regs d) NV_PAPU_FECV then rget (regs d) NV_PAPU_FECV - 2 ^ 32 else rget (regs d) NV_PAPU_FECV.
Proof using.
  intros Hv. unfold sext. rewrite in_u_small by done. change (2 ^ (32 - 1)) with (2 ^ 31). by zcases.
Qed.

Lemma set_voice_ssl_run d ssl_no argument :
  vp_ok d -> in_u 32 (rget (regs d) NV_PAPU_FECV) -> 0 <= ssl_no < 2 ->
  if 2 ^ 31 <=? rget (regs d) NV_PAPU_FECV then set_voice_ssl d ssl_no argument = Undef
  else safe vp_ok (set_voice_ssl d ssl_no argument).
Proof using.
  intros Hd Hv Hn. unfold set_voice_ssl. rewrite sext_voice by done. unfold in_u in Hv.
  destruct (Z.leb_spec (2 ^ 31) (rget (regs d) NV_PAPU_FECV)).
  - rewrite c_assert_true by (apply Z.ltb_lt; lia). unfold rd. cbn [mbind outcome_bind].
    by destruct (Z.ltb_spec (rget (regs d) NV_PAPU_FECV - 2 ^ 32) 0); [| lia].
  - apply safe_assert. intros Hlt%Z.ltb_lt.
    destruct (rd_ssl d (rget (regs d) NV_PAPU_FECV) Hd) as (s & -> & [Hb Hc]); [lia |]. cbn [mbind outcome_bind].
    rewrite wr_ok by lia. cbn [mbind outcome_bind]. rewrite wr_ok by lia. cbn [mbind outcome_bind].
    rewrite wr_ok by (rewrite (ok_ssl_length d Hd); lia). cbn [mbind outcome_bind safe].
    apply vp_ok_ssl; [done |]. split; cbn; by rewrite length_insert.
Qed.

Lemma set_voice_tar_hrtf_run d argument :
  vp_ok d -> in_u 32 (rget (regs d) NV_PAPU_FECV) ->
  if (2 ^ 31 <=? rget (regs d) NV_PAPU_FECV) && (argument .& 0xFFFF <? HRTF_ENTRY_COUNT)
  then set_voice_tar_hrtf d argument = Undef
  else safe vp_ok (set_voice_tar_hrtf d argument).
Proof using.
  intros Hd Hv. unfold set_voice_tar_hrtf. rewrite sext_voice by done. unfold in_u in Hv. cbv zeta.
  assert (Hm : GET_MASK argument 0xFFFF = argument .& 0xFFFF) by (unfold GET_MASK; by rewrite Z.shiftr_0_r).
  rewrite Hm. pose proof (handle_range argument) as Hh. set (h := argument .& 0xFFFF) in *.
  set (v := if 2 ^ 31 <=? _ then _ else _). set (d1 := voice_set_mask _ _ _ _ _).
  assert (Hd1 : vp_ok d1) by by apply vp_ok_set_mask.
  destruct (Z.leb_spec (2 ^ 31) (rget (regs d) NV_PAPU_FECV)); cbn [andb].
  - destruct (Z.ltb_spec v MCPX_HW_MAX_3D_VOICES); [| lia]. destruct (Z.ltb_spec h HRTF_ENTRY_COUNT).
    + destruct (Z.eqb_spec h HRTF_NULL_HANDLE); [lia |]. cbn [negb andb c_assert mbind outcome_bind].
      destruct (rd_entry d1 h Hd1) as (e & -> & _); [lia |]. cbn [mbind outcome_bind]. by rewrite wr_undef by lia.
    + destruct (negb _); [| done]. cbn [andb]. by apply safe_assert.
  - destruct (_ && _) eqn:Eb; [| done]. apply andb_true_iff in Eb as [Hlt%Z.ltb_lt _].
    apply safe_assert. intros Hc%Z.ltb_lt. destruct (rd_entry d1 h Hd1) as (e & -> & _); [lia |].
    cbn [mbind outcome_bind]. rewrite wr_ok by (rewrite (ok_tar d1 Hd1); lia). cbn [mbind outcome_bind safe].
    destruct Hd1. split; cbn; try done. by rewrite length_insert.
Qed.

Lemma negative_index_false d addr val :
  addr <> NV1BA0_PIO_SET_VOICE_SSL_A -> addr <> NV1BA0_PIO_SET_VOICE_SSL_B -> addr <> NV1BA0_PIO_SET_VOICE_TAR_HRTF ->
  negative_index d addr val = false.
Proof using.
  intros. unfold negative_index. zcases; done.
Qed.

(** Take the branches of [fe_method] one by one. *)
Ltac next_method :=
  match goal with
  | |- safe _ (if ?m =? ?k then _ else _) => destruct (Z.eqb_spec m k); [| next_method]
  | |- safe _ (if case_4 ?m ?v ?st then _ else _) => destruct (case_4 m v st); [| next_method]
  | |- safe _ (if (?a <=? ?m) && (?m <=? ?b) then _ else _) =>
      let E := fresh "E" in destruct ((a <=? m) && (m <=? b)) eqn:E;
        [rewrite andb_true_iff, !Z.leb_le in E | next_method]
  | |- _ => idtac
  end.

Lemma fe_method_run d method argument :
  vp_ok d -> in_u 32 (rget (regs d) NV_PAPU_FECV) -> in_u 32 argument ->
  if negative_index d method argument then fe_method d method argument = Undef
  else safe vp_ok (fe_method d method argument).
Proof using.
  intros Hd Hv Ha. unfold fe_method. cbv zeta. set (d1 := d <| regs := _ |>).
  assert (Hd1 : vp_ok d1) by by apply vp_ok_regs.
  assert (E1 : rget (regs d1) NV_PAPU_FECV = rget (regs d) NV_PAPU_FECV) by (cbn; by rewrite !rget_rset_ne by done).
  assert (Hu : u32 argument = argument) by by apply in_u_small.
  destruct (decide (method = NV1BA0_PIO_SET_VOICE_SSL_A)) as [->|NA].
  { pose proof (set_voice_ssl_run d1 0 argument Hd1) as Hr. rewrite E1 in Hr. unfold negative_index. cbn -[Z.pow].
    rewrite andb_true_r. apply Hr; [done | lia]. }
  destruct (decide (method = NV1BA0_PIO_SET_VOICE_SSL_B)) as [->|NB].
  { pose proof (set_voice_ssl_run d1 1 argument Hd1) as Hr. rewrite E1 in Hr. unfold negative_index. cbn -[Z.pow].
    rewrite andb_true_r. apply Hr; [done | lia]. }
  destruct (decide (method = NV1BA0_PIO_SET_VOICE_TAR_HRTF)) as [->|NC].
  { pose proof (set_voice_tar_hrtf_run d1 argument Hd1) as Hr. rewrite E1 in Hr. unfold negative_index.
    rewrite Hu. cbn -[Z.pow]. by apply Hr. }
  rewrite negative_index_false by done. clear Hv E1. clearbody d1.
  next_method; cbn [safe];
    repeat match goal with |- safe _ (c_assert _;; _) => apply safe_assert; intros _; cbn [safe] end;
    match goal with
    | |- safe _ (voice_lock _ _ _) => by apply voice_lock_safe
    | |- safe _ (voice_on _ _) => by apply voice_on_safe
    | |- safe _ (voice_release _ _) => by apply voice_release_safe
    | |- safe _ (voice_off _ _) => by apply voice_off_safe
    | |- safe _ (set_hrir _ _ _) => by apply set_hrir_safe
    | |- safe _ (set_hrir_x _ _) => by apply set_hrir_x_safe
    | |- safe _ (set_voice_ssl _ _ _) => congruence
    | |- safe _ (set_voice_tar_hrtf _ _) => congruence
    | |- vp_ok _ => try (destruct Hd1; split; done)
    | |- _ => idtac
    end.
  - destruct Hd1. split; try done. cbn. rewrite (GET_MASK_field _ _ 0 16) by done. apply Z.mod_pos_bound. lia.
  - rewrite wr_ok; [destruct Hd1; split; try done; cbn; by rewrite length_insert |].
    rewrite (ok_headroom d1 Hd1). split; [apply Z.div_pos; lia | apply Z.div_lt_upper_bound; lia].
  - unfold idle_voice. apply safe_assert. intros _. cbn [safe]. auto with vp.
  - destruct (voice_field method argument) as [[[off mask] val]|]; [by apply vp_ok_set_mask | done].
Qed.

End Safety.

(** C28: Every write of the guest to the voice processor's registers is either well
    behaved or one precise kind of memory corruption. If the current voice register
    holds a number of 2^31 or more, then setting a stream list, or an existing HRTF
    target, indexes an array with it as a negative number: the two range checks
    compare signed. Every other write keeps the arrays at their types, with all
    locks released, or stops at an assertion. *)
Theorem vp_write_types {M} `{DmaMemory M} (d : VPState M) addr val :
  vp_ok d -> in_u 32 (rget (regs d) NV_PAPU_FECV) -> in_u 16 addr ->
  if negative_index d addr val then vp_write d addr val = Undef else safe vp_ok (vp_write d addr val).
Proof.
  intros Hd Hv Haddr. unfold vp_write. rewrite (u32_small addr) by (unfold in_u in Haddr; lia).
  pose proof (fe_method_run d addr (u32 val) Hd Hv) as Hr.
  assert (Hn : negative_index d addr (u32 val) = negative_index d addr val)
    by (unfold negative_index; by rewrite Z.mod_mod).
  rewrite Hn in Hr. destruct (passed_on addr) eqn:Ep; [apply Hr, in_u_mod; lia |].
  rewrite negative_index_false by (intros ->; discriminate Ep). by destruct (_ || _).
Qed.

(** ** Switching voices on *)

(** What a selection of the antecedent [feav] makes of list number [j]. *)
Definition insert_voice (feav h : Z) (j : nat) (l : list Z) : list Z :=
  let list := GET_MASK feav NV_PAPU_FEAV_LST in
  if list =? NV1BA0_PIO_SET_ANTECEDENT_VOICE_LIST_INHERIT then insert_after (GET_MASK feav NV_PAPU_FEAV_VALUE) h l
  else if list =? Z.of_nat j + 1 then h :: l else l.

(** The voice whose link a selection changes, besides the new one's. *)
Definition antecedent (feav : Z) : option Z :=
  if GET_MASK feav NV_PAPU_FEAV_LST =? NV1BA0_PIO_SET_ANTECEDENT_VOICE_LIST_INHERIT
  then Some (GET_MASK feav NV_PAPU_FEAV_VALUE) else None.

Section Lists.

Context {M : Type} `{DmaMemoryLaws M}.

Implicit Types d : VPState M.

Definition next_voice d (v : Z) : Z :=
  voice_get_mask d v NV_PAVS_VOICE_TAR_PITCH_LINK NV_PAVS_VOICE_TAR_PITCH_LINK_NEXT_VOICE_HANDLE.

Definition pitch_of d (v : Z) : Z := voice_get_mask d v NV_PAVS_VOICE_TAR_PITCH_LINK NV_PAVS_VOICE_TAR_PITCH_LINK_PITCH.

Definition is_active d (v : Z) : bool :=
  negb (voice_get_mask d v NV_PAVS_VOICE_PAR_STATE NV_PAVS_VOICE_PAR_STATE_ACTIVE_VOICE =? 0).

Lemma link_word v : 0 <= v < MCPX_HW_MAX_VOICES -> voice_word v NV_PAVS_VOICE_TAR_PITCH_LINK.
Proof using. intros. split; [done | split; [by exists 31 | lia]]. Qed.

(** Close the side conditions of the lemmas on words. *)
Ltac word_side := first [done | by apply link_word | intuition congruence].

Lemma next_voice_set d v x : voices_ok d -> 0 <= v < MCPX_HW_MAX_VOICES ->
  next_voice (voice_set_mask d v NV_PAVS_VOICE_TAR_PITCH_LINK NV_PAVS_VOICE_TAR_PITCH_LINK_NEXT_VOICE_HANDLE x) v = u16 x.
Proof using All.
  intros Hd Hv. unfold next_voice, voice_get_mask. fold (word (voice_set_mask d v NV_PAVS_VOICE_TAR_PITCH_LINK
    NV_PAVS_VOICE_TAR_PITCH_LINK_NEXT_VOICE_HANDLE x) v NV_PAVS_VOICE_TAR_PITCH_LINK).
  rewrite word_set_same by word_side. by apply (GET_SET_MASK_eq _ _ 0 16).
Qed.

Lemma next_voice_ne d v off mask x u : voices_ok d -> voice_word v off -> 0 <= u < MCPX_HW_MAX_VOICES ->
  u <> v \/ off <> NV_PAVS_VOICE_TAR_PITCH_LINK -> next_voice (voice_set_mask d v off mask x) u = next_voice d u.
Proof using All.
  intros Hd Hv Hu Hne. unfold next_voice, voice_get_mask.
  fold (word (voice_set_mask d v off mask x) u NV_PAVS_VOICE_TAR_PITCH_LINK).
  rewrite word_set_ne by word_side. done.
Qed.

(** A link shares its word with the pitch. *)
Lemma pitch_of_link d v x u : voices_ok d -> 0 <= v < MCPX_HW_MAX_VOICES -> 0 <= u < MCPX_HW_MAX_VOICES ->
  pitch_of (voice_set_mask d v NV_PAVS_VOICE_TAR_PITCH_LINK NV_PAVS_VOICE_TAR_PITCH_LINK_NEXT_VOICE_HANDLE x) u = pitch_of d u.
Proof using All.
  intros Hd Hv Hu. apply get_set_ne; [done | by apply link_word | by apply link_word | done | done | by do 2 right].
Qed.

(** What [voice_on_link] leaves alone: of the voices, all but the links of [h] and of
    the antecedent [a]. *)
Record relinked (h : Z) (a : option Z) d d' : Prop := {
  rl_rest : exists m r, d' = d <| mem := m |> <| regs := r |>;
  rl_ok : voices_ok d';
  rl_regs : forall r, r ∉ (voice_list_regs.*1.*1 : list Z) -> rget (regs d') r = rget (regs d) r;
  rl_words : forall v off, voice_word v off -> off <> NV_PAVS_VOICE_TAR_PITCH_LINK \/ v <> h /\ a <> Some v ->
    word d' v off = word d v off;
  rl_pitch : forall v, 0 <= v < MCPX_HW_MAX_VOICES -> pitch_of d' v = pitch_of d v
}.

(** The registers of a list are not among those that say where the voices are. *)
Lemma top_reg_ne (j : nat) (r : Z * Z * Z) : voice_list_regs !! j = Some r ->
  r.1.1 <> NV_PAPU_VPVADDR /\ r.1.1 ∈ (voice_list_regs.*1.*1 : list Z).
Proof using.
  intros Hj. split; [| by apply list_elem_of_fmap_2, list_elem_of_fmap_2, (list_elem_of_lookup_2 _ j)].
  destruct j as [|[|[|j]]]; by simplify_eq/=.
Qed.

Lemma top_reg_method (j : nat) (r : Z * Z * Z) : voice_list_regs !! j = Some r ->
  r.1.1 <> NV_PAPU_FEDECMETH /\ r.1.1 <> NV_PAPU_FEDECPARAM.
Proof using. intros Hj. destruct j as [|[|[|j]]]; by simplify_eq/=. Qed.

Lemma top_reg_inj (i j : nat) (q r : Z * Z * Z) : voice_list_regs !! i = Some q -> voice_list_regs !! j = Some r ->
  i <> j -> q.1.1 <> r.1.1.
Proof using. intros Hi Hj Hne. destruct i as [|[|[|i]]], j as [|[|[|j]]]; by simplify_eq/=. Qed.

Lemma chain_start nx x l : chain nx x l -> u16 x = x.
Proof using. destruct l as [|v l]; [by intros -> |]. intros (-> & ? & _). apply Z.mod_small. lia. Qed.

Lemma voices_ok_regs d r : voices_ok d -> rget r NV_PAPU_VPVADDR = rget (regs d) NV_PAPU_VPVADDR ->
  voices_ok (d <| regs := r |>).
Proof using.
  intros (Hb & Ht & Hm) E. unfold voices_ok, voice_addr. cbn. rewrite E. by split; [| split].
Qed.

(** On top of list number [i]. *)
Lemma link_top d h (i : nat) (q : Z * Z * Z) :
  voices_ok d -> 0 <= h < MCPX_HW_MAX_VOICES -> voice_list_regs !! i = Some q ->
  let d1 := voice_set_mask d h NV_PAVS_VOICE_TAR_PITCH_LINK NV_PAVS_VOICE_TAR_PITCH_LINK_NEXT_VOICE_HANDLE
              (rget (regs d) q.1.1) in
  let d' := d1 <| regs := rset (regs d1) q.1.1 h |> in
  relinked h None d d' /\
  forall j r l, voice_list_regs !! j = Some r -> chain (next_voice d) (rget (regs d) r.1.1) l -> h ∉ l ->
    chain (next_voice d') (rget (regs d') r.1.1) (if decide (i = j) then h :: l else l).
Proof using All.
  intros Hd Hh Hq d1 d'. destruct (top_reg_ne i q Hq) as [Hne Hin].
  assert (Hd1 : voices_ok d1) by by apply voices_ok_set.
  assert (Hd' : voices_ok d') by (apply voices_ok_regs; [done |]; by rewrite rget_rset_ne).
  assert (Haddr : forall v, voice_addr d' v = voice_addr d v)
    by (intros v; unfold voice_addr; cbn; by rewrite rget_rset_ne).
  assert (Hword : forall v off, word d' v off = word d1 v off) by (intros; unfold word; by rewrite Haddr).
  assert (Hnx : forall v, next_voice d' v = next_voice d1 v)
    by (intros; unfold next_voice, voice_get_mask; by rewrite Haddr).
  split; [split |].
  - by eexists _, _.
  - done.
  - intros r Hr. cbn. by rewrite rget_rset_ne by (intros <-; contradiction).
  - intros v off Hv Hoff. rewrite Hword. apply word_set_ne; word_side.
  - intros v Hv. transitivity (pitch_of d1 v); [unfold pitch_of, voice_get_mask; by rewrite Haddr | by apply pitch_of_link].
  - intros j r l Hr Hc Hhl.
    assert (Hl : chain (next_voice d') (rget (regs d) r.1.1) l).
    { apply (chain_ext (next_voice d)); [| done]. intros v Hv. rewrite Hnx.
      apply next_voice_ne; [done | by apply link_word | by eapply chain_range | left; by intros ->]. }
    destruct (decide (i = j)) as [->|Hij]; cbn.
    + rewrite Hq in Hr. injection Hr as <-. rewrite rget_rset_eq. split; [done | split; [done |]].
      rewrite Hnx. unfold d1. rewrite next_voice_set by done. by rewrite (chain_start _ _ _ Hc).
    + by rewrite rget_rset_ne by by apply (top_reg_inj i j).
Qed.

(** After another voice. *)
Lemma link_after d h a :
  voices_ok d -> 0 <= h < MCPX_HW_MAX_VOICES -> 0 <= a < MCPX_HW_MAX_VOICES ->
  let d1 := voice_set_mask d h NV_PAVS_VOICE_TAR_PITCH_LINK NV_PAVS_VOICE_TAR_PITCH_LINK_NEXT_VOICE_HANDLE
              (next_voice d a) in
  let d' := voice_set_mask d1 a NV_PAVS_VOICE_TAR_PITCH_LINK NV_PAVS_VOICE_TAR_PITCH_LINK_NEXT_VOICE_HANDLE h in
  relinked h (Some a) d d' /\
  forall x l, chain (next_voice d) x l -> h ∉ l -> chain (next_voice d') x (insert_after a h l).
Proof using All.
  intros Hd Hh Ha d1 d'. assert (Hd1 : voices_ok d1) by by apply voices_ok_set.
  split; [split |].
  - by exists (mem d'), (regs d).
  - by apply voices_ok_set.
  - done.
  - intros v off Hv Hoff. unfold d'. rewrite word_set_ne by word_side.
    apply word_set_ne; word_side.
  - intros v Hv. unfold d'. rewrite pitch_of_link by done. by apply pitch_of_link.
  - intros x l Hc Hhl. destruct (decide (a ∈ l)) as [Hal|Hal].
    + assert (a <> h) by by intros ->.
      apply (chain_insert_after (next_voice d)); try done; [| | | by eapply chain_NoDup].
      * unfold d'. rewrite next_voice_set by done. apply Z.mod_small. lia.
      * unfold d'. rewrite next_voice_ne by word_side.
        unfold d1. rewrite next_voice_set by done. unfold next_voice, voice_get_mask.
        rewrite (GET_MASK_field _ _ 0 16) by done. by rewrite Z.mod_mod.
      * intros v Hv Hva Hvh. unfold d'. rewrite next_voice_ne by word_side. apply next_voice_ne; word_side.
    + rewrite insert_after_ne by done. apply (chain_ext (next_voice d)); [| done]. intros v Hv.
      assert (0 <= v < MCPX_HW_MAX_VOICES) by by eapply chain_range. assert (v <> h /\ v <> a) as [? ?] by (split; by intros ->).
      unfold d'. rewrite next_voice_ne by word_side. apply next_voice_ne; word_side.
Qed.

Lemma voice_on_link_spec d h :
  let feav := rget (regs d) NV_PAPU_FEAV in
  voices_ok d -> 0 <= h < MCPX_HW_MAX_VOICES ->
  (GET_MASK feav NV_PAPU_FEAV_LST = NV1BA0_PIO_SET_ANTECEDENT_VOICE_LIST_INHERIT ->
   GET_MASK feav NV_PAPU_FEAV_VALUE < MCPX_HW_MAX_VOICES) ->
  exists d', voice_on_link d h = Ok d' /\ relinked h (antecedent feav) d d' /\
    forall j r l, voice_list_regs !! j = Some r ->
      chain (next_voice d) (rget (regs d) r.1.1) l -> h ∉ l ->
      chain (next_voice d') (rget (regs d') r.1.1) (insert_voice feav h j l).
Proof using All.
  intros feav Hd Hh Ha. unfold voice_on_link, insert_voice, antecedent. fold feav. cbv zeta.
  assert (Hk : 0 <= GET_MASK feav NV_PAPU_FEAV_LST < 4)
    by (rewrite (GET_MASK_field _ _ 16 2) by done; apply Z.mod_pos_bound; lia).
  assert (Hv : 0 <= GET_MASK feav NV_PAPU_FEAV_VALUE)
    by (rewrite (GET_MASK_field _ _ 0 16) by done; apply Z.mod_pos_bound; lia).
  set (k := GET_MASK feav NV_PAPU_FEAV_LST) in *. set (a := GET_MASK feav NV_PAPU_FEAV_VALUE) in *.
  destruct (Z.eqb_spec k NV1BA0_PIO_SET_ANTECEDENT_VOICE_LIST_INHERIT) as [E|E]; cbn [negb].
  - specialize (Ha E). rewrite c_assert_true by (destruct (Z.eqb_spec a 0xFFFF); [lia | done]). cbn [mbind outcome_bind].
    destruct (link_after d h a Hd Hh) as [Hre Hch]; [lia |]. fold (next_voice d a). eexists. split; [done |].
    split; [exact Hre |]. intros j r l _ Hc Hl. by apply Hch.
  - destruct (rd_ok voice_list_regs (k - 1)) as (q & -> & Hq); [cbn; lia |]. cbn [mbind outcome_bind].
    destruct (link_top d h _ q Hd Hh Hq) as [Hre Hch]. eexists. split; [done |]. split; [exact Hre |].
    intros j r l Hr Hc Hl. specialize (Hch j r l Hr Hc Hl).
    destruct (Z.eqb_spec k (Z.of_nat j + 1)), (decide (Z.to_nat (k - 1) = j)); try lia; done.
Qed.

End Lists.

Section VoiceOn.

Context {M : Type} `{DmaMemoryLaws M}.

Implicit Types d : VPState M.

(** A step that stores to words of voice [h] other than its link. *)
Record touches (h : Z) d d' : Prop := {
  t_rest : exists m s, d' = d <| mem := m |> <| ssl := s |>;
  t_ok : voices_ok d';
  t_ssl : forall i, i <> Z.to_nat h -> ssl d' !! i = ssl d !! i;
  t_words : forall v off, voice_word v off -> v <> h \/ off = NV_PAVS_VOICE_TAR_PITCH_LINK -> word d' v off = word d v off
}.

Lemma touches_trans h d1 d2 d3 : touches h d1 d2 -> touches h d2 d3 -> touches h d1 d3.
Proof using.
  intros [(m & s & ->) O1 S1 W1] [(m' & s' & ->) O2 S2 W2]. split; [by exists m', s' | done | |].
  - intros i Hi. by rewrite S2, S1.
  - intros v off Hv Hne. by rewrite W2, W1.
Qed.

Lemma touches_set d h off mask val : voices_ok d -> voice_word h off -> off <> NV_PAVS_VOICE_TAR_PITCH_LINK ->
  touches h d (voice_set_mask d h off mask val).
Proof using All.
  intros Hd Hh Hoff. split; [by exists (mem (voice_set_mask d h off mask val)), (ssl d) | by apply voices_ok_set | done |].
  intros v o Hv Hne. apply word_set_ne; intuition congruence.
Qed.

Lemma touches_ssl d h x : voices_ok d -> touches h d (d <| ssl := <[Z.to_nat h := x]> (ssl d) |>).
Proof using.
  intros Hd. split; [by exists (mem d), (<[Z.to_nat h := x]> (ssl d)) | done | | done].
  intros i Hi. by apply list_lookup_insert_ne.
Qed.

Lemma state_word h : 0 <= h < MCPX_HW_MAX_VOICES ->
  voice_word h NV_PAVS_VOICE_PAR_STATE /\ voice_word h NV_PAVS_VOICE_CUR_ECNT /\ voice_word h NV_PAVS_VOICE_PAR_OFFSET.
Proof using. intros. repeat split; try lia; [by exists 21 | by exists 13 | by exists 22]. Qed.

Lemma touches_envelope d h start cur count env0 enva : voices_ok d -> 0 <= h < MCPX_HW_MAX_VOICES ->
  touches h d (voice_on_envelope d h start cur count env0 enva).
Proof using All.
  intros Hd Hh. destruct (state_word h Hh) as (Hs & He & _). unfold voice_on_envelope. cbv zeta.
  assert (T1 : touches h d (voice_set_mask d h NV_PAVS_VOICE_PAR_STATE cur start)) by by apply touches_set.
  repeat match goal with |- context [if ?b then _ else _] => destruct b end; try done;
    (eapply touches_trans; [exact T1 |]; apply touches_set; [by apply voices_ok_set | done | done]).
Qed.

(** Setting and clearing the lock bit of an unlocked voice. *)
Lemma lock_unlock_word w m : in_u 64 w -> 0 <= m < 64 -> w .& (1 ≪ m) = 0 ->
  (w .| (1 ≪ m)) .& u64 (Z.lnot (1 ≪ m)) = w.
Proof using.
  intros Hw Hm Hz. apply Z.bits_inj'. intros i Hi.
  rewrite Z.land_spec, Z.lor_spec. assert (Hb : Z.testbit (w .& (1 ≪ m)) i = false) by (rewrite Hz; apply Z.testbit_0_l).
  rewrite Z.land_spec in Hb. destruct (Z.lt_ge_cases i 64) as [Hlt|Hge].
  - rewrite Z.mod_pow2_bits_low, Z.lnot_spec by lia. destruct (Z.testbit w i), (Z.testbit (1 ≪ m) i); done.
  - rewrite (Z.mod_pow2_bits_high _ 64) by lia. rewrite andb_false_r.
    symmetry. apply (testbit_small 64); [done | lia].
Qed.

(** Before the unlocking, voice [h] is linked, active and otherwise its own. *)
Lemma voice_on_start_spec d h argument :
  let feav := rget (regs d) NV_PAPU_FEAV in
  vp_ok d -> voices_ok d -> 0 <= h < MCPX_HW_MAX_VOICES ->
  (GET_MASK feav NV_PAPU_FEAV_LST = NV1BA0_PIO_SET_ANTECEDENT_VOICE_LIST_INHERIT ->
   GET_MASK feav NV_PAPU_FEAV_VALUE < MCPX_HW_MAX_VOICES) ->
  exists d2 d', voice_on_link d h = Ok d2 /\ voice_on_start d h argument = Ok d' /\ touches h d2 d' /\
    is_active d' h = true.
Proof using All.
  intros feav Hd Hv Hh Ha. destruct (voice_on_link_spec d h Hv Hh Ha) as (d2 & Hl & [(m & r & ->) Hok _ _ _] & _).
  set (d2 := d <| mem := m |> <| regs := r |>) in *. unfold voice_on_start. rewrite Hl. cbv zeta. cbn [mbind outcome_bind].
  destruct (state_word h Hh) as (Hs & He & Ho).
  assert (Hd2 : vp_ok d2) by by apply vp_ok_regs, vp_ok_mem.
  set (d3 := voice_set_mask d2 _ _ _ _). assert (T3 : touches h d2 d3) by by apply touches_set.
  assert (Hd3 : vp_ok d3) by by apply vp_ok_set_mask.
  destruct (rd_ssl d3 h Hd3 Hh) as (s & -> & _). cbn [mbind outcome_bind].
  rewrite wr_ok by (rewrite (ok_ssl_length d3 Hd3); lia). cbn [mbind outcome_bind].
  set (d4 := d3 <| ssl := _ |>). assert (T4 : touches h d2 d4) by (eapply touches_trans; [exact T3 | apply touches_ssl, T3]).
  set (d5 := voice_on_envelope d4 _ _ _ _ _ _).
  assert (T5 : touches h d2 d5) by (eapply touches_trans; [exact T4 | by apply touches_envelope; [apply T4 |]]).
  set (d6 := voice_on_envelope d5 _ _ _ _ _ _).
  assert (T6 : touches h d2 d6) by (eapply touches_trans; [exact T5 | by apply touches_envelope; [apply T5 |]]).
  unfold voice_reset_filters.
  rewrite c_assert_true by (apply Z.ltb_lt; rewrite (in_u_small 16) by (unfold in_u; lia); lia). cbn [mbind outcome_bind].
  do 2 eexists. split; [done | split; [done | split]].
  - eapply touches_trans; [exact T6 |]. by apply touches_set; [apply T6 | |].
  - unfold is_active, voice_get_mask.
    fold (word (voice_set_mask d6 h NV_PAVS_VOICE_PAR_STATE NV_PAVS_VOICE_PAR_STATE_ACTIVE_VOICE 1) h NV_PAVS_VOICE_PAR_STATE).
    rewrite word_set_same by (first [done | apply T6]). by rewrite (GET_SET_MASK_eq _ _ 21 1).
Qed.

End VoiceOn.

Section VoiceOnTheorem.

Context {M : Type} `{DmaMemoryLaws M}.

Implicit Types d : VPState M.

(** Words are found through one register only. *)
Lemma word_regs d d' v off : mem d' = mem d -> rget (regs d') NV_PAPU_VPVADDR = rget (regs d) NV_PAPU_VPVADDR ->
  word d' v off = word d v off.
Proof using. intros Em Er. unfold word, voice_addr. by rewrite Em, Er. Qed.

Lemma voices_ok_same d d' : mem d' = mem d -> rget (regs d') NV_PAPU_VPVADDR = rget (regs d) NV_PAPU_VPVADDR ->
  voices_ok d -> voices_ok d'.
Proof using. intros Em Er. unfold voices_ok, voice_addr. by rewrite Em, Er. Qed.

Lemma next_voice_word d d' v : word d' v NV_PAVS_VOICE_TAR_PITCH_LINK = word d v NV_PAVS_VOICE_TAR_PITCH_LINK ->
  next_voice d' v = next_voice d v.
Proof using. intros E. unfold next_voice, voice_get_mask. unfold word in E. by rewrite E. Qed.

Lemma pitch_of_word d d' v : word d' v NV_PAVS_VOICE_TAR_PITCH_LINK = word d v NV_PAVS_VOICE_TAR_PITCH_LINK ->
  pitch_of d' v = pitch_of d v.
Proof using. intros E. unfold pitch_of, voice_get_mask. unfold word in E. by rewrite E. Qed.

(** What a switched-on voice [h] means for the lists, the other voices and the rest of
    the unit: of the other voices, at most the link of the antecedent changes. *)
Record switched_on (feav h : Z) d d' : Prop := {
  so_types : vp_ok d';
  so_voices : voices_ok d';
  so_lists : forall j r l, voice_list_regs !! j = Some r -> chain (next_voice d) (rget (regs d) r.1.1) l -> h ∉ l ->
    chain (next_voice d') (rget (regs d') r.1.1) (insert_voice feav h j l);
  so_active : is_active d' h = true;
  so_words : forall v off, voice_word v off -> v <> h ->
    off <> NV_PAVS_VOICE_TAR_PITCH_LINK \/ antecedent feav <> Some v -> word d' v off = word d v off;
  so_pitch : forall v, 0 <= v < MCPX_HW_MAX_VOICES -> pitch_of d' v = pitch_of d v;
  so_ssl : forall i, i <> Z.to_nat h -> ssl d' !! i = ssl d !! i;
  so_regs : forall r, r ∉ (voice_list_regs.*1.*1 : list Z) -> r <> NV_PAPU_FEDECMETH -> r <> NV_PAPU_FEDECPARAM ->
    rget (regs d') r = rget (regs d) r;
  so_rest : exists m r s, d' = d <| mem := m |> <| regs := r |> <| ssl := s |>
}.

(** The antecedent of an inserted voice has to exist. *)
Definition antecedent_ok (feav : Z) : Prop :=
  GET_MASK feav NV_PAPU_FEAV_LST = NV1BA0_PIO_SET_ANTECEDENT_VOICE_LIST_INHERIT ->
  GET_MASK feav NV_PAPU_FEAV_VALUE < MCPX_HW_MAX_VOICES.

Lemma voice_on_start_lists d h argument :
  vp_ok d -> voices_ok d -> 0 <= h < MCPX_HW_MAX_VOICES -> antecedent_ok (rget (regs d) NV_PAPU_FEAV) ->
  exists d', voice_on_start d h argument = Ok d' /\ switched_on (rget (regs d) NV_PAPU_FEAV) h d d'.
Proof using All.
  intros Hd Hv Hh Ha. destruct (voice_on_link_spec d h Hv Hh Ha) as (d2 & Hl & Hre & Hch).
  destruct (voice_on_start_spec d h argument Hd Hv Hh Ha) as (d2' & d' & Hl' & Hrun & Ht & Hact).
  rewrite Hl in Hl'. injection Hl' as <-. exists d'. split; [done |].
  pose proof (voice_on_start_safe d h argument Hd Hh) as Hsafe. rewrite Hrun in Hsafe.
  destruct Hre as [(m & r & ->) Hok Hregs Hw Hp], Ht as [(m' & s & ->) Hok' Hssl Hw'].
  split; [exact Hsafe | exact Hok' | | exact Hact | | | exact Hssl | | by exists m', r, s].
  - intros j q l Hq Hc Hhl. specialize (Hch j q l Hq Hc Hhl). eapply chain_ext; [| exact Hch].
    intros v Hvl. apply next_voice_word, Hw'; [apply link_word, (chain_range _ _ _ _ Hch Hvl) | by right].
  - intros v off Hv' Hne Hkeep. rewrite (Hw' v _ Hv' (or_introl Hne)). apply Hw; [done |]. intuition.
  - intros v Hvr. rewrite <- (Hp v Hvr). apply pitch_of_word, Hw'; [by apply link_word | by right].
  - intros q Hq _ _. by apply Hregs.
Qed.

Lemma is_voice_locked_eq d h : vp_ok d -> 0 <= h < MCPX_HW_MAX_VOICES ->
  exists w, rd (voice_locked d) (h / 64) = Ok w /\ is_voice_locked d h = Ok (negb (w .& (1 ≪ (h mod 64)) =? 0)).
Proof using.
  intros Hd Hh. unfold is_voice_locked. rewrite (in_u_small 16) by (unfold in_u; lia).
  rewrite c_assert_true by (apply Z.ltb_lt; lia). cbn [mbind outcome_bind].
  destruct (rd_ok (voice_locked d) (h / 64)) as (w & -> & _); [| by exists w].
  rewrite (ok_locked d Hd). split; [apply Z.div_pos; lia | apply Z.div_lt_upper_bound; lia].
Qed.

(** Unlocking undoes locking. *)
Lemma relock d h w w2 :
  vp_ok d -> 0 <= h < MCPX_HW_MAX_VOICES -> rd (voice_locked d) (h / 64) = Ok w -> w .& (1 ≪ (h mod 64)) = 0 ->
  let l := <[Z.to_nat (h / 64) := w .| (1 ≪ (h mod 64))]> (voice_locked d) in
  rd l (h / 64) = Ok w2 ->
  <[Z.to_nat (h / 64) := w2 .& u64 (Z.lnot (1 ≪ (h mod 64)))]> l = voice_locked d.
Proof using.
  intros Hd Hh Hw Hz l Hw2. assert (Hi : 0 <= h / 64 < 4)
    by (split; [apply Z.div_pos; lia | apply Z.div_lt_upper_bound; lia]).
  destruct (rd_ok (voice_locked d) (h / 64)) as (w' & E & Hl); [rewrite (ok_locked d Hd); lia |].
  rewrite Hw in E. injection E as <-.
  assert (w2 = w .| (1 ≪ (h mod 64))) as ->.
  { destruct (rd_ok l (h / 64)) as (w' & E & Hl2); [unfold l; rewrite length_insert, (ok_locked d Hd); lia |].
    rewrite Hw2 in E. injection E as <-. unfold l in Hl2.
    rewrite list_lookup_insert_eq in Hl2 by (rewrite (ok_locked d Hd); lia). by injection Hl2. }
  unfold l. rewrite list_insert_insert_eq. apply list_insert_id. rewrite lock_unlock_word; [done | | | done].
  - by apply (Forall_lookup_1 _ _ _ _ (ok_words d Hd) Hl).
  - apply Z.mod_pos_bound. lia.
Qed.

(** The body of the method, for a voice that is locked or not. *)
Lemma voice_on_spec d argument :
  let h := argument .& NV1BA0_PIO_VOICE_ON_HANDLE in
  vp_ok d -> voices_ok d -> h < MCPX_HW_MAX_VOICES -> antecedent_ok (rget (regs d) NV_PAPU_FEAV) ->
  exists d', voice_on d argument = Ok d' /\ switched_on (rget (regs d) NV_PAPU_FEAV) h d d'.
Proof using All.
  intros h Hd Hv Hh Ha. assert (Hh0 : 0 <= h < 2 ^ 16) by apply handle_range.
  assert (Hr : 0 <= h < MCPX_HW_MAX_VOICES) by lia. assert (Hu : u16 h = h) by by apply (in_u_small 16).
  unfold voice_on. fold h. cbv zeta. destruct (is_voice_locked_eq d h Hd Hr) as (w & Hw & ->). cbn [mbind outcome_bind].
  destruct (Z.eqb_spec (w .& (1 ≪ (h mod 64))) 0) as [Hz|]; cbn [negb].
  - destruct (voice_lock_eq d h true Hd) as (w1 & Hw1 & Hin & ->); [lia |]. rewrite Hu in *. rewrite Hw in Hw1.
    injection Hw1 as <-. cbn [mbind outcome_bind]. set (d1 := d <| voice_locked := _ |>).
    assert (Hd1 : vp_ok d1).
    { pose proof (voice_lock_safe d h true Hd) as Hs. destruct (voice_lock_eq d h true Hd) as (w2 & Hw2 & _ & E); [lia |].
      rewrite Hu in *. rewrite Hw in Hw2. injection Hw2 as <-. by rewrite E in Hs. }
    destruct (voice_on_start_lists d1 h argument Hd1) as (d2 & -> & Hs); [by apply (voices_ok_same d) | done | done |].
    cbn [mbind outcome_bind]. destruct (voice_lock_eq d2 h false (so_types _ _ _ _ Hs)) as (w2 & Hw2 & _ & ->); [lia |].
    rewrite Hu in *. eexists. split; [done |]. destruct Hs as [S1 S2 S3 S4 S5 S6 S7 S8 (m & r & s & E)].
    assert (Hlk : <[Z.to_nat (h / 64) := w2 .& u64 (Z.lnot (1 ≪ (h mod 64)))]> (voice_locked d2) = voice_locked d).
    { rewrite E in Hw2 |- *. by apply (relock d h w w2). }
    split; [| exact S2 | exact S3 | exact S4 | exact S5 | exact S6 | exact S7 | exact S8 |].
    + rewrite Hlk. destruct S1, Hd. by split.
    + rewrite Hlk. exists m, r, s. by rewrite E.
  - cbn [mbind outcome_bind]. destruct (voice_on_start_lists d h argument Hd Hv Hr Ha) as (d2 & Hrun & Hs).
    rewrite Hrun. by exists d2.
Qed.

End VoiceOnTheorem.

(** C3: Switching a voice on inserts it into the guest's linked lists. Let the voices
    lie in RAM below 4 GiB, the handle be one of the 256, and the antecedent, where the
    antecedent register selects one, be a voice too. Then the write succeeds. Each of
    the three lists that was a chain without the voice is a chain afterwards: with the
    voice on top if the register selects that list, with the voice after the
    antecedent if the register selects an antecedent in it, and as it was otherwise.
    The voice becomes active. Of the other voices no word changes but the link of the
    antecedent, whose pitch in the same word is kept; no segment state, no register but
    the tops of the lists and the decoded method, and nothing else of the unit, the
    guest's voice locks included, changes. *)
Theorem voice_on_inserts {M} `{DmaMemoryLaws M} (d : VPState M) val :
  let feav := rget (regs d) NV_PAPU_FEAV in
  let h := val .& NV1BA0_PIO_VOICE_ON_HANDLE in
  vp_ok d -> voices_ok d -> in_u 32 val -> h < MCPX_HW_MAX_VOICES -> antecedent_ok feav ->
  exists d', vp_write d NV1BA0_PIO_VOICE_ON val = Ok d' /\ switched_on feav h d d'.
Proof.
  intros feav h Hd Hv Hval Hh Ha. unfold vp_write. change (passed_on NV1BA0_PIO_VOICE_ON) with true.
  cbv match. rewrite (in_u_small 32 val) by done. change (u32 NV1BA0_PIO_VOICE_ON) with NV1BA0_PIO_VOICE_ON.
  unfold fe_method. cbv zeta. set (d0 := d <| regs := _ |>).
  assert (Hreg : forall r, r <> NV_PAPU_FEDECMETH -> r <> NV_PAPU_FEDECPARAM -> rget (regs d0) r = rget (regs d) r)
    by (intros r H1 H2; cbn; by rewrite !rget_rset_ne by congruence).
  assert (Hw : forall v off, word d0 v off = word d v off) by (intros; apply word_regs; [done | by apply Hreg]).
  destruct (voice_on_spec d0 val) as (d' & Hrun & [S1 S2 S3 S4 S5 S6 S7 S8 (m & rs & s & E)]).
  { by apply vp_ok_regs. }
  { apply (voices_ok_same d); [done | by apply Hreg | done]. }
  { done. }
  { by rewrite Hreg. }
  exists d'. split; [exact Hrun |]. rewrite Hreg in S3, S5 by done.
  split; [exact S1 | exact S2 | | exact S4 | | | exact S7 | | by exists m, rs, s].
  - intros j r l Hr Hc Hhl. apply S3; [done | | done]. rewrite Hreg.
    + eapply chain_ext; [| exact Hc]. intros v _. by apply next_voice_word.
    + apply (top_reg_method j r Hr).
    + apply (top_reg_method j r Hr).
  - intros v off Hvw Hne Hkeep. by rewrite S5.
  - intros v Hvr. rewrite S6 by done. by apply pitch_of_word.
  - intros q Hq Hm Hp. by rewrite S8, Hreg.
Qed.

(** ** Samples *)

(** A unit after reset, with the given registers and memory. *)
Definition vp_sample {M} (r : gmap Z Z) (m : M) : VPState M :=
  mkVP r m false 0 (replicate 256 (mkSSL [0; 0] [0; 0] 0 0)) 0 (replicate 4 0) (replicate 32 0) (replicate 4 0)
    (replicate 256 false) 0 (replicate 128 (mkHrtf (replicate 31 0) (replicate 31 0) 0)) (replicate 256 None) 0 0 [].

Lemma vp_sample_ok {M} r (m : M) : vp_ok (vp_sample r m).
Proof.
  split; cbn [vp_sample ssl voice_locked voice_spinlocks hrtf_submix submix_headroom entries current_entry hrtf_tar];
    rewrite ?length_replicate; try done; apply Forall_replicate; by split.
Qed.

(** The current voice is the one with a negative number, then an ordinary one. *)
Lemma vp_write_types_witness :
  let bad := vp_sample {[NV_PAPU_FECV := 0x80000001]} ([] : list Z) in
  let good := vp_sample {[NV_PAPU_FECV := 1]} ([] : list Z) in
  vp_write bad NV1BA0_PIO_SET_VOICE_SSL_A 0x1234 = Undef /\ safe vp_ok (vp_write good NV1BA0_PIO_SET_VOICE_SSL_A 0x1234).
Proof.
  intros bad good. split.
  - pose proof (vp_write_types bad NV1BA0_PIO_SET_VOICE_SSL_A 0x1234 (vp_sample_ok _ _)) as Hr.
    assert (E : negative_index bad NV1BA0_PIO_SET_VOICE_SSL_A 0x1234 = true) by (vm_compute; reflexivity).
    rewrite E in Hr. apply Hr; split; done.
  - pose proof (vp_write_types good NV1BA0_PIO_SET_VOICE_SSL_A 0x1234 (vp_sample_ok _ _)) as Hr.
    assert (E : negative_index good NV1BA0_PIO_SET_VOICE_SSL_A 0x1234 = false) by (vm_compute; reflexivity).
    rewrite E in Hr. apply Hr; split; done.
Defined.

(** The registers of a machine with empty lists and the 3D list selected. *)
Definition sample_regs : gmap Z Z :=
  {[NV_PAPU_FEAV := 0x20000; NV_PAPU_TVL2D := NO_VOICE; NV_PAPU_TVL3D := NO_VOICE; NV_PAPU_TVLMP := NO_VOICE]}.

(** Memory for the 256 voices. *)
Definition sample_ram : list Z := (fun _ => 0) <$> seqZ 0 0x8000.

Lemma sample_voices_ok : voices_ok (vp_sample sample_regs sample_ram).
Proof.
  split; [done | split; [done |]]. intros v off Hv.
  pose proof Hv as (Hr & _ & Ho). unfold voice_addr. change (rget (regs (vp_sample sample_regs sample_ram)) NV_PAPU_VPVADDR) with 0.
  rewrite (Z.mod_small v) by lia. rewrite Z.mod_small by lia.
  change (0 <= 0 + v * NV_PAVS_SIZE + off /\ 0 + v * NV_PAVS_SIZE + off + 4 <= zlen sample_ram).
  unfold sample_ram. rewrite length_fmap, length_seqZ. destruct Hv as (_ & [k ->] & _). lia.
Qed.

(** Voice 7 goes on top of the empty 3D list. *)
Lemma voice_on_inserts_witness :
  let d := vp_sample sample_regs sample_ram in
  exists d', vp_write d NV1BA0_PIO_VOICE_ON 0x10000007 = Ok d' /\
    word d' 8 NV_PAVS_VOICE_TAR_PITCH_LINK = word d 8 NV_PAVS_VOICE_TAR_PITCH_LINK /\
    chain (next_voice d') (rget (regs d') NV_PAPU_TVL3D) [7] /\ chain (next_voice d') (rget (regs d') NV_PAPU_TVLMP) [].
Proof.
  intros d. destruct (voice_on_inserts d 0x10000007 (vp_sample_ok _ _) sample_voices_ok) as (d' & Hrun & Hs);
    [split; done | done | intros Hf; discriminate Hf |].
  exists d'. split; [exact Hrun |]. split; [apply (so_words _ _ _ _ Hs); [by apply link_word | done | by right] |]. split.
  - apply (so_lists _ _ _ _ Hs 1 _ [] eq_refl); [done | by apply not_elem_of_nil].
  - apply (so_lists _ _ _ _ Hs 2 _ [] eq_refl); [done | by apply not_elem_of_nil].
Defined.
