(* ===== verification/VpFrame.v ===== *)
(** * Frames of the voice processor (hw/xbox/mcpx/apu/vp/vp.c)

    Theorems about the walk over the voice lists at each frame and about the
    scheduler that spreads the queued voices over worker threads; the definitions
    are in [Vp]. A frame queues the active voices of the three lists in order, takes
    their locks and reports the inactive ones; the scheduler gives each voice to one worker, in order, wakes exactly the workers
    with work, and keeps a submix on one worker from its first source to the voice
    that consumes it. *)

From stdpp Require Import base gmap numbers list.
From Stdlib Require Import ZArith Lia.
From S2P Require Import Prelude Memory Vp.

(** ** The frame *)

(** The spin locks once the voices [l] have been taken. *)
Definition take_locks (l : list Z) (locks : list bool) : list bool :=
  foldl (fun locks v => <[Z.to_nat v := true]> locks) locks l.

(** The registers that a walk over the lists may change. *)
Definition walk_regs : list Z :=
  [NV_PAPU_FECTL; NV_PAPU_FEDECMETH; NV_PAPU_FEDECPARAM; NV_PAPU_CVL2D; NV_PAPU_NVL2D; NV_PAPU_CVL3D; NV_PAPU_NVL3D;
   NV_PAPU_CVLMP; NV_PAPU_NVLMP].

Section Frame.

Context {M : Type} `{DmaMemory M}.

Implicit Types d : VPState M.

(** Voices the guest has not locked. *)
Definition unlocked d (v : Z) : Prop := is_voice_locked d v = Ok false.

(** The voices [l] of list [n] as work. *)
Definition items (n : Z) (l : list Z) : list VoiceWorkItem := (fun v => mkItem v n) <$> l.

(** The front end is trapped with the report that voice [v] is idle, and its interrupt
    is raised. *)
Record idle_trap d (v : Z) : Prop := {
  it_method : rget (regs d) NV_PAPU_FEDECMETH = SE2FE_IDLE_VOICE;
  it_voice : rget (regs d) NV_PAPU_FEDECPARAM = v;
  it_mode : rget (regs d) NV_PAPU_FECTL .& NV_PAPU_FECTL_FEMETHMODE = NV_PAPU_FECTL_FEMETHMODE_TRAPPED;
  it_reason : rget (regs d) NV_PAPU_FECTL .& NV_PAPU_FECTL_FETRAPREASON = NV_PAPU_FECTL_FETRAPREASON_REQUESTED;
  it_irq : set_irq d = true
}.

(** What is left of the reports of the voices [idle]: the last one. *)
Definition reported (idle : list Z) d d' : Prop :=
  match last idle with
  | Some v => idle_trap d' v
  | None => set_irq d' = set_irq d /\
      forall r, r ∈ [NV_PAPU_FECTL; NV_PAPU_FEDECMETH; NV_PAPU_FEDECPARAM] -> rget (regs d') r = rget (regs d) r
  end.

Lemma reported_trans l1 l2 d1 d2 d3 : reported l1 d1 d2 -> reported l2 d2 d3 -> reported (l1 ++ l2) d1 d3.
Proof using.
  unfold reported. rewrite last_app. destruct (last l2) as [v|]; [done |]. intros H1 [Hirq Hr].
  assert (Hm : rget (regs d3) NV_PAPU_FEDECMETH = rget (regs d2) NV_PAPU_FEDECMETH) by (apply Hr; set_solver).
  assert (Hp : rget (regs d3) NV_PAPU_FEDECPARAM = rget (regs d2) NV_PAPU_FEDECPARAM) by (apply Hr; set_solver).
  assert (Hc : rget (regs d3) NV_PAPU_FECTL = rget (regs d2) NV_PAPU_FECTL) by (apply Hr; set_solver).
  destruct (last l1) as [v|].
  - destruct H1 as [A1 A2 A3 A4 A5]. split; by rewrite ?Hm, ?Hp, ?Hc, ?Hirq.
  - destruct H1 as [Hirq1 Hr1]. split; [by rewrite Hirq |]. intros r Hin. by rewrite Hr, Hr1.
Qed.

(** From [d] to [d'], the walk has queued the work [work] and reported the voices [idle]. *)
Record walked (work : list VoiceWorkItem) (idle : list Z) d d' : Prop := {
  w_mem : mem d' = mem d;
  w_locked : voice_locked d' = voice_locked d;
  w_queue : queue d' = queue d ++ work;
  w_spin : voice_spinlocks d' = take_locks (voice <$> work) (voice_spinlocks d);
  w_regs : forall r, r ∉ walk_regs -> rget (regs d') r = rget (regs d) r;
  w_idle : reported idle d d'
}.

Lemma walked_refl d : walked [] [] d d.
Proof using. split; [done | done | by rewrite app_nil_r | done | done | done]. Qed.

Lemma walked_trans l1 l2 i1 i2 d1 d2 d3 : walked l1 i1 d1 d2 -> walked l2 i2 d2 d3 -> walked (l1 ++ l2) (i1 ++ i2) d1 d3.
Proof using.
  intros [A1 A2 A3 A4 A5 A6] [B1 B2 B3 B4 B5 B6]. split.
  - by rewrite B1.
  - by rewrite B2.
  - by rewrite B3, A3, app_assoc.
  - unfold take_locks in *. by rewrite B4, A4, fmap_app, foldl_app.
  - intros r Hr. by rewrite B5, A5.
  - by eapply reported_trans.
Qed.

(** The registers of the lists' walks are those of the second group. *)
Lemma walked_reg d r x : r ∈ walk_regs -> 0x2000 <= r -> walked [] [] d (d <| regs := rset (regs d) r x |>).
Proof using.
  intros Hr Hhigh. split; [reflexivity | reflexivity | by rewrite app_nil_r | reflexivity | |].
  - intros r' Hr'. cbn. rewrite rget_rset_ne; [done | by intros ->].
  - split; [done |]. intros r' Hr'. cbn. rewrite rget_rset_ne; [done |].
    rewrite !elem_of_cons, elem_of_nil in Hr'. intros <-. intuition lia.
Qed.

Lemma trapped_fectl x :
  let fectl := (((x .& u32 (Z.lnot NV_PAPU_FECTL_FEMETHMODE)) .| NV_PAPU_FECTL_FEMETHMODE_TRAPPED)
                .& u32 (Z.lnot NV_PAPU_FECTL_FETRAPREASON)) .| NV_PAPU_FECTL_FETRAPREASON_REQUESTED in
  fectl .& NV_PAPU_FECTL_FEMETHMODE = NV_PAPU_FECTL_FEMETHMODE_TRAPPED /\
  fectl .& NV_PAPU_FECTL_FETRAPREASON = NV_PAPU_FECTL_FETRAPREASON_REQUESTED.
Proof using.
  cbv zeta. rewrite !Z.land_lor_distr_l, <- !Z.land_assoc. split.
  - change (u32 (Z.lnot NV_PAPU_FECTL_FEMETHMODE) .& _) with 0. by rewrite Z.land_0_r.
  - change (u32 (Z.lnot NV_PAPU_FECTL_FETRAPREASON) .& NV_PAPU_FECTL_FETRAPREASON) with 0. by rewrite !Z.land_0_r.
Qed.

(** An inactive voice raises the trap that the guest asked for. *)
Lemma walk_idle d v :
  flag (rget (regs d) NV_PAPU_FETFORCE1) NV_PAPU_FETFORCE1_SE2FE_IDLE_VOICE = true ->
  exists d', fe_method d SE2FE_IDLE_VOICE v = Ok d' /\ walked [] [v] d d' /\
    (forall r, 0x2000 <= r -> rget (regs d') r = rget (regs d) r).
Proof using.
  intros Hf. set (d1 := d <| regs := rset (rset (regs d) NV_PAPU_FEDECMETH SE2FE_IDLE_VOICE) NV_PAPU_FEDECPARAM v |>).
  change (fe_method d SE2FE_IDLE_VOICE v) with (idle_voice d1). unfold idle_voice.
  assert (E : rget (regs d1) NV_PAPU_FETFORCE1 = rget (regs d) NV_PAPU_FETFORCE1)
    by (cbn; by rewrite !rget_rset_ne).
  rewrite E, Hf. cbn [c_assert mbind outcome_bind]. eexists. split; [reflexivity |].
  split; [split; [reflexivity | reflexivity | by rewrite app_nil_r | reflexivity | |] |].
  - intros r Hr. cbn. rewrite !rget_rset_ne; [done | by intros <-; apply Hr; repeat constructor ..].
  - split; cbn; rewrite ?rget_rset; repeat (case_decide; [|try done]); try done; apply trapped_fectl.
  - intros r Hr. cbn. by rewrite !rget_rset_ne by lia.
Qed.

(** An active one is queued and its lock taken. *)
Lemma walk_enqueue n d v :
  zlen (queue d) < MCPX_HW_MAX_VOICES -> 0 <= v -> voice_spinlocks d !! Z.to_nat v = Some false -> unlocked d v ->
  exists d', voice_work_enqueue d v n = Ok d' /\ walked [mkItem v n] [] d d' /\
    (forall r, 0x2000 <= r -> rget (regs d') r = rget (regs d) r).
Proof using.
  intros Hq Hv Hs Hu. unfold voice_work_enqueue. rewrite c_assert_true by (by apply Z.ltb_lt).
  cbn [mbind outcome_bind]. unfold voice_work_acquire_voice_lock_for_processing, spin_lock.
  set (d1 := d <| queue := _ |>). change (voice_spinlocks d1) with (voice_spinlocks d).
  change (is_voice_locked d1 v) with (is_voice_locked d v).
  assert (Hr : rd (voice_spinlocks d) v = Ok false) by (unfold rd; destruct (Z.ltb_spec v 0); [lia | by rewrite Hs]).
  rewrite Hr. cbn [mbind outcome_bind]. apply lookup_lt_Some in Hs. rewrite wr_ok by lia. cbn [mbind outcome_bind].
  rewrite Hu. cbn [mbind outcome_bind]. eexists. split; [reflexivity |].
  split; [split; done | done].
Qed.

Definition active_of d (l : list Z) : list Z := filter (fun v => is_active d v = true) l.
Definition idle_of d (l : list Z) : list Z := filter (fun v => is_active d v = false) l.

Lemma parts_of_ext d d' l : (forall v, is_active d' v = is_active d v) ->
  active_of d' l = active_of d l /\ idle_of d' l = idle_of d l.
Proof using. intros Ha. split; apply list_filter_iff; intros v; by rewrite Ha. Qed.

Lemma parts_of_cons n d v l :
  items n (active_of d (v :: l)) = (if is_active d v then [mkItem v n] else []) ++ items n (active_of d l) /\
  idle_of d (v :: l) = (if is_active d v then [] else [v]) ++ idle_of d l.
Proof using. unfold active_of, idle_of. rewrite !filter_cons. by destruct (is_active d v). Qed.

(** What the walk of one list needs of the state: inactive voices are wanted, active
    ones free and few enough. *)
Record walkable (l : list Z) d : Prop := {
  wa_idle : Forall (fun v => is_active d v = false ->
    flag (rget (regs d) NV_PAPU_FETFORCE1) NV_PAPU_FETFORCE1_SE2FE_IDLE_VOICE = true) l;
  wa_free : Forall (fun v => is_active d v = true ->
    voice_spinlocks d !! Z.to_nat v = Some false /\ unlocked d v) l;
  wa_room : zlen (queue d) + zlen (filter (fun v => is_active d v = true) l) <= MCPX_HW_MAX_VOICES
}.

Lemma walked_views work idle d d' v : walked work idle d d' -> next_voice d' v = next_voice d v /\ is_active d' v = is_active d v.
Proof using.
  intros [Hm _ _ _ Hr _]. assert (E : voice_addr d' v = voice_addr d v).
  { unfold voice_addr. rewrite Hr; [done |]. unfold walk_regs. rewrite !not_elem_of_cons. repeat split; try done.
    apply not_elem_of_nil. }
  unfold next_voice, is_active, voice_get_mask. by rewrite Hm, E.
Qed.

Lemma lookup_take_locks l locks (i : nat) : (forall v, v ∈ l -> Z.to_nat v <> i) -> take_locks l locks !! i = locks !! i.
Proof using.
  revert locks. induction l as [|v l IH]; intros locks Hi; [done |].
  change (take_locks (v :: l) locks) with (take_locks l (<[Z.to_nat v := true]> locks)).
  rewrite IH by (intros u Hu; apply Hi, elem_of_cons; by right).
  apply list_lookup_insert_ne, Hi, elem_of_cons. by left.
Qed.

(** The rest of a list stays walkable. *)
Lemma walkable_rest n v l d d' :
  walkable (v :: l) d -> NoDup (v :: l) -> (forall u, u ∈ v :: l -> 0 <= u) ->
  walked (if is_active d v then [mkItem v n] else []) (if is_active d v then [] else [v]) d d' -> walkable l d'.
Proof using.
  intros [Hi Hf Hr] [Hvl _]%NoDup_cons Hpos Hw. pose proof Hw as [_ Hl Hq Hs Hregs _].
  assert (Hact : forall u, is_active d' u = is_active d u) by (intros u; apply (walked_views _ _ _ _ u Hw)).
  apply Forall_cons in Hi as [_ Hi], Hf as [_ Hf]. split.
  - eapply Forall_impl; [exact Hi |]. intros u Hu. rewrite Hact, Hregs; [exact Hu |].
    unfold walk_regs. rewrite !not_elem_of_cons. repeat split; try done. apply not_elem_of_nil.
  - apply Forall_forall. intros u Hu Ha. rewrite Hact in Ha. rewrite Forall_forall in Hf.
    destruct (Hf u Hu Ha) as [Hsu Huu]. split.
    + rewrite Hs, lookup_take_locks; [done |]. intros x Hx. destruct (is_active d v); [| by apply not_elem_of_nil in Hx].
      cbn in Hx. apply list_elem_of_singleton in Hx as ->.
      assert (0 <= u) by (apply Hpos, elem_of_cons; by right). assert (0 <= v) by (apply Hpos, elem_of_cons; by left).
      intros E. apply Hvl. by replace v with u by lia.
    + unfold unlocked, is_voice_locked in *. by rewrite Hl.
  - rewrite Hq, length_app. rewrite filter_cons in Hr.
    rewrite (list_filter_iff _ (fun u => is_active d u = true)) by (intros u; by rewrite Hact).
    destruct (is_active d v), (decide _); try done; cbn in *; lia.
Qed.

(** The current and next registers of a list are different, and both may change. *)
Lemma list_regs_ok (j : nat) (top current next : Z) : voice_list_regs !! j = Some (top, current, next) ->
  current <> next /\ current ∈ walk_regs /\ next ∈ walk_regs /\ top ∉ walk_regs.
Proof using.
  intros Hj. destruct j as [|[|[|j]]]; simplify_eq/=; (split; [done |]); repeat split;
    apply (bool_decide_unpack _); reflexivity.
Qed.

Lemma list_reg_high (j : nat) (top current next : Z) : voice_list_regs !! j = Some (top, current, next) ->
  0x2000 <= current /\ 0x2000 <= next.
Proof using. intros Hj. destruct j as [|[|[|j]]]; by simplify_eq/=. Qed.

(** One voice of the walk. *)
Lemma walk_voice n v l d : 0 <= v -> walkable (v :: l) d ->
  exists d', (if voice_get_mask d v NV_PAVS_VOICE_PAR_STATE NV_PAVS_VOICE_PAR_STATE_ACTIVE_VOICE =? 0
              then fe_method d SE2FE_IDLE_VOICE v else voice_work_enqueue d v n) = Ok d' /\
    walked (if is_active d v then [mkItem v n] else []) (if is_active d v then [] else [v]) d d' /\
    (forall r, 0x2000 <= r -> rget (regs d') r = rget (regs d) r).
Proof using.
  intros Hv [Hi Hf Hr]. apply Forall_cons in Hi as [Hi _], Hf as [Hf _]. rewrite filter_cons in Hr.
  unfold is_active in *. destruct (Z.eqb_spec (voice_get_mask d v NV_PAVS_VOICE_PAR_STATE
    NV_PAVS_VOICE_PAR_STATE_ACTIVE_VOICE) 0); cbn [negb] in *.
  - by apply walk_idle, Hi.
  - destruct (Hf eq_refl) as [Hs Hu]. destruct (decide _) as [_|]; [| done]. cbn in Hr.
    apply walk_enqueue; [lia | done..].
Qed.

Lemma walkable_reg l d r x : r ∈ walk_regs -> 0x2000 <= r -> walkable l d -> walkable l (d <| regs := rset (regs d) r x |>).
Proof using.
  intros Hr Hhigh [Hi Hf Hroom]. set (d1 := d <| regs := _ |>).
  assert (W : walked [] [] d d1) by by apply walked_reg.
  assert (Ha : forall u, is_active d1 u = is_active d u) by (intros u; apply (walked_views _ _ _ _ u W)).
  split.
  - eapply Forall_impl; [exact Hi |]. intros u Hu. rewrite Ha, (w_regs _ _ _ _ W); [exact Hu |].
    unfold walk_regs. rewrite !not_elem_of_cons. repeat split; try done. apply not_elem_of_nil.
  - eapply Forall_impl; [exact Hf |]. intros u Hu. by rewrite Ha.
  - by rewrite (list_filter_iff _ (fun u => is_active d u = true)) by (intros u; by rewrite Ha).
Qed.

(** The walk over one list queues its active voices, in order, and reports the others. *)
Lemma list_loop_spec (j : nat) top current next n l : voice_list_regs !! j = Some (top, current, next) ->
  forall rounds d, chain (next_voice d) (rget (regs d) current) l -> walkable l d -> (length l <= rounds)%nat ->
  exists d', list_loop rounds d n current next = Ok d' /\ walked (items n (active_of d l)) (idle_of d l) d d'.
Proof using.
  intros Hj. destruct (list_regs_ok j _ _ _ Hj) as (Hcn & Hcur & Hnext & _). destruct (list_reg_high j _ _ _ Hj) as [Hch Hnh].
  induction l as [|v l IH]; intros rounds d Hc Hw Hlen.
  { exists d. cbn in Hc. destruct rounds; cbn [list_loop]; rewrite Hc;
      (split; [reflexivity | apply walked_refl]). }
  destruct rounds as [|rounds]; [cbn in Hlen; lia |]. cbn [list_loop].
  pose proof (chain_NoDup _ _ _ Hc) as Hnd. pose proof (fun u => chain_range _ _ _ u Hc) as Hrange.
  pose proof Hc as (Hcv & Hv & Hrest). rewrite Hcv.
  destruct (Z.eqb_spec v NO_VOICE); [lia |]. rewrite (Z.mod_small v) by lia. cbv zeta. fold (next_voice d v).
  set (d1 := d <| regs := rset (regs d) next (next_voice d v) |>).
  assert (W1 : walked [] [] d d1) by by apply walked_reg.
  destruct (walk_voice n v l d1) as (d2 & -> & W2 & Hr2); [lia | by apply walkable_reg |]. cbn [mbind outcome_bind].
  set (d3 := d2 <| regs := _ |>). assert (W3 : walked [] [] d2 d3) by by apply walked_reg.
  assert (Hact : is_active d1 v = is_active d v) by apply (walked_views _ _ _ _ v W1). rewrite Hact in W2.
  assert (W : walked (if is_active d v then [mkItem v n] else []) (if is_active d v then [] else [v]) d d3).
  { pose proof (walked_trans _ _ _ _ _ _ _ (walked_trans _ _ _ _ _ _ _ W1 W2) W3) as W. by rewrite !app_nil_r in W. }
  destruct (IH rounds d3) as (d' & Hrun & W').
  - assert (rget (regs d3) current = next_voice d v) as ->.
    { unfold d3. cbn. rewrite rget_rset_eq, Hr2 by done.
      unfold d1. cbn. by rewrite rget_rset_eq. }
    eapply chain_ext; [| exact Hrest]. intros u _. apply (walked_views _ _ _ _ u W).
  - eapply walkable_rest; [exact Hw | exact Hnd | | exact W]. intros u Hu. by apply Hrange.
  - cbn in Hlen. lia.
  - exists d'. split; [done |]. destruct (parts_of_ext d d3 l) as [Hpa Hpi]; [intros u; apply (walked_views _ _ _ _ u W) |].
    rewrite Hpa, Hpi in W'. destruct (parts_of_cons n d v l) as [-> ->]. by eapply walked_trans.
Qed.

End Frame.

Section FrameTheorem.

Context {M : Type} `{DmaMemory M}.

Implicit Types d : VPState M.

(** What a frame needs: every inactive voice in a list may trap, every active one is
    unlocked, and no active voice is in the lists twice. *)
Record frame_ready d (l : list Z) : Prop := {
  fr_idle : forall v, v ∈ l -> is_active d v = false ->
    flag (rget (regs d) NV_PAPU_FETFORCE1) NV_PAPU_FETFORCE1_SE2FE_IDLE_VOICE = true;
  fr_unlocked : forall v, v ∈ l -> is_active d v = true -> unlocked d v;
  fr_once : NoDup (active_of d l);
  fr_range : forall v, v ∈ l -> 0 <= v < MCPX_HW_MAX_VOICES
}.

(** After the work [work], the next list is walkable. *)
Lemma frame_walkable d d2 work idle l rest :
  voice_spinlocks d = replicate 256 false -> queue d = [] -> walked work idle d d2 ->
  frame_ready d ((voice <$> work) ++ l ++ rest) -> active_of d (voice <$> work) = voice <$> work ->
  walkable l d2.
Proof using.
  intros Hspin Hq0 W [Hidle Hun Honce Hrange] Hall.
  assert (Hact : forall u, is_active d2 u = is_active d u) by (intros u; apply (walked_views _ _ _ _ u W)).
  assert (Hfilter : filter (fun v => is_active d2 v = true) l = active_of d l)
    by (apply list_filter_iff; intros u; by rewrite Hact).
  assert (Hin : forall v, v ∈ l -> v ∈ (voice <$> work) ++ l ++ rest)
    by (intros v Hv; apply elem_of_app; right; apply elem_of_app; by left).
  assert (Hin' : forall v, v ∈ voice <$> work -> v ∈ (voice <$> work) ++ l ++ rest)
    by (intros v Hv; apply elem_of_app; by left).
  unfold active_of in Honce. rewrite !filter_app in Honce. fold (active_of d (voice <$> work)) in Honce. rewrite Hall in Honce.
  rewrite app_assoc in Honce. apply NoDup_app in Honce as (Hn & _ & _). split.
  - apply Forall_forall. intros v Hv. rewrite Hact. intros Hi. rewrite (w_regs _ _ _ _ W).
    + by apply (Hidle v); [apply Hin |].
    + by apply (bool_decide_unpack _).
  - apply Forall_forall. intros v Hv. rewrite Hact. intros Ha. split.
    + pose proof (Hrange v (Hin v Hv)) as Hvr.
      rewrite (w_spin _ _ _ _ W), lookup_take_locks; [rewrite Hspin; apply lookup_replicate_2; lia |].
      intros u Hu E. pose proof (Hrange u (Hin' u Hu)). assert (u = v) as -> by lia.
      apply NoDup_app in Hn as (_ & Hdis & _). apply (Hdis v Hu), list_elem_of_filter. done.
    + pose proof (Hun v (Hin v Hv) Ha) as Hul. unfold unlocked, is_voice_locked in *. by rewrite (w_locked _ _ _ _ W).
  - rewrite Hfilter, (w_queue _ _ _ _ W), Hq0. cbn [app].
    pose proof (voices_bound _ Hn) as Hb. rewrite length_app, length_fmap in Hb. unfold active_of.
    enough (zlen work + zlen (filter (fun v => is_active d v = true) l) <= MCPX_HW_MAX_VOICES) by lia.
    rewrite Nat2Z.inj_add in Hb. apply Hb. intros u [Hu|Hu]%elem_of_app; apply Hrange; [by apply Hin' |].
    apply list_elem_of_filter in Hu as [_ Hu]. by apply Hin.
Qed.

(** One list after the work [work] of the lists before it. *)
Lemma frame_list d d1 work idle (j : nat) top current next n l rest :
  voice_list_regs !! j = Some (top, current, next) ->
  voice_spinlocks d = replicate 256 false -> queue d = [] ->
  walked work idle d d1 -> chain (next_voice d) (rget (regs d) top) l ->
  frame_ready d ((voice <$> work) ++ l ++ rest) -> active_of d (voice <$> work) = voice <$> work ->
  exists d', list_loop (Z.to_nat MCPX_HW_MAX_VOICES) (d1 <| regs := rset (regs d1) current (rget (regs d1) top) |>)
      n current next = Ok d' /\ walked (work ++ items n (active_of d l)) (idle ++ idle_of d l) d d'.
Proof using.
  intros Hj Hspin Hq0 Hw Hc Hready Hall. destruct (list_regs_ok j _ _ _ Hj) as (Hcn & Hcur & Hnext & Htop).
  destruct (list_reg_high j _ _ _ Hj) as [Hch _].
  set (d2 := d1 <| regs := _ |>). assert (W2 : walked [] [] d1 d2) by by apply walked_reg.
  pose proof (walked_trans _ _ _ _ _ _ _ Hw W2) as W. rewrite !app_nil_r in W.
  assert (Hstart : rget (regs d2) current = rget (regs d) top)
    by (unfold d2; cbn; by rewrite rget_rset_eq, (w_regs _ _ _ _ Hw)).
  destruct (list_loop_spec j top current next n l Hj (Z.to_nat MCPX_HW_MAX_VOICES) d2) as (d' & Hrun & W').
  - rewrite Hstart. eapply chain_ext; [| exact Hc]. intros u _. apply (walked_views _ _ _ _ u W).
  - by apply (frame_walkable d d2 work idle l rest).
  - pose proof (voices_bound l (chain_NoDup _ _ _ Hc)) as Hb.
    assert (zlen l <= MCPX_HW_MAX_VOICES) by (apply Hb; intros v Hv; by apply (chain_range _ _ _ v Hc)). lia.
  - exists d'. split; [done |]. eapply walked_trans; [exact W |].
    destruct (parts_of_ext d d2 l) as [Hpa Hpi]; [intros u; apply (walked_views _ _ _ _ u W) |]. by rewrite Hpa, Hpi in W'.
Qed.

Lemma voice_items n l : voice <$> items n l = l.
Proof using. unfold items. rewrite <- list_fmap_compose. apply list_fmap_id. Qed.

Lemma active_active d l : active_of d (active_of d l) = active_of d l.
Proof using.
  unfold active_of. induction l as [|v l IH]; [done |]. rewrite filter_cons. destruct (decide _) as [E|]; [| done].
  rewrite filter_cons. destruct (decide _); [by rewrite IH | done].
Qed.

Lemma active_app d l1 l2 : active_of d (l1 ++ l2) = active_of d l1 ++ active_of d l2.
Proof using. apply filter_app. Qed.

Lemma idle_app d l1 l2 : idle_of d (l1 ++ l2) = idle_of d l1 ++ idle_of d l2.
Proof using. apply filter_app. Qed.

(** The inactive voices of a walked list no longer matter. *)
Lemma frame_ready_active d l rest : frame_ready d (l ++ rest) -> frame_ready d (active_of d l ++ rest).
Proof using.
  intros [Hi Hu Ho Hr].
  assert (Hin : forall v, v ∈ active_of d l ++ rest -> v ∈ l ++ rest).
  { intros v [Hv|Hv]%elem_of_app; apply elem_of_app; [| by right]. left. by apply list_elem_of_filter in Hv as [_ ?]. }
  split; [intros v Hv; by apply Hi, Hin | intros v Hv; by apply Hu, Hin | | intros v Hv; by apply Hr, Hin].
  rewrite active_app, active_active, <- active_app. exact Ho.
Qed.

(** Giving the locks back. *)
Lemma release_locks (q : list VoiceWorkItem) locks :
  length locks = 256%nat -> (forall i, locks !! i = Some true -> Z.of_nat i ∈ voice <$> q) ->
  (forall v, v ∈ voice <$> q -> 0 <= v < MCPX_HW_MAX_VOICES) ->
  mfor q (fun item locks => spin_unlock locks (voice item)) locks = Ok (replicate 256 false).
Proof using.
  revert locks. induction q as [|item q IH]; intros locks Hl Ht Hr; cbn [mfor].
  - f_equal. apply list_eq_same_length with 256%nat; [by rewrite length_replicate | done |].
    intros i x y Hi Hx Hy. apply lookup_replicate_1 in Hy as [-> _].
    destruct x; [| done]. apply Ht in Hx. by apply not_elem_of_nil in Hx.
  - assert (Hv : 0 <= voice item < MCPX_HW_MAX_VOICES) by (apply Hr, elem_of_cons; by left).
    assert (Hun : spin_unlock locks (voice item) = Ok (<[Z.to_nat (voice item) := false]> locks))
      by (apply wr_ok; lia).
    rewrite Hun. cbn [mbind outcome_bind]. apply IH.
    + by rewrite length_insert.
    + intros i Hi. destruct (decide (i = Z.to_nat (voice item))) as [->|Hne].
      * rewrite list_lookup_insert_eq in Hi by lia. done.
      * rewrite list_lookup_insert_ne in Hi by done. apply Ht, elem_of_cons in Hi as [E|Hi]; [lia | done].
    + intros v Hvq. apply Hr, elem_of_cons. by right.
Qed.

Lemma take_locks_true l locks i : take_locks l locks !! i = Some true -> (forall v, v ∈ l -> 0 <= v) ->
  locks !! i = Some true \/ Z.of_nat i ∈ l.
Proof using.
  intros Hi Hpos. destruct (decide (Z.of_nat i ∈ l)) as [|Hn]; [by right | left].
  rewrite lookup_take_locks in Hi; [done |]. intros v Hv <-. apply Hn. specialize (Hpos v Hv). by rewrite Z2Nat.id.
Qed.

Lemma length_take_locks l locks : length (take_locks l locks) = length locks.
Proof using.
  revert locks. induction l as [|v l IH]; intros locks; [done |].
  change (take_locks (v :: l) locks) with (take_locks l (<[Z.to_nat v := true]> locks)). by rewrite IH, length_insert.
Qed.

Lemma take_locks_elem l locks v : v ∈ l -> (Z.to_nat v < length locks)%nat -> take_locks l locks !! Z.to_nat v = Some true.
Proof using.
  revert locks. induction l as [|u l IH] using rev_ind; intros locks Hv Hl; [by apply not_elem_of_nil in Hv |].
  unfold take_locks. rewrite foldl_app. cbn [foldl]. fold (take_locks l locks).
  destruct (decide (Z.to_nat u = Z.to_nat v)) as [->|Hne].
  - apply list_lookup_insert_eq. by rewrite length_take_locks.
  - rewrite list_lookup_insert_ne by done. apply IH; [|done].
    apply elem_of_app in Hv as [|Hv]; [done |]. apply list_elem_of_singleton in Hv as ->. done.
Qed.

Lemma take_locks_replicate l v : 0 <= v < MCPX_HW_MAX_VOICES -> (forall u, u ∈ l -> 0 <= u < MCPX_HW_MAX_VOICES) ->
  take_locks l (replicate 256 false) !! Z.to_nat v = Some (bool_decide (v ∈ l)).
Proof using.
  intros Hv Hl. case_bool_decide as Hin.
  - apply take_locks_elem; [done |]. rewrite length_replicate. lia.
  - rewrite lookup_take_locks; [apply lookup_replicate_2; lia |]. intros u Hu E. pose proof (Hl u Hu).
    by replace u with v in Hu by lia.
Qed.

End FrameTheorem.

(** C27: One frame of the voice processor. Let the three lists be chains that end (no
    cycle), no active voice be in them twice or locked by the guest, the trap for idle
    voices be enabled where a listed voice is inactive, and no lock be held. Then the
    walk over the lists comes to an end; it queues exactly the active voices, list by
    list and in list order, and holds the locks of exactly these; if a listed voice is
    inactive, the front end is left trapped with the report of the last such voice and
    its interrupt raised, and otherwise the front end is unchanged. Guest memory is
    unchanged, and the locks can all be given back afterwards. *)
Theorem vp_frame_queues {M} `{DmaMemory M} (d : VPState M) l0 l1 l2 :
  voice_spinlocks d = replicate 256 false -> queue d = [] ->
  chain (next_voice d) (rget (regs d) NV_PAPU_TVL2D) l0 ->
  chain (next_voice d) (rget (regs d) NV_PAPU_TVL3D) l1 ->
  chain (next_voice d) (rget (regs d) NV_PAPU_TVLMP) l2 ->
  frame_ready d (l0 ++ l1 ++ l2) ->
  exists d', frame_lists d = Ok d' /\
    queue d' = items 0 (active_of d l0) ++ items 1 (active_of d l1) ++ items 2 (active_of d l2) /\
    (forall v, 0 <= v < MCPX_HW_MAX_VOICES ->
      voice_spinlocks d' !! Z.to_nat v = Some (bool_decide (v ∈ active_of d (l0 ++ l1 ++ l2)))) /\
    reported (idle_of d (l0 ++ l1 ++ l2)) d d' /\ mem d' = mem d /\
    exists d'', voice_work_release_voice_locks d' = Ok d'' /\ voice_spinlocks d'' = replicate 256 false.
Proof.
  intros Hspin Hq H0 H1 H2 Hr. unfold frame_lists. change (seqZ 0 3) with [0; 1; 2]. cbn [mfor].
  change (rd voice_list_regs 0) with (Ok (NV_PAPU_TVL2D, NV_PAPU_CVL2D, NV_PAPU_NVL2D)).
  change (rd voice_list_regs 1) with (Ok (NV_PAPU_TVL3D, NV_PAPU_CVL3D, NV_PAPU_NVL3D)).
  change (rd voice_list_regs 2) with (Ok (NV_PAPU_TVLMP, NV_PAPU_CVLMP, NV_PAPU_NVLMP)).
  cbn [mbind outcome_bind]. pose proof (walked_refl d) as W0.
  destruct (frame_list d d [] [] 0 _ _ _ 0 l0 (l1 ++ l2) eq_refl Hspin Hq W0 H0 Hr eq_refl) as (d1 & -> & W1).
  cbn [mbind outcome_bind app] in *. pose proof (frame_ready_active d l0 (l1 ++ l2) Hr) as Hr1.
  destruct (frame_list d d1 (items 0 (active_of d l0)) _ 1 _ _ _ 1 l1 l2 eq_refl Hspin Hq W1 H1) as (d2 & -> & W2);
    [by rewrite voice_items | by rewrite voice_items, active_active |].
  cbn [mbind outcome_bind]. rewrite app_assoc in Hr1. apply frame_ready_active in Hr1. rewrite active_app, active_active in Hr1.
  destruct (frame_list d d2 _ _ 2 _ _ _ 2 l2 [] eq_refl Hspin Hq W2 H2) as (d3 & -> & W3).
  { rewrite fmap_app, !voice_items, app_nil_r. exact Hr1. }
  { rewrite fmap_app, !voice_items, active_app, !active_active. done. }
  cbn [mbind outcome_bind]. exists d3. rewrite <- !app_assoc in W3. pose proof W3 as [Hm _ Hqueue Hsp _ Hidle].
  rewrite Hq in Hqueue. split; [done | split; [done |]].
  rewrite !fmap_app, !voice_items, <- !active_app in Hsp. rewrite <- !idle_app in Hidle.
  split; [| split; [done | split; [done |]]].
  { intros v Hv. rewrite Hsp, Hspin. apply take_locks_replicate; [done |]. intros u [_ Hu]%list_elem_of_filter.
    by apply (fr_range _ _ Hr). }
  unfold voice_work_release_voice_locks. rewrite Hqueue. cbn [app].
  assert (Hpos : forall v, v ∈ voice <$> (items 0 (active_of d l0) ++ items 1 (active_of d l1) ++ items 2 (active_of d l2)) ->
    0 <= v < MCPX_HW_MAX_VOICES).
  { intros v. rewrite !fmap_app, !voice_items, <- !active_app. intros Hv. apply list_elem_of_filter in Hv as [_ Hv].
    by apply (fr_range _ _ Hr). }
  rewrite release_locks.
  - eexists. split; [reflexivity | done].
  - rewrite Hsp, length_take_locks, Hspin. apply length_replicate.
  - intros i Hi. rewrite Hsp, Hspin in Hi. rewrite !fmap_app, !voice_items, <- !active_app in Hpos |- *. apply take_locks_true in Hi as [Hi|Hi]; [| done |].
    + by apply lookup_replicate_1 in Hi as [? _].
    + intros v Hv. by apply Hpos.
  - exact Hpos.
Qed.

(** ** The scheduler *)

(** The multipass bin of a set of bins. *)
Definition mp (bins : Z) : bool := Z.testbit bins 31.

Lemma flag_mp bins : flag bins MULTIPASS_BIN_MASK = mp bins.
Proof.
  unfold flag, mp. destruct (Z.testbit bins 31) eqn:E.
  - destruct (Z.eqb_spec (bins .& MULTIPASS_BIN_MASK) 0) as [Hz|]; [| done].
    apply (f_equal (fun x => Z.testbit x 31)) in Hz. rewrite Z.land_spec, E, Z.testbit_0_l in Hz. done.
  - assert (bins .& MULTIPASS_BIN_MASK = 0) as ->; [| done]. apply Z.bits_inj'. intros i Hi.
    rewrite Z.land_spec, Z.testbit_0_l. change MULTIPASS_BIN_MASK with (2 ^ 31). rewrite Z.pow2_bits_eqb by lia.
    destruct (Z.eqb_spec 31 i) as [<-|]; [by rewrite E | by rewrite andb_false_r].
Qed.

Lemma mp_not x : mp (u32 (Z.lnot x)) = negb (mp x).
Proof. unfold mp. rewrite Z.mod_pow2_bits_low by lia. by rewrite Z.lnot_spec. Qed.

Lemma flag_new dst dirty : flag (dst .& MULTIPASS_BIN_MASK) (u32 (Z.lnot dirty)) = mp dst && negb (mp dirty).
Proof.
  rewrite <- mp_not. unfold flag. rewrite <- Z.land_assoc, (Z.land_comm MULTIPASS_BIN_MASK), Z.land_assoc.
  fold (flag (dst .& u32 (Z.lnot dirty)) MULTIPASS_BIN_MASK). rewrite flag_mp. unfold mp. by rewrite Z.land_spec.
Qed.

Lemma mp_dirty dirty clr dst : mp ((dirty .& u32 (Z.lnot clr)) .| dst) = (mp dirty && negb (mp clr)) || mp dst.
Proof. rewrite <- mp_not. unfold mp. by rewrite Z.lor_spec, Z.land_spec. Qed.

(** The bins a voice reads, writes and clears. *)
Abbreviation bins := (Z * Z * Z)%type.

(** The assumptions on the order of submix voices that the scheduler asserts;
    [dirty] says whether the multipass bin has been written. *)
Fixpoint schedulable (dirty : bool) (l : list bins) : Prop :=
  match l with
  | [] => True
  | (src, dst, clr) :: l =>
      (src = 0 \/ (src = MULTIPASS_BIN_MASK /\ clr = MULTIPASS_BIN_MASK)) /\
      (src <> 0 \/ mp dst = true \/ dirty = false) /\
      schedulable ((dirty && negb (mp clr)) || mp dst) l
  end.

(** Which of [n] workers gets which voice, starting with worker [w]. *)
Fixpoint workers_of (n w : Z) (group dirty : bool) (l : list bins) : list Z :=
  match l with
  | [] => []
  | (src, dst, clr) :: l =>
      let group := negb (mp clr) && (group || (mp dst && negb dirty)) in
      w :: workers_of n (if group then w else (w + 1) mod n) group ((dirty && negb (mp clr)) || mp dst) l
  end.

(** The voices of one worker. *)
Definition work_of (w : Z) (ws : list Z) (l : list VoiceWorkItem) : list VoiceWorkItem :=
  (filter (fun p => p.1 = w) (zip ws l)).*2.

Lemma work_of_cons w w1 ws item l :
  work_of w (w1 :: ws) (item :: l) = (if decide (w1 = w) then [item] else []) ++ work_of w ws l.
Proof. unfold work_of. cbn [zip_with]. rewrite filter_cons. cbn [fst]. by destruct (decide (w1 = w)). Qed.

(** One voice goes to the end of the next worker's queue. *)
Lemma schedule_voice_spec item src dst clr s :
  0 <= next_worker s < zlen (worker_queues s) ->
  (forall q, worker_queues s !! Z.to_nat (next_worker s) = Some q -> zlen q < MCPX_HW_MAX_VOICES) ->
  (src = 0 \/ (src = MULTIPASS_BIN_MASK /\ clr = MULTIPASS_BIN_MASK)) ->
  (src <> 0 \/ mp dst = true \/ mp (dirty s) = false) ->
  exists q, worker_queues s !! Z.to_nat (next_worker s) = Some q /\
  let g := negb (mp clr) && (group s || (mp dst && negb (mp (dirty s)))) in
  schedule_voice item src dst clr s = Ok (mkSchedule (<[Z.to_nat (next_worker s) := q ++ [item]]> (worker_queues s))
    (workers_pending s .| (1 ≪ next_worker s))
    (if g then next_worker s else (next_worker s + 1) mod zlen (worker_queues s)) g
    ((dirty s .& u32 (Z.lnot clr)) .| dst)).
Proof.
  intros Hw Hq Hsrc Hord. destruct (rd_ok (worker_queues s) (next_worker s)) as (q & Hrd & Hl); [lia |].
  exists q. split; [done |]. cbv zeta. unfold schedule_voice. rewrite flag_new, !flag_mp.
  rewrite (c_assert_true ((src =? 0) || (src =? MULTIPASS_BIN_MASK)))
    by (destruct Hsrc as [->|[-> _]]; done). cbn [mbind outcome_bind].
  rewrite (c_assert_true ((src =? 0) || (clr =? MULTIPASS_BIN_MASK)))
    by (destruct Hsrc as [->|[-> ->]]; done). cbn [mbind outcome_bind].
  rewrite c_assert_true
    by (destruct Hord as [Hs|[->| ->]]; [by apply Z.eqb_neq in Hs as -> | by rewrite orb_true_r | by rewrite !orb_true_r]).
  cbn [mbind outcome_bind]. rewrite Hrd. cbn [mbind outcome_bind]. specialize (Hq q Hl).
  destruct (Z.ltb_spec (zlen q) MCPX_HW_MAX_VOICES); [| lia]. cbn [mbind outcome_bind].
  rewrite wr_ok by lia. cbn [mbind outcome_bind]. by destruct (mp clr), (group s), (mp dst), (mp (dirty s)).
Qed.

Lemma length_workers_of n w g dt l : length (workers_of n w g dt l) = length l.
Proof. revert w g dt. induction l as [|[[src dst] clr] l IH]; intros w g dt; [done |]. cbn. by rewrite IH. Qed.

Lemma workers_of_range n w g dt l : 0 <= w < n -> Forall (fun x => 0 <= x < n) (workers_of n w g dt l).
Proof.
  revert w g dt. induction l as [|[[src dst] clr] l IH]; intros w g dt Hw; [constructor |]. cbn.
  apply Forall_cons_2; [done |]. apply IH. case_match; [done |]. apply Z.mod_pos_bound. lia.
Qed.

Section Schedule.

Context {M : Type} `{DmaMemory M} (d : VPState M).

Lemma schedule_loop l : forall bs s,
  Forall2 (fun item b => get_voice_bin_src_dst d (voice item) = Ok b) l bs ->
  0 <= next_worker s < zlen (worker_queues s) ->
  (forall w q, worker_queues s !! w = Some q -> zlen q + zlen l <= MCPX_HW_MAX_VOICES) ->
  schedulable (mp (dirty s)) bs ->
  let ws := workers_of (zlen (worker_queues s)) (next_worker s) (group s) (mp (dirty s)) bs in
  exists s', mfor l (fun item s =>
      '(src, dst, clr) ← get_voice_bin_src_dst d (voice item); schedule_voice item src dst clr s) s = Ok s' /\
    (forall w q, worker_queues s !! w = Some q -> worker_queues s' !! w = Some (q ++ work_of (Z.of_nat w) ws l)) /\
    (forall w, 0 <= w -> Z.testbit (workers_pending s') w = Z.testbit (workers_pending s) w || bool_decide (w ∈ ws)).
Proof using.
  induction l as [|item l IH]; intros bs s Hb Hn Hroom Hs.
  { apply Forall2_nil_inv_l in Hb as ->. exists s. split; [done | split].
    - intros w q Hw. cbn. by rewrite app_nil_r.
    - intros w _. cbn. by rewrite orb_false_r. }
  apply Forall2_cons_inv_l in Hb as ([[src dst] clr] & bs' & Hget & Hb & ->). destruct Hs as (Hsrc & Hord & Hs).
  cbn [mfor]. rewrite Hget. cbn [mbind outcome_bind].
  destruct (schedule_voice_spec item src dst clr s) as (q0 & Hq0 & ->); [done | | done | done |].
  { intros q Hq. specialize (Hroom _ _ Hq). cbn [length] in Hroom. lia. }
  cbn [mbind outcome_bind workers_of]. set (g := negb (mp clr) && _). set (s1 := mkSchedule _ _ _ _ _).
  destruct (IH bs' s1 Hb) as (s' & -> & Hqs & Hp).
  - subst s1. cbn [next_worker worker_queues]. rewrite length_insert. destruct g; [done |]. apply Z.mod_pos_bound. lia.
  - intros w q Hw. subst s1. cbn [worker_queues] in Hw.
    destruct (decide (w = Z.to_nat (next_worker s))) as [->|Hne].
    + rewrite list_lookup_insert_eq in Hw by (apply lookup_lt_Some in Hq0; lia). injection Hw as <-.
      specialize (Hroom _ _ Hq0). cbn [length] in Hroom. rewrite length_app. cbn [length]. lia.
    + rewrite list_lookup_insert_ne in Hw by done. specialize (Hroom _ _ Hw). cbn [length] in Hroom. lia.
  - subst s1. cbn [dirty]. by rewrite mp_dirty.
  - exists s'. split; [done |]. subst s1. cbn [worker_queues next_worker group dirty workers_pending] in *.
    rewrite mp_dirty, length_insert in *. set (ws := workers_of _ _ _ _ _) in *. split.
    + intros w q Hw. rewrite work_of_cons. destruct (decide (next_worker s = Z.of_nat w)) as [E|E].
      * assert (w = Z.to_nat (next_worker s)) as -> by lia. rewrite Hq0 in Hw. injection Hw as <-.
        rewrite (Hqs _ (q0 ++ [item])) by (apply lookup_lt_Some in Hq0; by apply list_lookup_insert_eq).
        by rewrite <- app_assoc.
      * rewrite (Hqs w q); [done |]. by rewrite list_lookup_insert_ne by lia.
    + intros w Hw. rewrite Hp by done. rewrite Z.lor_spec, Z.shiftl_1_l, Z.pow2_bits_eqb by lia.
      rewrite <- orb_assoc. f_equal. destruct (Z.eqb_spec (next_worker s) w) as [->|Hne]; cbn [orb].
      * symmetry. apply bool_decide_eq_true, elem_of_cons. by left.
      * apply bool_decide_ext. rewrite elem_of_cons. split; [by right | by intros [->|]].
Qed.

End Schedule.

(** ** Submixes *)

(** A voice that clears the multipass bin does not write it. *)
Definition no_feedback (l : list bins) : Prop := Forall (fun '(src, dst, clr) => mp clr = true -> mp dst = false) l.

(** While a group is open, the voices stay on one worker until one clears the bin. *)
Lemma group_stays n w dt l : forall (j : nat),
  (j < length l)%nat -> (forall (k : nat) b, (k < j)%nat -> l !! k = Some b -> mp b.2 = false) ->
  workers_of n w true dt l !! j = Some w.
Proof.
  revert w dt. induction l as [|[[src dst] clr] l IH]; intros w dt j Hj Hclr; [cbn in Hj; lia |].
  destruct j as [|j]; [done |]. cbn [workers_of lookup list_lookup].
  assert (E : mp clr = false) by (apply (Hclr 0%nat (src, dst, clr)); [lia | done]). rewrite E. cbn [negb andb orb].
  apply IH; [cbn in Hj; lia |]. intros k b Hk Hb. apply (Hclr (S k) b); [lia | done].
Qed.

Lemma submix_together n w g dt l (i j : nat) src dst clr :
  (dt = true -> g = true) -> no_feedback l -> l !! i = Some (src, dst, clr) -> mp dst = true -> (i <= j < length l)%nat ->
  (forall (k : nat) b, (i <= k < j)%nat -> l !! k = Some b -> mp b.2 = false) ->
  workers_of n w g dt l !! i = workers_of n w g dt l !! j.
Proof.
  revert w g dt i j. induction l as [|[[src' dst'] clr'] l IH]; intros w g dt i j Hg Hnf Hi Hd Hj Hclr; [done |].
  apply Forall_cons in Hnf as [Hnf1 Hnf]. destruct i as [|i].
  - injection Hi as -> -> ->. destruct j as [|j]; [done |].
    assert (E : mp clr = false) by (apply (Hclr 0%nat (src, dst, clr)); [lia | done]).
    cbn [workers_of lookup list_lookup]. rewrite E, Hd. cbn [negb andb].
    assert (Hopen : g || negb dt = true) by (destruct dt; [by rewrite Hg | by rewrite orb_true_r]). rewrite Hopen.
    rewrite group_stays; [done | cbn in Hj; lia |]. intros k b Hk Hb. apply (Hclr (S k) b); [lia | done].
  - destruct j as [|j]; [lia |]. cbn [workers_of lookup list_lookup].
    apply IH; [| done | done | done | cbn in Hj; lia |].
    + destruct (mp clr') eqn:E; cbn [negb andb].
      * rewrite andb_false_r. cbn [orb]. rewrite Hnf1 by done. done.
      * destruct dt; [by rewrite Hg |]. destruct g, (mp dst'); done.
    + intros k b Hk Hb. apply (Hclr (S k) b); [lia | done].
Qed.

Lemma work_of_nonempty w ws l : length ws = length l -> w ∈ ws <-> work_of w ws l <> [].
Proof.
  revert l. induction ws as [|w1 ws IH]; intros [|item l] Hl; try done.
  - cbn. split; [intros Hw; by apply not_elem_of_nil in Hw | done].
  - rewrite work_of_cons, elem_of_cons. specialize (IH l ltac:(cbn in Hl; lia)).
    destruct (decide (w1 = w)) as [->|]; cbn [app]; [split; [done | by left] |]. rewrite <- IH.
    split; [by intros [->|] | by right].
Qed.

(** The scheduler hands every queued voice to one of the workers. Each worker's
    queue holds its voices in the order of the list, the pending mask marks exactly
    the workers that got some, and a voice that writes the multipass bin runs on the
    same worker as all the voices after it up to and including the next one that
    clears the bin: the sources of a submix and the voice that consumes it. *)
Theorem schedule_distributes {M} `{DmaMemory M} (d : VPState M) n bs :
  1 <= n -> zlen (queue d) <= MCPX_HW_MAX_VOICES ->
  Forall2 (fun item b => get_voice_bin_src_dst d (voice item) = Ok b) (queue d) bs ->
  schedulable false bs -> no_feedback bs ->
  exists s ws, voice_work_schedule d n 0 = Ok s /\
    length ws = length (queue d) /\ Forall (fun w => 0 <= w < n) ws /\
    (forall w, 0 <= w < n ->
       worker_queues s !! Z.to_nat w = Some (work_of w ws (queue d)) /\
       (Z.testbit (workers_pending s) w = true <-> work_of w ws (queue d) <> [])) /\
    (forall (i j : nat) src dst clr, bs !! i = Some (src, dst, clr) -> mp dst = true -> (i <= j < length bs)%nat ->
       (forall (k : nat) b, (i <= k < j)%nat -> bs !! k = Some b -> mp b.2 = false) -> ws !! i = ws !! j).
Proof.
  intros Hn Hq Hb Hs Hnf. set (s0 := mkSchedule (replicate (Z.to_nat n) []) 0 0 false 0).
  assert (Hlen : zlen (worker_queues s0) = n) by (cbn [worker_queues s0]; rewrite length_replicate; lia).
  destruct (schedule_loop d (queue d) bs s0 Hb) as (s & Hrun & Hqs & Hp).
  - rewrite Hlen. cbn. lia.
  - intros w q [-> _]%lookup_replicate_1. cbn [length]. lia.
  - done.
  - exists s, (workers_of n 0 false false bs). rewrite Hlen in *. cbn [next_worker group dirty workers_pending s0] in *.
    change (mp 0) with false in *. set (ws := workers_of n 0 false false bs) in *.
    assert (Hl : length ws = length (queue d)) by (unfold ws; rewrite length_workers_of; symmetry; by eapply Forall2_length).
    split; [exact Hrun | split; [done | split; [apply workers_of_range; lia | split]]].
    + intros w Hw. split.
      * rewrite (Hqs _ []) by (apply lookup_replicate_2; lia). cbn [app]. by rewrite Z2Nat.id by lia.
      * rewrite Hp by lia. rewrite Z.testbit_0_l. cbn [orb]. rewrite bool_decide_eq_true. by apply work_of_nonempty.
    + intros i j src dst clr Hi Hd Hj Hclr. by apply (submix_together n 0 false false bs i j src dst clr).
Qed.

(** ** Samples *)

(** Two voices in memory. Voice 1 is active and linked to voice 0, which is not and
    ends the list. *)
Definition two_voices : list Z :=
  ram_write (ram_write ((fun _ => 0) <$> seqZ 0 0x100) 0x7C [0xFF; 0xFF]) (0x80 + 0x54) [0; 0; 0x20; 0].

Definition frame_sample (top2d : Z) (m : list Z) : VPState (list Z) :=
  vp_sample {[NV_PAPU_TVL2D := top2d; NV_PAPU_TVL3D := NO_VOICE; NV_PAPU_TVLMP := NO_VOICE;
              NV_PAPU_FETFORCE1 := NV_PAPU_FETFORCE1_SE2FE_IDLE_VOICE]} m.

Lemma frame_sample_ready : frame_ready (frame_sample 1 two_voices) ([1; 0] ++ [] ++ []).
Proof.
  assert (Hcase : forall v, v ∈ [1; 0] ++ [] ++ [] -> v = 1 \/ v = 0)
    by (intros v; rewrite !elem_of_app, !elem_of_cons; intros [[->|[->|Hv]]|[Hv|Hv]]; auto; by apply not_elem_of_nil in Hv).
  split.
  - intros v _ _. vm_compute. done.
  - intros v [->| ->]%Hcase _; vm_compute; done.
  - vm_compute. apply NoDup_singleton.
  - intros v [->| ->]%Hcase; lia.
Qed.

Lemma vp_frame_queues_witness :
  exists d', frame_lists (frame_sample 1 two_voices) = Ok d' /\ queue d' = [mkItem 1 0] /\
    idle_trap d' 0 /\ voice_spinlocks d' !! 1%nat = Some true.
Proof.
  destruct (vp_frame_queues (frame_sample 1 two_voices) [1; 0] [] [] eq_refl eq_refl) as (d' & Hrun & Hq & Hs & Hi & _);
    [vm_compute; intuition discriminate | reflexivity | reflexivity | exact frame_sample_ready |].
  exists d'. split; [exact Hrun | split; [rewrite Hq; vm_compute; reflexivity | split; [exact Hi |]]].
  exact (Hs 1 (conj (Z.le_0_1) eq_refl)).
Defined.

(** Four voices from number 64 on, placed so that voice 64 is at address 0: two
    sources of the submix, the voice that consumes it, and another one. *)
Definition submix_voices : list Z :=
  let vbin m v := ram_write m (0x80 * (v - 64)) [0x1F; 0; 0; 0] in
  let mp_fmt m v := ram_write m (0x80 * (v - 64) + 4) [0; 0; 0x3F; 0x04] in
  mp_fmt (vbin (vbin ((fun _ => 0) <$> seqZ 0 0x200) 64) 65) 66.

Definition submix_sample : VPState (list Z) :=
  (vp_sample {[NV_PAPU_VPVADDR := 0xFFFFE000]} submix_voices) <| queue := [mkItem 64 2; mkItem 65 2; mkItem 66 2; mkItem 67 2] |>.

Lemma schedule_distributes_witness :
  exists s, voice_work_schedule submix_sample 2 0 = Ok s /\
    worker_queues s !! 0%nat = Some [mkItem 64 2; mkItem 65 2; mkItem 66 2] /\ worker_queues s !! 1%nat = Some [mkItem 67 2].
Proof.
  destruct (schedule_distributes submix_sample 2
    [(0, 0x80000001, 0); (0, 0x80000001, 0); (0x80000000, 1, 0x80000000); (0, 1, 0)]) as (s & ws & Hrun & Hrest).
  - lia.
  - vm_compute. discriminate.
  - change (queue submix_sample) with [mkItem 64 2; mkItem 65 2; mkItem 66 2; mkItem 67 2].
    repeat (apply Forall2_cons_2; [vm_compute; reflexivity |]). apply Forall2_nil_2.
  - vm_compute. intuition discriminate.
  - repeat (apply Forall_cons_2; [vm_compute; discriminate || done |]). apply Forall_nil_2.
  - exists s. split; [exact Hrun |]. vm_compute in Hrun. injection Hrun as <-. done.
Defined.

(** ** Surprises *)

(** The walk bounds its rounds to survive a list that loops, but at the second visit
    of an active voice it waits for the spin lock it holds itself. *)
Example cyclic_list_deadlocks :
  frame_lists (frame_sample 1 (ram_write two_voices (0x80 + 0x7C) [1; 0])) = NoFuel.
Proof. vm_compute. reflexivity. Qed.

(** A list that names a voice beyond the 256 makes the walk take a spin lock outside
    the array, before any range check. *)
Example stray_voice_locks_outside :
  let d := frame_sample 256 (ram_write ((fun _ => 0) <$> seqZ 0 0x80) 0x54 [0; 0; 0x20; 0]) in
  frame_lists (d <| regs := rset (regs d) NV_PAPU_VPVADDR 0xFFFF8000 |>) = Undef.
Proof. vm_compute. reflexivity. Qed.

(** A submix voice that writes the bin it clears leaves the bin dirty with no group
    open: the source after it and the voice that consumes that source go to
    different workers, although all assertions hold. *)
Example feedback_splits_submix :
  let bs := [(0, MULTIPASS_BIN_MASK, 0); (MULTIPASS_BIN_MASK, MULTIPASS_BIN_MASK, MULTIPASS_BIN_MASK);
             (0, MULTIPASS_BIN_MASK, 0); (MULTIPASS_BIN_MASK, 1, MULTIPASS_BIN_MASK)] in
  schedulable false bs /\ workers_of 2 0 false false bs = [0; 0; 1; 0].
Proof. split; [| reflexivity]. cbn. repeat split; first [by left | by right | by right; left | by right; right]. Qed.
