(* ===== verification/VoiceSamples.v ===== *)
(** * Fetching the samples of a voice (hw/xbox/mcpx/apu/vp/vp.c)

    [voice_get_samples]: the format of the voice, its buffer or the segments of its
    stream, the walk through scatter-gather pages, PCM samples of all sizes, ADPCM
    blocks with the cache of the decoded block, and what happens at the end of the
    buffer or segment. A sample is kept exactly, as the numerator of a fraction of
    2^31; the code then rounds it to single precision.

    The theorems give the samples and the new position of a PCM voice, and the
    formats for which ADPCM blocks stay within the arrays on the stack. *)

From stdpp Require Import base gmap numbers list.
From Stdlib Require Import ZArith Lia.
From S2P Require Import Prelude Memory Vp Adpcm.

Abbreviation TARGET_PAGE_SIZE := 4096.
Abbreviation ADPCM_SAMPLES_PER_BLOCK := 64.
Abbreviation NV_PAVS_VOICE_CFG_FMT_SAMPLES_PER_BLOCK := 0x1F0000.
Abbreviation NV_PAVS_VOICE_CFG_FMT_PERSIST := 0x800000.
Abbreviation NV_PAVS_VOICE_CFG_FMT_LOOP := 0x2000000.
Abbreviation NV_PAVS_VOICE_CFG_FMT_STEREO := 0x8000000.
Abbreviation NV_PAVS_VOICE_CFG_FMT_SAMPLE_SIZE := 0x30000000.
Abbreviation NV_PAVS_VOICE_CFG_FMT_SAMPLE_SIZE_U8 := 0.
Abbreviation NV_PAVS_VOICE_CFG_FMT_SAMPLE_SIZE_S16 := 1.
Abbreviation NV_PAVS_VOICE_CFG_FMT_SAMPLE_SIZE_S24 := 2.
Abbreviation NV_PAVS_VOICE_CFG_FMT_SAMPLE_SIZE_S32 := 3.
Abbreviation NV_PAVS_VOICE_CFG_FMT_CONTAINER_SIZE := 0xC0000000.
Abbreviation NV_PAVS_VOICE_CFG_FMT_CONTAINER_SIZE_ADPCM := 2.
Abbreviation NV_PAVS_VOICE_PAR_STATE_NEW_VOICE := 0x100000.

(** ** Samples as fractions of 2^31 *)

Definition uint8_to_float (v : Z) : Z := (v - 0x80) * 2 ^ 24.
Definition int16_to_float (v : Z) : Z := sext 16 v * 2 ^ 16.
Definition int32_to_float (v : Z) : Z := sext 32 v.
Definition int24_to_float (v : Z) : Z := int32_to_float (u32 (v ≪ 8)).

(** The variables of [voice_get_samples] that its loop reads. *)
Record voice_fmt := mkFmt {
  stereo : bool;
  sample_size : Z;
  container_size : Z;
  container_size_index : Z;
  stream : bool;
  ebo : Z;
  ba : Z;
  samples_per_block : Z;
  segment_offset : Z;
  seg_len : Z
}.

#[export] Instance eta_voice_fmt : Eta voice_fmt := fun f =>
  mkFmt (stereo f) (sample_size f) (container_size f) (container_size_index f) (stream f) (ebo f) (ba f)
    (samples_per_block f) (segment_offset f) (seg_len f).

Definition channels (f : voice_fmt) : Z := if stereo f then 2 else 1.
Definition adpcm (f : voice_fmt) : bool := container_size_index f =? NV_PAVS_VOICE_CFG_FMT_CONTAINER_SIZE_ADPCM.
Definition block_size (f : voice_fmt) : Z :=
  (if adpcm f then 36 else container_size f) * samples_per_block f.

(** The loop's own variables: the position, the block in the cache or -1, the two
    arrays [adpcm_block] (in bytes) and [adpcm_decoded], and the samples so far. *)
Record fetch := mkFetch {
  cbo : Z;
  adpcm_block_index : Z;
  adpcm_block : list Z;
  adpcm_decoded : list Z;
  samples : list (Z * Z)
}.

#[export] Instance eta_fetch : Eta fetch := fun s =>
  mkFetch (cbo s) (adpcm_block_index s) (adpcm_block s) (adpcm_decoded s) (samples s).

Section VoiceSamples.

Context {M : Type} `{DmaMemory M}.

(** [ram_ptr] maps [ram_size] bytes of guest memory from address 0. *)
Context (ram_size : Z).

Implicit Types d : VPState M.

Definition ram_ptr_read d (addr n : Z) : outcome (list Z) :=
  if (0 <=? addr) && (addr + n <=? ram_size) then Ok (pci_dma_read (mem d) addr n) else Undef.

Definition get_data_ptr d (sge_base max_sge addr : Z) : outcome Z :=
  let entry := addr / TARGET_PAGE_SIZE in
  c_assert (entry <=? max_sge);;
  b ← ram_ptr_read d (sge_base + u32 (entry * 8)) 4;
  Ok (u32 (le_val b + addr mod TARGET_PAGE_SIZE)).

(** ** ADPCM *)

(** A word of the block, where the array and the linear address go on. *)
Definition fetch_word d (word_index : Z) (st : list Z * Z) : outcome (list Z * Z) :=
  let '(block, linear_addr) := st in
  addr ← get_data_ptr d (rget (regs d) NV_PAPU_VPSGEADDR) 0xFFFFFFFF linear_addr;
  w ← ram_ptr_read d addr 4;
  block ← blit block (4 * word_index) w;
  Ok (block, u32 (linear_addr + 4)).

(** The block [block_index] is copied to the array. *)
Definition fetch_adpcm_block d (f : voice_fmt) (block_index : Z) (block : list Z) : outcome (list Z) :=
  let linear_addr := u32 (block_index * block_size f) in
  if stream f then
    let addr := segment_offset f + linear_addr in
    let max_seg_byte := (seg_len f ≫ 6) * block_size f in
    c_assert (linear_addr + block_size f <=? max_seg_byte);;
    src ← ram_ptr_read d addr (block_size f);
    blit block 0 src
  else
    let linear_addr := u32 (linear_addr + ba f) in
    '(block, _) ← mfor (seqZ 0 (9 * samples_per_block f)) (fetch_word d) (block, linear_addr);
    Ok block.

Definition adpcm_sample d (f : voice_fmt) (s : fetch) : outcome (fetch * (Z * Z)) :=
  let block_index := cbo s / ADPCM_SAMPLES_PER_BLOCK in
  let block_position := cbo s mod ADPCM_SAMPLES_PER_BLOCK in
  s ← (if adpcm_block_index s =? block_index then Ok s else
       block ← fetch_adpcm_block d f block_index (adpcm_block s);
       '(_, decoded) ← adpcm_decode_block (adpcm_decoded s) block (block_size f) (channels f);
       Ok (s <| adpcm_block := block |> <| adpcm_decoded := decoded |> <| adpcm_block_index := block_index |>));
  l ← rd (adpcm_decoded s) (block_position * channels f);
  r ← (if stereo f then rd (adpcm_decoded s) (block_position * channels f + 1) else Ok l);
  Ok (s, (int16_to_float l, int16_to_float r)).

(** ** PCM *)

Definition pcm_channel d (f : voice_fmt) (addr channel : Z) : outcome Z :=
  let src := addr + channel * container_size f in
  if sample_size f =? NV_PAVS_VOICE_CFG_FMT_SAMPLE_SIZE_U8 then b ← ram_ptr_read d src 1; Ok (uint8_to_float (le_val b))
  else if sample_size f =? NV_PAVS_VOICE_CFG_FMT_SAMPLE_SIZE_S16 then b ← ram_ptr_read d src 2; Ok (int16_to_float (le_val b))
  else if sample_size f =? NV_PAVS_VOICE_CFG_FMT_SAMPLE_SIZE_S24 then b ← ram_ptr_read d src 4; Ok (int24_to_float (le_val b))
  else if sample_size f =? NV_PAVS_VOICE_CFG_FMT_SAMPLE_SIZE_S32 then b ← ram_ptr_read d src 4; Ok (int32_to_float (le_val b))
  else AssertFail.

Definition pcm_sample d (f : voice_fmt) (cbo : Z) : outcome (Z * Z) :=
  addr ← (if stream f then Ok (segment_offset f + cbo * block_size f)
          else get_data_ptr d (rget (regs d) NV_PAPU_VPSGEADDR) 0xFFFFFFFF (u32 (ba f + cbo * block_size f)));
  l ← pcm_channel d f addr 0;
  r ← (if stereo f then pcm_channel d f addr 1 else Ok l);
  Ok (l, r).

(** One sample of either kind, in both channels. *)
Definition sample_step d (f : voice_fmt) (s : fetch) : outcome (fetch * (Z * Z)) :=
  if adpcm f then adpcm_sample d f s else x ← pcm_sample d f (cbo s); Ok (s, x).

(** The loop, for at most [n] samples more. *)
Fixpoint sample_loop d (f : voice_fmt) (n : nat) (s : fetch) : outcome fetch :=
  match n with
  | O => Ok s
  | S n =>
      if negb (cbo s <=? ebo f) then Ok s else
      '(s, x) ← sample_step d f s;
      sample_loop d f n (s <| samples := samples s ++ [x] |> <| cbo := u32 (cbo s + 1) |>)
  end.

(** ** Streams *)

(** The segment that a stream plays, or [None] where the function returns -1. *)
Definition stream_segment d (v : Z) (f : voice_fmt) (loop persist : bool) : outcome (VPState M * option voice_fmt) :=
  let eacur := voice_get_mask d v NV_PAVS_VOICE_PAR_STATE NV_PAVS_VOICE_PAR_STATE_EACUR in
  if negb persist && (eacur <? NV_PAVS_VOICE_PAR_STATE_EFCUR_RELEASE) then
    d ← voice_off d v; Ok (d, None)
  else
  c_assert (negb loop);;
  s ← rd (ssl d) v;
  base ← rd (ssl_base s) (ssl_index s);
  count ← rd (ssl_count s) (ssl_index s);
  let page := sext 32 (base + ssl_seg s) in
  if count =? 0 then
    let d := voice_set_mask d v NV_PAVS_VOICE_PAR_OFFSET NV_PAVS_VOICE_PAR_OFFSET_CBO 0 in
    ssls ← wr (ssl d) v (s <| ssl_seg := 0 |>);
    let d := d <| ssl := ssls |> in
    if negb persist then
      ssls ← wr (ssl d) v (s <| ssl_seg := 0 |> <| ssl_index := 0 |>);
      d ← voice_off (d <| ssl := ssls |>) v; Ok (d, None)
    else Ok (set_notify_status d v (MCPX_HW_NOTIFIER_SSLA_DONE + ssl_index s) NV1BA0_NOTIFICATION_STATUS_DONE_SUCCESS, None)
  else
  let addr := u32 (rget (regs d) NV_PAPU_VPSSLADDR + page * 8) in
  let segment_offset := ldl_le_phys (mem d) addr in
  let segment_length := ldl_le_phys (mem d) (addr + 4) in
  c_assert (negb (segment_offset =? 0));;
  c_assert (negb (segment_length =? 0));;
  let seg_len := (segment_length ≫ 0) .& 0xffff in
  let seg_cs := (segment_length ≫ 16) .& 3 in
  let seg_spb := (segment_length ≫ 18) .& 0x1f in
  let seg_s := (segment_length ≫ 23) .& 1 in
  c_assert (seg_cs =? container_size_index f);;
  c_assert (seg_spb + 1 =? samples_per_block f);;
  c_assert (seg_s =? (if stereo f then 1 else 0));;
  c_assert (0 <? seg_len);;
  Ok (d, Some (mkFmt (stereo f) (if seg_cs =? NV_PAVS_VOICE_CFG_FMT_CONTAINER_SIZE_ADPCM then NV_PAVS_VOICE_CFG_FMT_SAMPLE_SIZE_S24 else sample_size f)
                 (container_size f) seg_cs (stream f) (seg_len - 1) (ba f) (samples_per_block f) segment_offset seg_len)).

(** The end of the buffer or segment: the new position and the voice. *)
Definition voice_advance d (v : Z) (f : voice_fmt) (loop : bool) (lbo cbo : Z) : outcome (VPState M * Z) :=
  if negb (cbo >=? ebo f) then Ok (d, cbo)
  else if stream f then
    s ← rd (ssl d) v;
    let ssl_index' := ssl_index s in
    let s := s <| ssl_seg := ssl_seg s + 1 |> in
    count ← rd (ssl_count s) ssl_index';
    if ssl_seg s <? count then
      ssls ← wr (ssl d) v s; Ok (d <| ssl := ssls |>, 0)
    else
      let next_index := Z.rem (ssl_index' + 1) 2 in
      ssls ← wr (ssl d) v (s <| ssl_index := next_index |> <| ssl_seg := 0 |>);
      Ok (set_notify_status (d <| ssl := ssls |>) v (MCPX_HW_NOTIFIER_SSLA_DONE + ssl_index')
            NV1BA0_NOTIFICATION_STATUS_DONE_SUCCESS, 0)
  else if loop then Ok (d, lbo)
  else d ← voice_off d v; Ok (d, ebo f).

(** The format of a voice that plays a buffer, and a flag of a voice. *)
Definition voice_format d (v : Z) : outcome voice_fmt :=
  let get off mask := voice_get_mask d v off mask in
  let index := get NV_PAVS_VOICE_CFG_FMT NV_PAVS_VOICE_CFG_FMT_CONTAINER_SIZE in
  size ← rd [1; 2; 0; 4] index;
  Ok (mkFmt (negb (get NV_PAVS_VOICE_CFG_FMT NV_PAVS_VOICE_CFG_FMT_STEREO =? 0))
        (get NV_PAVS_VOICE_CFG_FMT NV_PAVS_VOICE_CFG_FMT_SAMPLE_SIZE) size index
        (negb (get NV_PAVS_VOICE_CFG_FMT NV_PAVS_VOICE_CFG_FMT_DATA_TYPE =? 0))
        (get NV_PAVS_VOICE_PAR_NEXT NV_PAVS_VOICE_PAR_NEXT_EBO)
        (get NV_PAVS_VOICE_CUR_PSL_START NV_PAVS_VOICE_CUR_PSL_START_BA)
        (1 + get NV_PAVS_VOICE_CFG_FMT NV_PAVS_VOICE_CFG_FMT_SAMPLES_PER_BLOCK) 0 0).

Definition voice_flag d (v off mask : Z) : bool := negb (voice_get_mask d v off mask =? 0).

(** The number of samples, or -1, and the samples; [block0] and [decoded0] are what
    the two arrays on the stack hold at first. *)
Definition voice_get_samples d (v num_samples_requested : Z) (block0 decoded0 : list Z)
    : outcome (VPState M * Z * list (Z * Z)) :=
  c_assert (v <? MCPX_HW_MAX_VOICES);;
  f ← voice_format d v;
  let paused := voice_flag d v NV_PAVS_VOICE_PAR_STATE NV_PAVS_VOICE_PAR_STATE_PAUSED in
  let loop := voice_flag d v NV_PAVS_VOICE_CFG_FMT NV_PAVS_VOICE_CFG_FMT_LOOP in
  let cbo0 := voice_get_mask d v NV_PAVS_VOICE_PAR_OFFSET NV_PAVS_VOICE_PAR_OFFSET_CBO in
  let lbo := voice_get_mask d v NV_PAVS_VOICE_CUR_PSH_SAMPLE NV_PAVS_VOICE_CUR_PSH_SAMPLE_LBO in
  let persist := voice_flag d v NV_PAVS_VOICE_CFG_FMT NV_PAVS_VOICE_CFG_FMT_PERSIST in
  c_assert (negb (voice_flag d v NV_PAVS_VOICE_CFG_FMT NV_PAVS_VOICE_CFG_FMT_MULTIPASS));;
  let d := voice_set_mask d v NV_PAVS_VOICE_PAR_STATE NV_PAVS_VOICE_PAR_STATE_NEW_VOICE 0 in
  if paused then Ok (d, -1, []) else
  '(d, seg) ← (if stream f then stream_segment d v f loop persist else Ok (d, Some f));
  match seg with
  | None => Ok (d, -1, [])
  | Some f =>
      s ← sample_loop d f (Z.to_nat num_samples_requested) (mkFetch cbo0 (-1) block0 decoded0 []);
      '(d, cbo') ← voice_advance d v f loop lbo (cbo s);
      let d := voice_set_mask d v NV_PAVS_VOICE_PAR_OFFSET NV_PAVS_VOICE_PAR_OFFSET_CBO cbo' in
      Ok (d, zlen (samples s), samples s)
  end.

End VoiceSamples.

(** ** The linear buffer *)

Section Linear.

Context {M : Type} `{DmaMemoryLaws M}.
Context (ram_size : Z).

Implicit Types d : VPState M.

(** The buffer of a voice is linear through the table of pages at [VPSGEADDR]. *)
Definition page_of d (entry : Z) : Z := ldl_le_phys (mem d) (rget (regs d) NV_PAPU_VPSGEADDR + entry * 8).

Definition buffer_byte d (a : Z) : Z :=
  nthZ (pci_dma_read (mem d) (page_of d (a / TARGET_PAGE_SIZE) + a mod TARGET_PAGE_SIZE) 1) 0.

Definition buffer_read d (a n : Z) : list Z := (fun i => buffer_byte d (a + i)) <$> seqZ 0 n.

(** The table has an entry for [a], and the page it names is RAM. *)
Definition mapped d (a : Z) : Prop :=
  let entry := a / TARGET_PAGE_SIZE in
  rget (regs d) NV_PAPU_VPSGEADDR + entry * 8 + 4 <= ram_size /\ page_of d entry + TARGET_PAGE_SIZE <= ram_size.

(** The first [ram_size] bytes of the address space are RAM. *)
Definition ram_mapped d : Prop :=
  0 <= rget (regs d) NV_PAPU_VPSGEADDR /\ ram_size <= 2 ^ 32 /\
  forall a n, 0 <= a -> a + n <= ram_size -> backed (mem d) a n.

Lemma page_range d e : 0 <= page_of d e.
Proof using All. pose proof (ldl_range (mem d) (rget (regs d) NV_PAPU_VPSGEADDR + e * 8)) as []. done. Qed.

Lemma ram_ptr_read_ok d a n : 0 <= a -> a + n <= ram_size -> ram_ptr_read ram_size d a n = Ok (pci_dma_read (mem d) a n).
Proof using. intros. unfold ram_ptr_read. by zcases. Qed.

Lemma get_data_ptr_ok d a : ram_mapped d -> mapped d a -> 0 <= a < 2 ^ 32 ->
  get_data_ptr ram_size d (rget (regs d) NV_PAPU_VPSGEADDR) 0xFFFFFFFF a =
    Ok (page_of d (a / TARGET_PAGE_SIZE) + a mod TARGET_PAGE_SIZE).
Proof using All.
  intros (Hb & Hs & _) [Ht Hp] Ha. unfold get_data_ptr.
  assert (0 <= a / 4096 < 2 ^ 20) by (split; [apply Z.div_pos | apply Z.div_lt_upper_bound]; lia).
  rewrite c_assert_true by (apply Z.leb_le; lia). rewrite u32_small by lia.
  rewrite ram_ptr_read_ok by lia. cbn [mbind outcome_bind].
  change (le_val (pci_dma_read (mem d) (rget (regs d) NV_PAPU_VPSGEADDR + a / 4096 * 8) 4)) with (page_of d (a / 4096)).
  pose proof (page_range d (a / 4096)). pose proof (Z.mod_pos_bound a 4096). by rewrite u32_small by lia.
Qed.

Lemma in_page a o : 0 <= o -> a mod TARGET_PAGE_SIZE + o < TARGET_PAGE_SIZE ->
  (a + o) / TARGET_PAGE_SIZE = a / TARGET_PAGE_SIZE /\ (a + o) mod TARGET_PAGE_SIZE = a mod TARGET_PAGE_SIZE + o.
Proof using.
  intros Ho Hin. pose proof (Z.mod_pos_bound a 4096). rewrite (Z.div_mod a 4096) at 1 3 by done. split.
  - symmetry; apply (Z.div_unique _ _ _ (a mod 4096 + o)); lia.
  - symmetry; apply (Z.mod_unique _ _ (a / 4096)); lia.
Qed.

(** What lies within a page is read at once. *)
Lemma buffer_read_page d a n : ram_mapped d -> mapped d a -> 0 <= a -> 0 <= n -> a mod TARGET_PAGE_SIZE + n <= TARGET_PAGE_SIZE ->
  pci_dma_read (mem d) (page_of d (a / TARGET_PAGE_SIZE) + a mod TARGET_PAGE_SIZE) n = buffer_read d a n.
Proof using All.
  intros (_ & _ & Hram) [_ Hp] Ha Hn Hin. pose proof (page_range d (a / 4096)). pose proof (Z.mod_pos_bound a 4096).
  apply listZ_eq; rewrite dma_read_length by done; [unfold buffer_read; rewrite length_fmap, length_seqZ; lia |].
  intros i Hi. rewrite dma_read_nth by (done || apply Hram; lia). unfold buffer_read.
  rewrite nthZ_fmap by (rewrite length_seqZ; lia). rewrite nthZ_seqZ, Z.add_0_l by done. unfold buffer_byte. f_equal. f_equal.
  destruct (in_page a i) as [-> ->]; lia.
Qed.

Lemma length_buffer_read d a n : 0 <= n -> zlen (buffer_read d a n) = n.
Proof using. intros. unfold buffer_read. rewrite length_fmap, length_seqZ. lia. Qed.

Lemma buffer_read_app d a n m : 0 <= n -> 0 <= m -> buffer_read d a n ++ buffer_read d (a + n) m = buffer_read d a (n + m).
Proof using.
  intros Hn Hm. apply listZ_eq; [rewrite length_app, Nat2Z.inj_add, !length_buffer_read by lia; lia |].
  rewrite length_app, Nat2Z.inj_add, !length_buffer_read by lia. intros i Hi.
  rewrite nthZ_app, length_buffer_read by lia. unfold buffer_read.
  rewrite (nthZ_fmap _ (seqZ 0 (n + m))), nthZ_seqZ by (rewrite ?length_seqZ; lia).
  zcases; rewrite nthZ_fmap, nthZ_seqZ by (rewrite ?length_seqZ; lia); f_equal; lia.
Qed.

(** ** The samples of a linear buffer *)

Definition pcm_bytes (f : voice_fmt) : Z :=
  if sample_size f =? NV_PAVS_VOICE_CFG_FMT_SAMPLE_SIZE_U8 then 1
  else if sample_size f =? NV_PAVS_VOICE_CFG_FMT_SAMPLE_SIZE_S16 then 2 else 4.

Definition pcm_value (f : voice_fmt) (b : list Z) : Z :=
  if sample_size f =? NV_PAVS_VOICE_CFG_FMT_SAMPLE_SIZE_U8 then uint8_to_float (le_val b)
  else if sample_size f =? NV_PAVS_VOICE_CFG_FMT_SAMPLE_SIZE_S16 then int16_to_float (le_val b)
  else if sample_size f =? NV_PAVS_VOICE_CFG_FMT_SAMPLE_SIZE_S24 then int24_to_float (le_val b)
  else int32_to_float (le_val b).

(** Sample number [k] of channel [c]. ADPCM plays 64 samples of each block. *)
Definition buffer_sample d (f : voice_fmt) (k c : Z) : Z :=
  if adpcm f then
    2 ^ 16 * sample (buffer_read d (ba f + k / 64 * block_size f) (block_size f)) (channels f) c (k mod 64)
  else pcm_value f (buffer_read d (ba f + k * block_size f + c * container_size f) (pcm_bytes f)).

Definition buffer_frame d (f : voice_fmt) (k : Z) : Z * Z :=
  (buffer_sample d f k 0, buffer_sample d f k (if stereo f then 1 else 0)).

(** The bytes of the buffer up to [ebo]. *)
Definition buffer_size (f : voice_fmt) : Z :=
  (if adpcm f then ebo f / 64 + 1 else ebo f + 1) * block_size f.

(** A PCM frame is a power of two of bytes on its boundary, and holds the channels'
    samples; ADPCM has one block of 36 bytes per channel, with good headers. *)
Definition format_ok d (f : voice_fmt) : Prop :=
  if adpcm f then
    samples_per_block f = channels f /\ (4 | ba f) /\
    forall b ch, 0 <= b <= ebo f / 64 -> 0 <= ch < channels f ->
      header_ok (buffer_read d (ba f + b * block_size f) (block_size f)) ch = true
  else
    0 <= sample_size f <= 3 /\ 0 < container_size f /\ pcm_bytes f <= container_size f /\
    channels f * container_size f <= block_size f /\ (block_size f | TARGET_PAGE_SIZE) /\ (block_size f | ba f).

(** A buffer in RAM, below the end of the address space. *)
Record buffer_ok d (f : voice_fmt) : Prop := {
  ok_ram : ram_mapped d;
  ok_stream : stream f = false;
  ok_ba : 0 <= ba f;
  ok_ebo : 0 <= ebo f < 2 ^ 24;
  ok_end : ba f + buffer_size f <= 2 ^ 32;
  ok_mapped a : ba f <= a < ba f + buffer_size f -> mapped d a;
  ok_format : format_ok d f
}.

Lemma channels_range f : 1 <= channels f <= 2.
Proof using. unfold channels. destruct (stereo f); lia. Qed.

Lemma pcm_channel_ok d f a c : ram_mapped d -> mapped d a -> 0 <= a -> 0 <= sample_size f <= 3 -> 0 <= c ->
  0 <= container_size f -> a mod TARGET_PAGE_SIZE + c * container_size f + pcm_bytes f <= TARGET_PAGE_SIZE ->
  pcm_channel ram_size d f (page_of d (a / TARGET_PAGE_SIZE) + a mod TARGET_PAGE_SIZE) c =
    Ok (pcm_value f (buffer_read d (a + c * container_size f) (pcm_bytes f))).
Proof using All.
  intros Hram Hm Ha Hs Hc Hcs Hin. pose proof (page_range d (a / 4096)). pose proof (Z.mod_pos_bound a 4096).
  assert (Hn : 1 <= pcm_bytes f <= 4) by (unfold pcm_bytes; zcases; lia).
  set (o := c * container_size f) in *. assert (0 <= o) by (unfold o; nia).
  destruct (in_page a o) as [Ed Em]; [lia.. |].
  assert (Hr : ram_ptr_read ram_size d (page_of d (a / 4096) + a mod 4096 + o) (pcm_bytes f) = Ok (buffer_read d (a + o) (pcm_bytes f))).
  { rewrite ram_ptr_read_ok by (destruct Hm; lia).
    rewrite <- (buffer_read_page d (a + o)) by (try done; unfold mapped; rewrite ?Ed; (done || lia)).
    rewrite Ed, Em. do 2 f_equal. lia. }
  unfold pcm_channel. fold o. unfold pcm_value, pcm_bytes in *.
  zcases; rewrite ?Hr; cbn [mbind outcome_bind]; (done || lia).
Qed.

(** A frame on its boundary does not cross pages. *)
Lemma frame_in_page bs a : 0 < bs -> (bs | TARGET_PAGE_SIZE) -> (bs | a) -> a mod TARGET_PAGE_SIZE + bs <= TARGET_PAGE_SIZE.
Proof using.
  intros Hb [q Hq] [k ->]. pose proof (Z.mod_pos_bound (k * bs) 4096).
  assert ((k * bs) mod 4096 = (k mod q) * bs) as -> by (rewrite Hq; apply Z.mul_mod_distr_r; lia).
  assert (0 < q) by nia. pose proof (Z.mod_pos_bound k q). nia.
Qed.

Lemma pcm_sample_ok d f k : buffer_ok d f -> adpcm f = false -> 0 <= k <= ebo f ->
  pcm_sample ram_size d f k = Ok (buffer_frame d f k).
Proof using All.
  intros [Hram Hst Hba Hebo Hend Hmap Hfmt] Had Hk. unfold format_ok in Hfmt. unfold buffer_size in *. rewrite Had in *.
  destruct Hfmt as (Hs & Hc & Hb & Hch & Hp & Ha). pose proof (channels_range f).
  unfold pcm_sample. rewrite Hst. set (a := ba f + k * block_size f). assert (Hbs : 0 < block_size f) by nia.
  assert (Ha' : 0 <= a /\ ba f <= a < ba f + (ebo f + 1) * block_size f) by (unfold a; nia).
  rewrite u32_small by lia. rewrite get_data_ptr_ok by first [done | lia | apply Hmap; lia]. cbn [mbind outcome_bind].
  assert (Hin : a mod 4096 + block_size f <= 4096).
  { apply frame_in_page; [done.. |]. apply Z.divide_add_r; [done | by apply Z.divide_factor_r]. }
  unfold buffer_frame, buffer_sample. rewrite Had.
  assert (Hd : forall c, 0 <= c < channels f -> pcm_channel ram_size d f (page_of d (a / 4096) + a mod 4096) c =
    Ok (pcm_value f (buffer_read d (a + c * container_size f) (pcm_bytes f)))).
  { intros c Hcc. apply pcm_channel_ok; try done; [apply Hmap; lia | lia.. | nia]. }
  rewrite (Hd 0) by lia. cbn [mbind outcome_bind]. unfold channels in Hd.
  destruct (stereo f); [rewrite (Hd 1) by lia |]; done.
Qed.

(** ** ADPCM blocks *)

(** The array after [w] words of the block at [a]. *)
Definition words_fetched d (block : list Z) (a w : Z) (st : list Z * Z) : Prop :=
  st = (buffer_read d a (4 * w) ++ drop (Z.to_nat (4 * w)) block, u32 (a + 4 * w)).

Lemma fetch_word_ok d block a w st : ram_mapped d -> mapped d (a + 4 * w) -> 0 <= a -> (4 | a) -> 0 <= w ->
  a + 4 * w < 2 ^ 32 -> 4 * w + 4 <= zlen block -> words_fetched d block a w st ->
  exists st', fetch_word ram_size d w st = Ok st' /\ words_fetched d block a (w + 1) st'.
Proof using All.
  intros Hram Hm Ha H4 Hw Hlt Hroom ->. unfold fetch_word, words_fetched. rewrite (u32_small (a + 4 * w)) by lia.
  assert (Hw4 : (a + 4 * w) mod 4096 + 4 <= 4096).
  { apply frame_in_page; [lia | by exists 1024 |]. apply Z.divide_add_r; [done | by apply Z.divide_factor_l]. }
  rewrite get_data_ptr_ok by (done || lia). cbn [mbind outcome_bind].
  pose proof (page_range d ((a + 4 * w) / 4096)). pose proof (Z.mod_pos_bound (a + 4 * w) 4096).
  rewrite ram_ptr_read_ok by (destruct Hm; lia). cbn [mbind outcome_bind].
  rewrite buffer_read_page by (done || lia).
  pose proof (length_buffer_read d (a + 4 * w) 4 ltac:(lia)) as H4b.
  pose proof (blit_app (buffer_read d a (4 * w)) (drop (Z.to_nat (4 * w)) block) (buffer_read d (a + 4 * w) 4)) as Hblit.
  rewrite (length_buffer_read d a (4 * w)) in Hblit by lia. rewrite Hblit by (rewrite H4b, length_drop; lia).
  cbn [mbind outcome_bind]. eexists; split; [reflexivity |].
  rewrite app_assoc, buffer_read_app, drop_drop by lia. f_equal; [| f_equal; lia]. f_equal; f_equal; lia.
Qed.

(** Word by word, each through the table of pages, the block is the bytes of the
    buffer. *)
Lemma fetch_block_ok d f b block : buffer_ok d f -> adpcm f = true -> 0 <= b <= ebo f / 64 -> zlen block = 72 ->
  exists block', fetch_adpcm_block ram_size d f b block = Ok block' /\ zlen block' = 72 /\
    forall i, 0 <= i < block_size f -> nthZ block' i = nthZ (buffer_read d (ba f + b * block_size f) (block_size f)) i.
Proof using All.
  intros [Hram Hst Hba Hebo Hend Hmap Hfmt] Had Hb Hl. unfold format_ok in Hfmt. unfold buffer_size in *. rewrite Had in *.
  destruct Hfmt as (Hspb & H4 & _). pose proof (channels_range f).
  assert (Hbs : block_size f = 36 * channels f) by (unfold block_size; rewrite Had, Hspb; lia).
  unfold fetch_adpcm_block. rewrite Hst, Hspb. set (a := ba f + b * block_size f).
  assert (Ha : 0 <= a /\ a + block_size f <= ba f + (ebo f / 64 + 1) * block_size f) by (unfold a; nia).
  assert (0 <= ebo f / 64 < 2 ^ 18) by (split; [apply Z.div_pos | apply Z.div_lt_upper_bound]; lia).
  rewrite (u32_small (b * block_size f)) by nia. replace (b * block_size f + ba f) with a by (unfold a; lia).
  destruct (mfor_seqZ (words_fetched d block a) 0 (9 * channels f) (fetch_word ram_size d) (block, u32 a))
    as (st & Hrun & Hst').
  - unfold words_fetched. by rewrite drop_0, Z.mul_0_r, Z.add_0_r.
  - intros w st Hw Hst'. apply (fetch_word_ok d block a w st); try done; [apply Hmap; lia | lia | | lia..].
    apply Z.divide_add_r; [done |]. exists (b * 9 * channels f). lia.
  - rewrite Hrun. unfold words_fetched in Hst'. rewrite Z.add_0_l, Z.max_r in Hst' by lia. subst st.
    replace (4 * (9 * channels f)) with (block_size f) by lia. cbn [mbind outcome_bind].
    eexists; split; [reflexivity |]. assert (Hz := length_buffer_read d a (block_size f) ltac:(lia)). split.
    + rewrite length_app, length_drop. lia.
    + intros i Hi. by rewrite nthZ_app_l by lia.
Qed.

Lemma int16_to_float_small z : -32768 <= z <= 32767 -> int16_to_float z = 2 ^ 16 * z.
Proof using.
  intros Hz. unfold int16_to_float, sext. assert (z mod 2 ^ 16 = if z <? 0 then z + 65536 else z) as ->.
  { destruct (Z.ltb_spec z 0); [| by rewrite Z.mod_small by lia]. symmetry. apply (Z.mod_unique _ _ (-1)); lia. }
  zcases; lia.
Qed.

(** Block [b] of the buffer is in [decoded]. *)
Definition block_decoded d (f : voice_fmt) (b : Z) (decoded : list Z) : Prop :=
  forall ch n, 0 <= ch < channels f -> 0 <= n < 64 ->
    int16_to_float (nthZ decoded (n * channels f + ch)) =
      2 ^ 16 * sample (buffer_read d (ba f + b * block_size f) (block_size f)) (channels f) ch n.

(** The cache holds the block it names. *)
Definition cache_ok d (f : voice_fmt) (s : fetch) : Prop :=
  zlen (adpcm_block s) = 72 /\ zlen (adpcm_decoded s) = 130 /\
  (0 <= adpcm_block_index s -> block_decoded d f (adpcm_block_index s) (adpcm_decoded s)).

Lemma decode_fetched d f b block decoded : buffer_ok d f -> adpcm f = true -> 0 <= b <= ebo f / 64 -> zlen block = 72 ->
  (forall i, 0 <= i < block_size f -> nthZ block i = nthZ (buffer_read d (ba f + b * block_size f) (block_size f)) i) ->
  zlen decoded = 130 ->
  exists n decoded', adpcm_decode_block decoded block (block_size f) (channels f) = Ok (n, decoded') /\
    zlen decoded' = 130 /\ block_decoded d f b decoded'.
Proof using.
  intros [_ _ _ _ _ _ Hfmt] Had Hb Hl Heq Hd. unfold format_ok in Hfmt. rewrite Had in Hfmt.
  destruct Hfmt as (Hspb & _ & Hhdr). pose proof (channels_range f).
  assert (Hbs : block_size f = 36 * channels f) by (unfold block_size; rewrite Had, Hspb; lia).
  assert (Hn : samples_in (channels f) (block_size f) = 65).
  { unfold samples_in. rewrite Hbs. replace (36 * channels f - 4 * channels f) with (8 * (channels f * 4)) by lia.
    by rewrite Z.div_mul by lia. }
  destruct (decode_block_fits block decoded (block_size f) (channels f)) as (out & Hrun & Hlo & Hs & _); [lia | lia | | lia |].
  { intros ch Hc. destruct (header_prefix block (buffer_read d (ba f + b * block_size f) (block_size f)) (channels f) ch) as [_ ->];
      [intros i Hi; apply Heq; lia | done | by apply Hhdr]. }
  eexists _, out. split; [exact Hrun | split; [lia |]]. intros ch n Hc Hn64.
  destruct (Hs ch n Hc) as [-> Hr]; [lia |]. rewrite int16_to_float_small by done. f_equal.
  apply (sample_prefix _ _ _ (block_size f)); [done | lia | done | lia].
Qed.

Lemma adpcm_sample_ok d f s : buffer_ok d f -> adpcm f = true -> 0 <= cbo s <= ebo f -> cache_ok d f s ->
  exists s', adpcm_sample ram_size d f s = Ok (s', buffer_frame d f (cbo s)) /\ cache_ok d f s' /\
    cbo s' = cbo s /\ samples s' = samples s.
Proof using All.
  intros Hok Had Hk (Hl & Hd & Hc). unfold adpcm_sample. set (b := cbo s / 64).
  assert (Hb : 0 <= b <= ebo f / 64) by (split; [apply Z.div_pos; lia | apply Z.div_le_mono; lia]).
  pose proof (channels_range f). pose proof (Z.mod_pos_bound (cbo s) 64).
  assert (exists s', (if adpcm_block_index s =? b then Ok s else
       block ← fetch_adpcm_block ram_size d f b (adpcm_block s);
       '(_, decoded) ← adpcm_decode_block (adpcm_decoded s) block (block_size f) (channels f);
       Ok (s <| adpcm_block := block |> <| adpcm_decoded := decoded |> <| adpcm_block_index := b |>)) = Ok s' /\
     cache_ok d f s' /\ adpcm_block_index s' = b /\ cbo s' = cbo s /\ samples s' = samples s) as (s' & -> & Hc' & Hi & Hcbo & Hsm).
  { destruct (Z.eqb_spec (adpcm_block_index s) b) as [E|_]; [exists s; repeat (split; [done |]); done |].
    destruct (fetch_block_ok d f b (adpcm_block s)) as (block & -> & Hlb & Heq); [done.. |]. cbn [mbind outcome_bind].
    destruct (decode_fetched d f b block (adpcm_decoded s)) as (n & dec & -> & Hld & Hdec); [done.. |]. cbn [mbind outcome_bind].
    eexists; split; [reflexivity |]. done. }
  cbn [mbind outcome_bind]. destruct Hc' as (Hl' & Hd' & Hdec). rewrite Hi in Hdec. specialize (Hdec ltac:(lia)).
  rewrite (rd_nthZ _ (cbo s mod 64 * channels f)) by nia. cbn [mbind outcome_bind].
  assert (Hcf : cache_ok d f s') by (split; [done | split; [done |]]; by rewrite Hi).
  exists s'. unfold buffer_frame, buffer_sample. rewrite Had. fold b. pose proof (Hdec 0 (cbo s mod 64)) as H0'. rewrite Z.add_0_r in H0'.
  destruct (stereo f) eqn:Est.
  - assert (channels f = 2) by (unfold channels; by rewrite Est). rewrite rd_nthZ by nia. cbn [mbind outcome_bind]. by rewrite H0', (Hdec 1) by lia.
  - cbn [mbind outcome_bind]. by rewrite H0' by lia.
Qed.

(** ** The loop *)

Lemma sample_step_ok d f s : buffer_ok d f -> 0 <= cbo s <= ebo f -> cache_ok d f s ->
  exists s', sample_step ram_size d f s = Ok (s', buffer_frame d f (cbo s)) /\ cache_ok d f s' /\
    cbo s' = cbo s /\ samples s' = samples s.
Proof using All.
  intros Hok Hk Hc. unfold sample_step. destruct (adpcm f) eqn:Had; [by apply adpcm_sample_ok |].
  rewrite pcm_sample_ok by done. by exists s.
Qed.

(** The samples that are left, at most [n]. *)
Definition frames_left (f : voice_fmt) (cbo n : Z) : Z := Z.max 0 (Z.min n (ebo f + 1 - cbo)).

Lemma sample_loop_ok d f n s : buffer_ok d f -> 0 <= cbo s <= 2 ^ 24 -> cache_ok d f s ->
  let c := frames_left f (cbo s) (Z.of_nat n) in
  exists s', sample_loop ram_size d f n s = Ok s' /\ cbo s' = cbo s + c /\
    samples s' = samples s ++ (buffer_frame d f <$> seqZ (cbo s) c).
Proof using All.
  intros Hok. revert s. induction n as [|n IH]; intros s Hk Hc; cbn [sample_loop].
  - unfold frames_left. rewrite Z.max_l by lia. exists s. by rewrite Z.add_0_r, app_nil_r.
  - pose proof (ok_ebo _ _ Hok) as Hebo. destruct (Z.leb_spec (cbo s) (ebo f)) as [Hle|Hgt]; cbn [negb].
    + destruct (sample_step_ok d f s) as (s1 & -> & Hc1 & Hcbo & Hsm); [done | lia | done |]. cbn [mbind outcome_bind].
      rewrite Hcbo, Hsm, u32_small by lia.
      destruct (IH (s1 <| samples := samples s ++ [buffer_frame d f (cbo s)] |> <| cbo := cbo s + 1 |>)) as (s2 & Hr & Hcb2 & Hs2);
        [cbn; lia | done |].
      exists s2. split; [exact Hr |]. cbn in Hcb2, Hs2.
      assert (E : frames_left f (cbo s) (Z.of_nat (S n)) = 1 + frames_left f (cbo s + 1) (Z.of_nat n)) by (unfold frames_left; lia).
      rewrite E, Hcb2, Hs2. split; [lia |]. rewrite (seqZ_cons (cbo s)) by (unfold frames_left; lia).
      rewrite <- app_assoc. cbn. repeat f_equal; lia.
    + unfold frames_left. rewrite Z.max_l by lia. exists s. by rewrite Z.add_0_r, app_nil_r.
Qed.

End Linear.

(** ** The end of the buffer *)

Section Ends.

Context {M : Type} `{DmaMemoryLaws M}.

Implicit Types d : VPState M.

Lemma voices_ok_notify d v notifier status : voices_ok d -> voices_ok (set_notify_status d v notifier status).
Proof using All.
  intros (Hb & Ht & Hm). unfold set_notify_status. set (isr := rget _ _ .| _).
  unfold voices_ok, voice_addr in *. cbn. rewrite !rget_rset_ne by done. split; [done | split; [done |]].
  intros v' off Hv. apply backed_stb, backed_stb, Hm, Hv.
Qed.

(** Setting a field of the state leaves the format alone. *)
Lemma format_flag d v mask val m : voices_ok d -> 0 <= v < MCPX_HW_MAX_VOICES -> in_u 32 mask -> in_u 32 m ->
  voice_flag (voice_set_mask d v NV_PAVS_VOICE_PAR_STATE mask val) v NV_PAVS_VOICE_CFG_FMT m =
  voice_flag d v NV_PAVS_VOICE_CFG_FMT m.
Proof using All.
  intros Hd Hv Hm Hm'. unfold voice_flag. rewrite get_set_ne; [done | done | | | done | done | right; by left].
  - split; [done | split; [by exists 21 | lia]].
  - split; [done | split; [by exists 1 | lia]].
Qed.

Lemma format_stream d v f : voice_format d v = Ok f ->
  stream f = voice_flag d v NV_PAVS_VOICE_CFG_FMT NV_PAVS_VOICE_CFG_FMT_DATA_TYPE.
Proof using. unfold voice_format. 
  intros (size & _ & E)%bind_ok. assert (E' : forall x y : voice_fmt, Ok x = Ok y -> stream y = stream x) by congruence.
  rewrite (E' _ _ E). reflexivity.
Qed.

(** A voice that plays a buffer can always be switched off. *)
Lemma voice_off_buffer d v : voices_ok d -> 0 <= v < MCPX_HW_MAX_VOICES ->
  voice_flag d v NV_PAVS_VOICE_CFG_FMT NV_PAVS_VOICE_CFG_FMT_DATA_TYPE = false ->
  exists d', voice_off d v = Ok d' /\ voices_ok d'.
Proof using All.
  intros Hd Hv Hs. unfold voice_off. rewrite (in_u_small 16 v) by (unfold in_u; lia).
  set (d1 := voice_set_mask d v _ _ _). assert (Hd1 : voices_ok d1) by (by apply voices_ok_set).
  assert (Hs1 : voice_flag d1 v NV_PAVS_VOICE_CFG_FMT NV_PAVS_VOICE_CFG_FMT_DATA_TYPE = false)
    by (unfold d1; rewrite format_flag; [exact Hs | exact Hd | exact Hv | done | done]).
  unfold voice_flag in Hs1. rewrite Hs1. cbn [mbind outcome_bind]. eexists; split; [reflexivity |].
  by apply voices_ok_notify.
Qed.

Lemma position_word v : 0 <= v < MCPX_HW_MAX_VOICES -> voice_word v NV_PAVS_VOICE_PAR_OFFSET.
Proof using. intros. split; [done | split; [by exists 22 | lia]]. Qed.

Lemma position_set d v x : voices_ok d -> 0 <= v < MCPX_HW_MAX_VOICES -> 0 <= x < 2 ^ 24 ->
  voice_get_mask (voice_set_mask d v NV_PAVS_VOICE_PAR_OFFSET NV_PAVS_VOICE_PAR_OFFSET_CBO x) v
    NV_PAVS_VOICE_PAR_OFFSET NV_PAVS_VOICE_PAR_OFFSET_CBO = x.
Proof using All.
  intros Hd Hv Hx. rewrite (get_set_eq _ _ _ _ _ 0 24) by (done || by apply position_word). by apply Z.mod_small.
Qed.

Lemma field24 d v off : 0 <= voice_get_mask d v off 0xFFFFFF < 2 ^ 24.
Proof using. unfold voice_get_mask. rewrite (GET_MASK_field _ _ 0 24) by done. by apply Z.mod_pos_bound. Qed.

End Ends.

(** C29: A voice plays its buffer. For a buffer in RAM behind the table of pages, in a
    format that suits the code, a request for [n] samples returns as many frames as
    are left up to EBO, each the value that the linear buffer holds there, in PCM of
    any size or ADPCM, mono or stereo. The voice's position moves behind them; at the
    end of the buffer it goes back to LBO in a loop, and otherwise the voice stays at
    EBO and is switched off. *)
Theorem voice_plays_buffer {M} `{DmaMemoryLaws M} ram_size (d : VPState M) v n block0 decoded0 f :
  voices_ok d -> 0 <= v < MCPX_HW_MAX_VOICES -> 0 <= n -> zlen block0 = 72 -> zlen decoded0 = 130 ->
  voice_format d v = Ok f ->
  voice_flag d v NV_PAVS_VOICE_PAR_STATE NV_PAVS_VOICE_PAR_STATE_PAUSED = false ->
  voice_flag d v NV_PAVS_VOICE_CFG_FMT NV_PAVS_VOICE_CFG_FMT_MULTIPASS = false ->
  let d1 := voice_set_mask d v NV_PAVS_VOICE_PAR_STATE NV_PAVS_VOICE_PAR_STATE_NEW_VOICE 0 in
  buffer_ok ram_size d1 f ->
  let loop := voice_flag d v NV_PAVS_VOICE_CFG_FMT NV_PAVS_VOICE_CFG_FMT_LOOP in
  let cbo := voice_get_mask d v NV_PAVS_VOICE_PAR_OFFSET NV_PAVS_VOICE_PAR_OFFSET_CBO in
  let lbo := voice_get_mask d v NV_PAVS_VOICE_CUR_PSH_SAMPLE NV_PAVS_VOICE_CUR_PSH_SAMPLE_LBO in
  let c := frames_left f cbo n in
  let ended := ebo f <=? cbo + c in
  let next := if negb ended then cbo + c else if loop then lbo else ebo f in
  exists d2 d3, (if ended && negb loop then voice_off d1 v else Ok d1) = Ok d2 /\
    voice_get_samples ram_size d v n block0 decoded0 = Ok (d3, c, buffer_frame d1 f <$> seqZ cbo c) /\
    d3 = voice_set_mask d2 v NV_PAVS_VOICE_PAR_OFFSET NV_PAVS_VOICE_PAR_OFFSET_CBO next /\
    voice_get_mask d3 v NV_PAVS_VOICE_PAR_OFFSET NV_PAVS_VOICE_PAR_OFFSET_CBO = next.
Proof.
  intros Hd Hv Hn Hb0 Hdec0 Hf Hp Hmp d1 Hok loop c0 lbo c ended next.
  assert (Hd1 : voices_ok d1) by (by apply voices_ok_set).
  pose proof (ok_ebo _ _ _ Hok) as Hebo. pose proof (ok_stream _ _ _ Hok) as Hst.
  assert (Hc0 : 0 <= c0 < 2 ^ 24) by apply field24. assert (Hlbo : 0 <= lbo < 2 ^ 24) by apply field24.
  assert (Hnext : 0 <= next < 2 ^ 24).
  { unfold next, ended, c, frames_left. destruct (Z.leb_spec (ebo f) (c0 + Z.max 0 (Z.min n (ebo f + 1 - c0))));
      cbn [negb]; destruct loop; lia. }
  destruct (sample_loop_ok ram_size d1 f (Z.to_nat n) (mkFetch c0 (-1) block0 decoded0 [])) as (s & Hrun & Hcbo & Hsm);
    [done | cbn; lia | split; [done | split; [done | cbn; lia]] |].
  cbn [samples cbo app] in Hcbo, Hsm. rewrite Z2Nat.id in Hcbo, Hsm by done. fold c in Hcbo, Hsm.
  assert (exists d2, (if ended && negb loop then voice_off d1 v else Ok d1) = Ok d2 /\ voices_ok d2 /\
    voice_advance d1 v f loop lbo (cbo s) = Ok (d2, next)) as (d2 & Hoff & Hd2 & Hadv).
  { unfold voice_advance. rewrite Hcbo, Hst, Z.geb_leb. fold ended. unfold next.
    destruct ended; cbn [negb andb]; [| by exists d1]. destruct loop; cbn [negb andb]; [by exists d1 |].
    destruct (voice_off_buffer d1 v) as (d2 & -> & Hd2); [done | done | | by exists d2].
    unfold d1. rewrite format_flag by first [exact Hd | exact Hv | by split]. rewrite <- (format_stream d v f Hf). exact Hst. }
  exists d2, (voice_set_mask d2 v NV_PAVS_VOICE_PAR_OFFSET NV_PAVS_VOICE_PAR_OFFSET_CBO next).
  split; [exact Hoff | split; [| split; [reflexivity | by apply position_set]]].
  unfold voice_get_samples. rewrite (c_assert_true (v <? MCPX_HW_MAX_VOICES)) by (apply Z.ltb_lt; lia). rewrite Hf. cbn [mbind outcome_bind].
  rewrite Hmp, Hp, Hst. cbn [negb]. rewrite c_assert_true by done. cbn [mbind outcome_bind].
  fold d1 c0 lbo loop. rewrite Hrun. cbn [mbind outcome_bind]. rewrite Hadv. cbn [mbind outcome_bind]. rewrite Hsm.
  do 3 f_equal. rewrite length_fmap, length_seqZ. unfold c, frames_left. lia.
Qed.

(** ** A machine with voice 5 *)

(** The voices are at 0x10000; the pages of the buffer are at 0x3000 and 0x1000, and
    their bytes differ. *)
Definition sample_voice (fmt cbo ebo ba : Z) : VPState (gmap Z Z) :=
  let voice := 0x10000 + 5 * NV_PAVS_SIZE in
  let words := [(voice + NV_PAVS_VOICE_CFG_FMT, fmt); (voice + NV_PAVS_VOICE_PAR_OFFSET, cbo);
                (voice + NV_PAVS_VOICE_PAR_NEXT, ebo); (voice + NV_PAVS_VOICE_CUR_PSL_START, ba);
                (0x8000, 0x3000); (0x8008, 0x1000); (0x3FF8, 0x40302010); (0x3FFC, 0x80706050);
                (0x4000, 0xEEEEEEEE); (0x1000, 0x44332211); (0x1004, 0x08070605)] in
  mkVP {[NV_PAPU_VPVADDR := 0x10000; NV_PAPU_VPSGEADDR := 0x8000]} (foldr (fun w m => stl_le_phys m w.1 w.2) ∅ words)
    false 0 [] 0 [] [] [] [] 0 [] [] 0 0 [].

(** 16-bit samples in 16 bits, and ADPCM. *)
Definition fmt_s16 : Z := 0x50000000.
Definition fmt_adpcm : Z := 0x80000000.

Lemma sample_voice_ok fmt c e b : voices_ok (sample_voice fmt c e b).
Proof. split; [done | split; [done |]]. done. Qed.

Lemma sample_mapped fmt c e b x a : x = voice_set_mask (sample_voice fmt c e b) 5 NV_PAVS_VOICE_PAR_STATE NV_PAVS_VOICE_PAR_STATE_NEW_VOICE 0 ->
  page_of x 0 = 0x3000 -> page_of x 1 = 0x1000 -> 0 <= a < 0x2000 -> mapped 0x20000 x a.
Proof.
  intros -> H0 H1 Ha. unfold mapped. cbv zeta. set (e0 := a / 4096). 
  assert (e0 = 0 \/ e0 = 1) as [-> | ->].
  { assert (0 <= e0 < 2) by (unfold e0; split; [apply Z.div_pos | apply Z.div_lt_upper_bound]; lia). lia. }
  - rewrite H0. by vm_compute.
  - rewrite H1. by vm_compute.
Qed.

(** Four samples through two pages, from the second on. *)
Lemma voice_plays_buffer_witness :
  let d := sample_voice fmt_s16 1 3 0xFFC in
  exists d2 d3, voice_off (voice_set_mask d 5 NV_PAVS_VOICE_PAR_STATE NV_PAVS_VOICE_PAR_STATE_NEW_VOICE 0) 5 = Ok d2 /\
    voice_get_samples 0x20000 d 5 16 (replicate 72 0) (replicate 130 0) =
      Ok (d3, 3, (fun z => (z * 2 ^ 16, z * 2 ^ 16)) <$> [-0x7F90; 0x2211; 0x4433]) /\
    voice_get_mask d3 5 NV_PAVS_VOICE_PAR_OFFSET NV_PAVS_VOICE_PAR_OFFSET_CBO = 3.
Proof.
  intros d.
  pose proof (voice_plays_buffer 0x20000 d 5 16 (replicate 72 0) (replicate 130 0)
    (mkFmt false 1 2 1 false 3 0xFFC 1 0 0)) as Hw.
  destruct Hw as (d2 & d3 & Hoff & Hrun & _ & Hpos);
    [apply sample_voice_ok | lia | lia | done | done | vm_compute; reflexivity | vm_compute; reflexivity | vm_compute; reflexivity | |].
  - split; cbn; [split; [vm_compute; discriminate | split; [lia | done]] | done | lia | lia | vm_compute; discriminate | | ].
    + intros a Ha. apply (sample_mapped fmt_s16 1 3 0xFFC); [reflexivity | vm_compute; reflexivity | vm_compute; reflexivity |].
      change (buffer_size _) with 8 in Ha. lia.
    + unfold format_ok. cbn. split; [lia | split; [lia | split; [vm_compute; discriminate | split; [vm_compute; discriminate |]]]].
      split; [by exists 2048 | by exists 2046].
  - exists d2, d3. split; [exact Hoff | split; [| exact Hpos]]. rewrite Hrun. vm_compute. reflexivity.
Defined.

(** A stereo frame that crosses a page, here one of four bytes at 0xFFE, takes its
    second half from behind the first page and not from the second. *)
Example frame_across_pages :
  let d := sample_voice (fmt_s16 .| NV_PAVS_VOICE_CFG_FMT_STEREO .| (1 ≪ 16)) 0 3 0xFFE in
  let f := mkFmt true 1 2 1 false 3 0xFFE 2 0 0 in
  voice_format d 5 = Ok f /\ pcm_sample 0x20000 d f 0 = Ok (int16_to_float 0x8070, int16_to_float 0xEEEE) /\
  buffer_frame d f 0 = (int16_to_float 0x8070, int16_to_float 0x2211).
Proof. split; [vm_compute; reflexivity | split; vm_compute; reflexivity]. Qed.

(** Mono ADPCM with two blocks of 36 bytes decodes to 137 samples, into an array of
    130; three blocks do not fit the array of 72 bytes. *)
Example adpcm_overflows_decoded :
  voice_get_samples 0x20000 (sample_voice (fmt_adpcm .| (1 ≪ 16)) 0 63 0x100) 5 1 (replicate 72 0) (replicate 130 0) = Undef.
Proof. vm_compute. reflexivity. Qed.

Example adpcm_overflows_block :
  voice_get_samples 0x20000 (sample_voice (fmt_adpcm .| (2 ≪ 16)) 0 63 0x100) 5 1 (replicate 72 0) (replicate 130 0) = Undef.
Proof. vm_compute. reflexivity. Qed.

(** Sample 3, the last one, is not played when a request ends right before it: the
    voice is switched off, although one request for four samples plays it. *)
Example last_sample_lost :
  let d := sample_voice fmt_s16 0 3 0xFFC in
  let sent n := '(d', c, _) ← voice_get_samples 0x20000 d 5 n (replicate 72 0) (replicate 130 0);
                Ok (c, set_irq d') in
  sent 2 = Ok (2, false) /\ sent 3 = Ok (3, true) /\ sent 4 = Ok (4, true).
Proof. split; [vm_compute; reflexivity | split; vm_compute; reflexivity]. Qed.
