(* ===== verification/Envelope.v ===== *)
(** * The envelopes of a voice (hw/xbox/mcpx/apu/vp/vp.c)

    [voice_step_envelope], which [voice_process] runs once a frame for the amplitude
    and once for the filter and pitch of a voice: the delay, attack, hold, decay,
    sustain and release phases, with their counters and levels in the voice's own
    words of memory. The curves of decay and release use [powf]: their values are left
    symbolic, and whether the decay is over and what level it stores are parameters.

    The theorems give the course of an envelope from its delay to its decay frame by
    frame, and that a released voice is switched off in time. *)

From stdpp Require Import base gmap numbers list.
From Stdlib Require Import ZArith Lia.
From S2P Require Import Prelude Memory Vp.

Abbreviation NV_PAVS_VOICE_CFG_ENV0_EA_ATTACKRATE := 0xFFF.
Abbreviation NV_PAVS_VOICE_CFG_ENVA_EA_DECAYRATE := 0xFFF.
Abbreviation NV_PAVS_VOICE_CFG_ENVA_EA_SUSTAINLEVEL := 0xFF000000.
Abbreviation NV_PAVS_VOICE_PAR_OFFSET_EALVL := 0xFF000000.
Abbreviation NV_PAVS_VOICE_PAR_NEXT_EFLVL := 0xFF000000.
Abbreviation NV_PAVS_VOICE_PAR_STATE_EFCUR_OFF := 0.
Abbreviation NV_PAVS_VOICE_PAR_STATE_EFCUR_DECAY := 4.
Abbreviation NV_PAVS_VOICE_PAR_STATE_EFCUR_SUSTAIN := 5.
Abbreviation NV_PAVS_VOICE_PAR_STATE_EFCUR_FORCE_RELEASE := 7.

(** The registers and masks of an envelope. *)
Record envelope := mkEnvelope {
  reg_0 : Z;
  reg_a : Z;
  rr_reg : Z;
  rr_mask : Z;
  lvl_reg : Z;
  lvl_mask : Z;
  count_mask : Z;
  cur_mask : Z
}.

(** The arguments of the two calls in [voice_process]. *)
Definition amplitude : envelope :=
  mkEnvelope NV_PAVS_VOICE_CFG_ENV0 NV_PAVS_VOICE_CFG_ENVA NV_PAVS_VOICE_TAR_LFO_ENV
    NV_PAVS_VOICE_TAR_LFO_ENV_EA_RELEASERATE NV_PAVS_VOICE_PAR_OFFSET NV_PAVS_VOICE_PAR_OFFSET_EALVL
    NV_PAVS_VOICE_CUR_ECNT_EACOUNT NV_PAVS_VOICE_PAR_STATE_EACUR.

Definition filter_pitch : envelope :=
  mkEnvelope NV_PAVS_VOICE_CFG_ENV1 NV_PAVS_VOICE_CFG_ENVF NV_PAVS_VOICE_CFG_MISC
    NV_PAVS_VOICE_CFG_MISC_EF_RELEASERATE NV_PAVS_VOICE_PAR_NEXT NV_PAVS_VOICE_PAR_NEXT_EFLVL
    NV_PAVS_VOICE_CUR_ECNT_EFCOUNT NV_PAVS_VOICE_PAR_STATE_EFCUR.

(** The value of a step, of 255: a number, or a point of one of the curves. *)
Inductive env_value :=
  | Level (value : Z)
  | DecayCurve (decay_rate count : Z)
  | ReleaseCurve (release_rate count lvl : Z).

Section Envelope.

Context {M : Type} `{DmaMemory M}.

(** For the decay rate, the count and the sustain level, whether the curve is at the
    sustain level or above 255; and the integer part of its value. *)
Context (decay_over : Z -> Z -> Z -> bool) (decay_level : Z -> Z -> Z).

Implicit Types d : VPState M.

Definition voice_step_envelope d (v : Z) (e : envelope) : outcome (VPState M * env_value) :=
  let set_cur d x := voice_set_mask d v NV_PAVS_VOICE_PAR_STATE (cur_mask e) x in
  let set_count d x := voice_set_mask d v NV_PAVS_VOICE_CUR_ECNT (count_mask e) x in
  let set_lvl d x := voice_set_mask d v (lvl_reg e) (lvl_mask e) x in
  let cur := u8 (voice_get_mask d v NV_PAVS_VOICE_PAR_STATE (cur_mask e)) in
  let count := u16 (voice_get_mask d v NV_PAVS_VOICE_CUR_ECNT (count_mask e)) in
  if cur =? NV_PAVS_VOICE_PAR_STATE_EFCUR_OFF then
    let d := set_count d 0 in
    let d := set_lvl d 0xFF in
    Ok (d, Level 255)
  else if cur =? NV_PAVS_VOICE_PAR_STATE_EFCUR_DELAY then
    let d := set_lvl d 0 in
    let '(d, count) := if count =? 0 then (set_cur d (u8 (cur + 1)), 0) else (d, count - 1) in
    Ok (set_count d count, Level 0)
  else if cur =? NV_PAVS_VOICE_PAR_STATE_EFCUR_ATTACK then
    let attack_rate := u16 (voice_get_mask d v (reg_0 e) NV_PAVS_VOICE_CFG_ENV0_EA_ATTACKRATE) in
    let value := if attack_rate =? 0 then 255
                 else if count <=? attack_rate * 16 then count * 0xFF / (attack_rate * 16) else 255 in
    let d := set_lvl d value in
    let '(d, count) :=
      if count =? attack_rate * 16 then
        let d := set_cur d (u8 (cur + 1)) in
        (d, u16 (u16 (voice_get_mask d v (reg_a e) NV_PAVS_VOICE_CFG_ENVA_EA_HOLDTIME) * 16))
      else (d, u16 (count + 1)) in
    Ok (set_count d count, Level value)
  else if cur =? NV_PAVS_VOICE_PAR_STATE_EFCUR_HOLD then
    let d := set_lvl d 0xFF in
    let '(d, count) :=
      if count =? 0 then
        let d := set_cur d (u8 (cur + 1)) in
        (d, u16 (u16 (voice_get_mask d v (reg_a e) NV_PAVS_VOICE_CFG_ENVA_EA_DECAYRATE) * 16))
      else (d, count - 1) in
    Ok (set_count d count, Level 255)
  else if cur =? NV_PAVS_VOICE_PAR_STATE_EFCUR_DECAY then
    let decay_rate := u16 (voice_get_mask d v (reg_a e) NV_PAVS_VOICE_CFG_ENVA_EA_DECAYRATE) in
    let sustain_level := u8 (voice_get_mask d v (reg_a e) NV_PAVS_VOICE_CFG_ENVA_EA_SUSTAINLEVEL) in
    let value := if decay_rate =? 0 then Level 0 else DecayCurve decay_rate count in
    if (decay_rate =? 0) || decay_over decay_rate count sustain_level then
      Ok (set_cur d (u8 (cur + 1)), value)
    else
      let d := set_count d (u16 (count - 1)) in
      Ok (set_lvl d (decay_level decay_rate count), value)
  else if cur =? NV_PAVS_VOICE_PAR_STATE_EFCUR_SUSTAIN then
    let sustain_level := u8 (voice_get_mask d v (reg_a e) NV_PAVS_VOICE_CFG_ENVA_EA_SUSTAINLEVEL) in
    let d := set_count d 0 in
    Ok (set_lvl d sustain_level, Level sustain_level)
  else if cur =? NV_PAVS_VOICE_PAR_STATE_EFCUR_RELEASE then
    let release_rate := u16 (voice_get_mask d v (rr_reg e) (rr_mask e)) in
    let count := if release_rate =? 0 then 0 else count in
    if count =? 0 then Ok (set_cur d (u8 (cur + 1)), Level 0)
    else
      let lvl := u8 (voice_get_mask d v (lvl_reg e) (lvl_mask e)) in
      Ok (set_count d (count - 1), ReleaseCurve release_rate count lvl)
  else if cur =? NV_PAVS_VOICE_PAR_STATE_EFCUR_FORCE_RELEASE then
    d ← (if count_mask e =? NV_PAVS_VOICE_CUR_ECNT_EACOUNT then voice_off d v else Ok d);
    Ok (d, Level 0)
  else AssertFail.

(** The values of the first [n] frames, and the state after them. *)
Fixpoint run_envelope (n : nat) d (v : Z) (e : envelope) : outcome (VPState M * list env_value) :=
  match n with
  | O => Ok (d, [])
  | S n =>
      '(d, x) ← voice_step_envelope d v e;
      '(d, l) ← run_envelope n d v e;
      Ok (d, x :: l)
  end.

End Envelope.

(** ** The state of an envelope *)

Record course := mkCourse { phase : Z; count : Z; level : Z }.
Record rates := mkRates { attack : Z; hold : Z; decay : Z; sustain : Z; release : Z }.

Lemma word_of v k : 0 <= v < MCPX_HW_MAX_VOICES -> 0 <= k < 32 -> voice_word v (k * 4).
Proof. intros. split; [done | split; [by exists k | lia]]. Qed.

(** Side conditions of the lemmas on fields, for constant registers and masks. *)
Ltac field_side :=
  match goal with
  | |- voices_ok _ => done
  | |- voice_word ?v ?o => let k := eval vm_compute in (o / 4) in change o with (k * 4); apply word_of; [done | lia]
  | |- in_u 32 _ => by split
  | |- field_mask _ _ _ = true => reflexivity
  | |- _ \/ _ => right; first [left; discriminate | right; reflexivity]
  end.

Section Course.

Context {M : Type} `{DmaMemoryLaws M}.

Implicit Types d : VPState M.

Definition course_of d (v : Z) (e : envelope) : course :=
  mkCourse (voice_get_mask d v NV_PAVS_VOICE_PAR_STATE (cur_mask e)) (voice_get_mask d v NV_PAVS_VOICE_CUR_ECNT (count_mask e))
    (voice_get_mask d v (lvl_reg e) (lvl_mask e)).

Definition rates_of d (v : Z) (e : envelope) : rates :=
  mkRates (voice_get_mask d v (reg_0 e) NV_PAVS_VOICE_CFG_ENV0_EA_ATTACKRATE)
    (voice_get_mask d v (reg_a e) NV_PAVS_VOICE_CFG_ENVA_EA_HOLDTIME)
    (voice_get_mask d v (reg_a e) NV_PAVS_VOICE_CFG_ENVA_EA_DECAYRATE)
    (voice_get_mask d v (reg_a e) NV_PAVS_VOICE_CFG_ENVA_EA_SUSTAINLEVEL)
    (voice_get_mask d v (rr_reg e) (rr_mask e)).

(** One of the two envelopes of a voice. *)
Definition known (e : envelope) : Prop := e = amplitude \/ e = filter_pitch.

(** The envelope [e] of voice [v] is at [c], with rates [r], in a unit with the registers
    and streams of [u]. *)
Definition at_course (u : VPState M) (v : Z) (e : envelope) (r : rates) (c : course) d : Prop :=
  0 <= v < MCPX_HW_MAX_VOICES /\ known e /\ voices_ok d /\ (vp_ok d /\ regs d = regs u /\ ssl d = ssl u) /\ course_of d v e = c /\ rates_of d v e = r.

Ltac env_cbn :=
  cbn [amplitude filter_pitch reg_0 reg_a rr_reg rr_mask lvl_reg lvl_mask count_mask cur_mask phase count level].

(** Setting a field of the envelope changes that field of its course. *)
Lemma set_cur u v e r c x d : at_course u v e r c d -> 0 <= x < 16 ->
  at_course u v e r (mkCourse x (count c) (level c)) (voice_set_mask d v NV_PAVS_VOICE_PAR_STATE (cur_mask e) x).
Proof using All.
  intros (Hv & He & Hd & (Ho & Hrg) & <- & <-) Hx.
  split; [done | split; [done | split; [by apply voices_ok_set | split; [split; [by apply vp_ok_set_mask | done] |]]]].
  unfold course_of, rates_of. destruct He as [-> | ->]; env_cbn.
  - rewrite (get_set_eq _ _ _ _ _ 28 4) by field_side. rewrite Z.mod_small by lia. by rewrite !get_set_ne by field_side.
  - rewrite (get_set_eq _ _ _ _ _ 24 4) by field_side. rewrite Z.mod_small by lia. by rewrite !get_set_ne by field_side.
Qed.

Lemma set_count u v e r c x d : at_course u v e r c d -> 0 <= x < 65536 ->
  at_course u v e r (mkCourse (phase c) x (level c)) (voice_set_mask d v NV_PAVS_VOICE_CUR_ECNT (count_mask e) x).
Proof using All.
  intros (Hv & He & Hd & (Ho & Hrg) & <- & <-) Hx.
  split; [done | split; [done | split; [by apply voices_ok_set | split; [split; [by apply vp_ok_set_mask | done] |]]]].
  unfold course_of, rates_of. destruct He as [-> | ->]; env_cbn.
  - rewrite (get_set_eq _ _ _ _ _ 0 16) by field_side. rewrite Z.mod_small by lia. by rewrite !get_set_ne by field_side.
  - rewrite (get_set_eq _ _ _ _ _ 16 16) by field_side. rewrite Z.mod_small by lia. by rewrite !get_set_ne by field_side.
Qed.

Lemma set_level u v e r c x d : at_course u v e r c d -> 0 <= x < 256 ->
  at_course u v e r (mkCourse (phase c) (count c) x) (voice_set_mask d v (lvl_reg e) (lvl_mask e) x).
Proof using All.
  intros (Hv & He & Hd & (Ho & Hrg) & <- & <-) Hx.
  split; [done | split; [done | split; [by apply voices_ok_set | split; [split; [by apply vp_ok_set_mask | done] |]]]].
  unfold course_of, rates_of. destruct He as [-> | ->]; env_cbn;
    rewrite (get_set_eq _ _ _ _ _ 24 8) by field_side; rewrite Z.mod_small by lia; by rewrite !get_set_ne by field_side.
Qed.

(** The fields have their width. *)
Lemma course_range u v e r c d : at_course u v e r c d ->
  0 <= phase c < 16 /\ 0 <= count c < 65536 /\ 0 <= level c < 256 /\
  0 <= attack r < 4096 /\ 0 <= hold r < 4096 /\ 0 <= decay r < 4096 /\ 0 <= sustain r < 256 /\ 0 <= release r < 4096.
Proof using.
  intros (_ & He & _ & _ & <- & <-). unfold course_of, rates_of, voice_get_mask. cbn [attack hold decay sustain release].
  destruct He as [-> | ->]; env_cbn.
  - rewrite (GET_MASK_field _ _ 28 4), (GET_MASK_field _ 0xFFFF 0 16), (GET_MASK_field _ 0xFFF000 12 12) by reflexivity.
    rewrite !(GET_MASK_field _ 0xFFF 0 12), !(GET_MASK_field _ 0xFF000000 24 8) by reflexivity.
    repeat split; apply Z.mod_pos_bound; lia.
  - rewrite (GET_MASK_field _ _ 24 4), (GET_MASK_field _ 0xFFFF0000 16 16), (GET_MASK_field _ 0xFFF000 12 12) by reflexivity.
    rewrite !(GET_MASK_field _ 0xFFF 0 12), !(GET_MASK_field _ 0xFF000000 24 8) by reflexivity.
    repeat split; apply Z.mod_pos_bound; lia.
Qed.

(** ** The phases *)

Context (decay_over : Z -> Z -> Z -> bool) (decay_level : Z -> Z -> Z).

Local Abbreviation step := (voice_step_envelope decay_over decay_level).
Local Abbreviation run := (run_envelope decay_over decay_level).

(** Choose the phase of a step by comparing numbers. *)
Ltac in_phase :=
  cbv zeta; rewrite ?Z.eqb_refl;
  repeat match goal with
  | |- context [Z.eqb (Zpos ?a) 0] => change (Z.eqb (Zpos a) 0) with false
  | |- context [Z.eqb (Zpos ?a) (Zpos ?b)] => change (Z.eqb (Zpos a) (Zpos b)) with false
  end; cbv match.

(** The fields that a step reads. *)
Record reads (v : Z) (e : envelope) (r : rates) (c : course) d : Prop := {
  r_phase : u8 (voice_get_mask d v NV_PAVS_VOICE_PAR_STATE (cur_mask e)) = phase c;
  r_count : u16 (voice_get_mask d v NV_PAVS_VOICE_CUR_ECNT (count_mask e)) = count c;
  r_level : u8 (voice_get_mask d v (lvl_reg e) (lvl_mask e)) = level c;
  r_attack : u16 (voice_get_mask d v (reg_0 e) NV_PAVS_VOICE_CFG_ENV0_EA_ATTACKRATE) = attack r;
  r_hold : u16 (voice_get_mask d v (reg_a e) NV_PAVS_VOICE_CFG_ENVA_EA_HOLDTIME) = hold r;
  r_decay : u16 (voice_get_mask d v (reg_a e) NV_PAVS_VOICE_CFG_ENVA_EA_DECAYRATE) = decay r;
  r_release : u16 (voice_get_mask d v (rr_reg e) (rr_mask e)) = release r
}.

Lemma at_reads u v e r c d : at_course u v e r c d -> reads v e r c d.
Proof using.
  intros Hat. pose proof (course_range u v e r c d Hat) as Hr. destruct Hat as (_ & _ & _ & _ & <- & <-).
  unfold course_of, rates_of in *. cbn [phase count level attack hold decay sustain release] in *. split; cbn [phase count level attack hold decay sustain release]; apply Z.mod_small; lia.
Qed.

Lemma step_delay u v e r c l d : at_course u v e r (mkCourse 1 c l) d ->
  exists d', step d v e = Ok (d', Level 0) /\ at_course u v e r (if c =? 0 then mkCourse 2 0 0 else mkCourse 1 (c - 1) 0) d'.
Proof using All.
  intros Hat. pose proof (course_range _ _ _ _ _ _ Hat) as (_ & Hc & _). cbn [count] in Hc.
  destruct (at_reads _ _ _ _ _ _ Hat) as [E1 E2 _ _ _ _ _]. cbn [phase count] in E1, E2.
  unfold voice_step_envelope. rewrite E1, E2. in_phase.
  apply (set_level _ _ _ _ _ 0) in Hat; [| lia]. destruct (Z.eqb_spec c 0) as [->|Hne].
  - apply (set_cur _ _ _ _ _ 2) in Hat; [| lia]. apply (set_count _ _ _ _ _ 0) in Hat; [| lia]. eexists; split; [reflexivity | exact Hat].
  - apply (set_count _ _ _ _ _ (c - 1)) in Hat; [| lia]. eexists; split; [reflexivity | exact Hat].
Qed.

(** The value of the attack at count [k]. *)
Definition attack_value (r : rates) (k : Z) : Z := if attack r =? 0 then 255 else k * 255 / (attack r * 16).

Lemma attack_value_range r k : 0 <= attack r -> 0 <= k <= attack r * 16 -> 0 <= attack_value r k < 256.
Proof using.
  intros Ha Hk. unfold attack_value. destruct (Z.eqb_spec (attack r) 0); [lia |].
  split; [apply Z.div_pos; lia | apply Z.div_lt_upper_bound; lia].
Qed.

Lemma step_attack u v e r k l d : at_course u v e r (mkCourse 2 k l) d -> k <= attack r * 16 ->
  exists d', step d v e = Ok (d', Level (attack_value r k)) /\
    at_course u v e r (if k =? attack r * 16 then mkCourse 3 (hold r * 16) (attack_value r k)
                     else mkCourse 2 (k + 1) (attack_value r k)) d'.
Proof using All.
  intros Hat Hk. pose proof (course_range _ _ _ _ _ _ Hat) as (_ & Hc & _ & Ha & Hh & _). cbn [count] in Hc.
  destruct (at_reads _ _ _ _ _ _ Hat) as [E1 E2 _ E4 _ _ _]. cbn [phase count] in E1, E2.
  unfold voice_step_envelope. rewrite E1, E2, E4. in_phase.
  destruct (Z.leb_spec k (attack r * 16)); [| lia]. fold (attack_value r k).
  apply (set_level _ _ _ _ _ (attack_value r k)) in Hat; [| apply attack_value_range; lia].
  destruct (Z.eqb_spec k (attack r * 16)) as [->|Hne].
  - apply (set_cur _ _ _ _ _ 3) in Hat; [| lia]. destruct (at_reads _ _ _ _ _ _ Hat) as [_ _ _ _ E5 _ _].
    apply (set_count _ _ _ _ _ (hold r * 16)) in Hat; [| lia].
    eexists; split; [| exact Hat]. change (u8 (2 + 1)) with 3. rewrite E5, (Z.mod_small (hold r * 16)) by lia. reflexivity.
  - apply (set_count _ _ _ _ _ (k + 1)) in Hat; [| lia]. eexists; split; [| exact Hat]. by rewrite Z.mod_small by lia.
Qed.

Lemma step_hold u v e r c l d : at_course u v e r (mkCourse 3 c l) d ->
  exists d', step d v e = Ok (d', Level 255) /\
    at_course u v e r (if c =? 0 then mkCourse 4 (decay r * 16) 255 else mkCourse 3 (c - 1) 255) d'.
Proof using All.
  intros Hat. pose proof (course_range _ _ _ _ _ _ Hat) as (_ & Hc & _ & _ & _ & Hdc & _). cbn [count] in Hc.
  destruct (at_reads _ _ _ _ _ _ Hat) as [E1 E2 _ _ _ _ _]. cbn [phase count] in E1, E2.
  unfold voice_step_envelope. rewrite E1, E2. in_phase.
  apply (set_level _ _ _ _ _ 255) in Hat; [| lia]. destruct (Z.eqb_spec c 0) as [->|Hne].
  - apply (set_cur _ _ _ _ _ 4) in Hat; [| lia]. destruct (at_reads _ _ _ _ _ _ Hat) as [_ _ _ _ _ E6 _].
    apply (set_count _ _ _ _ _ (decay r * 16)) in Hat; [| lia].
    eexists; split; [| exact Hat]. change (u8 (3 + 1)) with 4. rewrite E6, (Z.mod_small (decay r * 16)) by lia. reflexivity.
  - apply (set_count _ _ _ _ _ (c - 1)) in Hat; [| lia]. eexists; split; [reflexivity | exact Hat].
Qed.

Lemma step_release u v e r c l d : at_course u v e r (mkCourse 6 c l) d -> release r <> 0 \/ c = 0 ->
  exists d', step d v e = Ok (d', if c =? 0 then Level 0 else ReleaseCurve (release r) c l) /\
    at_course u v e r (if c =? 0 then mkCourse 7 c l else mkCourse 6 (c - 1) l) d'.
Proof using All.
  intros Hat Hr. pose proof (course_range _ _ _ _ _ _ Hat) as (_ & Hc & _). cbn [count] in Hc.
  destruct (at_reads _ _ _ _ _ _ Hat) as [E1 E2 E3 _ _ _ E7]. cbn [phase count level] in E1, E2, E3.
  unfold voice_step_envelope. rewrite E1, E2, E3, E7. in_phase.
  replace (if release r =? 0 then 0 else c) with c by (destruct (Z.eqb_spec (release r) 0); lia).
  destruct (Z.eqb_spec c 0) as [->|Hne].
  - apply (set_cur _ _ _ _ _ 7) in Hat; [| lia]. eexists; split; [reflexivity | exact Hat].
  - apply (set_count _ _ _ _ _ (c - 1)) in Hat; [| lia]. eexists; split; [reflexivity | exact Hat].
Qed.

(** ** Runs *)

Lemma run_app n m d v e d1 l1 d2 l2 : run n d v e = Ok (d1, l1) -> run m d1 v e = Ok (d2, l2) ->
  run (n + m) d v e = Ok (d2, l1 ++ l2).
Proof using.
  revert d l1. induction n as [|n IH]; intros d l1; cbn [run_envelope Nat.add].
  - intros [= <- <-]. done.
  - intros ([d3 x] & -> & Hr)%bind_ok Hm. cbn [mbind outcome_bind]. apply bind_ok in Hr as ([d4 l] & Hr & E).
    injection E as <- <-. by rewrite (IH _ _ Hr Hm).
Qed.

Lemma run_step n d v e d1 x d2 l : step d v e = Ok (d1, x) -> run n d1 v e = Ok (d2, l) -> run (S n) d v e = Ok (d2, x :: l).
Proof using. intros Hs Hr. cbn [run_envelope]. rewrite Hs. cbn [mbind outcome_bind]. by rewrite Hr. Qed.

Lemma run_one d v e d1 x : step d v e = Ok (d1, x) -> run 1 d v e = Ok (d1, [x]).
Proof using. intros Hs. cbn [run_envelope]. by rewrite Hs. Qed.

Lemma run_delay u v e r (c : nat) l d : at_course u v e r (mkCourse 1 (Z.of_nat c) l) d ->
  exists d', run (S c) d v e = Ok (d', replicate (S c) (Level 0)) /\ at_course u v e r (mkCourse 2 0 0) d'.
Proof using All.
  revert l d. induction c as [|c IH]; intros l d Hat; destruct (step_delay _ _ _ _ _ _ _ Hat) as (d1 & Hs & Hat1).
  - exists d1. split; [by apply run_one | exact Hat1].
  - destruct (Z.eqb_spec (Z.of_nat (S c)) 0); [lia |]. replace (Z.of_nat (S c) - 1) with (Z.of_nat c) in Hat1 by lia.
    destruct (IH _ _ Hat1) as (d2 & Hr & Hat2). exists d2. split; [by apply (run_step _ _ _ _ d1) | exact Hat2].
Qed.

Lemma run_attack u v e r (n : nat) k l d : at_course u v e r (mkCourse 2 k l) d -> k + Z.of_nat n = attack r * 16 ->
  exists d', run (S n) d v e = Ok (d', (fun j => Level (attack_value r j)) <$> seqZ k (Z.of_nat n + 1)) /\
    at_course u v e r (mkCourse 3 (hold r * 16) (attack_value r (attack r * 16))) d'.
Proof using All.
  revert k l d. induction n as [|n IH]; intros k l d Hat Hk;
    destruct (step_attack _ _ _ _ _ _ _ Hat ltac:(lia)) as (d1 & Hs & Hat1); destruct (Z.eqb_spec k (attack r * 16)); try lia.
  - exists d1. subst k. split; [by apply run_one | exact Hat1].
  - destruct (IH _ _ _ Hat1 ltac:(lia)) as (d2 & Hr & Hat2). exists d2. split; [| exact Hat2].
    rewrite (seqZ_cons k) by lia. apply (run_step _ _ _ _ d1); [exact Hs |]. rewrite Hr.
    do 4 f_equal; lia.
Qed.

Lemma run_hold u v e r (c : nat) l d : at_course u v e r (mkCourse 3 (Z.of_nat c) l) d ->
  exists d', run (S c) d v e = Ok (d', replicate (S c) (Level 255)) /\ at_course u v e r (mkCourse 4 (decay r * 16) 255) d'.
Proof using All.
  revert l d. induction c as [|c IH]; intros l d Hat; destruct (step_hold _ _ _ _ _ _ _ Hat) as (d1 & Hs & Hat1).
  - exists d1. split; [by apply run_one | exact Hat1].
  - destruct (Z.eqb_spec (Z.of_nat (S c)) 0); [lia |]. replace (Z.of_nat (S c) - 1) with (Z.of_nat c) in Hat1 by lia.
    destruct (IH _ _ Hat1) as (d2 & Hr & Hat2). exists d2. split; [by apply (run_step _ _ _ _ d1) | exact Hat2].
Qed.

(** The values of a release from count [c]. *)
Fixpoint release_values (rr l : Z) (c : nat) : list env_value :=
  match c with
  | O => [Level 0]
  | S c' => ReleaseCurve rr (Z.of_nat c) l :: release_values rr l c'
  end.

Lemma run_release u v e r (c : nat) l d : at_course u v e r (mkCourse 6 (Z.of_nat c) l) d -> release r <> 0 \/ c = 0%nat ->
  exists d', run (S c) d v e = Ok (d', release_values (release r) l c) /\ at_course u v e r (mkCourse 7 0 l) d'.
Proof using All.
  revert d. induction c as [|c IH]; intros d Hat Hr; destruct (step_release _ _ _ _ _ _ _ Hat ltac:(lia)) as (d1 & Hs & Hat1).
  - exists d1. split; [by apply run_one | exact Hat1].
  - destruct (Z.eqb_spec (Z.of_nat (S c)) 0); [lia |]. replace (Z.of_nat (S c) - 1) with (Z.of_nat c) in Hat1 by lia.
    destruct (IH _ Hat1 ltac:(lia)) as (d2 & Hrun & Hat2). exists d2. split; [by apply (run_step _ _ _ _ d1) | exact Hat2].
Qed.

End Course.

(** ** Release *)

Section Release.

Context {M : Type} `{DmaMemoryLaws M}.

Implicit Types d : VPState M.

(** The words that notifiers are written to are not those of the voices. *)
Definition notifiers_apart d : Prop :=
  let notifiers := rget (regs d) NV_PAPU_FENADDR in
  let voices := rget (regs d) NV_PAPU_VPVADDR in
  notifiers + 16 * (MCPX_HW_NOTIFIER_BASE_OFFSET + MCPX_HW_MAX_VOICES * MCPX_HW_NOTIFIER_COUNT) <= voices \/
  voices + MCPX_HW_MAX_VOICES * NV_PAVS_SIZE <= notifiers.

Lemma voice_lock_some d h b : vp_ok d -> 0 <= h < MCPX_HW_MAX_VOICES ->
  exists l, voice_lock d h b = Ok (d <| voice_locked := l |>) /\ vp_ok (d <| voice_locked := l |>).
Proof using.
  intros Hd Hh. pose proof (voice_lock_safe d h b Hd) as Hs.
  destruct (voice_lock_eq d h b Hd) as (w & _ & _ & E); [rewrite (in_u_small 16) by (split; lia); lia |].
  rewrite E in Hs. eexists. split; [exact E | exact Hs].
Qed.

Lemma at_locked u v e r c d l : at_course u v e r c d -> vp_ok (d <| voice_locked := l |>) ->
  at_course u v e r c (d <| voice_locked := l |>).
Proof using.
  intros (Hv & He & Hd & (_ & Hk) & Hc & Hr) Ho. split; [done | split; [done |]].
  split; [by apply (voices_ok_same d) |]. split; [split; [done | exact Hk] |]. split; [exact Hc | exact Hr].
Qed.

(** The other envelope's fields lie beside those of the amplitude. *)
Lemma set_other u v r c d off mask x : at_course u v amplitude r c d ->
  (off, mask) = (NV_PAVS_VOICE_CUR_ECNT, NV_PAVS_VOICE_CUR_ECNT_EFCOUNT) \/
  (off, mask) = (NV_PAVS_VOICE_PAR_STATE, NV_PAVS_VOICE_PAR_STATE_EFCUR) ->
  at_course u v amplitude r c (voice_set_mask d v off mask x).
Proof using All.
  intros (Hv & He & Hd & (Ho & Hk) & <- & <-) Hoff.
  split; [done | split; [done | split; [by apply voices_ok_set | split; [split; [by apply vp_ok_set_mask | done] |]]]].
  unfold course_of, rates_of. cbn [amplitude reg_0 reg_a rr_reg rr_mask lvl_reg lvl_mask count_mask cur_mask].
  destruct Hoff as [[= -> ->] | [= -> ->]]; by rewrite !get_set_ne by field_side.
Qed.

(** The method starts the release. *)
Lemma voice_release_spec d argument : vp_ok d -> voices_ok d ->
  let h := argument .& NV1BA0_PIO_VOICE_ON_HANDLE in
  h < MCPX_HW_MAX_VOICES ->
  let r := rates_of d h amplitude in
  exists d1, voice_release d argument = Ok d1 /\
    at_course d h amplitude r (mkCourse 6 (release r * 16) (level (course_of d h amplitude))) d1.
Proof using All.
  intros Ho Hd h Hh r. assert (Hh0 : 0 <= h < 2 ^ 16) by apply handle_range.
  assert (Hv : 0 <= h < MCPX_HW_MAX_VOICES) by lia.
  assert (Hat : at_course d h amplitude r (course_of d h amplitude) d).
  { split; [done | split; [by left | split; [done | split; [done |]]]]. done. }
  unfold voice_release. fold h. cbv zeta. destruct (is_voice_locked_eq d h Ho Hv) as (w & _ & ->). cbn [mbind outcome_bind].
  set (locked := negb _). assert (exists d0, (if locked then Ok d else voice_lock d h true) = Ok d0 /\
    at_course d h amplitude r (course_of d h amplitude) d0) as (d0 & -> & Hat0).
  { destruct locked; [by exists d |]. destruct (voice_lock_some d h true Ho Hv) as (l & -> & Hl).
    eexists; split; [reflexivity | by apply at_locked]. }
  cbn [mbind outcome_bind]. pose proof (r_release _ _ _ _ _ (at_reads _ _ _ _ _ _ Hat0)) as Hrr.
  cbn [amplitude rr_reg rr_mask] in Hrr. rewrite Hrr.
  pose proof (course_range _ _ _ _ _ _ Hat0) as (_ & _ & _ & _ & _ & _ & _ & Hrng).
  apply (set_count _ _ _ _ _ (release r * 16)) in Hat0; [| lia]. apply (set_cur _ _ _ _ _ 6) in Hat0; [| lia].
  cbn [amplitude count_mask cur_mask phase count level] in Hat0. set (d1 := voice_set_mask (voice_set_mask d0 _ _ _ _) _ _ _ 6) in *.
  set (rr := u16 (voice_get_mask d1 _ _ _)).
  apply (set_other _ _ _ _ _ NV_PAVS_VOICE_CUR_ECNT NV_PAVS_VOICE_CUR_ECNT_EFCOUNT (rr * 16)) in Hat0; [| by left].
  apply (set_other _ _ _ _ _ NV_PAVS_VOICE_PAR_STATE NV_PAVS_VOICE_PAR_STATE_EFCUR 6) in Hat0; [| by right].
  destruct locked; [eexists; split; [reflexivity | exact Hat0] |].
  destruct (voice_lock_some _ h false (proj1 (proj1 (proj2 (proj2 (proj2 Hat0))))) Hv) as (l & -> & Hl).
  eexists; split; [reflexivity | by apply at_locked].
Qed.

Lemma is_active_notify d v notifier status : voices_ok d -> notifiers_apart d -> 0 <= v < MCPX_HW_MAX_VOICES ->
  0 <= notifier < MCPX_HW_NOTIFIER_COUNT -> is_active (set_notify_status d v notifier status) v = is_active d v.
Proof using All.
  intros Hd Hap Hv Hn. unfold set_notify_status. set (isr := rget _ _ .| _). set (a := _ + 15).
  unfold is_active, voice_get_mask. do 3 f_equal. cbn [mem].
  assert (Ea : voice_addr (d <| mem := stb_phys (mem d) a status |> <| mem := stb_phys (stb_phys (mem d) a status) (a - 1) 1 |>
    <| regs := rset (regs d) NV_PAPU_ISTS isr |> <| set_irq := true |>) v = voice_addr d v).
  { unfold voice_addr. cbn. by rewrite rget_rset_ne by done. }
  cbn in Ea |- *. rewrite Ea. rewrite !ldl_stb_ne; [done | |]; rewrite voice_addr_eq by done;
    unfold a, notifiers_apart in *; lia.
Qed.

(** Switching off ends the voice; the stream of a streaming voice is one of two. *)
Lemma voice_off_ends d v : voices_ok d -> vp_ok d -> notifiers_apart d -> 0 <= v < MCPX_HW_MAX_VOICES ->
  (forall s, rd (ssl d) v = Ok s -> 0 <= ssl_index s <= 1) ->
  exists d', voice_off d v = Ok d' /\ is_active d' v = false.
Proof using All.
  intros Hd Ho Hap Hv Hs. unfold voice_off. rewrite (in_u_small 16 v) by (split; lia).
  set (d1 := voice_set_mask d v NV_PAVS_VOICE_PAR_STATE NV_PAVS_VOICE_PAR_STATE_ACTIVE_VOICE 0).
  assert (Hd1 : voices_ok d1) by by apply voices_ok_set.
  assert (Ha : is_active d1 v = false) by (unfold is_active, d1; by rewrite (get_set_eq _ _ _ _ _ 21 1) by field_side).
  cbv zeta. assert (exists n, (if negb (voice_get_mask d1 v NV_PAVS_VOICE_CFG_FMT NV_PAVS_VOICE_CFG_FMT_DATA_TYPE =? 0) then
      c_assert (v <? MCPX_HW_MAX_VOICES);; s ← rd (ssl d1) v; c_assert (ssl_index s <=? 1);;
      Ok (MCPX_HW_NOTIFIER_SSLA_DONE + ssl_index s)
    else Ok MCPX_HW_NOTIFIER_SSLA_DONE) = Ok n /\ 0 <= n < MCPX_HW_NOTIFIER_COUNT) as (n & -> & Hn).
  { destruct (negb _); [| by exists 0]. destruct (rd_ssl d v Ho Hv) as (s & Hrd & _). specialize (Hs s Hrd).
    rewrite c_assert_true by (apply Z.ltb_lt; lia). cbn [mbind outcome_bind]. change (ssl d1) with (ssl d). rewrite Hrd.
    cbn [mbind outcome_bind]. rewrite c_assert_true by (apply Z.leb_le; lia). eexists; split; [reflexivity | lia]. }
  cbn [mbind outcome_bind]. eexists; split; [reflexivity |]. by rewrite is_active_notify.
Qed.

End Release.

(** C31: The course of an envelope up to its decay. From a delay of [c] frames on, the
    value of the envelope, amplitude or filter, is 0 in each of [c] + 1 frames, then
    rises in 16 times the attack rate and one frames, linearly from 0 to 255 (or is
    255 at once at rate 0), then stays at 255 for 16 times the hold time and one
    frames; then the decay begins with a count of 16 times its rate. No count of the
    16 bits overflows on the way. *)
Theorem envelope_course {M} `{DmaMemoryLaws M} decay_over decay_level (u d : VPState M) v e r c l :
  at_course u v e r (mkCourse NV_PAVS_VOICE_PAR_STATE_EFCUR_DELAY c l) d ->
  exists d', run_envelope decay_over decay_level (Z.to_nat (c + attack r * 16 + hold r * 16 + 3)) d v e =
      Ok (d', replicate (Z.to_nat (c + 1)) (Level 0) ++
              ((fun k => Level (if attack r =? 0 then 255 else k * 255 / (attack r * 16))) <$> seqZ 0 (attack r * 16 + 1)) ++
              replicate (Z.to_nat (hold r * 16 + 1)) (Level 255)) /\
    at_course u v e r (mkCourse NV_PAVS_VOICE_PAR_STATE_EFCUR_DECAY (decay r * 16) 255) d'.
Proof.
  intros Hat. pose proof (course_range _ _ _ _ _ _ Hat) as (_ & Hc & _ & Ha & Hh & _). cbn [count] in Hc.
  rewrite <- (Z2Nat.id c) in Hat by lia.
  destruct (run_delay decay_over decay_level _ _ _ _ _ _ _ Hat) as (d1 & R1 & Hat1).
  destruct (run_attack decay_over decay_level _ _ _ _ (Z.to_nat (attack r * 16)) _ _ _ Hat1 ltac:(lia)) as (d2 & R2 & Hat2).
  rewrite <- (Z2Nat.id (hold r * 16)) in Hat2 by lia.
  destruct (run_hold decay_over decay_level _ _ _ _ _ _ _ Hat2) as (d3 & R3 & Hat3).
  exists d3. split; [| exact Hat3].
  pose proof (run_app _ _ _ _ _ _ _ _ _ _ _ R1 (run_app _ _ _ _ _ _ _ _ _ _ _ R2 R3)) as R.
  replace (Z.to_nat (c + attack r * 16 + hold r * 16 + 3))
    with (S (Z.to_nat c) + (S (Z.to_nat (attack r * 16)) + S (Z.to_nat (hold r * 16))))%nat by lia.
  rewrite R. rewrite Z2Nat.id by lia. do 3 f_equal; [f_equal; lia | f_equal; f_equal; lia].
Qed.

(** C30: A released voice ends. Whatever its amplitude envelope was doing, after the
    method VOICE_RELEASE, with release rate [rr], the frames give the release curve
    from its start to its end over 16 times [rr] frames, from the level that the
    envelope had, then 0 in two frames, the last of which switches the voice off. *)
Theorem released_voice_ends {M} `{DmaMemoryLaws M} decay_over decay_level (d : VPState M) argument :
  let h := argument .& NV1BA0_PIO_VOICE_ON_HANDLE in
  vp_ok d -> voices_ok d -> h < MCPX_HW_MAX_VOICES -> notifiers_apart d ->
  (forall s, rd (ssl d) h = Ok s -> 0 <= ssl_index s <= 1) ->
  let rr := voice_get_mask d h NV_PAVS_VOICE_TAR_LFO_ENV NV_PAVS_VOICE_TAR_LFO_ENV_EA_RELEASERATE in
  let l := voice_get_mask d h NV_PAVS_VOICE_PAR_OFFSET NV_PAVS_VOICE_PAR_OFFSET_EALVL in
  exists d1 d2, voice_release d argument = Ok d1 /\
    run_envelope decay_over decay_level (Z.to_nat (rr * 16 + 2)) d1 h amplitude =
      Ok (d2, release_values rr l (Z.to_nat (rr * 16)) ++ [Level 0]) /\
    is_active d2 h = false.
Proof.
  intros h Ho Hd Hh Hap Hs rr l. destruct (voice_release_spec d argument Ho Hd Hh) as (d1 & Hrel & Hat). fold h in Hat.
  pose proof (course_range _ _ _ _ _ _ Hat) as (_ & Hc & _). cbn [count] in Hc.
  change (release (rates_of d h amplitude)) with rr in Hat, Hc. change (level (course_of d h amplitude)) with l in Hat.
  rewrite <- (Z2Nat.id (rr * 16)) in Hat by lia.
  destruct (run_release decay_over decay_level _ _ _ _ _ _ _ Hat) as (d2 & Hrun & Hat2).
  { change (release (rates_of d h amplitude)) with rr. lia. }
  change (release (rates_of d h amplitude)) with rr in Hrun.
  pose proof Hat2 as (Hv & _ & Hd2 & (Ho2 & Hrg & Hssl) & _).
  destruct (voice_off_ends d2 h) as (d3 & Hoff & Hact); [done | done | by unfold notifiers_apart; rewrite Hrg | done | by rewrite Hssl |].
  exists d1, d3. split; [exact Hrel | split; [| exact Hact]].
  replace (Z.to_nat (rr * 16 + 2)) with (S (Z.to_nat (rr * 16)) + 1)%nat by lia.
  apply (run_app _ _ _ _ _ _ _ d2 _ _ _ Hrun). apply run_one.
  destruct (at_reads _ _ _ _ _ _ Hat2) as [E1 _ _ _ _ _ _]. cbn [phase] in E1.
  unfold voice_step_envelope. rewrite E1. cbv zeta. cbn. by rewrite Hoff.
Qed.

(** ** A machine with voice 5 *)

(** Its amplitude is in the delay, for two frames, with attack rate 1, no hold time,
    decay rate 3 and release rate 2. *)
Definition envelope_sample : VPState (gmap Z Z) :=
  let voice := 0x10000 + 5 * NV_PAVS_SIZE in
  let words := [(voice + NV_PAVS_VOICE_PAR_STATE, 0x10200000); (voice + NV_PAVS_VOICE_CUR_ECNT, 2);
                (voice + NV_PAVS_VOICE_CFG_ENV0, 1); (voice + NV_PAVS_VOICE_CFG_ENVA, 0x80000003);
                (voice + NV_PAVS_VOICE_TAR_LFO_ENV, 2); (voice + NV_PAVS_VOICE_PAR_OFFSET, 0x64000000)] in
  vp_sample {[NV_PAPU_VPVADDR := 0x10000]} (foldr (fun w m => stl_le_phys m w.1 w.2) (∅ : gmap Z Z) words).

Lemma envelope_sample_ok : voices_ok envelope_sample.
Proof. split; [done | split; [done |]]. done. Qed.

Lemma envelope_course_witness :
  let d := envelope_sample in
  exists d', run_envelope (fun _ _ _ => false) (fun _ _ => 0) 21 d 5 amplitude =
      Ok (d', replicate 3 (Level 0) ++ ((fun k => Level (k * 255 / 16)) <$> seqZ 0 17) ++ [Level 255]) /\
    course_of d' 5 amplitude = mkCourse 4 48 255.
Proof.
  intros d. destruct (envelope_course (fun _ _ _ => false) (fun _ _ => 0) d d 5 amplitude (mkRates 1 0 3 128 2) 2 100)
    as (d' & Hrun & _ & _ & _ & _ & Hc & _).
  - split; [lia | split; [by left | split; [apply envelope_sample_ok | split]]].
    + split; [apply vp_sample_ok | done].
    + split; vm_compute; reflexivity.
  - exists d'. split; [exact Hrun | exact Hc].
Defined.

Lemma released_voice_ends_witness :
  let d := envelope_sample in
  exists d1 d2, voice_release d 5 = Ok d1 /\
    run_envelope (fun _ _ _ => false) (fun _ _ => 0) 34 d1 5 amplitude = Ok (d2, release_values 2 100 32 ++ [Level 0]) /\
    is_active d 5 = true /\ is_active d2 5 = false.
Proof.
  intros d. destruct (released_voice_ends (fun _ _ _ => false) (fun _ _ => 0) d 5) as (d1 & d2 & Hrel & Hrun & Ha).
  - apply vp_sample_ok.
  - apply envelope_sample_ok.
  - done.
  - left. by vm_compute.
  - intros s Hs. vm_compute in Hs. by injection Hs as <-.
  - exists d1, d2. split; [exact Hrel | split; [exact Hrun | split; [vm_compute; reflexivity | exact Ha]]].
Defined.
