(* ===== verification/Lpc47m157.v ===== *)
(** * The Super I/O chip (hw/xbox/lpc47m157.c)

    The configuration port with its two registers, the configuration of the chip's
    devices, and the two serial ports that come and go in the I/O space when the
    guest leaves configuration mode. The serial ports themselves, and the ISA bus,
    are outside: a port is where it is mapped and the interrupt line it has.

    The theorems say which accesses are safe, and that the usual sequence of writes
    puts a serial port where the guest wants it. *)

From stdpp Require Import base numbers list.
From Stdlib Require Import ZArith Lia.
From S2P Require Import Prelude.

Abbreviation MAX_DEVICE := 0xC.
Abbreviation DEVICE_SERIAL_PORT_1 := 4.
Abbreviation CONFIG_PORT := 0.
Abbreviation INDEX_PORT := CONFIG_PORT.
Abbreviation DATA_PORT := 1.
Abbreviation ENTER_CONFIG_KEY := 0x55.
Abbreviation EXIT_CONFIG_KEY := 0xAA.
Abbreviation MAX_CONFIG_REG := 0x30.
Abbreviation MAX_DEVICE_REGS := 0xFF.
Abbreviation CONFIG_DEVICE_NUMBER := 0x07.
Abbreviation CONFIG_PORT_LOW := 0x26.
Abbreviation CONFIG_PORT_HIGH := 0x27.
Abbreviation CONFIG_DEVICE_ACTIVATE := 0x30.
Abbreviation CONFIG_DEVICE_BASE_ADDRESS_HIGH := 0x60.
Abbreviation CONFIG_DEVICE_BASE_ADDRESS_LOW := 0x61.
Abbreviation CONFIG_DEVICE_INTERRUPT := 0x70.

(** ** State *)

(** A serial port, with where its registers are mapped and its interrupt line. *)
Record LPC47M157State_Serial := mkSerial {
  active : bool;
  iobase : Z;
  irq : Z;
  io : option Z;
  irq_line : option Z
}.

Record LPC47M157State := mkLPC {
  configuration_mode : bool;
  selected_reg : Z;
  config_regs : list Z;
  device_regs : list (list Z);
  serial : list LPC47M157State_Serial
}.

#[export] Instance eta_serial : Eta LPC47M157State_Serial := fun s =>
  mkSerial (active s) (iobase s) (irq s) (io s) (irq_line s).
#[export] Instance eta_lpc : Eta LPC47M157State := fun s =>
  mkLPC (configuration_mode s) (selected_reg s) (config_regs s) (device_regs s) (serial s).

(** ** Operations *)

(** One turn of the loop of [update_devices], on the registers [dev] of the port. *)
Definition update_serial (dev : list Z) (p : LPC47M157State_Serial) : outcome LPC47M157State_Serial :=
  high ← rd dev CONFIG_DEVICE_BASE_ADDRESS_HIGH;
  low ← rd dev CONFIG_DEVICE_BASE_ADDRESS_LOW;
  int ← rd dev CONFIG_DEVICE_INTERRUPT;
  activate ← rd dev CONFIG_DEVICE_ACTIVATE;
  let base := (high ≪ 8) .| low in
  let irq' := int .& 0x0f in
  let p := if active p && ((activate =? 0) || negb (iobase p =? base) || negb (irq p =? irq')) then
             p <| io := None |> <| irq_line := None |> <| active := false |>
           else p in
  Ok (if negb (active p) && negb (activate =? 0) then
        mkSerial true base irq' (Some base) (if irq' =? 0 then None else Some irq')
      else p).

Definition update_devices (s : LPC47M157State) : outcome LPC47M157State :=
  mfor (seqZ 0 2) (fun i s =>
    p ← rd (serial s) i;
    dev ← rd (device_regs s) (DEVICE_SERIAL_PORT_1 + i);
    p ← update_serial dev p;
    ps ← wr (serial s) i p;
    Ok (s <| serial := ps |>)) s.

Definition lpc47m157_io_write (s : LPC47M157State) (addr val : Z) : outcome LPC47M157State :=
  if (addr =? CONFIG_PORT) && ((val =? ENTER_CONFIG_KEY) || (val =? EXIT_CONFIG_KEY)) then
    if val =? ENTER_CONFIG_KEY then Ok (s <| configuration_mode := true |>)
    else
      s ← (if configuration_mode s then update_devices s else Ok s);
      Ok (s <| configuration_mode := false |>)
  else if configuration_mode s then
    if addr =? INDEX_PORT then Ok (s <| selected_reg := u32 val |>)
    else if addr =? DATA_PORT then
      if selected_reg s <? MAX_CONFIG_REG then
        regs ← wr (config_regs s) (selected_reg s) (u8 val);
        Ok (s <| config_regs := regs |>)
      else
        n ← rd (config_regs s) CONFIG_DEVICE_NUMBER;
        c_assert (n <? MAX_DEVICE);;
        dev ← rd (device_regs s) n;
        dev ← wr dev (selected_reg s) (u8 val);
        devs ← wr (device_regs s) n dev;
        Ok (s <| device_regs := devs |>)
    else AssertFail
  else Ok s.

Definition lpc47m157_io_read (s : LPC47M157State) (addr : Z) : outcome Z :=
  if configuration_mode s then
    if addr =? DATA_PORT then
      if selected_reg s <? MAX_CONFIG_REG then rd (config_regs s) (selected_reg s)
      else
        n ← rd (config_regs s) CONFIG_DEVICE_NUMBER;
        c_assert (n <? MAX_DEVICE);;
        dev ← rd (device_regs s) n;
        rd dev (selected_reg s)
    else if negb (addr =? INDEX_PORT) then AssertFail else Ok 0
  else Ok 0.

(** The base address of the configuration port, by the SYSOPT strap, and its
    registers. *)
Definition lpc47m157_realize (sysopt : bool) (s : LPC47M157State) : outcome (Z * LPC47M157State) :=
  let base := if sysopt then 0x4e else 0x2e in
  regs ← wr (config_regs s) CONFIG_PORT_LOW (base .& 0xff);
  regs ← wr regs CONFIG_PORT_HIGH (base ≫ 8);
  Ok (base, s <| config_regs := regs |>).

Definition lpc47m157_post_load (s : LPC47M157State) : outcome LPC47M157State := update_devices s.

(** ** Well-formed states *)

(** A port that is active is mapped at its base, with its interrupt line; one that is
    not is nowhere. *)
Definition serial_ok (p : LPC47M157State_Serial) : Prop :=
  if active p then io p = Some (iobase p) /\ irq_line p = (if irq p =? 0 then None else Some (irq p))
  else io p = None /\ irq_line p = None.

Record lpc_ok (s : LPC47M157State) : Prop := {
  ok_reg : in_u 8 (selected_reg s);
  ok_config : zlen (config_regs s) = MAX_CONFIG_REG /\ Forall (in_u 8) (config_regs s);
  ok_devices : zlen (device_regs s) = MAX_DEVICE /\
    Forall (fun dev => zlen dev = MAX_DEVICE_REGS /\ Forall (in_u 8) dev) (device_regs s);
  ok_serial : zlen (serial s) = 2 /\ Forall serial_ok (serial s)
}.

(** Register [r] of device [n], and where the registers put serial port [i]. *)
Definition dev_reg (s : LPC47M157State) (n r : Z) : Z := nthZ (default [] (device_regs s !! Z.to_nat n)) r.

Definition serial_base (s : LPC47M157State) (i : Z) : Z :=
  256 * dev_reg s (DEVICE_SERIAL_PORT_1 + i) CONFIG_DEVICE_BASE_ADDRESS_HIGH +
  dev_reg s (DEVICE_SERIAL_PORT_1 + i) CONFIG_DEVICE_BASE_ADDRESS_LOW.

Definition serial_irq (s : LPC47M157State) (i : Z) : Z :=
  dev_reg s (DEVICE_SERIAL_PORT_1 + i) CONFIG_DEVICE_INTERRUPT mod 16.

(** The mapping and the line that the registers ask for. *)
Definition serial_wanted (s : LPC47M157State) (i : Z) : option Z * option Z :=
  if dev_reg s (DEVICE_SERIAL_PORT_1 + i) CONFIG_DEVICE_ACTIVATE =? 0 then (None, None)
  else (Some (serial_base s i), if serial_irq s i =? 0 then None else Some (serial_irq s i)).

(** The accesses that go wrong: a device the chip does not have, and the register
    behind the last. *)
Definition bad_access (s : LPC47M157State) (addr : Z) : bool :=
  configuration_mode s && (addr =? DATA_PORT) && (MAX_CONFIG_REG <=? selected_reg s) &&
  ((MAX_DEVICE <=? nthZ (config_regs s) CONFIG_DEVICE_NUMBER) || (selected_reg s =? 0xFF)).

(** ** Rows of registers *)

Lemma device_row s n : lpc_ok s -> 0 <= n < MAX_DEVICE ->
  exists dev, rd (device_regs s) n = Ok dev /\ zlen dev = MAX_DEVICE_REGS /\ Forall (in_u 8) dev /\
    (forall r, dev_reg s n r = nthZ dev r).
Proof.
  intros Hok Hn. destruct (ok_devices s Hok) as [Hl Hall]. destruct (rd_ok (device_regs s) n) as (dev & Hrd & Hlk); [lia |].
  destruct (proj1 (Forall_lookup _ _) Hall _ _ Hlk). exists dev. split; [done | split; [done | split; [done |]]].
  intros r. unfold dev_reg. by rewrite Hlk.
Qed.

Lemma dev_reg_range s n r : lpc_ok s -> 0 <= n < MAX_DEVICE -> 0 <= r < MAX_DEVICE_REGS -> in_u 8 (dev_reg s n r).
Proof.
  intros Hok Hn Hr. destruct (device_row s n Hok Hn) as (dev & _ & Hl & Hd & ->). apply nthZ_Forall; [done | lia].
Qed.

Lemma device_number s : lpc_ok s -> rd (config_regs s) CONFIG_DEVICE_NUMBER = Ok (nthZ (config_regs s) CONFIG_DEVICE_NUMBER) /\
  in_u 8 (nthZ (config_regs s) CONFIG_DEVICE_NUMBER).
Proof.
  intros Hok. destruct (ok_config s Hok) as [Hl Hd]. split; [apply rd_nthZ; lia | apply nthZ_Forall; [done | lia]].
Qed.

(** ** The serial ports follow the registers *)

Lemma update_serial_ok s i p dev : lpc_ok s -> 0 <= i < 2 -> serial_ok p ->
  zlen dev = MAX_DEVICE_REGS -> (forall r, dev_reg s (DEVICE_SERIAL_PORT_1 + i) r = nthZ dev r) ->
  exists p', update_serial dev p = Ok p' /\ serial_ok p' /\ (io p', irq_line p') = serial_wanted s i.
Proof.
  intros Hok Hi Hp Hl Hdev. unfold update_serial. rewrite !(rd_nthZ dev) by lia. cbn [mbind outcome_bind].
  pose proof (dev_reg_range s (4 + i) 0x60 Hok ltac:(lia) ltac:(lia)) as Hh.
  pose proof (dev_reg_range s (4 + i) 0x61 Hok ltac:(lia) ltac:(lia)) as Hlo.
  rewrite <- !Hdev. rewrite Z.lor_comm, (lor_shiftl_add 8) by (done || lia).
  replace (dev_reg s (4 + i) 97 + dev_reg s (4 + i) 96 * 2 ^ 8) with (serial_base s i) by (unfold serial_base; lia).
  change 0x0f with (Z.ones 4). rewrite Z.land_ones by lia. fold (serial_irq s i).
  unfold serial_wanted. eexists; split; [reflexivity |].
  destruct p as [a b q m l]. unfold serial_ok in *. cbn in *. destruct a; destruct Hp as [-> ->]; zcases; cbn; subst; done.
Qed.

Definition ports_follow (s : LPC47M157State) (n : Z) (s' : LPC47M157State) : Prop :=
  lpc_ok s' /\ configuration_mode s' = configuration_mode s /\ selected_reg s' = selected_reg s /\
  config_regs s' = config_regs s /\ device_regs s' = device_regs s /\
  forall j p, 0 <= j < n -> serial s' !! Z.to_nat j = Some p -> (io p, irq_line p) = serial_wanted s j.

Lemma serial_wanted_ext s s' i : device_regs s' = device_regs s -> serial_wanted s' i = serial_wanted s i.
Proof. intros E. unfold serial_wanted, serial_base, serial_irq, dev_reg. by rewrite E. Qed.

Lemma update_devices_ok s : lpc_ok s -> exists s', update_devices s = Ok s' /\ ports_follow s 2 s'.
Proof.
  intros Hok. unfold update_devices. apply (mfor_seqZ (ports_follow s) 0 2).
  - split; [done |]. do 4 (split; [done |]). lia.
  - intros i t Hi (Ht & Em & Er & Ec & Ed & Hj). destruct (ok_serial t Ht) as [Hl Hall].
    destruct (rd_ok (serial t) i) as (p & -> & Hlk); [lia |]. cbn [mbind outcome_bind].
    destruct (device_row t (4 + i) Ht) as (dev & -> & Hld & _ & Hdev); [lia |]. cbn [mbind outcome_bind].
    destruct (update_serial_ok t i p dev) as (p' & -> & Hp' & Hw); [done | lia | by eapply Forall_lookup_1 | done | done |].
    cbn [mbind outcome_bind]. rewrite wr_ok by lia. cbn [mbind outcome_bind]. eexists; split; [reflexivity |].
    split; [| do 4 (split; [done |])].
    + destruct Ht as [? ? ? _]. split; [done.. |]. cbn. split; [by rewrite length_insert | by apply Forall_insert].
    + intros j q Hj' Hq. cbn in Hq. rewrite <- (serial_wanted_ext s t j) by done. apply list_lookup_insert_Some in Hq.
      destruct Hq as [(E & -> & _) | (Hne & Hq)].
      * by replace j with i by lia.
      * rewrite (serial_wanted_ext s t j) by done. apply Hj; [| done]. assert (j <> i) by (intros ->; done). lia.
Qed.

(** ** Accesses *)

Lemma lpc_ok_mode s b : lpc_ok s -> lpc_ok (s <| configuration_mode := b |>).
Proof. intros []. by split. Qed.

Lemma lpc_ok_select s r : lpc_ok s -> in_u 8 r -> lpc_ok (s <| selected_reg := r |>).
Proof. intros [] ?. by split. Qed.

Lemma dev_reg_set s n dev m r : 0 <= n < zlen (device_regs s) -> 0 <= m ->
  dev_reg (s <| device_regs := <[Z.to_nat n := dev]> (device_regs s) |>) m r = if m =? n then nthZ dev r else dev_reg s m r.
Proof.
  intros Hn Hm. unfold dev_reg.
  change (device_regs (s <| device_regs := <[Z.to_nat n := dev]> (device_regs s) |>)) with (<[Z.to_nat n := dev]> (device_regs s)).
  destruct (Z.eqb_spec m n) as [->|Hne]; [by rewrite list_lookup_insert_eq by lia | by rewrite list_lookup_insert_ne by lia].
Qed.

(** A write to a register of a device. *)
Lemma write_device s n x : lpc_ok s -> configuration_mode s = true -> MAX_CONFIG_REG <= selected_reg s < MAX_DEVICE_REGS ->
  nthZ (config_regs s) CONFIG_DEVICE_NUMBER = n -> 0 <= n < MAX_DEVICE -> in_u 8 x ->
  exists s', lpc47m157_io_write s DATA_PORT x = Ok s' /\ lpc_ok s' /\ configuration_mode s' = true /\
    config_regs s' = config_regs s /\ serial s' = serial s /\
    forall m r, 0 <= m < MAX_DEVICE -> dev_reg s' m r = if (m =? n) && (r =? selected_reg s) then x else dev_reg s m r.
Proof.
  intros Hok Hm Hr Hn Hn' Hx. unfold lpc47m157_io_write. rewrite Hm. cbn [Z.eqb andb].
  destruct (Z.ltb_spec (selected_reg s) 0x30); [lia |]. destruct (device_number s Hok) as [-> _]. rewrite Hn. cbn [mbind outcome_bind].
  rewrite c_assert_true by (apply Z.ltb_lt; lia). destruct (device_row s n Hok Hn') as (dev & -> & Hl & Hd & Hdev).
  cbn [mbind outcome_bind]. rewrite (wr_ok dev) by lia. cbn [mbind outcome_bind]. destruct (ok_devices s Hok) as [Hld Hall].
  rewrite (wr_ok (device_regs s)) by lia. cbn [mbind outcome_bind]. rewrite (in_u_small 8 x Hx).
  eexists; split; [reflexivity |]. split; [| do 3 (split; [done |])].
  - destruct Hok. split; try done. cbn. split; [by rewrite length_insert |].
    apply Forall_insert; [done |]. rewrite length_insert. split; [done | by apply Forall_insert].
  - intros m r Hm'. rewrite dev_reg_set by lia. destruct (Z.eqb_spec m n) as [->|Hne]; cbn [andb]; [| done].
    rewrite nthZ_insert by lia. by rewrite Hdev.
Qed.

(** A write to a register of the chip. *)
Lemma write_config s x : lpc_ok s -> configuration_mode s = true -> selected_reg s < MAX_CONFIG_REG -> in_u 8 x ->
  exists s', lpc47m157_io_write s DATA_PORT x = Ok s' /\ lpc_ok s' /\ configuration_mode s' = true /\
    device_regs s' = device_regs s /\ nthZ (config_regs s') (selected_reg s) = x.
Proof.
  intros Hok Hm Hr Hx. unfold lpc47m157_io_write. rewrite Hm. cbn [Z.eqb andb].
  destruct (Z.ltb_spec (selected_reg s) 0x30); [| lia]. destruct (ok_config s Hok) as [Hl Hd]. destruct (ok_reg s Hok).
  rewrite wr_ok by lia. cbn [mbind outcome_bind]. rewrite (in_u_small 8 x Hx). eexists; split; [reflexivity |].
  split; [| split; [done | split; [done |]]].
  - destruct Hok. split; try done. cbn. split; [by rewrite length_insert | by apply Forall_insert].
  - etransitivity; [apply (nthZ_insert (config_regs s)); lia |]. by rewrite Z.eqb_refl.
Qed.

Lemma select_reg s r : lpc_ok s -> configuration_mode s = true -> in_u 8 r -> r <> ENTER_CONFIG_KEY -> r <> EXIT_CONFIG_KEY ->
  lpc47m157_io_write s INDEX_PORT r = Ok (s <| selected_reg := r |>).
Proof.
  intros Hok Hm Hr He Hx. unfold lpc47m157_io_write. rewrite Hm, u32_small by (destruct Hr; lia). by zcases.
Qed.

(** An access to a register that is not there does not go on. *)
Lemma bad_access_fails s addr val : lpc_ok s -> bad_access s addr = true ->
  (forall s', lpc47m157_io_write s addr val <> Ok s') /\ (forall x, lpc47m157_io_read s addr <> Ok x).
Proof.
  intros Hok. unfold bad_access. intros [[[Hm Ha%Z.eqb_eq]%andb_true_iff Hr%Z.leb_le]%andb_true_iff Hbad]%andb_true_iff.
  subst addr. unfold lpc47m157_io_write, lpc47m157_io_read. rewrite Hm. cbn [Z.eqb andb].
  destruct (Z.ltb_spec (selected_reg s) 0x30); [lia |]. destruct (device_number s Hok) as [-> Hn]. cbn [mbind outcome_bind].
  destruct (Z.ltb_spec (nthZ (config_regs s) CONFIG_DEVICE_NUMBER) MAX_DEVICE) as [Hlt|Hge]; [| done].
  rewrite !c_assert_true by done. destruct (device_row s (nthZ (config_regs s) CONFIG_DEVICE_NUMBER) Hok) as (dev & -> & Hl & _); [destruct Hn; split; [done | exact Hlt] |].
  cbn [mbind outcome_bind]. apply orb_true_iff in Hbad as [Hbad%Z.leb_le | Hbad%Z.eqb_eq]; [lia |].
  rewrite wr_undef, rd_undef by lia. done.
Qed.

(** What is selected, where the access is not a bad one. *)
Lemma good_data s : lpc_ok s -> configuration_mode s = true -> bad_access s DATA_PORT = false ->
  selected_reg s < MAX_CONFIG_REG \/
  MAX_CONFIG_REG <= selected_reg s < MAX_DEVICE_REGS /\ 0 <= nthZ (config_regs s) CONFIG_DEVICE_NUMBER < MAX_DEVICE.
Proof.
  intros Hok Hm. destruct (ok_reg s Hok). destruct (device_number s Hok) as [_ [? ?]]. unfold bad_access. rewrite Hm.
  cbn [Z.eqb andb]. zcases; cbn [andb orb]; (done || lia).
Qed.

Lemma good_write s addr val : lpc_ok s -> addr = INDEX_PORT \/ addr = DATA_PORT -> in_u 8 val -> bad_access s addr = false ->
  exists s', lpc47m157_io_write s addr val = Ok s' /\ lpc_ok s'.
Proof.
  intros Hok [-> | ->] Hval Hbad.
  - clear Hbad. unfold lpc47m157_io_write. cbn [Z.eqb andb]. destruct (Z.eqb_spec val ENTER_CONFIG_KEY); cbn [orb].
    { eexists; split; [reflexivity | by apply lpc_ok_mode]. }
    destruct (Z.eqb_spec val EXIT_CONFIG_KEY); cbn [orb].
    + destruct (update_devices_ok s Hok) as (s' & Hrun & Hs' & _).
      destruct (configuration_mode s); rewrite ?Hrun; eexists; (split; [reflexivity | by apply lpc_ok_mode]).
    + destruct (configuration_mode s); [| by exists s]. rewrite u32_small by (destruct Hval; lia).
      eexists; split; [reflexivity | by apply lpc_ok_select].
  - destruct (configuration_mode s) eqn:Hm; [| unfold lpc47m157_io_write; rewrite Hm; by exists s].
    destruct (good_data s Hok Hm Hbad) as [Hlt | [Hr Hn]].
    + destruct (write_config s val Hok Hm Hlt Hval) as (s' & Hw & Hs' & _). by exists s'.
    + destruct (write_device s _ val Hok Hm Hr eq_refl Hn Hval) as (s' & Hw & Hs' & _). by exists s'.
Qed.

Lemma good_read s addr : lpc_ok s -> addr = INDEX_PORT \/ addr = DATA_PORT -> bad_access s addr = false ->
  exists x, lpc47m157_io_read s addr = Ok x /\ in_u 8 x.
Proof.
  intros Hok Haddr Hbad. unfold lpc47m157_io_read. destruct (configuration_mode s) eqn:Hm; [| by exists 0].
  destruct Haddr as [-> | ->]; cbn [Z.eqb negb]; [by exists 0 |]. destruct (ok_reg s Hok), (device_number s Hok) as [-> _].
  destruct (good_data s Hok Hm Hbad) as [Hlt | [Hr Hn]]; destruct (Z.ltb_spec (selected_reg s) MAX_CONFIG_REG); try lia.
  - destruct (ok_config s Hok). rewrite rd_nthZ by lia. eexists; split; [reflexivity |]. apply nthZ_Forall; [done | lia].
  - cbn [mbind outcome_bind]. rewrite c_assert_true by (apply Z.ltb_lt; lia).
    destruct (device_row s _ Hok Hn) as (dev & -> & Hl & Hdev & _). cbn [mbind outcome_bind].
    rewrite rd_nthZ by lia. eexists; split; [reflexivity |]. apply nthZ_Forall; [done | lia].
Qed.

(** An access to the configuration port, a byte at address 0 or 1, keeps the chip
    well-formed, with each serial port mapped where its state says, and a read gives a
    byte; except for an access, in configuration mode, to a register of a device
    number that the chip does not have or to register 0xFF of a device, which is
    behind the end of the array. Those fail an assertion or leave the array. *)
Theorem lpc_access_safe s addr val : lpc_ok s -> addr = INDEX_PORT \/ addr = DATA_PORT -> in_u 8 val ->
  if bad_access s addr then
    (forall s', lpc47m157_io_write s addr val <> Ok s') /\ (forall x, lpc47m157_io_read s addr <> Ok x)
  else (exists s', lpc47m157_io_write s addr val = Ok s' /\ lpc_ok s') /\
       (exists x, lpc47m157_io_read s addr = Ok x /\ in_u 8 x).
Proof.
  intros Hok Haddr Hval. destruct (bad_access s addr) eqn:Hbad; [by apply bad_access_fails |].
  split; [by apply good_write | by apply good_read].
Qed.

(** ** Programming a serial port *)

(** A run of writes. *)
Definition io_writes (ws : list (Z * Z)) (s : LPC47M157State) : outcome LPC47M157State :=
  mfor ws (fun w s => lpc47m157_io_write s w.1 w.2) s.

(** What software writes to configure serial port [i]. *)
Definition serial_setup (i high low int activate : Z) : list (Z * Z) :=
  [(CONFIG_PORT, ENTER_CONFIG_KEY); (INDEX_PORT, CONFIG_DEVICE_NUMBER); (DATA_PORT, DEVICE_SERIAL_PORT_1 + i)] ++
  concat ((fun '(r, x) => [(INDEX_PORT, r); (DATA_PORT, x)]) <$>
    [(CONFIG_DEVICE_BASE_ADDRESS_HIGH, high); (CONFIG_DEVICE_BASE_ADDRESS_LOW, low); (CONFIG_DEVICE_INTERRUPT, int);
     (CONFIG_DEVICE_ACTIVATE, activate)]) ++ [(CONFIG_PORT, EXIT_CONFIG_KEY)].

(** In configuration mode, with device [n] selected. *)
Definition configuring (n : Z) (s : LPC47M157State) : Prop :=
  lpc_ok s /\ configuration_mode s = true /\ nthZ (config_regs s) CONFIG_DEVICE_NUMBER = n.

Lemma poke s n r x ws : configuring n s -> 0 <= n < MAX_DEVICE -> MAX_CONFIG_REG <= r < MAX_DEVICE_REGS ->
  r <> ENTER_CONFIG_KEY -> r <> EXIT_CONFIG_KEY -> in_u 8 x ->
  exists s', io_writes ((INDEX_PORT, r) :: (DATA_PORT, x) :: ws) s = io_writes ws s' /\ configuring n s' /\
    forall m q, 0 <= m < MAX_DEVICE -> dev_reg s' m q = if (m =? n) && (q =? r) then x else dev_reg s m q.
Proof.
  intros (Hok & Hm & Hn) Hnr Hr He Hx Hv. assert (Hr8 : in_u 8 r) by (split; lia).
  unfold io_writes. cbn [mfor fst snd]. rewrite (select_reg s r) by done. cbn [mbind outcome_bind].
  destruct (write_device (s <| selected_reg := r |>) n x) as (s' & -> & Hok' & Hm' & Ec & _ & Hd);
    [by apply lpc_ok_select | done.. |].
  cbn [mbind outcome_bind]. exists s'. split; [done | split; [| exact Hd]].
  split; [done | split; [done |]]. by rewrite Ec.
Qed.

Lemma begin_setup s n ws : lpc_ok s -> 0 <= n < MAX_DEVICE ->
  exists s', io_writes ((CONFIG_PORT, ENTER_CONFIG_KEY) :: (INDEX_PORT, CONFIG_DEVICE_NUMBER) :: (DATA_PORT, n) :: ws) s =
      io_writes ws s' /\ configuring n s' /\ device_regs s' = device_regs s.
Proof.
  intros Hok Hn. unfold io_writes. cbn [mfor fst snd].
  change (lpc47m157_io_write s CONFIG_PORT ENTER_CONFIG_KEY) with (Ok (s <| configuration_mode := true |>)).
  cbn [mbind outcome_bind]. rewrite select_reg by first [done | by apply lpc_ok_mode | split; lia]. cbn [mbind outcome_bind].
  destruct (write_config (s <| configuration_mode := true |> <| selected_reg := 7 |>) n) as (s' & -> & Hok' & Hm' & Ed & Hc);
    [apply lpc_ok_select; [by apply lpc_ok_mode | split; lia] | done | done | split; lia |].
  cbn [mbind outcome_bind]. by exists s'.
Qed.

(** Software configures a serial port. From any state of the chip, the writes that
    enter configuration mode, select serial port [i], set its base address, interrupt
    and activation and leave configuration mode again succeed. Afterwards the port is
    mapped at the address and has the interrupt line it was given, or is gone if it was
    deactivated, and the other port is where its registers say. *)
Theorem lpc_configures_serial s i high low int activate :
  lpc_ok s -> 0 <= i < 2 -> in_u 8 high -> in_u 8 low -> in_u 8 int -> in_u 8 activate ->
  exists s', io_writes (serial_setup i high low int activate) s = Ok s' /\ lpc_ok s' /\ configuration_mode s' = false /\
    forall j p, 0 <= j < 2 -> serial s' !! Z.to_nat j = Some p ->
      (io p, irq_line p) =
        if j =? i then
          if activate =? 0 then (None, None)
          else (Some (256 * high + low), if int mod 16 =? 0 then None else Some (int mod 16))
        else serial_wanted s j.
Proof.
  intros Hok Hi Hh Hl Hn Ha. unfold serial_setup. cbn [app fmap list_fmap concat].
  destruct (begin_setup s (4 + i)
    ([(INDEX_PORT, CONFIG_DEVICE_BASE_ADDRESS_HIGH); (DATA_PORT, high); (INDEX_PORT, CONFIG_DEVICE_BASE_ADDRESS_LOW); (DATA_PORT, low);
      (INDEX_PORT, CONFIG_DEVICE_INTERRUPT); (DATA_PORT, int); (INDEX_PORT, CONFIG_DEVICE_ACTIVATE); (DATA_PORT, activate);
      (CONFIG_PORT, EXIT_CONFIG_KEY)])) as (s1 & -> & C1 & E1); [done | lia |].
  edestruct (poke s1 (4 + i) CONFIG_DEVICE_BASE_ADDRESS_HIGH high) as (s2 & -> & C2 & E2); [done | lia | lia | done | done | done |].
  edestruct (poke s2 (4 + i) CONFIG_DEVICE_BASE_ADDRESS_LOW low) as (s3 & -> & C3 & E3); [done | lia | lia | done | done | done |].
  edestruct (poke s3 (4 + i) CONFIG_DEVICE_INTERRUPT int) as (s4 & -> & C4 & E4); [done | lia | lia | done | done | done |].
  edestruct (poke s4 (4 + i) CONFIG_DEVICE_ACTIVATE activate) as (s5 & -> & (Hok5 & Hm5 & _) & E5); [done | lia | lia | done | done | done |].
  assert (Hregs : forall j q, 0 <= j < 2 -> dev_reg s5 (4 + j) q =
    if j =? i then if q =? CONFIG_DEVICE_ACTIVATE then activate else if q =? CONFIG_DEVICE_INTERRUPT then int
                   else if q =? CONFIG_DEVICE_BASE_ADDRESS_LOW then low else if q =? CONFIG_DEVICE_BASE_ADDRESS_HIGH then high
                   else dev_reg s (4 + j) q
    else dev_reg s (4 + j) q).
  { intros j q Hj. rewrite E5, E4, E3, E2 by lia. unfold dev_reg. rewrite E1.
    replace (4 + j =? 4 + i) with (j =? i) by (zcases; lia). destruct (j =? i); done. }
  destruct (update_devices_ok s5 Hok5) as (s6 & Hu & Hok6 & _ & _ & _ & _ & Hp).
  exists (s6 <| configuration_mode := false |>). split; [| split; [by apply lpc_ok_mode | split; [done |]]].
  - unfold io_writes. cbn [mfor fst snd]. unfold lpc47m157_io_write. cbn [Z.eqb andb orb]. rewrite Hm5, Hu. done.
  - intros j p Hj Hlk. rewrite (Hp j p Hj Hlk). unfold serial_wanted, serial_base, serial_irq. rewrite !Hregs by done.
    by destruct (j =? i).
Qed.

(** ** A fresh chip *)

Definition lpc_fresh : LPC47M157State :=
  mkLPC false 0 (replicate 48 0) (replicate 12 (replicate 255 0)) (replicate 2 (mkSerial false 0 0 None None)).

Lemma lpc_fresh_ok : lpc_ok lpc_fresh.
Proof.
  assert (H0 : in_u 8 0) by (split; lia).
  split; cbn [lpc_fresh selected_reg config_regs device_regs serial]; [done | | |];
    (split; [by rewrite length_replicate |]); apply Forall_replicate; try done.
  split; [by rewrite length_replicate |]. by apply Forall_replicate.
Qed.

(** Device 12, which the chip does not have, and the configuration of device 4. *)
Lemma lpc_access_safe_witness :
  let at_ n := mkLPC true 0x30 (<[7%nat := n]> (replicate 48 0)) (replicate 12 (replicate 255 0)) (serial lpc_fresh) in
  (forall s', lpc47m157_io_write (at_ 12) DATA_PORT 1 <> Ok s') /\
  exists s', lpc47m157_io_write (at_ 4) DATA_PORT 1 = Ok s' /\ lpc_ok s'.
Proof.
  assert (Hok : forall n, in_u 8 n ->
    lpc_ok (mkLPC true 0x30 (<[7%nat := n]> (replicate 48 0)) (replicate 12 (replicate 255 0)) (serial lpc_fresh))).
  { intros n Hn. destruct lpc_fresh_ok as [_ [? ?] ? ?]. split; cbn; [split; lia | | done | done].
    split; [done |]. by apply (Forall_insert _ (config_regs lpc_fresh) 7). }
  intros at_. split.
  - apply (lpc_access_safe (at_ 12) DATA_PORT 1); [apply Hok; split; lia | by right | split; lia].
  - apply (lpc_access_safe (at_ 4) DATA_PORT 1); [apply Hok; split; lia | by right | split; lia].
Defined.

(** COM1 at 0x3F8 with interrupt 4. *)
Lemma lpc_configures_serial_witness :
  exists s', io_writes (serial_setup 0 0x03 0xF8 4 1) lpc_fresh = Ok s' /\ lpc_ok s' /\
    forall p, serial s' !! 0%nat = Some p -> io p = Some 0x3F8 /\ irq_line p = Some 4.
Proof.
  destruct (lpc_configures_serial lpc_fresh 0 0x03 0xF8 4 1 lpc_fresh_ok) as (s' & Hrun & Hok & _ & Hp); [lia | split; lia.. |].
  exists s'. split; [exact Hrun | split; [exact Hok |]]. intros p Hlk. specialize (Hp 0 p ltac:(lia) Hlk).
  cbn in Hp. by injection Hp as -> ->.
Defined.

(** Register 0xFF passes the checks of the code, and is behind the array of its device. *)
Example register_ff_outside :
  io_writes [(0, 0x55); (0, 0xFF); (1, 1)] lpc_fresh = Undef.
Proof. vm_compute. reflexivity. Qed.
